(* ===== verification/_CoqProject ===== *)
-Q . S2P
Prelude.v
Bitfield.v
IntMath.v
AddrRange.v
AimcSpec.v
AimcCluster.v
AimcCheck.v
AimcLib.v
AimcInsn.v
AimcAgree.v
EventQueue.v
SatCounter.v
DirPred.v
LocalBP.v
BiModeBP.v
TournamentBP.v
LtageHist.v
Ltage.v
LtageSafe.v
LtageCorrect.v
LtageLoop.v
Ras.v
Btb.v
IndirectPred.v
BPredUnit.v
BPredTheorems.v
PhysReg.v
RenameMap.v
Rename.v
RenameInv.v
RenameTheorems.v
RenameInit.v
RenameCorrect.v
CircleBuf.v
AddrRangeMap.v
ReplPolicy.v
CacheBlk.v
CacheTags.v
MemPacket.v
TagStore.v
Cache.v
SnoopFilter.v
AbstractMem.v
CoherentXBar.v
CohSystem.v
FuncAccess.v
CohLine.v
CohFill.v
CohHit.v
CohMiss.v
CohSnoop.v
CohFilter.v
CohMem.v
CohBus.v
CohProto.v
CohCorrect.v
CohTheorems.v
FuncLine.v
PortProxy.v
FuncTheorems.v
PageTable.v
ProcMem.v
ProcTheorems.v
Fplib.v
FpSpec.v
FpRound.v
FpArith.v
FpMul.v
FpWords.v
FpFused.v
FpDiv.v
FpSqrt.v
FpNearest.v
FpOps.v
FpConvert.v
FpRoundInt.v
FpFormats.v
FpCompare.v
FpSpecial.v
FpTheorems.v
