(* ===== verification/Prelude.v ===== *)
(** * A verified model of ALPINE: AIMClib on gem5-X

    ALPINE couples a processor simulated by gem5 (src/gem5-X-ALPINE) with
    analog in-memory computing (AIMC) tiles, which a program drives through
    AIMClib (src/aimclib).  This library models, function by function, the
    parts of both on which the results of such a program depend, and proves
    what makes them correct.  Paths below are relative to
    src/gem5-X-ALPINE/src unless they start with aimclib.

    ** How the code is modelled

    The model is executable.  A C++ function that may fail is a Gallina function
    into [res] (this file): [Ok] of its results, [Panic] where an assertion,
    [panic] or [fatal] stops the simulator, [Ub] where C++ leaves the behaviour
    undefined, [OutOfFuel] where a loop that the kernel cannot see to terminate
    was cut off; theorems on such loops state how much fuel is enough.  Integers
    are [Z] with the conversions of their width ([u32], [s8], ...) written out;
    arrays and vectors are lists read by [aread] and [awrite], which are [Ub]
    outside their bounds; objects with identity (events, tiles) live in a heap
    from addresses to objects; maps are [gmap].  Virtual classes are type
    classes, with the laws their clients rely on in a second class.

    ** The parts

    - AIMC.  [AimcSpec] is the specification of a tile, with whole-vector
      operations, and the interface [AimcDevice] with its laws.  [AimcCluster]
      (dev/arm/aimc_cluster.hh and .cc, the device of gem5) and [AimcCheck]
      (aimclib/aimc_check.hh, the checker on the host) implement it.  [AimcLib]
      (the rest of aimclib, with the program of example.cc) calls the five
      operations of aimclib ([AimcOps], with laws of their own), which each of the two
      builds aimc.hh selects provides: with the checker they are the wrappers
      around a device ([AimcLib.checker_ops]), for gem5 the intrinsics of
      aimc_intrinsics.hh, whose inline assembly, encoding, decoding and
      instructions (arch/arm/isa/insts/data64.isa) are in [AimcInsn].  [AimcAgree]
      is the build over the intrinsics and compares the two.
    - Event queue.  [EventQueue] (sim/eventq.hh, eventq.cc) is the two-level
      linked list in a heap of events, refined to an agenda: the list of events
      in the order they are serviced.
    - Branch prediction (cpu/pred).  [SatCounter], [DirPred] (the interface of a
      direction predictor), its instances [LocalBP], [BiModeBP] and
      [TournamentBP], the stack [Ras], the buffer [Btb], [IndirectPred], and
      [BPredUnit] with [BPredTheorems] over any direction predictor.  [LtageHist],
      [Ltage], [LtageSafe], [LtageCorrect] and [LtageLoop] are the L-TAGE
      predictor, which is not an instance of the laws: its squash after anything
      but a branch keeps the wrong history (a finding).
    - Register renaming (cpu/o3).  [PhysReg] and [RenameMap] are the register
      file, free lists, scoreboard and rename maps; [Rename] the renaming, squash,
      release and commit of instructions; [RenameInv], [RenameTheorems],
      [RenameInit] and [RenameCorrect] their correctness.
    - Caches (mem/cache).  [ReplPolicy] (the interface of replacement and eight
      policies), [CacheBlk] (blocks and their locks), [CacheTags]
      (set-associative tags), [TagStore] (the interface of the tags), [Cache]
      (requests, misses, fills, evictions and snoops in atomic mode).
    - Interconnect and memory (mem).  [MemPacket] (packet.hh, request.hh),
      [SnoopFilter], [CoherentXBar], [AbstractMem], and [CohSystem]: caches of any
      number of processors on one crossbar over one memory.
    - Functional accesses (mem).  [FuncAccess] is how a debug access passes through
      packets, caches, crossbar and memory (the functional halves of the files
      above), [FuncLine] follows it on one line.  [PortProxy] cuts a region into
      chunks (base/chunk_generator.hh) and accesses memory chunk by chunk
      (port_proxy.hh and .cc, fs_translating_port_proxy.cc, sim/byteswap.hh);
      [FuncTheorems] is about both.
    - Memory of an emulated process.  [PageTable] (mem/page_table.hh and .cc),
      [ProcMem] (the page frames of sim/system.cc, the stack of sim/process.cc, and
      mem/se_translating_port_proxy.cc) and [ProcTheorems], which relates virtual
      addresses to the memory system below.
    - Floating point (arch/arm/insts).  [Fplib] is fplib.hh and fplib.cc, the
      operations of the ARM instructions on binary16, binary32 and binary64 in
      integer arithmetic.  [FpSpec] says what an operation is to compute: a
      rational number, rounded.  [FpRound] is about rounding, [FpArith] about
      addition, [FpMul] multiplication, [FpWords] numbers of two words, [FpFused]
      the fused operation, [FpDiv] division and [FpSqrt] the root with Newton's
      iterations, [FpConvert] integers, [FpRoundInt] rounding to an integer,
      [FpFormats] conversions between formats, [FpCompare] comparisons, maximum
      and minimum, [FpSpecial] NaNs and infinities; [FpNearest] shows what
      rounding to nearest means, [FpOps] adds the status register, and
      [FpTheorems] is about the functions of the instructions.
    - Utilities.  [Bitfield], [IntMath], [AddrRange], [AddrRangeMap], [CircleBuf].

    ** What the theorems show

    - The memory system behaves as one flat memory.  [CohLine] to [CohMiss] follow
      one cache: a hit, an eviction, a fill, a miss.  [CohSnoop] is its answer to a
      snoop, [CohFilter] what the snoop filter knows, [CohMem] memory, [CohBus] a
      request on the crossbar.  [CohProto] is the protocol on one line as an
      invariant, and that each step keeps it; [CohCorrect] puts the steps together
      and [CohTheorems] starts from the constructors: every request is answered
      (so no assertion of the caches, crossbar or filter can fail), the answers
      are those of a flat memory serving the same requests, a line has one writer
      or many readers, clean copies agree with memory and the snoop filter covers
      the caches.
    - A debug access is one of the requests of that flat memory: interleaved with
      the others it reads what they wrote, and they read what it writes, and it
      changes nothing else.  So what a port proxy writes over any number of lines
      it reads back, and what it writes to virtual addresses, allocating pages on
      the way, it reads back from them.
    - The page table is a partial map of addresses under mapping, moving and
      unmapping, unless a move fills the hash table up to where it rehashes, which
      is undefined behaviour of the code; it refuses what would clobber it and what
      is not aligned.  The stack grows by exactly the
      pages between the access and its bottom.
    - A matrix-vector product through AIMClib is the exact integer product, over
      any implementation of its operations that keeps the laws.  The wrappers of
      the checker do, and so do the encoded instructions on the device of gem5 for a
      compiler that has the argument of [aimcQueue] in X0, from which its word
      takes the value; for another compiler the builds differ
      ([AimcAgree.stray_register_differs]).
    - Renaming (in the mode of whole vector registers, with the zero register
      renamed by the first thread only) gives every source operand the value of the
      last older writer, loses no physical register and recovers exactly from a
      squash.
    - The predictors recover their state exactly from a squash, stay inside their
      tables and learn; L-TAGE hashes the histories its definition says.
    - The event queue services events in order of time and priority, and every
      operation is the one on the agenda.
    - The floating-point operations return the exact result rounded once, in every
      rounding mode and with its exception flags: no number of the format is closer
      when rounding to nearest.  The exact result of a division is the quotient
      and that of a root a real number, given by the rational numbers around it.
      On NaNs, infinities and invalid operands the result is that of a table by
      operation.  Conversions saturate or round, and widening is undone by
      narrowing; comparisons are the order of the numbers.
    - The utilities agree with their mathematical definitions.

    Findings, where the code departs from its comments or its purpose, are
    theorems too (for instance [CohTheorems.temp_block_stuck] and
    [RenameCorrect.elem_rename_misses]).

    ** Bounds, fuel and parameters

    - Loops with fuel state a bound: the events due for [serviceEvents], the
      candidates for the second-chance search, the digits for [isPrime].
      [CohSystem.xbar_send] nests at most [send_fuel] = 2 crossbar calls, since a
      snoop sends at most one packet, which is not snooped itself;
      [requests_answered] shows that it suffices.  A region has no more chunks, and
      a mapping no more pages, than bytes, which bounds the loops of [PortProxy],
      [PageTable] and [ProcMem]; the length of the string that [tryReadString]
      reads is an argument.
    - Parameters of the model, as arguments or classes: the operations of the
      instruction set the build selects ([DirPred.TheISA]), register counts ([PhysReg]),
      random numbers, the current tick, the bytes of fresh memory, what an
      undefined shift gives, the double arithmetic of the AIMC device, the address
      translation of full-system mode, the order in which a hash table is listed and
      the number of buckets it rehashes to, whether stepping a list iterator back
      from the first element wraps around (the standard leaves it undefined), the
      registers a compiler chooses for inline assembly and what it leaves in the
      others.
    - The theorems on the memory system assume: caches of the same line size
      [2 ^ k], mostly inclusive, with no port above that snoops; a crossbar that is
      the point of coherency, with a snoop filter of at most 64 ports; a
      memory without interleaving; cacheable accesses within a line, each line in
      one security world.  The tags are constructed for caches of up to 4 GiB, where
      the [unsigned] offsets of the data do not wrap ([CacheTags.tags_new]).
    - A packet pointer is the packet's value and an iterator its key; records that
      C++ passes as void pointers are values.

    ** Not modelled

    Latencies, statistics, debug output and checkpoints, except those of the AIMC
    device, the event queue and the page table; timing mode of the caches (MSHRs, write queue, packet
    queues, retries) and prefetchers, as the model follows atomic mode;
    what a print request prints; sector and fully associative tags; memory controllers
    and Ruby; the pipeline stages of the CPU models other than rename and branch
    prediction; instructions other than the AIMC ones (and the
    floating-point library of the others), whose semantics are
    generated from the .isa files; other devices; the Python layer; third-party
    code (ext, systemc). *)
From stdpp Require Export base tactics numbers list gmap sets.
From Stdlib Require Export ZArith Lia.
#[global] Open Scope Z_scope.

(** * Outcomes of C++ code

    [Ok a]: the code returns [a].  [Ub]: the code has undefined behaviour
    (an array access out of bounds, a read of freed memory, a signed
    overflow).  [Panic]: the code stops the simulator itself ([assert],
    [panic], [fatal]).  [OutOfFuel]: a loop of the model was cut off; theorems
    on such loops show that the fuel they run with is enough. *)
Inductive res (A : Type) : Type :=
| Ok (a : A)
| Ub
| Panic
| OutOfFuel.
Arguments Ok {A} a.
Arguments Ub {A}.
Arguments Panic {A}.
Arguments OutOfFuel {A}.

#[export] Instance res_ret : MRet res := fun A a => Ok a.
#[export] Instance res_bind : MBind res := fun A B f m =>
  match m with Ok a => f a | Ub => Ub | Panic => Panic | OutOfFuel => OutOfFuel end.
#[export] Instance res_fmap : FMap res := fun A B f m =>
  match m with Ok a => Ok (f a) | Ub => Ub | Panic => Panic | OutOfFuel => OutOfFuel end.

#[export] Instance res_eq_dec `{EqDecision A} : EqDecision (res A).
Proof. solve_decision. Defined.

Definition is_Ok {A} (m : res A) : bool := match m with Ok _ => true | _ => false end.

Declare Scope cxx_scope.
Delimit Scope cxx_scope with cxx.
(** [assert! c ;; k]: gem5's [assert], [panic_if], [fatal_if]. *)
Notation "'assert!' c ;; k" := (if c then k else Panic)
  (at level 100, c at next level, k at level 200, right associativity) : cxx_scope.
(** [defined! c ;; k]: undefined behaviour unless [c]. *)
Notation "'defined!' c ;; k" := (if c then k else Ub)
  (at level 100, c at next level, k at level 200, right associativity) : cxx_scope.
#[global] Open Scope cxx_scope.

Lemma bind_Ok {A B} (f : A -> res B) (m : res A) b :
  (m ≫= f) = Ok b <-> exists a, m = Ok a /\ f a = Ok b.
Proof.
  destruct m; simpl; split; first [by eauto | by intros (? & [=] & ?) | idtac].
  intros (a' & [= ->] & ?); done.
Qed.

(** * Machine integers *)

Definition in_u (w z : Z) : bool := (0 <=? z) && (z <? 2 ^ w).
Definition in_s (w z : Z) : bool := (- 2 ^ (w - 1) <=? z) && (z <? 2 ^ (w - 1)).
(** Conversion to an unsigned type of [w] bits. *)
Definition wrap_u (w z : Z) : Z := z mod 2 ^ w.
(** Conversion to a signed type of [w] bits (two's complement). *)
Definition wrap_s (w z : Z) : Z := (z + 2 ^ (w - 1)) mod 2 ^ w - 2 ^ (w - 1).

Abbreviation u8 := (wrap_u 8).
Abbreviation u32 := (wrap_u 32).
Abbreviation u64 := (wrap_u 64).
Abbreviation s8 := (wrap_s 8).
Abbreviation s32 := (wrap_s 32).

(** [int] arithmetic: overflow is undefined. *)
Definition int_ok (z : Z) : res Z := if in_s 32 z then Ok z else Ub.

Lemma in_u_iff w z : in_u w z = true <-> 0 <= z < 2 ^ w.
Proof. unfold in_u. lia. Qed.
Lemma in_s_iff w z : in_s w z = true <-> - 2 ^ (w - 1) <= z < 2 ^ (w - 1).
Proof. unfold in_s. lia. Qed.

Lemma pow2_pos w : 0 <= w -> 0 < 2 ^ w.
Proof. intros; apply Z.pow_pos_nonneg; lia. Qed.

Lemma pow2_double w : 0 < w -> 2 ^ w = 2 * 2 ^ (w - 1).
Proof. intros. rewrite <- Z.pow_succ_r by lia. f_equal; lia. Qed.

Lemma wrap_u_range w z : 0 <= w -> 0 <= wrap_u w z < 2 ^ w.
Proof. intros. apply Z.mod_pos_bound, pow2_pos; done. Qed.

Lemma wrap_u_id w z : 0 <= z < 2 ^ w -> wrap_u w z = z.
Proof. apply Z.mod_small. Qed.

Lemma wrap_s_range w z : 0 < w -> - 2 ^ (w - 1) <= wrap_s w z < 2 ^ (w - 1).
Proof.
  intros. unfold wrap_s. rewrite (pow2_double w) by done.
  pose proof (Z.mod_pos_bound (z + 2 ^ (w - 1)) (2 * 2 ^ (w - 1))).
  pose proof (pow2_pos (w - 1)). lia.
Qed.

Lemma wrap_s_id w z : 0 < w -> - 2 ^ (w - 1) <= z < 2 ^ (w - 1) -> wrap_s w z = z.
Proof.
  intros. unfold wrap_s. rewrite Z.mod_small; [lia|].
  rewrite (pow2_double w) by done. lia.
Qed.

Lemma wrap_s_wrap_u w z : 0 < w -> wrap_s w (wrap_u w z) = wrap_s w z.
Proof. intros. unfold wrap_s, wrap_u. by rewrite Z.add_mod_idemp_l by (apply Z.pow_nonzero; lia). Qed.

Lemma int_ok_in z : - 2 ^ 31 <= z < 2 ^ 31 -> int_ok z = Ok z.
Proof. intros. unfold int_ok, in_s. change (32 - 1) with 31. case_match; [done|lia]. Qed.

(** * Arrays and loops *)

(** [l[i]] and [l[i] = a] for an array of the length of [l]; an index out of
    bounds is undefined. *)
Definition aread {A} (l : list A) (i : Z) : res A :=
  if 0 <=? i then match l !! Z.to_nat i with Some a => Ok a | None => Ub end else Ub.
Definition awrite {A} (l : list A) (i : Z) (a : A) : res (list A) :=
  if (0 <=? i) && (i <? Z.of_nat (length l)) then Ok (<[Z.to_nat i := a]> l) else Ub.

Lemma aread_Ok {A} (l : list A) i a :
  0 <= i -> l !! Z.to_nat i = Some a -> aread l i = Ok a.
Proof. intros Hi Hl. unfold aread. rewrite Hl. case_match; [done|lia]. Qed.

Lemma aread_inv {A} (l : list A) i a :
  aread l i = Ok a -> 0 <= i /\ l !! Z.to_nat i = Some a.
Proof.
  unfold aread. destruct (0 <=? i) eqn:E; [|done].
  destruct (l !! Z.to_nat i); [|done]. intros [= ->]. split; [lia|done].
Qed.

Lemma aread_in_bounds {A} (l : list A) i :
  0 <= i < Z.of_nat (length l) -> exists a, l !! Z.to_nat i = Some a /\ aread l i = Ok a.
Proof.
  intros Hi. destruct (lookup_lt_is_Some_2 l (Z.to_nat i)) as [a Ha]; [lia|].
  exists a. split; [done|]. apply aread_Ok; [lia|done].
Qed.

Lemma aread_out {A} (l : list A) i :
  i < 0 \/ Z.of_nat (length l) <= i -> aread l i = Ub.
Proof.
  intros Hi. unfold aread. case_match eqn:E; [|done].
  rewrite (proj2 (lookup_ge_None l (Z.to_nat i))); [done|lia].
Qed.

Lemma awrite_Ok {A} (l : list A) i a :
  0 <= i < Z.of_nat (length l) -> awrite l i a = Ok (<[Z.to_nat i := a]> l).
Proof. intros Hi. unfold awrite. case_match; [done|lia]. Qed.

Lemma awrite_out {A} (l : list A) i (a : A) :
  i < 0 \/ Z.of_nat (length l) <= i -> awrite l i a = Ub.
Proof. intros Hi. unfold awrite. case_match; [lia|done]. Qed.

(** [for (i = lo; i < hi; i++) s = body(i, s)] *)
Fixpoint for_loop {S} (n : nat) (i : Z) (body : Z -> S -> res S) (s : S) : res S :=
  match n with
  | O => Ok s
  | S n => s' ← body i s; for_loop n (i + 1) body s'
  end.
Definition for_range {S} (lo hi : Z) (body : Z -> S -> res S) (s : S) : res S :=
  for_loop (Z.to_nat (hi - lo)) lo body s.

Lemma for_loop_ok {S} (P : Z -> S -> Prop) (body : Z -> S -> res S) n i s :
  P i s ->
  (forall k s, i <= k < i + Z.of_nat n -> P k s ->
     exists s', body k s = Ok s' /\ P (k + 1) s') ->
  exists s', for_loop n i body s = Ok s' /\ P (i + Z.of_nat n) s'.
Proof.
  revert i s. induction n as [|n IH]; intros i s HP Hb.
  - exists s. split; [done|]. by replace (i + Z.of_nat 0) with i by lia.
  - destruct (Hb i s) as (s1 & Hs1 & HP1); [lia|done|].
    destruct (IH (i + 1) s1) as (s2 & Hs2 & HP2); [done| |].
    + intros k s' Hk. apply Hb. lia.
    + exists s2. simpl. rewrite Hs1. simpl. split; [done|].
      by replace (i + Z.of_nat (Datatypes.S n)) with (i + 1 + Z.of_nat n) by lia.
Qed.

Lemma for_loop_ext {S} (f g : Z -> S -> res S) n i s :
  (forall i s, f i s = g i s) -> for_loop n i f s = for_loop n i g s.
Proof.
  intros H. revert i s. induction n as [|n IH]; intros i s; simpl; [done|].
  rewrite H. destruct (g i s); simpl; [apply IH|done..].
Qed.

(** The invariant rule for a counted loop whose body always returns. *)
Lemma for_range_ok {S} (P : Z -> S -> Prop) (body : Z -> S -> res S) lo hi s :
  lo <= hi -> P lo s ->
  (forall i s, lo <= i < hi -> P i s -> exists s', body i s = Ok s' /\ P (i + 1) s') ->
  exists s', for_range lo hi body s = Ok s' /\ P hi s'.
Proof.
  intros Hle HP Hb. unfold for_range.
  destruct (for_loop_ok P body (Z.to_nat (hi - lo)) lo s) as (s' & ? & HP'); [done| |].
  - intros k s' Hk. apply Hb. lia.
  - exists s'. split; [done|]. by replace hi with (lo + Z.of_nat (Z.to_nat (hi - lo))) by lia.
Qed.

(** Use it on the loop of the goal, with the invariant [P]; the loop's result
    satisfies it, the remaining goals are the rule's premises. *)
Ltac loop_invariant P := match goal with
  | |- context [for_range ?lo ?hi ?body ?s] =>
    let s' := fresh "s" in let E := fresh "E" in let H := fresh "Hinv" in
    assert (exists s', for_range lo hi body s = Ok s' /\ P hi s') as (s' & E & H);
    [apply (for_range_ok P body lo hi s) | rewrite E; clear E; cbn [mbind res_bind]]
  end.

(** A loop stops with the first body that does not return. *)
Lemma for_loop_Ub {S} (P : Z -> S -> Prop) (body : Z -> S -> res S) n i k s :
  P i s -> i <= k < i + Z.of_nat n ->
  (forall j s, i <= j < k -> P j s -> exists s', body j s = Ok s' /\ P (j + 1) s') ->
  (forall s, P k s -> body k s = Ub) ->
  for_loop n i body s = Ub.
Proof.
  revert i s. induction n as [|n IH]; intros i s HP Hk Hb Hub; [lia|].
  simpl. destruct (decide (i = k)) as [->|]; [by rewrite (Hub s)|].
  destruct (Hb i s) as (s1 & -> & HP1); [lia|done|]. simpl.
  apply (IH (i + 1)); [done|lia| |done]. intros j s' Hj. apply Hb. lia.
Qed.

Lemma for_range_Ub {S} (P : Z -> S -> Prop) (body : Z -> S -> res S) lo hi k s :
  P lo s -> lo <= k < hi ->
  (forall j s, lo <= j < k -> P j s -> exists s', body j s = Ok s' /\ P (j + 1) s') ->
  (forall s, P k s -> body k s = Ub) ->
  for_range lo hi body s = Ub.
Proof. intros. eapply for_loop_Ub; [done| |done|done]. lia. Qed.

(** A traversal whose every step returns. *)
Lemma mapM_res {A B} (f : A -> res B) (Q : A -> B -> Prop) xs :
  (forall x, x ∈ xs -> exists y, f x = Ok y /\ Q x y) ->
  exists ys, mapM f xs = Ok ys /\ Forall2 (fun x y => f x = Ok y /\ Q x y) xs ys.
Proof.
  induction xs as [|x xs IH]; intros H.
  - exists []. split; [done|constructor].
  - destruct (H x) as (y & Hy & HQ); [by left|]. destruct IH as (ys & Hys & HF).
    { intros x' Hx'. apply H. by right. }
    exists (y :: ys). cbn [mapM]. rewrite Hy. cbn [mbind res_bind]. rewrite Hys.
    split; [done|]. by constructor.
Qed.

(** Sums [f 0 + ... + f (n - 1)]. *)
Fixpoint sum_below (n : nat) (f : nat -> Z) : Z :=
  match n with O => 0 | S n => sum_below n f + f n end.

Lemma sum_below_ext n f g :
  (forall j, (j < n)%nat -> f j = g j) -> sum_below n f = sum_below n g.
Proof. induction n; intros H; simpl; [done|]. rewrite IHn, H; auto with lia. Qed.

Lemma sum_below_bound n f b :
  (forall j, (j < n)%nat -> Z.abs (f j) <= b) -> Z.abs (sum_below n f) <= Z.of_nat n * b.
Proof.
  induction n; intros H; simpl; [lia|].
  pose proof (H n). pose proof (IHn (fun j Hj => H j ltac:(lia))). lia.
Qed.

(** Zero terms after the first [m] can be dropped. *)
Lemma sum_below_trailing m n f :
  (m <= n)%nat -> (forall j, (m <= j < n)%nat -> f j = 0) -> sum_below n f = sum_below m f.
Proof.
  induction n; intros Hm Hz; [by replace m with O by lia|].
  destruct (decide (m = S n)) as [->|]; [done|]. simpl.
  rewrite IHn, (Hz n); [lia|lia|lia|intros; apply Hz; lia].
Qed.

(** * Tactics and hints *)

Lemma filter_all {A} (P : A -> Prop) `{!forall x, Decision (P x)} (l : list A) : Forall P l -> filter P l = l.
Proof. induction 1 as [|x l Hx Hl IH]; [done|]. by rewrite filter_cons_True, IH. Qed.

Lemma filter_none {A} (P : A -> Prop) `{!forall x, Decision (P x)} (l : list A) : Forall (fun x => ~ P x) l -> filter P l = [].
Proof. induction 1 as [|x l Hx Hl IH]; [done|]. by rewrite filter_cons_False. Qed.

(** Case analysis on the first decision of the goal, closing arithmetic
    contradictions. *)
Ltac split_if := case_match; simplify_eq; try lia.
(** Run the [res] binds whose head is known to return. *)
Ltac run_res := repeat (simpl; match goal with
  | H : ?m = Ok _ |- context [?m] => rewrite H
  end); simpl.

(** Take apart the hypotheses that say that a [res] computation returned. *)
Ltac res_inv := repeat match goal with
  | H : (_ ≫= _) = Ok _ |- _ => apply bind_Ok in H; destruct H as (? & ? & H)
  | x : (_ * _)%type |- _ => destruct x
  | H : Ok _ = Ok _ |- _ => injection H as H; subst
  | H : Panic = Ok _ |- _ => discriminate H
  | H : Ub = Ok _ |- _ => discriminate H
  | H : (if ?b then _ else _) = Ok _ |- _ => destruct b eqn:?
  | H : match ?o with Some _ => _ | None => _ end = Ok _ |- _ => destruct o eqn:?
  | H : (_, _) = (_, _) |- _ => injection H as ? ?; subst
  end.

Create HintDb cxx.
#[export] Hint Resolve pow2_pos wrap_u_range wrap_s_range : cxx.
#[export] Hint Extern 5 (_ <= _ < _) => lia : cxx.

(** * Bit-level reasoning *)

Lemma testbit_wrap_u w z i : 0 <= w -> 0 <= i -> Z.testbit (wrap_u w z) i = (i <? w) && Z.testbit z i.
Proof.
  intros Hw Hi. unfold wrap_u. destruct (i <? w) eqn:E.
  - by rewrite Z.mod_pow2_bits_low by lia.
  - by rewrite Z.mod_pow2_bits_high by lia.
Qed.

Lemma testbit_ones n i : 0 <= n -> 0 <= i -> Z.testbit (Z.ones n) i = (i <? n).
Proof.
  intros Hn Hi. rewrite Z.testbit_ones by done. rewrite (proj2 (Z.leb_le 0 i)) by done. done.
Qed.

Lemma testbit_above w z i : 0 <= z < 2 ^ w -> w <= i -> Z.testbit z i = false.
Proof.
  intros Hz Hi. destruct (decide (z = 0)) as [->|]; [apply Z.bits_0|].
  apply Z.bits_above_log2; [lia|]. apply Z.log2_lt_pow2; [lia|].
  eapply Z.lt_le_trans; [apply Hz|]. apply Z.pow_le_mono_r; lia.
Qed.

(** Non-negative numbers with the same bits are equal. *)
Lemma bits_ext a b :
  (forall i, 0 <= i -> Z.testbit a i = Z.testbit b i) -> a = b.
Proof. intros H. apply Z.bits_inj'. exact H. Qed.

Lemma testbit_bound z w :
  0 <= z -> 0 <= w -> (forall i, w <= i -> Z.testbit z i = false) -> z < 2 ^ w.
Proof.
  intros Hz Hw Hb. destruct (decide (z = 0)) as [->|]; [by apply pow2_pos|].
  apply Z.log2_lt_pow2; [lia|]. destruct (decide (Z.log2 z < w)); [done|exfalso].
  pose proof (Z.bit_log2 z ltac:(lia)) as Ht. by rewrite Hb in Ht by lia.
Qed.

Create Rewrite HintDb bits.
#[export] Hint Rewrite Z.land_spec Z.lor_spec Z.lxor_spec Z.bits_0 : bits.
#[export] Hint Rewrite Z.testbit_neg_r Z.lnot_spec Z.shiftr_spec Z.shiftl_spec testbit_ones testbit_wrap_u
  using lia : bits.

(** Reduce an equation of integers to its bits and decide the bit positions. *)
Ltac bitwise :=
  apply bits_ext; let i := fresh "i" in let Hi := fresh "Hi" in intros i Hi;
  autorewrite with bits.
(** Decide every comparison of the goal. *)
Ltac decide_cmp := repeat match goal with
  | |- context [?a <? ?b] => destruct (Z.ltb_spec a b); try lia
  | |- context [?a <=? ?b] => destruct (Z.leb_spec a b); try lia
  | |- context [?a =? ?b] => destruct (Z.eqb_spec a b); try lia
  end.
