(* ===== verification/Bitfield.v ===== *)
(** Bit manipulation: src/base/bitfield.hh and bitfield.cc.  The templates are
    modelled at unsigned types, whose width is a parameter where the result
    depends on it; shift amounts outside [0, 63] are undefined in C++ and the
    theorems exclude them. *)
From S2P Require Import Prelude.

(** * Definitions *)

Definition mask (nbits : Z) : Z :=
  if nbits =? 64 then u64 (-1) else u64 (Z.shiftl 1 nbits - 1).

Definition bits (val first last : Z) : Z :=
  let nbits := first - last + 1 in
  Z.land (Z.shiftr val last) (mask nbits).

Definition bit (val n : Z) : Z := bits val n n.

Definition mbits (val first last : Z) : Z :=
  Z.land val (Z.land (mask (first + 1)) (u64 (Z.lnot (mask last)))).

Definition mask2 (first last : Z) : Z := mbits (u64 (-1)) first last.

(** [sext<N>]. *)
Definition sext (N val : Z) : Z :=
  let sign_bit := bits val (N - 1) (N - 1) in
  if sign_bit =? 0 then val else Z.lor val (u64 (Z.lnot (mask N))).

(** [insertBits] at a [w]-bit type. *)
Definition insertBits (w val first last bit_val : Z) : Z :=
  let t_bit_val := wrap_u w bit_val in
  let bmask := wrap_u w (u64 (Z.shiftl (mask (first - last + 1)) last)) in
  Z.lor (Z.land (wrap_u w (Z.shiftl t_bit_val last)) bmask)
        (Z.land val (wrap_u w (Z.lnot bmask))).

Definition insertBit (w val b bit_val : Z) : Z := insertBits w val b b bit_val.

(** [replaceBits] assigns through the reference: the new value of [val]. *)
Definition replaceBits (w val first last bit_val : Z) : Z := insertBits w val first last bit_val.
Definition replaceBit (w val b bit_val : Z) : Z := insertBits w val b b bit_val.

Definition reverseLookUpTable : list Z :=
  [ 0x00; 0x80; 0x40; 0xC0; 0x20; 0xA0; 0x60; 0xE0; 0x10; 0x90; 0x50; 0xD0;
    0x30; 0xB0; 0x70; 0xF0; 0x08; 0x88; 0x48; 0xC8; 0x28; 0xA8; 0x68; 0xE8;
    0x18; 0x98; 0x58; 0xD8; 0x38; 0xB8; 0x78; 0xF8; 0x04; 0x84; 0x44; 0xC4;
    0x24; 0xA4; 0x64; 0xE4; 0x14; 0x94; 0x54; 0xD4; 0x34; 0xB4; 0x74; 0xF4;
    0x0C; 0x8C; 0x4C; 0xCC; 0x2C; 0xAC; 0x6C; 0xEC; 0x1C; 0x9C; 0x5C; 0xDC;
    0x3C; 0xBC; 0x7C; 0xFC; 0x02; 0x82; 0x42; 0xC2; 0x22; 0xA2; 0x62; 0xE2;
    0x12; 0x92; 0x52; 0xD2; 0x32; 0xB2; 0x72; 0xF2; 0x0A; 0x8A; 0x4A; 0xCA;
    0x2A; 0xAA; 0x6A; 0xEA; 0x1A; 0x9A; 0x5A; 0xDA; 0x3A; 0xBA; 0x7A; 0xFA;
    0x06; 0x86; 0x46; 0xC6; 0x26; 0xA6; 0x66; 0xE6; 0x16; 0x96; 0x56; 0xD6;
    0x36; 0xB6; 0x76; 0xF6; 0x0E; 0x8E; 0x4E; 0xCE; 0x2E; 0xAE; 0x6E; 0xEE;
    0x1E; 0x9E; 0x5E; 0xDE; 0x3E; 0xBE; 0x7E; 0xFE; 0x01; 0x81; 0x41; 0xC1;
    0x21; 0xA1; 0x61; 0xE1; 0x11; 0x91; 0x51; 0xD1; 0x31; 0xB1; 0x71; 0xF1;
    0x09; 0x89; 0x49; 0xC9; 0x29; 0xA9; 0x69; 0xE9; 0x19; 0x99; 0x59; 0xD9;
    0x39; 0xB9; 0x79; 0xF9; 0x05; 0x85; 0x45; 0xC5; 0x25; 0xA5; 0x65; 0xE5;
    0x15; 0x95; 0x55; 0xD5; 0x35; 0xB5; 0x75; 0xF5; 0x0D; 0x8D; 0x4D; 0xCD;
    0x2D; 0xAD; 0x6D; 0xED; 0x1D; 0x9D; 0x5D; 0xDD; 0x3D; 0xBD; 0x7D; 0xFD;
    0x03; 0x83; 0x43; 0xC3; 0x23; 0xA3; 0x63; 0xE3; 0x13; 0x93; 0x53; 0xD3;
    0x33; 0xB3; 0x73; 0xF3; 0x0B; 0x8B; 0x4B; 0xCB; 0x2B; 0xAB; 0x6B; 0xEB;
    0x1B; 0x9B; 0x5B; 0xDB; 0x3B; 0xBB; 0x7B; 0xFB; 0x07; 0x87; 0x47; 0xC7;
    0x27; 0xA7; 0x67; 0xE7; 0x17; 0x97; 0x57; 0xD7; 0x37; 0xB7; 0x77; 0xF7;
    0x0F; 0x8F; 0x4F; 0xCF; 0x2F; 0xAF; 0x6F; 0xEF; 0x1F; 0x9F; 0x5F; 0xDF;
    0x3F; 0xBF; 0x7F; 0xFF ].

(** [reverseBits] at a type of [sz] bytes. *)
Definition reverseBits (sz val size : Z) : res Z :=
  assert! size <=? sz ;;
  '(output, _) ← for_range 0 size (fun byte '(output, val) =>
      r ← aread reverseLookUpTable (Z.land val 255);
      Ok (wrap_u (8 * sz) (Z.lor (Z.shiftl output 8) r), Z.shiftr val 8)) (0, val);
  Ok output.

(** [if (bits(val, hi, lo)) { msb += lo; val >>= lo; }] *)
Definition msb_half (hi lo : Z) '(msb, val) : Z * Z :=
  if bits val hi lo =? 0 then (msb, val) else (msb + lo, Z.shiftr val lo).

Definition findMsbSet (val : Z) : Z :=
  if val =? 0 then 0 else
  let s := (0, val) in
  let s := msb_half 63 32 s in
  let s := msb_half 31 16 s in
  let s := msb_half 15 8 s in
  let s := msb_half 7 4 s in
  let '(msb, val) := msb_half 3 2 s in
  if bits val 1 1 =? 0 then msb else msb + 1.

(** [if (!bits(val, hi, 0)) { lsb += hi + 1; val >>= hi + 1; }] *)
Definition lsb_half (hi : Z) '(lsb, val) : Z * Z :=
  if bits val hi 0 =? 0 then (lsb + (hi + 1), Z.shiftr val (hi + 1)) else (lsb, val).

Definition findLsbSet (val : Z) : Z :=
  if val =? 0 then 8 * 8 else
  let s := (0, val) in
  let s := lsb_half 31 s in
  let s := lsb_half 15 s in
  let s := lsb_half 7 s in
  let s := lsb_half 3 s in
  let '(lsb, val) := lsb_half 1 s in
  if bits val 0 0 =? 0 then lsb + 1 else lsb.

(** [isPow2] at a [w]-bit type. *)
Definition isPow2 (w v : Z) : bool := Z.land v (wrap_u w (v - 1)) =? 0.

(** [popCount], the portable branch. *)
Definition popCount (val : Z) : Z :=
  let m1 := 0x5555555555555555 in
  let m2 := 0x3333333333333333 in
  let m4 := 0x0f0f0f0f0f0f0f0f in
  let sum := 0x0101010101010101 in
  let val := u64 (val - Z.land (Z.shiftr val 1) m1) in
  let val := u64 (Z.land val m2 + Z.land (Z.shiftr val 2) m2) in
  let val := Z.land (u64 (val + Z.shiftr val 4)) m4 in
  Z.shiftr (u64 (val * sum)) 56.

Definition alignToPowerOfTwo (val : Z) : Z :=
  let val := u64 (val - 1) in
  let val := Z.lor val (Z.shiftr val 1) in
  let val := Z.lor val (Z.shiftr val 2) in
  let val := Z.lor val (Z.shiftr val 4) in
  let val := Z.lor val (Z.shiftr val 8) in
  let val := Z.lor val (Z.shiftr val 16) in
  let val := Z.lor val (Z.shiftr val 32) in
  u64 (val + 1).

(** * Single-bit characterisations *)

Lemma mask_ones n : 0 <= n <= 64 -> mask n = Z.ones n.
Proof.
  intros Hn. unfold mask. destruct (Z.eqb_spec n 64) as [->|]; [done|].
  rewrite Z.ones_equiv, <- Z.sub_1_r, Z.shiftl_1_l. apply wrap_u_id.
  pose proof (Z.pow_lt_mono_r 2 n 64 ltac:(lia) ltac:(lia) ltac:(lia)).
  pose proof (pow2_pos n ltac:(lia)). lia.
Qed.

Lemma testbit_mask n i : 0 <= n <= 64 -> 0 <= i -> Z.testbit (mask n) i = (i <? n).
Proof. intros. rewrite mask_ones by done. apply testbit_ones; lia. Qed.

Lemma testbit_bits val first last i :
  0 <= last -> last <= first + 1 <= last + 64 -> 0 <= i ->
  Z.testbit (bits val first last) i = (i <=? first - last) && Z.testbit val (i + last).
Proof.
  intros. unfold bits. rewrite Z.land_spec, Z.shiftr_spec, testbit_mask by lia.
  rewrite andb_comm. f_equal. decide_cmp; done.
Qed.

Lemma bits_div val first last :
  0 <= last -> last <= first + 1 <= last + 64 ->
  bits val first last = (val / 2 ^ last) mod 2 ^ (first - last + 1).
Proof.
  intros. unfold bits. rewrite mask_ones, Z.land_ones, Z.shiftr_div_pow2 by lia. done.
Qed.

Lemma bits_range val first last :
  0 <= last -> last <= first + 1 <= last + 64 -> 0 <= bits val first last < 2 ^ (first - last + 1).
Proof. intros. rewrite bits_div by lia. apply Z.mod_pos_bound, pow2_pos. lia. Qed.

Lemma bits_1 val n : 0 <= n -> bits val n n = Z.b2z (Z.testbit val n).
Proof.
  intros. rewrite bits_div by lia. replace (n - n + 1) with 1 by lia.
  by rewrite Z.testbit_spec' by lia.
Qed.

Lemma testbit_insertBits w val first last b i :
  0 < w <= 64 -> 0 <= last -> last <= first + 1 <= last + 64 -> first < w -> 0 <= val < 2 ^ w ->
  0 <= i ->
  Z.testbit (insertBits w val first last b) i =
    if (last <=? i) && (i <=? first) then Z.testbit b (i - last) else Z.testbit val i.
Proof.
  intros. unfold insertBits.
  destruct (decide (last <= i)); autorewrite with bits; rewrite ?testbit_mask by lia;
    autorewrite with bits.
  - decide_cmp; simpl;
      rewrite ?andb_true_r, ?andb_false_r, ?orb_false_r, ?andb_true_l; try done;
      (symmetry; apply (testbit_above w); lia).
  - rewrite !(Z.testbit_neg_r _ (i - last)) by lia.
    decide_cmp; simpl; rewrite ?andb_true_r, ?andb_false_r; try done;
      (symmetry; apply (testbit_above w); lia).
Qed.

(** * Searching for set bits *)

(** The state of [findMsbSet]: [msb] plus the position of the top bit of the
    remaining [2 ^ k]-bounded value is the answer. *)
Definition msb_inv (v k : Z) (s : Z * Z) : Prop :=
  0 < s.2 < 2 ^ k /\ Z.log2 v = s.1 + Z.log2 s.2.

Lemma msb_half_inv v k s :
  0 < k <= 32 -> msb_inv v (2 * k) s -> msb_inv v k (msb_half (2 * k - 1) k s).
Proof.
  intros Hk. destruct s as [msb val]. unfold msb_inv, msb_half. simpl. intros [Hv ->].
  rewrite bits_div by lia. replace (2 * k - 1 - k + 1) with k by lia.
  assert (2 ^ (2 * k) = 2 ^ k * 2 ^ k) as E by (rewrite <- Z.pow_add_r by lia; f_equal; lia).
  pose proof (pow2_pos k ltac:(lia)).
  assert (0 <= val / 2 ^ k < 2 ^ k) by (split; [apply Z.div_pos; lia|apply Z.div_lt_upper_bound; lia]).
  rewrite Z.mod_small by done. destruct (Z.eqb_spec (val / 2 ^ k) 0) as [E0|E0]; simpl.
  - apply Z.div_small_iff in E0; lia.
  - rewrite Z.shiftr_div_pow2 by lia. split; [lia|].
    rewrite <- Z.shiftr_div_pow2, Z.log2_shiftr by lia.
    assert (k <= Z.log2 val); [|lia].
    apply Z.log2_le_pow2; [lia|]. destruct (decide (2 ^ k <= val)); [done|].
    by rewrite Z.div_small in E0 by lia.
Qed.

Lemma findMsbSet_spec v : 0 < v < 2 ^ 64 -> findMsbSet v = Z.log2 v.
Proof.
  intros Hv. unfold findMsbSet. rewrite (proj2 (Z.eqb_neq _ _)) by lia.
  assert (msb_inv v (2 * 32) (0, v)) as H by done.
  apply (msb_half_inv v 32) in H; [|lia]. apply (msb_half_inv v 16) in H; [|lia].
  apply (msb_half_inv v 8) in H; [|lia]. apply (msb_half_inv v 4) in H; [|lia].
  apply (msb_half_inv v 2) in H; [|lia]. cbn [Z.mul Z.sub Z.add] in H.
  destruct (msb_half _ _ _) as [msb val] eqn:E. change (2 * 2 - 1) with 3 in H.
  clear E. destruct H as [Hval ->]; simpl in *.
  assert (val = 1 \/ val = 2 \/ val = 3) as [-> | [-> | ->]] by lia; simpl; lia.
Qed.

(** The position of the lowest set bit. *)
Definition lowest_bit (v n : Z) : Prop :=
  0 <= n /\ Z.testbit v n = true /\ forall i, 0 <= i < n -> Z.testbit v i = false.

Definition lsb_inv (v k : Z) (s : Z * Z) : Prop :=
  (exists n, lowest_bit s.2 n /\ n < k /\ lowest_bit v (s.1 + n)) /\ 0 <= s.1 /\ 0 < s.2 < 2 ^ 64.

Lemma bits_low_zero v hi :
  0 <= hi < 64 -> bits v hi 0 = 0 <-> (forall i, 0 <= i <= hi -> Z.testbit v i = false).
Proof.
  intros Hhi. split.
  - intros H i Hi. assert (Z.testbit (bits v hi 0) i = false) as Ht by by rewrite H, Z.bits_0.
    rewrite testbit_bits in Ht by lia. rewrite (proj2 (Z.leb_le _ _)) in Ht by lia.
    by rewrite Z.add_0_r in Ht.
  - intros H. apply bits_ext. intros i Hi. rewrite testbit_bits, Z.bits_0, Z.add_0_r by lia.
    destruct (Z.leb_spec i (hi - 0)); [|done]. apply H. lia.
Qed.

Lemma lsb_half_inv v k s :
  0 < k <= 32 -> lsb_inv v (2 * k) s -> lsb_inv v k (lsb_half (k - 1) s).
Proof.
  intros Hk. destruct s as [lsb val]. unfold lsb_inv, lsb_half. simpl.
  intros [(n & (Hn & Ht & Hlow) & Hnk & Hv) [Hlsb Hval]].
  replace (k - 1 + 1) with k by lia. destruct (Z.eqb_spec (bits val (k - 1) 0) 0) as [E|E]; simpl.
  - rewrite bits_low_zero in E by lia.
    assert (k <= n) by (destruct (decide (k <= n)); [done|rewrite E in Ht by lia; done]).
    split; [exists (n - k); split_and!|split; [lia|]].
    + split; [lia|]. split; [rewrite Z.shiftr_spec by lia; rewrite <- Ht; f_equal; lia|].
      intros i Hi. rewrite Z.shiftr_spec by lia. apply Hlow. lia.
    + lia.
    + by replace (lsb + k + (n - k)) with (lsb + n) by lia.
    + rewrite Z.shiftr_div_pow2 by lia. pose proof (pow2_pos k ltac:(lia)).
      split; [|eapply Z.le_lt_trans; [apply Z.div_le_upper_bound with (q := val)|]; nia].
      apply Z.div_str_pos. split; [lia|].
      destruct (decide (2 ^ k <= val)); [done|].
      rewrite (testbit_above k val n) in Ht by lia. done.
  - split; [exists n; split_and!|done]; [done| |done].
    destruct (decide (n < k)); [done|]. exfalso. apply E. apply bits_low_zero; [lia|].
    intros i Hi. apply Hlow. lia.
Qed.

Lemma lowest_bit_unique v n m : lowest_bit v n -> lowest_bit v m -> n = m.
Proof.
  intros (? & Hn & Hn') (? & Hm & Hm'). destruct (Z.lt_trichotomy n m) as [?|[?|?]]; [|done|].
  - rewrite Hm' in Hn by lia. done.
  - rewrite Hn' in Hm by lia. done.
Qed.

(** Every positive number has a lowest set bit. *)
Lemma lowest_bit_exists v : 0 < v -> exists n, lowest_bit v n /\ n <= Z.log2 v.
Proof.
  intros Hv.
  assert (forall m : nat, (exists n, lowest_bit v n /\ n < Z.of_nat m) \/
    (forall i, 0 <= i < Z.of_nat m -> Z.testbit v i = false)) as H.
  { induction m as [|m [(n & Hn & ?)|IH]]; [right; lia|left; exists n; split; [done|lia]|].
    destruct (Z.testbit v (Z.of_nat m)) eqn:E.
    - left. exists (Z.of_nat m). split; [|lia]. split; [lia|]. split; [done|]. intros; apply IH; lia.
    - right. intros i Hi. destruct (decide (i = Z.of_nat m)) as [->|]; [done|]. apply IH. lia. }
  destruct (H (S (Z.to_nat (Z.log2 v)))) as [(n & Hn & ?)|Hn].
  - exists n. split; [done|]. pose proof (Z.log2_nonneg v). lia.
  - pose proof (Z.bit_log2 v Hv). pose proof (Z.log2_nonneg v). rewrite Hn in *; [done|lia].
Qed.

Lemma findLsbSet_spec v : 0 < v < 2 ^ 64 -> lowest_bit v (findLsbSet v).
Proof.
  intros Hv. unfold findLsbSet. rewrite (proj2 (Z.eqb_neq _ _)) by lia.
  assert (lsb_inv v (2 * 32) (0, v)) as H.
  { destruct (lowest_bit_exists v) as (n & Hn & Hlog); [lia|].
    assert (Z.log2 v < 64) by (apply Z.log2_lt_pow2; lia).
    split; [exists n; split_and!; [done|lia|done]|]. simpl. lia. }
  apply (lsb_half_inv v 32) in H; [|lia]. apply (lsb_half_inv v 16) in H; [|lia].
  apply (lsb_half_inv v 8) in H; [|lia]. apply (lsb_half_inv v 4) in H; [|lia].
  apply (lsb_half_inv v 2) in H; [|lia]. change (32 - 1) with 31 in H.
  change (16 - 1) with 15 in H. change (8 - 1) with 7 in H. change (4 - 1) with 3 in H.
  change (2 - 1) with 1 in H. destruct (lsb_half _ _) as [lsb val].
  destruct H as [(n & Hn & Hn2 & Hvn) _]; simpl in *.
  rewrite bits_1 by lia. destruct Hn as (Hn0 & Ht & Hlow).
  assert (n = 0 \/ n = 1) as [-> | ->] by lia.
  - rewrite Ht. simpl. by rewrite Z.add_0_r in Hvn.
  - rewrite Hlow by lia. done.
Qed.

(** * Powers of two *)

Lemma pow2_log2_spec v : 0 < v -> (exists n, 0 <= n /\ v = 2 ^ n) <-> v = 2 ^ Z.log2 v.
Proof.
  intros Hv. split; [|intros ->; eexists; split; [apply Z.log2_nonneg|done]].
  intros (n & Hn & ->). by rewrite Z.log2_pow2.
Qed.

Lemma land_pred_pow2 v : 0 < v -> Z.land v (v - 1) = 0 <-> v = 2 ^ Z.log2 v.
Proof.
  intros Hv. pose proof (Z.log2_spec v Hv) as [Hlo Hhi]. pose proof (Z.log2_nonneg v).
  split.
  - intros H0. destruct (decide (v = 2 ^ Z.log2 v)); [done|exfalso].
    assert (Z.testbit (Z.land v (v - 1)) (Z.log2 v) = true) as Ht; [|by rewrite H0, Z.bits_0 in Ht].
    rewrite Z.land_spec, Z.bit_log2 by done.
    replace (Z.log2 v) with (Z.log2 (v - 1)); [apply Z.bit_log2; lia|].
    apply Z.log2_unique; lia.
  - intros ->. set (n := Z.log2 v) in *.
    rewrite Z.sub_1_r, <- Z.ones_equiv, Z.land_ones by done. apply Z.mod_same. lia.
Qed.

(** ** Smearing the top bit *)

Definition smeared (k v r : Z) : Prop :=
  0 <= r /\ forall i, 0 <= i ->
    Z.testbit r i = true <-> exists j, 0 <= j < k /\ Z.testbit v (i + j) = true.

Lemma smear_step k k' v r :
  0 < k -> k' = 2 * k -> smeared k v r -> smeared k' v (Z.lor r (Z.shiftr r k)).
Proof.
  intros Hk -> [Hr H]. split; [apply Z.lor_nonneg; split; [done|by apply Z.shiftr_nonneg]|].
  intros i Hi. rewrite Z.lor_spec, Z.shiftr_spec, orb_true_iff, !H by lia. split.
  - intros [(j & ? & ?)|(j & ? & ?)]; [exists j; split; [lia|done]|].
    exists (k + j). split; [lia|]. by rewrite Z.add_assoc.
  - intros (j & ? & Ht). destruct (decide (j < k)); [left; exists j; split; [lia|done]|].
    right. exists (j - k). split; [lia|]. rewrite <- Ht. f_equal. lia.
Qed.

Lemma smeared_ones v r : 0 < v < 2 ^ 64 -> smeared 64 v r -> r = 2 ^ (Z.log2 v + 1) - 1.
Proof.
  intros Hv [Hr H]. rewrite Z.sub_1_r, <- Z.ones_equiv. pose proof (Z.log2_nonneg v).
  assert (Z.log2 v < 64) by (apply Z.log2_lt_pow2; lia).
  bitwise. apply eq_true_iff_eq. rewrite H by done. rewrite Z.ltb_lt. split.
  - intros (j & Hj & Ht). destruct (decide (i + j <= Z.log2 v)); [lia|].
    by rewrite Z.bits_above_log2 in Ht by lia.
  - intros Hil. exists (Z.log2 v - i). split; [lia|].
    replace (i + (Z.log2 v - i)) with (Z.log2 v) by lia. apply Z.bit_log2. lia.
Qed.

Lemma alignToPowerOfTwo_spec val :
  0 <= val < 2 ^ 64 ->
  alignToPowerOfTwo val = u64 (if val =? 0 then 0 else 2 ^ Z.log2_up val).
Proof.
  intros Hval. unfold alignToPowerOfTwo. destruct (Z.eqb_spec val 0) as [->|]; [done|].
  rewrite (wrap_u_id 64 (val - 1)) by lia.
  destruct (decide (val = 1)) as [->|]; [done|].
  assert (smeared 1 (val - 1) (val - 1)) as H.
  { split; [lia|]. intros i Hi. split.
    - intros. exists 0. by rewrite Z.add_0_r.
    - intros (j & Hj & ?). by replace (i + j) with i in * by lia. }
  apply (smear_step 1 2) in H; [|lia..]. apply (smear_step 2 4) in H; [|lia..].
  apply (smear_step 4 8) in H; [|lia..]. apply (smear_step 8 16) in H; [|lia..].
  apply (smear_step 16 32) in H; [|lia..]. apply (smear_step 32 64) in H; [|lia..].
  apply smeared_ones in H; [|lia]. rewrite H. f_equal.
  rewrite Z.sub_add. f_equal. rewrite Z.log2_up_eqn by lia. rewrite Z.sub_1_r. lia.
Qed.

(** * Byte-wise reversal *)

Definition rev8_ok (b : nat) : bool :=
  match reverseLookUpTable !! b with
  | Some r => (0 <=? r) && (r <? 256) &&
      forallb (fun i => Bool.eqb (Z.testbit r (Z.of_nat i)) (Z.testbit (Z.of_nat b) (7 - Z.of_nat i)))
        (seq 0 8)
  | None => false
  end.

Lemma reverse_table b :
  0 <= b < 256 -> exists r, reverseLookUpTable !! Z.to_nat b = Some r /\ 0 <= r < 256 /\
    forall i, 0 <= i < 8 -> Z.testbit r i = Z.testbit b (7 - i).
Proof.
  intros Hb. assert (forallb rev8_ok (seq 0 256) = true) as Hall by (vm_compute; reflexivity).
  rewrite forallb_forall in Hall. specialize (Hall (Z.to_nat b)). rewrite in_seq in Hall.
  specialize (Hall ltac:(lia)). unfold rev8_ok in Hall.
  destruct (reverseLookUpTable !! Z.to_nat b) as [r|]; [|done].
  apply andb_prop in Hall as [Hr Hbits]. exists r. split; [done|]. split; [lia|].
  intros i Hi. rewrite forallb_forall in Hbits. specialize (Hbits (Z.to_nat i)).
  rewrite in_seq in Hbits. specialize (Hbits ltac:(lia)). apply eqb_prop in Hbits.
  by rewrite !Z2Nat.id in Hbits by lia.
Qed.

(** * Theorems *)

(** (field insertion and extraction).  [bits] reads back what [insertBits]
    wrote (truncated to the field), and every bit outside the field keeps its
    value; the result stays within the type. *)
Theorem insertBits_bits w val first last b :
  0 < w <= 64 -> 0 <= last <= first -> first < w -> 0 <= val < 2 ^ w ->
  bits (insertBits w val first last b) first last = b mod 2 ^ (first - last + 1) /\
  (forall i, 0 <= i -> i < last \/ first < i ->
     Z.testbit (insertBits w val first last b) i = Z.testbit val i) /\
  0 <= insertBits w val first last b < 2 ^ w.
Proof.
  intros Hw Hl Hf Hval. split_and!.
  - bitwise. rewrite testbit_bits, testbit_insertBits by lia.
    change (b mod 2 ^ (first - last + 1)) with (wrap_u (first - last + 1) b).
    rewrite testbit_wrap_u by lia. decide_cmp; simpl; try done. f_equal. lia.
  - intros i Hi Hout. rewrite testbit_insertBits by lia. by decide_cmp.
  - apply Z.lor_nonneg. split; apply Z.land_nonneg; [left; by apply wrap_u_range; lia|by left; lia].
  - apply testbit_bound; [|lia|].
    + apply Z.lor_nonneg. split; apply Z.land_nonneg; [left; by apply wrap_u_range; lia|by left; lia].
    + intros i Hi. rewrite testbit_insertBits by lia. rewrite (testbit_above w val) by lia. by decide_cmp.
Qed.

Example insertBits_bits_witness :
  bits (insertBits 32 0xdeadbeef 15 8 0x123) 15 8 = 0x123 mod 2 ^ (15 - 8 + 1).
Proof. apply (insertBits_bits 32 0xdeadbeef 15 8 0x123); lia. Defined.

(** (sign extension).  [sext<N>] is two's complement sign extension of an
    [N]-bit value to 64 bits. *)
Theorem sext_wrap_s N val :
  1 <= N <= 64 -> 0 <= val < 2 ^ N -> sext N val = u64 (wrap_s N val).
Proof.
  intros HN Hval. unfold sext. rewrite bits_1 by lia.
  pose proof (pow2_double N ltac:(lia)) as Ed. pose proof (pow2_pos (N - 1) ltac:(lia)).
  assert (2 ^ N <= 2 ^ 64) by (apply Z.pow_le_mono_r; lia).
  destruct (Z.testbit val (N - 1)) eqn:E; simpl.
  - assert (2 ^ (N - 1) <= val).
    { destruct (decide (2 ^ (N - 1) <= val)); [done|].
      by rewrite (testbit_above (N - 1)) in E by lia. }
    assert (wrap_s N val = val - 2 ^ N) as ->.
    { unfold wrap_s. rewrite <- (Z.mod_add _ (-1)) by lia. rewrite Z.mod_small; lia. }
    bitwise. rewrite testbit_mask by lia.
    replace (val - 2 ^ N) with (val + (-1) * 2 ^ N) by lia.
    destruct (decide (i < N)).
    + rewrite <- (Z.mod_pow2_bits_low (val + _) N i), Z.mod_add, Z.mod_small by lia.
      decide_cmp; simpl; by rewrite orb_false_r.
    + rewrite (testbit_above N val) by lia.
      replace (val + -1 * 2 ^ N) with (- (2 ^ N - val)) by lia.
      rewrite Z.bits_opp by lia. rewrite (testbit_above N (Z.pred _)) by lia.
      by decide_cmp.
  - assert (val < 2 ^ (N - 1)).
    { apply testbit_bound; [lia|lia|]. intros i Hi. destruct (decide (i = N - 1)) as [->|]; [done|].
      apply (testbit_above N); lia. }
    rewrite wrap_s_id by lia. by rewrite wrap_u_id by lia.
Qed.

Example sext_wrap_s_witness : sext 8 0x80 = u64 (wrap_s 8 0x80).
Proof. apply (sext_wrap_s 8 0x80); lia. Defined.

(** (bit searches).  On a non-zero 64-bit value [findMsbSet] is the position
    of its top set bit and [findLsbSet] that of its lowest one; on zero they
    are 0 and 64. *)
Theorem find_bit_set v :
  0 <= v < 2 ^ 64 ->
  if decide (v = 0) then findMsbSet v = 0 /\ findLsbSet v = 64
  else findMsbSet v = Z.log2 v /\ lowest_bit v (findLsbSet v) /\ findLsbSet v <= findMsbSet v < 64.
Proof.
  intros Hv. case_decide as E; [by subst|].
  rewrite findMsbSet_spec by lia. pose proof (findLsbSet_spec v ltac:(lia)) as Hl.
  destruct (lowest_bit_exists v) as (n & Hn & ?); [lia|].
  rewrite (lowest_bit_unique v _ _ Hl Hn). split_and!; [done|done|done|].
  apply Z.log2_lt_pow2; lia.
Qed.

Example find_bit_set_witness : findMsbSet 0x2c = Z.log2 0x2c.
Proof. refine (proj1 (find_bit_set 0x2c _)). lia. Defined.

(** (powers of two).  [isPow2] accepts exactly zero and the powers of two;
    [alignToPowerOfTwo] is the least power of two not below its argument, keeps
    zero, and wraps to zero above [2 ^ 63]. *)
Theorem alignToPowerOfTwo_least w v :
  0 < w <= 64 -> 0 <= v < 2 ^ w ->
  (isPow2 w v = true <-> v = 0 \/ exists n, 0 <= n /\ v = 2 ^ n) /\
  (0 < v <= 2 ^ 63 ->
     exists n, alignToPowerOfTwo v = 2 ^ n /\ 0 <= n /\ v <= 2 ^ n /\
       (forall m, 0 <= m -> v <= 2 ^ m -> n <= m)) /\
  (v = 0 \/ 2 ^ 63 < v -> alignToPowerOfTwo v = 0).
Proof.
  intros Hw Hv. assert (2 ^ w <= 2 ^ 64) by (apply Z.pow_le_mono_r; lia). split_and!.
  - unfold isPow2. rewrite Z.eqb_eq. destruct (decide (v = 0)) as [->|].
    + rewrite Z.land_0_l. by split; [left|].
    + rewrite wrap_u_id, land_pred_pow2, <- pow2_log2_spec by lia.
      split; [by right|by intros [?|?]].
  - intros Hpos. exists (Z.log2_up v). rewrite alignToPowerOfTwo_spec by lia.
    rewrite (proj2 (Z.eqb_neq _ _)) by lia. pose proof (Z.log2_up_nonneg v).
    assert (Z.log2_up v <= 63) by (apply Z.log2_up_le_pow2; lia).
    split_and!; [|done|by apply Z.log2_up_le_pow2; lia|by intros; apply Z.log2_up_le_pow2; lia].
    apply wrap_u_id. pose proof (Z.pow_le_mono_r 2 (Z.log2_up v) 63). lia.
  - rewrite alignToPowerOfTwo_spec by lia. intros [-> |?]; [done|].
    rewrite (proj2 (Z.eqb_neq _ _)) by lia.
    assert (Z.log2_up v <= 64) by (apply Z.log2_up_le_pow2; lia).
    assert (63 < Z.log2_up v) by (apply Z.log2_up_lt_pow2; lia).
    replace (Z.log2_up v) with 64 by lia. done.
Qed.

Example alignToPowerOfTwo_least_witness : alignToPowerOfTwo (2 ^ 63 + 1) = 0.
Proof. apply (alignToPowerOfTwo_least 64 (2 ^ 63 + 1)); [lia|lia|]. right. lia. Defined.

(** (bit reversal).  [reverseBits] mirrors the low [size] bytes of its
    argument bit by bit, and stops the simulator when [size] exceeds the
    type. *)
Theorem reverseBits_mirror sz val size :
  0 <= size -> 0 < sz <= 8 -> 0 <= val < 2 ^ (8 * sz) ->
  if decide (size <= sz) then
    exists r, reverseBits sz val size = Ok r /\ 0 <= r < 2 ^ (8 * size) /\
      forall i, 0 <= i < 8 * size -> Z.testbit r i = Z.testbit val (8 * size - 1 - i)
  else reverseBits sz val size = Panic.
Proof.
  intros Hs Hsz Hval. unfold reverseBits. case_decide; [|by rewrite (proj2 (Z.leb_gt _ _)) by lia].
  rewrite (proj2 (Z.leb_le _ _)) by done.
  edestruct (for_range_ok (fun k '(o, v) => v = Z.shiftr val (8 * k) /\ 0 <= o < 2 ^ (8 * k) /\
      forall i, 0 <= i < 8 * k -> Z.testbit o i = Z.testbit val (8 * k - 1 - i)))
    as ([o v] & -> & _ & Ho & Hb); [exact Hs| | |exists o; done]; simpl.
  { split; [done|]. split; [lia|]. intros; lia. }
  intros k [o v] Hk (-> & Ho & Hb). simpl.
  set (b := Z.land (Z.shiftr val (8 * k)) 255).
  assert (b = Z.shiftr val (8 * k) mod 2 ^ 8) as Eb by (unfold b; by rewrite <- Z.land_ones by lia).
  destruct (reverse_table b) as (r & Hr & Hr0 & Hrb).
  { rewrite Eb. apply Z.mod_pos_bound. lia. }
  rewrite (aread_Ok _ b r) by (done || rewrite Eb; apply Z.mod_pos_bound; lia). simpl.
  eexists. split; [done|]. simpl.
  assert (2 ^ (8 * (k + 1)) = 2 ^ (8 * k) * 256) as E8.
  { replace (8 * (k + 1)) with (8 * k + 8) by lia. by rewrite Z.pow_add_r by lia. }
  assert (forall i, 0 <= i ->
    Z.testbit (wrap_u (8 * sz) (Z.lor (Z.shiftl o 8) r)) i =
      if i <? 8 then Z.testbit r i else Z.testbit o (i - 8)) as Hbit.
  { intros i Hi. autorewrite with bits. destruct (Z.ltb_spec i 8).
    - rewrite (Z.testbit_neg_r o) by lia. by decide_cmp.
    - rewrite (testbit_above 8 r) by lia. rewrite orb_false_r. destruct (Z.ltb_spec i (8 * sz)); [done|].
      by rewrite (testbit_above (8 * k) o) by lia. }
  split_and!.
  - rewrite Z.shiftr_shiftr by lia. f_equal. lia.
  - apply wrap_u_range. lia.
  - apply testbit_bound; [apply wrap_u_range; lia|lia|]. intros i Hi. rewrite Hbit by lia.
    decide_cmp. apply (testbit_above (8 * k)); lia.
  - intros i Hi. rewrite Hbit by lia. destruct (Z.ltb_spec i 8).
    + rewrite Hrb, Eb, Z.mod_pow2_bits_low, Z.shiftr_spec by lia. f_equal. lia.
    + rewrite Hb by lia. f_equal. lia.
Qed.

Example reverseBits_mirror_witness :
  exists r, reverseBits 4 0x1 4 = Ok r /\ Z.testbit r 31 = true.
Proof.
  destruct (reverseBits_mirror 4 0x1 4) as (r & H1 & _ & H2); [lia|lia|lia|].
  exists r. split; [exact H1|]. rewrite H2 by lia. reflexivity.
Defined.
