(* ===== verification/IntMath.v ===== *)
(** Integer mathematics: src/base/intmath.hh and intmath.cc.  [isPrime] is
    modelled at [int], the other templates at [uint64_t]. *)
From S2P Require Import Prelude Bitfield.
From Stdlib Require Import Znumtheory.

(** * Definitions *)

(** The trial-division loop [for (i = ...; i * i <= n; i += 6)]. *)
Fixpoint isPrime_loop (fuel : nat) (i n : Z) : res bool :=
  match fuel with
  | O => OutOfFuel
  | S fuel =>
      sq ← int_ok (i * i);
      if sq <=? n then
        if (Z.rem n i =? 0) || (Z.rem n (i + 2) =? 0) then Ok false
        else i' ← int_ok (i + 6); isPrime_loop fuel i' n
      else Ok true
  end.

(** [i] reaches [46343], whose square overflows, after 7723 iterations. *)
Definition prime_fuel : nat := Z.to_nat 8000.

Definition isPrime (n : Z) : res bool :=
  if (n =? 2) || (n =? 3) then Ok true else isPrime_loop prime_fuel 5 n.

Fixpoint prevPrime_loop (fuel : nat) (n decr : Z) : res Z :=
  match fuel with
  | O => OutOfFuel
  | S fuel =>
      b ← isPrime n;
      if b : bool then Ok n
      else n' ← int_ok (n - decr); prevPrime_loop fuel n' (6 - decr)
  end.

Definition prevPrime (fuel : nat) (n : Z) : res Z :=
  let n := if Z.land n 1 =? 0 then n - 1 else n in
  let decr := Z.rem n 3 in
  let '(n, decr) :=
    if decr =? 0 then (n - 2, 2) else if decr =? 1 then (n, 4) else (n, decr) in
  prevPrime_loop fuel n decr.

Definition leastSigBit (n : Z) : Z := Z.land n (u64 (Z.lnot (u64 (n - 1)))).
Definition isPowerOf2 (n : Z) : bool := negb (n =? 0) && (leastSigBit n =? n).

Definition power (n e : Z) : res Z :=
  if e =? 0 then Ok 1
  else for_range 1 e (fun _ result => Ok (u64 (result * n))) n.

(** [if (x & m) { y += k; x >>= k; }] *)
Definition flog_half (m k : Z) '(y, x) : Z * Z :=
  if Z.land x m =? 0 then (y, x) else (y + k, Z.shiftr x k).

(** [floorLog2(unsigned)] *)
Definition floorLog2_32 (x : Z) : res Z :=
  assert! 0 <? x ;;
  let s := flog_half 0xffff0000 16 (0, x) in
  let s := flog_half 0x0000ff00 8 s in
  let s := flog_half 0x000000f0 4 s in
  let '(y, x) := flog_half 0x0000000c 2 s in
  Ok (if Z.land x 2 =? 0 then y else y + 1).

(** [floorLog2(unsigned long)], with [__LP64__], and [floorLog2(unsigned long long)] *)
Definition floorLog2_64 (x : Z) : res Z :=
  assert! 0 <? x ;;
  let s := flog_half 0xffffffff00000000 32 (0, x) in
  let s := flog_half 0xffff0000 16 s in
  let s := flog_half 0x0000ff00 8 s in
  let s := flog_half 0x000000f0 4 s in
  let '(y, x) := flog_half 0x0000000c 2 s in
  Ok (if Z.land x 2 =? 0 then y else y + 1).

(** [floorLog2(int)] *)
Definition floorLog2_int (x : Z) : res Z := assert! 0 <? x ;; floorLog2_32 (u32 x).
(** [floorLog2(long)], [floorLog2(long long)] *)
Definition floorLog2_long (x : Z) : res Z := assert! 0 <? x ;; floorLog2_64 (u64 x).

Definition ceilLog2 (n : Z) : res Z :=
  if n =? 1 then Ok 0 else l ← floorLog2_64 (u64 (n - 1)); Ok (l + 1).

(** [ceilLog2<unsigned>] *)
Definition ceilLog2_32 (n : Z) : res Z :=
  if n =? 1 then Ok 0 else l ← floorLog2_32 (u32 (n - 1)); Ok (l + 1).

Definition floorPow2 (n : Z) : res Z := l ← floorLog2_64 n; Ok (u64 (Z.shiftl 1 l)).
Definition ceilPow2 (n : Z) : res Z :=
  l ← ceilLog2 n; defined! l <? 64 ;; Ok (u64 (Z.shiftl 1 l)).

Definition divCeil (a b : Z) : res Z := defined! negb (b =? 0) ;; Ok (u64 (a + b - 1) / b).

Definition roundUp (val align : Z) : Z :=
  let mask := u64 (align - 1) in
  Z.land (u64 (val + mask)) (u64 (Z.lnot mask)).

Definition roundDown (val align : Z) : Z :=
  let mask := u64 (align - 1) in
  Z.land val (u64 (Z.lnot mask)).

(** Characters by their ASCII codes: ['0'] is 48, ['A'] 65, ['a'] 97. *)
Definition isHex (c : Z) : bool :=
  ((48 <=? c) && (c <=? 57)) || ((65 <=? c) && (c <=? 70)) || ((97 <=? c) && (c <=? 102)).
Definition isOct (c : Z) : bool := (48 <=? c) && (c <=? 55).
Definition isDec (c : Z) : bool := (48 <=? c) && (c <=? 57).
Definition hex2Int (c : Z) : Z :=
  if (48 <=? c) && (c <=? 57) then c - 48
  else if (65 <=? c) && (c <=? 70) then c - 65 + 10
  else if (97 <=? c) && (c <=? 102) then c - 97 + 10
  else 0.

(** * Trial division *)

(** A divisor that the loop tries: [d] or [d - 2] is 5 modulo 6, at least [i],
    with a square within [n]. *)
Definition tried (i n d : Z) : Prop :=
  exists k, i <= k /\ k mod 6 = 5 /\ k * k <= n /\ (d = k \/ d = k + 2) /\ (d | n).

Lemma rem_divide n d : d <> 0 -> Z.rem n d = 0 <-> (d | n).
Proof. intros. by apply Z.rem_divide. Qed.

(** The loop decides whether a tried divisor exists, as long as no square
    overflows. *)
Lemma isPrime_loop_spec fuel i n :
  0 < i -> i mod 6 = 5 -> 0 < n < 46337 * 46337 -> i <= 46337 ->
  46337 - i < 6 * Z.of_nat fuel - 6 ->
  exists b, isPrime_loop fuel i n = Ok b /\ (b = true <-> forall d, ~ tried i n d).
Proof.
  revert i. induction fuel as [|fuel IH]; intros i Hi Hmod Hn Hle Hfuel; [lia|].
  simpl. rewrite (int_ok_in (i * i)) by nia. simpl. destruct (Z.leb_spec (i * i) n) as [Hsq|Hsq].
  - destruct ((Z.rem n i =? 0) || (Z.rem n (i + 2) =? 0)) eqn:E.
    + exists false. split; [done|]. split; [done|]. intros Hno. exfalso.
      apply orb_prop in E as [E|E]; apply Z.eqb_eq, rem_divide in E; try lia.
      * apply (Hno i). exists i. split_and!; auto with lia.
      * apply (Hno (i + 2)). exists i. split_and!; auto with lia.
    + assert (i + 6 <= 46337) by (destruct (decide (i = 46337)); [nia|]; Z.div_mod_to_equations; lia).
      rewrite (int_ok_in (i + 6)) by lia. simpl.
      destruct (IH (i + 6)) as (b & -> & Hb); [lia|by rewrite <- (Z.mod_add i 1 6) in Hmod|done|lia|lia|].
      exists b. split; [done|]. rewrite Hb. apply orb_false_elim in E as [E1 E2].
      apply Z.eqb_neq in E1, E2.
      split; intros Hno d (k & Hk & Hk6 & Hkn & Hd & Hdiv); 
        [|apply (Hno d); exists k; split_and!; auto with lia].
      destruct (decide (k = i)) as [->|].
      * destruct Hd as [->| ->]; apply rem_divide in Hdiv; lia.
      * apply (Hno d). exists k. split_and!; try done. Z.div_mod_to_equations; lia.
  - exists true. split; [done|]. split; [|done]. intros _ d (k & Hk & _ & Hkn & _). nia.
Qed.

Lemma isPrime_spec n :
  0 < n < 46337 * 46337 ->
  exists b, isPrime n = Ok b /\ (b = true <-> n = 2 \/ n = 3 \/ forall d, ~ tried 5 n d).
Proof.
  intros Hn. unfold isPrime. destruct (Z.eqb_spec n 2); [exists true; tauto|].
  destruct (Z.eqb_spec n 3); [exists true; tauto|]. simpl orb. cbn [orb].
  destruct (isPrime_loop_spec prime_fuel 5 n) as (b & Hb & Hiff); try done.
  exists b. split; [done|]. tauto.
Qed.

(** Residues of the divisors of a number coprime to 6. *)
Lemma coprime6_divisor r a n :
  n = r * a -> n mod 6 = 1 \/ n mod 6 = 5 -> a mod 6 = 1 \/ a mod 6 = 5.
Proof.
  intros -> Hn. rewrite Z.mul_mod in Hn by lia.
  pose proof (Z.mod_pos_bound r 6 ltac:(lia)). pose proof (Z.mod_pos_bound a 6 ltac:(lia)).
  set (x := r mod 6) in *. set (y := a mod 6) in *. clearbody x y.
  assert (x = 0 \/ x = 1 \/ x = 2 \/ x = 3 \/ x = 4 \/ x = 5) as Hx by lia.
  assert (y = 0 \/ y = 1 \/ y = 2 \/ y = 3 \/ y = 4 \/ y = 5) as Hy by lia.
  destruct Hx as [->|[->|[->|[->|[->| ->]]]]]; destruct Hy as [->|[->|[->|[->|[->| ->]]]]];
    revert Hn; vm_compute; intuition congruence.
Qed.

Lemma divisor_tried a n :
  1 < a -> (a | n) -> a * a <= n -> n mod 6 = 1 \/ n mod 6 = 5 -> tried 5 n a.
Proof.
  intros Ha [r Hr] Hsq Hn.
  pose proof (coprime6_divisor r a n Hr Hn) as [H1|H5].
  - assert (7 <= a) by (Z.div_mod_to_equations; lia).
    exists (a - 2). split_and!; [lia|Z.div_mod_to_equations; lia|nia|right; lia|by exists r].
  - exists a. split_and!; [Z.div_mod_to_equations; lia|done|done|by left|by exists r].
Qed.

(** A composite number coprime to 6 has a divisor that the loop tries. *)
Lemma composite_tried n :
  1 < n -> n mod 6 = 1 \/ n mod 6 = 5 -> ~ Z.prime n -> exists d, tried 5 n d.
Proof.
  intros Hn H6 Hnp. destruct (not_prime_divide n Hn) as (q & Hq & [r Hr]); [by rewrite <- prime_alt|].
  assert (1 < r) by nia.
  destruct (decide (q <= r)); [exists q|exists r]; apply divisor_tried; try done; try nia.
  - by exists r.
  - exists q. lia.
Qed.

(** No divisor is tried on a prime. *)
Lemma prime_untried n d : Z.prime n -> ~ tried 5 n d.
Proof.
  intros Hp (k & Hk & _ & Hsq & Hd & Hdiv).
  pose proof (Z.divide_prime_r d n Hp Hdiv). nia.
Qed.

(** * Logarithms *)

(** One halving step: a [2 * k]-bit value against the mask of its high half. *)
Lemma flog_half_inv v k m s :
  0 < k <= 32 -> m = 2 ^ (2 * k) - 2 ^ k -> msb_inv v (2 * k) s -> msb_inv v k (flog_half m k s).
Proof.
  intros Hk Hm. destruct s as [y x]. unfold msb_inv, flog_half. simpl. intros [Hx ->].
  pose proof (pow2_pos k ltac:(lia)).
  assert (m = Z.shiftl (Z.ones k) k) as ->.
  { rewrite Hm, Z.shiftl_mul_pow2, Z.ones_equiv, <- Z.sub_1_r, Z.mul_sub_distr_r by lia.
    rewrite <- Z.pow_add_r by lia. f_equal; [f_equal; lia|lia]. }
  assert (Z.land x (Z.shiftl (Z.ones k) k) = Z.shiftl (Z.shiftr x k) k) as ->.
  { bitwise. destruct (decide (k <= i)).
    - autorewrite with bits. replace (i - k + k) with i by lia.
      destruct (Z.ltb_spec (i - k) k); [by rewrite andb_true_r|].
      rewrite (testbit_above (2 * k) x) by lia. done.
    - rewrite !(Z.testbit_neg_r _ (i - k)) by lia. by rewrite andb_false_r. }
  rewrite Z.shiftl_mul_pow2, Z.shiftr_div_pow2 by lia.
  assert (2 ^ (2 * k) = 2 ^ k * 2 ^ k) as E by (rewrite <- Z.pow_add_r by lia; f_equal; lia).
  assert (0 <= x / 2 ^ k < 2 ^ k) by (split; [apply Z.div_pos; lia|apply Z.div_lt_upper_bound; lia]).
  destruct (Z.eqb_spec (x / 2 ^ k * 2 ^ k) 0) as [E0|E0]; simpl.
  - assert (x / 2 ^ k = 0) as Ed by nia. apply Z.div_small_iff in Ed; lia.
  - split; [nia|]. rewrite <- Z.shiftr_div_pow2, Z.log2_shiftr by lia.
    assert (k <= Z.log2 x); [|lia].
    apply Z.log2_le_pow2; [lia|]. destruct (decide (2 ^ k <= x)); [done|].
    by rewrite Z.div_small in E0 by lia.
Qed.

Lemma flog_last v y x :
  msb_inv v 2 (y, x) -> (if Z.land x 2 =? 0 then y else y + 1) = Z.log2 v.
Proof.
  intros [Hx ->]; simpl in *.
  assert (x = 1 \/ x = 2 \/ x = 3) as [-> | [-> | ->]] by lia; simpl; lia.
Qed.

Lemma floorLog2_32_spec x : 0 < x < 2 ^ 32 -> floorLog2_32 x = Ok (Z.log2 x).
Proof.
  intros Hx. unfold floorLog2_32. rewrite (proj2 (Z.ltb_lt _ _)) by lia.
  assert (msb_inv x (2 * 16) (0, x)) as H by done.
  apply (flog_half_inv x 16 0xffff0000) in H; [|lia|done].
  apply (flog_half_inv x 8 0xff00) in H; [|lia|done].
  apply (flog_half_inv x 4 0xf0) in H; [|lia|done].
  apply (flog_half_inv x 2 0xc) in H; [|lia|done].
  cbv zeta. destruct (flog_half 0xc 2 _) as [y z]. by rewrite (flog_last x).
Qed.

Lemma floorLog2_64_spec x : 0 < x < 2 ^ 64 -> floorLog2_64 x = Ok (Z.log2 x).
Proof.
  intros Hx. unfold floorLog2_64. rewrite (proj2 (Z.ltb_lt _ _)) by lia.
  assert (msb_inv x (2 * 32) (0, x)) as H by done.
  apply (flog_half_inv x 32 0xffffffff00000000) in H; [|lia|done].
  apply (flog_half_inv x 16 0xffff0000) in H; [|lia|done].
  apply (flog_half_inv x 8 0xff00) in H; [|lia|done].
  apply (flog_half_inv x 4 0xf0) in H; [|lia|done].
  apply (flog_half_inv x 2 0xc) in H; [|lia|done].
  cbv zeta. destruct (flog_half 0xc 2 _) as [y z]. by rewrite (flog_last x).
Qed.

Lemma ceilLog2_spec x : 0 < x < 2 ^ 64 -> ceilLog2 x = Ok (Z.log2_up x).
Proof.
  intros Hx. unfold ceilLog2. destruct (Z.eqb_spec x 1) as [->|]; [done|].
  rewrite wrap_u_id, floorLog2_64_spec by lia. simpl. f_equal.
  by rewrite Z.log2_up_eqn, <- Z.sub_1_r by lia.
Qed.

Lemma ceilLog2_32_spec x : 0 < x < 2 ^ 32 -> ceilLog2_32 x = Ok (Z.log2_up x).
Proof.
  intros Hx. unfold ceilLog2_32. destruct (Z.eqb_spec x 1) as [->|]; [done|].
  rewrite wrap_u_id, floorLog2_32_spec by lia. simpl. f_equal.
  by rewrite Z.log2_up_eqn, <- Z.sub_1_r by lia.
Qed.

Lemma ldiff_eq_self n m : Z.ldiff n m = n <-> Z.land n m = 0.
Proof.
  split; intros H; apply bits_ext; intros i Hi; apply (f_equal (fun z => Z.testbit z i)) in H;
    revert H; rewrite ?Z.ldiff_spec, ?Z.land_spec, ?Z.bits_0;
    destruct (Z.testbit n i), (Z.testbit m i); done.
Qed.

Lemma isPowerOf2_spec n :
  0 <= n < 2 ^ 64 -> isPowerOf2 n = true <-> exists k, 0 <= k < 64 /\ n = 2 ^ k.
Proof.
  intros Hn. unfold isPowerOf2, leastSigBit. destruct (Z.eqb_spec n 0) as [->|Hz]; simpl.
  { split; [done|]. intros (k & Hk & E). pose proof (pow2_pos k ltac:(lia)). lia. }
  rewrite (wrap_u_id 64 (n - 1)) by lia.
  assert (Z.land n (u64 (Z.lnot (n - 1))) = Z.ldiff n (n - 1)) as ->.
  { bitwise. rewrite Z.ldiff_spec. destruct (Z.ltb_spec i 64); [done|].
    by rewrite (testbit_above 64) by lia. }
  rewrite Z.eqb_eq, ldiff_eq_self, land_pred_pow2 by lia. split.
  - intros E. exists (Z.log2 n). split; [|done].
    split; [apply Z.log2_nonneg|]. apply Z.log2_lt_pow2; lia.
  - intros (k & Hk & ->). by rewrite Z.log2_pow2 by lia.
Qed.

(** * Alignment *)

Lemma align_mask k : 0 <= k < 64 -> u64 (2 ^ k - 1) = Z.ones k.
Proof.
  intros. rewrite Z.ones_equiv, <- Z.sub_1_r. apply wrap_u_id.
  pose proof (pow2_pos k ltac:(lia)). pose proof (Z.pow_lt_mono_r 2 k 64). lia.
Qed.

Lemma roundDown_spec v k :
  0 <= v < 2 ^ 64 -> 0 <= k < 64 -> roundDown v (2 ^ k) = v / 2 ^ k * 2 ^ k.
Proof.
  intros Hv Hk. unfold roundDown. rewrite align_mask by done.
  rewrite <- Z.shiftr_div_pow2, <- Z.shiftl_mul_pow2 by lia. bitwise.
  destruct (decide (k <= i)).
  - autorewrite with bits. replace (i - k + k) with i by lia.
    destruct (Z.ltb_spec i 64); [by decide_cmp; rewrite andb_true_r|].
    by rewrite (testbit_above 64 v) by lia.
  - rewrite (Z.testbit_neg_r _ (i - k)) by lia. decide_cmp; by rewrite ?andb_false_r.
Qed.

Lemma roundUp_roundDown v k :
  0 <= v -> 0 <= k < 64 -> roundUp v (2 ^ k) = roundDown (u64 (v + (2 ^ k - 1))) (2 ^ k).
Proof.
  intros Hv Hk. unfold roundUp, roundDown. rewrite align_mask by done.
  by rewrite Z.ones_equiv, <- Z.sub_1_r.
Qed.

Lemma power_spec n e :
  0 <= n < 2 ^ 32 -> 0 <= e -> power n e = Ok (u64 (n ^ e)).
Proof.
  intros Hn He. unfold power. destruct (Z.eqb_spec e 0) as [->|]; [done|].
  destruct (for_range_ok (fun k r => r = u64 (n ^ k)) (fun _ r => Ok (u64 (r * n))) 1 e n)
    as (r & -> & ->); [lia| | |done].
  - rewrite Z.pow_1_r, wrap_u_id; lia.
  - intros k ? Hk ->. eexists. split; [done|]. unfold wrap_u.
    rewrite Z.mul_mod_idemp_l by lia. by rewrite Z.pow_add_r, Z.pow_1_r by lia.
Qed.

Lemma roundUp_spec v k :
  0 <= v -> 0 <= k < 64 -> v + (2 ^ k - 1) < 2 ^ 64 ->
  roundUp v (2 ^ k) = (v + (2 ^ k - 1)) / 2 ^ k * 2 ^ k.
Proof.
  intros Hv Hk Hov. pose proof (pow2_pos k ltac:(lia)).
  rewrite roundUp_roundDown, roundDown_spec, wrap_u_id by (try apply wrap_u_range; lia). done.
Qed.

Lemma prime_mod6 n : Z.prime n -> 3 < n -> n mod 6 = 1 \/ n mod 6 = 5.
Proof.
  intros Hp Hn.
  assert (~ (2 | n)) by (intros Hd; pose proof (Z.divide_prime_r 2 n Hp Hd); lia).
  assert (~ (3 | n)) by (intros Hd; pose proof (Z.divide_prime_r 3 n Hp Hd); lia).
  assert (n mod 2 <> 0) by (intros ?%Z.mod_divide; [done|lia]).
  assert (n mod 3 <> 0) by (intros ?%Z.mod_divide; [done|lia]).
  Z.div_mod_to_equations; lia.
Qed.

(** * Theorems *)

(** (primality test).  Within the range where no square overflows,
    [isPrime] returns, accepts every prime, and is exact on the numbers that 2
    and 3 do not divide, the only ones its callers pass; elsewhere it only
    tries divisors from 5 on, so it accepts every number with no larger tried
    divisor. *)
Theorem isPrime_exact n :
  1 < n < 46337 * 46337 ->
  exists b, isPrime n = Ok b /\ (Z.prime n -> b = true) /\
    (n mod 6 = 1 \/ n mod 6 = 5 -> b = true -> Z.prime n) /\
    (b = true <-> n = 2 \/ n = 3 \/ forall d, ~ tried 5 n d).
Proof.
  intros Hn. destruct (isPrime_spec n) as (b & Hb & Hiff); [lia|].
  exists b. split_and!; [done| | |done].
  - intros Hp. apply Hiff. right; right. intros d. by apply prime_untried.
  - intros H6 Hbt. destruct (prime_dec n) as [Hp|Hnp]; [by apply prime_alt|exfalso].
    rewrite <- prime_alt in Hnp.
    destruct (composite_tried n) as [d Hd]; [lia|done|done|].
    apply Hiff in Hbt as [-> |[-> |Hno]]; [by destruct H6|by destruct H6|by apply (Hno d)].
Qed.

Example isPrime_exact_witness : exists b, isPrime 91 = Ok b /\ (b = true -> Z.prime 91).
Proof.
  destruct (isPrime_exact 91) as (b & H1 & _ & H2 & _); [lia|].
  exists b. split; [exact H1|]. apply H2. left. reflexivity.
Defined.

(** ([prevPrime] returns composites).  Starting from a number that 3 does
    not divide, the decrement sequence of [prevPrime] is out of phase and
    visits multiples of 3, which [isPrime] accepts: the "prime" below 25 is 21,
    and 4 passes as prime. *)
Theorem prevPrime_composite :
  prevPrime 10 25 = Ok 21 /\ 21 = 3 * 7 /\ isPrime 4 = Ok true /\ isPrime 6 = Ok true.
Proof. vm_compute. done. Qed.

(** (logarithms and powers of two).  [floorLog2] and [ceilLog2] are the
    integer logarithms rounded down and up, on every width, and stop the
    simulator on zero; [floorPow2] and [ceilPow2] are the neighbouring powers
    of two. *)
Theorem log2_functions x :
  0 < x < 2 ^ 64 ->
  floorLog2_64 x = Ok (Z.log2 x) /\ ceilLog2 x = Ok (Z.log2_up x) /\
  floorPow2 x = Ok (2 ^ Z.log2 x) /\
  (x <= 2 ^ 63 -> ceilPow2 x = Ok (2 ^ Z.log2_up x)) /\
  (2 ^ 63 < x -> ceilPow2 x = Ub) /\
  (x < 2 ^ 32 -> floorLog2_32 x = Ok (Z.log2 x)) /\
  (x < 2 ^ 31 -> floorLog2_int x = Ok (Z.log2 x)) /\
  floorLog2_64 0 = Panic /\ floorLog2_32 0 = Panic.
Proof.
  intros Hx. pose proof (Z.log2_nonneg x). pose proof (Z.log2_up_nonneg x).
  split_and!; try done.
  - by apply floorLog2_64_spec.
  - by apply ceilLog2_spec.
  - unfold floorPow2. rewrite floorLog2_64_spec by done. simpl. f_equal.
    rewrite Z.shiftl_1_l. apply wrap_u_id. pose proof (Z.log2_spec x ltac:(lia)). lia.
  - intros Hle. unfold ceilPow2. rewrite ceilLog2_spec by done. simpl.
    assert (Z.log2_up x <= 63) by (apply Z.log2_up_le_pow2; lia).
    rewrite (proj2 (Z.ltb_lt _ _)) by lia. f_equal.
    rewrite Z.shiftl_1_l. apply wrap_u_id.
    pose proof (Z.pow_le_mono_r 2 (Z.log2_up x) 63). lia.
  - intros Hgt. unfold ceilPow2. rewrite ceilLog2_spec by done. simpl.
    assert (63 < Z.log2_up x) by (apply Z.log2_up_lt_pow2; lia).
    by rewrite (proj2 (Z.ltb_ge _ _)) by lia.
  - intros. apply floorLog2_32_spec; lia.
  - intros. unfold floorLog2_int. rewrite (proj2 (Z.ltb_lt _ _)) by lia.
    rewrite wrap_u_id by lia. apply floorLog2_32_spec. lia.
Qed.

Example log2_functions_witness : ceilPow2 (2 ^ 63 + 1) = Ub.
Proof. apply (log2_functions (2 ^ 63 + 1)); lia. Defined.

(** (alignment).  For a power-of-two alignment [roundDown] is the greatest
    multiple not above its argument and [roundUp], when it does not overflow,
    the least multiple not below it. *)
Theorem round_aligned v k :
  0 <= v -> 0 <= k < 64 -> v + (2 ^ k - 1) < 2 ^ 64 ->
  (2 ^ k | roundDown v (2 ^ k)) /\ (2 ^ k | roundUp v (2 ^ k)) /\
  roundDown v (2 ^ k) <= v < roundDown v (2 ^ k) + 2 ^ k /\
  v <= roundUp v (2 ^ k) < v + 2 ^ k.
Proof.
  intros Hv Hk Hov. pose proof (pow2_pos k ltac:(lia)).
  rewrite roundUp_spec, roundDown_spec by lia.
  pose proof (Z.mul_div_le v (2 ^ k)). pose proof (Z.mul_succ_div_gt v (2 ^ k)).
  pose proof (Z.mul_div_le (v + (2 ^ k - 1)) (2 ^ k)).
  pose proof (Z.mul_succ_div_gt (v + (2 ^ k - 1)) (2 ^ k)).
  split_and!; try apply Z.divide_factor_r; lia.
Qed.

Example round_aligned_witness : (2 ^ 6 | roundUp 100 (2 ^ 6)).
Proof. apply (round_aligned 100 6); lia. Defined.

(** (overflow of [power]).  [power n e] is [n ^ e] modulo [2 ^ 64]: exact
    until it overflows (the code warns), wrapped afterwards. *)
Theorem power_wraps n e :
  0 <= n < 2 ^ 32 -> 0 <= e < 2 ^ 31 ->
  power n e = Ok (u64 (n ^ e)) /\ (n ^ e < 2 ^ 64 -> power n e = Ok (n ^ e)).
Proof.
  intros Hn He. rewrite power_spec by lia. split; [done|]. intros.
  rewrite wrap_u_id; [done|]. pose proof (Z.pow_nonneg n e). lia.
Qed.

Example power_wraps_witness : power 3 40 = Ok (3 ^ 40).
Proof. apply (power_wraps 3 40); lia. Defined.
