(* ===== verification/AddrRange.v ===== *)
(** Address ranges with interleaving: src/base/addr_range.hh. *)
From S2P Require Import Prelude Bitfield.

(** * Definitions *)

(** [MaxAddr] of base/types.hh. *)
Definition MaxAddr : Z := u64 (-1).

Record AddrRange := {
  _start : Z;
  _end : Z;
  intlvHighBit : Z;
  xorHighBit : Z;
  intlvBits : Z;
  intlvMatch : Z;
}.

#[export] Instance AddrRange_eq_dec : EqDecision AddrRange.
Proof. solve_decision. Defined.

Definition AddrRange_empty : AddrRange := Build_AddrRange 1 0 0 0 0 0.

Definition AddrRange_new (s e hi xhi nb m : Z) : res AddrRange :=
  let r := Build_AddrRange s e hi xhi nb m in
  if nb =? 0 then Ok r else
  defined! nb <? 64 ;;
  assert! m <? Z.shiftl 1 nb ;;
  if xhi =? 0 then Ok r else
  if xhi =? hi then Panic
  else if hi <? xhi then (assert! nb <=? xhi - hi ;; Ok r)
  else (assert! nb <=? hi - xhi ;; Ok r).

Definition AddrRange_plain (s e : Z) : AddrRange := Build_AddrRange s e 0 0 0 0.

Definition interleaved (r : AddrRange) : bool := negb (intlvBits r =? 0).
Definition hashed (r : AddrRange) : bool := interleaved r && negb (xorHighBit r =? 0).

Definition size (r : AddrRange) : Z := Z.shiftr (u64 (_end r - _start r + 1)) (intlvBits r).

Definition granularity (r : AddrRange) : Z :=
  if interleaved r then
    let intlv_low_bit := u8 (intlvHighBit r - intlvBits r + 1) in
    if hashed r then
      let xor_low_bit := u8 (xorHighBit r - intlvBits r + 1) in
      u64 (Z.shiftl 1 (Z.min intlv_low_bit xor_low_bit))
    else u64 (Z.shiftl 1 intlv_low_bit)
  else size r.

Definition stripes (r : AddrRange) : Z := u32 (Z.shiftl 1 (intlvBits r)).

Definition valid (r : AddrRange) : bool := _start r <=? _end r.
Definition start (r : AddrRange) : Z := _start r.
Definition end_ (r : AddrRange) : Z := _end r.

Definition mergesWith (t r : AddrRange) : bool :=
  (_start r =? _start t) && (_end r =? _end t) && (intlvHighBit r =? intlvHighBit t) &&
  (xorHighBit r =? xorHighBit t) && (intlvBits r =? intlvBits t).

Definition contains (r : AddrRange) (a : Z) : bool :=
  let in_range := (_start r <=? a) && (a <=? _end r) in
  if negb (interleaved r) then in_range
  else if in_range then
    if negb (hashed r) then
      bits a (intlvHighBit r) (intlvHighBit r - intlvBits r + 1) =? intlvMatch r
    else
      Z.lxor (bits a (intlvHighBit r) (intlvHighBit r - intlvBits r + 1))
             (bits a (xorHighBit r) (xorHighBit r - intlvBits r + 1)) =? intlvMatch r
  else false.

Definition intersects (t r : AddrRange) : res bool :=
  if (_end r <? _start t) || (_end t <? _start r) then Ok false
  else if negb (interleaved t) && negb (interleaved r) then Ok true
  else if size r =? 1 then Ok (contains t (start r))
  else if mergesWith t r then Ok (intlvMatch t =? intlvMatch r)
  else Panic.

Definition isSubset (t r : AddrRange) : res bool :=
  if interleaved t then Panic
  else if interleaved r then
    Ok (contains r (_start t) && contains r (_end t) && (size t <=? granularity r))
  else Ok ((_start r <=? _start t) && (_end t <=? _end r)).

Definition removeIntlvBits (r : AddrRange) (a : Z) : Z :=
  let intlv_low_bit := intlvHighBit r - intlvBits r + 1 in
  insertBits 64 (Z.shiftr a (intlvBits r)) (intlv_low_bit - 1) 0 a.

Definition getOffset (r : AddrRange) (a : Z) : Z :=
  let in_range := (_start r <=? a) && (a <=? _end r) in
  if negb in_range then MaxAddr
  else if interleaved r then u64 (removeIntlvBits r a - removeIntlvBits r (_start r))
  else a - _start r.

(** [operator<] and [operator==] *)
Definition range_lt (t r : AddrRange) : bool :=
  if negb (_start t =? _start r) then _start t <? _start r else intlvMatch t <? intlvMatch r.

Definition range_eq (t r : AddrRange) : bool :=
  (_start t =? _start r) && (_end t =? _end r) && (intlvBits t =? intlvBits r) &&
  ((intlvBits t =? 0) ||
   ((intlvHighBit t =? intlvHighBit r) && (intlvMatch t =? intlvMatch r))).

(** The check loop of the merging constructor: every range merges with [t] and
    the match values count up from [m] (a [uint8_t]). *)
Fixpoint merge_check (t : AddrRange) (m : Z) (rs : list AddrRange) : res unit :=
  match rs with
  | [] => Ok ()
  | r :: rs =>
      if negb (mergesWith t r) then Panic
      else if negb (intlvMatch r =? m) then Panic
      else merge_check t (u8 (m + 1)) rs
  end.

(** [AddrRange(const std::vector<AddrRange>&)] *)
Definition AddrRange_merge (ranges : list AddrRange) : res AddrRange :=
  match ranges with
  | [] => Ok AddrRange_empty
  | f :: _ =>
      let t := Build_AddrRange (_start f) (_end f) (intlvHighBit f) (xorHighBit f) (intlvBits f) 0 in
      defined! intlvBits t <? 64 ;;
      if negb (Z.of_nat (length ranges) =? Z.shiftl 1 (intlvBits t)) then Panic
      else
        _ ← merge_check t 0 ranges;
        Ok (Build_AddrRange (_start f) (_end f) 0 0 0 0)
  end.

Definition RangeEx (s e : Z) : AddrRange := AddrRange_plain s (u64 (e - 1)).
Definition RangeIn (s e : Z) : AddrRange := AddrRange_plain s e.
Definition RangeSize (s sz : Z) : AddrRange := AddrRange_plain s (u64 (s + sz - 1)).

(** * Well-formed ranges *)

(** The fields fit their types, and the interleaving fields lie inside the
    address, which the constructor does not check. *)
Record range_wf (r : AddrRange) : Prop := {
  rw_start : 0 <= _start r < 2 ^ 64;
  rw_end : 0 <= _end r < 2 ^ 64;
  rw_bits : 0 <= intlvBits r < 64;
  rw_hi : interleaved r = true -> intlvBits r <= intlvHighBit r + 1 <= 64;
  rw_xhi : hashed r = true -> intlvBits r <= xorHighBit r + 1 <= 64;
}.

(** The value the interleaving compares with [intlvMatch]. *)
Definition stripe_of (r : AddrRange) (a : Z) : Z :=
  let h := bits a (intlvHighBit r) (intlvHighBit r - intlvBits r + 1) in
  if hashed r
  then Z.lxor h (bits a (xorHighBit r) (xorHighBit r - intlvBits r + 1)) else h.

Definition in_bounds (r : AddrRange) (a : Z) : Prop := _start r <= a <= _end r.

Definition with_match (r : AddrRange) (m : Z) : AddrRange :=
  Build_AddrRange (_start r) (_end r) (intlvHighBit r) (xorHighBit r) (intlvBits r) m.

Lemma contains_spec r a :
  contains r a = true <->
  in_bounds r a /\ (interleaved r = true -> stripe_of r a = intlvMatch r).
Proof.
  unfold contains, in_bounds, stripe_of, hashed.
  destruct (interleaved r); simpl; [|intuition lia].
  destruct ((_start r <=? a) && (a <=? _end r)) eqn:E; [|intuition lia].
  destruct (xorHighBit r =? 0); simpl; rewrite Z.eqb_eq; intuition lia.
Qed.

Lemma stripe_of_range r a :
  range_wf r -> interleaved r = true -> 0 <= stripe_of r a < 2 ^ intlvBits r.
Proof.
  intros [] Hi. specialize (rw_hi0 Hi). unfold interleaved in Hi.
  unfold stripe_of. pose proof (bits_range a (intlvHighBit r) (intlvHighBit r - intlvBits r + 1)) as H1.
  replace (intlvHighBit r - (intlvHighBit r - intlvBits r + 1) + 1) with (intlvBits r) in H1 by lia.
  destruct (hashed r) eqn:Hh; [|lia]. specialize (rw_xhi0 eq_refl).
  pose proof (bits_range a (xorHighBit r) (xorHighBit r - intlvBits r + 1)) as H2.
  replace (xorHighBit r - (xorHighBit r - intlvBits r + 1) + 1) with (intlvBits r) in H2 by lia.
  split; [apply Z.lxor_nonneg; lia|].
  apply testbit_bound; [apply Z.lxor_nonneg; lia|lia|]. intros i Hii.
  rewrite Z.lxor_spec, !(testbit_above (intlvBits r)) by lia. done.
Qed.

(** ** Merging *)

Lemma mergesWith_spec t r :
  mergesWith t r = true <->
  _start r = _start t /\ _end r = _end t /\ intlvHighBit r = intlvHighBit t /\
  xorHighBit r = xorHighBit t /\ intlvBits r = intlvBits t.
Proof. unfold mergesWith. rewrite !andb_true_iff, !Z.eqb_eq. tauto. Qed.

Lemma mergesWith_with_match t r : mergesWith t r = true -> r = with_match t (intlvMatch r).
Proof. rewrite mergesWith_spec. destruct r; simpl. intros (-> & -> & -> & -> & ->). done. Qed.

(** The merge loop accepts exactly the ranges with match values [m], [m + 1],
    ... (no wrap-around below 256). *)
Lemma merge_check_spec t m rs :
  0 <= m -> m + Z.of_nat (length rs) <= 256 ->
  merge_check t m rs = Ok () <->
  rs = (fun k => with_match t (m + Z.of_nat k)) <$> seq 0 (length rs).
Proof.
  revert m. induction rs as [|r rs IH]; intros m Hm Hlen; simpl; [done|].
  simpl in Hlen. destruct (mergesWith t r) eqn:Hmw; simpl.
  - destruct (Z.eqb_spec (intlvMatch r) m) as [Em|Em]; simpl.
    + assert (r = with_match t (m + Z.of_nat 0)) as Er.
      { rewrite (mergesWith_with_match t r Hmw) at 1. f_equal. lia. }
      destruct rs as [|r' rs'] eqn:Ers; [simpl; split; [by intros _; f_equal|done]|rewrite <- Ers in *].
      assert (Z.of_nat (length rs) > 0) by (rewrite Ers; simpl; lia).
      rewrite (wrap_u_id 8) by (change (2 ^ 8) with 256; lia). rewrite IH by lia.
      rewrite <- (fmap_S_seq 0), <- list_fmap_compose.
      assert ((fun k => with_match t (m + 1 + Z.of_nat k)) <$> seq 0 (length rs) =
        ((fun k => with_match t (m + Z.of_nat k)) ∘ S) <$> seq 0 (length rs)) as ->.
      { apply list_fmap_ext. intros i x _. simpl. f_equal. lia. }
      split; [intros Hx; by rewrite <- Hx, <- Er|by intros [= _ ?]].
    + split; [done|]. intros [= Er _]. exfalso. apply Em. rewrite Er. simpl. lia.
  - split; [done|]. intros [= Er _]. exfalso.
    rewrite Er in Hmw. unfold mergesWith in Hmw. simpl in Hmw. by rewrite !Z.eqb_refl in Hmw.
Qed.

(** ** Intervals that share a stripe granule *)

(** Two addresses with the same quotient by [2 ^ g] have the same bits from
    position [g] on. *)
Lemma bits_same_granule g a b hi lo :
  0 <= g <= lo -> lo <= hi + 1 <= lo + 64 -> a / 2 ^ g = b / 2 ^ g -> bits a hi lo = bits b hi lo.
Proof.
  intros Hg Hlo Hq. rewrite !bits_div by lia. f_equal.
  replace lo with (g + (lo - g)) by lia.
  rewrite Z.pow_add_r, <- !Z.div_div by (lia || apply Z.pow_nonzero; lia || apply pow2_pos; lia).
  by rewrite Hq.
Qed.

(** The granule of an address, as an exponent. *)
Definition granule_bits (r : AddrRange) : Z :=
  if hashed r
  then Z.min (intlvHighBit r - intlvBits r + 1) (xorHighBit r - intlvBits r + 1)
  else intlvHighBit r - intlvBits r + 1.

Lemma granule_bits_range r :
  range_wf r -> interleaved r = true -> 0 <= granule_bits r < 64.
Proof.
  intros [] Hi. specialize (rw_hi0 Hi). unfold granule_bits.
  assert (intlvBits r <> 0) by (unfold interleaved in Hi; lia).
  destruct (hashed r); [specialize (rw_xhi0 eq_refl)|]; lia.
Qed.

Lemma granularity_pow2 r :
  range_wf r -> interleaved r = true -> granularity r = 2 ^ granule_bits r.
Proof.
  intros Hwf Hi. pose proof (granule_bits_range r Hwf Hi) as Hg. destruct Hwf.
  specialize (rw_hi0 Hi). unfold granularity, granule_bits in *. rewrite Hi.
  assert (intlvBits r <> 0) by (unfold interleaved in Hi; lia).
  assert (forall x, 0 <= x <= 64 -> u8 x = x) as H8 by (intros; apply wrap_u_id; lia).
  assert (forall g, 0 <= g < 64 -> u64 (Z.shiftl 1 g) = 2 ^ g) as H64.
  { intros g Hg'. rewrite Z.shiftl_1_l. apply wrap_u_id.
    pose proof (Z.pow_lt_mono_r 2 g 64). pose proof (pow2_pos g). lia. }
  destruct (hashed r); [specialize (rw_xhi0 eq_refl); rewrite !H8 by lia|rewrite H8 by lia];
    apply H64; lia.
Qed.

Lemma stripe_of_granule r a b :
  range_wf r -> interleaved r = true -> a / 2 ^ granule_bits r = b / 2 ^ granule_bits r ->
  stripe_of r a = stripe_of r b.
Proof.
  intros Hwf Hi Hq. pose proof (granule_bits_range r Hwf Hi) as Hg. destruct Hwf.
  specialize (rw_hi0 Hi). unfold stripe_of, granule_bits in *.
  assert (intlvBits r <> 0) by (unfold interleaved in Hi; lia).
  destruct (hashed r) eqn:Hh; [specialize (rw_xhi0 eq_refl); f_equal|];
    eapply bits_same_granule; try exact Hq; lia.
Qed.

(** ** Removing the interleaving bits *)

Lemma removeIntlvBits_div r a :
  range_wf r -> interleaved r = true -> 0 <= a < 2 ^ 64 ->
  removeIntlvBits r a =
    a / 2 ^ (intlvHighBit r + 1) * 2 ^ (intlvHighBit r - intlvBits r + 1) +
    a mod 2 ^ (intlvHighBit r - intlvBits r + 1).
Proof.
  intros [] Hi Ha. specialize (rw_hi0 Hi). unfold removeIntlvBits.
  set (lo := intlvHighBit r - intlvBits r + 1).
  assert (intlvBits r <> 0) by (unfold interleaved in Hi; lia).
  pose proof (pow2_pos lo ltac:(lia)) as Hlo.
  assert (0 <= Z.shiftr a (intlvBits r) < 2 ^ 64) as Hsh.
  { rewrite Z.shiftr_div_pow2 by lia. pose proof (pow2_pos (intlvBits r) ltac:(lia)).
    split; [apply Z.div_pos; lia|]. apply Z.div_lt_upper_bound; [lia|]. nia. }
  rewrite <- Z.shiftl_mul_pow2, <- Z.shiftr_div_pow2 by lia.
  change (a mod 2 ^ lo) with (wrap_u lo a).
  rewrite <- Z.add_lor_land.
  assert (Z.land (Z.shiftl (Z.shiftr a (intlvHighBit r + 1)) lo) (wrap_u lo a) = 0) as ->.
  { bitwise. destruct (Z.ltb_spec i lo); [|by rewrite andb_false_r].
    rewrite Z.testbit_neg_r by lia. done. }
  rewrite Z.add_0_r. bitwise. rewrite testbit_insertBits by lia. rewrite Z.sub_0_r.
  destruct (Z.leb_spec i (lo - 1)).
  - rewrite (proj2 (Z.leb_le 0 i)), (proj2 (Z.ltb_lt _ _)) by lia. simpl.
    by rewrite (Z.testbit_neg_r _ (i - lo)) by lia.
  - rewrite andb_false_r, (proj2 (Z.ltb_ge _ _)) by lia. simpl. rewrite orb_false_r.
    rewrite !Z.shiftr_spec by lia. f_equal. unfold lo. lia.
Qed.

Lemma stripe_of_with_match r m a : stripe_of (with_match r m) a = stripe_of r a.
Proof. done. Qed.

(** An interval no longer than a granule touches at most two granules, those of
    its end points. *)
Lemma short_interval g s e a :
  0 <= g -> s <= a <= e -> e - s + 1 <= 2 ^ g -> a / 2 ^ g = s / 2 ^ g \/ a / 2 ^ g = e / 2 ^ g.
Proof.
  intros Hg Ha Hlen. pose proof (pow2_pos g Hg).
  assert (s / 2 ^ g <= a / 2 ^ g) by (apply Z.div_le_mono; lia).
  assert (a / 2 ^ g <= e / 2 ^ g) by (apply Z.div_le_mono; lia).
  assert (e / 2 ^ g <= (s + 1 * 2 ^ g) / 2 ^ g) by (apply Z.div_le_mono; lia).
  rewrite Z.div_add in * by lia. lia.
Qed.

(** The offset in terms of the address above and below the removed field, for
    a range that starts at a multiple of the interleaved block. *)
Lemma getOffset_div r a :
  range_wf r -> interleaved r = true -> in_bounds r a ->
  _start r mod 2 ^ (intlvHighBit r + 1) = 0 ->
  getOffset r a =
    (a / 2 ^ (intlvHighBit r + 1) - _start r / 2 ^ (intlvHighBit r + 1)) *
      2 ^ (intlvHighBit r - intlvBits r + 1) + a mod 2 ^ (intlvHighBit r - intlvBits r + 1).
Proof.
  intros Hwf Hi Ha Hal. pose proof Hwf as []. specialize (rw_hi0 Hi). unfold in_bounds in Ha.
  assert (intlvBits r <> 0) by (unfold interleaved in Hi; lia).
  unfold getOffset. rewrite Hi, !removeIntlvBits_div by (done || lia).
  rewrite (proj2 (Z.leb_le _ _)), (proj2 (Z.leb_le a _)) by lia. simpl.
  set (lo := intlvHighBit r - intlvBits r + 1) in *. set (hi1 := intlvHighBit r + 1) in *.
  assert (_start r mod 2 ^ lo = 0) as ->.
  { apply Z.mod_divide; [pose proof (pow2_pos lo ltac:(lia)); lia|].
    apply Z.divide_trans with (2 ^ hi1); [|by apply Z.mod_divide; [pose proof (pow2_pos hi1 ltac:(lia)); lia|]].
    exists (2 ^ (hi1 - lo)). rewrite <- Z.pow_add_r by lia. f_equal. lia. }
  assert (_start r / 2 ^ hi1 <= a / 2 ^ hi1) by (apply Z.div_le_mono; [apply pow2_pos|]; lia).
  pose proof (Z.mod_pos_bound a (2 ^ lo) (pow2_pos lo ltac:(lia))) as Hm.
  pose proof (pow2_pos lo ltac:(lia)). pose proof (pow2_pos hi1 ltac:(lia)).
  assert (0 <= _start r / 2 ^ hi1) by (apply Z.div_pos; lia).
  assert (a / 2 ^ hi1 * 2 ^ lo + a mod 2 ^ lo < 2 ^ 64).
  { assert (2 ^ lo <= 2 ^ hi1) by (apply Z.pow_le_mono_r; lia).
    assert (a / 2 ^ hi1 * 2 ^ lo + a mod 2 ^ lo <= a); [|lia].
    pose proof (Z.div_mod a (2 ^ hi1) ltac:(lia)).
    assert (a mod 2 ^ lo <= a mod 2 ^ hi1); [|nia].
    replace hi1 with (lo + (hi1 - lo)) by lia. rewrite Z.pow_add_r by lia.
    rewrite Z.rem_mul_r by (pose proof (pow2_pos (hi1 - lo) ltac:(lia)); lia).
    pose proof (Z.mod_pos_bound (a / 2 ^ lo) (2 ^ (hi1 - lo)) (pow2_pos (hi1 - lo) ltac:(lia))). nia. }
  rewrite wrap_u_id by nia. lia.
Qed.

(** The unhashed stripe of an address. *)
Lemma stripe_of_div r a :
  range_wf r -> interleaved r = true -> hashed r = false ->
  stripe_of r a =
    (a / 2 ^ (intlvHighBit r - intlvBits r + 1)) mod 2 ^ intlvBits r.
Proof.
  intros [] Hi Hh. specialize (rw_hi0 Hi). unfold stripe_of. rewrite Hh.
  rewrite bits_div by lia. do 2 f_equal. lia.
Qed.

(** An address in terms of block, stripe and position in the stripe. *)
Lemma address_decompose r a :
  range_wf r -> interleaved r = true -> hashed r = false ->
  a = a / 2 ^ (intlvHighBit r + 1) * 2 ^ (intlvHighBit r + 1) +
      stripe_of r a * 2 ^ (intlvHighBit r - intlvBits r + 1) +
      a mod 2 ^ (intlvHighBit r - intlvBits r + 1).
Proof.
  intros Hwf Hi Hh. rewrite stripe_of_div by done. destruct Hwf. specialize (rw_hi0 Hi).
  set (lo := intlvHighBit r - intlvBits r + 1).
  replace (intlvHighBit r + 1) with (lo + intlvBits r) by (unfold lo; lia).
  assert (0 <= lo) by (unfold lo; lia).
  rewrite Z.pow_add_r by lia.
  pose proof (pow2_pos lo ltac:(lia)). pose proof (pow2_pos (intlvBits r) ltac:(lia)).
  rewrite <- Z.div_div by lia.
  pose proof (Z.div_mod a (2 ^ lo) ltac:(lia)).
  pose proof (Z.div_mod (a / 2 ^ lo) (2 ^ intlvBits r) ltac:(lia)). nia.
Qed.

(** Well-formedness of a concrete range. *)
Ltac wf_tac := split; simpl; intros; (discriminate || lia).

(** * Theorems *)

(** A four-way interleaved 4 KiB range with 64-byte stripes, and a hashed one. *)
Definition example_range : AddrRange := Build_AddrRange 0x1000 0x1fff 7 0 2 1.
Definition example_hashed : AddrRange := Build_AddrRange 0x1000 0x1fff 7 11 2 1.

(** (interleaving partitions a range).  Every address inside the bounds of
    an interleaved range, hashed or not, belongs to the range with exactly one
    of the [2 ^ intlvBits] match values, and no address outside belongs to
    any. *)
Theorem stripes_partition r a :
  range_wf r -> interleaved r = true ->
  (in_bounds r a <->
   exists m, 0 <= m < 2 ^ intlvBits r /\ contains (with_match r m) a = true /\
     forall m', contains (with_match r m') a = true -> m' = m).
Proof.
  intros Hwf Hi. split.
  - intros Ha. exists (stripe_of r a). split_and!; [by apply stripe_of_range..| |].
    + by apply contains_spec.
    + intros m' [_ Hm]%contains_spec. rewrite stripe_of_with_match in Hm. symmetry. by apply Hm.
  - intros (m & _ & Hm & _). by apply contains_spec in Hm as [? _].
Qed.

Example stripes_partition_witness :
  exists m, 0 <= m < 4 /\ contains (with_match example_hashed m) 0x1a40 = true.
Proof.
  destruct (proj1 (stripes_partition example_hashed 0x1a40
    ltac:(wf_tac) eq_refl)) as (m & H1 & H2 & _);
    [unfold in_bounds; simpl; lia|].
  exists m. split; [exact H1|exact H2].
Defined.

(** (merging interleaved ranges).  For at most 8 interleaving bits, the
    merging constructor accepts exactly the complete collections of one range
    per match value in ascending order, and the contiguous range it returns
    contains an address exactly when one of the merged ranges does. *)
Theorem merge_covers r rs m :
  range_wf r -> intlvBits r <= 8 -> AddrRange_merge (r :: rs) = Ok m ->
  r :: rs = (fun k => with_match r (Z.of_nat k)) <$> seq 0 (Z.to_nat (2 ^ intlvBits r)) /\
  interleaved m = false /\
  forall a, contains m a = true <-> exists r', r' ∈ r :: rs /\ contains r' a = true.
Proof.
  intros Hwf Hb Hm. unfold AddrRange_merge in Hm.
  assert (r :: rs = (fun k => with_match r (Z.of_nat k)) <$> seq 0 (Z.to_nat (2 ^ intlvBits r)) /\
    m = Build_AddrRange (_start r) (_end r) 0 0 0 0) as [Hall ->].
  { destruct Hwf. rewrite (proj2 (Z.ltb_lt _ _)) in Hm by (simpl; lia). simpl intlvBits in Hm.
    rewrite Z.shiftl_1_l in Hm.
    destruct (Z.eqb_spec (Z.of_nat (length (r :: rs))) (2 ^ intlvBits r)) as [Hlen|]; [|done].
    cbn [negb] in Hm. apply bind_Ok in Hm as ([] & Hc & [= <-]). split; [|done].
    pose proof (Z.pow_le_mono_r 2 (intlvBits r) 8 ltac:(lia) Hb).
    apply merge_check_spec in Hc; [|done|change (2 ^ 8) with 256 in *; lia].
    rewrite <- Hlen, Nat2Z.id. exact Hc. }
  split; [done|]. split; [done|]. intros a. rewrite Hall.
  assert (contains (Build_AddrRange (_start r) (_end r) 0 0 0 0) a = true <-> in_bounds r a) as ->.
  { rewrite contains_spec. unfold in_bounds. simpl.
    split; [by intros [? _]|intros ?; split; [done|discriminate]]. }
  assert (0 < 2 ^ intlvBits r) by (apply pow2_pos, Hwf).
  split.
  - intros Ha. destruct (interleaved r) eqn:Hi.
    + exists (with_match r (stripe_of r a)). split.
      * pose proof (stripe_of_range r a Hwf Hi).
        apply list_elem_of_fmap. exists (Z.to_nat (stripe_of r a)). rewrite Z2Nat.id by lia.
        split; [done|]. apply elem_of_seq. lia.
      * by apply contains_spec.
    + exists (with_match r 0). split.
      * apply list_elem_of_fmap. exists O. split; [done|]. apply elem_of_seq. lia.
      * apply contains_spec. split; [done|]. unfold interleaved in *. simpl. by rewrite Hi.
  - intros (r' & (k & -> & _)%list_elem_of_fmap & [Ha _]%contains_spec). done.
Qed.

Example merge_covers_witness :
  exists m, AddrRange_merge [with_match example_range 0; with_match example_range 1;
      with_match example_range 2; with_match example_range 3] = Ok m /\ interleaved m = false.
Proof.
  eexists. split; [vm_compute; reflexivity|].
  refine (proj1 (proj2 (merge_covers (with_match example_range 0)
    [with_match example_range 1; with_match example_range 2; with_match example_range 3] _ _ _ _)));
    [wf_tac|simpl; lia|vm_compute; reflexivity].
Defined.

(** (soundness of [isSubset]).  When [isSubset] answers true for a range
    that is not the whole address space (whose [size] wraps to zero), every
    address of the range is in the other one, interleaved and hashed ranges
    included; against a non-interleaved range a false answer is also right, and
    an interleaved range cannot be tested. *)
Theorem isSubset_sound t r :
  range_wf t -> range_wf r -> valid t = true -> _end t - _start t + 1 < 2 ^ 64 ->
  (isSubset t r = Ok true -> forall a, contains t a = true -> contains r a = true) /\
  (interleaved t = true -> isSubset t r = Panic) /\
  (interleaved r = false -> isSubset t r = Ok false ->
     exists a, contains t a = true /\ contains r a = false).
Proof.
  intros Ht Hr Hv Hsz. unfold valid in Hv. unfold isSubset. split_and!.
  - destruct (interleaved t) eqn:Hit; [done|]. intros Hs a [Ha _]%contains_spec.
    unfold in_bounds in Ha. destruct (interleaved r) eqn:Hir; injection Hs as Hs.
    + apply andb_prop in Hs as [[[Hs1 Hs1']%contains_spec [He1 He1']%contains_spec]%andb_prop Hg].
      unfold in_bounds in *. apply contains_spec. split; [unfold in_bounds; lia|]. intros _.
      assert (size t = _end t - _start t + 1) as Hst.
      { unfold size, interleaved in *. replace (intlvBits t) with 0 by lia.
        rewrite Z.shiftr_0_r, wrap_u_id by lia. done. }
      rewrite granularity_pow2, Hst in Hg by done.
      pose proof (granule_bits_range r Hr Hir).
      destruct (short_interval (granule_bits r) (_start t) (_end t) a) as [Hq|Hq]; [lia..| |].
      * rewrite (stripe_of_granule r a (_start t)) by done. by apply Hs1'.
      * rewrite (stripe_of_granule r a (_end t)) by done. by apply He1'.
    + apply contains_spec. unfold in_bounds. split; [lia|congruence].
  - by intros ->.
  - intros Hir. destruct (interleaved t) eqn:Hit; [done|]. rewrite Hir. intros [= Hs].
    apply andb_false_iff in Hs as [Hs|Hs]; [exists (_start t)|exists (_end t)];
      unfold contains; rewrite Hit, Hir; simpl; lia.
Qed.

Example isSubset_sound_witness :
  contains example_range 0x1150 = true.
Proof.
  refine (proj1 (isSubset_sound (AddrRange_plain 0x1140 0x117f) example_range _ _ eq_refl _) eq_refl 0x1150 eq_refl);
    [wf_tac|wf_tac|simpl; lia].
Defined.

(** (exactness of [intersects]).  For two valid ranges of which the second
    is not a single-stripe interleaved range, [intersects] either stops the
    simulator, which it does only on overlapping bounds with differing
    interleavings, or tells whether the ranges share an address. *)
Theorem intersects_exact t r b :
  range_wf t -> range_wf r -> valid t = true -> valid r = true ->
  (interleaved r = true -> size r <> 1) ->
  (exists a, contains r a = true) ->
  intersects t r = Ok b ->
  (b = true <-> exists a, contains t a = true /\ contains r a = true).
Proof.
  intros Ht Hr Hvt Hvr Hsz1 [a0 Ha0] Hint. unfold valid in *. unfold intersects in Hint.
  destruct ((_end r <? _start t) || (_end t <? _start r)) eqn:Hov.
  { injection Hint as <-. split; [done|].
    intros (a & [Ha _]%contains_spec & [Ha' _]%contains_spec). unfold in_bounds in *. lia. }
  destruct (negb (interleaved t) && negb (interleaved r)) eqn:Hni.
  { injection Hint as <-. split; [intros _|done].
    apply andb_prop in Hni as [Hnt Hnr]. exists (Z.max (_start t) (_start r)).
    split; apply contains_spec; unfold in_bounds; (split; [lia|]); intros Hi; by rewrite Hi in *. }
  destruct (Z.eqb_spec (size r) 1) as [Hs1|].
  { injection Hint as <-. destruct (interleaved r) eqn:Hir; [by destruct Hsz1|].
    assert (_end r = _start r) as Hse.
    { unfold size, interleaved in *. replace (intlvBits r) with 0 in Hs1 by lia.
      rewrite Z.shiftr_0_r in Hs1. destruct Hr.
      destruct (decide (_end r - _start r + 1 = 2 ^ 64)) as [E|]; [by rewrite E in Hs1|].
      rewrite wrap_u_id in Hs1; lia. }
    unfold start. split.
    - intros Hc. exists (_start r). split; [done|]. apply contains_spec. unfold in_bounds.
      split; [lia|congruence].
    - intros (a & Ha & [Hb _]%contains_spec). unfold in_bounds in Hb.
      by replace (_start r) with a by lia. }
  destruct (mergesWith t r) eqn:Hm; [|done]. injection Hint as <-.
  rewrite Z.eqb_eq. pose proof (mergesWith_with_match t r Hm) as Hr'. split.
  - intros Hmm. exists a0. split; [|done]. replace t with r; [done|].
    rewrite Hr', <- Hmm. by destruct t.
  - intros (a & [_ Ha]%contains_spec & [_ Ha']%contains_spec).
    assert (interleaved t = interleaved r) as Hi by by rewrite Hr'.
    assert (interleaved t = true) as Hit by (rewrite <- Hi in Hni; by destruct (interleaved t)).
    rewrite <- Ha by done. rewrite <- Ha' by congruence. by rewrite Hr'.
Qed.

Example intersects_exact_witness :
  exists a, contains example_range a = true /\ contains (AddrRange_plain 0x1040 0x1040) a = true.
Proof.
  refine (proj1 (intersects_exact example_range (AddrRange_plain 0x1040 0x1040) true _ _
    eq_refl eq_refl _ _ _) eq_refl);
    [wf_tac|wf_tac|done|by exists 0x1040|reflexivity].
Defined.

(** (the flat offset is a bijection).  For an unhashed interleaved range
    whose bounds are aligned to whole blocks, [getOffset] maps the addresses of
    the range one-to-one onto [0, size), so that the interleaved memories can
    be backed by contiguous storage; an address out of bounds gets
    [MaxAddr]. *)
Theorem getOffset_bijective r :
  range_wf r -> interleaved r = true -> hashed r = false -> valid r = true ->
  0 <= intlvMatch r < 2 ^ intlvBits r ->
  _start r mod 2 ^ (intlvHighBit r + 1) = 0 -> (_end r + 1) mod 2 ^ (intlvHighBit r + 1) = 0 ->
  _end r - _start r + 1 < 2 ^ 64 ->
  (forall a, contains r a = true -> 0 <= getOffset r a < size r) /\
  (forall a b, contains r a = true -> contains r b = true -> getOffset r a = getOffset r b -> a = b) /\
  (forall o, 0 <= o < size r -> exists a, contains r a = true /\ getOffset r a = o) /\
  (forall a, ~ in_bounds r a -> getOffset r a = MaxAddr).
Proof.
  intros Hwf Hi Hh Hv Hmatch Hs He Hlt. pose proof Hwf as []. specialize (rw_hi0 Hi).
  unfold valid in Hv.
  set (hi1 := intlvHighBit r + 1) in *. set (lo := intlvHighBit r - intlvBits r + 1).
  assert (0 <= lo) by (unfold lo; lia). assert (hi1 = lo + intlvBits r) as Ehi by (unfold lo, hi1; lia).
  pose proof (pow2_pos lo ltac:(lia)) as Hplo. pose proof (pow2_pos (intlvBits r) ltac:(lia)) as Hpb.
  assert (2 ^ hi1 = 2 ^ lo * 2 ^ intlvBits r) as Ep by (rewrite Ehi, Z.pow_add_r by lia; done).
  assert (exists ps, _start r = ps * 2 ^ hi1) as [ps Eps] by (apply Z.mod_divide; nia).
  assert (exists pe, _end r + 1 = pe * 2 ^ hi1) as [pe Epe] by (apply Z.mod_divide; nia).
  assert (size r = (pe - ps) * 2 ^ lo) as Esz.
  { unfold size. rewrite wrap_u_id by lia. rewrite Z.shiftr_div_pow2 by lia.
    replace (_end r - _start r + 1) with ((pe - ps) * 2 ^ lo * 2 ^ intlvBits r) by lia.
    by rewrite Z.div_mul by lia. }
  assert (forall a, contains r a = true -> ps <= a / 2 ^ hi1 < pe /\
      getOffset r a = (a / 2 ^ hi1 - ps) * 2 ^ lo + a mod 2 ^ lo /\
      a = a / 2 ^ hi1 * 2 ^ hi1 + intlvMatch r * 2 ^ lo + a mod 2 ^ lo) as Hoff.
  { intros a [Ha Hm]%contains_spec. split_and!.
    - unfold in_bounds in Ha. apply Z.div_le_lower_bound; nia.
    - unfold in_bounds in Ha. apply Z.div_lt_upper_bound; nia.
    - rewrite getOffset_div by done. fold hi1 lo. rewrite Eps at 1. by rewrite Z.div_mul by nia.
    - rewrite <- (Hm Hi). apply address_decompose; done. }
  split_and!.
  - intros a Ha. destruct (Hoff a Ha) as (Hq & -> & _).
    pose proof (Z.mod_pos_bound a (2 ^ lo) Hplo). nia.
  - intros a b Ha Hb Heq. destruct (Hoff a Ha) as (_ & Ea & Da).
    destruct (Hoff b Hb) as (_ & Eb & Db). rewrite Ea, Eb in Heq.
    pose proof (Z.mod_pos_bound a (2 ^ lo) Hplo). pose proof (Z.mod_pos_bound b (2 ^ lo) Hplo).
    assert (a / 2 ^ hi1 = b / 2 ^ hi1) as Eq by nia. rewrite Eq in *. lia.
  - intros o Ho. rewrite Esz in Ho.
    pose proof (Z.mod_pos_bound o (2 ^ lo) Hplo) as Hom. pose proof (Z.div_mod o (2 ^ lo) ltac:(lia)) as Hod.
    assert (0 <= o / 2 ^ lo < pe - ps) as Hoq.
    { split; [apply Z.div_pos; lia|apply Z.div_lt_upper_bound; lia]. }
    set (a := (ps + o / 2 ^ lo) * 2 ^ hi1 + intlvMatch r * 2 ^ lo + o mod 2 ^ lo).
    assert (intlvMatch r * 2 ^ lo + o mod 2 ^ lo < 2 ^ hi1) as Hsmall by nia.
    assert (a / 2 ^ hi1 = ps + o / 2 ^ lo) as Eq.
    { unfold a. pose proof (pow2_pos hi1 ltac:(lia)).
      rewrite <- Z.add_assoc, Z.div_add_l by lia.
      assert (0 <= intlvMatch r * 2 ^ lo) by (apply Z.mul_nonneg_nonneg; lia).
      rewrite (Z.div_small (_ + _)) by lia. lia. }
    assert (a mod 2 ^ lo = o mod 2 ^ lo) as Em.
    { unfold a. rewrite Ep. replace (_ + _ + _) with
        (o mod 2 ^ lo + ((ps + o / 2 ^ lo) * 2 ^ intlvBits r + intlvMatch r) * 2 ^ lo) by lia.
      by rewrite Z.mod_add, Z.mod_mod by lia. }
    assert (contains r a = true) as Hc.
    { apply contains_spec. split.
      { assert (0 <= o / 2 ^ lo * 2 ^ hi1) by (apply Z.mul_nonneg_nonneg; lia).
        assert (0 <= intlvMatch r * 2 ^ lo) by (apply Z.mul_nonneg_nonneg; lia).
        assert ((o / 2 ^ lo + 1 + ps) * 2 ^ hi1 <= pe * 2 ^ hi1)
          by (apply Z.mul_le_mono_nonneg_r; lia).
        unfold in_bounds, a. lia. }
      intros _.
      pose proof (address_decompose r a Hwf Hi Hh) as Hd. fold hi1 lo in Hd.
      rewrite Eq, Em in Hd. unfold a in Hd at 1.
      apply (Z.mul_cancel_r _ _ (2 ^ lo)); lia. }
    exists a. split; [done|]. destruct (Hoff a Hc) as (_ & -> & _). rewrite Eq, Em. lia.
  - intros a Ha. unfold getOffset, in_bounds in *.
    destruct ((_start r <=? a) && (a <=? _end r)) eqn:E; [lia|done].
Qed.

Example getOffset_bijective_witness :
  exists a, contains example_range a = true /\ getOffset example_range a = 0x3f0.
Proof.
  refine (proj1 (proj2 (proj2 (getOffset_bijective example_range _ eq_refl eq_refl eq_refl _
    eq_refl eq_refl _))) 0x3f0 _);
    [wf_tac|simpl; lia|simpl; lia|vm_compute; split; [discriminate|reflexivity]].
Defined.
