(* ===== verification/AimcSpec.v ===== *)
(** The analog in-memory computing (AIMC) tile as the library promises it: an
    abstract tile with whole-vector operations, and the interface
    ([AimcDevice], [AimcDeviceLaws]) through which AIMClib drives a tile.  Two
    devices implement it: the gem5 device model ([AimcCluster]) and the host
    checker of AIMClib ([AimcCheck]). *)
From S2P Require Import Prelude.

(** * Bytes packed in a 32-bit word *)

(** [(int8_t)((val >> (8 * i)) & 0xff)] *)
Definition byte_of (val i : Z) : Z := s8 (Z.land (Z.shiftr val (8 * i)) 255).
(** [0xff & (uint8_t)b] *)
Definition ubyte (b : Z) : Z := Z.land 255 (u8 b).
(** The little-endian word of a list of bytes. *)
Fixpoint le_word (bs : list Z) : Z :=
  match bs with
  | [] => 0
  | b :: bs => Z.lor (Z.shiftl (le_word bs) 8) (ubyte b)
  end.
Definition word_bytes (n : nat) (val : Z) : list Z :=
  (fun i => byte_of val (Z.of_nat i)) <$> seq 0 n.

#[global] Arguments word_bytes : simpl never.

Definition int8_list (l : list Z) : Prop := Forall (fun b => -128 <= b <= 127) l.

Lemma ubyte_mod b : ubyte b = b mod 256.
Proof.
  unfold ubyte, wrap_u. rewrite Z.land_comm. change 255 with (Z.ones 8).
  rewrite Z.land_ones by lia. change (2 ^ 8) with 256. apply Z.mod_mod. lia.
Qed.

Lemma land_ubyte b : Z.land 255 b = ubyte b.
Proof.
  rewrite ubyte_mod, Z.land_comm. change 255 with (Z.ones 8). by rewrite Z.land_ones by lia.
Qed.

Lemma le_word_cons b bs : le_word (b :: bs) = 256 * le_word bs + b mod 256.
Proof.
  simpl. rewrite ubyte_mod, Z.shiftl_mul_pow2 by lia. change (2 ^ 8) with 256.
  rewrite <- Z.add_lor_land, Z.mul_comm.
  assert (Z.land (256 * le_word bs) (b mod 256) = 0) as ->; [|lia].
  apply Z.bits_inj'. intros n Hn. rewrite Z.land_spec, Z.bits_0.
  destruct (decide (n < 8)).
  - rewrite Z.mul_comm. change 256 with (2 ^ 8). rewrite Z.mul_pow2_bits_low by lia. done.
  - change 256 with (2 ^ 8). rewrite (Z.mod_pow2_bits_high b) by lia. apply andb_false_r.
Qed.

Lemma le_word_range bs : 0 <= le_word bs < 256 ^ Z.of_nat (length bs).
Proof.
  induction bs as [|b bs IH]; [done|]. rewrite le_word_cons. simpl length.
  rewrite Nat2Z.inj_succ, Z.pow_succ_r by lia.
  pose proof (Z.mod_pos_bound b 256). lia.
Qed.

Lemma byte_of_spec val i : 0 <= i -> byte_of val i = s8 (val / 256 ^ i).
Proof.
  intros Hi. unfold byte_of. change 255 with (Z.ones 8).
  rewrite Z.land_ones, Z.shiftr_div_pow2 by lia.
  rewrite (Z.pow_mul_r 2 8) by lia. change (2 ^ 8) with 256 at 1 2.
  by rewrite <- (wrap_s_wrap_u 8 (val / _)) by lia.
Qed.

Lemma s8_mod b : -128 <= b <= 127 -> s8 (b mod 256) = b.
Proof.
  intros Hb. change (b mod 256) with (u8 b). rewrite wrap_s_wrap_u by lia. apply wrap_s_id; [lia|]. simpl. lia.
Qed.

Lemma byte_of_le_word_0 b bs :
  -128 <= b <= 127 -> byte_of (le_word (b :: bs)) 0 = b.
Proof.
  intros Hb. rewrite byte_of_spec, le_word_cons, Z.pow_0_r, Z.div_1_r by lia.
  rewrite <- (wrap_s_wrap_u 8) by lia. unfold wrap_u. change (2 ^ 8) with 256.
  replace (256 * le_word bs + b mod 256) with (b mod 256 + le_word bs * 256) by lia.
  rewrite Z.mod_add, Z.mod_mod by lia. by apply s8_mod.
Qed.

Lemma byte_of_le_word_S b bs i :
  0 <= i -> byte_of (le_word (b :: bs)) (i + 1) = byte_of (le_word bs) i.
Proof.
  intros Hi. rewrite !byte_of_spec, le_word_cons by lia.
  replace (i + 1) with (1 + i) by lia. rewrite Z.pow_add_r, Z.pow_1_r by lia.
  rewrite <- Z.div_div by lia. f_equal. f_equal.
  pose proof (Z.mod_pos_bound b 256).
  replace (256 * le_word bs + b mod 256) with (b mod 256 + le_word bs * 256) by lia.
  rewrite Z.div_add by lia. rewrite Z.div_small by lia. lia.
Qed.

(** Packing bytes and unpacking them gives them back. *)
Lemma word_bytes_le_word bs : int8_list bs -> word_bytes (length bs) (le_word bs) = bs.
Proof.
  induction 1 as [|b bs Hb Hbs IH]; [done|].
  unfold word_bytes in *. simpl length. simpl seq. rewrite fmap_cons. f_equal.
  - by apply byte_of_le_word_0.
  - rewrite <- seq_shift. rewrite <- list_fmap_compose.
    etransitivity; [|exact IH]. apply list_fmap_ext. intros i x Hx. simpl.
    rewrite <- byte_of_le_word_S with (b := b) by lia. f_equal. lia.
Qed.

Lemma byte_of_range val i : -128 <= byte_of val i <= 127.
Proof. pose proof (wrap_s_range 8 (Z.land (Z.shiftr val (8 * i)) 255)). unfold byte_of. simpl in *. lia. Qed.

(** * The abstract tile *)

(** Dimensions, weights in row-major order ([cell y x] multiplies input [y]
    into output [x]), input and output vectors and the two queue counters. *)
Record tile := Tile {
  t_height : Z;
  t_width : Z;
  t_cells : list Z;
  t_in : list Z;
  t_out : list Z;
  t_incnt : Z;
  t_outcnt : Z;
}.

(** The number of bytes one queue or dequeue instruction moves. *)
Definition lanes : Z := 4.

Definition cell (t : tile) (y x : nat) : Z :=
  default 0 (t_cells t !! (y * Z.to_nat (t_width t) + x)%nat).
Definition input (t : tile) (y : nat) : Z := default 0 (t_in t !! y).

(** Saturation to [int8_t]. *)
Definition clamp8 (z : Z) : Z := if 127 <? z then 127 else if z <? -128 then -128 else z.

(** One output of the matrix-vector product. *)
Definition dot (t : tile) (x : nat) : Z :=
  sum_below (Z.to_nat (t_height t)) (fun y => input t y * cell t y x).

Definition tile_process (t : tile) : tile :=
  Tile (t_height t) (t_width t) (t_cells t)
    (replicate (Z.to_nat (t_height t)) 0)
    ((fun x => clamp8 (dot t x)) <$> seq 0 (Z.to_nat (t_width t))) 0 0.

Definition tile_queue (val : Z) (t : tile) : tile :=
  Tile (t_height t) (t_width t) (t_cells t)
    (if t_incnt t + lanes <? t_height t
     then list_inserts (Z.to_nat (t_incnt t)) (word_bytes 4 val) (t_in t) else t_in t)
    (t_out t) (t_incnt t + lanes) (t_outcnt t).

Definition tile_dequeue (t : tile) : tile * Z :=
  (Tile (t_height t) (t_width t) (t_cells t) (t_in t) (t_out t) (t_incnt t) (t_outcnt t + lanes),
   if t_outcnt t + lanes <? t_width t
   then le_word (take 4 (drop (Z.to_nat (t_outcnt t)) (t_out t))) else 0).

Definition tile_write (y x : nat) (v : Z) (t : tile) : tile :=
  Tile (t_height t) (t_width t) (<[(y * Z.to_nat (t_width t) + x)%nat := v]> (t_cells t))
    (t_in t) (t_out t) (t_incnt t) (t_outcnt t).

(** The well-formedness invariant of a tile. *)
Record tile_wf (t : tile) : Prop := {
  wf_h : 0 < t_height t;
  wf_w : 0 < t_width t;
  wf_hw : t_height t * t_width t < 2 ^ 31;
  wf_cells : Z.of_nat (length (t_cells t)) = t_height t * t_width t;
  wf_in : Z.of_nat (length (t_in t)) = t_height t;
  wf_out : Z.of_nat (length (t_out t)) = t_width t;
  wf_cells8 : int8_list (t_cells t);
  wf_in8 : int8_list (t_in t);
  wf_out8 : int8_list (t_out t);
  wf_incnt : 0 <= t_incnt t;
  wf_outcnt : 0 <= t_outcnt t;
}.

Lemma clamp8_range z : -128 <= clamp8 z <= 127.
Proof. unfold clamp8. repeat split_if. Qed.

Lemma int8_list_insert l i v : int8_list l -> -128 <= v <= 127 -> int8_list (<[i := v]> l).
Proof. intros. by apply Forall_insert. Qed.

Lemma int8_list_inserts l i k : int8_list l -> int8_list k -> int8_list (list_inserts i k l).
Proof.
  intros Hl Hk. revert i. induction Hk; intros i; simpl; [done|]. by apply int8_list_insert.
Qed.

#[global] Arguments list_inserts : simpl never.

Lemma word_bytes_int8 n val : int8_list (word_bytes n val).
Proof. apply Forall_fmap, Forall_forall. intros i _. apply byte_of_range. Qed.

Lemma length_word_bytes n val : length (word_bytes n val) = n.
Proof. unfold word_bytes. by rewrite length_fmap, length_seq. Qed.

Lemma tile_process_wf t : tile_wf t -> tile_wf (tile_process t).
Proof.
  intros []. split; simpl; rewrite ?length_replicate, ?length_fmap, ?length_seq; try lia; try done.
  - by apply Forall_replicate.
  - apply Forall_fmap, Forall_forall. intros x _. apply clamp8_range.
Qed.

Lemma tile_queue_wf val t : tile_wf t -> tile_wf (tile_queue val t).
Proof.
  intros []. split; simpl; unfold lanes; try lia; try done; case_match; try done.
  - by rewrite length_inserts.
  - apply int8_list_inserts; [done|apply word_bytes_int8].
Qed.

Lemma tile_dequeue_wf t : tile_wf t -> tile_wf (tile_dequeue t).1.
Proof. intros []. split; simpl; unfold lanes; done || lia. Qed.

Lemma tile_write_wf y x v t : -128 <= v <= 127 -> tile_wf t -> tile_wf (tile_write y x v t).
Proof.
  intros Hv []. split; simpl; rewrite ?length_insert; try lia; try done.
  by apply int8_list_insert.
Qed.

(** Distinct coordinates address distinct cells. *)
Lemma tile_write_cell y x v t y' x' :
  tile_wf t -> Z.of_nat y < t_height t -> Z.of_nat x < t_width t ->
  Z.of_nat x' < t_width t ->
  cell (tile_write y x v t) y' x' = if decide (y' = y /\ x' = x) then v else cell t y' x'.
Proof.
  intros [] Hy Hx Hx'. unfold cell, tile_write; simpl.
  set (w := Z.to_nat (t_width t)) in *. case_decide as Hd.
  - destruct Hd as [-> ->]. rewrite list_lookup_insert_eq; [done|].
    assert (Z.of_nat w = t_width t) by lia. nia.
  - rewrite list_lookup_insert_ne; [done|]. intros Heq. apply Hd.
    assert (y = y') as ->; [|lia].
    destruct (lt_eq_lt_dec y y') as [[?|?]|?]; [|done|]; exfalso; nia.
Qed.

(** Queueing changes four consecutive inputs. *)
Lemma tile_queue_input val t y :
  tile_wf t ->
  input (tile_queue val t) y =
    if decide (t_incnt t + lanes < t_height t /\ t_incnt t <= Z.of_nat y < t_incnt t + lanes)
    then byte_of val (Z.of_nat y - t_incnt t) else input t y.
Proof.
  intros []. unfold input, tile_queue, lanes in *; simpl.
  case_match eqn:E; [|case_decide; [lia|done]].
  destruct (decide (t_incnt t <= Z.of_nat y < t_incnt t + 4)) as [Hy|Hy].
  - rewrite decide_True by lia.
    rewrite list_lookup_inserts by (rewrite ?length_word_bytes; lia).
    unfold word_bytes. rewrite list_lookup_fmap, lookup_seq_lt by lia. simpl. f_equal. lia.
  - rewrite decide_False by tauto. f_equal.
    destruct (decide (Z.of_nat y < t_incnt t)).
    + rewrite list_lookup_inserts_lt by lia. done.
    + rewrite list_lookup_inserts_ge; [done|]. rewrite length_word_bytes. lia.
Qed.

Lemma tile_dequeue_range t : 0 <= (tile_dequeue t).2 < 2 ^ 32.
Proof.
  unfold tile_dequeue. cbn [snd]. case_match; [|lia].
  pose proof (le_word_range (take 4 (drop (Z.to_nat (t_outcnt t)) (t_out t)))) as Hr.
  assert (256 ^ Z.of_nat (length (take 4 (drop (Z.to_nat (t_outcnt t)) (t_out t)))) <= 256 ^ 4)
    by (apply Z.pow_le_mono_r; [lia|]; rewrite length_take; lia).
  change (2 ^ 32) with (256 ^ 4). lia.
Qed.

(** The dequeued word holds the next four outputs. *)
Lemma tile_dequeue_bytes t :
  tile_wf t -> t_outcnt t + lanes < t_width t ->
  word_bytes 4 (tile_dequeue t).2 = take 4 (drop (Z.to_nat (t_outcnt t)) (t_out t)).
Proof.
  intros [] Hw. unfold tile_dequeue, lanes in *; simpl. rewrite (proj2 (Z.ltb_lt _ _)) by done.
  set (l := take 4 _). assert (length l = 4%nat) as Hl.
  { unfold l. rewrite length_take, length_drop. lia. }
  rewrite <- Hl at 1. apply word_bytes_le_word. unfold l, int8_list in *.
  by apply Forall_take, Forall_drop.
Qed.

(** * The device interface

    The operations are the five custom instructions that AIMClib issues; [tid]
    selects the tile. *)
Class AimcDevice (S : Type) := {
  dev_process : Z -> S -> res S;
  dev_queue : Z -> Z -> S -> res S;
  dev_dequeue : Z -> S -> res (S * Z);
  dev_param_read : Z -> Z -> Z -> S -> res Z;
  dev_param_write : Z -> Z -> Z -> Z -> S -> res S;
}.

(** The abstraction of a device: its invariant and the tile each thread sees. *)
Class AimcModel (S : Type) := {
  dev_inv : S -> Prop;
  dev_tile : S -> Z -> option tile;
}.

(** [s'] is [s] with the tile of thread [tid] replaced by [t']. *)
Definition dev_upd {S} `{AimcModel S} (s : S) (tid : Z) (t' : tile) (s' : S) : Prop :=
  dev_inv s' /\
  forall i, dev_tile s' i = if decide (i = tid) then Some t' else dev_tile s i.

(** What a device promises: every operation on a tile that exists returns, has
    the effect of the abstract operation on that tile, and leaves the other
    tiles alone.  Queue counters are [int]s, so the promise on them ends where
    they would overflow. *)
Class AimcDeviceLaws (S : Type) `{!AimcDevice S, !AimcModel S} : Prop := {
  dev_wf : forall (s : S) tid t, dev_inv s -> dev_tile s tid = Some t -> tile_wf t;
  law_process : forall (s : S) tid t, dev_inv s -> dev_tile s tid = Some t ->
    exists s', dev_process tid s = Ok s' /\ dev_upd s tid (tile_process t) s';
  law_queue : forall (s : S) tid val t, dev_inv s -> dev_tile s tid = Some t ->
    0 <= val < 2 ^ 32 -> t_incnt t + lanes < 2 ^ 31 ->
    exists s', dev_queue tid val s = Ok s' /\ dev_upd s tid (tile_queue val t) s';
  law_dequeue : forall (s : S) tid t, dev_inv s -> dev_tile s tid = Some t ->
    t_outcnt t + lanes < 2 ^ 31 ->
    exists s', dev_dequeue tid s = Ok (s', (tile_dequeue t).2) /\
      dev_upd s tid (tile_dequeue t).1 s';
  law_param_read : forall (s : S) tid x y t, dev_inv s -> dev_tile s tid = Some t ->
    0 <= x < t_width t -> 0 <= y < t_height t ->
    dev_param_read tid x y s = Ok (cell t (Z.to_nat y) (Z.to_nat x));
  law_param_write : forall (s : S) tid x y v t, dev_inv s -> dev_tile s tid = Some t ->
    0 <= x < t_width t -> 0 <= y < t_height t -> -128 <= v <= 127 ->
    exists s', dev_param_write tid x y v s = Ok s' /\
      dev_upd s tid (tile_write (Z.to_nat y) (Z.to_nat x) v t) s';
}.

(** * Accumulation in a [double] *)

(** Round-to-nearest-even of an integer to 53 significant bits: the value a
    [double] holds after an operation whose exact result is the integer [z]
    (no [double] overflow occurs below [2 ^ 1023]). *)
Definition dbl (z : Z) : Z :=
  let a := Z.abs z in
  let e := Z.log2 a - 52 in
  if e <=? 0 then z
  else
    let q := a / 2 ^ e in
    let r := a mod 2 ^ e in
    let up := (2 ^ e <? 2 * r) || ((2 * r =? 2 ^ e) && Z.odd q) in
    Z.sgn z * ((if up then q + 1 else q) * 2 ^ e).

Lemma dbl_exact z : Z.abs z < 2 ^ 53 -> dbl z = z.
Proof.
  intros Hz. unfold dbl. destruct (decide (z = 0)) as [->|]; [done|].
  assert (Z.log2 (Z.abs z) < 53) by (apply Z.log2_lt_pow2; lia).
  rewrite (proj2 (Z.leb_le _ _)) by lia. done.
Qed.

(** * Array loops shared by the two devices *)

Lemma zero_loop (n : Z) (l : list Z) :
  Z.of_nat (length l) = n -> 0 <= n ->
  for_range 0 n (fun i l => awrite l i 0) l = Ok (replicate (Z.to_nat n) 0).
Proof.
  intros Hl Hn.
  destruct (for_range_ok (fun i l' => length l' = length l /\
      forall k, (Z.of_nat k < i) -> (k < length l)%nat -> l' !! k = Some 0)
    (fun i l => awrite l i 0) 0 n l) as (l' & -> & Hlen & Hz); [done|split; [done|lia]| |].
  - intros i l' Hi [Hlen Hz]. eexists. split; [apply awrite_Ok; lia|].
    rewrite length_insert. split; [done|]. intros k Hk Hkl.
    destruct (decide (k = Z.to_nat i)) as [->|].
    + apply list_lookup_insert_eq. lia.
    + rewrite list_lookup_insert_ne by done. apply Hz; lia.
  - f_equal. apply list_eq. intros k. destruct (decide (k < Z.to_nat n)%nat).
    + rewrite lookup_replicate_2 by done. apply Hz; lia.
    + rewrite !(proj2 (lookup_ge_None _ _)); [done|rewrite length_replicate; lia|lia].
Qed.

Lemma map_loop (n : Z) (l : list Z) (f : Z -> res Z) (g : nat -> Z) :
  Z.of_nat (length l) = n ->
  (forall i, 0 <= i < n -> f i = Ok (g (Z.to_nat i))) ->
  for_range 0 n (fun i l => v ← f i; awrite l i v) l = Ok (g <$> seq 0 (Z.to_nat n)).
Proof.
  intros Hl Hf.
  destruct (for_range_ok (fun i l' => length l' = length l /\
      forall k, (Z.of_nat k < i) -> (k < length l)%nat -> l' !! k = Some (g k))
    (fun i l => v ← f i; awrite l i v) 0 n l) as (l' & -> & Hlen & Hz); [lia|split; [done|lia]| |].
  - intros i l' Hi [Hlen Hz]. rewrite Hf by done. simpl.
    eexists. split; [apply awrite_Ok; lia|].
    rewrite length_insert. split; [done|]. intros k Hk Hkl.
    destruct (decide (k = Z.to_nat i)) as [->|].
    + apply list_lookup_insert_eq. lia.
    + rewrite list_lookup_insert_ne by done. apply Hz; lia.
  - f_equal. apply list_eq. intros k. rewrite list_lookup_fmap.
    destruct (decide (k < Z.to_nat n)%nat).
    + rewrite lookup_seq_lt by done. apply Hz; lia.
    + rewrite (proj2 (lookup_ge_None l' _)) by lia.
      rewrite (proj2 (lookup_ge_None (seq _ _) _)); [done|rewrite length_seq; lia].
Qed.

Lemma word_bytes_S n val :
  word_bytes (S n) val = word_bytes n val ++ [byte_of val (Z.of_nat n)].
Proof. unfold word_bytes. by rewrite seq_S, fmap_app. Qed.

(** The store loop of a queue instruction. *)
Lemma queue_loop (val idx : Z) (l : list Z) :
  0 <= idx -> idx + lanes <= Z.of_nat (length l) ->
  for_range 0 lanes (fun i l => awrite l (idx + i) (byte_of val i)) l =
    Ok (list_inserts (Z.to_nat idx) (word_bytes 4 val) l).
Proof.
  intros Hi Hl.
  destruct (for_range_ok (fun i l' =>
      l' = list_inserts (Z.to_nat idx) (word_bytes (Z.to_nat i) val) l)
    (fun i l => awrite l (idx + i) (byte_of val i)) 0 lanes l) as (l' & -> & ->);
    [done|done| |done].
  intros i ? Hil ->. unfold lanes in *.
  eexists. split; [apply awrite_Ok; rewrite length_inserts; lia|].
  replace (Z.to_nat (i + 1)) with (S (Z.to_nat i)) by lia.
  rewrite word_bytes_S, list_inserts_app_l, length_word_bytes.
  unfold list_inserts at 2. f_equal; [lia|]. f_equal. lia.
Qed.

(** The shift-and-or loop of a dequeue instruction, from the last byte to the
    first. *)
Lemma dequeue_loop (idx : Z) (l : list Z) :
  0 <= idx -> idx + lanes <= Z.of_nat (length l) ->
  for_range 0 lanes (fun k w =>
      b ← aread l (idx + (lanes - 1 - k));
      Ok (u32 (Z.lor (u32 (Z.shiftl w 8)) (ubyte b)))) 0 =
    Ok (le_word (take 4 (drop (Z.to_nat idx) l))).
Proof.
  intros Hi Hl. unfold lanes in *.
  set (bs := take 4 (drop (Z.to_nat idx) l)).
  assert (length bs = 4%nat) as Hbs by (unfold bs; rewrite length_take, length_drop; lia).
  destruct (for_range_ok (fun k w => w = le_word (drop (Z.to_nat (4 - k)) bs))
    (fun k w => b ← aread l (idx + (4 - 1 - k));
      Ok (u32 (Z.lor (u32 (Z.shiftl w 8)) (ubyte b)))) 0 4 0) as (w & -> & ->); [done| | |done].
  { by rewrite drop_ge by (rewrite Hbs; done). }
  intros k ? Hk ->.
  destruct (aread_in_bounds l (idx + (4 - 1 - k))) as (b & Hb & ->); [lia|]. simpl.
  eexists. split; [done|].
  assert (bs !! Z.to_nat (4 - (k + 1)) = Some b) as Hbb.
  { unfold bs. rewrite lookup_take_lt, lookup_drop by lia. rewrite <- Hb. f_equal. lia. }
  rewrite (drop_S bs b _ Hbb).
  replace (S (Z.to_nat (4 - (k + 1)))) with (Z.to_nat (4 - k)) by lia.
  set (rest := drop (Z.to_nat (4 - k)) bs).
  assert (Z.of_nat (length rest) <= 3) as Hr by (unfold rest; rewrite length_drop; lia).
  pose proof (le_word_range rest). pose proof (le_word_range (b :: rest)) as Hbr.
  assert (256 ^ Z.of_nat (length rest) <= 256 ^ 3) by (apply Z.pow_le_mono_r; lia).
  assert (256 ^ Z.of_nat (length (b :: rest)) <= 256 ^ 4) by (apply Z.pow_le_mono_r; simpl; lia).
  rewrite (wrap_u_id 32 (Z.shiftl _ _)) by (rewrite Z.shiftl_mul_pow2; lia).
  by rewrite wrap_u_id by (simpl in *; lia).
Qed.

(** * The matrix-vector product *)

(** The products of an inner product and its partial sums are exact in a
    [double]. *)
Lemma dot_bound t x n :
  tile_wf t -> Z.of_nat n <= t_height t ->
  Z.abs (sum_below n (fun y => input t y * cell t y x)) < 2 ^ 53.
Proof.
  intros Hwf Hn. pose proof Hwf as [].
  pose proof (sum_below_bound n (fun y => input t y * cell t y x) (128 * 128)) as Hb.
  assert (t_height t < 2 ^ 31) by nia.
  eapply Z.le_lt_trans; [apply Hb|nia]. intros j _. rewrite Z.abs_mul.
  assert (forall l (k : nat), int8_list l -> Z.abs (default 0 (l !! k)) <= 128) as H8.
    { intros l k Hl. destruct (l !! k) eqn:E; simpl; [|lia].
      eapply Forall_lookup_1 in Hl; [|done]. simpl in Hl. lia. }
    pose proof (H8 _ j (AimcSpec.wf_in8 _ Hwf)). pose proof (H8 _ (j * Z.to_nat (t_width t) + x)%nat (AimcSpec.wf_cells8 _ Hwf)).
    unfold input, cell. nia.
Qed.

(** The accumulation loop of [aimcProcess] computes the exact inner product. *)
Lemma dot_loop t i :
  tile_wf t -> 0 <= i < t_width t ->
  for_range 0 (t_height t) (fun j acc =>
     x ← aread (t_in t) j;
     jw ← int_ok (j * t_width t);
     idx ← int_ok (jw + i);
     g ← aread (t_cells t) idx;
     Ok (dbl (acc + x * g))) 0 = Ok (dot t (Z.to_nat i)).
Proof.
  intros Hwf Hi. pose proof Hwf as [].
  destruct (for_range_ok (fun j acc => acc =
      sum_below (Z.to_nat j) (fun y => input t y * cell t y (Z.to_nat i)))
    (fun j acc => x ← aread (t_in t) j;
       jw ← int_ok (j * t_width t); idx ← int_ok (jw + i);
       g ← aread (t_cells t) idx; Ok (dbl (acc + x * g))) 0 (t_height t) 0)
    as (acc & -> & ->); [lia|done| |done].
  intros j ? Hj ->.
  destruct (aread_in_bounds (t_in t) j) as (x & Hx & ->); [lia|]. simpl.
  rewrite int_ok_in by nia. simpl. rewrite int_ok_in by nia. simpl.
  destruct (aread_in_bounds (t_cells t) (j * t_width t + i)) as (g & Hg & ->); [nia|].
  simpl. eexists. split; [done|]. replace (Z.to_nat (j + 1)) with (S (Z.to_nat j)) by lia.
  pose proof (dot_bound t (Z.to_nat i) (S (Z.to_nat j)) Hwf) as Hb. simpl in Hb |- *.
  assert (input t (Z.to_nat j) = x) as Ex by (unfold input; by rewrite Hx).
  assert (cell t (Z.to_nat j) (Z.to_nat i) = g) as Eg.
  { unfold cell. replace (_ * _ + _)%nat with (Z.to_nat (j * t_width t + i)) by nia.
    by rewrite Hg. }
  rewrite Ex, Eg in *. apply dbl_exact. apply Hb. lia.
Qed.
