(* ===== verification/AimcCluster.v ===== *)
(** The gem5 device model of the AIMC tiles: [AIMCTile] and [AIMCCluster] of
    src/dev/arm/aimc_cluster.hh and aimc_cluster.cc.  Tiles are objects of a
    heap whose addresses are never reused, so that a pointer to a deleted tile
    stays dangling; the cluster is proved to implement the [AimcDevice]
    interface while all its tiles are alive. *)
From S2P Require Import Prelude AimcSpec.

(** * Tiles *)

Record AIMCTile := {
  crossbarHeight : Z;
  crossbarWidth : Z;
  crossbar : list Z;
  inputMemory : list Z;
  outputMemory : list Z;
  inputMemoryCounter : Z;
  outputMemoryCounter : Z;
  vectorization : Z;
}.

(** The constructor's initialisation loops, on freshly allocated arrays [c],
    [im], [om] of unknown contents. *)
Definition AIMCTile_init (h w : Z) (c im om : list Z) : res AIMCTile :=
  '(im, c) ← for_range 0 h (fun i '(im, c) =>
      im ← awrite im i 0;
      c ← for_range 0 w (fun j c =>
        iw ← int_ok (i * w); idx ← int_ok (iw + j); awrite c idx 0) c;
      Ok (im, c)) (im, c);
  om ← for_range 0 w (fun i om => awrite om i 0) om;
  Ok {| crossbarHeight := h; crossbarWidth := w; crossbar := c; inputMemory := im;
        outputMemory := om; inputMemoryCounter := 0; outputMemoryCounter := 0;
        vectorization := 4 |}.

(** [AIMCTile()] builds a 2000 x 2000 tile. *)
Definition crossbarDim : Z := 2000.
Definition AIMCTile_new (c im om : list Z) : res AIMCTile :=
  AIMCTile_init crossbarDim crossbarDim c im om.

(** * The cluster *)

Record AIMCCluster := {
  cpus : list Z;
  tiles : list positive;             (* std::vector<AIMCTile *> *)
  heap : gmap positive AIMCTile;     (* the live tiles *)
  next : positive;                   (* the next address [new] returns *)
  attached : bool;                   (* system->setAIMCCluster(this) was called *)
}.

(** [tiles[tid]->...]: an index out of range or a dangling pointer is undefined. *)
Definition tile_at (c : AIMCCluster) (tid : Z) : res (positive * AIMCTile) :=
  p ← aread (tiles c) tid;
  match heap c !! p with Some t => Ok (p, t) | None => Ub end.

Definition put_tile (p : positive) (t : AIMCTile) (c : AIMCCluster) : AIMCCluster :=
  {| cpus := cpus c; tiles := tiles c; heap := <[p := t]> (heap c); next := next c;
     attached := attached c |}.

Definition set_memories (im om : list Z) (ic oc : Z) (t : AIMCTile) : AIMCTile :=
  {| crossbarHeight := crossbarHeight t; crossbarWidth := crossbarWidth t;
     crossbar := crossbar t; inputMemory := im; outputMemory := om;
     inputMemoryCounter := ic; outputMemoryCounter := oc; vectorization := vectorization t |}.

Definition set_crossbar (xb : list Z) (t : AIMCTile) : AIMCTile :=
  {| crossbarHeight := crossbarHeight t; crossbarWidth := crossbarWidth t;
     crossbar := xb; inputMemory := inputMemory t; outputMemory := outputMemory t;
     inputMemoryCounter := inputMemoryCounter t; outputMemoryCounter := outputMemoryCounter t;
     vectorization := vectorization t |}.

(** [for (auto cpu : p->cpus) { cpus.push_back(cpu); tiles.push_back(new AIMCTile()); }];
    [raw n] is what a fresh allocation of [n] bytes holds. *)
Fixpoint push_tiles (raw : Z -> list Z) (p_cpus : list Z) (c : AIMCCluster) : res AIMCCluster :=
  match p_cpus with
  | [] => Ok c
  | cpu :: rest =>
      t ← AIMCTile_new (raw (crossbarDim * crossbarDim)) (raw crossbarDim) (raw crossbarDim);
      push_tiles raw rest
        {| cpus := cpus c ++ [cpu]; tiles := tiles c ++ [next c];
           heap := <[next c := t]> (heap c); next := Pos.succ (next c); attached := attached c |}
  end.

Definition AIMCCluster_new (raw : Z -> list Z) (p_cpus : list Z) : res AIMCCluster :=
  push_tiles raw p_cpus
    {| cpus := []; tiles := []; heap := ∅; next := 1%positive; attached := false |}.

Definition init (c : AIMCCluster) : AIMCCluster :=
  {| cpus := cpus c; tiles := tiles c; heap := heap c; next := next c; attached := true |}.

Definition aimcProcess (tid : Z) (c : AIMCCluster) : res AIMCCluster :=
  '(p, t) ← tile_at c tid;
  let height := crossbarHeight t in
  let width := crossbarWidth t in
  om ← for_range 0 width (fun i om =>
      v ← (acc ← for_range 0 height (fun j acc =>
             x ← aread (inputMemory t) j;
             jw ← int_ok (j * width);
             idx ← int_ok (jw + i);
             g ← aread (crossbar t) idx;
             Ok (dbl (acc + x * g))) 0;
           Ok (if 127 <? acc then 127 else if acc <? -128 then -128 else s8 acc));
      awrite om i v) (outputMemory t);
  im ← for_range 0 height (fun i im => awrite im i 0) (inputMemory t);
  Ok (put_tile p (set_memories im om 0 0 t) c).

Definition aimcQueue (tid val : Z) (c : AIMCCluster) : res AIMCCluster :=
  '(p, t) ← tile_at c tid;
  let idx := inputMemoryCounter t in
  let length := vectorization t in
  fin ← int_ok (idx + length);
  im ← (if fin <? crossbarHeight t
        then for_range 0 length (fun i im => awrite im (idx + i) (byte_of val i)) (inputMemory t)
        else Ok (inputMemory t));
  cnt ← int_ok (inputMemoryCounter t + length);
  Ok (put_tile p (set_memories im (outputMemory t) cnt (outputMemoryCounter t) t) c).

Definition aimcQueueSingle (tid val : Z) (c : AIMCCluster) : res AIMCCluster :=
  '(p, t) ← tile_at c tid;
  let idx := inputMemoryCounter t in
  im ← (if idx <? crossbarHeight t then awrite (inputMemory t) idx val
        else Ok (inputMemory t));
  cnt ← int_ok (inputMemoryCounter t + 1);
  Ok (put_tile p (set_memories im (outputMemory t) cnt (outputMemoryCounter t) t) c).

Definition aimcDequeue (tid : Z) (c : AIMCCluster) : res (AIMCCluster * Z) :=
  '(p, t) ← tile_at c tid;
  let idx := outputMemoryCounter t in
  let length := vectorization t in
  fin ← int_ok (idx + length);
  result ← (if fin <? crossbarWidth t
            then for_range 0 length (fun k result =>
                   b ← aread (outputMemory t) (idx + (length - 1 - k));
                   Ok (u32 (Z.lor (u32 (Z.shiftl result 8)) (Z.land 255 b)))) 0
            else Ok 0);
  cnt ← int_ok (outputMemoryCounter t + length);
  Ok (put_tile p (set_memories (inputMemory t) (outputMemory t) (inputMemoryCounter t) cnt t) c,
      result).

Definition aimcDequeueSingle (tid : Z) (c : AIMCCluster) : res (AIMCCluster * Z) :=
  '(p, t) ← tile_at c tid;
  let idx := outputMemoryCounter t in
  fin ← int_ok (idx + 1);
  result ← (if fin <? crossbarWidth t then aread (outputMemory t) idx else Ok 0);
  cnt ← int_ok (outputMemoryCounter t + 1);
  Ok (put_tile p (set_memories (inputMemory t) (outputMemory t) (inputMemoryCounter t) cnt t) c,
      result).

Definition aimcParamRead (tid x y : Z) (c : AIMCCluster) : res Z :=
  '(p, t) ← tile_at c tid;
  yw ← int_ok (y * crossbarWidth t);
  idx ← int_ok (yw + x);
  n ← int_ok (crossbarWidth t * crossbarHeight t);
  if idx <? n then aread (crossbar t) idx else Ok 0.

Definition aimcParamWrite (tid x y val : Z) (c : AIMCCluster) : res AIMCCluster :=
  '(p, t) ← tile_at c tid;
  yw ← int_ok (y * crossbarWidth t);
  idx ← int_ok (yw + x);
  n ← int_ok (crossbarWidth t * crossbarHeight t);
  xb ← (if idx <? n then awrite (crossbar t) idx val else Ok (crossbar t));
  Ok (put_tile p (set_crossbar xb t) c).

(** Deleting every tile; deleting a dead tile is undefined.  ([delete[]] is
    applied to objects of [new]; the model frees them.) *)
Fixpoint delete_tiles (ps : list positive) (h : gmap positive AIMCTile)
    : res (gmap positive AIMCTile) :=
  match ps with
  | [] => Ok h
  | p :: ps => match h !! p with Some _ => delete_tiles ps (delete p h) | None => Ub end
  end.

Definition destroy (c : AIMCCluster) : res (gmap positive AIMCTile) :=
  delete_tiles (tiles c) (heap c).

(** [serialize] saves nothing: it deletes the tiles and keeps the pointers. *)
Definition serialize (c : AIMCCluster) : res AIMCCluster :=
  h ← delete_tiles (tiles c) (heap c);
  Ok {| cpus := cpus c; tiles := tiles c; heap := h; next := next c; attached := attached c |}.

Definition unserialize (raw : Z -> list Z) (p_cpus : list Z) (c : AIMCCluster) : res AIMCCluster :=
  push_tiles raw p_cpus (init c).

(** * Abstraction and invariant *)

Definition abs_tile (t : AIMCTile) : tile :=
  Tile (crossbarHeight t) (crossbarWidth t) (crossbar t) (inputMemory t) (outputMemory t)
    (inputMemoryCounter t) (outputMemoryCounter t).

Definition tile_inv (t : AIMCTile) : Prop := tile_wf (abs_tile t) /\ vectorization t = lanes.

(** Every pointer of [tiles] is to a live, well-formed tile of its own. *)
Record cluster_inv (c : AIMCCluster) : Prop := {
  ci_nodup : NoDup (tiles c);
  ci_live : forall p, p ∈ tiles c -> exists t, heap c !! p = Some t /\ tile_inv t;
  ci_fresh : forall p, is_Some (heap c !! p) -> (p < next c)%positive;
}.

#[export] Instance cluster_device : AimcDevice AIMCCluster := {
  dev_process := aimcProcess;
  dev_queue := aimcQueue;
  dev_dequeue := aimcDequeue;
  dev_param_read := aimcParamRead;
  dev_param_write := aimcParamWrite;
}.

#[export] Instance cluster_model : AimcModel AIMCCluster := {
  dev_inv := cluster_inv;
  dev_tile c tid := match tile_at c tid with Ok (_, t) => Some (abs_tile t) | _ => None end;
}.

Lemma tile_at_Ok c tid p t :
  tile_at c tid = Ok (p, t) ->
  0 <= tid /\ tiles c !! Z.to_nat tid = Some p /\ heap c !! p = Some t.
Proof.
  intros (q & Hq%aread_inv & H)%bind_Ok. destruct (heap c !! q) eqn:E; [|done].
  destruct Hq. simplify_eq. done.
Qed.

Lemma dev_tile_inv c tid t :
  cluster_inv c -> dev_tile c tid = Some t ->
  exists p ct, tile_at c tid = Ok (p, ct) /\ t = abs_tile ct /\ tile_inv ct.
Proof.
  intros Hc Ht. simpl in Ht. destruct (tile_at c tid) as [[p ct]| | |] eqn:E; simplify_eq.
  exists p, ct. split; [done|]. split; [done|].
  destruct (tile_at_Ok _ _ _ _ E) as (_ & Hp & Hh).
  destruct (ci_live c Hc p) as (t' & ? & ?); [by eapply list_elem_of_lookup_2|]. congruence.
Qed.

(** Replacing one live tile keeps the invariant and changes only its thread's
    view. *)
Lemma put_tile_upd c tid p t t' :
  cluster_inv c -> tile_at c tid = Ok (p, t) -> tile_inv t' ->
  dev_upd c tid (abs_tile t') (put_tile p t' c).
Proof.
  intros Hc Hat Ht'. destruct (tile_at_Ok _ _ _ _ Hat) as (Htid & Hp & Hh). split.
  - destruct Hc as [Hnd Hl Hf]. split; simpl; [done| |].
    + intros q Hq. rewrite lookup_insert. case_decide; [by eauto|]. by apply Hl.
    + intros q. rewrite lookup_insert. case_decide; [|by apply Hf].
      subst. intros _. apply Hf. by eexists.
  - intros i. simpl. unfold tile_at; simpl. case_decide as Hi.
    + subst. rewrite (aread_Ok _ _ _ Htid Hp). simpl. by rewrite lookup_insert_eq.
    + destruct (aread (tiles c) i) as [q| | |] eqn:Eq; simpl; [|done..].
      rewrite lookup_insert_ne; [done|]. intros <-. apply Hi.
      apply aread_inv in Eq as [? ?].
      assert (Z.to_nat i = Z.to_nat tid); [|lia].
      by eapply NoDup_lookup; [apply Hc| |].
Qed.

(** * The matrix-vector product *)

Lemma tile_process_sim t om :
  tile_inv t -> length om = length (outputMemory t) ->
  for_range 0 (crossbarWidth t) (fun i om =>
      v ← (acc ← for_range 0 (crossbarHeight t) (fun j acc =>
             x ← aread (inputMemory t) j;
             jw ← int_ok (j * crossbarWidth t);
             idx ← int_ok (jw + i);
             g ← aread (crossbar t) idx;
             Ok (dbl (acc + x * g))) 0;
           Ok (if 127 <? acc then 127 else if acc <? -128 then -128 else s8 acc));
      awrite om i v) om = Ok (t_out (tile_process (abs_tile t))).
Proof.
  intros Ht Hom. pose proof Ht as [[] _]; simpl in *.
  apply map_loop; [congruence|]. intros i Hi.
  pose proof (dot_loop (abs_tile t) i (proj1 Ht) Hi) as E. simpl in E. rewrite E. simpl. f_equal. unfold clamp8. repeat case_match; try done.
  apply wrap_s_id; [lia|]. change (2 ^ (8 - 1)) with 128. lia.
Qed.

Lemma set_memories_inv im om ic oc t :
  tile_inv t -> tile_wf (Tile (crossbarHeight t) (crossbarWidth t) (crossbar t) im om ic oc) ->
  tile_inv (set_memories im om ic oc t).
Proof. intros [_ Hv] ?. by split. Qed.

(** * The cluster implements the device interface *)

Lemma cluster_process c tid t :
  cluster_inv c -> dev_tile c tid = Some t ->
  exists c', aimcProcess tid c = Ok c' /\ dev_upd c tid (tile_process t) c'.
Proof.
  intros Hc Ht. destruct (dev_tile_inv _ _ _ Hc Ht) as (p & ct & Hat & -> & Hinv).
  pose proof Hinv as [Hwf _]. pose proof Hwf as []; simpl in *.
  unfold aimcProcess. rewrite Hat. simpl. rewrite tile_process_sim by done. simpl.
  rewrite zero_loop by lia. simpl. eexists. split; [done|].
  by apply (put_tile_upd c tid p ct), set_memories_inv, (tile_process_wf (abs_tile ct)).
Qed.

Lemma cluster_queue c tid val t :
  cluster_inv c -> dev_tile c tid = Some t -> t_incnt t + lanes < 2 ^ 31 ->
  exists c', aimcQueue tid val c = Ok c' /\ dev_upd c tid (tile_queue val t) c'.
Proof.
  intros Hc Ht Hcnt. destruct (dev_tile_inv _ _ _ Hc Ht) as (p & ct & Hat & -> & Hinv).
  pose proof Hinv as [Hwf Hv]. pose proof Hwf as []; simpl in *.
  unfold aimcQueue. rewrite Hat. simpl. rewrite Hv. unfold lanes in *.
  rewrite int_ok_in by lia. simpl.
  assert ((if inputMemoryCounter ct + 4 <? crossbarHeight ct
           then for_range 0 4 (fun i im => awrite im (inputMemoryCounter ct + i) (byte_of val i))
                  (inputMemory ct) else Ok (inputMemory ct))
          = Ok (t_in (tile_queue val (abs_tile ct)))) as ->.
  { simpl. unfold lanes. destruct (_ <? _) eqn:E; [|done]. apply queue_loop; unfold lanes; lia. }
  simpl. eexists. split; [done|].
  by apply (put_tile_upd c tid p ct), set_memories_inv, (tile_queue_wf val (abs_tile ct)).
Qed.

Lemma cluster_dequeue c tid t :
  cluster_inv c -> dev_tile c tid = Some t -> t_outcnt t + lanes < 2 ^ 31 ->
  exists c', aimcDequeue tid c = Ok (c', (tile_dequeue t).2) /\ dev_upd c tid (tile_dequeue t).1 c'.
Proof.
  intros Hc Ht Hcnt. destruct (dev_tile_inv _ _ _ Hc Ht) as (p & ct & Hat & -> & Hinv).
  pose proof Hinv as [Hwf Hv]. pose proof Hwf as []; simpl in *.
  unfold aimcDequeue. rewrite Hat. simpl. rewrite Hv. unfold lanes in *.
  rewrite int_ok_in by lia. simpl.
  assert ((if outputMemoryCounter ct + 4 <? crossbarWidth ct
           then for_range 0 4 (fun k result =>
                   b ← aread (outputMemory ct) (outputMemoryCounter ct + (4 - 1 - k));
                   Ok (u32 (Z.lor (u32 (Z.shiftl result 8)) (Z.land 255 b)))) 0
           else Ok 0) = Ok (tile_dequeue (abs_tile ct)).2) as ->.
  { simpl. unfold lanes. destruct (_ <? _) eqn:E; [|done].
    rewrite <- (dequeue_loop (outputMemoryCounter ct)) by (unfold lanes; lia).
    unfold for_range, lanes. apply for_loop_ext. intros i s.
    destruct (aread _ _) as [b| | |]; simpl; rewrite ?land_ubyte; done. }
  simpl. eexists. split; [done|].
  by apply (put_tile_upd c tid p ct), set_memories_inv, (tile_dequeue_wf (abs_tile ct)).
Qed.

Lemma cluster_param_read c tid x y t :
  cluster_inv c -> dev_tile c tid = Some t ->
  0 <= x < t_width t -> 0 <= y < t_height t ->
  aimcParamRead tid x y c = Ok (cell t (Z.to_nat y) (Z.to_nat x)).
Proof.
  intros Hc Ht Hx Hy. destruct (dev_tile_inv _ _ _ Hc Ht) as (p & ct & Hat & -> & [[] _]).
  simpl in *. unfold aimcParamRead. rewrite Hat. simpl.
  rewrite int_ok_in by nia. simpl. rewrite int_ok_in by nia. simpl.
  rewrite int_ok_in by nia. simpl. rewrite (proj2 (Z.ltb_lt _ _)) by nia.
  destruct (aread_in_bounds (crossbar ct) (y * crossbarWidth ct + x)) as (g & Hg & ->); [nia|].
  unfold cell; simpl.
  replace (_ * _ + _)%nat with (Z.to_nat (y * crossbarWidth ct + x)) by nia. by rewrite Hg.
Qed.

Lemma cluster_param_write c tid x y v t :
  cluster_inv c -> dev_tile c tid = Some t ->
  0 <= x < t_width t -> 0 <= y < t_height t -> -128 <= v <= 127 ->
  exists c', aimcParamWrite tid x y v c = Ok c' /\
    dev_upd c tid (tile_write (Z.to_nat y) (Z.to_nat x) v t) c'.
Proof.
  intros Hc Ht Hx Hy Hv. destruct (dev_tile_inv _ _ _ Hc Ht) as (p & ct & Hat & -> & Hinv).
  pose proof Hinv as [Hwf Hvec]. pose proof Hwf as []; simpl in *.
  unfold aimcParamWrite. rewrite Hat. simpl.
  rewrite int_ok_in by nia. simpl. rewrite int_ok_in by nia. simpl.
  rewrite int_ok_in by nia. simpl. rewrite (proj2 (Z.ltb_lt _ _)) by nia.
  rewrite awrite_Ok by nia. simpl. eexists. split; [done|].
  replace (Z.to_nat (y * crossbarWidth ct + x))
    with (Z.to_nat y * Z.to_nat (crossbarWidth ct) + Z.to_nat x)%nat by nia.
  apply (put_tile_upd c tid p ct (set_crossbar _ ct) Hc Hat). split; [|done].
  by apply (tile_write_wf (Z.to_nat y) (Z.to_nat x) v (abs_tile ct)).
Qed.

#[export] Instance cluster_laws : AimcDeviceLaws AIMCCluster.
Proof.
  split; eauto using cluster_process, cluster_queue, cluster_dequeue, cluster_param_read,
    cluster_param_write.
  intros s tid t Hc Ht. by destruct (dev_tile_inv _ _ _ Hc Ht) as (? & ? & _ & -> & [? _]).
Qed.

(** * Construction *)

(** The tile the constructor promises. *)
Definition zero_tile (h w : Z) : AIMCTile :=
  {| crossbarHeight := h; crossbarWidth := w;
     crossbar := replicate (Z.to_nat (h * w)) 0; inputMemory := replicate (Z.to_nat h) 0;
     outputMemory := replicate (Z.to_nat w) 0; inputMemoryCounter := 0;
     outputMemoryCounter := 0; vectorization := 4 |}.

(** Zeroing the first byte after a zeroed prefix. *)
Lemma zero_extend i (l : list Z) :
  0 <= i < Z.of_nat (length l) ->
  <[Z.to_nat i := 0]> (replicate (Z.to_nat i) 0 ++ drop (Z.to_nat i) l) =
    replicate (Z.to_nat (i + 1)) 0 ++ drop (Z.to_nat (i + 1)) l.
Proof.
  intros Hi. destruct (lookup_lt_is_Some_2 l (Z.to_nat i)) as [a Ha]; [lia|].
  rewrite (drop_S l a) by done. rewrite insert_app_r_alt by (rewrite length_replicate; lia).
  rewrite length_replicate, Nat.sub_diag. simpl.
  replace (Z.to_nat (i + 1)) with (S (Z.to_nat i)) by lia.
  by rewrite replicate_S_end, <- app_assoc.
Qed.

Lemma AIMCTile_init_ok h w c im om :
  0 < h -> 0 < w -> h * w < 2 ^ 31 ->
  Z.of_nat (length c) = h * w -> Z.of_nat (length im) = h -> Z.of_nat (length om) = w ->
  AIMCTile_init h w c im om = Ok (zero_tile h w).
Proof.
  intros Hh Hw Hhw Hc Him Hom. unfold AIMCTile_init.
  destruct (for_range_ok (fun i '(im', c') =>
      im' = replicate (Z.to_nat i) 0 ++ drop (Z.to_nat i) im /\
      c' = replicate (Z.to_nat (i * w)) 0 ++ drop (Z.to_nat (i * w)) c)
    (fun i '(im, c) => im ← awrite im i 0;
      c ← for_range 0 w (fun j c =>
        iw ← int_ok (i * w); idx ← int_ok (iw + j); awrite c idx 0) c;
      Ok (im, c)) 0 h (im, c)) as ([im' c'] & -> & -> & ->); [lia|done| |].
  - intros i [im' c'] Hi [-> ->].
    rewrite awrite_Ok by (rewrite length_app, length_replicate, length_drop; lia). simpl.
    destruct (for_range_ok (fun j c' => c' =
        replicate (Z.to_nat (i * w + j)) 0 ++ drop (Z.to_nat (i * w + j)) c)
      (fun j c => iw ← int_ok (i * w); idx ← int_ok (iw + j); awrite c idx 0) 0 w
      (replicate (Z.to_nat (i * w)) 0 ++ drop (Z.to_nat (i * w)) c)) as (c'' & -> & ->);
      [lia|by rewrite Z.add_0_r| |].
    + intros j ? Hj ->. rewrite int_ok_in by nia. simpl. rewrite int_ok_in by nia. simpl.
      eexists. split; [apply awrite_Ok; rewrite length_app, length_replicate, length_drop; nia|].
      rewrite Z.add_assoc. apply zero_extend; nia.
    + simpl. eexists. split; [done|]. split; [apply zero_extend; lia|].
      by replace (i * w + w) with ((i + 1) * w) by lia.
  - simpl. rewrite zero_loop by lia. simpl.
    rewrite !drop_ge by lia. by rewrite !app_nil_r.
Qed.

Lemma fresh_tile_inv h w :
  0 < h -> 0 < w -> h * w < 2 ^ 31 ->
  tile_inv (zero_tile h w).
Proof.
  intros. split; [|done]. split; simpl; rewrite ?length_replicate; try lia; by apply Forall_replicate.
Qed.

#[local] Opaque crossbarDim.

Lemma crossbarDim_bounds : 0 < crossbarDim /\ crossbarDim * crossbarDim < 2 ^ 31.
Proof. done. Qed.

Lemma AIMCTile_new_ok (raw : Z -> list Z) :
  (forall n, 0 <= n -> Z.of_nat (length (raw n)) = n) ->
  AIMCTile_new (raw (crossbarDim * crossbarDim)) (raw crossbarDim) (raw crossbarDim) =
    Ok (zero_tile crossbarDim crossbarDim).
Proof.
  intros Hraw. destruct crossbarDim_bounds. apply AIMCTile_init_ok; auto with lia.
Qed.

Lemma new_tile_inv : tile_inv (zero_tile crossbarDim crossbarDim).
Proof. destruct crossbarDim_bounds. by apply fresh_tile_inv. Qed.

(** Appending new tiles keeps the invariant on the whole vector and leaves the
    existing entries of [tiles] and the existing heap objects as they were. *)
Lemma push_tiles_ok raw p_cpus c :
  (forall n, 0 <= n -> Z.of_nat (length (raw n)) = n) ->
  (forall p, is_Some (heap c !! p) -> (p < next c)%positive) ->
  (forall p, p ∈ tiles c -> (p < next c)%positive) ->
  exists c', push_tiles raw p_cpus c = Ok c' /\
    (exists ps, tiles c' = tiles c ++ ps /\ length ps = length p_cpus /\ NoDup ps /\
       (forall p, p ∈ ps -> (next c <= p)%positive /\ heap c' !! p = Some (zero_tile crossbarDim crossbarDim))) /\
    (forall p, (p < next c)%positive -> heap c' !! p = heap c !! p) /\
    (forall p, is_Some (heap c' !! p) -> (p < next c')%positive) /\
    cpus c' = cpus c ++ p_cpus /\ attached c' = attached c.
Proof.
  intros Hraw. revert c. induction p_cpus as [|cpu rest IH]; intros c Hf Ht; simpl.
  { exists c. split; [done|]. split_and!; try done; [|by rewrite app_nil_r].
    exists []. rewrite app_nil_r. split_and!; [done|done|constructor|]. intros p []%not_elem_of_nil. }
  rewrite (AIMCTile_new_ok raw Hraw). simpl.
  edestruct IH as (c' & -> & (ps & Hps & Hlen & Hnd & Hlive) & Hold & Hfr & Hcpu & Hatt); cycle 2.
  - exists c'. split; [done|]. simpl in *. split_and!; [|intros; rewrite Hold, lookup_insert_ne by lia; done|done| |done].
    + exists (next c :: ps). rewrite Hps, <- app_assoc. split_and!; [done|by simpl; f_equal| |].
      * constructor; [|done]. intros [? _]%Hlive. lia.
      * intros p [->|Hp]%elem_of_cons; [|by destruct (Hlive p Hp); split; [lia|]].
        split; [lia|]. by rewrite Hold, lookup_insert_eq by lia.
    + by rewrite Hcpu, <- app_assoc.
  - simpl. intros p. rewrite lookup_insert. case_decide; [lia|]. intros ?%Hf. lia.
  - simpl. intros p [?%Ht| ->%list_elem_of_singleton]%elem_of_app; lia.
Qed.

Lemma AIMCCluster_new_ok raw p_cpus :
  (forall n, 0 <= n -> Z.of_nat (length (raw n)) = n) ->
  exists c, AIMCCluster_new raw p_cpus = Ok c /\ cluster_inv c /\
    length (tiles c) = length p_cpus /\ cpus c = p_cpus /\
    (forall p, p ∈ tiles c -> heap c !! p = Some (zero_tile crossbarDim crossbarDim)).
Proof.
  intros Hraw.
  edestruct (push_tiles_ok raw p_cpus) as (c & Hc & (ps & Hps & Hlen & Hnd & Hlive) & _ & Hfr & Hcpu & _);
    [done| | |exists c; split; [exact Hc|]]; simpl in *.
  - intros p []%lookup_empty_is_Some.
  - intros p []%not_elem_of_nil.
  - rewrite Hps. split_and!; [|done|done|intros p Hp; by apply Hlive].
    split; rewrite ?Hps; [done| |done].
    intros p Hp. eexists. split; [by apply Hlive|apply new_tile_inv].
Qed.

(** * Sequences of operations *)

Inductive tile_op :=
| OProcess
| OQueue (val : Z)
| OQueueSingle (val : Z)
| ODequeue
| ODequeueSingle
| OParamRead (x y : Z)
| OParamWrite (x y val : Z).

(** [int8_t] arguments are in range. *)
Definition op_ok (o : tile_op) : Prop :=
  match o with
  | OQueueSingle v | OParamWrite _ _ v => -128 <= v <= 127
  | _ => True
  end.

Definition run_op (tid : Z) (o : tile_op) (c : AIMCCluster) : res AIMCCluster :=
  match o with
  | OProcess => aimcProcess tid c
  | OQueue v => aimcQueue tid v c
  | OQueueSingle v => aimcQueueSingle tid v c
  | ODequeue => fst <$> aimcDequeue tid c
  | ODequeueSingle => fst <$> aimcDequeueSingle tid c
  | OParamRead x y => _ ← aimcParamRead tid x y c; Ok c
  | OParamWrite x y v => aimcParamWrite tid x y v c
  end.

Fixpoint run_ops (ops : list (Z * tile_op)) (c : AIMCCluster) : res AIMCCluster :=
  match ops with
  | [] => Ok c
  | (tid, o) :: ops => c' ← run_op tid o c; run_ops ops c'
  end.

Lemma int_ok_inv z v : int_ok z = Ok v -> v = z /\ - 2 ^ 31 <= z < 2 ^ 31.
Proof.
  unfold int_ok, in_s. change (32 - 1) with 31. destruct (_ && _) eqn:E; [|done].
  intros [= <-]. split; [done|lia].
Qed.

Lemma awrite_inv {A} (l l' : list A) i a :
  awrite l i a = Ok l' -> 0 <= i < Z.of_nat (length l) /\ l' = <[Z.to_nat i := a]> l.
Proof.
  unfold awrite. destruct (_ && _) eqn:E; [|done]. intros [= <-]. split; [lia|done].
Qed.

(** Destruct the binds of a computation that returned. *)
Ltac inv_res := repeat match goal with
  | H : (_ ≫= _) = Ok _ |- _ => apply bind_Ok in H; destruct H as (? & ? & H); simpl in H
  | H : int_ok _ = Ok _ |- _ => apply int_ok_inv in H; destruct H as [-> ?]
  | H : awrite _ _ _ = Ok _ |- _ => apply awrite_inv in H; destruct H as [? ->]
  | H : aread _ _ = Ok _ |- _ => apply aread_inv in H; destruct H
  | H : Ok _ = Ok _ |- _ => injection H as H
  | H : Ok _ = Ub |- _ => discriminate H
  | H : (if ?b then _ else _) = Ok _ |- _ => let E := fresh "E" in destruct b eqn:E
  | p : (_ * _)%type |- _ => destruct p; simpl in *
  end.

(** The invariant of a tile and the two dimensions, across an operation. *)
Definition same_shape (t t' : AIMCTile) : Prop :=
  crossbarHeight t' = crossbarHeight t /\ crossbarWidth t' = crossbarWidth t.

Lemma run_op_put tid o c c' p t :
  tile_at c tid = Ok (p, t) -> tile_inv t -> op_ok o -> run_op tid o c = Ok c' ->
  exists t', tile_inv t' /\ same_shape t t' /\ (c' = put_tile p t' c \/ c' = c /\ t' = t).
Proof.
  intros Hat Hinv Hok Hrun. pose proof Hinv as [Hwf Hv]. pose proof Hwf as []; simpl in *.
  destruct o; simpl in Hrun;
    unfold aimcProcess, aimcQueue, aimcQueueSingle, aimcDequeue, aimcDequeueSingle,
      aimcParamRead, aimcParamWrite in Hrun; rewrite Hat in Hrun; simpl in Hrun.
  - rewrite tile_process_sim in Hrun by done. simpl in Hrun.
    rewrite zero_loop in Hrun by lia. simpl in Hrun. injection Hrun as <-.
    eexists. split; [|split; [|by left]]; [|done].
    by apply set_memories_inv, (tile_process_wf (abs_tile t)).
  - rewrite Hv in Hrun. unfold lanes in *. inv_res; subst;
      (eexists; split; [|split; [|by left]]; [|done]); apply set_memories_inv; try done.
    + rewrite queue_loop in H0 by (unfold lanes; lia). injection H0 as <-.
      split; simpl; rewrite ?length_inserts; try lia; try done.
      apply int8_list_inserts; [done|apply word_bytes_int8].
    + split; simpl; done || lia.
  - inv_res; subst; (eexists; split; [|split; [|by left]]; [|done]); apply set_memories_inv; try done.
    + split; simpl; rewrite ?length_insert; try lia; try done. by apply int8_list_insert.
    + split; simpl; done || lia.
  - rewrite Hv in Hrun. unfold lanes in *.
    destruct (_ ≫= _) as [[c1 z]| | |] eqn:E; simplify_eq/=. inv_res; simplify_eq;
    (eexists; split; [|split; [|by left]]; [|done]); apply set_memories_inv; try done;
    split; simpl; done || lia.
  - destruct (_ ≫= _) as [[c1 z]| | |] eqn:E; simplify_eq/=. inv_res; simplify_eq;
    (eexists; split; [|split; [|by left]]; [|done]); apply set_memories_inv; try done;
    split; simpl; done || lia.
  - apply bind_Ok in Hrun as (? & _ & [= <-]). exists t. split; [done|]. split; [done|by right].
  - inv_res; subst; (eexists; split; [|split; [|by left]]; [|done]); split; try done;
    split; simpl; rewrite ?length_insert; try done. by apply int8_list_insert.
Qed.

Lemma put_tile_inv c p t t' tid :
  cluster_inv c -> tile_at c tid = Ok (p, t) -> tile_inv t' -> cluster_inv (put_tile p t' c).
Proof. intros. by eapply (put_tile_upd c tid p t t'). Qed.

Lemma tile_at_put c p t t' tid i :
  cluster_inv c -> tile_at c tid = Ok (p, t) ->
  tile_at (put_tile p t' c) i = if decide (i = tid) then Ok (p, t') else tile_at c i.
Proof.
  intros Hc Hat. destruct (tile_at_Ok _ _ _ _ Hat) as (Htid & Hp & Hh). unfold tile_at; simpl.
  case_decide as Hi.
  - subst. rewrite (aread_Ok _ _ _ Htid Hp). simpl. by rewrite lookup_insert_eq.
  - destruct (aread (tiles c) i) as [q| | |] eqn:Eq; simpl; [|done..].
    rewrite lookup_insert_ne; [done|]. intros <-. apply Hi. apply aread_inv in Eq as [? ?].
    assert (Z.to_nat i = Z.to_nat tid); [|lia]. by eapply NoDup_lookup; [apply Hc| |].
Qed.

Lemma tile_at_live c tid p t : cluster_inv c -> tile_at c tid = Ok (p, t) -> tile_inv t.
Proof.
  intros Hc Hat. destruct (tile_at_Ok _ _ _ _ Hat) as (_ & Hp & Hh).
  destruct (ci_live c Hc p) as (t' & ? & ?); [by eapply list_elem_of_lookup_2|]. congruence.
Qed.

(** Deleting pairwise distinct live tiles succeeds and leaves none of them. *)
Lemma delete_tiles_ok ps h :
  NoDup ps -> (forall p, p ∈ ps -> is_Some (h !! p)) ->
  exists h', delete_tiles ps h = Ok h' /\
    (forall p, h' !! p = if decide (p ∈ ps) then None else h !! p).
Proof.
  intros Hnd. revert h. induction Hnd as [|p ps Hp Hnd IH]; intros h Hl; simpl.
  - exists h. split; [done|]. done.
  - destruct (Hl p) as [t ->]; [left|].
    destruct (IH (delete p h)) as (h' & -> & Hh').
    + intros q Hq. rewrite lookup_delete_ne by (intros ->; done). apply Hl. by right.
    + exists h'. split; [done|]. intros q. rewrite Hh'.
      destruct (decide (q = p)) as [->|].
      * rewrite lookup_delete_eq, (decide_True (P := p ∈ p :: ps)) by left. by case_decide.
      * rewrite lookup_delete_ne by done.
        destruct (decide (q ∈ ps)); [by rewrite decide_True by (by right)|].
        rewrite decide_False; [done|]. by intros [?|?]%elem_of_cons.
Qed.

Lemma serialize_ok c :
  cluster_inv c ->
  exists c', serialize c = Ok c' /\ tiles c' = tiles c /\ next c' = next c /\
    (forall p, p ∈ tiles c -> heap c' !! p = None) /\
    (forall p, is_Some (heap c' !! p) -> is_Some (heap c !! p)).
Proof.
  intros Hc. destruct (delete_tiles_ok (tiles c) (heap c)) as (h' & Hd & Hh'); [apply Hc| |].
  { intros p Hp. destruct (ci_live c Hc p Hp) as (t & -> & _). by eexists. }
  unfold serialize. rewrite Hd. simpl. eexists. split; [done|]. simpl. split_and!; [done|done| |].
  - intros p Hp. rewrite Hh'. by rewrite decide_True.
  - intros p. rewrite Hh'. case_decide; [by intros [? ?]|done].
Qed.

(** Every operation reads the tile pointer of its thread. *)
Lemma run_op_dangling tid o c :
  tile_at c tid = Ub -> run_op tid o c = Ub.
Proof.
  intros H. destruct o; simpl; unfold aimcProcess, aimcQueue, aimcQueueSingle, aimcDequeue,
    aimcDequeueSingle, aimcParamRead, aimcParamWrite; by rewrite H.
Qed.

Lemma tile_at_dead c tid p :
  0 <= tid -> tiles c !! Z.to_nat tid = Some p -> heap c !! p = None -> tile_at c tid = Ub.
Proof. intros Ht Hp Hh. unfold tile_at. rewrite (aread_Ok _ _ _ Ht Hp). simpl. by rewrite Hh. Qed.

(** A small cluster, with 2 x 5 tiles, for the examples. *)
Definition small_cluster (im om : list Z) (ic oc : Z) : AIMCCluster :=
  {| cpus := [0]; tiles := [1%positive]; next := 2; attached := true;
     heap := {[ 1%positive := {| crossbarHeight := 5; crossbarWidth := 2;
       crossbar := [1; 2; 3; 4; 5; 6; 7; 100; 9; 100]; inputMemory := im; outputMemory := om;
       inputMemoryCounter := ic; outputMemoryCounter := oc; vectorization := 4 |} ]} |}.

Lemma small_cluster_inv im om ic oc :
  length im = 5%nat -> length om = 2%nat -> int8_list im -> int8_list om -> 0 <= ic -> 0 <= oc ->
  cluster_inv (small_cluster im om ic oc).
Proof.
  intros. split; simpl.
  - apply NoDup_singleton.
  - intros p ->%list_elem_of_singleton. eexists. split; [by apply lookup_singleton_eq|].
    split; [|done]. split; simpl; try lia; try done. repeat constructor; simpl; lia.
  - intros p. rewrite lookup_singleton. case_decide; [lia|by intros [? ?]].
Qed.

(** * Theorems *)

(** C39 (aimcProcess computes the saturated matrix-vector product).  On a live
    tile [aimcProcess] returns; output [x] becomes the exact integer inner
    product of the input memory with crossbar column [x] (no rounding happens
    in the [double] accumulator), saturated to [-128, 127]; the input memory is
    cleared, both queue counters are reset, the crossbar is kept, and no other
    thread's tile changes. *)
Theorem aimcProcess_mvm (c : AIMCCluster) tid p t :
  cluster_inv c -> tile_at c tid = Ok (p, t) ->
  exists c' t',
    aimcProcess tid c = Ok c' /\ tile_at c' tid = Ok (p, t') /\ cluster_inv c' /\
    (forall x, (x < Z.to_nat (crossbarWidth t))%nat ->
       outputMemory t' !! x = Some (clamp8 (sum_below (Z.to_nat (crossbarHeight t)) (fun y =>
         default 0 (inputMemory t !! y) *
         default 0 (crossbar t !! (y * Z.to_nat (crossbarWidth t) + x)%nat))))) /\
    inputMemory t' = replicate (Z.to_nat (crossbarHeight t)) 0 /\
    inputMemoryCounter t' = 0 /\ outputMemoryCounter t' = 0 /\
    crossbar t' = crossbar t /\
    (forall tid', tid' <> tid -> tile_at c' tid' = tile_at c tid').
Proof.
  intros Hc Hat. pose proof (tile_at_live _ _ _ _ Hc Hat) as Hinv.
  pose proof Hinv as [Hwf _]. pose proof Hwf as []; simpl in *.
  unfold aimcProcess. rewrite Hat. simpl. rewrite tile_process_sim by done. simpl.
  rewrite zero_loop by lia. simpl. eexists _, _. split; [done|].
  rewrite (tile_at_put _ _ _ _ _ _ Hc Hat), decide_True by done. split; [done|].
  split; [eapply put_tile_inv; [done|done|];
    by apply set_memories_inv, (tile_process_wf (abs_tile t))|]. simpl. split_and!; try done.
  - intros x Hx. rewrite list_lookup_fmap, lookup_seq_lt by done. done.
  - intros tid' Hne. by rewrite (tile_at_put _ _ _ _ _ _ Hc Hat), decide_False by done.
Qed.

Example aimcProcess_mvm_witness :
  exists c' t', aimcProcess 0 (small_cluster [1; -1; 2; 3; 1] [0; 0] 5 2) = Ok c' /\
    tile_at c' 0 = Ok (1%positive, t') /\ outputMemory t' !! 1%nat = Some 127.
Proof.
  destruct (aimcProcess_mvm (small_cluster [1; -1; 2; 3; 1] [0; 0] 5 2) 0 1%positive
    {| crossbarHeight := 5; crossbarWidth := 2;
       crossbar := [1; 2; 3; 4; 5; 6; 7; 100; 9; 100]; inputMemory := [1; -1; 2; 3; 1];
       outputMemory := [0; 0];
       inputMemoryCounter := 5; outputMemoryCounter := 2; vectorization := 4 |})
    as (c' & t' & H1 & H2 & _ & H3 & _).
  - apply small_cluster_inv; try done; repeat constructor; simpl; lia.
  - reflexivity.
  - exists c', t'. split; [exact H1|]. split; [exact H2|]. rewrite H3 by (simpl; lia). reflexivity.
Defined.

(** (type invariant of the cluster).  Any sequence of the seven tile
    operations, on any thread ids and counters, that does not reach undefined
    behaviour keeps the cluster well formed: every tile pointer is to a live
    tile of its own whose arrays have the lengths the dimensions promise and
    hold [int8_t] values. *)
Theorem run_ops_inv (ops : list (Z * tile_op)) (c c' : AIMCCluster) :
  cluster_inv c -> Forall (fun o => op_ok o.2) ops -> run_ops ops c = Ok c' ->
  cluster_inv c' /\ tiles c' = tiles c /\ cpus c' = cpus c.
Proof.
  intros Hc Hops. revert c Hc. induction Hops as [|[tid o] ops Ho Hops IH]; intros c Hc Hrun; simpl in *.
  { by simplify_eq. }
  apply bind_Ok in Hrun as (c1 & Hop & Hrun).
  destruct (tile_at c tid) as [[p t]| | |] eqn:Hat.
  - pose proof (tile_at_live _ _ _ _ Hc Hat) as Hinv.
    destruct (run_op_put _ _ _ _ _ _ Hat Hinv Ho Hop) as (t' & Ht' & _ & [->|[-> ->]]);
      [|by apply IH].
    by destruct (IH _ (put_tile_inv _ _ _ _ _ Hc Hat Ht') Hrun) as (? & -> & ->).
  - by rewrite run_op_dangling in Hop.
  - exfalso. unfold tile_at, aread in Hat. destruct (0 <=? tid); [|done].
    destruct (tiles c !! _) as [q|]; [|done]. simpl in Hat. by destruct (heap c !! q).
  - exfalso. unfold tile_at, aread in Hat. destruct (0 <=? tid); [|done].
    destruct (tiles c !! _) as [q|]; [|done]. simpl in Hat. by destruct (heap c !! q).
Qed.

Example run_ops_inv_witness :
  exists c', run_ops [(0, OQueue 257); (0, OProcess); (0, ODequeueSingle)]
               (small_cluster [0; 0; 0; 0; 0] [0; 0] 0 0) = Ok c' /\ cluster_inv c'.
Proof.
  eexists. split; [vm_compute; reflexivity|].
  eapply (run_ops_inv [(0, OQueue 257); (0, OProcess); (0, ODequeueSingle)]
    (small_cluster [0; 0; 0; 0; 0] [0; 0] 0 0)).
  - apply small_cluster_inv; try done; repeat constructor; simpl; lia.
  - repeat constructor.
  - vm_compute. reflexivity.
Defined.

(** (bounds of the vector queue).  [aimcQueue] stores its four bytes exactly
    when the counter is more than four places below the height: a word for the
    last four rows is silently dropped although it fits, and the counter
    advances all the same. *)
Theorem aimcQueue_bounds (c : AIMCCluster) tid p t val :
  cluster_inv c -> tile_at c tid = Ok (p, t) -> inputMemoryCounter t + 4 < 2 ^ 31 ->
  exists c' t', aimcQueue tid val c = Ok c' /\ tile_at c' tid = Ok (p, t') /\
    inputMemoryCounter t' = inputMemoryCounter t + 4 /\
    (crossbarHeight t <= inputMemoryCounter t + 4 -> inputMemory t' = inputMemory t) /\
    (inputMemoryCounter t + 4 < crossbarHeight t ->
     forall y, inputMemory t' !! y =
       if decide (inputMemoryCounter t <= Z.of_nat y < inputMemoryCounter t + 4)
       then Some (byte_of val (Z.of_nat y - inputMemoryCounter t)) else inputMemory t !! y).
Proof.
  intros Hc Hat Hcnt. pose proof (tile_at_live _ _ _ _ Hc Hat) as [Hwf Hv].
  pose proof Hwf as []; simpl in *.
  unfold aimcQueue. rewrite Hat. simpl. rewrite Hv. unfold lanes.
  rewrite int_ok_in by lia. simpl.
  destruct (_ <? _) eqn:E; simpl.
  - rewrite queue_loop by (unfold lanes; lia). simpl. eexists _, _. split; [done|].
    rewrite (tile_at_put _ _ _ _ _ _ Hc Hat), decide_True by done. split_and!; [done..|lia|].
    intros _ y. simpl. case_decide.
    + rewrite list_lookup_inserts by (rewrite ?length_word_bytes; lia).
      unfold word_bytes. rewrite list_lookup_fmap, lookup_seq_lt by lia. simpl. do 2 f_equal. lia.
    + destruct (decide (Z.of_nat y < inputMemoryCounter t)).
      * by rewrite list_lookup_inserts_lt by lia.
      * rewrite list_lookup_inserts_ge; [done|]. rewrite length_word_bytes. lia.
  - eexists _, _. split; [done|].
    rewrite (tile_at_put _ _ _ _ _ _ Hc Hat), decide_True by done. split_and!; try done. lia.
Qed.

Example aimcQueue_bounds_witness :
  exists c' t', aimcQueue 0 67305985 (small_cluster [0; 0; 0; 0; 0] [0; 0] 1 0) = Ok c' /\
    tile_at c' 0 = Ok (1%positive, t') /\ inputMemory t' = [0; 0; 0; 0; 0].
Proof.
  destruct (aimcQueue_bounds (small_cluster [0; 0; 0; 0; 0] [0; 0] 1 0) 0 1%positive
    {| crossbarHeight := 5; crossbarWidth := 2;
       crossbar := [1; 2; 3; 4; 5; 6; 7; 100; 9; 100]; inputMemory := [0; 0; 0; 0; 0];
       outputMemory := [0; 0];
       inputMemoryCounter := 1; outputMemoryCounter := 0; vectorization := 4 |} 67305985)
    as (c' & t' & H1 & H2 & _ & H3 & _).
  - apply small_cluster_inv; try done; repeat constructor; simpl; lia.
  - reflexivity.
  - done.
  - exists c', t'. split; [exact H1|]. split; [exact H2|]. apply H3. simpl. lia.
Defined.

(** (parameter accesses out of bounds).  Only the flattened index of
    [aimcParamRead] and [aimcParamWrite] is checked, and only from above: an
    index at or past the end reads zero and writes nothing, a negative one is
    an access outside the array, and a column past the width lands in a later
    row. *)
Theorem aimcParam_bounds (c : AIMCCluster) tid p t x y v :
  cluster_inv c -> tile_at c tid = Ok (p, t) ->
  - 2 ^ 31 <= y * crossbarWidth t < 2 ^ 31 ->
  - 2 ^ 31 <= y * crossbarWidth t + x < 2 ^ 31 ->
  let idx := y * crossbarWidth t + x in
  if decide (idx < 0) then
    aimcParamRead tid x y c = Ub /\ aimcParamWrite tid x y v c = Ub
  else if decide (crossbarWidth t * crossbarHeight t <= idx) then
    aimcParamRead tid x y c = Ok 0 /\
    aimcParamWrite tid x y v c = Ok (put_tile p (set_crossbar (crossbar t) t) c)
  else
    aimcParamRead tid x y c = Ok (default 0 (crossbar t !! Z.to_nat idx)) /\
    aimcParamWrite tid x y v c =
      Ok (put_tile p (set_crossbar (<[Z.to_nat idx := v]> (crossbar t)) t) c).
Proof.
  intros Hc Hat Hy Hi idx. pose proof (tile_at_live _ _ _ _ Hc Hat) as [Hwf Hv].
  pose proof Hwf as []; simpl in *.
  unfold aimcParamRead, aimcParamWrite. rewrite Hat. simpl.
  rewrite int_ok_in by lia. simpl. rewrite int_ok_in by lia. simpl. rewrite int_ok_in by nia.
  simpl. fold idx. repeat case_decide.
  - rewrite (proj2 (Z.ltb_lt _ _)) by nia. rewrite aread_out, awrite_out by lia. done.
  - rewrite (proj2 (Z.ltb_ge _ _)) by done. done.
  - rewrite (proj2 (Z.ltb_lt _ _)) by lia. rewrite awrite_Ok by lia.
    destruct (aread_in_bounds (crossbar t) idx) as (g & -> & ->); [lia|]. done.
Qed.

Example aimcParam_bounds_witness :
  aimcParamWrite 0 (-1) 0 7 (small_cluster [0; 0; 0; 0; 0] [0; 0] 0 0) = Ub.
Proof.
  refine (proj2 (aimcParam_bounds (small_cluster [0; 0; 0; 0; 0] [0; 0] 0 0) 0 1%positive
    {| crossbarHeight := 5; crossbarWidth := 2;
       crossbar := [1; 2; 3; 4; 5; 6; 7; 100; 9; 100]; inputMemory := [0; 0; 0; 0; 0];
       outputMemory := [0; 0];
       inputMemoryCounter := 0; outputMemoryCounter := 0; vectorization := 4 |} (-1) 0 7 _ _ _ _));
  [apply small_cluster_inv; try done; repeat constructor; simpl; lia|reflexivity|simpl; lia|simpl; lia].
Defined.

(** (a checkpoint destroys the running tiles).  After [serialize], every
    tile operation of every thread is undefined behaviour, and it stays so for
    the existing threads after an [unserialize] in the same process: the
    replacement tiles are appended behind the dangling pointers. *)
Theorem serialize_use_after_free (raw : Z -> list Z) (c : AIMCCluster) p_cpus :
  cluster_inv c -> (forall n, 0 <= n -> Z.of_nat (length (raw n)) = n) ->
  exists c1 c2, serialize c = Ok c1 /\ unserialize raw p_cpus c1 = Ok c2 /\
    (forall tid o, run_op tid o c1 = Ub) /\
    (forall tid o, tid < Z.of_nat (length (tiles c)) -> run_op tid o c2 = Ub) /\
    length (tiles c2) = (length (tiles c) + length p_cpus)%nat.
Proof.
  intros Hc Hraw. destruct (serialize_ok c Hc) as (c1 & Hs & Ht & Hn & Hdead & Hsub).
  edestruct (push_tiles_ok raw p_cpus (init c1)) as (c2 & Hu & (ps & Hps & Hlen & _) & Hold & _);
    [done| | |exists c1, c2]; simpl in *.
  - intros p ?%Hsub. rewrite Hn. by apply Hc.
  - intros p. rewrite Ht, Hn. intros Hp. apply Hc. destruct (ci_live c Hc p Hp) as (t & -> & _).
    by eexists.
  - split; [done|]. split; [done|].
    assert (forall tid c', tid < Z.of_nat (length (tiles c)) ->
      (forall q, q ∈ tiles c -> heap c' !! q = None) -> tiles c `prefix_of` tiles c' ->
      tile_at c' tid = Ub) as Hub.
    { intros tid c' Htid Hd [ps' Hps'].
      destruct (decide (tid < 0)); [unfold tile_at; by rewrite aread_out by lia|].
      destruct (lookup_lt_is_Some_2 (tiles c) (Z.to_nat tid)) as [q Hq]; [lia|].
      eapply (tile_at_dead c' tid q); [lia|rewrite Hps'; by apply lookup_app_l_Some|].
      apply Hd. by eapply list_elem_of_lookup_2. }
    split_and!.
    + intros tid o. apply run_op_dangling.
      destruct (decide (tid < Z.of_nat (length (tiles c)))).
      * apply Hub; [done|done|by rewrite Ht].
      * unfold tile_at. rewrite aread_out; [done|rewrite Ht; lia].
    + intros tid o Htid. apply run_op_dangling, Hub; [done| |rewrite Hps, Ht; by exists ps].
      intros q Hq. rewrite Hold; [by apply Hdead|]. rewrite Hn. apply Hc.
      destruct (ci_live c Hc q Hq) as (t & -> & _). by eexists.
    + rewrite Hps, length_app, Ht. lia.
Qed.

Example serialize_use_after_free_witness :
  exists c1, serialize (small_cluster [0; 0; 0; 0; 0] [0; 0] 0 0) = Ok c1 /\
    run_op 0 (OQueue 1) c1 = Ub.
Proof.
  destruct (serialize_use_after_free (fun n => replicate (Z.to_nat n) 7)
    (small_cluster [0; 0; 0; 0; 0] [0; 0] 0 0) [0]) as (c1 & c2 & H1 & _ & H2 & _).
  - apply small_cluster_inv; try done; repeat constructor; simpl; lia.
  - intros n Hn. rewrite length_replicate. lia.
  - exists c1. split; [exact H1|apply H2].
Defined.

(** (restore from a checkpoint).  In a fresh process, [unserialize] on the
    newly constructed cluster leaves two tiles per CPU, and the thread ids in
    use reach a tile all of whose weights, inputs and counters are zero,
    whatever the checkpointed cluster held: the tile state is lost. *)
Theorem unserialize_fresh_zero (raw : Z -> list Z) p_cpus :
  (forall n, 0 <= n -> Z.of_nat (length (raw n)) = n) ->
  exists c c', AIMCCluster_new raw p_cpus = Ok c /\ unserialize raw p_cpus c = Ok c' /\
    cluster_inv c' /\ attached c' = true /\
    length (tiles c') = (2 * length p_cpus)%nat /\ cpus c' = p_cpus ++ p_cpus /\
    (forall tid, 0 <= tid < Z.of_nat (length p_cpus) ->
       exists p, tile_at c' tid = Ok (p, zero_tile crossbarDim crossbarDim)).
Proof.
  intros Hraw. destruct (AIMCCluster_new_ok raw p_cpus Hraw) as (c & Hc & Hinv & Hlen & Hcpu & Hz).
  assert (forall p, p ∈ tiles c -> (p < next c)%positive) as Hlt.
  { intros p Hp. apply Hinv. rewrite Hz by done. by eexists. }
  destruct (push_tiles_ok raw p_cpus (init c)) as
    (c' & Hu & (ps & Hps & Hpl & Hnd & Hlive) & Hold & Hfr & Hcpu' & Hatt); [done|apply Hinv|done|].
  exists c, c'. simpl in *. split_and!; [done|done| |done| | |].
  - split; [|rewrite Hps|done].
    + rewrite Hps. apply NoDup_app. split_and!; [apply Hinv| |done].
      intros p Hp [? _]%Hlive. specialize (Hlt p Hp). lia.
    + intros p [Hp|Hp]%elem_of_app; (eexists; split; [|apply new_tile_inv]).
      * rewrite Hold by auto. by apply Hz.
      * by apply Hlive.
  - rewrite Hps, length_app. lia.
  - by rewrite Hcpu', Hcpu.
  - intros tid Htid. destruct (lookup_lt_is_Some_2 (tiles c) (Z.to_nat tid)) as [p Hp]; [lia|].
    exists p. assert (p ∈ tiles c) by by eapply list_elem_of_lookup_2.
    unfold tile_at. rewrite Hps, (aread_Ok _ tid p) by (lia || by apply lookup_app_l_Some).
    simpl. by rewrite Hold, Hz by auto.
Qed.

Example unserialize_fresh_zero_witness :
  exists c c', AIMCCluster_new (fun n => replicate (Z.to_nat n) 7) [0; 1] = Ok c /\
    unserialize (fun n => replicate (Z.to_nat n) 7) [0; 1] c = Ok c' /\ length (tiles c') = 4%nat.
Proof.
  destruct (unserialize_fresh_zero (fun n => replicate (Z.to_nat n) 7) [0; 1])
    as (c & c' & H1 & H2 & _ & _ & H3 & _).
  - intros n Hn. rewrite length_replicate. lia.
  - exists c, c'. split; [exact H1|]. split; [exact H2|exact H3].
Defined.
