(* ===== verification/AimcCheck.v ===== *)
(** The host checker of AIMClib: [AnalogComputationalMemoryCore] and
    [AnalogComputationalMemory] of src/aimclib/aimc_check.hh.  Unlike the gem5
    device it owns its tiles through a vector of unique pointers, has tiles of
    4000 x 4000 bytes, and ignores thread ids and indices out of range; it
    implements the same [AimcDevice] interface. *)
From S2P Require Import Prelude AimcSpec.

Definition crossbarHeight : Z := 4000.
Definition crossbarWidth : Z := 4000.
Definition vectorization : Z := 4.

Record AnalogComputationalMemoryCore := {
  crossbar : list Z;
  inputMemory : list Z;
  outputMemory : list Z;
  inputMemoryCounter : Z;
  outputMemoryCounter : Z;
}.

(** [std::fill(l, l + n, 0)] on an array of the length of [l]. *)
Definition fill (n : Z) (l : list Z) : res (list Z) :=
  defined! (0 <=? n) && (n <=? Z.of_nat (length l)) ;;
  Ok (replicate (Z.to_nat n) 0 ++ drop (Z.to_nat n) l).

(** [std::make_unique<int8_t[]>(n)] value-initialises. *)
Definition make_bytes (n : Z) : list Z := replicate (Z.to_nat n) 0.

Definition AnalogComputationalMemoryCore_new : res AnalogComputationalMemoryCore :=
  im ← fill crossbarHeight (make_bytes crossbarHeight);
  om ← fill crossbarWidth (make_bytes crossbarWidth);
  xb ← fill (crossbarWidth * crossbarHeight) (make_bytes (crossbarWidth * crossbarHeight));
  Ok {| crossbar := xb; inputMemory := im; outputMemory := om;
        inputMemoryCounter := 0; outputMemoryCounter := 0 |}.

(** The vector [cores] of uniquely owned tiles. *)
Definition AnalogComputationalMemory : Type := list AnalogComputationalMemoryCore.

(** [reserve] of a negative number (a huge [size_t]) throws. *)
Definition AnalogComputationalMemory_new (numOfCores : Z) : res AnalogComputationalMemory :=
  assert! 0 <=? numOfCores ;;
  for_range 0 numOfCores (fun _ cores =>
    core ← AnalogComputationalMemoryCore_new; Ok (cores ++ [core])) [].

(** [tid < 0 || tid >= static_cast<int>(cores.size())] *)
Definition bad_tid (tid : Z) (cores : AnalogComputationalMemory) : bool :=
  (tid <? 0) || (s32 (Z.of_nat (length cores)) <=? tid).

(** [std::clamp(acc, -128.0, 127.0)] *)
Definition clamp (v lo hi : Z) : Z := if v <? lo then lo else if hi <? v then hi else v.

Definition aimcProcess (tid : Z) (cores : AnalogComputationalMemory)
    : res AnalogComputationalMemory :=
  if bad_tid tid cores then Ok cores else
  core ← aread cores tid;
  om ← for_range 0 crossbarWidth (fun i om =>
      v ← (acc ← for_range 0 crossbarHeight (fun j acc =>
             x ← aread (inputMemory core) j;
             jw ← int_ok (j * crossbarWidth);
             idx ← int_ok (jw + i);
             g ← aread (crossbar core) idx;
             Ok (dbl (acc + x * g))) 0;
           Ok (s8 (clamp acc (-128) 127)));
      awrite om i v) (outputMemory core);
  im ← fill crossbarHeight (inputMemory core);
  awrite cores tid {| crossbar := crossbar core; inputMemory := im; outputMemory := om;
                      inputMemoryCounter := 0; outputMemoryCounter := 0 |}.

Definition aimcQueue (tid val : Z) (cores : AnalogComputationalMemory)
    : res AnalogComputationalMemory :=
  if bad_tid tid cores then Ok cores else
  core ← aread cores tid;
  let idx := inputMemoryCounter core in
  fin ← int_ok (idx + vectorization);
  im ← (if fin <? crossbarHeight
        then for_range 0 vectorization
               (fun i im => awrite im (idx + i) (byte_of val i)) (inputMemory core)
        else Ok (inputMemory core));
  cnt ← int_ok (inputMemoryCounter core + vectorization);
  awrite cores tid {| crossbar := crossbar core; inputMemory := im;
                      outputMemory := outputMemory core; inputMemoryCounter := cnt;
                      outputMemoryCounter := outputMemoryCounter core |}.

Definition aimcDequeue (tid : Z) (cores : AnalogComputationalMemory)
    : res (AnalogComputationalMemory * Z) :=
  if bad_tid tid cores then Ok (cores, 0) else
  core ← aread cores tid;
  let idx := outputMemoryCounter core in
  fin ← int_ok (idx + vectorization);
  result ← (if fin <? crossbarWidth
            then for_range 0 vectorization (fun k result =>
                   b ← aread (outputMemory core) (idx + (vectorization - 1 - k));
                   Ok (u32 (Z.lor (u32 (Z.shiftl result 8)) (ubyte b)))) 0
            else Ok 0);
  cnt ← int_ok (outputMemoryCounter core + vectorization);
  cores ← awrite cores tid
    {| crossbar := crossbar core; inputMemory := inputMemory core;
       outputMemory := outputMemory core; inputMemoryCounter := inputMemoryCounter core;
       outputMemoryCounter := cnt |};
  Ok (cores, result).

Definition aimcParamRead (tid x y : Z) (cores : AnalogComputationalMemory) : res Z :=
  if bad_tid tid cores then Ok 0 else
  core ← aread cores tid;
  yw ← int_ok (y * crossbarWidth);
  idx ← int_ok (yw + x);
  if (0 <=? idx) && (idx <? crossbarWidth * crossbarHeight)
  then aread (crossbar core) idx else Ok 0.

Definition aimcParamWrite (tid x y val : Z) (cores : AnalogComputationalMemory)
    : res AnalogComputationalMemory :=
  if bad_tid tid cores then Ok cores else
  core ← aread cores tid;
  yw ← int_ok (y * crossbarWidth);
  idx ← int_ok (yw + x);
  if (0 <=? idx) && (idx <? crossbarWidth * crossbarHeight)
  then xb ← awrite (crossbar core) idx val;
       awrite cores tid {| crossbar := xb; inputMemory := inputMemory core;
                           outputMemory := outputMemory core;
                           inputMemoryCounter := inputMemoryCounter core;
                           outputMemoryCounter := outputMemoryCounter core |}
  else Ok cores.

(** * Abstraction and invariant *)

#[local] Opaque crossbarHeight crossbarWidth vectorization.

Definition abs_core (c : AnalogComputationalMemoryCore) : tile :=
  Tile crossbarHeight crossbarWidth (crossbar c) (inputMemory c) (outputMemory c)
    (inputMemoryCounter c) (outputMemoryCounter c).

(** Every core is a well-formed tile, and [size()] fits an [int]. *)
Record check_inv (cores : AnalogComputationalMemory) : Prop := {
  ck_size : Z.of_nat (length cores) < 2 ^ 31;
  ck_wf : Forall (fun c => tile_wf (abs_core c)) cores;
}.

#[export] Instance check_device : AimcDevice AnalogComputationalMemory := {
  dev_process := aimcProcess;
  dev_queue := aimcQueue;
  dev_dequeue := aimcDequeue;
  dev_param_read := aimcParamRead;
  dev_param_write := aimcParamWrite;
}.

#[export] Instance check_model : AimcModel AnalogComputationalMemory := {
  dev_inv := check_inv;
  dev_tile cores tid := match aread cores tid with Ok c => Some (abs_core c) | _ => None end;
}.

Lemma dims : 0 < crossbarHeight /\ 0 < crossbarWidth /\
  crossbarWidth * crossbarHeight < 2 ^ 31 /\ vectorization = lanes.
Proof. done. Qed.

Lemma bad_tid_spec cores tid :
  check_inv cores ->
  bad_tid tid cores = false <-> 0 <= tid < Z.of_nat (length cores).
Proof.
  intros [Hs _]. unfold bad_tid. rewrite wrap_s_id by (simpl; lia).
  destruct (_ || _) eqn:E; split; try done; lia.
Qed.

Lemma dev_core_inv cores tid t :
  check_inv cores -> dev_tile cores tid = Some t ->
  exists c, bad_tid tid cores = false /\ aread cores tid = Ok c /\ t = abs_core c /\
    tile_wf (abs_core c) /\ 0 <= tid < Z.of_nat (length cores).
Proof.
  intros Hc Ht. simpl in Ht. destruct (aread cores tid) as [c| | |] eqn:E; simplify_eq.
  exists c. destruct (aread_inv _ _ _ E) as [? Hl].
  assert (0 <= tid < Z.of_nat (length cores)) by (apply lookup_lt_Some in Hl; lia).
  split; [by apply bad_tid_spec|]. split; [done|]. split; [done|]. split; [|done].
  eapply (Forall_lookup_1 (fun c => tile_wf (abs_core c))); [apply Hc|exact Hl].
Qed.

Lemma write_core_upd cores tid c' :
  check_inv cores -> 0 <= tid < Z.of_nat (length cores) -> tile_wf (abs_core c') ->
  exists cores', awrite cores tid c' = Ok cores' /\ dev_upd cores tid (abs_core c') cores'.
Proof.
  intros [Hs Hf] Ht Hc. eexists. split; [by apply awrite_Ok|]. split.
  - split; [by rewrite length_insert|]. by apply Forall_insert.
  - intros i. simpl. case_decide as Hi.
    + subst. rewrite (aread_Ok _ tid c'); [done|lia|]. apply list_lookup_insert_eq. lia.
    + unfold aread. destruct (0 <=? i) eqn:E; [|done].
      rewrite list_lookup_insert_ne by lia. done.
Qed.

Lemma fill_all n l : Z.of_nat (length l) = n -> fill n l = Ok (replicate (Z.to_nat n) 0).
Proof.
  intros Hl. unfold fill. destruct (_ && _) eqn:E; [|lia].
  rewrite drop_ge by lia. by rewrite app_nil_r.
Qed.

(** * The checker implements the device interface *)

Lemma check_process s tid t :
  check_inv s -> dev_tile s tid = Some t ->
  exists s', aimcProcess tid s = Ok s' /\ dev_upd s tid (tile_process t) s'.
Proof.
  intros Hc Ht. destruct (dev_core_inv _ _ _ Hc Ht) as (c & Hb & Hr & -> & Hwf & Htid).
  pose proof Hwf as []; simpl in *. unfold aimcProcess. rewrite Hb, Hr. simpl.
  rewrite (map_loop crossbarWidth (outputMemory c) _ (fun x => clamp8 (dot (abs_core c) x)));
    [|done|].
  - simpl. rewrite fill_all by done. simpl. apply write_core_upd; [done..|].
    by apply (tile_process_wf (abs_core c)).
  - intros i Hi. pose proof (dot_loop (abs_core c) i Hwf Hi) as E. simpl in E. rewrite E. simpl.
    f_equal. unfold clamp8, clamp. rewrite wrap_s_id; [repeat split_if|lia|].
    change (2 ^ (8 - 1)) with 128. repeat split_if.
Qed.

Lemma check_queue s tid val t :
  check_inv s -> dev_tile s tid = Some t -> t_incnt t + lanes < 2 ^ 31 ->
  exists s', aimcQueue tid val s = Ok s' /\ dev_upd s tid (tile_queue val t) s'.
Proof.
  intros Hc Ht Hcnt. destruct (dev_core_inv _ _ _ Hc Ht) as (c & Hb & Hr & -> & Hwf & Htid).
  pose proof Hwf as []; simpl in *. unfold aimcQueue. rewrite Hb, Hr. simpl.
  destruct dims as (_ & _ & _ & ->). unfold lanes in *. rewrite int_ok_in by lia. simpl.
  assert ((if inputMemoryCounter c + 4 <? crossbarHeight
           then for_range 0 4 (fun i im => awrite im (inputMemoryCounter c + i) (byte_of val i))
                  (inputMemory c) else Ok (inputMemory c))
          = Ok (t_in (tile_queue val (abs_core c)))) as ->.
  { simpl. unfold lanes. destruct (_ <? _) eqn:E; [|done]. apply queue_loop; unfold lanes; lia. }
  apply write_core_upd; [done..|]. by apply (tile_queue_wf val (abs_core c)).
Qed.

Lemma check_dequeue s tid t :
  check_inv s -> dev_tile s tid = Some t -> t_outcnt t + lanes < 2 ^ 31 ->
  exists s', aimcDequeue tid s = Ok (s', (tile_dequeue t).2) /\ dev_upd s tid (tile_dequeue t).1 s'.
Proof.
  intros Hc Ht Hcnt. destruct (dev_core_inv _ _ _ Hc Ht) as (c & Hb & Hr & -> & Hwf & Htid).
  pose proof Hwf as []; simpl in *. unfold aimcDequeue. rewrite Hb, Hr. simpl.
  destruct dims as (_ & _ & _ & ->). unfold lanes in *. rewrite int_ok_in by lia. simpl.
  assert ((if outputMemoryCounter c + 4 <? crossbarWidth
           then for_range 0 4 (fun k result =>
                   b ← aread (outputMemory c) (outputMemoryCounter c + (4 - 1 - k));
                   Ok (u32 (Z.lor (u32 (Z.shiftl result 8)) (ubyte b)))) 0
           else Ok 0) = Ok (tile_dequeue (abs_core c)).2) as ->.
  { simpl. unfold lanes. destruct (_ <? _) eqn:E; [|done].
    by rewrite <- (dequeue_loop (outputMemoryCounter c)) by (unfold lanes; lia). }
  destruct (write_core_upd s tid {| crossbar := crossbar c; inputMemory := inputMemory c;
      outputMemory := outputMemory c; inputMemoryCounter := inputMemoryCounter c;
      outputMemoryCounter := outputMemoryCounter c + 4 |}) as (s' & Hw & Hu);
    [done|done|by apply (tile_dequeue_wf (abs_core c))|].
  simpl. rewrite Hw. simpl. exists s'. split; [done|]. exact Hu.
Qed.

Lemma check_param_read s tid x y t :
  check_inv s -> dev_tile s tid = Some t ->
  0 <= x < t_width t -> 0 <= y < t_height t ->
  aimcParamRead tid x y s = Ok (cell t (Z.to_nat y) (Z.to_nat x)).
Proof.
  intros Hc Ht Hx Hy. destruct (dev_core_inv _ _ _ Hc Ht) as (c & Hb & Hr & -> & [] & Htid).
  simpl in *. unfold aimcParamRead. rewrite Hb, Hr. simpl.
  rewrite int_ok_in by nia. simpl. rewrite int_ok_in by nia. simpl.
  destruct (_ && _) eqn:E; [|nia].
  destruct (aread_in_bounds (crossbar c) (y * crossbarWidth + x)) as (g & Hg & ->); [nia|].
  unfold cell; simpl.
  replace (_ * _ + _)%nat with (Z.to_nat (y * crossbarWidth + x)) by nia. by rewrite Hg.
Qed.

Lemma check_param_write s tid x y v t :
  check_inv s -> dev_tile s tid = Some t ->
  0 <= x < t_width t -> 0 <= y < t_height t -> -128 <= v <= 127 ->
  exists s', aimcParamWrite tid x y v s = Ok s' /\
    dev_upd s tid (tile_write (Z.to_nat y) (Z.to_nat x) v t) s'.
Proof.
  intros Hc Ht Hx Hy Hv. destruct (dev_core_inv _ _ _ Hc Ht) as (c & Hb & Hr & -> & Hwf & Htid).
  pose proof Hwf as []. simpl in *. unfold aimcParamWrite. rewrite Hb, Hr. simpl.
  rewrite int_ok_in by nia. simpl. rewrite int_ok_in by nia. simpl.
  destruct (_ && _) eqn:E; [|nia].
  rewrite awrite_Ok by nia. simpl.
  replace (Z.to_nat (y * crossbarWidth + x))
    with (Z.to_nat y * Z.to_nat crossbarWidth + Z.to_nat x)%nat by nia.
  apply write_core_upd; [done..|].
  by apply (tile_write_wf (Z.to_nat y) (Z.to_nat x) v (abs_core c)).
Qed.

#[export] Instance check_laws : AimcDeviceLaws AnalogComputationalMemory.
Proof.
  split; eauto using check_process, check_queue, check_dequeue, check_param_read,
    check_param_write.
  intros s tid t Hc Ht. by destruct (dev_core_inv _ _ _ Hc Ht) as (? & _ & _ & -> & ? & _).
Qed.

(** * Construction *)

Definition zero_core : AnalogComputationalMemoryCore :=
  {| crossbar := make_bytes (crossbarWidth * crossbarHeight);
     inputMemory := make_bytes crossbarHeight; outputMemory := make_bytes crossbarWidth;
     inputMemoryCounter := 0; outputMemoryCounter := 0 |}.

Lemma length_make_bytes n : 0 <= n -> Z.of_nat (length (make_bytes n)) = n.
Proof. intros. unfold make_bytes. rewrite length_replicate. lia. Qed.

Lemma new_core_ok : AnalogComputationalMemoryCore_new = Ok zero_core.
Proof.
  destruct dims as (? & ? & ? & _). unfold AnalogComputationalMemoryCore_new.
  rewrite !fill_all by (apply length_make_bytes; nia). done.
Qed.

Lemma zero_core_wf : tile_wf (abs_core zero_core).
Proof.
  destruct dims as (? & ? & ? & _).
  split; simpl; rewrite ?length_make_bytes by nia; try lia; by apply Forall_replicate.
Qed.

Lemma check_new_ok n :
  0 <= n < 2 ^ 31 ->
  AnalogComputationalMemory_new n = Ok (replicate (Z.to_nat n) zero_core) /\
  check_inv (replicate (Z.to_nat n) zero_core).
Proof.
  intros Hn. split.
  - unfold AnalogComputationalMemory_new. rewrite (proj2 (Z.leb_le _ _)) by lia.
    rewrite new_core_ok.
    destruct (for_range_ok (fun i cores => cores = replicate (Z.to_nat i) zero_core)
      (fun _ cores => core ← Ok zero_core; Ok (cores ++ [core])) 0 n []) as (l & -> & ->);
      [lia|done| |done].
    intros i ? Hi ->. eexists. split; [done|].
    replace (Z.to_nat (i + 1)) with (S (Z.to_nat i)) by lia. by rewrite replicate_S_end.
  - split; [rewrite length_replicate; lia|]. apply Forall_replicate, zero_core_wf.
Qed.

(** * Theorems *)

(** (bounds checks of the checker).  A thread id out of range makes every
    operation a no-op that returns 0; for any thread id and any parameter
    index whose computation does not overflow an [int], reading and writing a
    parameter is defined, an index outside the crossbar reads 0 and writes
    nothing, and every write keeps the checker well formed. *)
Theorem check_param_safe (s : AnalogComputationalMemory) tid x y v :
  check_inv s -> -128 <= v <= 127 ->
  - 2 ^ 31 <= y * crossbarWidth < 2 ^ 31 -> - 2 ^ 31 <= y * crossbarWidth + x < 2 ^ 31 ->
  (~ 0 <= tid < Z.of_nat (length s) ->
     aimcProcess tid s = Ok s /\ (forall val, aimcQueue tid val s = Ok s) /\
     aimcDequeue tid s = Ok (s, 0)) /\
  (exists r s', aimcParamRead tid x y s = Ok r /\ aimcParamWrite tid x y v s = Ok s' /\
     -128 <= r <= 127 /\ check_inv s' /\
     (0 <= tid < Z.of_nat (length s) -> 0 <= y * crossbarWidth + x < crossbarWidth * crossbarHeight ->
        aimcParamRead tid x y s' = Ok v) /\
     (~ (0 <= tid < Z.of_nat (length s) /\
         0 <= y * crossbarWidth + x < crossbarWidth * crossbarHeight) -> r = 0 /\ s' = s)).
Proof.
  intros Hc Hv Hyw Hidx. destruct (bad_tid tid s) eqn:Hb.
  { assert (~ 0 <= tid < Z.of_nat (length s)) as Hn
      by (intros H; apply bad_tid_spec in H; [congruence|done]).
    unfold aimcProcess, aimcQueue, aimcDequeue, aimcParamRead, aimcParamWrite. rewrite Hb.
    split; [done|]. exists 0, s. split_and!; done. }
  apply bad_tid_spec in Hb as Htid; [|done].
  destruct (aread_in_bounds s tid) as (c & Hl & Hr); [done|].
  pose proof (Forall_lookup_1 _ _ _ _ (ck_wf s Hc) Hl) as Hwf. simpl in Hwf. pose proof Hwf as [].
  simpl in *. split; [intros H; lia|].
  unfold aimcParamRead at 1, aimcParamWrite. rewrite Hb, Hr. simpl.
  rewrite (int_ok_in (y * crossbarWidth)) by done. simpl.
  rewrite (int_ok_in (y * crossbarWidth + x)) by done. simpl.
  destruct ((0 <=? y * crossbarWidth + x) && (y * crossbarWidth + x <? crossbarWidth * crossbarHeight)) eqn:E.
  - destruct (aread_in_bounds (crossbar c) (y * crossbarWidth + x)) as (g & Hg & ->); [lia|].
    rewrite awrite_Ok by lia. simpl.
    destruct (write_core_upd s tid {| crossbar := <[Z.to_nat (y * crossbarWidth + x):=v]> (crossbar c);
      inputMemory := inputMemory c; outputMemory := outputMemory c;
      inputMemoryCounter := inputMemoryCounter c; outputMemoryCounter := outputMemoryCounter c |})
      as (s' & Hw & Hi' & _); [done|done| |].
    { split; simpl; rewrite ?length_insert; try done. by apply int8_list_insert. }
    exists g, s'. split_and!; try done.
    + by apply (Forall_lookup_1 _ _ _ _ wf_cells8 Hg).
    + by apply (Forall_lookup_1 _ _ _ _ wf_cells8 Hg).
    + intros _ _. unfold aimcParamRead. rewrite awrite_Ok in Hw by done. injection Hw as <-.
      rewrite (proj2 (bad_tid_spec _ _ Hi')) by (by rewrite length_insert).
      erewrite aread_Ok; [|lia|apply list_lookup_insert_eq; lia]. simpl.
      rewrite (int_ok_in (y * crossbarWidth)) by done. simpl.
      rewrite (int_ok_in (y * crossbarWidth + x)) by done. simpl. rewrite E.
      apply aread_Ok; [lia|]. apply list_lookup_insert_eq. lia.
    + intros H. lia.
  - exists 0, s. split_and!; try done; intros; lia.
Qed.

Example check_param_safe_witness :
  exists r s', aimcParamRead 0 (-5) 0 (replicate 1 zero_core) = Ok r /\
    aimcParamWrite 0 (-5) 0 7 (replicate 1 zero_core) = Ok s' /\ r = 0 /\ s' = replicate 1 zero_core.
Proof.
  destruct (check_param_safe (replicate 1 zero_core) 0 (-5) 0 7) as [_ (r & s' & H1 & H2 & _ & _ & _ & H3)].
  - apply (check_new_ok 1). lia.
  - lia.
  - rewrite Z.mul_0_l. lia.
  - rewrite Z.mul_0_l. lia.
  - exists r, s'. split; [exact H1|]. split; [exact H2|]. apply H3. intros [_ H]. lia.
Defined.
