(* ===== verification/AimcLib.v ===== *)
(** AIMClib, the library programs use to drive the AIMC tiles: vector queueing
    (src/aimclib/aimc_queue.hh), dequeueing (aimc_dequeue.hh), matrix mapping
    (aimc_tile.hh) and the program of example.cc.  They are stated and proved over
    the operations the library calls ([AimcOps]), which aimc.hh takes from one of
    two headers: the wrappers of aimc_check.hh around any [AimcDevice], here, and
    the intrinsics of aimc_intrinsics.hh, in AimcInsn and AimcAgree. *)
From S2P Require Import Prelude AimcSpec AimcCluster.

(** * Element types of the scaling templates

    What the templates use of their element type [T]: the conversions may be
    undefined (a float out of the range of [int8_t]). *)
Class Scalar (T : Type) := {
  sc_is_zero : T -> bool;
  sc_div : T -> T -> res T;
  sc_mul : T -> T -> res T;
  sc_of_int : Z -> T;
  sc_to_int8 : T -> res Z;
}.

(** [T = int]: truncating division, undefined overflow. *)
#[export] Instance int_scalar : Scalar Z := {
  sc_is_zero a := a =? 0;
  sc_div a b := defined! negb (b =? 0) ;; int_ok (Z.quot a b);
  sc_mul a b := int_ok (a * b);
  sc_of_int a := a;
  sc_to_int8 a := Ok (s8 a);
}.

(** * The operations *)

(** What the library calls; [op_param_write] with the arguments [rm] (column),
    [rn] (row), [ra] (value), whose result the library does not use. *)
Class AimcOps (S : Type) := {
  op_process : Z -> S -> res S;
  op_queue : Z -> Z -> S -> res S;
  op_dequeue : Z -> S -> res (S * Z);
  op_param_write : Z -> Z -> Z -> Z -> S -> res S;
}.

(** What it relies on: each operation has the effect of that of the abstract
    tile of its thread, on the arguments the library passes. *)
Class AimcOpsLaws (S : Type) `{!AimcOps S, !AimcModel S} : Prop := {
  ops_wf : forall (s : S) tid t, dev_inv s -> dev_tile s tid = Some t -> tile_wf t;
  ops_process : forall (s : S) tid t, dev_inv s -> dev_tile s tid = Some t ->
    exists s', op_process tid s = Ok s' /\ dev_upd s tid (tile_process t) s';
  ops_queue : forall (s : S) tid val t, dev_inv s -> dev_tile s tid = Some t ->
    0 <= val < 2 ^ 32 -> t_incnt t + lanes < 2 ^ 31 ->
    exists s', op_queue val tid s = Ok s' /\ dev_upd s tid (tile_queue val t) s';
  ops_dequeue : forall (s : S) tid t, dev_inv s -> dev_tile s tid = Some t ->
    t_outcnt t + lanes < 2 ^ 31 ->
    exists s', op_dequeue tid s = Ok (s', (tile_dequeue t).2) /\ dev_upd s tid (tile_dequeue t).1 s';
  ops_param_write : forall (s : S) tid x y v t, dev_inv s -> dev_tile s tid = Some t ->
    0 <= x < t_width t -> 0 <= y < t_height t -> -128 <= v <= 127 ->
    exists s', op_param_write (u64 x) (u64 y) (u64 v) tid s = Ok s' /\
      dev_upd s tid (tile_write (Z.to_nat y) (Z.to_nat x) v t) s';
}.

(** ** The wrappers of the checker *)

Section Checker.
  Context {S : Type} `{!AimcDevice S}.

Definition aimcProcess (tid : Z) (s : S) : res S := dev_process tid s.
Definition aimcQueue (rm tid : Z) (s : S) : res S := dev_queue tid (u32 rm) s.
Definition aimcDequeue (tid : Z) (s : S) : res (S * Z) := dev_dequeue tid s.
Definition aimcParamRead (rm rn ra tid : Z) (s : S) : res Z :=
  v ← dev_param_read tid (s32 rm) (s32 rn) s; Ok (u64 v).
Definition aimcParamWrite (rm rn ra tid : Z) (s : S) : res S :=
  dev_param_write tid (s32 rm) (s32 rn) (s8 ra) s.

#[export] Instance checker_ops : AimcOps S := {
  op_process := aimcProcess; op_queue := aimcQueue; op_dequeue := aimcDequeue; op_param_write := aimcParamWrite }.
End Checker.

Section Lib.
  Context {S : Type} `{!AimcOps S}.

(** * Vector queueing

    The packing loop of both overloads, on the byte [elem i] of element [i]. *)
Definition flush_word (i tmp tid : Z) (s : S) : res (Z * S) :=
  if (i mod 4 =? 0) && (0 <? i) then s ← op_queue tmp tid s; Ok (0, s) else Ok (tmp, s).

Definition queue_packed (size : Z) (elem : Z -> res Z) (tid : Z) (s : S) : res S :=
  '(tmp, s) ← for_range 0 size (fun i '(tmp, s) =>
      '(tmp, s) ← flush_word i tmp tid s;
      b ← elem i;
      Ok (u32 (Z.lor tmp (u32 (Z.shiftl (Z.land (u8 b) 255) (8 * (i mod 4))))), s)) (0, s);
  op_queue tmp tid s.

(** A null pointer is [None]. *)
Definition queueVector (size : Z) (v : option (list Z)) (tid : Z) (s : S) : res S :=
  match v with
  | None => Ok s
  | Some v => if size <=? 0 then Ok s else queue_packed size (fun i => aread v i) tid s
  end.

(** With [LOOSELY_COUPLED_MMIO]: one byte per access, always on tile 0. *)
Definition queueVector_mmio (size : Z) (v : option (list Z)) (tid : Z) (s : S) : res S :=
  match v with
  | None => Ok s
  | Some v => if size <=? 0 then Ok s else
      for_range 0 size (fun i s => b ← aread v i; op_queue (u64 b) 0 s) s
  end.

(** [static_cast<int8_t>((a / max) * 127)] *)
Definition scaled_val {T} `{Scalar T} (max a : T) : res Z :=
  q ← sc_div a max; p ← sc_mul q (sc_of_int 127); sc_to_int8 p.

Definition queueVector_scaled {T} `{Scalar T} (size : Z) (max : T) (v : option (list T))
    (tid : Z) (s : S) : res S :=
  match v with
  | None => Ok s
  | Some v => if (size <=? 0) || sc_is_zero max then Ok s else
      queue_packed size (fun i => a ← aread v i; scaled_val max a) tid s
  end.

(** * Vector dequeueing

    The unpacking loop of both overloads; [conv] makes an element of
    [tmp & 0xff]. *)
Definition refill_word (i tmp tid : Z) (s : S) : res (Z * S) :=
  if i mod 4 =? 0 then '(s, w) ← op_dequeue tid s; Ok (w, s) else Ok (tmp, s).

Definition dequeue_packed {A} (size : Z) (conv : Z -> res A) (v : list A) (tid : Z) (s : S)
    : res (S * list A) :=
  '(tmp, v, s) ← for_range 0 size (fun i '(tmp, v, s) =>
      '(tmp, s) ← refill_word i tmp tid s;
      a ← conv (Z.land tmp 255);
      v ← awrite v i a;
      Ok (Z.shiftr tmp 8, v, s)) (0, v, s);
  Ok (s, v).

Definition dequeueVector (size : Z) (v : option (list Z)) (tid : Z) (s : S)
    : res (S * option (list Z)) :=
  match v with
  | None => Ok (s, None)
  | Some v => if size <=? 0 then Ok (s, Some v) else
      '(s, v) ← dequeue_packed size (fun b => Ok (s8 b)) v tid s; Ok (s, Some v)
  end.

(** [(static_cast<T>(tmp & 0xff) / 127) * max] *)
Definition unscaled_val {T} `{Scalar T} (max : T) (b : Z) : res T :=
  q ← sc_div (sc_of_int b) (sc_of_int 127); sc_mul q max.

Definition dequeueVector_scaled {T} `{Scalar T} (size : Z) (max : T) (v : option (list T))
    (tid : Z) (s : S) : res (S * option (list T)) :=
  match v with
  | None => Ok (s, None)
  | Some v => if (size <=? 0) || sc_is_zero max then Ok (s, Some v) else
      '(s, v) ← dequeue_packed size (unscaled_val max) v tid s; Ok (s, Some v)
  end.

(** * Matrix mapping

    The loops of the four overloads; [elem i j] is the value for column [i] and
    row [j], [None] for a null row pointer. *)
Definition map_cells (aimc_x aimc_y height width : Z) (elem : Z -> Z -> res (option Z)) (s : S)
    : res S :=
  for_range 0 width (fun i s =>
    for_range 0 height (fun j s =>
      b ← elem i j;
      match b with
      | None => Ok s
      | Some b => x ← int_ok (i + aimc_x); y ← int_ok (j + aimc_y);
                  op_param_write (u64 x) (u64 y) (u64 b) 0 s
      end) s) s.

Definition row_elem {T} (m : list (option (list T))) (f : T -> res Z) (i j : Z)
    : res (option Z) :=
  row ← aread m j;
  match row with None => Ok None | Some r => a ← aread r i; b ← f a; Ok (Some b) end.

(** [const int8_t* const* m] *)
Definition mapMatrix_rows (aimc_x aimc_y height width : Z)
    (m : option (list (option (list Z)))) (s : S) : res S :=
  match m with
  | None => Ok s
  | Some m => if (height <=? 0) || (width <=? 0) then Ok s else
      map_cells aimc_x aimc_y height width (row_elem m (fun a => Ok a)) s
  end.

(** [const T* const* m], scaled *)
Definition mapMatrix_rows_scaled {T} `{Scalar T} (aimc_x aimc_y height width : Z) (max : T)
    (m : option (list (option (list T)))) (s : S) : res S :=
  match m with
  | None => Ok s
  | Some m => if (height <=? 0) || (width <=? 0) || sc_is_zero max then Ok s else
      map_cells aimc_x aimc_y height width (row_elem m (scaled_val max)) s
  end.

Definition flat_elem {T} (width : Z) (m : list T) (f : T -> res Z) (i j : Z)
    : res (option Z) :=
  iw ← int_ok (i * width); idx ← int_ok (iw + j);
  a ← aread m idx; b ← f a; Ok (Some b).

(** [const int8_t* m] *)
Definition mapMatrix_flat (aimc_x aimc_y height width : Z) (m : option (list Z)) (s : S)
    : res S :=
  match m with
  | None => Ok s
  | Some m => if (height <=? 0) || (width <=? 0) then Ok s else
      map_cells aimc_x aimc_y height width (flat_elem width m (fun a => Ok a)) s
  end.

(** [const T* m], scaled *)
Definition mapMatrix_flat_scaled {T} `{Scalar T} (aimc_x aimc_y height width : Z) (max : T)
    (m : option (list T)) (s : S) : res S :=
  match m with
  | None => Ok s
  | Some m => if (height <=? 0) || (width <=? 0) || sc_is_zero max then Ok s else
      map_cells aimc_x aimc_y height width (flat_elem width m (scaled_val max)) s
  end.

(** * The example program

    One inference per input vector; [output] is the buffer each result is
    written to. *)
Fixpoint inferences (n_x : Z) (input : list (list Z)) (output : list Z) (s : S)
    : res (S * list (list Z)) :=
  match input with
  | [] => Ok (s, [])
  | v :: input =>
      s ← queueVector n_x (Some v) 0 s;
      s ← op_process 0 s;
      '(s, out) ← dequeueVector n_x (Some output) 0 s;
      '(s, outs) ← inferences n_x input output s;
      Ok (s, default [] out :: outs)
  end.

Definition example_main (n_x : Z) (W1 : list Z) (input : list (list Z)) (output : list Z)
    (s : S) : res (S * list (list Z)) :=
  s ← mapMatrix_flat 0 0 n_x n_x (Some W1) s;
  inferences n_x input output s.

End Lib.

#[local] Arguments Nat.mul : simpl never.
#[local] Arguments Z.mul : simpl never.
#[local] Arguments tile_dequeue : simpl never.

(** * Queueing words *)

Lemma le_word_snoc pre b :
  le_word (pre ++ [b]) = Z.lor (le_word pre) (Z.shiftl (ubyte b) (8 * Z.of_nat (length pre))).
Proof.
  induction pre as [|a pre IH].
  - simpl. by rewrite Z.shiftl_0_r.
  - rewrite <- app_comm_cons. cbn [le_word length]. rewrite IH.
    rewrite Z.shiftl_lor, Z.shiftl_shiftl by lia.
    replace (8 * Z.of_nat (length pre) + 8) with (8 * Z.of_nat (Datatypes.S (length pre))) by lia.
    rewrite <- !Z.lor_assoc. f_equal. apply Z.lor_comm.
Qed.

(** The words a vector is queued as. *)
Definition word_at (bs : list Z) (k : nat) : Z := le_word (take 4 (drop (4 * k) bs)).
Definition num_words (size : Z) : nat := Z.to_nat ((size + 3) / 4).
Definition vector_words (size : Z) (bs : list Z) : list Z := word_at bs <$> seq 0 (num_words size).

Lemma word_at_range bs k : 0 <= word_at bs k < 2 ^ 32.
Proof.
  unfold word_at. pose proof (le_word_range (take 4 (drop (4 * k) bs))) as H.
  assert (256 ^ Z.of_nat (length (take 4 (drop (4 * k) bs))) <= 256 ^ 4).
  { apply Z.pow_le_mono_r; [lia|]. rewrite length_take. lia. }
  change (256 ^ 4) with (2 ^ 32) in *. lia.
Qed.

(** Byte [r] of word [k] is element [4 * k + r], or 0 past the end. *)
Lemma byte_of_word_at bs k r :
  int8_list bs -> 0 <= r < 4 ->
  byte_of (word_at bs k) r = default 0 (bs !! (4 * k + Z.to_nat r)%nat).
Proof.
  intros Hb Hr. unfold word_at. rewrite <- lookup_drop.
  assert (int8_list (drop (4 * k) bs)) as Hd by by apply Forall_drop.
  revert Hd Hr. generalize (drop (4 * k) bs). clear. intros l Hl Hr.
  assert (forall (l : list Z) r, int8_list l -> 0 <= r ->
    byte_of (le_word l) r = default 0 (l !! Z.to_nat r)) as Hgen.
  { clear. induction l as [|b l IH]; intros r Hl Hr.
    - simpl. rewrite byte_of_spec by lia. by rewrite Z.div_0_l by (apply Z.pow_nonzero; lia).
    - apply Forall_cons in Hl as [Hb Hl]. destruct (decide (r = 0)) as [->|].
      + by apply byte_of_le_word_0.
      + replace r with (r - 1 + 1) by lia. rewrite byte_of_le_word_S by lia. rewrite IH by (done || lia).
        by replace (Z.to_nat (r - 1 + 1)) with (Datatypes.S (Z.to_nat (r - 1))) by lia. }
  rewrite Hgen; [|by apply Forall_take|lia].
  by rewrite lookup_take_lt by lia.
Qed.

Definition tile_queue_all (ws : list Z) (t : tile) : tile :=
  foldl (fun t w => tile_queue w t) t ws.

Lemma tile_queue_all_frame ws t :
  t_height (tile_queue_all ws t) = t_height t /\ t_width (tile_queue_all ws t) = t_width t /\
  t_cells (tile_queue_all ws t) = t_cells t /\ t_out (tile_queue_all ws t) = t_out t /\
  t_incnt (tile_queue_all ws t) = t_incnt t + 4 * Z.of_nat (length ws) /\
  t_outcnt (tile_queue_all ws t) = t_outcnt t.
Proof.
  unfold tile_queue_all. revert t. induction ws as [|w ws IH]; intros t; simpl.
  { split_and!; done || lia. }
  destruct (IH (tile_queue w t)) as (-> & -> & -> & -> & -> & ->). simpl. unfold lanes.
  split_and!; done || lia.
Qed.

Lemma tile_queue_all_snoc ws w t :
  tile_queue_all (ws ++ [w]) t = tile_queue w (tile_queue_all ws t).
Proof. unfold tile_queue_all. by rewrite foldl_app. Qed.

Lemma tile_queue_all_wf ws t : tile_wf t -> tile_wf (tile_queue_all ws t).
Proof.
  unfold tile_queue_all. revert t. induction ws; intros t Ht; [done|].
  simpl. by apply IHws, tile_queue_wf.
Qed.

(** An input after queueing: a byte of the word that covers it, when that word
    fits below the last input. *)
Lemma tile_queue_all_input ws t y :
  tile_wf t ->
  input (tile_queue_all ws t) y =
    let p := Z.of_nat y - t_incnt t in
    if decide (0 <= p /\ p / 4 < Z.of_nat (length ws) /\
               t_incnt t + 4 * (p / 4) + 4 < t_height t)
    then byte_of (default 0 (ws !! Z.to_nat (p / 4))) (p mod 4) else input t y.
Proof.
  revert t. unfold tile_queue_all. induction ws as [|w ws IH]; intros t Hwf; simpl.
  { rewrite decide_False; [done|]. intros (Hp & Hq & _).
    assert (0 <= (Z.of_nat y - t_incnt t) / 4) by (apply Z.div_pos; lia). lia. }
  rewrite IH by by apply tile_queue_wf. simpl. unfold lanes.
  set (p := Z.of_nat y - t_incnt t).
  replace (Z.of_nat y - (t_incnt t + 4)) with (p + (-1) * 4) by (unfold p; lia).
  rewrite Z.div_add, Z.mod_add by lia.
  destruct (decide (0 <= p)) as [Hp|Hp].
  2:{ rewrite !decide_False by lia. rewrite tile_queue_input by done.
      rewrite decide_False; [done|]. unfold lanes. lia. }
  destruct (decide (p < 4)) as [Hp4|Hp4].
  - rewrite decide_False by lia. rewrite (Z.div_small p 4), (Z.mod_small p 4) by lia.
    rewrite tile_queue_input by done. unfold lanes. fold p. simpl.
    destruct (decide (t_incnt t + 4 < t_height t)).
    + rewrite decide_True by lia. rewrite decide_True by lia. done.
    + rewrite !decide_False by lia. done.
  - assert (1 <= p / 4) by (apply Z.div_le_lower_bound; lia).
    replace (Z.to_nat (p / 4)) with (Datatypes.S (Z.to_nat (p / 4 + -1))) by lia. simpl.
    destruct (decide (p / 4 < Z.of_nat (Datatypes.S (length ws)) /\
      t_incnt t + 4 * (p / 4) + 4 < t_height t)) as [[Ha Hb]|Hn].
    + rewrite !decide_True by lia. done.
    + rewrite !decide_False by lia. rewrite tile_queue_input by done.
      unfold lanes. rewrite decide_False by lia. done.
Qed.

(** The conversions of the arguments of [aimcParamWrite] give them back. *)
Lemma s8_u64 v : -128 <= v <= 127 -> s8 (u64 v) = v.
Proof.
  intros Hv. unfold wrap_s, wrap_u. change (2 ^ 64) with (2 ^ 8 * 2 ^ 56).
  rewrite <- (Zplus_mod_idemp_l _ (2 ^ (8 - 1)) (2 ^ 8)).
  rewrite Z.rem_mul_r by lia. rewrite Z.mul_comm, Z.mod_add, Z.mod_mod by lia.
  rewrite Zplus_mod_idemp_l. change (2 ^ 8) with 256. change (2 ^ (8 - 1)) with 128.
  rewrite Z.mod_small; lia.
Qed.
Lemma s32_u64 x : 0 <= x < 2 ^ 31 -> s32 (u64 x) = x.
Proof.
  intros Hx. rewrite wrap_u_id by (change (2 ^ 64) with 18446744073709551616; lia).
  apply wrap_s_id; [lia|]. change (2 ^ (32 - 1)) with 2147483648. lia.
Qed.

(** The wrappers around a device that keeps its promises. *)
#[export] Instance checker_ops_laws {S} `{!AimcDevice S, !AimcModel S, !AimcDeviceLaws S} : AimcOpsLaws S.
Proof.
  split.
  - apply dev_wf.
  - apply law_process.
  - intros s tid val t Hi Ht Hv Hc. cbn [op_queue checker_ops]. unfold aimcQueue. rewrite wrap_u_id by done. by apply law_queue.
  - apply law_dequeue.
  - intros s tid x y v t Hi Ht Hx Hy Hv. cbn [op_param_write checker_ops]. unfold aimcParamWrite.
    assert (tile_wf t) as Hwf by by eapply dev_wf. pose proof Hwf as []. rewrite !s32_u64, s8_u64 by (done || nia).
    by apply law_param_write.
Qed.

Section LibSpec.
  Context {S : Type} `{!AimcOps S, !AimcModel S, !AimcOpsLaws S}.

Lemma dev_upd_refl (s : S) tid t : dev_inv s -> dev_tile s tid = Some t -> dev_upd s tid t s.
Proof. intros Hi Ht. split; [done|]. intros i. case_decide; [by subst|done]. Qed.

Lemma dev_upd_trans (s s1 s2 : S) tid t1 t2 :
  dev_upd s tid t1 s1 -> dev_upd s1 tid t2 s2 -> dev_upd s tid t2 s2.
Proof.
  intros [_ H1] [Hi H2]. split; [done|]. intros i. rewrite H2.
  case_decide; [done|]. rewrite H1. by case_decide.
Qed.

Lemma dev_upd_tile (s s1 : S) tid t1 : dev_upd s tid t1 s1 -> dev_tile s1 tid = Some t1.
Proof. intros [_ H]. rewrite H. by rewrite decide_True. Qed.

Lemma queue_step (s s1 : S) tid t1 w :
  dev_upd s tid t1 s1 -> 0 <= w < 2 ^ 32 -> t_incnt t1 + 4 < 2 ^ 31 ->
  exists s2, op_queue w tid s1 = Ok s2 /\ dev_upd s tid (tile_queue w t1) s2.
Proof.
  intros Hu Hw Hc.
  destruct (ops_queue s1 tid w t1) as (s2 & -> & Hu2); [apply Hu|by eapply dev_upd_tile|done|done|].
  exists s2. split; [done|]. by eapply dev_upd_trans.
Qed.

Lemma dequeue_step (s s1 : S) tid t1 :
  dev_upd s tid t1 s1 -> t_outcnt t1 + 4 < 2 ^ 31 ->
  exists s2, op_dequeue tid s1 = Ok (s2, (tile_dequeue t1).2) /\
    dev_upd s tid (tile_dequeue t1).1 s2.
Proof.
  intros Hu Hc.
  destruct (ops_dequeue s1 tid t1) as (s2 & -> & Hu2); [apply Hu|by eapply dev_upd_tile|done|].
  exists s2. split; [done|]. by eapply dev_upd_trans.
Qed.

(** The packing loop queues the words of the vector, in order. *)
Lemma queue_packed_spec (s : S) tid t size bs elem :
  0 < size -> Z.of_nat (length bs) = size -> int8_list bs ->
  (forall i b, 0 <= i < size -> bs !! Z.to_nat i = Some b -> elem i = Ok b) ->
  dev_inv s -> dev_tile s tid = Some t -> t_incnt t + 4 * ((size + 3) / 4) < 2 ^ 31 ->
  exists s', queue_packed size elem tid s = Ok s' /\
    dev_upd s tid (tile_queue_all (vector_words size bs) t) s'.
Proof.
  intros Hs Hlen Hb Helem Hi Ht Hcnt. unfold queue_packed.
  assert (forall k s', dev_upd s tid (tile_queue_all (word_at bs <$> seq 0 k) t) s' ->
    (Z.of_nat k < (size + 3) / 4) ->
    exists s2, op_queue (word_at bs k) tid s' = Ok s2 /\
      dev_upd s tid (tile_queue_all (word_at bs <$> seq 0 (Datatypes.S k)) t) s2) as Hstep.
  { intros k s' Hu Hk.
    destruct (queue_step s s' tid _ (word_at bs k) Hu) as (s2 & -> & Hu2);
      [apply word_at_range|destruct (tile_queue_all_frame (word_at bs <$> seq 0 k) t)
        as (_ & _ & _ & _ & -> & _); rewrite length_fmap, length_seq; lia|].
    exists s2. split; [done|]. rewrite seq_S, fmap_app.
    change (word_at bs <$> [(0 + k)%nat]) with [word_at bs k]. by rewrite tile_queue_all_snoc. }
  destruct (for_range_ok (fun i '(tmp, s') =>
      let k := Z.to_nat ((i - 1) / 4) in
      dev_upd s tid (tile_queue_all (word_at bs <$> seq 0 k) t) s' /\
      tmp = le_word (take (Z.to_nat i - 4 * k) (drop (4 * k) bs)))
    (fun i '(tmp, s) =>
      '(tmp, s) ← flush_word i tmp tid s;
      b ← elem i;
      Ok (u32 (Z.lor tmp (u32 (Z.shiftl (Z.land (u8 b) 255) (8 * (i mod 4))))), s)) 0 size (0, s))
    as ([tmp s'] & -> & Hu & ->); [lia| | |].
  - simpl. split; [by apply dev_upd_refl|done].
  - intros i [tmp s'] Hil [Hu ->].
    destruct (lookup_lt_is_Some_2 bs (Z.to_nat i)) as [b Hbi]; [lia|].
    pose proof (Z.div_mod i 4 ltac:(lia)) as Hdm. pose proof (Z.mod_pos_bound i 4 ltac:(lia)) as Hm.
    assert (0 <= i / 4) as Hq by (apply Z.div_pos; lia).
    assert (exists s2, flush_word i (le_word (take (Z.to_nat i - 4 * Z.to_nat ((i - 1) / 4))
               (drop (4 * Z.to_nat ((i - 1) / 4)) bs))) tid s' =
        Ok (le_word (take (Z.to_nat (i mod 4)) (drop (4 * Z.to_nat (i / 4)) bs)), s2) /\
        dev_upd s tid (tile_queue_all (word_at bs <$> seq 0 (Z.to_nat (i / 4))) t) s2)
      as (s2 & Heq & Hu2).
    { unfold flush_word. destruct ((i mod 4 =? 0) && (0 <? i)) eqn:E.
      - assert ((i - 1) / 4 = i / 4 - 1) as Ek
          by (symmetry; apply (Z.div_unique _ _ _ 3); lia).
        destruct (Hstep (Z.to_nat ((i - 1) / 4)) s' Hu) as (s2 & Hs2 & Hu2).
        { rewrite Ek. assert (i / 4 <= (size + 3) / 4) by (apply Z.div_le_mono; lia). lia. }
        unfold word_at in Hs2.
        replace (Z.to_nat i - 4 * Z.to_nat ((i - 1) / 4))%nat with 4%nat by lia.
        rewrite Hs2. simpl. exists s2.
        replace (Z.to_nat (i mod 4)) with O by lia.
        split; [done|]. by replace (Z.to_nat (i / 4)) with (Datatypes.S (Z.to_nat ((i - 1) / 4))) by lia.
      - exists s'. assert (Z.to_nat ((i - 1) / 4) = Z.to_nat (i / 4)) as Ek.
        { destruct (decide (i = 0)) as [->|]; [done|].
          f_equal. symmetry. apply (Z.div_unique _ _ _ (i mod 4 - 1)); lia. }
        rewrite Ek in *.
        by replace (Z.to_nat i - 4 * Z.to_nat (i / 4))%nat with (Z.to_nat (i mod 4)) by lia. }
    rewrite Heq. simpl.
    rewrite (Helem i b) by done. simpl. eexists. split; [done|]. simpl.
    replace (i + 1 - 1) with i by lia. split; [done|].
    set (pre := take (Z.to_nat (i mod 4)) (drop (4 * Z.to_nat (i / 4)) bs)).
    assert (length pre = Z.to_nat (i mod 4)) as Hpre.
    { unfold pre. rewrite length_take, length_drop. lia. }
    replace (Z.to_nat (i + 1) - 4 * Z.to_nat (i / 4))%nat
      with (Datatypes.S (Z.to_nat (i mod 4))) by lia.
    rewrite (take_S_r _ _ b) by (rewrite lookup_drop, <- Hbi; f_equal; lia).
    fold pre. rewrite le_word_snoc, Hpre, Z2Nat.id by lia.
    rewrite (Z.land_comm (u8 b)). change (Z.land 255 (u8 b)) with (ubyte b).
    pose proof (le_word_range (pre ++ [b])) as Hr.
    assert (256 ^ Z.of_nat (length (pre ++ [b])) <= 256 ^ 4).
    { apply Z.pow_le_mono_r; [lia|]. rewrite length_app. simpl. lia. }
    change (256 ^ 4) with (2 ^ 32) in *.
    rewrite le_word_snoc, Hpre, Z2Nat.id in Hr by lia.
    rewrite (wrap_u_id 32 (Z.shiftl _ _)); [by rewrite wrap_u_id by lia|].
    rewrite Z.shiftl_mul_pow2, ubyte_mod by lia. pose proof (Z.mod_pos_bound b 256 ltac:(lia)).
    pose proof (Z.pow_le_mono_r 2 (8 * (i mod 4)) 24 ltac:(lia) ltac:(lia)).
    pose proof (pow2_pos (8 * (i mod 4)) ltac:(lia)). change (2 ^ 24) with 16777216 in *.
    change (2 ^ 32) with 4294967296. nia.
  - simpl in *. destruct (Hstep (Z.to_nat ((size - 1) / 4)) s' Hu) as (s2 & Hs2 & Hu2).
    { assert (0 <= (size - 1) / 4) by (apply Z.div_pos; lia).
      replace (size + 3) with (size - 1 + 1 * 4) by lia. rewrite Z.div_add by lia. lia. }
    assert (0 <= (size - 1) / 4) by (apply Z.div_pos; lia).
    pose proof (Z.div_mod (size - 1) 4 ltac:(lia)). pose proof (Z.mod_pos_bound (size - 1) 4 ltac:(lia)).
    unfold word_at in Hs2. rewrite take_ge in Hs2 by (rewrite length_drop; lia).
    rewrite take_ge by (rewrite length_drop; lia). exists s2. split; [done|].
    unfold vector_words, num_words.
    replace (size + 3) with (size - 1 + 1 * 4) by lia. rewrite Z.div_add by lia.
    by replace (Z.to_nat ((size - 1) / 4 + 1)) with (Datatypes.S (Z.to_nat ((size - 1) / 4))) by lia.
Qed.

(** * Dequeueing words *)

Definition tile_deq (n : nat) (t : tile) : tile :=
  Tile (t_height t) (t_width t) (t_cells t) (t_in t) (t_out t) (t_incnt t)
    (t_outcnt t + 4 * Z.of_nat n).

(** The output byte a dequeued vector has at position [i]: an output of the
    tile, or 0 when the word it is in reaches the end of the outputs. *)
Definition out_byte (t : tile) (i : nat) : Z :=
  if t_outcnt t + 4 * (Z.of_nat i / 4) + 4 <? t_width t
  then default 0 (t_out t !! (Z.to_nat (t_outcnt t) + i)%nat) else 0.

Lemma out_byte_word t n r :
  tile_wf t -> 0 <= r < 4 ->
  Z.land (Z.shiftr (tile_dequeue (tile_deq n t)).2 (8 * r)) 255 =
    out_byte t (4 * n + Z.to_nat r) mod 256.
Proof.
  intros Hwf Hr. pose proof Hwf as []. unfold tile_dequeue, tile_deq, out_byte, lanes. simpl.
  replace (Z.of_nat (4 * n + Z.to_nat r) / 4) with (Z.of_nat n)
    by (apply (Z.div_unique _ _ _ r); lia).
  destruct (_ <? _) eqn:E; [|by rewrite Z.shiftr_0_l].
  set (w := take 4 _).
  assert (ubyte (byte_of (le_word w) r) = Z.land (Z.shiftr (le_word w) (8 * r)) 255) as <-.
  { rewrite ubyte_mod. unfold byte_of. change 255 with (Z.ones 8). rewrite Z.land_ones by lia.
    change (2 ^ 8) with 256. set (x := Z.shiftr _ _). change (x mod 256) with (u8 x).
    rewrite wrap_s_wrap_u by lia. unfold wrap_s, u8. change (2 ^ 8) with 256.
    change (2 ^ (8 - 1)) with 128.
    rewrite Zminus_mod_idemp_l. by replace (x + 128 - 128) with x by lia. }
  rewrite ubyte_mod. do 2 f_equal.
  assert (le_word w = word_at (drop (Z.to_nat (t_outcnt t + 4 * Z.of_nat n)) (t_out t)) 0) as ->
    by done.
  rewrite (byte_of_word_at _ 0 r) by (try (by apply Forall_drop); lia).
  rewrite lookup_drop. do 2 f_equal. lia.
Qed.

(** The unpacking loop writes the converted outputs, in order. *)
Lemma dequeue_packed_spec {A} (s : S) tid t size (conv : Z -> res A) v (g : nat -> A) :
  0 < size <= Z.of_nat (length v) ->
  (forall i, (Z.of_nat i < size) -> conv (out_byte t i mod 256) = Ok (g i)) ->
  dev_inv s -> dev_tile s tid = Some t -> t_outcnt t + 4 * ((size + 3) / 4) < 2 ^ 31 ->
  exists s', dequeue_packed size conv v tid s =
      Ok (s', (g <$> seq 0 (Z.to_nat size)) ++ drop (Z.to_nat size) v) /\
    dev_upd s tid (tile_deq (num_words size) t) s'.
Proof.
  intros Hs Hconv Hi Ht Hcnt. unfold dequeue_packed.
  assert (tile_wf t) as Hwf by by eapply ops_wf.
  destruct (for_range_ok (fun i '(tmp, v', s') =>
      dev_upd s tid (tile_deq (num_words i) t) s' /\
      (i mod 4 <> 0 -> tmp = Z.shiftr (tile_dequeue (tile_deq (Z.to_nat (i / 4)) t)).2 (8 * (i mod 4))) /\
      v' = (g <$> seq 0 (Z.to_nat i)) ++ drop (Z.to_nat i) v)
    (fun i '(tmp, v, s) =>
      '(tmp, s) ← refill_word i tmp tid s;
      a ← conv (Z.land tmp 255);
      v ← awrite v i a;
      Ok (Z.shiftr tmp 8, v, s)) 0 size (0, v, s))
    as ([[tmp v'] s'] & -> & Hu & _ & ->); [lia| | |].
  - split; [|done]. change (num_words 0) with O.
    replace (tile_deq 0 t) with t; [by apply dev_upd_refl|].
    unfold tile_deq. destruct t; simpl. f_equal. lia.
  - intros i [[tmp v'] s'] Hil (Hu & Htmp & ->).
    pose proof (Z.div_mod i 4 ltac:(lia)) as Hdm. pose proof (Z.mod_pos_bound i 4 ltac:(lia)) as Hm.
    assert (0 <= i / 4) as Hq by (apply Z.div_pos; lia).
    assert (num_words (i + 1) = Datatypes.S (Z.to_nat (i / 4))) as Hnw.
    { unfold num_words. replace (i + 1 + 3) with (i + 1 * 4) by lia. rewrite Z.div_add by lia. lia. }
    assert (exists s2, refill_word i tmp tid s' =
        Ok (Z.shiftr (tile_dequeue (tile_deq (Z.to_nat (i / 4)) t)).2 (8 * (i mod 4)), s2) /\
        dev_upd s tid (tile_deq (num_words (i + 1)) t) s2) as (s2 & -> & Hu2).
    { unfold refill_word. rewrite Hnw. destruct (i mod 4 =? 0) eqn:E.
      - assert (num_words i = Z.to_nat (i / 4)) as Hn.
        { unfold num_words. f_equal. symmetry. apply (Z.div_unique _ _ _ 3); lia. }
        rewrite Hn in Hu. destruct (dequeue_step s s' tid _ Hu) as (s2 & -> & Hu2).
        { simpl. assert (i / 4 + 1 <= (size + 3) / 4); [|lia].
          apply Z.div_le_lower_bound; lia. }
        simpl. exists s2. replace (i mod 4) with 0 by lia. rewrite Z.mul_0_r, Z.shiftr_0_r.
        split; [done|].
        replace (tile_deq (Datatypes.S (Z.to_nat (i / 4))) t)
          with (tile_dequeue (tile_deq (Z.to_nat (i / 4)) t)).1; [done|].
        unfold tile_deq, tile_dequeue, lanes; simpl. f_equal. lia.
      - exists s'. rewrite Htmp by lia. split; [done|].
        replace (Datatypes.S (Z.to_nat (i / 4))) with (num_words i); [done|].
        unfold num_words. replace ((i + 3) / 4) with (i / 4 + 1); [lia|].
        apply (Z.div_unique _ _ _ (i mod 4 - 1)); lia. }
    cbn [mbind res_bind]. rewrite out_byte_word by done.
    replace (4 * Z.to_nat (i / 4) + Z.to_nat (i mod 4))%nat with (Z.to_nat i) by lia.
    rewrite Hconv by lia. cbn [mbind res_bind].
    rewrite awrite_Ok by (rewrite length_app, length_fmap, length_seq, length_drop; lia).
    eexists. split; [done|]. split; [done|]. split.
    + intros Hn. rewrite Z.shiftr_shiftr by lia.
      assert (i mod 4 <> 3) as H3.
      { intros E. apply Hn. replace (i + 1) with (0 + (i / 4 + 1) * 4) by lia.
        by rewrite Z.mod_add by lia. }
      assert (i / 4 = (i + 1) / 4) as Ed by (apply (Z.div_unique _ _ _ (i mod 4 + 1)); lia).
      assert (i mod 4 + 1 = (i + 1) mod 4) as Em by (apply (Z.mod_unique _ _ (i / 4)); lia).
      rewrite <- Ed, <- Em. f_equal. lia.
    + destruct (lookup_lt_is_Some_2 v (Z.to_nat i)) as [a Ha]; [lia|].
      rewrite (drop_S v a) by done.
      rewrite insert_app_r_alt by (rewrite length_fmap, length_seq; lia).
      rewrite length_fmap, length_seq, Nat.sub_diag. simpl.
      replace (Z.to_nat (i + 1)) with (Datatypes.S (Z.to_nat i)) by lia.
      by rewrite seq_S, fmap_app, <- app_assoc.
  - simpl. eexists. split; [done|]. done.
Qed.

(** * Mapping a matrix *)

(** [t'] is [t] but for its cells, which [f] gives by row and column. *)
Definition remapped (t t' : tile) (f : nat -> nat -> Z) : Prop :=
  t_height t' = t_height t /\ t_width t' = t_width t /\ t_in t' = t_in t /\
  t_out t' = t_out t /\ t_incnt t' = t_incnt t /\ t_outcnt t' = t_outcnt t /\
  forall y x, Z.of_nat y < t_height t -> Z.of_nat x < t_width t -> cell t' y x = f y x.

(** [s'] is [s] with the cells of tile 0 replaced by [f]. *)
Definition map_upd (s : S) (t : tile) (f : nat -> nat -> Z) (s' : S) : Prop :=
  exists t', remapped t t' f /\ dev_upd s 0 t' s'.

(** The cells after the columns before [i], and [j] rows of column [i]. *)
Definition mapped_cell (ax ay h i j : Z) (g : Z -> Z -> Z) (t : tile) (y x : nat) : Z :=
  let cx := Z.of_nat x - ax in let cy := Z.of_nat y - ay in
  if decide (0 <= cx /\ 0 <= cy < h /\ (cx < i \/ (cx = i /\ cy < j))) then g cx cy else cell t y x.

Lemma map_upd_ext s t f f' s' :
  (forall y x, f y x = f' y x) -> map_upd s t f s' -> map_upd s t f' s'.
Proof.
  intros Hf (t' & (H1 & H2 & H3 & H4 & H5 & H6 & H7) & Hu). exists t'.
  split; [|done]. split_and!; try done. intros y x Hy Hx. by rewrite <- Hf, H7.
Qed.

Lemma map_write_step (s s1 : S) t ax ay h i j g :
  tile_wf t -> 0 <= i -> 0 <= j < h -> 0 <= i + ax < t_width t -> 0 <= j + ay < t_height t ->
  -128 <= g i j <= 127 -> 0 <= ax -> 0 <= ay ->
  map_upd s t (mapped_cell ax ay h i j g t) s1 ->
  exists s2, (x ← int_ok (i + ax); y ← int_ok (j + ay);
     op_param_write (u64 x) (u64 y) (u64 (g i j)) 0 s1) = Ok s2 /\
    map_upd s t (mapped_cell ax ay h i (j + 1) g t) s2.
Proof.
  intros Hwf Hi Hj Hx Hy Hg Hax Hay (t1 & (E1 & E2 & E3 & E4 & E5 & E6 & E7) & Hu).
  assert (tile_wf t1) as Hwf1 by (eapply ops_wf; [apply Hu|by eapply dev_upd_tile]).
  pose proof Hwf1 as []. assert (t_width t1 < 2 ^ 31 /\ t_height t1 < 2 ^ 31) as [Hw1 Hh1] by nia.
  rewrite !int_ok_in by lia. cbn [mbind res_bind].
  destruct (ops_param_write s1 0 (i + ax) (j + ay) (g i j) t1) as (s2 & -> & Hu2);
    [apply Hu|by eapply dev_upd_tile|lia|lia|done|].
  exists s2. split; [done|]. eexists. split; [|by eapply dev_upd_trans].
  split_and!; try done. intros y x Hy' Hx'.
  rewrite tile_write_cell by (done || lia). rewrite E7 by done. unfold mapped_cell. cbv zeta.
  destruct (decide (y = Z.to_nat (j + ay) /\ x = Z.to_nat (i + ax))) as [[-> ->]|Hne].
  - rewrite decide_True by lia. f_equal; lia.
  - case_decide; [by rewrite decide_True by lia|]. rewrite decide_False; [done|]. lia.
Qed.

(** One column of the loops of [mapMatrix]. *)
Lemma map_column_step (s s1 : S) t ax ay h i elem (g : Z -> Z -> Z) :
  tile_wf t -> 0 <= h -> 0 <= i -> 0 <= ax -> 0 <= ay ->
  ax + i < t_width t -> ay + h <= t_height t ->
  (forall j, 0 <= j < h -> elem i j = Ok (Some (g i j)) /\ -128 <= g i j <= 127) ->
  map_upd s t (mapped_cell ax ay h i 0 g t) s1 ->
  exists s2, for_range 0 h (fun j s => b ← elem i j;
        match b with
        | None => Ok s
        | Some b => x ← int_ok (i + ax); y ← int_ok (j + ay);
                    op_param_write (u64 x) (u64 y) (u64 b) 0 s
        end) s1 = Ok s2 /\ map_upd s t (mapped_cell ax ay h (i + 1) 0 g t) s2.
Proof.
  intros Hwf Hh Hi Hax Hay Hxw Hyh Helem Hu.
  destruct (for_range_ok (fun j s1 => map_upd s t (mapped_cell ax ay h i j g t) s1)
    (fun j s => b ← elem i j;
      match b with
      | None => Ok s
      | Some b => x ← int_ok (i + ax); y ← int_ok (j + ay);
                  op_param_write (u64 x) (u64 y) (u64 b) 0 s
      end) 0 h s1) as (s2 & -> & Hu2); [done|done| |].
  - intros j s2 Hj Hu2. destruct (Helem j) as [-> ?]; [done|]. cbn [mbind res_bind].
    by apply map_write_step; try lia.
  - exists s2. split; [done|]. eapply map_upd_ext; [|done]. intros y x.
    unfold mapped_cell. cbv zeta.
    case_decide; [by rewrite decide_True by lia|]. by rewrite decide_False by lia.
Qed.

Lemma map_upd_start (s : S) t ax ay h g :
  dev_inv s -> dev_tile s 0 = Some t -> map_upd s t (mapped_cell ax ay h 0 0 g t) s.
Proof.
  intros Hinv Ht. exists t. split; [|by apply dev_upd_refl]. split_and!; try done.
  intros y x _ _. unfold mapped_cell. cbv zeta. by rewrite decide_False by lia.
Qed.

(** The loops of [mapMatrix] write the element of column [i], row [j] to cell
    ([i + aimc_x], [j + aimc_y]) of tile 0, and nothing else. *)
Lemma map_cells_spec (s : S) t ax ay h w elem (g : Z -> Z -> Z) :
  dev_inv s -> dev_tile s 0 = Some t ->
  0 <= h -> 0 <= w -> 0 <= ax -> 0 <= ay -> ax + w <= t_width t -> ay + h <= t_height t ->
  (forall i j, 0 <= i < w -> 0 <= j < h -> elem i j = Ok (Some (g i j)) /\ -128 <= g i j <= 127) ->
  exists s', map_cells ax ay h w elem s = Ok s' /\
    map_upd s t (mapped_cell ax ay h w 0 g t) s'.
Proof.
  intros Hinv Ht Hh Hw Hax Hay Hxw Hyh Helem. unfold map_cells.
  assert (tile_wf t) as Hwf by by eapply ops_wf.
  apply (for_range_ok (fun i s1 => map_upd s t (mapped_cell ax ay h i 0 g t) s1)); [done| |].
  - by apply map_upd_start.
  - intros i s1 Hi Hu. apply map_column_step; try done; try lia. intros j Hj. by apply Helem.
Qed.

(** An element that cannot be read stops the loops. *)
Lemma map_cells_Ub (s : S) t ax ay h w elem (g : Z -> Z -> Z) k :
  dev_inv s -> dev_tile s 0 = Some t ->
  0 < h -> 0 <= k < w -> 0 <= ax -> 0 <= ay -> ax + w <= t_width t -> ay + h <= t_height t ->
  (forall i j, 0 <= i < k -> 0 <= j < h -> elem i j = Ok (Some (g i j)) /\ -128 <= g i j <= 127) ->
  elem k 0 = Ub ->
  map_cells ax ay h w elem s = Ub.
Proof.
  intros Hinv Ht Hh Hk Hax Hay Hxw Hyh Helem Hub. unfold map_cells.
  assert (tile_wf t) as Hwf by by eapply ops_wf.
  apply (for_range_Ub (fun i s1 => map_upd s t (mapped_cell ax ay h i 0 g t) s1) _ _ _ k);
    [by apply map_upd_start|done| |].
  - intros i s1 Hi Hu. apply map_column_step; try done; try lia. intros j Hj. by apply Helem.
  - intros s1 _. apply (for_range_Ub (fun _ _ => True) _ _ _ 0); [done|lia|lia|].
    intros s2 _. by rewrite Hub.
Qed.

(** * Inference *)

(** Tile 0 between inferences: no input queued, all inputs zero. *)
Definition idle (t : tile) : Prop :=
  t_in t = replicate (Z.to_nat (t_height t)) 0 /\ t_incnt t = 0.

(** A vector of [n] elements can be queued and dequeued in full. *)
Definition fits (n : Z) (t : tile) : Prop :=
  0 < n /\ 4 * ((n + 3) / 4) < t_height t /\ 4 * ((n + 3) / 4) < t_width t.

(** The saturated product of the vector with the first [n] columns. *)
Definition mvm (n : Z) (f : nat -> nat -> Z) (v : list Z) : list Z :=
  (fun x => clamp8 (sum_below (Z.to_nat n) (fun y => default 0 (v !! y) * f y x)))
    <$> seq 0 (Z.to_nat n).

Lemma queued_input t n v y :
  tile_wf t -> idle t -> fits n t -> Z.of_nat (length v) = n -> int8_list v ->
  input (tile_queue_all (vector_words n v) t) y = default 0 (v !! y).
Proof.
  intros Hwf [Hin Hc] (Hn & Hfh & _) Hlen Hv. pose proof Hwf as [].
  rewrite tile_queue_all_input by done. cbv zeta. rewrite Hc, Z.sub_0_r.
  assert (0 <= (n + 3) / 4) by (apply Z.div_pos; lia).
  pose proof (Z.div_mod (Z.of_nat y) 4 ltac:(lia)). pose proof (Z.mod_pos_bound (Z.of_nat y) 4 ltac:(lia)).
  assert (0 <= Z.of_nat y / 4) by (apply Z.div_pos; lia).
  assert (length (vector_words n v) = Z.to_nat ((n + 3) / 4)) as Hlw
    by (unfold vector_words; by rewrite length_fmap, length_seq).
  case_decide as Hd.
  - unfold vector_words, num_words. rewrite list_lookup_fmap, lookup_seq_lt by lia.
    simpl. rewrite byte_of_word_at by done. do 2 f_equal. lia.
  - unfold input. rewrite Hin.
    assert (n <= Z.of_nat y) as Hy.
    { destruct (decide (Z.of_nat y < n)); [|lia]. exfalso. apply Hd.
      assert (Z.of_nat y / 4 + 1 <= (n + 3) / 4); [|lia].
      apply Z.div_le_lower_bound; lia. }
    rewrite (proj2 (lookup_ge_None v y)) by lia.
    destruct (replicate _ 0 !! y) eqn:E; [|done].
    by apply lookup_replicate_1 in E as [-> _].
Qed.

(** One inference: queue, process, dequeue. *)
Lemma inference_ok (s : S) t n v output :
  dev_inv s -> dev_tile s 0 = Some t -> idle t -> fits n t ->
  Z.of_nat (length v) = n -> int8_list v -> Z.of_nat (length output) = n ->
  exists s1 s2 s3 t',
    queueVector n (Some v) 0 s = Ok s1 /\ op_process 0 s1 = Ok s2 /\
    dequeueVector n (Some output) 0 s2 = Ok (s3, Some (mvm n (cell t) v)) /\
    dev_upd s 0 t' s3 /\ idle t' /\ t_height t' = t_height t /\ t_width t' = t_width t /\
    t_cells t' = t_cells t.
Proof.
  intros Hi Ht Hidle Hfits Hlen Hv Hout. pose proof Hfits as (Hn & Hfh & Hfw).
  assert (tile_wf t) as Hwf by by eapply ops_wf. pose proof Hwf as []. pose proof Hidle as [Hin Hc].
  assert (n <= 4 * ((n + 3) / 4)).
  { pose proof (Z.div_mod (n + 3) 4 ltac:(lia)). pose proof (Z.mod_pos_bound (n + 3) 4 ltac:(lia)). lia. }
  set (t1 := tile_queue_all (vector_words n v) t).
  destruct (tile_queue_all_frame (vector_words n v) t) as (Eh & Ew & Ec & Eo & _ & _).
  fold t1 in Eh, Ew, Ec, Eo.
  destruct (queue_packed_spec s 0 t n v (fun i => aread v i)) as (s1 & Hq & Hu1); try done.
  { intros i b Hil Hb. apply aread_Ok; [lia|done]. }
  { nia. }
  assert (tile_wf t1) as Hwf1 by by apply tile_queue_all_wf.
  destruct (ops_process s1 0 t1) as (s2 & Hp & Hu2); [apply Hu1|by eapply dev_upd_tile|].
  set (t2 := tile_process t1). fold t2 in Hu2.
  assert (tile_wf t2) as Hwf2 by by apply tile_process_wf.
  destruct (dequeue_packed_spec s2 0 t2 n (fun b => Ok (s8 b)) output
    (fun x => clamp8 (sum_below (Z.to_nat n) (fun y => default 0 (v !! y) * cell t y x))))
    as (s3 & Hd & Hu3); [lia| |apply Hu2|by eapply dev_upd_tile|simpl; nia|].
  { intros x Hx. f_equal. unfold out_byte, t2. simpl. rewrite Ew.
    assert (Z.of_nat x / 4 + 1 <= (n + 3) / 4).
    { pose proof (Z.div_mod (Z.of_nat x) 4 ltac:(lia)).
      pose proof (Z.mod_pos_bound (Z.of_nat x) 4 ltac:(lia)). apply Z.div_le_lower_bound; lia. }
    rewrite (proj2 (Z.ltb_lt _ _)) by lia.
    rewrite list_lookup_fmap, lookup_seq_lt by lia. simpl.
    rewrite s8_mod by apply clamp8_range. f_equal. unfold dot. rewrite Eh.
    rewrite (sum_below_trailing (Z.to_nat n)).
    - apply sum_below_ext. intros y Hy. unfold t1. rewrite queued_input by done.
      f_equal. unfold cell. fold t1. by rewrite Ec, Ew.
    - lia.
    - intros y Hy. unfold t1. rewrite queued_input by done.
      by rewrite (proj2 (lookup_ge_None v y)) by lia. }
  exists s1, s2, s3, (tile_deq (num_words n) t2).
  unfold queueVector, dequeueVector. rewrite (proj2 (Z.leb_gt _ _)) by lia.
  split; [done|]. split; [done|]. split.
  { rewrite Hd. cbn [mbind res_bind]. rewrite drop_ge by lia. by rewrite app_nil_r. }
  split; [by eapply dev_upd_trans, Hu3; eapply dev_upd_trans|].
  unfold idle, t2. simpl. by rewrite Eh, Ew, Ec.
Qed.

Lemma inferences_ok (s : S) t n input output :
  dev_inv s -> dev_tile s 0 = Some t -> idle t -> fits n t ->
  Forall (fun v => Z.of_nat (length v) = n /\ int8_list v) input ->
  Z.of_nat (length output) = n ->
  exists s' t', inferences n input output s = Ok (s', mvm n (cell t) <$> input) /\
    dev_upd s 0 t' s' /\ idle t' /\ t_cells t' = t_cells t.
Proof.
  intros Hi Ht Hidle Hfits Hall Hout. revert s t Hi Ht Hidle Hfits.
  induction Hall as [|v rest [Hlen Hv] _ IH]; intros s t Hi Ht Hidle Hfits; cbn [inferences].
  { exists s, t. split; [done|]. split; [by apply dev_upd_refl|done]. }
  destruct (inference_ok s t n v output) as (s1 & s2 & s3 & t' & -> & Hp & Hd & Hu & Hidle' & Eh & Ew & Ec);
    [done..|].
  cbn [mbind res_bind]. rewrite Hp. cbn [mbind res_bind]. rewrite Hd. cbn [mbind res_bind].
  destruct (IH s3 t') as (s4 & t4 & -> & Hu4 & Hi4 & Ec4);
    [apply Hu|by eapply dev_upd_tile|done|unfold fits; by rewrite Eh, Ew|].
  simpl. exists s4, t4. split.
  - do 3 f_equal. apply list_fmap_ext. intros _ v' _. unfold mvm, cell. by rewrite Ew, Ec.
  - split; [by eapply dev_upd_trans|]. split; [done|congruence].
Qed.

(** The elements [mapMatrix] reads from a flattened matrix. *)
Lemma flat_elem_ok w (m : list Z) i j :
  0 <= w -> 0 <= i -> 0 <= j -> i * w + j < Z.of_nat (length m) -> Z.of_nat (length m) < 2 ^ 31 ->
  int8_list m ->
  flat_elem w m (fun a => Ok a) i j = Ok (Some (default 0 (m !! Z.to_nat (i * w + j)))) /\
  -128 <= default 0 (m !! Z.to_nat (i * w + j)) <= 127.
Proof.
  intros Hw Hi Hj Hlen Hmax Hm. unfold flat_elem. assert (0 <= i * w) by nia.
  rewrite int_ok_in by lia. cbn [mbind res_bind]. rewrite int_ok_in by lia. cbn [mbind res_bind].
  destruct (aread_in_bounds m (i * w + j)) as (a & Ha & ->); [lia|]. rewrite Ha. split; [done|].
  simpl. by apply (Forall_lookup_1 _ _ _ _ Hm Ha).
Qed.

(** The example program on any device. *)
Lemma example_main_ok (s : S) t n W1 input output :
  dev_inv s -> dev_tile s 0 = Some t -> idle t -> fits n t ->
  Z.of_nat (length W1) = n * n -> int8_list W1 ->
  Forall (fun v => Z.of_nat (length v) = n /\ int8_list v) input ->
  Z.of_nat (length output) = n ->
  exists s', example_main n W1 input output s =
    Ok (s', mvm n (fun y x => default 0 (W1 !! (x * Z.to_nat n + y)%nat)) <$> input).
Proof.
  intros Hi Ht Hidle Hfits HW HW8 Hin Hout. pose proof Hfits as (Hn & Hfh & Hfw).
  assert (tile_wf t) as Hwf by by eapply ops_wf. pose proof Hwf as [].
  pose proof (Z.div_mod (n + 3) 4 ltac:(lia)). pose proof (Z.mod_pos_bound (n + 3) 4 ltac:(lia)).
  assert (n * n < 2 ^ 31) by nia.
  unfold example_main, mapMatrix_flat. rewrite (proj2 (Z.leb_gt n 0)) by lia. simpl orb. cbv iota.
  destruct (map_cells_spec s t 0 0 n n (flat_elem n W1 (fun a => Ok a))
    (fun i j => default 0 (W1 !! Z.to_nat (i * n + j))))
    as (s1 & -> & t1 & (Eh & Ew & Ei & _ & Ec & _ & Ecell) & Hu); try done; try lia.
  { intros i j Hi' Hj'. apply flat_elem_ok; try done; try lia; nia. }
  cbn [mbind res_bind].
  destruct (inferences_ok s1 t1 n input output) as (s' & t' & -> & _);
    [apply Hu|by eapply dev_upd_tile|unfold idle; by rewrite Ei, Eh, Ec|unfold fits; by rewrite Eh, Ew|done..|].
  exists s'. do 2 f_equal. apply list_fmap_ext. intros _ v _. unfold mvm.
  apply list_fmap_ext. intros ? x [-> Hx]%lookup_seq. f_equal. apply sum_below_ext. intros y Hy. f_equal.
  rewrite Nat.add_0_l in *. rewrite Ecell by lia.
  unfold mapped_cell. cbv zeta. rewrite decide_True by lia. do 2 f_equal. nia.
Qed.

(** * Theorems *)

(** C2 (the example program computes the layer).  With any implementation of the
    operations that keeps the promises of the interface (as the checker's
    wrappers do around any device) and an idle tile 0 large enough for its vectors,
    the program of example.cc returns, and its result for every input vector [v]
    is the product of the row-major weight matrix with [v], saturated to [int8_t]. *)
Theorem example_main_mvm (s : S) t n W1 input output :
  dev_inv s -> dev_tile s 0 = Some t -> idle t -> fits n t ->
  Z.of_nat (length W1) = n * n -> int8_list W1 ->
  Forall (fun v => Z.of_nat (length v) = n /\ int8_list v) input ->
  Z.of_nat (length output) = n ->
  exists s', example_main n W1 input output s =
    Ok (s', mvm n (fun y x => default 0 (W1 !! (x * Z.to_nat n + y)%nat)) <$> input).
Proof. exact (example_main_ok s t n W1 input output). Qed.

(** (queueing a vector).  On an idle tile, queueing a vector of [n] bytes
    that is not longer than the tile writes element [y] to input [y] for every
    word of four that ends before the last input; the word that would fill the
    tile's last input is dropped. *)
Theorem queueVector_inputs (s : S) tid t n v :
  dev_inv s -> dev_tile s tid = Some t -> idle t ->
  0 < n <= t_height t -> t_height t + 3 < 2 ^ 31 -> Z.of_nat (length v) = n -> int8_list v ->
  exists s' t', queueVector n (Some v) tid s = Ok s' /\ dev_upd s tid t' s' /\
    t_incnt t' = 4 * ((n + 3) / 4) /\ t_cells t' = t_cells t /\
    forall y, (y < Z.to_nat n)%nat ->
      input t' y = if decide (4 * (Z.of_nat y / 4) + 4 < t_height t) then default 0 (v !! y) else 0.
Proof.
  intros Hi Ht [Hin Hc] Hn Hmax Hlen Hv. assert (tile_wf t) as Hwf by by eapply ops_wf.
  pose proof Hwf as [].
  pose proof (Z.div_mod (n + 3) 4 ltac:(lia)). pose proof (Z.mod_pos_bound (n + 3) 4 ltac:(lia)).
  destruct (queue_packed_spec s tid t n v (fun i => aread v i)) as (s1 & Hq & Hu1); try done; try lia.
  { intros i b Hil Hb. apply aread_Ok; [lia|done]. }
  exists s1, (tile_queue_all (vector_words n v) t). unfold queueVector.
  rewrite (proj2 (Z.leb_gt _ _)) by lia. split; [done|]. split; [done|].
  destruct (tile_queue_all_frame (vector_words n v) t) as (_ & _ & Ec & _ & Ecnt & _).
  assert (length (vector_words n v) = Z.to_nat ((n + 3) / 4)) as Hlw
    by (unfold vector_words; by rewrite length_fmap, length_seq).
  rewrite Ecnt, Hc, Hlw. split; [lia|]. split; [done|]. intros y Hy.
  rewrite tile_queue_all_input by done. cbv zeta. rewrite Hc, Z.sub_0_r.
  pose proof (Z.div_mod (Z.of_nat y) 4 ltac:(lia)). pose proof (Z.mod_pos_bound (Z.of_nat y) 4 ltac:(lia)).
  assert (Z.of_nat y / 4 + 1 <= (n + 3) / 4) by (apply Z.div_le_lower_bound; lia).
  assert (0 <= Z.of_nat y / 4) by (apply Z.div_pos; lia).
  case_decide as Hd.
  - rewrite decide_True by lia. unfold vector_words, num_words.
    rewrite list_lookup_fmap, lookup_seq_lt by lia. simpl.
    rewrite byte_of_word_at by done. do 2 f_equal. lia.
  - rewrite Hlw in Hd. rewrite decide_False by lia. unfold input. rewrite Hin.
    destruct (replicate _ 0 !! y) eqn:E; [|done]. by apply lookup_replicate_1 in E as [-> _].
Qed.

(** (layout of a flattened matrix).  The flattened overload of
    [mapMatrix] takes the element of column [i], row [j] from index
    [i * width + j]: with at most as many columns as rows that is what it
    writes; with more columns than rows it reads past the end of a matrix of
    [height * width] elements. *)
Theorem mapMatrix_flat_layout (s : S) t ax ay h w m :
  dev_inv s -> dev_tile s 0 = Some t ->
  0 < h -> 0 < w -> 0 <= ax -> 0 <= ay -> ax + w <= t_width t -> ay + h <= t_height t ->
  Z.of_nat (length m) = h * w -> int8_list m ->
  (w <= h -> exists s' t', mapMatrix_flat ax ay h w (Some m) s = Ok s' /\ dev_upd s 0 t' s' /\
     forall j i, Z.of_nat j < h -> Z.of_nat i < w ->
       cell t' (Z.to_nat ay + j) (Z.to_nat ax + i) = default 0 (m !! (i * Z.to_nat w + j)%nat)) /\
  (h < w -> mapMatrix_flat ax ay h w (Some m) s = Ub).
Proof.
  intros Hi Ht Hh Hw Hax Hay Hxw Hyh Hlen Hm.
  assert (tile_wf t) as Hwf by by eapply ops_wf. pose proof Hwf as [].
  assert (h * w < 2 ^ 31) by nia.
  unfold mapMatrix_flat. rewrite (proj2 (Z.leb_gt h 0)), (proj2 (Z.leb_gt w 0)) by lia.
  simpl orb. cbv iota. split.
  - intros Hwh. destruct (map_cells_spec s t ax ay h w (flat_elem w m (fun a => Ok a))
      (fun i j => default 0 (m !! Z.to_nat (i * w + j))))
      as (s1 & -> & t1 & (Eh & Ew & _ & _ & _ & _ & Ecell) & Hu); try done; try lia.
    { intros i j Hi' Hj'. apply flat_elem_ok; try done; try lia; nia. }
    exists s1, t1. split; [done|]. split; [done|]. intros j i Hj Hil.
    rewrite Ecell by lia. unfold mapped_cell. cbv zeta. rewrite decide_True by lia.
    do 2 f_equal. nia.
  - intros Hwh. apply (map_cells_Ub s t ax ay h w _
      (fun i j => default 0 (m !! Z.to_nat (i * w + j))) h); try done; try lia.
    + intros i j Hi' Hj'. apply flat_elem_ok; try done; try lia; nia.
    + unfold flat_elem. rewrite int_ok_in by nia. cbn [mbind res_bind].
      rewrite int_ok_in by nia. cbn [mbind res_bind]. by rewrite aread_out by lia.
Qed.

(** (layout of a matrix of row pointers).  The row-pointer overload of
    [mapMatrix] writes row [j], column [i] of the matrix to the tile's cell
    [aimc_y + j], [aimc_x + i] of tile 0, and changes no other cell and no
    other tile. *)
Theorem mapMatrix_rows_layout (s : S) t ax ay h w rows :
  dev_inv s -> dev_tile s 0 = Some t ->
  0 < h -> 0 < w -> 0 <= ax -> 0 <= ay -> ax + w <= t_width t -> ay + h <= t_height t ->
  Z.of_nat (length rows) = h -> Forall (fun r => Z.of_nat (length r) = w /\ int8_list r) rows ->
  exists s' t', mapMatrix_rows ax ay h w (Some (Some <$> rows)) s = Ok s' /\
    dev_upd s 0 t' s' /\
    forall y x, Z.of_nat y < t_height t -> Z.of_nat x < t_width t ->
      cell t' y x =
        if decide (ay <= Z.of_nat y < ay + h /\ ax <= Z.of_nat x < ax + w)
        then default 0 (default [] (rows !! Z.to_nat (Z.of_nat y - ay)) !! Z.to_nat (Z.of_nat x - ax))
        else cell t y x.
Proof.
  intros Hi Ht Hh Hw Hax Hay Hxw Hyh Hlen Hrows.
  unfold mapMatrix_rows. rewrite (proj2 (Z.leb_gt h 0)), (proj2 (Z.leb_gt w 0)) by lia.
  simpl orb. cbv iota.
  destruct (map_cells_spec s t ax ay h w (row_elem (Some <$> rows) (fun a => Ok a))
    (fun i j => default 0 (default [] (rows !! Z.to_nat j) !! Z.to_nat i)))
    as (s1 & -> & t1 & (Eh & Ew & _ & _ & _ & _ & Ecell) & Hu); try done; try lia.
  - intros i j Hi' Hj'. unfold row_elem.
    destruct (lookup_lt_is_Some_2 rows (Z.to_nat j)) as [r Hr]; [lia|].
    rewrite (aread_Ok _ j (Some r)) by (lia || by rewrite list_lookup_fmap, Hr).
    pose proof (Forall_lookup_1 _ _ _ _ Hrows Hr) as [Hlr Hr8]. cbn [mbind res_bind].
    destruct (aread_in_bounds r i) as (a & Ha & ->); [lia|]. cbn [mbind res_bind].
    rewrite Hr. simpl. rewrite Ha. split; [done|]. by apply (Forall_lookup_1 _ _ _ _ Hr8 Ha).
  - exists s1, t1. split; [done|]. split; [done|]. intros y x Hy Hx.
    rewrite Ecell by done. unfold mapped_cell. cbv zeta.
    case_decide; [by rewrite decide_True by lia|]. by rewrite decide_False by lia.
Qed.

(** (scaled dequeueing loses the sign).  With [T = int] the scaling
    overload of [dequeueVector] treats the dequeued bytes as unsigned: an
    output [b] comes back as [max] times the quotient of [b mod 256] by 127,
    so every negative output comes back with the sign of [max]. *)
Theorem dequeueVector_scaled_int (s : S) tid t n max output :
  dev_inv s -> dev_tile s tid = Some t -> t_outcnt t = 0 ->
  0 < n -> 4 * ((n + 3) / 4) < t_width t -> Z.of_nat (length output) = n ->
  max <> 0 -> Z.abs max < 2 ^ 30 ->
  exists s', dequeueVector_scaled n max (Some output) tid s =
    Ok (s', Some ((fun x => let b := default 0 (t_out t !! x) in
                   max * (if b <? -2 then 1 else if b <? 0 then 2 else if b =? 127 then 1 else 0))
             <$> seq 0 (Z.to_nat n))).
Proof.
  intros Hi Ht Hc Hn Hw Hlen Hmax Hmb. assert (tile_wf t) as Hwf by by eapply ops_wf.
  pose proof Hwf as [].
  pose proof (Z.div_mod (n + 3) 4 ltac:(lia)). pose proof (Z.mod_pos_bound (n + 3) 4 ltac:(lia)).
  destruct (dequeue_packed_spec s tid t n (unscaled_val max) output
    (fun x => let b := default 0 (t_out t !! x) in
       max * (if b <? -2 then 1 else if b <? 0 then 2 else if b =? 127 then 1 else 0)))
    as (s' & Hd & _); [lia| |done|done|nia|].
  - intros x Hx. unfold out_byte. rewrite Hc.
    assert (Z.of_nat x / 4 + 1 <= (n + 3) / 4).
    { pose proof (Z.div_mod (Z.of_nat x) 4 ltac:(lia)).
      pose proof (Z.mod_pos_bound (Z.of_nat x) 4 ltac:(lia)). apply Z.div_le_lower_bound; lia. }
    rewrite (proj2 (Z.ltb_lt _ _)) by lia. simpl Z.to_nat. rewrite Nat.add_0_l.
    destruct (lookup_lt_is_Some_2 (t_out t) x) as [b Hb]; [lia|]. rewrite Hb. cbv zeta. simpl default.
    pose proof (Forall_lookup_1 _ _ _ _ wf_out8 Hb) as Hb8. simpl in Hb8.
    unfold unscaled_val. simpl.
    assert (Z.quot (b mod 256) 127 =
      if b <? -2 then 1 else if b <? 0 then 2 else if b =? 127 then 1 else 0) as ->.
    { rewrite Z.quot_div_nonneg by (try apply Z.mod_pos_bound; lia).
      destruct (b <? 0) eqn:E0.
      - assert (b mod 256 = b + 256) as ->
          by (symmetry; apply (Z.mod_unique _ _ (-1)); lia).
        destruct (b <? -2) eqn:E2; symmetry;
          [apply (Z.div_unique _ _ _ (b + 129))|apply (Z.div_unique _ _ _ (b + 2))]; lia.
      - rewrite Z.mod_small by lia. rewrite (proj2 (Z.ltb_ge b (-2))) by lia.
        destruct (b =? 127) eqn:E7; [by replace b with 127 by lia|].
        symmetry; apply (Z.div_unique _ _ _ b); lia. }
    rewrite int_ok_in by (repeat split_if; split_and!; lia). cbn [mbind res_bind].
    rewrite Z.mul_comm. apply int_ok_in. repeat split_if; split_and!; lia.
  - exists s'. unfold dequeueVector_scaled. simpl sc_is_zero.
    rewrite (proj2 (Z.leb_gt n 0)) by lia. rewrite (proj2 (Z.eqb_neq max 0)) by done. simpl orb. cbv iota.
    rewrite Hd. cbn [mbind res_bind]. rewrite drop_ge by lia. by rewrite app_nil_r.
Qed.
End LibSpec.

(** * Instances on the gem5 device *)

(** A cluster of one idle tile of [h] x [w] zero weights. *)
Definition one_tile_cluster (h w : Z) : AIMCCluster :=
  {| cpus := [0]; tiles := [1%positive]; heap := {[ 1%positive := zero_tile h w ]};
     next := 2; attached := true |}.

Lemma one_tile_inv h w :
  0 < h -> 0 < w -> h * w < 2 ^ 31 ->
  dev_inv (one_tile_cluster h w) /\
  dev_tile (one_tile_cluster h w) 0 = Some (abs_tile (zero_tile h w)).
Proof.
  intros. split; [|done]. split; simpl.
  - apply NoDup_singleton.
  - intros p ->%list_elem_of_singleton. eexists. split; [by apply lookup_singleton_eq|].
    by apply fresh_tile_inv.
  - intros p. rewrite lookup_singleton. case_decide; [lia|by intros [? ?]].
Qed.

Example example_main_mvm_witness :
  exists s', example_main 2 [1; 2; -3; 4] [[5; 6]; [100; 100]] [0; 0] (one_tile_cluster 9 9) =
    Ok (s', [[17; 9]; [127; 100]]).
Proof.
  destruct (one_tile_inv 9 9) as [Hi Ht]; [lia..|].
  apply (example_main_mvm (one_tile_cluster 9 9) _ 2 [1; 2; -3; 4] [[5; 6]; [100; 100]] [0; 0] Hi Ht);
    [done|vm_compute; split_and!; reflexivity|done|repeat constructor; lia| |done].
  repeat constructor; simpl; lia.
Defined.

Example queueVector_inputs_witness :
  exists s' t', queueVector 5 (Some [1; 2; 3; 4; -5]) 0 (one_tile_cluster 9 9) = Ok s' /\
    dev_upd (one_tile_cluster 9 9) 0 t' s' /\ input t' 4 = -5.
Proof.
  destruct (one_tile_inv 9 9) as [Hi Ht]; [lia..|].
  destruct (queueVector_inputs (one_tile_cluster 9 9) 0 _ 5 [1; 2; 3; 4; -5] Hi Ht)
    as (s' & t' & H1 & H2 & _ & _ & H3);
    [done|simpl; lia|simpl; lia|done|repeat constructor; lia|].
  exists s', t'. split; [exact H1|]. split; [exact H2|]. rewrite (H3 4%nat) by (simpl; lia). done.
Defined.

Example mapMatrix_flat_layout_witness :
  mapMatrix_flat 0 0 1 2 (Some [1; 2]) (one_tile_cluster 9 9) = Ub /\
  exists s' t', mapMatrix_flat 0 0 2 2 (Some [1; 2; 3; 4]) (one_tile_cluster 9 9) = Ok s' /\
    dev_upd (one_tile_cluster 9 9) 0 t' s' /\ cell t' 0 1 = 3.
Proof.
  destruct (one_tile_inv 9 9) as [Hi Ht]; [lia..|]. split.
  - apply (mapMatrix_flat_layout (one_tile_cluster 9 9) _ 0 0 1 2 [1; 2] Hi Ht);
      simpl; (lia || (repeat constructor; lia)).
  - destruct (mapMatrix_flat_layout (one_tile_cluster 9 9) _ 0 0 2 2 [1; 2; 3; 4] Hi Ht) as [H _];
      [simpl; lia..|repeat constructor; lia|].
    destruct H as (s' & t' & H1 & H2 & H3); [lia|].
    exists s', t'. split; [exact H1|]. split; [exact H2|]. apply (H3 0%nat 1%nat); simpl; lia.
Defined.

Example mapMatrix_rows_layout_witness :
  exists s' t', mapMatrix_rows 1 2 2 3 (Some (Some <$> [[1; 2; 3]; [4; 5; 6]])) (one_tile_cluster 9 9) = Ok s' /\
    dev_upd (one_tile_cluster 9 9) 0 t' s' /\ cell t' 3 1 = 4.
Proof.
  destruct (one_tile_inv 9 9) as [Hi Ht]; [lia..|].
  destruct (mapMatrix_rows_layout (one_tile_cluster 9 9) _ 1 2 2 3 [[1; 2; 3]; [4; 5; 6]] Hi Ht)
    as (s' & t' & H1 & H2 & H3); [simpl; lia..|repeat constructor; simpl; lia|].
  exists s', t'. split; [exact H1|]. split; [exact H2|]. rewrite H3 by (simpl; lia). done.
Defined.

Example dequeueVector_scaled_int_witness :
  exists s', dequeueVector_scaled 2 10 (Some [7; 7]) 0 (one_tile_cluster 9 9) = Ok (s', Some [0; 0]).
Proof.
  destruct (one_tile_inv 9 9) as [Hi Ht]; [lia..|].
  apply (dequeueVector_scaled_int (one_tile_cluster 9 9) 0 _ 2 10 [7; 7] Hi Ht); first [done | vm_compute; reflexivity | simpl; lia].
Defined.
