(* ===== verification/AimcInsn.v ===== *)
(** The custom instructions: the intrinsics of src/aimclib/aimc_intrinsics.hh
    as the assembly they expand to, the decoder of
    src/arch/arm/isa/formats/aarch64.isa and the instructions of
    src/arch/arm/isa/insts/data64.isa, on any device. *)
From S2P Require Import Prelude Bitfield AimcSpec AimcCluster AimcLib.

(** * Definitions *)

(** The five classes of instruction objects, with the operands
    [_dest], [_op1], [_op2], [_op3] of [DataX3RegOp]. *)
Inductive cminst :=
| Cmprocess64 (dest op1 op2 op3 : Z)
| Cmqueue64 (dest op1 op2 op3 : Z)
| Cmdequeue64 (dest op1 op2 op3 : Z)
| Cmparamread64 (dest op1 op2 op3 : Z)
| Cmparamwrite64 (dest op1 op2 op3 : Z)
| Unknown64.

Definition decodeCusDataProcImm (machInst : Z) : cminst :=
  let rd := bits machInst 4 0 in
  let rn := bits machInst 9 5 in
  let rm := bits machInst 20 16 in
  let ra := bits machInst 14 10 in
  let opc := bits machInst 30 29 in
  let rwb := bits machInst 15 15 in
  if bits machInst 25 23 <=? 3 then
    if opc =? 0 then Cmprocess64 rd ra rn rm
    else if opc =? 1 then
      if rwb =? 0 then Cmdequeue64 rd ra rn rm else Cmqueue64 rd ra rn rm
    else if opc =? 2 then
      if rwb =? 0 then Cmparamwrite64 rd ra rn rm else Cmparamread64 rd ra rn rm
    else Unknown64
  else Unknown64.

(** The top of the decoder; [None]: the word belongs to another decoder. *)
Definition decode_block (machInst : Z) : option cminst :=
  if bit machInst 27 =? 0 then
    if bit machInst 28 =? 0 then Some (decodeCusDataProcImm machInst) else None
  else None.

(** [ArmStaticInst::intWidth] in AArch64 *)
Definition intWidth (machInst : Z) : Z :=
  if bits machInst 28 24 =? 0x10 then 64 else if bit machInst 31 =? 0 then 32 else 64.

Section Insn.
Context {S : Type} `{!AimcDevice S}.

(** The integer registers and the device behind [getAIMCCluster]. *)
Record machine := { xreg : Z -> Z; dev : S }.

Definition set_reg (d v : Z) (m : machine) : machine :=
  {| xreg := fun r => if r =? d then v else xreg m r; dev := dev m |}.
Definition set_dev (s : S) (m : machine) : machine := {| xreg := xreg m; dev := s |}.

(** [aarch64Read] and [aarch64Write] *)
Definition aarch64Read (w r : Z) (m : machine) : Z := Z.land (xreg m r) (mask w).
Definition aarch64Write (w d v : Z) (m : machine) : machine := set_reg d (Z.land v (mask w)) m.

(** The bodies of the instructions; [tid]: [xc->tcBase()->threadId()].  An
    unknown instruction faults in the simulated program. *)
Definition execute (w tid : Z) (i : cminst) (m : machine) : res machine :=
  match i with
  | Cmprocess64 dest op1 op2 op3 =>
      s ← dev_process tid (dev m); Ok (set_dev s m)
  | Cmqueue64 dest op1 op2 op3 =>
      let val := s32 (aarch64Read w op2 m) in
      s ← dev_queue tid (u32 val) (dev m); Ok (set_dev s m)
  | Cmdequeue64 dest op1 op2 op3 =>
      '(s, v) ← dev_dequeue tid (dev m); Ok (aarch64Write w dest v (set_dev s m))
  | Cmparamread64 dest op1 op2 op3 =>
      let x := s32 (aarch64Read w op2 m) in
      let y := s32 (aarch64Read w op1 m) in
      v ← dev_param_read tid x y (dev m); Ok (aarch64Write w dest (u64 v) m)
  | Cmparamwrite64 dest op1 op2 op3 =>
      let x := s32 (aarch64Read w op2 m) in
      let y := s32 (aarch64Read w op1 m) in
      let val := s32 (aarch64Read w op3 m) in
      s ← dev_param_write tid x y (s8 val) (dev m); Ok (set_dev s m)
  | Unknown64 => Panic
  end.

(** ** The intrinsics *)

Inductive asm := MOV (d s : Z) | LONG (machInst : Z).

Definition step (tid : Z) (a : asm) (m : machine) : res machine :=
  match a with
  | MOV d s => Ok (set_reg d (xreg m s) m)
  | LONG w => match decode_block w with Some i => execute (intWidth w) tid i m | None => Panic end
  end.
Definition run (tid : Z) (l : list asm) (m : machine) : res machine :=
  foldl (fun r a => m ← r; step tid a m) (Ok m) l.

(** Each intrinsic as the assembly it emits, with the registers the compiler
    chooses for the operands; the compiler puts the inputs there and takes the
    result from [output].  The argument [tid] of the intrinsics is not used. *)
Definition aimcProcess_asm : list asm := [LONG 0x01000000].
Definition aimcQueue_asm (input_j : Z) : list asm := [MOV 9 input_j; LONG 0x21088000].
Definition aimcDequeue_asm (output : Z) : list asm := [LONG 0x2100000A; MOV output 10].
Definition aimcParamRead_asm (input_j input_k output : Z) : list asm :=
  [MOV 9 input_j; MOV 7 input_k; LONG 0x4108812A; MOV output 10].
Definition aimcParamWrite_asm (input_i input_j input_k output : Z) : list asm :=
  [MOV 8 input_i; MOV 9 input_j; MOV 7 input_k; LONG 0x41081D2A; MOV output 10].

Definition aimcProcess_intrinsic (tid : Z) (m : machine) : res machine := run tid aimcProcess_asm m.
Definition aimcQueue_intrinsic (tid input_j rm : Z) (m : machine) : res machine :=
  run tid (aimcQueue_asm input_j) (set_reg input_j rm m).
Definition aimcDequeue_intrinsic (tid output : Z) (m : machine) : res (machine * Z) :=
  m ← run tid (aimcDequeue_asm output) m; Ok (m, xreg m output).
Definition aimcParamRead_intrinsic (tid input_j input_k output rm rn : Z) (m : machine)
  : res (machine * Z) :=
  m ← run tid (aimcParamRead_asm input_j input_k output) (set_reg input_k rn (set_reg input_j rm m));
  Ok (m, xreg m output).
Definition aimcParamWrite_intrinsic (tid input_i input_j input_k output rm rn ra : Z) (m : machine)
  : res (machine * Z) :=
  m ← run tid (aimcParamWrite_asm input_i input_j input_k output)
        (set_reg input_k rn (set_reg input_j rm (set_reg input_i ra m)));
  Ok (m, xreg m output).
End Insn.
Arguments machine : clear implicits.

(** * The instruction format *)

(** The layout the comments of aimc_intrinsics.hh draw:
    [Opcode 31:21 | rm 20:16 | X 15 | ra 14:10 | rn 9:5 | rd 4:0]. *)
Definition word (opcode rm x ra rn rd : Z) : Z :=
  opcode * 2 ^ 21 + rm * 2 ^ 16 + x * 2 ^ 15 + ra * 2 ^ 10 + rn * 2 ^ 5 + rd.

(** The encoding of an instruction; [_dest, _op1, _op2, _op3] are [rd, ra, rn, rm]. *)
Definition encode (i : cminst) : Z :=
  match i with
  | Cmprocess64 rd ra rn rm => word 0x008 rm 0 ra rn rd
  | Cmqueue64 rd ra rn rm => word 0x108 rm 1 ra rn rd
  | Cmdequeue64 rd ra rn rm => word 0x108 rm 0 ra rn rd
  | Cmparamread64 rd ra rn rm => word 0x208 rm 1 ra rn rd
  | Cmparamwrite64 rd ra rn rm => word 0x208 rm 0 ra rn rd
  | Unknown64 => 0
  end.

Definition reg_ok (r : Z) : Prop := 0 <= r < 32.
Definition cminst_ok (i : cminst) : Prop :=
  match i with
  | Cmprocess64 a b c d | Cmqueue64 a b c d | Cmdequeue64 a b c d
  | Cmparamread64 a b c d | Cmparamwrite64 a b c d => reg_ok a /\ reg_ok b /\ reg_ok c /\ reg_ok d
  | Unknown64 => False
  end.

(** The fields of a word. *)
Lemma word_fields opcode rm x ra rn rd w :
  w = word opcode rm x ra rn rd ->
  0 <= opcode < 2 ^ 11 -> reg_ok rm -> 0 <= x < 2 -> reg_ok ra -> reg_ok rn -> reg_ok rd ->
  bits w 4 0 = rd /\ bits w 9 5 = rn /\ bits w 14 10 = ra /\ bits w 15 15 = x /\ bits w 20 16 = rm /\
  forall first last, 21 <= last -> last <= first + 1 <= last + 64 ->
    bits w first last = bits opcode (first - 21) (last - 21).
Proof.
  unfold reg_ok. intros -> Ho Hm Hx Ha Hn Hd.
  split_and!; [rewrite bits_div by lia; unfold word;
    cbn -[Z.mul Z.div Z.modulo Z.add]; Z.to_euclidean_division_equations; lia..|].
  intros first last H1 H2. rewrite !bits_div by lia.
  replace (first - 21 - (last - 21) + 1) with (first - last + 1) by lia. f_equal.
  replace last with (21 + (last - 21)) at 1 by lia. rewrite Z.pow_add_r by lia.
  rewrite <- Z.div_div by (try apply Z.pow_pos_nonneg; lia). f_equal. unfold word. Z.to_euclidean_division_equations. lia.
Qed.

Lemma decode_word opcode rm x ra rn rd :
  0 <= opcode < 2 ^ 11 -> reg_ok rm -> 0 <= x < 2 -> reg_ok ra -> reg_ok rn -> reg_ok rd ->
  bits opcode 6 6 = 0 -> bits opcode 7 7 = 0 -> bits opcode 4 2 <= 3 ->
  decode_block (word opcode rm x ra rn rd) =
    Some (let opc := bits opcode 9 8 in
          if opc =? 0 then Cmprocess64 rd ra rn rm
          else if opc =? 1 then if x =? 0 then Cmdequeue64 rd ra rn rm else Cmqueue64 rd ra rn rm
          else if opc =? 2 then if x =? 0 then Cmparamwrite64 rd ra rn rm else Cmparamread64 rd ra rn rm
          else Unknown64).
Proof.
  intros Ho Hm Hx Ha Hn Hd H27 H28 H25.
  destruct (word_fields opcode rm x ra rn rd _ eq_refl) as (E1 & E2 & E3 & E4 & E5 & Hhi); [done..|].
  unfold decode_block, bit. rewrite !Hhi by lia. cbn [Z.sub Z.pos_sub Z.add Z.opp Pos.pred_double Z.succ_double Z.double Z.pred_double].
  change (27 - 21) with 6. change (28 - 21) with 7. rewrite H27, H28. cbn [Z.eqb].
  unfold decodeCusDataProcImm. rewrite E1, E2, E3, E4, E5, !Hhi by lia.
  change (25 - 21) with 4. change (23 - 21) with 2. change (30 - 21) with 9. change (29 - 21) with 8.
  by rewrite (proj2 (Z.leb_le _ _)) by done.
Qed.

(** ** Operand reads *)

Lemma land_mask32 v : Z.land v (mask 32) = u32 v.
Proof. change (mask 32) with (Z.ones 32). by rewrite Z.land_ones by lia. Qed.

Lemma s32_read v : s32 (Z.land v (mask 32)) = s32 v.
Proof. rewrite land_mask32. apply wrap_s_wrap_u. lia. Qed.

Lemma u32_s32 v : u32 (s32 v) = u32 v.
Proof.
  unfold wrap_u, wrap_s. rewrite Zminus_mod_idemp_l. f_equal. lia.
Qed.

Lemma s8_s32 v : s8 (s32 v) = s8 v.
Proof.
  rewrite <- (wrap_s_wrap_u 8 v), <- (wrap_s_wrap_u 8 (s32 v)) by lia. f_equal.
  unfold wrap_u, wrap_s. change (2 ^ 32) with (2 ^ 8 * 2 ^ 24). change (2 ^ (32 - 1)) with (2 ^ 8 * 2 ^ 23).
  Z.to_euclidean_division_equations. lia.
Qed.

Lemma u32_u64 v : u32 (u64 v) = u32 v.
Proof. unfold wrap_u. change (2 ^ 64) with (2 ^ 32 * 2 ^ 32). Z.to_euclidean_division_equations. lia. Qed.

(** The words the intrinsics emit. *)
Lemma intrinsic_words :
  decode_block 0x01000000 = Some (Cmprocess64 0 0 0 0) /\ intWidth 0x01000000 = 32 /\
  decode_block 0x21088000 = Some (Cmqueue64 0 0 0 8) /\ intWidth 0x21088000 = 32 /\
  decode_block 0x2100000A = Some (Cmdequeue64 10 0 0 0) /\ intWidth 0x2100000A = 32 /\
  decode_block 0x4108812A = Some (Cmparamread64 10 0 9 8) /\ intWidth 0x4108812A = 32 /\
  decode_block 0x41081D2A = Some (Cmparamwrite64 10 7 9 8) /\ intWidth 0x41081D2A = 32.
Proof. by vm_compute. Qed.

Section Facts.
Context {S : Type} `{!AimcDevice S}.
Implicit Types m : machine S.

Lemma xreg_set d v m r : xreg (set_reg d v m) r = if r =? d then v else xreg m r.
Proof. done. Qed.

(** A register the compiler may choose for an operand of an intrinsic: none
    of the clobbered ones. *)
Definition free_reg (r : Z) : Prop := r <> 7 /\ r <> 8 /\ r <> 9 /\ r <> 10.
End Facts.

Ltac read_regs :=
  rewrite ?xreg_set; repeat match goal with
  | |- context [?a =? ?b] => 
      first [rewrite (proj2 (Z.eqb_neq a b)) by lia|rewrite (proj2 (Z.eqb_eq a b)) by lia]
  end; try congruence.
Ltac run_intrinsic :=
  destruct intrinsic_words as (Ep & Wp & Eq & Wq & Ed & Wd & Er & Wr & Ew & Ww);
  cbn [run foldl mbind res_bind step]; rewrite ?Ep, ?Wp, ?Eq, ?Wq, ?Ed, ?Wd, ?Er, ?Wr, ?Ew, ?Ww;
  cbn [execute]; unfold aarch64Read; rewrite ?s32_read.

(** ** What each intrinsic does to the device *)

Section Runs.
Context {S : Type} `{!AimcDevice S}.
Implicit Types m : machine S.

Lemma process_run m tid : (m' ← aimcProcess_intrinsic tid m; Ok (dev m')) = AimcLib.aimcProcess tid (dev m).
Proof.
  unfold aimcProcess_intrinsic, aimcProcess_asm, AimcLib.aimcProcess. run_intrinsic.
  by destruct (dev_process tid (dev m)).
Qed.
Lemma dequeue_run m tid o : ('(m', v) ← aimcDequeue_intrinsic tid o m; Ok (dev m', v)) =
  ('(s, v) ← AimcLib.aimcDequeue tid (dev m); Ok (s, u32 v)).
Proof.
  unfold aimcDequeue_intrinsic, aimcDequeue_asm, AimcLib.aimcDequeue. run_intrinsic.
  destruct (dev_dequeue tid (dev m)) as [[s v]| | |]; try done. cbn [mbind res_bind].
  unfold aarch64Write. rewrite !xreg_set, !Z.eqb_refl, land_mask32. done.
Qed.
Lemma write_run m tid i j k o rm rn ra : i <> j -> i <> k -> j <> k -> free_reg i -> free_reg j -> free_reg k ->
  ('(m', v) ← aimcParamWrite_intrinsic tid i j k o rm rn ra m; Ok (dev m', v)) =
    (s ← AimcLib.aimcParamWrite rm rn ra tid (dev m); Ok (s, xreg m 10)).
Proof.
  intros Hij Hik Hjk (Hi1 & Hi2 & Hi3 & Hi4) (Hj1 & Hj2 & Hj3 & Hj4) (Hk1 & Hk2 & Hk3 & Hk4).
  unfold aimcParamWrite_intrinsic, aimcParamWrite_asm, AimcLib.aimcParamWrite. run_intrinsic.
  match goal with |- context [dev_param_write tid (s32 ?x) (s32 ?y) (s8 (s32 ?v)) _] =>
    assert (x = rm) as -> by read_regs; assert (y = rn) as -> by read_regs; assert (v = ra) as -> by read_regs end.
  rewrite s8_s32. cbn [dev set_reg]. destruct (dev_param_write _ _ _ _ _); try done. cbn [mbind res_bind].
  do 2 f_equal. rewrite xreg_set, !Z.eqb_refl. cbn [set_dev xreg]. by read_regs.
Qed.
Lemma queue_run m tid j rm : free_reg j ->
  (m' ← aimcQueue_intrinsic tid j rm m; Ok (dev m')) = AimcLib.aimcQueue (if j =? 0 then rm else xreg m 0) tid (dev m).
Proof.
  intros (Hj1 & Hj2 & Hj3 & Hj4). unfold aimcQueue_intrinsic, aimcQueue_asm, AimcLib.aimcQueue. run_intrinsic. rewrite u32_s32.
  match goal with |- context [dev_queue tid (u32 ?x) _ ≫= _] =>
    assert (x = if j =? 0 then rm else xreg m 0) as -> by (destruct (Z.eqb_spec j 0); read_regs) end.
  cbn [dev set_reg]. by destruct (dev_queue _ _ _).
Qed.
End Runs.

(** * Theorems *)

(** C22 (encoding and decoding).  The decoder is the inverse of the
    instruction format: every one of the five instructions with any operand
    registers is encoded in a 32-bit word that decodes to it, with [rd] as the
    destination and [ra], [rn], [rm] as the first, second and third operand. *)
Theorem insn_roundtrip i :
  cminst_ok i -> 0 <= encode i < 2 ^ 32 /\ decode_block (encode i) = Some i.
Proof.
  intros Hi. destruct i; cbn [cminst_ok] in Hi; try done; destruct Hi as (Ha & Hb & Hc & Hd); cbn [encode];
    (split; [unfold reg_ok in *; unfold word; lia|]); rewrite decode_word by (done || lia); done.
Qed.

Example insn_roundtrip_witness : decode_block (encode (Cmparamwrite64 10 7 9 8)) = Some (Cmparamwrite64 10 7 9 8).
Proof. apply insn_roundtrip. repeat split; lia. Defined.

(** C23 (the intrinsics that work).  Whatever registers the compiler chooses,
    running the assembly of [aimcProcess], [aimcDequeue] and [aimcParamWrite]
    on the instruction set has on the device the effect, errors included, of the
    functions of the same name in the checker build, on the tile of the hardware
    thread.  A dequeued word is returned in full; the result of
    [aimcParamWrite], documented as a success code, is what register X10 held. *)
Theorem intrinsics_implement {S} `{!AimcDevice S} (m : machine S) tid i j k o rm rn ra :
  i <> j -> i <> k -> j <> k -> free_reg i -> free_reg j -> free_reg k -> free_reg o ->
  (m' ← aimcProcess_intrinsic tid m; Ok (dev m')) = AimcLib.aimcProcess tid (dev m) /\
  ('(m', v) ← aimcDequeue_intrinsic tid o m; Ok (dev m', v)) =
    ('(s, v) ← AimcLib.aimcDequeue tid (dev m); Ok (s, u32 v)) /\
  ('(m', v) ← aimcParamWrite_intrinsic tid i j k o rm rn ra m; Ok (dev m', v)) =
    (s ← AimcLib.aimcParamWrite rm rn ra tid (dev m); Ok (s, xreg m 10)).
Proof. intros. split_and!; [apply process_run|apply dequeue_run|by apply write_run]. Qed.

Example intrinsics_implement_witness :
  (m' ← aimcProcess_intrinsic 0 {| xreg := fun r => r; dev := one_tile_cluster 9 9 |}; Ok (dev m')) =
  AimcLib.aimcProcess 0 (one_tile_cluster 9 9).
Proof.
  refine (proj1 (intrinsics_implement {| xreg := fun r => r; dev := one_tile_cluster 9 9 |} 0 1 2 3 4 5 6 7 _ _ _ _ _ _ _));
    unfold free_reg; lia.
Defined.

(** (the intrinsics that read a stray register).  The words of [aimcQueue]
    and [aimcParamRead] name operand registers their assembly does not load.  The
    value [aimcQueue] sends to the tile is that of register X0, not its argument
    (unless the compiler chose X0 for the argument); [aimcParamRead] takes the column from its
    argument, but the row from X0.  A parameter comes back as 32 bits. *)
Theorem intrinsics_stray_operand {S} `{!AimcDevice S} (m : machine S) tid j k o rm rn ra :
  j <> k -> free_reg j -> free_reg k -> free_reg o ->
  (m' ← aimcQueue_intrinsic tid j rm m; Ok (dev m')) =
    AimcLib.aimcQueue (if j =? 0 then rm else xreg m 0) tid (dev m) /\
  ('(m', v) ← aimcParamRead_intrinsic tid j k o rm rn m; Ok (dev m', v)) =
    (v ← AimcLib.aimcParamRead rm (if k =? 0 then rn else if j =? 0 then rm else xreg m 0) ra tid (dev m);
     Ok (dev m, u32 v)).
Proof.
  intros Hjk Hj (Hk1 & Hk2 & Hk3 & Hk4) _. split; [by apply queue_run|]. destruct Hj as (Hj1 & Hj2 & Hj3 & Hj4).
  unfold aimcParamRead_intrinsic, aimcParamRead_asm, AimcLib.aimcParamRead. run_intrinsic.
    match goal with |- context [dev_param_read tid (s32 ?x) (s32 ?y) (dev _)] =>
      assert (x = rm) as -> by read_regs;
      assert (y = if k =? 0 then rn else if j =? 0 then rm else xreg m 0) as -> by
        (destruct (Z.eqb_spec k 0), (Z.eqb_spec j 0); read_regs) end.
    cbn [dev set_reg]. destruct (dev_param_read _ _ _ _); try done. cbn [mbind res_bind].
    unfold aarch64Write. rewrite !xreg_set, !Z.eqb_refl, land_mask32. done.
Qed.

Example intrinsics_stray_operand_witness :
  (m' ← aimcQueue_intrinsic 0 1 0x04030201 {| xreg := fun r => 0; dev := one_tile_cluster 9 9 |}; Ok (dev m')) =
  AimcLib.aimcQueue 0 0 (one_tile_cluster 9 9).
Proof.
  refine (proj1 (intrinsics_stray_operand {| xreg := fun r => 0; dev := one_tile_cluster 9 9 |} 0 1 2 3 0x04030201 6 7 _ _ _ _));
    unfold free_reg; lia.
Defined.
