(* ===== verification/AimcAgree.v ===== *)
(** The two builds of AIMClib, which aimc.hh selects: with USE_CHECKER the library
    calls the wrappers of aimc_check.hh on the host's checker; without it the
    intrinsics of aimc_intrinsics.hh, compiled for the machine gem5 simulates with
    the AIMC device.  Here the second one becomes an implementation of the
    operations of the library, and the builds are compared. *)
From S2P Require Import Prelude AimcSpec AimcLib AimcCluster AimcCheck AimcInsn.

(** * The build for gem5 *)

(** What the compiler decides: the registers of the operands of the assembly
    ([r_rm], [r_rn], [r_ra], [r_out] those of [aimcParamWrite]), and what the
    registers hold when an intrinsic with some arguments starts, after what they
    held at the end of the last one. *)
Record Compiler := {
  r_queue : Z; r_dequeue : Z; r_rm : Z; r_rn : Z; r_ra : Z; r_out : Z;
  before : list Z -> (Z -> Z) -> Z -> Z }.

(** The inputs of one piece of assembly are in registers of their own, none of
    which it clobbers. *)
Record compiler_ok (cc : Compiler) : Prop := {
  cc_distinct : r_ra cc <> r_rm cc /\ r_ra cc <> r_rn cc /\ r_rm cc <> r_rn cc;
  cc_free : free_reg (r_queue cc) /\ free_reg (r_ra cc) /\ free_reg (r_rm cc) /\ free_reg (r_rn cc) }.

(** When the word of [aimcQueue] executes, X0, from which it takes the value,
    holds the argument: the compiler chose X0 for the operand, or left a copy
    of the argument there. *)
Definition x0_holds (cc : Compiler) : Prop :=
  forall rm regs, u32 (if r_queue cc =? 0 then rm else before cc [rm] regs 0) = u32 rm.

Section Build.
Context {S : Type} `{!AimcDevice S, !AimcModel S, !AimcDeviceLaws S} (cc : Compiler).

(** The machine when an intrinsic with the arguments [args] starts. *)
Definition start (args : list Z) (m : machine S) : machine S := {| xreg := before cc args (xreg m); dev := dev m |}.

(** [hw]: the number of the hardware thread, which selects the tile; the
    argument [tid] of the intrinsics is not used. *)
Definition isa_ops (hw : Z) : AimcOps (machine S) := {|
  op_process tid m := aimcProcess_intrinsic hw (start [] m);
  op_queue rm tid m := aimcQueue_intrinsic hw (r_queue cc) rm (start [rm] m);
  op_dequeue tid m := aimcDequeue_intrinsic hw (r_dequeue cc) (start [] m);
  op_param_write rm rn ra tid m :=
    '(m, _) ← aimcParamWrite_intrinsic hw (r_ra cc) (r_rm cc) (r_rn cc) (r_out cc) rm rn ra (start [rm; rn; ra] m); Ok m |}.

(** The program sees the tile of its thread. *)
Definition isa_model (hw : Z) : AimcModel (machine S) := {|
  dev_inv m := dev_inv (dev m);
  dev_tile m tid := if decide (tid = hw) then dev_tile (dev m) hw else None |}.

Lemma isa_upd hw (m m' : machine S) t : dev_upd (dev m) hw t (dev m') -> @dev_upd _ (isa_model hw) m hw t m'.
Proof.
  intros [Hi Ht]. split; [exact Hi|]. intros i. cbn [dev_tile isa_model]. case_decide; [|done]. rewrite Ht. by rewrite decide_True.
Qed.

Lemma run_Ok (r : res (machine S)) (x : res S) s' : (m' ← r; Ok (dev m')) = x -> x = Ok s' -> exists m', r = Ok m' /\ dev m' = s'.
Proof. intros E ->. apply bind_Ok in E as (m' & -> & [= <-]). by exists m'. Qed.

Lemma isa_ops_laws hw : compiler_ok cc -> x0_holds cc -> @AimcOpsLaws _ (isa_ops hw) (isa_model hw).
Proof.
  intros [(D1 & D2 & D3) (F1 & F2 & F3 & F4)] Hx0.
  assert (forall m tid t, @dev_tile _ (isa_model hw) m tid = Some t -> tid = hw /\ dev_tile (dev m) hw = Some t) as Htile.
  { intros m tid t. cbn [dev_tile isa_model]. by case_decide. }
  split.
  - intros m tid t Hi [_ Ht]%Htile. by apply (dev_wf (dev m) hw).
  - intros m tid t Hi [-> Ht]%Htile. destruct (law_process (dev m) hw t Hi Ht) as (s' & E & Hu).
    destruct (run_Ok _ _ s' (process_run (start [] m) hw) E) as (m' & E' & <-). exists m'. split; [exact E'|by apply isa_upd].
  - intros m tid val t Hi [-> Ht]%Htile Hv Hc. destruct (law_queue (dev m) hw val t Hi Ht Hv Hc) as (s' & E & Hu).
    destruct (run_Ok _ _ s' (queue_run (start [val] m) hw (r_queue cc) val F1)) as (m' & E' & <-).
    { unfold AimcLib.aimcQueue. cbn [start xreg dev]. by rewrite Hx0, wrap_u_id. }
    exists m'. split; [exact E'|by apply isa_upd].
  - intros m tid t Hi [-> Ht]%Htile Hc. destruct (law_dequeue (dev m) hw t Hi Ht Hc) as (s' & E & Hu).
    pose proof (dequeue_run (start [] m) hw (r_dequeue cc)) as Hr. unfold AimcLib.aimcDequeue in Hr. cbn [start dev] in Hr.
    rewrite E in Hr. cbn [mbind res_bind] in Hr. apply bind_Ok in Hr as ([m' v] & E' & [= Hs Hw]).
    assert (0 <= (tile_dequeue t).2 < 2 ^ 32) as Hrange by apply tile_dequeue_range. rewrite wrap_u_id in Hw by exact Hrange.
    exists m'. cbn [op_dequeue isa_ops]. rewrite E'. split; [by rewrite Hw|]. apply isa_upd. by rewrite Hs.
  - intros m tid x y v t Hi [-> Ht]%Htile Hx Hy Hv. destruct (law_param_write (dev m) hw x y v t Hi Ht Hx Hy Hv) as (s' & E & Hu).
    pose proof (write_run (start [u64 x; u64 y; u64 v] m) hw _ _ _ (r_out cc) (u64 x) (u64 y) (u64 v) D1 D2 D3 F2 F3 F4) as Hr.
    unfold AimcLib.aimcParamWrite in Hr. cbn [start dev] in Hr.
    assert (tile_wf t) as Hwf by (by apply (dev_wf (dev m) hw)). pose proof Hwf as [].
    rewrite !s32_u64, s8_u64, E in Hr by (done || nia). cbn [mbind res_bind] in Hr. apply bind_Ok in Hr as ([m' z] & E' & [= Hs _]).
    exists m'. cbn [op_param_write isa_ops]. rewrite E'. split; [done|]. apply isa_upd. by rewrite Hs.
Qed.
End Build.

(** * Theorems *)

(** C3 (the builds agree where X0 holds the argument).  Take the build with the
    checker, and the build for gem5 by any compiler that gives the operands of
    the assembly registers of their own and has the argument of [aimcQueue] in
    X0 when its word executes (the word reads X0 although the assembly loads X9).
    Started on tiles that are idle and large enough, the example program returns
    in both, with equal results: through the wrappers, and through the encoded
    instructions, their decoding and the device gem5 attaches to the thread. *)
Theorem checker_agrees cc (k : AnalogComputationalMemory) (m : machine AIMCCluster) tk tm n W1 input output :
  compiler_ok cc -> x0_holds cc ->
  dev_inv k -> dev_tile k 0 = Some tk -> idle tk -> fits n tk ->
  dev_inv (dev m) -> dev_tile (dev m) 0 = Some tm -> idle tm -> fits n tm ->
  Z.of_nat (length W1) = n * n -> int8_list W1 ->
  Forall (fun v => Z.of_nat (length v) = n /\ int8_list v) input ->
  Z.of_nat (length output) = n ->
  exists k' m' results, example_main n W1 input output k = Ok (k', results) /\
    @example_main _ (isa_ops cc 0) n W1 input output m = Ok (m', results) /\ length results = length input.
Proof.
  intros Hcc Hx0 Hk1 Hk2 Hk3 Hk4 Hm1 Hm2 Hm3 Hm4 HW HW8 Hin Hout.
  destruct (example_main_ok k tk n W1 input output) as [k' Ek]; [done..|].
  destruct (@example_main_ok _ (isa_ops cc 0) (isa_model 0) (isa_ops_laws cc 0 Hcc Hx0) m tm n W1 input output) as [m' Em]; [done..|].
  eexists k', m', _. split; [exact Ek|]. split; [exact Em|]. by rewrite length_fmap.
Qed.

(** A compiler that takes X[q] for the operand of [aimcQueue] and puts [x0] in X0
    before it calls an intrinsic. *)
Definition ex_compiler (q x0 : Z) : Compiler :=
  {| r_queue := q; r_dequeue := 1; r_rm := 1; r_rn := 2; r_ra := 3; r_out := 4;
     before := fun _ regs r => if r =? 0 then x0 else regs r |}.
Definition ex_machine : machine AIMCCluster := {| xreg := fun _ => 0; dev := one_tile_cluster 9 9 |}.

Example checker_agrees_witness :
  exists k' m' results,
    example_main 2 [1; 2; -3; 4] [[5; 6]] [0; 0] (replicate 1 zero_core) = Ok (k', results) /\
    @example_main _ (isa_ops (ex_compiler 0 7) 0) 2 [1; 2; -3; 4] [[5; 6]] [0; 0] ex_machine = Ok (m', results) /\
    length results = 1%nat.
Proof.
  destruct (one_tile_inv 9 9) as [Hc Ht]; [lia..|].
  apply (checker_agrees (ex_compiler 0 7) (replicate 1 zero_core) ex_machine (abs_core zero_core) (abs_tile (zero_tile 9 9)) 2
    [1; 2; -3; 4] [[5; 6]] [0; 0]).
  - split; cbn; unfold free_reg; lia.
  - done.
  - apply (check_new_ok 1). lia.
  - done.
  - done.
  - vm_compute; split_and!; reflexivity.
  - exact Hc.
  - exact Ht.
  - done.
  - vm_compute; split_and!; reflexivity.
  - done.
  - repeat constructor; lia.
  - repeat constructor; simpl; lia.
  - done.
Defined.

(** With another register for the operand, the device is sent what X0 holds and
    the results differ. *)
Example stray_register_differs :
  compiler_ok (ex_compiler 5 0) /\
  (exists k', example_main 2 [1; 2; -3; 4] [[5; 6]] [0; 0] (replicate 1 zero_core) = Ok (k', [[17; 9]])) /\
  ('(_, out) ← @example_main _ (isa_ops (ex_compiler 5 0) 0) 2 [1; 2; -3; 4] [[5; 6]] [0; 0] ex_machine; Ok out) = Ok [[0; 0]].
Proof.
  split; [split; cbn; unfold free_reg; lia|]. split; [|vm_compute; reflexivity].
  destruct (example_main_ok (replicate 1 zero_core : AnalogComputationalMemory) (abs_core zero_core) 2
    [1; 2; -3; 4] [[5; 6]] [0; 0]) as [k' E].
  - apply (check_new_ok 1). lia.
  - done.
  - done.
  - vm_compute; split_and!; reflexivity.
  - done.
  - repeat constructor; lia.
  - repeat constructor; simpl; lia.
  - done.
  - exists k'. exact E.
Qed.
