(* ===== verification/EventQueue.v ===== *)
(** The event queue of gem5: [Event] and [EventQueue] of src/sim/eventq.hh,
    eventq.cc and eventq_impl.hh, with the flag words of src/base/flags.hh.
    The queue is the two-level linked list of the code, in a heap of events:
    [nextBin] links the tops of the bins, [nextInBin] the events of one bin,
    and the [nextBin] pointers of events below the top are stale.  It is
    proved to refine an agenda: the list of events in the order they are
    serviced. *)
From Stdlib Require Import Sorting.Sorted.
From S2P Require Import Prelude.

(** * Flags (base/flags.hh), on words of [w] bits *)

Definition isSet (fl f : Z) : bool := negb (Z.land fl f =? 0).
Definition allSet (fl f : Z) : bool := Z.land fl f =? f.
Definition noneSet (fl f : Z) : bool := Z.land fl f =? 0.
Definition clear (w fl f : Z) : Z := wrap_u w (Z.land fl (Z.lnot f)).
Definition set_flag (w fl f : Z) : Z := wrap_u w (Z.lor fl f).
Definition set_val (w fl f : Z) (val : bool) : Z :=
  wrap_u w (Z.lor (Z.land fl (Z.lnot f)) (if val then f else 0)).
Definition update (w fl f mask : Z) : Z :=
  wrap_u w (Z.lor (Z.land fl (Z.lnot mask)) (Z.land f mask)).

Definition PublicRead : Z := 0x003f.
Definition PublicWrite : Z := 0x001d.
Definition Squashed : Z := 0x0001.
Definition Scheduled : Z := 0x0002.
Definition Managed : Z := 0x0004.
Definition IsExitEvent : Z := 0x0010.
Definition IsMainQueue : Z := 0x0020.
Definition Initialized : Z := 0x7a40.
Definition InitMask : Z := 0xffc0.

(** * Events *)

Record Event := {
  nextBin : option positive;
  nextInBin : option positive;
  _when : Z;
  _priority : Z;
  flags : Z;
  queue : option positive;    (* the queue it was last scheduled on *)
}.

Definition set_nextBin (n : option positive) (e : Event) : Event :=
  {| nextBin := n; nextInBin := nextInBin e; _when := _when e; _priority := _priority e;
     flags := flags e; queue := queue e |}.
Definition set_nextInBin (n : option positive) (e : Event) : Event :=
  {| nextBin := nextBin e; nextInBin := n; _when := _when e; _priority := _priority e;
     flags := flags e; queue := queue e |}.
Definition set_flags (f : Z) (e : Event) : Event :=
  {| nextBin := nextBin e; nextInBin := nextInBin e; _when := _when e;
     _priority := _priority e; flags := f; queue := queue e |}.
Definition setWhen (when : Z) (q : positive) (e : Event) : Event :=
  {| nextBin := nextBin e; nextInBin := nextInBin e; _when := when;
     _priority := _priority e; flags := flags e; queue := Some q |}.

Definition Event_new (p f : Z) : res Event :=
  assert! noneSet f (wrap_u 16 (Z.lnot PublicWrite)) ;;
  Ok {| nextBin := None; nextInBin := None; _when := 0; _priority := p;
        flags := Z.lor Initialized f; queue := None |}.

Definition initialized (e : Event) : bool := Z.land (flags e) InitMask =? Initialized.
Definition scheduled (e : Event) : bool := isSet (flags e) Scheduled.
Definition squashed (e : Event) : bool := isSet (flags e) Squashed.
Definition isExitEvent (e : Event) : bool := isSet (flags e) IsExitEvent.
Definition isManaged (e : Event) : bool := isSet (flags e) Managed.

(** The protected flag accessors of derived events. *)
Definition setFlags (f : Z) (e : Event) : res Event :=
  assert! noneSet f (wrap_u 16 (Z.lnot PublicWrite)) ;; Ok (set_flags (set_flag 16 (flags e) f) e).
Definition clearFlags (f : Z) (e : Event) : res Event :=
  assert! noneSet f (wrap_u 16 (Z.lnot PublicWrite)) ;; Ok (set_flags (clear 16 (flags e) f) e).
Definition isFlagSet (f : Z) (e : Event) : res bool :=
  assert! noneSet f (wrap_u 16 (Z.lnot PublicRead)) ;; Ok (isSet (flags e) f).

Definition ev_lt (l r : Event) : bool :=
  (_when l <? _when r) || ((_when l =? _when r) && (_priority l <? _priority r)).
Definition ev_le (l r : Event) : bool :=
  (_when l <? _when r) || ((_when l =? _when r) && (_priority l <=? _priority r)).
Definition ev_gt (l r : Event) : bool :=
  (_when r <? _when l) || ((_when l =? _when r) && (_priority r <? _priority l)).
Definition ev_ge (l r : Event) : bool :=
  (_when r <? _when l) || ((_when l =? _when r) && (_priority r <=? _priority l)).
Definition ev_eq (l r : Event) : bool :=
  (_when l =? _when r) && (_priority l =? _priority r).
Definition ev_ne (l r : Event) : bool :=
  negb (_when l =? _when r) || negb (_priority l =? _priority r).

(** * The heap of events *)

Abbreviation heap := (gmap positive Event).

Definition deref (p : positive) (h : heap) : res Event :=
  match h !! p with Some e => Ok e | None => Ub end.
Definition assign (p : positive) (f : Event -> Event) (h : heap) : res heap :=
  e ← deref p h; Ok (<[p := f e]> h).

(** Event::insertBefore *)
Definition insertBefore (event : positive) (curr : option positive) (h : heap)
    : res (positive * heap) :=
  e ← deref event h;
  match curr with
  | None =>
      h ← assign event (fun e => set_nextInBin None (set_nextBin None e)) h; Ok (event, h)
  | Some c =>
      ce ← deref c h;
      if ev_lt e ce then
        h ← assign event (fun e => set_nextInBin None (set_nextBin (Some c) e)) h; Ok (event, h)
      else
        h ← assign event (fun e => set_nextInBin (Some c) (set_nextBin (nextBin ce) e)) h;
        Ok (event, h)
  end.

(** The bin search of [insert] and [remove]: advance while [*curr < *event]. *)
Fixpoint find_bin (fuel : nat) (event : Event) (prev : positive) (curr : option positive)
    (h : heap) : res (positive * option positive) :=
  match curr with
  | None => Ok (prev, None)
  | Some c =>
      ce ← deref c h;
      if ev_lt ce event then
        match fuel with
        | O => OutOfFuel
        | S fuel => find_bin fuel event c (nextBin ce) h
        end
      else Ok (prev, Some c)
  end.

(** Event::removeItem *)
Fixpoint unlink (fuel : nat) (event curr : positive) (next : option positive) (h : heap)
    : res heap :=
  match next with
  | None => Panic
  | Some n =>
      ne ← deref n h;
      if decide (event = n) then assign curr (set_nextInBin (nextInBin ne)) h
      else match fuel with
           | O => OutOfFuel
           | S fuel => unlink fuel event n (nextInBin ne) h
           end
  end.

Definition removeItem (event top : positive) (h : heap) : res (option positive * heap) :=
  te ← deref top h;
  if decide (event = top) then
    match nextInBin te with
    | None => Ok (nextBin te, h)
    | Some n => h ← assign n (set_nextBin (nextBin te)) h; Ok (Some n, h)
    end
  else h ← unlink (size h) event top (nextInBin te) h; Ok (Some top, h).

(** * The queue *)

Record EventQueue := {
  qid : positive;               (* the address of the queue *)
  head : option positive;
  _curTick : Z;
  async_queue : list positive;
  events : heap;
  inParallelMode : bool;        (* globals of eventq.cc *)
  curEventQueue : positive;
}.

Definition set_head (hd : option positive) (h : heap) (q : EventQueue) : EventQueue :=
  {| qid := qid q; head := hd; _curTick := _curTick q; async_queue := async_queue q;
     events := h; inParallelMode := inParallelMode q; curEventQueue := curEventQueue q |}.
Definition set_async (l : list positive) (q : EventQueue) : EventQueue :=
  {| qid := qid q; head := head q; _curTick := _curTick q; async_queue := l;
     events := events q; inParallelMode := inParallelMode q; curEventQueue := curEventQueue q |}.
Definition setCurTick (t : Z) (q : EventQueue) : EventQueue :=
  {| qid := qid q; head := head q; _curTick := t; async_queue := async_queue q;
     events := events q; inParallelMode := inParallelMode q; curEventQueue := curEventQueue q |}.
Definition set_events (h : heap) (q : EventQueue) : EventQueue := set_head (head q) h q.

Definition empty (q : EventQueue) : bool := match head q with None => true | _ => false end.
Definition nextTick (q : EventQueue) : res Z :=
  match head q with None => Ub | Some p => e ← deref p (events q); Ok (_when e) end.

Definition insert (event : positive) (q : EventQueue) : res EventQueue :=
  e ← deref event (events q);
  match head q with
  | None => '(p, h) ← insertBefore event None (events q); Ok (set_head (Some p) h q)
  | Some hd =>
      he ← deref hd (events q);
      if ev_le e he then
        '(p, h) ← insertBefore event (Some hd) (events q); Ok (set_head (Some p) h q)
      else
        '(prev, curr) ← find_bin (size (events q)) e hd (nextBin he) (events q);
        '(p, h) ← insertBefore event curr (events q);
        h ← assign prev (set_nextBin (Some p)) h;
        Ok (set_head (head q) h q)
  end.

Definition remove (event : positive) (q : EventQueue) : res EventQueue :=
  match head q with
  | None => Panic
  | Some hd =>
      e ← deref event (events q);
      assert! bool_decide (queue e = Some (qid q)) ;;
      he ← deref hd (events q);
      if ev_eq he e then
        '(p, h) ← removeItem event hd (events q); Ok (set_head p h q)
      else
        '(prev, curr) ← find_bin (size (events q)) e hd (nextBin he) (events q);
        match curr with
        | None => Panic
        | Some c =>
            ce ← deref c (events q);
            if ev_ne ce e then Panic
            else '(p, h) ← removeItem event c (events q);
                 h ← assign prev (set_nextBin p) h;
                 Ok (set_head (head q) h q)
        end
  end.

(** [event->flags.set(f)] and [event->flags.clear(f)] *)
Definition flags_set (event : positive) (f : Z) (q : EventQueue) : res EventQueue :=
  h ← assign event (fun e => set_flags (set_flag 16 (flags e) f) e) (events q); Ok (set_events h q).
Definition flags_clear (event : positive) (f : Z) (q : EventQueue) : res EventQueue :=
  h ← assign event (fun e => set_flags (clear 16 (flags e) f) e) (events q); Ok (set_events h q).

(** [event->release()] with the default [releaseImpl]: a managed event that is
    not scheduled is deleted ([~Event] asserts the same). *)
Definition release (event : positive) (q : EventQueue) : res EventQueue :=
  e ← deref event (events q);
  if isManaged e && negb (scheduled e) then Ok (set_events (delete event (events q)) q) else Ok q.

Definition asyncInsert (event : positive) (q : EventQueue) : EventQueue :=
  set_async (async_queue q ++ [event]) q.

(** [acquireImpl] does nothing by default. *)
Definition schedule (event : positive) (when : Z) (global : bool) (q : EventQueue)
    : res EventQueue :=
  e ← deref event (events q);
  assert! _curTick q <=? when ;;
  assert! negb (scheduled e) ;;
  assert! initialized e ;;
  h ← assign event (setWhen when (qid q)) (events q);
  let q := set_events h q in
  q ← (if inParallelMode q && (bool_decide (qid q <> curEventQueue q) || global)
       then Ok (asyncInsert event q) else insert event q);
  flags_set event Scheduled q.

Definition deschedule (event : positive) (q : EventQueue) : res EventQueue :=
  e ← deref event (events q);
  assert! scheduled e ;;
  assert! initialized e ;;
  assert! negb (inParallelMode q) || bool_decide (qid q = curEventQueue q) ;;
  q ← remove event q;
  q ← flags_clear event Squashed q;
  q ← flags_clear event Scheduled q;
  release event q.

Definition reschedule (event : positive) (when : Z) (always : bool) (q : EventQueue)
    : res EventQueue :=
  e ← deref event (events q);
  assert! _curTick q <=? when ;;
  assert! always || scheduled e ;;
  assert! initialized e ;;
  assert! negb (inParallelMode q) || bool_decide (qid q = curEventQueue q) ;;
  q ← (if scheduled e then remove event q else Ok q);
  h ← assign event (setWhen when (qid q)) (events q);
  q ← insert event (set_events h q);
  q ← flags_clear event Squashed q;
  flags_set event Scheduled q.

(** Event::squash *)
Definition squash (event : positive) (q : EventQueue) : res EventQueue :=
  flags_set event Squashed q.

(** [while (!async_queue.empty()) { insert(front); pop_front(); }] *)
Fixpoint insert_all (l : list positive) (q : EventQueue) : res EventQueue :=
  match l with
  | [] => Ok (set_async [] q)
  | p :: l => q ← insert p q; insert_all l (set_async l q)
  end.
Definition handleAsyncInsertions (q : EventQueue) : res EventQueue :=
  assert! bool_decide (qid q = curEventQueue q) ;; insert_all (async_queue q) q.

(** [process] is the virtual handler of the event; it may schedule, deschedule
    and change anything.  The result is the exit event, if this was one. *)
Definition serviceOne (process : positive -> EventQueue -> res EventQueue) (q : EventQueue)
    : res (option positive * EventQueue) :=
  match head q with
  | None => Ub
  | Some event =>
      he ← deref event (events q);
      q ← flags_clear event Scheduled q;
      q ← (match nextInBin he with
           | Some next => h ← assign next (set_nextBin (nextBin he)) (events q);
                          Ok (set_head (Some next) h q)
           | None => Ok (set_head (nextBin he) (events q) q)
           end);
      e ← deref event (events q);
      if negb (squashed e) then
        q ← process event (setCurTick (_when e) q);
        e ← deref event (events q);
        if isExitEvent e then
          assert! negb (isSet (flags e) Managed) || negb (isSet (flags e) IsMainQueue) ;;
          Ok (Some event, q)
        else q ← release event q; Ok (None, q)
      else q ← flags_clear event Squashed q; q ← release event q; Ok (None, q)
  end.

Fixpoint service_loop (process : positive -> EventQueue -> res EventQueue) (fuel : nat)
    (when : Z) (q : EventQueue) : res EventQueue :=
  if empty q then Ok q else
  t ← nextTick q;
  if when <? t then Ok q else
  match fuel with
  | O => OutOfFuel
  | S fuel => '(_, q) ← serviceOne process q; service_loop process fuel when q
  end.
Definition serviceEvents (process : positive -> EventQueue -> res EventQueue) (fuel : nat)
    (when : Z) (q : EventQueue) : res EventQueue :=
  q ← service_loop process fuel when q; Ok (setCurTick when q).

Definition replaceHead (s : option positive) (q : EventQueue) : option positive * EventQueue :=
  (head q, set_head s (events q) q).

(** * Checkpointing *)

(** What a checkpoint holds of an event: [_flags] goes through a [short]. *)
Record checkpoint := { cp_when : Z; cp_priority : Z; cp_flags : Z }.

Definition serialize (e : Event) : checkpoint :=
  {| cp_when := _when e; cp_priority := _priority e; cp_flags := wrap_s 16 (flags e) |}.

Definition unserialize (cp : checkpoint) (e : Event) : res Event :=
  assert! negb (scheduled e) ;;
  assert! initialized e ;;
  let fl := set_flag 16 (wrap_u 16 (cp_flags cp)) Initialized in
  let fl := if isSet fl Scheduled && negb (isSet fl Squashed)
            then clear 16 fl (Z.lor Squashed Scheduled) else fl in
  Ok {| nextBin := nextBin e; nextInBin := nextInBin e; _when := cp_when cp;
        _priority := cp_priority cp; flags := fl; queue := queue e |}.

Definition checkpointReschedule (event : positive) (q : EventQueue) : res EventQueue :=
  e ← deref event (events q);
  if isSet (flags e) Scheduled then insert event q else Ok q.

(** * The self-check

    The nested walk of [debugVerify]; [seen], [time] and [priority] are its
    locals.  [None] is a failed check. *)
Fixpoint verify_bin (fuel : nat) (p : option positive) (h : heap)
    (st : gset positive * Z * Z) : res (option (gset positive * Z * Z)) :=
  match p with
  | None => Ok (Some st)
  | Some p =>
      e ← deref p h;
      let '(seen, time, priority) := st in
      if _when e <? time then Ok None
      else if (_when e =? time) && (_priority e <? priority) then Ok None
      else if decide (p ∈ seen) then Ok None
      else match fuel with
           | O => OutOfFuel
           | S fuel => verify_bin fuel (nextInBin e) h ({[p]} ∪ seen, _when e, _priority e)
           end
  end.
Fixpoint verify_bins (fuel : nat) (p : option positive) (h : heap)
    (st : gset positive * Z * Z) : res bool :=
  match p with
  | None => Ok true
  | Some p =>
      r ← verify_bin (size h) (Some p) h st;
      match r with
      | None => Ok false
      | Some st =>
          e ← deref p h;
          match fuel with
          | O => OutOfFuel
          | S fuel => verify_bins fuel (nextBin e) h st
          end
      end
  end.
Definition debugVerify (q : EventQueue) : res bool :=
  verify_bins (size (events q)) (head q) (events q) (∅, 0, 0).

(** * The agenda

    The abstract queue: time, priority and event in the order of service. *)

Abbreviation key := (Z * Z)%type.
Definition key_lt (a b : key) : bool := (a.1 <? b.1) || ((a.1 =? b.1) && (a.2 <? b.2)).
Definition ev_key (e : Event) : key := (_when e, _priority e).
Abbreviation agenda := (list (key * positive)).

(** A new event goes before the events of its own time and priority. *)
Fixpoint agenda_insert (k : key) (p : positive) (a : agenda) : agenda :=
  match a with
  | [] => [(k, p)]
  | (k', p') :: a' => if key_lt k' k then (k', p') :: agenda_insert k p a' else (k, p) :: a
  end.
Definition agenda_remove (p : positive) (a : agenda) : agenda := filter (fun kp => kp.2 <> p) a.

(** * Representation: bins of events *)

Abbreviation bins := (list (key * list positive)).
Definition flat (bs : bins) : list positive := bs ≫= snd.
Definition to_agenda (bs : bins) : agenda := bs ≫= (fun kb => (kb.1,.) <$> kb.2).

Fixpoint bin_at (h : heap) (k : key) (o : option positive) (ps : list positive) : Prop :=
  match ps with
  | [] => o = None
  | p :: ps => o = Some p /\ exists e, h !! p = Some e /\ ev_key e = k /\ bin_at h k (nextInBin e) ps
  end.
Fixpoint bins_at (h : heap) (o : option positive) (bs : bins) : Prop :=
  match bs with
  | [] => o = None
  | (k, b) :: bs =>
      exists p e, o = Some p /\ h !! p = Some e /\ bin_at h k o b /\ bins_at h (nextBin e) bs
  end.

Definition bins_sorted (bs : bins) : Prop :=
  StronglySorted (fun a b => key_lt a b = true) (fst <$> bs).

(** The queue [q] holds exactly the agenda [a]. *)
Definition repr (q : EventQueue) (a : agenda) : Prop :=
  exists bs, bins_at (events q) (head q) bs /\ bins_sorted bs /\ NoDup (flat bs) /\
    Forall (fun kb => kb.2 <> []) bs /\ a = to_agenda bs.

Definition link (h : heap) (p : positive) : option (option positive * option positive * key) :=
  (fun e => (nextBin e, nextInBin e, ev_key e)) <$> h !! p.

(** Everything of an event but its links. *)
Definition data (e : Event) : key * Z * option positive := (ev_key e, flags e, queue e).
Definition same_data (h h' : heap) : Prop := forall p, data <$> h' !! p = data <$> h !! p.

(** ** Keys *)

Lemma key_lt_trans a b c : key_lt a b = true -> key_lt b c = true -> key_lt a c = true.
Proof. unfold key_lt. lia. Qed.
Lemma key_lt_irrefl a : key_lt a a = false.
Proof. unfold key_lt. lia. Qed.
Lemma key_lt_total a b : key_lt a b = false -> key_lt b a = false -> a = b.
Proof. destruct a, b. unfold key_lt. simpl. intros. f_equal; lia. Qed.
Lemma ev_lt_key l r : ev_lt l r = key_lt (ev_key l) (ev_key r).
Proof. done. Qed.
Lemma ev_le_key l r : ev_le l r = negb (key_lt (ev_key r) (ev_key l)).
Proof. unfold ev_le, key_lt. simpl. lia. Qed.
Lemma ev_eq_key l r : ev_eq l r = bool_decide (ev_key l = ev_key r).
Proof.
  unfold ev_eq, ev_key. case_bool_decide as H; [injection H as -> ->; lia|].
  apply not_true_is_false. intros H'. apply H. f_equal; lia.
Qed.
Lemma ev_ne_key l r : ev_ne l r = negb (bool_decide (ev_key l = ev_key r)).
Proof. rewrite <- ev_eq_key. unfold ev_ne, ev_eq. lia. Qed.

(** ** Frame lemmas *)

Lemma bin_at_frame h h' k o ps :
  (forall p, p ∈ ps -> link h' p = link h p) -> bin_at h k o ps -> bin_at h' k o ps.
Proof.
  revert o. induction ps as [|p ps IH]; intros o Hf; simpl; [done|].
  intros (-> & e & He & Hk & Hb). split; [done|].
  pose proof (Hf p ltac:(by left)) as Hl. unfold link in Hl. rewrite He in Hl.
  destruct (h' !! p) as [e'|] eqn:E'; [|done]. simpl in Hl. injection Hl as Hn1 Hn2 Hn3.
  exists e'. split; [done|]. split; [unfold ev_key in *; congruence|]. rewrite Hn2.
  apply IH; [|done]. intros q Hq. apply Hf. by right.
Qed.

Lemma flat_cons k b bs : flat ((k, b) :: bs) = b ++ flat bs.
Proof. done. Qed.
Lemma flat_app bs1 bs2 : flat (bs1 ++ bs2) = flat bs1 ++ flat bs2.
Proof. unfold flat. by rewrite bind_app. Qed.
Lemma to_agenda_cons k b bs : to_agenda ((k, b) :: bs) = ((k,.) <$> b) ++ to_agenda bs.
Proof. done. Qed.
Lemma to_agenda_app bs1 bs2 : to_agenda (bs1 ++ bs2) = to_agenda bs1 ++ to_agenda bs2.
Proof. unfold to_agenda. by rewrite bind_app. Qed.
Lemma to_agenda_snd bs : (to_agenda bs).*2 = flat bs.
Proof.
  induction bs as [|[k b] bs IH]; [done|]. rewrite to_agenda_cons, flat_cons, fmap_app, IH.
  f_equal. rewrite <- list_fmap_compose. induction b; simpl; f_equal; done.
Qed.

(** The top of a bin is in the bin. *)
Lemma bins_at_top h o k b bs :
  bins_at h o ((k, b) :: bs) -> b <> [] ->
  exists t b' e, b = t :: b' /\ o = Some t /\ h !! t = Some e /\ ev_key e = k /\
    bin_at h k (nextInBin e) b' /\ bins_at h (nextBin e) bs.
Proof.
  intros (p & e & -> & He & Hb & Hbs) Hne. destruct b as [|t b']; [done|].
  destruct Hb as ([= <-] & e' & He' & Hk & Hb'). simplify_eq. eauto 10.
Qed.

Lemma bins_at_frame h h' o bs :
  Forall (fun kb => kb.2 <> []) bs ->
  (forall p, p ∈ flat bs -> link h' p = link h p) -> bins_at h o bs -> bins_at h' o bs.
Proof.
  intros Hne. revert o. induction Hne as [|[k b] bs Hb _ IH]; intros o Hf Hat; [done|].
  rewrite flat_cons in Hf. pose proof Hat as (p & e & -> & He & Hbin & Hbs).
  destruct (bins_at_top _ _ _ _ _ Hat Hb) as (t & b' & e0 & -> & [= <-] & _).
  pose proof (Hf p ltac:(apply elem_of_app; left; by left)) as Hl. unfold link in Hl. rewrite He in Hl.
  destruct (h' !! p) as [e'|] eqn:E'; [|done]. simpl in Hl. injection Hl as Hn1 Hn2 Hn3.
  exists p, e'. split; [done|]. split; [done|]. split.
  - apply (bin_at_frame h); [|done]. intros q Hq. apply Hf. apply elem_of_app. by left.
  - rewrite Hn1. apply IH; [|done]. intros q Hq. apply Hf. apply elem_of_app. by right.
Qed.

Lemma bin_at_dom h k o ps p : bin_at h k o ps -> p ∈ ps -> exists e, h !! p = Some e /\ ev_key e = k.
Proof.
  revert o. induction ps as [|q ps IH]; intros o; simpl; [by intros _ ?%not_elem_of_nil|].
  intros (-> & e & He & Hk & Hb) [->|Hp]%elem_of_cons; [by eauto|]. by eapply IH.
Qed.

Lemma bins_at_dom h o bs p :
  bins_at h o bs -> p ∈ flat bs -> exists e, h !! p = Some e /\ (ev_key e, p) ∈ to_agenda bs.
Proof.
  revert o. induction bs as [|[k b] bs IH]; intros o; [by intros _ ?%not_elem_of_nil|].
  intros (t & e & -> & He & Hb & Hbs). rewrite flat_cons, to_agenda_cons.
  intros [Hp|Hp]%elem_of_app.
  - destruct (bin_at_dom _ _ _ _ _ Hb Hp) as (e' & He' & <-). exists e'. split; [done|].
    apply elem_of_app. left. by apply list_elem_of_fmap_2.
  - destruct (IH _ Hbs Hp) as (e' & ? & ?). exists e'. split; [done|]. apply elem_of_app. by right.
Qed.

(** A heap has room for all its events: the fuel [size h] is enough. *)
Lemma nodup_fuel (h : heap) (l : list positive) :
  NoDup l -> (forall p, p ∈ l -> is_Some (h !! p)) -> (length l <= size h)%nat.
Proof.
  intros Hnd Hd. rewrite <- (size_list_to_set (C := gset positive) l Hnd).
  rewrite <- (size_dom h). apply subseteq_size. intros p Hp%elem_of_list_to_set.
  apply elem_of_dom. by apply Hd.
Qed.

Lemma length_flat bs : Forall (fun kb : key * list positive => kb.2 <> []) bs -> (length bs <= length (flat bs))%nat.
Proof.
  induction 1 as [|[k b] bs Hb _ IH]; [done|]. rewrite flat_cons, length_app.
  destruct b; [done|]. simpl. lia.
Qed.

Lemma deref_ok p h e : h !! p = Some e -> deref p h = Ok e.
Proof. intros H. unfold deref. by rewrite H. Qed.
Lemma assign_ok p f h e : h !! p = Some e -> assign p f h = Ok (<[p := f e]> h).
Proof. intros H. unfold assign, deref. by rewrite H. Qed.

Lemma link_insert_ne h p e q : q <> p -> link (<[p := e]> h) q = link h q.
Proof. intros. unfold link. by rewrite lookup_insert_ne. Qed.

Lemma same_data_insert h p e e' : h !! p = Some e -> data e' = data e -> same_data h (<[p := e']> h).
Proof.
  intros He Hd q. destruct (decide (q = p)) as [->|].
  - rewrite lookup_insert_eq, He. simpl. by rewrite Hd.
  - by rewrite lookup_insert_ne.
Qed.
Lemma same_data_refl h : same_data h h.
Proof. done. Qed.
Lemma same_data_trans h1 h2 h3 : same_data h1 h2 -> same_data h2 h3 -> same_data h1 h3.
Proof. intros H1 H2 p. by rewrite H2, H1. Qed.

(** ** Insertion *)

Fixpoint bins_insert (k : key) (p : positive) (bs : bins) : bins :=
  match bs with
  | [] => [(k, [p])]
  | (k', b) :: bs' =>
      if key_lt k' k then (k', b) :: bins_insert k p bs'
      else if key_lt k k' then (k, [p]) :: bs
      else (k', p :: b) :: bs'
  end.

(** Every key of [bs] is below [k]. *)
Definition below (bs : bins) (k : key) : Prop := Forall (fun kb => key_lt kb.1 k = true) bs.

Lemma bins_insert_app k p pre post :
  below pre k -> bins_insert k p (pre ++ post) = pre ++ bins_insert k p post.
Proof.
  induction 1 as [|[k' b] pre Hk _ IH]; [done|]. simpl in *. by rewrite Hk, IH.
Qed.

Lemma agenda_insert_app k p a1 a2 :
  Forall (fun kp => key_lt kp.1 k = true) a1 -> agenda_insert k p (a1 ++ a2) = a1 ++ agenda_insert k p a2.
Proof. induction 1 as [|[k' q] a1 Hk _ IH]; [done|]. simpl in *. by rewrite Hk, IH. Qed.

(** On bins, insertion is insertion in the agenda. *)
Lemma bins_insert_agenda k p bs :
  Forall (fun kb => kb.2 <> []) bs -> to_agenda (bins_insert k p bs) = agenda_insert k p (to_agenda bs).
Proof.
  induction 1 as [|[k' b] bs Hb _ IH]; [done|]. simpl bins_insert. simpl in Hb.
  rewrite to_agenda_cons. destruct (key_lt k' k) eqn:Hlt.
  - rewrite to_agenda_cons, IH, agenda_insert_app; [done|].
    apply Forall_fmap, Forall_forall. intros q _. done.
  - destruct b as [|q b]; [done|]. simpl. rewrite Hlt.
    destruct (key_lt k k') eqn:Hgt; [done|].
    by rewrite (key_lt_total _ _ Hlt Hgt).
Qed.

Lemma bins_insert_flat k p bs : flat (bins_insert k p bs) ≡ₚ p :: flat bs.
Proof.
  induction bs as [|[k' b] bs IH]; [done|]. simpl bins_insert.
  destruct (key_lt k' k); [|by destruct (key_lt k k')].
  rewrite !flat_cons, IH. by rewrite Permutation_middle.
Qed.

Lemma bins_insert_nonempty k p bs :
  Forall (fun kb => kb.2 <> []) bs -> Forall (fun kb => kb.2 <> []) (bins_insert k p bs).
Proof.
  induction 1 as [|[k' b] bs Hb Hbs IH]; [by repeat constructor|]. simpl.
  destruct (key_lt k' k); [by constructor|]. destruct (key_lt k k'); by repeat constructor.
Qed.

Lemma bins_insert_sorted k p bs : bins_sorted bs -> bins_sorted (bins_insert k p bs).
Proof.
  unfold bins_sorted. induction bs as [|[k' b] bs IH]; simpl; [by repeat constructor|].
  intros [Hs Hk']%StronglySorted_inv. destruct (key_lt k' k) eqn:Hlt.
  - simpl. constructor; [by apply IH|].
    assert (forall bs, Forall (fun x => key_lt k' x = true) bs.*1 ->
      Forall (fun x => key_lt k' x = true) (bins_insert k p bs).*1) as Hgen.
    { clear -Hlt. induction bs as [|[k2 b2] bs IH]; simpl; [by repeat constructor|].
      intros [H1 H2]%Forall_cons.
      destruct (key_lt k2 k); [by constructor; [|apply IH]|].
      destruct (key_lt k k2); by repeat constructor. }
    by apply Hgen.
  - destruct (key_lt k k') eqn:Hgt; simpl; [|by constructor].
    constructor; [by constructor|]. constructor; [done|].
    eapply Forall_impl; [exact Hk'|]. simpl. intros x Hx. by eapply key_lt_trans.
Qed.

(** Replacing the bins after a prefix, by writing the [nextBin] of the last top
    of the prefix. *)
Lemma bins_splice h h' o pre k t b post post' o' :
  Forall (fun kb => kb.2 <> []) pre ->
  bins_at h o (pre ++ (k, t :: b) :: post) -> bins_at h' o' post' ->
  (forall p, p ∈ flat pre ++ b -> link h' p = link h p) ->
  (exists e e', h !! t = Some e /\ h' !! t = Some e' /\ nextBin e' = o' /\
     nextInBin e' = nextInBin e /\ ev_key e' = ev_key e) ->
  bins_at h' o (pre ++ (k, t :: b) :: post').
Proof.
  intros Hne. revert o. induction Hne as [|[k1 b1] pre Hb1 _ IH]; intros o Hat Hpost Hf Ht; cbn [app] in Hat |- *.
  - destruct Ht as (e & e' & He & He' & Hn1 & Hn2 & Hn3).
    destruct Hat as (p & e0 & -> & He0 & ([= ->] & e1 & He1 & Hk & Hb) & _). simplify_eq.
    exists t, e'. split; [done|]. split; [done|]. split; [|done].
    split; [done|]. exists e'. split; [done|]. split; [unfold ev_key; congruence|]. rewrite Hn2.
    apply (bin_at_frame h); [|done]. intros q Hq. by apply Hf.
  - pose proof (bins_at_top _ _ _ _ _ Hat Hb1) as (t1 & b2 & e1 & -> & -> & He1 & Hk1 & _ & _).
    destruct Hat as (p & e0 & [= <-] & He0 & Hb & Hbs). simplify_eq.
    rewrite flat_cons in Hf.
    assert (link h' t1 = link h t1) as Hl by (apply Hf; rewrite !elem_of_app; left; left; by left).
    unfold link in Hl. rewrite He0 in Hl. destruct (h' !! t1) as [e1'|] eqn:E'; [|done].
    simpl in Hl. injection Hl as Hn1 Hn2 Hn3 Hn4. exists t1, e1'. split; [done|]. split; [done|]. split.
    + apply (bin_at_frame h); [|done]. intros q Hq. apply Hf. rewrite !elem_of_app. auto.
    + rewrite Hn1. apply IH; try done. intros q Hq. apply Hf.
      rewrite !elem_of_app in *. tauto.
Qed.

(** Inserting before the first bin whose key is not below. *)
Lemma insertBefore_spec h o bs p e :
  bins_at h o bs -> Forall (fun kb => kb.2 <> []) bs -> p ∉ flat bs -> h !! p = Some e ->
  match bs with [] => True | (k, _) :: _ => key_lt k (ev_key e) = false end ->
  exists e', insertBefore p o h = Ok (p, <[p := e']> h) /\ data e' = data e /\
    bins_at (<[p := e']> h) (Some p) (bins_insert (ev_key e) p bs).
Proof.
  intros Hat Hne Hp He Hk. unfold insertBefore, deref. rewrite He. simpl.
  destruct bs as [|[k b] bs].
  { simpl in Hat. subst. rewrite (assign_ok _ _ _ _ He). simpl. eexists. split; [done|].
    split; [done|]. exists p, (set_nextInBin None (set_nextBin None e)).
    rewrite lookup_insert_eq. split_and!; try done. by eexists. }
  apply Forall_cons in Hne as [Hb Hne].
  destruct (bins_at_top _ _ _ _ _ Hat Hb) as (t & b' & te & -> & -> & Hte & Htk & Hb' & Hbs).
  rewrite flat_cons in Hp. cbn [app] in Hp.
  assert (forall e' q, q ∈ t :: b' ++ flat bs -> link (<[p:=e']> h) q = link h q) as Hfr.
  { intros e' q Hq. apply link_insert_ne. intros ->. by apply Hp. }
  rewrite Hte. simpl. rewrite ev_lt_key, Htk, Hk.
  destruct (key_lt (ev_key e) k) eqn:Hlt; rewrite (assign_ok _ _ _ _ He); simpl;
    eexists; (split; [done|]); (split; [done|]).
  - set (e1 := set_nextInBin None (set_nextBin (Some t) e)).
    assert (bins_at (<[p := e1]> h) (Some t) ((k, t :: b') :: bs)) as Hrest.
    { apply (bins_at_frame h); [by constructor| |done]. intros q Hq. by apply Hfr. }
    exists p, e1. rewrite lookup_insert_eq. split; [done|]. split; [done|]. split; [|exact Hrest].
    split; [done|]. by exists e1.
  - set (e1 := set_nextInBin (Some t) (set_nextBin (nextBin te) e)).
    assert (bin_at (<[p := e1]> h) k (Some t) (t :: b')) as Hbin.
    { apply (bin_at_frame h); [|by destruct Hat as (? & ? & _ & _ & Hb0 & _)].
      intros q Hq. apply Hfr. rewrite app_comm_cons. apply elem_of_app. by left. }
    assert (bins_at (<[p := e1]> h) (nextBin te) bs) as Hrest.
    { apply (bins_at_frame h); [done| |done]. intros q Hq. apply Hfr.
      right. apply elem_of_app. by right. }
    exists p, e1. rewrite lookup_insert_eq. split; [done|]. split; [done|]. split; [|exact Hrest].
    split; [done|]. exists e1. split; [done|].
    split; [by apply key_lt_total|exact Hbin].
Qed.

(** The search stops at the last top below the key. *)
Lemma find_bin_spec h e fuel k b bs prev o :
  bins_at h o ((k, prev :: b) :: bs) -> key_lt k (ev_key e) = true ->
  Forall (fun kb => kb.2 <> []) bs -> (length bs <= fuel)%nat ->
  forall pe, h !! prev = Some pe ->
  exists pre k' t b' post curr,
    (k, prev :: b) :: bs = pre ++ (k', t :: b') :: post /\
    find_bin fuel e prev (nextBin pe) h = Ok (t, curr) /\
    bins_at h curr post /\ below (pre ++ [(k', t :: b')]) (ev_key e) /\
    match post with [] => True | (k2, _) :: _ => key_lt k2 (ev_key e) = false end.
Proof.
  intros Hat Hk Hne Hfuel. revert k prev b o fuel Hat Hk Hfuel.
  induction Hne as [|[k2 b2] bs Hb2 Hne IH]; intros k prev b o fuel Hat Hk Hfuel pe Hpe.
  - destruct Hat as (q & e0 & -> & He0 & ([= ->] & _) & Hbs). simplify_eq. simpl in Hbs.
    exists [], k, prev, b, [], None. rewrite Hbs. split_and!; try done; [by destruct fuel|].
    by repeat constructor.
  - pose proof Hat as (q & e0 & -> & He0 & ([= ->] & _) & Hbs). simplify_eq.
    destruct (bins_at_top _ _ _ _ _ Hbs Hb2) as (t & b' & te & -> & Hn & Hte & Htk & _ & _).
    rewrite Hn. simpl in Hfuel. destruct fuel as [|fuel]; [lia|]. simpl. unfold deref at 1. rewrite Hte. simpl.
    rewrite ev_lt_key, Htk. destruct (key_lt k2 (ev_key e)) eqn:Hlt.
    + destruct (IH k2 t b' (Some t) fuel) with (pe := te)
        as (pre & k' & t' & b3 & post & curr & Heq & Hf & Hc & Hbel & Hpost);
        [by rewrite <- Hn|done|lia|done|].
      exists ((k, prev :: b) :: pre), k', t', b3, post, curr. rewrite Heq. split_and!; try done.
      by constructor.
    + exists [], k, prev, b, ((k2, t :: b') :: bs), (Some t). split_and!; try done.
      * by rewrite <- Hn.
      * by repeat constructor.
Qed.

(** Only the links of the events and the head differ. *)
Definition relinked (q q' : EventQueue) : Prop :=
  q' = set_head (head q') (events q') q /\ same_data (events q) (events q').

Lemma same_data_lookup h h' p e :
  same_data h h' -> h !! p = Some e -> exists e', h' !! p = Some e' /\ data e' = data e.
Proof.
  intros Hs He. specialize (Hs p). rewrite He in Hs. destruct (h' !! p) as [e'|]; [|done].
  simpl in Hs. injection Hs as H1 H2 H3 H4. exists e'. split; [done|].
  unfold data, ev_key. congruence.
Qed.

Lemma below_agenda bs k : below bs k -> Forall (fun kp => key_lt kp.1 k = true) (to_agenda bs).
Proof.
  induction 1 as [|[k' b] bs Hk _ IH]; [done|]. rewrite to_agenda_cons. apply Forall_app.
  split; [|done]. apply Forall_fmap, Forall_forall. by intros q _.
Qed.

(** The bins of a queue, as the search loops see them: a non-empty queue has a
    head, and the fuel [size] is enough. *)
Lemma bins_fuel h o bs :
  bins_at h o bs -> NoDup (flat bs) -> Forall (fun kb => kb.2 <> []) bs -> (length bs <= size h)%nat.
Proof.
  intros Hat Hnd Hne. etransitivity; [by apply length_flat|]. apply nodup_fuel; [done|].
  intros p Hp. destruct (bins_at_dom _ _ _ _ Hat Hp) as (e & He & _). by exists e.
Qed.

Lemma insert_spec q a p e :
  repr q a -> p ∉ a.*2 -> events q !! p = Some e ->
  exists q', insert p q = Ok q' /\ repr q' (agenda_insert (ev_key e) p a) /\ relinked q q'.
Proof.
  intros (bs & Hat & Hsort & Hnd & Hne & ->) Hp He. rewrite to_agenda_snd in Hp.
  assert (forall q', bins_at (events q') (head q') (bins_insert (ev_key e) p bs) ->
    repr q' (agenda_insert (ev_key e) p (to_agenda bs))) as Hrepr.
  { intros q' Hat'. exists (bins_insert (ev_key e) p bs). split; [done|].
    split; [by apply bins_insert_sorted|]. split; [by rewrite bins_insert_flat; constructor|].
    split; [by apply bins_insert_nonempty|]. by rewrite bins_insert_agenda. }
  remember (agenda_insert (ev_key e) p (to_agenda bs)) as a' eqn:Ha'. clear Ha'.
  unfold insert. rewrite (deref_ok _ _ _ He). simpl.
  assert (forall o', match bs with [] => True | (k, _) :: _ => key_lt k (ev_key e) = false end ->
    head q = o' ->
    exists q', ('(p', h) ← insertBefore p o' (events q); Ok (set_head (Some p') h q)) = Ok q' /\
      repr q' a' /\ relinked q q') as Hfront.
  { intros o' Hk <-. destruct (insertBefore_spec _ _ _ p e Hat Hne Hp He Hk) as (e' & -> & Hd & Hb).
    simpl. eexists. split; [done|]. split; [by apply Hrepr|]. split; [done|].
    by eapply same_data_insert. }
  destruct bs as [|[k b] bs].
  { assert (head q = None) as Hh by exact Hat. rewrite Hh. by apply Hfront. }
  apply Forall_cons in Hne as Hne'. destruct Hne' as [Hb Hne'].
  destruct (bins_at_top _ _ _ _ _ Hat Hb) as (t & b' & te & -> & Hh & Hte & Htk & Hb' & Hbs).
  rewrite Hh, (deref_ok _ _ _ Hte). simpl. rewrite ev_le_key, Htk.
  destruct (key_lt k (ev_key e)) eqn:Hlt; simpl; [|by apply Hfront].
  destruct (find_bin_spec _ e (size (events q)) _ _ _ _ _ Hat Hlt Hne') with (pe := te)
    as (pre & k' & t' & b3 & post & curr & Heq & -> & Hc & Hbel & Hpost); [|done|].
  { pose proof (bins_fuel _ _ _ Hat Hnd Hne) as Hf. simpl in Hf. lia. }
  simpl. rewrite Heq, Hh in *. rewrite flat_app, flat_cons in Hp.
  apply Forall_app in Hne as [Hnepre [Hneb Hnepost]%Forall_cons].
  destruct (insertBefore_spec _ _ _ p e Hc Hnepost) as (e' & -> & Hd & Hb4);
    [rewrite !elem_of_app in Hp; tauto|done|done|]. simpl.
  assert (t' ∈ flat (pre ++ (k', t' :: b3) :: post)) as Ht'.
  { rewrite flat_app, flat_cons, !elem_of_app. right. left. by left. }
  destruct (bins_at_dom _ _ _ _ Hat Ht') as (et & Het & _).
  assert (t' <> p) as Htp.
  { intros ->. apply Hp. rewrite !elem_of_app. right. left. by left. }
  erewrite (assign_ok t') by by rewrite lookup_insert_ne. simpl.
  rewrite flat_app, flat_cons in Hnd.
  eexists. split; [done|]. split.
  - apply Hrepr. simpl.
    change (pre ++ (k', t' :: b3) :: post) with (pre ++ [(k', t' :: b3)] ++ post) at 1.
    rewrite app_assoc, bins_insert_app, <- app_assoc by done. simpl.
    assert (forall x, x ∈ flat post -> x <> t') as Hpt.
    { intros x Hx ->. apply NoDup_app in Hnd as (_ & _ & Hnd).
      apply NoDup_app in Hnd as (_ & Hnd & _). apply (Hnd t'); [by left|done]. }
    apply (bins_splice (events q) _ _ _ _ _ _ post _ (Some p)); [done|done| | |].
    + apply (bins_at_frame (<[p:=e']> (events q))); [by apply bins_insert_nonempty| |done].
      intros x Hx. rewrite bins_insert_flat in Hx. apply link_insert_ne.
      apply elem_of_cons in Hx as [->|Hx]; [done|by apply Hpt].
    + intros x Hx. rewrite !link_insert_ne; [done| |].
      * intros ->. apply Hp. rewrite !elem_of_app in *. destruct Hx; [by left|]. right. left. by right.
      * intros ->. apply NoDup_app in Hnd as (_ & Hnd1 & Hnd2). apply NoDup_app in Hnd2 as (Hnd2 & _ & _).
        apply elem_of_app in Hx as [Hx|Hx].
        -- apply (Hnd1 _ Hx). rewrite elem_of_app. left. by left.
        -- by apply NoDup_cons in Hnd2 as [? _].
    + exists et, (set_nextBin (Some p) et). rewrite lookup_insert_eq. done.
  - split; [done|]. simpl. apply (same_data_trans _ (<[p := e']> (events q))); [by eapply same_data_insert|].
    eapply same_data_insert; [by rewrite lookup_insert_ne|done].
Qed.

(** ** Removal *)

Abbreviation without p := (filter (fun x : positive => x <> p)).

Lemma without_absent p (l : list positive) : p ∉ l -> without p l = l.
Proof.
  induction l as [|x l IH]; [done|]. intros [Hx Hl]%not_elem_of_cons.
  rewrite filter_cons_True by congruence. by rewrite IH.
Qed.

Lemma unlink_spec h k p fuel c b :
  bin_at h k (Some c) (c :: b) -> NoDup (c :: b) -> p ∈ b -> (length b <= fuel)%nat ->
  forall ce, h !! c = Some ce ->
  exists x ex n, unlink fuel p c (nextInBin ce) h = Ok (<[x := set_nextInBin n ex]> h) /\
    h !! x = Some ex /\ x ∈ c :: b /\
    bin_at (<[x := set_nextInBin n ex]> h) k (Some c) (c :: without p b).
Proof.
  revert c fuel. induction b as [|n b IH]; intros c fuel Hat Hnd Hp Hfuel ce Hce;
    [by apply not_elem_of_nil in Hp|].
  apply NoDup_cons in Hnd as [Hcn Hnd].
  destruct Hat as (_ & e0 & He0 & Hk & Hb). assert (e0 = ce) as -> by congruence.
  pose proof Hb as (Hn & ne & Hne & Hkn & Hb'). simpl in Hfuel. rewrite Hn.
  apply NoDup_cons in Hnd as Hnd'. destruct Hnd' as [Hnb Hndb].
  destruct fuel as [|fuel]; [lia|]. simpl. rewrite (deref_ok _ _ _ Hne). simpl.
  destruct (decide (p = n)) as [->|Hpn].
  - rewrite (assign_ok _ _ _ _ Hce). exists c, ce, (nextInBin ne). split; [done|]. split; [done|].
    split; [by left|]. rewrite filter_cons_False by tauto. rewrite without_absent by done.
    split; [done|]. exists (set_nextInBin (nextInBin ne) ce). rewrite lookup_insert_eq.
    split; [done|]. split; [done|]. simpl. apply (bin_at_frame h); [|done].
    intros x Hx. apply link_insert_ne. intros ->. apply Hcn. by right.
  - apply elem_of_cons in Hp as [->|Hp]; [done|].
    destruct (IH n fuel) with (ce := ne) as (x & ex & m & -> & Hex & Hx & Hat');
      [by split; [|exists ne]|done|done|lia|done|].
    exists x, ex, m. split; [done|]. split; [done|]. split; [by right|].
    assert (x <> c) as Hxc by (intros ->; done).
    split; [done|]. exists ce. rewrite lookup_insert_ne by done. split; [done|]. split; [done|].
    rewrite filter_cons_True by congruence. by rewrite Hn.
Qed.

Lemma unlink_absent h k p fuel c o b :
  bin_at h k o b -> p ∉ b -> (length b <= fuel)%nat -> unlink fuel p c o h = Panic.
Proof.
  revert c o fuel. induction b as [|n b IH]; intros c o fuel Hat Hp Hfuel; simpl in Hat.
  { subst. by destruct fuel. }
  destruct Hat as (-> & ne & Hne & _ & Hb). simpl in Hfuel. destruct fuel as [|fuel]; [lia|].
  simpl. rewrite (deref_ok _ _ _ Hne). simpl.
  apply not_elem_of_cons in Hp as [Hpn Hp]. rewrite decide_False by done. apply IH; [done|done|lia].
Qed.

Definition cons_bin (k : key) (b : list positive) (bs : bins) : bins :=
  match b with [] => bs | _ => (k, b) :: bs end.
Definition bins_remove (p : positive) (bs : bins) : bins :=
  bs ≫= (fun kb => cons_bin kb.1 (without p kb.2) []).

Lemma bins_remove_cons p k b bs :
  bins_remove p ((k, b) :: bs) = cons_bin k (without p b) (bins_remove p bs).
Proof. unfold bins_remove. simpl. by destruct (without p b). Qed.

Lemma bins_remove_app p pre post : bins_remove p (pre ++ post) = bins_remove p pre ++ bins_remove p post.
Proof. unfold bins_remove. by rewrite bind_app. Qed.

Lemma bins_remove_absent p bs :
  Forall (fun kb => kb.2 <> []) bs -> p ∉ flat bs -> bins_remove p bs = bs.
Proof.
  induction 1 as [|[k b] bs Hb _ IH]; [done|]. rewrite flat_cons, bins_remove_cons.
  intros [Hp1 Hp2]%not_elem_of_app. rewrite without_absent, IH by done. by destruct b.
Qed.

Lemma bins_remove_agenda p bs : to_agenda (bins_remove p bs) = agenda_remove p (to_agenda bs).
Proof.
  induction bs as [|[k b] bs IH]; [done|]. rewrite bins_remove_cons, to_agenda_cons.
  unfold agenda_remove. rewrite filter_app. fold (agenda_remove p (to_agenda bs)). rewrite <- IH.
  assert (filter (fun kp : key * positive => kp.2 <> p) ((k,.) <$> b) = (k,.) <$> without p b) as ->.
  { induction b as [|x b IHb]; [done|]. rewrite fmap_cons. destruct (decide (x = p)) as [->|].
    - rewrite !filter_cons_False by tauto. done.
    - rewrite !filter_cons_True by done. rewrite fmap_cons. by f_equal. }
  by destruct (without p b).
Qed.

Lemma bins_remove_nonempty p bs : Forall (fun kb => kb.2 <> []) (bins_remove p bs).
Proof.
  induction bs as [|[k b] bs IH]; [by constructor|]. rewrite bins_remove_cons.
  destruct (without p b); [done|]. by constructor.
Qed.

Lemma bins_remove_sorted p bs : bins_sorted bs -> bins_sorted (bins_remove p bs).
Proof.
  unfold bins_sorted. induction bs as [|[k b] bs IH]; [done|]. rewrite bins_remove_cons.
  simpl. intros [Hs Hk]%StronglySorted_inv. destruct (without p b); [by apply IH|].
  simpl. constructor; [by apply IH|]. clear -Hk. induction bs as [|[k2 b2] bs IH]; [done|].
  rewrite bins_remove_cons. simpl in Hk. apply Forall_cons in Hk as [H1 H2].
  destruct (without p b2); [by apply IH|]. simpl. constructor; [done|by apply IH].
Qed.

Lemma bins_remove_flat p bs : flat (bins_remove p bs) = without p (flat bs).
Proof.
  induction bs as [|[k b] bs IH]; [done|]. rewrite bins_remove_cons, flat_cons, filter_app, <- IH.
  by destruct (without p b).
Qed.

(** Removing an event from the bin it is in. *)
Lemma removeItem_spec h k p t b bs :
  bins_at h (Some t) ((k, t :: b) :: bs) -> Forall (fun kb => kb.2 <> []) bs ->
  NoDup ((t :: b) ++ flat bs) -> p ∈ t :: b ->
  exists o h', removeItem p t h = Ok (o, h') /\
    bins_at h' o (cons_bin k (without p (t :: b)) bs) /\ same_data h h' /\
    forall x, x ∉ t :: b -> h' !! x = h !! x.
Proof.
  intros Hat Hne Hnd Hp.
  destruct (bins_at_top _ _ _ _ _ Hat ltac:(done)) as (t' & b' & te & [= <- <-] & _ & Hte & Htk & Hb & Hbs).
  apply NoDup_app in Hnd as (Hndb & Hdisj & _). apply NoDup_cons in Hndb as Hndb'.
  destruct Hndb' as [Htb Hnb]. unfold removeItem. rewrite (deref_ok _ _ _ Hte). simpl.
  destruct (decide (p = t)) as [->|Hpt].
  - rewrite filter_cons_False by tauto. rewrite without_absent by done.
    destruct b as [|n b].
    + simpl in Hb. rewrite Hb. eexists _, h. split; [done|]. simpl. split; [done|].
      split; [apply same_data_refl|done].
    + destruct Hb as (Hn & ne & Hne' & Hkn & Hb). rewrite Hn. rewrite (assign_ok _ _ _ _ Hne'). simpl.
      eexists _, _. split; [done|].
      assert (forall x, x ∈ b ++ flat bs -> link (<[n:=set_nextBin (nextBin te) ne]> h) x = link h x) as Hfr.
      { intros x Hx. apply link_insert_ne. intros ->. apply elem_of_app in Hx as [Hx|Hx].
        - by apply NoDup_cons in Hnb as [? _].
        - apply (Hdisj n); [right; by left|done]. }
      split_and!.
      * exists n, (set_nextBin (nextBin te) ne). rewrite lookup_insert_eq. split; [done|].
        split; [done|]. split.
        -- split; [done|]. eexists. split; [done|]. split; [done|].
           apply (bin_at_frame h); [|done]. intros x Hx. apply Hfr, elem_of_app. by left.
        -- apply (bins_at_frame h); [done| |done]. intros x Hx. apply Hfr, elem_of_app. by right.
      * by eapply same_data_insert.
      * intros x Hx. apply lookup_insert_ne. intros ->. apply Hx. right. by left.
  - apply elem_of_cons in Hp as [?|Hp]; [done|].
    rewrite filter_cons_True by congruence.
    assert (bin_at h k (Some t) (t :: b)) as Hbin by by destruct Hat as (? & ? & _ & _ & ? & _).
    destruct (unlink_spec h k p (size h) t b Hbin Hndb Hp) with (ce := te)
      as (x & ex & n & -> & Hex & Hx & Hat'); [|done|].
    { transitivity (length (t :: b)); [simpl; lia|]. apply nodup_fuel; [done|].
      intros y Hy. destruct (bin_at_dom _ _ _ _ _ Hbin Hy) as (e & He & _). by exists e. }
    simpl. eexists _, _. split; [done|]. split_and!.
    + destruct Hat' as (_ & te' & Hte' & Hk' & Hrest). exists t, te'. split; [done|]. split; [done|].
      split; [split; [done|]; by exists te'|].
      assert (nextBin te' = nextBin te) as ->.
      { destruct (decide (x = t)) as [->|].
        - rewrite lookup_insert_eq in Hte'. simplify_eq. done.
        - rewrite lookup_insert_ne in Hte' by done. by simplify_eq. }
      apply (bins_at_frame h); [done| |done]. intros y Hy. apply link_insert_ne. intros ->.
      by apply (Hdisj x).
    + by eapply same_data_insert.
    + intros y Hy. apply lookup_insert_ne. by intros ->.
Qed.

Lemma to_agenda_key bs k p : (k, p) ∈ to_agenda bs -> k ∈ bs.*1.
Proof.
  induction bs as [|[k' b] bs IH]; [by intros ?%not_elem_of_nil|]. rewrite to_agenda_cons.
  intros [(? & [= -> ->] & _)%list_elem_of_fmap|H]%elem_of_app; [by left|right; by apply IH].
Qed.

(** An event whose key is not above the first bin's is in the first bin. *)
Lemma in_first_bin h o k b bs p e :
  bins_at h o ((k, b) :: bs) -> bins_sorted ((k, b) :: bs) -> p ∈ flat ((k, b) :: bs) ->
  h !! p = Some e -> key_lt k (ev_key e) = false -> p ∈ b /\ ev_key e = k.
Proof.
  intros (t & te & -> & Hte & Hb & Hbs) Hs Hp He Hk. rewrite flat_cons in Hp.
  apply elem_of_app in Hp as [Hp|Hp].
  - destruct (bin_at_dom _ _ _ _ _ Hb Hp) as (e' & He' & <-). split; [done|]. congruence.
  - destruct (bins_at_dom _ _ _ _ Hbs Hp) as (e' & He' & Hin%to_agenda_key).
    unfold bins_sorted in Hs. simpl in Hs. apply StronglySorted_inv in Hs as [_ Hs].
    assert (e' = e) as -> by congruence. rewrite Forall_forall in Hs. by rewrite Hs in Hk.
Qed.

(** An event whose key is not below is not in the bins below. *)
Lemma not_below h o pre post p e :
  bins_at h o (pre ++ post) -> below pre (ev_key e) -> p ∈ flat (pre ++ post) ->
  h !! p = Some e -> p ∈ flat post.
Proof.
  intros Hat Hb Hp He. destruct (bins_at_dom _ _ _ _ Hat Hp) as (e' & He' & Hin).
  assert (e' = e) as -> by congruence. rewrite to_agenda_app in Hin.
  apply elem_of_app in Hin as [Hin|Hin].
  - apply below_agenda in Hb. rewrite Forall_forall in Hb. apply Hb in Hin. simpl in Hin.
    by rewrite key_lt_irrefl in Hin.
  - rewrite <- to_agenda_snd. by apply (list_elem_of_fmap_2 snd) in Hin.
Qed.

Lemma remove_spec q a p e :
  repr q a -> p ∈ a.*2 -> events q !! p = Some e -> queue e = Some (qid q) ->
  exists q', remove p q = Ok q' /\ repr q' (agenda_remove p a) /\ relinked q q'.
Proof.
  intros (bs & Hat & Hsort & Hnd & Hne & ->) Hp He Hq. rewrite to_agenda_snd in Hp.
  assert (forall q', bins_at (events q') (head q') (bins_remove p bs) ->
    repr q' (agenda_remove p (to_agenda bs))) as Hrepr.
  { intros q' Hat'. exists (bins_remove p bs). split; [done|].
    split; [by apply bins_remove_sorted|].
    split; [by rewrite bins_remove_flat; apply NoDup_filter|].
    split; [by apply bins_remove_nonempty|]. by rewrite bins_remove_agenda. }
  remember (agenda_remove p (to_agenda bs)) as a' eqn:Ha'. clear Ha'.
  destruct bs as [|[k b] bs]; [by apply not_elem_of_nil in Hp|].
  apply Forall_cons in Hne as Hne'. destruct Hne' as [Hb Hne'].
  destruct (bins_at_top _ _ _ _ _ Hat Hb) as (t & b' & te & -> & Hh & Hte & Htk & Hb' & Hbs).
  unfold remove. rewrite Hh, (deref_ok _ _ _ He), (deref_ok _ _ _ Hte). simpl.
  rewrite bool_decide_true by done. rewrite ev_eq_key, Htk. rewrite Hh in Hat.
  destruct (bool_decide_reflect (k = ev_key e)) as [Hk|Hk].
  - subst k. destruct (in_first_bin _ _ _ _ _ _ _ Hat Hsort Hp He) as [Hpb _]; [rewrite Hk; apply key_lt_irrefl|].
    rewrite flat_cons in Hnd.
    destruct (removeItem_spec _ _ p t b' bs Hat Hne' Hnd Hpb) as (o & h' & -> & Hat' & Hsd & _).
    simpl. eexists. split; [done|]. split; [|by split].
    apply Hrepr. cbn [events head set_head]. rewrite bins_remove_cons, (bins_remove_absent p bs); [done|done|].
    apply NoDup_app in Hnd as (_ & Hnd & _). by apply Hnd.
  - assert (key_lt k (ev_key e) = true) as Hlt.
    { destruct (key_lt k (ev_key e)) eqn:E; [done|].
      destruct (in_first_bin _ _ _ _ _ _ _ Hat Hsort Hp He E) as [_ ?]. congruence. }
    destruct (find_bin_spec _ e (size (events q)) _ _ _ _ _ Hat Hlt Hne') with (pe := te)
      as (pre & k' & t' & b3 & post & curr & Heq & -> & Hc & Hbel & Hpost); [|done|].
    { pose proof (bins_fuel _ _ _ Hat Hnd Hne) as Hf. simpl in Hf. lia. }
    simpl. rewrite Heq in *.
    assert (p ∈ flat post) as Hpp.
    { apply (not_below (events q) (Some t) (pre ++ [(k', t' :: b3)]) post p e);
        rewrite <- ?app_assoc; done. }
    apply Forall_app in Hne as [Hnepre [Hneb Hnepost]%Forall_cons].
    rewrite flat_app, flat_cons in Hnd. apply NoDup_app in Hnd as (Hndpre & Hd1 & Hnd2).
    apply NoDup_app in Hnd2 as (Hndb & Hd2 & Hndpost).
    assert (bins_sorted post) as Hsortpost.
    { clear -Hsort. unfold bins_sorted in *. rewrite fmap_app in Hsort.
      induction pre; simpl in Hsort; apply StronglySorted_inv in Hsort as [Hs _]; [done|by apply IHpre]. }
    destruct post as [|[k2 b2] post]; [by apply not_elem_of_nil in Hpp|].
    destruct (in_first_bin _ _ _ _ _ _ _ Hc Hsortpost Hpp He Hpost) as [Hpb Hk2].
    apply Forall_cons in Hnepost as [Hb2 Hnepost].
    destruct (bins_at_top _ _ _ _ _ Hc Hb2) as (t2 & b2' & te2 & -> & -> & Hte2 & Htk2 & _ & _).
    rewrite (deref_ok _ _ _ Hte2). simpl. rewrite ev_ne_key, Htk2, bool_decide_true by done. simpl.
    destruct (removeItem_spec _ _ p t2 b2' post Hc Hnepost Hndpost Hpb) as (o & h' & -> & Hat' & Hsd & Hfr).
    simpl.
    assert (t' ∈ flat (pre ++ (k', t' :: b3) :: (k2, t2 :: b2') :: post)) as Ht'.
    { rewrite flat_app, flat_cons, !elem_of_app. right. left. by left. }
    destruct (bins_at_dom _ _ _ _ Hat Ht') as (et & Het & _).
    assert (h' !! t' = Some et) as Het'.
    { rewrite Hfr; [done|]. intros Hin. apply (Hd2 t'); [by left|]. rewrite flat_cons. apply elem_of_app. by left. }
    rewrite (assign_ok _ _ _ _ Het'). simpl. eexists. split; [done|]. split.
    + apply Hrepr. cbn [events head set_head]. rewrite bins_remove_app, !bins_remove_cons.
      assert (p ∉ flat pre) as Hp1.
      { intros Hin. apply (Hd1 p Hin). apply elem_of_app. by right. }
      assert (p ∉ t' :: b3) as Hp2 by (intros Hin; by apply (Hd2 p Hin)).
      assert (p ∉ flat post) as Hp3.
      { rewrite flat_cons in Hndpost. apply NoDup_app in Hndpost as (_ & Hd3 & _). by apply Hd3. }
      rewrite (bins_remove_absent p pre), (bins_remove_absent p post), (without_absent p (t' :: b3)) by done.
      change (cons_bin k' (t' :: b3) ?r) with ((k', t' :: b3) :: r).
      apply (bins_splice (events q) _ _ _ _ _ _ ((k2, t2 :: b2') :: post) _ o); [done|done| | |].
      * apply (bins_at_frame h'); [by destruct (without p (t2 :: b2')); [|constructor]| |done].
        intros x Hx. apply link_insert_ne. intros ->. apply (Hd2 t'); [by left|].
        rewrite flat_cons. destruct (without p (t2 :: b2')) eqn:E.
        -- apply elem_of_app. by right.
        -- cbn [cons_bin] in Hx. rewrite flat_cons in Hx. rewrite <- E in Hx.
           apply elem_of_app in Hx as [[_ Hx]%list_elem_of_filter|Hx]; apply elem_of_app; auto.
      * intros x Hx. rewrite link_insert_ne.
        -- unfold link. rewrite Hfr; [done|]. intros Hin. apply elem_of_app in Hx as [Hx|Hx].
           ++ apply (Hd1 x Hx). rewrite flat_cons, !elem_of_app. auto.
           ++ apply (Hd2 x); [by right|]. rewrite flat_cons, elem_of_app. by left.
        -- intros ->. apply elem_of_app in Hx as [Hx|Hx].
           ++ apply (Hd1 t' Hx). rewrite elem_of_app. left. by left.
           ++ by apply NoDup_cons in Hndb as [? _].
      * exists et, (set_nextBin o et). rewrite lookup_insert_eq. done.
    + split; [done|]. simpl. apply (same_data_trans _ h'); [done|]. by eapply same_data_insert.
Qed.

(** Removing an event the queue does not hold stops the simulator. *)
Lemma removeItem_absent h k p t b bs :
  bins_at h (Some t) ((k, t :: b) :: bs) -> NoDup (t :: b) -> p ∉ t :: b -> removeItem p t h = Panic.
Proof.
  intros Hat Hnd Hp. pose proof Hat as (t' & te & [= <-] & Hte & Hbin & _).
  unfold removeItem. rewrite (deref_ok _ _ _ Hte). simpl.
  apply not_elem_of_cons in Hp as [Hpt Hp]. rewrite decide_False by done.
  destruct Hbin as (_ & te' & Hte' & _ & Hb). assert (te' = te) as -> by congruence.
  rewrite (unlink_absent h k p _ t _ b Hb Hp); [done|].
  apply NoDup_cons in Hnd as [_ Hnd]. apply nodup_fuel; [done|]. intros y Hy.
  destruct (bin_at_dom _ _ _ _ _ Hb Hy) as (e & He & _). by exists e.
Qed.

Lemma remove_absent q a p e :
  repr q a -> p ∉ a.*2 -> events q !! p = Some e -> remove p q = Panic.
Proof.
  intros (bs & Hat & Hsort & Hnd & Hne & ->) Hp He. rewrite to_agenda_snd in Hp.
  unfold remove. destruct bs as [|[k b] bs]; [simpl in Hat; by rewrite Hat|].
  apply Forall_cons in Hne as Hne'. destruct Hne' as [Hb Hne'].
  destruct (bins_at_top _ _ _ _ _ Hat Hb) as (t & b' & te & -> & Hh & Hte & Htk & Hb' & Hbs).
  rewrite Hh, (deref_ok _ _ _ He), (deref_ok _ _ _ Hte). cbn [mbind res_bind].
  destruct (bool_decide (queue e = Some (qid q))); [|done].
  rewrite ev_eq_key, Htk. rewrite Hh in Hat. rewrite flat_cons in Hnd, Hp.
  apply not_elem_of_app in Hp as [Hp1 Hp2].
  apply NoDup_app in Hnd as Hnd'. destruct Hnd' as (Hndb & _ & Hndbs).
  destruct (bool_decide (k = ev_key e)) eqn:Hk.
  { by rewrite (removeItem_absent _ _ _ _ _ _ Hat Hndb Hp1). }
  destruct (key_lt k (ev_key e)) eqn:Hlt.
  - destruct (find_bin_spec _ e (size (events q)) _ _ _ _ _ Hat Hlt Hne') with (pe := te)
      as (pre & k' & t' & b3 & post & curr & Heq & -> & Hc & Hbel & Hpost); [|done|].
    { pose proof (bins_fuel _ _ _ Hat Hnd Hne) as Hf. simpl in Hf. lia. }
    cbn [mbind res_bind].
    assert (Forall (fun kb => kb.2 <> []) post) as Hnepost.
    { rewrite Heq in Hne. apply Forall_app in Hne as [_ Hne]. by apply Forall_cons in Hne as [_ ?]. }
    assert (NoDup (flat post) /\ p ∉ flat post) as [Hndpost Hpp].
    { assert (flat ((k, t :: b') :: bs) = flat (pre ++ (k', t' :: b3) :: post)) as Hfl by by rewrite Heq.
      rewrite flat_cons, flat_app, flat_cons in Hfl. split.
      - rewrite Hfl in Hnd. apply NoDup_app in Hnd as (_ & _ & Hnd). by apply NoDup_app in Hnd as (_ & _ & ?).
      - intros Hin. assert (p ∈ (t :: b') ++ flat bs) as [?|?]%elem_of_app; [|done|done].
        rewrite Hfl, !elem_of_app. auto. }
    destruct post as [|[k2 b2] post]; [simpl in Hc; by rewrite Hc|].
    apply Forall_cons in Hnepost as [Hb2 Hnepost].
    destruct (bins_at_top _ _ _ _ _ Hc Hb2) as (t2 & b2' & te2 & -> & -> & Hte2 & Htk2 & _ & _).
    rewrite (deref_ok _ _ _ Hte2). cbn [mbind res_bind]. rewrite ev_ne_key, Htk2.
    destruct (bool_decide (k2 = ev_key e)); [|done]. cbn [negb].
    rewrite flat_cons in Hndpost, Hpp. apply not_elem_of_app in Hpp as [Hpp _].
    apply NoDup_app in Hndpost as (Hndb2 & _ & _).
    by rewrite (removeItem_absent _ _ _ _ _ _ Hc Hndb2 Hpp).
  - (* the head's key is above: the search stops at once *)
    destruct bs as [|[k2 b2] bs].
    + simpl in Hbs. rewrite Hbs. by destruct (size (events q)).
    + apply Forall_cons in Hne' as [Hb2 Hne'].
      destruct (bins_at_top _ _ _ _ _ Hbs Hb2) as (t2 & b2' & te2 & -> & Hn & Hte2 & Htk2 & _ & _).
      rewrite Hn. unfold bins_sorted in Hsort. simpl in Hsort.
      apply StronglySorted_inv in Hsort as [_ Hs]. apply Forall_cons in Hs as [Hs _].
      assert (key_lt k2 (ev_key e) = false /\ bool_decide (k2 = ev_key e) = false) as [Hlt2 Hne2].
      { apply bool_decide_eq_false in Hk. split.
        - destruct (key_lt k2 (ev_key e)) eqn:E; [|done]. by rewrite (key_lt_trans _ _ _ Hs E) in Hlt.
        - apply bool_decide_eq_false. intros ->. by rewrite Hs in Hlt. }
      assert (find_bin (size (events q)) e t (Some t2) (events q) = Ok (t, Some t2)) as ->.
      { assert (ev_lt te2 e = false) as E by by rewrite ev_lt_key, Htk2.
        destruct (size (events q)); simpl; rewrite (deref_ok _ _ _ Hte2); simpl; by rewrite E. }
      cbn [mbind res_bind]. rewrite (deref_ok _ _ _ Hte2). cbn [mbind res_bind].
      by rewrite ev_ne_key, Htk2, Hne2.
Qed.

(** ** The invariant of a queue *)

Record queue_inv (q : EventQueue) (a : agenda) : Prop := {
  qi_repr : repr q a;
  (** The Scheduled flag marks the events on the queue. *)
  qi_sched : forall p e, events q !! p = Some e ->
    scheduled e = true <-> p ∈ a.*2 \/ p ∈ async_queue q;
  qi_queue : forall p e, p ∈ a.*2 -> events q !! p = Some e -> queue e = Some (qid q);
  qi_async : forall p, p ∈ async_queue q -> p ∉ a.*2;
  (** Nothing is scheduled in the past. *)
  qi_time : Forall (fun kp => _curTick q <= kp.1.1) a;
  (** What serviceOne asserts of exit events. *)
  qi_exit : forall p e, events q !! p = Some e ->
    isExitEvent e = true -> isSet (flags e) Managed = false \/ isSet (flags e) IsMainQueue = false;
}.

Lemma repr_frame q h' a :
  repr q a -> (forall p, p ∈ a.*2 -> link h' p = link (events q) p) -> repr (set_events h' q) a.
Proof.
  intros (bs & Hat & Hs & Hnd & Hne & ->) Hf. exists bs. split; [|done].
  apply (bins_at_frame (events q)); [done| |done]. intros p Hp. apply Hf. by rewrite to_agenda_snd.
Qed.

Lemma repr_lookup q a k p :
  repr q a -> (k, p) ∈ a -> exists e, events q !! p = Some e /\ ev_key e = k.
Proof.
  intros (bs & Hat & Hs & Hnd & Hne & ->). clear Hs Hnd Hne. revert Hat. generalize (head q).
  induction bs as [|[k' b] bs IH]; intros o; [by intros _ ?%not_elem_of_nil|].
  intros (t & te & _ & _ & Hb & Hbs). rewrite to_agenda_cons.
  intros [(x & [= -> ->] & Hx)%list_elem_of_fmap|H]%elem_of_app.
  - by apply (bin_at_dom _ _ _ _ _ Hb).
  - by eapply IH.
Qed.

Lemma repr_snd q a p : repr q a -> p ∈ a.*2 -> exists e, events q !! p = Some e /\ (ev_key e, p) ∈ a.
Proof.
  intros Hr ([k p'] & -> & Hin)%list_elem_of_fmap. simpl.
  destruct (repr_lookup _ _ _ _ Hr Hin) as (e & He & <-). eauto.
Qed.

Lemma repr_nodup q a : repr q a -> NoDup a.*2.
Proof. intros (bs & _ & _ & Hnd & _ & ->). by rewrite to_agenda_snd. Qed.

Lemma agenda_insert_snd k p a : (agenda_insert k p a).*2 ≡ₚ p :: a.*2.
Proof.
  induction a as [|[k' p'] a IH]; [done|]. simpl. destruct (key_lt k' k); [|done].
  rewrite fmap_cons, IH. simpl. apply perm_swap.
Qed.

Lemma agenda_insert_elem k p a kp : kp ∈ agenda_insert k p a <-> kp = (k, p) \/ kp ∈ a.
Proof.
  induction a as [|[k' p'] a IH]; simpl; [rewrite list_elem_of_singleton, elem_of_nil; tauto|].
  destruct (key_lt k' k); rewrite !elem_of_cons, ?IH; tauto.
Qed.

Lemma agenda_remove_snd p a x : x ∈ (agenda_remove p a).*2 <-> x ∈ a.*2 /\ x <> p.
Proof.
  unfold agenda_remove. rewrite !list_elem_of_fmap. split.
  - intros (kp & -> & [? ?]%list_elem_of_filter). eauto.
  - intros [(kp & -> & ?) ?]. exists kp. split; [done|]. by apply list_elem_of_filter.
Qed.

(** ** Flag words *)

Lemma isSet_single fl i : 0 <= i -> isSet fl (2 ^ i) = Z.testbit fl i.
Proof.
  intros Hi. unfold isSet. destruct (Z.testbit fl i) eqn:E.
  - apply negb_true_iff, Z.eqb_neq. intros H.
    assert (Z.testbit (Z.land fl (2 ^ i)) i = false) as Hb by (rewrite H; apply Z.bits_0).
    rewrite Z.land_spec, E, Z.pow2_bits_true in Hb by done. done.
  - apply negb_false_iff, Z.eqb_eq. apply bits_ext. intros j Hj.
    rewrite Z.land_spec, Z.bits_0. destruct (decide (i = j)) as [<-|]; [by rewrite E|].
    rewrite Z.pow2_bits_false by done. apply andb_false_r.
Qed.

Lemma flag_bits fl :
  isSet fl Squashed = Z.testbit fl 0 /\ isSet fl Scheduled = Z.testbit fl 1 /\
  isSet fl Managed = Z.testbit fl 2 /\ isSet fl IsExitEvent = Z.testbit fl 4 /\
  isSet fl IsMainQueue = Z.testbit fl 5.
Proof.
  split_and!; [apply (isSet_single fl 0)|apply (isSet_single fl 1)|apply (isSet_single fl 2)
    |apply (isSet_single fl 4)|apply (isSet_single fl 5)]; lia.
Qed.

Lemma testbit_set_flag fl i j :
  0 <= i < 16 -> 0 <= j < 16 -> Z.testbit (set_flag 16 fl (2 ^ i)) j = (j =? i) || Z.testbit fl j.
Proof.
  intros Hi Hj. unfold set_flag. rewrite testbit_wrap_u, Z.lor_spec by lia.
  rewrite Z.pow2_bits_eqb by lia. rewrite (proj2 (Z.ltb_lt j 16)) by lia.
  rewrite (Z.eqb_sym i j). simpl. apply orb_comm.
Qed.

Lemma testbit_clear fl i j :
  0 <= i < 16 -> 0 <= j < 16 -> Z.testbit (clear 16 fl (2 ^ i)) j = negb (j =? i) && Z.testbit fl j.
Proof.
  intros Hi Hj. unfold clear. rewrite testbit_wrap_u, Z.land_spec, Z.lnot_spec by lia.
  rewrite Z.pow2_bits_eqb by lia. rewrite (proj2 (Z.ltb_lt j 16)) by lia.
  rewrite (Z.eqb_sym i j). simpl. apply andb_comm.
Qed.

(** ** Operations on the invariant *)

Lemma link_set_flags h p e f x : h !! p = Some e -> link (<[p := set_flags f e]> h) x = link h x.
Proof.
  intros He. unfold link. destruct (decide (x = p)) as [->|].
  - by rewrite lookup_insert_eq, He.
  - by rewrite lookup_insert_ne.
Qed.

(** The queue changed only in the event [p] and in links. *)
Lemma queue_inv_change q q' a a' p :
  queue_inv q a -> qid q' = qid q -> async_queue q' = async_queue q ->
  (forall x, x <> p -> data <$> events q' !! x = data <$> events q !! x) ->
  repr q' a' -> (forall x, x <> p -> x ∈ a'.*2 <-> x ∈ a.*2) -> p ∉ async_queue q ->
  (forall e, events q' !! p = Some e -> (scheduled e = true <-> p ∈ a'.*2) /\
     (p ∈ a'.*2 -> queue e = Some (qid q)) /\
     (isExitEvent e = true -> isSet (flags e) Managed = false \/ isSet (flags e) IsMainQueue = false)) ->
  Forall (fun kp => _curTick q' <= kp.1.1) a' ->
  queue_inv q' a'.
Proof.
  intros [Hr Hs Hq Ha Ht Hx] Hid Has Hd Hr' Hsnd Hpa Hp Ht'.
  assert (forall x e', x <> p -> events q' !! x = Some e' ->
    exists e, events q !! x = Some e /\ flags e' = flags e /\ queue e' = queue e) as Hold.
  { intros x e' Hne He'. specialize (Hd x Hne). rewrite He' in Hd.
    destruct (events q !! x) as [e|]; [|done]. simpl in Hd. injection Hd as H1 H2 H3 H4. eauto. }
  split; [done| | | |done|].
  - intros x e' He'. rewrite Has. destruct (decide (x = p)) as [->|Hne].
    + destruct (Hp e' He') as [-> _]. tauto.
    + destruct (Hold x e' Hne He') as (e & He & Hf & _). unfold scheduled in *. rewrite Hf.
      rewrite (Hs x e He), Hsnd by done. done.
  - intros x e' Hin He'. rewrite Hid. destruct (decide (x = p)) as [->|Hne].
    + by apply (Hp e' He').
    + destruct (Hold x e' Hne He') as (e & He & _ & ->). apply (Hq x); [by apply Hsnd|done].
  - intros x Hin Hin'. rewrite Has in Hin. assert (x <> p) by (by intros ->).
    apply (Ha x Hin). by apply Hsnd.
  - intros x e' He'. destruct (decide (x = p)) as [->|Hne]; [by apply Hp|].
    destruct (Hold x e' Hne He') as (e & He & Hf & _). unfold isExitEvent. rewrite Hf. by apply (Hx x).
Qed.

(** Bits of the flag words the operations leave. *)
Lemma exit_flags_set fl i :
  (i = 0 \/ i = 1) ->
  isSet (set_flag 16 fl (2 ^ i)) IsExitEvent = isSet fl IsExitEvent /\
  isSet (set_flag 16 fl (2 ^ i)) Managed = isSet fl Managed /\
  isSet (set_flag 16 fl (2 ^ i)) IsMainQueue = isSet fl IsMainQueue.
Proof.
  intros Hi. destruct (flag_bits fl) as (_ & _ & -> & -> & ->).
  destruct (flag_bits (set_flag 16 fl (2 ^ i))) as (_ & _ & -> & -> & ->).
  rewrite !testbit_set_flag by lia. destruct Hi as [-> | ->]; done.
Qed.

Lemma exit_flags_clear fl i :
  (i = 0 \/ i = 1) ->
  isSet (clear 16 fl (2 ^ i)) IsExitEvent = isSet fl IsExitEvent /\
  isSet (clear 16 fl (2 ^ i)) Managed = isSet fl Managed /\
  isSet (clear 16 fl (2 ^ i)) IsMainQueue = isSet fl IsMainQueue.
Proof.
  intros Hi. destruct (flag_bits fl) as (_ & _ & -> & -> & ->).
  destruct (flag_bits (clear 16 fl (2 ^ i))) as (_ & _ & -> & -> & ->).
  rewrite !testbit_clear by lia. destruct Hi as [-> | ->]; done.
Qed.

(** The flags that only the event's own class changes. *)
Abbreviation same_exit fl fl' :=
  (isSet fl' IsExitEvent = isSet fl IsExitEvent /\ isSet fl' Managed = isSet fl Managed /\
   isSet fl' IsMainQueue = isSet fl IsMainQueue).
Lemma exit_set_scheduled fl : same_exit fl (set_flag 16 fl Scheduled).
Proof. apply (exit_flags_set fl 1). by right. Qed.
Lemma exit_clear_scheduled fl : same_exit fl (clear 16 fl Scheduled).
Proof. apply (exit_flags_clear fl 1). by right. Qed.
Lemma exit_clear_squashed fl : same_exit fl (clear 16 fl Squashed).
Proof. apply (exit_flags_clear fl 0). by left. Qed.

Lemma scheduled_set fl : isSet (set_flag 16 fl Scheduled) Scheduled = true.
Proof.
  destruct (flag_bits (set_flag 16 fl Scheduled)) as (_ & -> & _).
  change Scheduled with (2 ^ 1). by rewrite testbit_set_flag by lia.
Qed.
Lemma scheduled_clear fl : isSet (clear 16 fl Scheduled) Scheduled = false.
Proof.
  destruct (flag_bits (clear 16 fl Scheduled)) as (_ & -> & _).
  change Scheduled with (2 ^ 1). by rewrite testbit_clear by lia.
Qed.
Lemma scheduled_clear_squashed fl : isSet (clear 16 fl Squashed) Scheduled = isSet fl Scheduled.
Proof.
  destruct (flag_bits (clear 16 fl Squashed)) as (_ & -> & _).
  destruct (flag_bits fl) as (_ & -> & _).
  change Squashed with (2 ^ 0). by rewrite testbit_clear by lia.
Qed.
Lemma squashed_clear fl : isSet (clear 16 fl Squashed) Squashed = false.
Proof.
  destruct (flag_bits (clear 16 fl Squashed)) as (-> & _).
  change Squashed with (2 ^ 0). by rewrite testbit_clear by lia.
Qed.
Lemma squashed_clear_scheduled fl : isSet (clear 16 fl Scheduled) Squashed = isSet fl Squashed.
Proof.
  destruct (flag_bits (clear 16 fl Scheduled)) as (-> & _).
  destruct (flag_bits fl) as (-> & _).
  change Scheduled with (2 ^ 1). by rewrite testbit_clear by lia.
Qed.

(** [schedule], [reschedule] and [checkpointReschedule] insert an event that
    has been given its time. *)
Lemma insert_at q a p e when :
  repr q a -> events q !! p = Some e -> p ∉ a.*2 ->
  exists q1 e1, insert p (set_events (<[p := setWhen when (qid q) e]> (events q)) q) = Ok q1 /\
    repr q1 (agenda_insert (when, _priority e) p a) /\
    events q1 !! p = Some e1 /\ flags e1 = flags e /\ queue e1 = Some (qid q) /\
    _when e1 = when /\ _priority e1 = _priority e /\
    (forall x, x <> p -> data <$> events q1 !! x = data <$> events q !! x) /\
    q1 = set_head (head q1) (events q1) q.
Proof.
  intros Hr He Hp.
  set (q0 := set_events (<[p := setWhen when (qid q) e]> (events q)) q).
  assert (repr q0 a) as Hr0.
  { apply repr_frame; [done|]. intros x Hx. apply link_insert_ne. by intros ->. }
  destruct (insert_spec q0 a p (setWhen when (qid q) e) Hr0 Hp) as (q1 & Hi & Hr1 & Hq1 & Hd1).
  { simpl. by rewrite lookup_insert_eq. }
  destruct (same_data_lookup _ _ p (setWhen when (qid q) e) Hd1) as (e1 & He1 & Hde1).
  { simpl. by rewrite lookup_insert_eq. }
  injection Hde1 as H1 H2 H3 H4. exists q1, e1. split; [done|]. split; [done|]. split; [done|].
  split_and!; try done.
  intros x Hx. rewrite (Hd1 x). simpl. by rewrite lookup_insert_ne.
Qed.

Lemma flags_set_ok q p e f :
  events q !! p = Some e ->
  flags_set p f q = Ok (set_events (<[p := set_flags (set_flag 16 (flags e) f) e]> (events q)) q).
Proof. intros He. unfold flags_set. by rewrite (assign_ok _ _ _ _ He). Qed.
Lemma flags_clear_ok q p e f :
  events q !! p = Some e ->
  flags_clear p f q = Ok (set_events (<[p := set_flags (clear 16 (flags e) f) e]> (events q)) q).
Proof. intros He. unfold flags_clear. by rewrite (assign_ok _ _ _ _ He). Qed.

Lemma repr_set_flags q a p e f :
  repr q a -> events q !! p = Some e -> repr (set_events (<[p := set_flags f e]> (events q)) q) a.
Proof. intros Hr He. apply repr_frame; [done|]. intros x _. by apply link_set_flags. Qed.

Lemma repr_set_head q h' a : repr (set_head (head q) h' q) a <-> repr (set_events h' q) a.
Proof. done. Qed.

(** The queue services its own thread: insertions are direct. *)
Definition own_thread (q : EventQueue) : Prop := inParallelMode q = false \/ curEventQueue q = qid q.

(** What an operation leaves alone. *)
Definition same_ctl (q q' : EventQueue) : Prop :=
  qid q' = qid q /\ _curTick q' = _curTick q /\ async_queue q' = async_queue q /\
  inParallelMode q' = inParallelMode q /\ curEventQueue q' = curEventQueue q.

Lemma unscheduled_out q a p e :
  queue_inv q a -> events q !! p = Some e -> scheduled e = false -> (p ∉ a.*2) /\ p ∉ async_queue q.
Proof.
  intros Hinv He Hs. pose proof (qi_sched _ _ Hinv p e He) as Hi. rewrite Hs in Hi.
  split; intros Hin; assert (false = true) by (apply Hi; auto); done.
Qed.

(** Inserting an unscheduled event at [when], and the flag updates that
    follow: an event that ends up scheduled, on this queue. *)
Lemma insert_and_mark q0 a0 e0 q a p e when f :
  queue_inv q0 a0 -> events q0 !! p = Some e0 -> flags e = flags e0 ->
  same_ctl q0 q -> (forall x, x <> p -> data <$> events q !! x = data <$> events q0 !! x) ->
  (forall x, x <> p -> x ∈ a.*2 <-> x ∈ a0.*2) ->
  repr q a -> events q !! p = Some e -> p ∉ a.*2 -> p ∉ async_queue q0 -> _curTick q0 <= when ->
  Forall (fun kp => _curTick q0 <= kp.1.1) a ->
  (forall fl, (isSet (f fl) Scheduled = true) /\ same_exit fl (f fl)) ->
  exists q1 e1, insert p (set_events (<[p := setWhen when (qid q) e]> (events q)) q) = Ok q1 /\
    events q1 !! p = Some e1 /\
    let q2 := set_events (<[p := set_flags (f (flags e1)) e1]> (events q1)) q1 in
    queue_inv q2 (agenda_insert (when, _priority e) p a) /\ same_ctl q0 q2.
Proof.
  intros Hinv He0 Hfl (C1 & C2 & C3 & C4 & C5) Hd Hsnd Hr He Hp Has Ht Hti Hf.
  destruct (insert_at q a p e when Hr He Hp)
    as (q1 & e1 & Hi & Hr1 & He1 & Hf1 & Hq1 & Hw1 & Hpr1 & Hd1 & Hctl).
  exists q1, e1. split; [done|]. split; [done|]. cbv zeta. rewrite Hctl. split; [|by repeat split].
  apply (queue_inv_change q0 _ a0 _ p); try done.
  - intros x Hx. simpl. rewrite lookup_insert_ne by done. by rewrite Hd1, Hd.
  - rewrite <- Hctl. by apply repr_set_flags.
  - intros x Hx. rewrite agenda_insert_snd, elem_of_cons, <- Hsnd by done. tauto.
  - intros e' He'. simpl in He'. rewrite lookup_insert_eq in He'. injection He' as <-.
    unfold scheduled, isExitEvent. simpl. destruct (Hf (flags e1)) as (-> & -> & -> & ->).
    split; [|split].
    + split; [intros _|done]. rewrite agenda_insert_snd. by left.
    + intros _. by rewrite <- C1.
    + rewrite Hf1, Hfl. by apply (qi_exit _ _ Hinv p).
  - simpl. rewrite C2. apply Forall_forall. intros kp [-> |Hin]%agenda_insert_elem; [done|].
    rewrite Forall_forall in Hti. by apply Hti.
Qed.

Lemma mark_set fl : isSet (set_flag 16 fl Scheduled) Scheduled = true /\
  same_exit fl (set_flag 16 fl Scheduled).
Proof. split; [apply scheduled_set|apply exit_set_scheduled]. Qed.

Lemma mark_clear_set fl :
  let fl' := set_flag 16 (clear 16 fl Squashed) Scheduled in
  isSet fl' Scheduled = true /\ same_exit fl fl'.
Proof.
  cbv zeta. split; [apply scheduled_set|].
  destruct (exit_set_scheduled (clear 16 fl Squashed)) as (-> & -> & ->).
  apply exit_clear_squashed.
Qed.

Lemma schedule_ok q a p e when global :
  queue_inv q a -> events q !! p = Some e -> own_thread q ->
  (inParallelMode q = true -> global = false) ->
  scheduled e = false -> initialized e = true -> _curTick q <= when ->
  exists q', schedule p when global q = Ok q' /\
    queue_inv q' (agenda_insert (when, _priority e) p a) /\ same_ctl q q'.
Proof.
  intros Hinv He Hown Hglob Hs Hi Ht. destruct (unscheduled_out _ _ _ _ Hinv He Hs) as [Hp Has].
  unfold schedule. rewrite (deref_ok _ _ _ He). cbn [mbind res_bind].
  rewrite (proj2 (Z.leb_le _ _)) by done. rewrite Hs, Hi. cbn [negb].
  rewrite (assign_ok _ _ _ _ He). cbn [mbind res_bind].
  assert (inParallelMode q && (bool_decide (qid q <> curEventQueue q) || global) = false) as Hseq.
  { destruct (inParallelMode q) eqn:E; [|done]. simpl. destruct Hown as [?|Hc]; [congruence|].
    rewrite Hglob by done. rewrite orb_false_r. apply bool_decide_eq_false. rewrite Hc. tauto. }
  cbn [inParallelMode qid curEventQueue set_events set_head]. rewrite Hseq.
  destruct (insert_and_mark q a e q a p e when (fun fl => set_flag 16 fl Scheduled))
    as (q1 & e1 & -> & He1 & Hinv2 & Hctl); try done; [apply Hinv|apply Hinv|apply mark_set|].
  cbn [mbind res_bind]. rewrite (flags_set_ok _ _ _ _ He1). eauto.
Qed.

(** [release] deletes nothing the queue holds. *)
Lemma release_ok q a p e :
  queue_inv q a -> events q !! p = Some e ->
  exists q', release p q = Ok q' /\ queue_inv q' a /\ same_ctl q q' /\
    (forall x, x <> p -> events q' !! x = events q !! x) /\
    events q' !! p = if isManaged e && negb (scheduled e) then None else Some e.
Proof.
  intros Hinv He. unfold release. rewrite (deref_ok _ _ _ He). cbn [mbind res_bind].
  destruct (isManaged e && negb (scheduled e)) eqn:E; [|exists q; by split_and!].
  assert (scheduled e = false) as Hs by (destruct (scheduled e); [by rewrite andb_false_r in E|done]).
  destruct (unscheduled_out _ _ _ _ Hinv He Hs) as [Hp Has].
  eexists. split; [done|]. split; [|split; [done|]].
  - apply (queue_inv_change q _ a _ p); try done.
    + intros x Hx. simpl. by rewrite lookup_delete_ne.
    + apply repr_frame; [apply Hinv|]. intros x Hx. unfold link. rewrite lookup_delete_ne; [done|].
      by intros ->.
    + intros e' He'. simpl in He'. by rewrite lookup_delete_eq in He'.
    + apply Hinv.
  - split.
    + intros x Hx. simpl. by rewrite lookup_delete_ne.
    + simpl. by rewrite lookup_delete_eq.
Qed.

Lemma agenda_remove_forall (P : key * positive -> Prop) p a : Forall P a -> Forall P (agenda_remove p a).
Proof.
  intros H. apply Forall_forall. intros kp [_ Hin]%list_elem_of_filter.
  rewrite Forall_forall in H. by apply H.
Qed.

(** Removing a scheduled event, and the flag updates that follow. *)
Lemma deschedule_ok q a p e :
  queue_inv q a -> events q !! p = Some e -> p ∈ a.*2 -> own_thread q -> initialized e = true ->
  exists q', deschedule p q = Ok q' /\ queue_inv q' (agenda_remove p a) /\ same_ctl q q' /\
    (isManaged e = true -> events q' !! p = None) /\
    (isManaged e = false -> exists e', events q' !! p = Some e' /\ scheduled e' = false /\ squashed e' = false).
Proof.
  intros Hinv He Hp Hown Hi.
  assert (scheduled e = true) as Hs by (apply (qi_sched _ _ Hinv p e He); by left).
  unfold deschedule. rewrite (deref_ok _ _ _ He). cbn [mbind res_bind]. rewrite Hs, Hi.
  assert (negb (inParallelMode q) || bool_decide (qid q = curEventQueue q) = true) as ->.
  { destruct Hown as [->|Hc]; [done|]. rewrite Hc, bool_decide_true by done. apply orb_true_r. }
  destruct (remove_spec q a p e (qi_repr _ _ Hinv) Hp He (qi_queue _ _ Hinv _ _ Hp He))
    as (q1 & -> & Hr1 & Hq1 & Hd1). cbn [mbind res_bind].
  destruct (same_data_lookup _ _ p e Hd1 He) as (e1 & He1 & Hde). injection Hde as H1 H2 H3 H4.
  rewrite (flags_clear_ok _ _ _ _ He1). cbn [mbind res_bind].
  erewrite flags_clear_ok; [|simpl; by rewrite lookup_insert_eq]. cbn [mbind res_bind].
  set (q3 := set_events _ _). set (fl := clear 16 (clear 16 (flags e1) Squashed) Scheduled).
  assert (isSet fl Scheduled = false /\ isSet fl Squashed = false /\ isSet fl IsExitEvent = isSet (flags e) IsExitEvent /\
    isSet fl Managed = isSet (flags e) Managed /\ isSet fl IsMainQueue = isSet (flags e) IsMainQueue)
    as (Hf1 & Hf2 & Hf3 & Hf4 & Hf5).
  { unfold fl. split; [apply scheduled_clear|]. split; [by rewrite squashed_clear_scheduled, squashed_clear|].
    destruct (exit_clear_scheduled (clear 16 (flags e1) Squashed)) as (-> & -> & ->).
    rewrite <- H3. apply exit_clear_squashed. }
  assert (events q3 !! p = Some (set_flags fl e1)) as He3.
  { unfold q3. simpl. rewrite lookup_insert_eq. done. }
  assert (queue_inv q3 (agenda_remove p a)) as Hinv3.
  { apply (queue_inv_change q _ a _ p); try done.
    - unfold q3. by rewrite Hq1.
    - unfold q3. by rewrite Hq1.
    - intros x Hx. unfold q3. simpl. rewrite !lookup_insert_ne by done. apply Hd1.
    - unfold q3. apply repr_set_flags; [by apply repr_set_flags|]. simpl. by rewrite lookup_insert_eq.
    - intros x Hx. rewrite agenda_remove_snd. tauto.
    - intros Has. by apply (qi_async _ _ Hinv p Has).
    - intros e' He'. rewrite He3 in He'. injection He' as <-.
      unfold scheduled, isExitEvent. simpl. rewrite Hf1, Hf3, Hf4, Hf5.
      split; [|split].
      + split; [done|]. intros [_ ?]%agenda_remove_snd. done.
      + intros [_ ?]%agenda_remove_snd. done.
      + by apply (qi_exit _ _ Hinv p).
    - unfold q3. rewrite Hq1. simpl. apply agenda_remove_forall, Hinv. }
  destruct (release_ok q3 _ p _ Hinv3 He3) as (q4 & -> & Hinv4 & Hctl & Hoth & Hp4).
  exists q4. split; [done|]. split; [done|]. split.
  { unfold same_ctl in *. unfold q3 in Hctl. rewrite Hq1 in Hctl. done. }
  unfold isManaged, scheduled in Hp4. simpl in Hp4. rewrite Hf1, Hf4 in Hp4. unfold isManaged.
  split; intros Hm; rewrite Hm in Hp4; [done|]. exists (set_flags fl e1). split; [done|].
  by split.
Qed.

Lemma own_thread_assert q :
  own_thread q -> negb (inParallelMode q) || bool_decide (qid q = curEventQueue q) = true.
Proof. intros [->|Hc]; [done|]. rewrite Hc, bool_decide_true by done. apply orb_true_r. Qed.

Lemma reschedule_ok q a p e when always :
  queue_inv q a -> events q !! p = Some e -> own_thread q -> initialized e = true ->
  (scheduled e = true \/ always = true) -> p ∉ async_queue q -> _curTick q <= when ->
  exists q', reschedule p when always q = Ok q' /\
    queue_inv q' (agenda_insert (when, _priority e) p (agenda_remove p a)) /\ same_ctl q q'.
Proof.
  intros Hinv He Hown Hi Hs Has Ht.
  unfold reschedule. rewrite (deref_ok _ _ _ He). cbn [mbind res_bind].
  rewrite (proj2 (Z.leb_le _ _)) by done.
  assert (always || scheduled e = true) as -> by (destruct Hs as [-> | ->]; [apply orb_true_r|done]).
  rewrite Hi, (own_thread_assert _ Hown).
  assert (exists q1 e1, (if scheduled e then remove p q else Ok q) = Ok q1 /\
    repr q1 (agenda_remove p a) /\ events q1 !! p = Some e1 /\ data e1 = data e /\
    q1 = set_head (head q1) (events q1) q /\ same_data (events q) (events q1))
    as (q1 & e1 & -> & Hr1 & He1 & Hde & Hq1 & Hd1).
  { pose proof (qi_sched _ _ Hinv p e He) as Hse. destruct (scheduled e) eqn:E.
    - assert (p ∈ a.*2) as Hp by (destruct (proj1 Hse eq_refl); done).
      destruct (remove_spec q a p e (qi_repr _ _ Hinv) Hp He (qi_queue _ _ Hinv _ _ Hp He))
        as (q1 & -> & Hr1 & Hq1 & Hd1).
      destruct (same_data_lookup _ _ p e Hd1 He) as (e1 & He1 & Hde). eauto 10.
    - exists q, e. split; [done|]. split; [|by destruct q].
      destruct (unscheduled_out _ _ _ _ Hinv He E) as [Hp _].
      replace (agenda_remove p a) with a; [apply Hinv|]. symmetry.
      clear -Hp. induction a as [|kp a IH]; [done|]. apply not_elem_of_cons in Hp as [Hp1 Hp2].
      unfold agenda_remove in *. rewrite filter_cons_True by congruence. by rewrite IH. }
  cbn [mbind res_bind]. rewrite (assign_ok _ _ _ _ He1). cbn [mbind res_bind].
  injection Hde as D1 D2 D3 D4.
  destruct (insert_and_mark q a e q1 (agenda_remove p a) p e1 when
    (fun fl => set_flag 16 (clear 16 fl Squashed) Scheduled))
    as (q2 & e2 & Hins & He2 & Hinv2 & Hctl); try done.
  - by rewrite Hq1.
  - intros x Hx. rewrite agenda_remove_snd. tauto.
  - intros [_ ?]%agenda_remove_snd. done.
  - apply agenda_remove_forall, Hinv.
  - apply mark_clear_set.
  - rewrite Hins. cbn [mbind res_bind].
    rewrite (flags_clear_ok _ _ _ _ He2). cbn [mbind res_bind].
    erewrite flags_set_ok; [|simpl; by rewrite lookup_insert_eq].
    rewrite D2 in Hinv2. eexists. split; [done|].
    cbn [events set_events set_head]. rewrite insert_insert_eq. done.
Qed.

(** ** Service *)

(** Taking the head off, as [serviceOne] does. *)
Definition pop_head (e : Event) (q : EventQueue) : res EventQueue :=
  match nextInBin e with
  | Some next => h ← assign next (set_nextBin (nextBin e)) (events q); Ok (set_head (Some next) h q)
  | None => Ok (set_head (nextBin e) (events q) q)
  end.

Lemma repr_head q k p a :
  repr q ((k, p) :: a) -> head q = Some p /\ exists e, events q !! p = Some e /\ ev_key e = k.
Proof.
  intros Hr. split; [|by eapply repr_lookup; [|left]].
  destruct Hr as (bs & Hat & _ & _ & Hne & Heq). destruct bs as [|[k1 b] bs]; [done|].
  apply Forall_cons in Hne as [Hb _].
  destruct (bins_at_top _ _ _ _ _ Hat Hb) as (t & b' & te & -> & -> & _).
  rewrite to_agenda_cons in Heq. simpl in Heq. by simplify_eq.
Qed.

Lemma pop_spec q k p a e :
  repr q ((k, p) :: a) -> events q !! p = Some e ->
  exists q', pop_head e q = Ok q' /\ repr q' a /\ relinked q q'.
Proof.
  intros Hr He. destruct (repr_head _ _ _ _ Hr) as [Hh _].
  destruct Hr as (bs & Hat & Hsort & Hnd & Hne & Heq). destruct bs as [|[k1 b] bs]; [done|].
  apply Forall_cons in Hne as [Hb Hne].
  destruct (bins_at_top _ _ _ _ _ Hat Hb) as (t & b' & te & -> & Hh' & Hte & _).
  assert (t = p) as -> by congruence. assert (te = e) as -> by congruence.
  rewrite Hh in Hat. rewrite flat_cons in Hnd.
  destruct (removeItem_spec _ _ p p b' bs Hat Hne Hnd) as (o & h' & Hrem & Hat' & Hsd & _); [by left|].
  unfold removeItem in Hrem. rewrite (deref_ok _ _ _ He) in Hrem. simpl in Hrem.
  rewrite decide_True in Hrem by done.
  exists (set_head o h' q). split; [|split; [|done]].
  - unfold pop_head. destruct (nextInBin e) as [n|].
    + destruct (assign n _ _) as [h1| | |]; simpl in *; simplify_eq. done.
    + by simplify_eq.
  - rewrite filter_cons_False in Hat' by tauto.
    apply NoDup_app in Hnd as (Hndb & Hdis & Hndbs). apply NoDup_cons in Hndb as [Hpb Hndb].
    rewrite without_absent in Hat' by done.
    rewrite to_agenda_cons in Heq. simpl in Heq. injection Heq as _ ->.
    exists (cons_bin k1 b' bs). split; [done|]. unfold bins_sorted in *. simpl in Hsort.
    apply StronglySorted_inv in Hsort as [Hs1 Hs2].
    destruct b' as [|x b']; cbn [cons_bin]; [done|]. split; [by simpl; constructor|]. split.
    + rewrite flat_cons. apply NoDup_app. split; [done|]. split; [|done].
      intros y Hy. apply Hdis. by right.
    + split; [by constructor|done].
Qed.

(** The queue as [serviceOne] leaves it to the handler: the head is off the
    agenda and no longer marked. *)
Lemma service_pop q k p a :
  queue_inv q ((k, p) :: a) ->
  exists e q1 e1, events q !! p = Some e /\ ev_key e = k /\
    (q0 ← flags_clear p Scheduled q; pop_head e q0) = Ok q1 /\ queue_inv q1 a /\
    same_ctl q q1 /\ events q1 !! p = Some e1 /\ scheduled e1 = false /\
    squashed e1 = squashed e /\ ev_key e1 = k /\ initialized e1 = initialized e.
Proof.
  intros Hinv. destruct (repr_head _ _ _ _ (qi_repr _ _ Hinv)) as (Hh & e & He & Hk).
  rewrite (flags_clear_ok _ _ _ _ He). cbn [mbind res_bind].
  set (q0 := set_events _ q). set (e0 := set_flags (clear 16 (flags e) Scheduled) e).
  assert (events q0 !! p = Some e0) as He0 by (simpl; by rewrite lookup_insert_eq).
  destruct (pop_spec q0 k p a e0) as (q1 & Hpop & Hr1 & Hq1 & Hd1);
    [by apply repr_set_flags; [apply Hinv|]|done|].
  destruct (same_data_lookup _ _ p e0 Hd1 He0) as (e1 & He1 & Hde). injection Hde as D1 D2 D3 D4.
  pose proof (repr_nodup _ _ (qi_repr _ _ Hinv)) as Hnd. simpl in Hnd. apply NoDup_cons in Hnd as [Hpa _].
  assert (p ∉ async_queue q) as Has.
  { intros Hin. apply (qi_async _ _ Hinv p Hin). by left. }
  exists e, q1, e1. split; [done|]. split; [done|]. split; [done|].
  assert (isSet (flags e1) Scheduled = false) as Hs1 by (rewrite D3; apply scheduled_clear).
  split.
  - apply (queue_inv_change q _ ((k, p) :: a) _ p); try done.
    + by rewrite Hq1.
    + by rewrite Hq1.
    + intros x Hx. rewrite (Hd1 x). simpl. by rewrite lookup_insert_ne.
    + intros x Hx. simpl. rewrite elem_of_cons. tauto.
    + intros e' He'. assert (e' = e1) as -> by congruence. split; [|split].
      * unfold scheduled. rewrite Hs1. split; [done|]. by intros ?%Hpa.
      * by intros ?%Hpa.
      * unfold isExitEvent. rewrite D3. destruct (exit_clear_scheduled (flags e)) as (E1 & E2 & E3).
        simpl flags. rewrite E1, E2, E3. by apply (qi_exit _ _ Hinv p).
    + rewrite Hq1. simpl. pose proof (qi_time _ _ Hinv) as Ht. by apply Forall_cons in Ht as [_ ?].
  - split; [by rewrite Hq1|]. split; [done|]. split; [done|]. split; [|split].
    + unfold squashed. rewrite D3. apply squashed_clear_scheduled.
    + unfold ev_key in *. simpl in D1, D2. congruence.
    + unfold initialized. rewrite D3. simpl. unfold clear, InitMask, Scheduled.
      f_equal. apply bits_ext. intros i Hi. rewrite !Z.land_spec, testbit_wrap_u, Z.land_spec, Z.lnot_spec by lia.
      destruct (decide (i < 16)).
      * rewrite (proj2 (Z.ltb_lt i 16)) by done. simpl.
        destruct (decide (i = 1)) as [->|]; [by rewrite !andb_false_r|].
        change 2 with (2 ^ 1). rewrite Z.pow2_bits_false by lia. by rewrite andb_true_r.
      * assert (Z.testbit 0xffc0 i = false) as -> by (apply (testbit_above 16); lia).
        by rewrite !andb_false_r.
Qed.

(** What the simulator needs of the handlers: they return, keep the queue well
    formed, do not turn the clock or delete their own event, and change the
    agenda only within [R]. *)
Definition handler_spec (R : agenda -> agenda -> Prop)
    (process : positive -> EventQueue -> res EventQueue) : Prop :=
  forall p q a, queue_inv q a -> is_Some (events q !! p) -> (p ∉ a.*2) ->
  exists q' a', process p q = Ok q' /\ queue_inv q' a' /\ _curTick q' = _curTick q /\
    qid q' = qid q /\ is_Some (events q' !! p) /\ R a a'.

Lemma sorted_agenda q k p a :
  repr q ((k, p) :: a) -> Forall (fun kp => key_lt kp.1 k = false) a.
Proof.
  intros (bs & Hat & Hsort & Hnd & Hne & Heq). destruct bs as [|[k1 b] bs]; [done|].
  apply Forall_cons in Hne as [Hb _]. destruct b as [|x b]; [done|].
  rewrite to_agenda_cons in Heq. simpl in Heq. injection Heq as -> _ ->.
  unfold bins_sorted in Hsort. simpl in Hsort. apply StronglySorted_inv in Hsort as [_ Hs].
  apply Forall_app. split.
  - apply Forall_fmap, Forall_forall. intros y _. apply key_lt_irrefl.
  - apply Forall_forall. intros [k2 y] Hin. apply to_agenda_key in Hin.
    rewrite Forall_forall in Hs. specialize (Hs k2 Hin). simpl.
    destruct (key_lt k2 k1) eqn:E; [|done].
    pose proof (key_lt_trans _ _ _ Hs E) as Ht. by rewrite key_lt_irrefl in Ht.
Qed.

(** One service step, with a handler that behaves. *)
Lemma serviceOne_ok R process q k p a :
  handler_spec R process -> queue_inv q ((k, p) :: a) ->
  exists r q' a', serviceOne process q = Ok (r, q') /\ queue_inv q' a' /\ qid q' = qid q /\
    ((exists e, events q !! p = Some e /\ squashed e = true /\ a' = a /\ _curTick q' = _curTick q) \/
     (exists e q1, events q !! p = Some e /\ squashed e = false /\ queue_inv q1 a /\
        _curTick q1 = k.1 /\ (exists q2, process p q1 = Ok q2 /\ queue_inv q2 a') /\
        R a a' /\ _curTick q' = k.1)).
Proof.
  intros Hh Hinv.
  destruct (service_pop _ _ _ _ Hinv) as (e & q1 & e1 & He & Hk & Hpop & Hinv1 & Hctl & He1 & Hs1 & Hsq & Hk1 & _).
  destruct (repr_head _ _ _ _ (qi_repr _ _ Hinv)) as [Hhead _].
  unfold serviceOne. rewrite Hhead, (deref_ok _ _ _ He). cbn [mbind res_bind].
  rewrite (flags_clear_ok _ _ _ _ He) in Hpop |- *. cbn [mbind res_bind] in Hpop |- *.
  unfold pop_head in Hpop. rewrite Hpop. cbn [mbind res_bind].
  rewrite (deref_ok _ _ _ He1). cbn [mbind res_bind]. rewrite Hsq.
  destruct Hctl as (C1 & C2 & C3 & C4 & C5).
  destruct (squashed e) eqn:Esq; cbn [negb].
  - rewrite (flags_clear_ok _ _ _ _ He1). cbn [mbind res_bind].
    set (q2 := set_events _ q1).
    assert (queue_inv q2 a) as Hinv2.
    { pose proof (unscheduled_out _ _ _ _ Hinv1 He1 Hs1) as [Hpa Has].
      apply (queue_inv_change q1 _ a _ p); try done.
      - intros x Hx. simpl. by rewrite lookup_insert_ne.
      - by apply repr_set_flags; [apply Hinv1|].
      - intros e' He'. simpl in He'. rewrite lookup_insert_eq in He'. injection He' as <-.
        split; [|split].
        + unfold scheduled in *. simpl. rewrite scheduled_clear_squashed, Hs1. done.
        + by intros ?%Hpa.
        + unfold isExitEvent. simpl. destruct (exit_clear_squashed (flags e1)) as (-> & -> & ->).
          by apply (qi_exit _ _ Hinv1 p).
      - apply Hinv1. }
    destruct (release_ok q2 a p (set_flags (clear 16 (flags e1) Squashed) e1) Hinv2)
      as (q3 & -> & Hinv3 & (D1 & D2 & _) & _); [simpl; by rewrite lookup_insert_eq|].
    cbn [mbind res_bind]. exists None, q3, a. split; [done|]. split; [done|].
    split; [rewrite D1; exact C1|]. left. exists e. split; [done|]. split; [done|]. split; [done|].
    rewrite D2. exact C2.
  - assert (queue_inv (setCurTick (_when e1) q1) a) as Hinv2.
    { destruct Hinv1 as [R1 R2 R3 R4 R5 R6]. split; try done. simpl.
      pose proof (sorted_agenda _ _ _ _ (qi_repr _ _ Hinv)) as Hsorted.
      eapply Forall_impl; [exact Hsorted|]. simpl. intros [k2 x] Hlt. simpl in *.
      rewrite <- Hk1 in Hlt. unfold key_lt, ev_key in Hlt. simpl in Hlt. lia. }
    pose proof (unscheduled_out _ _ _ _ Hinv1 He1 Hs1) as [Hpa _].
    destruct (Hh p _ a Hinv2) as (q2 & a' & Hp & Hinv3 & Ht & Hid & (e2 & He2) & HR); [by exists e1|done|].
    rewrite Hp. cbn [mbind res_bind]. rewrite (deref_ok _ _ _ He2). cbn [mbind res_bind].
    assert (_when e1 = k.1) as Hw by by rewrite <- Hk1.
    assert (exists r q', (if isExitEvent e2
        then assert! negb (isSet (flags e2) Managed) || negb (isSet (flags e2) IsMainQueue) ;; Ok (Some p, q2)
        else q ← release p q2; Ok (None, q)) = Ok (r, q') /\ queue_inv q' a' /\ same_ctl q2 q')
      as (r & q' & Hr & Hinv4 & D1 & D2 & _).
    { destruct (isExitEvent e2) eqn:Ex.
      - destruct (qi_exit _ _ Hinv3 p e2 He2 Ex) as [-> | ->]; [by exists (Some p), q2|].
        rewrite orb_true_r. by exists (Some p), q2.
      - destruct (release_ok q2 a' p e2 Hinv3 He2) as (q3 & -> & Hinv4 & Hctl & _).
        cbn [mbind res_bind]. eauto. }
    exists r, q', a'. split; [exact Hr|]. split; [done|].
    split; [by rewrite D1, Hid|]. right. exists e, (setCurTick (_when e1) q1).
    split; [done|]. split; [done|]. split; [done|]. split; [done|]. split; [by exists q2|].
    split; [done|]. by rewrite D2, Ht.
Qed.

(** The events of the agenda that are due by [when]. *)
Definition due (when : Z) (a : agenda) : nat := length (filter (fun kp => kp.1.1 <= when) a).

Lemma head_empty q a : repr q a -> empty q = bool_decide (a = []).
Proof.
  intros Hr. unfold empty. destruct a as [|[k p] a].
  - destruct Hr as (bs & Hat & _ & _ & Hne & Heq). destruct bs as [|[k b] bs].
    + simpl in Hat. by rewrite Hat.
    + apply Forall_cons in Hne as [Hb _]. by destruct b.
  - destruct (repr_head _ _ _ _ Hr) as [-> _]. done.
Qed.

Lemma all_later when q k p a :
  repr q ((k, p) :: a) -> when < k.1 -> Forall (fun kp => when < kp.1.1) ((k, p) :: a).
Proof.
  intros Hr Hw. constructor; [done|]. eapply Forall_impl; [by eapply sorted_agenda|].
  intros [k2 x] Hlt. unfold key_lt in Hlt. simpl in *. lia.
Qed.

(** The service loop: what it leaves when it returns, and enough fuel for it. *)
Lemma service_loop_ok R process when fuel q a :
  handler_spec R process -> queue_inv q a ->
  (forall q', service_loop process fuel when q = Ok q' ->
     exists a', queue_inv q' a' /\ qid q' = qid q /\ Forall (fun kp => when < kp.1.1) a') /\
  ((forall a a', R a a' -> (due when a' <= due when a)%nat) -> (due when a <= fuel)%nat ->
     exists q', service_loop process fuel when q = Ok q').
Proof.
  intros Hh. revert q a. induction fuel as [|fuel IH]; intros q a Hinv; simpl;
    rewrite (head_empty _ _ (qi_repr _ _ Hinv)); destruct a as [|[k p] a]; simpl;
    try (split; [intros q' [= <-]; by exists []|by eexists]);
    destruct (repr_head _ _ _ _ (qi_repr _ _ Hinv)) as (Hhd & e & He & Hk);
    unfold nextTick; rewrite Hhd, (deref_ok _ _ _ He); cbn [mbind res_bind];
    assert (_when e = k.1) as Hw by (by rewrite <- Hk); rewrite Hw;
    destruct (Z.ltb_spec when k.1) as [Hlt|Hge];
    try (split; [intros q' [= <-]; eexists; split; [done|]; split;
      [done|by eapply all_later, Hlt; apply Hinv]|by eexists]).
  - split; [done|]. intros _ Hd. unfold due in Hd. rewrite filter_cons_True in Hd by done.
    simpl in Hd. lia.
  - destruct (serviceOne_ok R process q k p a Hh Hinv) as (r & q1 & a1 & -> & Hinv1 & Hid & Hcase).
    cbn [mbind res_bind]. destruct (IH q1 a1 Hinv1) as [IH1 IH2]. split.
    + intros q' (a' & ? & ? & ?)%IH1. exists a'. split; [done|]. split; [congruence|done].
    + intros HR Hd. apply IH2; [done|]. unfold due in Hd. rewrite filter_cons_True in Hd by done.
      simpl in Hd. fold (due when a) in Hd.
      destruct Hcase as [(e' & _ & _ & -> & _)|(e' & q2 & _ & _ & _ & _ & _ & HRa & _)]; [lia|].
      apply HR in HRa. lia.
Qed.

(** ** Asynchronous insertions *)

Definition key_in (h : heap) (p : positive) : key := default (0, 0) (ev_key <$> h !! p).
Definition merge (h : heap) (l : list positive) (a : agenda) : agenda :=
  foldl (fun a p => agenda_insert (key_in h p) p a) a l.

Lemma merge_same_data h h' l a : same_data h h' -> merge h' l a = merge h l a.
Proof.
  intros Hs. assert (forall p, key_in h' p = key_in h p) as Hk.
  { intros p. unfold key_in. specialize (Hs p). destruct (h !! p) as [e|], (h' !! p) as [e'|]; try done.
    simpl in *. injection Hs as H1 H2 _ _. unfold ev_key. congruence. }
  unfold merge. revert a. induction l as [|p l IH]; intros a; simpl; [done|]. by rewrite Hk, IH.
Qed.

Lemma insert_all_ok l q a :
  repr q a -> NoDup l -> (forall p, p ∈ l -> p ∉ a.*2) -> (forall p, p ∈ l -> is_Some (events q !! p)) ->
  exists q', insert_all l q = Ok q' /\ repr q' (merge (events q) l a) /\
    same_data (events q) (events q') /\ q' = set_async [] (set_head (head q') (events q') q).
Proof.
  revert q a. induction l as [|p l IH]; intros q a Hr Hnd Hdis Hex; simpl.
  { exists (set_async [] q). split_and!; try done. }
  apply NoDup_cons in Hnd as [Hpl Hnd]. destruct (Hex p ltac:(by left)) as [e He].
  destruct (insert_spec q a p e Hr (Hdis p ltac:(by left)) He) as (q1 & -> & Hr1 & Hq1 & Hd1).
  cbn [mbind res_bind].
  destruct (IH (set_async l q1) (agenda_insert (ev_key e) p a)) as (q2 & -> & Hr2 & Hd2 & Hq2).
  - done.
  - done.
  - intros x Hx. rewrite agenda_insert_snd, elem_of_cons. intros [->|Hin]; [done|].
    apply (Hdis x); [by right|done].
  - intros x Hx. destruct (Hex x ltac:(by right)) as [ex Hex'].
    destruct (same_data_lookup _ _ _ _ Hd1 Hex') as (e' & ? & _). by exists e'.
  - exists q2. split; [done|]. split.
    + assert (merge (events q) l (agenda_insert (key_in (events q) p) p a) =
        merge (events (set_async l q1)) l (agenda_insert (ev_key e) p a)) as ->; [|done].
      unfold key_in at 1. rewrite He. simpl. symmetry. by apply merge_same_data.
    + split; [by eapply same_data_trans|]. rewrite Hq2. simpl. by rewrite Hq1.
Qed.

Lemma merge_elem h l a kp :
  kp ∈ merge h l a <-> kp ∈ a \/ exists p, p ∈ l /\ kp = (key_in h p, p).
Proof.
  unfold merge. revert a. induction l as [|p l IH]; intros a; simpl.
  - split; [by left|]. intros [?|(p & ?%not_elem_of_nil & _)]; done.
  - rewrite IH, agenda_insert_elem. split.
    + intros [[->|?]|(x & ? & ->)]; [right; exists p; split; [by left|done]|by left|].
      right. exists x. split; [by right|done].
    + intros [?|(x & [->|?]%elem_of_cons & ->)]; [by left; right|by left; left|]. right. eauto.
Qed.

(** ** The self-check *)

Lemma verify_bin_ok h k b fuel o seen t pr :
  bin_at h k o b -> NoDup b -> (forall x, x ∈ b -> x ∉ seen) -> key_lt k (t, pr) = false ->
  (length b <= fuel)%nat ->
  exists seen' t' pr', verify_bin fuel o h (seen, t, pr) = Ok (Some (seen', t', pr')) /\
    (forall x, x ∈ seen' <-> x ∈ b \/ x ∈ seen) /\
    ((t', pr') = if bool_decide (b = []) then (t, pr) else k).
Proof.
  revert o fuel seen t pr. induction b as [|p b IH]; intros o fuel seen t pr Hat Hnd Hdis Hk Hf.
  { simpl in Hat. subst. exists seen, t, pr. split; [by destruct fuel|]. split; [|done].
    intros x. rewrite elem_of_nil. tauto. }
  destruct Hat as (-> & e & He & Hke & Hb). apply NoDup_cons in Hnd as [Hpb Hnd].
  destruct fuel as [|fuel]; [simpl in Hf; lia|]. simpl. rewrite (deref_ok _ _ _ He). cbn [mbind res_bind].
  assert (key_lt (ev_key e) (t, pr) = false) as Hlt by by rewrite Hke.
  unfold key_lt in Hlt. simpl in Hlt. apply orb_false_iff in Hlt as [-> ->].
  rewrite decide_False by (apply Hdis; by left).
  destruct (IH (nextInBin e) fuel ({[p]} ∪ seen) (_when e) (_priority e)) as (seen' & t' & pr' & -> & Hs & Hr);
    [done|done| |by rewrite <- Hke; apply (key_lt_irrefl (ev_key e))|simpl in Hf; lia|].
  { intros x Hx. rewrite elem_of_union, elem_of_singleton. intros [->|Hin]; [done|].
    apply (Hdis x); [by right|done]. }
  exists seen', t', pr'. split; [done|]. split.
  - intros x. rewrite Hs, elem_of_union, elem_of_singleton, elem_of_cons. tauto.
  - rewrite Hr. rewrite <- Hke. by case_bool_decide.
Qed.

Lemma verify_bins_ok h bs fuel o seen t pr :
  bins_at h o bs -> bins_sorted bs -> NoDup (flat bs) -> Forall (fun kb => kb.2 <> []) bs ->
  (forall x, x ∈ flat bs -> x ∉ seen) ->
  match bs with [] => True | (k, _) :: _ => key_lt k (t, pr) = false end ->
  (length bs <= fuel)%nat ->
  verify_bins fuel o h (seen, t, pr) = Ok true.
Proof.
  revert o fuel seen t pr. induction bs as [|[k b] bs IH]; intros o fuel seen t pr Hat Hs Hnd Hne Hdis Hk Hf.
  { simpl in Hat. subst. by destruct fuel. }
  apply Forall_cons in Hne as [Hb Hne].
  destruct (bins_at_top _ _ _ _ _ Hat Hb) as (p & b' & e & -> & -> & He & Hke & _ & Hbs).
  rewrite flat_cons in Hnd, Hdis. apply NoDup_app in Hnd as (Hndb & Hd & Hnd).
  assert (bin_at h k (Some p) (p :: b')) as Hbin by by destruct Hat as (? & ? & _ & _ & ? & _).
  destruct (verify_bin_ok h k (p :: b') (size h) (Some p) seen t pr Hbin Hndb) as (seen' & t' & pr' & Hv & Hseen & Hr).
  { intros x Hx. apply Hdis, elem_of_app. by left. }
  { done. }
  { apply nodup_fuel; [done|]. intros x Hx. destruct (bin_at_dom _ _ _ _ _ Hbin Hx) as (ex & ? & _). by exists ex. }
  rewrite bool_decide_false in Hr by done.
  destruct fuel as [|fuel]; [simpl in Hf; lia|]. cbn [verify_bins]. rewrite Hv. cbn [mbind res_bind].
  rewrite (deref_ok _ _ _ He). cbn [mbind res_bind].
  unfold bins_sorted in Hs. simpl in Hs. apply StronglySorted_inv in Hs as [Hs1 Hs2].
  apply IH; try done.
  - intros x Hx. rewrite Hseen. intros [Hin|Hin].
    + by apply (Hd x Hin).
    + apply (Hdis x); [|done]. apply elem_of_app. by right.
  - destruct bs as [|[k2 b2] bs]; [done|]. rewrite Hr. simpl in Hs2.
    apply Forall_cons in Hs2 as [Hlt _]. destruct (key_lt k2 k) eqn:E; [|done].
    pose proof (key_lt_trans _ _ _ Hlt E) as Ht. by rewrite key_lt_irrefl in Ht.
  - simpl in Hf. lia.
Qed.

(** * Theorems *)

(** Three idle events, and the queue after scheduling all of them at tick 20. *)
Definition idle_event (priority : Z) : Event :=
  {| nextBin := None; nextInBin := None; _when := 0; _priority := priority;
     flags := Initialized; queue := None |}.
Definition example_queue : EventQueue :=
  {| qid := 1; head := None; _curTick := 10; async_queue := [];
     events := {[ 1%positive := idle_event 0; 2%positive := idle_event (-5); 3%positive := idle_event 0 ]};
     inParallelMode := false; curEventQueue := 1 |}.
Definition run_schedule (p : positive) (when : Z) (q : EventQueue) : EventQueue :=
  match schedule p when false q with Ok q' => q' | _ => q end.
Definition example_busy : EventQueue :=
  run_schedule 3 20 (run_schedule 2 20 (run_schedule 1 20 example_queue)).
Definition busy_agenda : agenda := [((20, -5), 2%positive); ((20, 0), 3%positive); ((20, 0), 1%positive)].

Lemma idle_inv q :
  head q = None -> async_queue q = [] ->
  map_Forall (fun _ e => flags e = Initialized) (events q) -> queue_inv q [].
Proof.
  intros Hh Ha Hf. split.
  - exists []. split_and!; try done; by constructor.
  - intros p e He. rewrite Ha. unfold scheduled. rewrite (Hf p e He). simpl.
    rewrite elem_of_nil. split; [done|tauto].
  - intros p e Hp. by apply not_elem_of_nil in Hp.
  - intros p Hp. rewrite Ha in Hp. by apply not_elem_of_nil in Hp.
  - constructor.
  - intros p e He. unfold isExitEvent. rewrite (Hf p e He). done.
Qed.

Lemma example_queue_inv : queue_inv example_queue [].
Proof.
  apply idle_inv; [done|done|]. simpl events.
  apply map_Forall_insert_2; [done|]. apply map_Forall_insert_2; [done|]. by apply map_Forall_singleton.
Qed.

Lemma run_schedule_inv q a p e when :
  queue_inv q a -> events q !! p = Some e -> own_thread q -> inParallelMode q = false ->
  scheduled e = false -> initialized e = true -> _curTick q <= when ->
  queue_inv (run_schedule p when q) (agenda_insert (when, _priority e) p a).
Proof.
  intros Hinv He Hown Hpar Hs Hi Ht.
  destruct (schedule_ok q a p e when false Hinv He Hown) as (q' & Hq & Hinv' & _); try done.
  unfold run_schedule. by rewrite Hq.
Qed.

Lemma example_busy_inv : queue_inv example_busy busy_agenda.
Proof.
  pose proof (run_schedule_inv _ _ 1 (idle_event 0) 20 example_queue_inv eq_refl
    (or_introl eq_refl) eq_refl eq_refl eq_refl ltac:(done)) as H1.
  pose proof (run_schedule_inv _ _ 2 (idle_event (-5)) 20 H1 eq_refl
    (or_introl eq_refl) eq_refl eq_refl eq_refl ltac:(done)) as H2.
  exact (run_schedule_inv _ _ 3 (idle_event 0) 20 H2 eq_refl
    (or_introl eq_refl) eq_refl eq_refl eq_refl ltac:(done)).
Qed.

(** (scheduling inserts in order).  On its own thread, scheduling an
    initialised, unscheduled event at a tick that is not in the past inserts it
    in the agenda by time and priority, before the events of equal time and
    priority, and keeps the two-level list well formed; a time in the past, an
    event already scheduled or an uninitialised one stops the simulator. *)
Theorem schedule_inserts q a p e when global :
  queue_inv q a -> events q !! p = Some e -> own_thread q ->
  (inParallelMode q = true -> global = false) ->
  (scheduled e = false -> initialized e = true -> _curTick q <= when ->
     exists q', schedule p when global q = Ok q' /\
       queue_inv q' (agenda_insert (when, _priority e) p a) /\ same_ctl q q') /\
  (scheduled e = true \/ initialized e = false \/ when < _curTick q ->
     schedule p when global q = Panic).
Proof.
  intros Hinv He Hown Hg. split; [by apply schedule_ok|]. intros Hbad.
  unfold schedule. rewrite (deref_ok _ _ _ He). cbn [mbind res_bind].
  destruct (Z.leb_spec (_curTick q) when); [|done].
  destruct (scheduled e) eqn:Es; [done|]. destruct (initialized e) eqn:Ei; [|done].
  exfalso. destruct Hbad as [?|[?|?]]; [done|done|lia].
Qed.

Example schedule_inserts_witness :
  exists q', schedule 1 20 false example_queue = Ok q' /\ queue_inv q' [((20, 0), 1%positive)].
Proof.
  destruct (schedule_inserts example_queue [] 1 (idle_event 0) 20 false example_queue_inv eq_refl
    (or_introl eq_refl) (fun _ => eq_refl)) as [H _].
  destruct (H eq_refl eq_refl) as (q' & H1 & H2 & _); [simpl; lia|].
  exists q'. split; [exact H1|exact H2].
Defined.

(** (descheduling removes exactly the event).  Descheduling an event of the
    agenda removes it and nothing else, wherever it is in the two-level list;
    a managed event is deleted, any other one is left unscheduled and not
    squashed.  Removing an event that the lists do not hold stops the
    simulator. *)
Theorem deschedule_removes q a p e :
  queue_inv q a -> events q !! p = Some e -> own_thread q -> initialized e = true ->
  (p ∈ a.*2 -> exists q', deschedule p q = Ok q' /\ queue_inv q' (agenda_remove p a) /\
     same_ctl q q' /\ (isManaged e = true -> events q' !! p = None) /\
     (isManaged e = false ->
        exists e', events q' !! p = Some e' /\ scheduled e' = false /\ squashed e' = false)) /\
  ((p ∉ a.*2) -> remove p q = Panic /\ deschedule p q = Panic).
Proof.
  intros Hinv He Hown Hi. split.
  - intros Hp. by apply deschedule_ok.
  - intros Hp. pose proof (remove_absent q a p e (qi_repr _ _ Hinv) Hp He) as Hrem.
    split; [done|]. unfold deschedule. rewrite (deref_ok _ _ _ He). cbn [mbind res_bind].
    destruct (scheduled e); [|done]. by rewrite Hi, (own_thread_assert _ Hown), Hrem.
Qed.

Example deschedule_removes_witness :
  exists q', deschedule 3 example_busy = Ok q' /\
    queue_inv q' [((20, -5), 2%positive); ((20, 0), 1%positive)].
Proof.
  destruct (events example_busy !! 3%positive) as [e|] eqn:He; [|discriminate].
  destruct (deschedule_removes example_busy busy_agenda 3 e example_busy_inv He (or_introl eq_refl)) as [H _].
  - vm_compute in He. injection He as <-. reflexivity.
  - destruct H as (q' & H1 & H2 & _); [right; left|].
    exists q'. split; [exact H1|exact H2].
Defined.

(** (rescheduling moves the event).  Rescheduling an event moves it to its
    new time whether or not it was on the agenda ([always] is needed when it
    was not), clears a pending squash, and disturbs no other event. *)
Theorem reschedule_moves q a p e when always :
  queue_inv q a -> events q !! p = Some e -> own_thread q -> initialized e = true ->
  p ∉ async_queue q -> _curTick q <= when ->
  (scheduled e = true \/ always = true ->
     exists q', reschedule p when always q = Ok q' /\
       queue_inv q' (agenda_insert (when, _priority e) p (agenda_remove p a)) /\ same_ctl q q') /\
  (scheduled e = false -> always = false -> reschedule p when always q = Panic).
Proof.
  intros Hinv He Hown Hi Has Ht. split; [intros Hs; by apply reschedule_ok|].
  intros Hs ->. unfold reschedule. rewrite (deref_ok _ _ _ He). cbn [mbind res_bind].
  by rewrite (proj2 (Z.leb_le _ _)), Hs by done.
Qed.

Example reschedule_moves_witness :
  exists q', reschedule 2 30 false example_busy = Ok q' /\
    queue_inv q' [((20, 0), 3%positive); ((20, 0), 1%positive); ((30, -5), 2%positive)].
Proof.
  destruct (events example_busy !! 2%positive) as [e|] eqn:He; [|discriminate].
  destruct (reschedule_moves example_busy busy_agenda 2 e 30 false example_busy_inv He (or_introl eq_refl))
    as [H _].
  - vm_compute in He. injection He as <-. reflexivity.
  - apply not_elem_of_nil.
  - vm_compute. discriminate.
  - vm_compute in He. injection He as <-.
    destruct H as (q' & H1 & H2 & _); [left; reflexivity|].
    exists q'. split; [exact H1|exact H2].
Defined.

(** C24 (serviceOne runs the earliest event).  Servicing takes the first event
    of the agenda, which no other event precedes in time and priority; unless
    it was squashed the clock moves to its time and its handler runs, with the
    event already off the agenda; the simulator's invariant holds again
    afterwards. *)
Theorem serviceOne_earliest R process q k p a :
  handler_spec R process -> queue_inv q ((k, p) :: a) ->
  Forall (fun kp => key_lt kp.1 k = false) a /\ _curTick q <= k.1 /\
  exists r q' a', serviceOne process q = Ok (r, q') /\ queue_inv q' a' /\ qid q' = qid q /\
    ((exists e, events q !! p = Some e /\ squashed e = true /\ a' = a /\ _curTick q' = _curTick q) \/
     (exists e q1, events q !! p = Some e /\ squashed e = false /\ queue_inv q1 a /\
        _curTick q1 = k.1 /\ (exists q2, process p q1 = Ok q2 /\ queue_inv q2 a') /\
        R a a' /\ _curTick q' = k.1)).
Proof.
  intros Hh Hinv. split; [eapply sorted_agenda, Hinv|]. split; [|by apply (serviceOne_ok R)].
  pose proof (qi_time _ _ Hinv) as Ht. by apply Forall_cons in Ht as [? _].
Qed.

(** A handler that does nothing. *)
Definition null_handler : positive -> EventQueue -> res EventQueue := fun _ q => Ok q.
Lemma null_handler_spec : handler_spec eq null_handler.
Proof. intros p q a Hinv Hp _. by exists q, a. Qed.

Example serviceOne_earliest_witness :
  exists r q' a', serviceOne null_handler example_busy = Ok (r, q') /\ queue_inv q' a'.
Proof.
  destruct (serviceOne_earliest eq null_handler example_busy (20, -5) 2
    [((20, 0), 3%positive); ((20, 0), 1%positive)] null_handler_spec example_busy_inv)
    as (_ & _ & r & q' & a' & H1 & H2 & _).
  exists r, q', a'. split; [exact H1|exact H2].
Defined.

(** C25 (serviceEvents drains the due events).  With handlers that add no event
    due by [when], fuel for the events due now is enough: [serviceEvents]
    returns with the clock at [when] and only later events left.  With any
    well-behaved handlers the same holds whenever it returns. *)
Theorem serviceEvents_drains R process fuel when q a :
  handler_spec R process -> queue_inv q a ->
  (forall q', serviceEvents process fuel when q = Ok q' ->
     exists a', queue_inv q' a' /\ _curTick q' = when /\ Forall (fun kp => when < kp.1.1) a') /\
  ((forall a a', R a a' -> (due when a' <= due when a)%nat) -> (due when a <= fuel)%nat ->
     exists q', serviceEvents process fuel when q = Ok q').
Proof.
  intros Hh Hinv. destruct (service_loop_ok R process when fuel q a Hh Hinv) as [H1 H2].
  unfold serviceEvents. split.
  - intros q' (q1 & (a' & Hinv1 & _ & Hlater)%H1 & [= <-])%bind_Ok. exists a'. split; [|done].
    destruct Hinv1 as [R1 R2 R3 R4 R5 R6]. split; try done. simpl.
    eapply Forall_impl; [exact Hlater|]. simpl. intros kp Hkp. lia.
  - intros HR Hf. destruct (H2 HR Hf) as [q' ->]. by eexists.
Qed.

Example serviceEvents_drains_witness :
  exists q' a', serviceEvents null_handler 3 20 example_busy = Ok q' /\ queue_inv q' a' /\
    _curTick q' = 20.
Proof.
  destruct (serviceEvents_drains eq null_handler 3 20 example_busy busy_agenda null_handler_spec
    example_busy_inv) as [H1 H2].
  destruct H2 as [q' Hq']; [intros x y ->; reflexivity|vm_compute; repeat constructor|].
  destruct (H1 q' Hq') as (a' & Ha & Ht & _). exists q', a'. split; [exact Hq'|]. split; [exact Ha|exact Ht].
Defined.

(** (asynchronous insertion).  From another thread's queue, or for a global
    event, [schedule] only appends to the asynchronous list and leaves the
    agenda alone; [handleAsyncInsertions], on the queue's own thread, merges
    the list into the agenda event by event, in the order of arrival. *)
Theorem async_merge q a :
  queue_inv q a ->
  (forall p e when global, events q !! p = Some e -> inParallelMode q = true ->
     (curEventQueue q <> qid q \/ global = true) ->
     scheduled e = false -> initialized e = true -> _curTick q <= when ->
     exists q', schedule p when global q = Ok q' /\ queue_inv q' a /\
       async_queue q' = async_queue q ++ [p]) /\
  (curEventQueue q = qid q -> NoDup (async_queue q) ->
     (forall p, p ∈ async_queue q ->
        exists e, events q !! p = Some e /\ queue e = Some (qid q) /\ _curTick q <= _when e) ->
     exists q', handleAsyncInsertions q = Ok q' /\ async_queue q' = [] /\
       queue_inv q' (merge (events q) (async_queue q) a)).
Proof.
  intros Hinv. split.
  - intros p e when global He Hpar Hother Hs Hi Ht.
    destruct (unscheduled_out _ _ _ _ Hinv He Hs) as [Hp Has].
    unfold schedule. rewrite (deref_ok _ _ _ He). cbn [mbind res_bind].
    rewrite (proj2 (Z.leb_le _ _)), Hs, Hi by done. cbn [negb].
    rewrite (assign_ok _ _ _ _ He). cbn [mbind res_bind inParallelMode qid curEventQueue set_events set_head].
    rewrite Hpar. assert (bool_decide (qid q <> curEventQueue q) || global = true) as ->.
    { destruct Hother as [Hc| ->]; [|apply orb_true_r]. by rewrite bool_decide_true by congruence. }
    cbn [andb mbind res_bind]. erewrite flags_set_ok; [|simpl; by rewrite lookup_insert_eq].
    eexists. split; [done|]. split; [|done].
    set (q' := set_events _ _). destruct Hinv as [R1 R2 R3 R4 R5 R6].
    set (e' := set_flags (set_flag 16 (flags e) Scheduled) (setWhen when (qid q) e)).
    assert (events q' = <[p := e']> (events q)) as Hev by (unfold q'; simpl; by rewrite insert_insert_eq).
    assert (forall x, x <> p -> events q' !! x = events q !! x) as Hx
      by (intros x Hx; rewrite Hev; by apply lookup_insert_ne).
    assert (events q' !! p = Some e') as Hp' by (rewrite Hev; by apply lookup_insert_eq).
    split.
    + apply (repr_frame (asyncInsert p q) (events q') a); [by destruct R1 as (bs & ?); exists bs|].
      intros x Hin. unfold link. by rewrite Hx by (by intros ->).
    + intros x ex. simpl async_queue. rewrite elem_of_app, list_elem_of_singleton.
      destruct (decide (x = p)) as [->|Hne].
      * rewrite Hp'. intros [= <-]. unfold scheduled, e'. simpl. rewrite scheduled_set. tauto.
      * rewrite Hx by done. intros Hex. rewrite (R2 x ex Hex). tauto.
    + intros x ex Hin. rewrite Hx by (by intros ->). by apply R3.
    + intros x. simpl async_queue. rewrite elem_of_app, list_elem_of_singleton. intros [Hin| ->]; [by apply R4|done].
    + done.
    + intros x ex. destruct (decide (x = p)) as [->|Hne]; [|rewrite Hx by done; by apply R6].
      rewrite Hp'. intros [= <-]. unfold isExitEvent, e'. simpl.
      destruct (exit_set_scheduled (flags e)) as (-> & -> & ->). by apply (R6 p).
  - intros Hc Hnd Hex. unfold handleAsyncInsertions. rewrite bool_decide_true by done.
    destruct (insert_all_ok (async_queue q) q a) as (q' & Hi & Hr & Hd & Hq');
      [apply Hinv|done|apply Hinv|intros p Hp; destruct (Hex p Hp) as (e & He & _); by exists e|].
    exists q'. split; [done|]. split; [by rewrite Hq'|].
    destruct Hinv as [R1 R2 R3 R4 R5 R6].
    assert (forall x e', events q' !! x = Some e' -> exists e, events q !! x = Some e /\
      flags e' = flags e /\ queue e' = queue e) as Hold.
    { intros x e' He'. specialize (Hd x). rewrite He' in Hd. destruct (events q !! x) as [e|]; [|done].
      simpl in Hd. injection Hd as H1 H2 H3 H4. eauto. }
    assert (forall x, x ∈ (merge (events q) (async_queue q) a).*2 <-> x ∈ a.*2 \/ x ∈ async_queue q) as Hm.
    { intros x. rewrite !list_elem_of_fmap. split.
      - intros (kp & -> & [Hin|(y & Hy & ->)]%merge_elem); [left; eauto|by right].
      - intros [(kp & -> & Hin)|Hin].
        + exists kp. split; [done|]. apply merge_elem. by left.
        + exists (key_in (events q) x, x). split; [done|]. apply merge_elem. right. eauto. }
    split; [done| | | | |].
    + intros x e' He'. destruct (Hold x e' He') as (e & He & Hf & _). unfold scheduled in *.
      rewrite Hf, Hm, Hq'. simpl. rewrite (R2 x e He), elem_of_nil. tauto.
    + intros x e' Hin He'. destruct (Hold x e' He') as (e & He & _ & ->). rewrite Hq'. simpl.
      apply Hm in Hin as [Hin|Hin]; [by apply (R3 x)|]. destruct (Hex x Hin) as (e2 & He2 & ? & _). congruence.
    + intros x. rewrite Hq'. simpl. by intros ?%not_elem_of_nil.
    + rewrite Hq'. simpl. apply Forall_forall. intros kp [Hin|(x & Hin & ->)]%merge_elem.
      * rewrite Forall_forall in R5. by apply R5.
      * destruct (Hex x Hin) as (e & He & _ & Ht). unfold key_in. by rewrite He.
    + intros x e' He'. destruct (Hold x e' He') as (e & He & Hf & _). unfold isExitEvent. rewrite Hf. by apply (R6 x).
Qed.

(** The example queue as another thread sees it. *)
Definition remote_queue : EventQueue :=
  {| qid := 1; head := None; _curTick := 10; async_queue := [];
     events := {[ 1%positive := idle_event 0 ]}; inParallelMode := true; curEventQueue := 2 |}.

Example async_merge_witness :
  exists q', schedule 1 20 false remote_queue = Ok q' /\ queue_inv q' [] /\
    async_queue q' = [1%positive].
Proof.
  destruct (async_merge remote_queue []) as [H _].
  - apply idle_inv; [reflexivity|reflexivity|]. by apply map_Forall_singleton.
  - apply (H 1%positive (idle_event 0) 20 false); try reflexivity; [left; discriminate|simpl; lia].
Defined.

(** (what debugVerify accepts).  On a well-formed queue with no negative
    times, [debugVerify] returns true except when the first event is at tick 0
    with a negative priority, which it wrongly reports as inverted. *)
Theorem debugVerify_exact q a :
  repr q a -> Forall (fun kp => 0 <= kp.1.1) a ->
  debugVerify q =
    Ok (match a with [] => true | ((t, pr), _) :: _ => negb ((t =? 0) && (pr <? 0)) end).
Proof.
  intros (bs & Hat & Hs & Hnd & Hne & ->) Ht. unfold debugVerify.
  pose proof (bins_fuel _ _ _ Hat Hnd Hne) as Hf.
  destruct bs as [|[k b] bs]; [simpl in Hat; rewrite Hat; by destruct (size (events q))|].
  apply Forall_cons in Hne as Hne'. destruct Hne' as [Hb _].
  destruct (bins_at_top _ _ _ _ _ Hat Hb) as (p & b' & e & -> & Hh & He & Hke & _).
  rewrite to_agenda_cons in *. simpl in Ht |- *. apply Forall_cons in Ht as [Ht _].
  destruct k as [t pr]. simpl in *. destruct ((t =? 0) && (pr <? 0)) eqn:E.
  - rewrite Hh. injection Hke as Hw Hp.
    destruct (size (events q)) as [|n] eqn:En; [lia|]. cbn [verify_bins]. rewrite En. cbn [verify_bin].
    rewrite (deref_ok _ _ _ He). cbn [mbind res_bind]. rewrite Hw, Hp.
    destruct (t <? 0) eqn:E2; [done|]. by rewrite E.
  - rewrite (verify_bins_ok (events q) (((t, pr), p :: b') :: bs)); try done.
    unfold key_lt. simpl. lia.
Qed.

Example debugVerify_exact_witness :
  debugVerify (run_schedule 2 0 (setCurTick 0 example_queue)) = Ok false.
Proof.
  refine (debugVerify_exact _ [((0, -5), 2%positive)] _ _); [|repeat constructor; simpl; lia].
  apply (qi_repr _ _ (run_schedule_inv (setCurTick 0 example_queue) [] 2 (idle_event (-5)) 0
    (match example_queue_inv with Build_queue_inv _ _ r1 r2 r3 r4 _ r6 =>
       Build_queue_inv (setCurTick 0 example_queue) [] r1 r2 r3 r4 (Forall_nil_2 _) r6 end)
    eq_refl (or_introl eq_refl) eq_refl eq_refl eq_refl ltac:(done))).
Defined.

(** (restoring drops scheduled events).  Restoring a checkpointed event
    keeps its time and priority but clears the Scheduled flag of exactly the
    events that were scheduled and not squashed, so that
    [checkpointReschedule] inserts only the squashed ones: a pending event is
    never put back on the queue. *)
Theorem checkpoint_drops_scheduled q p e e0 :
  0 <= flags e < 2 ^ 16 -> events q !! p = Some e0 -> scheduled e0 = false -> initialized e0 = true ->
  exists e', unserialize (serialize e) e0 = Ok e' /\ _when e' = _when e /\ _priority e' = _priority e /\
    scheduled e' = scheduled e && squashed e /\
    (scheduled e = true -> squashed e = false ->
       checkpointReschedule p (set_events (<[p := e']> (events q)) q) =
         Ok (set_events (<[p := e']> (events q)) q)).
Proof.
  intros Hf He0 Hs Hi. unfold unserialize. rewrite Hs, Hi. cbn [negb].
  eexists. split; [done|]. simpl. split; [done|]. split; [done|].
  assert (wrap_u 16 (wrap_s 16 (flags e)) = flags e) as ->.
  { rewrite <- (wrap_u_id 16 (flags e)) at 2 by done. unfold wrap_u, wrap_s.
    rewrite Zminus_mod_idemp_l. by replace (flags e + 2 ^ (16 - 1) - 2 ^ (16 - 1)) with (flags e) by lia. }
  set (fl := set_flag 16 (flags e) Initialized).
  assert (isSet fl Scheduled = scheduled e /\ isSet fl Squashed = squashed e) as [E1 E2].
  { unfold scheduled, squashed. destruct (flag_bits fl) as (-> & -> & _).
    destruct (flag_bits (flags e)) as (-> & -> & _). unfold fl, set_flag.
    rewrite !testbit_wrap_u, !Z.lor_spec by lia. simpl. by rewrite !orb_false_r. }
  assert (isSet (clear 16 fl (Z.lor Squashed Scheduled)) Scheduled = false) as E3.
  { destruct (flag_bits (clear 16 fl (Z.lor Squashed Scheduled))) as (_ & -> & _). unfold clear.
    rewrite testbit_wrap_u, Z.land_spec by lia. simpl. by rewrite andb_false_r. }
  rewrite E1, E2. split.
  - unfold scheduled at 1. simpl flags. destruct (scheduled e) eqn:A, (squashed e) eqn:B; simpl; done.
  - intros -> ->. unfold checkpointReschedule. simpl events.
    rewrite (deref_ok _ _ _ (lookup_insert_eq _ _ _)). cbn [mbind res_bind flags negb andb].
    by rewrite E3.
Qed.

Example checkpoint_drops_scheduled_witness :
  exists e', unserialize (serialize (set_flags 0x7a42 (idle_event 0))) (idle_event 0) = Ok e' /\
    scheduled e' = false.
Proof.
  destruct (checkpoint_drops_scheduled example_queue 1 (set_flags 0x7a42 (idle_event 0)) (idle_event 0))
    as (e' & H1 & _ & _ & H2 & _); [simpl; lia|reflexivity|reflexivity|reflexivity|].
  exists e'. split; [exact H1|exact H2].
Defined.
