(* ===== verification/SatCounter.v ===== *)
(** Saturating counters, src/cpu/pred/sat_counter.hh, and the arrays of
    counters the direction predictors index. *)
From S2P Require Import Prelude Bitfield IntMath.

(** * Definitions *)

(** [maxVal] is indeterminate after the default constructor ([None]); reading
    it then is undefined. *)
Record SatCounter := { initialVal : Z; maxVal : option Z; counter : Z }.

#[export] Instance SatCounter_eq_dec : EqDecision SatCounter.
Proof. solve_decision. Defined.

(** [(1 << n) - 1] on [int]: defined when the result fits. *)
Definition int_mask (n : Z) : res Z :=
  defined! (0 <=? n) && (n <? 31) ;; Ok (2 ^ n - 1).

(** [SatCounter()] *)
Definition counter_default : SatCounter :=
  {| initialVal := 0; maxVal := None; counter := 0 |}.

(** [SatCounter(unsigned bits)] *)
Definition counter_of_bits (nbits : Z) : res SatCounter :=
  m ← int_mask nbits;
  Ok {| initialVal := 0; maxVal := Some (u8 m); counter := 0 |}.

(** [SatCounter(unsigned bits, uint8_t initial_val)] *)
Definition counter_of_init (nbits initial_val : Z) : res SatCounter :=
  m ← int_mask nbits;
  assert! initial_val <=? u8 m ;;
  Ok {| initialVal := initial_val; maxVal := Some (u8 m); counter := initial_val |}.

Definition setBits (c : SatCounter) (nbits : Z) : res SatCounter :=
  m ← int_mask nbits;
  Ok {| initialVal := initialVal c; maxVal := Some (u8 m); counter := counter c |}.

Definition reset (c : SatCounter) : SatCounter :=
  {| initialVal := initialVal c; maxVal := maxVal c; counter := initialVal c |}.

Definition increment (c : SatCounter) : res SatCounter :=
  match maxVal c with
  | None => Ub
  | Some m =>
    Ok (if counter c <? m
        then {| initialVal := initialVal c; maxVal := Some m; counter := u8 (counter c + 1) |}
        else c)
  end.

Definition decrement (c : SatCounter) : SatCounter :=
  if 0 <? counter c
  then {| initialVal := initialVal c; maxVal := maxVal c; counter := u8 (counter c - 1) |}
  else c.

Definition read (c : SatCounter) : Z := counter c.

(** ** Arrays of counters *)

(** [v.resize(n)] on a fresh vector, then [setBits(nbits)] on each element. *)
Definition counters_setBits (nbits n : Z) (v : list SatCounter) : res (list SatCounter) :=
  for_range 0 n (fun i v => c ← aread v i; c' ← setBits c nbits; awrite v i c') v.
Definition counters_new (nbits n : Z) : res (list SatCounter) :=
  counters_setBits nbits n (replicate (Z.to_nat n) counter_default).

(** [v[i].increment()], [v[i].decrement()] *)
Definition increment_at (v : list SatCounter) (i : Z) : res (list SatCounter) :=
  c ← aread v i; c' ← increment c; awrite v i c'.
Definition decrement_at (v : list SatCounter) (i : Z) : res (list SatCounter) :=
  c ← aread v i; awrite v i (decrement c).

(** * Invariant and lemmas *)

(** A counter that [setBits(nbits)] has been called on. *)
Definition counter_ok (nbits : Z) (c : SatCounter) : Prop :=
  maxVal c = Some (u8 (2 ^ nbits - 1)) /\ initialVal c = 0 /\
  0 <= counter c <= u8 (2 ^ nbits - 1).
Definition counters_ok (nbits n : Z) (v : list SatCounter) : Prop :=
  Z.of_nat (length v) = n /\ Forall (counter_ok nbits) v.

Lemma counter_max_range nbits : 0 <= u8 (2 ^ nbits - 1) < 256.
Proof. apply (wrap_u_range 8). lia. Qed.

Lemma counter_max_small nbits : 0 <= nbits <= 8 -> u8 (2 ^ nbits - 1) = 2 ^ nbits - 1.
Proof.
  intros H. apply wrap_u_id. pose proof (pow2_pos nbits ltac:(lia)).
  pose proof (Z.pow_le_mono_r 2 nbits 8 ltac:(lia) ltac:(lia)). lia.
Qed.

Lemma increment_ok nbits c :
  counter_ok nbits c -> exists c', increment c = Ok c' /\ counter_ok nbits c' /\
    counter c' = Z.min (counter c + 1) (u8 (2 ^ nbits - 1)).
Proof.
  intros (Hm & Hi & Hc). pose proof (counter_max_range nbits).
  unfold increment. rewrite Hm. eexists. split; [done|].
  case_match eqn:E; [|by split; [|lia]].
  rewrite (wrap_u_id 8 (counter c + 1)) by lia. cbn. split; [|lia]. split; cbn; [done|lia].
Qed.

Lemma decrement_ok nbits c :
  counter_ok nbits c -> counter_ok nbits (decrement c) /\
    counter (decrement c) = Z.max (counter c - 1) 0.
Proof.
  intros (Hm & Hi & Hc). pose proof (counter_max_range nbits).
  unfold decrement. case_match eqn:E; [|by split; [|lia]].
  rewrite (wrap_u_id 8 (counter c - 1)) by lia. cbn. split; [|lia]. split; cbn; [done|lia].
Qed.

Lemma reset_ok nbits c : counter_ok nbits c -> counter_ok nbits (reset c).
Proof. intros (Hm & Hi & Hc). pose proof (counter_max_range nbits). split; cbn; [done|lia]. Qed.

Lemma counters_lookup nbits n v i :
  counters_ok nbits n v -> 0 <= i < n ->
  exists c, v !! Z.to_nat i = Some c /\ aread v i = Ok c /\ counter_ok nbits c.
Proof.
  intros [Hl Hf] Hi. destruct (aread_in_bounds v i) as (c & Hc & Hr); [lia|].
  exists c. split; [done|]. split; [done|]. by eapply Forall_lookup_1.
Qed.

Lemma counters_insert nbits n v i c :
  counters_ok nbits n v -> counter_ok nbits c -> counters_ok nbits n (<[i := c]> v).
Proof.
  intros [Hl Hf] Hc. split; [by rewrite length_insert|]. by apply Forall_insert.
Qed.

Lemma increment_at_ok nbits n v i :
  counters_ok nbits n v -> 0 <= i < n ->
  exists c c', v !! Z.to_nat i = Some c /\ increment c = Ok c' /\
    increment_at v i = Ok (<[Z.to_nat i := c']> v) /\
    counters_ok nbits n (<[Z.to_nat i := c']> v).
Proof.
  intros Hv Hi. destruct (counters_lookup _ _ _ _ Hv Hi) as (c & Hl & Hr & Hc).
  destruct (increment_ok _ _ Hc) as (c' & Hc' & Hok & _). exists c, c'.
  unfold increment_at. rewrite Hr. cbn [mbind res_bind]. rewrite Hc'. cbn [mbind res_bind].
  destruct Hv as [Hlen Hf]. rewrite awrite_Ok by lia.
  do 3 (split; [done|]). by apply counters_insert.
Qed.

Lemma decrement_at_ok nbits n v i :
  counters_ok nbits n v -> 0 <= i < n ->
  exists c, v !! Z.to_nat i = Some c /\
    decrement_at v i = Ok (<[Z.to_nat i := decrement c]> v) /\
    counters_ok nbits n (<[Z.to_nat i := decrement c]> v).
Proof.
  intros Hv Hi. destruct (counters_lookup _ _ _ _ Hv Hi) as (c & Hl & Hr & Hc).
  exists c. unfold decrement_at. rewrite Hr. cbn [mbind res_bind].
  destruct Hv as [Hlen Hf]. rewrite awrite_Ok by lia.
  do 2 (split; [done|]). apply counters_insert; [done|]. by apply decrement_ok.
Qed.

Lemma int_mask_ok nbits : 0 <= nbits < 31 -> int_mask nbits = Ok (2 ^ nbits - 1).
Proof. intros H. unfold int_mask. case_match; [done|lia]. Qed.

(** The constructor's loops give every counter its width. *)
Lemma counters_new_ok nbits n :
  0 <= nbits < 31 -> 0 <= n ->
  exists v, counters_new nbits n = Ok v /\ counters_ok nbits n v /\
    v = replicate (Z.to_nat n)
          {| initialVal := 0; maxVal := Some (u8 (2 ^ nbits - 1)); counter := 0 |}.
Proof.
  intros Hb Hn. set (c1 := {| initialVal := 0; maxVal := _; counter := 0 |}).
  destruct (for_range_ok (fun i v =>
      v = replicate (Z.to_nat i) c1 ++ replicate (Z.to_nat (n - i)) counter_default)
    (fun i v => c ← aread v i; c' ← setBits c nbits; awrite v i c') 0 n
    (replicate (Z.to_nat n) counter_default)) as (v & Hv & ->).
  - done.
  - simpl. by rewrite Z.sub_0_r.
  - intros i s Hi ->. rewrite (aread_Ok _ _ counter_default); [|lia|].
    2:{ rewrite lookup_app_r by (rewrite length_replicate; lia).
        rewrite length_replicate, Nat.sub_diag. apply lookup_replicate. split; [done|lia]. }
    unfold setBits. cbn [mbind res_bind]. rewrite int_mask_ok by done. cbn [mbind res_bind].
    rewrite awrite_Ok by (rewrite length_app, !length_replicate; lia).
    eexists. split; [done|].
    replace (Z.to_nat (n - i)) with (S (Z.to_nat (n - (i + 1)))) by lia.
    replace (Z.to_nat (i + 1)) with (Z.to_nat i + 1)%nat by lia.
    rewrite insert_app_r_alt by (rewrite length_replicate; lia).
    rewrite length_replicate, Nat.sub_diag, replicate_add, <- app_assoc. done.
  - exists (replicate (Z.to_nat n) c1).
    split; [by unfold counters_new, counters_setBits; rewrite Hv, Z.sub_diag, app_nil_r|].
    split; [|done]. split; [rewrite length_replicate; lia|].
    apply Forall_replicate. pose proof (counter_max_range nbits). split; cbn; [done|lia].
Qed.
