(* ===== verification/DirPred.v ===== *)
(** The interface between the branch prediction unit and a direction predictor:
    the virtual functions of [BPredUnit] (src/cpu/pred/bpred_unit.hh) and the
    laws the unit relies on.  [TournamentBP], [BiModeBP] and [LocalBP]
    implement it; the unit's theorems use only the laws.  The other interface of
    the unit is the instruction set ([TheISA]). *)
From S2P Require Import Prelude.

(** * Definitions *)

(** [S]: the predictor's state.  [H]: what [void *bp_history] can be;
    [dp_null] is [NULL].  [bp_history] is passed by reference to [lookup] and
    [uncondBranch], which take and return it. *)
Class DirPred (S H : Type) := {
  dp_null : H;
  dp_lookup : S -> Z -> Z -> H -> res (bool * H * S);
  dp_uncondBranch : S -> Z -> Z -> H -> res (H * S);
  dp_btbUpdate : S -> Z -> Z -> H -> res S;
  dp_update : S -> Z -> Z -> bool -> H -> bool -> res S;
  dp_squash : S -> Z -> H -> res S;
  dp_getGHR : S -> Z -> H -> res Z;
}.

(** An address: a 64-bit unsigned integer. *)
Definition addr_ok (pc : Z) : Prop := 0 <= pc < 2 ^ 64.

(** [C] holds the parameters a predictor was built with: the number of threads
    and the sizes of its tables.  [dp_eq] relates states that predict alike. *)
Class DirPredLaws (C S H : Type) `{DirPred S H} := {
  dp_threads : C -> Z;
  dp_inv : C -> S -> Prop;
  dp_hist : C -> H -> Prop;
  dp_eq : S -> S -> Prop;
  dp_eq_equiv :: Equivalence dp_eq;

  (** Every operation returns, and keeps the tables well formed. *)
  dp_lookup_ok c s tid pc : dp_inv c s -> 0 <= tid < dp_threads c -> addr_ok pc ->
    exists b h s', dp_lookup s tid pc dp_null = Ok (b, h, s') /\ dp_hist c h /\ dp_inv c s';
  dp_uncond_ok c s tid pc : dp_inv c s -> 0 <= tid < dp_threads c -> addr_ok pc ->
    exists h s', dp_uncondBranch s tid pc dp_null = Ok (h, s') /\ dp_hist c h /\ dp_inv c s';
  dp_btb_ok c s tid pc h : dp_inv c s -> 0 <= tid < dp_threads c -> addr_ok pc -> dp_hist c h ->
    exists s', dp_btbUpdate s tid pc h = Ok s' /\ dp_inv c s';
  dp_update_ok c s tid pc b h sq : dp_inv c s -> 0 <= tid < dp_threads c -> addr_ok pc ->
    dp_hist c h -> exists s', dp_update s tid pc b h sq = Ok s' /\ dp_inv c s';
  dp_squash_ok c s tid h : dp_inv c s -> 0 <= tid < dp_threads c -> dp_hist c h ->
    exists s', dp_squash s tid h = Ok s' /\ dp_inv c s';
  dp_getGHR_ok c s tid h : dp_inv c s -> dp_hist c h ->
    exists g, dp_getGHR s tid h = Ok g /\ 0 <= g < 2 ^ 32;

  (** Related states predict alike. *)
  dp_eq_lookup c s t tid pc b h s' : dp_inv c s -> dp_inv c t -> dp_eq s t ->
    0 <= tid < dp_threads c -> addr_ok pc ->
    dp_lookup s tid pc dp_null = Ok (b, h, s') ->
    exists t', dp_lookup t tid pc dp_null = Ok (b, h, t') /\ dp_eq s' t';

  (** [squash] undoes a prediction, also one followed by [btbUpdate]. *)
  dp_undo_lookup c s tid pc b h s' t : dp_inv c s -> 0 <= tid < dp_threads c -> addr_ok pc ->
    dp_lookup s tid pc dp_null = Ok (b, h, s') -> dp_inv c t -> dp_eq s' t ->
    exists u, dp_squash t tid h = Ok u /\ dp_eq u s;
  dp_undo_btb c s tid pc b h s' s'' t : dp_inv c s -> 0 <= tid < dp_threads c -> addr_ok pc ->
    dp_lookup s tid pc dp_null = Ok (b, h, s') -> dp_btbUpdate s' tid pc h = Ok s'' ->
    dp_inv c t -> dp_eq s'' t ->
    exists u, dp_squash t tid h = Ok u /\ dp_eq u s;
  dp_undo_uncond c s tid pc h s' t : dp_inv c s -> 0 <= tid < dp_threads c -> addr_ok pc ->
    dp_uncondBranch s tid pc dp_null = Ok (h, s') -> dp_inv c t -> dp_eq s' t ->
    exists u, dp_squash t tid h = Ok u /\ dp_eq u s;
}.

(** * Arithmetic the predictors share *)

(** [(ULL(1) << (bits - 1)) - 1] stored in an [unsigned]; [bits] is [unsigned]. *)
Definition threshold (nbits : Z) : res Z :=
  let k := u32 (nbits - 1) in
  defined! k <? 64 ;; Ok (u32 (u64 (Z.shiftl 1 k) - 1)).

(** [x >> amt] on a 64-bit [x]. *)
Definition shr64 (x amt : Z) : res Z := defined! amt <? 64 ;; Ok (Z.shiftr x amt).

(** [(h << 1) | taken] on [unsigned]. *)
Definition shift_in (h : Z) (taken : bool) : Z := u32 (Z.lor (Z.shiftl h 1) (Z.b2z taken)).

Lemma threshold_ok nbits :
  1 <= nbits <= 30 -> threshold nbits = Ok (2 ^ (nbits - 1) - 1).
Proof.
  intros H. unfold threshold. rewrite (wrap_u_id 32 (nbits - 1)) by lia.
  case_match; [|lia]. f_equal. rewrite Z.shiftl_1_l.
  pose proof (pow2_pos (nbits - 1) ltac:(lia)).
  pose proof (Z.pow_lt_mono_r 2 (nbits - 1) 32 ltac:(lia) ltac:(lia) ltac:(lia)).
  rewrite (wrap_u_id 64 (2 ^ (nbits - 1))) by lia. apply wrap_u_id. lia.
Qed.

Lemma shr64_ok x amt : amt < 64 -> shr64 x amt = Ok (Z.shiftr x amt).
Proof. intros H. unfold shr64. case_match; [done|lia]. Qed.

Lemma shift_in_range h b : 0 <= shift_in h b < 2 ^ 32.
Proof. apply wrap_u_range. lia. Qed.

(** An index masked to a table of [2 ^ k] entries is in the table. *)
Lemma land_mask_range x k : 0 <= k -> 0 <= Z.land x (2 ^ k - 1) < 2 ^ k.
Proof.
  intros Hk. rewrite Z.sub_1_r, <- Z.ones_equiv, Z.land_ones by done.
  by apply Z.mod_pos_bound, pow2_pos.
Qed.

Lemma land_mask_idemp x m : Z.land (Z.land x m) m = Z.land x m.
Proof. by rewrite <- Z.land_assoc, Z.land_diag. Qed.

Lemma land_u32 x y : 0 <= y < 2 ^ 32 -> 0 <= Z.land x y < 2 ^ 32.
Proof.
  intros Hy. assert (0 <= Z.land x y) by (apply Z.land_nonneg; lia).
  split; [done|]. apply testbit_bound; [done|lia|]. intros i Hi.
  rewrite Z.land_spec, (testbit_above 32 y) by lia. apply andb_false_r.
Qed.

Lemma u32_pred_pow2 k : 0 <= k <= 32 -> u32 (2 ^ k - 1) = 2 ^ k - 1.
Proof.
  intros H. apply wrap_u_id. pose proof (pow2_pos k ltac:(lia)).
  pose proof (Z.pow_le_mono_r 2 k 32 ltac:(lia) ltac:(lia)). lia.
Qed.

(** * Speculation and its undoing, for any predictor *)

(** One prediction: a conditional branch, with [btbUpdate] called when its
    target is unknown, or an unconditional one. *)
Inductive spec_op := SLookup (pc : Z) (no_target : bool) | SUncond (pc : Z).
Definition spec_op_ok (o : spec_op) : Prop :=
  match o with SLookup pc _ | SUncond pc => addr_ok pc end.

Section Speculation.
Context {C S H : Type} `{DirPred S H}.

(** The histories handed out, youngest first. *)
Fixpoint speculate (ops : list spec_op) (tid : Z) (s : S) (hs : list H) : res (list H * S) :=
  match ops with
  | [] => Ok (hs, s)
  | SLookup pc no_target :: ops =>
    '(b, h, s) ← dp_lookup s tid pc dp_null;
    s ← (if (no_target : bool) && (b : bool) then dp_btbUpdate s tid pc h else Ok s);
    speculate ops tid s (h :: hs)
  | SUncond pc :: ops =>
    '(h, s) ← dp_uncondBranch s tid pc dp_null; speculate ops tid s (h :: hs)
  end.

(** Squash them, youngest first. *)
Fixpoint unwind (hs : list H) (tid : Z) (s : S) : res S :=
  match hs with [] => Ok s | h :: hs => s ← dp_squash s tid h; unwind hs tid s end.

Lemma speculate_length ops tid s hs hs' s' :
  speculate ops tid s hs = Ok (hs', s') -> length hs' = (length hs + length ops)%nat.
Proof.
  revert s hs. induction ops as [|[pc nt|pc] ops IH]; intros s hs; cbn [speculate].
  - intros [= -> ->]. simpl. lia.
  - intros ([[b h] s1] & _ & (s2 & _ & E)%bind_Ok)%bind_Ok. apply IH in E. simpl in *. lia.
  - intros ([h s1] & _ & E)%bind_Ok. apply IH in E. simpl in *. lia.
Qed.

Context `{!DirPredLaws C S H}.

(** Squashing a predictor related to the one that predicted. *)
Lemma undo_step c s1 t tid h s :
  dp_inv c t -> 0 <= tid < dp_threads c -> dp_hist c h ->
  (exists u, dp_squash t tid h = Ok u /\ dp_eq u s) ->
  dp_eq s1 t -> exists u, dp_squash t tid h = Ok u /\ dp_eq u s /\ dp_inv c u.
Proof.
  intros Ht Htid Hh (u & Hu & He) _. destruct (dp_squash_ok c t tid h Ht Htid Hh) as (u' & Hu' & Hi).
  rewrite Hu in Hu'. injection Hu' as <-. by exists u.
Qed.

Lemma speculate_unwind c ops tid s hs0 :
  dp_inv c s -> 0 <= tid < dp_threads c -> Forall spec_op_ok ops ->
  exists hs s', speculate ops tid s hs0 = Ok (hs ++ hs0, s') /\ dp_inv c s' /\
    forall t, dp_inv c t -> dp_eq s' t ->
      exists u, unwind (hs ++ hs0) tid t = unwind hs0 tid u /\ dp_inv c u /\ dp_eq u s.
Proof.
  intros Hs Ht Hops. revert s hs0 Hs.
  induction Hops as [|o ops Ho Hops IH]; intros s hs0 Hs.
  { exists [], s. do 2 (split; [done|]). intros t Hti He. exists t. by do 2 (split; [done|]). }
  assert (exists h s1, speculate (o :: ops) tid s hs0 = speculate ops tid s1 (h :: hs0) /\
            dp_inv c s1 /\ dp_hist c h /\
            forall t, dp_inv c t -> dp_eq s1 t ->
              exists u, dp_squash t tid h = Ok u /\ dp_eq u s) as (h & s1 & Hsp & Hi1 & Hh & Hu).
  { destruct o as [pc nt|pc].
    - destruct (dp_lookup_ok c s tid pc Hs Ht Ho) as (b & h & s1 & Hl & Hh & Hi1).
      destruct (dp_btb_ok c s1 tid pc h Hi1 Ht Ho Hh) as (s2 & Hb & Hi2).
      exists h. cbn [speculate]. rewrite Hl. cbn [mbind res_bind].
      destruct (nt && b).
      + exists s2. rewrite Hb. do 3 (split; [done|]). intros t Hti He.
        by eapply dp_undo_btb.
      + exists s1. do 3 (split; [done|]). intros t Hti He. by eapply dp_undo_lookup.
    - destruct (dp_uncond_ok c s tid pc Hs Ht Ho) as (h & s1 & Hl & Hh & Hi1).
      exists h, s1. cbn [speculate]. rewrite Hl. do 3 (split; [done|]). intros t Hti He.
      by eapply dp_undo_uncond. }
  destruct (IH s1 (h :: hs0) Hi1) as (hs & s' & Hrun & Hi' & Hun).
  exists (hs ++ [h]), s'. rewrite <- app_assoc. cbn [app]. rewrite Hsp.
  do 2 (split; [done|]). intros t Hti He.
  destruct (Hun t Hti He) as (u & -> & Hui & Hue). cbn [unwind].
  destruct (undo_step c s1 u tid h s Hui Ht Hh) as (v & -> & Hve & Hvi); [apply Hu; [done|by symmetry]|by symmetry|].
  cbn [mbind res_bind]. by exists v.
Qed.
End Speculation.

(** * The instruction set *)

(** What the branch prediction unit uses of the instruction set it is built
    for.  [TheISA] is a name the build generates (config/the_isa.hh), so the
    development takes its operations as a class.
    [PC]: [TheISA::PCState]; [Inst]: what a [StaticInstPtr] points to. *)
Class TheISA (PC Inst : Type) := {
  pc_default : PC;                  (** [PCState()] *)
  pc_of : Z -> PC;                  (** [PCState(Addr)] *)
  pc_set : PC -> Z -> PC;           (** [PCState::set] *)
  instAddr : PC -> Z;               (** [PCState::instAddr] *)
  advancePC : PC -> Inst -> PC;     (** [TheISA::advancePC] *)
  buildRetPC : PC -> PC -> PC;      (** [TheISA::buildRetPC] *)
  isUncondCtrl : Inst -> bool;
  isReturn : Inst -> bool;
  isCall : Inst -> bool;
  isDirectCtrl : Inst -> bool;
}.

(** [Addr] is a 64-bit unsigned integer. *)
Class TheISALaws (PC Inst : Type) `{TheISA PC Inst} := {
  instAddr_ok pc : addr_ok (instAddr pc);
}.

(** A flat instruction set, to instantiate the class: the program counter is
    an address and instructions are 4 bytes long. *)
Record flat_inst := { f_uncond : bool; f_return : bool; f_call : bool; f_direct : bool }.
#[export] Instance flat_isa : TheISA Z flat_inst := {|
  pc_default := 0; pc_of := u64; pc_set := fun _ a => u64 a; instAddr := u64;
  advancePC := fun pc _ => u64 (pc + 4); buildRetPC := fun _ call_pc => u64 (call_pc + 4);
  isUncondCtrl := f_uncond; isReturn := f_return; isCall := f_call; isDirectCtrl := f_direct |}.
#[export] Instance flat_isa_laws : TheISALaws Z flat_inst.
Proof. split. intros pc. apply (wrap_u_range 64). lia. Qed.
