(* ===== verification/LocalBP.v ===== *)
(** The local predictor of src/cpu/pred/2bit_local.cc: a table of saturating
    counters indexed by the branch address. *)
From S2P Require Import Prelude Bitfield IntMath SatCounter DirPred.

(** * Definitions *)

(** What the constructor fixes. *)
Record LocalCfg := {
  localPredictorSize : Z; localPredictorSets : Z; localCtrBits : Z;
  indexMask : Z; instShiftAmt : Z; numThreads : Z }.
Record LocalBP := { cfg : LocalCfg; localCtrs : list SatCounter }.

Definition with_ctrs (s : LocalBP) (v : list SatCounter) : LocalBP :=
  {| cfg := cfg s; localCtrs := v |}.

(** [LocalBPParams] *)
Record LocalBPParams := {
  p_localPredictorSize : Z; p_localCtrBits : Z; p_instShiftAmt : Z; p_numThreads : Z }.

Definition LocalBP_new (p : LocalBPParams) : res LocalBP :=
  let size := p_localPredictorSize p in
  let nbits := p_localCtrBits p in
  assert! isPowerOf2 size ;;
  defined! negb (nbits =? 0) ;;
  let sets := size / nbits in
  assert! isPowerOf2 sets ;;
  ctrs ← counters_new nbits sets;
  Ok {| cfg := {| localPredictorSize := size; localPredictorSets := sets;
                  localCtrBits := nbits; indexMask := u32 (sets - 1);
                  instShiftAmt := p_instShiftAmt p; numThreads := p_numThreads p |};
        localCtrs := ctrs |}.

Definition local_reset (s : LocalBP) : res LocalBP :=
  v ← for_range 0 (localPredictorSets (cfg s))
        (fun i v => c ← aread v i; awrite v i (reset c)) (localCtrs s);
  Ok (with_ctrs s v).

Definition getLocalIndex (s : LocalBP) (pc : Z) : res Z :=
  x ← shr64 pc (instShiftAmt (cfg s)); Ok (Z.land x (indexMask (cfg s))).

(** [count >> (localCtrBits - 1)] on a promoted [uint8_t], as a [bool] *)
Definition getPrediction (s : LocalBP) (count : Z) : res bool :=
  let k := u32 (localCtrBits (cfg s) - 1) in
  defined! k <? 32 ;; Ok (negb (Z.shiftr count k =? 0)).

Definition lookup (s : LocalBP) (tid pc : Z) (bp_history : option unit)
  : res (bool * option unit * LocalBP) :=
  idx ← getLocalIndex s pc;
  c ← aread (localCtrs s) idx;
  taken ← getPrediction s (read c);
  Ok (taken, bp_history, s).

Definition update (s : LocalBP) (tid pc : Z) (taken : bool) (bp_history : option unit)
    (squashed : bool) : res LocalBP :=
  assert! bool_decide (bp_history = None) ;;
  if squashed then Ok s
  else
    idx ← getLocalIndex s pc;
    v ← (if taken then increment_at (localCtrs s) idx else decrement_at (localCtrs s) idx);
    Ok (with_ctrs s v).

Definition uncondBranch (s : LocalBP) (tid pc : Z) (bp_history : option unit)
  : res (option unit * LocalBP) := Ok (bp_history, s).
Definition btbUpdate (s : LocalBP) (tid pc : Z) (bp_history : option unit) : res LocalBP := Ok s.
Definition squash (s : LocalBP) (tid : Z) (bp_history : option unit) : res LocalBP :=
  assert! bool_decide (bp_history = None) ;; Ok s.
(** [BPredUnit::getGHR], not overridden *)
Definition getGHR (s : LocalBP) (tid : Z) (bp_history : option unit) : res Z := Ok 0.

#[export] Instance LocalBP_DirPred : DirPred LocalBP (option unit) := {|
  dp_null := None; dp_lookup := lookup; dp_uncondBranch := uncondBranch;
  dp_btbUpdate := btbUpdate; dp_update := update; dp_squash := squash; dp_getGHR := getGHR |}.

(** [n] resolved branches at [pc], all with the same outcome. *)
Fixpoint train (n : nat) (s : LocalBP) (tid pc : Z) (taken : bool) : res LocalBP :=
  match n with
  | O => Ok s
  | S n => s' ← update s tid pc taken None false; train n s' tid pc taken
  end.

(** * Invariant *)

Record cfg_ok (c : LocalCfg) : Prop := {
  cfg_sets : exists k, 0 <= k < 32 /\ localPredictorSets c = 2 ^ k /\ indexMask c = 2 ^ k - 1;
  cfg_bits : 1 <= localCtrBits c <= 30;
  cfg_shift : 0 <= instShiftAmt c < 64 }.
Record inv (c : LocalCfg) (s : LocalBP) : Prop := {
  inv_cfg : cfg s = c;
  inv_cfg_ok : cfg_ok c;
  inv_ctrs : counters_ok (localCtrBits c) (localPredictorSets c) (localCtrs s) }.

Definition index_of (c : LocalCfg) (pc : Z) : Z := Z.land (Z.shiftr pc (instShiftAmt c)) (indexMask c).

Lemma local_index_ok c s pc :
  inv c s -> getLocalIndex s pc = Ok (index_of c pc) /\ 0 <= index_of c pc < localPredictorSets c.
Proof.
  intros [Hc [(k & Hk & Hs & Hm) Hb Hsh] Hv]. unfold getLocalIndex. rewrite Hc, shr64_ok by lia.
  split; [done|]. unfold index_of. rewrite Hm, Hs. apply land_mask_range. lia.
Qed.

Lemma prediction_ok c s n :
  inv c s -> 0 <= n -> getPrediction s n = Ok (2 ^ (localCtrBits c - 1) <=? n).
Proof.
  intros [Hc [_ Hb _] _] Hn. unfold getPrediction. rewrite Hc, (wrap_u_id 32) by lia.
  case_match; [|lia]. f_equal. rewrite Z.shiftr_div_pow2 by lia.
  pose proof (pow2_pos (localCtrBits c - 1) ltac:(lia)).
  destruct (Z.leb_spec (2 ^ (localCtrBits c - 1)) n).
  - apply negb_true_iff, Z.eqb_neq. intros E. apply Z.div_small_iff in E; lia.
  - by rewrite Z.div_small by lia.
Qed.

Lemma local_lookup_spec c s tid pc h :
  inv c s -> exists ctr,
    localCtrs s !! Z.to_nat (index_of c pc) = Some ctr /\ counter_ok (localCtrBits c) ctr /\
    lookup s tid pc h = Ok (2 ^ (localCtrBits c - 1) <=? counter ctr, h, s).
Proof.
  intros Hs. destruct (local_index_ok c s pc Hs) as [Hi Hr].
  destruct (counters_lookup _ _ _ _ (inv_ctrs _ _ Hs) Hr) as (ctr & Hl & Ha & Hok).
  exists ctr. do 2 (split; [done|]). unfold lookup. rewrite Hi. cbn [mbind res_bind]. rewrite Ha. cbn [mbind res_bind].
  unfold read. rewrite (prediction_ok c) by (done || apply Hok). done.
Qed.

(** A resolved branch moves one counter by one step. *)
Lemma update_spec c s tid pc (taken : bool) :
  inv c s -> exists ctr ctr',
    localCtrs s !! Z.to_nat (index_of c pc) = Some ctr /\ counter_ok (localCtrBits c) ctr /\
    counter ctr' = (if taken then Z.min (counter ctr + 1) (u8 (2 ^ localCtrBits c - 1))
                    else Z.max (counter ctr - 1) 0) /\
    update s tid pc taken None false
      = Ok (with_ctrs s (<[Z.to_nat (index_of c pc) := ctr']> (localCtrs s))) /\
    inv c (with_ctrs s (<[Z.to_nat (index_of c pc) := ctr']> (localCtrs s))).
Proof.
  intros Hs. destruct (local_index_ok c s pc Hs) as [Hi Hr]. pose proof (inv_ctrs _ _ Hs) as Hv.
  assert (forall v, counters_ok (localCtrBits c) (localPredictorSets c) v -> inv c (with_ctrs s v))
    as Hinv by (intros v Hok; split; [apply Hs|apply Hs|done]).
  destruct (counters_lookup _ _ _ _ Hv Hr) as (ctr & Hl & _ & Hok).
  unfold update. cbn -[increment_at decrement_at]. rewrite Hi. cbn [mbind res_bind].
  destruct taken.
  - destruct (increment_at_ok _ _ _ _ Hv Hr) as (c1 & c2 & Hl1 & Hinc & -> & Hv').
    simplify_eq. destruct (increment_ok _ _ Hok) as (c2' & Hinc' & _ & Hcnt).
    rewrite Hinc in Hinc'. simplify_eq.
    eexists _, _. do 4 (split; [done|]). by apply Hinv.
  - destruct (decrement_at_ok _ _ _ _ Hv Hr) as (c1 & Hl1 & -> & Hv'). simplify_eq.
    exists ctr, (decrement ctr). split; [done|]. split; [done|].
    split; [by apply (decrement_ok (localCtrBits c))|]. split; [done|]. by apply Hinv.
Qed.

Lemma local_update_ok c s tid pc b sq : inv c s -> exists s', update s tid pc b None sq = Ok s' /\ inv c s'.
Proof.
  intros Hs. destruct sq; [by exists s|].
  destruct (update_spec c s tid pc b Hs) as (x & y & ? & ? & ? & ? & ?). eauto.
Qed.

(** Training moves the counter by up to [n] steps and leaves the others. *)
Lemma train_spec n c s tid pc (taken : bool) :
  inv c s -> exists s' ctr ctr',
    train n s tid pc taken = Ok s' /\ inv c s' /\
    localCtrs s !! Z.to_nat (index_of c pc) = Some ctr /\
    localCtrs s' !! Z.to_nat (index_of c pc) = Some ctr' /\
    counter_ok (localCtrBits c) ctr /\
    counter ctr' = (if taken then Z.min (counter ctr + Z.of_nat n) (u8 (2 ^ localCtrBits c - 1))
                    else Z.max (counter ctr - Z.of_nat n) 0) /\
    forall i, i <> Z.to_nat (index_of c pc) -> localCtrs s' !! i = localCtrs s !! i.
Proof.
  revert s. induction n as [|n IH]; intros s Hs.
  - destruct (local_lookup_spec c s tid pc None Hs) as (ctr & Hl & Hok & _). exists s, ctr, ctr.
    do 5 (split; [done|]). split; [|done]. destruct Hok as (_ & _ & Hok). destruct taken; lia.
  - destruct (update_spec c s tid pc taken Hs) as (ctr & c1 & Hl & Hok & Hc1 & Hu & Hi1).
    destruct (IH _ Hi1) as (s' & c1' & ctr' & Ht & Hi' & Hl1 & Hl' & Hok1 & Hc' & Ho).
    exists s', ctr, ctr'. cbn [train]. rewrite Hu. cbn [mbind res_bind].
    cbn [localCtrs with_ctrs] in Hl1.
    rewrite list_lookup_insert_eq in Hl1 by (by eapply lookup_lt_Some). simplify_eq.
    do 5 (split; [done|]). split.
    + destruct Hok as (_ & _ & Hok). rewrite Hc', Hc1. destruct taken; lia.
    + intros i Hne. rewrite Ho by done. cbn. by apply list_lookup_insert_ne.
Qed.

(** * The interface *)

#[export, program] Instance LocalBP_laws : DirPredLaws LocalCfg LocalBP (option unit) := {|
  dp_threads := numThreads;
  dp_inv := inv;
  dp_hist := fun _ h => h = None;
  dp_eq := eq |}.
Next Obligation.
  intros c s tid pc Hs _ _. destruct (local_lookup_spec c s tid pc None Hs) as (? & _ & _ & H).
  eexists _, None, s. split; [exact H|done].
Qed.
Next Obligation. intros c s tid pc Hs _ _. by exists None, s. Qed.
Next Obligation. intros c s tid pc h Hs _ _ _. by exists s. Qed.
Next Obligation. intros c s tid pc b h sq Hs _ _ ->. by apply local_update_ok. Qed.
Next Obligation. intros c s tid h Hs _ ->. by exists s. Qed.
Next Obligation. intros c s tid h Hs _. by exists 0. Qed.
Next Obligation. intros c s t tid pc b h s' _ _ -> _ _ ->. by eexists. Qed.
Next Obligation.
  intros c s tid pc b h s' t Hs _ _ Hl _ <-.
  destruct (local_lookup_spec c s tid pc None Hs) as (? & _ & _ & H).
  change (lookup s tid pc None = Ok (b, h, s')) in Hl. rewrite H in Hl. simplify_eq. by exists s'.
Qed.
Next Obligation.
  intros c s tid pc b h s' s'' t Hs _ _ Hl Hb _ <-.
  destruct (local_lookup_spec c s tid pc None Hs) as (? & _ & _ & H).
  change (lookup s tid pc None = Ok (b, h, s')) in Hl. rewrite H in Hl. injection Hb as <-. simplify_eq. by exists s'.
Qed.
Next Obligation. intros c s tid pc h s' t Hs _ _ Hl _ <-. injection Hl as <- <-. by exists s. Qed.

(** * Theorems *)

(** The constructor builds a well-formed predictor from well-formed parameters. *)
Lemma LocalBP_new_ok p k :
  0 <= k < 31 -> p_localPredictorSize p = 2 ^ k -> 1 <= p_localCtrBits p <= 30 ->
  isPowerOf2 (2 ^ k / p_localCtrBits p) = true -> 0 <= p_instShiftAmt p < 64 ->
  exists s, LocalBP_new p = Ok s /\ inv (cfg s) s /\
    localPredictorSets (cfg s) = 2 ^ k / p_localCtrBits p /\ localCtrBits (cfg s) = p_localCtrBits p.
Proof.
  intros Hk Hsz Hb Hp Hsh. unfold LocalBP_new. rewrite Hsz.
  pose proof (pow2_pos k ltac:(lia)). pose proof (Z.pow_lt_mono_r 2 k 31 ltac:(lia) ltac:(lia) ltac:(lia)).
  rewrite (proj2 (isPowerOf2_spec (2 ^ k) ltac:(lia))) by (exists k; lia).
  rewrite (proj2 (Z.eqb_neq (p_localCtrBits p) 0)) by lia. cbn [negb].
  pose proof (Z.div_pos (2 ^ k) (p_localCtrBits p) ltac:(lia) ltac:(lia)).
  pose proof (Z.div_le_upper_bound (2 ^ k) (p_localCtrBits p) (2 ^ k) ltac:(lia) ltac:(nia)).
  rewrite Hp. apply isPowerOf2_spec in Hp as (j & Hj & E); [|lia].
  assert (j < 32) by (apply (Z.pow_lt_mono_r_iff 2); lia).
  destruct (counters_new_ok (p_localCtrBits p) (2 ^ k / p_localCtrBits p)) as (v & Hv & Hok & _); [lia..|].
  rewrite Hv. cbn [mbind res_bind]. eexists. split; [done|]. split; [|done].
  split; [done| |done]. split; cbn; [|lia..]. exists j. rewrite E, u32_pred_pow2 by lia. split; [lia|done].
Qed.

(** (the local predictor learns). Starting from any well-formed state,
    [2 ^ (bits - 1)] resolved branches at an address with the same outcome are
    enough: every later lookup of that address predicts that outcome, whatever
    its counter was; branches whose index differs keep their prediction.  This
    needs counters of at most 8 bits: a counter is a [uint8_t], so with 9 to
    30 bits the top bit that [getPrediction] reads is never set and the
    predictor always answers not taken. *)
Theorem local_learns c s tid pc taken n :
  inv c s ->
  exists s', train n s tid pc taken = Ok s' /\ inv c s' /\
    (localCtrBits c <= 8 -> 2 ^ (localCtrBits c - 1) <= Z.of_nat n ->
       lookup s' tid pc None = Ok (taken, None, s')) /\
    (forall pc' b, index_of c pc' <> index_of c pc ->
       lookup s tid pc' None = Ok (b, None, s) -> lookup s' tid pc' None = Ok (b, None, s')) /\
    (8 < localCtrBits c -> forall pc', lookup s' tid pc' None = Ok (false, None, s')).
Proof.
  intros Hs. destruct (train_spec n c s tid pc taken Hs)
    as (s' & ctr & ctr' & Ht & Hs' & Hl & Hl' & Hok & Hcnt & Ho).
  exists s'. do 2 (split; [done|]). pose proof (cfg_bits _ (inv_cfg_ok _ _ Hs)) as Hb.
  split_and!.
  - intros H8 Hn. destruct (local_lookup_spec c s' tid pc None Hs') as (x & Hx & _ & ->). simplify_eq.
    rewrite Hcnt. destruct Hok as (_ & _ & Hok). rewrite counter_max_small in * by lia.
    rewrite (pow2_double (localCtrBits c)) in * by lia. pose proof (pow2_pos (localCtrBits c - 1) ltac:(lia)).
    do 2 f_equal. f_equal. destruct taken; lia.
  - intros pc' b Hne. destruct (local_lookup_spec c s tid pc' None Hs) as (x & Hx & _ & ->).
    destruct (local_lookup_spec c s' tid pc' None Hs') as (y & Hy & _ & ->).
    destruct (local_index_ok c s pc Hs) as [_ Hr]. destruct (local_index_ok c s pc' Hs) as [_ Hr'].
    rewrite Ho in Hy by lia. intros [=]. simplify_eq. done.
  - intros H8 pc'. destruct (local_lookup_spec c s' tid pc' None Hs') as (x & _ & (_ & _ & Hx) & ->).
    pose proof (counter_max_range (localCtrBits c)).
    pose proof (Z.pow_le_mono_r 2 8 (localCtrBits c - 1) ltac:(lia) ltac:(lia)).
    do 2 f_equal. f_equal. lia.
Qed.

Example local_learns_witness :
  exists s s', LocalBP_new {| p_localPredictorSize := 64; p_localCtrBits := 2;
                              p_instShiftAmt := 2; p_numThreads := 1 |} = Ok s /\
    train 2 s 0 0x1000 true = Ok s' /\ lookup s' 0 0x1000 None = Ok (true, None, s').
Proof.
  destruct (LocalBP_new {| p_localPredictorSize := 64; p_localCtrBits := 2;
              p_instShiftAmt := 2; p_numThreads := 1 |}) as [s| | |] eqn:E; [|by vm_compute in E..].
  destruct (LocalBP_new_ok {| p_localPredictorSize := 64; p_localCtrBits := 2;
              p_instShiftAmt := 2; p_numThreads := 1 |} 6) as (s0 & E0 & Hi & _ & Hb);
    [simpl; lia|done|simpl; lia|done|simpl; lia|].
  rewrite E in E0. injection E0 as <-.
  destruct (local_learns (cfg s) s 0 0x1000 true 2 Hi) as (s' & Ht & _ & Hp & _).
  exists s, s'. split; [done|]. split; [done|]. rewrite Hb in Hp. by apply Hp.
Defined.
