(* ===== verification/BiModeBP.v ===== *)
(** The bi-mode predictor of src/cpu/pred/bi_mode.cc: a choice table indexed
    by the branch address selects between two tables indexed by a hash of the
    address and the global history. *)
From S2P Require Import Prelude Bitfield IntMath SatCounter DirPred.

(** * Definitions *)

(** What the constructor fixes. *)
Record BiModeCfg := {
  globalHistoryBits : Z; historyRegisterMask : Z;
  choicePredictorSize : Z; choiceCtrBits : Z; choiceHistoryMask : Z;
  globalPredictorSize : Z; globalCtrBits : Z; globalHistoryMask : Z;
  choiceThreshold : Z; takenThreshold : Z; notTakenThreshold : Z;
  instShiftAmt : Z; numThreads : Z }.
Record BiModeBP := {
  cfg : BiModeCfg;
  choiceCounters : list SatCounter;
  takenCounters : list SatCounter;
  notTakenCounters : list SatCounter;
  globalHistoryReg : list Z }.

Record BPHistory := {
  h_globalHistoryReg : Z;
  h_takenUsed : bool; h_takenPred : bool; h_notTakenPred : bool; h_finalPred : bool }.
(** [void *bp_history]: [NULL] or a record. *)
Abbreviation bp_ptr := (option BPHistory).

Definition with_choice (s : BiModeBP) v :=
  {| cfg := cfg s; choiceCounters := v; takenCounters := takenCounters s;
     notTakenCounters := notTakenCounters s; globalHistoryReg := globalHistoryReg s |}.
Definition with_taken (s : BiModeBP) v :=
  {| cfg := cfg s; choiceCounters := choiceCounters s; takenCounters := v;
     notTakenCounters := notTakenCounters s; globalHistoryReg := globalHistoryReg s |}.
Definition with_notTaken (s : BiModeBP) v :=
  {| cfg := cfg s; choiceCounters := choiceCounters s; takenCounters := takenCounters s;
     notTakenCounters := v; globalHistoryReg := globalHistoryReg s |}.
Definition with_history (s : BiModeBP) v :=
  {| cfg := cfg s; choiceCounters := choiceCounters s; takenCounters := takenCounters s;
     notTakenCounters := notTakenCounters s; globalHistoryReg := v |}.

(** [BiModeBPParams] *)
Record BiModeBPParams := {
  p_numThreads : Z; p_instShiftAmt : Z; p_globalPredictorSize : Z; p_globalCtrBits : Z;
  p_choicePredictorSize : Z; p_choiceCtrBits : Z }.

(** The loops count with an [int] up to an [unsigned] size: a size the [int]
    cannot reach overflows it. *)
Definition BiModeBP_new (p : BiModeBPParams) : res BiModeBP :=
  let gsize := p_globalPredictorSize p in
  let csize := p_choicePredictorSize p in
  ghb ← ceilLog2_32 gsize;
  assert! isPowerOf2 csize ;;
  assert! isPowerOf2 gsize ;;
  cc ← counters_new (p_choiceCtrBits p) csize;
  _ ← int_ok csize;
  tc ← counters_new (p_globalCtrBits p) gsize;
  nc ← counters_new (p_globalCtrBits p) gsize;
  _ ← int_ok gsize;
  ct ← threshold (p_choiceCtrBits p);
  tt ← threshold (p_globalCtrBits p);
  nt ← threshold (p_globalCtrBits p);
  Ok {| cfg := {| globalHistoryBits := ghb; historyRegisterMask := u32 (mask ghb);
                  choicePredictorSize := csize; choiceCtrBits := p_choiceCtrBits p;
                  choiceHistoryMask := u32 (csize - 1);
                  globalPredictorSize := gsize; globalCtrBits := p_globalCtrBits p;
                  globalHistoryMask := u32 (gsize - 1);
                  choiceThreshold := ct; takenThreshold := tt; notTakenThreshold := nt;
                  instShiftAmt := p_instShiftAmt p; numThreads := p_numThreads p |};
        choiceCounters := cc; takenCounters := tc; notTakenCounters := nc;
        globalHistoryReg := replicate (Z.to_nat (p_numThreads p)) 0 |}.

Definition updateGlobalHistReg (s : BiModeBP) (tid : Z) (taken : bool) : res BiModeBP :=
  g ← aread (globalHistoryReg s) tid;
  let g := if taken then u32 (Z.lor (Z.shiftl g 1) 1) else u32 (Z.shiftl g 1) in
  r ← awrite (globalHistoryReg s) tid (Z.land g (historyRegisterMask (cfg s)));
  Ok (with_history s r).

Definition uncondBranch (s : BiModeBP) (tid pc : Z) (bp_history : bp_ptr) : res (bp_ptr * BiModeBP) :=
  g ← aread (globalHistoryReg s) tid;
  let history := {| h_globalHistoryReg := g; h_takenUsed := true; h_takenPred := true;
                    h_notTakenPred := true; h_finalPred := true |} in
  s ← updateGlobalHistReg s tid true;
  Ok (Some history, s).

Definition squash (s : BiModeBP) (tid : Z) (bp_history : bp_ptr) : res BiModeBP :=
  match bp_history with
  | None => Ub
  | Some history =>
    r ← awrite (globalHistoryReg s) tid (h_globalHistoryReg history);
    Ok (with_history s r)
  end.

Definition lookup (s : BiModeBP) (tid pc : Z) (bp_history : bp_ptr)
  : res (bool * bp_ptr * BiModeBP) :=
  x ← shr64 pc (instShiftAmt (cfg s));
  let choiceHistoryIdx := Z.land x (choiceHistoryMask (cfg s)) in
  g ← aread (globalHistoryReg s) tid;
  let globalHistoryIdx := Z.land (Z.lxor x g) (globalHistoryMask (cfg s)) in
  assert! choiceHistoryIdx <? choicePredictorSize (cfg s) ;;
  assert! globalHistoryIdx <? globalPredictorSize (cfg s) ;;
  cc ← aread (choiceCounters s) choiceHistoryIdx;
  tc ← aread (takenCounters s) globalHistoryIdx;
  nc ← aread (notTakenCounters s) globalHistoryIdx;
  let choicePrediction := choiceThreshold (cfg s) <? read cc in
  let takenGHBPrediction := takenThreshold (cfg s) <? read tc in
  let notTakenGHBPrediction := notTakenThreshold (cfg s) <? read nc in
  let finalPrediction :=
    if choicePrediction then takenGHBPrediction else notTakenGHBPrediction in
  let history := {| h_globalHistoryReg := g; h_takenUsed := choicePrediction;
                    h_takenPred := takenGHBPrediction; h_notTakenPred := notTakenGHBPrediction;
                    h_finalPred := finalPrediction |} in
  s ← updateGlobalHistReg s tid finalPrediction;
  Ok (finalPrediction, Some history, s).

Definition btbUpdate (s : BiModeBP) (tid pc : Z) (bp_history : bp_ptr) : res BiModeBP :=
  g ← aread (globalHistoryReg s) tid;
  r ← awrite (globalHistoryReg s) tid
        (u32 (Z.land g (Z.land (historyRegisterMask (cfg s)) (u64 (Z.lnot 1)))));
  Ok (with_history s r).

Definition update_taken_array (s : BiModeBP) (i : Z) (taken : bool) : res BiModeBP :=
  v ← (if taken then increment_at (takenCounters s) i else decrement_at (takenCounters s) i);
  Ok (with_taken s v).
Definition update_notTaken_array (s : BiModeBP) (i : Z) (taken : bool) : res BiModeBP :=
  v ← (if taken then increment_at (notTakenCounters s) i else decrement_at (notTakenCounters s) i);
  Ok (with_notTaken s v).
Definition update_choice (s : BiModeBP) (i : Z) (taken : bool) : res BiModeBP :=
  v ← (if taken then increment_at (choiceCounters s) i else decrement_at (choiceCounters s) i);
  Ok (with_choice s v).

Definition update (s : BiModeBP) (tid pc : Z) (taken : bool) (bp_history : bp_ptr)
    (squashed : bool) : res BiModeBP :=
  match bp_history with
  | None => Panic
  | Some history =>
    if squashed then
      r ← awrite (globalHistoryReg s) tid
            (u32 (Z.lor (Z.shiftl (h_globalHistoryReg history) 1) (Z.b2z taken)));
      Ok (with_history s r)
    else
      x ← shr64 pc (instShiftAmt (cfg s));
      let choiceHistoryIdx := Z.land x (choiceHistoryMask (cfg s)) in
      let globalHistoryIdx :=
        Z.land (Z.lxor x (h_globalHistoryReg history)) (globalHistoryMask (cfg s)) in
      assert! choiceHistoryIdx <? choicePredictorSize (cfg s) ;;
      assert! globalHistoryIdx <? globalPredictorSize (cfg s) ;;
      s ← (if h_takenUsed history
           then update_taken_array s globalHistoryIdx taken
           else update_notTaken_array s globalHistoryIdx taken);
      if eqb (h_finalPred history) taken then
        if eqb (h_finalPred history) (h_takenUsed history)
        then update_choice s choiceHistoryIdx taken
        else Ok s
      else update_choice s choiceHistoryIdx taken
  end.

Definition getGHR (s : BiModeBP) (tid : Z) (bp_history : bp_ptr) : res Z :=
  match bp_history with None => Ub | Some history => Ok (h_globalHistoryReg history) end.

#[export] Instance BiModeBP_DirPred : DirPred BiModeBP bp_ptr := {|
  dp_null := None; dp_lookup := lookup; dp_uncondBranch := uncondBranch;
  dp_btbUpdate := btbUpdate; dp_update := update; dp_squash := squash; dp_getGHR := getGHR |}.

(** * Invariant *)

Record cfg_ok (c : BiModeCfg) : Prop := {
  cfg_choice : exists k, 0 <= k < 31 /\ choicePredictorSize c = 2 ^ k /\ choiceHistoryMask c = 2 ^ k - 1;
  cfg_global : exists k, 0 <= k < 31 /\ globalPredictorSize c = 2 ^ k /\
    globalHistoryMask c = 2 ^ k - 1 /\ historyRegisterMask c = 2 ^ k - 1;
  cfg_shift : 0 <= instShiftAmt c < 64 }.
Record inv (c : BiModeCfg) (s : BiModeBP) : Prop := {
  inv_cfg : cfg s = c;
  inv_cfg_ok : cfg_ok c;
  inv_choice : counters_ok (choiceCtrBits c) (choicePredictorSize c) (choiceCounters s);
  inv_taken : counters_ok (globalCtrBits c) (globalPredictorSize c) (takenCounters s);
  inv_notTaken : counters_ok (globalCtrBits c) (globalPredictorSize c) (notTakenCounters s);
  inv_threads : Z.of_nat (length (globalHistoryReg s)) = numThreads c;
  inv_history : Forall (fun g => 0 <= g < 2 ^ 32) (globalHistoryReg s) }.

(** The [bp_history] the predictor handed out. *)
Definition hist_ok (h : bp_ptr) : Prop :=
  exists x, h = Some x /\ 0 <= h_globalHistoryReg x < 2 ^ 32.

Definition choice_index (c : BiModeCfg) (pc : Z) : Z :=
  Z.land (Z.shiftr pc (instShiftAmt c)) (choiceHistoryMask c).
Definition global_index (c : BiModeCfg) (pc g : Z) : Z :=
  Z.land (Z.lxor (Z.shiftr pc (instShiftAmt c)) g) (globalHistoryMask c).

Lemma choice_index_range c pc : cfg_ok c -> 0 <= choice_index c pc < choicePredictorSize c.
Proof. intros [(k & Hk & Hs & Hm) _ _]. unfold choice_index. rewrite Hs, Hm. apply land_mask_range. lia. Qed.
Lemma global_index_range c pc g : cfg_ok c -> 0 <= global_index c pc g < globalPredictorSize c.
Proof. intros [_ (k & Hk & Hs & Hm & _) _]. unfold global_index. rewrite Hs, Hm. apply land_mask_range. lia. Qed.

Lemma mask_u32 c : cfg_ok c -> 0 <= historyRegisterMask c < 2 ^ 32.
Proof.
  intros [_ (k & Hk & _ & _ & ->) _]. pose proof (pow2_pos k ltac:(lia)).
  pose proof (Z.pow_lt_mono_r 2 k 32 ltac:(lia) ltac:(lia) ltac:(lia)). lia.
Qed.

Lemma bm_history_read c s tid :
  inv c s -> 0 <= tid < numThreads c ->
  exists g, globalHistoryReg s !! Z.to_nat tid = Some g /\
    aread (globalHistoryReg s) tid = Ok g /\ 0 <= g < 2 ^ 32.
Proof.
  intros Hs Ht. pose proof (inv_threads _ _ Hs).
  destruct (aread_in_bounds (globalHistoryReg s) tid) as (g & Hg & Hr); [lia|].
  exists g. do 2 (split; [done|]). apply (Forall_lookup_1 _ _ _ _ (inv_history _ _ Hs) Hg).
Qed.

Lemma bm_history_write c s tid g :
  inv c s -> 0 <= tid < numThreads c -> 0 <= g < 2 ^ 32 ->
  awrite (globalHistoryReg s) tid g = Ok (<[Z.to_nat tid := g]> (globalHistoryReg s)) /\
  inv c (with_history s (<[Z.to_nat tid := g]> (globalHistoryReg s))).
Proof.
  intros [] Ht Hg. split; [apply awrite_Ok; lia|].
  split; cbn; [done..|by rewrite length_insert|by apply Forall_insert].
Qed.

Lemma updateGlobalHistReg_spec c s tid taken g :
  inv c s -> 0 <= tid < numThreads c -> globalHistoryReg s !! Z.to_nat tid = Some g ->
  exists g', 0 <= g' < 2 ^ 32 /\
    g' = Z.land (shift_in g taken) (historyRegisterMask c) /\
    updateGlobalHistReg s tid taken
      = Ok (with_history s (<[Z.to_nat tid := g']> (globalHistoryReg s))) /\
    inv c (with_history s (<[Z.to_nat tid := g']> (globalHistoryReg s))).
Proof.
  intros Hs Ht Hg. set (g' := Z.land (shift_in g taken) (historyRegisterMask c)).
  assert (0 <= g' < 2 ^ 32) as Hr by (apply land_u32, mask_u32, Hs).
  exists g'. do 2 (split; [done|]).
  destruct (bm_history_write c s tid g' Hs Ht Hr) as [Hw Hi]. split; [|done].
  unfold updateGlobalHistReg. rewrite (aread_Ok _ _ g) by (done || lia). cbn [mbind res_bind].
  rewrite (inv_cfg _ _ Hs).
  replace (if taken then u32 (Z.lor (Z.shiftl g 1) 1) else u32 (Z.shiftl g 1)) with (shift_in g taken).
  - fold g'. by rewrite Hw.
  - unfold shift_in. destruct taken; cbn [Z.b2z]; [done|]. by rewrite Z.lor_0_r.
Qed.

(** What a lookup reads, predicts and records. *)
Lemma bm_lookup_spec c s tid pc h :
  inv c s -> 0 <= tid < numThreads c ->
  exists g b x g', globalHistoryReg s !! Z.to_nat tid = Some g /\
    h_globalHistoryReg x = g /\ 0 <= g < 2 ^ 32 /\ h_finalPred x = b /\
    g' = Z.land (shift_in g b) (historyRegisterMask c) /\
    lookup s tid pc h = Ok (b, Some x, with_history s (<[Z.to_nat tid := g']> (globalHistoryReg s))) /\
    inv c (with_history s (<[Z.to_nat tid := g']> (globalHistoryReg s))).
Proof.
  intros Hs Ht. destruct (bm_history_read c s tid Hs Ht) as (g & Hg & Hr & Hgr).
  pose proof (inv_cfg_ok _ _ Hs) as Hc.
  pose proof (choice_index_range c pc Hc) as Hci. pose proof (global_index_range c pc g Hc) as Hgi.
  destruct (counters_lookup _ _ _ _ (inv_choice _ _ Hs) Hci) as (cc & _ & Hcc & _).
  destruct (counters_lookup _ _ _ _ (inv_taken _ _ Hs) Hgi) as (tc & _ & Htc & _).
  destruct (counters_lookup _ _ _ _ (inv_notTaken _ _ Hs) Hgi) as (nc & _ & Hnc & _).
  set (b := if choiceThreshold c <? read cc then takenThreshold c <? read tc
            else notTakenThreshold c <? read nc).
  destruct (updateGlobalHistReg_spec c s tid b g Hs Ht Hg) as (g' & _ & Hg' & Hu & Hi).
  exists g, b. eexists. exists g'. unfold lookup. rewrite (inv_cfg _ _ Hs), shr64_ok by apply Hc.
  cbn [mbind res_bind]. fold (choice_index c pc). rewrite Hr. cbn [mbind res_bind].
  fold (global_index c pc g). rewrite !(proj2 (Z.ltb_lt _ _)) by lia.
  rewrite Hcc. cbn [mbind res_bind]. rewrite Htc. cbn [mbind res_bind].
  rewrite Hnc. cbn [mbind res_bind]. fold b. rewrite Hu. cbn [mbind res_bind].
  split; [done|]. split; [|split; [done|split; [|split; [done|split; [reflexivity|done]]]]]; done.
Qed.

Lemma uncond_spec c s tid pc h :
  inv c s -> 0 <= tid < numThreads c ->
  exists g x g', globalHistoryReg s !! Z.to_nat tid = Some g /\
    h_globalHistoryReg x = g /\ 0 <= g < 2 ^ 32 /\
    uncondBranch s tid pc h = Ok (Some x, with_history s (<[Z.to_nat tid := g']> (globalHistoryReg s))) /\
    inv c (with_history s (<[Z.to_nat tid := g']> (globalHistoryReg s))).
Proof.
  intros Hs Ht. destruct (bm_history_read c s tid Hs Ht) as (g & Hg & Hr & Hgr).
  destruct (updateGlobalHistReg_spec c s tid true g Hs Ht Hg) as (g' & _ & Hg' & Hu & Hi).
  exists g. eexists. exists g'. unfold uncondBranch. rewrite Hr. cbn [mbind res_bind].
  rewrite Hu. cbn [mbind res_bind].
  split; [done|]. split; [|split; [done|split; [reflexivity|done]]]. done.
Qed.

Lemma btbUpdate_spec c s tid pc h :
  inv c s -> 0 <= tid < numThreads c ->
  exists g', btbUpdate s tid pc h = Ok (with_history s (<[Z.to_nat tid := g']> (globalHistoryReg s))) /\
    inv c (with_history s (<[Z.to_nat tid := g']> (globalHistoryReg s))).
Proof.
  intros Hs Ht. destruct (bm_history_read c s tid Hs Ht) as (g & Hg & Hr & Hgr).
  unfold btbUpdate. rewrite Hr. cbn [mbind res_bind]. set (g' := u32 _).
  assert (0 <= g' < 2 ^ 32) as Hg' by (apply wrap_u_range; lia).
  destruct (bm_history_write c s tid g' Hs Ht Hg') as [-> Hi]. by exists g'.
Qed.

(** [squash] only writes the thread's history register. *)
Lemma squash_spec c s tid x :
  inv c s -> 0 <= tid < numThreads c -> 0 <= h_globalHistoryReg x < 2 ^ 32 ->
  let s' := with_history s (<[Z.to_nat tid := h_globalHistoryReg x]> (globalHistoryReg s)) in
  squash s tid (Some x) = Ok s' /\ inv c s'.
Proof.
  intros Hs Ht Hx s'. destruct (bm_history_write c s tid _ Hs Ht Hx) as [Hw Hi].
  split; [|done]. unfold squash. by rewrite Hw.
Qed.

Lemma squash_undoes c s tid g g' x :
  inv c (with_history s (<[Z.to_nat tid := g']> (globalHistoryReg s))) ->
  0 <= tid < numThreads c -> globalHistoryReg s !! Z.to_nat tid = Some g ->
  h_globalHistoryReg x = g -> 0 <= g < 2 ^ 32 ->
  squash (with_history s (<[Z.to_nat tid := g']> (globalHistoryReg s))) tid (Some x) = Ok s.
Proof.
  intros Hs Ht Hg Hx Hgr. edestruct (squash_spec c _ tid x Hs Ht) as [-> _]; [by rewrite Hx|].
  rewrite Hx. unfold with_history. cbn. rewrite list_insert_insert_eq, list_insert_id by done.
  by destruct s.
Qed.

(** Each counter table accepts an update at an index in range. *)
Lemma update_arrays_ok c s i b :
  inv c s -> 0 <= i < globalPredictorSize c ->
  (exists s', update_taken_array s i b = Ok s' /\ inv c s') /\
  (exists s', update_notTaken_array s i b = Ok s' /\ inv c s').
Proof.
  intros [] Hi. unfold update_taken_array, update_notTaken_array. split.
  all: destruct b;
    [edestruct increment_at_ok as (? & ? & _ & _ & -> & Hv); [done..|]
    |edestruct decrement_at_ok as (? & _ & -> & Hv); [done..|]];
    cbn [mbind res_bind]; (eexists; split; [done|]); by split.
Qed.

Lemma bm_update_choice_ok c s i b :
  inv c s -> 0 <= i < choicePredictorSize c -> exists s', update_choice s i b = Ok s' /\ inv c s'.
Proof.
  intros [] Hi. unfold update_choice. destruct b;
    [edestruct increment_at_ok as (? & ? & _ & _ & -> & Hv); [done..|]
    |edestruct decrement_at_ok as (? & _ & -> & Hv); [done..|]];
    cbn [mbind res_bind]; (eexists; split; [done|]); by split.
Qed.

Lemma bm_update_ok c s tid pc b h sq :
  inv c s -> 0 <= tid < numThreads c -> hist_ok h ->
  exists s', update s tid pc b h sq = Ok s' /\ inv c s'.
Proof.
  intros Hs Ht (x & -> & Hx). pose proof (inv_cfg_ok _ _ Hs) as Hc. unfold update. destruct sq.
  { edestruct (bm_history_write c s tid (shift_in (h_globalHistoryReg x) b) Hs Ht (shift_in_range _ _))
      as [Hw Hi]. unfold shift_in in Hw. rewrite Hw. by eexists. }
  rewrite (inv_cfg _ _ Hs), shr64_ok by apply Hc. cbn [mbind res_bind].
  fold (choice_index c pc). fold (global_index c pc (h_globalHistoryReg x)).
  pose proof (choice_index_range c pc Hc) as Hci.
  pose proof (global_index_range c pc (h_globalHistoryReg x) Hc) as Hgi.
  rewrite !(proj2 (Z.ltb_lt _ _)) by lia.
  destruct (update_arrays_ok c s _ b Hs Hgi) as [(s1 & H1 & Hi1) (s2 & H2 & Hi2)].
  destruct (h_takenUsed x); rewrite ?H1, ?H2; cbn [mbind res_bind];
    (destruct (eqb (h_finalPred x) b); [case_match; [|by eexists]|]; by apply bm_update_choice_ok).
Qed.

(** * The interface *)

#[export, program] Instance BiModeBP_laws : DirPredLaws BiModeCfg BiModeBP bp_ptr := {|
  dp_threads := numThreads;
  dp_inv := inv;
  dp_hist := fun _ h => hist_ok h;
  dp_eq := eq |}.
Next Obligation.
  intros c s tid pc Hs Ht _.
  destruct (bm_lookup_spec c s tid pc None Hs Ht) as (g & b & x & g' & _ & Hx & Hg & _ & _ & H & Hi).
  exists b, (Some x). eexists. split; [exact H|]. split; [|done]. exists x. by rewrite Hx.
Qed.
Next Obligation.
  intros c s tid pc Hs Ht _.
  destruct (uncond_spec c s tid pc None Hs Ht) as (g & x & g' & _ & Hx & Hg & H & Hi).
  exists (Some x). eexists. split; [exact H|]. split; [|done]. exists x. by rewrite Hx.
Qed.
Next Obligation.
  intros c s tid pc h Hs Ht _ _. destruct (btbUpdate_spec c s tid pc h Hs Ht) as (g' & H & Hi).
  eexists. by split.
Qed.
Next Obligation. intros c s tid pc b h sq Hs Ht _ Hh. by apply bm_update_ok. Qed.
Next Obligation.
  intros c s tid h Hs Ht (x & -> & Hx). destruct (squash_spec c s tid x Hs Ht Hx) as [H Hi].
  eexists. by split.
Qed.
Next Obligation. intros c s tid h Hs (x & -> & Hx). by exists (h_globalHistoryReg x). Qed.
Next Obligation. intros c s t tid pc b h s' _ _ -> _ _ ->. by exists s'. Qed.
Next Obligation.
  intros c s tid pc b h s' t Hs Ht _ Hl Hi <-.
  destruct (bm_lookup_spec c s tid pc None Hs Ht) as (g & b' & x & g' & Hg & Hx & Hr & _ & _ & H & Hi').
  change (lookup s tid pc None = Ok (b, h, s')) in Hl. rewrite H in Hl. injection Hl as <- <- <-.
  exists s. split; [|done]. by apply (squash_undoes c s tid g g' x).
Qed.
Next Obligation.
  intros c s tid pc b h s' s'' t Hs Ht _ Hl Hb Hi <-.
  destruct (bm_lookup_spec c s tid pc None Hs Ht) as (g & b' & x & g' & Hg & Hx & Hr & _ & _ & H & Hi').
  change (lookup s tid pc None = Ok (b, h, s')) in Hl. rewrite H in Hl. injection Hl as <- <- <-.
  destruct (btbUpdate_spec c _ tid pc (Some x) Hi' Ht) as (g2 & Hb' & Hi2).
  pose proof (eq_trans (eq_sym Hb) Hb') as E. injection E as ->.
  exists s. split; [|done]. cbn in Hi2 |- *. unfold with_history in *. cbn in *.
  rewrite list_insert_insert_eq in *. by apply (squash_undoes c s tid g g2 x).
Qed.
Next Obligation.
  intros c s tid pc h s' t Hs Ht _ Hl Hi <-.
  destruct (uncond_spec c s tid pc None Hs Ht) as (g & x & g' & Hg & Hx & Hr & H & Hi').
  change (uncondBranch s tid pc None = Ok (h, s')) in Hl. rewrite H in Hl. injection Hl as <- <-.
  exists s. split; [|done]. by apply (squash_undoes c s tid g g' x).
Qed.

(** * Theorems *)

(** The constructor builds a well-formed predictor. *)
Lemma BiModeBP_new_ok p i j :
  0 <= i < 31 -> p_choicePredictorSize p = 2 ^ i -> 0 <= j < 31 -> p_globalPredictorSize p = 2 ^ j ->
  1 <= p_choiceCtrBits p <= 30 -> 1 <= p_globalCtrBits p <= 30 ->
  0 <= p_instShiftAmt p < 64 -> 0 <= p_numThreads p ->
  exists s, BiModeBP_new p = Ok s /\ inv (cfg s) s /\ numThreads (cfg s) = p_numThreads p.
Proof.
  intros Hi Hci Hj Hgj Hcb Hgb Hsh Hn. unfold BiModeBP_new. rewrite Hci, Hgj.
  pose proof (pow2_pos i ltac:(lia)). pose proof (pow2_pos j ltac:(lia)).
  pose proof (Z.pow_lt_mono_r 2 i 31 ltac:(lia) ltac:(lia) ltac:(lia)).
  pose proof (Z.pow_lt_mono_r 2 j 31 ltac:(lia) ltac:(lia) ltac:(lia)).
  rewrite ceilLog2_32_spec by lia. cbn [mbind res_bind]. rewrite Z.log2_up_pow2 by lia.
  rewrite (proj2 (isPowerOf2_spec (2 ^ i) ltac:(lia))) by (exists i; lia).
  rewrite (proj2 (isPowerOf2_spec (2 ^ j) ltac:(lia))) by (exists j; lia).
  destruct (counters_new_ok (p_choiceCtrBits p) (2 ^ i)) as (cc & -> & Hcc & _); [lia..|].
  destruct (counters_new_ok (p_globalCtrBits p) (2 ^ j)) as (gc & -> & Hgc & _); [lia..|].
  cbn [mbind res_bind]. rewrite !int_ok_in by lia. cbn [mbind res_bind].
  rewrite !threshold_ok by lia. cbn [mbind res_bind].
  eexists. split; [done|]. split; [|done]. split; cbn; try done.
  - split; cbn; [| |lia].
    + exists i. rewrite u32_pred_pow2 by lia. by split.
    + exists j. rewrite mask_ones, Z.ones_equiv, <- Z.sub_1_r by lia.
      rewrite !u32_pred_pow2 by lia. by split.
  - rewrite length_replicate. lia.
  - by apply Forall_replicate.
Qed.

(** (bi-mode speculation is undone exactly). A well-formed bi-mode predictor
    predicts any sequence of conditional and unconditional branches, and squashing
    the records it handed out, youngest first, gives back the very state it
    started from: no counter and no history register keeps a trace of the
    wrong path. *)
Theorem bimode_squash_restores c s tid ops :
  inv c s -> 0 <= tid < numThreads c -> Forall spec_op_ok ops ->
  exists hs s', speculate ops tid s [] = Ok (hs, s') /\ length hs = length ops /\
    unwind hs tid s' = Ok s.
Proof.
  intros Hs Ht Hops. 
  destruct (@speculate_unwind _ _ _ _ BiModeBP_laws c ops tid s [] Hs Ht Hops) as (hs & s' & Hsp & Hi & Hun).
  rewrite app_nil_r in *. exists hs, s'. split; [done|]. split; [by apply speculate_length in Hsp|].
  destruct (Hun s' Hi ltac:(reflexivity)) as (u & -> & _ & He). cbn in He. by subst.
Qed.

Example bimode_squash_restores_witness :
  exists s hs s', BiModeBP_new {| p_numThreads := 1; p_instShiftAmt := 2; p_globalPredictorSize := 16;
                                  p_globalCtrBits := 2; p_choicePredictorSize := 16; p_choiceCtrBits := 2 |} = Ok s /\
    speculate [SUncond 0x40; SLookup 0x44 false; SLookup 0x48 true] 0 s [] = Ok (hs, s') /\ s' <> s /\
    unwind hs 0 s' = Ok s.
Proof.
  set (p := {| p_numThreads := 1; p_instShiftAmt := 2; p_globalPredictorSize := 16;
               p_globalCtrBits := 2; p_choicePredictorSize := 16; p_choiceCtrBits := 2 |}).
  destruct (BiModeBP_new_ok p 4 4) as (s & E & Hi & Hn); try done; try (simpl; lia).
  destruct (bimode_squash_restores (cfg s) s 0 [SUncond 0x40; SLookup 0x44 false; SLookup 0x48 true] Hi)
    as (hs & s' & H1 & _ & H3); [rewrite Hn; simpl; lia|repeat constructor; simpl; lia|].
  exists s, hs, s'. do 2 (split; [done|]). split; [|done].
  intros ->. vm_compute in E. injection E as <-. vm_compute in H1. discriminate.
Defined.
