(* ===== verification/TournamentBP.v ===== *)
(** The tournament predictor of src/cpu/pred/tournament.cc: a local predictor
    with a table of branch histories, a global predictor, and a choice
    predictor that selects between them. *)
From S2P Require Import Prelude Bitfield IntMath SatCounter DirPred.

(** * Definitions *)

(** What the constructor fixes. *)
Record TournamentCfg := {
  localPredictorSize : Z; localPredictorMask : Z; localCtrBits : Z;
  localHistoryTableSize : Z; localHistoryBits : Z;
  globalPredictorSize : Z; globalCtrBits : Z; globalHistoryBits : Z;
  globalHistoryMask : Z; choiceHistoryMask : Z; historyRegisterMask : Z;
  choicePredictorSize : Z; choiceCtrBits : Z;
  localThreshold : Z; globalThreshold : Z; choiceThreshold : Z;
  instShiftAmt : Z; numThreads : Z }.
Record TournamentBP := {
  cfg : TournamentCfg;
  localCtrs : list SatCounter;
  localHistoryTable : list Z;
  globalCtrs : list SatCounter;
  globalHistory : list Z;
  choiceCtrs : list SatCounter }.

Record BPHistory := {
  h_globalHistory : Z; h_localHistoryIdx : Z; h_localHistory : Z;
  h_localPredTaken : bool; h_globalPredTaken : bool; h_globalUsed : bool }.
(** [void *bp_history]: [NULL] or a record. *)
Abbreviation bp_ptr := (option BPHistory).

Definition with_local (s : TournamentBP) v :=
  {| cfg := cfg s; localCtrs := v; localHistoryTable := localHistoryTable s;
     globalCtrs := globalCtrs s; globalHistory := globalHistory s; choiceCtrs := choiceCtrs s |}.
Definition with_table (s : TournamentBP) v :=
  {| cfg := cfg s; localCtrs := localCtrs s; localHistoryTable := v;
     globalCtrs := globalCtrs s; globalHistory := globalHistory s; choiceCtrs := choiceCtrs s |}.
Definition with_global (s : TournamentBP) v :=
  {| cfg := cfg s; localCtrs := localCtrs s; localHistoryTable := localHistoryTable s;
     globalCtrs := v; globalHistory := globalHistory s; choiceCtrs := choiceCtrs s |}.
Definition with_history (s : TournamentBP) v :=
  {| cfg := cfg s; localCtrs := localCtrs s; localHistoryTable := localHistoryTable s;
     globalCtrs := globalCtrs s; globalHistory := v; choiceCtrs := choiceCtrs s |}.
Definition with_choice (s : TournamentBP) v :=
  {| cfg := cfg s; localCtrs := localCtrs s; localHistoryTable := localHistoryTable s;
     globalCtrs := globalCtrs s; globalHistory := globalHistory s; choiceCtrs := v |}.

(** [static const int invalidPredictorIndex = -1], as the [unsigned] it is
    stored in and compared with. *)
Definition invalidPredictorIndex : Z := u32 (-1).

(** [TournamentBPParams] *)
Record TournamentBPParams := {
  p_numThreads : Z; p_instShiftAmt : Z;
  p_localPredictorSize : Z; p_localCtrBits : Z; p_localHistoryTableSize : Z;
  p_globalPredictorSize : Z; p_globalCtrBits : Z;
  p_choicePredictorSize : Z; p_choiceCtrBits : Z }.

(** The loops count with an [int] up to an [unsigned] size: a size the [int]
    cannot reach overflows it. *)
Definition TournamentBP_new (p : TournamentBPParams) : res TournamentBP :=
  let lsize := p_localPredictorSize p in
  let gsize := p_globalPredictorSize p in
  let csize := p_choicePredictorSize p in
  let tsize := p_localHistoryTableSize p in
  lhb ← ceilLog2_32 lsize;
  gl ← ceilLog2_32 gsize;
  cl ← ceilLog2_32 csize;
  let ghb := if cl <? gl then gl else cl in
  assert! isPowerOf2 lsize ;;
  assert! isPowerOf2 gsize ;;
  lc ← counters_new (p_localCtrBits p) lsize;
  _ ← int_ok lsize;
  assert! isPowerOf2 tsize ;;
  table ← for_range 0 tsize (fun i v => awrite v i 0) (replicate (Z.to_nat tsize) 0);
  _ ← int_ok tsize;
  gc ← counters_new (p_globalCtrBits p) gsize;
  _ ← int_ok gsize;
  let ghm := u32 (gsize - 1) in
  assert! isPowerOf2 csize ;;
  let chm := u32 (csize - 1) in
  cc ← counters_new (p_choiceCtrBits p) csize;
  _ ← int_ok csize;
  let hrm := u32 (mask ghb) in
  assert! negb (hrm <? ghm) ;;
  assert! negb (hrm <? chm) ;;
  lt ← threshold (p_localCtrBits p);
  gt ← threshold (p_globalCtrBits p);
  ct ← threshold (p_choiceCtrBits p);
  Ok {| cfg := {| localPredictorSize := lsize; localPredictorMask := u32 (mask lhb);
                  localCtrBits := p_localCtrBits p;
                  localHistoryTableSize := tsize; localHistoryBits := lhb;
                  globalPredictorSize := gsize; globalCtrBits := p_globalCtrBits p;
                  globalHistoryBits := ghb; globalHistoryMask := ghm;
                  choiceHistoryMask := chm; historyRegisterMask := hrm;
                  choicePredictorSize := csize; choiceCtrBits := p_choiceCtrBits p;
                  localThreshold := lt; globalThreshold := gt; choiceThreshold := ct;
                  instShiftAmt := p_instShiftAmt p; numThreads := p_numThreads p |};
        localCtrs := lc; localHistoryTable := table; globalCtrs := gc;
        globalHistory := replicate (Z.to_nat (p_numThreads p)) 0; choiceCtrs := cc |}.

Definition calcLocHistIdx (s : TournamentBP) (branch_addr : Z) : res Z :=
  x ← shr64 branch_addr (instShiftAmt (cfg s));
  Ok (Z.land x (u32 (localHistoryTableSize (cfg s) - 1))).

Definition updateGlobalHistTaken (s : TournamentBP) (tid : Z) : res TournamentBP :=
  g ← aread (globalHistory s) tid;
  r ← awrite (globalHistory s) tid
        (Z.land (u32 (Z.lor (Z.shiftl g 1) 1)) (historyRegisterMask (cfg s)));
  Ok (with_history s r).
Definition updateGlobalHistNotTaken (s : TournamentBP) (tid : Z) : res TournamentBP :=
  g ← aread (globalHistory s) tid;
  r ← awrite (globalHistory s) tid
        (Z.land (u32 (Z.shiftl g 1)) (historyRegisterMask (cfg s)));
  Ok (with_history s r).
Definition updateLocalHistTaken (s : TournamentBP) (local_history_idx : Z) : res TournamentBP :=
  l ← aread (localHistoryTable s) local_history_idx;
  t ← awrite (localHistoryTable s) local_history_idx (u32 (Z.lor (Z.shiftl l 1) 1));
  Ok (with_table s t).
Definition updateLocalHistNotTaken (s : TournamentBP) (local_history_idx : Z) : res TournamentBP :=
  l ← aread (localHistoryTable s) local_history_idx;
  t ← awrite (localHistoryTable s) local_history_idx (u32 (Z.shiftl l 1));
  Ok (with_table s t).

Definition btbUpdate (s : TournamentBP) (tid branch_addr : Z) (bp_history : bp_ptr)
  : res TournamentBP :=
  local_history_idx ← calcLocHistIdx s branch_addr;
  g ← aread (globalHistory s) tid;
  r ← awrite (globalHistory s) tid
        (u32 (Z.land g (Z.land (historyRegisterMask (cfg s)) (u64 (Z.lnot 1)))));
  let s := with_history s r in
  l ← aread (localHistoryTable s) local_history_idx;
  t ← awrite (localHistoryTable s) local_history_idx
        (u32 (Z.land l (Z.land (localPredictorMask (cfg s)) (u64 (Z.lnot 1)))));
  Ok (with_table s t).

(** The two arms of the speculative update in [lookup]. *)
Definition update_histories (s : TournamentBP) (tid local_history_idx : Z) (taken : bool)
  : res TournamentBP :=
  if taken then
    s ← updateGlobalHistTaken s tid; updateLocalHistTaken s local_history_idx
  else
    s ← updateGlobalHistNotTaken s tid; updateLocalHistNotTaken s local_history_idx.

Definition lookup (s : TournamentBP) (tid branch_addr : Z) (bp_history : bp_ptr)
  : res (bool * bp_ptr * TournamentBP) :=
  local_history_idx ← calcLocHistIdx s branch_addr;
  l ← aread (localHistoryTable s) local_history_idx;
  let local_predictor_idx := Z.land l (localPredictorMask (cfg s)) in
  lc ← aread (localCtrs s) local_predictor_idx;
  let local_prediction := localThreshold (cfg s) <? read lc in
  g ← aread (globalHistory s) tid;
  gc ← aread (globalCtrs s) (Z.land g (globalHistoryMask (cfg s)));
  let global_prediction := globalThreshold (cfg s) <? read gc in
  cc ← aread (choiceCtrs s) (Z.land g (choiceHistoryMask (cfg s)));
  let choice_prediction := choiceThreshold (cfg s) <? read cc in
  let history := {| h_globalHistory := g; h_localHistoryIdx := local_history_idx;
                    h_localHistory := local_predictor_idx;
                    h_localPredTaken := local_prediction; h_globalPredTaken := global_prediction;
                    h_globalUsed := choice_prediction |} in
  assert! local_history_idx <? localHistoryTableSize (cfg s) ;;
  let taken := if choice_prediction then global_prediction else local_prediction in
  s ← update_histories s tid local_history_idx taken;
  Ok (taken, Some history, s).

Definition uncondBranch (s : TournamentBP) (tid pc : Z) (bp_history : bp_ptr)
  : res (bp_ptr * TournamentBP) :=
  g ← aread (globalHistory s) tid;
  let history := {| h_globalHistory := g; h_localHistoryIdx := invalidPredictorIndex;
                    h_localHistory := invalidPredictorIndex;
                    h_localPredTaken := true; h_globalPredTaken := true; h_globalUsed := true |} in
  s ← updateGlobalHistTaken s tid;
  Ok (Some history, s).

(** [update] when [squashed]: restore the histories and record the outcome. *)
Definition update_squashed (s : TournamentBP) (tid local_history_idx : Z) (taken : bool)
    (history : BPHistory) (old_local_pred_valid : bool) : res TournamentBP :=
  r ← awrite (globalHistory s) tid
        (Z.land (u32 (Z.lor (Z.shiftl (h_globalHistory history) 1) (Z.b2z taken)))
                (historyRegisterMask (cfg s)));
  let s := with_history s r in
  if old_local_pred_valid then
    t ← awrite (localHistoryTable s) local_history_idx
          (u32 (Z.lor (Z.shiftl (h_localHistory history) 1) (Z.b2z taken)));
    Ok (with_table s t)
  else Ok s.

(** The choice counter moves towards the predictor that was right. *)
Definition update_choice (s : TournamentBP) (history : BPHistory) (taken : bool)
    (old_local_pred_valid : bool) : res TournamentBP :=
  if negb (eqb (h_localPredTaken history) (h_globalPredTaken history)) && old_local_pred_valid then
    let choice_predictor_idx := Z.land (h_globalHistory history) (choiceHistoryMask (cfg s)) in
    if eqb (h_localPredTaken history) taken then
      v ← decrement_at (choiceCtrs s) choice_predictor_idx; Ok (with_choice s v)
    else if eqb (h_globalPredTaken history) taken then
      v ← increment_at (choiceCtrs s) choice_predictor_idx; Ok (with_choice s v)
    else Ok s
  else Ok s.

(** The direction counters move towards the outcome. *)
Definition update_counters (s : TournamentBP) (history : BPHistory) (taken : bool)
    (old_local_pred_valid : bool) (old_local_pred_index : Z) : res TournamentBP :=
  let global_predictor_idx := Z.land (h_globalHistory history) (globalHistoryMask (cfg s)) in
  if taken then
    v ← increment_at (globalCtrs s) global_predictor_idx;
    let s := with_global s v in
    if old_local_pred_valid then
      v ← increment_at (localCtrs s) old_local_pred_index; Ok (with_local s v)
    else Ok s
  else
    v ← decrement_at (globalCtrs s) global_predictor_idx;
    let s := with_global s v in
    if old_local_pred_valid then
      v ← decrement_at (localCtrs s) old_local_pred_index; Ok (with_local s v)
    else Ok s.

Definition update (s : TournamentBP) (tid branch_addr : Z) (taken : bool) (bp_history : bp_ptr)
    (squashed : bool) : res TournamentBP :=
  match bp_history with
  | None => Panic
  | Some history =>
    local_history_idx ← calcLocHistIdx s branch_addr;
    assert! local_history_idx <? localHistoryTableSize (cfg s) ;;
    let old_local_pred_valid := negb (h_localHistory history =? invalidPredictorIndex) in
    if squashed then update_squashed s tid local_history_idx taken history old_local_pred_valid
    else
      let old_local_pred_index := Z.land (h_localHistory history) (localPredictorMask (cfg s)) in
      assert! old_local_pred_index <? localPredictorSize (cfg s) ;;
      s ← update_choice s history taken old_local_pred_valid;
      update_counters s history taken old_local_pred_valid old_local_pred_index
  end.

Definition squash (s : TournamentBP) (tid : Z) (bp_history : bp_ptr) : res TournamentBP :=
  match bp_history with
  | None => Ub
  | Some history =>
    r ← awrite (globalHistory s) tid (h_globalHistory history);
    let s := with_history s r in
    if negb (h_localHistoryIdx history =? invalidPredictorIndex) then
      t ← awrite (localHistoryTable s) (h_localHistoryIdx history) (h_localHistory history);
      Ok (with_table s t)
    else Ok s
  end.

Definition getGHR (s : TournamentBP) (tid : Z) (bp_history : bp_ptr) : res Z :=
  match bp_history with None => Ub | Some history => Ok (h_globalHistory history) end.

#[export] Instance TournamentBP_DirPred : DirPred TournamentBP bp_ptr := {|
  dp_null := None; dp_lookup := lookup; dp_uncondBranch := uncondBranch;
  dp_btbUpdate := btbUpdate; dp_update := update; dp_squash := squash; dp_getGHR := getGHR |}.

(** * Invariant *)

(** A table of [2 ^ k] entries and the mask that indexes it. *)
Definition sized (n m : Z) : Prop := exists k, 0 <= k < 31 /\ n = 2 ^ k /\ m = 2 ^ k - 1.
Definition is_u32 (x : Z) : Prop := 0 <= x < 2 ^ 32.

Record cfg_ok (c : TournamentCfg) : Prop := {
  cfg_local : sized (localPredictorSize c) (localPredictorMask c);
  cfg_table : sized (localHistoryTableSize c) (localHistoryTableSize c - 1);
  cfg_global : sized (globalPredictorSize c) (globalHistoryMask c);
  cfg_choice : sized (choicePredictorSize c) (choiceHistoryMask c);
  cfg_register : is_u32 (historyRegisterMask c);
  cfg_shift : 0 <= instShiftAmt c < 64 }.

Record inv (c : TournamentCfg) (s : TournamentBP) : Prop := {
  inv_cfg : cfg s = c;
  inv_cfg_ok : cfg_ok c;
  inv_local : counters_ok (localCtrBits c) (localPredictorSize c) (localCtrs s);
  inv_global : counters_ok (globalCtrBits c) (globalPredictorSize c) (globalCtrs s);
  inv_choice : counters_ok (choiceCtrBits c) (choicePredictorSize c) (choiceCtrs s);
  inv_table_len : Z.of_nat (length (localHistoryTable s)) = localHistoryTableSize c;
  inv_table : Forall is_u32 (localHistoryTable s);
  inv_threads : Z.of_nat (length (globalHistory s)) = numThreads c;
  inv_history : Forall is_u32 (globalHistory s) }.

(** The [bp_history] the predictor handed out. *)
Definition hist_ok (c : TournamentCfg) (h : bp_ptr) : Prop :=
  exists x, h = Some x /\ is_u32 (h_globalHistory x) /\ is_u32 (h_localHistory x) /\
    (h_localHistoryIdx x = invalidPredictorIndex \/ 0 <= h_localHistoryIdx x < localHistoryTableSize c).

(** Only the bits of a local history that the mask keeps are ever read:
    states whose tables agree on them predict alike. *)
Definition masked_table (s : TournamentBP) : list Z :=
  (fun l => Z.land l (localPredictorMask (cfg s))) <$> localHistoryTable s.
Definition forget (s : TournamentBP) : TournamentBP := with_table s (masked_table s).
Definition same (s t : TournamentBP) : Prop := forget s = forget t.

#[export] Instance same_equiv : Equivalence same.
Proof. unfold same. split; [done|by intros s t H|by intros s t u -> ]. Qed.

Lemma sized_index n m x : sized n m -> 0 <= Z.land x m < n.
Proof. intros (k & Hk & -> & ->). apply land_mask_range. lia. Qed.

Lemma sized_small n m : sized n m -> 0 < n < 2 ^ 31.
Proof.
  intros (k & Hk & -> & _). pose proof (pow2_pos k ltac:(lia)).
  pose proof (Z.pow_lt_mono_r 2 k 31 ltac:(lia) ltac:(lia) ltac:(lia)). lia.
Qed.

Lemma sized_mask n m : sized n m -> is_u32 m.
Proof. intros H. pose proof (sized_small n m H). destruct H as (k & Hk & -> & ->). unfold is_u32. lia. Qed.

Definition hist_index (c : TournamentCfg) (pc : Z) : Z :=
  Z.land (Z.shiftr pc (instShiftAmt c)) (localHistoryTableSize c - 1).

Lemma calc_ok c s pc :
  inv c s -> calcLocHistIdx s pc = Ok (hist_index c pc) /\
    0 <= hist_index c pc < localHistoryTableSize c.
Proof.
  intros Hs. destruct (inv_cfg_ok _ _ Hs) as [_ Ht _ _ _ Hsh].
  pose proof (sized_small _ _ Ht). split; [|by apply (sized_index _ _ _ Ht)].
  unfold calcLocHistIdx. rewrite (inv_cfg _ _ Hs), shr64_ok by lia. cbn [mbind res_bind].
  by rewrite wrap_u_id by lia.
Qed.

Lemma tn_history_read c s tid :
  inv c s -> 0 <= tid < numThreads c ->
  exists g, globalHistory s !! Z.to_nat tid = Some g /\ aread (globalHistory s) tid = Ok g /\ is_u32 g.
Proof.
  intros Hs Ht. pose proof (inv_threads _ _ Hs).
  destruct (aread_in_bounds (globalHistory s) tid) as (g & Hg & Hr); [lia|].
  exists g. do 2 (split; [done|]). apply (Forall_lookup_1 _ _ _ _ (inv_history _ _ Hs) Hg).
Qed.

Lemma tn_history_write c s tid g :
  inv c s -> 0 <= tid < numThreads c -> is_u32 g ->
  awrite (globalHistory s) tid g = Ok (<[Z.to_nat tid := g]> (globalHistory s)) /\
  inv c (with_history s (<[Z.to_nat tid := g]> (globalHistory s))).
Proof.
  intros [] Ht Hg. split; [apply awrite_Ok; lia|].
  split; cbn; [done..|by rewrite length_insert|by apply Forall_insert].
Qed.

Lemma table_read c s i :
  inv c s -> 0 <= i < localHistoryTableSize c ->
  exists l, localHistoryTable s !! Z.to_nat i = Some l /\ aread (localHistoryTable s) i = Ok l /\ is_u32 l.
Proof.
  intros Hs Hi. pose proof (inv_table_len _ _ Hs).
  destruct (aread_in_bounds (localHistoryTable s) i) as (l & Hl & Hr); [lia|].
  exists l. do 2 (split; [done|]). apply (Forall_lookup_1 _ _ _ _ (inv_table _ _ Hs) Hl).
Qed.

Lemma table_write c s i l :
  inv c s -> 0 <= i < localHistoryTableSize c -> is_u32 l ->
  awrite (localHistoryTable s) i l = Ok (<[Z.to_nat i := l]> (localHistoryTable s)) /\
  inv c (with_table s (<[Z.to_nat i := l]> (localHistoryTable s))).
Proof.
  intros [] Ht Hg. split; [apply awrite_Ok; lia|].
  split; cbn; [done..|by rewrite length_insert|by apply Forall_insert|done|done].
Qed.

(** A thread's history register and one local history replaced. *)
Definition with_histories (s : TournamentBP) (tid g idx l : Z) : TournamentBP :=
  with_table (with_history s (<[Z.to_nat tid := g]> (globalHistory s)))
             (<[Z.to_nat idx := l]> (localHistoryTable s)).

Lemma histories_ok c s tid g idx l :
  inv c s -> 0 <= tid < numThreads c -> is_u32 g -> 0 <= idx < localHistoryTableSize c -> is_u32 l ->
  inv c (with_histories s tid g idx l).
Proof.
  intros Hs Ht Hg Hi Hl. destruct (tn_history_write c s tid g Hs Ht Hg) as [_ H1].
  by destruct (table_write c _ idx l H1 Hi Hl) as [_ H2].
Qed.

Lemma updateGlobal_spec c s tid g :
  inv c s -> 0 <= tid < numThreads c -> globalHistory s !! Z.to_nat tid = Some g ->
  updateGlobalHistTaken s tid = Ok (with_history s
    (<[Z.to_nat tid := Z.land (shift_in g true) (historyRegisterMask c)]> (globalHistory s))) /\
  updateGlobalHistNotTaken s tid = Ok (with_history s
    (<[Z.to_nat tid := Z.land (shift_in g false) (historyRegisterMask c)]> (globalHistory s))).
Proof.
  intros Hs Ht Hg. unfold updateGlobalHistTaken, updateGlobalHistNotTaken, shift_in.
  rewrite (aread_Ok _ _ g) by (done || lia). cbn [mbind res_bind Z.b2z].
  rewrite (inv_cfg _ _ Hs), Z.lor_0_r. pose proof (inv_threads _ _ Hs).
  by rewrite !awrite_Ok by lia.
Qed.

Lemma updateLocal_spec c s i l :
  inv c s -> 0 <= i < localHistoryTableSize c -> localHistoryTable s !! Z.to_nat i = Some l ->
  updateLocalHistTaken s i = Ok (with_table s (<[Z.to_nat i := shift_in l true]> (localHistoryTable s))) /\
  updateLocalHistNotTaken s i = Ok (with_table s (<[Z.to_nat i := shift_in l false]> (localHistoryTable s))).
Proof.
  intros Hs Hi Hl. unfold updateLocalHistTaken, updateLocalHistNotTaken, shift_in.
  rewrite (aread_Ok _ _ l) by (done || lia). cbn [mbind res_bind Z.b2z].
  rewrite Z.lor_0_r. pose proof (inv_table_len _ _ Hs).
  by rewrite !awrite_Ok by lia.
Qed.

Lemma update_histories_spec c s tid idx g l b :
  inv c s -> 0 <= tid < numThreads c -> 0 <= idx < localHistoryTableSize c ->
  globalHistory s !! Z.to_nat tid = Some g -> localHistoryTable s !! Z.to_nat idx = Some l ->
  update_histories s tid idx b = Ok (with_histories s tid
    (Z.land (shift_in g b) (historyRegisterMask c)) idx (shift_in l b)).
Proof.
  intros Hs Ht Hi Hg Hl. unfold update_histories.
  destruct (updateGlobal_spec c s tid g Hs Ht Hg) as [Ht1 Hn1].
  assert (forall b, inv c (with_history s (<[Z.to_nat tid := Z.land (shift_in g b)
    (historyRegisterMask c)]> (globalHistory s)))) as Hinv.
  { intros b'. apply tn_history_write; [done..|]. apply land_u32, Hs. }
  destruct b; [rewrite Ht1|rewrite Hn1]; cbn [mbind res_bind].
  - by apply (updateLocal_spec c _ idx l (Hinv true)).
  - by apply (updateLocal_spec c _ idx l (Hinv false)).
Qed.

(** What a lookup reads: it depends on the local history only through the mask. *)
Lemma tn_lookup_spec c s tid pc :
  inv c s -> 0 <= tid < numThreads c ->
  exists g l b x, globalHistory s !! Z.to_nat tid = Some g /\ is_u32 g /\
    localHistoryTable s !! Z.to_nat (hist_index c pc) = Some l /\ is_u32 l /\
    h_globalHistory x = g /\ h_localHistoryIdx x = hist_index c pc /\
    h_localHistory x = Z.land l (localPredictorMask c) /\
    forall t l', inv c t -> localCtrs t = localCtrs s -> globalCtrs t = globalCtrs s ->
      choiceCtrs t = choiceCtrs s -> globalHistory t !! Z.to_nat tid = Some g ->
      localHistoryTable t !! Z.to_nat (hist_index c pc) = Some l' ->
      Z.land l' (localPredictorMask c) = Z.land l (localPredictorMask c) ->
      forall h, lookup t tid pc h = Ok (b, Some x, with_histories t tid
        (Z.land (shift_in g b) (historyRegisterMask c)) (hist_index c pc) (shift_in l' b)).
Proof.
  intros Hs Ht. destruct (calc_ok c s pc Hs) as [_ Hi]. pose proof (inv_cfg_ok _ _ Hs) as Hc.
  destruct (tn_history_read c s tid Hs Ht) as (g & Hg & _ & Hgr).
  destruct (table_read c s _ Hs Hi) as (l & Hl & _ & Hlr).
  destruct (counters_lookup _ _ _ _ (inv_local _ _ Hs) (sized_index _ _ l (cfg_local _ Hc)))
    as (lc & _ & Hlc & _).
  destruct (counters_lookup _ _ _ _ (inv_global _ _ Hs) (sized_index _ _ g (cfg_global _ Hc)))
    as (gc & _ & Hgc & _).
  destruct (counters_lookup _ _ _ _ (inv_choice _ _ Hs) (sized_index _ _ g (cfg_choice _ Hc)))
    as (cc & _ & Hcc & _).
  set (lp := localThreshold c <? read lc). set (gp := globalThreshold c <? read gc).
  set (cp := choiceThreshold c <? read cc).
  exists g, l, (if cp then gp else lp),
    {| h_globalHistory := g; h_localHistoryIdx := hist_index c pc;
       h_localHistory := Z.land l (localPredictorMask c);
       h_localPredTaken := lp; h_globalPredTaken := gp; h_globalUsed := cp |}.
  do 7 (split; [done|]).
  intros t l' Hti El Eg Ec Htg Htl Em h. unfold lookup.
  destruct (calc_ok c t pc Hti) as [-> _]. cbn [mbind res_bind].
  rewrite (aread_Ok _ _ l' (proj1 Hi) Htl). cbn [mbind res_bind].
  rewrite (inv_cfg _ _ Hti), Em, El, Hlc. cbn [mbind res_bind].
  rewrite (aread_Ok _ _ g (proj1 Ht) Htg). cbn [mbind res_bind].
  rewrite Eg, Hgc. cbn [mbind res_bind]. rewrite Ec, Hcc. cbn [mbind res_bind].
  rewrite (proj2 (Z.ltb_lt _ _) (proj2 Hi)). fold lp gp cp.
  by rewrite (update_histories_spec c t tid _ g l' _ Hti Ht Hi Htg Htl).
Qed.

Lemma shift_in_u32 l b : is_u32 (shift_in l b).
Proof. apply shift_in_range. Qed.
Lemma land_register c x : cfg_ok c -> is_u32 (Z.land x (historyRegisterMask c)).
Proof. intros Hc. apply land_u32, Hc. Qed.

(** A lookup of a well-formed predictor. *)
Lemma tn_lookup_ok c s tid pc h :
  inv c s -> 0 <= tid < numThreads c ->
  exists g l b x, globalHistory s !! Z.to_nat tid = Some g /\ is_u32 g /\
    localHistoryTable s !! Z.to_nat (hist_index c pc) = Some l /\
    h_globalHistory x = g /\ h_localHistoryIdx x = hist_index c pc /\
    h_localHistory x = Z.land l (localPredictorMask c) /\
    let s' := with_histories s tid (Z.land (shift_in g b) (historyRegisterMask c))
                (hist_index c pc) (shift_in l b) in
    lookup s tid pc h = Ok (b, Some x, s') /\ inv c s' /\ hist_ok c (Some x).
Proof.
  intros Hs Ht. destruct (calc_ok c s pc Hs) as [_ Hi]. pose proof (inv_cfg_ok _ _ Hs) as Hc.
  destruct (tn_lookup_spec c s tid pc Hs Ht) as (g & l & b & x & Hg & Hgr & Hl & Hlr & H1 & H2 & H3 & H).
  exists g, l, b, x. do 6 (split; [done|]). split; [by apply H|]. split.
  - apply histories_ok; [done..| |done|apply shift_in_u32]. by apply land_register.
  - exists x. split; [done|]. rewrite H1, H2, H3. split; [done|]. split; [|by right].
    apply land_u32, (sized_mask _ _ (cfg_local _ Hc)).
Qed.

Lemma uncond_ok c s tid pc h :
  inv c s -> 0 <= tid < numThreads c ->
  exists g g' x, globalHistory s !! Z.to_nat tid = Some g /\ is_u32 g /\
    h_globalHistory x = g /\ h_localHistoryIdx x = invalidPredictorIndex /\
    let s' := with_history s (<[Z.to_nat tid := g']> (globalHistory s)) in
    uncondBranch s tid pc h = Ok (Some x, s') /\ inv c s' /\ hist_ok c (Some x).
Proof.
  intros Hs Ht. destruct (tn_history_read c s tid Hs Ht) as (g & Hg & Hr & Hgr).
  destruct (updateGlobal_spec c s tid g Hs Ht Hg) as [Hu _].
  exists g. eexists. eexists {| h_globalHistory := g |}.
  split; [done|]. split; [done|]. split; [done|]. split; [reflexivity|]. split; [|split].
  - unfold uncondBranch. rewrite Hr. cbn [mbind res_bind]. by rewrite Hu.
  - apply tn_history_write; [done..|]. by apply land_register, Hs.
  - eexists. split; [done|]. cbn. split; [done|]. split; [done|]. by left.
Qed.

Lemma btb_ok c s tid pc h :
  inv c s -> 0 <= tid < numThreads c ->
  exists g' l', is_u32 g' /\ is_u32 l' /\
    btbUpdate s tid pc h = Ok (with_histories s tid g' (hist_index c pc) l').
Proof.
  intros Hs Ht. destruct (calc_ok c s pc Hs) as [He Hi].
  destruct (tn_history_read c s tid Hs Ht) as (g & Hg & Hr & _).
  unfold btbUpdate. rewrite He. cbn [mbind res_bind]. rewrite Hr. cbn [mbind res_bind].
  set (g' := u32 (Z.land g _)). assert (is_u32 g') as Hg' by (apply (wrap_u_range 32); lia).
  destruct (tn_history_write c s tid g' Hs Ht Hg') as [-> Hi']. cbn [mbind res_bind].
  destruct (table_read c _ _ Hi' Hi) as (l & Hl & -> & _). cbn [mbind res_bind].
  set (l' := u32 (Z.land l _)). assert (is_u32 l') as Hl' by (apply (wrap_u_range 32); lia).
  destruct (table_write c _ _ l' Hi' Hi Hl') as [-> _]. by exists g', l'.
Qed.

Lemma btb_inv c s tid pc h :
  inv c s -> 0 <= tid < numThreads c -> exists s', btbUpdate s tid pc h = Ok s' /\ inv c s'.
Proof.
  intros Hs Ht. destruct (btb_ok c s tid pc h Hs Ht) as (g & l & Hg & Hl & H).
  eexists. split; [exact H|]. apply histories_ok; try done. apply (proj2 (calc_ok c s pc Hs)).
Qed.

(** * Undoing a prediction *)

Lemma same_fields s t :
  same s t <-> cfg s = cfg t /\ localCtrs s = localCtrs t /\ globalCtrs s = globalCtrs t /\
    choiceCtrs s = choiceCtrs t /\ globalHistory s = globalHistory t /\ masked_table s = masked_table t.
Proof.
  unfold same, forget, with_table. split; [by intros [=]|].
  by intros (-> & -> & -> & -> & -> & ->).
Qed.

Lemma masked_histories s tid g idx l :
  masked_table (with_histories s tid g idx l)
    = <[Z.to_nat idx := Z.land l (localPredictorMask (cfg s))]> (masked_table s).
Proof. apply (list_fmap_insert (fun l => Z.land l (localPredictorMask (cfg s)))). Qed.

Lemma tn_squash_ok c s tid h :
  inv c s -> 0 <= tid < numThreads c -> hist_ok c h -> exists s', squash s tid h = Ok s' /\ inv c s'.
Proof.
  intros Hs Ht (x & -> & Hg & Hl & Hi). unfold squash.
  destruct (tn_history_write c s tid _ Hs Ht Hg) as [-> H1]. cbn [mbind res_bind].
  destruct (Z.eqb_spec (h_localHistoryIdx x) invalidPredictorIndex) as [E|E]; cbn [negb]; [by eexists|].
  destruct Hi as [|Hi]; [done|]. destruct (table_write c _ _ _ H1 Hi Hl) as [-> H2]. by eexists.
Qed.

Lemma invalid_out c i : cfg_ok c -> 0 <= i < localHistoryTableSize c -> i <> invalidPredictorIndex.
Proof.
  intros Hc Hi. pose proof (sized_small _ _ (cfg_table _ Hc)).
  change invalidPredictorIndex with (2 ^ 32 - 1). lia.
Qed.

Lemma undo_histories c s t tid g l g1 l1 x idx :
  inv c s -> inv c t -> 0 <= tid < numThreads c -> 0 <= idx < localHistoryTableSize c ->
  globalHistory s !! Z.to_nat tid = Some g -> localHistoryTable s !! Z.to_nat idx = Some l ->
  same (with_histories s tid g1 idx l1) t ->
  h_globalHistory x = g -> h_localHistoryIdx x = idx ->
  h_localHistory x = Z.land l (localPredictorMask c) ->
  exists u, squash t tid (Some x) = Ok u /\ same u s.
Proof.
  intros Hs Hti Ht Hi Hg Hl Hst Hxg Hxi Hxl.
  exists (with_histories t tid g idx (Z.land l (localPredictorMask c))). split.
  - unfold squash. rewrite Hxg, Hxi, Hxl. pose proof (inv_threads _ _ Hti). pose proof (inv_table_len _ _ Hti).
    rewrite awrite_Ok by lia. cbn [mbind res_bind].
    rewrite (proj2 (Z.eqb_neq _ _) (invalid_out c idx (inv_cfg_ok _ _ Hs) Hi)). cbn [negb].
    cbn [localHistoryTable with_history]. by rewrite awrite_Ok by lia.
  - apply same_fields in Hst as (E1 & E2 & E3 & E4 & E5 & E6). apply same_fields.
    cbn in E1, E2, E3, E4, E5. cbn [cfg localCtrs globalCtrs choiceCtrs globalHistory with_histories with_table with_history].
    do 4 (split; [done|]). split.
    + by rewrite <- E5, list_insert_insert_eq, list_insert_id.
    + rewrite masked_histories, (inv_cfg _ _ Hti), land_mask_idemp, <- E6, masked_histories.
      rewrite list_insert_insert_eq. apply list_insert_id.
      unfold masked_table. by rewrite list_lookup_fmap, Hl, (inv_cfg _ _ Hs).
Qed.

Lemma undo_uncond c s t tid g g1 x :
  inv c s -> inv c t -> 0 <= tid < numThreads c -> globalHistory s !! Z.to_nat tid = Some g ->
  same (with_history s (<[Z.to_nat tid := g1]> (globalHistory s))) t ->
  h_globalHistory x = g -> h_localHistoryIdx x = invalidPredictorIndex ->
  exists u, squash t tid (Some x) = Ok u /\ same u s.
Proof.
  intros Hs Hti Ht Hg Hst Hxg Hxi. exists (with_history t (<[Z.to_nat tid := g]> (globalHistory t))).
  split.
  - unfold squash. rewrite Hxg, Hxi, Z.eqb_refl. pose proof (inv_threads _ _ Hti).
    by rewrite awrite_Ok by lia.
  - apply same_fields in Hst as (E1 & E2 & E3 & E4 & E5 & E6). apply same_fields.
    cbn in E1, E2, E3, E4, E5. cbn [cfg localCtrs globalCtrs choiceCtrs globalHistory with_history].
    do 4 (split; [done|]). split; [by rewrite <- E5, list_insert_insert_eq, list_insert_id|].
    symmetry. exact E6.
Qed.

(** * Equivalent states predict alike *)

Lemma shift_in_mask k l l' b :
  0 <= k -> Z.land l (2 ^ k - 1) = Z.land l' (2 ^ k - 1) ->
  Z.land (shift_in l b) (2 ^ k - 1) = Z.land (shift_in l' b) (2 ^ k - 1).
Proof.
  intros Hk. rewrite Z.sub_1_r, <- Z.ones_equiv. intros E. unfold shift_in. bitwise.
  destruct (Z.ltb_spec i k); [|by rewrite !andb_false_r]. f_equal. f_equal.
  f_equal. apply (f_equal (fun z => Z.testbit z (i - 1))) in E.
  destruct (decide (i = 0)) as [->|]; [done|]. rewrite !Z.land_spec in E.
  rewrite testbit_ones in E by lia. destruct (Z.ltb_spec (i - 1) k); [|lia].
  by rewrite !andb_true_r in E.
Qed.

Lemma same_lookup c s t tid pc b h s' :
  inv c s -> inv c t -> same s t -> 0 <= tid < numThreads c ->
  lookup s tid pc None = Ok (b, h, s') -> exists t', lookup t tid pc None = Ok (b, h, t') /\ same s' t'.
Proof.
  intros Hs Hti Hst Ht Hl. destruct (calc_ok c s pc Hs) as [_ Hi].
  destruct (tn_lookup_spec c s tid pc Hs Ht) as (g & l & b' & x & Hg & _ & Hls & _ & _ & _ & _ & H).
  rewrite (H s l Hs eq_refl eq_refl eq_refl Hg Hls eq_refl None) in Hl. injection Hl as <- <- <-.
  apply same_fields in Hst as (E1 & E2 & E3 & E4 & E5 & E6).
  destruct (table_read c t _ Hti Hi) as (l' & Hlt & _).
  assert (Z.land l' (localPredictorMask c) = Z.land l (localPredictorMask c)) as Em.
  { apply (f_equal (fun v => v !! Z.to_nat (hist_index c pc))) in E6. unfold masked_table in E6.
    rewrite !list_lookup_fmap, Hls, Hlt, (inv_cfg _ _ Hs), (inv_cfg _ _ Hti) in E6. by injection E6. }
  rewrite E5 in Hg. eexists. split; [by apply (H t l')|].
  apply same_fields. cbn [cfg localCtrs globalCtrs choiceCtrs globalHistory with_histories with_table with_history].
  do 4 (split; [done|]). split; [by rewrite E5|]. rewrite !masked_histories, E6. f_equal.
  rewrite (inv_cfg _ _ Hs), (inv_cfg _ _ Hti).
  destruct (cfg_local _ (inv_cfg_ok _ _ Hs)) as (k & Hk & _ & Hm). rewrite Hm in *.
  apply shift_in_mask; [lia|done].
Qed.

(** * Resolving a branch *)

Lemma tn_update_choice_ok c s x b valid :
  inv c s -> exists s', update_choice s x b valid = Ok s' /\ inv c s'.
Proof.
  intros Hs. unfold update_choice. case_match; [|by eexists].
  pose proof (sized_index _ _ (h_globalHistory x) (cfg_choice _ (inv_cfg_ok _ _ Hs))) as Hi.
  rewrite (inv_cfg _ _ Hs). destruct Hs. case_match; [|case_match; [|by eexists]].
  - edestruct decrement_at_ok as (? & _ & -> & Hv); [done..|].
    cbn [mbind res_bind]. eexists. split; [done|]. by split.
  - edestruct increment_at_ok as (? & ? & _ & _ & -> & Hv); [done..|].
    cbn [mbind res_bind]. eexists. split; [done|]. by split.
Qed.

Lemma update_counters_ok c s x b valid i :
  inv c s -> 0 <= i < localPredictorSize c ->
  exists s', update_counters s x b valid i = Ok s' /\ inv c s'.
Proof.
  intros Hs Hi. unfold update_counters.
  pose proof (sized_index _ _ (h_globalHistory x) (cfg_global _ (inv_cfg_ok _ _ Hs))) as Hg.
  rewrite (inv_cfg _ _ Hs). destruct Hs. destruct b.
  - edestruct increment_at_ok as (? & ? & _ & _ & -> & Hv); [done|exact Hg|].
    cbn [mbind res_bind]. destruct valid; [|by eexists].
    edestruct increment_at_ok as (? & ? & _ & _ & -> & Hw); [exact inv_local0|exact Hi|].
    cbn [mbind res_bind]. eexists. split; [done|]. by split.
  - edestruct decrement_at_ok as (? & _ & -> & Hv); [done|exact Hg|].
    cbn [mbind res_bind]. destruct valid; [|by eexists].
    edestruct decrement_at_ok as (? & _ & -> & Hw); [exact inv_local0|exact Hi|].
    cbn [mbind res_bind]. eexists. split; [done|]. by split.
Qed.

Lemma tn_update_ok c s tid pc b h sq :
  inv c s -> 0 <= tid < numThreads c -> hist_ok c h ->
  exists s', update s tid pc b h sq = Ok s' /\ inv c s'.
Proof.
  intros Hs Ht (x & -> & Hg & Hl & Hx). destruct (calc_ok c s pc Hs) as [He Hi].
  pose proof (inv_cfg_ok _ _ Hs) as Hc. unfold update. rewrite He. cbn [mbind res_bind].
  rewrite (inv_cfg _ _ Hs), (proj2 (Z.ltb_lt _ _) (proj2 Hi)). destruct sq.
  - unfold update_squashed. rewrite (inv_cfg _ _ Hs).
    destruct (tn_history_write c s tid (Z.land (shift_in (h_globalHistory x) b) (historyRegisterMask c))
                Hs Ht (land_register _ _ Hc)) as [Hw H1].
    unfold shift_in in Hw. rewrite Hw. cbn [mbind res_bind]. case_match; [|by eexists].
    destruct (table_write c _ _ (shift_in (h_localHistory x) b) H1 Hi (shift_in_u32 _ _)) as [Hw' H2].
    unfold shift_in in Hw'. rewrite Hw'. by eexists.
  - pose proof (sized_index _ _ (h_localHistory x) (cfg_local _ Hc)) as Hli.
    rewrite (proj2 (Z.ltb_lt _ _) (proj2 Hli)).
    destruct (tn_update_choice_ok c s x b (negb (h_localHistory x =? invalidPredictorIndex)) Hs)
      as (s1 & -> & H1). cbn [mbind res_bind]. by apply update_counters_ok.
Qed.

(** * The interface *)

(** A lookup and, when the target is unknown, [btbUpdate]: both change only
    the thread's register and the branch's local history. *)
Lemma predict_undone c s tid pc b h s' s'' t (no_target : bool) :
  inv c s -> 0 <= tid < numThreads c -> lookup s tid pc None = Ok (b, h, s') ->
  (if no_target then btbUpdate s' tid pc h else Ok s') = Ok s'' ->
  inv c t -> same s'' t -> exists u, squash t tid h = Ok u /\ same u s.
Proof.
  intros Hs Ht Hl Hb Hti Hst. destruct (calc_ok c s pc Hs) as [_ Hi].
  destruct (tn_lookup_ok c s tid pc None Hs Ht)
    as (g & l & b' & x & Hg & _ & Hls & Hx1 & Hx2 & Hx3 & Hl' & Hi' & _).
  pose proof (eq_trans (eq_sym Hl) Hl') as E. injection E as <- -> ->.
  destruct no_target.
  - destruct (btb_ok c _ tid pc (Some x) Hi' Ht) as (g2 & l2 & _ & _ & Hb').
    pose proof (eq_trans (eq_sym Hb) Hb') as E. injection E as ->.
    eapply (undo_histories c s t tid g l g2 l2 x); try done.
    unfold with_histories, with_table, with_history in *. cbn in *.
    by rewrite !list_insert_insert_eq in Hst.
  - injection Hb as <-. by eapply (undo_histories c s t tid g l _ _ x).
Qed.

#[export, program] Instance TournamentBP_laws : DirPredLaws TournamentCfg TournamentBP bp_ptr := {|
  dp_threads := numThreads;
  dp_inv := inv;
  dp_hist := hist_ok;
  dp_eq := same |}.
Next Obligation.
  intros c s tid pc Hs Ht _.
  destruct (tn_lookup_ok c s tid pc None Hs Ht) as (g & l & b & x & _ & _ & _ & _ & _ & _ & H & Hi & Hh).
  exists b, (Some x). eexists. by split; [exact H|].
Qed.
Next Obligation.
  intros c s tid pc Hs Ht _.
  destruct (uncond_ok c s tid pc None Hs Ht) as (g & g' & x & _ & _ & _ & _ & H & Hi & Hh).
  exists (Some x). eexists. by split; [exact H|].
Qed.
Next Obligation. intros c s tid pc h Hs Ht _ _. by apply btb_inv. Qed.
Next Obligation. intros c s tid pc b h sq Hs Ht _ Hh. by apply tn_update_ok. Qed.
Next Obligation. intros c s tid h Hs Ht Hh. by apply tn_squash_ok. Qed.
Next Obligation. intros c s tid h Hs (x & -> & Hx & _). by exists (h_globalHistory x). Qed.
Next Obligation. intros c s t tid pc b h s' Hs Hti He Ht _ H. by apply (same_lookup c s t). Qed.
Next Obligation. intros c s tid pc b h s' t Hs Ht _ Hl Hi He. by eapply (predict_undone c s tid pc b h s' s' t false). Qed.
Next Obligation. intros c s tid pc b h s' s'' t Hs Ht _ Hl Hb Hi He. by eapply (predict_undone c s tid pc b h s' s'' t true). Qed.
Next Obligation.
  intros c s tid pc h s' t Hs Ht _ Hl Hti He.
  destruct (uncond_ok c s tid pc None Hs Ht) as (g & g' & x & Hg & _ & Hx1 & Hx2 & Hl' & _ & _).
  pose proof (eq_trans (eq_sym Hl) Hl') as E. injection E as -> ->.
  by eapply (undo_uncond c s t tid g g' x).
Qed.

(** * Theorems *)

(** The parameters the constructor accepts. *)
Definition params_ok (p : TournamentBPParams) : Prop :=
  (exists i, 0 <= i < 31 /\ p_localPredictorSize p = 2 ^ i) /\
  (exists i, 0 <= i < 31 /\ p_localHistoryTableSize p = 2 ^ i) /\
  (exists i, 0 <= i < 31 /\ p_globalPredictorSize p = 2 ^ i) /\
  (exists i, 0 <= i < 31 /\ p_choicePredictorSize p = 2 ^ i) /\
  1 <= p_localCtrBits p <= 30 /\ 1 <= p_globalCtrBits p <= 30 /\ 1 <= p_choiceCtrBits p <= 30 /\
  0 <= p_instShiftAmt p < 64 /\ 0 <= p_numThreads p.

Lemma history_table_zero n :
  0 <= n -> for_range 0 n (fun i v => awrite v i 0) (replicate (Z.to_nat n) 0) = Ok (replicate (Z.to_nat n) 0).
Proof.
  intros Hn. destruct (for_range_ok (fun _ v => v = replicate (Z.to_nat n) 0)
    (fun i v => awrite v i 0) 0 n (replicate (Z.to_nat n) 0)) as (v & -> & ->); [done|done| |done].
  intros i v Hi ->. exists (replicate (Z.to_nat n) 0).
  rewrite awrite_Ok by (rewrite length_replicate; lia). split; [|done]. f_equal.
  apply list_insert_id, lookup_replicate. split; [done|lia].
Qed.

Lemma mask_size i : 0 <= i < 31 -> u32 (mask i) = 2 ^ i - 1.
Proof. intros Hi. rewrite mask_ones, Z.ones_equiv, <- Z.sub_1_r by lia. apply u32_pred_pow2. lia. Qed.

Lemma sized_pow2 i n : 0 <= i < 31 -> n = 2 ^ i ->
  isPowerOf2 n = true /\ ceilLog2_32 n = Ok i /\ int_ok n = Ok n /\ 0 <= n /\ u32 (n - 1) = 2 ^ i - 1.
Proof.
  intros Hi ->. pose proof (pow2_pos i ltac:(lia)).
  pose proof (Z.pow_lt_mono_r 2 i 31 ltac:(lia) ltac:(lia) ltac:(lia)).
  split_and!.
  - apply isPowerOf2_spec; [lia|]. exists i. lia.
  - rewrite ceilLog2_32_spec by lia. by rewrite Z.log2_up_pow2 by lia.
  - apply int_ok_in. lia.
  - lia.
  - apply u32_pred_pow2. lia.
Qed.

(** The constructor. *)
Lemma TournamentBP_new_ok p :
  params_ok p ->
  exists s, TournamentBP_new p = Ok s /\ inv (cfg s) s /\ numThreads (cfg s) = p_numThreads p.
Proof.
  intros ((i & Hi & Ei) & (j & Hj & Ej) & (g & Hg & Eg) & (k & Hk & Ek) & Hlb & Hgb & Hcb & Hsh & Hn).
  destruct (sized_pow2 i _ Hi Ei) as (Pi & Li & Ii & Ni & Mi).
  destruct (sized_pow2 j _ Hj Ej) as (Pj & Lj & Ij & Nj & Mj).
  destruct (sized_pow2 g _ Hg Eg) as (Pg & Lg & Ig & Ng & Mg).
  destruct (sized_pow2 k _ Hk Ek) as (Pk & Lk & Ik & Nk & Mk).
  destruct (counters_new_ok (p_localCtrBits p) _ ltac:(lia) Ni) as (lc & Hlc & Hlok & _).
  destruct (counters_new_ok (p_globalCtrBits p) _ ltac:(lia) Ng) as (gc & Hgc & Hgok & _).
  destruct (counters_new_ok (p_choiceCtrBits p) _ ltac:(lia) Nk) as (cc & Hcc & Hcok & _).
  set (m := if k <? g then g else k). assert (0 <= m < 31 /\ g <= m /\ k <= m) as (Hm & Hgm & Hkm)
    by (subst m; case_match; lia).
  unfold TournamentBP_new. rewrite Li, Lg, Lk. cbn [mbind res_bind]. fold m.
  rewrite Pi, Pg, Hlc. cbn [mbind res_bind]. rewrite Ii. cbn [mbind res_bind].
  rewrite Pj, history_table_zero by done. cbn [mbind res_bind]. rewrite Ij. cbn [mbind res_bind].
  rewrite Hgc. cbn [mbind res_bind]. rewrite Ig. cbn [mbind res_bind]. rewrite Pk, Hcc.
  cbn [mbind res_bind]. rewrite Ik. cbn [mbind res_bind]. rewrite Mg, Mk, !mask_size by done.
  pose proof (Z.pow_le_mono_r 2 g m ltac:(lia) Hgm). pose proof (Z.pow_le_mono_r 2 k m ltac:(lia) Hkm).
  rewrite !(proj2 (Z.ltb_ge _ _)) by lia. cbn [negb]. rewrite !threshold_ok by lia. cbn [mbind res_bind].
  eexists. split; [done|]. split; [|done]. split; cbn; try done.
  - pose proof (land_u32 (2 ^ m - 1) (2 ^ m - 1)) as Hr. rewrite Z.land_diag in Hr.
    split; cbn; [by exists i|exists j; by rewrite Ej|by exists g|by exists k| |lia].
    rewrite <- mask_size by done. apply (wrap_u_range 32). lia.
  - rewrite length_replicate. lia.
  - by apply Forall_replicate.
  - rewrite length_replicate. lia.
  - by apply Forall_replicate.
Qed.

(** (the tournament predictor is well formed and safe). From tables whose
    sizes are powers of two below [2 ^ 31] and counters of 1 to 30 bits, the
    constructor returns a predictor whose masks are those of its tables; in
    such a state, for an existing thread, any address and any record it handed
    out, no operation reads outside a table, fails an assertion or leaves the
    state ill formed. *)
Theorem tournament_safe p :
  params_ok p ->
  exists s, TournamentBP_new p = Ok s /\ inv (cfg s) s /\ numThreads (cfg s) = p_numThreads p /\
    forall t tid pc, inv (cfg s) t -> 0 <= tid < p_numThreads p ->
      (exists b h t', lookup t tid pc None = Ok (b, h, t') /\ inv (cfg s) t' /\ hist_ok (cfg s) h) /\
      (exists h t', uncondBranch t tid pc None = Ok (h, t') /\ inv (cfg s) t' /\ hist_ok (cfg s) h) /\
      (forall h, hist_ok (cfg s) h ->
         (exists t', btbUpdate t tid pc h = Ok t' /\ inv (cfg s) t') /\
         (exists t', squash t tid h = Ok t' /\ inv (cfg s) t') /\
         (forall taken squashed, exists t', update t tid pc taken h squashed = Ok t' /\ inv (cfg s) t')).
Proof.
  intros (s & Hs & Hinv & Hth)%TournamentBP_new_ok.
  exists s. do 3 (split; [done|]). intros t tid pc Ht Htid. rewrite <- Hth in Htid. split_and!.
  - destruct (tn_lookup_ok _ t tid pc None Ht Htid) as (? & ? & b & x & _ & _ & _ & _ & _ & _ & H & Hi' & Hh).
    by exists b, (Some x); eexists.
  - destruct (uncond_ok _ t tid pc None Ht Htid) as (? & ? & x & _ & _ & _ & _ & H & Hi' & Hh).
    by exists (Some x); eexists.
  - intros h Hh. split_and!; [|by apply tn_squash_ok|intros; by apply tn_update_ok].
    by apply btb_inv.
Qed.

(** A small predictor, for the witnesses. *)
Definition small_params : TournamentBPParams := {|
  p_numThreads := 1; p_instShiftAmt := 2;
  p_localPredictorSize := 8; p_localCtrBits := 2; p_localHistoryTableSize := 4;
  p_globalPredictorSize := 16; p_globalCtrBits := 2;
  p_choicePredictorSize := 8; p_choiceCtrBits := 2 |}.

Lemma small_params_ok : params_ok small_params.
Proof.
  unfold params_ok, small_params; cbn.
  split_and!; try lia; [exists 3|exists 2|exists 4|exists 3]; split; done || lia.
Qed.

Example tournament_safe_witness : exists s, TournamentBP_new small_params = Ok s /\ inv (cfg s) s.
Proof.
  destruct (tournament_safe small_params small_params_ok) as (s & H1 & H2 & _). exists s. by split.
Defined.

(** (tournament speculation is undone). A well-formed tournament predictor
    predicts any sequence of conditional branches (with [btbUpdate] when the
    target is unknown) and unconditional ones; squashing the records it handed
    out, youngest first, restores every counter, every global history register
    and the bits of every local history that are ever read: the result
    predicts every further branch as the starting state does. *)
Theorem tournament_squash_restores c s tid ops :
  inv c s -> 0 <= tid < numThreads c -> Forall spec_op_ok ops ->
  exists hs s' u, speculate ops tid s [] = Ok (hs, s') /\ unwind hs tid s' = Ok u /\ inv c u /\
    localCtrs u = localCtrs s /\ globalCtrs u = globalCtrs s /\ choiceCtrs u = choiceCtrs s /\
    globalHistory u = globalHistory s /\ masked_table u = masked_table s /\
    forall tid' pc b h s2, 0 <= tid' < numThreads c -> lookup s tid' pc None = Ok (b, h, s2) ->
      exists u2, lookup u tid' pc None = Ok (b, h, u2) /\ same u2 s2.
Proof.
  intros Hs Ht Hops.
  destruct (@speculate_unwind _ _ _ _ TournamentBP_laws c ops tid s [] Hs Ht Hops)
    as (hs & s' & Hsp & Hi & Hun).
  rewrite app_nil_r in *. destruct (Hun s' Hi ltac:(reflexivity)) as (u & Hu & Hui & He).
  exists hs, s', u. do 3 (split; [done|]). apply same_fields in He as Hf.
  destruct Hf as (_ & E1 & E2 & E3 & E4 & E5). do 5 (split; [done|]).
  intros tid' pc b h s2 Ht' Hl.
  destruct (same_lookup c s u tid' pc b h s2 Hs Hui (symmetry He) Ht' Hl) as (u2 & Hl2 & He2).
  exists u2. by split.
Qed.

Example tournament_squash_restores_witness :
  exists s hs s' u, TournamentBP_new small_params = Ok s /\
    speculate [SLookup 0x40 false; SUncond 0x44; SLookup 0x50 true] 0 s [] = Ok (hs, s') /\
    unwind hs 0 s' = Ok u /\ masked_table u = masked_table s.
Proof.
  destruct (TournamentBP_new_ok small_params small_params_ok) as (s & E & Hi & Hn).
  destruct (tournament_squash_restores (cfg s) s 0 [SLookup 0x40 false; SUncond 0x44; SLookup 0x50 true] Hi)
    as (hs & s' & u & H1 & H2 & _ & _ & _ & _ & _ & H3 & _);
    [rewrite Hn; simpl; lia|repeat constructor; simpl; lia|].
  by exists s, hs, s', u.
Defined.

(** A conditional branch predicted, corrected if need be, and committed. *)
Definition run_branch (s : TournamentBP) (tid pc : Z) (taken : bool) : res TournamentBP :=
  '(b, h, s) ← lookup s tid pc None;
  s ← (if eqb b taken then Ok s else update s tid pc taken h true);
  update s tid pc taken h false.
Fixpoint run_branches (n : nat) (s : TournamentBP) (tid pc : Z) (taken : bool) : res TournamentBP :=
  match n with O => Ok s | S n => s ← run_branch s tid pc taken; run_branches n s tid pc taken end.

Lemma run_branches_ok n c s tid pc b :
  inv c s -> 0 <= tid < numThreads c -> exists s', run_branches n s tid pc b = Ok s' /\ inv c s'.
Proof.
  revert s. induction n as [|n IH]; intros s Hs Ht; [by exists s|]. cbn [run_branches].
  destruct (tn_lookup_ok c s tid pc None Hs Ht) as (? & ? & b' & x & _ & _ & _ & _ & _ & _ & Hl & Hi & Hh).
  unfold run_branch. rewrite Hl. cbn [mbind res_bind]. destruct (eqb b' b); cbn [mbind res_bind].
  - destruct (tn_update_ok c _ tid pc b (Some x) false Hi Ht Hh) as (s2 & -> & H2). by apply IH.
  - destruct (tn_update_ok c _ tid pc b (Some x) true Hi Ht Hh) as (s2 & -> & H2). cbn [mbind res_bind].
    destruct (tn_update_ok c _ tid pc b (Some x) false H2 Ht Hh) as (s3 & -> & H3). by apply IH.
Qed.

(** (an unconditional branch without a target is not undone). For an
    unconditional branch whose target is unknown the unit calls [btbUpdate]
    after [uncondBranch].  [btbUpdate] clears the low bit of the local history
    the branch maps to, but the record of an unconditional branch says that
    no local history was touched, so [squash] restores the global history only:
    a local history that other branches trained loses its last outcome on the
    wrong path, and the next prediction from it changes. *)
Theorem tournament_uncond_btb_leak :
  exists s h s1 s2 u b1 b2 s3 u3,
    (exists c, inv c s /\ 0 < numThreads c) /\
    uncondBranch s 0 0x80 None = Ok (h, s1) /\ btbUpdate s1 0 0x80 h = Ok s2 /\
    squash s2 0 h = Ok u /\ globalHistory u = globalHistory s /\
    ~ same u s /\
    lookup s 0 0x40 None = Ok (b1, s3) /\ lookup u 0 0x40 None = Ok (b2, u3) /\ b1 <> b2.
Proof.
  destruct (TournamentBP_new_ok small_params small_params_ok) as (s0 & E0 & Hi & Hn).
  destruct (run_branches_ok 9 (cfg s0) s0 0 0x40 true Hi ltac:(rewrite Hn; simpl; lia)) as (s & E & Hs).
  assert (exists c, inv c s /\ 0 < numThreads c) as Hc by (exists (cfg s0); by rewrite Hn).
  clear Hi Hn Hs. vm_compute in E0. injection E0 as <-. vm_compute in E. injection E as <-.
  do 9 eexists. split; [exact Hc|].
  split; [vm_compute; reflexivity|]. split; [vm_compute; reflexivity|]. split; [vm_compute; reflexivity|].
  split; [done|]. split; [intros H; by vm_compute in H|].
  split; [vm_compute; reflexivity|]. split; [vm_compute; reflexivity|]. done.
Qed.
