(* ===== verification/LtageHist.v ===== *)
(** Branch histories of the L-TAGE predictor, src/cpu/pred/ltage.hh and
    ltage.cc: the per-thread global history kept in a large circular buffer,
    the path history, and the folded histories that hash them.  The reference
    definition [folded] says what a folded history is a hash of. *)
From Stdlib Require Import Sorting.Sorted.
From S2P Require Import Prelude Bitfield DirPred.

(** * Definitions *)

(** The arrays indexed by bank are allocated with [nHistoryTables + 1]
    elements of which the first is never initialised: the list holds the
    elements from 1 on, and an access to element 0 is undefined. *)
Definition bread {A} (l : list A) (i : Z) : res A := aread l (i - 1).
Definition bwrite {A} (l : list A) (i : Z) (a : A) : res (list A) := awrite l (i - 1) a.

(** [struct FoldedHistory] *)
Record FoldedHistory := { comp : Z; compLength : Z; origLength : Z; outpoint : Z }.

#[export] Instance FoldedHistory_eq_dec : EqDecision FoldedHistory.
Proof. solve_decision. Defined.

Definition FoldedHistory_init (original_length compressed_length : Z) : res FoldedHistory :=
  defined! negb (compressed_length =? 0) ;;
  Ok {| comp := 0; compLength := compressed_length; origLength := original_length;
        outpoint := Z.rem original_length compressed_length |}.

Definition with_comp (f : FoldedHistory) (v : Z) : FoldedHistory :=
  {| comp := v; compLength := compLength f; origLength := origLength f; outpoint := outpoint f |}.

(** [update(h)]: the pointer is the table and the index it points at. *)
Definition FoldedHistory_update (f : FoldedHistory) (tab : list Z) (h : Z) : res FoldedHistory :=
  h0 ← aread tab h;
  let v := Z.lor (u32 (Z.shiftl (comp f) 1)) h0 in
  hl ← aread tab (h + origLength f);
  defined! (0 <=? outpoint f) && (outpoint f <? 32) ;;
  let v := Z.lxor v (u32 (Z.shiftl hl (outpoint f))) in
  defined! (0 <=? compLength f) && (compLength f <? 32) ;;
  let v := Z.lxor v (Z.shiftr v (compLength f)) in
  let v := Z.land v (2 ^ compLength f - 1) in
  Ok (with_comp f v).

(** [computeIndices[i]], [computeTags[0][i]] and [computeTags[1][i]] of one
    bank: the three arrays are kept together, bank by bank. *)
Record Folds := { computeIndices : FoldedHistory; computeTags0 : FoldedHistory;
                  computeTags1 : FoldedHistory }.

(** [struct ThreadHistory]: [gHist] points into [globalHistory]. *)
Record ThreadHistory := {
  pathHist : Z;
  globalHistory : list Z;
  gHist : Z;
  ptGhist : Z;
  computeFolds : list Folds }.

(** What is fixed at construction. *)
Record LtageCfg := {
  logSizeBiMP : Z; logSizeTagTables : Z; logSizeLoopPred : Z; nHistoryTables : Z;
  tagTableCounterBits : Z; histBufferSize : Z; minHist : Z; maxHist : Z; minTagWidth : Z;
  tagWidths : list Z; tagTableSizes : list Z; histLengths : list Z; logTick : Z }.

(** The copy of the youngest outcomes to the end of the buffer. *)
Definition rollover (c : LtageCfg) (tab : list Z) : res (list Z) :=
  for_range 0 (maxHist c)
    (fun i tab => b ← aread tab i;
                  awrite tab (u32 (histBufferSize c - maxHist c + i)) b) tab.

(** [updateGHist(h, dir, tab, pt)]; returns [(h, tab, pt)]. *)
Definition updateGHist (c : LtageCfg) (h : Z) (dir : bool) (tab : list Z) (pt : Z)
  : res (Z * list Z * Z) :=
  '(h, tab, pt) ←
    (if pt =? 0 then
       tab ← rollover c tab;
       let pt := s32 (u32 (histBufferSize c - maxHist c)) in
       Ok (pt, tab, pt)
     else Ok (h, tab, pt));
  let pt := pt - 1 in
  let h := h - 1 in
  tab ← awrite tab h (if dir then 1 else 0);
  Ok (h, tab, pt).

(** [.update(tHist.gHist)] of the three folded histories of a bank. *)
Definition update_folds (tab : list Z) (h : Z) (f : Folds) : res Folds :=
  a ← FoldedHistory_update (computeIndices f) tab h;
  b ← FoldedHistory_update (computeTags0 f) tab h;
  c ← FoldedHistory_update (computeTags1 f) tab h;
  Ok {| computeIndices := a; computeTags0 := b; computeTags1 := c |}.

(** [bi->ci[i]], [bi->ct0[i]], [bi->ct1[i]]: an [unsigned] stored in an
    [int]; [None] is what the allocation left there. *)
Abbreviation saved := (option (Z * Z * Z)).
Definition save_folds (f : Folds) : saved :=
  Some (s32 (comp (computeIndices f)), s32 (comp (computeTags0 f)), s32 (comp (computeTags1 f))).
Definition restore_folds (f : Folds) (v : saved) : res Folds :=
  match v with
  | None => Ub
  | Some (ci, ct0, ct1) =>
    Ok {| computeIndices := with_comp (computeIndices f) (u32 ci);
          computeTags0 := with_comp (computeTags0 f) (u32 ct0);
          computeTags1 := with_comp (computeTags1 f) (u32 ct1) |}
  end.

(** The loop over the banks that advances every folded history. *)
Definition advance_folds (tab : list Z) (h : Z) (fs : list Folds) : res (list Folds) :=
  mapM (update_folds tab h) fs.

(** The loop over the banks that puts the saved values back and advances
    them; the two arrays have the same number of elements. *)
Fixpoint recompute_folds (tab : list Z) (h : Z) (fs : list Folds) (vs : list saved)
  : res (list Folds) :=
  match fs, vs with
  | [], _ => Ok []
  | _ :: _, [] => Ub
  | f :: fs, v :: vs =>
    f ← restore_folds f v; f ← update_folds tab h f;
    fs ← recompute_folds tab h fs vs; Ok (f :: fs)
  end.

(** The part of [BranchInfo] that remembers the histories. *)
Record SavedHist := { b_pathHist : Z; b_ptGhist : Z; b_folds : list saved }.

(** [updateHistories] on the history of the thread. *)
Definition push_history (c : LtageCfg) (t : ThreadHistory) (branch_pc : Z) (taken : bool)
  : res (SavedHist * ThreadHistory) :=
  let pathbit := Z.b2z (negb (Z.land branch_pc 1 =? 0)) in
  '(h, tab, pt) ← updateGHist c (gHist t) taken (globalHistory t) (ptGhist t);
  let path := Z.shiftl (pathHist t) 1 + pathbit in
  let path := Z.land path (2 ^ 16 - 1) in
  fs ← advance_folds tab h (computeFolds t);
  Ok ({| b_pathHist := path; b_ptGhist := pt; b_folds := save_folds <$> computeFolds t |},
      {| pathHist := path; globalHistory := tab; gHist := h; ptGhist := pt; computeFolds := fs |}).

(** [squash(tid, taken, bp_history)] on the history of the thread. *)
Definition repair_history (t : ThreadHistory) (b : SavedHist) (taken : bool) : res ThreadHistory :=
  let h := b_ptGhist b in
  tab ← awrite (globalHistory t) h (if taken then 1 else 0);
  fs ← recompute_folds tab h (computeFolds t) (b_folds b);
  Ok {| pathHist := b_pathHist b; globalHistory := tab; gHist := h; ptGhist := b_ptGhist b;
        computeFolds := fs |}.

(** [btbUpdate] on the history of the thread. *)
Definition reset_last (t : ThreadHistory) (b : SavedHist) : res ThreadHistory :=
  assert! gHist t =? ptGhist t ;;
  tab ← awrite (globalHistory t) (gHist t) 0;
  fs ← recompute_folds tab (gHist t) (computeFolds t) (b_folds b);
  Ok {| pathHist := pathHist t; globalHistory := tab; gHist := gHist t; ptGhist := ptGhist t;
        computeFolds := fs |}.

(** * The reference hash *)

(** Outcome [k] (0 the most recent) is xored into bit [k mod clen]. *)
Fixpoint fold_from (clen k : Z) (w : list Z) : Z :=
  match w with
  | [] => 0
  | b :: w => Z.lxor (Z.shiftl b (k mod clen)) (fold_from clen (k + 1) w)
  end.
Definition folded (clen : Z) (w : list Z) : Z := fold_from clen 0 w.

Definition is_bit (b : Z) : Prop := b = 0 \/ b = 1.
#[export] Instance is_bit_dec b : Decision (is_bit b).
Proof. unfold is_bit. apply _. Defined.

(** Fold the bits above [c] back once. *)
Definition wrap_bits (c v : Z) : Z := Z.land (Z.lxor v (Z.shiftr v c)) (2 ^ c - 1).

Lemma wrap_bits_lxor c a b : 0 <= c -> wrap_bits c (Z.lxor a b) = Z.lxor (wrap_bits c a) (wrap_bits c b).
Proof.
  intros Hc. unfold wrap_bits. bitwise.
  repeat match goal with |- context [Z.testbit ?x ?y] => destruct (Z.testbit x y) end; done.
Qed.

Lemma wrap_bits_small c a : 0 <= c -> 0 <= a < 2 ^ c -> wrap_bits c a = a.
Proof.
  intros Hc Ha. unfold wrap_bits. rewrite Z.shiftr_div_pow2, Z.div_small, Z.lxor_0_r by done.
  rewrite Z.sub_1_r, <- Z.ones_equiv, Z.land_ones by done. by apply Z.mod_small.
Qed.

Lemma shiftl_bit_range b k c : is_bit b -> 0 <= k < c -> 0 <= Z.shiftl b k < 2 ^ c.
Proof.
  intros Hb Hk. rewrite Z.shiftl_mul_pow2 by lia.
  pose proof (pow2_pos k ltac:(lia)). pose proof (Z.pow_lt_mono_r 2 k c ltac:(lia) ltac:(lia) ltac:(lia)).
  destruct Hb as [->| ->]; lia.
Qed.

(** Rotating a single bit. *)
Lemma wrap_bits_rotate b k c : is_bit b -> 0 < c ->
  wrap_bits c (Z.shiftl (Z.shiftl b (k mod c)) 1) = Z.shiftl b ((k + 1) mod c).
Proof.
  intros Hb Hc. pose proof (Z.mod_pos_bound k c Hc) as Hk. rewrite Z.shiftl_shiftl by lia.
  rewrite <- (Z.add_mod_idemp_l k) by lia. destruct (decide (k mod c + 1 = c)) as [->|].
  - rewrite Z.mod_same, Z.shiftl_0_r by lia. unfold wrap_bits.
    rewrite Z.shiftr_shiftl_l, Z.sub_diag, Z.shiftl_0_r, Z.sub_1_r, <- Z.ones_equiv by lia.
    bitwise. decide_cmp; [|rewrite andb_false_r; symmetry; by apply (testbit_above 1); [destruct Hb as [->| ->]; lia|lia]].
    by rewrite (Z.testbit_neg_r b) by lia; rewrite andb_true_r.
  - rewrite (Z.mod_small (k mod c + 1)) by lia. apply wrap_bits_small; [lia|].
    apply shiftl_bit_range; [done|lia].
Qed.

Lemma fold_from_range c k w : 0 < c -> Forall is_bit w -> 0 <= fold_from c k w < 2 ^ c.
Proof.
  intros Hc Hw. revert k. induction Hw as [|b w Hb Hw IH]; intros k; cbn [fold_from].
  { split; [done|]. apply pow2_pos. lia. }
  pose proof (shiftl_bit_range b (k mod c) c Hb (Z.mod_pos_bound k c Hc)) as Hr.
  specialize (IH (k + 1)).
  assert (0 <= Z.lxor (Z.shiftl b (k mod c)) (fold_from c (k + 1) w)) by (apply Z.lxor_nonneg; lia).
  split; [done|]. apply testbit_bound; [done|lia|]. intros i Hi.
  by rewrite Z.lxor_spec, !(testbit_above c) by lia.
Qed.

Lemma wrap_bits_fold c k w : 0 < c -> Forall is_bit w ->
  wrap_bits c (Z.shiftl (fold_from c k w) 1) = fold_from c (k + 1) w.
Proof.
  intros Hc Hw. revert k. induction Hw as [|b w Hb Hw IH]; intros k; cbn [fold_from].
  { rewrite Z.shiftl_0_l. apply wrap_bits_small; [lia|]. pose proof (pow2_pos c). lia. }
  rewrite Z.shiftl_lxor, wrap_bits_lxor by lia. by rewrite wrap_bits_rotate, IH.
Qed.

Lemma fold_from_snoc c k w y :
  fold_from c k (w ++ [y]) =
  Z.lxor (fold_from c k w) (Z.shiftl y ((k + Z.of_nat (length w)) mod c)).
Proof.
  revert k. induction w as [|b w IH]; intros k; cbn [fold_from app length].
  { by rewrite Z.add_0_r, Z.lxor_0_r. }
  rewrite IH, Z.lxor_assoc. by replace (k + Z.of_nat (S (length w))) with (k + 1 + Z.of_nat (length w)) by lia.
Qed.

(** Shifting an outcome into the hashed window and the oldest one out. *)
Lemma folded_shift c w x y :
  0 < c -> Forall is_bit w -> is_bit x -> is_bit y ->
  wrap_bits c (Z.lxor (Z.lxor (Z.shiftl (folded c (w ++ [y])) 1) x)
                      (Z.shiftl y (Z.of_nat (S (length w)) mod c))) = folded c (x :: w).
Proof.
  intros Hc Hw Hx Hy. unfold folded. cbn [fold_from]. rewrite Z.add_0_l, Z.mod_0_l, Z.shiftl_0_r by lia.
  rewrite fold_from_snoc, Z.shiftl_lxor, !wrap_bits_lxor by lia.
  rewrite wrap_bits_fold by done. rewrite wrap_bits_rotate by done.
  rewrite (wrap_bits_small c x).
  2: lia. 2: { pose proof (Z.pow_le_mono_r 2 1 c ltac:(lia) ltac:(lia)). destruct Hx as [->| ->]; lia. }
  rewrite (wrap_bits_small c (Z.shiftl y _)).
  2: lia. 2: { apply shiftl_bit_range; [done|]. apply Z.mod_pos_bound. lia. }
  replace (0 + Z.of_nat (length w) + 1) with (Z.of_nat (S (length w))) by lia.
  rewrite (Z.lxor_comm _ x), !Z.lxor_assoc, Z.lxor_nilpotent. by rewrite Z.lxor_0_r.
Qed.

(** ** Windows of the buffer *)

(** The [n] outcomes from index [i] on. *)
Definition window (tab : list Z) (i : Z) (n : Z) : list Z := take (Z.to_nat n) (drop (Z.to_nat i) tab).

Lemma window_length tab i n :
  0 <= i -> 0 <= n -> i + n <= Z.of_nat (length tab) -> length (window tab i n) = Z.to_nat n.
Proof. intros. unfold window. rewrite length_take, length_drop. lia. Qed.

Lemma window_lookup tab i n k : 0 <= i -> (k < Z.to_nat n)%nat ->
  window tab i n !! k = tab !! (Z.to_nat i + k)%nat.
Proof. intros Hi Hk. unfold window. by rewrite lookup_take_lt, lookup_drop by lia. Qed.

Lemma window_ext tab tab' i n :
  0 <= i -> 0 <= n -> (forall k, i <= k < i + n -> tab !! Z.to_nat k = tab' !! Z.to_nat k) ->
  window tab i n = window tab' i n.
Proof.
  intros Hi Hn H. apply list_eq. intros k. destruct (decide (k < Z.to_nat n)%nat) as [Hk|Hk].
  - rewrite !window_lookup by lia. specialize (H (i + Z.of_nat k) ltac:(lia)).
    by replace (Z.to_nat (i + Z.of_nat k)) with (Z.to_nat i + k)%nat in H by lia.
  - unfold window. rewrite !lookup_take_ge by lia. done.
Qed.

Lemma window_cons tab i n b : 0 <= i -> 0 < n -> tab !! Z.to_nat i = Some b ->
  window tab i n = b :: window tab (i + 1) (n - 1).
Proof.
  intros Hi Hn Hb. unfold window. rewrite (drop_S _ b) by done.
  replace (Z.to_nat n) with (S (Z.to_nat (n - 1))) by lia.
  by replace (Z.to_nat (i + 1)) with (S (Z.to_nat i)) by lia.
Qed.

Lemma window_snoc tab i n b : 0 <= i -> 0 <= n -> tab !! Z.to_nat (i + n) = Some b ->
  window tab i (n + 1) = window tab i n ++ [b].
Proof.
  intros Hi Hn Hb. unfold window. replace (Z.to_nat (n + 1)) with (S (Z.to_nat n)) by lia.
  apply take_S_r. rewrite lookup_drop. by replace (Z.to_nat i + Z.to_nat n)%nat with (Z.to_nat (i + n)) by lia.
Qed.

Lemma window_prefix tab i n m : 0 <= n <= m -> take (Z.to_nat n) (window tab i m) = window tab i n.
Proof. intros. unfold window. rewrite take_take. f_equal. lia. Qed.

Lemma window_bits tab i n : Forall is_bit tab -> Forall is_bit (window tab i n).
Proof. intros H. by apply Forall_take, Forall_drop. Qed.

Lemma bits_lookup tab i b : Forall is_bit tab -> tab !! i = Some b -> is_bit b.
Proof. intros H Hl. by eapply Forall_lookup_1 in H. Qed.

(** ** One update of a folded history *)

(** The shape [init] gives, for a hash of [clen] bits of [olen] outcomes. *)
Definition fold_shape (olen clen : Z) (f : FoldedHistory) : Prop :=
  0 < clen < 32 /\ 0 < olen /\ compLength f = clen /\ origLength f = olen /\
  outpoint f = olen mod clen.

(** The hash is that of the [olen] outcomes of [w]. *)
Definition fold_ok (olen clen : Z) (w : list Z) (f : FoldedHistory) : Prop :=
  fold_shape olen clen f /\ comp f = folded clen (take (Z.to_nat olen) w).

Lemma folded_range c w : 0 < c -> Forall is_bit w -> 0 <= folded c w < 2 ^ c.
Proof. apply fold_from_range. Qed.

Lemma lor_shift1 a x : is_bit x -> Z.lor (Z.shiftl a 1) x = Z.lxor (Z.shiftl a 1) x.
Proof.
  intros Hx. bitwise. destruct (decide (i = 0)) as [->|].
  - rewrite (Z.testbit_neg_r a) by lia. done.
  - rewrite (testbit_above 1 x i) by (destruct Hx as [->| ->]; lia). by rewrite orb_false_r, xorb_false_r.
Qed.

Lemma FoldedHistory_update_ok olen clen f tab h :
  fold_shape olen clen f -> Forall is_bit tab -> 0 <= h -> h + olen < Z.of_nat (length tab) ->
  comp f = folded clen (window tab (h + 1) olen) ->
  exists f', FoldedHistory_update f tab h = Ok f' /\ fold_shape olen clen f' /\
    comp f' = folded clen (window tab h olen).
Proof.
  intros (Hc & Ho & Ec & Eo & Ep) Hb Hh Hlen Hcomp. unfold FoldedHistory_update.
  destruct (aread_in_bounds tab h) as (x & Hx & ->); [lia|]. cbn [mbind res_bind].
  rewrite Eo. destruct (aread_in_bounds tab (h + olen)) as (y & Hy & ->); [lia|]. cbn [mbind res_bind].
  pose proof (bits_lookup _ _ _ Hb Hx) as Bx. pose proof (bits_lookup _ _ _ Hb Hy) as By.
  pose proof (Z.mod_pos_bound olen clen ltac:(lia)) as Hm. rewrite Ep, Ec.
  rewrite (proj2 (andb_true_iff (0 <=? olen mod clen) _)) by (rewrite !Z.leb_le, !Z.ltb_lt || idtac; split; lia).
  rewrite (proj2 (andb_true_iff (0 <=? clen) _)) by (split; lia).
  eexists. split; [done|]. split; [done|]. cbn [with_comp comp].
  assert (Hw : window tab (h + 1) olen = window tab (h + 1) (olen - 1) ++ [y]).
  { rewrite <- window_snoc; [f_equal; lia|lia|lia|]. by replace (h + 1 + (olen - 1)) with (h + olen) by lia. }
  rewrite (window_cons tab h olen x) by (done || lia).
  rewrite <- (folded_shift clen (window tab (h + 1) (olen - 1)) x y) by (done || lia || by apply window_bits).
  rewrite window_length by lia. replace (Z.of_nat (S (Z.to_nat (olen - 1)))) with olen by lia.
  rewrite <- Hw, <- Hcomp.
  pose proof (folded_range clen (window tab (h + 1) olen) ltac:(lia) (window_bits _ _ _ Hb)) as Hr.
  rewrite <- Hcomp in Hr.
  pose proof (Z.pow_le_mono_r 2 clen 31 ltac:(lia) ltac:(lia)).
  pose proof (shiftl_bit_range y (olen mod clen) clen By Hm).
  rewrite (wrap_u_id 32 (Z.shiftl (comp f) 1)) by (rewrite Z.shiftl_mul_pow2 by lia; lia).
  rewrite (wrap_u_id 32 (Z.shiftl y _)) by lia. by rewrite lor_shift1.
Qed.

(** ** The folded histories of every bank *)

(** History length, index width and tag width of the banks. *)
Definition shapes (c : LtageCfg) : list (Z * (Z * Z)) :=
  zip (histLengths c) (zip (tagTableSizes c) (tagWidths c)).

Definition shape_ok (m : Z) (sh : Z * (Z * Z)) : Prop :=
  let '(o, (s, t)) := sh in 0 < o <= m /\ 0 < s < 31 /\ 1 < t < 32.

(** The saved values of a bank are the hashes of [w]. *)
Definition saved_ok (w : list Z) (sh : Z * (Z * Z)) (v : saved) : Prop :=
  let '(o, (s, t)) := sh in
  v = Some (s32 (folded s (take (Z.to_nat o) w)), s32 (folded t (take (Z.to_nat o) w)),
            s32 (folded (t - 1) (take (Z.to_nat o) w))).

Definition bank_shape (sh : Z * (Z * Z)) (f : Folds) : Prop :=
  let '(o, (s, t)) := sh in
  fold_shape o s (computeIndices f) /\ fold_shape o t (computeTags0 f) /\
  fold_shape o (t - 1) (computeTags1 f).

Definition bank_ok (w : list Z) (sh : Z * (Z * Z)) (f : Folds) : Prop :=
  let '(o, (s, t)) := sh in
  fold_ok o s w (computeIndices f) /\ fold_ok o t w (computeTags0 f) /\
  fold_ok o (t - 1) w (computeTags1 f).

Lemma bank_ok_shape w sh f : bank_ok w sh f -> bank_shape sh f.
Proof. destruct sh as (o & s & t). intros ([? _] & [? _] & [? _]). by split_and!. Qed.

Lemma save_folds_ok w sh f : bank_ok w sh f -> saved_ok w sh (save_folds f).
Proof.
  destruct sh as (o & s & t). intros ([_ E1] & [_ E2] & [_ E3]). unfold saved_ok, save_folds.
  by rewrite E1, E2, E3.
Qed.

(** A hash survives being stored in an [int]. *)
Lemma u32_s32_id z : 0 <= z < 2 ^ 32 -> u32 (s32 z) = z.
Proof.
  intros Hz. unfold wrap_s, wrap_u. change (32 - 1) with 31.
  rewrite Zminus_mod_idemp_l, Z.add_simpl_r. by apply Z.mod_small.
Qed.

Lemma folded_take_range c o w : 0 < c < 32 -> Forall is_bit w ->
  0 <= folded c (take o w) < 2 ^ 32.
Proof.
  intros Hc Hw. pose proof (folded_range c (take o w) ltac:(lia) (Forall_take _ _ _ Hw)).
  pose proof (Z.pow_le_mono_r 2 c 32 ltac:(lia) ltac:(lia)). lia.
Qed.

Lemma restore_folds_ok m w sh f v :
  shape_ok m sh -> Forall is_bit w -> bank_shape sh f -> saved_ok w sh v ->
  exists f', restore_folds f v = Ok f' /\ bank_ok w sh f'.
Proof.
  destruct sh as (o & s & t). intros (Ho & Hs & Ht) Hw (H1 & H2 & H3) ->.
  eexists. split; [done|]. unfold bank_ok, fold_ok. cbn -[Z.to_nat].
  rewrite !u32_s32_id by (apply folded_take_range; done || lia). by split_and!.
Qed.

Section Advance.
Context (m : Z) (tab : list Z) (h : Z).
Hypothesis (Htab : Forall is_bit tab) (Hh : 0 <= h) (Hlen : h + m < Z.of_nat (length tab)).

Lemma update_fold_ok o k f : 0 < o <= m -> fold_ok o k (window tab (h + 1) m) f ->
  exists f', FoldedHistory_update f tab h = Ok f' /\ fold_ok o k (window tab h m) f'.
Proof.
  intros Ho [Hs He]. rewrite window_prefix in He by lia.
  destruct (FoldedHistory_update_ok o k f tab h Hs Htab Hh ltac:(lia) He) as (f' & E & Hs' & He').
  exists f'. split; [done|]. split; [done|]. by rewrite window_prefix by lia.
Qed.

Lemma update_folds_ok sh f : shape_ok m sh -> bank_ok (window tab (h + 1) m) sh f ->
  exists f', update_folds tab h f = Ok f' /\ bank_ok (window tab h m) sh f'.
Proof.
  destruct sh as (o & s & t). intros (Ho & _) (H1 & H2 & H3). unfold update_folds.
  destruct (update_fold_ok _ _ _ Ho H1) as (f1 & -> & K1).
  destruct (update_fold_ok _ _ _ Ho H2) as (f2 & -> & K2).
  destruct (update_fold_ok _ _ _ Ho H3) as (f3 & -> & K3).
  eexists. split; [done|]. by split_and!.
Qed.

Lemma advance_folds_ok shs fs : Forall (shape_ok m) shs ->
  Forall2 (bank_ok (window tab (h + 1) m)) shs fs ->
  exists fs', advance_folds tab h fs = Ok fs' /\ Forall2 (bank_ok (window tab h m)) shs fs'.
Proof.
  intros Hshs Hfs. unfold advance_folds. induction Hfs as [|sh f shs fs Hf Hfs IH].
  { by exists []. }
  apply Forall_cons in Hshs as [Hsh Hshs]. destruct (update_folds_ok sh f Hsh Hf) as (f' & E & Hf').
  destruct (IH Hshs) as (fs' & E' & Hfs'). exists (f' :: fs'). cbn [mapM]. rewrite E. cbn [mbind res_bind].
  rewrite E'. split; [done|]. by constructor.
Qed.

Lemma recompute_folds_ok shs fs vs : Forall (shape_ok m) shs ->
  Forall2 bank_shape shs fs -> Forall2 (saved_ok (window tab (h + 1) m)) shs vs ->
  exists fs', recompute_folds tab h fs vs = Ok fs' /\ Forall2 (bank_ok (window tab h m)) shs fs'.
Proof.
  intros Hshs Hfs. revert vs. induction Hfs as [|sh f shs fs Hf Hfs IH]; intros vs Hvs.
  { inversion Hvs; subst. by exists []. }
  apply Forall2_cons_inv_l in Hvs as (v & vs' & Hv & Hvs & ->).
  apply Forall_cons in Hshs as [Hsh Hshs].
  destruct (restore_folds_ok m _ sh f v Hsh (window_bits _ _ _ Htab) Hf Hv) as (f1 & E1 & H1).
  destruct (update_folds_ok sh f1 Hsh H1) as (f2 & E2 & H2).
  destruct (IH Hshs vs' Hvs) as (fs' & E & Hfs'). exists (f2 :: fs'). cbn [recompute_folds].
  rewrite E1. cbn [mbind res_bind]. rewrite E2. cbn [mbind res_bind]. rewrite E. split; [done|].
  by constructor.
Qed.
End Advance.

(** * The abstract history *)

(** What the histories of a thread stand for: the last [maxHist] outcomes, the
    youngest first; the path history; and, for every branch in flight, youngest
    first, how many outcomes were recorded after its own, the outcomes before
    it and the path history after it. *)
Record Flight := { age : Z; before : list Z; path_after : Z }.
Record SpecHist := { now : list Z; path : Z; flight : list Flight }.

Definition older (k : Z) (f : Flight) : Flight :=
  {| age := age f + k; before := before f; path_after := path_after f |}.

Definition shift_path (p branch_pc : Z) : Z :=
  (2 * p + branch_pc mod 2) mod 2 ^ 16.

Definition outcome (b : bool) : Z := if b then 1 else 0.

Definition spec_push (c : LtageCfg) (a : SpecHist) (branch_pc : Z) (taken : bool) : SpecHist :=
  let p := shift_path (path a) branch_pc in
  {| now := take (Z.to_nat (maxHist c)) (outcome taken :: now a); path := p;
     flight := {| age := 0; before := now a; path_after := p |} :: (older 1 <$> flight a) |}.

(** The branch at position [k] of the flight turns out as [taken]. *)
Definition spec_repair (c : LtageCfg) (a : SpecHist) (k : nat) (taken : bool) : SpecHist :=
  match flight a !! k with
  | None => a
  | Some f =>
    {| now := take (Z.to_nat (maxHist c)) (outcome taken :: before f); path := path_after f;
       flight := older (- age f) <$> drop k (flight a) |}
  end.

(** The prediction just made has no target. *)
Definition spec_reset (c : LtageCfg) (a : SpecHist) : SpecHist :=
  match flight a with
  | [] => a
  | f :: _ => {| now := take (Z.to_nat (maxHist c)) (0 :: before f); path := path a; flight := flight a |}
  end.

(** The youngest [k] predictions, or the oldest one, are forgotten. *)
Definition spec_drop (a : SpecHist) (k : nat) : SpecHist :=
  {| now := now a; path := path a; flight := drop k (flight a) |}.
Definition spec_retire (a : SpecHist) : SpecHist :=
  {| now := now a; path := path a; flight := take (pred (length (flight a))) (flight a) |}.

(** ** Invariant *)

(** The positions [ptGhist] takes form a ring. *)
Definition ring (c : LtageCfg) : Z := histBufferSize c - maxHist c.
(** How far the history may run ahead of a branch in flight. *)
Definition max_ahead (c : LtageCfg) : Z := ring c - maxHist c - 1.

Record hist_cfg_ok (c : LtageCfg) : Prop := {
  hc_max : 1 <= maxHist c;
  hc_size : 2 * maxHist c < histBufferSize c < 2 ^ 31;
  hc_shapes : Forall (shape_ok (maxHist c)) (shapes c) }.

Record entry_ok (c : LtageCfg) (tab : list Z) (cur : Z) (f : Flight) (b : SavedHist) : Prop := {
  en_pt : 0 <= b_ptGhist b < ring c;
  en_cur : cur = (b_ptGhist b - age f) mod ring c;
  en_age : 0 <= age f <= max_ahead c;
  en_before : window tab (b_ptGhist b + 1) (maxHist c) = before f;
  en_path : b_pathHist b = path_after f;
  en_folds : Forall2 (saved_ok (before f)) (shapes c) (b_folds b) }.

Record hist_inv (c : LtageCfg) (t : ThreadHistory) (fl : list SavedHist) (a : SpecHist) : Prop := {
  hi_len : Z.of_nat (length (globalHistory t)) = histBufferSize c;
  hi_bits : Forall is_bit (globalHistory t);
  hi_pt : 0 <= ptGhist t < ring c;
  hi_ptr : gHist t = ptGhist t;
  hi_now : window (globalHistory t) (ptGhist t) (maxHist c) = now a;
  hi_path : pathHist t = path a;
  hi_folds : Forall2 (bank_ok (now a)) (shapes c) (computeFolds t);
  hi_flight : Forall2 (entry_ok c (globalHistory t) (ptGhist t)) (flight a) fl;
  hi_ages : StronglySorted Z.lt (age <$> flight a) }.

(** ** Pushing an outcome *)

Lemma mod_ring r p k : 0 <= p < r -> 0 <= k <= r ->
  (p - k) mod r = if k <=? p then p - k else p - k + r.
Proof.
  intros Hp Hk. destruct (Z.leb_spec k p).
  - apply Z.mod_small. lia.
  - symmetry. apply (Z.mod_unique_pos _ _ (-1)); lia.
Qed.

Lemma rollover_ok c tab :
  hist_cfg_ok c -> Z.of_nat (length tab) = histBufferSize c ->
  exists tab', rollover c tab = Ok tab' /\ length tab' = length tab /\
    (forall k, 0 <= k < maxHist c -> tab' !! Z.to_nat (ring c + k) = tab !! Z.to_nat k) /\
    (forall k, 0 <= k < ring c -> tab' !! Z.to_nat k = tab !! Z.to_nat k).
Proof.
  intros [Hm Hs _] Hlen. unfold rollover, ring.
  destruct (for_range_ok (fun i tab' => length tab' = length tab /\
      (forall k, 0 <= k < i -> tab' !! Z.to_nat (histBufferSize c - maxHist c + k) = tab !! Z.to_nat k) /\
      (forall k, 0 <= k < histBufferSize c - maxHist c -> tab' !! Z.to_nat k = tab !! Z.to_nat k))
      (fun i tab => b ← aread tab i; awrite tab (u32 (histBufferSize c - maxHist c + i)) b)
      0 (maxHist c) tab) as (tab' & E & H); [lia| | |by exists tab'].
  - split; [done|]. split; [lia|done].
  - intros i s Hi (Hl & Hc & Hk). destruct (aread_in_bounds s i) as (b & Hb & ->); [lia|].
    cbn [mbind res_bind]. rewrite (wrap_u_id 32) by lia. rewrite awrite_Ok by lia.
    eexists. split; [done|]. split; [by rewrite length_insert|]. split.
    + intros k Hki. destruct (decide (k = i)) as [->|].
      * rewrite list_lookup_insert_eq by lia. rewrite <- Hb. by apply Hk; lia.
      * rewrite list_lookup_insert_ne by lia. apply Hc. lia.
    + intros k Hki. rewrite list_lookup_insert_ne by lia. by apply Hk.
Qed.

(** The cells a push keeps. *)
Definition kept (c : LtageCfg) (pt k : Z) : Prop :=
  0 <= k < histBufferSize c /\ k <> (pt - 1) mod ring c /\ (pt = 0 -> k < ring c).

Lemma updateGHist_ok c tab pt d :
  hist_cfg_ok c -> Z.of_nat (length tab) = histBufferSize c -> 0 <= pt < ring c ->
  exists tab', updateGHist c pt d tab pt = Ok ((pt - 1) mod ring c, tab', (pt - 1) mod ring c) /\
    length tab' = length tab /\
    tab' !! Z.to_nat ((pt - 1) mod ring c) = Some (outcome d) /\
    window tab' ((pt - 1) mod ring c + 1) (maxHist c) = window tab pt (maxHist c) /\
    (forall k, kept c pt k -> tab' !! Z.to_nat k = tab !! Z.to_nat k).
Proof.
  intros Hc Hlen Hpt. destruct Hc as [Hm Hs Hsh] eqn:Ec. clear Ec. unfold updateGHist, kept.
  rewrite mod_ring by lia. unfold ring in *. destruct (Z.eqb_spec pt 0) as [->|Hnz].
  - destruct (rollover_ok c tab (Build_hist_cfg_ok c Hm Hs Hsh) Hlen) as (t1 & -> & Hl & Hcp & Hk).
    cbn [mbind res_bind]. rewrite (wrap_u_id 32) by lia. rewrite (wrap_s_id 32) by lia.
    rewrite awrite_Ok by lia. cbn [mbind res_bind]. replace (1 <=? 0) with false by done.
    replace (0 - 1 + (histBufferSize c - maxHist c)) with (histBufferSize c - maxHist c - 1) by lia.
    eexists. split; [done|]. rewrite length_insert. split; [done|].
    rewrite list_lookup_insert_eq by lia. split; [done|]. split.
    + apply list_eq. intros k. destruct (decide (k < Z.to_nat (maxHist c))%nat) as [H|H].
      * rewrite !window_lookup by lia. rewrite list_lookup_insert_ne by lia.
        specialize (Hcp (Z.of_nat k) ltac:(lia)). rewrite Nat2Z.id in Hcp. simpl. rewrite <- Hcp. f_equal. unfold ring. lia.
      * unfold window. by rewrite !lookup_take_ge by lia.
    + intros k (Hk1 & Hk2 & Hk3). rewrite list_lookup_insert_ne by lia. apply Hk. unfold ring. lia.
  - cbn [mbind res_bind]. rewrite awrite_Ok by lia. cbn [mbind res_bind].
    destruct (Z.leb_spec 1 pt); [|lia]. eexists. split; [done|]. rewrite length_insert. split; [done|].
    rewrite list_lookup_insert_eq by lia. split; [done|]. split.
    + replace (pt - 1 + 1) with pt by lia. apply window_ext; [lia..|]. intros k Hk.
      by rewrite list_lookup_insert_ne by lia.
    + intros k (Hk1 & Hk2 & _). by rewrite list_lookup_insert_ne by lia.
Qed.

(** ** The operations on a history implement the abstract ones *)

Section Histories.
Context (c : LtageCfg) (Hc : hist_cfg_ok c).

Lemma ring_pos : 1 <= maxHist c < ring c /\ ring c + maxHist c = histBufferSize c.
Proof. destruct Hc. unfold ring. lia. Qed.

(** The outcomes before a branch in flight are not overwritten ... *)
Lemma entry_kept tab tab' cur cur' f f' b :
  entry_ok c tab cur f b -> before f' = before f -> path_after f' = path_after f ->
  0 <= age f' <= max_ahead c -> cur' = (b_ptGhist b - age f') mod ring c ->
  (forall k, b_ptGhist b + 1 <= k < b_ptGhist b + 1 + maxHist c -> tab' !! Z.to_nat k = tab !! Z.to_nat k) ->
  entry_ok c tab' cur' f' b.
Proof.
  intros [Hp _ Ha Hb Hpa Hf] Eb Ep Ha' -> Hk. split; [done|done|done| |by rewrite Ep|by rewrite Eb].
  rewrite Eb, <- Hb. destruct Hc. apply window_ext; [lia|lia|done].
Qed.

(** ... by the next outcome, nor by rewriting one younger than the branch. *)
Lemma entry_kept_push tab cur f b k :
  entry_ok c tab cur f b -> age f < max_ahead c ->
  b_ptGhist b + 1 <= k < b_ptGhist b + 1 + maxHist c -> kept c cur k.
Proof.
  intros [Hp Hcur Ha _ _ _] Hlt Hk. pose proof ring_pos. destruct Hc as [Hm _ _]. unfold max_ahead in *.
  assert (Hnext : (cur - 1) mod ring c = (b_ptGhist b - (age f + 1)) mod ring c).
  { rewrite Hcur, Zminus_mod_idemp_l. f_equal. lia. }
  rewrite mod_ring in Hcur by lia. unfold kept. rewrite Hnext, mod_ring by lia.
  destruct (Z.leb_spec (age f) (b_ptGhist b)), (Z.leb_spec (age f + 1) (b_ptGhist b)); lia.
Qed.

Lemma entry_kept_write tab cur f b k i :
  entry_ok c tab cur f b -> 0 <= i <= age f ->
  b_ptGhist b + 1 <= k < b_ptGhist b + 1 + maxHist c -> k <> (b_ptGhist b - i) mod ring c.
Proof.
  intros [Hp _ Ha _ _ _] Hi Hk. pose proof ring_pos. unfold max_ahead in *.
  rewrite mod_ring by lia. destruct (Z.leb_spec i (b_ptGhist b)); lia.
Qed.

Lemma ages_older k fl : StronglySorted Z.lt (age <$> fl) -> StronglySorted Z.lt (age <$> (older k <$> fl)).
Proof.
  induction fl as [|f fl IH]; cbn; intros H; [constructor|]. apply StronglySorted_inv in H as [H1 H2].
  constructor; [by apply IH|]. rewrite !Forall_fmap in *. eapply Forall_impl; [exact H2|]. cbn. lia.
Qed.

Lemma ages_drop k fl : StronglySorted Z.lt (age <$> fl) -> StronglySorted Z.lt (age <$> drop k fl).
Proof.
  revert k. induction fl as [|f fl IH]; intros [|k] H; try done. cbn in *.
  apply StronglySorted_inv in H as [H1 H2]. by apply IH.
Qed.

Lemma ages_take k fl : StronglySorted Z.lt (age <$> fl) -> StronglySorted Z.lt (age <$> take k fl).
Proof.
  revert k. induction fl as [|f fl IH]; intros [|k] H; cbn in *; try constructor.
  - apply IH. by apply StronglySorted_inv in H as [H1 H2].
  - apply StronglySorted_inv in H as [H1 H2]. rewrite fmap_take. by apply Forall_take.
Qed.

Lemma StronglySorted_drop_lt fl i j f g :
  StronglySorted Z.lt (age <$> fl) -> fl !! i = Some f -> fl !! j = Some g -> (i < j)%nat -> age f < age g.
Proof.
  intros Hs Hf Hg Hij. revert i j Hf Hg Hij. induction fl as [|x fl IH]; intros [|i] [|j] Hf Hg Hij; try (done || lia).
  - cbn in *. injection Hf as <-. apply StronglySorted_inv in Hs as [_ Hs]. rewrite Forall_fmap in Hs.
    by eapply Forall_lookup_1 in Hs.
  - cbn in *. apply StronglySorted_inv in Hs as [Hs _]. eapply IH; [exact Hs|exact Hf|exact Hg|lia].
Qed.

Lemma pathbit_mod pc : Z.b2z (negb (Z.land pc 1 =? 0)) = pc mod 2.
Proof.
  change 1 with (Z.ones 1) at 1. rewrite Z.land_ones by lia. change (2 ^ 1) with 2.
  pose proof (Z.mod_pos_bound pc 2 ltac:(lia)). destruct (Z.eqb_spec (pc mod 2) 0); cbn; lia.
Qed.

Lemma shift_path_ok p pc :
  Z.land (Z.shiftl p 1 + Z.b2z (negb (Z.land pc 1 =? 0))) (2 ^ 16 - 1) = shift_path p pc.
Proof.
  rewrite pathbit_mod, Z.sub_1_r, <- Z.ones_equiv, Z.land_ones, Z.shiftl_mul_pow2 by lia.
  unfold shift_path. f_equal. lia.
Qed.

Lemma outcome_bit b : is_bit (outcome b).
Proof. destruct b; [by right|by left]. Qed.

(** A window that starts with a cell just written. *)
Lemma window_take tab i x w :
  0 <= i -> tab !! Z.to_nat i = Some x -> window tab (i + 1) (maxHist c) = w ->
  window tab i (maxHist c) = take (Z.to_nat (maxHist c)) (x :: w).
Proof.
  intros Hi Hx <-. destruct Hc as [Hm _ _]. rewrite (window_cons tab i _ x) by (done || lia).
  replace (Z.to_nat (maxHist c)) with (S (Z.to_nat (maxHist c - 1))) by lia. cbn [take]. f_equal.
  symmetry. apply window_prefix. lia.
Qed.

Lemma insert_bits tab i x : Forall is_bit tab -> is_bit x -> Forall is_bit (<[i:=x]> tab).
Proof. intros. by apply Forall_insert. Qed.

Lemma push_bits tab tab' pt :
  Forall is_bit tab -> 0 <= pt < ring c -> Z.of_nat (length tab) = histBufferSize c ->
  length tab' = length tab -> (exists x, tab' !! Z.to_nat ((pt - 1) mod ring c) = Some (outcome x)) ->
  window tab' ((pt - 1) mod ring c + 1) (maxHist c) = window tab pt (maxHist c) ->
  (forall k, kept c pt k -> tab' !! Z.to_nat k = tab !! Z.to_nat k) -> Forall is_bit tab'.
Proof.
  intros Hb Hpt Hlen Hl (x & Hx) Hw Hk. apply Forall_lookup. intros i y Hy.
  pose proof (lookup_lt_Some _ _ _ Hy) as Hi. pose proof ring_pos as [Hr1 Hr2].
  destruct (decide (i = Z.to_nat ((pt - 1) mod ring c))) as [->|Hne].
  { rewrite Hx in Hy. injection Hy as <-. apply outcome_bit. }
  pose proof (mod_ring (ring c) pt 1 Hpt ltac:(lia)) as Hm.
  destruct (decide (pt = 0 /\ ring c <= Z.of_nat i)) as [[-> Hge]|Hn].
  - replace (1 <=? 0) with false in Hm by done. rewrite Hm in Hw.
    assert (Hy' : window tab' (0 - 1 + ring c + 1) (maxHist c) !! (i - Z.to_nat (ring c))%nat = Some y).
    { rewrite window_lookup by lia. by replace (Z.to_nat (0 - 1 + ring c + 1) + (i - Z.to_nat (ring c)))%nat with i by lia. }
    rewrite Hw in Hy'. eapply Forall_lookup_1; [|exact Hy']. by apply window_bits.
  - specialize (Hk (Z.of_nat i)). rewrite Nat2Z.id in Hk. rewrite Hk in Hy.
    + by eapply Forall_lookup_1 in Hb.
    + unfold kept. rewrite Hm. split_and!; lia.
Qed.

(** [updateHistories]. *)
Lemma push_history_ok t fl a pc d :
  hist_inv c t fl a -> Forall (fun f => age f < max_ahead c) (flight a) ->
  exists b t', push_history c t pc d = Ok (b, t') /\ hist_inv c t' (b :: fl) (spec_push c a pc d).
Proof.
  intros [Hlen Hb Hpt Hptr Hnow Hpath Hfs Hfl Hag] Hroom. unfold push_history. rewrite Hptr, Hpath.
  destruct (updateGHist_ok c _ _ d Hc Hlen Hpt) as (tab' & -> & Hl & Hd & Hw & Hk).
  cbn [mbind res_bind]. rewrite shift_path_ok. pose proof ring_pos as [Hr1 Hr2].
  set (np := (ptGhist t - 1) mod ring c) in *.
  assert (Hnp : 0 <= np < ring c) by (apply Z.mod_pos_bound; lia).
  assert (Hb' : Forall is_bit tab') by (eapply (push_bits _ _ (ptGhist t) Hb); [done..|by exists d|exact Hw|exact Hk]).
  destruct (advance_folds_ok (maxHist c) tab' np Hb' ltac:(lia) ltac:(lia) (shapes c) (computeFolds t))
    as (fs & -> & Hfs'); [by apply hc_shapes|by rewrite Hw, Hnow|].
  cbn [mbind res_bind]. eexists _, _. split; [done|].
  assert (Hnow' : window tab' np (maxHist c) = take (Z.to_nat (maxHist c)) (outcome d :: now a))
    by (apply window_take; [lia|done|by rewrite Hw]).
  split; cbn; try done; try lia; [by rewrite <- Hnow'| |].
  - constructor.
    + split; cbn; try done; [by rewrite Z.sub_0_r, Z.mod_small|unfold max_ahead; destruct Hc; unfold ring in *; lia|by rewrite Hw|].
      apply Forall2_fmap_r. eapply Forall2_impl; [exact Hfs|]. intros sh f. apply save_folds_ok.
    + apply Forall2_fmap_l. apply Forall2_same_length_lookup. split; [by eapply Forall2_length|].
      intros i f b Hf Hbi. pose proof (Forall2_lookup_lr _ _ _ _ _ _ Hfl Hf Hbi) as He.
      pose proof (Forall_lookup_1 _ _ _ _ Hroom Hf) as Hlt. cbn in Hlt.
      eapply entry_kept; [exact He|done|done|cbn; pose proof (en_age _ _ _ _ _ He); lia| |].
      * unfold np. rewrite (en_cur _ _ _ _ _ He), Zminus_mod_idemp_l. cbn. f_equal. lia.
      * intros k Hki. apply Hk. by eapply entry_kept_push.
  - constructor; [by apply ages_older|]. rewrite !Forall_fmap. apply Forall_lookup. intros i f Hf. cbn.
    pose proof (Forall2_lookup_l _ _ _ _ _ Hfl Hf) as (b & _ & He). pose proof (en_age _ _ _ _ _ He). lia.
Qed.

(** Rewriting the outcome of a branch at position [p], whose record says what
    came before it. *)
Lemma rewrite_outcome t b w d :
  Z.of_nat (length (globalHistory t)) = histBufferSize c -> Forall is_bit (globalHistory t) ->
  0 <= b_ptGhist b < ring c -> window (globalHistory t) (b_ptGhist b + 1) (maxHist c) = w ->
  Forall2 bank_shape (shapes c) (computeFolds t) -> Forall2 (saved_ok w) (shapes c) (b_folds b) ->
  is_bit d ->
  let tab := <[Z.to_nat (b_ptGhist b) := d]> (globalHistory t) in
  awrite (globalHistory t) (b_ptGhist b) d = Ok tab /\ Forall is_bit tab /\
  window tab (b_ptGhist b) (maxHist c) = take (Z.to_nat (maxHist c)) (d :: w) /\
  exists fs, recompute_folds tab (b_ptGhist b) (computeFolds t) (b_folds b) = Ok fs /\
    Forall2 (bank_ok (take (Z.to_nat (maxHist c)) (d :: w))) (shapes c) fs.
Proof.
  intros Hlen Hb Hp Hw Hfs Hvs Hd tab. pose proof ring_pos as [Hr1 Hr2].
  rewrite awrite_Ok by lia. split; [done|].
  assert (Hbits : Forall is_bit tab) by (by apply insert_bits).
  assert (Hw' : window tab (b_ptGhist b + 1) (maxHist c) = w).
  { rewrite <- Hw. destruct Hc. apply window_ext; [lia..|]. intros k Hk. subst tab.
    by rewrite list_lookup_insert_ne by lia. }
  assert (Hx : tab !! Z.to_nat (b_ptGhist b) = Some d) by (subst tab; rewrite list_lookup_insert_eq by lia; done).
  pose proof (window_take tab (b_ptGhist b) d w ltac:(lia) Hx Hw') as Ht.
  split; [done|]. split; [done|]. rewrite <- Ht.
  apply (recompute_folds_ok (maxHist c)); try done; try (subst tab; rewrite length_insert; lia); [lia|by apply hc_shapes|].
  by rewrite Hw'.
Qed.

Lemma hist_shapes t fl a : hist_inv c t fl a -> Forall2 bank_shape (shapes c) (computeFolds t).
Proof. intros H. eapply Forall2_impl; [exact (hi_folds _ _ _ _ H)|]. intros sh f. apply bank_ok_shape. Qed.

(** [squash(tid, taken, bp_history)] of the branch at position [k]. *)
Lemma repair_history_ok t fl a k b d :
  hist_inv c t fl a -> fl !! k = Some b ->
  exists t', repair_history t b d = Ok t' /\ hist_inv c t' (drop k fl) (spec_repair c a k d).
Proof.
  intros H Hk. pose proof (hist_shapes _ _ _ H) as Hsh. destruct H as [Hlen Hb Hpt Hptr Hnow Hpath Hfs Hfl Hag].
  destruct (Forall2_lookup_r _ _ _ _ _ Hfl Hk) as (f & Hf & He).
  destruct He as [Ep Ecur Ea Ew Epa Efo].
  destruct (rewrite_outcome t b _ (outcome d) Hlen Hb Ep Ew Hsh Efo (outcome_bit d)) as (Ea' & Hb' & Hw' & fs & Ef & Hfs').
  unfold repair_history, outcome in *. rewrite Ea'. cbn [mbind res_bind]. rewrite Ef. cbn [mbind res_bind].
  eexists. split; [done|]. unfold spec_repair. rewrite Hf. split; cbn; try done; [by rewrite length_insert| |].
  - apply Forall2_fmap_l. apply Forall2_same_length_lookup. split; [by eapply Forall2_length, Forall2_drop|].
    intros i g x Hg Hx. rewrite lookup_drop in Hg; rewrite lookup_drop in Hx.
    pose proof (Forall2_lookup_lr _ _ _ _ _ _ Hfl Hg Hx) as Hex.
    pose proof (en_age _ _ _ _ _ Hex) as Hga. pose proof (en_pt _ _ _ _ _ Hex) as Hgp.
    assert (Hle : (i = 0)%nat /\ age g = age f /\ b_ptGhist x = b_ptGhist b \/ age f < age g).
    { destruct i as [|i]; [left|right].
      - rewrite Nat.add_0_r in Hg; rewrite Nat.add_0_r in Hx. rewrite Hf in Hg. injection Hg as <-. rewrite Hk in Hx. by injection Hx as <-.
      - apply (StronglySorted_drop_lt _ _ _ _ _ Hag Hf Hg). lia. }
    assert (Hpos : b_ptGhist b = (b_ptGhist x - (age g - age f)) mod ring c).
    { pose proof (en_cur _ _ _ _ _ Hex) as Hcx. rewrite Ecur in Hcx.
      pose proof ring_pos as [Hr1 _]. destruct Hc.
      rewrite <- (Z.mod_small (b_ptGhist b) (ring c)) at 1 by done.
      replace (b_ptGhist b) with (b_ptGhist b - age f + age f) by lia.
      rewrite <- Z.add_mod_idemp_l, Hcx, Z.add_mod_idemp_l by lia. f_equal. lia. }
    eapply entry_kept; [exact Hex|done|done|cbn; lia|cbn; rewrite Hpos at 1; f_equal; lia|].
    intros j Hj. rewrite list_lookup_insert_ne; [done|].
    pose proof (entry_kept_write _ _ _ _ j (age g - age f) Hex ltac:(lia) Hj) as Hne. rewrite <- Hpos in Hne.
    destruct Hc. lia.
  - apply ages_older, ages_drop, Hag.
Qed.

(** [btbUpdate] of the branch just predicted. *)
Lemma reset_last_ok t fl a b :
  hist_inv c t (b :: fl) a -> head (age <$> flight a) = Some 0 ->
  exists t', reset_last t b = Ok t' /\ hist_inv c t' (b :: fl) (spec_reset c a).
Proof.
  intros H Hyoung. pose proof (hist_shapes _ _ _ H) as Hsh. destruct H as [Hlen Hb Hpt Hptr Hnow Hpath Hfs Hfl Hag].
  unfold spec_reset. destruct (flight a) as [|f fa] eqn:Efl; [done|]. injection Hyoung as Hf0.
  apply Forall2_cons in Hfl as [He Hfl]. pose proof He as [Ep Ecur Ea Ew Epa Efo].
  rewrite Hf0, Z.sub_0_r, Z.mod_small in Ecur by done.
  destruct (rewrite_outcome t b _ 0 Hlen Hb Ep Ew Hsh Efo (outcome_bit false)) as (Ea' & Hb' & Hw' & fs & Ef & Hfs').
  unfold reset_last. rewrite Hptr, Z.eqb_refl, Ecur, Ea'. cbn [mbind res_bind]. rewrite Ef. cbn [mbind res_bind].
  eexists. split; [done|]. split; cbn; try done; [by rewrite length_insert|].
  constructor.
  - eapply entry_kept; [exact He|done..|cbn; by rewrite Hf0, Z.sub_0_r, Z.mod_small|].
    intros j Hj. by rewrite list_lookup_insert_ne by lia.
  - apply Forall2_same_length_lookup. split; [by eapply Forall2_length|].
    intros i g x Hg Hx. pose proof (Forall2_lookup_lr _ _ _ _ _ _ Hfl Hg Hx) as Hex.
    pose proof (en_age _ _ _ _ _ Hex) as Hga.
    assert (Hcx : b_ptGhist b = (b_ptGhist x - age g) mod ring c) by (rewrite <- Ecur; apply Hex).
    eapply entry_kept; [exact Hex|done..|].
    intros j Hj. rewrite list_lookup_insert_ne; [done|].
    pose proof (entry_kept_write _ _ _ _ j (age g) Hex ltac:(lia) Hj) as Hne. rewrite <- Hcx in Hne.
    pose proof (en_pt _ _ _ _ _ Hex). lia.
Qed.

Lemma drop_history_ok t fl a k : hist_inv c t fl a -> hist_inv c t (drop k fl) (spec_drop a k).
Proof. intros []. split; cbn; try done; [by apply Forall2_drop|by apply ages_drop]. Qed.

Lemma retire_history_ok t fl a b : hist_inv c t (fl ++ [b]) a -> hist_inv c t fl (spec_retire a).
Proof.
  intros [Hlen Hb Hpt Hptr Hnow Hpath Hfs Hfl Hag]. split; cbn; try done; [|by apply ages_take].
  rewrite (Forall2_length _ _ _ Hfl), length_app. cbn [length].
  replace (pred (length fl + 1)) with (length fl) by lia.
  rewrite <- (take_app_length fl [b]) at 2. by apply Forall2_take.
Qed.
End Histories.
