(* ===== verification/Ltage.v ===== *)
(** The L-TAGE predictor of src/cpu/pred/ltage.hh and ltage.cc: a bimodal
    table, partially tagged tables indexed with ever longer histories, and a
    loop predictor.  The histories are in [LtageHist]; this file holds the
    tables and the functions of [BPredUnit] that [LTAGE] overrides. *)
From S2P Require Import Prelude Bitfield DirPred LtageHist.

(** * Data *)

Abbreviation u16 := (wrap_u 16).
Abbreviation s64 := (wrap_s 64).

Record LoopEntry := {
  numIter : Z; currentIter : Z; currentIterSpec : Z; confidence : Z;
  l_tag : Z; l_age : Z; l_dir : bool }.
Definition LoopEntry_new : LoopEntry :=
  {| numIter := 0; currentIter := 0; currentIterSpec := 0; confidence := 0;
     l_tag := 0; l_age := 0; l_dir := false |}.

Record BimodalEntry := { b_pred : Z; b_hyst : Z }.
Definition BimodalEntry_new : BimodalEntry := {| b_pred := 0; b_hyst := 1 |}.

Record TageEntry := { ctr : Z; g_tag : Z; u : Z }.
Definition TageEntry_new : TageEntry := {| ctr := 0; g_tag := 0; u := 0 |}.

(** [struct BranchInfo], in three parts.  The arrays are not initialised: [None]
    is what the allocation left there. *)
Record TagePred := {
  hitBank : Z; hitBankIndex : Z; altBank : Z; altBankIndex : Z; bimodalIndex : Z;
  tagePred : bool; altTaken : bool; longestMatchPred : bool; pseudoNewAlloc : bool;
  bi_tableIndices : list (option Z); bi_tableTags : list (option Z) }.
Record LoopPred := {
  loopTag : Z; bi_currentIter : Z; loopPred : bool; loopPredValid : bool;
  loopIndex : Z; loopHit : Z }.
Record BranchInfo := {
  bi_tage : TagePred; bi_loop : LoopPred; bi_hist : SavedHist; condBranch : bool; branchPC : Z }.
(** [void *bp_history] *)
Abbreviation bp_ptr := (option BranchInfo).

(** [BranchInfo(nHistoryTables + 1)], then [loopHit = -1] as [predict] does. *)
Definition TagePred_new (n : Z) : TagePred :=
  {| hitBank := 0; hitBankIndex := 0; altBank := 0; altBankIndex := 0; bimodalIndex := 0;
     tagePred := false; altTaken := false; longestMatchPred := false; pseudoNewAlloc := false;
     bi_tableIndices := replicate (Z.to_nat n) None; bi_tableTags := replicate (Z.to_nat n) None |}.
Definition LoopPred_new : LoopPred :=
  {| loopTag := 0; bi_currentIter := 0; loopPred := false; loopPredValid := false;
     loopIndex := 0; loopHit := -1 |}.
Definition SavedHist_new (n : Z) : SavedHist :=
  {| b_pathHist := 0; b_ptGhist := 0; b_folds := replicate (Z.to_nat n) None |}.

Record LTAGE := {
  cfg : LtageCfg;
  btable : list BimodalEntry;
  gtable : list (list TageEntry);
  ltable : list LoopEntry;
  threadHistory : list ThreadHistory;
  tableIndices : list (option Z);
  tableTags : list (option Z);
  loopUseCounter : Z;
  useAltPredForNewlyAllocated : Z;
  tCounter : Z }.

Definition with_btable (s : LTAGE) v :=
  {| cfg := cfg s; btable := v; gtable := gtable s; ltable := ltable s; threadHistory := threadHistory s;
     tableIndices := tableIndices s; tableTags := tableTags s; loopUseCounter := loopUseCounter s;
     useAltPredForNewlyAllocated := useAltPredForNewlyAllocated s; tCounter := tCounter s |}.
Definition with_gtable (s : LTAGE) v :=
  {| cfg := cfg s; btable := btable s; gtable := v; ltable := ltable s; threadHistory := threadHistory s;
     tableIndices := tableIndices s; tableTags := tableTags s; loopUseCounter := loopUseCounter s;
     useAltPredForNewlyAllocated := useAltPredForNewlyAllocated s; tCounter := tCounter s |}.
Definition with_ltable (s : LTAGE) v :=
  {| cfg := cfg s; btable := btable s; gtable := gtable s; ltable := v; threadHistory := threadHistory s;
     tableIndices := tableIndices s; tableTags := tableTags s; loopUseCounter := loopUseCounter s;
     useAltPredForNewlyAllocated := useAltPredForNewlyAllocated s; tCounter := tCounter s |}.
Definition with_threads (s : LTAGE) v :=
  {| cfg := cfg s; btable := btable s; gtable := gtable s; ltable := ltable s; threadHistory := v;
     tableIndices := tableIndices s; tableTags := tableTags s; loopUseCounter := loopUseCounter s;
     useAltPredForNewlyAllocated := useAltPredForNewlyAllocated s; tCounter := tCounter s |}.
Definition with_scratch (s : LTAGE) i t :=
  {| cfg := cfg s; btable := btable s; gtable := gtable s; ltable := ltable s; threadHistory := threadHistory s;
     tableIndices := i; tableTags := t; loopUseCounter := loopUseCounter s;
     useAltPredForNewlyAllocated := useAltPredForNewlyAllocated s; tCounter := tCounter s |}.
Definition with_loopUse (s : LTAGE) v :=
  {| cfg := cfg s; btable := btable s; gtable := gtable s; ltable := ltable s; threadHistory := threadHistory s;
     tableIndices := tableIndices s; tableTags := tableTags s; loopUseCounter := v;
     useAltPredForNewlyAllocated := useAltPredForNewlyAllocated s; tCounter := tCounter s |}.
Definition with_useAlt (s : LTAGE) v :=
  {| cfg := cfg s; btable := btable s; gtable := gtable s; ltable := ltable s; threadHistory := threadHistory s;
     tableIndices := tableIndices s; tableTags := tableTags s; loopUseCounter := loopUseCounter s;
     useAltPredForNewlyAllocated := v; tCounter := tCounter s |}.
Definition with_tCounter (s : LTAGE) v :=
  {| cfg := cfg s; btable := btable s; gtable := gtable s; ltable := ltable s; threadHistory := threadHistory s;
     tableIndices := tableIndices s; tableTags := tableTags s; loopUseCounter := loopUseCounter s;
     useAltPredForNewlyAllocated := useAltPredForNewlyAllocated s; tCounter := v |}.

(** * Construction *)

Record LTAGEParams := {
  p_numThreads : Z; p_logSizeBiMP : Z; p_logSizeTagTables : Z; p_logSizeLoopPred : Z;
  p_nHistoryTables : Z; p_tagTableCounterBits : Z; p_histBufferSize : Z;
  p_minHist : Z; p_maxHist : Z; p_minTagWidth : Z }.

(** [(ULL(1) << k) - 1] *)
Definition ull_mask (k : Z) : res Z := defined! (0 <=? k) && (k <? 64) ;; Ok (2 ^ k - 1).

Definition tag_widths (m : Z) : list Z :=
  [m; m; m + 1; m + 1; m + 2; m + 3; m + 4; m + 5; m + 5; m + 6; m + 7; m + 8].
Definition tag_table_sizes (l : Z) : list Z :=
  [l - 1; l - 1; l; l; l; l; l - 1; l - 1; l - 1; l - 1; l - 2; l - 2].

(** [geometric i] is the length the constructor computes with [pow] in
    floating point for bank [i >= 2]; that of the last bank overwrites
    [maxHist]. *)
Definition hist_lengths (p : LTAGEParams) (geometric : Z -> Z) : list Z :=
  (if p_nHistoryTables p =? 1 then p_maxHist p else p_minHist p)
    :: (geometric <$> seqZ 2 (p_nHistoryTables p - 1)).

Definition LTAGE_cfg (p : LTAGEParams) (geometric : Z -> Z) : LtageCfg :=
  {| logSizeBiMP := p_logSizeBiMP p; logSizeTagTables := p_logSizeTagTables p;
     logSizeLoopPred := p_logSizeLoopPred p; nHistoryTables := p_nHistoryTables p;
     tagTableCounterBits := p_tagTableCounterBits p; histBufferSize := p_histBufferSize p;
     minHist := p_minHist p; maxHist := p_maxHist p; minTagWidth := p_minTagWidth p;
     tagWidths := tag_widths (p_minTagWidth p); tagTableSizes := tag_table_sizes (p_logSizeTagTables p);
     histLengths := hist_lengths p geometric; logTick := 19 |}.

(** The three [init] calls of bank [i]. *)
Definition bank_init (c : LtageCfg) (i : Z) : res Folds :=
  hl ← bread (histLengths c) i;
  tts ← bread (tagTableSizes c) i;
  a ← FoldedHistory_init hl tts;
  tw ← bread (tagWidths c) i;
  b ← FoldedHistory_init (origLength a) tw;
  d ← FoldedHistory_init (origLength a) (tw - 1);
  Ok {| computeIndices := a; computeTags0 := b; computeTags1 := d |}.

Definition banks (c : LtageCfg) : list Z := seqZ 1 (nHistoryTables c).

(** [new TageEntry[1 << tagTableSizes[i]]] *)
Definition bank_table (c : LtageCfg) (i : Z) : res (list TageEntry) :=
  tts ← bread (tagTableSizes c) i;
  defined! (0 <=? tts) && (tts <? 31) ;;
  Ok (replicate (Z.to_nat (2 ^ tts)) TageEntry_new).

Definition LTAGE_new (p : LTAGEParams) (geometric : Z -> Z) : res LTAGE :=
  assert! u32 (p_maxHist p * 2) <? p_histBufferSize p ;;
  defined! 1 <=? p_nHistoryTables p ;;
  let c := LTAGE_cfg p geometric in
  fs ← mapM (bank_init c) (banks c);
  let t := {| pathHist := 0; globalHistory := replicate (Z.to_nat (p_histBufferSize p)) 0;
              gHist := 0; ptGhist := 0; computeFolds := fs |} in
  bm ← ull_mask (p_logSizeBiMP p);
  lm ← ull_mask (p_logSizeLoopPred p);
  gt ← mapM (bank_table c) (banks c);
  Ok {| cfg := c;
        btable := replicate (Z.to_nat (bm + 1)) BimodalEntry_new; gtable := gt;
        ltable := replicate (Z.to_nat (lm + 1)) LoopEntry_new;
        threadHistory := replicate (Z.to_nat (p_numThreads p)) t;
        tableIndices := replicate (Z.to_nat (p_nHistoryTables p)) None;
        tableTags := replicate (Z.to_nat (p_nHistoryTables p)) None;
        loopUseCounter := 0; useAltPredForNewlyAllocated := 0; tCounter := 2 ^ (19 - 1) |}.

(** * Hashing *)

Section Shifts.
(** [shift_undef a n]: what the machine gives for a shift of an [int] by an
    amount that is negative or at least 32, which C++ leaves undefined. *)
Context (shift_undef : Z -> Z -> Z).

Definition shr_int (a n : Z) : Z :=
  if (0 <=? n) && (n <? 32) then Z.shiftr a n else s32 (shift_undef a n).
Definition shl_int (a n : Z) : Z :=
  if (0 <=? n) && (n <? 32) then s32 (Z.shiftl a n) else s32 (shift_undef a n).

Definition bindex (s : LTAGE) (pc_in : Z) : res Z :=
  m ← ull_mask (logSizeBiMP (cfg s)); Ok (s32 (Z.land pc_in m)).
Definition lindex (s : LTAGE) (pc_in : Z) : res Z :=
  m ← ull_mask (u32 (logSizeLoopPred (cfg s) - 2)); Ok (s32 (u64 (Z.shiftl (Z.land pc_in m) 2))).

Definition F (c : LtageCfg) (A size bank : Z) : res Z :=
  m ← ull_mask size;
  tts ← bread (tagTableSizes c) bank;
  mt ← ull_mask tts;
  let A := s32 (Z.land A m) in
  let A1 := s32 (Z.land A mt) in
  let A2 := shr_int A tts in
  let A2 := s32 (Z.land (shl_int A2 bank) mt + shr_int A2 (tts - bank)) in
  let A := Z.lxor A1 A2 in
  Ok (s32 (Z.land (shl_int A bank) mt + shr_int A (tts - bank))).

Definition gindex (s : LTAGE) (tid pc bank : Z) : res Z :=
  hl ← bread (histLengths (cfg s)) bank;
  let hlen := if 16 <? hl then 16 else hl in
  tts ← bread (tagTableSizes (cfg s)) bank;
  t ← aread (threadHistory s) tid;
  f ← bread (computeFolds t) bank;
  p ← shr64 pc (Z.abs (tts - bank) + 1);
  a ← F (cfg s) (pathHist t) hlen bank;
  let index := s32 (Z.lxor (Z.lxor (Z.lxor pc p) (comp (computeIndices f))) a) in
  m ← ull_mask tts;
  Ok (s32 (Z.land index m)).

Definition gtag (s : LTAGE) (tid pc bank : Z) : res Z :=
  t ← aread (threadHistory s) tid;
  f ← bread (computeFolds t) bank;
  let tag := s32 (Z.lxor (Z.lxor pc (comp (computeTags0 f)))
                         (u32 (Z.shiftl (comp (computeTags1 f)) 1))) in
  tw ← bread (tagWidths (cfg s)) bank;
  m ← ull_mask tw;
  Ok (u16 (Z.land tag m)).

(** * Counters and the bimodal table *)

Definition ctrUpdate (c : Z) (taken : bool) (nbits : Z) : res Z :=
  assert! (0 <=? nbits) && (nbits <=? 8) ;;
  defined! 1 <=? nbits ;;
  Ok (if taken then if c <? 2 ^ (nbits - 1) - 1 then s8 (c + 1) else c
      else if - 2 ^ (nbits - 1) <? c then s8 (c - 1) else c).

Definition getBimodePred (s : LTAGE) (idx : Z) : res bool :=
  e ← aread (btable s) idx; Ok (0 <? b_pred e).

Definition baseUpdate (s : LTAGE) (idx : Z) (taken : bool) : res LTAGE :=
  e ← aread (btable s) idx;
  let inter := Z.shiftl (b_pred e) 1 + b_hyst e in
  let inter := if taken then if inter <? 3 then inter + 1 else inter
               else if 0 <? inter then inter - 1 else inter in
  t ← awrite (btable s) idx {| b_pred := u8 (Z.shiftr inter 1); b_hyst := u8 (Z.land inter 1) |};
  Ok (with_btable s t).

(** * The loop predictor *)

(** The four ways, from way [i] on; [n] are left. *)
Fixpoint getLoop_ways (t : list LoopEntry) (idx tag i : Z) (n : nat) : res (LoopPred * bool) :=
  match n with
  | O => Ok ({| loopTag := tag; bi_currentIter := 0; loopPred := false; loopPredValid := false;
                loopIndex := idx; loopHit := -1 |}, false)
  | S n =>
    e ← aread t (idx + i);
    if l_tag e =? tag then
      Ok ({| loopTag := tag; bi_currentIter := currentIterSpec e; loopPred := false;
             loopPredValid := 3 <=? confidence e; loopIndex := idx; loopHit := i |},
          if currentIterSpec e + 1 =? numIter e then negb (l_dir e) else l_dir e)
    else getLoop_ways t idx tag (i + 1) n
  end.

(** [bi->loopPred = getLoop(pc, bi)] *)
Definition getLoop (s : LTAGE) (pc : Z) : res LoopPred :=
  idx ← lindex s pc;
  t ← shr64 pc (u32 (logSizeLoopPred (cfg s) - 2));
  '(lp, dir) ← getLoop_ways (ltable s) idx (s32 t) 0 4;
  Ok {| loopTag := loopTag lp; bi_currentIter := bi_currentIter lp; loopPred := dir;
        loopPredValid := loopPredValid lp; loopIndex := loopIndex lp; loopHit := loopHit lp |}.

Definition set_spec (e : LoopEntry) (v : Z) : LoopEntry :=
  {| numIter := numIter e; currentIter := currentIter e; currentIterSpec := v;
     confidence := confidence e; l_tag := l_tag e; l_age := l_age e; l_dir := l_dir e |}.

Definition specLoopUpdate (s : LTAGE) (pc : Z) (taken : bool) (lp : LoopPred) : res LTAGE :=
  if 0 <=? loopHit lp then
    index ← lindex s pc;
    e ← aread (ltable s) index;
    let v := if negb (eqb taken (l_dir e)) then 0 else u16 (currentIterSpec e + 1) in
    t ← awrite (ltable s) index (set_spec e v);
    Ok (with_ltable s t)
  else Ok s.

(** The three assignments that free an entry. *)
Definition loop_free (e : LoopEntry) : LoopEntry :=
  {| numIter := 0; currentIter := currentIter e; currentIterSpec := currentIterSpec e;
     confidence := 0; l_tag := l_tag e; l_age := 0; l_dir := l_dir e |}.
Definition set_currentIter (e : LoopEntry) (v : Z) : LoopEntry :=
  {| numIter := numIter e; currentIter := v; currentIterSpec := currentIterSpec e;
     confidence := confidence e; l_tag := l_tag e; l_age := l_age e; l_dir := l_dir e |}.
Definition set_confidence (e : LoopEntry) (v : Z) : LoopEntry :=
  {| numIter := numIter e; currentIter := currentIter e; currentIterSpec := currentIterSpec e;
     confidence := v; l_tag := l_tag e; l_age := l_age e; l_dir := l_dir e |}.
Definition set_numIter (e : LoopEntry) (v : Z) : LoopEntry :=
  {| numIter := v; currentIter := currentIter e; currentIterSpec := currentIterSpec e;
     confidence := confidence e; l_tag := l_tag e; l_age := l_age e; l_dir := l_dir e |}.
Definition set_age (e : LoopEntry) (v : Z) : LoopEntry :=
  {| numIter := numIter e; currentIter := currentIter e; currentIterSpec := currentIterSpec e;
     confidence := confidence e; l_tag := l_tag e; l_age := v; l_dir := l_dir e |}.
Definition set_dir (e : LoopEntry) (v : bool) : LoopEntry :=
  {| numIter := numIter e; currentIter := currentIter e; currentIterSpec := currentIterSpec e;
     confidence := confidence e; l_tag := l_tag e; l_age := l_age e; l_dir := v |}.

(** One more iteration, and the end of the loop when [taken] differs from the
    direction of the body. *)
Definition loop_iterate (e : LoopEntry) (taken : bool) : LoopEntry :=
  let e := set_currentIter e (u16 (currentIter e + 1)) in
  let e := if numIter e <? currentIter e then
             let e := set_confidence e 0 in
             if negb (numIter e =? 0) then loop_free e else e
           else e in
  if negb (eqb taken (l_dir e)) then
    let e :=
      if currentIter e =? numIter e then
        let e := if confidence e <? 7 then set_confidence e (confidence e + 1) else e in
        if numIter e <? 3 then loop_free (set_dir e taken) else e
      else if numIter e =? 0 then set_numIter (set_confidence e 0) (currentIter e)
      else loop_free e in
    set_currentIter e 0
  else e.

(** [loopUpdate] of the entry that was hit. *)
Definition loop_hit_update (e : LoopEntry) (taken : bool) (lp : LoopPred) (tage_pred : bool)
  : LoopEntry :=
  if loopPredValid lp && negb (eqb taken (loopPred lp)) then set_currentIter (loop_free e) 0
  else
    let e := if loopPredValid lp && negb (eqb (loopPred lp) tage_pred) && (l_age e <? 7)
             then set_age e (l_age e + 1) else e in
    loop_iterate e taken.

(** The search for an entry of age 0, from [i] on; [n] ways are left. *)
Fixpoint loop_alloc (t : list LoopEntry) (lp : LoopPred) (taken : bool) (nrand i : Z) (n : nat)
  : res (list LoopEntry) :=
  match n with
  | O => Ok t
  | S n =>
    r ← int_ok (nrand + i);
    let idx := loopIndex lp + Z.land r 3 in
    e ← aread t idx;
    if l_age e =? 0 then
      awrite t idx {| numIter := 0; currentIter := 1; currentIterSpec := currentIterSpec e;
                      confidence := 0; l_tag := u16 (loopTag lp); l_age := 7; l_dir := negb taken |}
    else
      t ← awrite t idx (set_age e (u8 (l_age e - 1)));
      loop_alloc t lp taken nrand (i + 1) n
  end.

(** [nrand]: the value [random_mt.random<int>()] returns. *)
Definition loopUpdate (s : LTAGE) (taken : bool) (bi : BranchInfo) (nrand : Z) : res LTAGE :=
  let lp := bi_loop bi in
  if 0 <=? loopHit lp then
    let idx := loopIndex lp + loopHit lp in
    e ← aread (ltable s) idx;
    t ← awrite (ltable s) idx (loop_hit_update e taken lp (tagePred (bi_tage bi)));
    Ok (with_ltable s t)
  else if taken then
    t ← loop_alloc (ltable s) lp taken nrand 0 4; Ok (with_ltable s t)
  else Ok s.

(** * The tagged tables *)

Definition gread (gt : list (list TageEntry)) (i j : Z) : res TageEntry :=
  t ← bread gt i; aread t j.
Definition gwrite (gt : list (list TageEntry)) (i j : Z) (e : TageEntry) : res (list (list TageEntry)) :=
  t ← bread gt i; t ← awrite t j e; bwrite gt i t.
(** An element of an array that may not be initialised. *)
Definition oread (l : list (option Z)) (i : Z) : res Z :=
  o ← bread l i; match o with Some v => Ok v | None => Ub end.

(** [for (int i = hi; i > 0; i--)] until the tag matches: the bank, or 0. *)
Fixpoint find_bank (gt : list (list TageEntry)) (idx tags : list (option Z)) (hi : nat) : res Z :=
  match hi with
  | O => Ok 0
  | S i =>
    let bank := Z.of_nat hi in
    j ← oread idx bank; e ← gread gt bank j; t ← oread tags bank;
    if g_tag e =? t then Ok bank else find_bank gt idx tags i
  end.

(** [tableIndices[bank]] of the bank found; the field stays 0 otherwise. *)
Definition bank_index (idx : list (option Z)) (bank : Z) : res Z :=
  if 0 <? bank then oread idx bank else Ok 0.

(** The TAGE part of [predict]. *)
Definition predict_tage (s : LTAGE) (tid pc : Z) : res (TagePred * LTAGE) :=
  idx ← mapM (fun i => j ← gindex s tid pc i; Ok (Some j)) (banks (cfg s));
  tags ← mapM (fun i => t ← gtag s tid pc i; Ok (Some t)) (banks (cfg s));
  let s := with_scratch s idx tags in
  bim ← bindex s pc;
  hit ← find_bank (gtable s) idx tags (Z.to_nat (nHistoryTables (cfg s)));
  hit_index ← bank_index idx hit;
  alt ← find_bank (gtable s) idx tags (Z.to_nat (hit - 1));
  alt_index ← bank_index idx alt;
  '(alt_taken, longest, pseudo, pred) ←
    (if 0 <? hit then
       alt_taken ← (if 0 <? alt then e ← gread (gtable s) alt alt_index; Ok (0 <=? ctr e)
                    else getBimodePred s bim);
       e ← gread (gtable s) hit hit_index;
       let longest := 0 <=? ctr e in
       Ok (alt_taken, longest, Z.abs (2 * ctr e + 1) <=? 1,
           if (useAltPredForNewlyAllocated s <? 0) || (1 <? Z.abs (2 * ctr e + 1))
           then longest else alt_taken)
     else base ← getBimodePred s bim; Ok (base, base, false, base));
  Ok ({| hitBank := hit; hitBankIndex := hit_index; altBank := alt; altBankIndex := alt_index;
         bimodalIndex := bim; tagePred := pred; altTaken := alt_taken; longestMatchPred := longest;
         pseudoNewAlloc := pseudo; bi_tableIndices := idx; bi_tableTags := tags |}, s).

Definition predict (s : LTAGE) (tid branch_pc : Z) (cond_branch : bool) : res (bool * BranchInfo * LTAGE) :=
  let n := nHistoryTables (cfg s) in
  '(pred_taken, tp, lp, s) ←
    (if cond_branch then
       '(tp, s) ← predict_tage s tid branch_pc;
       lp ← getLoop s branch_pc;
       Ok (if (0 <=? loopUseCounter s) && loopPredValid lp then loopPred lp else tagePred tp, tp, lp, s)
     else Ok (true, TagePred_new n, LoopPred_new, s));
  s ← specLoopUpdate s branch_pc pred_taken lp;
  Ok (pred_taken,
      {| bi_tage := tp; bi_loop := lp; bi_hist := SavedHist_new n;
         condBranch := cond_branch; branchPC := branch_pc |}, s).

(** * Updating the tables *)

(** Whether to allocate; the choice between the longest match and the
    alternate prediction for a newly allocated entry is trained on the way. *)
Definition update_choice (s : LTAGE) (tp : TagePred) (taken : bool) : res (bool * LTAGE) :=
  let alloc := negb (eqb (tagePred tp) taken) && (hitBank tp <? nHistoryTables (cfg s)) in
  if (0 <? hitBank tp) && pseudoNewAlloc tp then
    let alloc := if eqb (longestMatchPred tp) taken then false else alloc in
    if negb (eqb (longestMatchPred tp) (altTaken tp)) then
      v ← ctrUpdate (useAltPredForNewlyAllocated s) (eqb (altTaken tp) taken) 4;
      Ok (alloc, with_useAlt s v)
    else Ok (alloc, s)
  else Ok (alloc, s).

(** The least [u] of the entries looked up above bank [hit], at most 1. *)
Definition min_useful (gt : list (list TageEntry)) (idx : list (option Z)) (n hit : Z) : res Z :=
  for_range 0 (n - hit)
    (fun k m => let i := n - k in
                j ← oread idx i; e ← gread gt i j; Ok (if u e <? m then u e else m)) 1.

(** The first bank to allocate in. *)
Definition first_bank (n hit nrand : Z) : res Z :=
  m ← ull_mask (u32 (n - hit - 1));
  let Y := Z.land nrand m in
  Ok (hit + 1 + (if Z.odd Y then if negb (Z.land Y 2 =? 0) then 2 else 1 else 0)).

(** The body of the allocating loop. *)
Definition alloc_step (tp : TagePred) (taken : bool) (i : Z) (gt : list (list TageEntry))
  : res (list (list TageEntry)) :=
  j ← oread (bi_tableIndices tp) i;
  e ← gread gt i j;
  if u e =? 0 then
    t ← oread (bi_tableTags tp) i;
    gwrite gt i j {| ctr := if taken then 0 else -1; g_tag := u16 t; u := 0 |}
  else Ok gt.

(** [nrand]: the value of [random_mt.random<int>(0,3)]. *)
Definition allocate (s : LTAGE) (tp : TagePred) (taken : bool) (nrand : Z) : res LTAGE :=
  let n := nHistoryTables (cfg s) in
  let idx := bi_tableIndices tp in
  min ← min_useful (gtable s) idx n (hitBank tp);
  X ← first_bank n (hitBank tp) nrand;
  gt ← (if 0 <? min then
          j ← oread idx X; e ← gread (gtable s) X j;
          gwrite (gtable s) X j {| ctr := ctr e; g_tag := g_tag e; u := 0 |}
        else Ok (gtable s));
  gt ← for_range X (n + 1) (alloc_step tp taken) gt;
  Ok (with_gtable s gt).

(** The periodic reset of the [u] counters. *)
Definition reset_useful (c : LtageCfg) (gt : list (list TageEntry)) : res (list (list TageEntry)) :=
  for_range 1 (nHistoryTables c + 1)
    (fun i gt =>
       tts ← bread (tagTableSizes c) i;
       m ← ull_mask tts;
       for_range 0 (m + 1)
         (fun j gt => e ← gread gt i j;
                      gwrite gt i j {| ctr := ctr e; g_tag := g_tag e; u := s8 (Z.shiftr (u e) 1) |}) gt) gt.

Definition tick (s : LTAGE) : res LTAGE :=
  t ← int_ok (tCounter s + 1);
  let s := with_tCounter s t in
  m ← ull_mask (logTick (cfg s));
  if Z.land t m =? 0 then gt ← reset_useful (cfg s) (gtable s); Ok (with_gtable s gt) else Ok s.

(** [ctrUpdate(gtable[i][j].ctr, taken, tagTableCounterBits)] *)
Definition train_entry (s : LTAGE) (i j : Z) (taken : bool) : res LTAGE :=
  e ← gread (gtable s) i j;
  v ← ctrUpdate (ctr e) taken (tagTableCounterBits (cfg s));
  gt ← gwrite (gtable s) i j {| ctr := v; g_tag := g_tag e; u := u e |};
  Ok (with_gtable s gt).

(** The entries that provided the prediction. *)
Definition train (s : LTAGE) (tp : TagePred) (taken : bool) : res LTAGE :=
  if 0 <? hitBank tp then
    s ← train_entry s (hitBank tp) (hitBankIndex tp) taken;
    e ← gread (gtable s) (hitBank tp) (hitBankIndex tp);
    s ← (if u e =? 0 then
           s ← (if 0 <? altBank tp then train_entry s (altBank tp) (altBankIndex tp) taken else Ok s);
           if altBank tp =? 0 then baseUpdate s (bimodalIndex tp) taken else Ok s
         else Ok s);
    if negb (eqb (longestMatchPred tp) (altTaken tp)) && eqb (longestMatchPred tp) taken then
      e ← gread (gtable s) (hitBank tp) (hitBankIndex tp);
      if u e <? 1 then
        gt ← gwrite (gtable s) (hitBank tp) (hitBankIndex tp)
               {| ctr := ctr e; g_tag := g_tag e; u := s8 (u e + 1) |};
        Ok (with_gtable s gt)
      else Ok s
    else Ok s
  else baseUpdate s (bimodalIndex tp) taken.

(** [update] of a conditional branch that commits. *)
Definition update_tables (s : LTAGE) (taken : bool) (bi : BranchInfo) (nrand loop_nrand : Z) : res LTAGE :=
  let tp := bi_tage bi in
  let lp := bi_loop bi in
  s ← loopUpdate s taken bi loop_nrand;
  s ← (if loopPredValid lp && negb (eqb (tagePred tp) (loopPred lp)) then
         v ← ctrUpdate (loopUseCounter s) (eqb (loopPred lp) taken) 7; Ok (with_loopUse s v)
       else Ok s);
  '(alloc, s) ← update_choice s tp taken;
  s ← (if (alloc : bool) then allocate s tp taken nrand else Ok s);
  s ← tick s;
  train s tp taken.

(** * Histories of a thread *)

Definition updateHistories (s : LTAGE) (tid branch_pc : Z) (taken : bool) (bi : BranchInfo)
  : res (BranchInfo * LTAGE) :=
  t ← aread (threadHistory s) tid;
  '(b, t) ← push_history (cfg s) t branch_pc taken;
  ths ← awrite (threadHistory s) tid t;
  Ok ({| bi_tage := bi_tage bi; bi_loop := bi_loop bi; bi_hist := b;
         condBranch := condBranch bi; branchPC := branchPC bi |}, with_threads s ths).

(** The speculative iteration count goes back. *)
Definition restore_loop (s : LTAGE) (bi : BranchInfo) : res LTAGE :=
  let lp := bi_loop bi in
  if condBranch bi && (0 <=? loopHit lp) then
    let idx := loopIndex lp + loopHit lp in
    e ← aread (ltable s) idx;
    t ← awrite (ltable s) idx (set_spec e (bi_currentIter lp)); Ok (with_ltable s t)
  else Ok s.

(** [squash(tid, taken, bp_history)] *)
Definition squash_taken (s : LTAGE) (tid : Z) (taken : bool) (bi : BranchInfo) : res LTAGE :=
  t ← aread (threadHistory s) tid;
  t ← repair_history t (bi_hist bi) taken;
  ths ← awrite (threadHistory s) tid t;
  restore_loop (with_threads s ths) bi.

(** * The interface of [BPredUnit] *)

(** [squash(tid, bp_history)] *)
Definition squash (s : LTAGE) (tid : Z) (bp_history : bp_ptr) : res LTAGE :=
  match bp_history with None => Ub | Some bi => restore_loop s bi end.

(** The assertion at the end of [lookup] and [uncondBranch]. *)
Definition check_pointer (s : LTAGE) (tid : Z) : res bool :=
  t ← aread (threadHistory s) tid; Ok (gHist t =? ptGhist t).

Definition lookup (s : LTAGE) (tid branch_pc : Z) : res (bool * bp_ptr * LTAGE) :=
  '(retval, bi, s) ← predict s tid branch_pc true;
  '(bi, s) ← updateHistories s tid branch_pc retval bi;
  ok ← check_pointer s tid;
  assert! (ok : bool) ;;
  Ok (retval, Some bi, s).

Definition uncondBranch (s : LTAGE) (tid br_pc : Z) : res (bp_ptr * LTAGE) :=
  '(pred_taken, bi, s) ← predict s tid br_pc false;
  '(bi, s) ← updateHistories s tid br_pc true bi;
  ok ← check_pointer s tid;
  assert! (ok : bool) ;;
  Ok (Some bi, s).

Definition btbUpdate (s : LTAGE) (tid branch_pc : Z) (bp_history : bp_ptr) : res LTAGE :=
  match bp_history with
  | None => Ub
  | Some bi =>
    t ← aread (threadHistory s) tid;
    t ← reset_last t (bi_hist bi);
    ths ← awrite (threadHistory s) tid t;
    Ok (with_threads s ths)
  end.

Definition update (s : LTAGE) (tid branch_pc : Z) (taken : bool) (bp_history : bp_ptr)
    (squashed : bool) (nrand loop_nrand : Z) : res LTAGE :=
  match bp_history with
  | None => Panic
  | Some bi =>
    if squashed then squash_taken s tid taken bi
    else if condBranch bi then update_tables s taken bi nrand loop_nrand
    else Ok s
  end.

Definition getGHR (s : LTAGE) (tid : Z) (bp_history : bp_ptr) : res Z :=
  match bp_history with
  | None => Ub
  | Some bi =>
    for_range 0 32
      (fun i val =>
         t ← aread (threadHistory s) tid;
         let gh_offset := s32 (u32 (b_ptGhist (bi_hist bi) + i)) in
         assert! gh_offset <? histBufferSize (cfg s) ;;
         b ← aread (globalHistory t) gh_offset;
         Ok (Z.lor val (u32 (Z.shiftl (Z.land b 1) i)))) 0
  end.
End Shifts.
