(* ===== verification/LtageSafe.v ===== *)
(** The invariant of the L-TAGE predictor, and that no operation leaves it or
    goes outside a table. *)
From S2P Require Import Prelude Bitfield DirPred LtageHist Ltage.

(** * Invariant *)

Record cfg_ok (c : LtageCfg) : Prop := {
  ok_hist : hist_cfg_ok c;
  ok_bimp : 0 <= logSizeBiMP c <= 30;
  ok_loop : 2 <= logSizeLoopPred c <= 30;
  ok_banks : 1 <= nHistoryTables c <= 12;
  ok_bits : 1 <= tagTableCounterBits c <= 8;
  ok_lengths : Z.of_nat (length (histLengths c)) = nHistoryTables c;
  ok_sizes : length (tagTableSizes c) = 12%nat;
  ok_widths : length (tagWidths c) = 12%nat;
  ok_tick : logTick c = 19 }.

(** Entry [j] of bank [i] exists. *)
Definition slot (c : LtageCfg) (i j : Z) : Prop :=
  1 <= i /\ exists o s t, shapes c !! Z.to_nat (i - 1) = Some (o, (s, t)) /\ 0 <= j < 2 ^ s.

Definition TageEntry_ok (c : LtageCfg) (e : TageEntry) : Prop :=
  - 2 ^ (tagTableCounterBits c - 1) <= ctr e < 2 ^ (tagTableCounterBits c - 1) /\ 0 <= u e <= 1.
Definition gt_ok (c : LtageCfg) (gt : list (list TageEntry)) : Prop :=
  Forall2 (fun sh t => Z.of_nat (length t) = 2 ^ sh.2.1 /\ Forall (TageEntry_ok c) t) (shapes c) gt.
Definition BimodalEntry_ok (e : BimodalEntry) : Prop := is_bit (b_pred e) /\ is_bit (b_hyst e).
Definition is_u16 (x : Z) : Prop := 0 <= x < 2 ^ 16.
Record LoopEntry_ok (e : LoopEntry) : Prop := {
  le_num : is_u16 (numIter e); le_cur : is_u16 (currentIter e); le_spec : is_u16 (currentIterSpec e);
  le_conf : 0 <= confidence e <= 7; le_tag : is_u16 (l_tag e); le_age : 0 <= l_age e <= 7 }.

(** The tables; what the histories hold is in [hist_inv]. *)
Record tables_ok (c : LtageCfg) (s : LTAGE) : Prop := {
  tb_cfg : cfg s = c;
  tb_bim : Z.of_nat (length (btable s)) = 2 ^ logSizeBiMP c /\ Forall BimodalEntry_ok (btable s);
  tb_gt : gt_ok c (gtable s);
  tb_loop : Z.of_nat (length (ltable s)) = 2 ^ logSizeLoopPred c /\ Forall LoopEntry_ok (ltable s);
  tb_use : - 64 <= loopUseCounter s < 64;
  tb_alt : - 8 <= useAltPredForNewlyAllocated s < 8;
  tb_count : 0 <= tCounter s < 2 ^ 31 }.

(** What [predict] leaves in the record of a branch. *)
Record tage_ok (c : LtageCfg) (tp : TagePred) : Prop := {
  tp_indices : forall i, 1 <= i <= nHistoryTables c -> exists j, oread (bi_tableIndices tp) i = Ok j /\ slot c i j;
  tp_tags : forall i, 1 <= i <= nHistoryTables c -> exists t, oread (bi_tableTags tp) i = Ok t;
  tp_bim : 0 <= bimodalIndex tp < 2 ^ logSizeBiMP c;
  tp_hit : 0 <= hitBank tp <= nHistoryTables c;
  tp_hit_slot : 0 < hitBank tp -> slot c (hitBank tp) (hitBankIndex tp);
  tp_alt : 0 <= altBank tp <= nHistoryTables c;
  tp_alt_slot : 0 < altBank tp -> slot c (altBank tp) (altBankIndex tp) }.
Record loop_ok (c : LtageCfg) (lp : LoopPred) : Prop := {
  lp_index : 0 <= loopIndex lp /\ loopIndex lp + 3 < 2 ^ logSizeLoopPred c;
  lp_hit : -1 <= loopHit lp <= 3;
  lp_iter : is_u16 (bi_currentIter lp) }.
Definition bi_ok (c : LtageCfg) (bi : BranchInfo) : Prop :=
  if condBranch bi then tage_ok c (bi_tage bi) /\ loop_ok c (bi_loop bi) else True.

(** * Lemmas *)

Lemma ull_mask_ok k : 0 <= k < 64 -> ull_mask k = Ok (2 ^ k - 1).
Proof. intros H. unfold ull_mask. case_match; [done|lia]. Qed.

Lemma bread_Ok {A} (l : list A) i a : 1 <= i -> l !! Z.to_nat (i - 1) = Some a -> bread l i = Ok a.
Proof. intros Hi Hl. unfold bread. apply aread_Ok; [lia|done]. Qed.

Lemma bwrite_Ok {A} (l : list A) i a : 1 <= i <= Z.of_nat (length l) ->
  bwrite l i a = Ok (<[Z.to_nat (i - 1) := a]> l).
Proof. intros Hi. unfold bwrite. apply awrite_Ok. lia. Qed.

Lemma s32_land_mask x k : 0 <= k <= 31 -> 0 <= s32 (Z.land x (2 ^ k - 1)) < 2 ^ k.
Proof.
  intros Hk. pose proof (land_mask_range x k ltac:(lia)) as Hr.
  pose proof (Z.pow_le_mono_r 2 k 31 ltac:(lia) ltac:(lia)). rewrite wrap_s_id by lia. done.
Qed.

Section Banks.
Context (c : LtageCfg) (Hc : cfg_ok c).

Lemma shapes_length : Z.of_nat (length (shapes c)) = nHistoryTables c.
Proof.
  unfold shapes. rewrite !length_zip. destruct Hc. lia.
Qed.

(** The three tables of the configuration, at a bank. *)
Lemma bank_shape_at i : 1 <= i <= nHistoryTables c ->
  exists o s t, shapes c !! Z.to_nat (i - 1) = Some (o, (s, t)) /\ shape_ok (maxHist c) (o, (s, t)) /\
    bread (histLengths c) i = Ok o /\ bread (tagTableSizes c) i = Ok s /\ bread (tagWidths c) i = Ok t.
Proof.
  intros Hi. pose proof shapes_length as Hl. destruct Hc as [Hh _ _ _ _ Hlen Hsz Hw _].
  destruct (lookup_lt_is_Some_2 (shapes c) (Z.to_nat (i - 1))) as [[o [s t]] Hs]; [lia|].
  exists o, s, t. split; [done|]. split.
  { eapply Forall_lookup_1; [apply hc_shapes, Hh|exact Hs]. }
  unfold shapes in Hs. apply lookup_zip_Some in Hs as [H1 Hs]. apply lookup_zip_Some in Hs as [H2 H3].
  split_and!; (apply bread_Ok; [lia|done]).
Qed.

Lemma slot_bank i j : slot c i j -> 1 <= i <= nHistoryTables c.
Proof.
  intros (Hi & o & s & t & Hs & _). pose proof (lookup_lt_Some _ _ _ Hs). pose proof shapes_length. lia.
Qed.

(** Reading and writing an entry of a tagged table. *)
Lemma gread_ok gt i j : gt_ok c gt -> slot c i j -> exists e, gread gt i j = Ok e /\ TageEntry_ok c e.
Proof.
  intros Hg (Hi & o & s & t & Hs & Hj). destruct (Forall2_lookup_l _ _ _ _ _ Hg Hs) as (tb & Ht & Hlen & Hok).
  cbn in Hlen. destruct (aread_in_bounds tb j ltac:(lia)) as (e & He & Hr). exists e. unfold gread.
  rewrite (bread_Ok gt i tb) by done. cbn [mbind res_bind]. split; [done|]. by eapply Forall_lookup_1.
Qed.

Lemma gwrite_ok gt i j e : gt_ok c gt -> slot c i j -> TageEntry_ok c e ->
  exists gt', gwrite gt i j e = Ok gt' /\ gt_ok c gt' /\ gread gt' i j = Ok e /\
    forall i' j', slot c i' j' -> (i', j') <> (i, j) -> gread gt' i' j' = gread gt i' j'.
Proof.
  intros Hg (Hi & o & s & t & Hs & Hj) He. destruct (Forall2_lookup_l _ _ _ _ _ Hg Hs) as (tb & Ht & Hlen & Hok).
  cbn in Hlen. pose proof (lookup_lt_Some _ _ _ Ht) as Hlt. unfold gwrite.
  rewrite (bread_Ok gt i tb) by done. cbn [mbind res_bind]. rewrite awrite_Ok by lia. cbn [mbind res_bind].
  rewrite bwrite_Ok by lia. eexists. split; [done|].
  assert (Hnew : bread (<[Z.to_nat (i - 1):=<[Z.to_nat j:=e]> tb]> gt) i = Ok (<[Z.to_nat j:=e]> tb))
    by (apply bread_Ok; [done|]; by rewrite list_lookup_insert_eq by lia).
  split_and!.
  - unfold gt_ok. rewrite <- (list_insert_id (shapes c) _ _ Hs). apply Forall2_insert; [done|]. cbn.
    rewrite length_insert. split; [done|]. by apply Forall_insert.
  - unfold gread. rewrite Hnew. cbn [mbind res_bind]. apply aread_Ok; [lia|]. by rewrite list_lookup_insert_eq by lia.
  - intros i' j' (Hi' & _ & s' & _ & _ & Hj') Hne. unfold gread. destruct (decide (i' = i)) as [->|Hni].
    + rewrite Hnew, (bread_Ok gt i tb) by done. cbn [mbind res_bind]. unfold aread.
      case_match; [|done]. rewrite list_lookup_insert_ne; [done|]. intros ?. apply Hne. f_equal. lia.
    + replace (bread (<[Z.to_nat (i - 1):=<[Z.to_nat j:=e]> tb]> gt) i') with (bread gt i'); [done|].
      unfold bread, aread. case_match; [|done]. by rewrite list_lookup_insert_ne by lia.
Qed.

(** An array with one element per bank. *)
Lemma mapM_banks (f : Z -> res (option Z)) n (P : Z -> Z -> Prop) :
  (forall i, 1 <= i <= n -> exists j, f i = Ok (Some j) /\ P i j) ->
  exists l, mapM f (seqZ 1 n) = Ok l /\
    forall i, 1 <= i <= n -> exists j, oread l i = Ok j /\ f i = Ok (Some j) /\ P i j.
Proof.
  intros H. destruct (mapM_res f (fun i o => exists j, o = Some j /\ P i j) (seqZ 1 n)) as (l & El & Hl).
  { intros i Hi%elem_of_seqZ. destruct (H i ltac:(lia)) as (j & ? & ?). exists (Some j). split; [done|]. by exists j. }
  exists l. split; [done|]. intros i Hi.
  assert (seqZ 1 n !! Z.to_nat (i - 1) = Some i) as Hs.
  { apply lookup_seqZ. lia. }
  destruct (Forall2_lookup_l _ _ _ _ _ Hl Hs) as (o & Ho & Hf & j & -> & HP).
  exists j. unfold oread. by rewrite (bread_Ok l i (Some j)) by (done || lia).
Qed.

(** ** Hashing *)

(** The index and the tag of bank [bank], from the outcomes [w] and the path
    history [p] themselves. *)
Definition gindex_ref (und : Z -> Z -> Z) (w : list Z) (p pc bank : Z) : res Z :=
  hl ← bread (histLengths c) bank;
  tts ← bread (tagTableSizes c) bank;
  a ← F und c p (Z.min 16 hl) bank;
  Ok (Z.land (Z.lxor (Z.lxor (Z.lxor pc (Z.shiftr pc (Z.abs (tts - bank) + 1)))
                             (folded tts (take (Z.to_nat hl) w))) a) (2 ^ tts - 1)).
Definition gtag_ref (w : list Z) (pc bank : Z) : res Z :=
  hl ← bread (histLengths c) bank;
  tw ← bread (tagWidths c) bank;
  Ok (u16 (Z.land (Z.lxor (Z.lxor pc (folded tw (take (Z.to_nat hl) w)))
                          (Z.shiftl (folded (tw - 1) (take (Z.to_nat hl) w)) 1)) (2 ^ tw - 1))).

(** A mask of at most 31 bits ignores the conversion to [int]. *)
Lemma land_s32 x k : 0 <= k <= 32 -> Z.land (s32 x) (2 ^ k - 1) = Z.land x (2 ^ k - 1).
Proof.
  intros Hk. rewrite Z.sub_1_r, <- Z.ones_equiv, !Z.land_ones by lia. unfold wrap_s. change (32 - 1) with 31.
  assert (2 ^ 32 = 2 ^ k * 2 ^ (32 - k)) as E by (rewrite <- Z.pow_add_r by lia; f_equal; lia).
  pose proof (pow2_pos k ltac:(lia)). pose proof (pow2_pos (32 - k) ltac:(lia)).
  rewrite Zminus_mod, E, Z.rem_mul_r by lia.
  rewrite Z.add_mod, (Z.mul_comm (2 ^ k)), Z.mod_mul, Z.add_0_r, !Z.mod_mod by lia.
  rewrite <- Zminus_mod. f_equal. lia.
Qed.

Section Hashing.
Context (und : Z -> Z -> Z) (s : LTAGE) (tid : Z) (t : ThreadHistory) (fl : list SavedHist) (a : SpecHist).
Hypothesis (Hs : cfg s = c) (Ht : aread (threadHistory s) tid = Ok t) (Hh : hist_inv c t fl a).

Lemma F_ok A size i : 0 <= size < 64 -> 1 <= i <= nHistoryTables c -> exists v, F und c A size i = Ok v.
Proof.
  intros Hsz Hi. destruct (bank_shape_at i Hi) as (o & k & w & _ & (Ho & Hk & Hw) & _ & H2 & _).
  unfold F. rewrite H2, !ull_mask_ok by lia. cbn [mbind res_bind]. rewrite ull_mask_ok by lia. by eexists.
Qed.

Lemma folds_at i : 1 <= i <= nHistoryTables c ->
  exists o k w f, bread (computeFolds t) i = Ok f /\ shapes c !! Z.to_nat (i - 1) = Some (o, (k, w)) /\
    shape_ok (maxHist c) (o, (k, w)) /\ bank_ok (now a) (o, (k, w)) f /\
    bread (histLengths c) i = Ok o /\ bread (tagTableSizes c) i = Ok k /\ bread (tagWidths c) i = Ok w.
Proof.
  intros Hi. destruct (bank_shape_at i Hi) as (o & k & w & Hsh & Hok & H1 & H2 & H3).
  destruct (Forall2_lookup_l _ _ _ _ _ (hi_folds _ _ _ _ Hh) Hsh) as (f & Hf & Hb).
  exists o, k, w, f. split; [|done]. by apply bread_Ok; [lia|].
Qed.

Lemma gindex_ok pc i : 1 <= i <= nHistoryTables c ->
  exists j, gindex und s tid pc i = Ok j /\ gindex_ref und (now a) (path a) pc i = Ok j /\ slot c i j.
Proof.
  intros Hi. destruct (folds_at i Hi) as (o & k & w & f & Hf & Hsh & (Ho & Hk & Hw) & ([_ Hc1] & _) & H1 & H2 & H3).
  pose proof (ok_banks _ Hc). unfold gindex, gindex_ref. rewrite Hs, H1, H2, Ht. cbn [mbind res_bind].
  rewrite Hf. cbn [mbind res_bind]. rewrite shr64_ok by lia. cbn [mbind res_bind].
  replace (if 16 <? o then 16 else o) with (Z.min 16 o) by (case_match; lia).
  rewrite (hi_path _ _ _ _ Hh). destruct (F_ok (path a) (Z.min 16 o) i) as (v & ->); [lia|done|].
  cbn [mbind res_bind]. rewrite ull_mask_ok by lia. cbn [mbind res_bind]. rewrite Hc1.
  eexists. split; [done|]. pose proof (Z.pow_le_mono_r 2 k 30 ltac:(lia) ltac:(lia)).
  split.
  - f_equal. rewrite land_s32 by lia. symmetry. apply wrap_s_id; [lia|].
    pose proof (land_mask_range (Z.lxor (Z.lxor (Z.lxor pc (Z.shiftr pc (Z.abs (k - i) + 1)))
                  (folded k (take (Z.to_nat o) (now a)))) v) k ltac:(lia)). lia.
  - split; [lia|]. exists o, k, w. split; [done|]. apply s32_land_mask. lia.
Qed.

Lemma gtag_ok pc i : 1 <= i <= nHistoryTables c ->
  exists v, gtag s tid pc i = Ok v /\ gtag_ref (now a) pc i = Ok v.
Proof.
  intros Hi. destruct (folds_at i Hi) as (o & k & w & f & Hf & Hsh & (Ho & Hk & Hw) & (_ & [_ Hc2] & [_ Hc3]) & H1 & H2 & H3).
  unfold gtag, gtag_ref. rewrite Hs, Ht. cbn [mbind res_bind]. rewrite Hf.
  cbn [mbind res_bind]. rewrite H1, H3. cbn [mbind res_bind]. rewrite ull_mask_ok by lia. cbn [mbind res_bind].
  eexists. split; [done|]. rewrite Hc2, Hc3, land_s32 by lia.
  assert (Forall is_bit (now a)) as Hbits by (rewrite <- (hi_now _ _ _ _ Hh); by apply window_bits, Hh).
  pose proof (folded_range (w - 1) (take (Z.to_nat o) (now a)) ltac:(lia) (Forall_take _ _ _ Hbits)).
  pose proof (Z.pow_le_mono_r 2 (w - 1) 31 ltac:(lia) ltac:(lia)).
  rewrite (wrap_u_id 32); [done|]. rewrite Z.shiftl_mul_pow2 by lia. lia.
Qed.

Lemma bindex_ok pc : exists j, bindex s pc = Ok j /\ 0 <= j < 2 ^ logSizeBiMP c.
Proof using Hc Hs.
  pose proof (ok_bimp _ Hc). unfold bindex. rewrite Hs, ull_mask_ok by lia.
  eexists. split; [done|]. apply s32_land_mask. lia.
Qed.

Lemma lindex_ok pc : exists j, lindex s pc = Ok j /\ 0 <= j /\ j + 3 < 2 ^ logSizeLoopPred c.
Proof using Hc Hs.
  pose proof (ok_loop _ Hc). unfold lindex. rewrite Hs, (wrap_u_id 32), ull_mask_ok by lia.
  eexists. split; [done|]. pose proof (land_mask_range pc (logSizeLoopPred c - 2) ltac:(lia)) as Hr.
  pose proof (Z.pow_le_mono_r 2 (logSizeLoopPred c) 30 ltac:(lia) ltac:(lia)).
  assert (2 ^ logSizeLoopPred c = 2 ^ (logSizeLoopPred c - 2) * 4).
  { replace (logSizeLoopPred c) with (logSizeLoopPred c - 2 + 2) at 1 by lia. by rewrite Z.pow_add_r by lia. }
  rewrite Z.shiftl_mul_pow2 by lia. change (2 ^ 2) with 4.
  rewrite (wrap_u_id 64) by lia. rewrite wrap_s_id by lia. lia.
Qed.
End Hashing.

(** ** The prediction *)

(** The entry of bank [i] looked up has the tag of the branch. *)
Definition bank_matches (gt : list (list TageEntry)) (idx tags : list (option Z)) (i : Z) : Prop :=
  exists j e, oread idx i = Ok j /\ gread gt i j = Ok e /\ oread tags i = Ok (g_tag e).

(** [b] is the greatest matching bank up to [hi], 0 when there is none. *)
Definition longest_match (gt : list (list TageEntry)) (idx tags : list (option Z)) (hi b : Z) : Prop :=
  0 <= b /\ (b <= hi \/ b = 0) /\ (b = 0 \/ bank_matches gt idx tags b) /\
  forall i, b < i <= hi -> ~ bank_matches gt idx tags i.

(** The direction bank [b] gives: the sign of its counter. *)
Definition bank_dir (gt : list (list TageEntry)) (b j : Z) (d : bool) : Prop :=
  exists e, gread gt b j = Ok e /\ d = (0 <=? ctr e).
(** The counter of bank [b] is at one of its two weakest values. *)
Definition bank_weak (gt : list (list TageEntry)) (b j : Z) (d : bool) : Prop :=
  exists e, gread gt b j = Ok e /\ d = bool_decide (ctr e = 0 \/ ctr e = -1).
Definition bimodal_dir (s : LTAGE) (j : Z) (d : bool) : Prop :=
  exists e, aread (btable s) j = Ok e /\ d = (0 <? b_pred e).

(** What [predict] computes from the tables, given the indices and tags. *)
Record tage_spec (s : LTAGE) (tp : TagePred) : Prop := {
  ts_hit : longest_match (gtable s) (bi_tableIndices tp) (bi_tableTags tp) (nHistoryTables c) (hitBank tp);
  ts_alt : longest_match (gtable s) (bi_tableIndices tp) (bi_tableTags tp) (hitBank tp - 1) (altBank tp);
  ts_hit_index : 0 < hitBank tp -> oread (bi_tableIndices tp) (hitBank tp) = Ok (hitBankIndex tp);
  ts_alt_index : 0 < altBank tp -> oread (bi_tableIndices tp) (altBank tp) = Ok (altBankIndex tp);
  ts_alt_taken : if 0 <? altBank tp then bank_dir (gtable s) (altBank tp) (altBankIndex tp) (altTaken tp)
                 else bimodal_dir s (bimodalIndex tp) (altTaken tp);
  ts_longest : if 0 <? hitBank tp then bank_dir (gtable s) (hitBank tp) (hitBankIndex tp) (longestMatchPred tp)
               else longestMatchPred tp = altTaken tp;
  ts_weak : if 0 <? hitBank tp then bank_weak (gtable s) (hitBank tp) (hitBankIndex tp) (pseudoNewAlloc tp)
            else pseudoNewAlloc tp = false;
  ts_pred : tagePred tp = if pseudoNewAlloc tp && (0 <=? useAltPredForNewlyAllocated s)
                          then altTaken tp else longestMatchPred tp }.

Lemma oread_det (l : list (option Z)) i j j' : oread l i = Ok j -> oread l i = Ok j' -> j = j'.
Proof. intros -> [= ->]. done. Qed.

Section Predict.
Context (gt : list (list TageEntry)) (idx tags : list (option Z)).
Hypothesis (Hg : gt_ok c gt)
  (Hidx : forall i, 1 <= i <= nHistoryTables c -> exists j, oread idx i = Ok j /\ slot c i j)
  (Htags : forall i, 1 <= i <= nHistoryTables c -> exists t, oread tags i = Ok t).

Lemma find_bank_ok n hi : n <= nHistoryTables c -> hi = Z.to_nat n ->
  exists b, find_bank gt idx tags hi = Ok b /\ longest_match gt idx tags n b.
Proof.
  revert n. induction hi as [|k IH]; intros n Hn Ehi.
  - exists 0. split; [done|]. split_and!; [lia|lia|by left|lia].
  - cbn [find_bank]. replace (Z.of_nat (S k)) with n by lia. destruct (Hidx n ltac:(lia)) as (j & Hj & Hsl).
    destruct (gread_ok gt n j Hg Hsl) as (e & He & _). destruct (Htags n ltac:(lia)) as (t & Ht).
    rewrite Hj. cbn [mbind res_bind]. rewrite He. cbn [mbind res_bind]. rewrite Ht. cbn [mbind res_bind].
    destruct (Z.eqb_spec (g_tag e) t) as [Heq|Hne].
    + exists n. split; [done|]. split_and!; [lia|lia| |lia]. right. exists j, e. by rewrite Ht, Heq.
    + destruct (IH (n - 1) ltac:(lia) ltac:(lia)) as (b & -> & Hb & Hle & Hm & Hno). exists b. split; [done|].
      split_and!; [done|lia|done|]. intros i Hi. destruct (decide (i = n)) as [->|]; [|apply Hno; lia].
      intros (j' & e' & K1 & K2 & K3). rewrite Hj in K1. injection K1 as <-. rewrite He in K2. injection K2 as <-.
      rewrite Ht in K3. injection K3 as K3. by apply Hne.
Qed.

Lemma bank_index_ok b : 0 <= b <= nHistoryTables c ->
  exists j, bank_index idx b = Ok j /\ (0 < b -> oread idx b = Ok j /\ slot c b j).
Proof.
  intros Hb. unfold bank_index. destruct (Z.ltb_spec 0 b); [|exists 0; split; [done|lia]].
  destruct (Hidx b ltac:(lia)) as (j & -> & Hj). by exists j.
Qed.
End Predict.

Lemma weak_abs v : (Z.abs (2 * v + 1) <=? 1) = bool_decide (v = 0 \/ v = -1).
Proof. case_bool_decide; lia. Qed.

Lemma predict_tage_ok und s tid t fl a pc :
  tables_ok c s -> aread (threadHistory s) tid = Ok t -> hist_inv c t fl a ->
  exists tp idx tags, predict_tage und s tid pc = Ok (tp, with_scratch s idx tags) /\
    tage_ok c tp /\ tage_spec s tp /\
    (forall i, 1 <= i <= nHistoryTables c ->
       oread (bi_tableIndices tp) i = gindex_ref und (now a) (path a) pc i /\
       oread (bi_tableTags tp) i = gtag_ref (now a) pc i).
Proof.
  intros [Hs [Hbl Hbf] Hg _ _ _ _] Ht Hh. pose proof (ok_banks _ Hc) as Hn. unfold predict_tage, banks. rewrite Hs.
  destruct (mapM_banks (fun i => j ← gindex und s tid pc i; Ok (Some j)) (nHistoryTables c)
              (fun i j => gindex_ref und (now a) (path a) pc i = Ok j /\ slot c i j)) as (idx & -> & Hidx).
  { intros i Hi. destruct (gindex_ok und s tid t fl a Hs Ht Hh pc i Hi) as (j & -> & ? & ?). by exists j. }
  destruct (mapM_banks (fun i => v ← gtag s tid pc i; Ok (Some v)) (nHistoryTables c)
              (fun i v => gtag_ref (now a) pc i = Ok v)) as (tags & -> & Htags).
  { intros i Hi. destruct (gtag_ok s tid t fl a Hs Ht Hh pc i Hi) as (v & -> & ?). by exists v. }
  cbn [mbind res_bind]. destruct (bindex_ok (with_scratch s idx tags) Hs pc) as (bim & -> & Hbim).
  cbn [mbind res_bind]. cbn [gtable btable with_scratch cfg useAltPredForNewlyAllocated]. rewrite ?Hs.
  assert (Hi' : forall i, 1 <= i <= nHistoryTables c -> exists j, oread idx i = Ok j /\ slot c i j).
  { intros i Hi. destruct (Hidx i Hi) as (j & ? & _ & _ & ?). by exists j. }
  assert (Ht' : forall i, 1 <= i <= nHistoryTables c -> exists v, oread tags i = Ok v).
  { intros i Hi. destruct (Htags i Hi) as (v & ? & _). by exists v. }
  destruct (find_bank_ok (gtable s) idx tags Hg Hi' Ht' (nHistoryTables c) _ ltac:(lia) eq_refl) as (hit & -> & Hhit).
  cbn [mbind res_bind]. assert (0 <= hit <= nHistoryTables c) as Hhr by (destruct Hhit as (? & ? & _); lia).
  destruct (bank_index_ok idx Hi' hit Hhr) as (hj & -> & Hhj). cbn [mbind res_bind].
  destruct (find_bank_ok (gtable s) idx tags Hg Hi' Ht' (hit - 1) _ ltac:(lia) eq_refl) as (alt & -> & Halt).
  cbn [mbind res_bind]. assert (0 <= alt <= nHistoryTables c /\ (0 < alt -> 0 < hit)) as [Har Hah]
    by (destruct Halt as (? & ? & _); lia).
  destruct (bank_index_ok idx Hi' alt Har) as (aj & -> & Haj). cbn [mbind res_bind].
  destruct (aread_in_bounds (btable s) bim ltac:(lia)) as (be & _ & Hbe).
  unfold getBimodePred. cbn [btable with_scratch].
  destruct (Z.ltb_spec 0 hit) as [Hpos|Hpos].
  - destruct (gread_ok (gtable s) hit hj Hg (proj2 (Hhj Hpos))) as (he & Hhe & _).
    assert (exists d, (if 0 <? alt then e ← gread (gtable s) alt aj; Ok (0 <=? ctr e)
                       else e ← aread (btable s) bim; Ok (0 <? b_pred e)) = Ok d /\
              if 0 <? alt then bank_dir (gtable s) alt aj d else bimodal_dir s bim d) as (d & -> & Hd).
    { destruct (Z.ltb_spec 0 alt) as [Hap|Hap].
      - destruct (gread_ok (gtable s) alt aj Hg (proj2 (Haj Hap))) as (ae & Hae & _). rewrite Hae.
        eexists. split; [done|]. by exists ae.
      - rewrite Hbe. eexists. split; [done|]. by exists be. }
    cbn [mbind res_bind]. rewrite Hhe. cbn [mbind res_bind].
    eexists _, idx, tags. split; [done|]. split; [|split].
    + split; cbn; try done; [by intros; apply Hhj|by intros; apply Haj].
    + assert (Ep : (0 <? hit) = true) by lia.
      split; cbn -[Z.ltb Z.leb]; rewrite ?Ep; try done; try (by intros; apply Hhj); try (by intros; apply Haj).
      * by exists he.
      * exists he. split; [done|]. apply weak_abs.
      * destruct (Z.ltb_spec (useAltPredForNewlyAllocated s) 0), (Z.leb_spec 0 (useAltPredForNewlyAllocated s)); try lia;
          rewrite ?andb_false_r, ?andb_true_r; cbn [orb]; [done|].
        destruct (Z.ltb_spec 1 (Z.abs (2 * ctr he + 1))), (Z.leb_spec (Z.abs (2 * ctr he + 1)) 1); done || lia.
    + intros i Hi. destruct (Hidx i Hi) as (j & E1 & _ & E2 & _), (Htags i Hi) as (v & E3 & _ & E4).
      cbn. by rewrite E1, E2, E3, E4.
  - assert (hit = 0) as -> by lia. assert (alt = 0) as -> by lia. rewrite Hbe. cbn [mbind res_bind].
    eexists _, idx, tags. split; [done|]. split; [|split].
    + split; cbn; try done; lia.
    + split; cbn; try done; try lia. by exists be.
    + intros i Hi. destruct (Hidx i Hi) as (j & E1 & _ & E2 & _), (Htags i Hi) as (v & E3 & _ & E4).
      cbn. by rewrite E1, E2, E3, E4.
Qed.

(** ** The loop predictor *)

(** [lp] is what [getLoop] finds: the first of the four ways whose tag is that
    of the branch, or none. *)
Definition loop_spec (t : list LoopEntry) (lp : LoopPred) : Prop :=
  (loopHit lp = -1 /\ loopPredValid lp = false /\ loopPred lp = false /\
     (forall k, 0 <= k < 4 -> exists e, aread t (loopIndex lp + k) = Ok e /\ l_tag e <> loopTag lp) /\
     bi_currentIter lp = 0) \/
  (0 <= loopHit lp <= 3 /\ exists e, aread t (loopIndex lp + loopHit lp) = Ok e /\ l_tag e = loopTag lp /\
     loopPredValid lp = (3 <=? confidence e) /\ bi_currentIter lp = currentIterSpec e /\
     loopPred lp = (if currentIterSpec e + 1 =? numIter e then negb (l_dir e) else l_dir e) /\
     forall k, 0 <= k < loopHit lp -> exists e', aread t (loopIndex lp + k) = Ok e' /\ l_tag e' <> loopTag lp).

Lemma getLoop_ways_ok t idx tag i n :
  0 <= idx -> 0 <= i -> i + Z.of_nat n = 4 -> idx + 3 < Z.of_nat (length t) ->
  (forall k, 0 <= k < i -> exists e, aread t (idx + k) = Ok e /\ l_tag e <> tag) ->
  exists lp dir, getLoop_ways t idx tag i n = Ok (lp, dir) /\
    loopIndex lp = idx /\ loopTag lp = tag /\
    loop_spec t {| loopTag := tag; bi_currentIter := bi_currentIter lp; loopPred := dir;
                   loopPredValid := loopPredValid lp; loopIndex := idx; loopHit := loopHit lp |}.
Proof.
  intros Hx Hi Hn Hl Hno. revert i Hi Hn Hno. induction n as [|n IH]; intros i Hi Hn Hno; cbn [getLoop_ways].
  - eexists _, _. split; [done|]. split; [done|]. split; [done|]. left. cbn.
    do 3 (split; [done|]). split; [|done]. intros k Hk. apply Hno. lia.
  - destruct (aread_in_bounds t (idx + i) ltac:(lia)) as (e & _ & He). rewrite He. cbn [mbind res_bind].
    destruct (Z.eqb_spec (l_tag e) tag) as [Ht|Ht].
    + eexists _, _. split; [done|]. split; [done|]. split; [done|]. right. cbn. split; [lia|].
      exists e. by split_and!.
    + apply IH; [lia|lia|]. intros k Hk. destruct (decide (k = i)) as [->|]; [by exists e|apply Hno; lia].
Qed.

Lemma getLoop_ok s pc : tables_ok c s ->
  exists lp, getLoop s pc = Ok lp /\ loop_ok c lp /\ loop_spec (ltable s) lp /\
    lindex s pc = Ok (loopIndex lp) /\ loopTag lp = s32 (Z.shiftr pc (logSizeLoopPred c - 2)).
Proof.
  intros [Hs _ _ [Hll Hlf] _ _ _]. pose proof (ok_loop _ Hc) as HL. unfold getLoop.
  destruct (lindex_ok s Hs pc) as (idx & Hidx & H0 & H3). rewrite Hidx. cbn [mbind res_bind].
  rewrite Hs, (wrap_u_id 32), shr64_ok by lia. cbn [mbind res_bind].
  destruct (getLoop_ways_ok (ltable s) idx (s32 (Z.shiftr pc (logSizeLoopPred c - 2))) 0 4)
    as (lp & dir & -> & E1 & E2 & Hsp); [lia..|].
  cbn [mbind res_bind]. rewrite E1, E2. eexists. split; [done|]. split; [|done].
  split; cbn; [done| |].
  - destruct Hsp as [(? & _)|(? & _)]; cbn in *; lia.
  - destruct Hsp as [(_ & _ & _ & _ & Hv)|(_ & e & He & _ & _ & Hv & _)]; cbn in *; rewrite Hv; [unfold is_u16; lia|].
    apply aread_inv in He as [_ He]. apply le_spec. by eapply Forall_lookup_1.
Qed.

Lemma lt_write t i e : Z.of_nat (length t) = 2 ^ logSizeLoopPred c /\ Forall LoopEntry_ok t ->
  0 <= i < 2 ^ logSizeLoopPred c -> LoopEntry_ok e ->
  exists t', awrite t i e = Ok t' /\ (Z.of_nat (length t') = 2 ^ logSizeLoopPred c /\ Forall LoopEntry_ok t').
Proof.
  intros [Hl Hf] Hi He. rewrite awrite_Ok by lia. eexists. split; [done|]. rewrite length_insert.
  split; [done|]. by apply Forall_insert.
Qed.

Lemma with_ltable_ok s t : tables_ok c s ->
  Z.of_nat (length t) = 2 ^ logSizeLoopPred c /\ Forall LoopEntry_ok t -> tables_ok c (with_ltable s t).
Proof. intros [] ?. by split. Qed.

Lemma u16_range z : is_u16 (u16 z).
Proof. apply (wrap_u_range 16). lia. Qed.

Lemma specLoopUpdate_ok s pc taken lp : tables_ok c s ->
  exists t, specLoopUpdate s pc taken lp = Ok (with_ltable s t) /\ tables_ok c (with_ltable s t).
Proof.
  intros Hs. unfold specLoopUpdate. destruct (0 <=? loopHit lp).
  - destruct (lindex_ok s (tb_cfg _ _ Hs) pc) as (idx & -> & H0 & H3). cbn [mbind res_bind].
    destruct (tb_loop _ _ Hs) as [Hll Hlf].
    destruct (aread_in_bounds (ltable s) idx ltac:(lia)) as (e & He & ->). cbn [mbind res_bind].
    pose proof (Forall_lookup_1 _ _ _ _ Hlf He) as [].
    destruct (lt_write (ltable s) idx (set_spec e (if negb (eqb taken (l_dir e)) then 0 else u16 (currentIterSpec e + 1))))
      as (t & -> & Ht); [done|lia| |exists t; split; [done|by apply with_ltable_ok]].
    split; cbn; try done. case_match; [unfold is_u16; lia|apply u16_range].
  - exists (ltable s). assert (with_ltable s (ltable s) = s) as -> by (by destruct s). done.
Qed.

Definition final_pred (s : LTAGE) (tp : TagePred) (lp : LoopPred) : bool :=
  if (0 <=? loopUseCounter s) && loopPredValid lp then loopPred lp else tagePred tp.

(** [predict] for a conditional branch. *)
Lemma predict_cond_ok und s tid t fl a pc :
  tables_ok c s -> aread (threadHistory s) tid = Ok t -> hist_inv c t fl a ->
  exists bi s', predict und s tid pc true = Ok (final_pred s (bi_tage bi) (bi_loop bi), bi, s') /\
    bi_ok c bi /\ condBranch bi = true /\ tage_spec s (bi_tage bi) /\ loop_spec (ltable s) (bi_loop bi) /\
    lindex s pc = Ok (loopIndex (bi_loop bi)) /\
    loopTag (bi_loop bi) = s32 (Z.shiftr pc (logSizeLoopPred c - 2)) /\
    (forall i, 1 <= i <= nHistoryTables c ->
       oread (bi_tableIndices (bi_tage bi)) i = gindex_ref und (now a) (path a) pc i /\
       oread (bi_tableTags (bi_tage bi)) i = gtag_ref (now a) pc i) /\
    tables_ok c s' /\ threadHistory s' = threadHistory s /\ gtable s' = gtable s /\ btable s' = btable s.
Proof.
  intros Hs Ht Hh. destruct (predict_tage_ok und s tid t fl a pc Hs Ht Hh) as (tp & idx & tags & Ep & Htp & Hsp & Href).
  assert (Hs1 : tables_ok c (with_scratch s idx tags)) by (destruct Hs; by split).
  destruct (getLoop_ok (with_scratch s idx tags) pc Hs1) as (lp & El & Hlp & Hls & Hli & Hlt).
  unfold predict. rewrite Ep. cbn [mbind res_bind]. rewrite El. cbn [mbind res_bind].
  destruct (specLoopUpdate_ok _ pc (final_pred s tp lp) lp Hs1) as (tb & Eu & Hs2).
  change (if (0 <=? loopUseCounter (with_scratch s idx tags)) && loopPredValid lp then loopPred lp else tagePred tp)
    with (final_pred s tp lp). rewrite Eu. cbn [mbind res_bind].
  exists {| bi_tage := tp; bi_loop := lp; bi_hist := SavedHist_new (nHistoryTables (cfg s));
            condBranch := true; branchPC := pc |}.
  eexists. split; [done|]. cbn. by split_and!.
Qed.

Lemma predict_uncond_ok und s tid pc : tables_ok c s ->
  exists bi s', predict und s tid pc false = Ok (true, bi, s') /\ bi_ok c bi /\
    condBranch bi = false /\ tables_ok c s' /\ threadHistory s' = threadHistory s.
Proof.
  intros Hs. unfold predict. cbn [mbind res_bind]. unfold specLoopUpdate. cbn.
  by eexists _, s.
Qed.

(** ** Training *)

Lemma ctrUpdate_ok v (taken : bool) nbits :
  1 <= nbits <= 8 -> - 2 ^ (nbits - 1) <= v < 2 ^ (nbits - 1) ->
  ctrUpdate v taken nbits =
    Ok (if taken then Z.min (v + 1) (2 ^ (nbits - 1) - 1) else Z.max (v - 1) (- 2 ^ (nbits - 1))).
Proof.
  intros Hn Hv. pose proof (Z.pow_le_mono_r 2 (nbits - 1) 7 ltac:(lia) ltac:(lia)).
  unfold ctrUpdate. rewrite (proj2 (andb_true_iff _ _)) by lia. rewrite (proj2 (Z.leb_le 1 nbits)) by lia.
  f_equal. destruct taken; case_match; rewrite ?(wrap_s_id 8) by lia; lia.
Qed.

Lemma ctr_range v (taken : bool) k : 1 <= k -> - 2 ^ (k - 1) <= v < 2 ^ (k - 1) ->
  - 2 ^ (k - 1) <= (if taken then Z.min (v + 1) (2 ^ (k - 1) - 1) else Z.max (v - 1) (- 2 ^ (k - 1))) < 2 ^ (k - 1).
Proof. intros Hk Hv. destruct taken; lia. Qed.

Lemma with_btable_ok s t : tables_ok c s ->
  Z.of_nat (length t) = 2 ^ logSizeBiMP c /\ Forall BimodalEntry_ok t -> tables_ok c (with_btable s t).
Proof. intros [] ?. by split. Qed.
Lemma with_gtable_ok s t : tables_ok c s -> gt_ok c t -> tables_ok c (with_gtable s t).
Proof. intros [] ?. by split. Qed.

Lemma baseUpdate_ok s idx taken : tables_ok c s -> 0 <= idx < 2 ^ logSizeBiMP c ->
  exists t, baseUpdate s idx taken = Ok (with_btable s t) /\ tables_ok c (with_btable s t).
Proof.
  intros Hs Hi. destruct (tb_bim _ _ Hs) as [Hl Hf]. unfold baseUpdate.
  destruct (aread_in_bounds (btable s) idx ltac:(lia)) as (e & He & ->). cbn [mbind res_bind].
  pose proof (Forall_lookup_1 _ _ _ _ Hf He) as [Hp Hh]. rewrite awrite_Ok by lia. cbn [mbind res_bind].
  eexists. split; [done|]. apply with_btable_ok; [done|]. rewrite length_insert. split; [done|].
  apply Forall_insert; [done|]. unfold BimodalEntry_ok, is_bit. cbn.
  destruct Hp as [->| ->], Hh as [->| ->], taken; cbn; auto.
Qed.

Lemma loop_free_ok e : LoopEntry_ok e -> LoopEntry_ok (loop_free e).
Proof. intros []. split; cbn; try done; unfold is_u16; lia. Qed.
Lemma set_currentIter_ok e v : LoopEntry_ok e -> is_u16 v -> LoopEntry_ok (set_currentIter e v).
Proof. intros [] ?. by split. Qed.
Lemma set_confidence_ok e v : LoopEntry_ok e -> 0 <= v <= 7 -> LoopEntry_ok (set_confidence e v).
Proof. intros [] ?. by split. Qed.
Lemma set_numIter_ok e v : LoopEntry_ok e -> is_u16 v -> LoopEntry_ok (set_numIter e v).
Proof. intros [] ?. by split. Qed.
Lemma set_age_ok e v : LoopEntry_ok e -> 0 <= v <= 7 -> LoopEntry_ok (set_age e v).
Proof. intros [] ?. by split. Qed.
Lemma set_dir_ok e v : LoopEntry_ok e -> LoopEntry_ok (set_dir e v).
Proof. intros []. by split. Qed.
Lemma set_spec_ok e v : LoopEntry_ok e -> is_u16 v -> LoopEntry_ok (set_spec e v).
Proof. intros [] ?. by split. Qed.
Hint Resolve loop_free_ok set_currentIter_ok set_confidence_ok set_numIter_ok set_age_ok set_dir_ok
  le_cur u16_range : core.

Lemma loop_iterate_ok e taken : LoopEntry_ok e -> LoopEntry_ok (loop_iterate e taken).
Proof.
  intros He. unfold loop_iterate.
  assert (is_u16 0) by (unfold is_u16; lia).
  set (e1 := set_currentIter e (u16 (currentIter e + 1))). assert (H1 : LoopEntry_ok e1) by (apply set_currentIter_ok; [done|apply u16_range]).
  set (e2 := if numIter e1 <? currentIter e1 then _ else e1).
  assert (H2 : LoopEntry_ok e2).
  { subst e2. cbv zeta. repeat case_match; try apply loop_free_ok; try apply set_confidence_ok; done || lia. }
  case_match; [|done]. apply set_currentIter_ok; [|done]. case_match.
  - pose proof (le_conf _ H2). set (e3 := if confidence e2 <? 7 then _ else e2).
    assert (LoopEntry_ok e3) by (subst e3; case_match; [apply set_confidence_ok; done || lia|done]).
    case_match; auto.
  - case_match; [|auto]. apply set_numIter_ok; [apply set_confidence_ok; done || lia|auto].
Qed.

Lemma loop_hit_update_ok e taken lp tp : LoopEntry_ok e -> LoopEntry_ok (loop_hit_update e taken lp tp).
Proof.
  intros He. unfold loop_hit_update. case_match.
  - apply set_currentIter_ok; [auto|unfold is_u16; lia].
  - apply loop_iterate_ok. case_match; [|done]. pose proof (le_age _ He). apply set_age_ok; [done|lia].
Qed.

(** [random_mt.random<int>()] must stay clear of [INT_MAX]: [nrand + i] overflows otherwise. *)
Definition loop_nrand_ok (r : Z) : Prop := - 2 ^ 31 <= r < 2 ^ 31 - 3.

Lemma loop_alloc_ok t lp taken r i n : loop_ok c lp -> loop_nrand_ok r -> 0 <= i -> i + Z.of_nat n = 4 ->
  Z.of_nat (length t) = 2 ^ logSizeLoopPred c /\ Forall LoopEntry_ok t ->
  exists t', loop_alloc t lp taken r i n = Ok t' /\
    (Z.of_nat (length t') = 2 ^ logSizeLoopPred c /\ Forall LoopEntry_ok t').
Proof.
  intros [[Hx1 Hx2] _ _] Hr Hi Hn Ht. revert t i Hi Hn Ht. unfold loop_nrand_ok in Hr.
  induction n as [|n IH]; intros t i Hi Hn [Hl Hf]; cbn [loop_alloc]; [by exists t|].
  rewrite int_ok_in by lia. cbn [mbind res_bind].
  pose proof (land_mask_range (r + i) 2 ltac:(lia)) as Hm. change (2 ^ 2 - 1) with 3 in Hm. change (2 ^ 2) with 4 in Hm.
  destruct (aread_in_bounds t (loopIndex lp + Z.land (r + i) 3) ltac:(lia)) as (e & He & ->). cbn [mbind res_bind].
  pose proof (Forall_lookup_1 _ _ _ _ Hf He) as Hok. pose proof (le_age _ Hok). pose proof (le_spec _ Hok).
  destruct (Z.eqb_spec (l_age e) 0).
  - apply lt_write; [done|lia|]. split; cbn; try (unfold is_u16; lia); [done|apply u16_range].
  - destruct (lt_write t (loopIndex lp + Z.land (r + i) 3) (set_age e (u8 (l_age e - 1)))) as (t' & -> & Ht');
      [done|lia| |].
    + apply set_age_ok; [done|]. rewrite (wrap_u_id 8) by lia. lia.
    + cbn [mbind res_bind]. apply IH; [lia|lia|done].
Qed.

Lemma loopUpdate_ok s taken bi r : tables_ok c s -> loop_ok c (bi_loop bi) -> loop_nrand_ok r ->
  exists t, loopUpdate s taken bi r = Ok (with_ltable s t) /\ tables_ok c (with_ltable s t).
Proof.
  intros Hs Hlp Hr. pose proof (tb_loop _ _ Hs) as [Hl Hf]. unfold loopUpdate.
  destruct (Z.leb_spec 0 (loopHit (bi_loop bi))).
  - destruct Hlp as [[Hx1 Hx2] Hh _].
    destruct (aread_in_bounds (ltable s) (loopIndex (bi_loop bi) + loopHit (bi_loop bi)) ltac:(lia)) as (e & He & ->).
    cbn [mbind res_bind]. pose proof (Forall_lookup_1 _ _ _ _ Hf He) as Hok.
    destruct (lt_write (ltable s) (loopIndex (bi_loop bi) + loopHit (bi_loop bi))
                (loop_hit_update e taken (bi_loop bi) (tagePred (bi_tage bi)))) as (t & -> & Ht);
      [done|lia|by apply loop_hit_update_ok|].
    exists t. split; [done|]. by apply with_ltable_ok.
  - assert (with_ltable s (ltable s) = s) as Eid by (by destruct s).
    destruct taken; [|by exists (ltable s); rewrite Eid].
    destruct (loop_alloc_ok (ltable s) (bi_loop bi) true r 0 4) as (t & -> & Ht); [done..|].
    exists t. split; [done|]. by apply with_ltable_ok.
Qed.

Lemma update_choice_ok s tp taken : tables_ok c s -> tage_ok c tp ->
  exists alloc s', update_choice s tp taken = Ok (alloc, s') /\ tables_ok c s' /\
    threadHistory s' = threadHistory s /\ gtable s' = gtable s /\ tCounter s' = tCounter s /\
    alloc = negb (eqb (tagePred tp) taken) && (hitBank tp <? nHistoryTables c) &&
            negb ((0 <? hitBank tp) && pseudoNewAlloc tp && eqb (longestMatchPred tp) taken).
Proof.
  intros Hs Htp. unfold update_choice. rewrite (tb_cfg _ _ Hs).
  destruct ((0 <? hitBank tp) && pseudoNewAlloc tp) eqn:E; cbn [andb negb].
  2: { eexists _, s. split; [done|]. split_and!; try done. by rewrite andb_true_r. }
  assert (Hal : (if eqb (longestMatchPred tp) taken then false
     else negb (eqb (tagePred tp) taken) && (hitBank tp <? nHistoryTables c)) =
     negb (eqb (tagePred tp) taken) && (hitBank tp <? nHistoryTables c) && negb (eqb (longestMatchPred tp) taken)).
  { destruct (eqb (longestMatchPred tp) taken); cbn; by rewrite ?andb_false_r, ?andb_true_r. }
  destruct (negb (eqb (longestMatchPred tp) (altTaken tp))); [|eexists _, s; split; [done|]; by split_and!].
  rewrite ctrUpdate_ok; [|lia|pose proof (tb_alt _ _ Hs); change (4 - 1) with 3; change (2 ^ 3) with 8; lia].
  cbn [mbind res_bind]. eexists _, _. split; [done|]. split_and!; try done.
  pose proof (tb_alt _ _ Hs). destruct Hs. split; cbn; try done.
  change (8 - 1) with 7. destruct (eqb (altTaken tp) taken); lia.
Qed.

Lemma min_useful_ok gt idx hit : gt_ok c gt -> 0 <= hit < nHistoryTables c ->
  (forall i, 1 <= i <= nHistoryTables c -> exists j, oread idx i = Ok j /\ slot c i j) ->
  exists m, min_useful gt idx (nHistoryTables c) hit = Ok m /\ 0 <= m <= 1 /\
    (m = 1 <-> forall i j e, hit < i <= nHistoryTables c -> oread idx i = Ok j -> gread gt i j = Ok e -> u e = 1).
Proof.
  intros Hg Hh Hidx. unfold min_useful.
  loop_invariant (fun k m => 0 <= m <= 1 /\
      (m = 1 <-> forall i j e, nHistoryTables c - k < i <= nHistoryTables c -> oread idx i = Ok j -> gread gt i j = Ok e -> u e = 1));
    [lia|split; [lia|]; split; [lia|done]| |].
  - intros k m Hk (Hm & Hiff). cbv zeta. destruct (Hidx (nHistoryTables c - k) ltac:(lia)) as (j & Hj & Hsl).
    destruct (gread_ok gt _ j Hg Hsl) as (e & He & _ & Hu). rewrite Hj. cbn [mbind res_bind]. rewrite He.
    eexists. split; [done|]. split; [case_match; lia|]. split.
    + intros H1 i' j' e' Hi' Hj' He'. destruct (decide (i' = nHistoryTables c - k)) as [->|].
      * rewrite Hj in Hj'. injection Hj' as <-. rewrite He in He'. injection He' as <-. case_match; lia.
      * destruct Hiff as [Hf _]. eapply Hf; [destruct (Z.ltb_spec (u e) m); lia| |done|done]. lia.
    + intros H1. pose proof (H1 (nHistoryTables c - k) j e ltac:(lia) Hj He) as Hu1. destruct Hiff as [_ Hb].
      rewrite Hb; [case_match; lia|]. intros i' j' e' Hi'. apply H1. lia.
  - destruct Hinv as (Hm & Hiff). eexists. split; [done|]. split; [done|].
    by replace (nHistoryTables c - (nHistoryTables c - hit)) with hit in Hiff by lia.
Qed.

Lemma first_bank_ok hit nrand : 0 <= hit < nHistoryTables c -> 0 <= nrand <= 3 ->
  exists X, first_bank (nHistoryTables c) hit nrand = Ok X /\ hit < X <= nHistoryTables c /\ X <= hit + 3.
Proof.
  intros Hh Hr. pose proof (ok_banks _ Hc). unfold first_bank. rewrite (wrap_u_id 32), ull_mask_ok by lia.
  cbn [mbind res_bind]. eexists. split; [done|].
  set (k := nHistoryTables c - hit - 1). assert (0 <= k) by lia.
  assert (Hb : forall i, 0 <= i -> Z.testbit (Z.land nrand (2 ^ k - 1)) i = Z.testbit nrand i && (i <? k)).
  { intros i Hi. by rewrite Z.land_spec, Z.sub_1_r, <- Z.ones_equiv, testbit_ones by lia. }
  rewrite <- Z.bit0_odd, (Hb 0) by lia.
  assert (H2 : (Z.land (Z.land nrand (2 ^ k - 1)) 2 =? 0) = negb (Z.testbit nrand 1 && (1 <? k))).
  { rewrite <- Hb by lia. destruct (Z.testbit (Z.land nrand (2 ^ k - 1)) 1) eqn:E.
    - apply Z.eqb_neq. intros Hz. assert (Z.testbit (Z.land (Z.land nrand (2 ^ k - 1)) 2) 1 = false) as Hf by (by rewrite Hz, Z.bits_0).
      by rewrite Z.land_spec, E in Hf.
    - apply Z.eqb_eq. apply bits_ext. intros i Hi. rewrite Z.land_spec, Z.bits_0.
      destruct (decide (i = 1)) as [->|]; [by rewrite E|]. change 2 with (2 ^ 1). rewrite Z.pow2_bits_false by done. apply andb_false_r. }
  rewrite H2. destruct (Z.ltb_spec 0 k), (Z.ltb_spec 1 k); rewrite ?andb_false_r, ?andb_true_r; cbn [negb];
    repeat case_match; lia.
Qed.

(** The entry [alloc_step] leaves where it found [e]. *)
Definition taken_over (e : TageEntry) (taken : bool) (t : Z) : TageEntry :=
  if u e =? 0 then {| ctr := if taken then 0 else -1; g_tag := u16 t; u := 0 |} else e.

(** What [allocate] leaves in the table: from bank [X] on, every entry looked
    up that is not useful is taken over; [clear] says that the one of bank [X]
    was made available by force. *)
Definition cleared (e : TageEntry) (clear : bool) : TageEntry :=
  if clear then {| ctr := ctr e; g_tag := g_tag e; u := 0 |} else e.
Definition alloc_entry (gt : list (list TageEntry)) (tp : TagePred) (taken : bool) (i : Z) (e : TageEntry) : Prop :=
  exists j old t, oread (bi_tableIndices tp) i = Ok j /\ gread gt i j = Ok old /\ oread (bi_tableTags tp) i = Ok t /\
    e = taken_over old taken t.
Definition alloc_spec (gt gt' : list (list TageEntry)) (tp : TagePred) (taken : bool) (X : Z) : Prop :=
  (forall i j, X <= i <= nHistoryTables c -> oread (bi_tableIndices tp) i = Ok j ->
     exists e, gread gt' i j = Ok e /\ alloc_entry gt tp taken i e) /\
  (forall i j, slot c i j -> i < X \/ oread (bi_tableIndices tp) i <> Ok j -> gread gt' i j = gread gt i j).

Lemma alloc_step_ok tp taken k gt : gt_ok c gt -> tage_ok c tp -> 1 <= k <= nHistoryTables c ->
  exists gt' j e, alloc_step tp taken k gt = Ok gt' /\ gt_ok c gt' /\ oread (bi_tableIndices tp) k = Ok j /\
    gread gt' k j = Ok e /\ alloc_entry gt tp taken k e /\
    forall i' j', slot c i' j' -> (i', j') <> (k, j) -> gread gt' i' j' = gread gt i' j'.
Proof.
  intros Hg Htp Hk. destruct (tp_indices _ _ Htp k Hk) as (j & Hj & Hsl). destruct (tp_tags _ _ Htp k Hk) as (t & Ht).
  destruct (gread_ok _ _ _ Hg Hsl) as (e & He & _). unfold alloc_step. rewrite Hj. cbn [mbind res_bind].
  rewrite He. cbn [mbind res_bind]. unfold alloc_entry, taken_over. destruct (u e =? 0) eqn:E.
  - rewrite Ht. cbn [mbind res_bind].
    destruct (gwrite_ok gt k j {| ctr := if taken then 0 else -1; g_tag := u16 t; u := 0 |} Hg Hsl) as (gt' & -> & Hgt' & Hw & Ho).
    { split; cbn; [|lia]. pose proof (pow2_pos (tagTableCounterBits c - 1)). pose proof (ok_bits _ Hc). destruct taken; lia. }
    eexists gt', j, _. split_and!; [done|done|done|exact Hw| |done]. exists j, e, t. by rewrite E.
  - exists gt, j, e. split_and!; [done|done|done|done| |done]. exists j, e, t. by rewrite E.
Qed.

Lemma alloc_loop_ok tp taken X gt : gt_ok c gt -> tage_ok c tp -> 1 <= X <= nHistoryTables c ->
  exists gt', for_range X (nHistoryTables c + 1) (alloc_step tp taken) gt = Ok gt' /\ gt_ok c gt' /\
    alloc_spec gt gt' tp taken X.
Proof.
  intros Hg Htp HX.
  loop_invariant (fun k gt' => gt_ok c gt' /\
      (forall i j, X <= i < k -> oread (bi_tableIndices tp) i = Ok j ->
         exists e, gread gt' i j = Ok e /\ alloc_entry gt tp taken i e) /\
      (forall i j, slot c i j -> i < X \/ k <= i \/ oread (bi_tableIndices tp) i <> Ok j -> gread gt' i j = gread gt i j)).
  - lia.
  - split; [done|]. split; [lia|done].
  - intros k g Hk (Hgt & Hdone & Hrest).
    destruct (alloc_step_ok tp taken k g Hgt Htp ltac:(lia)) as (g' & j & e & -> & Hg' & Hj & He & Hal & Ho).
    exists g'. split; [done|]. split; [done|]. split.
    + intros i j' Hi Hj'. destruct (tp_indices _ _ Htp i ltac:(lia)) as (j2 & Hj2 & Hsl2).
      rewrite Hj2 in Hj'. injection Hj' as <-. destruct (decide (i = k)) as [->|].
      * rewrite Hj in Hj2. injection Hj2 as <-. exists e. split; [done|].
        destruct Hal as (j1 & old & t & K1 & K2 & K3 & K4). exists j1, old, t. split_and!; try done.
        rewrite Hj in K1. injection K1 as <-. rewrite <- K2. symmetry. apply Hrest; [done|]. right; left. lia.
      * rewrite Ho by (done || congruence). apply Hdone; [lia|done].
    + intros i j' Hs' Hcond. destruct (decide ((i, j') = (k, j))) as [[= -> ->]|Hne].
      * exfalso. destruct Hcond as [|[|Hc']]; [lia|lia|by apply Hc'].
      * rewrite Ho by done. apply Hrest; [done|]. destruct Hcond as [?|[?|?]]; auto. right; left. lia.
  - destruct Hinv as (Hg2 & Hdone & Hrest). eexists. split; [done|]. split; [done|]. split.
    + intros i j Hi Hj. apply Hdone; [lia|done].
    + intros i j Hsl Hcond. pose proof (slot_bank i j Hsl). apply Hrest; [done|]. destruct Hcond; auto.
Qed.

(** The table the loop starts from: one entry is freed when none is available. *)
Definition make_room (gt gt1 : list (list TageEntry)) (tp : TagePred) (X m : Z) : Prop :=
  forall i j e, slot c i j -> gread gt i j = Ok e ->
    gread gt1 i j = Ok (cleared e (bool_decide (0 < m /\ i = X /\ oread (bi_tableIndices tp) X = Ok j))).

Lemma make_room_ok gt tp X m : gt_ok c gt -> tage_ok c tp -> 1 <= X <= nHistoryTables c ->
  exists gt1, (if 0 <? m then j ← oread (bi_tableIndices tp) X; e ← gread gt X j;
     gwrite gt X j {| ctr := ctr e; g_tag := g_tag e; u := 0 |} else Ok gt) = Ok gt1 /\ gt_ok c gt1 /\
    make_room gt gt1 tp X m.
Proof.
  intros Hg Htp HX. destruct (tp_indices _ _ Htp X HX) as (jX & HjX & HslX).
  destruct (gread_ok _ _ _ Hg HslX) as (eX & HeX & HeXr & HeXu). destruct (Z.ltb_spec 0 m).
  - rewrite HjX. cbn [mbind res_bind]. rewrite HeX. cbn [mbind res_bind].
    destruct (gwrite_ok gt X jX {| ctr := ctr eX; g_tag := g_tag eX; u := 0 |} Hg HslX) as (g' & -> & Hg' & Hr' & Ho').
    { split; cbn; [done|lia]. }
    exists g'. split; [done|]. split; [done|]. intros i j e Hsl He. case_bool_decide as Hd.
    + destruct Hd as (_ & -> & Hj). rewrite HjX in Hj. injection Hj as <-. rewrite HeX in He. by injection He as <-.
    + rewrite Ho'; [done|done|]. intros [= -> ->]. by apply Hd.
  - exists gt. split; [done|]. split; [done|]. intros i j e Hsl He. rewrite bool_decide_false by lia. done.
Qed.

Lemma allocate_ok s tp taken nrand : tables_ok c s -> tage_ok c tp -> hitBank tp < nHistoryTables c -> 0 <= nrand <= 3 ->
  exists gt1 gt' X m, allocate s tp taken nrand = Ok (with_gtable s gt') /\ gt_ok c gt' /\
    first_bank (nHistoryTables c) (hitBank tp) nrand = Ok X /\
    min_useful (gtable s) (bi_tableIndices tp) (nHistoryTables c) (hitBank tp) = Ok m /\
    make_room (gtable s) gt1 tp X m /\ alloc_spec gt1 gt' tp taken X.
Proof.
  intros Hs Htp Hlt Hr. pose proof (tb_gt _ _ Hs) as Hg. pose proof (tp_hit _ _ Htp) as Hh.
  destruct (min_useful_ok (gtable s) (bi_tableIndices tp) (hitBank tp) Hg ltac:(lia) (tp_indices _ _ Htp)) as (m & Em & Hm & _).
  destruct (first_bank_ok (hitBank tp) nrand ltac:(lia) Hr) as (X & EX & HX & _).
  unfold allocate. rewrite (tb_cfg _ _ Hs), Em. cbn [mbind res_bind]. rewrite EX. cbn [mbind res_bind].
  destruct (make_room_ok (gtable s) tp X m Hg Htp ltac:(lia)) as (gt1 & -> & Hg1 & Hroom). cbn [mbind res_bind].
  destruct (alloc_loop_ok tp taken X gt1 Hg1 Htp ltac:(lia)) as (gt' & -> & Hg' & Hal). cbn [mbind res_bind].
  by exists gt1, gt', X, m.
Qed.

(** The periodic reset halves every [u]. *)
Definition halve (e : TageEntry) : TageEntry := {| ctr := ctr e; g_tag := g_tag e; u := Z.shiftr (u e) 1 |}.

Lemma halve_ok e : TageEntry_ok c e -> TageEntry_ok c (halve e) /\ s8 (Z.shiftr (u e) 1) = Z.shiftr (u e) 1.
Proof.
  intros [H1 H2]. assert (u e = 0 \/ u e = 1) as Hu by lia.
  split; [split; cbn; [done|]|]; destruct Hu as [->| ->]; done.
Qed.

Lemma reset_useful_ok gt : gt_ok c gt ->
  exists gt', reset_useful c gt = Ok gt' /\ gt_ok c gt' /\
    forall i j e, slot c i j -> gread gt i j = Ok e -> gread gt' i j = Ok (halve e).
Proof.
  intros Hg. unfold reset_useful.
  loop_invariant (fun k gt' => gt_ok c gt' /\ forall i j e, slot c i j -> gread gt i j = Ok e ->
    gread gt' i j = Ok (if i <? k then halve e else e)).
  - pose proof (ok_banks _ Hc). lia.
  - split; [done|]. intros i j e (Hi & _) He. by rewrite (proj2 (Z.ltb_ge i 1)) by lia.
  - intros k g Hk (Hgt & Hdone). destruct (bank_shape_at k ltac:(lia)) as (o & sz & w & Hsh & (_ & Hsz & _) & _ & -> & _).
    cbn [mbind res_bind]. rewrite ull_mask_ok by lia. cbn [mbind res_bind].
    assert (Hslot : forall j, 0 <= j < 2 ^ sz -> slot c k j) by (intros j Hj; split; [lia|by exists o, sz, w]).
    loop_invariant (fun n g' => gt_ok c g' /\ forall i j e, slot c i j -> gread gt i j = Ok e ->
      gread g' i j = Ok (if (i <? k) || ((i =? k) && (j <? n)) then halve e else e)).
    + pose proof (pow2_pos sz). lia.
    + split; [done|]. intros i j e Hsl He. rewrite (Hdone i j e) by done. destruct Hsl as (_ & ? & ? & ? & _ & Hj).
      by rewrite (proj2 (Z.ltb_ge j 0)), andb_false_r, orb_false_r by lia.
    + intros n g' Hn (Hg' & Hd). pose proof (Hslot n ltac:(lia)) as Hsl.
      destruct (gread_ok gt k n Hg Hsl) as (e & He & Her). destruct (halve_ok e Her) as [Hhr Hs8].
      pose proof (Hd k n e Hsl He) as Hcur. rewrite Z.ltb_irrefl, Z.eqb_refl, Z.ltb_irrefl in Hcur. cbn [orb andb] in Hcur.
      rewrite Hcur. cbn [mbind res_bind]. rewrite Hs8.
      destruct (gwrite_ok g' k n (halve e) Hg' Hsl Hhr) as (g2 & E2 & Hg2 & Hw & Ho).
      unfold halve at 1 in E2. rewrite E2. exists g2. split; [done|]. split; [done|].
      intros i j e' Hsl' He'. destruct (decide ((i, j) = (k, n))) as [[= -> ->]|Hne].
      * rewrite He in He'. injection He' as <-. rewrite Hw, Z.eqb_refl, (proj2 (Z.ltb_lt n (n + 1))) by lia. by rewrite orb_true_r.
      * rewrite Ho by done. rewrite (Hd i j e') by done.
        destruct (Z.eqb_spec i k) as [->|]; cbn [andb]; [|done].
        destruct (Z.ltb_spec j n), (Z.ltb_spec j (n + 1)); try done; [lia|]. exfalso. apply Hne. f_equal. lia.
    + destruct Hinv as (Hg2 & Hd). eexists. split; [done|]. split; [done|]. intros i j e Hsl He.
      rewrite (Hd i j e) by done. destruct Hsl as (_ & o' & s' & t' & Hs' & Hj).
      destruct (Z.ltb_spec i k), (Z.ltb_spec i (k + 1)), (Z.eqb_spec i k); cbn [orb andb]; try done; try lia.
      subst i. rewrite Hsh in Hs'. injection Hs' as <- <- <-. by rewrite (proj2 (Z.ltb_lt j _)) by lia.
  - destruct Hinv as (Hg' & Hd). eexists. split; [done|]. split; [done|]. intros i j e Hsl He.
    rewrite (Hd i j e) by done. pose proof (slot_bank i j Hsl). by rewrite (proj2 (Z.ltb_lt i _)) by lia.
Qed.

Lemma tick_ok s : tables_ok c s -> tCounter s + 1 < 2 ^ 31 ->
  exists s', tick s = Ok s' /\ tables_ok c s' /\ threadHistory s' = threadHistory s /\ tCounter s' = tCounter s + 1 /\
    forall i j e, slot c i j -> gread (gtable s) i j = Ok e ->
      gread (gtable s') i j = Ok (if (tCounter s + 1) mod 2 ^ 19 =? 0 then halve e else e).
Proof.
  intros Hs Hlt. pose proof (tb_count _ _ Hs). unfold tick. rewrite int_ok_in by lia. cbn [mbind res_bind].
  cbn [cfg with_tCounter tCounter gtable]. rewrite (tb_cfg _ _ Hs), (ok_tick _ Hc). rewrite ull_mask_ok by lia.
  cbn [mbind res_bind]. rewrite Z.sub_1_r, <- Z.ones_equiv, Z.land_ones by lia.
  assert (Hs' : tables_ok c (with_tCounter s (tCounter s + 1))) by (destruct Hs; split; cbn; try done; lia).
  destruct (Z.eqb_spec ((tCounter s + 1) mod 2 ^ 19) 0) as [Hz|Hz].
  - destruct (reset_useful_ok (gtable s) (tb_gt _ _ Hs)) as (gt' & -> & Hg' & Hh). cbn [mbind res_bind].
    eexists. split; [done|]. split; [by apply with_gtable_ok|]. split_and!; try done.
  - eexists. split; [done|]. by split_and!.
Qed.

Lemma train_entry_ok s i j taken : tables_ok c s -> slot c i j ->
  exists gt, train_entry s i j taken = Ok (with_gtable s gt) /\ gt_ok c gt.
Proof.
  intros Hs Hsl. pose proof (tb_gt _ _ Hs) as Hg. destruct (gread_ok _ _ _ Hg Hsl) as (e & He & Hr & Hu).
  unfold train_entry. rewrite He. cbn [mbind res_bind]. rewrite (tb_cfg _ _ Hs).
  pose proof (ok_bits _ Hc). rewrite ctrUpdate_ok by lia. cbn [mbind res_bind].
  destruct (gwrite_ok _ i j {| ctr := if taken then Z.min (ctr e + 1) (2 ^ (tagTableCounterBits c - 1) - 1)
              else Z.max (ctr e - 1) (- 2 ^ (tagTableCounterBits c - 1)); g_tag := g_tag e; u := u e |} Hg Hsl)
    as (gt & -> & Hg' & _).
  { split; [apply ctr_range; done || lia|done]. }
  by exists gt.
Qed.

(** A step of training keeps the tables well formed and leaves the histories
    and the tick counter alone. *)
Definition trains (s : LTAGE) (m : res LTAGE) : Prop :=
  exists s', m = Ok s' /\ tables_ok c s' /\ threadHistory s' = threadHistory s /\ tCounter s' = tCounter s.

Lemma trains_refl s : tables_ok c s -> trains s (Ok s).
Proof. intros Hs. by exists s. Qed.

Lemma trains_bind s m (f : LTAGE -> res LTAGE) :
  trains s m -> (forall s', tables_ok c s' -> trains s' (f s')) -> trains s (m ≫= f).
Proof.
  intros (s1 & -> & H1 & H2 & H3) Hf. destruct (Hf s1 H1) as (s2 & E & K1 & K2 & K3).
  cbn [mbind res_bind]. exists s2. split_and!; [done|done|congruence|congruence].
Qed.

Lemma train_entry_trains s i j taken : tables_ok c s -> slot c i j -> trains s (train_entry s i j taken).
Proof. intros Hs Hsl. destruct (train_entry_ok s i j taken Hs Hsl) as (gt & -> & Hg). eexists. split; [done|]. split; [by apply with_gtable_ok|done]. Qed.

Lemma baseUpdate_trains s idx taken : tables_ok c s -> 0 <= idx < 2 ^ logSizeBiMP c -> trains s (baseUpdate s idx taken).
Proof. intros Hs Hi. destruct (baseUpdate_ok s idx taken Hs Hi) as (t & -> & Ht). eexists. split; [done|]. by split. Qed.

Lemma train_trains s tp taken : tables_ok c s -> tage_ok c tp -> trains s (train s tp taken).
Proof.
  intros Hs Htp. unfold train. destruct (Z.ltb_spec 0 (hitBank tp)) as [Hpos|]; [|by apply baseUpdate_trains, Htp].
  pose proof (tp_hit_slot _ _ Htp Hpos) as Hsl. apply trains_bind; [by apply train_entry_trains|].
  clear s Hs. intros s Hs. destruct (gread_ok _ _ _ (tb_gt _ _ Hs) Hsl) as (e & He & _ & Hu). rewrite He. cbn [mbind res_bind].
  apply trains_bind.
  - destruct (u e =? 0); [|by apply trains_refl]. apply trains_bind.
    + destruct (Z.ltb_spec 0 (altBank tp)) as [Ha|]; [|by apply trains_refl].
      apply train_entry_trains; [done|by apply tp_alt_slot].
    + clear s Hs He. intros s Hs. case_match; [|by apply trains_refl]. apply baseUpdate_trains; [done|apply Htp].
  - clear s Hs e He Hu. intros s Hs. case_match; [|by apply trains_refl].
    destruct (gread_ok _ _ _ (tb_gt _ _ Hs) Hsl) as (e & He & Hr & Hu). rewrite He. cbn [mbind res_bind].
    case_match; [|by apply trains_refl].
    destruct (gwrite_ok _ _ _ {| ctr := ctr e; g_tag := g_tag e; u := s8 (u e + 1) |} (tb_gt _ _ Hs) Hsl) as (gt & -> & Hg & _).
    { split; cbn; [done|]. rewrite (wrap_s_id 8) by lia. lia. }
    eexists. split; [done|]. split; [by apply with_gtable_ok|done].
Qed.

(** [update] of a committed branch. *)
Lemma update_tables_ok s taken bi r lr :
  tables_ok c s -> tage_ok c (bi_tage bi) -> loop_ok c (bi_loop bi) ->
  0 <= r <= 3 -> loop_nrand_ok lr -> tCounter s + 1 < 2 ^ 31 ->
  exists s', update_tables s taken bi r lr = Ok s' /\ tables_ok c s' /\
    threadHistory s' = threadHistory s /\ tCounter s' = tCounter s + 1.
Proof.
  intros Hs Htp Hlp Hr Hlr Hcnt. unfold update_tables.
  destruct (loopUpdate_ok s taken bi lr Hs Hlp Hlr) as (t & -> & Hs1). cbn [mbind res_bind].
  assert (threadHistory (with_ltable s t) = threadHistory s /\ tCounter (with_ltable s t) = tCounter s) as [Eh1 Ec1] by done.
  set (s1 := with_ltable s t) in *. clearbody s1.
  assert (exists s2, (if loopPredValid (bi_loop bi) && negb (eqb (tagePred (bi_tage bi)) (loopPred (bi_loop bi)))
            then v ← ctrUpdate (loopUseCounter s1) (eqb (loopPred (bi_loop bi)) taken) 7; Ok (with_loopUse s1 v)
            else Ok s1) = Ok s2 /\ tables_ok c s2 /\ threadHistory s2 = threadHistory s /\ tCounter s2 = tCounter s)
    as (s2 & -> & Hs2 & Eh & Ec).
  { case_match; [|by exists s1]. pose proof (tb_use _ _ Hs1) as Hu. rewrite <- Eh1, <- Ec1.
    rewrite ctrUpdate_ok; [|lia|change (7 - 1) with 6; change (2 ^ 6) with 64; lia].
    eexists. split; [done|]. split; [|done]. destruct Hs1. split; cbn; try done.
    change (7 - 1) with 6. destruct (eqb (loopPred (bi_loop bi)) taken); lia. }
  cbn [mbind res_bind].
  destruct (update_choice_ok s2 (bi_tage bi) taken Hs2 Htp) as (al & s3 & -> & Hs3 & Eh3 & _ & Ec3 & Eal).
  cbn [mbind res_bind].
  assert (exists s4, (if al then allocate s3 (bi_tage bi) taken r else Ok s3) = Ok s4 /\ tables_ok c s4 /\
            threadHistory s4 = threadHistory s3 /\ tCounter s4 = tCounter s3) as (s4 & -> & Hs4 & Eh4 & Ec4).
  { destruct al; [|by exists s3]. symmetry in Eal. apply andb_true_iff in Eal as [[_ Hlt]%andb_true_iff _].
    destruct (allocate_ok s3 (bi_tage bi) taken r Hs3 Htp ltac:(lia) Hr) as (_ & gt' & _ & _ & -> & Hg & _).
    eexists. split; [done|]. split; [by apply with_gtable_ok|done]. }
  cbn [mbind res_bind]. destruct (tick_ok s4 Hs4) as (s5 & -> & Hs5 & Eh5 & Ec5 & _); [rewrite Ec4, Ec3, Ec; lia|].
  cbn [mbind res_bind]. destruct (train_trains s5 (bi_tage bi) taken Hs5 Htp) as (s6 & -> & Hs6 & Eh6 & Ec6).
  exists s6. split_and!; [done|done|congruence|]. rewrite Ec6, Ec5, Ec4, Ec3, Ec. done.
Qed.

Lemma restore_loop_ok s bi : tables_ok c s -> bi_ok c bi ->
  exists t, restore_loop s bi = Ok (with_ltable s t) /\ tables_ok c (with_ltable s t).
Proof.
  intros Hs Hb. assert (with_ltable s (ltable s) = s) as Eid by (by destruct s).
  unfold restore_loop, bi_ok in *. destruct (condBranch bi); [|by exists (ltable s); rewrite Eid].
  destruct Hb as [_ [[Hx1 Hx2] Hh Hit]]. destruct (Z.leb_spec 0 (loopHit (bi_loop bi))) as [H0|]; [|by exists (ltable s); rewrite Eid].
  destruct (tb_loop _ _ Hs) as [Hl Hf]. cbn [andb].
  destruct (aread_in_bounds (ltable s) (loopIndex (bi_loop bi) + loopHit (bi_loop bi)) ltac:(lia)) as (e & He & ->).
  cbn [mbind res_bind].
  destruct (lt_write (ltable s) (loopIndex (bi_loop bi) + loopHit (bi_loop bi)) (set_spec e (bi_currentIter (bi_loop bi)))) as (t & -> & Ht);
    [done|lia|apply set_spec_ok; [by eapply Forall_lookup_1|done]|].
  exists t. split; [done|]. by apply with_ltable_ok.
Qed.
End Banks.
