(* ===== verification/LtageCorrect.v ===== *)
(** The L-TAGE predictor at work: its construction, the events a processor
    subjects it to, and the theorems on every state they reach. *)
From Stdlib Require Import Sorting.Sorted.
From S2P Require Import Prelude Bitfield DirPred LtageHist Ltage LtageSafe.

(** * Construction *)

Record params_ok (p : LTAGEParams) : Prop := {
  po_threads : 0 <= p_numThreads p;
  po_bimp : 0 <= p_logSizeBiMP p <= 30;
  po_tables : 3 <= p_logSizeTagTables p <= 30;
  po_loop : 2 <= p_logSizeLoopPred p <= 30;
  po_banks : 1 <= p_nHistoryTables p <= 12;
  po_bits : 1 <= p_tagTableCounterBits p <= 8;
  po_min : 1 <= p_minHist p <= p_maxHist p;
  po_size : 2 * p_maxHist p < p_histBufferSize p < 2 ^ 31;
  po_tags : 3 <= p_minTagWidth p <= 23 }.

(** [pow] gives lengths between the two ends. *)
Definition geometric_ok (p : LTAGEParams) (g : Z -> Z) : Prop :=
  forall i, 2 <= i <= p_nHistoryTables p -> 1 <= g i <= p_maxHist p.

Section Construction.
Context (p : LTAGEParams) (g : Z -> Z) (Hp : params_ok p) (Hg : geometric_ok p g).
Let c := LTAGE_cfg p g.

Lemma shapes_ok : Forall (shape_ok (maxHist c)) (shapes c).
Proof using Hp Hg.
  destruct Hp. apply Forall_lookup. intros i [o [s t]] Hi. unfold shapes in Hi.
  apply lookup_zip_Some in Hi as [H1 Hi]. apply lookup_zip_Some in Hi as [H2 H3].
  assert (Forall (fun o => 0 < o <= p_maxHist p) (hist_lengths p g)) as F1.
  { unfold hist_lengths. constructor; [case_match; lia|]. apply Forall_fmap, Forall_forall.
    intros k Hk%elem_of_seqZ. cbn. pose proof (Hg k ltac:(lia)). lia. }
  assert (Forall (fun s => 0 < s < 31) (tag_table_sizes (p_logSizeTagTables p))) as F2
    by (unfold tag_table_sizes; repeat (constructor; [cbv beta; lia|]); constructor).
  assert (Forall (fun t => 1 < t < 32) (tag_widths (p_minTagWidth p))) as F3
    by (unfold tag_widths; repeat (constructor; [cbv beta; lia|]); constructor).
  pose proof (Forall_lookup_1 _ _ _ _ F1 H1) as K1. pose proof (Forall_lookup_1 _ _ _ _ F2 H2) as K2.
  pose proof (Forall_lookup_1 _ _ _ _ F3 H3) as K3. cbn in K1, K2, K3 |- *. lia.
Qed.

Lemma LTAGE_cfg_ok : cfg_ok c.
Proof using Hp Hg.
  pose proof shapes_ok as Hsh. destruct Hp. split; cbn; try done; try lia.
  - split; cbn; [lia|lia|done].
  - rewrite length_fmap, length_seqZ. lia.
Qed.

Lemma folded_zeros k n m : folded k (take n (replicate m 0)) = 0.
Proof.
  rewrite take_replicate. unfold folded. generalize 0 at 1. generalize (n `min` m)%nat.
  intros l. induction l as [|l IH]; intros z; cbn [replicate fold_from]; [done|].
  by rewrite Z.shiftl_0_l, Z.lxor_0_l.
Qed.

Lemma fold_init_ok o k w : 0 < o -> 0 < k < 32 -> (exists m, w = replicate m 0) ->
  exists f, FoldedHistory_init o k = Ok f /\ fold_ok o k w f /\ origLength f = o.
Proof.
  intros Ho Hk (m & ->). unfold FoldedHistory_init. rewrite (proj2 (Z.eqb_neq k 0)) by lia. cbn [negb].
  eexists. split; [done|]. split; [|done]. split; [|cbn; by rewrite folded_zeros].
  split_and!; cbn; try done; try lia. apply Z.rem_mod_nonneg; lia.
Qed.

Lemma bank_init_ok i w : 1 <= i <= p_nHistoryTables p -> (exists m, w = replicate m 0) ->
  exists f, bank_init c i = Ok f /\ exists sh, shapes c !! Z.to_nat (i - 1) = Some sh /\ bank_ok w sh f.
Proof using Hp Hg.
  intros Hi Hw. destruct (bank_shape_at c LTAGE_cfg_ok i Hi) as (o & s & t & Hsh & (Ho & Hs & Ht) & H1 & H2 & H3).
  unfold bank_init. rewrite H1, H2. cbn [mbind res_bind].
  destruct (fold_init_ok o s w) as (f1 & -> & K1 & E1); [lia|lia|done|]. cbn [mbind res_bind].
  rewrite H3. cbn [mbind res_bind]. rewrite E1.
  destruct (fold_init_ok o t w) as (f2 & -> & K2 & _); [lia|lia|done|]. cbn [mbind res_bind].
  destruct (fold_init_ok o (t - 1) w) as (f3 & -> & K3 & _); [lia|lia|done|]. cbn [mbind res_bind].
  eexists. split; [done|]. exists (o, (s, t)). by split_and!.
Qed.

(** An array built bank by bank. *)
Lemma banks_Forall2 {A} (f : Z -> res A) (Q : Z * (Z * Z) -> A -> Prop) :
  (forall i, 1 <= i <= p_nHistoryTables p ->
     exists a, f i = Ok a /\ exists sh, shapes c !! Z.to_nat (i - 1) = Some sh /\ Q sh a) ->
  exists l, mapM f (banks c) = Ok l /\ Forall2 Q (shapes c) l.
Proof using Hp Hg.
  intros H. destruct (mapM_res f (fun i a => exists sh, shapes c !! Z.to_nat (i - 1) = Some sh /\ Q sh a) (banks c))
    as (l & -> & Hl).
  { intros i Hi%elem_of_seqZ. cbn in Hi. apply H. lia. }
  exists l. split; [done|]. pose proof (shapes_length c LTAGE_cfg_ok) as Hlen. change (nHistoryTables c) with (p_nHistoryTables p) in Hlen.
  pose proof (Forall2_length _ _ _ Hl) as Hll. unfold banks in Hll. rewrite length_seqZ in Hll. cbn in Hll.
  apply Forall2_same_length_lookup. split; [lia|]. intros k sh a Hsh Ha.
  pose proof (lookup_lt_Some _ _ _ Hsh) as Hk.
  assert (banks c !! k = Some (1 + Z.of_nat k)) as Hb by (apply lookup_seqZ; cbn; lia).
  destruct (Forall2_lookup_lr _ _ _ _ _ _ Hl Hb Ha) as (_ & sh' & Hsh' & HQ).
  replace (Z.to_nat (1 + Z.of_nat k - 1)) with k in Hsh' by lia. congruence.
Qed.

Definition spec_init : SpecHist := {| now := replicate (Z.to_nat (p_maxHist p)) 0; path := 0; flight := [] |}.

Lemma LTAGE_new_ok : exists s t,
  LTAGE_new p g = Ok s /\ tables_ok c s /\ threadHistory s = replicate (Z.to_nat (p_numThreads p)) t /\
  hist_inv c t [] spec_init.
Proof using Hp Hg.
  pose proof Hp as [? ? ? ? ? ? ? ? ?]. unfold LTAGE_new. rewrite (wrap_u_id 32) by lia.
  rewrite (proj2 (Z.ltb_lt _ _)) by lia. rewrite (proj2 (Z.leb_le _ _)) by lia. fold c.
  destruct (banks_Forall2 (bank_init c) (bank_ok (replicate (Z.to_nat (p_maxHist p)) 0))) as (fs & -> & Hfs).
  { intros i Hi. apply bank_init_ok; [done|by eexists]. }
  cbn [mbind res_bind]. rewrite !ull_mask_ok by lia. cbn [mbind res_bind].
  destruct (banks_Forall2 (bank_table c) (fun sh t => Z.of_nat (length t) = 2 ^ sh.2.1 /\ Forall (TageEntry_ok c) t)) as (gt & -> & Hgt).
  { intros i Hi. destruct (bank_shape_at c LTAGE_cfg_ok i Hi) as (o & s & t & Hsh & (_ & Hs & _) & _ & H2 & _).
    unfold bank_table. rewrite H2. cbn [mbind res_bind]. rewrite (proj2 (andb_true_iff _ _)) by lia.
    eexists. split; [done|]. exists (o, (s, t)). split; [done|]. cbn. rewrite length_replicate.
    pose proof (pow2_pos s). split; [lia|]. apply Forall_replicate. split; cbn; [|lia].
    pose proof (pow2_pos (p_tagTableCounterBits p - 1)). lia. }
  cbn [mbind res_bind]. eexists _, _. split; [done|].
  pose proof (pow2_pos (p_logSizeBiMP p)). pose proof (pow2_pos (p_logSizeLoopPred p)).
  split_and!.
  - split; cbn; try done; try lia.
    + rewrite length_replicate. split; [lia|]. apply Forall_replicate. split; [by left|by right].
    + rewrite length_replicate. split; [lia|]. apply Forall_replicate. split; cbn; unfold is_u16; lia.
  - done.
  - split; cbn; try done.
    + rewrite length_replicate. lia.
    + apply Forall_replicate. by left.
    + unfold ring. cbn. lia.
    + unfold window. change (Z.to_nat 0) with O. rewrite drop_0, take_replicate. f_equal. lia.
    + constructor.
Qed.
End Construction.

(** * The predictor and the branches in flight *)

(** Per thread, the records of the branches not yet committed, youngest
    first. *)
Record machine := { pred : LTAGE; flights : list (list BranchInfo) }.

(** What a processor does: it predicts a branch, conditional or not, and
    resets the prediction when the target is unknown; squashes the youngest
    [k] branches of a thread; finds, after squashing the [k] younger ones, that
    a branch was [taken] or not; commits the oldest one. *)
Inductive event :=
| Predict (tid pc : Z) (cond no_target : bool)
| Squash (tid : Z) (k : nat)
| Mispredict (tid : Z) (k : nat) (taken : bool)
| Commit (tid pc : Z) (taken : bool) (nrand loop_nrand : Z).

Definition event_thread (e : event) : Z :=
  match e with Predict t _ _ _ | Squash t _ | Mispredict t _ _ | Commit t _ _ _ _ => t end.

Fixpoint squash_list (s : LTAGE) (tid : Z) (bis : list BranchInfo) : res LTAGE :=
  match bis with [] => Ok s | bi :: bis => s ← squash s tid (Some bi); squash_list s tid bis end.

Definition make_prediction (und : Z -> Z -> Z) (s : LTAGE) (tid pc : Z) (cond : bool) : res (bool * bp_ptr * LTAGE) :=
  if cond then lookup und s tid pc
  else '(h, s) ← uncondBranch und s tid pc; Ok (true, h, s).

(** The direction is that of the prediction ([false] for the other events). *)
Definition step (und : Z -> Z -> Z) (m : machine) (e : event) : res (bool * machine) :=
  let tid := event_thread e in
  fl ← aread (flights m) tid;
  '(b, s, fl) ←
    match e with
    | Predict _ pc cond no_target =>
      '(b, h, s) ← make_prediction und (pred m) tid pc cond;
      s ← (if no_target && (b : bool) then btbUpdate s tid pc h else Ok s);
      match h with Some bi => Ok (b, s, bi :: fl) | None => Ub end
    | Squash _ k => s ← squash_list (pred m) tid (take k fl); Ok (false, s, drop k fl)
    | Mispredict _ k taken =>
      s ← squash_list (pred m) tid (take k fl);
      match fl !! k with
      | Some bi => s ← update s tid (branchPC bi) taken (Some bi) true 0 0; Ok (false, s, drop k fl)
      | None => Ub
      end
    | Commit _ pc taken nrand loop_nrand =>
      match last fl with
      | Some bi =>
        s ← update (pred m) tid pc taken (Some bi) false nrand loop_nrand;
        Ok (false, s, take (Nat.pred (length fl)) fl)
      | None => Ub
      end
    end;
  fls ← awrite (flights m) tid fl;
  Ok (b, {| pred := s; flights := fls |}).

(** ** The abstract machine: a list of outcomes per thread *)

Definition spec_event (c : LtageCfg) (e : event) (d : bool) (h : SpecHist) : SpecHist :=
  match e with
  | Predict _ pc _ no_target =>
    let h := spec_push c h pc d in if no_target && d then spec_reset c h else h
  | Squash _ k => spec_drop h k
  | Mispredict _ k taken => spec_repair c h k taken
  | Commit _ _ _ _ _ => spec_retire h
  end.
Definition spec_step (c : LtageCfg) (a : list SpecHist) (e : event) (d : bool) : list SpecHist :=
  alter (spec_event c e d) (Z.to_nat (event_thread e)) a.

(** When the processor may cause an event: the branches it names are in
    flight; no branch in flight is so old that the outcomes before it would be
    overwritten; the tick counter has not reached its greatest value. *)
Definition event_ok (c : LtageCfg) (m : machine) (a : list SpecHist) (e : event) : Prop :=
  0 <= event_thread e /\ exists h, a !! Z.to_nat (event_thread e) = Some h /\
  match e with
  | Predict _ pc _ _ => addr_ok pc /\ Forall (fun f => age f < max_ahead c) (flight h)
  | Squash _ k => (k <= length (flight h))%nat
  | Mispredict _ k _ => (k < length (flight h))%nat
  | Commit _ _ _ r lr => flight h <> [] /\ 0 <= r <= 3 /\ loop_nrand_ok lr /\ tCounter (pred m) + 1 < 2 ^ 31
  end.

(** The states the predictor reaches, with the histories they stand for. *)
Inductive reachable (und : Z -> Z -> Z) (p : LTAGEParams) (g : Z -> Z) : machine -> list SpecHist -> Prop :=
| reach_new s : LTAGE_new p g = Ok s ->
    reachable und p g {| pred := s; flights := replicate (Z.to_nat (p_numThreads p)) [] |}
      (replicate (Z.to_nat (p_numThreads p)) (spec_init p))
| reach_step m a e d m' : reachable und p g m a -> event_ok (LTAGE_cfg p g) m a e ->
    step und m e = Ok (d, m') -> reachable und p g m' (spec_step (LTAGE_cfg p g) a e d).

(** ** Invariant *)

Record machine_inv (c : LtageCfg) (m : machine) (a : list SpecHist) : Prop := {
  mi_tables : tables_ok c (pred m);
  mi_threads : length (threadHistory (pred m)) = length a;
  mi_flights : length (flights m) = length a;
  mi_hist : forall i t fl h, threadHistory (pred m) !! i = Some t -> flights m !! i = Some fl -> a !! i = Some h ->
    hist_inv c t (bi_hist <$> fl) h /\ Forall (bi_ok c) fl }.

Section Machine.
Context (c : LtageCfg) (Hc : cfg_ok c) (und : Z -> Z -> Z).

(** Changing one thread. *)
Lemma machine_inv_update m a tid s' fl' h' t' :
  machine_inv c m a -> (tid < length a)%nat -> tables_ok c s' ->
  threadHistory s' = <[tid := t']> (threadHistory (pred m)) ->
  hist_inv c t' (bi_hist <$> fl') h' -> Forall (bi_ok c) fl' ->
  machine_inv c {| pred := s'; flights := <[tid := fl']> (flights m) |} (<[tid := h']> a).
Proof.
  intros [Ht Hl1 Hl2 Hh] Hlt Hs' Eth Hi Hb. split; cbn; [done|by rewrite Eth, !length_insert|by rewrite !length_insert|].
  intros i t fl h K1 K2 K3. rewrite Eth in K1. destruct (decide (i = tid)) as [->|].
  - rewrite list_lookup_insert_eq in K1 by lia. rewrite list_lookup_insert_eq in K2 by lia.
    rewrite list_lookup_insert_eq in K3 by lia. by simplify_eq.
  - rewrite list_lookup_insert_ne in K1 by done. rewrite list_lookup_insert_ne in K2 by done.
    rewrite list_lookup_insert_ne in K3 by done. by eapply Hh.
Qed.

Lemma squash_list_ok s tid bis : tables_ok c s -> Forall (bi_ok c) bis ->
  exists s', squash_list s tid bis = Ok s' /\ tables_ok c s' /\ threadHistory s' = threadHistory s /\ tCounter s' = tCounter s.
Proof.
  intros Hs Hb. revert s Hs. induction Hb as [|bi bis Hbi Hb IH]; intros s Hs; [by exists s|].
  cbn [squash_list squash]. destruct (restore_loop_ok c s bi Hs Hbi) as (t & -> & Ht). cbn [mbind res_bind].
  destruct (IH _ Ht) as (s' & -> & ? & ? & ?). by exists s'.
Qed.

Lemma with_threads_ok s ths : tables_ok c s -> tables_ok c (with_threads s ths).
Proof. intros []. by split. Qed.

(** [updateHistories] and the assertion that follows it. *)
Lemma updateHistories_ok s tid t fl a pc d bi :
  tables_ok c s -> aread (threadHistory s) tid = Ok t -> hist_inv c t fl a ->
  Forall (fun f => age f < max_ahead c) (flight a) ->
  exists b t', updateHistories s tid pc d bi =
      Ok ({| bi_tage := bi_tage bi; bi_loop := bi_loop bi; bi_hist := b; condBranch := condBranch bi; branchPC := branchPC bi |},
          with_threads s (<[Z.to_nat tid := t']> (threadHistory s))) /\
    hist_inv c t' (b :: fl) (spec_push c a pc d) /\
    check_pointer (with_threads s (<[Z.to_nat tid := t']> (threadHistory s))) tid = Ok true.
Proof.
  intros Hs Ht Hi Hroom. pose proof (aread_inv _ _ _ Ht) as [H0 Hl]. pose proof (lookup_lt_Some _ _ _ Hl) as Hlt.
  destruct (push_history_ok c (ok_hist _ Hc) t fl a pc d Hi Hroom) as (b & t' & E & Hi').
  exists b, t'. unfold updateHistories. rewrite Ht. cbn [mbind res_bind]. rewrite (tb_cfg _ _ Hs), E. cbn [mbind res_bind].
  rewrite awrite_Ok by lia. split; [done|]. split; [done|]. unfold check_pointer. cbn [threadHistory with_threads].
  rewrite (aread_Ok _ _ t') by (rewrite ?list_lookup_insert_eq by lia; done). cbn [mbind res_bind].
  by rewrite (hi_ptr _ _ _ _ Hi'), Z.eqb_refl.
Qed.

Lemma make_prediction_ok s tid t fl a pc cond :
  tables_ok c s -> aread (threadHistory s) tid = Ok t -> hist_inv c t fl a ->
  Forall (fun f => age f < max_ahead c) (flight a) ->
  exists d bi s' t', make_prediction und s tid pc cond = Ok (d, Some bi, s') /\
    tables_ok c s' /\ bi_ok c bi /\ threadHistory s' = <[Z.to_nat tid := t']> (threadHistory s) /\
    hist_inv c t' (bi_hist bi :: fl) (spec_push c a pc d).
Proof.
  intros Hs Ht Hi Hroom. unfold make_prediction. destruct cond.
  - destruct (predict_cond_ok c Hc und s tid t fl a pc Hs Ht Hi)
      as (bi & s' & E & Hb & _ & _ & _ & _ & _ & _ & Hs' & Eth & _).
    unfold lookup. rewrite E. cbn [mbind res_bind].
    destruct (updateHistories_ok s' tid t fl a pc (final_pred s (bi_tage bi) (bi_loop bi)) bi Hs') as (b & t' & -> & Hi' & Hck);
      [by rewrite Eth|done..|].
    cbn [mbind res_bind]. rewrite Hck. cbn [mbind res_bind]. eexists _, _, _, t'. split; [done|].
    split; [by apply with_threads_ok|]. cbn. by rewrite Eth.
  - destruct (predict_uncond_ok c und s tid pc Hs) as (bi & s' & E & Hb & _ & Hs' & Eth).
    unfold uncondBranch. rewrite E. cbn [mbind res_bind].
    destruct (updateHistories_ok s' tid t fl a pc true bi Hs') as (b & t' & -> & Hi' & Hck);
      [by rewrite Eth|done..|].
    cbn [mbind res_bind]. rewrite Hck. cbn [mbind res_bind]. eexists _, _, _, t'. split; [done|].
    split; [by apply with_threads_ok|]. cbn. by rewrite Eth.
Qed.

Lemma alter_insert {A} (f : A -> A) (l : list A) i x : l !! i = Some x -> alter f i l = <[i := f x]> l.
Proof.
  intros Hx. apply list_eq. intros j. pose proof (lookup_lt_Some _ _ _ Hx). destruct (decide (j = i)) as [->|].
  - by rewrite list_lookup_alter_eq, list_lookup_insert_eq, Hx by done.
  - by rewrite list_lookup_alter_ne, list_lookup_insert_ne by done.
Qed.

Lemma flight_length t fl h : hist_inv c t (bi_hist <$> fl) h -> length (flight h) = length fl.
Proof. intros Hi. pose proof (Forall2_length _ _ _ (hi_flight _ _ _ _ Hi)) as Hl. by rewrite length_fmap in Hl. Qed.

(** [btbUpdate] right after a prediction. *)
Lemma btbUpdate_ok s tid pc t fl a bi d :
  tables_ok c s -> aread (threadHistory s) tid = Ok t -> hist_inv c t (bi_hist bi :: fl) (spec_push c a pc d) ->
  exists t', btbUpdate s tid pc (Some bi) = Ok (with_threads s (<[Z.to_nat tid := t']> (threadHistory s))) /\
    hist_inv c t' (bi_hist bi :: fl) (spec_reset c (spec_push c a pc d)).
Proof.
  intros Hs Ht Hi. pose proof (aread_inv _ _ _ Ht) as [H0 Hl]. pose proof (lookup_lt_Some _ _ _ Hl) as Hlt.
  destruct (reset_last_ok c (ok_hist _ Hc) t fl _ _ Hi eq_refl) as (t' & E & Hi').
  exists t'. unfold btbUpdate. rewrite Ht. cbn [mbind res_bind]. rewrite E. cbn [mbind res_bind].
  by rewrite awrite_Ok by lia.
Qed.

(** [update(tid, pc, taken, bp_history, true)]. *)
Lemma update_squashed_ok s tid pc t fl a bi k d r lr :
  tables_ok c s -> bi_ok c bi -> aread (threadHistory s) tid = Ok t -> hist_inv c t (bi_hist <$> fl) a ->
  fl !! k = Some bi ->
  exists s' t', update s tid pc d (Some bi) true r lr = Ok s' /\ tables_ok c s' /\
    threadHistory s' = <[Z.to_nat tid := t']> (threadHistory s) /\
    hist_inv c t' (bi_hist <$> drop k fl) (spec_repair c a k d).
Proof.
  intros Hs Hb Ht Hi Hk. pose proof (aread_inv _ _ _ Ht) as [H0 Hl]. pose proof (lookup_lt_Some _ _ _ Hl) as Hlt.
  assert ((bi_hist <$> fl) !! k = Some (bi_hist bi)) as Hk' by (by rewrite list_lookup_fmap, Hk).
  destruct (repair_history_ok c (ok_hist _ Hc) t _ a k _ d Hi Hk') as (t' & E & Hi').
  cbn [update]. unfold squash_taken. rewrite Ht. cbn [mbind res_bind]. rewrite E. cbn [mbind res_bind].
  rewrite awrite_Ok by lia. cbn [mbind res_bind].
  destruct (restore_loop_ok c (with_threads s (<[Z.to_nat tid := t']> (threadHistory s))) bi) as (lt & -> & Hlt');
    [by apply with_threads_ok|done|].
  eexists _, t'. split; [done|]. split; [done|]. split; [done|]. by rewrite fmap_drop.
Qed.

(** [update(tid, pc, taken, bp_history, false)]. *)
Lemma update_commit_ok s tid pc bi d r lr :
  tables_ok c s -> bi_ok c bi -> 0 <= r <= 3 -> loop_nrand_ok lr -> tCounter s + 1 < 2 ^ 31 ->
  exists s', update s tid pc d (Some bi) false r lr = Ok s' /\ tables_ok c s' /\ threadHistory s' = threadHistory s.
Proof.
  intros Hs Hb Hr Hlr Hcnt. cbn [update]. unfold bi_ok in Hb. destruct (condBranch bi); [|by exists s].
  destruct (update_tables_ok c Hc s d bi r lr Hs (proj1 Hb) (proj2 Hb) Hr Hlr Hcnt) as (s' & E & H1 & H2 & _).
  by exists s'.
Qed.

Lemma step_ok m a e : machine_inv c m a -> event_ok c m a e ->
  exists d m', step und m e = Ok (d, m') /\ machine_inv c m' (spec_step c a e d).
Proof.
  intros Hm (H0 & h & Ha & He). pose proof Hm as [Htab Hl1 Hl2 Hh]. set (tid := event_thread e) in *.
  pose proof (lookup_lt_Some _ _ _ Ha) as Hlt.
  destruct (aread_in_bounds (flights m) tid) as (fl & Hfl & Hrf); [lia|].
  destruct (aread_in_bounds (threadHistory (pred m)) tid) as (t & Ht & Hrt); [lia|].
  destruct (Hh _ _ _ _ Ht Hfl Ha) as [Hi Hb]. pose proof (flight_length _ _ _ Hi) as Hlen.
  unfold step, spec_step. fold tid. rewrite Hrf. cbn [mbind res_bind].
  assert (Hsame : <[Z.to_nat tid := t]> (threadHistory (pred m)) = threadHistory (pred m)) by (by apply list_insert_id).
  assert (Hfin : forall d s' fl' t' h', spec_event c e d h = h' ->
    tables_ok c s' -> threadHistory s' = <[Z.to_nat tid := t']> (threadHistory (pred m)) ->
    hist_inv c t' (bi_hist <$> fl') h' -> Forall (bi_ok c) fl' ->
    exists d0 m', (Ok (d, s', fl') ≫= fun '(b, s, fl) => fls ← awrite (flights m) tid fl; Ok (b, {| pred := s; flights := fls |})) = Ok (d0, m') /\
      machine_inv c m' (alter (spec_event c e d0) (Z.to_nat tid) a)).
  { intros d s' fl' t' h' <- K1 K2 K3 K4. cbn [mbind res_bind]. rewrite awrite_Ok by lia. eexists _, _. split; [done|].
    rewrite (alter_insert _ _ _ _ Ha). eapply machine_inv_update; [done|lia|done..]. }
  destruct e as [tid' pc cond nt|tid' k|tid' k taken|tid' pc taken r lr]; cbn [event_thread] in tid.
  - destruct He as [Hpc Hroom].
    destruct (make_prediction_ok (pred m) tid t _ h pc cond Htab Hrt Hi Hroom) as (d & bi & s1 & t1 & -> & Hs1 & Hb1 & Eth & Hi1).
    cbn [mbind res_bind]. destruct (nt && d) eqn:Ent.
    + assert (Hrt1 : aread (threadHistory s1) tid = Ok t1).
      { rewrite Eth. apply aread_Ok; [done|]. by rewrite list_lookup_insert_eq by lia. }
      destruct (btbUpdate_ok s1 tid pc t1 _ h bi d Hs1 Hrt1 Hi1) as (t2 & -> & Hi2). cbn [mbind res_bind].
      eapply (Hfin d _ (bi :: fl) t2); [cbn; by rewrite Ent|by apply with_threads_ok|cbn; by rewrite Eth, list_insert_insert_eq|done|by constructor].
    + cbn [mbind res_bind]. eapply (Hfin d _ (bi :: fl) t1); [cbn; by rewrite Ent|done..|by constructor].
  - destruct (squash_list_ok (pred m) tid (take k fl) Htab (Forall_take _ _ _ Hb)) as (s1 & -> & Hs1 & Eth & _).
    cbn [mbind res_bind]. eapply (Hfin false _ (drop k fl) t); [done|done|by rewrite Eth, Hsame| |by apply Forall_drop].
    rewrite fmap_drop. by apply drop_history_ok.
  - destruct (squash_list_ok (pred m) tid (take k fl) Htab (Forall_take _ _ _ Hb)) as (s1 & -> & Hs1 & Eth & _).
    cbn [mbind res_bind]. destruct (lookup_lt_is_Some_2 fl k) as [bi Hbi]; [lia|]. rewrite Hbi.
    destruct (update_squashed_ok s1 tid (branchPC bi) t fl h bi k taken 0 0 Hs1) as (s2 & t2 & -> & Hs2 & Eth2 & Hi2);
      [by eapply Forall_lookup_1|by rewrite Eth|done|done|].
    cbn [mbind res_bind]. eapply (Hfin false _ (drop k fl) t2); [done|done|by rewrite Eth2, Eth|done|by apply Forall_drop].
  - destruct He as (Hne & Hr & Hlr & Hcnt). destruct (last fl) as [bi|] eqn:Hlast.
    2: { apply last_None in Hlast as ->. by destruct (flight h). }
    apply last_Some in Hlast as (fl' & ->). apply Forall_app in Hb as [Hb1 Hb2]. apply Forall_cons in Hb2 as [Hb2 _].
    destruct (update_commit_ok (pred m) tid pc bi taken r lr Htab Hb2 Hr Hlr Hcnt) as (s1 & -> & Hs1 & Eth).
    cbn [mbind res_bind]. rewrite length_app. cbn [length]. replace (Nat.pred (length fl' + 1)) with (length fl') by lia.
    rewrite take_app_length.
    eapply (Hfin false _ fl' t); [done|done|by rewrite Eth, Hsame| |done].
    rewrite fmap_app in Hi. by eapply retire_history_ok.
Qed.
End Machine.

(** Every reachable state satisfies the invariant. *)
Lemma reachable_inv und p g m a : params_ok p -> geometric_ok p g ->
  reachable und p g m a -> machine_inv (LTAGE_cfg p g) m a.
Proof.
  intros Hp Hg. induction 1 as [s Hs|m a e d m' _ IH Hok Hstep].
  - destruct (LTAGE_new_ok p g Hp Hg) as (s' & t & E & Htab & Hth & Hi). rewrite Hs in E. injection E as <-.
    split; cbn; [done|by rewrite Hth, !length_replicate|by rewrite !length_replicate|].
    intros i t' fl h K1 K2 K3. rewrite Hth in K1. apply lookup_replicate in K1 as [-> _].
    apply lookup_replicate in K2 as [-> _]. apply lookup_replicate in K3 as [-> _]. by split.
  - destruct (step_ok _ (LTAGE_cfg_ok p g Hp Hg) und m a e IH Hok) as (d' & m2 & E & Hinv).
    rewrite Hstep in E. by injection E as <- <-.
Qed.

(** * Theorems *)

(** The folded histories of bank [i] are the hashes of the outcomes [w]. *)
Definition hashes (c : LtageCfg) (t : ThreadHistory) (w : list Z) (i : Z) : Prop :=
  exists f o s k, bread (computeFolds t) i = Ok f /\
    bread (histLengths c) i = Ok o /\ bread (tagTableSizes c) i = Ok s /\ bread (tagWidths c) i = Ok k /\
    comp (computeIndices f) = folded s (take (Z.to_nat o) w) /\
    comp (computeTags0 f) = folded k (take (Z.to_nat o) w) /\
    comp (computeTags1 f) = folded (k - 1) (take (Z.to_nat o) w).

(** C7 (L-TAGE keeps the history it should).  Take the predictor of any valid
    configuration, whatever [int] shifts by an undefined amount give, and any
    sequence of predictions of conditional and unconditional branches, missing
    targets, squashes, corrected branches and commits on any number of threads,
    while no branch in flight is so old that the outcomes before it would be
    overwritten, the [int] tick counter has not reached its greatest value (which
    the next commit would overflow, ltage.cc:577) and the random number of a commit
    is below [INT_MAX - 2] (above, the loop predictor's [nrand + i] overflows,
    ltage.cc:341).  Every event returns.  In every state the circular buffer, read from [ptGhist], holds the
    outcomes of the abstract machine, which keeps plain lists: a corrected
    branch is followed by exactly the outcomes that preceded it and its own; the
    path history is the abstract one; and every folded history, updated
    incrementally and saved and restored with the branches, is the hash of those
    outcomes from scratch. *)
Theorem ltage_refines und p g m a :
  params_ok p -> geometric_ok p g -> reachable und p g m a ->
  let c := LTAGE_cfg p g in
  (forall e, event_ok c m a e -> exists d m', step und m e = Ok (d, m')) /\
  forall tid t, threadHistory (pred m) !! tid = Some t ->
    exists h, a !! tid = Some h /\ gHist t = ptGhist t /\ pathHist t = path h /\
      take (Z.to_nat (p_maxHist p)) (drop (Z.to_nat (ptGhist t)) (globalHistory t)) = now h /\
      forall i, 1 <= i <= p_nHistoryTables p -> hashes c t (now h) i.
Proof.
  intros Hp Hg Hr c. pose proof (LTAGE_cfg_ok p g Hp Hg) as Hc. pose proof (reachable_inv und p g m a Hp Hg Hr) as Hm.
  split.
  - intros e He. destruct (step_ok c Hc und m a e Hm He) as (d & m' & E & _). by exists d, m'.
  - intros tid t Ht. destruct Hm as [_ Hl1 Hl2 Hh]. pose proof (lookup_lt_Some _ _ _ Ht) as Hlt.
    destruct (lookup_lt_is_Some_2 (flights m) tid) as [fl Hfl]; [lia|].
    destruct (lookup_lt_is_Some_2 a tid) as [h Ha]; [lia|]. destruct (Hh _ _ _ _ Ht Hfl Ha) as [Hi _].
    exists h. split; [done|]. split; [apply Hi|]. split; [apply Hi|]. split; [apply (hi_now _ _ _ _ Hi)|].
    intros i Hib. destruct (folds_at c Hc t _ h Hi i Hib) as (o & s & k & f & K1 & _ & _ & ([_ E1] & [_ E2] & [_ E3]) & K2 & K3 & K4).
    by exists f, o, s, k.
Qed.

(** (what L-TAGE predicts).  In every reachable state, [lookup] indexes each
    tagged table, and matches its tags, with the reference hashes of the address
    and of the abstract histories; the bank that provides is the matching one
    with the longest history, the alternate the next matching one or the bimodal
    table; a weak provider gives way to the alternate when
    [useAltPredForNewlyAllocated] says so; the loop predictor, on a confident
    hit, overrides both when [loopUseCounter] says so; and the outcome predicted
    is appended to the history. *)
Theorem ltage_predicts und p g m a tid h pc :
  params_ok p -> geometric_ok p g -> reachable und p g m a ->
  a !! Z.to_nat tid = Some h -> 0 <= tid -> Forall (fun f => age f < max_ahead (LTAGE_cfg p g)) (flight h) ->
  let c := LTAGE_cfg p g in let s := pred m in
  exists bi s' t', lookup und s tid pc = Ok (final_pred s (bi_tage bi) (bi_loop bi), Some bi, s') /\
    (forall i, 1 <= i <= p_nHistoryTables p ->
       oread (bi_tableIndices (bi_tage bi)) i = gindex_ref c und (now h) (path h) pc i /\
       oread (bi_tableTags (bi_tage bi)) i = gtag_ref c (now h) pc i) /\
    tage_spec c s (bi_tage bi) /\ loop_spec (ltable s) (bi_loop bi) /\
    gtable s' = gtable s /\ btable s' = btable s /\ aread (threadHistory s') tid = Ok t' /\
    take (Z.to_nat (p_maxHist p)) (drop (Z.to_nat (ptGhist t')) (globalHistory t')) =
      take (Z.to_nat (p_maxHist p)) (outcome (final_pred s (bi_tage bi) (bi_loop bi)) :: now h).
Proof.
  intros Hp Hg Hr Ha H0 Hroom c s. pose proof (LTAGE_cfg_ok p g Hp Hg) as Hc.
  destruct (reachable_inv und p g m a Hp Hg Hr) as [Htab Hl1 Hl2 Hh]. pose proof (lookup_lt_Some _ _ _ Ha) as Hlt.
  destruct (aread_in_bounds (flights m) tid) as (fl & Hfl & _); [lia|].
  destruct (aread_in_bounds (threadHistory s) tid) as (t & Ht & Hrt); [subst s; lia|].
  destruct (Hh _ _ _ _ Ht Hfl Ha) as [Hi _].
  destruct (predict_cond_ok c Hc und s tid t _ h pc Htab Hrt Hi)
    as (bi & s1 & E & Hb & _ & Hts & Hls & _ & _ & Href & Hs1 & Eth & Eg & Eb).
  destruct (updateHistories_ok c Hc s1 tid t (bi_hist <$> fl) h pc (final_pred s (bi_tage bi) (bi_loop bi)) bi Hs1)
    as (b & t1 & Eu & Hi1 & Hck); [by rewrite Eth|done..|].
  exists {| bi_tage := bi_tage bi; bi_loop := bi_loop bi; bi_hist := b; condBranch := condBranch bi; branchPC := branchPC bi |}.
  exists (with_threads s1 (<[Z.to_nat tid := t1]> (threadHistory s1))), t1.
  unfold lookup. rewrite E. cbn [mbind res_bind]. rewrite Eu. cbn [mbind res_bind]. rewrite Hck.
  split; [done|]. cbn [bi_tage bi_loop gtable btable threadHistory with_threads].
  do 5 (split; [done|]). split; [|apply (hi_now _ _ _ _ Hi1)].
  apply aread_Ok; [done|]. rewrite Eth, list_lookup_insert_eq by (subst s; lia). done.
Qed.

(** A small predictor, for the witnesses. *)
Definition small_ltage : LTAGEParams := {|
  p_numThreads := 1; p_logSizeBiMP := 2; p_logSizeTagTables := 3; p_logSizeLoopPred := 3;
  p_nHistoryTables := 3; p_tagTableCounterBits := 3; p_histBufferSize := 40;
  p_minHist := 2; p_maxHist := 8; p_minTagWidth := 4 |}.
Definition small_lengths (i : Z) : Z := if i =? 2 then 4 else 8.
Definition zero_shift (a n : Z) : Z := 0.

Lemma small_ltage_ok : params_ok small_ltage.
Proof. split; cbn; lia. Qed.
Lemma small_lengths_ok : geometric_ok small_ltage small_lengths.
Proof. intros i Hi. unfold small_lengths. cbn. case_match; lia. Qed.

Lemma reachable_next und p g m a e : params_ok p -> geometric_ok p g -> reachable und p g m a ->
  event_ok (LTAGE_cfg p g) m a e ->
  exists d m', step und m e = Ok (d, m') /\ reachable und p g m' (spec_step (LTAGE_cfg p g) a e d).
Proof.
  intros Hp Hg Hr He.
  destruct (step_ok _ (LTAGE_cfg_ok p g Hp Hg) und m a e (reachable_inv und p g m a Hp Hg Hr) He) as (d & m' & E & _).
  exists d, m'. split; [done|]. by eapply reach_step.
Qed.

(** Two predictions, and the first of them is corrected. *)
Definition small_events : list event :=
  [Predict 0 0x41 true true; Predict 0 0x42 false false; Mispredict 0 1 true].

Lemma small_reachable : exists m a, reachable zero_shift small_ltage small_lengths m a /\
  now <$> a = [[1; 0; 0; 0; 0; 0; 0; 0]] /\ path <$> a = [1] /\
  (age <$> (a ≫= flight)) = [0].
Proof.
  destruct (LTAGE_new_ok small_ltage small_lengths small_ltage_ok small_lengths_ok) as (s & t & Hs & _).
  pose proof (reach_new zero_shift small_ltage small_lengths s Hs) as H0.
  destruct (reachable_next _ _ _ _ _ (Predict 0 0x41 true true) small_ltage_ok small_lengths_ok H0) as (d1 & m1 & _ & H1).
  { split; [cbn; lia|]. eexists. split; [reflexivity|]. split; [unfold addr_ok; lia|constructor]. }
  destruct (reachable_next _ _ _ _ _ (Predict 0 0x42 false false) small_ltage_ok small_lengths_ok H1) as (d2 & m2 & _ & H2).
  { split; [cbn; lia|]. eexists. split; [by destruct d1|]. split; [unfold addr_ok; lia|]. destruct d1; repeat constructor. }
  destruct (reachable_next _ _ _ _ _ (Mispredict 0 1 true) small_ltage_ok small_lengths_ok H2) as (d3 & m3 & _ & H3).
  { split; [cbn; lia|]. eexists. split; [by destruct d1, d2|]. destruct d1, d2; vm_compute; lia. }
  eexists m3, _. split; [exact H3|]. destruct d1, d2, d3; by vm_compute.
Qed.

Example ltage_refines_witness : exists m a, reachable zero_shift small_ltage small_lengths m a /\
  forall t, threadHistory (pred m) !! 0%nat = Some t ->
    take 8 (drop (Z.to_nat (ptGhist t)) (globalHistory t)) = [1; 0; 0; 0; 0; 0; 0; 0] /\ pathHist t = 1.
Proof.
  destruct small_reachable as (m & a & Hr & Hn & Hpa & _). exists m, a. split; [exact Hr|]. intros t Ht.
  destruct (proj2 (ltage_refines _ _ _ _ _ small_ltage_ok small_lengths_ok Hr) 0%nat t Ht) as (h & Ha & _ & Ep & Ew & _).
  assert (Hn0 : (now <$> a) !! 0%nat = Some (now h)) by (by rewrite list_lookup_fmap, Ha).
  assert (Hp0 : (path <$> a) !! 0%nat = Some (path h)) by (by rewrite list_lookup_fmap, Ha).
  rewrite Hn in Hn0. rewrite Hpa in Hp0. injection Hn0 as Hn0. injection Hp0 as Hp0.
  rewrite Ep, <- Hp0. split; [|reflexivity]. rewrite Hn0. exact Ew.
Defined.

Example ltage_predicts_witness : exists m a bi s' d, reachable zero_shift small_ltage small_lengths m a /\
  lookup zero_shift (pred m) 0 0x43 = Ok (d, Some bi, s') /\ loop_spec (ltable (pred m)) (bi_loop bi).
Proof.
  destruct small_reachable as (m & a & Hr & Hn & _ & Hag).
  destruct a as [|h [|]]; [discriminate Hn| |discriminate Hn].
  assert (Hroom : Forall (fun f => age f < max_ahead (LTAGE_cfg small_ltage small_lengths)) (flight h)).
  { cbn in Hag. rewrite app_nil_r in Hag. assert (Forall (fun z => z < 23) (age <$> flight h)) as Hf
      by (rewrite Hag; repeat constructor). by rewrite Forall_fmap in Hf. }
  destruct (ltage_predicts _ _ _ _ _ 0 h 0x43 small_ltage_ok small_lengths_ok Hr eq_refl ltac:(lia) Hroom)
    as (bi & s' & t' & E & _ & _ & Hl & _).
  by eexists m, [h], bi, s', _.
Defined.
