(* ===== verification/LtageLoop.v ===== *)
(** What the loop predictor of L-TAGE does and does not predict, the history
    register it gives to the indirect predictor, and where the code departs
    from its comments. *)
From S2P Require Import Prelude Bitfield DirPred LtageHist Ltage LtageSafe LtageCorrect.

(** * Ways other than the first never count *)

(** An entry that is confident has at least three iterations; a way other than
    the first of its set has counted none. *)
Definition way_ok (i : nat) (e : LoopEntry) : Prop :=
  (1 <= confidence e -> 3 <= numIter e) /\ (Z.of_nat i mod 4 <> 0 -> currentIterSpec e = 0).
Definition ways_ok (t : list LoopEntry) : Prop := forall i e, t !! i = Some e -> way_ok i e.

(** A record that hit such a way remembers none. *)
Definition record_ways (bi : BranchInfo) : Prop :=
  loopIndex (bi_loop bi) mod 4 = 0 /\
  (1 <= loopHit (bi_loop bi) <= 3 -> bi_currentIter (bi_loop bi) = 0).

Lemma ways_write t i e t' : ways_ok t -> awrite t i e = Ok t' -> (0 <= i -> way_ok (Z.to_nat i) e) -> ways_ok t'.
Proof.
  intros Ht E He. unfold awrite in E. case_match eqn:Hi; [|done]. injection E as <-.
  intros k x Hk. destruct (decide (k = Z.to_nat i)) as [->|].
  - rewrite list_lookup_insert_eq in Hk by lia. injection Hk as <-. apply He. lia.
  - rewrite list_lookup_insert_ne in Hk by done. by apply Ht.
Qed.

Lemma ways_read t i e : ways_ok t -> aread t i = Ok e -> way_ok (Z.to_nat i) e.
Proof. intros Ht [_ E]%aread_inv. by apply Ht. Qed.

Lemma loop_free_way i e : way_ok i e -> way_ok i (loop_free e).
Proof. intros [H1 H2]. split; cbn; [lia|done]. Qed.

Lemma loop_iterate_way i e taken : LoopEntry_ok e -> way_ok i e -> way_ok i (loop_iterate e taken).
Proof.
  intros Hok [H1 H2]. pose proof (u16_range (currentIter e + 1)) as Hr. pose proof (le_conf _ Hok). pose proof (le_num _ Hok).
  unfold is_u16 in *. unfold loop_iterate, way_ok, loop_free, set_confidence, set_currentIter, set_numIter, set_dir.
  cbv zeta. split.
  - repeat (case_match; cbn in * ); try lia.
  - intros Hw. specialize (H2 Hw). repeat (case_match; cbn in * ); done.
Qed.

Lemma loop_hit_update_way i e taken lp tp : LoopEntry_ok e -> way_ok i e -> way_ok i (loop_hit_update e taken lp tp).
Proof.
  intros Hok Hw. unfold loop_hit_update. case_match.
  - destruct Hw as [H1 H2]. split; cbn; [lia|done].
  - apply loop_iterate_way; [|by case_match].
    case_match; [|done]. pose proof (le_age _ Hok). apply set_age_ok; [done|lia].
Qed.

Lemma loop_alloc_ways t lp taken r i n t' : ways_ok t -> loop_alloc t lp taken r i n = Ok t' -> ways_ok t'.
Proof.
  revert t i. induction n as [|n IH]; intros t i Ht; cbn [loop_alloc]; [by intros [= <-]|].
  intros (r' & _ & (e & He & E)%bind_Ok)%bind_Ok. pose proof (ways_read _ _ _ Ht He) as [H1 H2].
  destruct (l_age e =? 0).
  - eapply ways_write; [exact Ht|exact E|]. intros _. split; cbn; [lia|done].
  - apply bind_Ok in E as (t1 & E1 & E). eapply IH; [|exact E]. eapply ways_write; [exact Ht|exact E1|]. done.
Qed.

Lemma loopUpdate_ways s taken bi r s' :
  Forall LoopEntry_ok (ltable s) -> ways_ok (ltable s) -> loopUpdate s taken bi r = Ok s' -> ways_ok (ltable s').
Proof.
  intros Hok Ht. unfold loopUpdate. case_match.
  - intros (e & He & (t & E & [= <-])%bind_Ok)%bind_Ok. pose proof (ways_read _ _ _ Ht He).
    eapply ways_write; [exact Ht|exact E|]. intros _. apply loop_hit_update_way; [|done].
    apply aread_inv in He as [_ He]. by eapply Forall_lookup_1.
  - case_match; [|by intros [= <-]]. intros (t & E & [= <-])%bind_Ok. by eapply loop_alloc_ways.
Qed.

Lemma lindex_mod s pc idx : 2 <= logSizeLoopPred (cfg s) <= 30 -> lindex s pc = Ok idx -> idx mod 4 = 0.
Proof.
  intros HL. unfold lindex. rewrite (wrap_u_id 32), ull_mask_ok by lia. cbn [mbind res_bind]. intros [= <-].
  pose proof (land_mask_range pc (logSizeLoopPred (cfg s) - 2) ltac:(lia)) as Hr.
  pose proof (Z.pow_le_mono_r 2 (logSizeLoopPred (cfg s) - 2) 28 ltac:(lia) ltac:(lia)).
  rewrite Z.shiftl_mul_pow2 by lia. change (2 ^ 2) with 4.
  rewrite (wrap_u_id 64), wrap_s_id by lia. by apply Z.mod_mul.
Qed.

Lemma specLoopUpdate_ways s pc taken lp s' : 2 <= logSizeLoopPred (cfg s) <= 30 ->
  ways_ok (ltable s) -> specLoopUpdate s pc taken lp = Ok s' -> ways_ok (ltable s').
Proof.
  intros HL Ht. unfold specLoopUpdate. case_match; [|by intros [= <-]].
  intros (idx & Hi & (e & He & (t & E & [= <-])%bind_Ok)%bind_Ok)%bind_Ok. cbn.
  pose proof (lindex_mod _ _ _ HL Hi) as Hm. pose proof (ways_read _ _ _ Ht He) as [H1 H2].
  eapply ways_write; [exact Ht|exact E|]. intros H0. split; [done|]. rewrite Z2Nat.id by done. done.
Qed.

Lemma restore_loop_ways c s bi s' : (condBranch bi = true -> record_ways bi) -> bi_ok c bi ->
  ways_ok (ltable s) -> restore_loop s bi = Ok s' -> ways_ok (ltable s').
Proof.
  intros Hrec Hb Ht. unfold restore_loop. destruct (condBranch bi) eqn:Hc; cbn [andb]; [|by intros [= <-]].
  specialize (Hrec eq_refl). destruct Hrec as [Hm Hz]. unfold bi_ok in Hb. rewrite Hc in Hb. destruct Hb as [_ [[Hx _] Hh _]].
  destruct (Z.leb_spec 0 (loopHit (bi_loop bi))); [|by intros [= <-]].
  intros (e & He & E)%bind_Ok. pose proof (ways_read _ _ _ Ht He) as [H1 H2].
  apply bind_Ok in E as (t & E & [= <-]).
  eapply ways_write; [exact Ht|exact E|]. intros H0. split; [done|]. cbn. rewrite Z2Nat.id by done. intros Hne.
  destruct (decide (loopHit (bi_loop bi) = 0)) as [Hz0|].
  - rewrite Hz0, Z.add_0_r in Hne. done.
  - apply Hz. lia.
Qed.

Lemma getLoop_ways_record c s pc lp : cfg_ok c -> tables_ok c s -> ways_ok (ltable s) -> getLoop s pc = Ok lp ->
  loopIndex lp mod 4 = 0 /\ (1 <= loopHit lp <= 3 -> bi_currentIter lp = 0).
Proof.
  intros Hc Hs Ht E. destruct (getLoop_ok c Hc s pc Hs) as (lp' & E' & _ & Hsp & Hli & _).
  rewrite E in E'. injection E' as <-. pose proof (ok_loop _ Hc) as HL. pose proof (tb_cfg _ _ Hs) as Ecf.
  assert (Hm : loopIndex lp mod 4 = 0) by (eapply (lindex_mod s pc); [rewrite Ecf; done|done]). split; [done|].
  intros Hh. destruct Hsp as [(? & _)|(_ & e & He & _ & _ & -> & _)]; [lia|].
  pose proof (aread_inv _ _ _ He) as [H0 _]. pose proof (ways_read _ _ _ Ht He) as [_ H2].
  rewrite H2; [done|]. rewrite Z2Nat.id by done. rewrite Z.add_mod, Hm, Z.add_0_l, Z.mod_mod by lia.
  rewrite Z.mod_small by lia. lia.
Qed.

(** ** The other operations leave the loop table alone *)

Lemma updateHistories_ltable s tid pc d bi bi' s' : updateHistories s tid pc d bi = Ok (bi', s') ->
  ltable s' = ltable s /\ bi_loop bi' = bi_loop bi /\ condBranch bi' = condBranch bi.
Proof. unfold updateHistories. intros H. by res_inv. Qed.

Lemma btbUpdate_ltable s tid pc h s' : btbUpdate s tid pc h = Ok s' -> ltable s' = ltable s.
Proof. unfold btbUpdate. intros H. by res_inv. Qed.

Lemma baseUpdate_ltable s i d s' : baseUpdate s i d = Ok s' -> ltable s' = ltable s.
Proof. unfold baseUpdate. intros H. by res_inv. Qed.

Lemma train_entry_ltable s i j d s' : train_entry s i j d = Ok s' -> ltable s' = ltable s.
Proof. unfold train_entry. intros H. by res_inv. Qed.

Lemma train_ltable s tp d s' : train s tp d = Ok s' -> ltable s' = ltable s.
Proof.
  unfold train. intros H. res_inv; cbn [ltable with_gtable];
    repeat match goal with
    | H : train_entry _ _ _ _ = Ok _ |- _ => apply train_entry_ltable in H
    | H : baseUpdate _ _ _ = Ok _ |- _ => apply baseUpdate_ltable in H
    end; congruence.
Qed.

Lemma tick_ltable s s' : tick s = Ok s' -> ltable s' = ltable s.
Proof. unfold tick. intros H. by res_inv. Qed.

Lemma allocate_ltable s tp d r s' : allocate s tp d r = Ok s' -> ltable s' = ltable s.
Proof. unfold allocate. intros H. by res_inv. Qed.

Lemma update_choice_ltable s tp d b s' : update_choice s tp d = Ok (b, s') -> ltable s' = ltable s.
Proof. unfold update_choice. intros H. by res_inv. Qed.

Lemma predict_tage_ltable und s tid pc tp s' : predict_tage und s tid pc = Ok (tp, s') ->
  exists idx tags, s' = with_scratch s idx tags.
Proof. unfold predict_tage. intros H. apply bind_Ok in H as (i & _ & (t & _ & H)%bind_Ok). exists i, t. by res_inv. Qed.

Section Ways.
Context (c : LtageCfg) (Hc : cfg_ok c) (und : Z -> Z -> Z).

Lemma predict_ways s tid pc cond d bi s' : tables_ok c s -> ways_ok (ltable s) ->
  predict und s tid pc cond = Ok (d, bi, s') -> ways_ok (ltable s') /\ (condBranch bi = true -> record_ways bi).
Proof.
  intros Hs Ht. pose proof (ok_loop _ Hc) as HL. pose proof (tb_cfg _ _ Hs) as Ecf. unfold predict. destruct cond; intros H.
  - apply bind_Ok in H as ([[[pt tp] lp] s1] & H1 & (s2 & H2 & [= <- <- <-])%bind_Ok).
    apply bind_Ok in H1 as ([tp1 s0] & (idx & tags & ->)%predict_tage_ltable & (lp1 & Hlp & [= <- <- <- <-])%bind_Ok).
    assert (Hs1 : tables_ok c (with_scratch s idx tags)) by (destruct Hs; by split).
    split; [apply specLoopUpdate_ways in H2; [exact H2|cbn; by rewrite Ecf|exact Ht]|].
    intros _. exact (getLoop_ways_record c _ pc _ Hc Hs1 Ht Hlp).
  - cbn in H. by injection H as <- <- <-.
Qed.

Lemma make_prediction_ways s tid pc cond d bi s' : tables_ok c s -> ways_ok (ltable s) ->
  make_prediction und s tid pc cond = Ok (d, Some bi, s') -> ways_ok (ltable s') /\ (condBranch bi = true -> record_ways bi).
Proof.
  intros Hs Ht. unfold make_prediction, lookup, uncondBranch. destruct cond; intros H; res_inv;
    match goal with
    | K : predict _ _ _ _ _ = Ok _, K2 : updateHistories _ _ _ _ _ = Ok _ |- _ =>
      apply predict_ways in K as [K Kr]; [|done..]; apply updateHistories_ltable in K2 as (El & Eb & Ec)
    end; unfold record_ways in *; by rewrite El, Eb, Ec.
Qed.

Lemma squash_list_ways s tid bis s' : tables_ok c s -> Forall (bi_ok c) bis ->
  Forall (fun bi => condBranch bi = true -> record_ways bi) bis -> ways_ok (ltable s) ->
  squash_list s tid bis = Ok s' -> ways_ok (ltable s').
Proof.
  intros Hs Hb Hr. revert s Hs. induction bis as [|bi bis IH]; intros s Hs Ht; cbn [squash_list squash]; [by intros [= <-]|].
  apply Forall_cons in Hb as [Hb1 Hb2]. apply Forall_cons in Hr as [Hr1 Hr2].
  destruct (restore_loop_ok c s bi Hs Hb1) as (t & E & Hs1). intros (s1 & E1 & H)%bind_Ok.
  rewrite E in E1. injection E1 as <-. apply (IH Hb2 Hr2 _ Hs1); [by eapply restore_loop_ways|done].
Qed.

Lemma update_tables_ways s d bi r lr s' : tables_ok c s -> ways_ok (ltable s) ->
  update_tables s d bi r lr = Ok s' -> ways_ok (ltable s').
Proof.
  intros Hs Ht. unfold update_tables. intros (s1 & H1 & H)%bind_Ok.
  apply (loopUpdate_ways _ _ _ _ _ (proj2 (tb_loop _ _ Hs)) Ht) in H1.
  assert (ltable s' = ltable s1) as ->; [|done]. clear H1. res_inv;
    repeat match goal with
    | K : update_choice _ _ _ = Ok _ |- _ => apply update_choice_ltable in K
    | K : allocate _ _ _ _ = Ok _ |- _ => apply allocate_ltable in K
    | K : tick _ = Ok _ |- _ => apply tick_ltable in K
    | K : train _ _ _ = Ok _ |- _ => apply train_ltable in K
    end; cbn [ltable with_loopUse] in *; congruence.
Qed.

Record machine_ways (m : machine) : Prop := {
  mw_table : ways_ok (ltable (pred m));
  mw_records : Forall (Forall (fun bi => condBranch bi = true -> record_ways bi)) (flights m) }.

Lemma machine_ways_update m tid fl s b m' :
  machine_ways m -> ways_ok (ltable s) -> Forall (fun bi => condBranch bi = true -> record_ways bi) fl ->
  (fls ← awrite (flights m) tid fl; Ok (b, {| pred := s; flights := fls |})) = Ok (false || b, m') -> machine_ways m'.
Proof.
  intros [_ Hr] Hs Hf H. unfold awrite in H. res_inv. split; cbn; [done|]. by apply Forall_insert.
Qed.

Lemma step_ways m a e d m' : machine_inv c m a -> event_ok c m a e -> machine_ways m ->
  step und m e = Ok (d, m') -> machine_ways m'.
Proof.
  intros Hm (H0 & h & Ha & He) Hw. pose proof Hw as [Ht Hr]. pose proof (lookup_lt_Some _ _ _ Ha) as Hlt.
  destruct (aread_in_bounds (flights m) (event_thread e)) as (fl & Hfl & Hrf); [rewrite (mi_flights _ _ _ Hm); lia|].
  destruct (aread_in_bounds (threadHistory (pred m)) (event_thread e)) as (t & Hth & Hrt); [rewrite (mi_threads _ _ _ Hm); lia|].
  destruct (mi_hist _ _ _ Hm _ _ _ _ Hth Hfl Ha) as [Hi Hb]. pose proof (Forall_lookup_1 _ _ _ _ Hr Hfl) as Hrec. cbn in Hrec.
  pose proof (mi_tables _ _ _ Hm) as Htab. unfold step. rewrite Hrf. cbn [mbind res_bind].
  intros ([[b s] fl'] & H & Hfin)%bind_Ok.
  assert (b = d) as -> by (unfold awrite in Hfin; by res_inv).
  assert (ways_ok (ltable s) /\ Forall (fun bi => condBranch bi = true -> record_ways bi) fl') as [K1 K2];
    [|by eapply machine_ways_update].
  destruct e as [tid pc cond nt|tid k|tid k taken|tid pc taken r lr]; cbn [event_thread] in *.
  - apply bind_Ok in H as ([[b bp] s1] & E1 & (s2 & E2 & H)%bind_Ok). destruct bp as [bi|]; [|done]. injection H as <- <- <-.
    apply make_prediction_ways in E1 as [K1 K2]; [|done..]. split; [|by constructor].
    destruct (nt && b); [by apply btbUpdate_ltable in E2 as -> |by injection E2 as <-].
  - apply bind_Ok in H as (s1 & E1 & [= <- <- <-]).
    split; [|by apply Forall_drop]. eapply squash_list_ways; [done| | |exact Ht|exact E1]; by apply Forall_take.
  - apply bind_Ok in H as (s1 & E1 & H).
    assert (ways_ok (ltable s1)) as Ht1 by (eapply squash_list_ways; [done| | |exact Ht|exact E1]; by apply Forall_take).
    destruct (fl !! k) as [bi|] eqn:Hk; [|done]. apply bind_Ok in H as (s2 & E2 & [= <- <- <-]).
    split; [|by apply Forall_drop]. cbn [update] in E2. unfold squash_taken in E2. res_inv.
    eapply (restore_loop_ways c); [|by eapply Forall_lookup_1| |exact E2]; [|done]. by eapply Forall_lookup_1 in Hrec.
  - destruct (last fl) as [bi|] eqn:Hlast; [|done]. apply bind_Ok in H as (s2 & E2 & [= <- <- <-]).
    split; [|by apply Forall_take]. cbn [update] in E2. destruct (condBranch bi); [|by injection E2 as <-].
    by eapply update_tables_ways.
Qed.
End Ways.

Lemma reachable_ways und p g m a : params_ok p -> geometric_ok p g ->
  reachable und p g m a -> machine_ways m.
Proof.
  intros Hp Hg. induction 1 as [s Hs|m a e d m' Hr IH Hok Hstep].
  - split; cbn; [|apply Forall_replicate; constructor].
    unfold LTAGE_new in Hs. res_inv. cbn. intros i e [-> _]%lookup_replicate. split; cbn; [lia|done].
  - eapply step_ways; [by apply LTAGE_cfg_ok| |exact Hok|exact IH|exact Hstep]. by eapply reachable_inv.
Qed.

(** * Running the machine *)

Definition event_okb (c : LtageCfg) (m : machine) (a : list SpecHist) (e : event) : bool :=
  (0 <=? event_thread e) &&
  match a !! Z.to_nat (event_thread e) with
  | None => false
  | Some h =>
    match e with
    | Predict _ pc _ _ =>
      in_u 64 pc && bool_decide (Forall (fun f => age f < max_ahead c) (flight h))
    | Squash _ k => (k <=? length (flight h))%nat
    | Mispredict _ k _ => (k <? length (flight h))%nat
    | Commit _ _ _ r lr =>
      negb (length (flight h) =? 0)%nat && (0 <=? r) && (r <=? 3) &&
      (- 2 ^ 31 <=? lr) && (lr <? 2 ^ 31 - 3) && (tCounter (pred m) + 1 <? 2 ^ 31)
    end
  end.

Lemma event_okb_ok c m a e : event_okb c m a e = true -> event_ok c m a e.
Proof.
  unfold event_okb, event_ok. intros [H0 H]%andb_true_iff. split; [lia|].
  destruct (a !! Z.to_nat (event_thread e)) as [h|]; [|done]. exists h. split; [done|].
  destruct e as [tid pc cond nt|tid k|tid k taken|tid pc taken r lr].
  - apply andb_true_iff in H as [Hp%in_u_iff Hr%bool_decide_eq_true]. by split.
  - by apply Nat.leb_le.
  - by apply Nat.ltb_lt.
  - unfold loop_nrand_ok. rewrite !andb_true_iff in H.
    destruct H as [[[[[Hn H1] H2] H3] H4] H5]. split_and!; try lia. intros E. by rewrite E in Hn.
Qed.

(** Run the events, checking each. *)
Fixpoint run_events (und : Z -> Z -> Z) (c : LtageCfg) (evs : list event) (m : machine) (a : list SpecHist)
  : option (machine * list SpecHist) :=
  match evs with
  | [] => Some (m, a)
  | e :: evs =>
    if event_okb c m a e then
      match step und m e with Ok (d, m) => run_events und c evs m (spec_step c a e d) | _ => None end
    else None
  end.
Definition run_new (und : Z -> Z -> Z) (p : LTAGEParams) (g : Z -> Z) (evs : list event)
  : option (machine * list SpecHist) :=
  match LTAGE_new p g with
  | Ok s => run_events und (LTAGE_cfg p g) evs {| pred := s; flights := replicate (Z.to_nat (p_numThreads p)) [] |}
              (replicate (Z.to_nat (p_numThreads p)) (spec_init p))
  | _ => None
  end.

Lemma run_reachable und p g evs m a : run_new und p g evs = Some (m, a) -> reachable und p g m a.
Proof.
  unfold run_new. destruct (LTAGE_new p g) as [s| | |] eqn:E; try done.
  pose proof (reach_new und p g s E) as H. revert H.
  generalize ({| pred := s; flights := replicate (Z.to_nat (p_numThreads p)) [] |}) as m0.
  generalize (replicate (Z.to_nat (p_numThreads p)) (spec_init p)) as a0. clear E s.
  induction evs as [|e evs IH]; intros a0 m0 H; cbn [run_events]; [by intros [= <- <-]|].
  destruct (event_okb (LTAGE_cfg p g) m0 a0 e) eqn:Eo; [|done]. apply event_okb_ok in Eo.
  destruct (step und m0 e) as [[d m1]| | |] eqn:Es; try done. apply IH. by eapply reach_step.
Qed.

(** A branch at [pc] that follows [dirs], predicted, corrected when it has to
    be, and committed. *)
Fixpoint run_loop (und : Z -> Z -> Z) (c : LtageCfg) (pc : Z) (dirs : list bool) (m : machine) (a : list SpecHist)
  : option (machine * list SpecHist) :=
  match dirs with
  | [] => Some (m, a)
  | d :: dirs =>
    match step und m (Predict 0 pc true false) with
    | Ok (b, _) =>
      match run_events und c
              ([Predict 0 pc true false] ++ (if eqb b d then [] else [Mispredict 0 0 d]) ++ [Commit 0 pc d 3 2]) m a with
      | Some (m, a) => run_loop und c pc dirs m a
      | None => None
      end
    | _ => None
    end
  end.

(** * Theorems *)

(** The loop part of the record [lookup] gives out is what [getLoop] found. *)
Lemma lookup_loop c und s tid pc d bi s' : cfg_ok c -> tables_ok c s -> lookup und s tid pc = Ok (d, Some bi, s') ->
  exists idx tags, getLoop (with_scratch s idx tags) pc = Ok (bi_loop bi) /\ tables_ok c (with_scratch s idx tags).
Proof.
  intros Hc Hs. unfold lookup. intros ([[b bi1] s1] & H1 & ([bi2 s2] & H2 & H)%bind_Ok)%bind_Ok.
  apply updateHistories_ltable in H2 as (_ & El & _). res_inv. rewrite El. unfold predict in H1.
  apply bind_Ok in H1 as ([[[pt tp] lp] s3] & H1 & H4). apply bind_Ok in H1 as ([tp1 s0] & (idx & tags & ->)%predict_tage_ltable & H5).
  res_inv. exists idx, tags. split; [done|]. destruct Hs. by split.
Qed.

(** (the loop predictor misses the exits it was trained for).  In every
    reachable state, when [lookup] hits a way other than the first of its set
    and the entry is confident of a trip count, the prediction is that the loop
    goes on, however many iterations have been executed: [specLoopUpdate] counts
    in the first way of the set instead of the way that hit, so the speculative
    count of the others is always 0. *)
Theorem ltage_exit_missed und p g m a tid pc d bi s' :
  params_ok p -> geometric_ok p g -> reachable und p g m a ->
  lookup und (pred m) tid pc = Ok (d, Some bi, s') ->
  1 <= loopHit (bi_loop bi) -> loopPredValid (bi_loop bi) = true ->
  exists e, aread (ltable (pred m)) (loopIndex (bi_loop bi) + loopHit (bi_loop bi)) = Ok e /\
    3 <= numIter e /\ loopPred (bi_loop bi) = l_dir e.
Proof.
  intros Hp Hg Hr El Hh Hv. pose proof (LTAGE_cfg_ok p g Hp Hg) as Hc.
  pose proof (mi_tables _ _ _ (reachable_inv und p g m a Hp Hg Hr)) as Htab.
  pose proof (mw_table _ (reachable_ways und p g m a Hp Hg Hr)) as Hw.
  destruct (lookup_loop _ _ _ _ _ _ _ _ Hc Htab El) as (idx & tags & Eg & Hs).
  destruct (getLoop_ok _ Hc _ pc Hs) as (lp & E & _ & Hsp & _). rewrite Eg in E. injection E as <-.
  destruct (getLoop_ways_record _ _ pc _ Hc Hs Hw Eg) as [Hm Hz].
  destruct Hsp as [(? & _)|(Hb & e & He & _ & Ev & Ei & Ep & _)]; [lia|]. cbn [ltable with_scratch] in He.
  exists e. split; [done|]. rewrite Hv in Ev. pose proof (ways_read _ _ _ Hw He) as [H1 _].
  rewrite Hz in Ei by lia. rewrite Ep, <- Ei. split; [apply H1; lia|].
  rewrite (proj2 (Z.eqb_neq _ _)); [done|]. specialize (H1 ltac:(lia)). lia.
Qed.

(** A branch that is taken four times out of five, in way 2 of its set. *)
Definition small_cfg : LtageCfg := LTAGE_cfg small_ltage small_lengths.
Fixpoint five_cycle (n : nat) (k : Z) : list bool :=
  match n with O => [] | S n => negb (k mod 5 =? 0) :: five_cycle n (k + 1) end.

Lemma run_events_reachable und p g evs m a m' a' : reachable und p g m a ->
  run_events und (LTAGE_cfg p g) evs m a = Some (m', a') -> reachable und p g m' a'.
Proof.
  revert m a. induction evs as [|e evs IH]; intros m a H; cbn [run_events]; [by intros [= <- <-]|].
  destruct (event_okb (LTAGE_cfg p g) m a e) eqn:Eo; [|done]. apply event_okb_ok in Eo.
  destruct (step und m e) as [[d m1]| | |] eqn:Es; try done. apply IH. by eapply reach_step.
Qed.

Lemma run_loop_reachable und p g pc dirs m a m' a' : reachable und p g m a ->
  run_loop und (LTAGE_cfg p g) pc dirs m a = Some (m', a') -> reachable und p g m' a'.
Proof.
  revert m a. induction dirs as [|d dirs IH]; intros m a H; cbn [run_loop]; [by intros [= <- <-]|].
  destruct (step und m (Predict 0 pc true false)) as [[b m1]| | |]; try done.
  destruct (run_events und (LTAGE_cfg p g) _ m a) as [[m2 a2]|] eqn:E; [|done].
  apply IH. eapply run_events_reachable; [exact H|exact E].
Qed.

Definition trained : option (machine * list SpecHist) :=
  match run_new zero_shift small_ltage small_lengths [] with
  | Some (m, a) => run_loop zero_shift small_cfg 0x44 (five_cycle 34 1) m a
  | None => None
  end.

Lemma trained_reachable m a : trained = Some (m, a) -> reachable zero_shift small_ltage small_lengths m a.
Proof.
  unfold trained. destruct (run_new zero_shift small_ltage small_lengths []) as [[m0 a0]|] eqn:E; [|done].
  apply run_loop_reachable. by eapply run_reachable.
Qed.

(** After 34 branches the next one leaves the loop; the entry knows the trip
    count is 5 and that four iterations are done. *)
Definition at_exit (m : machine) : bool :=
  match lookup zero_shift (pred m) 0 0x44 with
  | Ok (_, Some bi, _) =>
    (loopHit (bi_loop bi) =? 2) && loopPredValid (bi_loop bi) &&
    match aread (ltable (pred m)) (loopIndex (bi_loop bi) + loopHit (bi_loop bi)) with
    | Ok e => (numIter e =? 5) && (currentIter e =? 4) && l_dir e
    | _ => false
    end
  | _ => false
  end.

Lemma trained_at_exit : exists m a, trained = Some (m, a) /\ at_exit m = true.
Proof.
  assert (match trained with Some (m, _) => at_exit m | None => false end = true) as H by (vm_compute; reflexivity).
  destruct trained as [[m a]|]; [|discriminate H]. by exists m, a.
Qed.

Example ltage_exit_missed_witness : exists m a d bi s' e, reachable zero_shift small_ltage small_lengths m a /\
  lookup zero_shift (pred m) 0 0x44 = Ok (d, Some bi, s') /\
  aread (ltable (pred m)) (loopIndex (bi_loop bi) + loopHit (bi_loop bi)) = Ok e /\
  numIter e = 5 /\ currentIter e = 4 /\ l_dir e = true /\ loopPred (bi_loop bi) = true.
Proof.
  destruct trained_at_exit as (m & a & E & Hx). pose proof (trained_reachable m a E) as Hr. unfold at_exit in Hx.
  destruct (lookup zero_shift (pred m) 0 0x44) as [[[d [bi|]] s']| | |] eqn:El; try discriminate Hx.
  apply andb_true_iff in Hx as [[Hh Hv]%andb_true_iff He].
  destruct (ltage_exit_missed _ _ _ _ _ 0 0x44 d bi s' small_ltage_ok small_lengths_ok Hr El ltac:(lia) Hv)
    as (e & Ee & _ & Ep).
  rewrite Ee in He. apply andb_true_iff in He as [[H1 H2]%andb_true_iff H3].
  exists m, a, d, bi, s', e. rewrite Ep. split; [exact Hr|]. split; [exact El|]. split; [exact Ee|].
  split; [lia|]. split; [lia|]. split; exact H3.
Defined.

(** A branch further than [2 ^ 16] sets of the loop table from address 0 never
    hits it: the tag the table stores has 16 bits, the one it is compared with
    is not cut. *)
Theorem loop_high_pc_never_hits c s pc lp : cfg_ok c -> tables_ok c s ->
  2 ^ (logSizeLoopPred c + 14) <= pc < 2 ^ (logSizeLoopPred c + 29) -> getLoop s pc = Ok lp ->
  loopHit lp = -1 /\ loopPredValid lp = false.
Proof.
  intros Hc Hs Hpc E. destruct (getLoop_ok c Hc s pc Hs) as (lp' & E' & _ & Hsp & _ & Et). rewrite E in E'. injection E' as <-.
  pose proof (ok_loop _ Hc). destruct Hsp as [(H1 & H2 & _)|(_ & e & He & Htag & _)]; [done|].
  exfalso. apply aread_inv in He as [_ He].
  pose proof (le_tag _ (Forall_lookup_1 _ _ _ _ (proj2 (tb_loop _ _ Hs)) He)) as Hr. unfold is_u16 in Hr.
  rewrite Htag, Et in Hr. rewrite Z.shiftr_div_pow2 in Hr by lia.
  set (q := pc / 2 ^ (logSizeLoopPred c - 2)) in *.
  assert (2 ^ 16 <= q < 2 ^ 31) as Hq.
  { pose proof (pow2_pos (logSizeLoopPred c - 2) ltac:(lia)) as Hpos.
    replace (logSizeLoopPred c + 14) with (16 + (logSizeLoopPred c - 2)) in Hpc by lia.
    replace (logSizeLoopPred c + 29) with (31 + (logSizeLoopPred c - 2)) in Hpc by lia.
    rewrite !Z.pow_add_r in Hpc by lia. split; [apply Z.div_le_lower_bound; lia|apply Z.div_lt_upper_bound; lia]. }
  rewrite wrap_s_id in Hr by lia. lia.
Qed.

(** [squash(tid, bp_history)], which the unit calls for a branch that is
    squashed without being mispredicted, restores none of the histories: the
    outcomes of the wrong path stay in the history of the thread. *)
Theorem squash_keeps_history s tid bi s' : squash s tid (Some bi) = Ok s' -> threadHistory s' = threadHistory s.
Proof. cbn [squash]. unfold restore_loop. intros H. by res_inv. Qed.

(** With the default configuration the hash of the path history shifts an
    [int] by a negative amount in banks 11 and 12, which is undefined. *)
Theorem default_shift_undefined :
  bread (tag_table_sizes 11) 11 = Ok 9 /\ bread (tag_table_sizes 11) 12 = Ok 9 /\
  forall und a, shr_int und a (9 - 11) = s32 (und a (-2)) /\ shr_int und a (9 - 12) = s32 (und a (-3)).
Proof. done. Qed.

(** The loop under the comment "Allocate only one entry" has no exit: from the
    first bank on, every entry that is not useful is taken over. *)
Definition allocated (m m' : machine) : list Z :=
  filter (fun i => existsb (fun j => match gread (gtable (pred m)) i (Z.of_nat j), gread (gtable (pred m')) i (Z.of_nat j) with
                                     | Ok e, Ok e' => negb (g_tag e =? g_tag e') | _, _ => false end) (seq 0 8)) [1; 2; 3].
Theorem allocates_several : exists m a m' a',
  run_new zero_shift small_ltage small_lengths [Predict 0 0x47 true false; Mispredict 0 0 true] = Some (m, a) /\
  run_events zero_shift small_cfg [Commit 0 0x47 true 0 0] m a = Some (m', a') /\
  allocated m m' = [1; 2; 3].
Proof.
  assert (match run_new zero_shift small_ltage small_lengths [Predict 0 0x47 true false; Mispredict 0 0 true] with
          | Some (m, a) => match run_events zero_shift small_cfg [Commit 0 0x47 true 0 0] m a with
                           | Some (m', _) => bool_decide (allocated m m' = [1; 2; 3]) | None => false end
          | None => false end = true) as H by (vm_compute; reflexivity).
  destruct (run_new zero_shift small_ltage small_lengths _) as [[m a]|]; [|discriminate H].
  destruct (run_events zero_shift small_cfg _ m a) as [[m' a']|] eqn:E; [|discriminate H].
  exists m, a, m', a'. split; [reflexivity|]. split; [exact E|]. by apply bool_decide_eq_true in H.
Qed.

(** (the history register of L-TAGE).  Asked for the global history register
    right after a prediction, the predictor reads 32 cells of its circular
    buffer, all inside it, and returns the 32 most recent outcomes of the
    thread, the latest in bit 0. *)
Theorem ltage_ghr und p g m a tid h fl bi :
  params_ok p -> geometric_ok p g -> reachable und p g m a -> 32 <= p_maxHist p -> 0 <= tid ->
  a !! Z.to_nat tid = Some h -> flights m !! Z.to_nat tid = Some (bi :: fl) -> head (age <$> flight h) = Some 0 ->
  exists v, getGHR (pred m) tid (Some bi) = Ok v /\
    forall i, 0 <= i -> Z.testbit v i = (i <? 32) && bool_decide (now h !! Z.to_nat i = Some 1).
Proof.
  intros Hp Hg Hr Hmax H0 Ha Hfl Hyoung. set (c := LTAGE_cfg p g). pose proof (LTAGE_cfg_ok p g Hp Hg) as Hc.
  destruct (reachable_inv und p g m a Hp Hg Hr) as [Htab Hl1 Hl2 Hh]. pose proof (lookup_lt_Some _ _ _ Ha) as Hlt.
  destruct (aread_in_bounds (threadHistory (pred m)) tid) as (t & Ht & Hrt); [lia|].
  destruct (Hh _ _ _ _ Ht Hfl Ha) as [[Hlen Hbits Hpt _ Hnow _ _ Hf _] _]. fold c in Hlen, Hpt, Hnow, Hf.
  destruct (flight h) as [|f fs]; [done|]. injection Hyoung as Hage. apply Forall2_cons in Hf as [He _].
  pose proof (en_cur _ _ _ _ _ He) as Hcur. rewrite Hage, Z.sub_0_r, Z.mod_small in Hcur by apply He.
  pose proof (hc_size _ (ok_hist _ Hc)) as Hsz. unfold getGHR. unfold ring in Hpt. cbn in Hsz.
  change (histBufferSize c) with (p_histBufferSize p) in *. change (maxHist c) with (p_maxHist p) in *.
  loop_invariant (fun n v => forall i, 0 <= i -> Z.testbit v i = (i <? n) && bool_decide (now h !! Z.to_nat i = Some 1)); [lia| | |].
  - intros i Hi. rewrite Z.bits_0. by rewrite (proj2 (Z.ltb_ge i 0)) by lia.
  - intros n v Hn Hv. rewrite Hrt. cbn [mbind res_bind]. rewrite <- Hcur.
    rewrite (wrap_u_id 32), (wrap_s_id 32) by lia. rewrite (tb_cfg _ _ Htab).
    change (histBufferSize (LTAGE_cfg p g)) with (p_histBufferSize p). rewrite (proj2 (Z.ltb_lt _ _)) by lia.
    destruct (aread_in_bounds (globalHistory t) (ptGhist t + n)) as (b & Hb & ->); [lia|]. cbn [mbind res_bind].
    eexists. split; [done|]. intros i Hi. rewrite Z.lor_spec, Hv by done.
    assert (Hw : now h !! Z.to_nat n = Some b).
    { rewrite <- Hnow, window_lookup by lia. by replace (Z.to_nat (ptGhist t) + Z.to_nat n)%nat with (Z.to_nat (ptGhist t + n)) by lia. }
    assert (Hbit : Z.land b 1 = b) by (destruct (bits_lookup _ _ _ Hbits Hb) as [->| ->]; done). rewrite Hbit.
    rewrite testbit_wrap_u, Z.shiftl_spec by lia. destruct (bits_lookup _ _ _ Hbits Hb) as [Eb|Eb]; subst b.
    + rewrite Z.bits_0, andb_false_r, orb_false_r. destruct (Z.ltb_spec i n), (Z.ltb_spec i (n + 1)); try done; [lia|].
      replace i with n by lia. by rewrite Hw.
    + destruct (decide (i = n)) as [->|].
      * rewrite Z.sub_diag, Hw, (proj2 (Z.ltb_lt n 32)), (proj2 (Z.ltb_lt n (n + 1))) by lia. cbn. apply orb_true_r.
      * assert (Z.testbit 1 (i - n) = false) as ->.
        { destruct (Z.ltb_spec i n); [by apply Z.testbit_neg_r; lia|]. apply (testbit_above 1); lia. }
        rewrite andb_false_r, orb_false_r. destruct (Z.ltb_spec i n), (Z.ltb_spec i (n + 1)); done || lia.
  - eexists. split; [done|]. exact Hinv.
Qed.

(** The small predictor with a longer history. *)
Definition long_ltage : LTAGEParams := {|
  p_numThreads := 1; p_logSizeBiMP := 2; p_logSizeTagTables := 3; p_logSizeLoopPred := 3;
  p_nHistoryTables := 3; p_tagTableCounterBits := 3; p_histBufferSize := 100;
  p_minHist := 2; p_maxHist := 40; p_minTagWidth := 4 |}.
Lemma long_ltage_ok : params_ok long_ltage.
Proof. split; cbn; lia. Qed.
Lemma long_lengths_ok : geometric_ok long_ltage small_lengths.
Proof. intros i Hi. unfold small_lengths. cbn in *. case_match; lia. Qed.

Definition long_run : option (machine * list SpecHist) :=
  run_new zero_shift long_ltage small_lengths
    [Predict 0 0x40 false false; Predict 0 0x44 true false; Mispredict 0 0 false; Predict 0 0x48 false false].
Lemma long_run_head : exists m a h bi fl, long_run = Some (m, a) /\
  a !! 0%nat = Some h /\ flights m !! 0%nat = Some (bi :: fl) /\ head (age <$> flight h) = Some 0 /\
  take 3 (now h) = [1; 0; 1].
Proof.
  assert (match long_run with
          | Some (m, a) => match a !! 0%nat, flights m !! 0%nat with
                           | Some h, Some (_ :: _) => bool_decide (head (age <$> flight h) = Some 0 /\ take 3 (now h) = [1; 0; 1])
                           | _, _ => false end
          | None => false end = true) as H by (vm_compute; reflexivity).
  destruct long_run as [[m a]|]; [|discriminate H]. destruct (a !! 0%nat) as [h|] eqn:Ea; [|discriminate H].
  destruct (flights m !! 0%nat) as [[|bi fl]|] eqn:Ef; try discriminate H. apply bool_decide_eq_true in H as [H1 H2].
  exists m, a, h, bi, fl. split; [reflexivity|]. split; [exact Ea|]. split; [exact Ef|]. by split.
Qed.

Example ltage_ghr_witness : exists m bi v, getGHR (pred m) 0 (Some bi) = Ok v /\
  Z.testbit v 0 = true /\ Z.testbit v 1 = false /\ Z.testbit v 2 = true.
Proof.
  destruct long_run_head as (m & a & h & bi & fl & E & Ha & Hf & Hy & Hn). apply run_reachable in E.
  destruct (ltage_ghr _ _ _ _ _ 0 h fl bi long_ltage_ok long_lengths_ok E ltac:(cbn; lia) ltac:(lia) Ha Hf Hy) as (v & Ev & Hv).
  exists m, bi, v. split; [exact Ev|]. rewrite !Hv by lia.
  assert (forall k, (k < 3)%nat -> now h !! k = [1; 0; 1] !! k) as Hk by (intros k Hk; by rewrite <- Hn, lookup_take_lt).
  rewrite !Hk by lia. by split_and!.
Defined.
