(* ===== verification/Ras.v ===== *)
(** The return address stack, src/cpu/pred/ras.cc and ras.hh: a circular
    buffer whose pushes overwrite and whose pops leave the entry in place. *)
From S2P Require Import Prelude DirPred.

(** * Definitions *)

Section Ras.
Context {PC Inst : Type} `{TheISA PC Inst}.

Record ReturnAddrStack := {
  addrStack : list PC; numEntries : Z; usedEntries : Z; tos : Z }.

Definition reset (s : ReturnAddrStack) : res ReturnAddrStack :=
  v ← for_range 0 (numEntries s)
        (fun i v => a ← aread v i; awrite v i (pc_set a 0)) (addrStack s);
  Ok {| addrStack := v; numEntries := numEntries s; usedEntries := 0; tos := 0 |}.

(** [init] on a stack just constructed, whose vector is empty. *)
Definition init (n : Z) : res ReturnAddrStack :=
  reset {| addrStack := replicate (Z.to_nat n) pc_default; numEntries := n;
           usedEntries := 0; tos := 0 |}.

Definition top (s : ReturnAddrStack) : res PC := aread (addrStack s) (tos s).
Definition topIdx (s : ReturnAddrStack) : Z := tos s.
Definition empty (s : ReturnAddrStack) : bool := usedEntries s =? 0.
Definition full (s : ReturnAddrStack) : bool := usedEntries s =? numEntries s.

Definition incrTos (s : ReturnAddrStack) : Z :=
  let t := u32 (tos s + 1) in if t =? numEntries s then 0 else t.
Definition decrTos (s : ReturnAddrStack) : Z :=
  if tos s =? 0 then u32 (numEntries s - 1) else u32 (tos s - 1).

Definition push (s : ReturnAddrStack) (return_addr : PC) : res ReturnAddrStack :=
  let t := incrTos s in
  v ← awrite (addrStack s) t return_addr;
  Ok {| addrStack := v; numEntries := numEntries s;
        usedEntries := if negb (usedEntries s =? numEntries s)
                       then u32 (usedEntries s + 1) else usedEntries s;
        tos := t |}.

Definition pop (s : ReturnAddrStack) : ReturnAddrStack :=
  {| addrStack := addrStack s; numEntries := numEntries s;
     usedEntries := if 0 <? usedEntries s then u32 (usedEntries s - 1) else usedEntries s;
     tos := decrTos s |}.

Definition restore (s : ReturnAddrStack) (top_entry_idx : Z) (restored : PC) : res ReturnAddrStack :=
  v ← awrite (addrStack s) top_entry_idx restored;
  Ok {| addrStack := v; numEntries := numEntries s; usedEntries := usedEntries s;
        tos := top_entry_idx |}.

(** * Invariant *)

Record ras_inv (n : Z) (s : ReturnAddrStack) : Prop := {
  ras_size : 0 < n < 2 ^ 32;
  ras_entries : numEntries s = n;
  ras_len : Z.of_nat (length (addrStack s)) = n;
  ras_tos : 0 <= tos s < n;
  ras_used : 0 <= usedEntries s <= n }.

(** The entry [k] below the top, going around the buffer. *)
Definition slot (n t k : Z) : Z := (t - k) mod n.
Definition peek (s : ReturnAddrStack) (k : Z) : option PC :=
  addrStack s !! Z.to_nat (slot (numEntries s) (tos s) k).

(** Equal down to depth [d]. *)
Definition agree (d : Z) (s t : ReturnAddrStack) : Prop :=
  tos t = tos s /\ forall k, 0 <= k < d -> peek t k = peek s k.

Lemma slot_0 n t : 0 <= t < n -> slot n t 0 = t.
Proof. intros. unfold slot. rewrite Z.sub_0_r. by apply Z.mod_small. Qed.

Lemma slot_range n t k : 0 < n -> 0 <= slot n t k < n.
Proof. intros. apply Z.mod_pos_bound. lia. Qed.

Lemma slot_ne n t k : 0 <= t < n -> 0 < k < n -> slot n t k <> t.
Proof.
  intros Ht Hk E. unfold slot in E. destruct (Z.le_gt_cases k t).
  - rewrite Z.mod_small in E; lia.
  - rewrite <- (Z_mod_plus_full _ 1), Z.mod_small in E; lia.
Qed.

Lemma slot_shift n t t' k : 0 < n -> t' = slot n t 1 -> slot n t' k = slot n t (k + 1).
Proof.
  intros Hn ->. unfold slot. rewrite Zminus_mod_idemp_l. f_equal. lia.
Qed.

Lemma incrTos_slot n s : ras_inv n s -> 0 <= incrTos s < n /\ tos s = slot n (incrTos s) 1.
Proof.
  intros []. unfold incrTos. rewrite wrap_u_id by lia. rewrite ras_entries0.
  destruct (Z.eqb_spec (tos s + 1) n).
  - split; [lia|]. unfold slot. rewrite <- (Z_mod_plus_full _ 1), Z.mod_small; lia.
  - split; [lia|]. unfold slot. rewrite Z.mod_small; lia.
Qed.

Lemma decrTos_slot n s : ras_inv n s -> 0 <= decrTos s < n /\ decrTos s = slot n (tos s) 1.
Proof.
  intros []. unfold decrTos. rewrite ras_entries0. destruct (Z.eqb_spec (tos s) 0) as [E|].
  - rewrite E, wrap_u_id by lia. split; [lia|].
    unfold slot. rewrite <- (Z_mod_plus_full _ 1), Z.mod_small; lia.
  - rewrite wrap_u_id by lia. split; [lia|]. unfold slot. rewrite Z.mod_small; lia.
Qed.

Lemma push_ok n s a :
  ras_inv n s -> exists s', push s a = Ok s' /\ ras_inv n s' /\
    peek s' 0 = Some a /\ tos s = slot n (tos s') 1 /\
    forall k, 0 <= k < n - 1 -> peek s' (k + 1) = peek s k.
Proof.
  intros Hs. destruct (incrTos_slot n s Hs) as [Hr Ht]. destruct Hs. unfold push.
  rewrite awrite_Ok by lia. cbn [mbind res_bind]. eexists. split; [done|]. split; [|split; [|split]].
  - split; cbn; try done; [by rewrite length_insert|].
    rewrite ras_entries0. destruct (Z.eqb_spec (usedEntries s) n); cbn [negb]; [lia|].
    rewrite wrap_u_id; lia.
  - unfold peek. cbn. rewrite slot_0 by lia. apply list_lookup_insert_eq. lia.
  - done.
  - intros k Hk. unfold peek. cbn. rewrite ras_entries0.
    pose proof (slot_range n (incrTos s) (k + 1) ltac:(lia)).
    rewrite list_lookup_insert_ne.
    + by rewrite <- (slot_shift n _ _ k ltac:(lia) Ht).
    + pose proof (slot_ne n (incrTos s) (k + 1)). lia.
Qed.

Lemma pop_ok n s :
  ras_inv n s -> ras_inv n (pop s) /\ tos (pop s) = slot n (tos s) 1 /\
    forall k, peek (pop s) k = peek s (k + 1).
Proof.
  intros Hs. destruct (decrTos_slot n s Hs) as [Hr Ht]. destruct Hs. split; [|split; [done|]].
  - split; cbn; try done. destruct (Z.ltb_spec 0 (usedEntries s)); [|lia]. rewrite wrap_u_id; lia.
  - intros k. unfold peek. cbn. rewrite ras_entries0. by rewrite (slot_shift n (tos s)) by lia.
Qed.

Lemma top_ok n s : ras_inv n s -> exists a, top s = Ok a /\ peek s 0 = Some a.
Proof.
  intros []. unfold top, peek. rewrite slot_0 by lia.
  destruct (aread_in_bounds (addrStack s) (tos s)) as (a & Ha & Hr); [lia|]. by exists a.
Qed.

Lemma restore_ok n s i a :
  ras_inv n s -> 0 <= i < n -> exists s', restore s i a = Ok s' /\ ras_inv n s' /\
    tos s' = i /\ peek s' 0 = Some a /\
    forall k, 0 < k < n -> peek s' k = addrStack s !! Z.to_nat (slot n i k).
Proof.
  intros [] Hi. unfold restore. rewrite awrite_Ok by lia. cbn [mbind res_bind].
  eexists. split; [done|]. split; [|split; [done|split]].
  - split; cbn; try done. by rewrite length_insert.
  - unfold peek. cbn. rewrite slot_0 by lia. apply list_lookup_insert_eq. lia.
  - intros k Hk. unfold peek. cbn. rewrite ras_entries0. apply list_lookup_insert_ne.
    pose proof (slot_ne n i k). pose proof (slot_range n i k). lia.
Qed.

Lemma init_ok n : 0 < n < 2 ^ 32 -> exists s, init n = Ok s /\ ras_inv n s.
Proof.
  intros Hn. unfold init, reset. cbn [numEntries addrStack].
  destruct (for_range_ok (fun _ (v : list PC) => Z.of_nat (length v) = n)
    (fun i v => a ← aread v i; awrite v i (pc_set a 0)) 0 n (replicate (Z.to_nat n) pc_default))
    as (v & -> & Hv); [lia|rewrite length_replicate; lia| |].
  - intros i v Hi Hl. destruct (aread_in_bounds v i) as (a & _ & ->); [lia|]. cbn [mbind res_bind].
    rewrite awrite_Ok by lia. eexists. split; [done|]. by rewrite length_insert.
  - eexists. split; [done|]. split; cbn; lia.
Qed.

(** * Undoing pushes and pops *)

Lemma agree_refl d s : agree d s s.
Proof. done. Qed.
Lemma agree_trans d e s t u : agree d s t -> agree e t u -> agree (Z.min d e) s u.
Proof.
  intros [E1 H1] [E2 H2]. split; [congruence|]. intros k Hk. by rewrite H2, H1 by lia.
Qed.
Lemma agree_weaken d e s t : e <= d -> agree d s t -> agree e s t.
Proof. intros He [E H1]. split; [done|]. intros k Hk. apply H1. lia. Qed.

(** [restore] undoes a pop and gains an entry. *)
Lemma undo_pop n d s t a :
  ras_inv n s -> ras_inv n t -> top s = Ok a -> agree d (pop s) t ->
  exists u, restore t (topIdx s) a = Ok u /\ ras_inv n u /\ agree (Z.min (d + 1) n) s u.
Proof.
  intros Hs Ht Ha [Et Hp]. destruct (pop_ok n s Hs) as (Hi & Htos & Hpop).
  destruct (restore_ok n t (tos s) a Ht (ras_tos _ _ Hs)) as (u & Hu & Hui & Eu & Hu0 & Hk).
  exists u. do 2 (split; [done|]). split; [done|]. intros k Hkd.
  destruct (decide (k = 0)) as [->|].
  - destruct (top_ok n s Hs) as (a' & Ha' & ->). rewrite Ha in Ha'. by injection Ha' as ->.
  - rewrite Hk by lia. replace k with (k - 1 + 1) at 2 by lia. rewrite <- Hpop, <- Hp by lia.
    unfold peek. rewrite (ras_entries _ _ Ht), Et, Htos. f_equal. f_equal.
    destruct Hs. rewrite (slot_shift n (tos s) _ (k - 1)) by (lia || done). f_equal. lia.
Qed.

(** [pop] undoes a push and loses an entry. *)
Lemma undo_push n d s s1 t a :
  ras_inv n s -> ras_inv n t -> push s a = Ok s1 -> d <= n -> agree d s1 t ->
  ras_inv n (pop t) /\ agree (d - 1) s (pop t).
Proof.
  intros Hs Ht Ha Hd [Et Hp]. destruct (push_ok n s a Hs) as (s1' & Hs1 & _ & _ & Htos & Hpk).
  rewrite Ha in Hs1. injection Hs1 as <-. destruct (pop_ok n t Ht) as (Hi & Htos' & Hpop).
  split; [done|]. split; [congruence|]. intros k Hk. by rewrite Hpop, Hp, Hpk by lia.
Qed.

(** A prediction's use of the stack: a call pushes, a return pops and
    records the top, and a call that turns out not taken pushes and pops. *)
Inductive ras_op := RPush (a : PC) | RPop | RPushPop (a : PC).
Inductive ras_undo := UPop | URestore (i : Z) (a : PC).

Fixpoint ras_run (ops : list ras_op) (s : ReturnAddrStack) (us : list ras_undo)
  : res (list ras_undo * ReturnAddrStack) :=
  match ops with
  | [] => Ok (us, s)
  | RPush a :: ops => s1 ← push s a; ras_run ops s1 (UPop :: us)
  | RPop :: ops => a ← top s; ras_run ops (pop s) (URestore (topIdx s) a :: us)
  | RPushPop a :: ops => s1 ← push s a; ras_run ops (pop s1) us
  end.
Fixpoint ras_unwind (us : list ras_undo) (s : ReturnAddrStack) : res ReturnAddrStack :=
  match us with
  | [] => Ok s
  | UPop :: us => ras_unwind us (pop s)
  | URestore i a :: us => s1 ← restore s i a; ras_unwind us s1
  end.

(** How far above its starting top the stack grows. *)
Fixpoint growth (ops : list ras_op) : Z :=
  match ops with
  | [] => 0
  | RPush _ :: ops => 1 + growth ops
  | RPop :: ops => Z.max 0 (growth ops - 1)
  | RPushPop _ :: ops => Z.max 1 (growth ops)
  end.

Lemma growth_nonneg ops : 0 <= growth ops.
Proof. induction ops as [|[]]; cbn; lia. Qed.

Lemma run_unwind n ops s us0 :
  ras_inv n s -> exists us s', ras_run ops s us0 = Ok (us ++ us0, s') /\ ras_inv n s' /\
    exists u, (forall us1, ras_unwind (us ++ us1) s' = ras_unwind us1 u) /\ ras_inv n u /\
      agree (n - growth ops) s u.
Proof.
  revert s us0. induction ops as [|[a| |a] ops IH]; intros s us0 Hs; cbn [ras_run growth].
  - exists [], s. split; [done|]. split; [done|]. exists s. split; [done|]. split; [done|apply agree_refl].
  - destruct (push_ok n s a Hs) as (s1 & Hs1 & Hi & _). rewrite Hs1. cbn [mbind res_bind].
    destruct (IH s1 (UPop :: us0) Hi) as (us & s' & -> & Hi' & u & Hu & Hui & Ha).
    exists (us ++ [UPop]), s'. rewrite <- app_assoc. split; [done|]. split; [done|].
    exists (pop u). pose proof (growth_nonneg ops).
    destruct (undo_push n (n - growth ops) s s1 u a Hs Hui Hs1 ltac:(lia) Ha) as [Hpi Hpa].
    split; [intros us1; by rewrite <- app_assoc, Hu|]. split; [done|].
    eapply agree_weaken; [|exact Hpa]. lia.
  - destruct (top_ok n s Hs) as (a & Ha & _). rewrite Ha. cbn [mbind res_bind].
    destruct (pop_ok n s Hs) as [Hi _].
    destruct (IH (pop s) (URestore (topIdx s) a :: us0) Hi) as (us & s' & -> & Hi' & u & Hu & Hui & Hag).
    exists (us ++ [URestore (topIdx s) a]), s'. rewrite <- app_assoc. split; [done|]. split; [done|].
    destruct (undo_pop n _ s u a Hs Hui Ha Hag) as (v & Hv & Hvi & Hva).
    exists v. split; [intros us1; rewrite <- app_assoc, Hu; cbn; by rewrite Hv|]. split; [done|].
    eapply agree_weaken; [|exact Hva]. lia.
  - destruct (push_ok n s a Hs) as (s1 & Hs1 & Hi & _). rewrite Hs1. cbn [mbind res_bind].
    destruct (undo_push n n s s1 s1 a Hs Hi Hs1 ltac:(lia) (agree_refl n s1)) as [Hpi Hpa].
    destruct (IH (pop s1) us0 Hpi) as (us & s' & -> & Hi' & u & Hu & Hui & Hag).
    exists us, s'. split; [done|]. split; [done|]. exists u. split; [done|]. split; [done|].
    eapply agree_weaken; [|exact (agree_trans _ _ _ _ _ Hpa Hag)]. lia.
Qed.
End Ras.
Arguments ras_op : clear implicits.
Arguments ras_undo : clear implicits.
Arguments ReturnAddrStack : clear implicits.

(** * Theorems *)

(** (the return address stack is a stack, as far as it goes). On a stack of
    [n] entries, any sequence of calls and returns runs without leaving the
    buffer; undone youngest first, with the tops recorded at the returns, it
    brings the top back to where it was with the [n - g] entries below it,
    where [g] is the most the sequence grew the stack.  What is lost is what
    the circular buffer overwrote: the [g] deepest entries. *)
Theorem ras_squash_restores {PC Inst} `{TheISA PC Inst} n (s : ReturnAddrStack PC) ops :
  ras_inv n s ->
  exists us s' u, ras_run ops s [] = Ok (us, s') /\ ras_inv n s' /\
    ras_unwind us s' = Ok u /\ ras_inv n u /\ tos u = tos s /\
    forall k, 0 <= k < n - growth ops -> peek u k = peek s k.
Proof.
  intros Hs. destruct (run_unwind n ops s [] Hs) as (us & s' & Hr & Hi & u & Hu & Hui & Ht & Hp).
  specialize (Hu []). rewrite app_nil_r in *. by exists us, s', u.
Qed.

Example ras_squash_restores_witness :
  exists s us s' u, init (PC := Z) (Inst := flat_inst) 4 = Ok s /\
    ras_run [RPop; RPush 0x40; RPush 0x50; RPop] s [] = Ok (us, s') /\ ras_unwind us s' = Ok u /\
    tos u = tos s /\ peek u 0 = peek s 0.
Proof.
  destruct (init_ok (PC := Z) (Inst := flat_inst) 4) as (s & Hs & Hi); [lia|].
  destruct (ras_squash_restores (Inst := flat_inst) 4 s [RPop; RPush 0x40; RPush 0x50; RPop] Hi)
    as (us & s' & u & H1 & _ & H2 & _ & H3 & H4).
  exists s, us, s', u. do 4 (split; [done|]). apply H4. cbn. lia.
Defined.
