(* ===== verification/Btb.v ===== *)
(** The branch target buffer, src/cpu/pred/btb.cc: a direct-mapped table of
    targets, tagged by address bits and thread. *)
From S2P Require Import Prelude Bitfield IntMath SatCounter DirPred.

(** * Definitions *)

Section Btb.
Context {PC Inst : Type} `{TheISA PC Inst}.

(** [tid] is indeterminate until the entry is written; [valid] is tested
    first. *)
Record BTBEntry := { e_tag : Z; e_target : PC; e_tid : option Z; e_valid : bool }.
Record DefaultBTB := {
  btb : list BTBEntry; numEntries : Z; idxMask : Z; tagBits : Z; tagMask : Z;
  instShiftAmt : Z; tagShiftAmt : Z; log2NumThreads : Z }.

Definition with_btb (s : DefaultBTB) v :=
  {| btb := v; numEntries := numEntries s; idxMask := idxMask s; tagBits := tagBits s;
     tagMask := tagMask s; instShiftAmt := instShiftAmt s; tagShiftAmt := tagShiftAmt s;
     log2NumThreads := log2NumThreads s |}.

Definition BTBEntry_new : BTBEntry :=
  {| e_tag := 0; e_target := pc_of 0; e_tid := None; e_valid := false |}.
Definition invalidate (e : BTBEntry) : BTBEntry :=
  {| e_tag := e_tag e; e_target := e_target e; e_tid := e_tid e; e_valid := false |}.

(** [for (i = 0; i < numEntries; ++i) btb[i].valid = false;] *)
Definition invalidate_all (n : Z) (v : list BTBEntry) : res (list BTBEntry) :=
  for_range 0 n (fun i v => e ← aread v i; awrite v i (invalidate e)) v.

Definition DefaultBTB_new (n tag_bits inst_shift num_threads : Z) : res DefaultBTB :=
  lt ← floorLog2_32 num_threads;
  assert! isPowerOf2 n ;;
  v ← invalidate_all n (replicate (Z.to_nat n) BTBEntry_new);
  tm ← int_mask tag_bits;
  l ← floorLog2_32 n;
  Ok {| btb := v; numEntries := n; idxMask := u32 (n - 1); tagBits := tag_bits;
        tagMask := u32 tm; instShiftAmt := inst_shift; tagShiftAmt := u32 (inst_shift + l);
        log2NumThreads := lt |}.

Definition reset (s : DefaultBTB) : res DefaultBTB :=
  v ← invalidate_all (numEntries s) (btb s); Ok (with_btb s v).

(** [tid << k] on a promoted [ThreadID]; shifting a bit out of the [int] is
    undefined. *)
Definition tid_shift (tid k : Z) : res Z :=
  defined! (k <? 32) && (0 <=? tid) && (Z.shiftl tid k <? 2 ^ 31) ;; Ok (Z.shiftl tid k).

Definition getIndex (s : DefaultBTB) (instPC tid : Z) : res Z :=
  x ← shr64 instPC (instShiftAmt s);
  y ← tid_shift tid (u32 (tagShiftAmt s - instShiftAmt s - log2NumThreads s));
  Ok (u32 (Z.land (Z.lxor x y) (idxMask s))).

Definition getTag (s : DefaultBTB) (instPC : Z) : res Z :=
  x ← shr64 instPC (tagShiftAmt s); Ok (Z.land x (tagMask s)).

(** The condition [valid] and [lookup] test. *)
Definition hit (e : BTBEntry) (inst_tag tid : Z) : bool :=
  e_valid e && (inst_tag =? e_tag e) && bool_decide (e_tid e = Some tid).

Definition valid (s : DefaultBTB) (instPC tid : Z) : res bool :=
  btb_idx ← getIndex s instPC tid;
  inst_tag ← getTag s instPC;
  assert! btb_idx <? numEntries s ;;
  e ← aread (btb s) btb_idx;
  Ok (if hit e inst_tag tid then true else false).

Definition lookup (s : DefaultBTB) (instPC tid : Z) : res PC :=
  btb_idx ← getIndex s instPC tid;
  inst_tag ← getTag s instPC;
  assert! btb_idx <? numEntries s ;;
  e ← aread (btb s) btb_idx;
  Ok (if hit e inst_tag tid then e_target e else pc_of 0).

Definition update (s : DefaultBTB) (instPC : Z) (target : PC) (tid : Z) : res DefaultBTB :=
  btb_idx ← getIndex s instPC tid;
  assert! btb_idx <? numEntries s ;;
  tag ← getTag s instPC;
  v ← awrite (btb s) btb_idx
        {| e_tag := tag; e_target := target; e_tid := Some tid; e_valid := true |};
  Ok (with_btb s v).

(** * Invariant *)

(** [T]: the number of threads the buffer was built for. *)
Record btb_inv (T : Z) (s : DefaultBTB) : Prop := {
  btb_size : exists k t, 0 <= k < 32 /\ numEntries s = 2 ^ k /\ idxMask s = 2 ^ k - 1 /\
    tagShiftAmt s = instShiftAmt s + k /\ 0 <= t <= k /\ log2NumThreads s = t /\
    T < 2 ^ (t + 1) /\ 2 ^ (k + 1) < 2 ^ 32;
  btb_shift : 0 <= instShiftAmt s /\ tagShiftAmt s < 64;
  btb_len : Z.of_nat (length (btb s)) = numEntries s }.

Definition index_of (s : DefaultBTB) (instPC tid : Z) : Z :=
  Z.land (Z.lxor (Z.shiftr instPC (instShiftAmt s))
                 (Z.shiftl tid (tagShiftAmt s - instShiftAmt s - log2NumThreads s))) (idxMask s).
Definition tag_of (s : DefaultBTB) (instPC : Z) : Z :=
  Z.land (Z.shiftr instPC (tagShiftAmt s)) (tagMask s).

Lemma btb_index_ok T s pc tid :
  btb_inv T s -> 0 <= tid < T ->
  getIndex s pc tid = Ok (index_of s pc tid) /\ 0 <= index_of s pc tid < numEntries s.
Proof.
  intros [(k & t & Hk & Hn & Hm & Hts & Ht & Hl & HT & Hb) [Hi Hs] _] Htid.
  assert (k < 31) by (apply (Z.pow_lt_mono_r_iff 2) in Hb; lia).
  unfold getIndex, index_of, tid_shift. rewrite shr64_ok by lia. cbn [mbind res_bind].
  rewrite (wrap_u_id 32 (_ - _)) by lia. rewrite Hts, Hl, Hm, Hn.
  replace (instShiftAmt s + k - instShiftAmt s - t) with (k - t) by lia.
  assert (Z.shiftl tid (k - t) < 2 ^ 31).
  { rewrite Z.shiftl_mul_pow2 by lia. pose proof (pow2_pos (k - t) ltac:(lia)).
    assert (tid * 2 ^ (k - t) < 2 ^ (t + 1) * 2 ^ (k - t)) by nia.
    rewrite <- Z.pow_add_r in * by lia. replace (t + 1 + (k - t)) with (k + 1) in * by lia.
    pose proof (Z.pow_le_mono_r 2 (k + 1) 31 ltac:(lia) ltac:(lia)). lia. }
  rewrite !(proj2 (Z.ltb_lt _ _)), (proj2 (Z.leb_le _ _)) by lia. cbn [andb mbind res_bind].
  pose proof (land_mask_range (Z.lxor (Z.shiftr pc (instShiftAmt s)) (Z.shiftl tid (k - t))) k ltac:(lia)).
  pose proof (Z.pow_lt_mono_r 2 k 32 ltac:(lia) ltac:(lia) ltac:(lia)).
  rewrite wrap_u_id by lia. done.
Qed.

Lemma tag_ok T s pc : btb_inv T s -> getTag s pc = Ok (tag_of s pc).
Proof. intros [_ [_ Hs] _]. unfold getTag. by rewrite shr64_ok by lia. Qed.

(** What [valid] and [lookup] answer is decided by one entry. *)
Lemma find_ok T s pc tid :
  btb_inv T s -> 0 <= tid < T -> exists e,
    btb s !! Z.to_nat (index_of s pc tid) = Some e /\
    valid s pc tid = Ok (hit e (tag_of s pc) tid) /\
    lookup s pc tid = Ok (if hit e (tag_of s pc) tid then e_target e else pc_of 0).
Proof.
  intros Hs Ht. destruct (btb_index_ok T s pc tid Hs Ht) as [He Hi].
  pose proof (btb_len _ _ Hs). destruct (aread_in_bounds (btb s) (index_of s pc tid)) as (e & Hl & Hr); [lia|].
  exists e. split; [done|]. unfold valid, lookup.
  rewrite He. cbn [mbind res_bind]. rewrite (tag_ok T) by done. cbn [mbind res_bind].
  rewrite (proj2 (Z.ltb_lt _ _)) by lia. rewrite Hr. cbn [mbind res_bind].
  split; [by destruct (hit _ _ _)|done].
Qed.

Lemma btb_write_ok T s pc target tid :
  btb_inv T s -> 0 <= tid < T ->
  let e := {| e_tag := tag_of s pc; e_target := target; e_tid := Some tid; e_valid := true |} in
  let s' := with_btb s (<[Z.to_nat (index_of s pc tid) := e]> (btb s)) in
  update s pc target tid = Ok s' /\ btb_inv T s'.
Proof.
  intros Hs Ht e s'. destruct (btb_index_ok T s pc tid Hs Ht) as [He Hi].
  split.
  - unfold update. rewrite He. cbn [mbind res_bind]. rewrite (proj2 (Z.ltb_lt _ _)) by lia.
    rewrite (tag_ok T) by done. cbn [mbind res_bind]. by rewrite awrite_Ok by (rewrite (btb_len _ _ Hs); lia).
  - destruct Hs as [H1 H2 H3]. split; [done|done|]. cbn. by rewrite length_insert.
Qed.

Lemma invalidate_all_ok n (v : list BTBEntry) :
  Z.of_nat (length v) = n -> invalidate_all n v = Ok (invalidate <$> v).
Proof.
  intros Hl. unfold invalidate_all.
  destruct (for_range_ok (fun i w => w = (invalidate <$> take (Z.to_nat i) v) ++ drop (Z.to_nat i) v)
    (fun i v => e ← aread v i; awrite v i (invalidate e)) 0 n v) as (w & -> & ->); [lia|done| |].
  - intros i w Hi ->. destruct (aread_in_bounds v i) as (e & He & _); [lia|].
    assert (length (take (Z.to_nat i) v) = Z.to_nat i) as Hti by (rewrite length_take; lia).
    rewrite (drop_S _ _ _ He), (aread_Ok _ _ e); [|lia|].
    2:{ rewrite lookup_app_r by (rewrite length_fmap; lia). by rewrite length_fmap, Hti, Nat.sub_diag. }
    cbn [mbind res_bind]. rewrite awrite_Ok by (rewrite length_app, length_fmap; simpl; lia).
    eexists. split; [done|]. rewrite insert_app_r_alt by (rewrite length_fmap; lia).
    rewrite length_fmap, Hti, Nat.sub_diag. cbn.
    replace (Z.to_nat (i + 1)) with (S (Z.to_nat i)) by lia.
    rewrite (take_S_r _ _ e He), fmap_app, <- app_assoc. done.
  - rewrite take_ge, drop_ge, app_nil_r by lia. done.
Qed.

(** The constructor, for a buffer with a power of two of entries that the
    shifts can index. *)
Lemma DefaultBTB_new_ok k tag_bits inst_shift num_threads :
  0 <= k < 31 -> 0 <= tag_bits < 31 -> 0 <= inst_shift -> inst_shift + k < 64 ->
  0 < num_threads < 2 ^ (k + 1) ->
  exists s, DefaultBTB_new (2 ^ k) tag_bits inst_shift num_threads = Ok s /\ btb_inv num_threads s /\
    tagShiftAmt s = inst_shift + k /\ instShiftAmt s = inst_shift /\ tagMask s = 2 ^ tag_bits - 1.
Proof.
  intros Hk Ht Hi Hs Hn. unfold DefaultBTB_new.
  pose proof (pow2_pos k ltac:(lia)). pose proof (Z.pow_lt_mono_r 2 k 31 ltac:(lia) ltac:(lia) ltac:(lia)).
  pose proof (Z.pow_le_mono_r 2 (k + 1) 31 ltac:(lia) ltac:(lia)).
  rewrite !floorLog2_32_spec by lia. cbn [mbind res_bind].
  rewrite (proj2 (isPowerOf2_spec (2 ^ k) ltac:(lia))) by (exists k; lia).
  rewrite invalidate_all_ok by (rewrite length_replicate; lia). cbn [mbind res_bind].
  rewrite int_mask_ok by lia. cbn [mbind res_bind]. rewrite Z.log2_pow2 by lia.
  pose proof (Z.log2_nonneg num_threads).
  assert (Z.log2 num_threads < k + 1) by (apply Z.log2_lt_pow2; lia).
  rewrite (wrap_u_id 32 (inst_shift + k)) by lia. rewrite !u32_pred_pow2 by lia.
  eexists. split; [done|]. split; [|done]. split; cbn; [|lia|].
  - exists k, (Z.log2 num_threads). split_and!; try done; try lia.
    destruct (Z.log2_spec num_threads) as [_ Hlog]; [lia|]. by rewrite <- Z.add_1_r in Hlog.
  - rewrite length_fmap, length_replicate. lia.
Qed.
End Btb.
Arguments BTBEntry : clear implicits.
Arguments DefaultBTB : clear implicits.

(** * Theorems *)

(** (the target buffer returns the last target written). After [update] of
    an address for a thread, [lookup] of that address and thread is valid and
    returns that target; an address with another index answers as before, and
    one that shares the index hits only when its tag and thread are the same,
    in which case it gets the new target.  Every operation of an existing
    thread stays inside the table. *)
Theorem btb_update_lookup {PC Inst} `{TheISA PC Inst} T (s : DefaultBTB PC) pc target tid :
  btb_inv T s -> 0 <= tid < T ->
  exists s', update s pc target tid = Ok s' /\ btb_inv T s' /\
    valid s' pc tid = Ok true /\ lookup s' pc tid = Ok target /\
    forall pc' tid', 0 <= tid' < T ->
      if bool_decide (index_of s pc' tid' = index_of s pc tid)
      then let same := (tag_of s pc' =? tag_of s pc) && (tid =? tid') in
           valid s' pc' tid' = Ok same /\ lookup s' pc' tid' = Ok (if same then target else pc_of 0)
      else valid s' pc' tid' = valid s pc' tid' /\ lookup s' pc' tid' = lookup s pc' tid'.
Proof.
  intros Hs Ht. destruct (btb_write_ok T s pc target tid Hs Ht) as [Hu Hi].
  set (s' := with_btb s _) in *. exists s'. do 2 (split; [done|]).
  destruct (btb_index_ok T s pc tid Hs Ht) as [_ Hr]. pose proof (btb_len _ _ Hs) as Hlen.
  assert (btb s' !! Z.to_nat (index_of s pc tid) = Some {| e_tag := tag_of s pc; e_target := target;
            e_tid := Some tid; e_valid := true |}) as Hnew by (apply list_lookup_insert_eq; lia).
  assert (forall pc' tid', 0 <= tid' < T ->
      if bool_decide (index_of s pc' tid' = index_of s pc tid)
      then let same := (tag_of s pc' =? tag_of s pc) && (tid =? tid') in
           valid s' pc' tid' = Ok same /\ lookup s' pc' tid' = Ok (if same then target else pc_of 0)
      else valid s' pc' tid' = valid s pc' tid' /\ lookup s' pc' tid' = lookup s pc' tid') as Hall.
  { intros pc' tid' Ht'. destruct (find_ok T s' pc' tid' Hi Ht') as (e & He & -> & ->).
    change (index_of s' pc' tid') with (index_of s pc' tid') in He.
    change (tag_of s' pc') with (tag_of s pc'). case_bool_decide as E.
    - rewrite E, Hnew in He. injection He as <-. unfold hit. cbn.
      destruct (Z.eqb_spec tid tid') as [->|Hne]; [by rewrite bool_decide_eq_true_2|].
      by rewrite bool_decide_eq_false_2, !andb_false_r by congruence.
    - destruct (find_ok T s pc' tid' Hs Ht') as (e' & He' & -> & ->).
      destruct (btb_index_ok T s pc' tid' Hs Ht') as [_ Hr'].
      cbn in He. rewrite list_lookup_insert_ne in He by lia. rewrite He' in He. by injection He as <-. }
  pose proof (Hall pc tid Ht) as H1. rewrite bool_decide_eq_true_2, !Z.eqb_refl in H1 by done.
  destruct H1 as [H1 H2]. by do 2 (split; [done|]).
Qed.

Example btb_update_lookup_witness :
  exists s s', DefaultBTB_new (PC := Z) (Inst := flat_inst) 16 8 2 2 = Ok s /\
    update s 0x1040 0x2000 1 = Ok s' /\
    lookup (Inst := flat_inst) s' 0x1040 1 = Ok 0x2000.
Proof.
  destruct (DefaultBTB_new_ok (PC := Z) (Inst := flat_inst) 4 8 2 2) as (s & Hs & Hi & _); [simpl; lia..|].
  destruct (btb_update_lookup (Inst := flat_inst) 2 s 0x1040 0x2000 1 Hi) as (s' & H1 & _ & _ & H2 & _); [lia|].
  exists s, s'. by split.
Defined.
