(* ===== verification/IndirectPred.v ===== *)
(** The indirect target predictor, src/cpu/pred/indirect.cc: a set-associative
    cache of targets, indexed by the branch address hashed with the global
    history and the targets of the thread's latest indirect branches. *)
From S2P Require Import Prelude Bitfield IntMath SatCounter DirPred.

(** * Definitions *)

Record HistoryEntry := { pcAddr : Z; targetAddr : Z; seqNum : Z }.
(** [pathHist]: oldest first, as in the deque. *)
Record ThreadInfo := { pathHist : list HistoryEntry; headHistEntry : Z }.

Section IndirectPredictor.
Context {PC Inst : Type} `{TheISA PC Inst}.

Record IPredEntry := { w_tag : Z; w_target : PC }.
Record IndirectPredictor := {
  hashGHR : bool; hashTargets : bool; numSets : Z; numWays : Z; tagBits : Z;
  pathLength : Z; instShift : Z;
  targetCache : list (list IPredEntry); threadInfo : list ThreadInfo }.

Definition with_cache (s : IndirectPredictor) v :=
  {| hashGHR := hashGHR s; hashTargets := hashTargets s; numSets := numSets s;
     numWays := numWays s; tagBits := tagBits s; pathLength := pathLength s;
     instShift := instShift s; targetCache := v; threadInfo := threadInfo s |}.
Definition with_info (s : IndirectPredictor) v :=
  {| hashGHR := hashGHR s; hashTargets := hashTargets s; numSets := numSets s;
     numWays := numWays s; tagBits := tagBits s; pathLength := pathLength s;
     instShift := instShift s; targetCache := targetCache s; threadInfo := v |}.

Definition IndirectPredictor_new (hash_ghr hash_targets : bool)
    (num_sets num_ways tag_bits path_len inst_shift num_threads : Z) : res IndirectPredictor :=
  assert! isPowerOf2 num_sets ;;
  Ok {| hashGHR := hash_ghr; hashTargets := hash_targets; numSets := num_sets;
        numWays := num_ways; tagBits := tag_bits; pathLength := path_len;
        instShift := inst_shift;
        targetCache := replicate (Z.to_nat num_sets)
          (replicate (Z.to_nat num_ways) {| w_tag := 0; w_target := pc_of 0 |});
        threadInfo := replicate (Z.to_nat num_threads) {| pathHist := []; headHistEntry := 0 |} |}.

(** The loop over the path history, newest entry first. *)
Fixpoint hash_path (s : IndirectPredictor) (hash_shift : Z) (h : list HistoryEntry) (p hash : Z)
  : res Z :=
  match h with
  | [] => Ok hash
  | e :: h =>
    if p <? pathLength s then
      x ← shr64 (targetAddr e) (u32 (instShift s + u32 (p * hash_shift)));
      hash_path s hash_shift h (p + 1) (Z.lxor hash x)
    else Ok hash
  end.

Definition getSetIndex (s : IndirectPredictor) (br_addr ghr tid : Z) : res Z :=
  t_info ← aread (threadInfo s) tid;
  hash ← shr64 br_addr (instShift s);
  let hash := if hashGHR s then Z.lxor hash ghr else hash in
  hash ← (if hashTargets s then
            l ← floorLog2_32 (numSets s);
            defined! negb (pathLength s =? 0) ;;
            hash_path s (l / pathLength s) (reverse (pathHist t_info)) 0 hash
          else Ok hash);
  Ok (Z.land hash (u32 (numSets s - 1))).

Definition getTag (s : IndirectPredictor) (br_addr : Z) : res Z :=
  x ← shr64 br_addr (instShift s); m ← int_mask (tagBits s); Ok (Z.land x m).

(** The first way with the tag. *)
Fixpoint find_way (ways : list IPredEntry) (tag : Z) : option PC :=
  match ways with
  | [] => None
  | w :: ways => if w_tag w =? tag then Some (w_target w) else find_way ways tag
  end.

(** [Some target] is a hit. *)
Definition lookup (s : IndirectPredictor) (br_addr ghr tid : Z) : res (option PC) :=
  set_index ← getSetIndex s br_addr ghr tid;
  tag ← getTag s br_addr;
  assert! set_index <? numSets s ;;
  iset ← aread (targetCache s) set_index;
  Ok (find_way iset tag).

Definition recordIndirect (s : IndirectPredictor) (br_addr tgt_addr seq_num tid : Z)
  : res IndirectPredictor :=
  let entry := {| pcAddr := br_addr; targetAddr := tgt_addr; seqNum := seq_num |} in
  t_info ← aread (threadInfo s) tid;
  v ← awrite (threadInfo s) tid
        {| pathHist := pathHist t_info ++ [entry]; headHistEntry := headHistEntry t_info |};
  Ok (with_info s v).

Definition commit (s : IndirectPredictor) (seq_num tid : Z) : res IndirectPredictor :=
  t_info ← aread (threadInfo s) tid;
  match pathHist t_info with
  | [] => Ok s
  | _ :: rest =>
    if headHistEntry t_info <? Z.of_nat (length (pathHist t_info)) then
      e ← aread (pathHist t_info) (headHistEntry t_info);
      if seqNum e <=? seq_num then
        v ← awrite (threadInfo s) tid
              (if pathLength s <=? headHistEntry t_info
               then {| pathHist := rest; headHistEntry := headHistEntry t_info |}
               else {| pathHist := pathHist t_info;
                       headHistEntry := u32 (headHistEntry t_info + 1) |});
        Ok (with_info s v)
      else Ok s
    else Ok s
  end.

(** The entries before the first one younger than [seq_num]. *)
Fixpoint keep_until (seq_num : Z) (h : list HistoryEntry) : list HistoryEntry :=
  match h with
  | [] => []
  | e :: h => if seq_num <? seqNum e then [] else e :: keep_until seq_num h
  end.

Definition squash (s : IndirectPredictor) (seq_num tid : Z) : res IndirectPredictor :=
  t_info ← aread (threadInfo s) tid;
  v ← awrite (threadInfo s) tid
        {| pathHist := keep_until seq_num (pathHist t_info); headHistEntry := headHistEntry t_info |};
  Ok (with_info s v).

(** The first way with the tag gets the target; [None] if there is none. *)
Fixpoint update_way (ways : list IPredEntry) (tag : Z) (target : PC) : option (list IPredEntry) :=
  match ways with
  | [] => None
  | w :: ways =>
    if w_tag w =? tag then Some ({| w_tag := w_tag w; w_target := target |} :: ways)
    else (cons w) <$> update_way ways tag target
  end.

(** [rnd]: the value [rand()] returns. *)
Definition recordTarget (rnd : Z) (s : IndirectPredictor) (seq_num ghr : Z) (target : PC) (tid : Z)
  : res IndirectPredictor :=
  t_info ← aread (threadInfo s) tid;
  match last (pathHist t_info) with
  | None => Ub
  | Some hist_entry =>
    let popped := removelast (pathHist t_info) in
    v ← awrite (threadInfo s) tid {| pathHist := popped; headHistEntry := headHistEntry t_info |};
    let s := with_info s v in
    set_index ← getSetIndex s (pcAddr hist_entry) ghr tid;
    tag ← getTag s (pcAddr hist_entry);
    v ← awrite (threadInfo s) tid
          {| pathHist := popped ++ [{| pcAddr := pcAddr hist_entry; targetAddr := instAddr target;
                                       seqNum := seqNum hist_entry |}];
             headHistEntry := headHistEntry t_info |};
    let s := with_info s v in
    assert! set_index <? numSets s ;;
    iset ← aread (targetCache s) set_index;
    match update_way iset tag target with
    | Some iset' => c ← awrite (targetCache s) set_index iset'; Ok (with_cache s c)
    | None =>
      defined! negb (numWays s =? 0) ;;
      iset' ← awrite iset (Z.rem rnd (numWays s)) {| w_tag := tag; w_target := target |};
      c ← awrite (targetCache s) set_index iset';
      Ok (with_cache s c)
    end
  end.

(** * Invariant *)

(** [T]: the number of threads.  The shifts of [hash_path] stay below
    [instShift] plus the number of index bits. *)
Record ipred_inv (T : Z) (s : IndirectPredictor) : Prop := {
  ip_sets : exists k, 0 <= k < 32 /\ numSets s = 2 ^ k;
  ip_ways : 0 < numWays s;
  ip_tag : 0 <= tagBits s < 31;
  ip_path : 0 < pathLength s < 2 ^ 32;
  ip_shift : 0 <= instShift s <= 32;
  ip_cache : Z.of_nat (length (targetCache s)) = numSets s;
  ip_set : Forall (fun ws => Z.of_nat (length ws) = numWays s) (targetCache s);
  ip_threads : Z.of_nat (length (threadInfo s)) = T;
  ip_head : Forall (fun t => 0 <= headHistEntry t) (threadInfo s) }.

(** The state but for the cache and the histories is fixed. *)
Definition same_cfg (s t : IndirectPredictor) : Prop :=
  with_info (with_cache s []) [] = with_info (with_cache t []) [].

Lemma same_cfg_fields s t :
  same_cfg s t -> hashGHR t = hashGHR s /\ hashTargets t = hashTargets s /\ numSets t = numSets s /\
    numWays t = numWays s /\ tagBits t = tagBits s /\ pathLength t = pathLength s /\ instShift t = instShift s.
Proof. intros [=]. by split_and!. Qed.

Lemma hash_path_cfg s t sh h p x :
  same_cfg s t -> hash_path t sh h p x = hash_path s sh h p x.
Proof.
  intros Hc%same_cfg_fields. destruct Hc as (_ & _ & _ & _ & _ & Hp & Hi).
  revert p x. induction h as [|e h IH]; intros p x; cbn [hash_path]; [done|].
  rewrite Hp, Hi. case_match; [|done]. destruct (shr64 _ _); cbn; [apply IH|done..].
Qed.

Lemma getSetIndex_cfg s t tid i j br ghr :
  same_cfg s t -> 0 <= tid -> threadInfo s !! Z.to_nat tid = Some i ->
  threadInfo t !! Z.to_nat tid = Some j -> pathHist j = pathHist i ->
  getSetIndex t br ghr tid = getSetIndex s br ghr tid.
Proof.
  intros Hc Ht Hi Hj Hp. unfold getSetIndex.
  rewrite (aread_Ok (threadInfo s) _ i), (aread_Ok (threadInfo t) _ j) by done. cbn [mbind res_bind].
  destruct (same_cfg_fields s t Hc) as (-> & -> & -> & _ & _ & -> & ->). rewrite Hp.
  destruct (shr64 br _) as [x| | |]; cbn [mbind res_bind]; try done.
  destruct (hashTargets s); [|done]. destruct (floorLog2_32 _) as [l| | |]; cbn [mbind res_bind]; try done.
  case_match; [|done]. by rewrite (hash_path_cfg s t).
Qed.

Lemma getTag_cfg s t br : same_cfg s t -> getTag t br = getTag s br.
Proof. intros (_ & _ & _ & _ & Et & _ & Ei)%same_cfg_fields. unfold getTag. by rewrite Et, Ei. Qed.

Lemma hash_path_ok s k h p x :
  0 <= k < 32 -> 0 <= instShift s <= 32 -> 0 < pathLength s < 2 ^ 32 -> 0 <= p ->
  exists y, hash_path s (k / pathLength s) h p x = Ok y.
Proof.
  intros Hk Hi Hl. revert p x. induction h as [|e h IH]; intros p x Hp; cbn [hash_path]; [by exists x|].
  destruct (Z.ltb_spec p (pathLength s)) as [Hlt|]; [|by exists x].
  pose proof (Z.mul_div_le k (pathLength s) ltac:(lia)).
  pose proof (Z.div_pos k (pathLength s) ltac:(lia) ltac:(lia)).
  assert (0 <= p * (k / pathLength s) <= k) by nia.
  rewrite (wrap_u_id 32 (p * _)), (wrap_u_id 32 (instShift s + _)), shr64_ok by lia.
  apply IH. lia.
Qed.

Lemma info_ok T s tid :
  ipred_inv T s -> 0 <= tid < T -> exists i, threadInfo s !! Z.to_nat tid = Some i /\
    aread (threadInfo s) tid = Ok i /\ 0 <= headHistEntry i.
Proof.
  intros Hs Ht. destruct (aread_in_bounds (threadInfo s) tid) as (i & Hi & Hr); [rewrite (ip_threads _ _ Hs); lia|].
  exists i. do 2 (split; [done|]). apply (Forall_lookup_1 _ _ _ _ (ip_head _ _ Hs) Hi).
Qed.

Lemma getSetIndex_ok T s br ghr tid :
  ipred_inv T s -> 0 <= tid < T -> exists i, getSetIndex s br ghr tid = Ok i /\ 0 <= i < numSets s.
Proof.
  intros Hs Ht. destruct (info_ok T s tid Hs Ht) as (ti & _ & Hr & _).
  destruct Hs as [(k & Hk & Hn) _ _ Hp Hi _ _ _ _]. pose proof (pow2_pos k ltac:(lia)).
  pose proof (Z.pow_lt_mono_r 2 k 32 ltac:(lia) ltac:(lia) ltac:(lia)).
  unfold getSetIndex. rewrite Hr, shr64_ok by lia. cbn [mbind res_bind].
  rewrite Hn, u32_pred_pow2 by lia. set (x := if hashGHR s then _ else _).
  destruct (hashTargets s); cbn [mbind res_bind].
  - rewrite floorLog2_32_spec by lia. cbn [mbind res_bind].
    rewrite (proj2 (Z.eqb_neq _ _)) by lia. cbn [negb]. rewrite Z.log2_pow2 by lia.
    destruct (hash_path_ok s k (reverse (pathHist ti)) 0 x Hk Hi Hp ltac:(lia)) as (y & ->).
    eexists. split; [done|]. apply land_mask_range. lia.
  - eexists. split; [done|]. apply land_mask_range. lia.
Qed.

Lemma getTag_ok T s br : ipred_inv T s -> exists t, getTag s br = Ok t.
Proof. intros [_ _ Ht _ Hi _ _ _ _]. unfold getTag. rewrite shr64_ok, int_mask_ok by lia. by eexists. Qed.

Lemma cache_ok T s i :
  ipred_inv T s -> 0 <= i < numSets s -> exists ws, targetCache s !! Z.to_nat i = Some ws /\
    aread (targetCache s) i = Ok ws /\ Z.of_nat (length ws) = numWays s.
Proof.
  intros Hs Hi. destruct (aread_in_bounds (targetCache s) i) as (ws & Hw & Hr); [rewrite (ip_cache _ _ Hs); lia|].
  exists ws. do 2 (split; [done|]). apply (Forall_lookup_1 _ _ _ _ (ip_set _ _ Hs) Hw).
Qed.

Lemma ipred_lookup_ok T s br ghr tid :
  ipred_inv T s -> 0 <= tid < T -> exists o, lookup s br ghr tid = Ok o.
Proof.
  intros Hs Ht. destruct (getSetIndex_ok T s br ghr tid Hs Ht) as (i & Hi & Hr).
  destruct (getTag_ok T s br Hs) as (t & Hg). destruct (cache_ok T s i Hs Hr) as (ws & _ & Hw & _).
  unfold lookup. rewrite Hi. cbn [mbind res_bind]. rewrite Hg. cbn [mbind res_bind].
  rewrite (proj2 (Z.ltb_lt _ _)), Hw by lia. by eexists.
Qed.

(** A history replaced. *)
Lemma with_info_inv T s n i :
  ipred_inv T s -> 0 <= headHistEntry i -> ipred_inv T (with_info s (<[n := i]> (threadInfo s))).
Proof. intros [] Hh. split; cbn; try done; [by rewrite length_insert|by apply Forall_insert]. Qed.

Lemma info_write T s tid i :
  ipred_inv T s -> 0 <= tid < T ->
  awrite (threadInfo s) tid i = Ok (<[Z.to_nat tid := i]> (threadInfo s)).
Proof. intros Hs Ht. apply awrite_Ok. rewrite (ip_threads _ _ Hs). lia. Qed.

Definition with_hist (s : IndirectPredictor) (tid : Z) (i : ThreadInfo) (h : list HistoryEntry) :=
  with_info s (<[Z.to_nat tid := {| pathHist := h; headHistEntry := headHistEntry i |}]> (threadInfo s)).

Lemma recordIndirect_ok T s br tgt sn tid :
  ipred_inv T s -> 0 <= tid < T -> exists i, threadInfo s !! Z.to_nat tid = Some i /\
    let s' := with_hist s tid i
      (pathHist i ++ [{| pcAddr := br; targetAddr := tgt; seqNum := sn |}]) in
    recordIndirect s br tgt sn tid = Ok s' /\ ipred_inv T s'.
Proof.
  intros Hs Ht. destruct (info_ok T s tid Hs Ht) as (i & Hi & Hr & Hh). exists i. split; [done|].
  split; [|by apply with_info_inv]. unfold recordIndirect. rewrite Hr. cbn [mbind res_bind].
  by rewrite (info_write T).
Qed.

Lemma ipred_squash_ok T s sn tid :
  ipred_inv T s -> 0 <= tid < T -> exists i, threadInfo s !! Z.to_nat tid = Some i /\
    let s' := with_hist s tid i (keep_until sn (pathHist i)) in
    squash s sn tid = Ok s' /\ ipred_inv T s'.
Proof.
  intros Hs Ht. destruct (info_ok T s tid Hs Ht) as (i & Hi & Hr & Hh). exists i. split; [done|].
  split; [|by apply with_info_inv]. unfold squash. rewrite Hr. cbn [mbind res_bind].
  by rewrite (info_write T).
Qed.

Lemma ipred_commit_ok T s sn tid :
  ipred_inv T s -> 0 <= tid < T -> exists s', commit s sn tid = Ok s' /\ ipred_inv T s' /\
    targetCache s' = targetCache s.
Proof.
  intros Hs Ht. destruct (info_ok T s tid Hs Ht) as (i & Hi & Hr & Hh). unfold commit.
  rewrite Hr. cbn [mbind res_bind]. destruct (pathHist i) as [|e rest] eqn:Eh; [by exists s|].
  destruct (Z.ltb_spec (headHistEntry i) (Z.of_nat (length (e :: rest)))); [|by exists s].
  destruct (aread_in_bounds (e :: rest) (headHistEntry i)) as (x & _ & ->); [lia|]. cbn [mbind res_bind].
  case_match; [|by exists s]. rewrite (info_write T) by done. cbn [mbind res_bind].
  eexists. split; [done|]. split; [|done]. apply with_info_inv; [done|].
  case_match; cbn; [done|]. apply (wrap_u_range 32). lia.
Qed.

Lemma keep_until_app sn h k :
  Forall (fun e => seqNum e <= sn) h -> Forall (fun e => sn < seqNum e) k -> keep_until sn (h ++ k) = h.
Proof.
  intros Hh Hk. induction Hh as [|e h He Hh IH]; cbn.
  - destruct Hk as [|e k He Hk]; cbn; [done|]. by rewrite (proj2 (Z.ltb_lt _ _)).
  - by rewrite (proj2 (Z.ltb_ge _ _)), IH.
Qed.

(** ** Writing a target *)

Lemma update_way_find ways tag target ways' :
  update_way ways tag target = Some ways' -> find_way ways' tag = Some target /\ length ways' = length ways.
Proof.
  revert ways'. induction ways as [|w ways IH]; intros ways'; cbn; [done|].
  destruct (Z.eqb_spec (w_tag w) tag) as [E|E].
  - intros [= <-]. cbn. by rewrite E, Z.eqb_refl.
  - destruct (update_way ways tag target) as [ws|]; [|done]. cbn. intros [= <-]. cbn.
    rewrite (proj2 (Z.eqb_neq _ _)) by done. destruct (IH ws eq_refl) as [-> ->]. done.
Qed.

Lemma update_way_insert ways tag target i :
  update_way ways tag target = None -> (i < length ways)%nat ->
  find_way (<[i := {| w_tag := tag; w_target := target |}]> ways) tag = Some target.
Proof.
  revert i. induction ways as [|w ways IH]; intros i; cbn; [lia|].
  destruct (Z.eqb_spec (w_tag w) tag) as [E|E]; [done|].
  destruct (update_way ways tag target); [done|]. intros _ Hi.
  destruct i as [|i]; cbn; [by rewrite Z.eqb_refl|].
  rewrite (proj2 (Z.eqb_neq _ _)) by done. apply IH; [done|lia].
Qed.

(** [recordTarget] writes the set the branch hashes to without its own
    history entry. *)
Lemma recordTarget_ok T rnd s sn ghr target tid i h e :
  ipred_inv T s -> 0 <= tid < T -> 0 <= rnd -> threadInfo s !! Z.to_nat tid = Some i ->
  pathHist i = h ++ [e] ->
  exists s' idx tag ws,
    recordTarget rnd s sn ghr target tid = Ok s' /\ ipred_inv T s' /\ same_cfg s s' /\
    getSetIndex (with_hist s tid i h) (pcAddr e) ghr tid = Ok idx /\ 0 <= idx < numSets s /\
    getTag s (pcAddr e) = Ok tag /\ find_way ws tag = Some target /\
    targetCache s' = <[Z.to_nat idx := ws]> (targetCache s) /\
    threadInfo s' = <[Z.to_nat tid := {| pathHist := h ++ [{| pcAddr := pcAddr e;
      targetAddr := instAddr target; seqNum := seqNum e |}]; headHistEntry := headHistEntry i |}]> (threadInfo s).
Proof.
  intros Hs Ht Hr Hi Hh. destruct (info_ok T s tid Hs Ht) as (i' & Hi' & Hra & Hhd).
  rewrite Hi in Hi'. injection Hi' as <-.
  assert (ipred_inv T (with_hist s tid i h)) as Hs1 by by apply with_info_inv.
  destruct (getSetIndex_ok T _ (pcAddr e) ghr tid Hs1 Ht) as (idx & Hidx & Hidr). cbn in Hidr.
  destruct (getTag_ok T s (pcAddr e) Hs) as (tag & Htag).
  destruct (cache_ok T s idx Hs Hidr) as (ws & Hws & Hrw & Hlen).
  set (i2 := {| pathHist := h ++ _; headHistEntry := headHistEntry i |}).
  assert (exists ws', find_way ws' tag = Some target /\ length ws' = length ws /\
    recordTarget rnd s sn ghr target tid = Ok (with_cache
      (with_info s (<[Z.to_nat tid := i2]> (threadInfo s))) (<[Z.to_nat idx := ws']> (targetCache s))))
    as (ws' & Hf & Hl & Hrun).
  { unfold recordTarget. rewrite Hra. cbn [mbind res_bind]. rewrite Hh, last_snoc, removelast_last.
    rewrite (info_write T) by done. cbn [mbind res_bind]. fold (with_hist s tid i h).
    rewrite Hidx. cbn [mbind res_bind]. rewrite (getTag_cfg s) by done. rewrite Htag. cbn [mbind res_bind].
    change (threadInfo (with_hist s tid i h)) with (<[Z.to_nat tid := {| pathHist := h;
      headHistEntry := headHistEntry i |}]> (threadInfo s)).
    rewrite awrite_Ok by (rewrite length_insert, (ip_threads _ _ Hs); lia). cbn [mbind res_bind].
    rewrite list_insert_insert_eq. fold i2. cbn [numSets targetCache with_info with_hist with_cache numWays].
    rewrite (proj2 (Z.ltb_lt _ _)), Hrw by lia. cbn [mbind res_bind].
    pose proof (ip_cache _ _ Hs) as Hcl. pose proof (ip_ways _ _ Hs) as Hw.
    destruct (update_way ws tag target) as [ws'|] eqn:Eu.
    - apply update_way_find in Eu as [Hf Hl]. rewrite awrite_Ok by lia. by exists ws'.
    - pose proof (Z.rem_bound_pos rnd (numWays s) ltac:(lia) ltac:(lia)).
      rewrite (proj2 (Z.eqb_neq _ _)) by lia. cbn [negb]. rewrite awrite_Ok by lia. cbn [mbind res_bind].
      rewrite awrite_Ok by lia. eexists. split; [|split; [|done]]; [|by rewrite length_insert].
      apply update_way_insert; [done|lia]. }
  eexists _, idx, tag, ws'. split; [exact Hrun|]. split; [|by do 6 (split; [done|])].
  destruct (with_info_inv T s (Z.to_nat tid) i2 Hs Hhd). split; cbn; try done.
  - by rewrite length_insert.
  - apply Forall_insert; [done|]. by rewrite Hl.
Qed.
End IndirectPredictor.
Arguments IPredEntry : clear implicits.
Arguments IndirectPredictor : clear implicits.

Section New.
Context {PC Inst : Type} `{TheISA PC Inst}.

Lemma IndirectPredictor_new_ok hg ht k ways tag_bits path_len inst_shift T :
  0 <= k < 32 -> 0 < ways -> 0 <= tag_bits < 31 -> 0 < path_len < 2 ^ 32 -> 0 <= inst_shift <= 32 ->
  0 <= T -> exists s : IndirectPredictor PC,
    IndirectPredictor_new hg ht (2 ^ k) ways tag_bits path_len inst_shift T = Ok s /\ ipred_inv T s /\
    instShift s = inst_shift /\ tagBits s = tag_bits /\
    targetCache s = replicate (Z.to_nat (2 ^ k)) (replicate (Z.to_nat ways) {| w_tag := 0; w_target := pc_of 0 |}) /\
    (forall i, threadInfo s !! i = Some {| pathHist := []; headHistEntry := 0 |} \/ threadInfo s !! i = None).
Proof.
  intros Hk Hw Ht Hp Hi HT. unfold IndirectPredictor_new. pose proof (pow2_pos k ltac:(lia)).
  pose proof (Z.pow_lt_mono_r 2 k 64 ltac:(lia) ltac:(lia) ltac:(lia)).
  rewrite (proj2 (isPowerOf2_spec (2 ^ k) ltac:(lia))) by (exists k; lia).
  eexists. split; [done|]. split; [|do 3 (split; [done|])].
  - split; cbn; [by exists k|done..| | | |].
    + rewrite length_replicate. lia.
    + apply Forall_replicate. rewrite length_replicate. lia.
    + rewrite length_replicate. lia.
    + by apply Forall_replicate.
  - intros i. cbn. destruct (replicate _ _ !! i) eqn:E; [|by right].
    left. by apply lookup_replicate in E as [-> _].
Qed.
End New.

(** * Theorems *)

(** (the indirect predictor learns a target). Take an indirect branch
    that is predicted ([recordIndirect]), turns out to go elsewhere
    ([recordTarget], with the global history of its prediction) and is then
    fetched again after a squash, with the same global and path history: the
    lookup hits and returns the corrected target, whichever way the random
    replacement chose.  No step leaves the cache, the path history or the width of
    a shift. *)
Theorem ipred_learns {PC Inst} `{TheISA PC Inst} T rnd (s : IndirectPredictor PC) br ghr tgt sn target tid :
  ipred_inv T s -> 0 <= tid < T -> 0 <= rnd ->
  (forall i, threadInfo s !! Z.to_nat tid = Some i -> Forall (fun e => seqNum e < sn) (pathHist i)) ->
  exists s1 s2 s3, recordIndirect s br tgt sn tid = Ok s1 /\
    recordTarget rnd s1 sn ghr target tid = Ok s2 /\ squash s2 (sn - 1) tid = Ok s3 /\
    ipred_inv T s3 /\ threadInfo s3 = threadInfo s /\ lookup s3 br ghr tid = Ok (Some target).
Proof.
  intros Hs Ht Hr Hold. destruct (recordIndirect_ok T s br tgt sn tid Hs Ht) as (i & Hi & H1 & Hi1).
  specialize (Hold i Hi). set (e := {| pcAddr := br; targetAddr := tgt; seqNum := sn |}) in *.
  set (s1 := with_hist s tid i _) in *. exists s1.
  assert (Z.to_nat tid < length (threadInfo s))%nat as Hlen by (by eapply lookup_lt_Some).
  assert (threadInfo s1 !! Z.to_nat tid = Some {| pathHist := pathHist i ++ [e]; headHistEntry := headHistEntry i |})
    as Hl1 by (by apply list_lookup_insert_eq).
  destruct (recordTarget_ok T rnd s1 sn ghr target tid _ (pathHist i) e Hi1 Ht Hr Hl1 eq_refl)
    as (s2 & idx & tag & ws & H2 & Hi2 & Hc & Hidx & Hir & Htag & Hfind & Ecache & Einfo).
  exists s2. destruct (ipred_squash_ok T s2 (sn - 1) tid Hi2 Ht) as (i2 & Hl2 & H3 & Hi3).
  rewrite Einfo, list_lookup_insert_eq in Hl2 by (cbn; by rewrite length_insert). injection Hl2 as <-.
  cbn [pathHist] in H3, Hi3. rewrite keep_until_app in H3 by
    (first [eapply Forall_impl; [exact Hold|]; intros; simpl in *; lia | repeat constructor; cbn; lia]).
  rewrite keep_until_app in Hi3 by
    (first [eapply Forall_impl; [exact Hold|]; intros; simpl in *; lia | repeat constructor; cbn; lia]).
  eexists. do 3 (split; [done|]). split; [done|].
  assert (threadInfo (with_hist s2 tid {| pathHist := pathHist i ++ [{| pcAddr := pcAddr e;
    targetAddr := instAddr target; seqNum := seqNum e |}]; headHistEntry := headHistEntry i |} (pathHist i))
    = threadInfo s) as Hback.
  { cbn. rewrite Einfo. cbn. rewrite !list_insert_insert_eq. apply list_insert_id. rewrite Hi. by destruct i. }
  split; [exact Hback|]. unfold lookup.
  rewrite (getSetIndex_cfg (with_hist s1 tid {| pathHist := pathHist i ++ [e]; headHistEntry := headHistEntry i |}
    (pathHist i)) _ tid i i); [|exact Hc|lia| |exact (eq_trans (f_equal (fun l => l !! Z.to_nat tid) Hback) Hi)|done].
  2:{ cbn. rewrite list_insert_insert_eq, list_lookup_insert_eq by done. by destruct i. }
  change (pcAddr e) with br in Hidx, Htag. rewrite Hidx. cbn [mbind res_bind].
  rewrite (getTag_cfg s1) by exact Hc. rewrite Htag. cbn [mbind res_bind].
  destruct (same_cfg_fields s1 s2 Hc) as (_ & _ & En & _).
  change (numSets (with_hist s2 _ _ _)) with (numSets s2). rewrite En, (proj2 (Z.ltb_lt _ _)) by lia.
  change (targetCache (with_hist s2 _ _ _)) with (targetCache s2). rewrite Ecache.
  pose proof (ip_cache _ _ Hi1). rewrite (aread_Ok _ _ ws); [cbn; by rewrite Hfind|lia|].
  apply list_lookup_insert_eq. lia.
Qed.

Example ipred_learns_witness :
  exists s s1 s2 s3, IndirectPredictor_new (PC := Z) (Inst := flat_inst) true true 4 2 8 3 2 1 = Ok s /\
    recordIndirect s 0x1000 0x1004 7 0 = Ok s1 /\
    recordTarget (Inst := flat_inst) 5 s1 7 0x2d 0x8000 0 = Ok s2 /\ squash s2 6 0 = Ok s3 /\
    lookup s3 0x1000 0x2d 0 = Ok (Some 0x8000).
Proof.
  destruct (IndirectPredictor_new_ok (PC := Z) (Inst := flat_inst) true true 2 2 8 3 2 1)
    as (s & Hs & Hi & _ & _ & _ & Hinfo); [lia..|].
  destruct (ipred_learns (Inst := flat_inst) 1 5 s 0x1000 0x2d 0x1004 7 0x8000 0 Hi)
    as (s1 & s2 & s3 & H1 & H2 & H3 & _ & _ & H4); [lia..| |].
  - intros i Hl. destruct (Hinfo 0%nat) as [E|E]; change (Z.to_nat 0) with 0%nat in Hl;
      rewrite E in Hl; [injection Hl as <-; constructor|done].
  - by exists s, s1, s2, s3.
Defined.

(** (a fresh indirect predictor hits on tag zero). The ways carry no valid
    bit: their tag and target start at zero.  So in a predictor just built,
    with nothing ever recorded, an indirect branch whose address has the tag
    zero hits, and is predicted to go to address zero. *)
Theorem ipred_cold_hit {PC Inst} `{TheISA PC Inst} hg ht k ways tag_bits path_len inst_shift T
    br ghr tid (s : IndirectPredictor PC) :
  0 <= k < 32 -> 0 < ways -> 0 <= tag_bits < 31 -> 0 < path_len < 2 ^ 32 -> 0 <= inst_shift <= 32 ->
  0 <= tid < T -> Z.shiftr br inst_shift mod 2 ^ tag_bits = 0 ->
  IndirectPredictor_new hg ht (2 ^ k) ways tag_bits path_len inst_shift T = Ok s ->
  lookup s br ghr tid = Ok (Some (pc_of 0)).
Proof.
  intros Hk Hw Htb Hp Hi Ht Htag Hnew.
  destruct (IndirectPredictor_new_ok hg ht k ways tag_bits path_len inst_shift T)
    as (s' & Hs & Hinv & Ei & Et & Ec & _); [done..|lia|]. rewrite Hnew in Hs. injection Hs as <-.
  destruct (getSetIndex_ok T s br ghr tid Hinv Ht) as (idx & Hidx & Hr).
  destruct (cache_ok T s idx Hinv Hr) as (ws & Hws & Hrd & _).
  assert (getTag s br = Ok 0) as Htg.
  { unfold getTag. rewrite Ei, Et, shr64_ok, int_mask_ok by lia. cbn [mbind res_bind].
    rewrite Z.sub_1_r, <- Z.ones_equiv, Z.land_ones by lia. by rewrite Htag. }
  unfold lookup. rewrite Hidx. cbn [mbind res_bind]. rewrite Htg. cbn [mbind res_bind].
  rewrite (proj2 (Z.ltb_lt _ _)), Hrd by lia. cbn [mbind res_bind].
  rewrite Ec in Hws. apply lookup_replicate in Hws as [-> _].
  by destruct (Z.to_nat ways) as [|n] eqn:En; [lia|].
Qed.

Example ipred_cold_hit_witness :
  exists s, IndirectPredictor_new (PC := Z) (Inst := flat_inst) true true 4 2 8 3 2 1 = Ok s /\
    lookup s 0x40000 0 0 = Ok (Some (pc_of (Inst := flat_inst) 0)).
Proof.
  destruct (IndirectPredictor_new (PC := Z) (Inst := flat_inst) true true 4 2 8 3 2 1)
    as [s| | |] eqn:E; [|by vm_compute in E..].
  exists s. split; [done|].
  apply (ipred_cold_hit (Inst := flat_inst) true true 2 2 8 3 2 1 0x40000 0 0 s);
    first [done | vm_compute; reflexivity | simpl; lia].
Defined.
