(* ===== verification/BPredUnit.v ===== *)
(** The branch prediction unit, src/cpu/pred/bpred_unit.cc: it combines a
    direction predictor, the branch target buffer, a return address stack per
    thread and the indirect predictor, and keeps a history of predictions to
    commit or to undo.  The theorems are proved against the interface of
    [DirPred], so they hold for every direction predictor that implements it. *)
From S2P Require Import Prelude SatCounter DirPred Ras Btb IndirectPred.

(** * Definitions *)

Section Unit.
Context {PC Inst C S H : Type} `{TheISA PC Inst, DirPred S H}.

(** [numThreads], the statistics and the probe points are left out. *)
Record PredictorHistory := {
  seqNum : Z; ph_pc : Z; bpHistory : H; RASTarget : PC; RASIndex : Z; ph_tid : Z;
  predTaken : bool; usedRAS : bool; pushedRAS : bool;
  wasCall : bool; wasReturn : bool; wasIndirect : bool }.
(** [predHist]: the front of each deque, its youngest prediction, first. *)
Record BPredUnit := {
  dir : S; predHist : list (list PredictorHistory); BTB : Btb.DefaultBTB PC;
  RAS : list (Ras.ReturnAddrStack PC); useIndirect : bool;
  iPred : IndirectPred.IndirectPredictor PC }.

Definition PredictorHistory_new (seq_num instPC : Z) (pred_taken : bool) (bp_history : H) (tid : Z)
  : PredictorHistory :=
  {| seqNum := seq_num; ph_pc := instPC; bpHistory := bp_history; RASTarget := pc_of 0;
     RASIndex := 0; ph_tid := tid; predTaken := pred_taken; usedRAS := false; pushedRAS := false;
     wasCall := false; wasReturn := false; wasIndirect := false |}.

Definition set_usedRAS (r : PredictorHistory) b :=
  {| seqNum := seqNum r; ph_pc := ph_pc r; bpHistory := bpHistory r; RASTarget := RASTarget r;
     RASIndex := RASIndex r; ph_tid := ph_tid r; predTaken := predTaken r; usedRAS := b;
     pushedRAS := pushedRAS r; wasCall := wasCall r; wasReturn := wasReturn r;
     wasIndirect := wasIndirect r |}.
Definition set_pushedRAS (r : PredictorHistory) b :=
  {| seqNum := seqNum r; ph_pc := ph_pc r; bpHistory := bpHistory r; RASTarget := RASTarget r;
     RASIndex := RASIndex r; ph_tid := ph_tid r; predTaken := predTaken r; usedRAS := usedRAS r;
     pushedRAS := b; wasCall := wasCall r; wasReturn := wasReturn r; wasIndirect := wasIndirect r |}.
Definition set_wasCall (r : PredictorHistory) :=
  {| seqNum := seqNum r; ph_pc := ph_pc r; bpHistory := bpHistory r; RASTarget := RASTarget r;
     RASIndex := RASIndex r; ph_tid := ph_tid r; predTaken := predTaken r; usedRAS := usedRAS r;
     pushedRAS := pushedRAS r; wasCall := true; wasReturn := wasReturn r;
     wasIndirect := wasIndirect r |}.
Definition set_wasReturn (r : PredictorHistory) :=
  {| seqNum := seqNum r; ph_pc := ph_pc r; bpHistory := bpHistory r; RASTarget := RASTarget r;
     RASIndex := RASIndex r; ph_tid := ph_tid r; predTaken := predTaken r; usedRAS := usedRAS r;
     pushedRAS := pushedRAS r; wasCall := wasCall r; wasReturn := true;
     wasIndirect := wasIndirect r |}.
Definition set_wasIndirect (r : PredictorHistory) :=
  {| seqNum := seqNum r; ph_pc := ph_pc r; bpHistory := bpHistory r; RASTarget := RASTarget r;
     RASIndex := RASIndex r; ph_tid := ph_tid r; predTaken := predTaken r; usedRAS := usedRAS r;
     pushedRAS := pushedRAS r; wasCall := wasCall r; wasReturn := wasReturn r; wasIndirect := true |}.
Definition set_RASTop (r : PredictorHistory) (i : Z) (a : PC) :=
  {| seqNum := seqNum r; ph_pc := ph_pc r; bpHistory := bpHistory r; RASTarget := a;
     RASIndex := i; ph_tid := ph_tid r; predTaken := predTaken r; usedRAS := true;
     pushedRAS := pushedRAS r; wasCall := wasCall r; wasReturn := wasReturn r;
     wasIndirect := wasIndirect r |}.
Definition set_predTaken (r : PredictorHistory) b :=
  {| seqNum := seqNum r; ph_pc := ph_pc r; bpHistory := bpHistory r; RASTarget := RASTarget r;
     RASIndex := RASIndex r; ph_tid := ph_tid r; predTaken := b; usedRAS := usedRAS r;
     pushedRAS := pushedRAS r; wasCall := wasCall r; wasReturn := wasReturn r;
     wasIndirect := wasIndirect r |}.

Definition with_dir (u : BPredUnit) v :=
  {| dir := v; predHist := predHist u; BTB := BTB u; RAS := RAS u;
     useIndirect := useIndirect u; iPred := iPred u |}.
Definition with_predHist (u : BPredUnit) v :=
  {| dir := dir u; predHist := v; BTB := BTB u; RAS := RAS u;
     useIndirect := useIndirect u; iPred := iPred u |}.
Definition with_BTB (u : BPredUnit) v :=
  {| dir := dir u; predHist := predHist u; BTB := v; RAS := RAS u;
     useIndirect := useIndirect u; iPred := iPred u |}.
Definition with_RAS (u : BPredUnit) v :=
  {| dir := dir u; predHist := predHist u; BTB := BTB u; RAS := v;
     useIndirect := useIndirect u; iPred := iPred u |}.
Definition with_iPred (u : BPredUnit) v :=
  {| dir := dir u; predHist := predHist u; BTB := BTB u; RAS := RAS u;
     useIndirect := useIndirect u; iPred := v |}.

(** [BranchPredictorParams] *)
Record BranchPredictorParams := {
  p_numThreads : Z; p_BTBEntries : Z; p_BTBTagSize : Z; p_RASSize : Z; p_instShiftAmt : Z;
  p_useIndirect : bool; p_indirectHashGHR : bool; p_indirectHashTargets : bool;
  p_indirectSets : Z; p_indirectWays : Z; p_indirectTagSize : Z; p_indirectPathLength : Z }.

(** [for (auto& r : RAS) r.init(params->RASSize);] *)
Fixpoint init_all (n : nat) (size : Z) : res (list (Ras.ReturnAddrStack PC)) :=
  match n with
  | O => Ok []
  | Datatypes.S n => r ← Ras.init size; rs ← init_all n size; Ok (r :: rs)
  end.

(** The base class's constructor; [s] is the derived predictor. *)
Definition BPredUnit_new (p : BranchPredictorParams) (s : S) : res BPredUnit :=
  btb ← Btb.DefaultBTB_new (p_BTBEntries p) (p_BTBTagSize p) (p_instShiftAmt p) (p_numThreads p);
  ip ← IndirectPred.IndirectPredictor_new (p_indirectHashGHR p) (p_indirectHashTargets p)
         (p_indirectSets p) (p_indirectWays p) (p_indirectTagSize p) (p_indirectPathLength p)
         (p_instShiftAmt p) (p_numThreads p);
  ras ← init_all (Z.to_nat (p_numThreads p)) (p_RASSize p);
  Ok {| dir := s; predHist := replicate (Z.to_nat (p_numThreads p)) [];
        BTB := btb; RAS := ras; useIndirect := p_useIndirect p; iPred := ip |}.

(** ** Predicting *)

(** [RAS[tid].pop()] and [RAS[tid].push(a)] *)
Definition RAS_pop (u : BPredUnit) (tid : Z) : res BPredUnit :=
  r ← aread (RAS u) tid; v ← awrite (RAS u) tid (Ras.pop r); Ok (with_RAS u v).
Definition RAS_push (u : BPredUnit) (tid : Z) (a : PC) : res BPredUnit :=
  r ← aread (RAS u) tid; r' ← Ras.push r a; v ← awrite (RAS u) tid r'; Ok (with_RAS u v).
Definition RAS_restore (u : BPredUnit) (tid i : Z) (a : PC) : res BPredUnit :=
  r ← aread (RAS u) tid; r' ← Ras.restore r i a; v ← awrite (RAS u) tid r'; Ok (with_RAS u v).

Definition predict_direction (u : BPredUnit) (inst : Inst) (pc : PC) (tid : Z)
  : res (bool * H * BPredUnit) :=
  if isUncondCtrl inst then
    '(h, s) ← dp_uncondBranch (dir u) tid (instAddr pc) dp_null; Ok (true, h, with_dir u s)
  else
    '(b, h, s) ← dp_lookup (dir u) tid (instAddr pc) dp_null; Ok (b, h, with_dir u s).

(** A return predicted taken: its target is the top of the stack. *)
Definition predict_return (u : BPredUnit) (pc : PC) (tid : Z) (r : PredictorHistory)
  : res (bool * PC * PredictorHistory * BPredUnit) :=
  ras ← aread (RAS u) tid;
  rasTop ← Ras.top ras;
  let target := buildRetPC pc rasTop in
  let r := set_RASTop (set_wasReturn r) (Ras.topIdx ras) rasTop in
  u ← RAS_pop u tid;
  Ok (true, target, r, u).

(** A conditional call that turns out to be predicted not taken takes its
    push back. *)
Definition cancel_call (u : BPredUnit) (inst : Inst) (tid : Z) (r : PredictorHistory)
  : res (PredictorHistory * BPredUnit) :=
  if isCall inst && negb (isUncondCtrl inst) then
    u ← RAS_pop u tid; Ok (set_pushedRAS r false, u)
  else Ok (r, u).

(** The target from the BTB. *)
Definition predict_direct (u : BPredUnit) (inst : Inst) (pc : PC) (tid : Z) (r : PredictorHistory)
    (bp_history : H) : res (bool * PC * PredictorHistory * BPredUnit) :=
  valid ← Btb.valid (BTB u) (instAddr pc) tid;
  if valid : bool then
    target ← Btb.lookup (BTB u) (instAddr pc) tid;
    Ok (true, target, r, u)
  else if negb (isCall inst) && negb (isReturn inst) then
    s ← dp_btbUpdate (dir u) tid (instAddr pc) bp_history;
    Ok (false, advancePC pc inst, r, with_dir u s)
  else
    '(r, u) ← cancel_call u inst tid r;
    Ok (false, advancePC pc inst, r, u).

(** The target from the indirect predictor, which records the branch. *)
Definition predict_indirect (u : BPredUnit) (inst : Inst) (seq_num : Z) (pc : PC) (tid : Z)
    (r : PredictorHistory) (bp_history : H) : res (bool * PC * PredictorHistory * BPredUnit) :=
  let r := set_wasIndirect r in
  ghr ← dp_getGHR (dir u) tid bp_history;
  hit ← IndirectPred.lookup (iPred u) (instAddr pc) ghr tid;
  '(b, target, r, u) ←
    match hit with
    | Some target => Ok (true, target, r, u)
    | None => '(r, u) ← cancel_call u inst tid r; Ok (false, advancePC pc inst, r, u)
    end;
  ip ← IndirectPred.recordIndirect (iPred u) (instAddr pc) (instAddr (target : PC)) seq_num tid;
  Ok (b, target, r, with_iPred u ip).

(** A branch predicted taken that is not a return. *)
Definition predict_taken (u : BPredUnit) (inst : Inst) (seq_num : Z) (pc : PC) (tid : Z)
    (r : PredictorHistory) (bp_history : H) : res (bool * PC * PredictorHistory * BPredUnit) :=
  '(r, u) ← (if isCall inst
             then u ← RAS_push u tid pc; Ok (set_wasCall (set_pushedRAS r true), u)
             else Ok (r, u));
  if isDirectCtrl inst || negb (useIndirect u)
  then predict_direct u inst pc tid r bp_history
  else predict_indirect u inst seq_num pc tid r bp_history.

(** The prediction, the next PC and the new state. *)
Definition predict (u : BPredUnit) (inst : Inst) (seq_num : Z) (pc : PC) (tid : Z)
  : res (bool * PC * BPredUnit) :=
  '(pred_taken, bp_history, u) ← predict_direction u inst pc tid;
  let r := PredictorHistory_new seq_num (instAddr pc) pred_taken bp_history tid in
  '(pred_taken, target, r, u) ←
    (if pred_taken : bool then
       if isReturn inst then predict_return u pc tid r
       else predict_taken u inst seq_num pc tid r bp_history
     else Ok (false, advancePC pc inst, if isReturn inst then set_wasReturn r else r, u));
  h ← aread (predHist u) tid;
  v ← awrite (predHist u) tid (r :: h);
  Ok (pred_taken, target, with_predHist u v).

(** ** Committing *)

(** The loop of [update]; [h]: the history, oldest first. *)
Fixpoint commit_loop (done_sn tid : Z) (h : list PredictorHistory) (s : S)
  : res (list PredictorHistory * S) :=
  match h with
  | [] => Ok ([], s)
  | r :: h' =>
    if seqNum r <=? done_sn then
      s ← dp_update s tid (ph_pc r) (predTaken r) (bpHistory r) false;
      commit_loop done_sn tid h' s
    else Ok (h, s)
  end.

(** [update(done_sn, tid)] *)
Definition commit (u : BPredUnit) (done_sn tid : Z) : res BPredUnit :=
  ip ← IndirectPred.commit (iPred u) done_sn tid;
  h ← aread (predHist u) tid;
  '(h, s) ← commit_loop done_sn tid (reverse h) (dir u);
  v ← awrite (predHist u) tid (reverse h);
  Ok (with_predHist (with_dir (with_iPred u ip) s) v).

(** ** Squashing *)

(** Undo what a prediction did to the stack. *)
Definition undo_RAS (u : BPredUnit) (tid : Z) (r : PredictorHistory) : res BPredUnit :=
  if usedRAS r then RAS_restore u tid (RASIndex r) (RASTarget r)
  else if wasCall r && pushedRAS r then RAS_pop u tid
  else Ok u.

(** The loop of [squash]; [h]: the history, youngest first. *)
Fixpoint squash_loop (squashed_sn tid : Z) (h : list PredictorHistory) (u : BPredUnit)
  : res (list PredictorHistory * BPredUnit) :=
  match h with
  | [] => Ok ([], u)
  | r :: h' =>
    if squashed_sn <? seqNum r then
      u ← undo_RAS u tid r;
      s ← dp_squash (dir u) tid (bpHistory r);
      squash_loop squashed_sn tid h' (with_dir u s)
    else Ok (h, u)
  end.

(** [squash(squashed_sn, tid)] *)
Definition squash (u : BPredUnit) (squashed_sn tid : Z) : res BPredUnit :=
  ip ← IndirectPred.squash (iPred u) squashed_sn tid;
  let u := with_iPred u ip in
  h ← aread (predHist u) tid;
  '(h, u) ← squash_loop squashed_sn tid h u;
  v ← awrite (predHist u) tid h;
  Ok (with_predHist u v).

(** The branch was taken: its target goes to the indirect predictor or to
    the BTB. *)
Definition correct_taken (rnd : Z) (u : BPredUnit) (r : PredictorHistory) (ghr : Z) (corrTarget : PC)
    (tid : Z) : res (PredictorHistory * BPredUnit) :=
  '(r, u) ← (if wasReturn r && negb (usedRAS r)
             then u ← RAS_pop u tid; Ok (set_usedRAS r true, u)
             else Ok (r, u));
  if wasIndirect r then
    ip ← IndirectPred.recordTarget rnd (iPred u) (seqNum r) ghr corrTarget tid;
    Ok (r, with_iPred u ip)
  else
    btb ← Btb.update (BTB u) (ph_pc r) corrTarget tid;
    Ok (r, with_BTB u btb).

(** The branch was not taken: what it did to the stack is undone. *)
Definition correct_notTaken (u : BPredUnit) (r : PredictorHistory) (tid : Z)
  : res (PredictorHistory * BPredUnit) :=
  if usedRAS r then
    u ← RAS_restore u tid (RASIndex r) (RASTarget r); Ok (set_usedRAS r false, u)
  else if wasCall r && pushedRAS r then
    u ← RAS_pop u tid; Ok (set_pushedRAS r false, u)
  else Ok (r, u).

(** [squash(squashed_sn, corrTarget, actually_taken, tid)]; [rnd] is what
    [rand()] returns. *)
Definition squash_correct (rnd : Z) (u : BPredUnit) (squashed_sn : Z) (corrTarget : PC)
    (actually_taken : bool) (tid : Z) : res BPredUnit :=
  u ← squash u squashed_sn tid;
  h ← aread (predHist u) tid;
  match h with
  | [] => Ok u
  | r :: h' =>
    assert! seqNum r =? squashed_sn ;;
    ghr ← dp_getGHR (dir u) tid (bpHistory r);
    let r := set_predTaken r actually_taken in
    s ← dp_update (dir u) tid (ph_pc r) actually_taken (bpHistory r) true;
    let u := with_dir u s in
    '(r, u) ← (if actually_taken then correct_taken rnd u r ghr corrTarget tid
               else correct_notTaken u r tid);
    v ← awrite (predHist u) tid (r :: h');
    Ok (with_predHist u v)
  end.

(** [drainSanityCheck] *)
Definition drainSanityCheck (u : BPredUnit) : bool :=
  forallb (fun h => match h with [] => true | _ => false end) (predHist u).
End Unit.
Arguments PredictorHistory : clear implicits.
Arguments BPredUnit : clear implicits.

(** * Invariant *)

Section Inv.
Context {PC Inst C S H : Type} `{TheISALaws PC Inst, DirPredLaws C S H}.
Implicit Types u : BPredUnit PC S H.

(** A record that can be undone, on stacks of [n] entries. *)
Definition rec_ok (n : Z) (c : C) (r : PredictorHistory PC H) : Prop :=
  dp_hist c (bpHistory r) /\ addr_ok (ph_pc r) /\ 0 <= RASIndex r < n.

Record unit_inv (n : Z) (c : C) u : Prop := {
  ui_dir : dp_inv c (dir u);
  ui_hist_len : Z.of_nat (length (predHist u)) = dp_threads c;
  ui_hist : Forall (Forall (rec_ok n c)) (predHist u);
  ui_btb : Btb.btb_inv (dp_threads c) (BTB u);
  ui_ras_len : Z.of_nat (length (RAS u)) = dp_threads c;
  ui_ras : Forall (Ras.ras_inv n) (RAS u);
  ui_ipred : IndirectPred.ipred_inv (dp_threads c) (iPred u) }.

(** The unit after thread [tid] made the predictions [rs], youngest first,
    from history [h] and path [i]. *)
Definition spec_state u (tid : Z) (i : IndirectPred.ThreadInfo) (h : list (PredictorHistory PC H))
    (s : S) (rs : list (PredictorHistory PC H)) (ras : Ras.ReturnAddrStack PC)
    (new : list IndirectPred.HistoryEntry) : BPredUnit PC S H :=
  {| dir := s; predHist := <[Z.to_nat tid := rs ++ h]> (predHist u); BTB := BTB u;
     RAS := <[Z.to_nat tid := ras]> (RAS u); useIndirect := useIndirect u;
     iPred := IndirectPred.with_hist (iPred u) tid i (IndirectPred.pathHist i ++ new) |}.

(** The predictions whose direction the unit can take back: all but those of
    an unconditional branch, neither call nor return, that looks up the BTB
    and misses. *)
Definition clean u (tid : Z) (inst : Inst) (pc : PC) : Prop :=
  isUncondCtrl inst = true -> isCall inst = false -> isReturn inst = false ->
  isDirectCtrl inst || negb (useIndirect u) = true ->
  Btb.valid (BTB u) (instAddr pc) tid = Ok true.

(** The unit while thread [tid] predicts: direction state, stack and indirect
    predictor replaced. *)
Definition mid u (tid : Z) (s : S) (ras : Ras.ReturnAddrStack PC)
    (ip : IndirectPred.IndirectPredictor PC) : BPredUnit PC S H :=
  {| dir := s; predHist := predHist u; BTB := BTB u;
     RAS := <[Z.to_nat tid := ras]> (RAS u); useIndirect := useIndirect u; iPred := ip |}.

(** What undoing record [r] does to a stack. *)
Definition undo_one (r : PredictorHistory PC H) (t : Ras.ReturnAddrStack PC) : res (Ras.ReturnAddrStack PC) :=
  if usedRAS r then Ras.restore t (RASIndex r) (RASTarget r)
  else if wasCall r && pushedRAS r then Ok (Ras.pop t) else Ok t.

(** Undoing [r] on any stack equal to [r1] down to some depth gives one equal
    to [r0] down to that depth less [cost]. *)
Definition undone (n cost : Z) (r : PredictorHistory PC H) (r0 r1 : Ras.ReturnAddrStack PC) : Prop :=
  Ras.ras_inv n r1 /\ forall t d, Ras.ras_inv n t -> d <= n -> Ras.agree d r1 t ->
    exists t', undo_one r t = Ok t' /\ Ras.ras_inv n t' /\ Ras.agree (d - cost) r0 t'.

(** What undoing and committing need of a record is unchanged. *)
Definition same_rec (r r' : PredictorHistory PC H) : Prop :=
  seqNum r' = seqNum r /\ ph_pc r' = ph_pc r /\ bpHistory r' = bpHistory r /\ RASIndex r' = RASIndex r.

(** Only a call grows the stack. *)
Definition cost (inst : Inst) : Z := if isCall inst then 1 else 0.

Lemma undone_weaken n k k' r r0 r1 : k <= k' -> undone n k r r0 r1 -> undone n k' r r0 r1.
Proof.
  intros Hk [Hi Hun]. split; [done|]. intros t d Ht Hd Ha.
  destruct (Hun t d Ht Hd Ha) as (t' & H1' & H2' & H3'). exists t'. do 2 (split; [done|]).
  eapply Ras.agree_weaken; [|exact H3']. lia.
Qed.

(** An indirect branch has its entry in the path history. *)
Definition path_entry (r : PredictorHistory PC H) (pc : PC) (new : list IndirectPred.HistoryEntry) : Prop :=
  wasIndirect r = true -> exists e, new = [e] /\ IndirectPred.pcAddr e = instAddr pc.

(** The record and the stack after the push of a call. *)
Definition call_state (inst : Inst) (pc : PC) (r0 : Ras.ReturnAddrStack PC)
    (r : PredictorHistory PC H) (r1 : Ras.ReturnAddrStack PC) : Prop :=
  usedRAS r = false /\
  if isCall inst then wasCall r = true /\ pushedRAS r = true /\ Ras.push r0 pc = Ok r1
  else wasCall r = false /\ r1 = r0.

Lemma call_undone n inst pc r0 r r1 :
  Ras.ras_inv n r0 -> call_state inst pc r0 r r1 -> undone n (cost inst) r r0 r1.
Proof.
  intros Hr [Hus Hc]. unfold cost. destruct (isCall inst).
  - destruct Hc as (Hw & Hp & Hpush).
    destruct (Ras.push_ok n r0 pc Hr) as (r1' & Hpush' & Hi & _). rewrite Hpush in Hpush'.
    injection Hpush' as <-. split; [done|]. intros t d Ht Hd Ha.
    destruct (Ras.undo_push n d r0 r1 t pc Hr Ht Hpush Hd Ha) as [Hpi Hpa].
    unfold undo_one. rewrite Hus, Hw, Hp. by exists (Ras.pop t).
  - destruct Hc as [Hw ->]. split; [done|]. intros t d Ht Hd Ha.
    unfold undo_one. rewrite Hus, Hw. exists t. do 2 (split; [done|]).
    eapply Ras.agree_weaken; [|exact Ha]. lia.
Qed.

Section Thread.
Context (n : Z) (c : C) u (tid : Z).
Hypothesis Hu : unit_inv n c u.
Hypothesis Htid : 0 <= tid < dp_threads c.

Lemma ras_at : exists r0, RAS u !! Z.to_nat tid = Some r0 /\ Ras.ras_inv n r0.
Proof.
  pose proof (ui_ras_len _ _ _ Hu). destruct (aread_in_bounds (RAS u) tid) as (r & Hr & _); [lia|].
  exists r. split; [done|]. apply (Forall_lookup_1 _ _ _ _ (ui_ras _ _ _ Hu) Hr).
Qed.

Lemma hist_at : exists h, predHist u !! Z.to_nat tid = Some h /\ aread (predHist u) tid = Ok h /\
  Forall (rec_ok n c) h.
Proof.
  pose proof (ui_hist_len _ _ _ Hu). destruct (aread_in_bounds (predHist u) tid) as (h & Hh & Hr); [lia|].
  exists h. do 2 (split; [done|]). apply (Forall_lookup_1 _ _ _ _ (ui_hist _ _ _ Hu) Hh).
Qed.

Lemma mid_id r0 : RAS u !! Z.to_nat tid = Some r0 -> mid u tid (dir u) r0 (iPred u) = u.
Proof. intros Hr. unfold mid. rewrite list_insert_id by done. by destruct u. Qed.

Lemma mid_read s ras ip : aread (RAS (mid u tid s ras ip)) tid = Ok ras.
Proof.
  pose proof (ui_ras_len _ _ _ Hu). apply aread_Ok; [lia|]. cbn. apply list_lookup_insert_eq. lia.
Qed.
Lemma mid_write s ras ip ras' :
  awrite (RAS (mid u tid s ras ip)) tid ras' = Ok (<[Z.to_nat tid := ras']> (RAS u)).
Proof.
  pose proof (ui_ras_len _ _ _ Hu). cbn. rewrite awrite_Ok by (rewrite length_insert; lia).
  by rewrite list_insert_insert_eq.
Qed.

Lemma mid_pop s ras ip : RAS_pop (mid u tid s ras ip) tid = Ok (mid u tid s (Ras.pop ras) ip).
Proof. unfold RAS_pop. rewrite mid_read. cbn [mbind res_bind]. by rewrite mid_write. Qed.
Lemma mid_push s ras ip a ras' :
  Ras.push ras a = Ok ras' -> RAS_push (mid u tid s ras ip) tid a = Ok (mid u tid s ras' ip).
Proof.
  intros Hp. unfold RAS_push. rewrite mid_read. cbn [mbind res_bind]. rewrite Hp. cbn [mbind res_bind].
  by rewrite mid_write.
Qed.
Lemma mid_undo s ras ip r ras' :
  undo_one r ras = Ok ras' -> undo_RAS (mid u tid s ras ip) tid r = Ok (mid u tid s ras' ip).
Proof.
  unfold undo_one, undo_RAS. destruct (usedRAS r).
  - intros Hr. unfold RAS_restore. rewrite mid_read. cbn [mbind res_bind]. rewrite Hr. cbn [mbind res_bind].
    by rewrite mid_write.
  - destruct (wasCall r && pushedRAS r); intros [= <-]; [apply mid_pop|done].
Qed.

(** Writing the history back. *)
Lemma hist_write h : awrite (predHist u) tid h = Ok (<[Z.to_nat tid := h]> (predHist u)).
Proof. apply awrite_Ok. pose proof (ui_hist_len _ _ _ Hu). lia. Qed.

(** ** The parts of a prediction *)

Lemma direction_ok inst pc r0 :
  RAS u !! Z.to_nat tid = Some r0 ->
  exists b h s, predict_direction u inst pc tid = Ok (b, h, mid u tid s r0 (iPred u)) /\
    dp_hist c h /\ dp_inv c s /\
    (if isUncondCtrl inst then b = true /\ dp_uncondBranch (dir u) tid (instAddr pc) dp_null = Ok (h, s)
     else dp_lookup (dir u) tid (instAddr pc) dp_null = Ok (b, h, s)).
Proof.
  intros Hr. unfold predict_direction.
  assert (forall s, with_dir u s = mid u tid s r0 (iPred u)) as Hmid.
  { intros s. rewrite <- (mid_id r0 Hr) at 1. done. }
  destruct (isUncondCtrl inst).
  - destruct (dp_uncond_ok c (dir u) tid (instAddr pc) (ui_dir _ _ _ Hu) Htid (instAddr_ok pc))
      as (h & s & Hl & Hh & Hs). exists true, h, s. rewrite Hl. cbn [mbind res_bind]. by rewrite Hmid.
  - destruct (dp_lookup_ok c (dir u) tid (instAddr pc) (ui_dir _ _ _ Hu) Htid (instAddr_ok pc))
      as (b & h & s & Hl & Hh & Hs). exists b, h, s. rewrite Hl. cbn [mbind res_bind]. by rewrite Hmid.
Qed.

Lemma return_ok s ip r0 pc r :
  Ras.ras_inv n r0 -> exists t r', predict_return (mid u tid s r0 ip) pc tid r
      = Ok (true, t, r', mid u tid s (Ras.pop r0) ip) /\
    undone n 0 r' r0 (Ras.pop r0) /\ seqNum r' = seqNum r /\ ph_pc r' = ph_pc r /\
    bpHistory r' = bpHistory r /\ 0 <= RASIndex r' < n /\ wasIndirect r' = wasIndirect r.
Proof.
  intros Hr. destruct (Ras.top_ok n r0 Hr) as (a & Ha & _). destruct (Ras.pop_ok n r0 Hr) as (Hpi & _ & _).
  eexists (buildRetPC pc a), (set_RASTop (set_wasReturn r) (Ras.topIdx r0) a).
  unfold predict_return. rewrite mid_read. cbn [mbind res_bind]. rewrite Ha. cbn [mbind res_bind].
  rewrite mid_pop. split; [done|]. split; [|do 3 (split; [done|]); split; [apply Hr|done]].
  split; [done|]. intros t d Ht Hd Hag.
  destruct (Ras.undo_pop n d r0 t a Hr Ht Ha Hag) as (v & Hv & Hvi & Hva). exists v.
  do 2 (split; [done|]). eapply Ras.agree_weaken; [|exact Hva]. lia.
Qed.

Lemma cancel_ok s ip inst pc r0 r r1 :
  Ras.ras_inv n r0 -> call_state inst pc r0 r r1 ->
  exists r' r1', cancel_call (mid u tid s r1 ip) inst tid r = Ok (r', mid u tid s r1' ip) /\
    undone n (cost inst) r' r0 r1' /\ same_rec r r' /\ wasIndirect r' = wasIndirect r.
Proof.
  intros Hr Hc. unfold cancel_call. destruct (isCall inst && negb (isUncondCtrl inst)) eqn:E.
  - destruct Hc as [Hus Hc]. apply andb_prop in E as [E _]. unfold cost. rewrite E in Hc |- *.
    destruct Hc as (Hw & Hp & Hpush). rewrite mid_pop. cbn [mbind res_bind].
    exists (set_pushedRAS r false), (Ras.pop r1). split; [done|]. split; [|done].
    destruct (Ras.push_ok n r0 pc Hr) as (r1' & Hpush' & Hi & _). rewrite Hpush in Hpush'.
    injection Hpush' as <-.
    destruct (Ras.undo_push n n r0 r1 r1 pc Hr Hi Hpush ltac:(lia) (Ras.agree_refl n r1)) as [Hpi Hpa].
    split; [done|]. intros t d Ht Hd Ha. exists t. unfold undo_one. cbn. rewrite Hus, andb_false_r.
    do 2 (split; [done|]). eapply Ras.agree_weaken; [|exact (Ras.agree_trans _ _ _ _ _ Hpa Ha)]. lia.
  - exists r, r1. split; [done|]. split; [|done]. by eapply call_undone.
Qed.

Lemma direct_ok s ip inst pc r0 r r1 h :
  Ras.ras_inv n r0 -> call_state inst pc r0 r r1 -> dp_inv c s -> dp_hist c h ->
  exists b t r' s' r1', predict_direct (mid u tid s r1 ip) inst pc tid r h
      = Ok (b, t, r', mid u tid s' r1' ip) /\
    undone n (cost inst) r' r0 r1' /\ (same_rec r r' /\ wasIndirect r' = wasIndirect r) /\ dp_inv c s' /\
    (s' = s \/ (isCall inst = false /\ isReturn inst = false /\
       Btb.valid (BTB u) (instAddr pc) tid = Ok false /\ dp_btbUpdate s tid (instAddr pc) h = Ok s')).
Proof.
  intros Hr Hc Hs Hh. unfold predict_direct. cbn [BTB mid].
  destruct (Btb.find_ok (dp_threads c) (BTB u) (instAddr pc) tid (ui_btb _ _ _ Hu) Htid)
    as (e & _ & Hv & Hl). rewrite Hv, Hl. cbn [mbind res_bind].
  destruct (Btb.hit e _ tid).
  { do 2 eexists. exists r, s, r1. split; [done|]. split; [by eapply call_undone|]. split; [done|].
    split; [done|by left]. }
  destruct (negb (isCall inst) && negb (isReturn inst)) eqn:E.
  - apply andb_prop in E as [E1%negb_true_iff E2%negb_true_iff].
    destruct (dp_btb_ok c s tid (instAddr pc) h Hs Htid (instAddr_ok pc) Hh) as (s' & Hb & Hs').
    cbn [dir mid]. rewrite Hb. cbn [mbind res_bind]. do 2 eexists. exists r, s', r1.
    split; [done|]. split; [by eapply call_undone|]. do 2 (split; [done|]). by right.
  - destruct (cancel_ok s ip inst pc r0 r r1 Hr Hc) as (r' & r1' & -> & Hun & Hsr). cbn [mbind res_bind].
    do 2 eexists. exists r', s, r1'. split; [done|]. do 3 (split; [done|]). by left.
Qed.

Lemma indirect_ok s ip inst sn pc r0 r r1 h :
  Ras.ras_inv n r0 -> call_state inst pc r0 r r1 -> dp_inv c s -> dp_hist c h ->
  IndirectPred.ipred_inv (dp_threads c) ip ->
  exists b t r' r1' i e, predict_indirect (mid u tid s r1 ip) inst sn pc tid r h
      = Ok (b, t, r', mid u tid s r1' (IndirectPred.with_hist ip tid i (IndirectPred.pathHist i ++ [e]))) /\
    undone n (cost inst) r' r0 r1' /\ same_rec r r' /\
    IndirectPred.threadInfo ip !! Z.to_nat tid = Some i /\ IndirectPred.seqNum e = sn /\
    IndirectPred.pcAddr e = instAddr pc.
Proof.
  intros Hr Hc Hs Hh Hip. unfold predict_indirect. cbn [dir iPred mid].
  destruct (dp_getGHR_ok c s tid h Hs Hh) as (g & -> & _). cbn [mbind res_bind].
  destruct (IndirectPred.ipred_lookup_ok _ ip (instAddr pc) g tid Hip Htid) as (o & ->). cbn [mbind res_bind].
  assert (call_state inst pc r0 (set_wasIndirect r) r1) as Hc' by exact Hc.
  assert (exists b t r' r1', match o with
      | Some target => Ok (true, target, set_wasIndirect r, mid u tid s r1 ip)
      | None => '(r, u) ← cancel_call (mid u tid s r1 ip) inst tid (set_wasIndirect r);
                Ok (false, advancePC pc inst, r, u) end = Ok (b, t, r', mid u tid s r1' ip) /\
      undone n (cost inst) r' r0 r1' /\ same_rec r r') as (b & t & r' & r1' & -> & Hun & Hsr).
  { destruct o as [t|].
    - do 4 eexists. split; [done|]. split; [by eapply call_undone|done].
    - destruct (cancel_ok s ip inst pc r0 _ r1 Hr Hc') as (r' & r1' & -> & Hun & Hsr & _).
      do 4 eexists. split; [done|]. by split. }
  cbn [mbind res_bind iPred mid].
  destruct (IndirectPred.recordIndirect_ok _ ip (instAddr pc) (instAddr t) sn tid Hip Htid)
    as (i & Hi & -> & _). cbn [mbind res_bind].
  exists b, t, r', r1', i. eexists. split; [done|]. by do 3 (split; [done|]).
Qed.

(** [with_hist] with nothing new changes nothing. *)
Lemma with_hist_id (ip : IndirectPred.IndirectPredictor PC) i :
  IndirectPred.threadInfo ip !! Z.to_nat tid = Some i ->
  IndirectPred.with_hist ip tid i (IndirectPred.pathHist i ++ []) = ip.
Proof.
  intros Hi. unfold IndirectPred.with_hist, IndirectPred.with_info. rewrite app_nil_r.
  rewrite list_insert_id by (rewrite Hi; by destruct i). by destruct ip.
Qed.

Lemma taken_ok s inst sn pc r0 i r h :
  Ras.ras_inv n r0 -> IndirectPred.threadInfo (iPred u) !! Z.to_nat tid = Some i ->
  usedRAS r = false -> wasCall r = false -> wasIndirect r = false -> dp_inv c s -> dp_hist c h ->
  exists b t r' s' r1 new, predict_taken (mid u tid s r0 (iPred u)) inst sn pc tid r h
      = Ok (b, t, r', mid u tid s' r1 (IndirectPred.with_hist (iPred u) tid i (IndirectPred.pathHist i ++ new))) /\
    undone n (cost inst) r' r0 r1 /\ same_rec r r' /\ Forall (fun e => IndirectPred.seqNum e = sn) new /\
    path_entry r' pc new /\ dp_inv c s' /\
    (s' = s \/ (isCall inst = false /\ isReturn inst = false /\
       isDirectCtrl inst || negb (useIndirect u) = true /\
       Btb.valid (BTB u) (instAddr pc) tid = Ok false /\ dp_btbUpdate s tid (instAddr pc) h = Ok s')).
Proof.
  intros Hr Hi Hus Hwc Hwi Hs Hh. unfold predict_taken.
  assert (exists r' r1, (if isCall inst
            then u ← RAS_push (mid u tid s r0 (iPred u)) tid pc; Ok (set_wasCall (set_pushedRAS r true), u)
            else Ok (r, mid u tid s r0 (iPred u))) = Ok (r', mid u tid s r1 (iPred u)) /\
          call_state inst pc r0 r' r1 /\ same_rec r r' /\ wasIndirect r' = false) as (r1' & r1 & -> & Hc & Hsr & Hwi').
  { unfold call_state. destruct (isCall inst).
    - destruct (Ras.push_ok n r0 pc Hr) as (r1 & Hp & _). rewrite (mid_push s r0 _ pc r1 Hp).
      cbn [mbind res_bind]. do 2 eexists. split; [done|]. by repeat split.
    - exists r, r0. by repeat split. }
  cbn [mbind res_bind useIndirect mid].
  destruct (isDirectCtrl inst || negb (useIndirect u)) eqn:Ed.
  - destruct (direct_ok s (iPred u) inst pc r0 r1' r1 h Hr Hc Hs Hh)
      as (b & t & r' & s' & r2 & -> & Hun & [Hsr' Hwi2] & Hs' & Hd).
    exists b, t, r', s', r2, []. rewrite with_hist_id by done. split; [done|]. split; [done|].
    split; [unfold same_rec in *; intuition congruence|]. split; [done|].
    split; [intros E; rewrite Hwi2, Hwi' in E; discriminate|]. split; [done|].
    destruct Hd as [|(? & ? & ? & ?)]; [by left|by right].
  - destruct (indirect_ok s (iPred u) inst sn pc r0 r1' r1 h Hr Hc Hs Hh (ui_ipred _ _ _ Hu))
      as (b & t & r' & r2 & i' & e & -> & Hun & Hsr' & Hi' & He & Hpc).
    rewrite Hi in Hi'. injection Hi' as <-.
    exists b, t, r', s, r2, [e]. split; [done|]. split; [done|].
    split; [unfold same_rec in *; intuition congruence|]. split; [by repeat constructor|].
    split; [intros _; by exists e|]. split; [done|by left].
Qed.

Lemma predict_ok inst sn pc r0 h i :
  RAS u !! Z.to_nat tid = Some r0 -> Ras.ras_inv n r0 -> predHist u !! Z.to_nat tid = Some h ->
  IndirectPred.threadInfo (iPred u) !! Z.to_nat tid = Some i ->
  exists b t r s1 r1 new, predict u inst sn pc tid = Ok (b, t, spec_state u tid i h s1 [r] r1 new) /\
    seqNum r = sn /\ ph_pc r = instAddr pc /\ rec_ok n c r /\ undone n (cost inst) r r0 r1 /\
    Forall (fun e => IndirectPred.seqNum e = sn) new /\ path_entry r pc new /\ dp_inv c s1 /\
    (clean u tid inst pc -> forall s', dp_inv c s' -> dp_eq s1 s' ->
       exists v, dp_squash s' tid (bpHistory r) = Ok v /\ dp_eq v (dir u)).
Proof.
  intros Hr Hri Hh Hi. unfold predict.
  destruct (direction_ok inst pc r0 Hr) as (b & hp & s & -> & Hhp & Hs & Hdir). cbn [mbind res_bind].
  set (r := PredictorHistory_new sn (instAddr pc) b hp tid).
  assert (exists b' t r' s' r1 new, (if b then
       if isReturn inst then predict_return (mid u tid s r0 (iPred u)) pc tid r
       else predict_taken (mid u tid s r0 (iPred u)) inst sn pc tid r hp
     else Ok (false, advancePC pc inst, if isReturn inst then set_wasReturn r else r,
              mid u tid s r0 (iPred u)))
     = Ok (b', t, r', mid u tid s' r1 (IndirectPred.with_hist (iPred u) tid i (IndirectPred.pathHist i ++ new))) /\
    undone n (cost inst) r' r0 r1 /\ (seqNum r' = sn /\ ph_pc r' = instAddr pc /\ bpHistory r' = hp) /\
    0 <= RASIndex r' < n /\ Forall (fun e => IndirectPred.seqNum e = sn) new /\
    path_entry r' pc new /\ dp_inv c s' /\
    (s' = s \/ (isCall inst = false /\ isReturn inst = false /\
       isDirectCtrl inst || negb (useIndirect u) = true /\
       Btb.valid (BTB u) (instAddr pc) tid = Ok false /\ dp_btbUpdate s tid (instAddr pc) hp = Ok s')))
    as (b' & t & r' & s' & r1 & new & -> & Hun & (E1 & E2 & E3) & Hri' & Hnew & Hpe & Hs' & Hd).
  { assert (0 <= cost inst) by (unfold cost; destruct (isCall inst); lia).
    assert (0 < n) by apply Hri.
    destruct b; [destruct (isReturn inst) eqn:Eret|].
    - destruct (return_ok s (iPred u) r0 pc r Hri) as (t & r' & -> & Hun & E1 & E2 & E3 & Hx & Hwi).
      exists true, t, r', s, (Ras.pop r0), []. rewrite with_hist_id by done. split; [done|].
      split; [by eapply undone_weaken|]. do 3 (split; [done|]).
      split; [intros E; rewrite Hwi in E; discriminate|]. split; [done|by left].
    - destruct (taken_ok s inst sn pc r0 i r hp Hri Hi eq_refl eq_refl eq_refl Hs Hhp)
        as (b' & t & r' & s' & r1 & new & -> & Hun & (E1 & E2 & E3 & E4) & Hnew & Hpe & Hs' & Hd).
      exists b', t, r', s', r1, new. do 2 (split; [done|]). split; [done|].
      split; [rewrite E4; cbn; lia|]. by rewrite Eret in Hd.
    - exists false. do 2 eexists. exists s, r0, []. rewrite with_hist_id by done. split; [done|].
      split; [|split; [by destruct (isReturn inst)|split; [destruct (isReturn inst); cbn; lia|]]].
      + eapply undone_weaken; [done|]. split; [done|]. intros t' d Ht' Hd' Ha. exists t'.
        split; [by destruct (isReturn inst)|]. split; [done|]. eapply Ras.agree_weaken; [|exact Ha]. lia.
      + split; [done|]. split; [by unfold path_entry; destruct (isReturn inst)|]. split; [done|by left]. }
  cbn [mbind res_bind predHist mid]. destruct hist_at as (h' & Hh' & Hrd & _).
  rewrite Hh in Hh'. injection Hh' as <-. rewrite Hrd. cbn [mbind res_bind]. rewrite hist_write.
  cbn [mbind res_bind]. exists b', t, r', s', r1, new. do 3 (split; [done|]).
  split; [split; [by rewrite E3|split; [rewrite E2; apply instAddr_ok|done]]|].
  do 4 (split; [done|]). intros Hclean v Hv Heq. rewrite E3.
  destruct (isUncondCtrl inst) eqn:Euc.
  - destruct Hdir as [-> Hdir]. destruct Hd as [->|(E4 & E5 & E6 & E7 & _)].
    + eapply dp_undo_uncond; [apply Hu|done|apply instAddr_ok|done..].
    + rewrite Hclean in E7 by done. discriminate.
  - destruct Hd as [->|(_ & _ & _ & _ & Hb)].
    + eapply dp_undo_lookup; [apply Hu|done|apply instAddr_ok|done..].
    + eapply dp_undo_btb; [apply Hu|done|apply instAddr_ok|exact Hdir|exact Hb|done..].
Qed.
End Thread.

(** * A wrong path *)

(** Branches fetched in order: instruction, sequence number, PC. *)
Abbreviation fetched := (Inst * Z * PC)%type.
Fixpoint predicts u (ops : list fetched) (tid : Z) : res (BPredUnit PC S H) :=
  match ops with
  | [] => Ok u
  | (inst, sn, pc) :: ops => '(_, _, u) ← predict u inst sn pc tid; predicts u ops tid
  end.
Fixpoint calls (ops : list fetched) : Z :=
  match ops with [] => 0 | (inst, _, _) :: ops => cost inst + calls ops end.

Lemma calls_nonneg ops : 0 <= calls ops.
Proof. induction ops as [|[[inst sn] pc] ops]; cbn; unfold cost; [lia|destruct (isCall inst); lia]. Qed.

(** Youngest-first undoing of records on top of history [h]. *)
Definition unwinds (n : Z) (c : C) (sn tid : Z) (rs h : list (PredictorHistory PC H))
    (k : Z) (s0 s1 : S) (r0 r1 : Ras.ReturnAddrStack PC) : Prop :=
  forall w s' t ip d, unit_inv n c w -> dp_inv c s' -> dp_eq s1 s' -> Ras.ras_inv n t -> d <= n ->
    Ras.agree d r1 t -> exists s'' t'',
      squash_loop sn tid (rs ++ h) (mid w tid s' t ip) = squash_loop sn tid h (mid w tid s'' t'' ip) /\
      dp_inv c s'' /\ dp_eq s'' s0 /\ Ras.ras_inv n t'' /\ Ras.agree (d - k) r0 t''.

Lemma unwinds_one n c sn tid r h k s0 s1 r0 r1 :
  0 <= tid < dp_threads c -> sn < seqNum r -> rec_ok n c r -> undone n k r r0 r1 ->
  (forall s', dp_inv c s' -> dp_eq s1 s' -> exists v, dp_squash s' tid (bpHistory r) = Ok v /\ dp_eq v s0) ->
  unwinds n c sn tid [r] h k s0 s1 r0 r1.
Proof.
  intros Ht Hsn (Hh & _ & _) [_ Hun] Hd w s' t ip d Hw Hs' Heq Hti Hdn Ha.
  destruct (Hun t d Hti Hdn Ha) as (t' & Ht' & Hti' & Ha').
  destruct (Hd s' Hs' Heq) as (v & Hv & Hve).
  destruct (dp_squash_ok c s' tid _ Hs' Ht Hh) as (v' & Hv' & Hvi). rewrite Hv in Hv'. injection Hv' as <-.
  exists v, t'. cbn [app squash_loop]. rewrite (proj2 (Z.ltb_lt _ _)) by done.
  rewrite (mid_undo n c w tid Hw Ht s' t ip r t' Ht'). cbn [mbind res_bind dir mid]. rewrite Hv.
  by split_and!.
Qed.

Lemma unwinds_app n c sn tid rs1 rs2 h k1 k2 s0 s1 s2 r0 r1 r2 :
  0 <= k2 -> unwinds n c sn tid rs1 h k1 s0 s1 r0 r1 -> unwinds n c sn tid rs2 (rs1 ++ h) k2 s1 s2 r1 r2 ->
  unwinds n c sn tid (rs2 ++ rs1) h (k1 + k2) s0 s2 r0 r2.
Proof.
  intros Hk H1' H2' w s' t ip d Hw Hs' Heq Hti Hdn Ha. rewrite <- app_assoc.
  destruct (H2' w s' t ip d Hw Hs' Heq Hti Hdn Ha) as (sa & ta & -> & Hsa & Hea & Hta & Haa).
  destruct (H1' w sa ta ip (d - k2) Hw Hsa ltac:(by symmetry) Hta ltac:(lia) Haa)
    as (sb & tb & -> & Hsb & Heb & Htb & Hab).
  exists sb, tb. split_and!; try done. eapply Ras.agree_weaken; [|exact Hab]. lia.
Qed.

Lemma spec_state_app u tid i h s1 rs1 r1 new1 s2 rs2 r2 new2 :
  spec_state (spec_state u tid i h s1 rs1 r1 new1) tid
    {| IndirectPred.pathHist := IndirectPred.pathHist i ++ new1;
       IndirectPred.headHistEntry := IndirectPred.headHistEntry i |} (rs1 ++ h) s2 rs2 r2 new2
  = spec_state u tid i h s2 (rs2 ++ rs1) r2 (new1 ++ new2).
Proof.
  unfold spec_state, IndirectPred.with_hist, IndirectPred.with_info. cbn.
  by rewrite !list_insert_insert_eq, <- !app_assoc.
Qed.

Lemma spec_state_inv n c u tid i h s rs ras new :
  unit_inv n c u -> 0 <= tid < dp_threads c -> IndirectPred.threadInfo (iPred u) !! Z.to_nat tid = Some i ->
  predHist u !! Z.to_nat tid = Some h -> dp_inv c s -> Forall (rec_ok n c) rs -> Ras.ras_inv n ras ->
  unit_inv n c (spec_state u tid i h s rs ras new).
Proof.
  intros [] Ht Hi Hh Hs Hrs Hr. split; cbn; try done.
  - by rewrite length_insert.
  - apply Forall_insert; [done|]. apply Forall_app. split; [done|]. by eapply Forall_lookup_1 in ui_hist0.
  - by rewrite length_insert.
  - by apply Forall_insert.
  - apply IndirectPred.with_info_inv; [done|]. cbn.
    apply (Forall_lookup_1 _ _ _ _ (IndirectPred.ip_head _ _ ui_ipred0) Hi).
Qed.

Lemma spec_state_at n c u tid i h s rs ras new :
  unit_inv n c u -> 0 <= tid < dp_threads c -> let v := spec_state u tid i h s rs ras new in
  RAS v !! Z.to_nat tid = Some ras /\ predHist v !! Z.to_nat tid = Some (rs ++ h) /\
  IndirectPred.threadInfo (iPred v) !! Z.to_nat tid = Some
    {| IndirectPred.pathHist := IndirectPred.pathHist i ++ new;
       IndirectPred.headHistEntry := IndirectPred.headHistEntry i |}.
Proof.
  intros [] Ht v. cbn. pose proof (IndirectPred.ip_threads _ _ ui_ipred0).
  split_and!; apply list_lookup_insert_eq; lia.
Qed.

(** Predictions of a wrong path and what undoes them. *)
Lemma predicts_ok n c u tid sn ops r0 h i :
  unit_inv n c u -> 0 <= tid < dp_threads c ->
  RAS u !! Z.to_nat tid = Some r0 -> predHist u !! Z.to_nat tid = Some h ->
  IndirectPred.threadInfo (iPred u) !! Z.to_nat tid = Some i ->
  Forall (fun '(inst, osn, pc) => sn < osn /\ clean u tid inst pc) ops ->
  exists s1 rs r1 new, predicts u ops tid = Ok (spec_state u tid i h s1 rs r1 new) /\
    unit_inv n c (spec_state u tid i h s1 rs r1 new) /\
    Forall (fun r => sn < seqNum r) rs /\ Forall (fun e => sn < IndirectPred.seqNum e) new /\
    unwinds n c sn tid rs h (calls ops) (dir u) s1 r0 r1.
Proof.
  intros Hu Ht. revert u r0 h i Hu. induction ops as [|[[inst osn] pc] ops IH]; intros u r0 h i Hu Hr Hh Hi Hops.
  - destruct (ras_at n c u tid Hu Ht) as (r0' & Hr' & Hri). rewrite Hr in Hr'. injection Hr' as <-.
    assert (spec_state u tid i h (dir u) [] r0 [] = u) as E.
    { unfold spec_state. rewrite (with_hist_id tid) by done. cbn [app].
      rewrite !list_insert_id by done. by destruct u. }
    exists (dir u), [], r0, []. rewrite E. do 2 (split; [done|]). do 2 (split; [constructor|]).
    intros w s' t ip d Hw Hs' Heq Hti Hdn Ha. exists s', t. do 2 (split; [done|]).
    split; [by symmetry|]. split; [done|]. eapply Ras.agree_weaken; [|exact Ha]. cbn. lia.
  - apply Forall_cons in Hops as [[Hsn Hcl] Hops].
    destruct (ras_at n c u tid Hu Ht) as (r0' & Hr' & Hri). rewrite Hr in Hr'. injection Hr' as <-.
    destruct (predict_ok n c u tid Hu Ht inst osn pc r0 h i Hr Hri Hh Hi)
      as (b & t & r & s1 & r1 & new1 & Hp & Er & _ & Hrec & Hun & Hnew & _ & Hs1 & Hdir).
    pose proof (spec_state_inv n c u tid i h s1 [r] r1 new1 Hu Ht Hi Hh Hs1 ltac:(by constructor) (proj1 Hun)) as Hu1.
    destruct (spec_state_at n c u tid i h s1 [r] r1 new1 Hu Ht) as (Hr1 & Hh1 & Hi1).
    destruct (IH _ r1 _ _ Hu1 Hr1 Hh1 Hi1 Hops) as (s2 & rs & r2 & new2 & Hps & Hinv & Hrs & Hnew2 & Hunw).
    rewrite spec_state_app in Hps, Hinv. exists s2, (rs ++ [r]), r2, (new1 ++ new2).
    cbn [predicts]. rewrite Hp. cbn [mbind res_bind]. do 2 (split; [done|]).
    split; [apply Forall_app; split; [done|repeat constructor; by rewrite Er]|].
    split; [apply Forall_app; split; [|done]; eapply Forall_impl; [exact Hnew|]; by intros e ->|].
    cbn [calls]. eapply unwinds_app; [apply calls_nonneg| |exact Hunw].
    apply unwinds_one; [done|by rewrite Er|done|done|]. by apply Hdir.
Qed.

(** ** Squashing and committing *)

Lemma undo_one_ok n c r t :
  rec_ok n c r -> Ras.ras_inv n t -> exists t', undo_one r t = Ok t' /\ Ras.ras_inv n t'.
Proof.
  intros (_ & _ & Hi) Ht. unfold undo_one. destruct (usedRAS r).
  - destruct (Ras.restore_ok n t _ (RASTarget r) Ht Hi) as (t' & H1' & H2' & _). by exists t'.
  - destruct (wasCall r && pushedRAS r); [|by exists t]. exists (Ras.pop t). split; [done|].
    by apply Ras.pop_ok.
Qed.

(** The squash loop drops the younger records and keeps the rest. *)
Lemma squash_loop_ok n c sn tid w h s t ip :
  unit_inv n c w -> 0 <= tid < dp_threads c -> Forall (rec_ok n c) h -> dp_inv c s -> Ras.ras_inv n t ->
  exists k s' t', squash_loop sn tid h (mid w tid s t ip) = Ok (drop k h, mid w tid s' t' ip) /\
    dp_inv c s' /\ Ras.ras_inv n t' /\ Forall (fun r => sn < seqNum r) (take k h) /\
    (forall r, head (drop k h) = Some r -> seqNum r <= sn).
Proof.
  intros Hw Ht Hh. revert s t. induction Hh as [|r h Hr Hh IH]; intros s t Hs Hti; cbn [squash_loop].
  - exists 0%nat, s, t. by do 4 (split; [done|]).
  - destruct (Z.ltb_spec sn (seqNum r)) as [Hlt|Hge].
    + destruct (undo_one_ok n c r t Hr Hti) as (t1 & Hu1 & Ht1).
      rewrite (mid_undo n c w tid Hw Ht s t ip r t1 Hu1). cbn [mbind res_bind dir mid].
      destruct (dp_squash_ok c s tid _ Hs Ht (proj1 Hr)) as (s1 & -> & Hs1). cbn [mbind res_bind].
      destruct (IH s1 t1 Hs1 Ht1) as (k & s' & t' & E & Hs' & Ht' & Hf & Hhd).
      exists (Datatypes.S k), s', t'. split; [exact E|]. do 2 (split; [done|]).
      split; [by constructor|done].
    + exists 0%nat, s, t. do 3 (split; [done|]). split; [constructor|]. by intros r' [= <-].
Qed.

(** A unit whose thread's history, stack and direction state are replaced by
    well-formed ones. *)
Lemma mid_inv n c w tid s t ip h :
  unit_inv n c w -> dp_inv c s -> Ras.ras_inv n t -> IndirectPred.ipred_inv (dp_threads c) ip ->
  Forall (rec_ok n c) h ->
  unit_inv n c (with_predHist (mid w tid s t ip) (<[Z.to_nat tid := h]> (predHist w))).
Proof.
  intros [] Hs Ht Hip Hh. split; cbn; try done; rewrite ?length_insert; try done; by apply Forall_insert.
Qed.

Lemma unit_squash_ok n c u sn tid :
  unit_inv n c u -> 0 <= tid < dp_threads c -> exists u' k h i,
    squash u sn tid = Ok u' /\ unit_inv n c u' /\ predHist u !! Z.to_nat tid = Some h /\
    predHist u' = <[Z.to_nat tid := drop k h]> (predHist u) /\ BTB u' = BTB u /\
    IndirectPred.threadInfo (iPred u) !! Z.to_nat tid = Some i /\
    iPred u' = IndirectPred.with_hist (iPred u) tid i (IndirectPred.keep_until sn (IndirectPred.pathHist i)) /\
    Forall (fun r => sn < seqNum r) (take k h) /\ (forall r, head (drop k h) = Some r -> seqNum r <= sn).
Proof.
  intros Hu Ht. destruct (ras_at n c u tid Hu Ht) as (r0 & Hr & Hri).
  destruct (hist_at n c u tid Hu Ht) as (h & Hh & Hrd & Hok).
  destruct (IndirectPred.ipred_squash_ok _ _ sn tid (ui_ipred _ _ _ Hu) Ht) as (i & Hi & Hsq & Hip).
  unfold squash. rewrite Hsq. cbn [mbind res_bind]. set (ip := IndirectPred.with_hist _ _ _ _) in *.
  replace (with_iPred u ip) with (mid u tid (dir u) r0 ip)
    by (unfold mid; by rewrite list_insert_id).
  cbn [predHist mid]. rewrite Hrd. cbn [mbind res_bind].
  destruct (squash_loop_ok n c sn tid u h (dir u) r0 ip Hu Ht Hok (ui_dir _ _ _ Hu) Hri)
    as (k & s' & t' & -> & Hs' & Ht' & Hf & Hhd). cbn [mbind res_bind predHist mid].
  rewrite (hist_write n c u tid Hu Ht). cbn [mbind res_bind]. eexists _, k, h, i. split; [done|].
  split; [apply mid_inv; try done; by apply Forall_drop|]. by split_and!.
Qed.

Lemma commit_loop_ok n c sn tid h s :
  0 <= tid < dp_threads c -> Forall (rec_ok n c) h -> dp_inv c s ->
  exists k s', commit_loop sn tid h s = Ok (drop k h, s') /\ dp_inv c s' /\
    Forall (fun r => seqNum r <= sn) (take k h) /\ (forall r, head (drop k h) = Some r -> sn < seqNum r).
Proof.
  intros Ht Hh. revert s. induction Hh as [|r h Hr Hh IH]; intros s Hs; cbn [commit_loop].
  - exists 0%nat, s. by do 3 (split; [done|]).
  - destruct (Z.leb_spec (seqNum r) sn) as [Hle|Hgt].
    + destruct Hr as (Hd & Hpc & _).
      destruct (dp_update_ok c s tid _ (predTaken r) _ false Hs Ht Hpc Hd) as (s1 & -> & Hs1).
      cbn [mbind res_bind]. destruct (IH s1 Hs1) as (k & s' & E & Hs' & Hf & Hhd).
      exists (Datatypes.S k), s'. split; [exact E|]. split; [done|]. split; [by constructor|done].
    + exists 0%nat, s. do 2 (split; [done|]). split; [constructor|]. by intros r' [= <-].
Qed.
End Inv.

(** * Theorems *)

Section Theorems.
Context {PC Inst C S H : Type} `{TheISALaws PC Inst, DirPredLaws C S H}.
Implicit Types u : BPredUnit PC S H.

Lemma init_all_ok n k :
  0 < n < 2 ^ 32 -> exists rs : list (Ras.ReturnAddrStack PC),
    init_all k n = Ok rs /\ length rs = k /\ Forall (Ras.ras_inv n) rs.
Proof.
  intros Hn. induction k as [|k (rs & Hrs & Hl & Hf)]; cbn [init_all]; [by exists []|].
  destruct (Ras.init_ok n Hn) as (r & -> & Hr). cbn [mbind res_bind]. rewrite Hrs. cbn [mbind res_bind].
  exists (r :: rs). split; [done|]. split; [simpl; by rewrite Hl|by constructor].
Qed.

(** The constructor. *)
Lemma BPredUnit_new_ok (p : BranchPredictorParams) (c : C) (s : S) k j :
  dp_inv c s -> p_numThreads p = dp_threads c ->
  0 <= k < 31 -> p_BTBEntries p = 2 ^ k -> 0 <= p_BTBTagSize p < 31 ->
  0 <= p_instShiftAmt p <= 32 -> 0 < p_numThreads p < 2 ^ (k + 1) -> 0 < p_RASSize p < 2 ^ 32 ->
  0 <= j < 32 -> p_indirectSets p = 2 ^ j -> 0 < p_indirectWays p -> 0 <= p_indirectTagSize p < 31 ->
  0 < p_indirectPathLength p < 2 ^ 32 ->
  exists u, BPredUnit_new p s = Ok u /\ unit_inv (p_RASSize p) c u /\ dir u = s /\
    (forall l, predHist u !! l = Some [] \/ predHist u !! l = None) /\
    (forall l, (exists z, IndirectPred.threadInfo (iPred u) !! l
         = Some {| IndirectPred.pathHist := []; IndirectPred.headHistEntry := z |}) \/
       IndirectPred.threadInfo (iPred u) !! l = None).
Proof.
  intros Hs Hth Hk Hb Hbt Hsh Hn Hr Hj Hset Hw Hit Hpl. unfold BPredUnit_new. rewrite Hb, Hset.
  destruct (Btb.DefaultBTB_new_ok k (p_BTBTagSize p) (p_instShiftAmt p) (p_numThreads p))
    as (btb & -> & Hbi & _); [lia..|]. cbn [mbind res_bind].
  destruct (IndirectPred.IndirectPredictor_new_ok (p_indirectHashGHR p) (p_indirectHashTargets p) j
    (p_indirectWays p) (p_indirectTagSize p) (p_indirectPathLength p) (p_instShiftAmt p) (p_numThreads p))
    as (ip & -> & Hii & _ & _ & _ & Hinfo); [lia..|]. cbn [mbind res_bind].
  destruct (init_all_ok (p_RASSize p) (Z.to_nat (p_numThreads p)) Hr) as (rs & -> & Hl & Hf).
  cbn [mbind res_bind]. eexists. split; [done|]. split; [|split; [done|split]].
  - rewrite Hth in *. split; cbn; try done; try lia.
    + rewrite length_replicate. lia.
    + by apply Forall_replicate.
  - intros l. cbn. destruct (replicate _ _ !! l) eqn:E; [left|by right].
    by apply lookup_replicate in E as [-> _].
  - intros l. cbn. destruct (Hinfo l) as [->|]; [left; by eexists|by right].
Qed.
End Theorems.
