(* ===== verification/BPredTheorems.v ===== *)
(** What the branch prediction unit promises, for any direction predictor that
    implements the interface of [DirPred]; instantiated with the tournament
    predictor in the witnesses. *)
From S2P Require Import Prelude SatCounter DirPred TournamentBP Ras Btb IndirectPred BPredUnit.

Section Theorems.
Context {PC Inst C S H : Type} `{TheISALaws PC Inst, DirPredLaws C S H}.
Implicit Types u : BPredUnit PC S H.

Lemma unit_commit_ok n c u sn tid :
  unit_inv n c u -> 0 <= tid < dp_threads c -> exists u' k h,
    BPredUnit.commit u sn tid = Ok u' /\ unit_inv n c u' /\ predHist u !! Z.to_nat tid = Some h /\
    predHist u' = <[Z.to_nat tid := reverse (drop k (reverse h))]> (predHist u) /\
    BTB u' = BTB u /\ RAS u' = RAS u /\
    Forall (fun r => BPredUnit.seqNum r <= sn) (take k (reverse h)) /\
    (forall r, head (drop k (reverse h)) = Some r -> sn < BPredUnit.seqNum r).
Proof.
  intros Hu Ht. destruct (hist_at n c u tid Hu Ht) as (h & Hh & Hrd & Hok).
  destruct (IndirectPred.ipred_commit_ok _ _ sn tid (ui_ipred _ _ _ Hu) Ht) as (ip & Hc & Hip & _).
  unfold BPredUnit.commit. rewrite Hc. cbn [mbind res_bind]. rewrite Hrd. cbn [mbind res_bind].
  destruct (commit_loop_ok n c sn tid (reverse h) (dir u)) as (k & s' & -> & Hs' & Hf & Hhd);
    [done|by apply Forall_reverse|apply Hu|]. cbn [mbind res_bind].
  rewrite (hist_write n c u tid Hu Ht). cbn [mbind res_bind]. eexists _, k, h. split; [done|].
  split; [|by split_and!]. destruct Hu. split; cbn; try done.
  - by rewrite length_insert.
  - apply Forall_insert; [done|]. by apply Forall_reverse, Forall_drop, Forall_reverse.
Qed.

(** C28 (the unit is safe and keeps its history in order). In a well-formed
    unit, for an existing thread: [predict] of any instruction returns and adds one
    record, with the given sequence number, to the front of the history; [squash]
    removes the records from the front, youngest first, as long as they are
    younger than the given number; [commit] removes them from the back, oldest
    first, as long as they are not younger.  None of them fails, leaves a
    table, or ill-forms the unit. *)
Theorem bpred_safe n c u tid :
  unit_inv n c u -> 0 <= tid < dp_threads c -> exists h, predHist u !! Z.to_nat tid = Some h /\
    (forall inst sn pc, exists b t r u', predict u inst sn pc tid = Ok (b, t, u') /\ unit_inv n c u' /\
       predHist u' !! Z.to_nat tid = Some (r :: h) /\ BPredUnit.seqNum r = sn /\ ph_pc r = instAddr pc) /\
    (forall sn, exists u' young old, BPredUnit.squash u sn tid = Ok u' /\ unit_inv n c u' /\
       h = young ++ old /\ predHist u' !! Z.to_nat tid = Some old /\
       Forall (fun r => sn < BPredUnit.seqNum r) young /\
       (forall r, head old = Some r -> BPredUnit.seqNum r <= sn)) /\
    (forall sn, exists u' young old, BPredUnit.commit u sn tid = Ok u' /\ unit_inv n c u' /\
       h = young ++ old /\ predHist u' !! Z.to_nat tid = Some young /\
       Forall (fun r => BPredUnit.seqNum r <= sn) old /\
       (forall r, last young = Some r -> sn < BPredUnit.seqNum r)).
Proof.
  intros Hu Ht. destruct (hist_at n c u tid Hu Ht) as (h & Hh & _). exists h. split; [done|].
  assert (Z.to_nat tid < length (predHist u))%nat as Hlen by (by eapply lookup_lt_Some).
  split; [|split].
  - intros inst sn pc. destruct (ras_at n c u tid Hu Ht) as (r0 & Hr & Hri).
    destruct (info_ok _ _ tid (ui_ipred _ _ _ Hu) Ht) as (i & Hi & _).
    destruct (predict_ok n c u tid Hu Ht inst sn pc r0 h i Hr Hri Hh Hi)
      as (b & t & r & s1 & r1 & new & Hp & Er & Epc & Hrec & Hun & _ & _ & Hs1 & _).
    exists b, t, r. eexists. split; [exact Hp|].
    split; [apply spec_state_inv; try done; [by constructor|apply Hun]|].
    split; [by apply list_lookup_insert_eq|done].
  - intros sn. destruct (unit_squash_ok n c u sn tid Hu Ht)
      as (u' & k & h' & i & Hsq & Hinv & Hh' & Eh & _ & _ & _ & Hf & Hhd).
    rewrite Hh in Hh'. injection Hh' as <-. exists u', (take k h), (drop k h).
    do 2 (split; [done|]). split; [by rewrite take_drop|]. split; [|done].
    rewrite Eh. by apply list_lookup_insert_eq.
  - intros sn. destruct (unit_commit_ok n c u sn tid Hu Ht)
      as (u' & k & h' & Hsq & Hinv & Hh' & Eh & _ & _ & Hf & Hhd).
    rewrite Hh in Hh'. injection Hh' as <-.
    exists u', (reverse (drop k (reverse h))), (reverse (take k (reverse h))).
    do 2 (split; [done|]). split.
    { by rewrite <- reverse_app, take_drop, reverse_involutive. }
    split; [rewrite Eh; by apply list_lookup_insert_eq|]. split; [by apply Forall_reverse|].
    intros r. rewrite last_reverse. apply Hhd.
Qed.

(** Squashing a wrong path; the stack is related by [agree]. *)
Lemma wrong_path n c u tid sn ops :
  unit_inv n c u -> 0 <= tid < dp_threads c ->
  (forall h r, predHist u !! Z.to_nat tid = Some h -> head h = Some r -> BPredUnit.seqNum r <= sn) ->
  (forall i, threadInfo (iPred u) !! Z.to_nat tid = Some i ->
     Forall (fun e => IndirectPred.seqNum e <= sn) (pathHist i)) ->
  Forall (fun '(inst, osn, pc) => sn < osn /\ clean u tid inst pc) ops ->
  exists u1 u2 r0 r2, predicts u ops tid = Ok u1 /\ BPredUnit.squash u1 sn tid = Ok u2 /\ unit_inv n c u2 /\
    predHist u2 = predHist u /\ BTB u2 = BTB u /\ iPred u2 = iPred u /\ dp_eq (dir u2) (dir u) /\
    RAS u !! Z.to_nat tid = Some r0 /\ RAS u2 = <[Z.to_nat tid := r2]> (RAS u) /\ Ras.ras_inv n r2 /\
    agree (n - calls ops) r0 r2.
Proof.
  intros Hu Ht Hold Hpath Hops.
  destruct (ras_at n c u tid Hu Ht) as (r0 & Hr & Hri).
  destruct (hist_at n c u tid Hu Ht) as (h & Hh & _ & Hrec).
  destruct (info_ok _ _ tid (ui_ipred _ _ _ Hu) Ht) as (i & Hi & _).
  destruct (predicts_ok n c u tid sn ops r0 h i Hu Ht Hr Hh Hi Hops)
    as (s1 & rs & r1 & new & Hp & Hinv & Hrs & Hnew & Hun).
  set (u1 := spec_state u tid i h s1 rs r1 new) in *.
  destruct (spec_state_at n c u tid i h s1 rs r1 new Hu Ht) as (Hr1 & Hh1 & Hi1).
  fold u1 in Hr1, Hh1, Hi1.
  destruct (IndirectPred.ipred_squash_ok _ _ sn tid (ui_ipred _ _ _ Hinv) Ht) as (i1 & Hi1' & Hsq & Hip).
  rewrite Hi1 in Hi1'. injection Hi1' as <-. cbn [pathHist headHistEntry] in Hsq, Hip.
  rewrite (keep_until_app sn (pathHist i) new (Hpath i Hi) Hnew) in Hsq, Hip.
  set (ip := with_hist (iPred u1) tid _ (pathHist i)) in *.
  assert (ip = iPred u) as Eip.
  { unfold ip, u1, spec_state, with_hist, with_info. cbn. rewrite list_insert_insert_eq.
    rewrite list_insert_id by (rewrite Hi; by destruct i). by destruct (iPred u). }
  assert (Ras.ras_inv n r1) as Hri1 by apply (Forall_lookup_1 _ _ _ _ (ui_ras _ _ _ Hinv) Hr1).
  destruct (Hun u1 s1 r1 ip n Hinv (ui_dir _ _ _ Hinv) ltac:(reflexivity) Hri1 ltac:(lia)
              (Ras.agree_refl n r1)) as (s2 & r2 & Hloop & Hs2 & He2 & Hr2 & Ha).
  exists u1. eexists. exists r0, r2. split; [done|]. split.
  { unfold BPredUnit.squash. rewrite Hsq. cbn [mbind res_bind].
    replace (with_iPred u1 ip) with (mid u1 tid (dir u1) r1 ip) by (unfold mid; by rewrite list_insert_id).
    cbn [predHist mid]. rewrite (aread_Ok _ _ _ (proj1 Ht) Hh1). cbn [mbind res_bind].
    change (dir u1) with s1. rewrite Hloop.
    assert (squash_loop sn tid h (mid u1 tid s2 r2 ip) = Ok (h, mid u1 tid s2 r2 ip)) as ->.
    { destruct h as [|r h]; [done|]. cbn [squash_loop].
      pose proof (Hold _ r Hh eq_refl). by rewrite (proj2 (Z.ltb_ge _ _)) by lia. }
    cbn [mbind res_bind predHist mid]. rewrite (hist_write n c u1 tid Hinv Ht). cbn [mbind res_bind].
    reflexivity. }
  split; [apply mid_inv; try done|].
  cbn. rewrite !list_insert_insert_eq, list_insert_id by done. by split_and!.
Qed.

(** C26 (a wrong path is undone). A thread predicts any sequence of branches,
    all younger than [sn] (and none of them an unconditional branch, neither
    call nor return, that misses in the BTB), and the unit then squashes to
    [sn].  The prediction history, the BTB, the path history and the target
    cache are those of before; the direction predictor is equivalent to what
    it was; and the thread's return stack has its top back, with the entries
    below it down to the stack's size less the number of calls. *)
Theorem bpred_squash_restores n c u tid sn ops :
  unit_inv n c u -> 0 <= tid < dp_threads c ->
  (forall h r, predHist u !! Z.to_nat tid = Some h -> head h = Some r -> BPredUnit.seqNum r <= sn) ->
  (forall i, threadInfo (iPred u) !! Z.to_nat tid = Some i ->
     Forall (fun e => IndirectPred.seqNum e <= sn) (pathHist i)) ->
  Forall (fun '(inst, osn, pc) => sn < osn /\ clean u tid inst pc) ops ->
  exists u1 u2 r0 r2, predicts u ops tid = Ok u1 /\ BPredUnit.squash u1 sn tid = Ok u2 /\ unit_inv n c u2 /\
    predHist u2 = predHist u /\ BTB u2 = BTB u /\ iPred u2 = iPred u /\ dp_eq (dir u2) (dir u) /\
    RAS u !! Z.to_nat tid = Some r0 /\ RAS u2 = <[Z.to_nat tid := r2]> (RAS u) /\ tos r2 = tos r0 /\
    forall k, 0 <= k < n - calls ops -> peek r2 k = peek r0 k.
Proof.
  intros Hu Ht Hold Hpath Hops.
  destruct (wrong_path n c u tid sn ops Hu Ht Hold Hpath Hops)
    as (u1 & u2 & r0 & r2 & H1' & H2' & H3' & H4' & H5' & H6' & H7' & H8' & H9' & _ & [Ha1 Ha2]).
  exists u1, u2, r0, r2. by split_and!.
Qed.

(** A well-formed unit with other predictor parts and history. *)
Lemma parts_inv n c (w : BPredUnit PC S H) tid s t ip btb (h : list (PredictorHistory PC H)) :
  unit_inv n c w -> dp_inv c s -> Ras.ras_inv n t -> ipred_inv (dp_threads c) ip ->
  Btb.btb_inv (dp_threads c) btb -> Forall (rec_ok n c) h ->
  unit_inv n c (with_predHist (with_BTB (mid w tid s t ip) btb) (<[Z.to_nat tid := h]> (predHist w))).
Proof.
  intros Hw Hs Ht Hip Hb Hh. destruct (mid_inv n c w tid s t ip h Hw Hs Ht Hip Hh). by split.
Qed.

(** Recording a taken branch's target. *)
Lemma correct_taken_ok n c w tid rnd s t r g corr pc P new :
  unit_inv n c w -> 0 <= tid < dp_threads c -> 0 <= rnd -> dp_inv c s -> Ras.ras_inv n t ->
  threadInfo (iPred w) !! Z.to_nat tid = Some P -> path_entry r pc new -> ph_pc r = instAddr pc ->
  (exists P0, pathHist P = P0 ++ new) ->
  exists r' t' ip btb, correct_taken rnd (mid w tid s t (iPred w)) r g corr tid
      = Ok (r', with_BTB (mid w tid s t' ip) btb) /\
    (BPredUnit.seqNum r' = BPredUnit.seqNum r /\ ph_pc r' = ph_pc r /\ bpHistory r' = bpHistory r /\
     RASIndex r' = RASIndex r /\ predTaken r' = predTaken r /\ wasIndirect r' = wasIndirect r) /\
    Ras.ras_inv n t' /\ ipred_inv (dp_threads c) ip /\ Btb.btb_inv (dp_threads c) btb /\
    (wasIndirect r = false -> ip = iPred w /\ Btb.valid btb (instAddr pc) tid = Ok true /\
       Btb.lookup btb (instAddr pc) tid = Ok corr) /\
    (wasIndirect r = true -> btb = BTB w).
Proof.
  intros Hw Ht Hrnd Hs Hti HP Hpe Hpc (P0 & EP). unfold correct_taken.
  assert (exists r' t', (if wasReturn r && negb (usedRAS r)
      then u ← RAS_pop (mid w tid s t (iPred w)) tid; Ok (set_usedRAS r true, u)
      else Ok (r, mid w tid s t (iPred w))) = Ok (r', mid w tid s t' (iPred w)) /\ Ras.ras_inv n t' /\
      (BPredUnit.seqNum r' = BPredUnit.seqNum r /\ ph_pc r' = ph_pc r /\ bpHistory r' = bpHistory r /\
       RASIndex r' = RASIndex r /\ predTaken r' = predTaken r /\ wasIndirect r' = wasIndirect r))
    as (r' & t' & -> & Hti' & (E1 & E2 & E3 & E4 & E5 & E6)).
  { destruct (wasReturn r && negb (usedRAS r)); [|by exists r, t].
    rewrite (mid_pop n c w tid Hw Ht). exists (set_usedRAS r true), (Ras.pop t).
    split; [done|]. split; [by apply Ras.pop_ok|done]. }
  cbn [mbind res_bind]. rewrite E6. exists r', t'. destruct (wasIndirect r) eqn:Ewi.
  - destruct (Hpe Ewi) as (e & -> & _). cbn [iPred mid].
    destruct (recordTarget_ok _ rnd (iPred w) (BPredUnit.seqNum r') g corr tid P P0 e
      (ui_ipred _ _ _ Hw) Ht Hrnd HP EP) as (ip & ? & ? & ? & -> & Hip & _). cbn [mbind res_bind].
    exists ip, (BTB w). split; [done|]. split_and!; try done. apply Hw.
  - cbn [BTB mid]. rewrite E2, Hpc. pose proof (ui_btb _ _ _ Hw) as Hb.
    destruct (Btb.btb_write_ok _ _ (instAddr pc) corr tid Hb Ht) as [-> Hbi]. cbn [mbind res_bind].
    eexists _, _. split; [done|]. do 2 (split; [done|]). split; [apply Hw|]. split; [exact Hbi|].
    split; [|done]. intros _. split; [done|].
    destruct (Btb.btb_index_ok _ _ (instAddr pc) tid Hb Ht) as [_ Hr]. pose proof (Btb.btb_len _ _ Hb).
    destruct (Btb.find_ok _ _ (instAddr pc) tid Hbi Ht) as (en & Hen & -> & ->).
    change (Btb.index_of _ _ _) with (Btb.index_of (BTB w) (instAddr pc) tid) in Hen.
    change (Btb.tag_of _ _) with (Btb.tag_of (BTB w) (instAddr pc)).
    cbn in Hen. rewrite list_lookup_insert_eq in Hen by lia. injection Hen as <-.
    unfold Btb.hit. cbn. by rewrite Z.eqb_refl, bool_decide_eq_true_2.
Qed.

(** Taking back what a branch that was not taken did to the stack. *)
Lemma correct_notTaken_ok n c (w : BPredUnit PC S H) tid s t r (r0 r1 : ReturnAddrStack PC) k d :
  unit_inv n c w -> 0 <= tid < dp_threads c -> undone n k r r0 r1 -> Ras.ras_inv n t -> d <= n ->
  agree d r1 t -> exists r' t', correct_notTaken (mid w tid s t (iPred w)) r tid
      = Ok (r', mid w tid s t' (iPred w)) /\
    (BPredUnit.seqNum r' = BPredUnit.seqNum r /\ ph_pc r' = ph_pc r /\ bpHistory r' = bpHistory r /\
     RASIndex r' = RASIndex r /\ predTaken r' = predTaken r) /\
    Ras.ras_inv n t' /\ agree (d - k) r0 t'.
Proof.
  intros Hw Ht [_ Hun] Hti Hd Ha. destruct (Hun t d Hti Hd Ha) as (t' & Ho & Hti' & Ha').
  pose proof (mid_undo n c w tid Hw Ht s t (iPred w) r t' Ho) as Hm.
  unfold correct_notTaken, undo_RAS, undo_one in *. revert Hm Ho. destruct (usedRAS r).
  - intros -> _. by exists (set_usedRAS r false), t'.
  - destruct (wasCall r && pushedRAS r).
    + intros -> _. by exists (set_pushedRAS r false), t'.
    + intros _ [= <-]. by exists r, t.
Qed.

(** C27 (a misprediction is corrected). A branch is predicted, a wrong path of
    younger branches follows (none of them an unconditional branch, neither
    call nor return, that misses in the BTB, whose direction the unit cannot take
    back), and the branch resolves: [squash] with its
    number, real direction and real target.  The unit is well formed again;
    the thread's history is the branch, now recorded with the real
    direction, on top of what it was before; if the branch was taken and did
    not consult the indirect predictor, the BTB now gives its real target;
    if it was not taken, the BTB is untouched and the return stack is as
    before the branch, down to its size less the calls undone. *)
Theorem bpred_corrects n c u tid rnd inst sn pc ops corr taken :
  unit_inv n c u -> 0 <= tid < dp_threads c -> 0 <= rnd ->
  (forall i, threadInfo (iPred u) !! Z.to_nat tid = Some i ->
     Forall (fun e => IndirectPred.seqNum e <= sn) (pathHist i)) ->
  Forall (fun '(inst, osn, pc) => sn < osn /\ clean u tid inst pc) ops ->
  exists b t u1 u2 u3 h r, predict u inst sn pc tid = Ok (b, t, u1) /\ predicts u1 ops tid = Ok u2 /\
    squash_correct rnd u2 sn corr taken tid = Ok u3 /\ unit_inv n c u3 /\
    predHist u !! Z.to_nat tid = Some h /\ predHist u3 = <[Z.to_nat tid := r :: h]> (predHist u) /\
    BPredUnit.seqNum r = sn /\ ph_pc r = instAddr pc /\ predTaken r = taken /\
    (taken = true -> wasIndirect r = false ->
       Btb.valid (BTB u3) (instAddr pc) tid = Ok true /\ Btb.lookup (BTB u3) (instAddr pc) tid = Ok corr) /\
    (taken = false -> BTB u3 = BTB u /\ exists r0 r3, RAS u !! Z.to_nat tid = Some r0 /\
       RAS u3 = <[Z.to_nat tid := r3]> (RAS u) /\ agree (n - calls ((inst, sn, pc) :: ops)) r0 r3).
Proof.
  intros Hu Ht Hrnd Hpath Hops.
  destruct (ras_at n c u tid Hu Ht) as (r0 & Hr & Hri).
  destruct (hist_at n c u tid Hu Ht) as (h & Hh & _ & Hrec).
  destruct (info_ok _ _ tid (ui_ipred _ _ _ Hu) Ht) as (i & Hi & _).
  destruct (predict_ok n c u tid Hu Ht inst sn pc r0 h i Hr Hri Hh Hi)
    as (b & t & r & s1 & r1 & new & Hp & Er & Epc & Hrok & Hun & Hnew & Hpe & Hs1 & _).
  set (u1 := spec_state u tid i h s1 [r] r1 new) in *.
  assert (unit_inv n c u1) as Hu1 by (apply spec_state_inv; try done; [by constructor|apply Hun]).
  destruct (spec_state_at n c u tid i h s1 [r] r1 new Hu Ht) as (Hr1 & Hh1 & Hi1). fold u1 in Hr1, Hh1, Hi1.
  destruct (wrong_path n c u1 tid sn ops Hu1 Ht) as
    (u2 & w & r1' & r2 & Hps & Hsq & Hw & Ewh & Ewb & Ewi & _ & Hr1' & Ewr & Hr2 & Ha).
  { intros h' r' Hh'. rewrite Hh1 in Hh'. injection Hh' as <-. intros [= <-]. lia. }
  { intros i' Hi'. rewrite Hi1 in Hi'. injection Hi' as <-. cbn. apply Forall_app.
    split; [by apply Hpath|]. eapply Forall_impl; [exact Hnew|]. intros e ->. lia. }
  { exact Hops. }
  rewrite Hr1 in Hr1'. injection Hr1' as <-.
  exists b, t, u1, u2. unfold squash_correct. rewrite Hsq. cbn [mbind res_bind].
  rewrite Ewh, (aread_Ok _ _ _ (proj1 Ht) Hh1). cbn [mbind res_bind app].
  rewrite Er, Z.eqb_refl. destruct (dp_getGHR_ok c (dir w) tid _ (ui_dir _ _ _ Hw) (proj1 Hrok)) as (g & -> & _).
  cbn [mbind res_bind ph_pc bpHistory set_predTaken]. rewrite Epc.
  destruct (dp_update_ok c (dir w) tid (instAddr pc) taken _ true (ui_dir _ _ _ Hw) Ht (instAddr_ok pc)
    (proj1 Hrok)) as (s3 & -> & Hs3). cbn [mbind res_bind].
  assert (RAS w !! Z.to_nat tid = Some r2) as Hwr.
  { rewrite Ewr. apply list_lookup_insert_eq. by eapply lookup_lt_Some. }
  replace (with_dir w s3) with (mid w tid s3 r2 (iPred w)) by (unfold mid; by rewrite list_insert_id).
  destruct taken.
  - rewrite <- Ewi in Hi1.
    destruct (correct_taken_ok n c w tid rnd s3 r2 (set_predTaken r true) g corr pc _ new Hw Ht Hrnd Hs3 Hr2
      Hi1 Hpe Epc (ex_intro _ (pathHist i) eq_refl))
      as (r' & t' & ip & btb & -> & (E1 & E2 & E3 & E4 & E5 & E6) & Ht' & Hip & Hb & Hd & Hn).
    cbn [mbind res_bind predHist mid with_BTB]. rewrite Ewh.
    rewrite (hist_write n c u1 tid Hu1 Ht). cbn [mbind res_bind]. rewrite <- Ewh.
    eexists. exists h, r'. do 2 (split; [done|]). split; [reflexivity|]. split.
    { apply parts_inv; try done. constructor; [|done]. unfold rec_ok. rewrite E2, E3, E4. exact Hrok. }
    split; [done|]. split; [cbn; rewrite Ewh; cbn; by rewrite list_insert_insert_eq|].
    split; [rewrite E1; exact Er|]. split; [rewrite E2; exact Epc|]. split; [by rewrite E5|].
    split; [|done]. intros _ E. cbn. apply Hd. by rewrite E6 in E.
  - assert (n - calls ops <= n) as Hcn by (pose proof (calls_nonneg ops); lia).
    destruct (correct_notTaken_ok n c w tid s3 r2 (set_predTaken r false) r0 r1 (cost inst)
      (n - calls ops) Hw Ht Hun Hr2 Hcn Ha)
      as (r' & t' & -> & (E1 & E2 & E3 & E4 & E5) & Ht' & Ha').
    cbn [mbind res_bind predHist mid]. rewrite Ewh.
    rewrite (hist_write n c u1 tid Hu1 Ht). cbn [mbind res_bind]. rewrite <- Ewh.
    eexists. exists h, r'. do 2 (split; [done|]). split; [reflexivity|]. split.
    { apply mid_inv; try done; [apply Hw|]. constructor; [|done]. unfold rec_ok. rewrite E2, E3, E4. exact Hrok. }
    split; [done|]. split; [cbn; rewrite Ewh; cbn; by rewrite list_insert_insert_eq|].
    split; [rewrite E1; exact Er|]. split; [rewrite E2; exact Epc|]. split; [by rewrite E5|].
    split; [done|]. intros _. split; [cbn; by rewrite Ewb|].
    exists r0, t'. split; [done|]. split; [cbn; rewrite Ewr; cbn; by rewrite !list_insert_insert_eq|].
    eapply Ras.agree_weaken; [|exact Ha']. cbn. lia.
Qed.
End Theorems.

(** * A concrete unit *)

Definition unit_params : BranchPredictorParams := {|
  BPredUnit.p_numThreads := 1; p_BTBEntries := 16; p_BTBTagSize := 8; p_RASSize := 4;
  BPredUnit.p_instShiftAmt := 2; p_useIndirect := true; p_indirectHashGHR := true;
  p_indirectHashTargets := true; p_indirectSets := 4; p_indirectWays := 2;
  p_indirectTagSize := 8; p_indirectPathLength := 3 |}.
Definition small_unit : res (BPredUnit Z TournamentBP TournamentBP.bp_ptr) :=
  s ← TournamentBP_new small_params; BPredUnit_new (Inst := flat_inst) unit_params s.

Definition i_cond : flat_inst := {| f_uncond := false; f_return := false; f_call := false; f_direct := true |}.
Definition i_call : flat_inst := {| f_uncond := true; f_return := false; f_call := true; f_direct := true |}.
Definition i_ret : flat_inst := {| f_uncond := true; f_return := true; f_call := false; f_direct := false |}.
Definition i_condret : flat_inst := {| f_uncond := false; f_return := true; f_call := false; f_direct := false |}.

Lemma small_unit_ok : exists c u, small_unit = Ok u /\ unit_inv 4 c u /\
  dp_threads c = 1 /\ (forall l, predHist u !! l = Some [] \/ predHist u !! l = None) /\
  (forall l, (exists z, threadInfo (iPred u) !! l = Some {| pathHist := []; headHistEntry := z |}) \/
     threadInfo (iPred u) !! l = None).
Proof.
  destruct (TournamentBP_new_ok small_params small_params_ok) as (s & E & Hi & Hn).
  destruct (BPredUnit_new_ok (PC := Z) (Inst := flat_inst) (C := TournamentCfg) (S := TournamentBP) unit_params (cfg s) s 4 2)
    as (u & Hu & Hinv & _ & Hh & Hp); [exact Hi|by change (1 = TournamentBP.numThreads (cfg s)); rewrite Hn|simpl; lia..|].
  exists (cfg s), u. unfold small_unit. rewrite E. by split_and!.
Qed.

Example bpred_safe_witness : exists u, small_unit = Ok u /\
  exists b t u', predict (Inst := flat_inst) u i_call 7 0x1000 0 = Ok (b, t, u').
Proof.
  destruct small_unit_ok as (c & u & E & Hi & Hn & _). exists u. split; [done|].
  destruct (bpred_safe (PC := Z) (Inst := flat_inst) 4 c u 0 Hi) as (h & _ & Hp & _); [rewrite Hn; lia|].
  destruct (Hp i_call 7 0x1000) as (b & t & _ & u' & Hp' & _). by exists b, t, u'.
Defined.

Example bpred_squash_restores_witness : exists u u1 u2, small_unit = Ok u /\
  predicts (Inst := flat_inst) u [(i_call, 7, 0x1000); (i_cond, 8, 0x1100); (i_ret, 9, 0x1104)] 0 = Ok u1 /\
  BPredUnit.squash u1 5 0 = Ok u2 /\ predHist u2 = predHist u.
Proof.
  destruct small_unit_ok as (c & u & E & Hi & Hn & Hh & Hp).
  destruct (bpred_squash_restores (PC := Z) (Inst := flat_inst) 4 c u 0 5
    [(i_call, 7, 0x1000); (i_cond, 8, 0x1100); (i_ret, 9, 0x1104)] Hi)
    as (u1 & u2 & _ & _ & H1 & H2 & _ & H3 & _).
  - rewrite Hn. lia.
  - intros h r Hl. destruct (Hh (Z.to_nat 0)) as [El|El]; rewrite El in Hl; [by injection Hl as <-|done].
  - intros i Hl. destruct (Hp (Z.to_nat 0)) as [[z El]|El]; rewrite El in Hl; [injection Hl as <-; constructor|done].
  - repeat constructor; try lia; intros ?; discriminate.
  - exists u, u1, u2. by split_and!.
Defined.

Example bpred_corrects_witness : exists u b t u1 u2 u3, small_unit = Ok u /\
  predict (Inst := flat_inst) u i_cond 7 0x1000 0 = Ok (b, t, u1) /\
  predicts (Inst := flat_inst) u1 [(i_call, 8, 0x1004)] 0 = Ok u2 /\
  squash_correct (Inst := flat_inst) 0 u2 7 0x2000 true 0 = Ok u3.
Proof.
  destruct small_unit_ok as (c & u & E & Hi & Hn & Hh & Hp).
  destruct (bpred_corrects (PC := Z) (Inst := flat_inst) 4 c u 0 0 i_cond 7 0x1000 [(i_call, 8, 0x1004)] 0x2000 true Hi)
    as (b & t & u1 & u2 & u3 & _ & _ & H1 & H2 & H3 & _).
  - rewrite Hn. lia.
  - lia.
  - intros i Hl. destruct (Hp (Z.to_nat 0)) as [[z El]|El]; rewrite El in Hl; [injection Hl as <-; constructor|done].
  - repeat constructor; try lia; intros ?; discriminate.
  - exists u, b, t, u1, u2, u3. by split_and!.
Defined.

(** (a corrected return corrupts the return stack). When a conditional
    return was predicted not taken and turns out taken, the correction pops
    the stack and marks the record as having used it, but the record keeps the
    index 0 and the null target of its construction.  If an older branch then
    squashes it, [restore] writes the null target to entry 0 and makes it the
    top: here the top moves from entry 2, where the squash of the same record
    uncorrected leaves it, to entry 0. *)
Theorem bpred_corrected_return_corrupts :
  exists u u1 u2 u3 b t r0 r2 r3,
    (* two committed calls, then a conditional return predicted not taken *)
    (u0 ← small_unit;
     u0 ← predicts (Inst := flat_inst) u0 [(i_call, 1, 0x1000); (i_call, 2, 0x1100)] 0;
     BPredUnit.commit u0 2 0) = Ok u /\
    predict (Inst := flat_inst) u i_condret 7 0x1200 0 = Ok (b, t, u1) /\ b = false /\
    RAS u !! 0%nat = Some r0 /\ tos r0 = 2 /\
    (* squashed by branch 5 uncorrected: the stack is back *)
    (u' ← BPredUnit.squash u1 5 0; aread (RAS u') 0) = Ok r2 /\ r2 = r0 /\
    (* corrected first, then squashed by branch 5 *)
    squash_correct (Inst := flat_inst) 0 u1 7 0x1104 true 0 = Ok u2 /\
    BPredUnit.squash u2 5 0 = Ok u3 /\ RAS u3 !! 0%nat = Some r3 /\
    tos r3 = 0 /\ top r3 = Ok 0.
Proof.
  destruct (u0 ← small_unit;
     u0 ← predicts (Inst := flat_inst) u0 [(i_call, 1, 0x1000); (i_call, 2, 0x1100)] 0;
     BPredUnit.commit u0 2 0) as [u| | |] eqn:E; [|by vm_compute in E..].
  vm_compute in E. injection E as <-. do 9 eexists. split; [reflexivity|].
  split; [vm_compute; reflexivity|]. split; [done|]. split; [vm_compute; reflexivity|].
  split; [done|]. split; [vm_compute; reflexivity|]. split; [done|].
  split; [vm_compute; reflexivity|]. split; [vm_compute; reflexivity|].
  split; [vm_compute; reflexivity|]. split; [done|]. vm_compute. reflexivity.
Qed.
