(* ===== verification/PhysReg.v ===== *)
(** Registers of the out-of-order CPU: register ids (cpu/reg_class.hh,
    cpu/o3/comm.hh), the physical register file (cpu/o3/regfile.hh, regfile.cc), the free
    lists (cpu/o3/free_list.hh), the scoreboard (cpu/o3/scoreboard.hh) and the
    rename maps (cpu/o3/rename_map.cc).  The ids the register file owns never
    change and are pairwise distinct, so a [PhysRegIdPtr] is the id it points to,
    or [None] for the null pointer. *)
From S2P Require Import Prelude.

Abbreviation u16 := (wrap_u 16).
Abbreviation s16 := (wrap_s 16).

(** * Register ids *)

Inductive RegClass :=
  IntRegClass | FloatRegClass | VecRegClass | VecElemClass | CCRegClass | MiscRegClass.
#[export] Instance RegClass_eq_dec : EqDecision RegClass.
Proof. solve_decision. Defined.

(** The constants of the instruction set gem5 is built for. *)
Class RegISA := {
  NumIntRegs : Z; NumFloatRegs : Z; NumVecRegs : Z; NumVecElemPerVecReg : Z;
  NumCCRegs : Z; NumMiscRegs : Z; ZeroReg : Z;
  alpha_isa : bool;   (** [THE_ISA == ALPHA_ISA] *)
}.
Definition arm_registers : RegISA :=
  {| NumIntRegs := 43; NumFloatRegs := 128 + 32; NumVecRegs := 32 + 8; NumVecElemPerVecReg := 4;
     NumCCRegs := 6; NumMiscRegs := 624; ZeroReg := 34; alpha_isa := false |}.

Record RegId := { regClass : RegClass; regIdx : Z; elemIdx : Z }.
#[export] Instance RegId_eq_dec : EqDecision RegId.
Proof. solve_decision. Defined.

Definition RegId_new (c : RegClass) (i : Z) : res RegId :=
  assert! negb (bool_decide (c = VecElemClass));;
  Ok {| regClass := c; regIdx := u16 i; elemIdx := u16 (-1) |}.
Definition RegId_elem (c : RegClass) (i e : Z) : res RegId :=
  assert! bool_decide (c = VecElemClass);;
  Ok {| regClass := c; regIdx := u16 i; elemIdx := u16 e |}.

Definition isRenameable (r : RegId) : bool := negb (bool_decide (regClass r = MiscRegClass)).

(** [PhysRegId] inherits from [RegId]. *)
Record PhysRegId := { pr_id : RegId; flatIdx : Z }.
#[export] Instance PhysRegId_eq_dec : EqDecision PhysRegId.
Proof. solve_decision. Defined.
Abbreviation PhysRegIdPtr := (option PhysRegId).
Abbreviation classValue p := (regClass (pr_id p)).

(** [p->...] *)
Definition deref {A} (p : option A) : res A := match p with Some a => Ok a | None => Ub end.

Definition PhysRegId_new (c : RegClass) (i flat : Z) : res PhysRegId :=
  r ← RegId_new c i; Ok {| pr_id := r; flatIdx := s16 flat |}.
Definition PhysRegId_elem (c : RegClass) (i e flat : Z) : res PhysRegId :=
  r ← RegId_elem c i e; Ok {| pr_id := r; flatIdx := s16 flat |}.
Definition isFixedMapping (p : PhysRegId) : bool := negb (isRenameable (pr_id p)).

Section Registers.
Context `{RegISA}.

Definition isZeroReg (r : RegId) : bool :=
  (bool_decide (regClass r = IntRegClass) && (regIdx r =? ZeroReg)) ||
  (alpha_isa && bool_decide (regClass r = FloatRegClass) && (regIdx r =? ZeroReg)).

Definition flatIndex (r : RegId) : Z :=
  match regClass r with
  | VecElemClass => u16 (NumVecElemPerVecReg * regIdx r + elemIdx r)
  | _ => regIdx r
  end.

(** * The physical register file *)

Inductive VecMode := Full | Elem.
#[export] Instance VecMode_eq_dec : EqDecision VecMode.
Proof. solve_decision. Defined.

(** Values are their bits; a vector register is the list of its elements. *)
Record PhysRegFile := {
  intRegFile : list Z; intRegIds : list PhysRegId;
  floatRegFile : list Z; floatRegIds : list PhysRegId;
  vectorRegFile : list (list Z); vecRegIds : list PhysRegId; vecElemIds : list PhysRegId;
  ccRegFile : list Z; ccRegIds : list PhysRegId;
  miscRegIds : list PhysRegId;
  numPhysicalIntRegs : Z; numPhysicalFloatRegs : Z; numPhysicalVecRegs : Z;
  numPhysicalVecElemRegs : Z; numPhysicalCCRegs : Z; totalNumRegs : Z;
  rf_vecMode : VecMode }.

(** The loops of the constructor: one batch of ids, and the running flat index.
    [phys_reg] is a [short], so the batches hold less than 2^15 registers. *)
Definition emplace_scalars (c : RegClass) (n flat : Z) : res (list PhysRegId * Z) :=
  for_range 0 n (fun i '(ids, flat) =>
    id ← PhysRegId_new c i flat; Ok (ids ++ [id], s16 (flat + 1))) ([], flat).
Definition emplace_elems (n flat : Z) : res (list PhysRegId * Z) :=
  for_range 0 n (fun i st =>
    for_range 0 NumVecElemPerVecReg (fun e '(ids, flat) =>
      id ← PhysRegId_elem VecElemClass i e flat; Ok (ids ++ [id], s16 (flat + 1))) st) ([], flat).
Definition emplace_miscs (n : Z) : res (list PhysRegId) :=
  for_range 0 n (fun i ids => id ← PhysRegId_new MiscRegClass i 0; Ok (ids ++ [id])) [].

Definition PhysRegFile_new (nInt nFloat nVec nCC : Z) (vmode : VecMode) : res PhysRegFile :=
  '(ints, flat) ← emplace_scalars IntRegClass nInt 0;
  '(floats, flat) ← emplace_scalars FloatRegClass nFloat flat;
  '(vecs, flat) ← emplace_scalars VecRegClass nVec flat;
  '(elems, flat) ← emplace_elems nVec flat;
  '(ccs, flat) ← emplace_scalars CCRegClass nCC flat;
  miscs ← emplace_miscs NumMiscRegs;
  Ok {| intRegFile := replicate (Z.to_nat nInt) 0; intRegIds := ints;
        floatRegFile := replicate (Z.to_nat nFloat) 0; floatRegIds := floats;
        vectorRegFile := replicate (Z.to_nat nVec) (replicate (Z.to_nat NumVecElemPerVecReg) 0);
        vecRegIds := vecs; vecElemIds := elems;
        ccRegFile := replicate (Z.to_nat nCC) 0; ccRegIds := ccs; miscRegIds := miscs;
        numPhysicalIntRegs := nInt; numPhysicalFloatRegs := nFloat; numPhysicalVecRegs := nVec;
        numPhysicalVecElemRegs := u32 (nVec * NumVecElemPerVecReg); numPhysicalCCRegs := nCC;
        totalNumRegs := u32 (nInt + nFloat + nVec + nVec * NumVecElemPerVecReg + nCC);
        rf_vecMode := vmode |}.

Definition getMiscRegId (rf : PhysRegFile) (reg_idx : Z) : res PhysRegId := aread (miscRegIds rf) reg_idx.

Definition readIntReg (rf : PhysRegFile) (p : PhysRegId) : res Z :=
  assert! bool_decide (classValue p = IntRegClass);; aread (intRegFile rf) (regIdx (pr_id p)).
Definition setIntReg (rf : PhysRegFile) (p : PhysRegId) (val : Z) : res PhysRegFile :=
  assert! bool_decide (classValue p = IntRegClass);;
  if negb (isZeroReg (pr_id p)) then
    l ← awrite (intRegFile rf) (regIdx (pr_id p)) (u64 val);
    Ok {| intRegFile := l; intRegIds := intRegIds rf; floatRegFile := floatRegFile rf;
          floatRegIds := floatRegIds rf; vectorRegFile := vectorRegFile rf; vecRegIds := vecRegIds rf;
          vecElemIds := vecElemIds rf; ccRegFile := ccRegFile rf; ccRegIds := ccRegIds rf;
          miscRegIds := miscRegIds rf; numPhysicalIntRegs := numPhysicalIntRegs rf;
          numPhysicalFloatRegs := numPhysicalFloatRegs rf; numPhysicalVecRegs := numPhysicalVecRegs rf;
          numPhysicalVecElemRegs := numPhysicalVecElemRegs rf; numPhysicalCCRegs := numPhysicalCCRegs rf;
          totalNumRegs := totalNumRegs rf; rf_vecMode := rf_vecMode rf |}
  else Ok rf.
Definition readVecElem (rf : PhysRegFile) (p : PhysRegId) : res Z :=
  assert! bool_decide (classValue p = VecElemClass);;
  v ← aread (vectorRegFile rf) (regIdx (pr_id p)); aread v (elemIdx (pr_id p)).
Definition setVecReg (rf : PhysRegFile) (p : PhysRegId) (val : list Z) : res PhysRegFile :=
  assert! bool_decide (classValue p = VecRegClass);;
  l ← awrite (vectorRegFile rf) (regIdx (pr_id p)) val;
  Ok {| intRegFile := intRegFile rf; intRegIds := intRegIds rf; floatRegFile := floatRegFile rf;
        floatRegIds := floatRegIds rf; vectorRegFile := l; vecRegIds := vecRegIds rf;
        vecElemIds := vecElemIds rf; ccRegFile := ccRegFile rf; ccRegIds := ccRegIds rf;
        miscRegIds := miscRegIds rf; numPhysicalIntRegs := numPhysicalIntRegs rf;
        numPhysicalFloatRegs := numPhysicalFloatRegs rf; numPhysicalVecRegs := numPhysicalVecRegs rf;
        numPhysicalVecElemRegs := numPhysicalVecElemRegs rf; numPhysicalCCRegs := numPhysicalCCRegs rf;
        totalNumRegs := totalNumRegs rf; rf_vecMode := rf_vecMode rf |}.

(** The range of ids from one iterator to another. *)
Definition id_range (ids : list PhysRegId) (lo hi : Z) : res (list PhysRegId) :=
  defined! (0 <=? lo) && (lo <=? hi) && (hi <=? Z.of_nat (length ids));;
  Ok (take (Z.to_nat (hi - lo)) (drop (Z.to_nat lo) ids)).
Definition getRegElemIds (rf : PhysRegFile) (p : PhysRegId) : res (list PhysRegId) :=
  assert! bool_decide (classValue p = VecRegClass);;
  let idx := regIdx (pr_id p) in
  id_range (vecElemIds rf) (idx * NumVecElemPerVecReg) ((idx + 1) * NumVecElemPerVecReg).
Definition getRegIds (rf : PhysRegFile) (cls : RegClass) : list PhysRegId :=
  match cls with
  | IntRegClass => intRegIds rf | FloatRegClass => floatRegIds rf | VecRegClass => vecRegIds rf
  | VecElemClass => vecElemIds rf | CCRegClass => ccRegIds rf | MiscRegClass => miscRegIds rf
  end.
Definition getTrueId (rf : PhysRegFile) (p : PhysRegId) : res PhysRegIdPtr :=
  match classValue p with
  | VecRegClass => Some <$> aread (vecRegIds rf) (regIdx (pr_id p))
  | VecElemClass =>
      Some <$> aread (vecElemIds rf) (regIdx (pr_id p) * NumVecElemPerVecReg + elemIdx (pr_id p))
  | _ => Panic
  end.

(** * Free lists *)

(** [std::queue]: [push] appends, [front] and [pop] take the head. *)
Abbreviation SimpleFreeList := (list PhysRegId).
Definition getReg (l : SimpleFreeList) : res (PhysRegId * SimpleFreeList) :=
  match l with [] => Panic | p :: l => Ok (p, l) end.

Record UnifiedFreeList := {
  intList : SimpleFreeList; floatList : SimpleFreeList; vecList : SimpleFreeList;
  vecElemList : SimpleFreeList; ccList : SimpleFreeList }.
(** The member that holds a class; the switches select it. *)
Definition free_of (c : RegClass) (fl : UnifiedFreeList) : SimpleFreeList :=
  match c with
  | IntRegClass => intList fl | FloatRegClass => floatList fl | VecRegClass => vecList fl
  | VecElemClass => vecElemList fl | CCRegClass => ccList fl | MiscRegClass => []
  end.
Definition with_free (c : RegClass) (l : SimpleFreeList) (fl : UnifiedFreeList) : UnifiedFreeList :=
  let 'Build_UnifiedFreeList i f v e cc := fl in
  match c with
  | IntRegClass => Build_UnifiedFreeList l f v e cc | FloatRegClass => Build_UnifiedFreeList i l v e cc
  | VecRegClass => Build_UnifiedFreeList i f l e cc | VecElemClass => Build_UnifiedFreeList i f v l cc
  | CCRegClass => Build_UnifiedFreeList i f v e l | MiscRegClass => fl
  end.

Definition numFree (c : RegClass) (fl : UnifiedFreeList) : Z := u32 (Z.of_nat (length (free_of c fl))).
Definition getFree (c : RegClass) (fl : UnifiedFreeList) : res (PhysRegId * UnifiedFreeList) :=
  '(p, l) ← getReg (free_of c fl); Ok (p, with_free c l fl).

Definition addReg (fl : UnifiedFreeList) (freed_reg : PhysRegIdPtr) : res UnifiedFreeList :=
  p ← deref freed_reg;
  match classValue p with
  | MiscRegClass => Panic
  | c => Ok (with_free c (free_of c fl ++ [p]) fl)
  end.
Definition addRegs (fl : UnifiedFreeList) (ids : list PhysRegId) : res UnifiedFreeList :=
  match head ids, last ids with
  | Some first, Some last =>
      assert! bool_decide (classValue first = classValue last);;
      match classValue first with
      | MiscRegClass => Panic
      | c => Ok (with_free c (free_of c fl ++ ids) fl)
      end
  | _, _ => Ok fl
  end.

(** The loops of [initFreeList] that assert the ids have their indices. *)
Definition check_ids (ids : list PhysRegId) (n : Z) : res () :=
  for_range 0 n (fun i _ => p ← aread ids i; assert! regIdx (pr_id p) =? i;; Ok ()) ().
Definition check_elems (rf : PhysRegFile) : res () :=
  for_range 0 (numPhysicalVecRegs rf) (fun i _ =>
    p ← aread (vecRegIds rf) i;
    assert! regIdx (pr_id p) =? i;;
    for_range 0 NumVecElemPerVecReg (fun e _ =>
      p ← aread (vecElemIds rf) (i * NumVecElemPerVecReg + e);
      assert! (regIdx (pr_id p) =? i) && (elemIdx (pr_id p) =? e);; Ok ()) ()) ().
Definition initFreeList (rf : PhysRegFile) (fl : UnifiedFreeList) : res UnifiedFreeList :=
  _ ← check_ids (intRegIds rf) (numPhysicalIntRegs rf);
  fl ← addRegs fl (intRegIds rf);
  _ ← check_ids (floatRegIds rf) (numPhysicalFloatRegs rf);
  fl ← addRegs fl (floatRegIds rf);
  _ ← check_elems rf;
  fl ← addRegs fl (match rf_vecMode rf with Full => vecRegIds rf | Elem => vecElemIds rf end);
  _ ← check_ids (ccRegIds rf) (numPhysicalCCRegs rf);
  addRegs fl (ccRegIds rf).
Definition UnifiedFreeList_new (rf : PhysRegFile) : res UnifiedFreeList :=
  initFreeList rf {| intList := []; floatList := []; vecList := []; vecElemList := []; ccList := [] |}.

(** * Scoreboard *)

Record Scoreboard := { regScoreBoard : list bool; numPhysRegs : Z }.
Definition Scoreboard_new (n : Z) : Scoreboard :=
  {| regScoreBoard := replicate (Z.to_nat n) true; numPhysRegs := n |}.
Definition sb_getReg (sb : Scoreboard) (phys_reg : PhysRegIdPtr) : res bool :=
  p ← deref phys_reg;
  assert! u32 (flatIdx p) <? numPhysRegs sb;;
  if isFixedMapping p then Ok true else
  ready ← aread (regScoreBoard sb) (flatIdx p);
  assert! negb (isZeroReg (pr_id p)) || ready;;
  Ok ready.
Definition sb_setReg (sb : Scoreboard) (phys_reg : PhysRegIdPtr) : res Scoreboard :=
  p ← deref phys_reg;
  assert! u32 (flatIdx p) <? numPhysRegs sb;;
  if isFixedMapping p then Ok sb else
  l ← awrite (regScoreBoard sb) (flatIdx p) true;
  Ok {| regScoreBoard := l; numPhysRegs := numPhysRegs sb |}.
Definition unsetReg (sb : Scoreboard) (phys_reg : PhysRegIdPtr) : res Scoreboard :=
  p ← deref phys_reg;
  assert! u32 (flatIdx p) <? numPhysRegs sb;;
  if isFixedMapping p then Ok sb else
  if isZeroReg (pr_id p) then Ok sb else
  l ← awrite (regScoreBoard sb) (flatIdx p) false;
  Ok {| regScoreBoard := l; numPhysRegs := numPhysRegs sb |}.

End Registers.
