(* ===== verification/RenameMap.v ===== *)
(** The rename maps of the out-of-order CPU (cpu/o3/rename_map.hh,
    cpu/o3/rename_map.cc): one table per register class, the unified map over
    them, and the change of the way vector registers are renamed. *)
From S2P Require Import Prelude PhysReg.

Section RenameMap.
Context `{RegISA}.

(** ** One class *)

(** [map]: null pointers until set; [freeList]: the list of the shared free
    list it points to, by class. *)
Record SimpleRenameMap := { map : list PhysRegIdPtr; freeList : option RegClass; zeroReg : RegId }.

Definition SimpleRenameMap_new : res SimpleRenameMap :=
  z ← RegId_new IntRegClass 0; Ok {| map := []; freeList := None; zeroReg := z |}.
Definition init_simple (m : SimpleRenameMap) (size : Z) (_freeList : RegClass) (_zeroReg : Z) : res SimpleRenameMap :=
  assert! bool_decide (freeList m = None);;
  assert! bool_decide (map m = []);;
  z ← RegId_new IntRegClass _zeroReg;
  Ok {| map := replicate (Z.to_nat size) None; freeList := Some _freeList; zeroReg := z |}.

(** The pair of the new and the previous register. *)
Abbreviation RenameInfo := (PhysRegIdPtr * PhysRegIdPtr)%type.

Definition rename_simple (m : SimpleRenameMap) (fl : UnifiedFreeList) (arch_reg : RegId)
    : res (RenameInfo * SimpleRenameMap * UnifiedFreeList) :=
  prev_reg ← aread (map m) (regIdx arch_reg);
  if negb (bool_decide (arch_reg = zeroReg m)) then
    c ← deref (freeList m);
    '(renamed_reg, fl) ← getFree c fl;
    map' ← awrite (map m) (regIdx arch_reg) (Some renamed_reg);
    Ok (Some renamed_reg, prev_reg, {| map := map'; freeList := freeList m; zeroReg := zeroReg m |}, fl)
  else
    p ← deref prev_reg;
    assert! isZeroReg (pr_id p);;
    Ok (prev_reg, prev_reg, m, fl).

Definition lookup_simple (m : SimpleRenameMap) (arch_reg : RegId) : res PhysRegIdPtr :=
  assert! flatIndex arch_reg <=? Z.of_nat (length (map m));;
  aread (map m) (flatIndex arch_reg).
Definition setEntry_simple (m : SimpleRenameMap) (arch_reg : RegId) (phys_reg : PhysRegIdPtr) : res SimpleRenameMap :=
  assert! flatIndex arch_reg <=? Z.of_nat (length (map m));;
  map' ← awrite (map m) (flatIndex arch_reg) phys_reg;
  Ok {| map := map'; freeList := freeList m; zeroReg := zeroReg m |}.
Definition numFreeEntries_simple (m : SimpleRenameMap) (fl : UnifiedFreeList) : res Z :=
  c ← deref (freeList m); Ok (numFree c fl).

(** ** All classes *)

Record UnifiedRenameMap := {
  intMap : SimpleRenameMap; floatMap : SimpleRenameMap; ccMap : SimpleRenameMap;
  vecMap : SimpleRenameMap; vecElemMap : SimpleRenameMap; vecMode : VecMode }.

Definition NVecElems : Z := NumVecElemPerVecReg.

(** [init]: [_zeroReg] of the maps without a zero register is [RegIndex(-1)]. *)
Definition init (_intZeroReg _floatZeroReg : Z) (_mode : VecMode) : res UnifiedRenameMap :=
  e ← SimpleRenameMap_new;
  i ← init_simple e NumIntRegs IntRegClass _intZeroReg;
  f ← init_simple e NumFloatRegs FloatRegClass _floatZeroReg;
  v ← init_simple e NumVecRegs VecRegClass (-1);
  ve ← init_simple e (NumVecRegs * NVecElems) VecElemClass (-1);
  cc ← init_simple e NumCCRegs CCRegClass (-1);
  Ok {| intMap := i; floatMap := f; ccMap := cc; vecMap := v; vecElemMap := ve; vecMode := _mode |}.

(** The member the switches on the register class select, and its update; the
    asserts of the vector cases on the mode. *)
Definition map_of (c : RegClass) (um : UnifiedRenameMap) : option SimpleRenameMap :=
  match c with
  | IntRegClass => Some (intMap um) | FloatRegClass => Some (floatMap um) | VecRegClass => Some (vecMap um)
  | VecElemClass => Some (vecElemMap um) | CCRegClass => Some (ccMap um) | MiscRegClass => None
  end.
Definition with_map (c : RegClass) (m : SimpleRenameMap) (um : UnifiedRenameMap) : UnifiedRenameMap :=
  let 'Build_UnifiedRenameMap i f cc v ve mode := um in
  match c with
  | IntRegClass => Build_UnifiedRenameMap m f cc v ve mode
  | FloatRegClass => Build_UnifiedRenameMap i m cc v ve mode
  | VecRegClass => Build_UnifiedRenameMap i f cc m ve mode
  | VecElemClass => Build_UnifiedRenameMap i f cc v m mode
  | CCRegClass => Build_UnifiedRenameMap i f m v ve mode
  | MiscRegClass => um
  end.
Definition mode_allows (c : RegClass) (um : UnifiedRenameMap) : bool :=
  match c with
  | VecRegClass => bool_decide (vecMode um = Full)
  | VecElemClass => bool_decide (vecMode um = Elem)
  | _ => true
  end.

Definition lookup (rf : PhysRegFile) (um : UnifiedRenameMap) (arch_reg : RegId) : res PhysRegIdPtr :=
  let c := regClass arch_reg in
  match map_of c um with
  | Some m => assert! mode_allows c um;; lookup_simple m arch_reg
  | None => Some <$> getMiscRegId rf (flatIndex arch_reg)
  end.

Definition rename (rf : PhysRegFile) (um : UnifiedRenameMap) (fl : UnifiedFreeList) (arch_reg : RegId)
    : res (RenameInfo * UnifiedRenameMap * UnifiedFreeList) :=
  let c := regClass arch_reg in
  match map_of c um with
  | Some m =>
      assert! mode_allows c um;;
      '(info, m, fl) ← rename_simple m fl arch_reg;
      Ok (info, with_map c m um, fl)
  | None =>
      phys_reg ← lookup rf um arch_reg;
      Ok ((phys_reg, phys_reg), um, fl)
  end.

Definition setEntry (rf : PhysRegFile) (um : UnifiedRenameMap) (arch_reg : RegId) (phys_reg : PhysRegIdPtr)
    : res UnifiedRenameMap :=
  let c := regClass arch_reg in
  match map_of c um with
  | Some m =>
      p ← deref phys_reg;
      assert! bool_decide (classValue p = c);;
      assert! mode_allows c um;;
      m ← setEntry_simple m arch_reg phys_reg;
      Ok (with_map c m um)
  | None =>
      p ← lookup rf um arch_reg;
      assert! bool_decide (phys_reg = p);;
      Ok um
  end.

Definition numFreeEntries (um : UnifiedRenameMap) (fl : UnifiedFreeList) : res Z :=
  i ← numFreeEntries_simple (intMap um) fl;
  f ← numFreeEntries_simple (floatMap um) fl;
  v ← numFreeEntries_simple (match vecMode um with Full => vecMap um | Elem => vecElemMap um end) fl;
  Ok (Z.min (Z.min i f) v).

Definition canRename (um : UnifiedRenameMap) (fl : UnifiedFreeList)
    (intRegs floatRegs vectorRegs vecElemRegs ccRegs : Z) : res bool :=
  i ← numFreeEntries_simple (intMap um) fl;
  f ← numFreeEntries_simple (floatMap um) fl;
  v ← numFreeEntries_simple (vecMap um) fl;
  e ← numFreeEntries_simple (vecElemMap um) fl;
  cc ← numFreeEntries_simple (ccMap um) fl;
  Ok ((intRegs <=? i) && (floatRegs <=? f) && (vectorRegs <=? v) && (vecElemRegs <=? e) && (ccRegs <=? cc)).

(** ** Changing the vector mode *)

(** The loop over the elements of the register mapped at [reg]. *)
Fixpoint split_elems (m : SimpleRenameMap) (reg i : Z) (range : list PhysRegId) : res (SimpleRenameMap * Z) :=
  match range with
  | [] => Ok (m, i)
  | p :: range =>
      r ← RegId_elem VecElemClass reg i;
      m ← setEntry_simple m r (Some p);
      split_elems m reg (i + 1) range
  end.
Fixpoint split_map (rf : PhysRegFile) (m : SimpleRenameMap) (reg : Z) (es : list PhysRegIdPtr) : res SimpleRenameMap :=
  match es with
  | [] => Ok m
  | e :: es =>
      p ← deref e;
      range ← getRegElemIds rf p;
      '(m, i) ← split_elems m reg 0 range;
      assert! i =? NVecElems;;
      split_map rf m (reg + 1) es
  end.
(** [while (freeList->hasFreeVecRegs())]: each turn takes one register. *)
Fixpoint split_free (n : nat) (rf : PhysRegFile) (fl : UnifiedFreeList) : res UnifiedFreeList :=
  match n with
  | O => match vecList fl with [] => Ok fl | _ => OutOfFuel end
  | S n =>
      match vecList fl with
      | [] => Ok fl
      | _ =>
          '(vr, fl) ← getFree VecRegClass fl;
          range ← getRegElemIds rf vr;
          fl ← addRegs fl range;
          split_free n rf fl
      end
  end.

(** The new contents of the architectural vector registers. *)
Definition stitch_reg (rf : PhysRegFile) (um : UnifiedRenameMap) (i : Z) : res (list Z) :=
  for_range 0 NVecElems (fun l dst =>
    s_rid ← RegId_elem VecElemClass i l;
    s_prid ← lookup_simple (vecElemMap um) s_rid;
    p ← deref s_prid;
    v ← readVecElem rf p;
    Ok (dst ++ [v])) [].
Definition stitch_regs (rf : PhysRegFile) (um : UnifiedRenameMap) : res (list (list Z)) :=
  for_range 0 NumVecRegs (fun i vs => v ← stitch_reg rf um i; Ok (vs ++ [v])) [].
Definition replace_regs (rf : PhysRegFile) (vs : list (list Z)) : res PhysRegFile :=
  for_range 0 NumVecRegs (fun i rf =>
    pregId ← PhysRegId_new VecRegClass i 0;
    trueId ← getTrueId rf pregId;
    p ← deref trueId;
    v ← aread vs i;
    setVecReg rf p v) rf.

Definition switchMode (rf : PhysRegFile) (um : UnifiedRenameMap) (fl : UnifiedFreeList) (newVecMode : VecMode)
    : res (PhysRegFile * UnifiedRenameMap * UnifiedFreeList) :=
  match newVecMode, vecMode um with
  | Elem, Full =>
      assert! bool_decide (vecElemList fl = []);;
      assert! numFree VecRegClass fl =? u32 (numPhysicalVecRegs rf - NumVecRegs);;
      m ← split_map rf (vecElemMap um) 0 (map (vecMap um));
      fl ← split_free (length (vecList fl)) rf fl;
      let um := with_map VecElemClass m um in
      Ok (rf, {| intMap := intMap um; floatMap := floatMap um; ccMap := ccMap um; vecMap := vecMap um;
                 vecElemMap := vecElemMap um; vecMode := Elem |}, fl)
  | Full, Elem =>
      assert! bool_decide (vecList fl = []);;
      assert! numFree VecRegClass fl =? u32 (numPhysicalVecElemRegs rf - NumFloatRegs);;
      vs ← stitch_regs rf um;
      rf ← replace_regs rf vs;
      ids ← id_range (vecRegIds rf) NumVecRegs (Z.of_nat (length (vecRegIds rf)));
      fl ← addRegs fl ids;
      let fl := with_free VecElemClass [] fl in
      Ok (rf, {| intMap := intMap um; floatMap := floatMap um; ccMap := ccMap um; vecMap := vecMap um;
                 vecElemMap := vecElemMap um; vecMode := Full |}, fl)
  | _, _ => Ok (rf, um, fl)
  end.

End RenameMap.
