(* ===== verification/Rename.v ===== *)
(** Register renaming in the out-of-order CPU: the parts of the rename stage
    (cpu/o3/rename_impl.hh) and of commit (cpu/o3/commit_impl.hh) that change the
    mapping of registers, the history buffer that undoes them, and the initial
    mapping the CPU sets up (cpu/o3/cpu.cc).  The history buffer is a [std::list];
    stepping an iterator back from its first element is undefined ([dec_iterator])
    unless the lists are circular, as those of libstdc++ are.  The theorems: physical registers are
    neither lost nor used twice, a squash undoes the renames, and every source
    operand reads the register of the last older writer. *)
From S2P Require Import Prelude PhysReg RenameMap.

Section Rename.
Context `{RegISA}.

(** ** State *)

Record RenameHistory := { instSeqNum : Z; archReg : RegId; newPhysReg : PhysRegIdPtr; prevPhysReg : PhysRegIdPtr }.

(** What the stages share: the maps and history buffers are arrays over the
    threads; [historyBuffer] has its front first. *)
Record RenameState := {
  regFile : PhysRegFile;
  fl : UnifiedFreeList;
  renameMap : list UnifiedRenameMap;
  commitRenameMap : list UnifiedRenameMap;
  historyBuffer : list (list RenameHistory);
  scoreboard : Scoreboard }.

(** What renaming records in an instruction. *)
Record DynInst := {
  seqNum : Z;
  flatDestRegs : list RegId;      (** [flattenedDestRegIdx] *)
  renamedDestRegs : list PhysRegIdPtr;  (** [renamedDestRegIdx] *)
}.

(** ** Construction of the CPU *)

(** One of the loops: architectural register [mk ridx] gets a free register of
    class [c] in both maps. *)
Definition map_arch_reg (rf : PhysRegFile) (c : RegClass) (r : RegId)
    (st : UnifiedFreeList * UnifiedRenameMap * UnifiedRenameMap) : res (UnifiedFreeList * UnifiedRenameMap * UnifiedRenameMap) :=
  let '(fl, rm, cm) := st in
  '(phys_reg, fl) ← getFree c fl;
  rm ← setEntry rf rm r (Some phys_reg);
  cm ← setEntry rf cm r (Some phys_reg);
  Ok (fl, rm, cm).
Definition map_scalars (rf : PhysRegFile) (c : RegClass) (n : Z)
    (st : UnifiedFreeList * UnifiedRenameMap * UnifiedRenameMap) :=
  for_range 0 n (fun ridx st => r ← RegId_new c ridx; map_arch_reg rf c r st) st.
Definition map_elems (rf : PhysRegFile) (st : UnifiedFreeList * UnifiedRenameMap * UnifiedRenameMap) :=
  for_range 0 NumVecRegs (fun ridx st =>
    for_range 0 NumVecElemPerVecReg (fun ldx st =>
      r ← RegId_elem VecElemClass ridx ldx; map_arch_reg rf VecElemClass r st) st) st.
Definition map_thread (rf : PhysRegFile) (mode : VecMode)
    (st : UnifiedFreeList * UnifiedRenameMap * UnifiedRenameMap) :=
  st ← map_scalars rf IntRegClass NumIntRegs st;
  st ← map_scalars rf FloatRegClass NumFloatRegs st;
  st ← match mode with Full => map_scalars rf VecRegClass NumVecRegs st | Elem => map_elems rf st end;
  map_scalars rf CCRegClass NumCCRegs st.

(** [for (tid = 0; tid < active_threads; tid++)]: [n] threads are left. *)
Fixpoint map_threads (rf : PhysRegFile) (mode : VecMode) (n : nat) (fl : UnifiedFreeList)
    (rms : list UnifiedRenameMap) : res (UnifiedFreeList * list UnifiedRenameMap * list UnifiedRenameMap) :=
  match n, rms with
  | S n, m :: rms =>
      '(fl, rm, cm) ← map_thread rf mode (fl, m, m);
      '(fl, rms, cms) ← map_threads rf mode n fl rms;
      Ok (fl, rm :: rms, cm :: cms)
  | _, _ => Ok (fl, rms, rms)
  end.

(** The register file, the free list, and the maps of [numThreads] threads, of
    which the first [active_threads] get registers. *)
Definition FullO3CPU_new (nInt nFloat nVec nCC : Z) (vecMode : VecMode) (numThreads active_threads : Z) : res RenameState :=
  rf ← PhysRegFile_new nInt nFloat nVec nCC vecMode;
  fl ← UnifiedFreeList_new rf;
  assert! (numThreads * NumIntRegs <=? nInt) && (numThreads * NumFloatRegs <=? nFloat) &&
          (numThreads * NumVecRegs <=? nVec) && (numThreads * NumCCRegs <=? nCC);;
  let fpZeroReg := if alpha_isa then ZeroReg else u16 (NumFloatRegs + 1) in
  um ← init ZeroReg fpZeroReg vecMode;
  '(fl, rms, cms) ← map_threads rf vecMode (Z.to_nat active_threads) fl (replicate (Z.to_nat numThreads) um);
  Ok {| regFile := rf; fl := fl; renameMap := rms; commitRenameMap := cms;
        historyBuffer := replicate (Z.to_nat numThreads) [];
        scoreboard := Scoreboard_new (totalNumRegs rf) |}.

(** ** Renaming an instruction *)

(** The physical register of each source operand, and whether it is ready. *)
Fixpoint renameSrcRegs (s : RenameState) (tid : Z) (flattenRegId : RegId -> RegId) (srcs : list RegId)
    : res (list (PhysRegIdPtr * bool)) :=
  match srcs with
  | [] => Ok []
  | src_reg :: srcs =>
      um ← aread (renameMap s) tid;
      renamed_reg ← lookup (regFile s) um (flattenRegId src_reg);
      assert! negb (bool_decide (regClass src_reg = VecElemClass));;
      ready ← sb_getReg (scoreboard s) renamed_reg;
      l ← renameSrcRegs s tid flattenRegId srcs;
      Ok ((renamed_reg, ready) :: l)
  end.

(** One turn of the loop of [renameDestRegs]. *)
Definition renameDestReg (s : RenameState) (tid sn : Z) (flat_dest_regid : RegId) : res (RenameState * PhysRegIdPtr) :=
  um ← aread (renameMap s) tid;
  '((new_reg, prev_reg), um, fl) ← rename (regFile s) um (fl s) flat_dest_regid;
  rms ← awrite (renameMap s) tid um;
  sb ← unsetReg (scoreboard s) new_reg;
  hb ← aread (historyBuffer s) tid;
  hbs ← awrite (historyBuffer s) tid
    ({| instSeqNum := sn; archReg := flat_dest_regid; newPhysReg := new_reg; prevPhysReg := prev_reg |} :: hb);
  Ok ({| regFile := regFile s; fl := fl; renameMap := rms; commitRenameMap := commitRenameMap s;
         historyBuffer := hbs; scoreboard := sb |}, new_reg).
Fixpoint renameDestRegs_loop (s : RenameState) (tid sn : Z) (dests : list RegId) : res (RenameState * list PhysRegIdPtr) :=
  match dests with
  | [] => Ok (s, [])
  | r :: dests =>
      '(s, p) ← renameDestReg s tid sn r;
      '(s, ps) ← renameDestRegs_loop s tid sn dests;
      Ok (s, p :: ps)
  end.
Definition renameDestRegs (s : RenameState) (tid sn : Z) (flattenRegId : RegId -> RegId) (dests : list RegId)
    : res (RenameState * DynInst) :=
  '(s, ps) ← renameDestRegs_loop s tid sn (flattenRegId <$> dests);
  Ok (s, {| seqNum := sn; flatDestRegs := flattenRegId <$> dests; renamedDestRegs := ps |}).

(** ** Undoing and retiring renames *)

Fixpoint doSquash_loop (rf : PhysRegFile) (squashed_seq_num : Z) (um : UnifiedRenameMap) (fl : UnifiedFreeList)
    (hb : list RenameHistory) : res (UnifiedRenameMap * UnifiedFreeList * list RenameHistory) :=
  match hb with
  | e :: hb' =>
      if squashed_seq_num <? instSeqNum e then
        if negb (bool_decide (newPhysReg e = prevPhysReg e)) then
          um ← setEntry rf um (archReg e) (prevPhysReg e);
          fl ← addReg fl (newPhysReg e);
          doSquash_loop rf squashed_seq_num um fl hb'
        else doSquash_loop rf squashed_seq_num um fl hb'
      else Ok (um, fl, hb)
  | [] => Ok (um, fl, hb)
  end.
Definition doSquash (s : RenameState) (squashed_seq_num tid : Z) : res RenameState :=
  um ← aread (renameMap s) tid;
  hb ← aread (historyBuffer s) tid;
  '(um, fl, hb) ← doSquash_loop (regFile s) squashed_seq_num um (fl s) hb;
  rms ← awrite (renameMap s) tid um;
  hbs ← awrite (historyBuffer s) tid hb;
  Ok {| regFile := regFile s; fl := fl; renameMap := rms; commitRenameMap := commitRenameMap s;
        historyBuffer := hbs; scoreboard := scoreboard s |}.

(** [removeFromHistory] decrements the first iterator of the list: that of the
    end when the buffer is empty, and the iterator to the last entry it erases.
    C++ leaves that undefined; [circular]: the lists of the library are circular,
    and it gives the end of the list (as with libstdc++). *)
Definition dec_iterator (circular : bool) {A} (before : list A) : res unit :=
  match before with [] => if circular then Ok tt else Ub | _ => Ok tt end.

(** The loop of [removeFromHistory], from the back: [rev_hb] is the buffer
    reversed, so the head is the oldest entry. *)
Fixpoint removeFromHistory_loop (circular : bool) (inst_seq_num : Z) (fl : UnifiedFreeList) (rev_hb : list RenameHistory)
    : res (UnifiedFreeList * list RenameHistory) :=
  match rev_hb with
  | e :: rev_hb' =>
      if instSeqNum e <=? inst_seq_num then
        fl ← (if negb (bool_decide (newPhysReg e = prevPhysReg e)) then addReg fl (prevPhysReg e) else Ok fl);
        _ ← dec_iterator circular rev_hb';
        removeFromHistory_loop circular inst_seq_num fl rev_hb'
      else Ok (fl, rev_hb)
  | [] => Ok (fl, rev_hb)
  end.
Definition removeFromHistory (circular : bool) (s : RenameState) (inst_seq_num tid : Z) : res RenameState :=
  hb ← aread (historyBuffer s) tid;
  _ ← dec_iterator circular hb;
  '(fl, rev_hb) ← removeFromHistory_loop circular inst_seq_num (fl s) (rev hb);
  hbs ← awrite (historyBuffer s) tid (rev rev_hb);
  Ok {| regFile := regFile s; fl := fl; renameMap := renameMap s; commitRenameMap := commitRenameMap s;
        historyBuffer := hbs; scoreboard := scoreboard s |}.

(** ** Commit *)

(** [commitHead]: the loop that updates the commit rename map. *)
Fixpoint commit_entries (rf : PhysRegFile) (um : UnifiedRenameMap) (dests : list RegId) (ps : list PhysRegIdPtr)
    : res UnifiedRenameMap :=
  match dests, ps with
  | r :: dests, p :: ps => um ← setEntry rf um r p; commit_entries rf um dests ps
  | _, _ => Ok um
  end.
Definition commit_inst (s : RenameState) (tid : Z) (head_inst : DynInst) : res RenameState :=
  um ← aread (commitRenameMap s) tid;
  um ← commit_entries (regFile s) um (flatDestRegs head_inst) (renamedDestRegs head_inst);
  cms ← awrite (commitRenameMap s) tid um;
  Ok {| regFile := regFile s; fl := fl s; renameMap := renameMap s; commitRenameMap := cms;
        historyBuffer := historyBuffer s; scoreboard := scoreboard s |}.

End Rename.
