(* ===== verification/RenameInv.v ===== *)
(** The invariant of register renaming for one thread: the rename map as a
    function, the history buffer that undoes it, and the relation of both to the
    program; with the loops of squash, release and commit on it. *)
From S2P Require Import Prelude PhysReg RenameMap Rename.

(** ** Lists *)

Lemma concat_insert {A B} (f : A -> list B) (l : list A) i x :
  l !! i = Some x ->
  exists rest, concat (f <$> l) ≡ₚ f x ++ rest /\ forall y, concat (f <$> <[i := y]> l) ≡ₚ f y ++ rest.
Proof.
  intros Hi. exists (concat (f <$> take i l) ++ concat (f <$> drop (S i) l)).
  assert (forall y, concat (f <$> take i l ++ y :: drop (S i) l) ≡ₚ
    f y ++ concat (f <$> take i l) ++ concat (f <$> drop (S i) l)) as E.
  { intros y. rewrite fmap_app, fmap_cons, concat_app. cbn. by rewrite !app_assoc, (Permutation_app_comm (f y)). }
  split.
  - rewrite <- (E x). by rewrite take_drop_middle.
  - intros y. rewrite <- (E y). rewrite insert_take_drop by (by eapply lookup_lt_Some). done.
Qed.

Lemma elem_of_concat_fmap {A B} (f : A -> list B) (l : list A) x :
  x ∈ concat (f <$> l) <-> exists y, y ∈ l /\ x ∈ f y.
Proof.
  induction l as [|y l IH]; cbn.
  - split; [by intros ?%not_elem_of_nil|intros (y & Hy & _); by apply not_elem_of_nil in Hy].
  - rewrite elem_of_app, IH. split.
    + intros [Hx|(z & Hz & Hx)]; [exists y|exists z]; (split; [apply elem_of_cons|done]); [by left|by right].
    + intros (z & [->|Hz]%elem_of_cons & Hx); [by left|right; by exists z].
Qed.

Lemma omap_insert {A} (l : list (option A)) i o :
  l !! i = Some o ->
  exists rest, omap id l ≡ₚ option_list o ++ rest /\ forall p, omap id (<[i := Some p]> l) ≡ₚ p :: rest.
Proof.
  intros Hi. exists (omap id (take i l) ++ omap id (drop (S i) l)).
  assert (forall y, omap id (take i l ++ y :: drop (S i) l) ≡ₚ
    option_list y ++ omap id (take i l) ++ omap id (drop (S i) l)) as E.
  { intros [y|]; rewrite omap_app; cbn; [by rewrite Permutation_middle|done]. }
  split.
  - rewrite <- E. by rewrite take_drop_middle.
  - intros y. rewrite insert_take_drop by (by eapply lookup_lt_Some). apply (E (Some y)).
Qed.

Section RenameInv.
Context `{RegISA}.

(** ** The maps as functions *)

(** What is mapped at an architectural register. *)
Definition entry (um : UnifiedRenameMap) (r : RegId) : PhysRegIdPtr :=
  match map_of (regClass r) um with Some m => mjoin (map m !! Z.to_nat (regIdx r)) | None => None end.
Definition set_entry (r : RegId) (p : PhysRegIdPtr) (um : UnifiedRenameMap) : UnifiedRenameMap :=
  match map_of (regClass r) um with
  | Some m => with_map (regClass r)
      {| map := <[Z.to_nat (regIdx r) := p]> (map m); freeList := freeList m; zeroReg := zeroReg m |} um
  | None => um
  end.

Definition class_size (c : RegClass) : Z :=
  match c with
  | IntRegClass => NumIntRegs | FloatRegClass => NumFloatRegs | VecRegClass => NumVecRegs
  | VecElemClass => 0 | CCRegClass => NumCCRegs | MiscRegClass => NumMiscRegs
  end.
(** The architectural registers, as flattened ids, when vector registers are
    renamed whole. *)
Record arch_ok (r : RegId) : Prop := {
  ao_elem : elemIdx r = u16 (-1);
  ao_idx : 0 <= regIdx r < class_size (regClass r) }.
Definition zero_reg : RegId := {| regClass := IntRegClass; regIdx := u16 ZeroReg; elemIdx := u16 (-1) |}.
(** The registers that are really renamed. *)
Definition live (r : RegId) : Prop := arch_ok r /\ regClass r <> MiscRegClass /\ r <> zero_reg.

(** The tables have the sizes and free lists [init] gives them. *)
Record um_shape (um : UnifiedRenameMap) : Prop := {
  uo_mode : vecMode um = Full;
  uo_free : forall c m, map_of c um = Some m -> freeList m = Some c;
  uo_zero : zeroReg (intMap um) = zero_reg;
  uo_nozero : forall c m, c <> IntRegClass -> map_of c um = Some m -> regClass (zeroReg m) = IntRegClass;
  uo_size : forall c m, c <> VecElemClass -> map_of c um = Some m -> length (map m) = Z.to_nat (class_size c) }.
Record um_ok (um : UnifiedRenameMap) : Prop := {
  uo_shape :> um_shape um;
  uo_some : forall r, arch_ok r -> regClass r <> MiscRegClass -> exists p, entry um r = Some p }.

#[local] Hint Extern 0 (um_shape _) => (apply uo_shape; assumption) : core.

Lemma map_of_some c um : c <> MiscRegClass -> exists m, map_of c um = Some m.
Proof. destruct c; cbn; eauto; done. Qed.

Lemma arch_ok_not_elem r : arch_ok r -> regClass r <> VecElemClass.
Proof. intros [_ Hi] E. rewrite E in Hi. cbn in Hi. lia. Qed.

Lemma arch_ok_eq r r' : arch_ok r -> arch_ok r' -> regClass r = regClass r' -> Z.to_nat (regIdx r) = Z.to_nat (regIdx r') -> r = r'.
Proof. intros [] [] ? ?. destruct r, r'; cbn in *. f_equal; [done|lia|congruence]. Qed.

Lemma map_of_with c m um : c <> MiscRegClass -> map_of c (with_map c m um) = Some m.
Proof. destruct um, c; done. Qed.
Lemma map_of_with_ne c c' m um : c <> c' -> map_of c' (with_map c m um) = map_of c' um.
Proof. destruct um, c, c'; done. Qed.
Lemma vecMode_with c m um : vecMode (with_map c m um) = vecMode um.
Proof. by destruct um, c. Qed.
Lemma with_with c m m' um : with_map c m (with_map c m' um) = with_map c m um.
Proof. by destruct um, c. Qed.
Lemma with_same c m um : map_of c um = Some m -> with_map c m um = um.
Proof. destruct um, c; cbn; congruence. Qed.

Lemma entry_map um r p : um_shape um -> arch_ok r -> entry um r = Some p ->
  exists m, map_of (regClass r) um = Some m /\ map m !! Z.to_nat (regIdx r) = Some (Some p).
Proof.
  unfold entry. intros Hu Hr. destruct (map_of _ um) as [m|]; [|done]. intros E. exists m. split; [done|].
  destruct (map m !! Z.to_nat (regIdx r)) as [[a|]|]; cbn in E; congruence.
Qed.

Lemma entry_set um r p r' :
  um_shape um -> arch_ok r -> arch_ok r' -> regClass r <> MiscRegClass ->
  entry (set_entry r p um) r' = if decide (r = r') then p else entry um r'.
Proof.
  intros Hu Hr Hr' Hm. unfold entry, set_entry. destruct (map_of_some _ um Hm) as [m Em]. rewrite Em.
  destruct (decide (regClass r = regClass r')) as [E|E].
  - rewrite <- E, map_of_with, Em by done. cbn.
    assert (Z.to_nat (regIdx r) < length (map m))%nat as Hlt.
    { rewrite (uo_size _ Hu _ _ (arch_ok_not_elem r Hr) Em). pose proof (ao_idx _ Hr). lia. }
    destruct (decide (r = r')) as [<-|Hne]; [by rewrite list_lookup_insert_eq|].
    rewrite list_lookup_insert_ne; [done|]. intros E'. by destruct Hne; apply arch_ok_eq.
  - rewrite map_of_with_ne by done. rewrite decide_False by congruence. done.
Qed.

Lemma um_shape_set um r p : um_shape um -> arch_ok r -> regClass r <> MiscRegClass -> um_shape (set_entry r p um).
Proof.
  intros Hu Hr Hm. unfold set_entry. destruct (map_of_some _ um Hm) as [m Em]. rewrite Em.
  assert (forall c m', map_of c (with_map (regClass r) {| map := <[Z.to_nat (regIdx r):=p]> (map m);
            freeList := freeList m; zeroReg := zeroReg m |} um) = Some m' ->
          exists m0, map_of c um = Some m0 /\ freeList m' = freeList m0 /\ zeroReg m' = zeroReg m0 /\
                     length (map m') = length (map m0)) as Hsame.
  { intros c m' E. destruct (decide (regClass r = c)) as [<-|Hne].
    - rewrite map_of_with in E by done. injection E as <-. exists m. cbn. by rewrite length_insert.
    - rewrite map_of_with_ne in E by done. by exists m'. }
  split.
  - rewrite vecMode_with. apply Hu.
  - intros c m' E. destruct (Hsame c m' E) as (m0 & E0 & -> & _). by apply (uo_free _ Hu).
  - destruct (Hsame IntRegClass _ eq_refl) as (m0 & E0 & _ & Ez & _). cbn in E0. injection E0 as <-.
    rewrite <- (uo_zero _ Hu), <- Ez. by destruct um.
  - intros c m' Hc E. destruct (Hsame c m' E) as (m0 & E0 & _ & -> & _). by apply (uo_nozero _ Hu c).
  - intros c m' Hc E. destruct (Hsame c m' E) as (m0 & E0 & _ & _ & ->). by apply (uo_size _ Hu).
Qed.

Lemma um_ok_set um r p : um_ok um -> arch_ok r -> regClass r <> MiscRegClass -> um_ok (set_entry r (Some p) um).
Proof.
  intros Hu Hr Hm. split; [by apply um_shape_set|]. intros r' Hr' Hm'. rewrite entry_set by done.
  destruct (decide _); [by exists p|]. by apply Hu.
Qed.

Lemma set_set um r p q : set_entry r q (set_entry r p um) = set_entry r q um.
Proof.
  unfold set_entry. destruct (map_of (regClass r) um) as [m|] eqn:Em; [|by rewrite Em].
  destruct (decide (regClass r = MiscRegClass)) as [E|Hm]; [by rewrite E in Em|].
  rewrite map_of_with by done. cbn. by rewrite with_with, list_insert_insert_eq.
Qed.
Lemma set_same um r p : um_shape um -> arch_ok r -> entry um r = Some p -> set_entry r (Some p) um = um.
Proof.
  intros Hu Hr E. destruct (entry_map _ _ _ Hu Hr E) as (m & Em & Hl). unfold set_entry. rewrite Em.
  rewrite list_insert_id by done. apply with_same. rewrite Em. by destruct m.
Qed.

(** ** The operations on the maps *)

Lemma flat_arch r : arch_ok r -> flatIndex r = regIdx r.
Proof. intros Hr. unfold flatIndex. by destruct (regClass r) eqn:E; try done; destruct (arch_ok_not_elem r Hr). Qed.

Lemma mode_arch um r : um_shape um -> arch_ok r -> mode_allows (regClass r) um = true.
Proof.
  intros Hu Hr. unfold mode_allows. destruct (regClass r) eqn:E; try done.
  - by rewrite bool_decide_eq_true, (uo_mode _ Hu).
  - by destruct (arch_ok_not_elem r Hr).
Qed.

Lemma in_map um r m : um_shape um -> arch_ok r -> map_of (regClass r) um = Some m ->
  0 <= regIdx r < Z.of_nat (length (map m)).
Proof. intros Hu Hr E. rewrite (uo_size _ Hu _ _ (arch_ok_not_elem _ Hr) E). pose proof (ao_idx _ Hr). lia. Qed.

Lemma lookup_entry rf um r : um_shape um -> arch_ok r -> regClass r <> MiscRegClass -> lookup rf um r = Ok (entry um r).
Proof.
  intros Hu Hr Hm. unfold lookup, entry. destruct (map_of_some _ um Hm) as [m Em]. rewrite Em, mode_arch by done.
  unfold lookup_simple. rewrite flat_arch by done. pose proof (in_map _ _ _ Hu Hr Em).
  rewrite (proj2 (Z.leb_le _ _)) by lia.
  destruct (aread_in_bounds (map m) (regIdx r)) as (o & Ho & Ha); [lia|]. by rewrite Ha, Ho.
Qed.

Lemma setEntry_set rf um r p : um_shape um -> arch_ok r -> regClass r <> MiscRegClass -> classValue p = regClass r ->
  setEntry rf um r (Some p) = Ok (set_entry r (Some p) um).
Proof.
  intros Hu Hr Hm Hc. unfold setEntry, set_entry. destruct (map_of_some _ um Hm) as [m Em]. rewrite Em. cbn [deref mbind res_bind].
  rewrite bool_decide_eq_true_2, mode_arch by done. unfold setEntry_simple. rewrite flat_arch by done.
  pose proof (in_map _ _ _ Hu Hr Em). rewrite (proj2 (Z.leb_le _ _)) by lia. rewrite awrite_Ok by lia. done.
Qed.

Lemma free_of_with c c' l fl : c <> MiscRegClass ->
  free_of c' (with_free c l fl) = if decide (c = c') then l else free_of c' fl.
Proof. destruct fl, c, c'; done. Qed.

Lemma addReg_ok fl p : classValue p <> MiscRegClass ->
  addReg fl (Some p) = Ok (with_free (classValue p) (free_of (classValue p) fl ++ [p]) fl).
Proof. unfold addReg. cbn. destruct (classValue p); done. Qed.

(** Renaming a register that is really renamed. *)
Lemma rename_live rf um fl r p l : um_ok um -> live r -> free_of (regClass r) fl = p :: l ->
  rename rf um fl r = Ok (Some p, entry um r, set_entry r (Some p) um, with_free (regClass r) l fl).
Proof.
  intros Hu (Hr & Hm & Hz) Hf. unfold rename, entry, set_entry. destruct (map_of_some _ um Hm) as [m Em]. rewrite Em, mode_arch by done.
  unfold rename_simple. pose proof (in_map _ _ _ Hu Hr Em).
  destruct (aread_in_bounds (map m) (regIdx r)) as (o & Ho & Ha); [lia|]. rewrite Ha. cbn [mbind res_bind].
  rewrite bool_decide_eq_false_2.
  2: { intros ->. destruct (decide (regClass (zeroReg m) = IntRegClass)) as [E|E].
       - rewrite E in Em. cbn in Em. injection Em as <-. by rewrite (uo_zero _ Hu) in Hz.
       - by rewrite (uo_nozero _ Hu _ _ E Em) in E. }
  cbn [negb]. rewrite (uo_free _ Hu _ _ Em). cbn [deref mbind res_bind]. unfold getFree. rewrite Hf.
  cbn [getReg mbind res_bind]. rewrite awrite_Ok by lia. cbn [mbind res_bind].
  by rewrite Ho.
Qed.

Lemma rename_zero rf um fl p : um_ok um -> arch_ok zero_reg -> entry um zero_reg = Some p -> isZeroReg (pr_id p) = true ->
  rename rf um fl zero_reg = Ok (Some p, Some p, um, fl).
Proof.
  intros Hu Hr He Hz. destruct (entry_map _ _ _ Hu Hr He) as (m & Em & Hl). unfold rename.
  rewrite mode_arch by done. rewrite Em. cbn [regClass zero_reg] in *. cbn in Em. injection Em as Em.
  unfold rename_simple. rewrite (aread_Ok _ _ (Some p)) by (apply Hr || done). cbn [mbind res_bind].
  rewrite <- Em, (uo_zero _ Hu). cbn [regIdx zero_reg]. rewrite bool_decide_eq_true_2 by done. cbn [negb deref mbind res_bind].
  rewrite Hz. cbn [mbind res_bind]. by rewrite with_same.
Qed.

Lemma rename_misc rf um fl r : regClass r = MiscRegClass ->
  rename rf um fl r = (p ← getMiscRegId rf (regIdx r); Ok (Some p, Some p, um, fl)).
Proof.
  intros E. unfold rename, lookup. rewrite E. cbn [map_of]. unfold flatIndex. rewrite E.
  by destruct (getMiscRegId rf (regIdx r)).
Qed.

Lemma setEntry_misc rf um r p : regClass r = MiscRegClass -> getMiscRegId rf (regIdx r) = Ok p ->
  setEntry rf um r (Some p) = Ok um.
Proof.
  intros E Hp. unfold setEntry, lookup. rewrite E. cbn [map_of]. unfold flatIndex. rewrite E, Hp. cbn.
  by rewrite bool_decide_eq_true_2.
Qed.


(** ** The history buffer *)

Definition real (e : RenameHistory) : bool := negb (bool_decide (newPhysReg e = prevPhysReg e)).
Definition undo1 (e : RenameHistory) (um : UnifiedRenameMap) : UnifiedRenameMap :=
  if real e then set_entry (archReg e) (prevPhysReg e) um else um.
Fixpoint undo (es : list RenameHistory) (um : UnifiedRenameMap) : UnifiedRenameMap :=
  match es with [] => um | e :: es => undo es (undo1 e um) end.

Definition typed (um : UnifiedRenameMap) : Prop :=
  forall r p, arch_ok r -> entry um r = Some p -> classValue p = regClass r.

(** An entry whose newest map is [um]: a real rename, or one of the registers
    that keep their mapping. *)
Definition entry_ok (rf : PhysRegFile) (um : UnifiedRenameMap) (e : RenameHistory) : Prop :=
  arch_ok (archReg e) /\
  if real e then live (archReg e) /\ entry um (archReg e) = newPhysReg e /\
    exists p, prevPhysReg e = Some p /\ classValue p = regClass (archReg e)
  else (archReg e = zero_reg /\ newPhysReg e = entry um zero_reg) \/
       (regClass (archReg e) = MiscRegClass /\
        exists p, getMiscRegId rf (regIdx (archReg e)) = Ok p /\ newPhysReg e = Some p).
Fixpoint hist_ok (rf : PhysRegFile) (um : UnifiedRenameMap) (hb : list RenameHistory) : Prop :=
  match hb with [] => True | e :: hb => entry_ok rf um e /\ hist_ok rf (undo1 e um) hb end.

(** The registers of class [c] that the real entries put away and took. *)
Definition prev_of (c : RegClass) (e : RenameHistory) : list PhysRegId :=
  if real e && bool_decide (regClass (archReg e) = c) then option_list (prevPhysReg e) else [].
Definition new_of (c : RegClass) (e : RenameHistory) : list PhysRegId :=
  if real e && bool_decide (regClass (archReg e) = c) then option_list (newPhysReg e) else [].
Definition prevs (c : RegClass) (hb : list RenameHistory) : list PhysRegId := concat (prev_of c <$> hb).
Definition news (c : RegClass) (hb : list RenameHistory) : list PhysRegId := concat (new_of c <$> hb).
Definition mapped (c : RegClass) (um : UnifiedRenameMap) : list PhysRegId :=
  match map_of c um with Some m => omap id (map m) | None => [] end.

Lemma mapped_set um r c :
  um_shape um -> arch_ok r -> regClass r <> MiscRegClass ->
  exists rest, mapped c um ≡ₚ (if decide (regClass r = c) then option_list (entry um r) else []) ++ rest /\
    forall p, mapped c (set_entry r (Some p) um) ≡ₚ (if decide (regClass r = c) then [p] else []) ++ rest.
Proof.
  intros Hu Hr Hm. destruct (map_of_some _ um Hm) as [m Em]. unfold entry. rewrite Em.
  destruct (decide (regClass r = c)) as [<-|Hne].
  - pose proof (in_map _ _ _ Hu Hr Em) as Hi.
    destruct (lookup_lt_is_Some_2 (map m) (Z.to_nat (regIdx r))) as [o Ho]; [lia|].
    destruct (omap_insert _ _ _ Ho) as (rest & H1 & H2). exists rest. unfold mapped, set_entry. rewrite Em, Ho. split; [done|].
    intros p. rewrite map_of_with by done. cbn. apply H2.
  - exists (mapped c um). split; [done|]. intros p. unfold mapped, set_entry. rewrite Em, map_of_with_ne by done. done.
Qed.

Lemma mapped_elem um r p : um_ok um -> arch_ok r -> entry um r = Some p -> p ∈ mapped (regClass r) um.
Proof.
  intros Hu Hr He. destruct (entry_map _ _ _ Hu Hr He) as (m & Em & Hl). unfold mapped. rewrite Em.
  apply list_elem_of_omap. exists (Some p). split; [by eapply list_elem_of_lookup_2|done].
Qed.

Lemma um_ok_undo1 rf um e : um_ok um -> entry_ok rf um e -> um_ok (undo1 e um).
Proof.
  intros Hu [Hr He]. unfold undo1. destruct (real e); [|done]. destruct He as ((_ & Hm & _) & _ & p & -> & _).
  by apply um_ok_set.
Qed.
Lemma typed_undo1 rf um e : um_ok um -> typed um -> entry_ok rf um e -> typed (undo1 e um).
Proof.
  intros Hu Ht [Hr He]. unfold undo1. destruct (real e); [|done].
  destruct He as ((_ & Hm & _) & _ & p & -> & Hp). intros r q Hr' Hq. rewrite entry_set in Hq by done.
  destruct (decide _) as [<-|]; [congruence|by apply Ht].
Qed.

(** Undoing moves registers from the map back to the history's place. *)
Lemma mapped_undo1 rf um e c : um_ok um -> entry_ok rf um e ->
  mapped c um ++ prev_of c e ≡ₚ mapped c (undo1 e um) ++ new_of c e.
Proof.
  intros Hu [Hr He]. unfold undo1, prev_of, new_of. destruct (real e); cbn [andb]; [|done].
  destruct He as ((_ & Hm & _) & Hn & p & Hp & _). rewrite Hp.
  destruct (uo_some _ Hu _ Hr Hm) as [q Hq]. rewrite <- Hn, Hq. cbn [option_list].
  destruct (mapped_set um _ c Hu Hr Hm) as (rest & H1 & H2). rewrite H1, (H2 p), Hq.
  destruct (decide _) as [E|E]; [rewrite bool_decide_eq_true_2 by done|by rewrite bool_decide_eq_false_2].
  rewrite (Permutation_app_comm _ [p]), (Permutation_app_comm _ [q]). cbn. apply perm_swap.
Qed.

Lemma doSquash_loop_ok rf n es : forall um fl hb,
  um_ok um -> typed um -> hist_ok rf um (es ++ hb) ->
  Forall (fun e => n < instSeqNum e) es -> Forall (fun e => instSeqNum e <= n) hb ->
  exists fl', doSquash_loop rf n um fl (es ++ hb) = Ok (undo es um, fl', hb) /\
    um_ok (undo es um) /\ typed (undo es um) /\ hist_ok rf (undo es um) hb /\
    (forall c, free_of c fl' = free_of c fl ++ news c es) /\
    (forall c, mapped c um ++ prevs c es ≡ₚ mapped c (undo es um) ++ news c es).
Proof.
  induction es as [|e es IH]; intros um fl hb Hu Ht Hh Hs Hb; cbn [app undo].
  - exists fl. destruct hb as [|e hb]; cbn; [|inversion_clear Hb; rewrite (proj2 (Z.ltb_ge _ _)) by lia];
      (split; [done|]; repeat (split; [done|]); split; intros c; by rewrite app_nil_r).
  - cbn [app hist_ok] in Hh. destruct Hh as [He Hh]. inversion_clear Hs as [|? ? Hn Hs'].
    pose proof (um_ok_undo1 _ _ _ Hu He) as Hu'. pose proof (typed_undo1 _ _ _ Hu Ht He) as Ht'.
    cbn [doSquash_loop]. rewrite (proj2 (Z.ltb_lt _ _)) by lia.
    pose proof (fun c => mapped_undo1 rf um e c Hu He) as Hmap.
    destruct He as [Hr He]. change (negb (bool_decide (newPhysReg e = prevPhysReg e))) with (real e).
    unfold undo1 in *. destruct (real e) eqn:Ereal.
    + destruct He as (Hl & Hn' & p & Hp & Hc). destruct Hl as (_ & Hm & Hz).
      destruct (uo_some _ Hu _ Hr Hm) as [q Hq]. rewrite Hp, setEntry_set by done. cbn [mbind res_bind].
      rewrite <- Hn', Hq. rewrite addReg_ok by (by rewrite (Ht _ _ Hr Hq)). cbn [mbind res_bind].
      rewrite Hp in *.
      destruct (IH _ (with_free (classValue q) (free_of (classValue q) fl ++ [q]) fl) hb Hu' Ht' Hh Hs' Hb)
        as (fl' & -> & H1 & H2 & H3 & H4 & H5).
      exists fl'. split; [done|]. repeat (split; [done|]). split; intros c.
      * rewrite H4, free_of_with by (by rewrite (Ht _ _ Hr Hq)). rewrite (Ht _ _ Hr Hq).
        unfold news. rewrite fmap_cons. cbn [concat]. unfold new_of at 2. rewrite Ereal, <- Hn', Hq. cbn [andb option_list].
        destruct (decide _) as [<-|]; [rewrite bool_decide_eq_true_2 by done; by rewrite <- app_assoc|].
        by rewrite bool_decide_eq_false_2.
      * unfold news, prevs in *. rewrite !fmap_cons. cbn [concat]. rewrite app_assoc, Hmap.
        rewrite <- app_assoc, (Permutation_app_comm (new_of c e)), app_assoc, H5.
        by rewrite <- app_assoc, (Permutation_app_comm (new_of c e)).
    + destruct (IH _ fl hb Hu' Ht' Hh Hs' Hb) as (fl' & -> & H1 & H2 & H3 & H4 & H5).
      exists fl'. split; [done|]. repeat (split; [done|]).
      unfold news, prevs in *. split; intros c; rewrite !fmap_cons; cbn [concat]; unfold new_of at 1; try unfold prev_of at 1; rewrite Ereal; cbn; auto.
Qed.

Lemma hist_ok_app rf a : forall um b, hist_ok rf um (a ++ b) <-> hist_ok rf um a /\ hist_ok rf (undo a um) b.
Proof. induction a as [|e a IH]; intros um b; cbn; [tauto|]. rewrite IH. tauto. Qed.

Lemma undo_app a : forall um b, undo (a ++ b) um = undo b (undo a um).
Proof. induction a as [|e a IH]; intros um b; cbn; auto. Qed.

Lemma undo_ok rf es : forall um, um_ok um -> typed um -> hist_ok rf um es -> um_ok (undo es um) /\ typed (undo es um).
Proof.
  induction es as [|e es IH]; intros um Hu Ht Hh; [done|]. destruct Hh as [He Hh]. cbn [undo].
  apply IH; [by eapply um_ok_undo1|by eapply typed_undo1|done].
Qed.

Definition put_away (e : RenameHistory) : Prop :=
  real e = true -> exists p, prevPhysReg e = Some p /\ classValue p = regClass (archReg e) /\ classValue p <> MiscRegClass.

Lemma hist_put_away rf hb : forall um, hist_ok rf um hb -> Forall put_away hb.
Proof.
  induction hb as [|e hb IH]; intros um Hh; [done|]. destruct Hh as [[Hr He] Hh]. apply Forall_cons. split; [|by eapply IH].
  intros E. rewrite E in He. destruct He as ((_ & Hm & _) & _ & p & Hp & Hc). exists p. by rewrite Hc.
Qed.

(** Where lists are not circular an entry must stay. *)
Definition stays (circular : bool) (n : Z) (l : list RenameHistory) : Prop := circular = true \/ Exists (fun e => n < instSeqNum e) l.

Lemma dec_iterator_ok circular n l : stays circular n l -> dec_iterator circular l = Ok tt.
Proof. intros [->|Hex]; [by destruct l|]. by destruct Hex. Qed.

Lemma removeFromHistory_loop_ok circular n l : forall fl,
  Forall put_away l -> stays circular n l ->
  exists fl' gone rest, l = gone ++ rest /\ removeFromHistory_loop circular n fl l = Ok (fl', rest) /\
    Forall (fun e => instSeqNum e <= n) gone /\ forall c, free_of c fl' = free_of c fl ++ prevs c gone.
Proof.
  induction l as [|e l IH]; intros fl Hl Hst; cbn [removeFromHistory_loop].
  { exists fl, [], []. repeat (split; [done|]). intros c. by rewrite app_nil_r. }
  inversion_clear Hl as [|? ? He Hl'].
  destruct (Z.leb_spec (instSeqNum e) n) as [Hn|Hn].
  2: { exists fl, [], (e :: l). repeat (split; [done|]). intros c. by rewrite app_nil_r. }
  assert (stays circular n l) as Hst' by (destruct Hst as [?|[?|?]%Exists_cons]; [by left|lia|by right]).
  change (negb (bool_decide (newPhysReg e = prevPhysReg e))) with (real e). destruct (real e) eqn:Ereal.
  - destruct (He Ereal) as (p & Hp & Hc & Hm). rewrite Hp, addReg_ok by done. cbn [mbind res_bind].
    rewrite (dec_iterator_ok circular n l Hst'). cbn [mbind res_bind].
    destruct (IH (with_free (classValue p) (free_of (classValue p) fl ++ [p]) fl) Hl' Hst') as (fl' & gone & rest & -> & -> & Hg & Hf).
    exists fl', (e :: gone), rest. split; [done|]. split; [done|]. split; [by apply Forall_cons|].
    intros c. rewrite Hf, free_of_with by done. unfold prevs. rewrite fmap_cons. cbn [concat]. unfold prev_of at 2.
    rewrite Ereal, Hp, <- Hc. cbn [andb option_list].
    destruct (decide _) as [<-|]; [rewrite bool_decide_eq_true_2 by done; by rewrite <- app_assoc|].
    by rewrite bool_decide_eq_false_2.
  - cbn [mbind res_bind]. rewrite (dec_iterator_ok circular n l Hst'). cbn [mbind res_bind].
    destruct (IH fl Hl' Hst') as (fl' & gone & rest & -> & -> & Hg & Hf).
    exists fl', (e :: gone), rest. split; [done|]. split; [done|]. split; [by apply Forall_cons|].
    intros c. rewrite Hf. unfold prevs. rewrite fmap_cons. cbn [concat]. unfold prev_of at 2. by rewrite Ereal.
Qed.

(** Committing the entries of an instruction redoes, on the commit map, what
    undoing them takes back. *)
Lemma commit_entries_app rf rs ps rs' ps' um : length rs = length ps ->
  commit_entries rf um (rs ++ rs') (ps ++ ps') = (um ← commit_entries rf um rs ps; commit_entries rf um rs' ps').
Proof.
  revert ps um. induction rs as [|r rs IH]; intros [|p ps] um E; cbn in *; try done.
  destruct (setEntry rf um r p); cbn; try done. apply IH. lia.
Qed.

Definition same_view (um um' : UnifiedRenameMap) : Prop := forall r, arch_ok r -> entry um r = entry um' r.

Lemma setEntry_redo rf um cm e : um_ok um -> typed um -> um_ok cm -> entry_ok rf um e -> same_view cm (undo1 e um) ->
  exists cm', setEntry rf cm (archReg e) (newPhysReg e) = Ok cm' /\ um_ok cm' /\ same_view cm' um.
Proof.
  intros Hu Ht Hc [Hr He] Hv. unfold undo1 in Hv. destruct (real e).
  - destruct He as ((_ & Hm & _) & Hn & p & Hp & _). destruct (uo_some _ Hu _ Hr Hm) as [q Hq].
    rewrite <- Hn, Hq. rewrite setEntry_set by (done || by apply Ht). eexists. split; [done|]. split; [by apply um_ok_set|].
    intros r Hr'. rewrite entry_set by done. destruct (decide _) as [<-|Hne]; [done|].
    rewrite Hv, entry_set by done. by rewrite decide_False.
  - destruct He as [[E ->]|(Hm & p & Hp & ->)].
    + rewrite E in *. assert (regClass zero_reg <> MiscRegClass) as Hm by done.
      destruct (uo_some _ Hu _ Hr Hm) as [q Hq]. rewrite Hq, setEntry_set by (done || by apply Ht).
      rewrite set_same by (done || by rewrite Hv). by exists cm.
    + rewrite (setEntry_misc _ _ _ p) by done. by exists cm.
Qed.

Lemma commit_redo rf es : forall um cm, um_ok um -> typed um -> um_ok cm -> hist_ok rf um es -> same_view cm (undo es um) ->
  exists cm', commit_entries rf cm (archReg <$> rev es) (newPhysReg <$> rev es) = Ok cm' /\ um_ok cm' /\ same_view cm' um.
Proof.
  induction es as [|e es IH]; intros um cm Hu Ht Hc Hh Hv; [by exists cm|]. destruct Hh as [He Hh]. cbn [undo rev] in *.
  destruct (IH _ cm (um_ok_undo1 _ _ _ Hu He) (typed_undo1 _ _ _ Hu Ht He) Hc Hh Hv) as (cm1 & E1 & H1 & V1).
  rewrite !fmap_app, commit_entries_app by (by rewrite !length_fmap). rewrite E1. cbn.
  destruct (setEntry_redo rf um cm1 e Hu Ht H1 He V1) as (cm' & E & H2 & V2). rewrite E. by exists cm'.
Qed.

(** ** The program's view

    An instruction in flight: what renaming recorded in it, the physical registers
    its sources read, and the values it computes for its destinations. *)
Context {V : Type}.

Record InFlight := { if_inst : DynInst; if_srcs : list (RegId * PhysRegIdPtr); if_writes : list (RegId * V) }.
(** A thread of the program: the instructions in flight, newest first, the writes
    of the committed ones, newest first, the last committed sequence number, and
    the values the registers had at the start. *)
Record Thread := { rob : list InFlight; retired : list (RegId * V); done_sn : Z; initial : RegId -> V }.

(** The sequential meaning: the value of a register after the writes [ws]. *)
Fixpoint value_after (init : RegId -> V) (ws : list (RegId * V)) (r : RegId) : V :=
  match ws with
  | [] => init r
  | (r', v) :: ws => if decide (r' = r) then v else value_after init ws r
  end.
Definition pending (l : list InFlight) : list (RegId * V) := concat ((fun i => rev (if_writes i)) <$> l).

(** The values in the physical registers are those of the program, now and after
    undoing any number of renames. *)
Definition shows (contents : PhysRegId -> V) (um : UnifiedRenameMap) (A : RegId -> V) : Prop :=
  forall r, live r -> exists p, entry um r = Some p /\ contents p = A r.
Fixpoint vals_ok (contents : PhysRegId -> V) (init : RegId -> V) (um : UnifiedRenameMap)
    (hb : list RenameHistory) (ws : list (RegId * V)) : Prop :=
  shows contents um (value_after init ws) /\
  match hb with
  | [] => True
  | e :: hb => match ws with
      | [] => False
      | (r, _) :: ws => archReg e = r /\ vals_ok contents init (undo1 e um) hb ws
      end
  end.

Definition inst_ok (i : InFlight) (es : list RenameHistory) : Prop :=
  Forall (fun e => instSeqNum e = seqNum (if_inst i)) es /\
  flatDestRegs (if_inst i) = archReg <$> rev es /\ renamedDestRegs (if_inst i) = newPhysReg <$> rev es /\
  (if_writes i).*1 = archReg <$> rev es.
(** The history holds the entries of the instructions in flight, over those of
    committed ones; undoing the former gives the commit map [cm]. *)
Fixpoint rob_ok (cm : UnifiedRenameMap) (cs : Z) (um : UnifiedRenameMap) (hb : list RenameHistory) (l : list InFlight) : Prop :=
  match l with
  | [] => same_view cm um /\ Forall (fun e => instSeqNum e <= cs) hb
  | i :: l => exists es hb', hb = es ++ hb' /\ inst_ok i es /\
      Forall (fun '(r, p) => live r -> entry (undo es um) r = p) (if_srcs i) /\
      cs < seqNum (if_inst i) /\ Forall (fun j => seqNum (if_inst j) < seqNum (if_inst i)) l /\
      rob_ok cm cs (undo es um) hb' l
  end.

Lemma shows_frame c c' um A :
  shows c um A -> (forall r p, live r -> entry um r = Some p -> c' p = c p) -> shows c' um A.
Proof. intros Hs Hc r Hr. destruct (Hs r Hr) as (p & He & <-). exists p. split; [done|by eapply Hc]. Qed.

Lemma vals_frame rf c c' init hb : forall um ws,
  um_ok um -> hist_ok rf um hb -> vals_ok c init um hb ws ->
  (forall r p, live r -> entry um r = Some p -> c' p = c p) ->
  (forall e p, e ∈ hb -> real e = true -> prevPhysReg e = Some p -> c' p = c p) ->
  vals_ok c' init um hb ws.
Proof.
  induction hb as [|e hb IH]; intros um ws Hu Hh Hv Hm Hp; (split; [by eapply shows_frame; [apply Hv|]|]); [done|].
  destruct ws as [|[r v] ws]; [by destruct Hv|]. destruct Hv as (_ & E & Hv). split; [done|]. destruct Hh as [He Hh].
  apply IH; try done.
  - by eapply um_ok_undo1.
  - intros r' p Hr' Hp'. unfold undo1 in Hp'. destruct (real e) eqn:Ereal; [|by eapply Hm].
    destruct He as [Hr He]. rewrite Ereal in He. destruct He as ((_ & Hmi & _) & _ & q & Hq & _).
    rewrite entry_set in Hp' by (done || apply Hr'). destruct (decide _) as [<-|]; [|by eapply Hm].
    apply (Hp e p); [apply elem_of_cons; by left|done|done].
  - intros e' p He'. apply Hp. apply elem_of_cons. by right.
Qed.

Lemma vals_app_l c init a : forall um b ws, vals_ok c init um (a ++ b) ws -> vals_ok c init um a ws.
Proof.
  induction a as [|e a IH]; intros um b ws Hv.
  - split; [|done]. by destruct b; destruct Hv.
  - destruct Hv as [Hs Hv]. split; [done|]. destruct ws as [|[r v] ws]; [done|]. destruct Hv as [E Hv].
    split; [done|]. by eapply IH.
Qed.

Lemma vals_undo c init a : forall um b ws1 ws2, length a = length ws1 ->
  vals_ok c init um (a ++ b) (ws1 ++ ws2) -> vals_ok c init (undo a um) b ws2.
Proof.
  induction a as [|e a IH]; intros um b [|[r v] ws1] ws2 E Hv; cbn in *; try done. destruct Hv as (_ & _ & Hv).
  apply (IH _ _ ws1); [lia|done].
Qed.

Lemma inst_ok_length i es : inst_ok i es -> length es = length (if_writes i).
Proof. intros (_ & _ & _ & E). rewrite <- (length_fmap fst), E, length_fmap, length_rev. done. Qed.

Lemma rob_ok_entries cm cs n l : forall um hb, rob_ok cm cs um hb l -> cs <= n ->
  Forall (fun i => seqNum (if_inst i) <= n) l -> Forall (fun e => instSeqNum e <= n) hb.
Proof.
  induction l as [|i l IH]; intros um hb Hr Hn Hl; cbn in Hr.
  - destruct Hr as [_ Hr]. eapply Forall_impl; [done|]. cbn. lia.
  - destruct Hr as (es & hb' & -> & (Hs & _) & _ & _ & _ & Hr). inversion_clear Hl. apply Forall_app. split.
    + eapply Forall_impl; [done|]. cbn. lia.
    + by eapply IH.
Qed.

(** What a squash undoes. *)
Lemma rob_squash cm cs n l : forall um hb, rob_ok cm cs um hb l -> cs <= n ->
  exists es hb' ws, hb = es ++ hb' /\ Forall (fun e => n < instSeqNum e) es /\ Forall (fun e => instSeqNum e <= n) hb' /\
    rob_ok cm cs (undo es um) hb' (filter (fun i => seqNum (if_inst i) <= n) l) /\
    length es = length ws /\ pending l = ws ++ pending (filter (fun i => seqNum (if_inst i) <= n) l).
Proof.
  induction l as [|i l IH]; intros um hb Hr Hn.
  - exists [], hb, []. destruct Hr as [Hv Hf]. split_and!; try done; [eapply Forall_impl; [done|]; cbn; lia].
  - pose proof Hr as Hr'. destruct Hr as (es & hb' & -> & Hi & Hs & Hcs & Hl & Hr). rewrite filter_cons.
    destruct (decide (seqNum (if_inst i) <= n)) as [Hle|Hgt].
    + assert (Forall (fun j => seqNum (if_inst j) <= n) l) as Hl' by (eapply Forall_impl; [done|]; cbn; lia).
      rewrite filter_all by done. exists [], (es ++ hb'), []. split_and!; try done.
      eapply rob_ok_entries; [done|done|by apply Forall_cons].
    + destruct (IH _ _ Hr Hn) as (es' & hb2 & ws & -> & H1 & H2 & H3 & H4 & H5).
      exists (es ++ es'), hb2, (rev (if_writes i) ++ ws). rewrite app_assoc, undo_app. split_and!; try done.
      * apply Forall_app. split; [|done]. destruct Hi as (Hsn & _). eapply Forall_impl; [done|]. cbn. lia.
      * by rewrite !length_app, length_rev, (inst_ok_length _ _ Hi), H4.
      * unfold pending in *. rewrite fmap_cons. cbn [concat]. by rewrite H5, app_assoc.
Qed.

(** What a commit of the oldest instruction does. *)
Lemma rob_commit rf cm cs i l : forall um hb, rob_ok cm cs um hb (l ++ [i]) ->
  um_ok um -> typed um -> um_ok cm -> hist_ok rf um hb ->
  exists cm', commit_entries rf cm (flatDestRegs (if_inst i)) (renamedDestRegs (if_inst i)) = Ok cm' /\
    um_ok cm' /\ rob_ok cm' (seqNum (if_inst i)) um hb l.
Proof.
  induction l as [|j l IH]; intros um hb Hr Hu Ht Hc Hh; cbn [app rob_ok] in Hr.
  - destruct Hr as (es & hb' & -> & (Hsn & -> & -> & _) & _ & Hcs & _ & Hv & Hf). apply hist_ok_app in Hh as [Hh _].
    destruct (commit_redo rf es um cm Hu Ht Hc Hh Hv) as (cm' & E & H1 & H2).
    exists cm'. split; [done|]. split; [done|]. split; [done|]. apply Forall_app. split.
    + eapply Forall_impl; [done|]. cbn. lia.
    + eapply Forall_impl; [done|]. cbn. lia.
  - destruct Hr as (es & hb' & -> & Hj & Hs & Hcs & Hl & Hr). apply hist_ok_app in Hh as [Hh1 Hh2].
    destruct (undo_ok rf es um Hu Ht Hh1) as [Hu' Ht'].
    destruct (IH _ _ Hr Hu' Ht' Hc Hh2) as (cm' & E & H1 & H2). exists cm'. split; [done|]. split; [done|].
    apply Forall_app in Hl as [Hl Hi]. inversion_clear Hi. exists es, hb'. split_and!; done.
Qed.

Lemma rob_release cm cs old l : forall um hb, rob_ok cm cs um (hb ++ old) l ->
  Forall (fun e => instSeqNum e <= cs) old -> rob_ok cm cs um hb l.
Proof.
  induction l as [|i l IH]; intros um hb Hr Ho.
  - destruct Hr as [Hv Hf]. split; [done|]. by apply Forall_app in Hf as [Hf _].
  - destruct Hr as (es & hb' & E & Hi & Hs & Hcs & Hl & Hr).
    apply app_eq_app in E as (k & [[-> ->]|[-> ->]]).
    + exists es, k. split_and!; try done. by apply IH.
    + assert (k = []) as ->.
      { destruct k as [|e k]; [done|]. destruct Hi as (Hsn & _). apply Forall_app in Hsn as [_ Hsn].
        inversion_clear Hsn. cbn in Ho. inversion_clear Ho. lia. }
      rewrite app_nil_r in *. exists hb, []. rewrite app_nil_r. split_and!; try done. by apply IH.
Qed.

Lemma vals_ok_shows c init um hb ws : vals_ok c init um hb ws -> shows c um (value_after init ws).
Proof. by destruct hb; intros [? _]. Qed.

End RenameInv.
