(* ===== verification/RenameTheorems.v ===== *)
(** Register renaming is correct: from the state the CPU starts in, renaming,
    squashing, committing and releasing instructions the processor may issue
    ([enabled]) never fails, every physical register stays in exactly one place, and
    the registers hold the values of the program. *)
From S2P Require Import Prelude PhysReg RenameMap Rename RenameInv.

(** What the proofs use of the instruction set. *)
Class RegISALaws `{RegISA} : Prop := {
  not_alpha : alpha_isa = false;
  zero_in_range : 0 <= ZeroReg < NumIntRegs;
  sizes_ok c : 0 <= class_size c < 2 ^ 16;
  elems_ok : 0 < NumVecElemPerVecReg < 2 ^ 16;
  misc_some : 0 < NumMiscRegs }.
#[export] Instance arm_laws : @RegISALaws arm_registers.
Proof. split; [done|cbn; lia|intros []; cbn; lia|cbn; lia|cbn; lia]. Qed.

Section RenameTheorems.
Context `{RegISALaws} {V : Type}.

#[local] Hint Extern 0 (um_shape _) => (apply uo_shape; assumption) : core.

Lemma zero_arch : arch_ok zero_reg.
Proof.
  split; [done|]. pose proof zero_in_range. pose proof (sizes_ok IntRegClass). cbn in *.
  rewrite wrap_u_id; lia.
Qed.
Lemma zero_idx : regIdx zero_reg = ZeroReg.
Proof. pose proof zero_in_range. pose proof (sizes_ok IntRegClass). cbn in *. rewrite wrap_u_id; lia. Qed.

Lemma isZeroReg_iff r : isZeroReg r = true <-> regClass r = IntRegClass /\ regIdx r = ZeroReg.
Proof.
  unfold isZeroReg. rewrite not_alpha. cbn [andb]. rewrite orb_false_r, andb_true_iff, bool_decide_eq_true, Z.eqb_eq. done.
Qed.

(** ** The invariant of the shared state *)

(** The physical registers of a class that are renamed. *)
Definition pool (c : RegClass) (rf : PhysRegFile) : list PhysRegId :=
  match c with VecElemClass | MiscRegClass => [] | _ => getRegIds rf c end.

Record file_ok (rf : PhysRegFile) : Prop := {
  fo_class c p : p ∈ getRegIds rf c -> classValue p = c;
  fo_nodup c : NoDup (pool c rf);
  fo_zero p q : p ∈ intRegIds rf -> q ∈ intRegIds rf -> regIdx (pr_id p) = regIdx (pr_id q) -> p = q;
  fo_flat c c' p q : p ∈ pool c rf -> q ∈ pool c' rf -> flatIdx p = flatIdx q -> p = q;
  fo_range c p : p ∈ getRegIds rf c -> 0 <= flatIdx p < totalNumRegs rf;
  fo_total : totalNumRegs rf < 2 ^ 32;
  fo_misc i : 0 <= i < NumMiscRegs -> exists p, getMiscRegId rf i = Ok p /\ p ∈ miscRegIds rf }.

Record sb_ok (rf : PhysRegFile) (sb : Scoreboard) : Prop := {
  so_num : numPhysRegs sb = totalNumRegs rf;
  so_len : Z.of_nat (length (regScoreBoard sb)) = totalNumRegs rf;
  so_zero p : p ∈ intRegIds rf -> isZeroReg (pr_id p) = true -> regScoreBoard sb !! Z.to_nat (flatIdx p) = Some true }.

(** Each physical register of class [c] is free, mapped, or put away in a history
    buffer, and in one place only. *)
Definition conserved (s : RenameState) (c : RegClass) : Prop :=
  free_of c (fl s) ++ concat (mapped c <$> renameMap s) ++ concat (prevs c <$> historyBuffer s) ≡ₚ pool c (regFile s).

Record core (s : RenameState) (contents : PhysRegId -> V) (specs : list ((RegId -> V) * list (RegId * V))) : Prop := {
  co_file : file_ok (regFile s);
  co_sb : sb_ok (regFile s) (scoreboard s);
  co_len : length (historyBuffer s) = length (renameMap s) /\ length specs = length (renameMap s);
  co_cons c : conserved s c;
  co_zero : exists um p, renameMap s !! 0%nat = Some um /\ entry um zero_reg = Some p /\ isZeroReg (pr_id p) = true;
  co_um tid um : renameMap s !! tid = Some um -> um_ok um /\ typed um;
  co_hist tid um hb : renameMap s !! tid = Some um -> historyBuffer s !! tid = Some hb -> hist_ok (regFile s) um hb;
  co_vals tid um hb init ws : renameMap s !! tid = Some um -> historyBuffer s !! tid = Some hb ->
    specs !! tid = Some (init, ws) -> vals_ok contents init um hb ws }.

Lemma pool_ids c rf p : p ∈ pool c rf -> p ∈ getRegIds rf c.
Proof. destruct c; cbn; try done; by intros ?%not_elem_of_nil. Qed.
Lemma pool_misc c rf p : p ∈ pool c rf -> c <> MiscRegClass.
Proof. by intros Hp ->; apply not_elem_of_nil in Hp. Qed.

Lemma free_pool s c p : conserved s c -> p ∈ free_of c (fl s) -> p ∈ pool c (regFile s).
Proof. intros Hc Hp. rewrite <- Hc. apply elem_of_app. by left. Qed.
Lemma mapped_pool s c p tid um : conserved s c -> renameMap s !! tid = Some um -> p ∈ mapped c um -> p ∈ pool c (regFile s).
Proof.
  intros Hc Hu Hp. rewrite <- Hc, !elem_of_app. right. left. apply elem_of_concat_fmap.
  exists um. split; [by eapply list_elem_of_lookup_2|done].
Qed.
Lemma prevs_pool s c p tid hb : conserved s c -> historyBuffer s !! tid = Some hb -> p ∈ prevs c hb -> p ∈ pool c (regFile s).
Proof.
  intros Hc Hu Hp. rewrite <- Hc, !elem_of_app. right. right. apply elem_of_concat_fmap.
  exists hb. split; [by eapply list_elem_of_lookup_2|done].
Qed.

Lemma prev_elem rf um hb e p : hist_ok rf um hb -> e ∈ hb -> real e = true -> prevPhysReg e = Some p ->
  p ∈ prevs (classValue p) hb /\ classValue p = regClass (archReg e).
Proof.
  intros Hh He Hr Hp. pose proof (hist_put_away _ _ _ Hh) as Hf. rewrite Forall_forall in Hf.
  destruct (Hf e He Hr) as (q & Hq & Hc & _). assert (q = p) as -> by congruence. split; [|done].
  apply elem_of_concat_fmap. exists e. split; [done|].
  unfold prev_of. rewrite Hr, Hp, bool_decide_eq_true_2 by done. cbn. by apply elem_of_cons; left.
Qed.

(** A free register is not in use. *)
Lemma free_unused s ct sp c p : core s ct sp -> p ∈ free_of c (fl s) ->
  (forall tid um r, renameMap s !! tid = Some um -> arch_ok r -> entry um r <> Some p) /\
  (forall tid um hb e, renameMap s !! tid = Some um -> historyBuffer s !! tid = Some hb -> e ∈ hb -> real e = true ->
     prevPhysReg e <> Some p).
Proof.
  intros C Hp. pose proof (free_pool _ _ _ (co_cons _ _ _ C c) Hp) as Hpool.
  pose proof (fo_class _ (co_file _ _ _ C) c p (pool_ids _ _ _ Hpool)) as Hc.
  pose proof (fo_nodup _ (co_file _ _ _ C) c) as Hnd. rewrite <- (co_cons _ _ _ C c) in Hnd.
  apply NoDup_app in Hnd as (_ & Hnd & _). specialize (Hnd p Hp). rewrite elem_of_app in Hnd. split.
  - intros tid um r Hu Hr He. destruct (co_um _ _ _ C _ _ Hu) as [Hu1 Hu2].
    apply Hnd. left. apply elem_of_concat_fmap. exists um. split; [by eapply list_elem_of_lookup_2|].
    rewrite <- Hc, (Hu2 _ _ Hr He). by apply mapped_elem.
  - intros tid um hb e Hu Hh He Hr Hpr.
    destruct (prev_elem _ _ _ _ _ (co_hist _ _ _ C _ _ _ Hu Hh) He Hr Hpr) as [Hin _].
    apply Hnd. right. apply elem_of_concat_fmap. exists hb. split; [by eapply list_elem_of_lookup_2|].
    by rewrite Hc in Hin.
Qed.

Lemma free_not_zero s ct sp c p : core s ct sp -> p ∈ free_of c (fl s) -> isZeroReg (pr_id p) = false.
Proof.
  intros C Hp. destruct (isZeroReg (pr_id p)) eqn:E; [|done]. exfalso.
  apply isZeroReg_iff in E as [E1 E2]. destruct (co_zero _ _ _ C) as (um & p0 & Hu & He & Hz).
  apply isZeroReg_iff in Hz as [Z1 Z2]. destruct (co_um _ _ _ C _ _ Hu) as [Hu1 Hu2].
  pose proof (free_pool _ _ _ (co_cons _ _ _ C c) Hp) as Hpool.
  pose proof (fo_class _ (co_file _ _ _ C) c p (pool_ids _ _ _ Hpool)) as Hc. rewrite Hc in E1. subst c.
  apply (proj1 (free_unused _ _ _ _ _ C Hp) _ _ _ Hu zero_arch). rewrite He. f_equal.
  apply (fo_zero _ (co_file _ _ _ C)); [|by apply pool_ids in Hpool|congruence].
  apply (pool_ids IntRegClass). eapply mapped_pool; [apply C|exact Hu|].
  by apply (mapped_elem _ zero_reg _ Hu1 zero_arch).
Qed.

(** ** Renaming one destination *)

Definition write_reg (contents : PhysRegId -> V) (p : PhysRegIdPtr) (v : V) : PhysRegId -> V :=
  match p with
  | Some p => if isZeroReg (pr_id p) || isFixedMapping p then contents
              else fun q => if decide (q = p) then v else contents q
  | None => contents
  end.

Lemma flat_lt s ct sp c p : core s ct sp -> p ∈ getRegIds (regFile s) c ->
  (u32 (flatIdx p) <? numPhysRegs (scoreboard s)) = true /\ 0 <= flatIdx p < Z.of_nat (length (regScoreBoard (scoreboard s))).
Proof.
  intros C Hp. pose proof (fo_range _ (co_file _ _ _ C) c p Hp) as Hr. pose proof (fo_total _ (co_file _ _ _ C)).
  destruct (co_sb _ _ _ C) as [-> -> _]. rewrite wrap_u_id by lia. split; [lia|done].
Qed.

(** The invariant after one thread [tid] changes. *)
Lemma core_update s ct sp tid um hb init ws s' ct' um' hb' ws' :
  core s ct sp ->
  renameMap s !! tid = Some um -> historyBuffer s !! tid = Some hb -> sp !! tid = Some (init, ws) ->
  regFile s' = regFile s -> renameMap s' = <[tid := um']> (renameMap s) ->
  historyBuffer s' = <[tid := hb']> (historyBuffer s) -> sb_ok (regFile s) (scoreboard s') ->
  um_ok um' -> typed um' -> hist_ok (regFile s) um' hb' -> vals_ok ct' init um' hb' ws' ->
  (forall p, ct' p = ct p \/ exists c, p ∈ free_of c (fl s)) ->
  entry um' zero_reg = entry um zero_reg ->
  (forall c, free_of c (fl s') ++ mapped c um' ++ prevs c hb' ≡ₚ free_of c (fl s) ++ mapped c um ++ prevs c hb) ->
  core s' ct' (<[tid := (init, ws')]> sp).
Proof.
  intros C Hu Hh Hs Ef Em Eh Hsb Hu' Ht' Hh' Hv' Hct Hz Hcons.
  pose proof (lookup_lt_Some _ _ _ Hu) as Lu. pose proof (lookup_lt_Some _ _ _ Hh) as Lh.
  pose proof (lookup_lt_Some _ _ _ Hs) as Ls.
  assert (forall tid' um0 hb0 init0 ws0, tid' <> tid -> renameMap s !! tid' = Some um0 -> historyBuffer s !! tid' = Some hb0 ->
    sp !! tid' = Some (init0, ws0) -> vals_ok ct' init0 um0 hb0 ws0) as Hoth.
  { intros tid' um0 hb0 init0 ws0 Hne H1 H2 H3. destruct (co_um _ _ _ C _ _ H1) as [H4 _].
    eapply (vals_frame (regFile s)); [done|by eapply co_hist|by eapply co_vals| |].
    - intros r p (Hr & _) He. destruct (Hct p) as [|[c Hp]]; [done|].
      by destruct (proj1 (free_unused _ _ _ _ _ C Hp) _ _ _ H1 Hr).
    - intros e p He Hre Hp'. destruct (Hct p) as [|[c Hp]]; [done|].
      by destruct (proj2 (free_unused _ _ _ _ _ C Hp) _ _ _ _ H1 H2 He Hre). }
  split.
  - rewrite Ef. apply C.
  - by rewrite Ef.
  - rewrite Em, Eh, !length_insert. apply C.
  - intros c. unfold conserved. rewrite Ef, Em, Eh.
    destruct (concat_insert (mapped c) _ _ _ Hu) as (r1 & H1 & H2). destruct (concat_insert (prevs c) _ _ _ Hh) as (r2 & H3 & H4).
    rewrite H2, H4. pose proof (co_cons _ _ _ C c) as Hc. unfold conserved in Hc. rewrite H1, H3 in Hc. rewrite <- Hc.
    specialize (Hcons c).
    trans ((free_of c (fl s') ++ mapped c um' ++ prevs c hb') ++ r1 ++ r2); [solve_Permutation|].
    rewrite Hcons. solve_Permutation.
  - destruct (co_zero _ _ _ C) as (u & p & H1 & H2 & H3). rewrite Em. destruct (decide (tid = 0%nat)) as [->|Hne].
    + exists um', p. rewrite list_lookup_insert_eq by (by eapply lookup_lt_Some). split; [done|]. split; [|done]. congruence.
    + exists u, p. by rewrite list_lookup_insert_ne by done.
  - intros t u. rewrite Em. destruct (decide (t = tid)) as [->|Hne].
    + rewrite list_lookup_insert_eq by done. by intros [= <-].
    + rewrite list_lookup_insert_ne by done. apply C.
  - intros t u h. rewrite Em, Eh, Ef. destruct (decide (t = tid)) as [->|Hne].
    + rewrite !list_lookup_insert_eq by done. by intros [= <-] [= <-].
    + rewrite !list_lookup_insert_ne by done. by eapply co_hist.
  - intros t u h i w. rewrite Em, Eh. destruct (decide (t = tid)) as [->|Hne].
    + rewrite !list_lookup_insert_eq by done. by intros [= <-] [= <-] [= <- <-].
    + rewrite !list_lookup_insert_ne by done. by eapply Hoth.
Qed.

(** Renaming needs a free register unless the register keeps its mapping, and the
    zero register needs the physical zero register. *)
Definition can_take (s : RenameState) (tid : nat) (r : RegId) : Prop :=
  (live r -> free_of (regClass r) (fl s) <> []) /\
  (r = zero_reg -> exists um p, renameMap s !! tid = Some um /\ entry um zero_reg = Some p /\ isZeroReg (pr_id p) = true).

Lemma unset_ok s ct sp c p : core s ct sp -> p ∈ getRegIds (regFile s) c ->
  (isFixedMapping p || isZeroReg (pr_id p) = false -> p ∈ pool c (regFile s)) ->
  exists sb, unsetReg (scoreboard s) (Some p) = Ok sb /\ sb_ok (regFile s) sb.
Proof.
  intros C Hp Hpool. destruct (flat_lt _ _ _ _ _ C Hp) as [H1 H2]. unfold unsetReg. cbn [deref mbind res_bind].
  rewrite H1. destruct (isFixedMapping p); [by exists (scoreboard s); split; [|apply C]|].
  destruct (isZeroReg (pr_id p)) eqn:Ez; [by exists (scoreboard s); split; [|apply C]|].
  rewrite awrite_Ok by done. eexists. split; [done|]. destruct (co_sb _ _ _ C) as [S1 S2 S3]. split; cbn [numPhysRegs regScoreBoard].
  - done.
  - by rewrite length_insert.
  - intros q Hq Hz. rewrite list_lookup_insert_ne; [by apply S3|]. intros E.
    assert (0 <= flatIdx q) by (by apply (fo_range _ (co_file _ _ _ C) IntRegClass)).
    assert (p = q) as ->; [|congruence].
    apply (fo_flat _ (co_file _ _ _ C) c IntRegClass); [by apply Hpool|done|lia].
Qed.

Lemma dead_cases r : arch_ok r -> live r \/ (~ live r /\ r = zero_reg) \/ (~ live r /\ regClass r = MiscRegClass).
Proof.
  intros Hr. unfold live. destruct (decide (regClass r = MiscRegClass)); [right; right; split; [tauto|done]|].
  destruct (decide (r = zero_reg)); [right; left; split; [tauto|done]|]. by left.
Qed.

Lemma undo1_new um r p q sn : um_ok um -> arch_ok r -> entry um r = Some q -> p <> q ->
  undo1 {| instSeqNum := sn; archReg := r; newPhysReg := Some p; prevPhysReg := Some q |} (set_entry r (Some p) um) = um.
Proof.
  intros Hu Hr Hq Hne. unfold undo1, real. cbn. rewrite bool_decide_eq_false_2 by congruence. cbn. rewrite set_set. by apply set_same.
Qed.

(** What one turn of the loop of [renameDestRegs] promises. *)
Definition dest_renamed (s s' : RenameState) (tid : nat) (sn : Z) (r : RegId) (p : PhysRegIdPtr) : Prop :=
  commitRenameMap s' = commitRenameMap s /\ regFile s' = regFile s /\
  (forall c, (length (free_of c (fl s)) <= length (free_of c (fl s')) + (if decide (regClass r = c) then 1 else 0))%nat) /\
  exists um um' hb e, renameMap s !! tid = Some um /\ historyBuffer s !! tid = Some hb /\
    renameMap s' = <[tid := um']> (renameMap s) /\ historyBuffer s' = <[tid := e :: hb]> (historyBuffer s) /\
    instSeqNum e = sn /\ archReg e = r /\ newPhysReg e = p /\ undo1 e um' = um /\ entry um' zero_reg = entry um zero_reg.

Lemma renameDestReg_live s ct sp tid sn r v init ws :
  core s ct sp -> 0 <= tid -> sp !! Z.to_nat tid = Some (init, ws) -> live r -> free_of (regClass r) (fl s) <> [] ->
  exists s' p, renameDestReg s tid sn r = Ok (s', p) /\ dest_renamed s s' (Z.to_nat tid) sn r p /\
    core s' (write_reg ct p v) (<[Z.to_nat tid := (init, (r, v) :: ws)]> sp).
Proof.
  intros C Htid Hs Hl Hfree. pose proof Hl as (Hr & Hm & Hnz). pose proof (lookup_lt_Some _ _ _ Hs) as Hlt.
  destruct (co_len _ _ _ C) as [L1 L2].
  destruct (lookup_lt_is_Some_2 (renameMap s) (Z.to_nat tid)) as [um Hu]; [lia|].
  destruct (lookup_lt_is_Some_2 (historyBuffer s) (Z.to_nat tid)) as [hb Hh]; [lia|].
  destruct (co_um _ _ _ C _ _ Hu) as [Hu1 Hu2].
  destruct (free_of (regClass r) (fl s)) as [|p l] eqn:Ef; [done|].
  assert (p ∈ free_of (regClass r) (fl s)) as Hp by (rewrite Ef; apply elem_of_cons; by left).
  pose proof (free_pool _ _ _ (co_cons _ _ _ C _) Hp) as Hpool. pose proof (pool_ids _ _ _ Hpool) as Hids.
  pose proof (fo_class _ (co_file _ _ _ C) _ _ Hids) as Hcp. pose proof (free_not_zero _ _ _ _ _ C Hp) as Hpz.
  destruct (uo_some _ Hu1 _ Hr Hm) as [q Hq].
  assert (p <> q) as Hpq by (intros ->; by apply (proj1 (free_unused _ _ _ _ _ C Hp) _ _ _ Hu Hr)).
  destruct (unset_ok _ _ _ _ p C Hids) as (sb & Esb & Hsb); [done|].
  unfold renameDestReg. rewrite (aread_Ok _ _ um) by done. cbn [mbind res_bind].
  rewrite (rename_live _ _ _ _ p l) by done. cbn [mbind res_bind]. rewrite Hq.
  rewrite awrite_Ok by lia. cbn [mbind res_bind]. rewrite Esb. cbn [mbind res_bind].
  rewrite (aread_Ok _ _ hb) by done. cbn [mbind res_bind]. rewrite awrite_Ok by lia. cbn [mbind res_bind].
  eexists _, _. split; [done|].
  set (e := {| instSeqNum := sn; archReg := r; newPhysReg := Some p; prevPhysReg := Some q |}).
  assert (real e = true) as Hre by (unfold real, e; cbn; rewrite bool_decide_eq_false_2; [done|congruence]).
  assert (undo1 e (set_entry r (Some p) um) = um) as Hund by (by apply undo1_new).
  assert (entry (set_entry r (Some p) um) zero_reg = entry um zero_reg) as Hzero
    by (rewrite entry_set by (done || apply zero_arch); by rewrite decide_False).
  split.
  { split; [done|]. split; [done|]. cbn [fl]. split.
    { intros c. rewrite free_of_with by done. destruct (decide _) as [<-|]; [rewrite Ef; cbn; lia|lia]. }
    exists um, (set_entry r (Some p) um), hb, e. split_and!; done. }
  assert (write_reg ct (Some p) v = fun x => if decide (x = p) then v else ct x) as ->.
  { unfold write_reg. rewrite Hpz. unfold isFixedMapping, isRenameable. rewrite Hcp.
    by rewrite bool_decide_eq_false_2. }
  eapply core_update; try done.
  - by apply um_ok_set.
  - intros r' p' Hr' Hp'. rewrite entry_set in Hp' by done. destruct (decide _) as [<-|]; [congruence|by apply Hu2].
  - cbn [hist_ok]. rewrite Hund. split; [|by eapply co_hist]. split; [done|]. rewrite Hre.
    split; [done|]. cbn. split; [rewrite entry_set by done; by rewrite decide_True|]. exists q. split; [done|]. by apply Hu2.
  - assert (forall x, x <> p -> (if decide (x = p) then v else ct x) = ct x) as Hother by (intros; by rewrite decide_False).
    split.
    + intros r' Hr'. rewrite entry_set by (done || apply Hr'). cbn [value_after]. destruct (decide (r = r')) as [<-|Hne].
      * exists p. split; [done|]. by rewrite decide_True.
      * destruct (vals_ok_shows _ _ _ _ _ (co_vals _ _ _ C _ _ _ _ _ Hu Hh Hs) _ Hr') as (p' & He & Hv).
        exists p'. split; [done|]. rewrite Hother; [done|]. intros ->.
        by apply (proj1 (free_unused _ _ _ _ _ C Hp) _ _ _ Hu (proj1 Hr')).
    + split; [done|]. rewrite Hund. eapply (vals_frame (regFile s)); [done|by eapply co_hist|by eapply co_vals| |].
      * intros r' p' (Hr' & _) He. apply Hother. intros ->. by apply (proj1 (free_unused _ _ _ _ _ C Hp) _ _ _ Hu Hr').
      * intros e' p' He' Hre' Hp'. apply Hother. intros ->. by apply (proj2 (free_unused _ _ _ _ _ C Hp) _ _ _ _ Hu Hh He' Hre').
  - intros x. cbn. destruct (decide (x = p)) as [->|]; [right; by exists (regClass r)|by left].
  - intros c. cbn [fl]. rewrite free_of_with by done.
    destruct (mapped_set um r c Hu1 Hr Hm) as (rest & H1 & H2). rewrite H1, H2, Hq. unfold prevs. rewrite fmap_cons. cbn [concat].
    unfold prev_of at 1. rewrite Hre. cbn [andb archReg prevPhysReg e option_list].
    destruct (decide (regClass r = c)) as [<-|Hne].
    + rewrite bool_decide_eq_true_2 by done. rewrite Ef. solve_Permutation.
    + rewrite bool_decide_eq_false_2 by done. done.
Qed.

Lemma vals_dead (ct : PhysRegId -> V) init um hb ws e r v :
  vals_ok ct init um hb ws -> archReg e = r -> real e = false -> ~ live r ->
  vals_ok ct init um (e :: hb) ((r, v) :: ws).
Proof.
  intros Hv Ea Hre Hl. split.
  - intros r' Hr'. cbn [value_after]. rewrite decide_False by congruence. by apply (vals_ok_shows _ _ _ _ _ Hv).
  - split; [done|]. unfold undo1. by rewrite Hre.
Qed.

Lemma renameDestReg_dead s ct sp tid sn r v init ws p :
  core s ct sp -> 0 <= tid -> sp !! Z.to_nat tid = Some (init, ws) -> arch_ok r -> ~ live r ->
  (forall um, renameMap s !! Z.to_nat tid = Some um ->
     rename (regFile s) um (fl s) r = Ok (Some p, Some p, um, fl s) /\
     (r = zero_reg /\ Some p = entry um zero_reg \/
      regClass r = MiscRegClass /\ getMiscRegId (regFile s) (regIdx r) = Ok p)) ->
  p ∈ getRegIds (regFile s) (classValue p) -> isFixedMapping p || isZeroReg (pr_id p) = true ->
  exists s' p', renameDestReg s tid sn r = Ok (s', p') /\ dest_renamed s s' (Z.to_nat tid) sn r p' /\
    core s' (write_reg ct p' v) (<[Z.to_nat tid := (init, (r, v) :: ws)]> sp).
Proof.
  intros C Htid Hs Hr Hl Hren Hids Hfz. pose proof (lookup_lt_Some _ _ _ Hs) as Hlt.
  destruct (co_len _ _ _ C) as [L1 L2].
  destruct (lookup_lt_is_Some_2 (renameMap s) (Z.to_nat tid)) as [um Hu]; [lia|].
  destruct (lookup_lt_is_Some_2 (historyBuffer s) (Z.to_nat tid)) as [hb Hh]; [lia|].
  destruct (co_um _ _ _ C _ _ Hu) as [Hu1 Hu2]. destruct (Hren um Hu) as [Eren Hwhy].
  destruct (unset_ok _ _ _ _ p C Hids) as (sb & Esb & Hsb); [by rewrite Hfz|].
  unfold renameDestReg. rewrite (aread_Ok _ _ um) by done. cbn [mbind res_bind]. rewrite Eren. cbn [mbind res_bind].
  rewrite awrite_Ok by lia. cbn [mbind res_bind]. rewrite Esb. cbn [mbind res_bind].
  rewrite (aread_Ok _ _ hb) by done. cbn [mbind res_bind]. rewrite awrite_Ok by lia. cbn [mbind res_bind].
  eexists _, _. split; [done|].
  set (e := {| instSeqNum := sn; archReg := r; newPhysReg := Some p; prevPhysReg := Some p |}).
  assert (real e = false) as Hre by (unfold real, e; cbn; by rewrite bool_decide_eq_true_2).
  assert (undo1 e um = um) as Hund by (unfold undo1; by rewrite Hre).
  split.
  { split; [done|]. split; [done|]. cbn [fl]. split; [intros; lia|]. by exists um, um, hb, e. }
  assert (write_reg ct (Some p) v = ct) as ->.
  { unfold write_reg. rewrite orb_comm in Hfz. by rewrite Hfz. }
  eapply core_update; try done.
  - split; [|rewrite Hund; by eapply co_hist]. split; [done|]. rewrite Hre.
    destruct Hwhy as [[-> Hp]|[Hm Hp]]; [by left|right; split; [done|by exists p]].
  - apply vals_dead; try done. by eapply co_vals.
  - by left.
  - intros c. unfold prevs. rewrite fmap_cons. cbn [concat]. unfold prev_of at 1. by rewrite Hre.
Qed.

Lemma renameDestReg_core s ct sp tid sn r v init ws :
  core s ct sp -> 0 <= tid -> sp !! Z.to_nat tid = Some (init, ws) -> arch_ok r -> can_take s (Z.to_nat tid) r ->
  exists s' p, renameDestReg s tid sn r = Ok (s', p) /\ dest_renamed s s' (Z.to_nat tid) sn r p /\
    core s' (write_reg ct p v) (<[Z.to_nat tid := (init, (r, v) :: ws)]> sp).
Proof.
  intros C Htid Hs Hr [Hfree Hzero]. destruct (dead_cases r Hr) as [Hl|[[Hl ->]|[Hl Hm]]].
  - apply renameDestReg_live; auto.
  - destruct (Hzero eq_refl) as (um & p & Hu & He & Hz). destruct (co_um _ _ _ C _ _ Hu) as [Hu1 Hu2].
    assert (classValue p = IntRegClass) as Hc by (by rewrite (Hu2 _ _ zero_arch He)).
    apply (renameDestReg_dead _ _ _ _ _ _ _ _ _ p); try done.
    + intros um' Hu'. assert (um' = um) as -> by congruence. rewrite (rename_zero _ _ _ p) by (done || apply zero_arch).
      split; [done|]. by left.
    + rewrite Hc. apply pool_ids. eapply mapped_pool; [apply C|exact Hu|]. by apply (mapped_elem _ zero_reg), He.
    + by rewrite Hz, orb_true_r.
  - pose proof (ao_idx _ Hr) as Hi. rewrite Hm in Hi. destruct (fo_misc _ (co_file _ _ _ C) _ Hi) as (p & Hp & Hin).
    assert (classValue p = MiscRegClass) as Hc by (by apply (fo_class _ (co_file _ _ _ C))).
    apply (renameDestReg_dead _ _ _ _ _ _ _ _ _ p); try done.
    + intros um' Hu'. rewrite rename_misc by done. rewrite Hp. split; [done|]. by right.
    + by rewrite Hc.
    + unfold isFixedMapping, isRenameable. by rewrite Hc.
Qed.

(** ** Renaming an instruction *)

Fixpoint write_regs (contents : PhysRegId -> V) (ps : list PhysRegIdPtr) (vs : list V) : PhysRegId -> V :=
  match ps, vs with
  | p :: ps, v :: vs => write_regs (write_reg contents p v) ps vs
  | _, _ => contents
  end.

(** The number of destinations of a class. *)
Definition numDest (c : RegClass) (dests : list RegId) : nat := length (filter (fun r => regClass r = c) dests).

(** The loop of [renameDestRegs]. *)
Definition insts_renamed (s s' : RenameState) (tid : nat) (sn : Z) (dests : list RegId) (ps : list PhysRegIdPtr) : Prop :=
  commitRenameMap s' = commitRenameMap s /\ regFile s' = regFile s /\
  exists um um' hb es, renameMap s !! tid = Some um /\ historyBuffer s !! tid = Some hb /\
    renameMap s' = <[tid := um']> (renameMap s) /\ historyBuffer s' = <[tid := es ++ hb]> (historyBuffer s) /\
    Forall (fun e => instSeqNum e = sn) es /\ archReg <$> rev es = dests /\ newPhysReg <$> rev es = ps /\ undo es um' = um.

Definition enough_free (s : RenameState) (dests : list RegId) : Prop :=
  forall c, c <> MiscRegClass -> (numDest c dests <= length (free_of c (fl s)))%nat.
Definition has_zero (s : RenameState) (tid : nat) (dests : list RegId) : Prop :=
  zero_reg ∈ dests -> exists um p, renameMap s !! tid = Some um /\ entry um zero_reg = Some p /\ isZeroReg (pr_id p) = true.

Lemma can_take_head s tid r dests : enough_free s (r :: dests) -> has_zero s tid (r :: dests) -> can_take s tid r.
Proof.
  intros Hfree Hzero. split.
  - intros (_ & Hm & _) E. specialize (Hfree _ Hm). rewrite E in Hfree. unfold numDest in Hfree.
    rewrite filter_cons_True in Hfree by done. cbn in Hfree. lia.
  - intros ->. apply Hzero, elem_of_cons. by left.
Qed.

Lemma rename_loop ws : forall s ct sp tid sn init ws0,
  core s ct sp -> 0 <= tid -> sp !! Z.to_nat tid = Some (init, ws0) ->
  Forall arch_ok ws.*1 -> enough_free s ws.*1 -> has_zero s (Z.to_nat tid) ws.*1 ->
  exists s' ps, renameDestRegs_loop s tid sn ws.*1 = Ok (s', ps) /\ length ps = length ws /\
    core s' (write_regs ct ps ws.*2) (<[Z.to_nat tid := (init, rev ws ++ ws0)]> sp) /\
    insts_renamed s s' (Z.to_nat tid) sn ws.*1 ps.
Proof.
  induction ws as [|[r v] ws IH]; intros s ct sp tid sn init ws0 C Htid Hs Hw Hfree Hzero;
    pose proof (lookup_lt_Some _ _ _ Hs) as Hlt.
  - destruct (co_len _ _ _ C) as [L1 L2].
    destruct (lookup_lt_is_Some_2 (renameMap s) (Z.to_nat tid)) as [um Hu]; [lia|].
    destruct (lookup_lt_is_Some_2 (historyBuffer s) (Z.to_nat tid)) as [hb Hh]; [lia|].
    exists s, []. cbn. rewrite list_insert_id by done. repeat (split; [done|]).
    exists um, um, hb, []. cbn. rewrite !list_insert_id by done. split_and!; done.
  - cbn [fmap list_fmap fst snd] in *. inversion_clear Hw as [|? ? Hr Hw'].
    destruct (renameDestReg_core s ct sp tid sn r v init ws0 C Htid Hs Hr) as (s1 & p & E1 & HR & C1); [by eapply can_take_head|].
    destruct HR as (Ec & Ef & Hlen & um & um1 & hb & e & Hu & Hh & Em & Eh & Esn & Ea & En & Eu & Ez).
    pose proof (lookup_lt_Some _ _ _ Hu) as Lu. pose proof (lookup_lt_Some _ _ _ Hh) as Lh.
    destruct (IH s1 _ _ tid sn init ((r, v) :: ws0) C1 Htid) as (s2 & ps & E2 & Eps & C2 & Ec2 & Ef2 & HR); try done.
    { by rewrite list_lookup_insert_eq. }
    { intros c Hc. specialize (Hfree c Hc). specialize (Hlen c). unfold numDest in *. rewrite filter_cons in Hfree.
      destruct (decide _); cbn in Hfree; lia. }
    { intros Hz. destruct Hzero as (um0 & p0 & H1 & H2 & H3); [apply elem_of_cons; by right|].
      assert (um0 = um) as -> by congruence. exists um1, p0. rewrite Em, list_lookup_insert_eq by done. by rewrite Ez. }
    destruct HR as (um0 & um2 & hb0 & es & Hu2 & Hh2 & Em2 & Eh2 & Hsn & Har & Hnew & Hund).
    rewrite Em, list_lookup_insert_eq in Hu2 by done. injection Hu2 as <-.
    rewrite Eh, list_lookup_insert_eq in Hh2 by done. injection Hh2 as <-.
    exists s2, (p :: ps). cbn [renameDestRegs_loop]. rewrite E1. cbn [mbind res_bind]. rewrite E2. split; [done|].
    split; [cbn; lia|]. split.
    { rewrite list_insert_insert_eq in C2. cbn [rev write_regs]. by rewrite <- app_assoc. }
    split; [congruence|]. split; [congruence|]. exists um, um2, hb, (es ++ [e]).
    rewrite Em2, Eh2, Em, Eh, !list_insert_insert_eq, <- app_assoc, rev_app_distr, undo_app, !fmap_app, Har, Hnew, Hund.
    cbn. rewrite Ea, En, Eu. split_and!; try done. apply Forall_app. split; [done|]. by apply Forall_singleton.
Qed.

(** ** The pipeline around renaming

    The rename state, the values the physical registers hold or will hold once
    the instructions in flight have executed, and the program's view of each
    thread. *)
Record Machine := { ms : RenameState; contents : PhysRegId -> V; threads : list (Thread (V := V)) }.

(** An instruction is renamed, sources first; [writes]: its destinations and the
    values it computes for them. *)
Definition do_rename (m : Machine) (tid sn : Z) (flattenRegId : RegId -> RegId) (srcs : list RegId)
    (writes : list (RegId * V)) : res Machine :=
  l ← renameSrcRegs (ms m) tid flattenRegId srcs;
  '(s, inst) ← renameDestRegs (ms m) tid sn flattenRegId writes.*1;
  t ← aread (threads m) tid;
  let i := {| if_inst := inst; if_srcs := zip (flattenRegId <$> srcs) l.*1; if_writes := prod_map flattenRegId id <$> writes |} in
  ts ← awrite (threads m) tid
    {| rob := i :: rob t; retired := retired t; done_sn := done_sn t; initial := initial t |};
  Ok {| ms := s; contents := write_regs (contents m) (renamedDestRegs inst) writes.*2; threads := ts |}.
Definition do_squash (m : Machine) (tid n : Z) : res Machine :=
  s ← doSquash (ms m) n tid;
  t ← aread (threads m) tid;
  ts ← awrite (threads m) tid
    {| rob := filter (fun i => seqNum (if_inst i) <= n) (rob t); retired := retired t; done_sn := done_sn t; initial := initial t |};
  Ok {| ms := s; contents := contents m; threads := ts |}.
(** The oldest instruction commits. *)
Definition do_commit (m : Machine) (tid : Z) : res Machine :=
  t ← aread (threads m) tid;
  match rev (rob t) with
  | [] => Ok m
  | i :: l =>
      s ← commit_inst (ms m) tid (if_inst i);
      ts ← awrite (threads m) tid
        {| rob := rev l; retired := rev (if_writes i) ++ retired t; done_sn := seqNum (if_inst i); initial := initial t |};
      Ok {| ms := s; contents := contents m; threads := ts |}
  end.
Definition do_release (circular : bool) (m : Machine) (tid n : Z) : res Machine :=
  s ← removeFromHistory circular (ms m) n tid;
  Ok {| ms := s; contents := contents m; threads := threads m |}.

Inductive event :=
| Rename (tid sn : Z) (flattenRegId : RegId -> RegId) (srcs : list RegId) (writes : list (RegId * V))
| Squash (tid n : Z)
| Commit (tid : Z)
| Release (tid n : Z).
Definition run_event (circular : bool) (m : Machine) (ev : event) : res Machine :=
  match ev with
  | Rename tid sn f srcs writes => do_rename m tid sn f srcs writes
  | Squash tid n => do_squash m tid n
  | Commit tid => do_commit m tid
  | Release tid n => do_release circular m tid n
  end.
Fixpoint run_events (circular : bool) (m : Machine) (evs : list event) : res Machine :=
  match evs with [] => Ok m | ev :: evs => m ← run_event circular m ev; run_events circular m evs end.

(** When the pipeline does each: sequence numbers grow; an instruction names
    registers of the instruction set, no vector element as a source, and the zero
    register as a destination in thread 0 only, and is renamed if [canRename]
    finds enough free registers; a squash spares what has committed; and only what
    has committed is released, but not the last entry of the buffer unless lists
    are circular. *)
Definition enabled (circular : bool) (m : Machine) (ev : event) : Prop :=
  match ev with
  | Rename tid sn f srcs writes =>
      0 <= tid /\ exists um t, renameMap (ms m) !! Z.to_nat tid = Some um /\ threads m !! Z.to_nat tid = Some t /\
        done_sn t < sn /\ Forall (fun i => seqNum (if_inst i) < sn) (rob t) /\
        Forall (fun r => regClass r <> VecElemClass /\ arch_ok (f r)) srcs /\
        let dests := f <$> writes.*1 in
        Forall arch_ok dests /\ (zero_reg ∈ dests -> tid = 0) /\
        canRename um (fl (ms m)) (Z.of_nat (numDest IntRegClass dests)) (Z.of_nat (numDest FloatRegClass dests))
          (Z.of_nat (numDest VecRegClass dests)) (Z.of_nat (numDest VecElemClass dests)) (Z.of_nat (numDest CCRegClass dests)) = Ok true
  | Squash tid n | Release tid n =>
      0 <= tid /\ exists t, threads m !! Z.to_nat tid = Some t /\
        match ev with
        | Squash _ _ => done_sn t <= n
        | _ => n <= done_sn t /\ exists hb, historyBuffer (ms m) !! Z.to_nat tid = Some hb /\ stays circular n hb
        end
  | Commit tid => 0 <= tid < Z.of_nat (length (threads m))
  end.
Fixpoint all_enabled (circular : bool) (m : Machine) (evs : list event) : Prop :=
  match evs with
  | [] => True
  | ev :: evs => enabled circular m ev /\ forall m', run_event circular m ev = Ok m' -> all_enabled circular m' evs
  end.

Definition spec (t : Thread (V := V)) : (RegId -> V) * list (RegId * V) := (initial t, pending (rob t) ++ retired t).
Record inv (m : Machine) : Prop := {
  iv_core : core (ms m) (contents m) (spec <$> threads m);
  iv_len : length (commitRenameMap (ms m)) = length (threads m);
  iv_cm tid cm : commitRenameMap (ms m) !! tid = Some cm -> um_ok cm;
  iv_rob tid um cm hb t : renameMap (ms m) !! tid = Some um -> commitRenameMap (ms m) !! tid = Some cm ->
    historyBuffer (ms m) !! tid = Some hb -> threads m !! tid = Some t -> rob_ok cm (done_sn t) um hb (rob t) }.

(** The state of one thread. *)
Lemma inv_thread m tid t : inv m -> threads m !! tid = Some t ->
  exists um cm hb, renameMap (ms m) !! tid = Some um /\ commitRenameMap (ms m) !! tid = Some cm /\
    historyBuffer (ms m) !! tid = Some hb /\ (spec <$> threads m) !! tid = Some (spec t) /\
    um_ok um /\ typed um /\ um_ok cm /\ hist_ok (regFile (ms m)) um hb /\
    vals_ok (contents m) (initial t) um hb (pending (rob t) ++ retired t) /\ rob_ok cm (done_sn t) um hb (rob t).
Proof.
  intros I Ht. pose proof (iv_core _ I) as C. destruct (co_len _ _ _ C) as [L1 L2]. rewrite length_fmap in L2.
  pose proof (lookup_lt_Some _ _ _ Ht) as Hlt. pose proof (iv_len _ I).
  destruct (lookup_lt_is_Some_2 (renameMap (ms m)) tid) as [um Hu]; [lia|].
  destruct (lookup_lt_is_Some_2 (historyBuffer (ms m)) tid) as [hb Hh]; [lia|].
  destruct (lookup_lt_is_Some_2 (commitRenameMap (ms m)) tid) as [cm Hc]; [lia|].
  assert ((spec <$> threads m) !! tid = Some (spec t)) as Hs by (by rewrite list_lookup_fmap, Ht).
  destruct (co_um _ _ _ C _ _ Hu). exists um, cm, hb. split_and!; try done.
  - by eapply iv_cm.
  - by eapply co_hist.
  - by eapply co_vals.
  - by eapply iv_rob.
Qed.

Lemma inv_intro m m' tid t' um' cm' hb' : inv m ->
  core (ms m') (contents m') (spec <$> threads m') ->
  threads m' = <[tid := t']> (threads m) ->
  renameMap (ms m') = <[tid := um']> (renameMap (ms m)) ->
  commitRenameMap (ms m') = <[tid := cm']> (commitRenameMap (ms m)) ->
  historyBuffer (ms m') = <[tid := hb']> (historyBuffer (ms m)) ->
  um_ok cm' -> rob_ok cm' (done_sn t') um' hb' (rob t') -> inv m'.
Proof.
  intros I C Et Eu Ec Eh Hcm Hrob. split; [done| | |].
  - rewrite Et, Ec, !length_insert. apply I.
  - intros i cm. rewrite Ec. destruct (decide (i = tid)) as [->|Hne].
    + intros E. assert (cm = cm') as ->; [|done]. rewrite list_lookup_insert_eq in E; [congruence|].
      apply lookup_lt_Some in E. by rewrite length_insert in E.
    + rewrite list_lookup_insert_ne by done. apply I.
  - intros i um cm hb t. rewrite Et, Eu, Ec, Eh. destruct (decide (i = tid)) as [->|Hne].
    + intros H1 H2 H3 H4.
      pose proof (lookup_lt_Some _ _ _ H1) as L1. pose proof (lookup_lt_Some _ _ _ H2) as L2.
      pose proof (lookup_lt_Some _ _ _ H3) as L3. pose proof (lookup_lt_Some _ _ _ H4) as L4. rewrite length_insert in L1. rewrite length_insert in L2.
      rewrite length_insert in L3. rewrite length_insert in L4.
      rewrite list_lookup_insert_eq in H1 by done. rewrite list_lookup_insert_eq in H2 by done.
      rewrite list_lookup_insert_eq in H3 by done. rewrite list_lookup_insert_eq in H4 by done. by simplify_eq.
    + rewrite !list_lookup_insert_ne by done. apply I.
Qed.

(** ** Each event succeeds and keeps the invariant *)

Context (circular : bool).

Lemma do_release_ok m tid n : inv m -> enabled circular m (Release tid n) -> exists m', do_release circular m tid n = Ok m' /\ inv m'.
Proof.
  intros I (Htid & t & Ht & Hn & hb0 & Hh0 & Hst). destruct (inv_thread _ _ _ I Ht) as (um & cm & hb & Hu & Hc & Hh & Hs & Hu1 & Hu2 & Hc1 & Hhist & Hvals & Hrob).
  pose proof (lookup_lt_Some _ _ _ Hh) as Lh.
  assert (hb0 = hb) as -> by congruence.
  destruct (removeFromHistory_loop_ok circular n (rev hb) (fl (ms m))) as (fl' & gone & rest & Erev & E & Hgone & Hfree).
  { apply Forall_rev. by eapply hist_put_away. }
  { destruct Hst as [?|Hst]; [by left|right]. by apply Exists_rev. }
  assert (hb = rev rest ++ rev gone) as Ehb by (rewrite <- rev_app_distr, <- Erev; by rewrite rev_involutive).
  unfold do_release, removeFromHistory. rewrite (aread_Ok _ _ hb) by done. cbn [mbind res_bind].
  rewrite (dec_iterator_ok circular n hb Hst). cbn [mbind res_bind]. rewrite E. cbn [mbind res_bind].
  rewrite awrite_Ok by lia. cbn [mbind res_bind]. eexists. split; [done|].
  apply (inv_intro m _ (Z.to_nat tid) t um cm (rev rest)); cbn [ms threads renameMap commitRenameMap historyBuffer contents]; try done;
    try (by rewrite list_insert_id).
  - rewrite <- (list_insert_id (spec <$> threads m) (Z.to_nat tid) (spec t)) by done.
    eapply (core_update _ _ _ _ um hb (initial t) _ _ _ um (rev rest)); try done; cbn [renameMap historyBuffer scoreboard fl].
    + apply I.
    + by rewrite list_insert_id.
    + apply (co_sb _ _ _ (iv_core _ I)).
    + rewrite Ehb in Hhist. by apply hist_ok_app in Hhist as [? _].
    + rewrite Ehb in Hvals. by apply vals_app_l in Hvals.
    + by left.
    + intros c. rewrite Hfree, Ehb. unfold prevs. rewrite fmap_app, concat_app.
      rewrite <- (Permutation_rev gone) at 1. solve_Permutation.
  - rewrite Ehb in Hrob. apply (rob_release _ _ (rev gone)); [done|]. apply Forall_rev.
    eapply Forall_impl; [done|]. cbn. lia.
Qed.

Lemma entry_undo_zero rf es : forall um, um_ok um -> hist_ok rf um es -> entry (undo es um) zero_reg = entry um zero_reg.
Proof.
  induction es as [|e es IH]; intros um Hu Hh; [done|]. destruct Hh as [He Hh]. cbn [undo].
  rewrite IH by (done || by eapply um_ok_undo1). unfold undo1. destruct He as [Hr He]. destruct (real e); [|done].
  destruct He as ((_ & Hm & Hz) & _). rewrite entry_set by (done || apply zero_arch). by rewrite decide_False.
Qed.

Lemma squash_ok m tid n : inv m -> enabled circular m (Squash tid n) -> exists m', do_squash m tid n = Ok m' /\ inv m'.
Proof.
  intros I (Htid & t & Ht & Hn). destruct (inv_thread _ _ _ I Ht) as (um & cm & hb & Hu & Hc & Hh & Hs & Hu1 & Hu2 & Hc1 & Hhist & Hvals & Hrob).
  pose proof (lookup_lt_Some _ _ _ Hh) as Lh. pose proof (lookup_lt_Some _ _ _ Hu) as Lu. pose proof (lookup_lt_Some _ _ _ Ht) as Lt.
  destruct (rob_squash _ _ n _ _ _ Hrob Hn) as (es & hb' & ws & -> & H1 & H2 & H3 & H4 & H5).
  destruct (doSquash_loop_ok (regFile (ms m)) n es um (fl (ms m)) hb' Hu1 Hu2 Hhist H1 H2) as (fl' & E & Hu1' & Hu2' & Hhist' & Hfree & Hperm).
  unfold do_squash, doSquash. rewrite (aread_Ok (renameMap _) _ um) by done. cbn [mbind res_bind].
  rewrite (aread_Ok (historyBuffer _) _ (es ++ hb')) by done. cbn [mbind res_bind]. rewrite E. cbn [mbind res_bind].
  rewrite !awrite_Ok by lia. cbn [mbind res_bind]. rewrite (aread_Ok _ _ t) by done. cbn [mbind res_bind].
  rewrite awrite_Ok by lia. cbn [mbind res_bind]. eexists. split; [done|].
  eapply (inv_intro m _ (Z.to_nat tid) _ (undo es um) cm hb' I); cbn [ms threads renameMap commitRenameMap historyBuffer contents rob done_sn];
    try done; try (by rewrite list_insert_id).
  rewrite list_fmap_insert. unfold spec at 1. cbn [initial rob retired].
  eapply (core_update _ _ _ _ um (es ++ hb') (initial t) _ _ _ (undo es um) hb'); try done; cbn [renameMap historyBuffer scoreboard fl].
  - apply I.
  - apply (co_sb _ _ _ (iv_core _ I)).
  - rewrite H5, <- app_assoc in Hvals. by apply (vals_undo _ _ es um hb' ws).
  - by left.
  - apply hist_ok_app in Hhist as [Hhist _]. by eapply entry_undo_zero.
  - intros c. rewrite Hfree. unfold prevs, news in *. rewrite fmap_app, concat_app. specialize (Hperm c).
    rewrite (app_assoc (mapped c um)), Hperm. solve_Permutation.
Qed.

Lemma pending_app l l' : pending (V := V) (l ++ l') = pending l ++ pending l'.
Proof. unfold pending. by rewrite fmap_app, concat_app. Qed.

Lemma commit_ok m tid : inv m -> enabled circular m (Commit tid) -> exists m', do_commit m tid = Ok m' /\ inv m'.
Proof.
  intros I [Htid Hlt]. destruct (lookup_lt_is_Some_2 (threads m) (Z.to_nat tid)) as [t Ht]; [lia|].
  destruct (inv_thread _ _ _ I Ht) as (um & cm & hb & Hu & Hc & Hh & Hs & Hu1 & Hu2 & Hc1 & Hhist & Hvals & Hrob).
  pose proof (lookup_lt_Some _ _ _ Hc) as Lc. unfold do_commit. rewrite (aread_Ok _ _ t) by done. cbn [mbind res_bind].
  destruct (rev (rob t)) as [|i l] eqn:Erev; [by exists m|].
  assert (rob t = rev l ++ [i]) as Erob by (by rewrite <- (rev_involutive (rob t)), Erev).
  rewrite Erob in Hrob. destruct (rob_commit (regFile (ms m)) _ _ _ _ _ _ Hrob Hu1 Hu2 Hc1 Hhist) as (cm' & E & Hc' & Hrob').
  unfold commit_inst. rewrite (aread_Ok _ _ cm) by done. cbn [mbind res_bind]. rewrite E. cbn [mbind res_bind].
  rewrite !awrite_Ok by lia. cbn [mbind res_bind]. eexists. split; [done|].
  eapply (inv_intro m _ (Z.to_nat tid) _ um cm' hb I); cbn [ms threads renameMap commitRenameMap historyBuffer contents rob done_sn];
    try done; try (by rewrite list_insert_id).
  rewrite list_fmap_insert. unfold spec at 1. cbn [initial rob retired].
  assert (pending (rev l) ++ rev (if_writes i) ++ retired t = pending (rob t) ++ retired t) as ->.
  { rewrite Erob, pending_app, <- app_assoc. unfold pending at 3. cbn. by rewrite app_nil_r. }
  eapply (core_update _ _ _ _ um hb (initial t) _ _ _ um hb); try done; cbn [renameMap historyBuffer scoreboard fl].
  - apply I.
  - by rewrite list_insert_id.
  - by rewrite list_insert_id.
  - apply (co_sb _ _ _ (iv_core _ I)).
  - by left.
Qed.

(** The sources of an instruction. *)
Lemma src_ready s ct sp tid um r : core s ct sp -> renameMap s !! tid = Some um -> arch_ok r ->
  exists p b, lookup (regFile s) um r = Ok p /\ sb_getReg (scoreboard s) p = Ok b /\ (live r -> p = entry um r).
Proof.
  intros C Hu Hr. destruct (co_um _ _ _ C _ _ Hu) as [Hu1 Hu2].
  assert (forall p c, p ∈ getRegIds (regFile s) c -> (isZeroReg (pr_id p) = true -> p ∈ intRegIds (regFile s)) ->
            exists b, sb_getReg (scoreboard s) (Some p) = Ok b) as Hget.
  { intros p c Hp Hz. destruct (flat_lt _ _ _ _ _ C Hp) as [H1 H2]. unfold sb_getReg. cbn [deref mbind res_bind].
    rewrite H1. destruct (isFixedMapping p); [by eauto|].
    destruct (aread_in_bounds (regScoreBoard (scoreboard s)) (flatIdx p) H2) as (b & Hb & Hab). rewrite Hab. cbn [mbind res_bind].
    destruct (isZeroReg (pr_id p)) eqn:Ez; cbn; [|by eauto].
    rewrite (so_zero _ _ (co_sb _ _ _ C) p) in Hb by auto. injection Hb as <-. by eauto. }
  destruct (decide (regClass r = MiscRegClass)) as [Hm|Hm].
  - pose proof (ao_idx _ Hr) as Hi. rewrite Hm in Hi. destruct (fo_misc _ (co_file _ _ _ C) _ Hi) as (p & Hp & Hin).
    destruct (Hget p MiscRegClass Hin) as [b Hb].
    { intros Hz. apply isZeroReg_iff in Hz as [Hz _]. by rewrite (fo_class _ (co_file _ _ _ C) MiscRegClass _ Hin) in Hz. }
    exists (Some p), b. split; [|split; [done|]].
    + unfold lookup, flatIndex. rewrite Hm. cbn [map_of]. by rewrite Hp.
    + by intros (_ & Hm' & _).
  - destruct (uo_some _ Hu1 _ Hr Hm) as [p Hp]. pose proof (mapped_elem _ _ _ Hu1 Hr Hp) as Hin.
    pose proof (mapped_pool _ _ _ _ _ (co_cons _ _ _ C _) Hu Hin) as Hpool. apply pool_ids in Hpool.
    destruct (Hget p _ Hpool) as [b Hb].
    { intros Hz. apply isZeroReg_iff in Hz as [Hz _]. rewrite (Hu2 _ _ Hr Hp) in Hz. by rewrite Hz in Hpool. }
    exists (Some p), b. rewrite lookup_entry, Hp by done. done.
Qed.

Lemma renameSrcRegs_ok s ct sp tid um f srcs : core s ct sp -> 0 <= tid -> renameMap s !! Z.to_nat tid = Some um ->
  Forall (fun r => regClass r <> VecElemClass /\ arch_ok (f r)) srcs ->
  exists l, renameSrcRegs s tid f srcs = Ok l /\
    Forall (fun '(r, p) => live r -> entry um r = p) (zip (f <$> srcs) l.*1).
Proof.
  intros C Htid Hu. induction 1 as [|r srcs [Hre Hr] _ (l & El & Hl)]; [by exists []|].
  destruct (src_ready _ _ _ _ _ _ C Hu Hr) as (p & b & Hp & Hb & Hlive).
  exists ((p, b) :: l). cbn [renameSrcRegs]. rewrite (aread_Ok _ _ um) by done. cbn [mbind res_bind]. rewrite Hp. cbn [mbind res_bind].
  rewrite bool_decide_eq_false_2 by done. cbn [negb]. rewrite Hb. cbn [mbind res_bind]. rewrite El. split; [done|].
  cbn. apply Forall_cons. split; [|done]. intros Hlr. by rewrite Hlive.
Qed.

Lemma numFree_le c fl : 0 <= numFree c fl <= Z.of_nat (length (free_of c fl)).
Proof. unfold numFree, wrap_u. split; [by apply Z.mod_pos_bound|]. apply Z.mod_le; lia. Qed.

Lemma canRename_enough s um dests : um_ok um ->
  canRename um (fl s) (Z.of_nat (numDest IntRegClass dests)) (Z.of_nat (numDest FloatRegClass dests))
    (Z.of_nat (numDest VecRegClass dests)) (Z.of_nat (numDest VecElemClass dests)) (Z.of_nat (numDest CCRegClass dests)) = Ok true ->
  enough_free s dests.
Proof.
  intros Hu. unfold canRename, numFreeEntries_simple.
  rewrite (uo_free _ Hu IntRegClass (intMap um)), (uo_free _ Hu FloatRegClass (floatMap um)), (uo_free _ Hu VecRegClass (vecMap um)),
    (uo_free _ Hu VecElemClass (vecElemMap um)), (uo_free _ Hu CCRegClass (ccMap um)) by done.
  cbn [deref mbind res_bind]. intros [= E] c Hc. repeat (apply andb_true_iff in E as [E ?]).
  pose proof (numFree_le c (fl s)). destruct c; try done; lia.
Qed.

Lemma rename_detail m tid sn f srcs writes : inv m -> enabled circular m (Rename tid sn f srcs writes) ->
  exists m' ps i t, do_rename m tid sn f srcs writes = Ok m' /\ inv m' /\
    insts_renamed (ms m) (ms m') (Z.to_nat tid) sn (f <$> writes.*1) ps /\
    seqNum (if_inst i) = sn /\ threads m !! Z.to_nat tid = Some t /\
    threads m' = <[Z.to_nat tid := {| rob := i :: rob t; retired := retired t; done_sn := done_sn t; initial := initial t |}]> (threads m).
Proof.
  intros I (Htid & um0 & t & Hu0 & Ht & Hsn & Hrobsn & Hsrcs & Hw & Hzero & Hcan). cbn zeta in *.
  destruct (inv_thread _ _ _ I Ht) as (um & cm & hb & Hu & Hc & Hh & Hs & Hu1 & Hu2 & Hc1 & Hhist & Hvals & Hrob).
  assert (um0 = um) as -> by congruence. pose proof (lookup_lt_Some _ _ _ Ht) as Lt.
  destruct (renameSrcRegs_ok _ _ _ _ _ f srcs (iv_core _ I) Htid Hu Hsrcs) as (l & El & Hl).
  set (ws := prod_map f id <$> writes : list (RegId * V)).
  assert (ws.*1 = f <$> writes.*1) as E1 by (unfold ws; rewrite <- !list_fmap_compose; done).
  assert (ws.*2 = writes.*2) as E2 by (unfold ws; rewrite <- list_fmap_compose; done).
  assert (enough_free (ms m) ws.*1) as Hfree by (rewrite E1; by apply (canRename_enough _ um)).
  rewrite <- E1 in Hw, Hzero.
  assert (has_zero (ms m) (Z.to_nat tid) ws.*1) as Hzero' by (intros Hin; rewrite (Hzero Hin); apply (co_zero _ _ _ (iv_core _ I))).
  destruct (rename_loop ws _ _ _ tid sn _ _ (iv_core _ I) Htid Hs Hw Hfree Hzero') as (s' & ps & E & Hps & C' & Ec & Ef & HR).
  pose proof HR as HR'. destruct HR as (um0 & um' & hb0 & es & Hu' & Hh' & Em & Eh & Hes & Har & Hnew & Hund).
  assert (um0 = um) as -> by congruence. assert (hb0 = hb) as -> by congruence.
  unfold do_rename. rewrite El. cbn [mbind res_bind]. unfold renameDestRegs. rewrite <- E1, E. cbn [mbind res_bind].
  rewrite (aread_Ok _ _ t) by done. cbn [mbind res_bind]. rewrite awrite_Ok by lia. cbn [mbind res_bind]. eexists _, ps, _, t. split; [done|].
  split; [|split; [exact (conj Ec (conj Ef HR'))|split; [|split; [exact Ht|reflexivity]]; reflexivity]].
  eapply (inv_intro m _ (Z.to_nat tid) _ um' cm (es ++ hb) I); cbn [ms threads contents rob done_sn]; try done.
  - rewrite list_fmap_insert. unfold spec at 1. cbn [initial rob retired renamedDestRegs if_writes].
    rewrite <- E2. unfold pending. rewrite fmap_cons. cbn [concat if_writes]. rewrite <- app_assoc. exact C'.
  - rewrite list_insert_id; [done|]. congruence.
  - cbn [rob_ok]. exists es, hb. rewrite Hund. split; [done|]. split; [|done].
    split_and!; cbn [if_inst seqNum flatDestRegs renamedDestRegs if_writes]; done.
Qed.

Lemma rename_ok m tid sn f srcs writes : inv m -> enabled circular m (Rename tid sn f srcs writes) ->
  exists m', do_rename m tid sn f srcs writes = Ok m' /\ inv m'.
Proof. intros I He. destruct (rename_detail _ _ _ _ _ _ I He) as (m' & _ & _ & _ & E & I' & _). by exists m'. Qed.

(** Every event the pipeline may do succeeds and keeps the invariant. *)
Lemma event_ok m ev : inv m -> enabled circular m ev -> exists m', run_event circular m ev = Ok m' /\ inv m'.
Proof. destruct ev; [apply rename_ok|apply squash_ok|apply commit_ok|apply do_release_ok]. Qed.

Lemma run_events_app a : forall m b, run_events circular m (a ++ b) = (m ← run_events circular m a; run_events circular m b).
Proof. induction a as [|ev a IH]; intros m b; cbn; [done|]. destruct (run_event circular m ev); cbn; auto. Qed.

Lemma events_ok evs : forall m, inv m -> all_enabled circular m evs -> exists m', run_events circular m evs = Ok m' /\ inv m'.
Proof.
  induction evs as [|ev evs IH]; intros m I He; [by exists m|]. destruct He as [He Hn].
  destruct (event_ok m ev I He) as (m1 & E & I1). cbn [run_events]. rewrite E. cbn. apply IH; auto.
Qed.

(** The register file is constant. *)
Lemma renameDestRegs_loop_file tid sn ds : forall s s' ps, renameDestRegs_loop s tid sn ds = Ok (s', ps) -> regFile s' = regFile s.
Proof.
  induction ds as [|r ds IH]; intros s s' ps; cbn [renameDestRegs_loop]; [by intros [= <- <-]|].
  intros ([s1 p] & E1 & E)%bind_Ok. apply bind_Ok in E as ([s2 ps2] & E2 & [= <- <-]).
  rewrite (IH _ _ _ E2). unfold renameDestReg in E1.
  apply bind_Ok in E1 as (um & _ & E1). apply bind_Ok in E1 as ([[[p1 p2] um'] fl'] & _ & E1).
  repeat (apply bind_Ok in E1 as (? & _ & E1)). by injection E1 as <- _.
Qed.

Lemma run_event_file (m m' : Machine) ev : run_event circular m ev = Ok m' -> regFile (ms m') = regFile (ms m).
Proof.
  destruct ev; cbn [run_event]; unfold do_rename, do_squash, do_commit, do_release.
  - intros (l & _ & E)%bind_Ok. apply bind_Ok in E as ([s i] & E & E'). unfold renameDestRegs in E.
    apply bind_Ok in E as ([s1 ps] & E & [= <- _]). repeat (apply bind_Ok in E' as (? & _ & E')). injection E' as <-.
    by eapply renameDestRegs_loop_file.
  - intros (s & E & E')%bind_Ok. repeat (apply bind_Ok in E' as (? & _ & E')). injection E' as <-. unfold doSquash in E.
    apply bind_Ok in E as (? & _ & E). apply bind_Ok in E as (? & _ & E). apply bind_Ok in E as ([[? ?] ?] & _ & E).
    repeat (apply bind_Ok in E as (? & _ & E)). by injection E as <-.
  - intros (t & _ & E)%bind_Ok. destruct (rev (rob t)); [by injection E as <-|]. apply bind_Ok in E as (s & E & E').
    repeat (apply bind_Ok in E' as (? & _ & E')). injection E' as <-. unfold commit_inst in E.
    repeat (apply bind_Ok in E as (? & _ & E)). by injection E as <-.
  - intros (s & E & [= <-])%bind_Ok. unfold removeFromHistory in E.
    apply bind_Ok in E as (? & _ & E). apply bind_Ok in E as (? & _ & E). apply bind_Ok in E as ([? ?] & _ & E).
    repeat (apply bind_Ok in E as (? & _ & E)). by injection E as <-.
Qed.

Lemma run_events_file evs : forall m m' : Machine, run_events circular m evs = Ok m' -> regFile (ms m') = regFile (ms m).
Proof.
  induction evs as [|ev evs IH]; intros m m'; cbn; [by intros [= <-]|].
  intros (m1 & E1 & E)%bind_Ok. rewrite (IH _ _ E). by eapply run_event_file.
Qed.

End RenameTheorems.
