(* ===== verification/RenameInit.v ===== *)
(** The state the CPU starts in: the constructor of the register file, of the free
    list and of the rename maps terminates without an error, and establishes the
    invariant of register renaming. *)
From S2P Require Import Prelude PhysReg RenameMap Rename RenameInv RenameTheorems.

Section RenameInit.
Context `{RegISALaws} {V : Type}.
#[local] Hint Extern 0 (um_shape _) => (apply uo_shape; assumption) : core.

(** ** The register file *)

Definition scalar_id (c : RegClass) (flat i : Z) : PhysRegId :=
  {| pr_id := {| regClass := c; regIdx := i; elemIdx := u16 (-1) |}; flatIdx := flat + i |}.
Definition scalar_ids (c : RegClass) (n flat : Z) : list PhysRegId := scalar_id c flat <$> seqZ 0 n.

Lemma PhysRegId_new_ok c i flat : c <> VecElemClass -> 0 <= i < 2 ^ 16 -> 0 <= flat + i < 2 ^ 15 ->
  PhysRegId_new c i (flat + i) = Ok (scalar_id c flat i).
Proof.
  intros Hc Hi Hf. unfold PhysRegId_new, RegId_new. rewrite bool_decide_eq_false_2 by done. cbn.
  unfold scalar_id. by rewrite wrap_u_id, wrap_s_id by lia.
Qed.

Lemma emplace_scalars_ok c n flat : c <> VecElemClass -> 0 <= n -> 0 <= flat -> flat + n < 2 ^ 15 ->
  emplace_scalars c n flat = Ok (scalar_ids c n flat, flat + n).
Proof.
  intros Hc Hn Hf Hlt. unfold emplace_scalars.
  destruct (for_range_ok (fun i st => st = (scalar_ids c i flat, flat + i)) (fun i '(ids, flat) =>
    id ← PhysRegId_new c i flat; Ok (ids ++ [id], s16 (flat + 1))) 0 n ([], flat)) as (s & -> & ->); [done|by rewrite Z.add_0_r| |done].
  intros i s Hi ->. rewrite PhysRegId_new_ok by (done || lia). cbn. eexists. split; [done|].
  unfold scalar_ids. rewrite seqZ_app, fmap_app by lia. rewrite wrap_s_id by lia.
  replace (Z.to_nat 1) with 1%nat by done. cbn. f_equal. lia.
Qed.

Lemma scalar_ids_lookup c n flat i : 0 <= i < n -> scalar_ids c n flat !! Z.to_nat i = Some (scalar_id c flat i).
Proof. intros Hi. unfold scalar_ids. rewrite list_lookup_fmap, (proj2 (lookup_seqZ _ _ _ (0 + i))) by lia. done. Qed.
Lemma scalar_ids_elem c n flat p : p ∈ scalar_ids c n flat -> exists i, 0 <= i < n /\ p = scalar_id c flat i.
Proof. intros (i & -> & Hi)%list_elem_of_fmap. apply elem_of_seqZ in Hi. exists i. split; [lia|done]. Qed.
Lemma scalar_ids_length c n flat : length (scalar_ids c n flat) = Z.to_nat n.
Proof. unfold scalar_ids. by rewrite length_fmap, length_seqZ. Qed.
Lemma scalar_ids_nodup c n flat : NoDup (scalar_ids c n flat).
Proof. apply NoDup_fmap_2; [|apply NoDup_seqZ]. intros i j E. injection E. lia. Qed.

Definition elem_id (flat j : Z) : PhysRegId :=
  {| pr_id := {| regClass := VecElemClass; regIdx := j / NumVecElemPerVecReg; elemIdx := j mod NumVecElemPerVecReg |};
     flatIdx := flat + j |}.
Definition elem_ids (n flat : Z) : list PhysRegId := elem_id flat <$> seqZ 0 (n * NumVecElemPerVecReg).

Lemma emplace_elems_ok n flat : 0 <= n -> 0 <= flat -> flat + n * NumVecElemPerVecReg < 2 ^ 15 ->
  emplace_elems n flat = Ok (elem_ids n flat, flat + n * NumVecElemPerVecReg).
Proof.
  intros Hn Hf Hlt. pose proof elems_ok as HE. set (N := NumVecElemPerVecReg) in *. unfold emplace_elems.
  match goal with |- for_range _ _ ?body _ = _ =>
    destruct (for_range_ok (fun i st => st = (elem_id flat <$> seqZ 0 (i * N), flat + i * N)) body 0 n ([], flat))
      as (s & -> & ->); [done|by rewrite Z.add_0_r| |done] end.
  intros i s Hi ->.
  match goal with |- exists s', for_range _ _ ?body _ = _ /\ _ =>
    destruct (for_range_ok (fun e st => st = (elem_id flat <$> seqZ 0 (i * N + e), flat + (i * N + e))) body 0 N
      (elem_id flat <$> seqZ 0 (i * N), flat + i * N)) as (s & Es & ->); [fold N; lia|by rewrite !Z.add_0_r| |] end.
  - intros e s He ->. assert (i * N + N <= n * N) by nia. assert (0 <= i * N) by nia. assert (i <= i * N) by nia.
    unfold PhysRegId_elem, RegId_elem. rewrite bool_decide_eq_true_2 by done. cbn. eexists. split; [done|].
    rewrite !wrap_u_id, !wrap_s_id by (fold N; lia).
    replace (i * N + (e + 1)) with (i * N + e + 1) by lia. rewrite (seqZ_app 0 (i * N + e) 1), fmap_app by lia.
    replace (seqZ (0 + (i * N + e)) 1) with [i * N + e] by done. cbn. unfold elem_id. fold N.
    rewrite Z.div_add_l, Z.div_small, Z.add_0_r by lia.
    assert ((i * N + e) mod N = e) as -> by (rewrite Z.add_comm, Z.mod_add, Z.mod_small; lia). f_equal. lia.
  - change NumVecElemPerVecReg with N. change NumVecElemPerVecReg with N in Es. rewrite Es. eexists. split; [done|]. by replace (i * N + N) with ((i + 1) * N) by lia.
Qed.

Lemma emplace_miscs_ok n : 0 <= n < 2 ^ 16 ->
  emplace_miscs n = Ok ((fun i => scalar_id MiscRegClass (- i) i) <$> seqZ 0 n).
Proof.
  intros Hn. unfold emplace_miscs.
  destruct (for_range_ok (fun i ids => ids = (fun i => scalar_id MiscRegClass (- i) i) <$> seqZ 0 i)
    (fun i ids => id ← PhysRegId_new MiscRegClass i 0; Ok (ids ++ [id])) 0 n []) as (s & -> & ->); [lia|done| |done].
  intros i s Hi ->. replace (PhysRegId_new MiscRegClass i 0) with (PhysRegId_new MiscRegClass i (- i + i)) by (f_equal; lia).
  rewrite PhysRegId_new_ok by (done || lia). cbn. eexists. split; [done|].
  rewrite (seqZ_app 0 i 1), fmap_app by lia. done.
Qed.

(** The counts the CPU is configured with: enough for the architectural registers
    of [n] threads, and within the [short] the ids are counted with. *)
Record counts_ok (n nInt nFloat nVec nCC : Z) : Prop := {
  ct_n : 0 < n;
  ct_int : n * NumIntRegs <= nInt; ct_float : n * NumFloatRegs <= nFloat;
  ct_vec : n * NumVecRegs <= nVec; ct_cc : n * NumCCRegs <= nCC;
  ct_total : nInt + nFloat + nVec + nVec * NumVecElemPerVecReg + nCC < 2 ^ 15 }.

Lemma counts_nonneg n nInt nFloat nVec nCC : counts_ok n nInt nFloat nVec nCC ->
  0 < nInt /\ 0 <= nFloat /\ 0 <= nVec /\ 0 <= nCC /\ 0 <= nVec * NumVecElemPerVecReg.
Proof.
  intros C. pose proof zero_in_range. pose proof elems_ok. pose proof (sizes_ok FloatRegClass).
  pose proof (sizes_ok VecRegClass). pose proof (sizes_ok CCRegClass). cbn [class_size] in *. destruct C. split_and!; nia.
Qed.

Definition booted_file (nInt nFloat nVec nCC : Z) : PhysRegFile :=
  {| intRegFile := replicate (Z.to_nat nInt) 0; intRegIds := scalar_ids IntRegClass nInt 0;
     floatRegFile := replicate (Z.to_nat nFloat) 0; floatRegIds := scalar_ids FloatRegClass nFloat nInt;
     vectorRegFile := replicate (Z.to_nat nVec) (replicate (Z.to_nat NumVecElemPerVecReg) 0);
     vecRegIds := scalar_ids VecRegClass nVec (nInt + nFloat);
     vecElemIds := elem_ids nVec (nInt + nFloat + nVec);
     ccRegFile := replicate (Z.to_nat nCC) 0;
     ccRegIds := scalar_ids CCRegClass nCC (nInt + nFloat + nVec + nVec * NumVecElemPerVecReg);
     miscRegIds := (fun i => scalar_id MiscRegClass (- i) i) <$> seqZ 0 NumMiscRegs;
     numPhysicalIntRegs := nInt; numPhysicalFloatRegs := nFloat; numPhysicalVecRegs := nVec;
     numPhysicalVecElemRegs := nVec * NumVecElemPerVecReg; numPhysicalCCRegs := nCC;
     totalNumRegs := nInt + nFloat + nVec + nVec * NumVecElemPerVecReg + nCC; rf_vecMode := Full |}.

Lemma PhysRegFile_new_booted n nInt nFloat nVec nCC : counts_ok n nInt nFloat nVec nCC ->
  PhysRegFile_new nInt nFloat nVec nCC Full = Ok (booted_file nInt nFloat nVec nCC).
Proof.
  intros C. pose proof (counts_nonneg _ _ _ _ _ C) as (H1 & H2 & H3 & H4 & H5). pose proof (ct_total _ _ _ _ _ C).
  pose proof (sizes_ok MiscRegClass). cbn [class_size] in *. unfold PhysRegFile_new.
  rewrite emplace_scalars_ok by (done || lia). cbn [mbind res_bind]. rewrite emplace_scalars_ok by (done || lia). cbn [mbind res_bind].
  rewrite emplace_scalars_ok by (done || lia). cbn [mbind res_bind]. rewrite emplace_elems_ok by lia. cbn [mbind res_bind].
  rewrite emplace_scalars_ok by (done || lia). cbn [mbind res_bind]. rewrite emplace_miscs_ok by lia. cbn [mbind res_bind].
  rewrite !wrap_u_id by lia. unfold booted_file. by rewrite Z.add_0_l.
Qed.

Lemma booted_class nInt nFloat nVec nCC c p : p ∈ getRegIds (booted_file nInt nFloat nVec nCC) c -> classValue p = c.
Proof.
  destruct c; cbn [getRegIds booted_file intRegIds floatRegIds vecRegIds vecElemIds ccRegIds miscRegIds];
    try (by intros (i & _ & ->)%scalar_ids_elem); by intros (i & -> & _)%list_elem_of_fmap.
Qed.

(** The flat index of a register tells its class and index. *)
Definition pool_base (nInt nFloat nVec nCC : Z) (c : RegClass) : Z * Z :=
  match c with
  | IntRegClass => (0, nInt) | FloatRegClass => (nInt, nFloat) | VecRegClass => (nInt + nFloat, nVec)
  | CCRegClass => (nInt + nFloat + nVec + nVec * NumVecElemPerVecReg, nCC) | _ => (0, 0)
  end.
Lemma booted_pool nInt nFloat nVec nCC c :
  pool c (booted_file nInt nFloat nVec nCC) = match c with VecElemClass | MiscRegClass => []
    | _ => scalar_ids c (pool_base nInt nFloat nVec nCC c).2 (pool_base nInt nFloat nVec nCC c).1 end.
Proof. by destruct c. Qed.
Lemma booted_pool_elem nInt nFloat nVec nCC c p : p ∈ pool c (booted_file nInt nFloat nVec nCC) ->
  exists i, 0 <= i < (pool_base nInt nFloat nVec nCC c).2 /\ p = scalar_id c (pool_base nInt nFloat nVec nCC c).1 i.
Proof.
  rewrite booted_pool. destruct c; try (by intros ?%not_elem_of_nil); apply scalar_ids_elem.
Qed.

Lemma booted_file_ok n nInt nFloat nVec nCC : counts_ok n nInt nFloat nVec nCC -> file_ok (booted_file nInt nFloat nVec nCC).
Proof.
  intros C. pose proof (counts_nonneg _ _ _ _ _ C) as (H1 & H2 & H3 & H4 & H5). pose proof (ct_total _ _ _ _ _ C). split.
  - apply booted_class.
  - intros c. rewrite booted_pool. destruct c; try apply NoDup_nil_2; apply scalar_ids_nodup.
  - intros p q Hp Hq. apply scalar_ids_elem in Hp as (i & _ & ->). apply scalar_ids_elem in Hq as (j & _ & ->). by cbn; intros ->.
  - intros c c' p q (i & Hi & ->)%booted_pool_elem (j & Hj & ->)%booted_pool_elem E. cbn [flatIdx scalar_id] in E.
    assert (c = c') as -> by (destruct c, c'; cbn [pool_base fst snd] in *; done || lia). f_equal. lia.
  - intros c p. pose proof misc_some. destruct c; cbn [getRegIds booted_file intRegIds floatRegIds vecRegIds vecElemIds ccRegIds miscRegIds totalNumRegs];
      try (intros (i & Hi & ->)%scalar_ids_elem; cbn [scalar_id flatIdx]; lia).
    + intros (i & -> & Hi)%list_elem_of_fmap. apply elem_of_seqZ in Hi. cbn [elem_id flatIdx]. lia.
    + intros (i & -> & Hi)%list_elem_of_fmap. cbn [scalar_id flatIdx]. lia.
  - cbn [booted_file totalNumRegs]. lia.
  - intros i Hi. exists (scalar_id MiscRegClass (- i) i). unfold getMiscRegId. cbn [miscRegIds booted_file].
    assert (((fun i => scalar_id MiscRegClass (- i) i) <$> seqZ 0 NumMiscRegs) !! Z.to_nat i = Some (scalar_id MiscRegClass (- i) i)) as E.
    { rewrite list_lookup_fmap, (proj2 (lookup_seqZ _ _ _ (0 + i))) by lia. done. }
    split; [by apply aread_Ok; [lia|]|]. by eapply list_elem_of_lookup_2.
Qed.

(** ** The free list *)

Lemma check_ids_ok c n flat : 0 <= n -> check_ids (scalar_ids c n flat) n = Ok ().
Proof.
  intros Hn. unfold check_ids.
  match goal with |- for_range _ _ ?body _ = _ => destruct (for_range_ok (fun _ _ => True) body 0 n ()) as ([] & -> & _); try done end.
  intros i [] Hi _. exists (). split; [|done]. rewrite (aread_Ok _ _ (scalar_id c flat i)) by (lia || by apply scalar_ids_lookup).
  cbn. by rewrite Z.eqb_refl.
Qed.

Lemma check_elems_ok nInt nFloat nVec nCC : 0 <= nVec -> check_elems (booted_file nInt nFloat nVec nCC) = Ok ().
Proof.
  intros Hn. pose proof elems_ok. unfold check_elems. cbn [booted_file numPhysicalVecRegs vecRegIds vecElemIds].
  match goal with |- for_range _ _ ?body _ = _ => destruct (for_range_ok (fun _ _ => True) body 0 nVec ()) as ([] & -> & _); try done end.
  intros i [] Hi _. exists (). split; [|done].
  rewrite (aread_Ok _ _ (scalar_id VecRegClass (nInt + nFloat) i)) by (lia || by apply scalar_ids_lookup). cbn [mbind res_bind scalar_id pr_id regIdx].
  rewrite Z.eqb_refl.
  match goal with |- for_range _ _ ?body _ = _ => destruct (for_range_ok (fun _ _ => True) body 0 NumVecElemPerVecReg ()) as ([] & -> & _); try done end; [lia|].
  intros e [] He _. exists (). split; [|done].
  rewrite (aread_Ok _ _ (elem_id (nInt + nFloat + nVec) (i * NumVecElemPerVecReg + e))).
  - cbn [mbind res_bind elem_id pr_id regIdx elemIdx]. rewrite Z.div_add_l, Z.div_small, Z.add_0_r by lia.
    rewrite Z.add_comm, Z.mod_add, Z.mod_small by lia. by rewrite !Z.eqb_refl.
  - nia.
  - unfold elem_ids. rewrite list_lookup_fmap, (proj2 (lookup_seqZ _ _ _ (0 + (i * NumVecElemPerVecReg + e)))); [done|]. split; nia.
Qed.

Lemma addRegs_ok fl c n flat : c <> MiscRegClass -> 0 <= n ->
  addRegs fl (scalar_ids c n flat) = Ok (with_free c (free_of c fl ++ scalar_ids c n flat) fl).
Proof.
  intros Hc Hn. unfold addRegs. destruct (decide (n = 0)) as [->|Hne].
  - change (scalar_ids c 0 flat) with (@nil PhysRegId). cbn [head]. rewrite app_nil_r. f_equal. by destruct fl, c.
  - assert (Forall (fun p => classValue p = c) (scalar_ids c n flat)) as Hall.
    { apply Forall_forall. by intros p (i & _ & ->)%scalar_ids_elem. }
    destruct (scalar_ids c n flat) as [|p l] eqn:E.
    { apply (f_equal length) in E. rewrite scalar_ids_length in E. cbn in E. lia. }
    destruct (last (p :: l)) as [q|] eqn:El; [|by apply last_None in El].
    apply last_Some_elem_of in El. rewrite Forall_forall in Hall. cbn [head].
    rewrite (Hall p), (Hall q) by (done || apply elem_of_cons; by left). rewrite bool_decide_eq_true_2 by done.
    by destruct c.
Qed.

Lemma UnifiedFreeList_new_ok n nInt nFloat nVec nCC : counts_ok n nInt nFloat nVec nCC ->
  exists fl, UnifiedFreeList_new (booted_file nInt nFloat nVec nCC) = Ok fl /\
    forall c, free_of c fl = pool c (booted_file nInt nFloat nVec nCC).
Proof.
  intros C. pose proof (counts_nonneg _ _ _ _ _ C) as (H1 & H2 & H3 & H4 & H5).
  unfold UnifiedFreeList_new, initFreeList. cbn [booted_file intRegIds floatRegIds vecRegIds ccRegIds numPhysicalIntRegs
    numPhysicalFloatRegs numPhysicalCCRegs rf_vecMode].
  rewrite check_ids_ok by lia. cbn [mbind res_bind]. rewrite addRegs_ok by (done || lia). cbn [mbind res_bind].
  rewrite check_ids_ok by lia. cbn [mbind res_bind]. rewrite addRegs_ok by (done || lia). cbn [mbind res_bind].
  rewrite check_elems_ok by lia. cbn [mbind res_bind]. rewrite addRegs_ok by (done || lia). cbn [mbind res_bind].
  rewrite check_ids_ok by lia. cbn [mbind res_bind]. rewrite addRegs_ok by (done || lia).
  eexists. split; [done|]. by intros [].
Qed.

(** ** The initial mapping *)

(** The effect of one of the loops over the registers of a class. *)
Record class_mapped (c : RegClass) (k : Z) (fl : UnifiedFreeList) (um : UnifiedRenameMap)
    (fl' : UnifiedFreeList) (um' : UnifiedRenameMap) : Prop := {
  cl_shape : um_shape um';
  cl_free c' : free_of c' fl' = if decide (c = c') then drop (Z.to_nat k) (free_of c' fl) else free_of c' fl;
  cl_entry r : arch_ok r -> regClass r <> MiscRegClass ->
    entry um' r = if decide (regClass r = c /\ regIdx r < k) then free_of c fl !! Z.to_nat (regIdx r) else entry um r;
  cl_mapped c' : mapped c' um' ≡ₚ (if decide (c = c') then take (Z.to_nat k) (free_of c fl) else []) ++ mapped c' um }.

Lemma arch_scalar c i : c <> VecElemClass -> 0 <= i < class_size c ->
  RegId_new c i = Ok {| regClass := c; regIdx := i; elemIdx := u16 (-1) |} /\
  arch_ok {| regClass := c; regIdx := i; elemIdx := u16 (-1) |}.
Proof.
  intros Hc Hi. pose proof (sizes_ok c). unfold RegId_new. rewrite bool_decide_eq_false_2 by done. cbn [negb].
  rewrite (wrap_u_id 16 i) by lia. by split; [|split].
Qed.

Lemma map_scalars_ok rf c fl um :
  c <> VecElemClass -> c <> MiscRegClass -> um_shape um ->
  (forall i, 0 <= i < class_size c -> entry um {| regClass := c; regIdx := i; elemIdx := u16 (-1) |} = None) ->
  Forall (fun p => classValue p = c) (free_of c fl) -> class_size c <= Z.of_nat (length (free_of c fl)) ->
  exists fl' um', map_scalars rf c (class_size c) (fl, um, um) = Ok (fl', um', um') /\
    class_mapped c (class_size c) fl um fl' um'.
Proof.
  intros Hc Hm Hu Hnone Hcl Hlen. unfold map_scalars. pose proof (sizes_ok c) as Hsz.
  match goal with |- exists fl' um', for_range _ _ ?body _ = _ /\ _ =>
    destruct (for_range_ok (fun k st => exists fl' um', st = (fl', um', um') /\ class_mapped c k fl um fl' um') body 0 (class_size c) (fl, um, um))
      as (s & E & fl' & um' & -> & Hcm); [lia| | |by exists fl', um'] end.
  - exists fl, um. split; [done|]. split; [done| | |].
    + intros c'. by destruct (decide _) as [<-|].
    + intros r Hr _. rewrite decide_False; [done|]. pose proof (ao_idx _ Hr). lia.
    + intros c'. by destruct (decide _).
  - intros k s Hk (fl1 & um1 & -> & M). destruct (arch_scalar c k Hc Hk) as [Er Ha]. rewrite Er. cbn [mbind res_bind].
    set (r := {| regClass := c; regIdx := k; elemIdx := u16 (-1) |}) in *.
    destruct (lookup_lt_is_Some_2 (free_of c fl) (Z.to_nat k)) as [p Hp]; [lia|].
    assert (free_of c fl1 = p :: drop (Z.to_nat (k + 1)) (free_of c fl)) as Ef.
    { rewrite (cl_free _ _ _ _ _ _ M), decide_True by done. rewrite (drop_S _ p) by done. do 2 f_equal. lia. }
    assert (classValue p = c) as Hcp by (rewrite Forall_lookup in Hcl; by apply (Hcl (Z.to_nat k))).
    assert (entry um1 r = None) as En.
    { rewrite (cl_entry _ _ _ _ _ _ M) by done. rewrite decide_False by (intros [_ Hlt]; cbn in Hlt; lia). by apply Hnone. }
    pose proof (cl_shape _ _ _ _ _ _ M) as Hu1.
    unfold map_arch_reg, getFree. rewrite Ef. cbn [getReg mbind res_bind]. rewrite setEntry_set by done. cbn [mbind res_bind].
    eexists. split; [done|]. eexists _, _. split; [done|]. split.
    + by apply um_shape_set.
    + intros c'. rewrite free_of_with by done. destruct (decide (c = c')) as [<-|]; [done|].
      rewrite (cl_free _ _ _ _ _ _ M). by rewrite decide_False.
    + intros r' Hr' Hm'. rewrite entry_set by done. rewrite (cl_entry _ _ _ _ _ _ M) by done.
      destruct (decide (r = r')) as [<-|Hne].
      { rewrite decide_True by (split; cbn; [done|lia]). by rewrite <- Hp. }
      assert (~ (regClass r' = c /\ regIdx r' = k)) as Hnk.
      { intros [E1 E2]. apply Hne. destruct Hr' as [E3 _]. unfold r. destruct r'; cbn in *; congruence. }
      destruct (decide (regClass r' = c /\ regIdx r' < k)) as [[E1 E2]|Hn]; [by rewrite decide_True by (split; [done|lia])|].
      rewrite decide_False; [done|]. intros [E1 E2]. apply Hn. split; [done|].
      assert (regIdx r' <> k) by (intros E3; by apply Hnk). lia.
    + intros c'. destruct (mapped_set um1 r c' Hu1 Ha Hm) as (rest & M1 & M2). rewrite M2. change (regClass r) with c in *.
      rewrite (cl_mapped _ _ _ _ _ _ M) in M1. rewrite En in M1. destruct (decide (c = c')) as [<-|]; cbn [option_list app] in M1.
      * rewrite <- M1. replace (Z.to_nat (k + 1)) with (S (Z.to_nat k)) by lia. rewrite (take_S_r _ _ p) by done. solve_Permutation.
      * by rewrite <- M1.
Qed.

Record fresh_map (um : UnifiedRenameMap) : Prop := {
  fm_shape : um_shape um;
  fm_none r : arch_ok r -> entry um r = None;
  fm_mapped c : mapped c um = [] }.

Lemma omap_None {A} n : omap id (replicate n (@None A)) = [].
Proof. induction n as [|n IH]; [done|]. cbn. exact IH. Qed.

Lemma init_fresh z : exists um, init ZeroReg z Full = Ok um /\ fresh_map um.
Proof.
  eexists. split; [reflexivity|].
  split; cbn [intMap floatMap vecMap vecElemMap ccMap].
  - split; cbn.
    + done.
    + intros [] m [= <-]; done.
    + done.
    + intros [] m ? [= <-]; done.
    + intros [] m ? [= <-]; cbn; try done; by rewrite length_replicate.
  - intros r Hr. unfold entry. destruct (map_of _ _) as [m|] eqn:E; [|done].
    assert (exists n, map m = replicate n None) as [n ->] by (destruct (regClass r); cbn in E; try done; injection E as <-; cbn; eauto).
    destruct (replicate n None !! _) as [o|] eqn:Eo; [|done]. apply lookup_replicate in Eo as [-> _]. done.
  - intros c. unfold mapped. destruct (map_of _ _) as [m|] eqn:E; [|done].
    destruct c; cbn in E; try done; injection E as <-; cbn; apply omap_None.
Qed.

(** A thread gets, for each class, the first registers of the free list, in
    order. *)
Record thread_mapped (fl : UnifiedFreeList) (fl' : UnifiedFreeList) (um : UnifiedRenameMap) : Prop := {
  tm_ok : um_ok um;
  tm_typed : typed um;
  tm_free c : free_of c fl' = drop (Z.to_nat (class_size c)) (free_of c fl);
  tm_entry r : arch_ok r -> regClass r <> MiscRegClass -> entry um r = free_of (regClass r) fl !! Z.to_nat (regIdx r);
  tm_mapped c : mapped c um ≡ₚ take (Z.to_nat (class_size c)) (free_of c fl) }.

Definition scalar_class (c : RegClass) : Prop := c <> VecElemClass /\ c <> MiscRegClass.

Lemma map_thread_ok rf fl um :
  fresh_map um -> (forall c, Forall (fun p => classValue p = c) (free_of c fl)) ->
  (forall c, scalar_class c -> class_size c <= Z.of_nat (length (free_of c fl))) ->
  exists fl' um', map_thread rf Full (fl, um, um) = Ok (fl', um', um') /\ thread_mapped fl fl' um'.
Proof.
  intros [Hu Hnone Hmap] Hcl Hlen. unfold map_thread.
  assert (forall c i, c <> VecElemClass -> 0 <= i < class_size c -> arch_ok {| regClass := c; regIdx := i; elemIdx := u16 (-1) |}) as Ha
    by (intros; by apply arch_scalar).
  destruct (map_scalars_ok rf IntRegClass fl um) as (fl1 & um1 & E1 & M1); auto; [by apply Hlen|].
  change NumIntRegs with (class_size IntRegClass). rewrite E1. cbn [mbind res_bind].
  destruct (map_scalars_ok rf FloatRegClass fl1 um1) as (fl2 & um2 & E2 & M2); try done;
    [apply M1|intros; rewrite (cl_entry _ _ _ _ _ _ M1) by auto; rewrite decide_False by (intros [? _]; done); auto
    |rewrite (cl_free _ _ _ _ _ _ M1); by apply Hcl|rewrite (cl_free _ _ _ _ _ _ M1); by apply Hlen|].
  change NumFloatRegs with (class_size FloatRegClass). rewrite E2. cbn [mbind res_bind].
  destruct (map_scalars_ok rf VecRegClass fl2 um2) as (fl3 & um3 & E3 & M3); try done;
    [apply M2|intros; rewrite (cl_entry _ _ _ _ _ _ M2), (cl_entry _ _ _ _ _ _ M1) by auto; rewrite !decide_False by (intros [? _]; done); auto
    |rewrite (cl_free _ _ _ _ _ _ M2), (cl_free _ _ _ _ _ _ M1); by apply Hcl
    |rewrite (cl_free _ _ _ _ _ _ M2), (cl_free _ _ _ _ _ _ M1); by apply Hlen|].
  change NumVecRegs with (class_size VecRegClass). rewrite E3. cbn [mbind res_bind].
  destruct (map_scalars_ok rf CCRegClass fl3 um3) as (fl4 & um4 & E4 & M4); try done;
    [apply M3|intros; rewrite (cl_entry _ _ _ _ _ _ M3), (cl_entry _ _ _ _ _ _ M2), (cl_entry _ _ _ _ _ _ M1) by auto;
       rewrite !decide_False by (intros [? _]; done); auto
    |rewrite (cl_free _ _ _ _ _ _ M3), (cl_free _ _ _ _ _ _ M2), (cl_free _ _ _ _ _ _ M1); by apply Hcl
    |rewrite (cl_free _ _ _ _ _ _ M3), (cl_free _ _ _ _ _ _ M2), (cl_free _ _ _ _ _ _ M1); by apply Hlen|].
  change NumCCRegs with (class_size CCRegClass). rewrite E4.
  assert (forall r, arch_ok r -> regClass r <> MiscRegClass -> entry um4 r = free_of (regClass r) fl !! Z.to_nat (regIdx r)) as He.
  { intros r Hr Hm. pose proof (ao_idx _ Hr) as Hi.
    rewrite (cl_entry _ _ _ _ _ _ M4), (cl_entry _ _ _ _ _ _ M3), (cl_entry _ _ _ _ _ _ M2), (cl_entry _ _ _ _ _ _ M1) by done.
    rewrite !(cl_free _ _ _ _ _ _ M3), !(cl_free _ _ _ _ _ _ M2), !(cl_free _ _ _ _ _ _ M1).
    pose proof (arch_ok_not_elem _ Hr).
    destruct (regClass r); try done; repeat case_decide; destruct_and?; try done;
      exfalso; match goal with Hn : ~ (_ /\ _) |- _ => by apply Hn; split; [|lia] end. }
  eexists _, _. split; [done|]. split.
  - split; [apply M4|]. intros r Hr Hm. rewrite He by done. pose proof (ao_idx _ Hr).
    apply lookup_lt_is_Some_2. pose proof (arch_ok_not_elem _ Hr). specialize (Hlen (regClass r) ltac:(split; done)). lia.
  - intros r p Hr Hp. destruct (decide (regClass r = MiscRegClass)) as [E|Hm].
    + unfold entry in Hp. by rewrite E in Hp.
    + rewrite He in Hp by done. specialize (Hcl (regClass r)). rewrite Forall_lookup in Hcl. by eapply Hcl.
  - intros c. rewrite (cl_free _ _ _ _ _ _ M4), (cl_free _ _ _ _ _ _ M3), (cl_free _ _ _ _ _ _ M2), (cl_free _ _ _ _ _ _ M1).
    destruct c; repeat case_decide; try done; cbn; by rewrite drop_nil.
  - done.
  - intros c. rewrite (cl_mapped _ _ _ _ _ _ M4), (cl_mapped _ _ _ _ _ _ M3), (cl_mapped _ _ _ _ _ _ M2), (cl_mapped _ _ _ _ _ _ M1), Hmap.
    rewrite !(cl_free _ _ _ _ _ _ M3), !(cl_free _ _ _ _ _ _ M2), !(cl_free _ _ _ _ _ _ M1).
    destruct c; repeat case_decide; try done; cbn; rewrite ?app_nil_r, ?take_nil; done.
Qed.

Lemma map_threads_ok rf um : fresh_map um -> forall n fl,
  (forall c, Forall (fun p => classValue p = c) (free_of c fl)) ->
  (forall c, scalar_class c -> Z.of_nat n * class_size c <= Z.of_nat (length (free_of c fl))) ->
  exists fl' rms, map_threads rf Full n fl (replicate n um) = Ok (fl', rms, rms) /\ length rms = n /\
    Forall (fun um => um_ok um /\ typed um) rms /\
    (forall c, free_of c fl' ++ concat (mapped c <$> rms) ≡ₚ free_of c fl) /\
    (forall um0, head rms = Some um0 -> forall r, arch_ok r -> regClass r <> MiscRegClass ->
       entry um0 r = free_of (regClass r) fl !! Z.to_nat (regIdx r)).
Proof.
  intros Hf. induction n as [|n IH]; intros fl Hcl Hlen.
  - exists fl, []. cbn. split_and!; try done. intros c. by rewrite app_nil_r.
  - cbn [replicate map_threads].
    destruct (map_thread_ok rf fl um Hf Hcl) as (fl1 & um1 & E1 & M1).
    { intros c Hc. specialize (Hlen c Hc). pose proof (sizes_ok c). nia. }
    rewrite E1. cbn [mbind res_bind].
    destruct (IH fl1) as (fl' & rms & E & Hl & Hok & Hcons & _).
    { intros c. rewrite (tm_free _ _ _ M1). by apply Forall_drop. }
    { intros c Hc. rewrite (tm_free _ _ _ M1), length_drop. specialize (Hlen c Hc). pose proof (sizes_ok c). nia. }
    rewrite E. cbn [mbind res_bind]. exists fl', (um1 :: rms). split; [done|]. split; [cbn; lia|]. split; [|split].
    + apply Forall_cons. split; [split; apply M1|done].
    + intros c. rewrite fmap_cons. cbn [concat]. rewrite (tm_mapped _ _ _ M1).
      rewrite <- (take_drop (Z.to_nat (class_size c)) (free_of c fl)) at 2. rewrite <- (tm_free _ _ _ M1), <- Hcons.
      solve_Permutation.
    + intros um0 [= <-]. apply M1.
Qed.

(** ** The CPU at the start *)

Definition initial_value (ct : PhysRegId -> V) (um : UnifiedRenameMap) (r : RegId) : V :=
  match entry um r with Some p => ct p | None => ct {| pr_id := r; flatIdx := -1 |} end.
(** The pipeline is empty; the registers hold [ct]. *)
Definition boot (s : RenameState) (ct : PhysRegId -> V) : Machine (V := V) :=
  {| ms := s; contents := ct;
     threads := (fun um => {| rob := []; retired := []; done_sn := 0; initial := initial_value ct um |}) <$> renameMap s |}.

Lemma boot_ok n nInt nFloat nVec nCC ct : counts_ok n nInt nFloat nVec nCC ->
  exists s, FullO3CPU_new nInt nFloat nVec nCC Full n n = Ok s /\ inv (boot s ct).
Proof.
  intros C. unfold FullO3CPU_new. rewrite (PhysRegFile_new_booted n) by done. cbn [mbind res_bind].
  destruct (UnifiedFreeList_new_ok _ _ _ _ _ C) as (fl0 & Efl & Hfl). rewrite Efl. cbn [mbind res_bind].
  pose proof C as [Cn C1 C2 C3 C4 C5].
  rewrite !(proj2 (Z.leb_le _ _)) by lia. cbn [andb].
  destruct (init_fresh (if alpha_isa then ZeroReg else u16 (NumFloatRegs + 1))) as (um & Eum & Hum). rewrite Eum. cbn [mbind res_bind].
  destruct (map_threads_ok (booted_file nInt nFloat nVec nCC) um Hum (Z.to_nat n) fl0) as (fl' & rms & E & Hlen & Hok & Hcons & Hhead).
  { intros c. rewrite Hfl. apply Forall_forall. intros p Hp. eapply booted_class, pool_ids, Hp. }
  { intros c [Hc1 Hc2]. rewrite Hfl, booted_pool. destruct c; try done; rewrite scalar_ids_length; cbn [pool_base fst snd class_size]; lia. }
  rewrite E. cbn [mbind res_bind]. eexists. split; [done|].
  assert (forall k hb, replicate (Z.to_nat n) (@nil RenameHistory) !! k = Some hb -> hb = []) as Hnil
    by (intros k hb Hk; by apply lookup_replicate in Hk as [-> _]).
  split; cbn [ms contents threads boot renameMap commitRenameMap historyBuffer].
  - split; cbn [regFile scoreboard renameMap historyBuffer fl].
    + by apply (booted_file_ok n).
    + pose proof (counts_nonneg _ _ _ _ _ C). split; cbn [Scoreboard_new numPhysRegs regScoreBoard booted_file totalNumRegs].
      * done.
      * rewrite length_replicate. lia.
      * intros p (i & Hi & ->)%scalar_ids_elem _. apply lookup_replicate. split; [done|]. cbn [scalar_id flatIdx]. lia.
    + rewrite length_replicate, !length_fmap. lia.
    + intros c. unfold conserved. cbn [fl renameMap historyBuffer regFile].
      assert (concat (prevs c <$> replicate (Z.to_nat n) []) = []) as ->.
      { clear. induction (Z.to_nat n) as [|k IH]; [done|]. cbn. exact IH. }
      by rewrite app_nil_r, Hcons, Hfl.
    + destruct rms as [|um0 rms]; [cbn in Hlen; lia|]. exists um0. cbn [lookup list_lookup].
      exists (scalar_id IntRegClass 0 ZeroReg). split; [done|]. pose proof zero_in_range. split.
      * rewrite (Hhead um0) by (done || apply zero_arch). rewrite zero_idx, Hfl. cbn [regClass zero_reg pool getRegIds booted_file intRegIds].
        apply scalar_ids_lookup. pose proof (sizes_ok IntRegClass). cbn [class_size] in *. nia.
      * by apply isZeroReg_iff.
    + intros tid u Hu. rewrite Forall_lookup in Hok. by eapply Hok.
    + intros tid u hb _ Hhb. by rewrite (Hnil _ _ Hhb).
    + intros tid u hb i ws Hu Hhb Hs. rewrite (Hnil _ _ Hhb). rewrite !list_lookup_fmap, Hu in Hs. cbn in Hs. injection Hs as <- <-.
      split; [|done]. intros r (Hr & Hm & _). rewrite Forall_lookup in Hok. destruct (Hok _ _ Hu) as [Huo _].
      destruct (uo_some _ Huo _ Hr Hm) as [p Hp]. exists p. split; [done|]. cbn. unfold initial_value. by rewrite Hp.
  - by rewrite length_fmap.
  - intros tid cm Hc. rewrite Forall_lookup in Hok. by apply (Hok tid).
  - intros tid u cm hb t Hu Hc Hhb Ht. rewrite (Hnil _ _ Hhb). rewrite list_lookup_fmap, Hu in Ht. injection Ht as <-.
    split; [|done]. intros r _. by simplify_eq.
Qed.

End RenameInit.
