(* ===== verification/RenameCorrect.v ===== *)
(** What register renaming promises to the rest of the out-of-order CPU, from the
    state its constructor builds: conservation of the physical registers,
    agreement with the program, and exact recovery from a squash; and what does
    not work when vector registers are renamed by element or by several threads. *)
From S2P Require Import Prelude PhysReg RenameMap Rename RenameInv RenameTheorems RenameInit.

Section RenameCorrect.
Context `{RegISALaws} {V : Type} (circular : bool).
#[local] Hint Extern 0 (um_shape _) => (apply uo_shape; assumption) : core.

(** ** What the invariant says of the program *)

(** The values a thread shows to the program: at rename, at commit, and to the
    sources of the instructions in flight. *)
Definition thread_shows (m : Machine (V := V)) (tid : nat) (t : Thread) : Prop :=
  let A ws := value_after (initial t) ws in
  (exists um, renameMap (ms m) !! tid = Some um /\ shows (contents m) um (A (pending (rob t) ++ retired t))) /\
  (exists cm, commitRenameMap (ms m) !! tid = Some cm /\ shows (contents m) cm (A (retired t))) /\
  (forall newer i older, rob t = newer ++ i :: older ->
     Forall (fun '(r, p) => live r -> exists q, p = Some q /\ contents m q = A (pending older ++ retired t) r) (if_srcs i)).

Lemma rob_shows ct init cm cs ret l : forall um hb,
  rob_ok cm cs um hb l -> vals_ok ct init um hb (pending (V := V) l ++ ret) ->
  shows ct cm (value_after init ret) /\
  (forall newer i older, l = newer ++ i :: older ->
     Forall (fun '(r, p) => live r -> exists q, p = Some q /\ ct q = value_after init (pending older ++ ret) r) (if_srcs i)).
Proof.
  induction l as [|i l IH]; intros um hb Hr Hv.
  - destruct Hr as [Hs _]. split; [|by intros [] ? ?]. intros r Hl.
    destruct (vals_ok_shows _ _ _ _ _ Hv r Hl) as (p & Hp & Hc). exists p. split; [|done]. by rewrite Hs by apply Hl.
  - destruct Hr as (es & hb' & -> & Hi & Hsrc & _ & _ & Hr).
    assert (vals_ok ct init (undo es um) hb' (pending l ++ ret)) as Hv'.
    { unfold pending in Hv. rewrite fmap_cons in Hv. cbn [concat] in Hv. rewrite <- app_assoc in Hv.
      apply (vals_undo _ _ es um hb' (rev (if_writes i))); [|done]. rewrite length_rev. by apply inst_ok_length. }
    destruct (IH _ _ Hr Hv') as [H1 H2]. split; [done|]. intros [|j newer] k older E; cbn in E; injection E as <- E.
    + subst older. eapply Forall_impl; [done|]. intros [r p] Hp Hl. specialize (Hp Hl).
      destruct (vals_ok_shows _ _ _ _ _ Hv' r Hl) as (q & Hq & Hc). exists q. split; [congruence|done].
    + by eapply H2.
Qed.

Lemma inv_shows m tid t : inv m -> threads m !! tid = Some t -> thread_shows m tid t.
Proof.
  intros I Ht. destruct (inv_thread _ _ _ I Ht) as (um & cm & hb & Hu & Hc & Hh & Hs & Hu1 & Hu2 & Hc1 & Hhist & Hvals & Hrob).
  destruct (rob_shows _ _ _ _ _ _ _ _ Hrob Hvals) as [H1 H2]. split_and!; [|by exists cm|done].
  exists um. split; [done|]. by apply (vals_ok_shows _ _ _ _ _ Hvals).
Qed.

(** C9 (no physical register is lost or used twice).  The constructor of the CPU
    returns in the mode of whole vector registers, and from the state it builds,
    with an empty pipeline, every sequence of renamed, squashed, committed and
    released instructions of any threads runs without a failed assertion, an empty
    free list, an access outside a table or undefined behaviour, if the pipeline
    does each when it may: sequence numbers grow in each thread; the registers of
    an instruction exist, no source is a vector element, the zero register is a
    destination in thread 0 only, and it is renamed when [canRename] allows it;
    what has committed is not squashed; what has not is not released; and unless
    the library's lists are circular a release leaves an entry in the history
    buffer.  Afterwards each physical register of each class is in exactly one
    place: the free list, one entry of one thread's rename map, or one entry of a
    history buffer that will free it. *)
Theorem rename_conserves n nInt nFloat nVec nCC (ct : PhysRegId -> V) :
  counts_ok n nInt nFloat nVec nCC ->
  exists s, FullO3CPU_new nInt nFloat nVec nCC Full n n = Ok s /\
    forall evs, all_enabled circular (boot s ct) evs ->
      exists m, run_events circular (boot s ct) evs = Ok m /\ regFile (ms m) = regFile s /\
        forall c, NoDup (pool c (regFile s)) /\ conserved (ms m) c.
Proof.
  intros C. destruct (boot_ok n nInt nFloat nVec nCC ct C) as (s & E & I). exists s. split; [done|].
  intros evs He. destruct (events_ok circular evs _ I He) as (m & Em & Im). exists m. split; [done|].
  assert (regFile (ms m) = regFile s) as Ef by (by rewrite (run_events_file circular evs _ _ Em)). split; [done|].
  intros c. split; [|by apply Im]. rewrite <- Ef. by apply Im.
Qed.

(** C4 (renaming refines the program).  In the mode of whole vector registers,
    from the state the constructor of the CPU builds, every sequence of events
    the pipeline may do runs, and then for each thread: the rename map leads to
    the values after all instructions renamed and not squashed, in program order;
    the commit map to the values after the committed ones; and the register
    recorded for each source operand of an instruction in flight holds the value
    after the instructions older than it, whatever has been renamed, squashed or
    released since it was renamed.  What the pipeline may do is as for the
    conservation of registers: sequence numbers grow in each thread; the registers
    of an instruction exist, no source is a vector element, the zero register is a
    destination in thread 0 only, and it is renamed when [canRename] allows it;
    what has committed is not squashed; what has not is not released; and unless
    the library's lists are circular a release leaves an entry in the history
    buffer. *)
Theorem rename_refines n nInt nFloat nVec nCC (ct : PhysRegId -> V) :
  counts_ok n nInt nFloat nVec nCC ->
  exists s, FullO3CPU_new nInt nFloat nVec nCC Full n n = Ok s /\
    forall evs, all_enabled circular (boot s ct) evs ->
      exists m, run_events circular (boot s ct) evs = Ok m /\
        forall tid t, threads m !! tid = Some t -> thread_shows m tid t.
Proof.
  intros C. destruct (boot_ok n nInt nFloat nVec nCC ct C) as (s & E & I). exists s. split; [done|].
  intros evs He. destruct (events_ok circular evs _ I He) as (m & Em & Im). exists m. split; [done|].
  intros tid t. by apply inv_shows.
Qed.

(** ** Squashing *)

Abbreviation inst := (Z * (RegId -> RegId) * list RegId * list (RegId * V))%type.
Definition rename_of (tid : Z) (i : inst) : event := let '(sn, f, srcs, writes) := i in Rename tid sn f srcs writes.
Definition inst_sn (i : inst) : Z := i.1.1.1.

(** What renaming a sequence of instructions changes. *)
Lemma renames_detail tid n l : forall m, inv m -> all_enabled circular m (rename_of tid <$> l) -> Forall (fun i => n < inst_sn i) l -> l <> [] ->
  exists m' um um' hb es t new, run_events circular m (rename_of tid <$> l) = Ok m' /\ inv m' /\ 0 <= tid /\
    renameMap (ms m) !! Z.to_nat tid = Some um /\ historyBuffer (ms m) !! Z.to_nat tid = Some hb /\ threads m !! Z.to_nat tid = Some t /\
    renameMap (ms m') = <[Z.to_nat tid := um']> (renameMap (ms m)) /\
    historyBuffer (ms m') = <[Z.to_nat tid := es ++ hb]> (historyBuffer (ms m)) /\
    threads m' = <[Z.to_nat tid := {| rob := new ++ rob t; retired := retired t; done_sn := done_sn t; initial := initial t |}]> (threads m) /\
    commitRenameMap (ms m') = commitRenameMap (ms m) /\ regFile (ms m') = regFile (ms m) /\
    undo es um' = um /\ Forall (fun e => n < instSeqNum e) es /\ Forall (fun i => n < seqNum (if_inst i)) new.
Proof.
  induction l as [|[[[sn f] srcs] writes] l IH]; intros m I He Hn Hne; [done|]. inversion_clear Hn as [|? ? Hsn Hl].
  cbn [fmap list_fmap rename_of all_enabled] in He. destruct He as [He Hnext].
  destruct (rename_detail _ _ _ _ _ _ _ I He) as (m1 & ps & i & t & E1 & I1 & (Ec & Ef & um & um1 & hb & es & Hu & Hh & Em & Eh & Hes & _ & _ & Hund) & Hi & Ht & Et).
  specialize (Hnext m1 E1). assert (0 <= tid) as Htid by apply He.
  assert (Forall (fun e => n < instSeqNum e) es) as Hes' by (eapply Forall_impl; [done|]; cbn in *; lia).
  pose proof (lookup_lt_Some _ _ _ Hu) as Lu. pose proof (lookup_lt_Some _ _ _ Hh) as Lh. pose proof (lookup_lt_Some _ _ _ Ht) as Lt.
  cbn [fmap list_fmap rename_of run_events]. unfold run_event at 1. rewrite E1. cbn [mbind res_bind].
  destruct l as [|j l].
  { exists m1, um, um1, hb, es, t, [i]. cbn. split_and!; try done. apply Forall_singleton. cbn in *. lia. }
  destruct (IH m1 I1 Hnext Hl) as (m' & um0 & um' & hb0 & es' & t0 & new & E & I' & _ & Hu1 & Hh1 & Ht1 & Em' & Eh' & Et' & Ec' & Ef' & Hund' & Hes2 & Hnew); [done|].
  rewrite Em, list_lookup_insert_eq in Hu1 by done. rewrite Eh, list_lookup_insert_eq in Hh1 by done.
  rewrite Et, list_lookup_insert_eq in Ht1 by done. injection Hu1 as <-. injection Hh1 as <-. injection Ht1 as <-.
  exists m', um, um', hb, (es' ++ es), t, (new ++ [i]).
  rewrite Em', Em, Eh', Eh, Et', Et, !list_insert_insert_eq, undo_app, Hund', Hund, Ec', Ef', <- !app_assoc. cbn [rob retired done_sn initial].
  split_and!; try done; apply Forall_app; split; try done. apply Forall_singleton. cbn in *. lia.
Qed.

(** (a squash undoes the renames).  From any state the pipeline reaches:
    after renaming any sequence of instructions of a thread that are younger than
    [k], which its other instructions are not, squashing to [k] restores the rename
    map, the history buffers, the commit maps and the program's view exactly, and
    the free lists up to their order. *)
Theorem squash_restores n nInt nFloat nVec nCC (ct : PhysRegId -> V) :
  counts_ok n nInt nFloat nVec nCC ->
  exists s, FullO3CPU_new nInt nFloat nVec nCC Full n n = Ok s /\
    forall evs, all_enabled circular (boot s ct) evs -> exists m, run_events circular (boot s ct) evs = Ok m /\
      forall tid k l, all_enabled circular m (rename_of tid <$> l) -> Forall (fun i => k < inst_sn i) l -> l <> [] ->
        (forall t, threads m !! Z.to_nat tid = Some t -> done_sn t <= k /\ Forall (fun i => seqNum (if_inst i) <= k) (rob t)) ->
        exists m', run_events circular m ((rename_of tid <$> l) ++ [Squash tid k]) = Ok m' /\
          renameMap (ms m') = renameMap (ms m) /\ historyBuffer (ms m') = historyBuffer (ms m) /\
          commitRenameMap (ms m') = commitRenameMap (ms m) /\ threads m' = threads m /\
          forall c, free_of c (fl (ms m')) ≡ₚ free_of c (fl (ms m)).
Proof.
  intros C. destruct (boot_ok n nInt nFloat nVec nCC ct C) as (s & E & I0). exists s. split; [done|].
  intros evs He. destruct (events_ok circular evs _ I0 He) as (m & Em & I). exists m. split; [done|].
  intros tid k l Hl Hk Hne Hold.
  destruct (renames_detail tid k l m I Hl Hk Hne) as (m1 & um & um1 & hb & es & t & new & E1 & I1 & Htid & Hu & Hh & Ht & Eu & Eh & Et & Ec & Ef & Hund & Hes & Hnew).
  destruct (Hold t Ht) as [Hdone Hrob].
  pose proof (lookup_lt_Some _ _ _ Hu) as Lu. pose proof (lookup_lt_Some _ _ _ Hh) as Lh. pose proof (lookup_lt_Some _ _ _ Ht) as Lt.
  set (t1 := {| rob := new ++ rob t; retired := retired t; done_sn := done_sn t; initial := initial t |}) in *.
  assert (enabled circular m1 (Squash tid k)) as Hen.
  { split; [done|]. exists t1. rewrite Et. by rewrite list_lookup_insert_eq. }
  assert (renameMap (ms m1) !! Z.to_nat tid = Some um1) as Hu1 by (by rewrite Eu, list_lookup_insert_eq).
  assert (historyBuffer (ms m1) !! Z.to_nat tid = Some (es ++ hb)) as Hh1 by (by rewrite Eh, list_lookup_insert_eq).
  destruct (co_um _ _ _ (iv_core _ I1) _ _ Hu1) as [Hok Hty].
  pose proof (co_hist _ _ _ (iv_core _ I1) _ _ _ Hu1 Hh1) as Hhist.
  assert (Forall (fun e => instSeqNum e <= k) hb) as Hhb.
  { destruct (inv_thread _ _ _ I Ht) as (um0 & cm & hb0 & _ & _ & Hh0 & _ & _ & _ & _ & _ & _ & Hr).
    assert (hb0 = hb) as -> by congruence. by eapply rob_ok_entries. }
  destruct (doSquash_loop_ok _ k es um1 (fl (ms m1)) hb Hok Hty Hhist Hes Hhb) as (fl' & El & _).
  destruct (squash_ok circular m1 tid k I1 Hen) as (m' & E' & I').
  rewrite run_events_app, E1. cbn [mbind res_bind run_events run_event]. rewrite E'. exists m'. split; [done|].
  unfold do_squash, doSquash in E'. rewrite (aread_Ok (renameMap _) _ um1), (aread_Ok (historyBuffer _) _ (es ++ hb)) in E' by done.
  cbn [mbind res_bind] in E'. rewrite El in E'. cbn [mbind res_bind] in E'.
  rewrite !awrite_Ok in E' by (rewrite ?Eu, ?Eh, ?length_insert; lia). cbn [mbind res_bind] in E'.
  rewrite (aread_Ok (threads m1) _ t1) in E' by (done || (rewrite Et; by apply list_lookup_insert_eq)). cbn [mbind res_bind] in E'.
  rewrite awrite_Ok in E' by (rewrite Et, length_insert; lia). injection E' as <-.
  assert (<[Z.to_nat tid := undo es um1]> (renameMap (ms m1)) = renameMap (ms m)) as Eum
    by (by rewrite Eu, list_insert_insert_eq, Hund, list_insert_id).
  assert (<[Z.to_nat tid := hb]> (historyBuffer (ms m1)) = historyBuffer (ms m)) as Ehb
    by (by rewrite Eh, list_insert_insert_eq, list_insert_id).
  split; [exact Eum|]. split; [exact Ehb|]. split; [exact Ec|]. split.
  - cbn [threads]. rewrite Et, list_insert_insert_eq. apply list_insert_id. rewrite Ht. f_equal.
    cbn [rob retired done_sn initial t1]. rewrite filter_app, (filter_all _ (rob t)) by done.
    rewrite (filter_none _ new); [by destruct t|]. eapply Forall_impl; [exact Hnew|]. cbn. lia.
  - intros c. pose proof (co_cons _ _ _ (iv_core _ I') c) as C1. pose proof (co_cons _ _ _ (iv_core _ I) c) as C2.
    unfold conserved in C1, C2. cbn [ms renameMap historyBuffer regFile fl] in *. rewrite Eum, Ehb, Ef, <- C2 in C1.
    by apply Permutation_app_inv_r in C1.
Qed.

End RenameCorrect.

(** ** Renaming vector elements *)

Section Elements.
Context `{RegISA}.

(** (renaming an element changes another one).  When vector registers are
    renamed by element, [rename] reads and writes the table at the index of the
    vector register, but [lookup] and [setEntry] at the flattened index of the
    element.  For an element where they differ, the element keeps its old
    register after being renamed, and the register reported as its previous
    one, later put on the free list, is that of another element. *)
Theorem elem_rename_misses rf um fl r p l q :
  vecMode um = Elem -> regClass r = VecElemClass -> freeList (vecElemMap um) = Some VecElemClass ->
  regClass (zeroReg (vecElemMap um)) = IntRegClass -> vecElemList fl = p :: l ->
  0 <= regIdx r -> map (vecElemMap um) !! Z.to_nat (regIdx r) = Some q -> flatIndex r <> regIdx r ->
  exists um', rename rf um fl r = Ok ((Some p, q), um', with_free VecElemClass l fl) /\
    lookup rf um' r = lookup rf um r /\
    forall r', regClass r' = VecElemClass -> flatIndex r' = regIdx r -> lookup rf um r' = Ok q /\ lookup rf um' r' = Ok (Some p).
Proof.
  intros Hmode Hc Hfree Hz Hl Hi Hq Hne. pose proof (lookup_lt_Some _ _ _ Hq) as Hlt.
  assert (0 <= flatIndex r) by (unfold flatIndex; rewrite Hc; by apply Z.mod_pos_bound).
  unfold rename, rename_simple. rewrite Hc. cbn [map_of mode_allows]. rewrite Hmode, (aread_Ok _ _ q) by done.
  rewrite bool_decide_eq_true_2 by done. cbn [mbind res_bind]. rewrite bool_decide_eq_false_2 by (intros ->; congruence).
  cbn [negb]. rewrite Hfree. cbn [deref mbind res_bind]. unfold getFree. cbn [free_of]. rewrite Hl. cbn [getReg mbind res_bind].
  rewrite awrite_Ok by lia. cbn [mbind res_bind]. eexists. split; [done|].
  unfold lookup, lookup_simple. rewrite Hc. cbn [map_of]. split.
  - unfold mode_allows. rewrite vecMode_with, Hmode. destruct um as [i f cc v ve mo]. cbn [with_map vecElemMap map] in *. rewrite length_insert.
    unfold aread. by rewrite list_lookup_insert_ne by lia.
  - intros r' Hc' Hr'. rewrite Hc'. cbn [map_of]. unfold mode_allows. rewrite vecMode_with, Hmode. rewrite bool_decide_eq_true_2 by done.
    destruct um as [i f cc v ve mo]. cbn [with_map vecElemMap map] in *.
    rewrite Hr', length_insert, (proj2 (Z.leb_le _ _)) by lia.
    rewrite (aread_Ok _ _ q) by done. rewrite (aread_Ok _ _ (Some p)) by (done || by apply list_lookup_insert_eq). done.
Qed.

(** Going back to whole registers compares the length of the wrong free list,
    which the check before it requires to be empty, to a count of floating-point
    registers: it stops the simulator unless the file has as many vector
    elements as there are architectural floating-point registers. *)
Theorem full_mode_panics rf um fl : vecMode um = Elem -> 0 <= numPhysicalVecElemRegs rf < 2 ^ 32 ->
  0 <= NumFloatRegs < 2 ^ 32 -> numPhysicalVecElemRegs rf <> NumFloatRegs ->
  switchMode rf um fl Full = Panic.
Proof.
  intros Hm Hn Hf Hne. unfold switchMode. rewrite Hm. destruct (bool_decide_reflect (vecList fl = [])) as [E|]; [|done].
  unfold numFree. cbn [free_of]. rewrite E. cbn [length Z.of_nat].
  assert (u32 (numPhysicalVecElemRegs rf - NumFloatRegs) <> 0) as Hu.
  { unfold wrap_u. intros E0. apply Z.mod_divide in E0 as [k E0]; [|done]. nia. }
  by rewrite (proj2 (Z.eqb_neq (u32 (Z.of_nat 0)) (u32 (numPhysicalVecElemRegs rf - NumFloatRegs)))) by (intros E0; by apply Hu).
Qed.

End Elements.

(** ** Examples

    A small instruction set, with three integer registers of which the last is the
    zero register. *)
Definition tiny_registers : RegISA :=
  {| NumIntRegs := 3; NumFloatRegs := 1; NumVecRegs := 2; NumVecElemPerVecReg := 2; NumCCRegs := 1; NumMiscRegs := 1;
     ZeroReg := 2; alpha_isa := false |}.
#[export] Instance tiny_laws : @RegISALaws tiny_registers.
Proof. split; [done|cbn; lia|intros []; cbn; lia|cbn; lia|cbn; lia]. Qed.

Definition int_reg (i : Z) : RegId := {| regClass := IntRegClass; regIdx := i; elemIdx := u16 (-1) |}.

(** Three instructions of thread 0: the second reads what the first writes, the
    third is squashed; the first commits and is released. *)
Definition example_run : list (event (V := Z)) :=
  [Rename 0 1 id [int_reg 1] [(int_reg 0, 10)]; Rename 0 2 id [int_reg 0] [(int_reg 1, 20); (int_reg 2, 7)];
   Rename 0 3 id [int_reg 1] [(int_reg 0, 30)]; Squash 0 2; Commit 0; Release 0 1].

Lemma tiny_counts : @counts_ok tiny_registers 1 6 2 3 2.
Proof. split; cbn; lia. Qed.

(** Discharges [all_enabled] at a concrete state. *)
Ltac solve_enabled :=
  repeat match goal with
  | |- forall m', run_event _ _ _ = Ok m' -> _ => let m' := fresh "m" in let E := fresh "E" in
      intros m' E; vm_compute in E; injection E as <-
  | |- exists hb, _ /\ stays _ _ _ => eexists; split; [reflexivity|right]
  | |- exists um t, _ => eexists _, _; split; [reflexivity|split; [reflexivity|]]
  | |- exists t, _ => eexists; split; [reflexivity|]
  | |- zero_reg ∈ _ -> _ = _ => intros _; reflexivity
  | |- Exists _ _ => first [apply Exists_cons_hd; cbn; lia|apply Exists_cons_tl]
  | |- canRename _ _ _ _ _ _ _ = Ok true => reflexivity
  | |- enabled _ _ _ => hnf
  | |- let _ := _ in _ => cbv zeta
  | |- _ /\ _ => split
  | |- Forall _ _ => constructor
  | |- arch_ok _ => split
  | |- True => exact I
  | |- _ <> _ => discriminate
  | |- _ = _ => reflexivity
  | |- _ => solve [cbn; lia]
  end.

#[local] Existing Instance tiny_registers.

(** The state the constructor builds, and the one after [example_run]. *)
Definition state_of (r : res RenameState) : RenameState :=
  match r with
  | Ok s => s
  | _ => {| regFile := booted_file 0 0 0 0; fl := {| intList := []; floatList := []; vecList := []; vecElemList := []; ccList := [] |};
            renameMap := []; commitRenameMap := []; historyBuffer := []; scoreboard := Scoreboard_new 0 |}
  end.
Definition tiny_cpu : RenameState := Eval vm_compute in state_of (FullO3CPU_new 6 2 3 2 Full 1 1).
Lemma tiny_cpu_new : FullO3CPU_new 6 2 3 2 Full 1 1 = Ok tiny_cpu.
Proof. vm_compute. reflexivity. Qed.

Lemma example_enabled : all_enabled false (boot tiny_cpu flatIdx) example_run.
Proof. cbn [all_enabled example_run]. solve_enabled. Qed.

Definition ends_with (P : Machine (V := Z) -> bool) (r : res Machine) : bool :=
  match r with Ok m => P m | _ => false end.
Lemma ends_with_Ok P r m : ends_with P r = true -> r = Ok m -> P m = true.
Proof. by intros H ->. Qed.

Example rename_conserves_witness :
  exists m, FullO3CPU_new 6 2 3 2 Full 1 1 = Ok tiny_cpu /\ run_events false (boot tiny_cpu flatIdx) example_run = Ok m /\
    conserved (ms m) IntRegClass /\ (length (intList (fl (ms m))) =? 2)%nat = true.
Proof.
  destruct (rename_conserves false 1 6 2 3 2 flatIdx tiny_counts) as (s & Hs & Hrun).
  rewrite tiny_cpu_new in Hs. injection Hs as <-.
  destruct (Hrun example_run example_enabled) as (m & Em & _ & Hm).
  exists m. split; [exact tiny_cpu_new|]. split; [exact Em|]. split; [apply Hm|].
  refine (ends_with_Ok (fun m => (length (intList (fl (ms m))) =? 2)%nat) _ m _ Em). vm_compute. reflexivity.
Defined.

Example rename_refines_witness :
  exists m, FullO3CPU_new 6 2 3 2 Full 1 1 = Ok tiny_cpu /\ run_events false (boot tiny_cpu flatIdx) example_run = Ok m /\
    (forall t, threads m !! 0%nat = Some t -> thread_shows m 0 t) /\
    (if threads m !! 0%nat is Some t then (length (rob t) =? 1)%nat && (value_after (initial t) (retired t) (int_reg 0) =? 10)
     else false) = true.
Proof.
  destruct (rename_refines false 1 6 2 3 2 flatIdx tiny_counts) as (s & Hs & Hrun).
  rewrite tiny_cpu_new in Hs. injection Hs as <-.
  destruct (Hrun example_run example_enabled) as (m & Em & Hm).
  exists m. split; [exact tiny_cpu_new|]. split; [exact Em|]. split; [exact (Hm 0%nat)|].
  refine (ends_with_Ok (fun m => if threads m !! 0%nat is Some t then (length (rob t) =? 1)%nat &&
    (value_after (initial t) (retired t) (int_reg 0) =? 10) else false) _ m _ Em). vm_compute. reflexivity.
Defined.

(** The instructions squashed in the example. *)
Definition young : list (Z * (RegId -> RegId) * list RegId * list (RegId * Z)) := [(2, id, [int_reg 0], [(int_reg 1, 20)]); (3, id, [], [(int_reg 0, 30)])].
Definition first_inst : list (event (V := Z)) := [Rename 0 1 id [int_reg 1] [(int_reg 0, 10)]].
Lemma first_enabled : all_enabled false (boot tiny_cpu flatIdx) first_inst.
Proof. cbn [all_enabled first_inst]. solve_enabled. Qed.
Lemma young_enabled m : run_events false (boot tiny_cpu flatIdx) first_inst = Ok m ->
  all_enabled false m (rename_of 0 <$> young) /\
  forall t, threads m !! 0%nat = Some t -> done_sn t <= 1 /\ Forall (fun i => seqNum (if_inst i) <= 1) (rob t).
Proof.
  intros Em. vm_compute in Em. injection Em as <-. split.
  - cbn [all_enabled rename_of fmap list_fmap young]. solve_enabled.
  - intros t [= <-]. split; [discriminate|]. repeat constructor. discriminate.
Qed.

Example squash_restores_witness :
  exists m m', FullO3CPU_new 6 2 3 2 Full 1 1 = Ok tiny_cpu /\ run_events false (boot tiny_cpu flatIdx) first_inst = Ok m /\
    run_events false m ((rename_of 0 <$> young) ++ [Squash 0 1]) = Ok m' /\
    renameMap (ms m') = renameMap (ms m) /\ threads m' = threads m /\ intList (fl (ms m')) ≡ₚ intList (fl (ms m)).
Proof.
  destruct (squash_restores false 1 6 2 3 2 flatIdx tiny_counts) as (s & Hs & Hrun).
  rewrite tiny_cpu_new in Hs. injection Hs as <-.
  destruct (Hrun first_inst first_enabled) as (m & Em & Hm).
  destruct (young_enabled m Em) as [Hy Ht].
  destruct (Hm 0 1 young Hy) as (m' & Em' & H1 & _ & _ & H2 & H3); [repeat constructor|discriminate|exact Ht|].
  exists m, m'. split; [exact tiny_cpu_new|]. split; [exact Em|]. split; [exact Em'|]. split; [exact H1|]. split; [exact H2|].
  exact (H3 IntRegClass).
Defined.

(** Two elements of two registers, in a table with four entries. *)
Example elem_rename_misses_witness :
  exists um um', lookup (booted_file 6 2 3 2) um {| regClass := VecElemClass; regIdx := 1; elemIdx := 0 |} =
      lookup (booted_file 6 2 3 2) um' {| regClass := VecElemClass; regIdx := 1; elemIdx := 0 |} /\
    exists info fl', rename (booted_file 6 2 3 2) um
        {| intList := []; floatList := []; vecList := []; vecElemList := [elem_id 9 5]; ccList := [] |}
        {| regClass := VecElemClass; regIdx := 1; elemIdx := 0 |} = Ok (info, um', fl').
Proof.
  set (tbl := {| map := [Some (elem_id 9 0); Some (elem_id 9 1); Some (elem_id 9 2); Some (elem_id 9 3)];
                 freeList := Some VecElemClass; zeroReg := int_reg 2 |}).
  destruct (@elem_rename_misses tiny_registers (booted_file 6 2 3 2)
    {| intMap := tbl; floatMap := tbl; ccMap := tbl; vecMap := tbl; vecElemMap := tbl; vecMode := Elem |}
    {| intList := []; floatList := []; vecList := []; vecElemList := [elem_id 9 5]; ccList := [] |}
    {| regClass := VecElemClass; regIdx := 1; elemIdx := 0 |} (elem_id 9 5) [] (Some (elem_id 9 1))
    eq_refl eq_refl eq_refl eq_refl eq_refl ltac:(cbn; lia) eq_refl ltac:(intros E; vm_compute in E; discriminate E)) as (um' & H1 & H2 & _).
  eexists _, um'. split; [symmetry; exact H2|]. eexists _, _. exact H1.
Defined.

(** With two threads the second one's zero register is mapped to a physical register
    that is not the zero register, and renaming it fails an assertion. *)
Example second_thread_zero_panics :
  (s ← @FullO3CPU_new arm_registers 86 320 80 12 Full 2 2; @renameDestReg arm_registers s 1 1 (@zero_reg arm_registers)) = Panic.
Proof. vm_compute. reflexivity. Qed.

(** Where lists are not circular, a release with an empty history buffer is
    undefined: it decrements the iterator of the first element. *)
Example release_of_empty_buffer : removeFromHistory false tiny_cpu 1 0 = Ub /\ exists s, removeFromHistory true tiny_cpu 1 0 = Ok s.
Proof. split; [reflexivity|]. eexists. vm_compute. reflexivity. Qed.
