(* ===== verification/CircleBuf.v ===== *)
(** The circular buffer and the FIFO of src/base/circlebuf.hh, refined to a
    bounded queue: the list of the elements stored, oldest first. *)
From S2P Require Import Prelude.

(** * Definitions *)

Section CircleBuf.
Context {T : Type}.

(** [_start] and [_stop] are [size_t]. *)
Record CircleBuf := { buf : list T; _start : Z; _stop : Z }.

Definition capacity (b : CircleBuf) : Z := Z.of_nat (length (buf b)).
Definition empty (b : CircleBuf) : bool := _stop b =? _start b.
Definition size (b : CircleBuf) : Z := u64 (_stop b - _start b).

(** [value] is what the vector's value initialisation stores. *)
Definition CircleBuf_new (value : T) (n : Z) : CircleBuf :=
  {| buf := replicate (Z.to_nat n) value; _start := 0; _stop := 0 |}.

Definition flush (b : CircleBuf) : CircleBuf := {| buf := buf b; _start := 0; _stop := 0 |}.

(** [buf[from, from + len)], the source of a [std::copy]. *)
Definition slice (l : list T) (from len : Z) : list T := take (Z.to_nat len) (drop (Z.to_nat from) l).

(** [peek(out, offset, len)]: the elements written to [out]. *)
Definition peek (b : CircleBuf) (offset len : Z) : res (list T) :=
  assert! negb (size b <? u64 (offset + len)) ;;
  defined! negb (capacity b =? 0) ;;
  let real_start := u64 (offset + _start b) mod capacity b in
  if u64 (real_start + len) <=? capacity b then Ok (slice (buf b) real_start len)
  else
    let head_size := u64 (capacity b - real_start) in
    let tail_size := u64 (len - head_size) in
    Ok (slice (buf b) real_start head_size ++ slice (buf b) 0 tail_size).

Definition normalize (b : CircleBuf) : res CircleBuf :=
  let b := if capacity b <=? _start b
           then {| buf := buf b; _start := u64 (_start b - capacity b);
                   _stop := u64 (_stop b - capacity b) |}
           else b in
  assert! _start b <? capacity b ;;
  assert! _stop b <? u64 (2 * capacity b) ;;
  assert! _start b <=? _stop b ;;
  Ok b.

Definition read (b : CircleBuf) (len : Z) : res (list T * CircleBuf) :=
  out ← peek b 0 len;
  b ← normalize {| buf := buf b; _start := u64 (_start b + len); _stop := _stop b |};
  Ok (out, b).

(** [std::copy] of [xs] to [l[at, ...)]; a copy past the end is undefined. *)
Definition copy_to (l : list T) (at_ : Z) (xs : list T) : res (list T) :=
  defined! at_ + Z.of_nat (length xs) <=? Z.of_nat (length l) ;;
  Ok (take (Z.to_nat at_) l ++ xs ++ drop (Z.to_nat at_ + length xs) l).

(** [write(in, len)] with [inp] the elements from [in] to [in + len]. *)
Definition write (b : CircleBuf) (inp : list T) : res CircleBuf :=
  let len := Z.of_nat (length inp) in
  let inp := if capacity b <? len then drop (Z.to_nat (len - capacity b)) inp else inp in
  let len := if capacity b <? len then capacity b else len in
  defined! negb (capacity b =? 0) ;;
  let next := _stop b mod capacity b in
  let head_len := Z.min (u64 (capacity b - next)) len in
  v ← copy_to (buf b) next (slice inp 0 head_len);
  v ← copy_to v 0 (slice inp head_len (len - head_len));
  let b := {| buf := v; _start := _start b; _stop := u64 (_stop b + len) |} in
  let b := if capacity b <? size b
           then {| buf := buf b; _start := u64 (_stop b - capacity b); _stop := _stop b |}
           else b in
  normalize b.

(** [Fifo]: a [CircleBuf] whose writes may not overflow. *)
Definition Fifo_write (b : CircleBuf) (inp : list T) : res CircleBuf :=
  assert! negb (capacity b <? u64 (size b + Z.of_nat (length inp))) ;; write b inp.

(** * The queue a buffer stores *)

(** The invariants the code's comment states, and a capacity whose double is
    a [size_t]. *)
Record buf_inv (b : CircleBuf) : Prop := {
  bi_cap : 0 < capacity b < 2 ^ 62;
  bi_order : 0 <= _start b <= _stop b;
  bi_start : _start b < capacity b;
  bi_stop : _stop b < 2 * capacity b;
  bi_size : _stop b - _start b <= capacity b }.

Definition contents (b : CircleBuf) : list T :=
  take (Z.to_nat (_stop b - _start b)) (drop (Z.to_nat (_start b)) (buf b ++ buf b)).

(** The last [n] elements. *)
Definition lastn (n : Z) (l : list T) : list T := drop (length l - Z.to_nat n) l.

Lemma length_contents b : buf_inv b -> Z.of_nat (length (contents b)) = _stop b - _start b.
Proof.
  intros []. unfold contents, capacity in *. rewrite length_take, length_drop, length_app. lia.
Qed.

Lemma size_ok b : buf_inv b -> size b = _stop b - _start b.
Proof. intros []. unfold size. apply wrap_u_id. lia. Qed.

(** An element of the contents, by its position in the backing store. *)
Lemma lookup_contents b i :
  buf_inv b -> (i < length (contents b))%nat ->
  contents b !! i = buf b !! Z.to_nat ((_start b + Z.of_nat i) mod capacity b).
Proof.
  intros Hb Hi. pose proof (length_contents b Hb) as Hl. destruct Hb.
  unfold contents. rewrite lookup_take_lt by lia. rewrite lookup_drop. unfold capacity in *.
  destruct (Z.lt_ge_cases (_start b + Z.of_nat i) (Z.of_nat (length (buf b)))).
  - rewrite lookup_app_l, Z.mod_small by lia. f_equal. lia.
  - rewrite lookup_app_r by lia. rewrite <- (Z_mod_plus_full _ (-1)), Z.mod_small by lia. f_equal. lia.
Qed.

Lemma lookup_slice l from len i :
  0 <= from -> (i < Z.to_nat len)%nat -> slice l from len !! i = l !! (Z.to_nat from + i)%nat.
Proof. intros. unfold slice. rewrite lookup_take_lt by lia. by rewrite lookup_drop. Qed.

Lemma length_slice l from len :
  0 <= from -> 0 <= len -> from + len <= Z.of_nat (length l) -> length (slice l from len) = Z.to_nat len.
Proof. intros. unfold slice. rewrite length_take, length_drop. lia. Qed.

(** A slice of the contents, read off the backing store in one or two pieces. *)
Lemma peek_ok b offset len :
  buf_inv b -> 0 <= offset -> 0 <= len -> offset + len <= size b ->
  peek b offset len = Ok (slice (contents b) offset len).
Proof.
  intros Hb Ho Hn Hl. pose proof (size_ok b Hb) as Hs. pose proof (length_contents b Hb) as Hlen.
  pose proof Hb as [Hcap Hord Hst Hsp Hsz]. unfold peek.
  rewrite (wrap_u_id 64 (offset + len)) by lia. rewrite (proj2 (Z.ltb_ge _ _)) by lia. cbn [negb].
  rewrite (proj2 (Z.eqb_neq _ _)) by lia. cbn [negb]. rewrite (wrap_u_id 64 (offset + _start b)) by lia.
  pose proof (Z.mod_pos_bound (offset + _start b) (capacity b) ltac:(lia)) as Hrs.
  set (rs := (offset + _start b) mod capacity b) in *.
  assert (forall i, (i < Z.to_nat len)%nat ->
    slice (contents b) offset len !! i = buf b !! Z.to_nat ((rs + Z.of_nat i) mod capacity b)) as Hlk.
  { intros i Hi. rewrite lookup_slice by lia. rewrite lookup_contents by (done || lia).
    unfold rs. rewrite Zplus_mod_idemp_l. do 3 f_equal. lia. }
  assert (length (slice (contents b) offset len) = Z.to_nat len) as Hll by (apply length_slice; lia).
  rewrite (wrap_u_id 64 (rs + len)) by lia. unfold capacity in *.
  clearbody rs. remember (Z.of_nat (length (buf b))) as cap eqn:Ecap.
  destruct (Z.leb_spec (rs + len) cap); f_equal;
    [|rewrite (wrap_u_id 64 (cap - rs)), (wrap_u_id 64 (len - (cap - rs))) by lia];
    (apply list_eq_same_length with (n := Z.to_nat len); [done|..]).
  - apply length_slice; lia.
  - intros i x y Hi Hx Hy. rewrite lookup_slice in Hx by lia. rewrite Hlk, Z.mod_small in Hy by lia.
    replace (Z.to_nat (rs + Z.of_nat i)) with (Z.to_nat rs + i)%nat in Hy by lia. congruence.
  - rewrite length_app, !length_slice by lia. lia.
  - intros i x y Hi Hx Hy. rewrite Hlk in Hy by lia.
    destruct (decide (i < Z.to_nat (cap - rs))%nat) as [Hlt|Hge].
    + rewrite lookup_app_l in Hx by (rewrite length_slice; lia). rewrite lookup_slice in Hx by lia.
      rewrite Z.mod_small in Hy by lia.
      replace (Z.to_nat (rs + Z.of_nat i)) with (Z.to_nat rs + i)%nat in Hy by lia. congruence.
    + rewrite lookup_app_r in Hx by (rewrite length_slice; lia). rewrite length_slice in Hx by lia.
      rewrite lookup_slice in Hx by lia. rewrite <- (Z_mod_plus_full _ (-1)), Z.mod_small in Hy by lia.
      replace (Z.to_nat 0 + (i - Z.to_nat (cap - rs)))%nat
        with (Z.to_nat (rs + Z.of_nat i + -1 * cap)) in Hx by lia. congruence.
Qed.

(** ** Writing *)

Lemma copy_to_ok l at_ xs :
  0 <= at_ -> at_ + Z.of_nat (length xs) <= Z.of_nat (length l) ->
  exists v, copy_to l at_ xs = Ok v /\ length v = length l /\
    forall j, v !! j = if decide (Z.to_nat at_ <= j < Z.to_nat at_ + length xs)%nat
                       then xs !! (j - Z.to_nat at_)%nat else l !! j.
Proof.
  intros H0 Hl. unfold copy_to. rewrite (proj2 (Z.leb_le _ _)) by lia. eexists. split; [done|].
  assert (length (take (Z.to_nat at_) l) = Z.to_nat at_) as Ht by (rewrite length_take; lia).
  split; [rewrite !length_app, length_drop, Ht; lia|]. intros j.
  destruct (decide (j < Z.to_nat at_)%nat) as [Hj|Hj].
  - rewrite lookup_app_l by lia. rewrite lookup_take_lt by lia. rewrite decide_False by lia. done.
  - rewrite lookup_app_r, Ht by lia. destruct (decide (j - Z.to_nat at_ < length xs)%nat).
    + rewrite lookup_app_l by lia. by rewrite decide_True by lia.
    + rewrite lookup_app_r, lookup_drop by lia. rewrite decide_False by lia. f_equal. lia.
Qed.

(** The two copies of [write] put [inp] at [stop], [stop + 1], ... around the
    buffer and leave the rest. *)
Lemma wrap_copy l stop inp :
  let cap := Z.of_nat (length l) in
  0 < cap < 2 ^ 62 -> 0 <= stop -> Z.of_nat (length inp) <= cap ->
  let len := Z.of_nat (length inp) in
  let next := stop mod cap in
  let head_len := Z.min (u64 (cap - next)) len in
  exists v1 v, copy_to l next (slice inp 0 head_len) = Ok v1 /\
    copy_to v1 0 (slice inp head_len (len - head_len)) = Ok v /\ length v = length l /\
    (forall k, (k < length inp)%nat -> v !! Z.to_nat ((stop + Z.of_nat k) mod cap) = inp !! k) /\
    (forall p, stop + len - cap <= p < stop -> 0 <= p -> v !! Z.to_nat (p mod cap) = l !! Z.to_nat (p mod cap)).
Proof.
  intros cap Hcap Hstop Hlen len next head_len.
  pose proof (Z.mod_pos_bound stop cap ltac:(lia)) as Hn. fold next in Hn.
  assert (head_len = Z.min (cap - next) len) as Eh by (unfold head_len; rewrite wrap_u_id by lia; done).
  assert (length (slice inp 0 head_len) = Z.to_nat head_len) as L1 by (apply length_slice; lia).
  assert (length (slice inp head_len (len - head_len)) = Z.to_nat (len - head_len)) as L2
    by (apply length_slice; lia).
  destruct (copy_to_ok l next (slice inp 0 head_len)) as (v1 & Hv1 & Hl1 & Hk1); [lia..|].
  destruct (copy_to_ok v1 0 (slice inp head_len (len - head_len))) as (v & Hv & Hl & Hk); [lia..|].
  exists v1, v. do 2 (split; [done|]). split; [lia|].
  assert (forall x, next <= x < next + cap -> Z.of_nat (Z.to_nat (x mod cap)) = if decide (x < cap) then x else x - cap)
    as Hmod.
  { intros x Hx. case_decide; [rewrite Z.mod_small; lia|].
    rewrite <- (Z_mod_plus_full x (-1)), Z.mod_small; lia. }
  split.
  - intros k Hlt. replace ((stop + Z.of_nat k) mod cap) with ((next + Z.of_nat k) mod cap)
      by (unfold next; apply Zplus_mod_idemp_l).
    specialize (Hmod (next + Z.of_nat k) ltac:(lia)). rewrite Hk, Hk1.
    destruct (decide (next + Z.of_nat k < cap)).
    + rewrite decide_False by lia. rewrite decide_True by lia. rewrite lookup_slice by lia. f_equal. lia.
    + rewrite decide_True by lia. rewrite lookup_slice by lia. f_equal. lia.
  - intros p Hp Hp0. set (q := p - stop + cap).
    replace (p mod cap) with ((next + q) mod cap).
    2:{ unfold next. rewrite Zplus_mod_idemp_l. rewrite <- (Z_mod_plus_full p 1). f_equal. unfold q. lia. }
    specialize (Hmod (next + q) ltac:(unfold q; lia)). rewrite Hk, Hk1. subst q.
    destruct (decide (next + (p - stop + cap) < cap)); by rewrite !decide_False by lia.
Qed.

Lemma normalize_ok v st sp :
  let cap := Z.of_nat (length v) in
  0 < cap < 2 ^ 62 -> 0 <= st <= sp -> sp - st <= cap -> st < 2 * cap -> sp < 3 * cap ->
  exists b, normalize {| buf := v; _start := st; _stop := sp |} = Ok b /\ buf_inv b /\ buf b = v /\
    _stop b - _start b = sp - st /\ forall i, (_start b + i) mod cap = (st + i) mod cap.
Proof.
  intros cap Hcap Ho Hs H2 H3. unfold normalize, capacity. cbn [buf _start _stop]. fold cap.
  destruct (Z.leb_spec cap st); cbn [buf _start _stop]; fold cap; rewrite !wrap_u_id by lia;
    rewrite !(proj2 (Z.ltb_lt _ _)), (proj2 (Z.leb_le _ _)) by lia; eexists; (split; [done|]);
    (split; [split; unfold capacity; cbn; fold cap; lia|]); (split; [done|]); cbn; (split; [lia|]); intros i.
  - rewrite <- (Z_mod_plus_full (st + i) (-1)). f_equal. lia.
  - done.
Qed.

Lemma lastn_lookup n l i :
  0 <= n -> lastn n l !! i = l !! (length l - Z.to_nat n + i)%nat.
Proof. intros. unfold lastn. by rewrite lookup_drop. Qed.

(** [write] of at most [capacity] elements. *)
Lemma write_fits b inp :
  buf_inv b -> Z.of_nat (length inp) <= capacity b ->
  exists b', write b inp = Ok b' /\ buf_inv b' /\ capacity b' = capacity b /\
    contents b' = lastn (capacity b) (contents b ++ inp).
Proof.
  intros Hb Hl. pose proof (length_contents b Hb) as Hlc. pose proof Hb as [Hcap Hord Hst Hsp Hsz].
  destruct (wrap_copy (buf b) (_stop b) inp) as (v1 & v & Hv1 & Hv & Hlv & Hnew & Hold); [done|lia|done|].
  unfold write. rewrite (proj2 (Z.ltb_ge _ _)) by lia. rewrite (proj2 (Z.eqb_neq _ _)) by lia. cbn [negb].
  unfold capacity in Hv1, Hv |- *. rewrite Hv1. cbn [mbind res_bind]. rewrite Hv. cbn [mbind res_bind buf _start _stop].
  remember (Z.of_nat (length inp)) as len eqn:El. rewrite Hlv. fold (capacity b).
  rewrite (wrap_u_id 64 (_stop b + len)) by lia. unfold size. cbn [_start _stop buf].
  rewrite (wrap_u_id 64 (_stop b + len - _start b)) by lia.
  set (st := Z.max (_start b) (_stop b + len - capacity b)).
  replace (if capacity b <? _stop b + len - _start b then _ else _)
    with {| buf := v; _start := st; _stop := _stop b + len |}.
  2:{ unfold st. destruct (Z.ltb_spec (capacity b) (_stop b + len - _start b)).
      - rewrite wrap_u_id by lia. f_equal. lia.
      - f_equal. lia. }
  assert (Z.of_nat (length v) = capacity b) as Hcv by (unfold capacity; lia).
  destruct (normalize_ok v st (_stop b + len)) as (b' & -> & Hb' & Ebuf & Hsz' & Hmod);
    rewrite ?Hcv; try (unfold st; lia).
  exists b'. split; [done|]. split; [done|]. assert (capacity b' = capacity b) as Ecap.
  { unfold capacity at 1. by rewrite Ebuf. }
  split; [done|]. pose proof (length_contents b' Hb') as Hlc'.
  apply list_eq_same_length with (n := length (contents b')); [|done|].
  { unfold lastn. rewrite length_drop, length_app. unfold st in *. lia. }
  intros i x y Hi Hx Hy. rewrite lookup_contents in Hx by done. rewrite Ebuf, Ecap in Hx.
  rewrite Hcv in Hmod. rewrite Hmod in Hx. rewrite lastn_lookup, length_app in Hy by lia.
  assert (st + Z.of_nat i < _stop b + len) by lia. unfold st in *.
  destruct (Z.lt_ge_cases (Z.max (_start b) (_stop b + len - capacity b) + Z.of_nat i) (_stop b)).
  - rewrite Hold in Hx by (fold (capacity b); lia). rewrite lookup_app_l in Hy by lia.
    rewrite lookup_contents in Hy by (done || lia).
    match type of Hy with _ !! Z.to_nat (?e mod _) = _ =>
      replace e with (Z.max (_start b) (_stop b + len - capacity b) + Z.of_nat i) in Hy by lia end.
    unfold capacity in *. congruence.
  - rewrite lookup_app_r in Hy by lia.
    specialize (Hnew (Z.to_nat (Z.max (_start b) (_stop b + len - capacity b) + Z.of_nat i - _stop b)) ltac:(lia)).
    rewrite Z2Nat.id in Hnew by lia.
    replace (_stop b + (Z.max (_start b) (_stop b + len - capacity b) + Z.of_nat i - _stop b))
      with (Z.max (_start b) (_stop b + len - capacity b) + Z.of_nat i) in Hnew by lia.
    unfold capacity in *. rewrite Hx in Hnew.
    match type of Hy with _ !! ?e = _ => replace e with
      (Z.to_nat (Z.max (_start b) (_stop b + len - Z.of_nat (length (buf b))) + Z.of_nat i - _stop b)) in Hy by lia end.
    congruence.
Qed.

Lemma lastn_trim n c inp :
  0 <= n <= Z.of_nat (length inp) ->
  lastn n (c ++ drop (Z.to_nat (Z.of_nat (length inp) - n)) inp) = lastn n (c ++ inp).
Proof.
  intros Hn. unfold lastn. rewrite !length_app, length_drop.
  rewrite !drop_app_ge by lia. rewrite drop_drop. f_equal. lia.
Qed.

Lemma write_ok b inp :
  buf_inv b -> Z.of_nat (length inp) < 2 ^ 62 ->
  exists b', write b inp = Ok b' /\ buf_inv b' /\ capacity b' = capacity b /\
    contents b' = lastn (capacity b) (contents b ++ inp).
Proof.
  intros Hb Hl. destruct (Z.le_gt_cases (Z.of_nat (length inp)) (capacity b)); [by apply write_fits|].
  pose proof (bi_cap _ Hb). set (trim := drop (Z.to_nat (Z.of_nat (length inp) - capacity b)) inp).
  assert (Z.of_nat (length trim) = capacity b) as Ht by (unfold trim; rewrite length_drop; lia).
  destruct (write_fits b trim Hb ltac:(lia)) as (b' & Hw & Hb' & Hc & Hcon).
  exists b'. split; [|split; [done|split; [done|]]].
  - rewrite <- Hw. unfold write. rewrite Ht. rewrite (proj2 (Z.ltb_lt _ _)) by lia.
    by rewrite Z.ltb_irrefl.
  - rewrite Hcon. unfold trim. apply lastn_trim. lia.
Qed.

Lemma slice_0 l len : slice l 0 len = take (Z.to_nat len) l.
Proof. done. Qed.

Lemma read_ok b len :
  buf_inv b -> 0 <= len <= size b ->
  exists b', read b len = Ok (take (Z.to_nat len) (contents b), b') /\ buf_inv b' /\
    capacity b' = capacity b /\ contents b' = drop (Z.to_nat len) (contents b).
Proof.
  intros Hb Hl. pose proof (size_ok b Hb) as Hs. pose proof (length_contents b Hb) as Hlc.
  pose proof Hb as [Hcap Hord Hst Hsp Hsz]. unfold read. rewrite peek_ok by (done || lia).
  cbn [mbind res_bind]. rewrite (wrap_u_id 64 (_start b + len)) by lia.
  destruct (normalize_ok (buf b) (_start b + len) (_stop b)) as (b' & -> & Hb' & Ebuf & Hsz' & Hmod);
    fold (capacity b); [lia..|]. cbn [mbind res_bind]. rewrite slice_0. exists b'. split; [done|].
  split; [done|]. assert (capacity b' = capacity b) as Ecap by (unfold capacity; by rewrite Ebuf).
  split; [done|]. pose proof (length_contents b' Hb') as Hlc'.
  apply list_eq_same_length with (n := length (contents b')); [|done|].
  { rewrite length_drop. lia. }
  intros i x y Hi Hx Hy. rewrite lookup_contents in Hx by done. rewrite Ebuf, Ecap in Hx.
  fold (capacity b) in Hmod. rewrite Hmod in Hx. rewrite lookup_drop, lookup_contents in Hy by (done || lia).
  replace (_start b + Z.of_nat (Z.to_nat len + i)) with (_start b + len + Z.of_nat i) in Hy by lia. congruence.
Qed.
End CircleBuf.
Arguments CircleBuf : clear implicits.

(** * Theorems *)

(** (the circular buffer is a bounded queue). A buffer in the state its
    invariants describe stores a queue of at most [capacity] elements.
    [write] of any number of elements appends them and keeps the last
    [capacity], whatever part of the backing store they wrap over; [read] of
    no more than is stored returns the oldest elements and removes them, and
    stops the simulator when asked for more; [flush] empties it; a [Fifo]
    accepts a write exactly if it fits, and then loses nothing.  All preserve the
    invariants. *)
Theorem circlebuf_refines {T} (b : CircleBuf T) :
  buf_inv b ->
  (forall inp, Z.of_nat (length inp) < 2 ^ 62 -> exists b', write b inp = Ok b' /\ buf_inv b' /\
     capacity b' = capacity b /\ contents b' = lastn (capacity b) (contents b ++ inp)) /\
  (forall len, 0 <= len <= Z.of_nat (length (contents b)) -> exists b',
     read b len = Ok (take (Z.to_nat len) (contents b), b') /\ buf_inv b' /\
     capacity b' = capacity b /\ contents b' = drop (Z.to_nat len) (contents b)) /\
  (forall len, Z.of_nat (length (contents b)) < len < 2 ^ 64 -> read b len = Panic) /\
  (buf_inv (flush b) /\ contents (flush b) = []) /\
  (forall inp, Z.of_nat (length inp) < 2 ^ 62 ->
     if Z.of_nat (length (contents b)) + Z.of_nat (length inp) <=? capacity b
     then exists b', Fifo_write b inp = Ok b' /\ buf_inv b' /\ contents b' = contents b ++ inp
     else Fifo_write b inp = Panic).
Proof.
  intros Hb. pose proof (size_ok b Hb) as Hs. pose proof (length_contents b Hb) as Hlc.
  pose proof Hb as [Hcap Hord Hst Hsp Hsz]. split_and!.
  - intros inp Hl. by apply write_ok.
  - intros len Hl. apply read_ok; [done|lia].
  - intros len Hl. unfold read, peek. rewrite (wrap_u_id 64 (0 + len)) by lia.
    by rewrite (proj2 (Z.ltb_lt _ _)) by lia.
  - split; unfold capacity in *; cbn; lia.
  - done.
  - intros inp Hl. unfold Fifo_write. rewrite (wrap_u_id 64 (size b + _)) by lia.
    destruct (Z.leb_spec (Z.of_nat (length (contents b)) + Z.of_nat (length inp)) (capacity b)).
    + rewrite (proj2 (Z.ltb_ge _ _)) by lia. destruct (write_ok b inp Hb Hl) as (b' & Hw & Hb' & _ & Hc).
      exists b'. split; [exact Hw|]. split; [done|]. rewrite Hc. unfold lastn.
      rewrite length_app. by replace (_ - _)%nat with 0%nat by lia.
    + by rewrite (proj2 (Z.ltb_lt _ _)) by lia.
Qed.

Example circlebuf_refines_witness :
  let b := CircleBuf_new 0 4 in exists b1 b2,
    write b [1; 2; 3] = Ok b1 /\ read b1 2 = Ok ([1; 2], b2) /\ contents b2 = [3].
Proof.
  intros b. assert (buf_inv b) as Hb by (split; vm_compute; done || (split; done)).
  destruct (circlebuf_refines b Hb) as (Hw & _).
  destruct (Hw [1; 2; 3]) as (b1 & H1 & Hb1 & _ & Hc1); [simpl; lia|].
  destruct (circlebuf_refines b1 Hb1) as (_ & Hr & _). rewrite Hc1 in Hr.
  destruct (Hr 2) as (b2 & H2 & _ & _ & H3); [vm_compute; split; discriminate|].
  exists b1, b2. split; [exact H1|]. split; [exact H2|exact H3].
Defined.
