(* ===== verification/AddrRangeMap.v ===== *)
(** The address-range map of src/base/addr_range_map.hh: a [std::map] of
    non-overlapping ranges, ordered by [AddrRange::operator<], and a cache of
    the iterators used last. *)
From S2P Require Import Prelude Bitfield AddrRange.
From Stdlib Require Import Sorting.Sorted.

(** * Definitions *)

Section AddrRangeMap.
Context {V : Type}.

(** [tree]: the map in its order.  An iterator to an entry is its key, and
    [None] is [end()]; an iterator to an erased entry dangles, until an equal
    key comes back, which the model cannot tell from the erased one. *)
Record AddrRangeMap := { tree : list (AddrRange * V); cache : list AddrRange }.
Definition keys (m : AddrRangeMap) : list AddrRange := fst <$> tree m.
Definition with_cache (m : AddrRangeMap) (c : list AddrRange) : AddrRangeMap :=
  {| tree := tree m; cache := c |}.

(** The elements before and from the first one greater than [r]:
    [tree.upper_bound(r)] and what precedes it. *)
Fixpoint upper_bound (r : AddrRange) (ks : list AddrRange) : list AddrRange * list AddrRange :=
  match ks with
  | [] => ([], [])
  | k :: ks' =>
    if range_lt r k then ([], ks) else let '(b, a) := upper_bound r ks' in (k :: b, a)
  end.

(** The loop over the cache: a hit is promoted to the front.  Reading through
    a dangling iterator is undefined. *)
Fixpoint scan_cache (ks : list AddrRange) (cond : AddrRange -> res bool) (pre c : list AddrRange)
  : res (option (AddrRange * list AddrRange)) :=
  match c with
  | [] => Ok None
  | k :: c =>
    defined! bool_decide (k ∈ ks) ;;
    b ← cond k;
    if b : bool then Ok (Some (k, k :: reverse pre ++ c)) else scan_cache ks cond (k :: pre) c
  end.

(** The loop backwards from the entry before [upper_bound], as long as entries
    merge; [rb]: those entries, last first. *)
Fixpoint walk (cond : AddrRange -> res bool) (rb : list AddrRange) : res (option AddrRange) :=
  match rb with
  | [] => Ok None
  | i :: rest =>
    b ← cond i;
    if b : bool then Ok (Some i)
    else match rest with
         | [] => Ok None
         | next :: _ => if mergesWith next i then walk cond rest else Ok None
         end
  end.

(** [N]: the template parameter [max_cache_size]. *)
Definition addNewEntryToCache (N : Z) (c : list AddrRange) (it : AddrRange) : list AddrRange :=
  if negb (N =? 0) then
    if N <=? Z.of_nat (length c) then
      if 1 <? N then it :: removelast c else removelast c ++ [it]
    else it :: c
  else c.

Definition find (N : Z) (m : AddrRangeMap) (r : AddrRange) (cond : AddrRange -> res bool)
  : res (option AddrRange * AddrRangeMap) :=
  hit ← scan_cache (keys m) cond [] (cache m);
  match hit with
  | Some (it, c) => Ok (Some it, with_cache m c)
  | None =>
    let '(before, after) := upper_bound r (keys m) in
    next ← (match after with
            | [] => Ok None
            | k :: _ => b ← cond k; Ok (if b : bool then Some k else None)
            end);
    found ← (match next with Some k => Ok (Some k) | None => walk cond (reverse before) end);
    Ok (found, match found with
               | Some k => with_cache m (addNewEntryToCache N (cache m) k)
               | None => m
               end)
  end.

Definition contains_range (N : Z) (m : AddrRangeMap) (r : AddrRange) : res (option AddrRange * AddrRangeMap) :=
  find N m r (fun r1 => isSubset r r1).
Definition contains_addr (N : Z) (m : AddrRangeMap) (a : Z) : res (option AddrRange * AddrRangeMap) :=
  contains_range N m (RangeSize a 1).
Definition map_intersects (N : Z) (m : AddrRangeMap) (r : AddrRange) : res (option AddrRange * AddrRangeMap) :=
  find N m r (fun r1 => AddrRange.intersects r r1).

(** [std::map::insert]: an equivalent key keeps its entry. *)
Fixpoint tree_insert (r : AddrRange) (d : V) (t : list (AddrRange * V)) : AddrRange * list (AddrRange * V) :=
  match t with
  | [] => (r, [(r, d)])
  | (k, x) :: t' =>
    if range_lt k r then let '(it, t'') := tree_insert r d t' in (it, (k, x) :: t'')
    else if range_lt r k then (r, (r, d) :: t)
    else (k, t)
  end.

Definition insert (N : Z) (m : AddrRangeMap) (r : AddrRange) (d : V)
  : res (option AddrRange * AddrRangeMap) :=
  '(i, m) ← map_intersects N m r;
  match i with
  | Some _ => Ok (None, m)
  | None => let '(it, t) := tree_insert r d (tree m) in Ok (Some it, {| tree := t; cache := cache m |})
  end.

(** [cache.remove(p)] *)
Definition cache_remove (p : AddrRange) (c : list AddrRange) : list AddrRange :=
  filter (fun k => k <> p) c.

(** [erase(p)], for an iterator to an entry. *)
Definition erase (m : AddrRangeMap) (p : AddrRange) : res AddrRangeMap :=
  defined! bool_decide (p ∈ keys m) ;;
  Ok {| tree := filter (fun e => e.1 <> p) (tree m); cache := cache_remove p (cache m) |}.

(** The loop of [erase(p, q)] removes [p] once for every entry before [q], and
    [tree.erase(p, q)] erases those entries. *)
Fixpoint from_key (p : AddrRange) (t : list (AddrRange * V)) : list (AddrRange * V) * list (AddrRange * V) :=
  match t with
  | [] => ([], [])
  | e :: t' => if bool_decide (e.1 = p) then ([], t) else let '(b, a) := from_key p t' in (e :: b, a)
  end.
Definition erase_range (m : AddrRangeMap) (p : AddrRange) (q : option AddrRange) : AddrRangeMap :=
  let '(before, rest) := from_key p (tree m) in
  let '(gone, after) := match q with Some q => from_key q rest | None => (rest, []) end in
  {| tree := before ++ after;
     cache := foldr (fun _ c => cache_remove p c) (cache m) gone |}.

Definition clear (m : AddrRangeMap) : AddrRangeMap := {| tree := []; cache := [] |}.
Definition map_size (m : AddrRangeMap) : Z := Z.of_nat (length (tree m)).
Definition map_empty (m : AddrRangeMap) : bool := match tree m with [] => true | _ => false end.

(** * Invariant *)

(** A range the map can hold: interleaved, or with no stripe number. *)
Record key_ok (k : AddrRange) : Prop := {
  ko_wf : range_wf k;
  ko_valid : _start k <= _end k;
  ko_match : interleaved k = false -> intlvMatch k = 0 }.

Definition disjoint_bounds (k1 k2 : AddrRange) : Prop := _end k1 < _start k2 \/ _end k2 < _start k1.

(** Two entries: in order, and stripes of the same range or apart. *)
Definition in_order (k1 k2 : AddrRange) : Prop :=
  range_lt k1 k2 = true /\ (mergesWith k1 k2 = true \/ disjoint_bounds k1 k2).

Record map_inv (m : AddrRangeMap) : Prop := {
  mi_keys : Forall key_ok (keys m);
  mi_order : StronglySorted in_order (keys m);
  mi_cache : forall k, k ∈ cache m -> k ∈ keys m }.

(** ** Order *)

Lemma range_lt_spec k1 k2 :
  range_lt k1 k2 = true <-> _start k1 < _start k2 \/ (_start k1 = _start k2 /\ intlvMatch k1 < intlvMatch k2).
Proof. unfold range_lt. destruct (Z.eqb_spec (_start k1) (_start k2)); cbn [negb]; rewrite Z.ltb_lt; lia. Qed.

Lemma range_lt_false k1 k2 :
  range_lt k1 k2 = false <-> _start k2 < _start k1 \/ (_start k1 = _start k2 /\ intlvMatch k2 <= intlvMatch k1).
Proof. unfold range_lt. destruct (Z.eqb_spec (_start k1) (_start k2)); cbn [negb]; rewrite Z.ltb_ge; lia. Qed.

Lemma upper_bound_spec r ks b a :
  upper_bound r ks = (b, a) -> ks = b ++ a /\ Forall (fun k => range_lt r k = false) b /\
    (forall k a', a = k :: a' -> range_lt r k = true).
Proof.
  revert b a. induction ks as [|k ks IH]; intros b a; cbn; [by intros [= <- <-]|].
  destruct (range_lt r k) eqn:E.
  - intros [= <- <-]. split; [done|]. split; [done|]. by intros k' a' [= <- _].
  - destruct (upper_bound r ks) as [b' a'] eqn:E'. intros [= <- <-].
    destruct (IH b' a' eq_refl) as (-> & Hb & Ha). split; [done|]. split; [by constructor|done].
Qed.

Lemma sorted_app_order (b a : list AddrRange) k1 k2 :
  StronglySorted in_order (b ++ a) -> k1 ∈ b -> k2 ∈ a -> in_order k1 k2.
Proof.
  induction b as [|k b IH]; intros Hs H1 H2; [by apply not_elem_of_nil in H1|].
  inversion_clear Hs as [|? ? Hs' Hf]. apply elem_of_cons in H1 as [-> |H1]; [|by apply IH].
  rewrite Forall_forall in Hf. apply Hf. apply elem_of_app. by right.
Qed.

(** Entries that share an address bound merge. *)
Lemma in_order_overlap k1 k2 :
  in_order k1 k2 \/ in_order k2 k1 -> _start k1 <= _end k2 -> _start k2 <= _end k1 -> mergesWith k2 k1 = true.
Proof.
  intros [[_ [Hm|Hd]]|[_ [Hm|Hd]]] H1 H2; try (unfold disjoint_bounds in Hd; lia);
    apply mergesWith_spec in Hm; apply mergesWith_spec; intuition congruence.
Qed.

(** No address is in two entries. *)
Lemma entries_disjoint k1 k2 a :
  key_ok k1 -> key_ok k2 -> in_order k1 k2 \/ in_order k2 k1 -> contains k1 a = true -> contains k2 a = false.
Proof.
  intros Hk1 Hk2 Ho Hc1. apply not_true_is_false. intros Hc2.
  apply contains_spec in Hc1 as [Hb1 Hs1], Hc2 as [Hb2 Hs2]. unfold in_bounds in *.
  pose proof (in_order_overlap k1 k2 Ho ltac:(lia) ltac:(lia)) as Hm%mergesWith_spec.
  destruct Hm as (E1 & E2 & E3 & E4 & E5).
  assert (intlvMatch k1 = intlvMatch k2) as Em.
  { assert (interleaved k1 = interleaved k2) as Ei by (unfold interleaved; by rewrite E5).
    assert (hashed k1 = hashed k2) as Eh by (unfold hashed; by rewrite Ei, E4).
    destruct (interleaved k2) eqn:Ei2.
    - rewrite <- Hs1, <- Hs2 by done. unfold stripe_of. by rewrite Eh, E3, E4, E5.
    - rewrite (ko_match _ Hk1), (ko_match _ Hk2) by congruence. done. }
  destruct Ho as [[Ho _]|[Ho _]]; apply range_lt_spec in Ho; lia.
Qed.

(** ** Looking up *)

(** [cond] answers [P] on the entries of the map. *)
Lemma scan_cache_ok ks cond (P : AddrRange -> bool) pre c :
  (forall k, k ∈ ks -> cond k = Ok (P k)) -> (forall k, k ∈ reverse pre ++ c -> k ∈ ks) ->
  exists o, scan_cache ks cond pre c = Ok o /\
    match o with
    | Some (k, c') => P k = true /\ k ∈ ks /\ forall x, x ∈ c' -> x ∈ ks
    | None => Forall (fun k => P k = false) c
    end.
Proof.
  intros Hc. revert pre. induction c as [|k c IH]; intros pre Hk; cbn [scan_cache]; [by exists None|].
  assert (k ∈ ks) as Hin by (apply Hk, elem_of_app; right; apply elem_of_cons; by left).
  rewrite bool_decide_eq_true_2 by done. rewrite Hc by done. cbn [mbind res_bind]. destruct (P k) eqn:EP.
  - eexists. split; [done|]. cbn. do 2 (split; [done|]). intros x Hx. apply Hk.
    rewrite elem_of_app, elem_of_cons. apply elem_of_cons in Hx as [-> |Hx]; [tauto|].
    apply elem_of_app in Hx. tauto.
  - destruct (IH (k :: pre)) as (o & Ho & Hr).
    + intros x Hx. apply Hk. by rewrite reverse_cons, <- app_assoc in Hx.
    + exists o. split; [done|]. destruct o as [[k' c']|]; [done|by constructor].
Qed.

Lemma walk_none cond rb : (forall k, k ∈ rb -> cond k = Ok false) -> walk cond rb = Ok None.
Proof.
  induction rb as [|i rest IH]; intros H; cbn [walk]; [done|].
  rewrite H by (apply elem_of_cons; by left). cbn [mbind res_bind].
  destruct rest as [|n rest]; [done|]. case_match; [|done].
  apply IH. intros k Hk. apply H. apply elem_of_cons. by right.
Qed.

(** The walk passes entries that merge with each other to reach [T]. *)
Lemma walk_finds cond post T rest :
  (forall k, k ∈ post -> cond k = Ok false /\ mergesWith T k = true) -> cond T = Ok true ->
  walk cond (post ++ T :: rest) = Ok (Some T).
Proof.
  intros Hp HT. induction post as [|i post IH]; cbn [app walk]; [by rewrite HT|].
  destruct (Hp i) as [-> Hm]; [apply elem_of_cons; by left|]. cbn [mbind res_bind].
  assert (forall k, k ∈ post -> cond k = Ok false /\ mergesWith T k = true) as Hp'
    by (intros k Hk; apply Hp, elem_of_cons; by right).
  assert (exists n l, post ++ T :: rest = n :: l /\ mergesWith n i = true) as (n & l & E & Hn).
  { destruct post as [|n post]; cbn; do 2 eexists; (split; [done|]); [done|].
    destruct (Hp' n) as [_ Hn]; [apply elem_of_cons; by left|].
    apply mergesWith_spec in Hm, Hn. apply mergesWith_spec. intuition congruence. }
  pose proof (IH Hp') as IH'. rewrite E in IH' |- *. by rewrite Hn.
Qed.

Lemma addNewEntryToCache_elem N c it x : x ∈ addNewEntryToCache N c it -> x = it \/ x ∈ c.
Proof.
  assert (x ∈ removelast c -> x ∈ c) as Hr.
  { destruct c as [|y l] using rev_ind; [done|]. rewrite removelast_last, elem_of_app. by left. }
  unfold addNewEntryToCache. destruct (negb (N =? 0)); [|by right].
  destruct (N <=? _); [destruct (1 <? N)|].
  - rewrite elem_of_cons. tauto.
  - rewrite elem_of_app, list_elem_of_singleton. tauto.
  - rewrite elem_of_cons. tauto.
Qed.

(** The map with a cache of entries of its own. *)
Definition same_tree (m m' : AddrRangeMap) : Prop :=
  tree m' = tree m /\ forall k, k ∈ cache m' -> k ∈ keys m.

Lemma find_none N m r cond :
  map_inv m -> (forall k, k ∈ keys m -> cond k = Ok false) -> find N m r cond = Ok (None, m).
Proof.
  intros Hm Hc. unfold find.
  destruct (scan_cache_ok (keys m) cond (fun _ => false) [] (cache m) Hc) as (o & -> & Ho);
    [apply Hm|]. cbn [mbind res_bind]. destruct o as [[k c]|]; [by destruct Ho as [? _]|].
  destruct (upper_bound r (keys m)) as [b a] eqn:E. apply upper_bound_spec in E as (Ek & _ & _).
  assert (forall k, k ∈ b -> cond k = Ok false) as Hb by (intros k Hk; apply Hc; rewrite Ek, elem_of_app; by left).
  destruct a as [|k a]; cbn [mbind res_bind].
  - rewrite walk_none; [done|]. intros k Hk. apply Hb. by apply elem_of_reverse.
  - rewrite Hc by (rewrite Ek, elem_of_app, elem_of_cons; tauto). cbn [mbind res_bind].
    rewrite walk_none; [done|]. intros k' Hk. apply Hb. by apply elem_of_reverse.
Qed.

(** An entry is found where [upper_bound] looks, or behind entries that merge
    with it. *)
Lemma find_some N m r cond (P : AddrRange -> bool) T b a :
  map_inv m -> (forall k, k ∈ keys m -> cond k = Ok (P k)) -> P T = true ->
  (forall k, k ∈ keys m -> P k = true -> k = T) -> upper_bound r (keys m) = (b, a) ->
  (exists a', a = T :: a') \/
  (exists b1 b2, b = b1 ++ T :: b2 /\ forall k, k ∈ b2 -> mergesWith T k = true) ->
  exists m', find N m r cond = Ok (Some T, m') /\ same_tree m m'.
Proof.
  intros Hm Hc HT Hun Eub Hpos. unfold find.
  destruct (scan_cache_ok (keys m) cond P [] (cache m) Hc) as (o & -> & Ho); [apply Hm|].
  cbn [mbind res_bind]. destruct o as [[k c]|].
  { destruct Ho as (Hk & Hin & Hc'). rewrite (Hun k Hin Hk). eexists. by split. }
  rewrite Eub. apply upper_bound_spec in Eub as (Ek & _ & _).
  assert (T ∈ keys m -> exists m', Ok (Some T, with_cache m (addNewEntryToCache N (cache m) T)) = Ok (Some T, m')
            /\ same_tree m m') as Hend.
  { intros HTin. eexists. split; [done|]. split; [done|]. intros k Hk. cbn in Hk.
    apply addNewEntryToCache_elem in Hk as [-> |Hk]; [done|by apply Hm]. }
  destruct Hpos as [(a' & ->)|(b1 & b2 & -> & Hmerge)].
  - rewrite Hc by (rewrite Ek, elem_of_app, elem_of_cons; tauto). cbn [mbind res_bind]. rewrite HT.
    cbn [mbind res_bind]. apply Hend. rewrite Ek, elem_of_app, elem_of_cons. tauto.
  - assert (T ∈ keys m) as HTin by (rewrite Ek, !elem_of_app, elem_of_cons; tauto).
    assert (forall k, k ∈ b2 \/ k ∈ a -> k ∈ keys m /\ k <> T) as Hne.
    { intros k Hk. assert (in_order T k) as [Hlt _].
      { apply (sorted_app_order (b1 ++ [T]) (b2 ++ a)); [|rewrite elem_of_app, list_elem_of_singleton; tauto|by apply elem_of_app].
        rewrite <- !app_assoc. cbn. pose proof (mi_order _ Hm) as Hs. by rewrite Ek, <- app_assoc in Hs. }
      split; [rewrite Ek, !elem_of_app, elem_of_cons; tauto|]. intros ->. apply range_lt_spec in Hlt. lia. }
    assert (forall k, k ∈ b2 \/ k ∈ a -> cond k = Ok false) as Hf.
    { intros k Hk. destruct (Hne k Hk) as [Hin Hk']. rewrite Hc by done. f_equal.
      apply not_true_is_false. intros HP. by apply Hk', Hun. }
    assert (walk cond (reverse (b1 ++ T :: b2)) = Ok (Some T)) as Hw.
    { rewrite reverse_app, reverse_cons, <- app_assoc. cbn. apply walk_finds; [|by rewrite Hc, HT].
      intros k Hk. rewrite elem_of_reverse in Hk. split; [apply Hf; by left|by apply Hmerge]. }
    destruct a as [|k a]; cbn [mbind res_bind].
    + rewrite Hw. by apply Hend.
    + rewrite Hf by (right; apply elem_of_cons; by left). cbn [mbind res_bind]. rewrite Hw. by apply Hend.
Qed.

(** ** Address lookups *)

Lemma addr_subset a k : 0 <= a < 2 ^ 64 -> key_ok k -> isSubset (RangeSize a 1) k = Ok (contains k a).
Proof.
  intros Ha [Hwf _ _]. unfold isSubset, RangeSize, AddrRange_plain. cbn [interleaved intlvBits _start _end].
  replace (a + 1 - 1) with a by lia. rewrite (wrap_u_id 64 a) by lia. cbn.
  destruct (interleaved k) eqn:Ei.
  - assert (size {| _start := a; _end := a; intlvHighBit := 0; xorHighBit := 0; intlvBits := 0; intlvMatch := 0 |} = 1)
      as -> by (unfold size; cbn; by rewrite Z.sub_diag).
    rewrite (granularity_pow2 k Hwf Ei). pose proof (granule_bits_range k Hwf Ei).
    pose proof (pow2_pos (granule_bits k) ltac:(lia)). rewrite (proj2 (Z.leb_le 1 _)) by lia.
    by rewrite andb_true_r, andb_diag.
  - unfold contains. rewrite Ei. cbn. f_equal.
Qed.

(** The stripe an address is in, and where [upper_bound] splits the map. *)
Lemma contains_addr_finds N m a T :
  map_inv m -> 0 <= a < 2 ^ 64 -> T ∈ keys m -> contains T a = true ->
  (a = _start T -> 0 <= intlvMatch T <= 1) ->
  exists m', contains_addr N m a = Ok (Some T, m') /\ same_tree m m'.
Proof.
  intros Hm Ha HT Hc Hstart. pose proof (mi_keys _ Hm) as Hk. rewrite Forall_forall in Hk.
  unfold contains_addr, contains_range. destruct (upper_bound (RangeSize a 1) (keys m)) as [b af] eqn:Eub.
  pose proof (upper_bound_spec _ _ _ _ Eub) as (Ek & Hb & Haf). pose proof (mi_order _ Hm) as Hs.
  pose proof (proj1 (contains_spec T a) Hc) as [Hbd _]. unfold in_bounds in Hbd.
  assert (_start (RangeSize a 1) = a /\ intlvMatch (RangeSize a 1) = 0) as [Er1 Er2] by done.
  assert (forall k, k ∈ keys m -> contains k a = true -> k = T) as Hun.
  { intros k Hin Hck. destruct (decide (k = T)) as [|Hne]; [done|exfalso].
    assert (in_order k T \/ in_order T k) as Ho.
    { apply list_elem_of_split in HT as (l1 & l2 & E). rewrite E in Hin, Hs.
      apply elem_of_app in Hin as [Hin|Hin].
      - left. apply (sorted_app_order l1 (T :: l2)); [done|done|apply elem_of_cons; by left].
      - apply elem_of_cons in Hin as [|Hin]; [done|]. right.
        apply (sorted_app_order (l1 ++ [T]) l2); [by rewrite <- app_assoc|rewrite elem_of_app, list_elem_of_singleton; tauto|done]. }
    pose proof (entries_disjoint k T a (Hk k Hin) (Hk T HT) Ho Hck). congruence. }
  eapply (find_some N m _ _ (fun k => contains k a) T b af Hm); [|done|done|done|].
  { intros k Hin. by apply addr_subset; [|apply Hk]. }
  rewrite Ek in HT, Hs. apply elem_of_app in HT as [HTb|HTa].
  - right. apply list_elem_of_split in HTb as (b1 & b2 & ->). exists b1, b2. split; [done|].
    intros k Hin. assert (in_order T k) as Ho.
    { apply (sorted_app_order (b1 ++ [T]) (b2 ++ af)); [by rewrite <- !app_assoc in *|
        rewrite elem_of_app, list_elem_of_singleton; tauto|apply elem_of_app; by left]. }
    rewrite Forall_forall in Hb. specialize (Hb k ltac:(rewrite elem_of_app, elem_of_cons; tauto)).
    apply range_lt_false in Hb. destruct Ho as [Hlt%range_lt_spec Ho].
    assert (key_ok k) as Hkk by (apply Hk; rewrite Ek, !elem_of_app, elem_of_cons; tauto).
    destruct Ho as [|[Hd|Hd]]; [done|lia|]. pose proof (ko_valid _ Hkk). lia.
  - left. destruct af as [|h af]; [by apply not_elem_of_nil in HTa|].
    pose proof (Haf h af eq_refl) as Hh%range_lt_spec. exists af. f_equal.
    apply elem_of_cons in HTa as [-> |HTa]; [done|exfalso].
    assert (in_order h T) as [Hlt%range_lt_spec _].
    { apply (sorted_app_order (b ++ [h]) af); [by rewrite <- app_assoc|rewrite elem_of_app, list_elem_of_singleton; tauto|done]. }
    lia.
Qed.

(** ** Inserting *)

Lemma find_any N m r cond (P : AddrRange -> bool) b a :
  map_inv m -> (forall k, k ∈ keys m -> cond k = Ok (P k)) -> upper_bound r (keys m) = (b, a) ->
  (exists T a', a = T :: a' /\ P T = true) \/ (exists T b1, b = b1 ++ [T] /\ P T = true) ->
  exists k m', find N m r cond = Ok (Some k, m') /\ P k = true /\ k ∈ keys m /\ same_tree m m'.
Proof.
  intros Hm Hc Eub Hpos. unfold find.
  destruct (scan_cache_ok (keys m) cond P [] (cache m) Hc) as (o & -> & Ho); [apply Hm|].
  cbn [mbind res_bind]. destruct o as [[k c]|].
  { destruct Ho as (Hk & Hin & Hc'). eexists k, _. split; [done|]. by split_and!. }
  rewrite Eub. apply upper_bound_spec in Eub as (Ek & _ & _).
  assert (forall k, P k = true -> k ∈ keys m -> exists k' m',
    Ok (Some k, with_cache m (addNewEntryToCache N (cache m) k)) = Ok (Some k', m') /\ P k' = true /\
    k' ∈ keys m /\ same_tree m m') as Hend.
  { intros k HP Hin. eexists k, _. split; [done|]. do 2 (split; [done|]). split; [done|]. intros x Hx. cbn in Hx.
    apply addNewEntryToCache_elem in Hx as [-> |Hx]; [done|by apply Hm]. }
  assert (forall T b1, b = b1 ++ [T] -> P T = true -> walk cond (reverse b) = Ok (Some T) /\ T ∈ keys m) as Hlast.
  { intros T b1 -> HT. assert (T ∈ keys m) by (rewrite Ek, !elem_of_app, list_elem_of_singleton; tauto).
    split; [|done]. rewrite reverse_snoc. cbn. by rewrite Hc, HT. }
  destruct a as [|h a].
  - destruct Hpos as [(T & a' & [=] & _)|(T & b1 & E & HT)]. destruct (Hlast T b1 E HT) as [Hw Hin].
    cbn [mbind res_bind]. rewrite Hw. by apply Hend.
  - assert (h ∈ keys m) as Hh by (rewrite Ek, elem_of_app, elem_of_cons; tauto).
    rewrite Hc by done. cbn [mbind res_bind]. destruct (P h) eqn:EPh; cbn [mbind res_bind]; [by apply Hend|].
    destruct Hpos as [(T & a' & [= <- _] & HT)|(T & b1 & E & HT)]; [congruence|].
    destruct (Hlast T b1 E HT) as [Hw Hin]. rewrite Hw. by apply Hend.
Qed.

(** A range [insert] can compare with entry [k]: a stripe of the same range,
    a range apart, or both not interleaved. *)
Definition comparable (r k : AddrRange) : Prop :=
  mergesWith r k = true \/ disjoint_bounds r k \/ (interleaved r = false /\ interleaved k = false).

(** Do they share addresses? *)
Definition hits (r k : AddrRange) : bool :=
  negb ((_end k <? _start r) || (_end r <? _start k)) && (intlvMatch r =? intlvMatch k).

Lemma intersects_hits r k :
  key_ok r -> key_ok k -> (interleaved r = true -> size r <> 1) -> comparable r k ->
  AddrRange.intersects r k = Ok (hits r k).
Proof.
  intros Hr Hk Hsz Hc. unfold AddrRange.intersects, hits.
  destruct ((_end k <? _start r) || (_end r <? _start k)) eqn:Ed; cbn [negb andb]; [done|].
  destruct Hc as [Hm|[Hd|[Hir Hik]]].
  - pose proof Hm as Hm'. apply mergesWith_spec in Hm' as (E1 & E2 & E3 & E4 & E5).
    assert (interleaved k = interleaved r) as Ei by (unfold interleaved; by rewrite E5).
    assert (size k = size r) as Es by (unfold size; by rewrite E1, E2, E5).
    rewrite Ei, Es, Hm. destruct (interleaved r) eqn:Eir; cbn [negb andb].
    + by rewrite (proj2 (Z.eqb_neq _ _)) by auto.
    + by rewrite (ko_match r Hr Eir), (ko_match k Hk Ei).
  - unfold disjoint_bounds in Hd. lia.
  - rewrite Hir, Hik. cbn [negb andb]. by rewrite (ko_match r Hr Hir), (ko_match k Hk Hik).
Qed.

(** [tree.insert] of a key comparable with every entry and equal to none. *)
Lemma tree_insert_ok r d t :
  Forall (fun e => range_lt r e.1 = true \/ range_lt e.1 r = true) t -> exists b a, t = b ++ a /\
    tree_insert r d t = (r, b ++ (r, d) :: a) /\ Forall (fun e => range_lt e.1 r = true) b /\
    (forall e a', a = e :: a' -> range_lt r e.1 = true).
Proof.
  induction t as [|[k x] t IH]; intros Hf; cbn [tree_insert].
  - exists [], []. by split_and!.
  - apply Forall_cons in Hf as [Hk Hf]. destruct (range_lt k r) eqn:E.
    + destruct (IH Hf) as (b & a & -> & -> & Hb & Ha). exists ((k, x) :: b), a.
      do 2 (split; [done|]). split; [by constructor|done].
    + destruct Hk as [Hk|Hk]; cbn in Hk; [|congruence]. rewrite Hk. exists [], ((k, x) :: t).
      do 3 (split; [done|]). by intros e a' [= <- _].
Qed.

(** What is not hit is ordered with [r]. *)
Lemma ordered_unless_hit r k :
  key_ok r -> key_ok k -> comparable r k -> hits r k = false ->
  (range_lt r k = true \/ range_lt k r = true) /\ (mergesWith r k = true \/ disjoint_bounds r k).
Proof.
  intros Hr Hk Hc Hh. pose proof (ko_valid _ Hr). pose proof (ko_valid _ Hk).
  assert (mergesWith r k = true \/ disjoint_bounds r k) as Hmd.
  { destruct Hc as [|[|[Hir Hik]]]; [by left|by right|right]. unfold hits in Hh.
    rewrite (ko_match r Hr Hir), (ko_match k Hk Hik), Z.eqb_refl in Hh. unfold disjoint_bounds. lia. }
  split; [|done]. rewrite !range_lt_spec. destruct Hmd as [Hm|Hd]; [|unfold disjoint_bounds in Hd; lia].
  apply mergesWith_spec in Hm as (E1 & E2 & _). unfold hits in Hh. lia.
Qed.

Lemma in_order_intro r k :
  range_lt r k = true -> mergesWith r k = true \/ disjoint_bounds r k -> in_order r k.
Proof. by split. Qed.

Lemma in_order_sym r k :
  range_lt k r = true -> mergesWith r k = true \/ disjoint_bounds r k -> in_order k r.
Proof.
  intros Hlt [Hm|Hd]; split; try done; [left|right].
  - apply mergesWith_spec in Hm. apply mergesWith_spec. intuition congruence.
  - unfold disjoint_bounds in *. lia.
Qed.

Lemma sorted_insert (b a : list AddrRange) r :
  StronglySorted in_order (b ++ a) -> Forall (fun k => in_order k r) b -> Forall (in_order r) a ->
  StronglySorted in_order (b ++ r :: a).
Proof.
  induction b as [|k b IH]; cbn; intros Hs Hb Ha.
  - by constructor.
  - apply Forall_cons in Hb as [Hk Hb]. inversion_clear Hs as [|? ? Hs' Hf]. constructor; [by apply IH|].
    apply Forall_app in Hf as [Hf1 Hf2]. apply Forall_app. split; [done|]. by constructor.
Qed.

(** [insert] where nothing is hit. *)
Lemma insert_new N m r d :
  map_inv m -> key_ok r -> (interleaved r = true -> size r <> 1) ->
  (forall k, k ∈ keys m -> comparable r k) -> (forall k, k ∈ keys m -> hits r k = false) ->
  exists b a, tree m = b ++ a /\
    insert N m r d = Ok (Some r, {| tree := b ++ (r, d) :: a; cache := cache m |}) /\
    map_inv {| tree := b ++ (r, d) :: a; cache := cache m |}.
Proof.
  intros Hm Hr Hsz Hcmp Hh. pose proof (mi_keys _ Hm) as Hk. rewrite Forall_forall in Hk.
  assert (forall e, e ∈ tree m -> e.1 ∈ keys m) as Hin by (intros e He; by apply list_elem_of_fmap_2).
  destruct (tree_insert_ok r d (tree m)) as (b & a & Et & Hins & Hb & Ha).
  { apply Forall_forall. intros e He%Hin. by apply ordered_unless_hit; auto. }
  exists b, a. split; [done|]. split.
  { unfold insert, map_intersects. rewrite find_none; [|done|].
    - cbn [mbind res_bind]. by rewrite Hins.
    - intros k Hkin. rewrite intersects_hits; auto. f_equal. auto. }
  assert (keys m = (fst <$> b) ++ (fst <$> a)) as Ek by (unfold keys; by rewrite Et, fmap_app).
  assert (forall k, k ∈ keys m -> mergesWith r k = true \/ disjoint_bounds r k) as Hmd
    by (intros k Hkin; by apply ordered_unless_hit; auto).
  pose proof (mi_order _ Hm) as Hs. rewrite Ek in Hs. split.
  - unfold keys. cbn. rewrite fmap_app. cbn. apply Forall_app. split; [|constructor; [done|]];
      apply Forall_forall; intros k Hkin; apply Hk; rewrite Ek, elem_of_app; tauto.
  - unfold keys. cbn. rewrite fmap_app. cbn. apply sorted_insert; [done| |].
    + apply Forall_forall. intros k Hkin. apply in_order_sym.
      * apply list_elem_of_fmap in Hkin as (e & -> & He). rewrite Forall_forall in Hb. by apply Hb.
      * apply Hmd. rewrite Ek, elem_of_app. by left.
    + destruct a as [|e a]; [constructor|]. specialize (Ha e a eq_refl). cbn in *.
      assert (forall k, k ∈ e.1 :: (fst <$> a) -> range_lt r k = true) as Hlt.
      { intros k Hkin. apply elem_of_cons in Hkin as [-> |Hkin]; [done|].
        assert (in_order e.1 k) as [Hlt _].
        { apply (sorted_app_order ((fst <$> b) ++ [e.1]) (fst <$> a)); [by rewrite <- app_assoc|
            rewrite elem_of_app, list_elem_of_singleton; tauto|done]. }
        apply range_lt_spec in Hlt, Ha. apply range_lt_spec. lia. }
      apply Forall_forall. intros k Hkin. apply in_order_intro; [by apply Hlt|].
      apply Hmd. rewrite Ek, elem_of_app. by right.
  - intros k Hkin. pose proof (mi_cache _ Hm k Hkin) as Hkk. rewrite Ek in Hkk. unfold keys. cbn.
    rewrite fmap_app. cbn. rewrite elem_of_app in *. rewrite elem_of_cons. tauto.
Qed.

(** [insert] where an entry is hit. *)
Lemma insert_hit N m r d T :
  map_inv m -> key_ok r -> (interleaved r = true -> size r <> 1) ->
  (forall k, k ∈ keys m -> comparable r k) -> T ∈ keys m -> hits r T = true ->
  exists m', insert N m r d = Ok (None, m') /\ same_tree m m'.
Proof.
  intros Hm Hr Hsz Hcmp HT Hh. pose proof (mi_keys _ Hm) as Hk. rewrite Forall_forall in Hk.
  destruct (upper_bound r (keys m)) as [b a] eqn:Eub.
  pose proof (upper_bound_spec _ _ _ _ Eub) as (Ek & Hb & Ha). pose proof (mi_order _ Hm) as Hs.
  destruct (find_any N m r (fun k => AddrRange.intersects r k) (hits r) b a Hm) as (k & m' & Hf & _ & _ & Hst).
  { intros k Hin. apply intersects_hits; auto. }
  { done. }
  { pose proof (ko_valid _ Hr). pose proof (ko_valid _ (Hk T HT)).
    pose proof HT as HT'. rewrite Ek in HT', Hs. apply elem_of_app in HT' as [HTb|HTa].
    - right. destruct (list_elem_of_split _ _ HTb) as (b1 & b2 & ->).
      destruct b2 as [|l b2 _] using rev_ind; [by exists T, b1|exfalso].
      assert (in_order T l) as Ho.
      { apply (sorted_app_order (b1 ++ [T]) ((b2 ++ [l]) ++ a)).
        - rewrite <- app_assoc in Hs |- *. exact Hs.
        - rewrite elem_of_app, list_elem_of_singleton. tauto.
        - rewrite !elem_of_app, list_elem_of_singleton. tauto. }
      assert (l ∈ keys m) as Hl by (rewrite Ek, !elem_of_app, elem_of_cons, elem_of_app, list_elem_of_singleton; tauto).
      rewrite Forall_forall in Hb. specialize (Hb l ltac:(rewrite elem_of_app, elem_of_cons, elem_of_app, list_elem_of_singleton; tauto)).
      apply range_lt_false in Hb. pose proof (ko_valid _ (Hk l Hl)). unfold hits in Hh.
      destruct Ho as [Hlt%range_lt_spec [Hmg|Hd]]; [|unfold disjoint_bounds in Hd; lia].
      apply mergesWith_spec in Hmg as (E1 & E2 & _ & _ & E5).
      destruct (Hcmp T HT) as [Hmg|[Hd|[Ei1 Ei2]]]; [|unfold disjoint_bounds in Hd; lia|].
      + apply mergesWith_spec in Hmg. lia.
      + rewrite (ko_match T (Hk T HT) Ei2) in *.
        assert (interleaved l = false) as Ei by (unfold interleaved in *; by rewrite E5).
        rewrite (ko_match l (Hk l Hl) Ei) in *. lia.
    - left. destruct a as [|h a]; [by apply not_elem_of_nil in HTa|]. exists h, a. split; [done|].
      pose proof (Ha h a eq_refl) as Hlt%range_lt_spec.
      assert (h ∈ keys m) as Hhin by (rewrite Ek, elem_of_app, elem_of_cons; tauto).
      apply elem_of_cons in HTa as [-> |HTa]; [done|].
      assert (in_order h T) as [Hlt'%range_lt_spec _].
      { apply (sorted_app_order (b ++ [h]) a); [by rewrite <- app_assoc|rewrite elem_of_app, list_elem_of_singleton; tauto|done]. }
      pose proof (ko_valid _ (Hk h Hhin)). unfold hits in Hh |- *.
      destruct (Hcmp h Hhin) as [Hmg|[Hd|[Ei1 Ei2]]]; [|unfold disjoint_bounds in Hd; lia|].
      + exfalso. apply mergesWith_spec in Hmg as (E1 & E2 & _ & _ & E5).
        destruct (Hcmp T HT) as [Hm2|[Hd|[Ei1 Ei2]]]; [|unfold disjoint_bounds in Hd; lia|].
        * apply mergesWith_spec in Hm2. lia.
        * assert (interleaved h = false) as Ei by (unfold interleaved in *; by rewrite E5).
          pose proof (ko_match r Hr Ei1). pose proof (ko_match h (Hk h Hhin) Ei). lia.
      + pose proof (ko_match r Hr Ei1). pose proof (ko_match h (Hk h Hhin) Ei2). lia. }
  exists m'. split; [|done]. unfold insert, map_intersects. by rewrite Hf.
Qed.

(** ** The invariant *)

Lemma same_tree_inv m m' : map_inv m -> same_tree m m' -> map_inv m'.
Proof.
  intros [H1 H2 H3] [Ht Hc]. assert (keys m' = keys m) as Ek by (unfold keys; by rewrite Ht).
  split; rewrite Ek; done.
Qed.

Lemma clear_inv m : map_inv (clear m).
Proof. split; [constructor|constructor|done]. Qed.

Lemma sorted_filter (P : AddrRange -> Prop) `{!forall k, Decision (P k)} (l : list AddrRange) :
  StronglySorted in_order l -> StronglySorted in_order (filter P l).
Proof.
  induction 1 as [|k l Hs IH Hf]; [constructor|]. rewrite filter_cons. case_decide; [|done].
  constructor; [done|]. apply Forall_forall. intros x Hx. apply list_elem_of_filter in Hx as [_ Hx].
  rewrite Forall_forall in Hf. by apply Hf.
Qed.

Lemma from_key_app p d (b a : list (AddrRange * V)) :
  p ∉ fst <$> b -> from_key p (b ++ (p, d) :: a) = (b, (p, d) :: a).
Proof.
  induction b as [|e b IH]; intros Hb; cbn; [by rewrite bool_decide_eq_true_2|].
  rewrite fmap_cons, elem_of_cons in Hb. rewrite bool_decide_eq_false_2 by (intros <-; tauto).
  rewrite IH by tauto. done.
Qed.

Lemma sorted_NoDup l : StronglySorted in_order l -> NoDup l.
Proof.
  induction 1 as [|k l Hs IH Hf]; constructor; [|done]. intros Hk.
  rewrite Forall_forall in Hf. destruct (Hf k Hk) as [Hlt%range_lt_spec _]. lia.
Qed.

Lemma cache_remove_loop p (c : list AddrRange) (l : list (AddrRange * V)) k :
  k <> p -> (k ∈ foldr (fun _ c => cache_remove p c) c l <-> k ∈ c).
Proof.
  intros Hk. induction l as [|e l IH]; cbn; [done|]. unfold cache_remove at 1.
  rewrite list_elem_of_filter, IH. tauto.
Qed.
End AddrRangeMap.
Arguments AddrRangeMap : clear implicits.

(** * Theorems *)

(** (an address finds its entry). In a map of disjoint ranges in their order
    and with a cache of iterators to its entries, [contains] of an address
    returns the entry whose range contains it, through the cache, [upper_bound]
    or the walk over the stripes of one range, and [end()] exactly if no
    entry contains it; it changes only the cache, whose iterators stay valid.  The
    address must not be the start of an entry with a stripe number above 1. *)
Theorem map_contains_exact {V} N (m : AddrRangeMap V) a :
  map_inv m -> 0 <= a < 2 ^ 64 ->
  (forall T, T ∈ keys m -> a = _start T -> 0 <= intlvMatch T <= 1) ->
  exists o m', contains_addr N m a = Ok (o, m') /\ tree m' = tree m /\ map_inv m' /\
    (forall T, o = Some T <-> T ∈ keys m /\ contains T a = true).
Proof.
  intros Hm Ha Hst. pose proof (mi_keys _ Hm) as Hk. rewrite Forall_forall in Hk.
  destruct (decide (Exists (fun k => contains k a = true) (keys m))) as [(T & HT & Hc)%Exists_exists|Hn].
  - destruct (contains_addr_finds N m a T Hm Ha HT Hc (Hst T HT)) as (m' & Hf & Hs).
    exists (Some T), m'. split; [done|]. split; [apply Hs|]. split; [by eapply same_tree_inv|].
    intros T'. split; [by intros [= <-]|]. intros [HT' Hc'].
    destruct (contains_addr_finds N m a T' Hm Ha HT' Hc' (Hst T' HT')) as (m'' & Hf' & _). congruence.
  - exists None, m. split; [|split; [done|split; [done|]]].
    + apply find_none; [done|]. intros k Hin. rewrite addr_subset by auto. f_equal.
      apply not_true_is_false. intros Hc. apply Hn. apply Exists_exists. by exists k.
    + intros T. split; [done|]. intros [HT Hc]. exfalso. apply Hn. apply Exists_exists. by exists T.
Qed.

(** Two stripes of a range and the range above it, the second stripe cached. *)
Definition example_stripe (m : Z) : AddrRange := Build_AddrRange 0x1000 0x1fff 6 0 1 m.
Definition example_map : AddrRangeMap nat :=
  {| tree := [(example_stripe 0, 10%nat); (example_stripe 1, 11%nat); (RangeIn 0x2000 0x2fff, 12%nat)];
     cache := [example_stripe 1] |}.

Lemma example_key_ok k : k ∈ keys example_map -> key_ok k.
Proof.
  intros Hk. unfold keys, example_map in Hk. cbn in Hk.
  rewrite !elem_of_cons in Hk. destruct Hk as [-> |[-> |[-> |Hk]]]; [..|by apply not_elem_of_nil in Hk];
    (split; [wf_tac|by vm_compute|done]).
Qed.

Lemma example_map_inv : map_inv example_map.
Proof.
  split.
  - apply Forall_forall. apply example_key_ok.
  - repeat first [apply SSorted_cons | apply SSorted_nil | apply Forall_cons; split | apply Forall_nil; done];
      (split; [done|vm_compute; auto]).
  - intros k Hk. apply list_elem_of_singleton in Hk as ->. unfold keys, example_map. cbn.
    rewrite !elem_of_cons. auto.
Qed.

Example map_contains_exact_witness :
  exists o m', contains_addr 2 example_map 0x1080 = Ok (o, m') /\ map_inv m' /\
    (o = Some (example_stripe 0) <-> example_stripe 0 ∈ keys example_map /\ contains (example_stripe 0) 0x1080 = true).
Proof.
  destruct (map_contains_exact 2 example_map 0x1080 example_map_inv) as (o & m' & H1 & _ & H2 & H3); [lia| |].
  - intros T HT E. unfold keys, example_map in HT. cbn in HT. rewrite !elem_of_cons in HT.
    destruct HT as [-> |[-> |[-> |HT]]]; cbn in *; [lia..|by apply not_elem_of_nil in HT].
  - exists o, m'. split; [exact H1|]. split; [exact H2|apply H3].
Defined.

(** Four stripes whose selection is hashed with the bits above the range: the
    first address of the range is in stripe 2. *)
Definition hashed_stripe (m : Z) : AddrRange := Build_AddrRange 0x2000 0x2fff 7 13 2 m.

(** Insert entries into an empty map. *)
Definition insert_ranges (N : Z) (l : list AddrRange) : res (AddrRangeMap nat) :=
  foldl (fun m r => m ← m; '(_, m) ← insert N m r 0%nat; Ok m) (Ok {| tree := []; cache := [] |}) l.

(** (a stripe its first address misses).  [upper_bound] orders the one-byte
    range of an address before the stripes above 1 that start there, and [find]
    looks at one entry after it only: for a stripe number above 1, a map that
    [insert] built out of the four stripes of one range, and the first address of
    the range, [contains] with an empty cache returns [end()], although one of
    the entries contains the address.  With the entry in the cache the same call
    finds it: the cache changes the answer. *)
Theorem map_contains_misses_stripe :
  exists m, insert_ranges 2 [hashed_stripe 0; hashed_stripe 1; hashed_stripe 2; hashed_stripe 3] = Ok m /\
    contains (hashed_stripe 2) 0x2000 = true /\ hashed_stripe 2 ∈ keys m /\
    contains_addr 2 m 0x2000 = Ok (None, m) /\
    forall N m', contains_addr 2 m 0x2004 = Ok (Some (hashed_stripe 2), m') ->
      exists m'', contains_addr N m' 0x2000 = Ok (Some (hashed_stripe 2), m'').
Proof.
  eexists. split; [vm_compute; reflexivity|]. split; [reflexivity|]. split.
  { unfold keys. cbn. rewrite !elem_of_cons. auto. }
  split; [vm_compute; reflexivity|]. intros N m' H. vm_compute in H. injection H as <-.
  eexists. vm_compute. reflexivity.
Qed.

Example map_contains_misses_stripe_witness :
  exists m, insert_ranges 2 [hashed_stripe 0; hashed_stripe 1; hashed_stripe 2; hashed_stripe 3] = Ok m /\
    contains_addr 2 m 0x2000 = Ok (None, m).
Proof.
  destruct map_contains_misses_stripe as (m & H1 & _ & _ & H2 & _). exists m. split; [exact H1|exact H2].
Defined.

(** (inserting).  For a range that is apart from, or a stripe of the same
    range as, or like it not interleaved, each entry: if it shares addresses with an
    entry [insert] returns [end()] and keeps the entries; otherwise it adds the
    entry at its place and returns it.  Either way the entries stay disjoint and
    in order and the cached iterators valid. *)
Theorem map_insert_exact {V} N (m : AddrRangeMap V) r d :
  map_inv m -> key_ok r -> (interleaved r = true -> size r <> 1) ->
  (forall k, k ∈ keys m -> comparable r k) ->
  exists o m', insert N m r d = Ok (o, m') /\ map_inv m' /\
    if existsb (hits r) (keys m) then o = None /\ tree m' = tree m
    else o = Some r /\ exists b a, tree m = b ++ a /\ tree m' = b ++ (r, d) :: a.
Proof.
  intros Hm Hr Hsz Hcmp. destruct (existsb (hits r) (keys m)) eqn:E.
  - apply existsb_exists in E as (T & HT & Hh). apply list_elem_of_In in HT.
    destruct (insert_hit N m r d T) as (m' & Hi & Hs); [done..|]. exists None, m'. split; [done|].
    split; [by eapply same_tree_inv|]. split; [done|apply Hs].
  - assert (forall k, k ∈ keys m -> hits r k = false) as Hn.
    { intros k Hk. apply not_true_is_false. intros Hh. apply not_true_iff_false in E. apply E.
      apply existsb_exists. exists k. split; [by apply list_elem_of_In|done]. }
    destruct (insert_new N m r d) as (b & a & Et & Hi & Hm'); [done..|].
    eexists _, _. split; [done|]. split; [done|]. split; [done|]. by exists b, a.
Qed.

Example map_insert_exact_witness :
  exists m, insert 2 example_map (RangeIn 0x3000 0x3fff) 13%nat = Ok (Some (RangeIn 0x3000 0x3fff), m) /\ map_inv m.
Proof.
  destruct (map_insert_exact 2 example_map (RangeIn 0x3000 0x3fff) 13%nat) as (o & m & H1 & H2 & H3).
  - exact example_map_inv.
  - split; [wf_tac|by vm_compute|done].
  - done.
  - intros k Hk. unfold keys, example_map in Hk. cbn in Hk. rewrite !elem_of_cons in Hk. right. left.
    unfold disjoint_bounds. destruct Hk as [-> |[-> |[-> |Hk]]]; cbn; [lia..|by apply not_elem_of_nil in Hk].
  - exists m. destruct H3 as [-> _]. split; [exact H1|exact H2].
Defined.


(** (erasing).  [erase(p)] of an entry removes it and the iterators to it in
    the cache, and keeps the invariant.  [erase(p, q)] removes the entries from
    [p] to before [q], but of the cached iterators only those to [p]: a cached
    iterator to another of these entries stays, and the next lookup that
    comes to it has undefined behaviour. *)
Theorem map_erase_exact {V} (m : AddrRangeMap V) (b g a : list (AddrRange * V)) p d :
  map_inv m -> tree m = b ++ (p, d) :: g ++ a ->
  let m1 := {| tree := b ++ g ++ a; cache := cache_remove p (cache m) |} in
  let m2 := erase_range m p (fst <$> head a) in
  (erase m p = Ok m1 /\ map_inv m1) /\ tree m2 = b ++ a /\
  (forall k, k <> p -> k ∈ cache m -> k ∈ cache m2) /\
  (forall k, k ∈ fst <$> g -> k ∉ keys m2) /\
  (forall k c N r cond, k ∈ fst <$> g -> cache m2 = k :: c -> find N m2 r cond = Ub).
Proof.
  intros Hm Et m1 m2. pose proof (sorted_NoDup _ (mi_order _ Hm)) as Hnd.
  assert (keys m = (fst <$> b) ++ p :: (fst <$> g) ++ (fst <$> a)) as Ek
    by (unfold keys; rewrite Et, fmap_app, fmap_cons, fmap_app; done).
  rewrite Ek in Hnd. apply NoDup_app in Hnd as (_ & Hb & Hnd). apply NoDup_cons in Hnd as [Hp Hnd].
  apply NoDup_app in Hnd as (_ & Hg & _).
  assert (filter (fun k => k <> p) (keys m) = (fst <$> b) ++ (fst <$> g) ++ (fst <$> a)) as Ef.
  { rewrite Ek, filter_app, filter_cons_False by tauto. rewrite !filter_all; [done| |].
    - apply Forall_forall. by intros k Hk ->.
    - apply Forall_forall. intros k Hk ->. apply (Hb p Hk). apply elem_of_cons. by left. }
  assert (keys m1 = filter (fun k => k <> p) (keys m)) as Ek1
    by (rewrite Ef; unfold keys, m1; cbn [tree]; by rewrite !fmap_app).
  assert (tree m2 = b ++ a /\ exists l, cache m2 = foldr (fun (_ : AddrRange * V) c => cache_remove p c) (cache m) l)
    as [Et2 [l Ec2]].
  { unfold m2, erase_range. rewrite Et, from_key_app.
    - destruct a as [|e a]; cbn [head fmap option_fmap option_map].
      + rewrite !app_nil_r. split; [done|by exists ((p, d) :: g)].
      + destruct e as [q x]. cbn [fst]. rewrite app_comm_cons, from_key_app; [split; [done|by exists ((p, d) :: g)]|].
        rewrite fmap_cons, elem_of_cons. intros [-> |Hq].
        * apply Hp. rewrite elem_of_app, fmap_cons, elem_of_cons. auto.
        * apply (Hg q Hq). rewrite fmap_cons, elem_of_cons. auto.
    - intros Hk. apply (Hb p Hk). apply elem_of_cons. by left. }
  assert (forall k, k ∈ fst <$> g -> k ∉ keys m2) as Hgone.
  { intros k Hk. unfold keys. rewrite Et2, fmap_app, elem_of_app. intros [H|H]; [|by apply (Hg k Hk)].
    apply (Hb k H). rewrite elem_of_cons, elem_of_app. auto. }
  split_and!; try done.
  - unfold erase. rewrite bool_decide_eq_true_2 by (rewrite Ek, elem_of_app, elem_of_cons; auto). f_equal. unfold m1. f_equal.
    rewrite Et, filter_app, filter_cons_False by tauto. rewrite !filter_all; [done| |];
      apply Forall_forall; intros e He <-; apply (list_elem_of_fmap_2 fst) in He; rewrite ?fmap_app in He; [done|].
    apply (Hb _ He). apply elem_of_cons. by left.
  - split; rewrite Ek1.
    + apply Forall_forall. intros k [_ Hk]%list_elem_of_filter. by apply (proj1 (Forall_forall _ _) (mi_keys _ Hm)).
    + apply sorted_filter, Hm.
    + intros k Hk. cbn in Hk. apply list_elem_of_filter in Hk as [Hne Hk]. apply list_elem_of_filter.
      split; [done|by apply Hm].
  - intros k Hne Hk. rewrite Ec2. by apply cache_remove_loop.
  - intros k c N r cond Hk Ec. unfold find. rewrite Ec. cbn [scan_cache].
    by rewrite bool_decide_eq_false_2 by auto.
Qed.

Example map_erase_exact_witness :
  find 2 (erase_range example_map (example_stripe 0) (Some (RangeIn 0x2000 0x2fff))) (RangeSize 0x2000 1)
    (fun r => isSubset (RangeSize 0x2000 1) r) = Ub.
Proof.
  destruct (map_erase_exact example_map [] [(example_stripe 1, 11%nat)] [(RangeIn 0x2000 0x2fff, 12%nat)]
    (example_stripe 0) 10%nat example_map_inv eq_refl) as (_ & _ & _ & _ & H).
  apply (H (example_stripe 1) []); [apply elem_of_cons; by left|vm_compute; reflexivity].
Defined.
