(* ===== verification/ReplPolicy.v ===== *)
(** The cache replacement policies of src/mem/cache/replacement_policies: the
    interface [BaseReplacementPolicy] as a class with its laws, and the
    policies LRU, BIP, MRU, FIFO, second chance, LFU, BRRIP and random. *)
From S2P Require Import Prelude.

(** * The interface

    [P]: a policy object (its parameters), [D]: its replacement data.  [now] is
    [curTick()], and [random lo hi] what [random_mt.random(lo, hi)] returns at
    this call.  [getVictim] gets the data of the candidates, which are distinct
    entries, and returns the index of the victim and the data it leaves. *)
Class ReplacementPolicy (P D : Type) := {
  rp_invalidate : P -> D -> D;
  rp_touch : P -> Z -> D -> D;
  rp_reset : P -> Z -> (Z -> Z -> Z) -> D -> D;
  rp_getVictim : P -> Z -> (Z -> Z -> Z) -> list D -> res (nat * list D);
  rp_instantiateEntry : P -> D;
}.

(** * Definitions *)

(** The loop all but two of the policies share: from the victim [v] so far, take
    every candidate that is better than the victim; [i]: the index of the next
    candidate. *)
Fixpoint pick {D} (better : D -> D -> bool) (v : nat * D) (i : nat) (candidates : list D) : nat * D :=
  match candidates with
  | [] => v
  | c :: rest => pick better (if better c v.2 then (i, c) else v) (S i) rest
  end.
Definition pick_victim {D} (better : D -> D -> bool) (candidates : list D) : res (nat * list D) :=
  match candidates with
  | [] => Panic
  | c :: _ => Ok ((pick better (0%nat, c) 0 candidates).1, candidates)
  end.

(** ** LRU and BIP *)

Inductive LRURP := LRURP_new.
Record LRUReplData := { lastTouchTick : Z }.

Definition LRURP_invalidate (d : LRUReplData) : LRUReplData := {| lastTouchTick := 0 |}.
Definition LRURP_touch (now : Z) (d : LRUReplData) : LRUReplData := {| lastTouchTick := now |}.
Definition LRURP_reset (now : Z) (d : LRUReplData) : LRUReplData := {| lastTouchTick := now |}.
Definition LRU_better (c v : LRUReplData) : bool := lastTouchTick c <? lastTouchTick v.
Definition LRURP_getVictim (candidates : list LRUReplData) : res (nat * list LRUReplData) :=
  pick_victim LRU_better candidates.
Definition LRURP_instantiateEntry : LRUReplData := {| lastTouchTick := 0 |}.

#[export] Instance LRURP_policy : ReplacementPolicy LRURP LRUReplData := {
  rp_invalidate _ := LRURP_invalidate;
  rp_touch _ := LRURP_touch;
  rp_reset _ now _ := LRURP_reset now;
  rp_getVictim _ _ _ := LRURP_getVictim;
  rp_instantiateEntry _ := LRURP_instantiateEntry }.

(** [BIPRP] is an [LRURP] that overrides [reset]. *)
Record BIPRP := { bip_btp : Z }.
Definition BIPRP_reset (p : BIPRP) (now : Z) (random : Z -> Z -> Z) (d : LRUReplData) : LRUReplData :=
  if random 1 100 <=? bip_btp p then {| lastTouchTick := now |} else {| lastTouchTick := 1 |}.

#[export] Instance BIPRP_policy : ReplacementPolicy BIPRP LRUReplData := {
  rp_invalidate _ := LRURP_invalidate;
  rp_touch _ := LRURP_touch;
  rp_reset := BIPRP_reset;
  rp_getVictim _ _ _ := LRURP_getVictim;
  rp_instantiateEntry _ := LRURP_instantiateEntry }.

(** ** MRU *)

Inductive MRURP := MRURP_new.
Record MRUReplData := { mru_lastTouchTick : Z }.

Definition MRURP_invalidate (d : MRUReplData) : MRUReplData := {| mru_lastTouchTick := 0 |}.
Definition MRURP_touch (now : Z) (d : MRUReplData) : MRUReplData := {| mru_lastTouchTick := now |}.
Definition MRURP_reset (now : Z) (d : MRUReplData) : MRUReplData := {| mru_lastTouchTick := now |}.
Definition MRU_better (c v : MRUReplData) : bool := mru_lastTouchTick v <? mru_lastTouchTick c.
Definition MRURP_getVictim (candidates : list MRUReplData) : res (nat * list MRUReplData) :=
  pick_victim MRU_better candidates.
Definition MRURP_instantiateEntry : MRUReplData := {| mru_lastTouchTick := 0 |}.

#[export] Instance MRURP_policy : ReplacementPolicy MRURP MRUReplData := {
  rp_invalidate _ := MRURP_invalidate;
  rp_touch _ := MRURP_touch;
  rp_reset _ now _ := MRURP_reset now;
  rp_getVictim _ _ _ := MRURP_getVictim;
  rp_instantiateEntry _ := MRURP_instantiateEntry }.

(** ** FIFO *)

Inductive FIFORP := FIFORP_new.
Record FIFOReplData := { fifo_tickInserted : Z }.

Definition FIFORP_invalidate (d : FIFOReplData) : FIFOReplData := {| fifo_tickInserted := 0 |}.
Definition FIFORP_touch (d : FIFOReplData) : FIFOReplData := d.
Definition FIFORP_reset (now : Z) (d : FIFOReplData) : FIFOReplData := {| fifo_tickInserted := now |}.
Definition FIFO_better (c v : FIFOReplData) : bool := fifo_tickInserted c <? fifo_tickInserted v.
Definition FIFORP_getVictim (candidates : list FIFOReplData) : res (nat * list FIFOReplData) :=
  pick_victim FIFO_better candidates.
Definition FIFORP_instantiateEntry : FIFOReplData := {| fifo_tickInserted := 0 |}.

#[export] Instance FIFORP_policy : ReplacementPolicy FIFORP FIFOReplData := {
  rp_invalidate _ := FIFORP_invalidate;
  rp_touch _ _ := FIFORP_touch;
  rp_reset _ now _ := FIFORP_reset now;
  rp_getVictim _ _ _ := FIFORP_getVictim;
  rp_instantiateEntry _ := FIFORP_instantiateEntry }.

(** ** Second chance: a [FIFORP] with a bit *)

Inductive SecondChanceRP := SecondChanceRP_new.
Record SecondChanceReplData := { sc_fifo : FIFOReplData; hasSecondChance : bool }.

Definition useSecondChance (now : Z) (d : SecondChanceReplData) : SecondChanceReplData :=
  {| sc_fifo := FIFORP_reset now (sc_fifo d); hasSecondChance := false |}.
Definition SecondChanceRP_invalidate (d : SecondChanceReplData) : SecondChanceReplData :=
  {| sc_fifo := FIFORP_invalidate (sc_fifo d); hasSecondChance := false |}.
Definition SecondChanceRP_touch (d : SecondChanceReplData) : SecondChanceReplData :=
  {| sc_fifo := FIFORP_touch (sc_fifo d); hasSecondChance := true |}.
Definition SecondChanceRP_reset (now : Z) (d : SecondChanceReplData) : SecondChanceReplData :=
  {| sc_fifo := FIFORP_reset now (sc_fifo d); hasSecondChance := true |}.

(** The first loop's test for an invalid entry. *)
Definition sc_invalid (d : SecondChanceReplData) : bool :=
  (fifo_tickInserted (sc_fifo d) =? 0) && negb (hasSecondChance d).

Fixpoint find_index {D} (f : D -> bool) (l : list D) : option nat :=
  match l with
  | [] => None
  | d :: l => if f d then Some 0%nat else S <$> find_index f l
  end.

(** The [while] loop, which takes the bit of one candidate in each round but the
    last. *)
Fixpoint search_victim (fuel : nat) (now : Z) (candidates : list SecondChanceReplData)
  : res (nat * list SecondChanceReplData) :=
  match fuel with
  | O => OutOfFuel
  | S fuel =>
    '(v, _) ← FIFORP_getVictim (sc_fifo <$> candidates);
    match candidates !! v with
    | None => Ub
    | Some d =>
      if hasSecondChance d then search_victim fuel now (<[v := useSecondChance now d]> candidates)
      else Ok (v, candidates)
    end
  end.

Definition SecondChanceRP_getVictim (now : Z) (candidates : list SecondChanceReplData)
  : res (nat * list SecondChanceReplData) :=
  assert! (0 <? length candidates)%nat ;;
  match find_index sc_invalid candidates with
  | Some i => Ok (i, candidates)
  | None => search_victim (S (length candidates)) now candidates
  end.
Definition SecondChanceRP_instantiateEntry : SecondChanceReplData :=
  {| sc_fifo := FIFORP_instantiateEntry; hasSecondChance := false |}.

#[export] Instance SecondChanceRP_policy : ReplacementPolicy SecondChanceRP SecondChanceReplData := {
  rp_invalidate _ := SecondChanceRP_invalidate;
  rp_touch _ _ := SecondChanceRP_touch;
  rp_reset _ now _ := SecondChanceRP_reset now;
  rp_getVictim _ now _ := SecondChanceRP_getVictim now;
  rp_instantiateEntry _ := SecondChanceRP_instantiateEntry }.

(** ** LFU *)

Inductive LFURP := LFURP_new.
Record LFUReplData := { lfu_refCount : Z }.

Definition LFURP_invalidate (d : LFUReplData) : LFUReplData := {| lfu_refCount := 0 |}.
Definition LFURP_touch (d : LFUReplData) : LFUReplData := {| lfu_refCount := u32 (lfu_refCount d + 1) |}.
Definition LFURP_reset (d : LFUReplData) : LFUReplData := {| lfu_refCount := 1 |}.
Definition LFU_better (c v : LFUReplData) : bool := lfu_refCount c <? lfu_refCount v.
Definition LFURP_getVictim (candidates : list LFUReplData) : res (nat * list LFUReplData) :=
  pick_victim LFU_better candidates.
Definition LFURP_instantiateEntry : LFUReplData := {| lfu_refCount := 0 |}.

#[export] Instance LFURP_policy : ReplacementPolicy LFURP LFUReplData := {
  rp_invalidate _ := LFURP_invalidate;
  rp_touch _ _ := LFURP_touch;
  rp_reset _ _ _ := LFURP_reset;
  rp_getVictim _ _ _ := LFURP_getVictim;
  rp_instantiateEntry _ := LFURP_instantiateEntry }.

(** ** BRRIP *)

Record BRRIPRP := { maxRRPV : Z; hitPriority : bool; btp : Z }.
Record BRRIPReplData := { rrpv : Z }.

Definition BRRIPRP_new (max : Z) (hit : bool) (b : Z) : res BRRIPRP :=
  assert! negb (max <=? 0) ;; Ok {| maxRRPV := max; hitPriority := hit; btp := b |}.

Definition BRRIPRP_invalidate (p : BRRIPRP) (d : BRRIPReplData) : BRRIPReplData := {| rrpv := maxRRPV p + 1 |}.
Definition BRRIPRP_touch (p : BRRIPRP) (d : BRRIPReplData) : BRRIPReplData :=
  if hitPriority p then {| rrpv := 0 |} else if 0 <? rrpv d then {| rrpv := rrpv d - 1 |} else d.
Definition BRRIPRP_reset (p : BRRIPRP) (random : Z -> Z -> Z) (d : BRRIPReplData) : BRRIPReplData :=
  if random 1 100 <=? btp p then {| rrpv := maxRRPV p - 1 |} else {| rrpv := maxRRPV p |}.

(** The loop over the candidates; [inl]: it returned an invalid entry. *)
Fixpoint brrip_scan (p : BRRIPRP) (v : nat * Z) (i : nat) (candidates : list BRRIPReplData) : nat + nat * Z :=
  match candidates with
  | [] => inr v
  | c :: rest =>
    if rrpv c =? maxRRPV p + 1 then inl i
    else brrip_scan p (if v.2 <? rrpv c then (i, rrpv c) else v) (S i) rest
  end.

Definition BRRIPRP_getVictim (p : BRRIPRP) (candidates : list BRRIPReplData)
  : res (nat * list BRRIPReplData) :=
  match candidates with
  | [] => Panic
  | c :: _ =>
    match brrip_scan p (0%nat, rrpv c) 0 candidates with
    | inl i => Ok (i, candidates)
    | inr (victim, victim_RRPV) =>
      let diff := maxRRPV p - victim_RRPV in
      Ok (victim, if 0 <? diff then (fun d => {| rrpv := rrpv d + diff |}) <$> candidates else candidates)
    end
  end.
Definition BRRIPRP_instantiateEntry (p : BRRIPRP) : BRRIPReplData := {| rrpv := maxRRPV p + 1 |}.

#[export] Instance BRRIPRP_policy : ReplacementPolicy BRRIPRP BRRIPReplData := {
  rp_invalidate := BRRIPRP_invalidate;
  rp_touch p _ := BRRIPRP_touch p;
  rp_reset p _ := BRRIPRP_reset p;
  rp_getVictim p _ _ := BRRIPRP_getVictim p;
  rp_instantiateEntry := BRRIPRP_instantiateEntry }.

(** ** Random *)

Inductive RandomRP := RandomRP_new.
Record RandomReplData := { rr_valid : bool }.

Definition RandomRP_invalidate (d : RandomReplData) : RandomReplData := {| rr_valid := false |}.
Definition RandomRP_touch (d : RandomReplData) : RandomReplData := d.
Definition RandomRP_reset (d : RandomReplData) : RandomReplData := {| rr_valid := true |}.
Definition RandomRP_getVictim (random : Z -> Z -> Z) (candidates : list RandomReplData)
  : res (nat * list RandomReplData) :=
  assert! (0 <? length candidates)%nat ;;
  let v := random 0 (Z.of_nat (length candidates) - 1) in
  _ ← aread candidates v;
  Ok (match find_index (fun d => negb (rr_valid d)) candidates with
      | Some i => i
      | None => Z.to_nat v
      end, candidates).
Definition RandomRP_instantiateEntry : RandomReplData := {| rr_valid := false |}.

#[export] Instance RandomRP_policy : ReplacementPolicy RandomRP RandomReplData := {
  rp_invalidate _ := RandomRP_invalidate;
  rp_touch _ _ := RandomRP_touch;
  rp_reset _ _ _ := RandomRP_reset;
  rp_getVictim _ _ := RandomRP_getVictim;
  rp_instantiateEntry _ := RandomRP_instantiateEntry }.

(** * What a policy promises

    An entry is invalid after [invalidate] and [instantiateEntry], and valid
    after [reset]; a valid entry stays valid when touched, for [LFU] as long as
    its reference count does not wrap ([rp_room]).  Among valid and invalid
    candidates [getVictim] returns one of them and prefers an invalid one:
    [invalidate] makes its entry "the next probable victim". *)
Class ReplacementPolicyLaws (P D : Type) `{!ReplacementPolicy P D} := {
  rp_ok : P -> Prop;
  rp_valid : P -> D -> Prop;
  rp_invalid : P -> D -> Prop;
  rp_room : P -> D -> Prop;
  law_exclusive : forall p d, rp_valid p d -> rp_invalid p d -> False;
  law_invalidate : forall p d, rp_ok p -> rp_invalid p (rp_invalidate p d);
  law_instantiate : forall p, rp_ok p -> rp_invalid p (rp_instantiateEntry p);
  law_reset : forall p now random d, rp_ok p -> 0 < now -> rp_valid p (rp_reset p now random d);
  law_touch : forall p now d, rp_ok p -> 0 < now -> rp_valid p d -> rp_room p d -> rp_valid p (rp_touch p now d);
  law_victim : forall p now random ds, rp_ok p -> 0 < now -> ds <> [] ->
    (forall lo hi, lo <= hi -> lo <= random lo hi <= hi) ->
    Forall (fun d => rp_valid p d \/ rp_invalid p d) ds ->
    exists v ds', rp_getVictim p now random ds = Ok (v, ds') /\ (v < length ds)%nat /\
      length ds' = length ds /\
      (forall i d d', ds !! i = Some d -> ds' !! i = Some d' ->
         (rp_valid p d -> rp_valid p d') /\ (rp_invalid p d -> rp_invalid p d')) /\
      (Exists (rp_invalid p) ds -> exists d, ds !! v = Some d /\ rp_invalid p d);
}.

(** ** The shared loops *)

(** For a measure, [pick] returns the first of the least candidates. *)
Lemma pick_spec {D} (f : D -> Z) better v i ds :
  (forall a b, better a b = (f a <? f b)) ->
  exists m d, pick better v i ds = (m, d) /\
    ((m, d) = v /\ Forall (fun c => f v.2 <= f c) ds \/
     exists k, m = (i + k)%nat /\ ds !! k = Some d /\ f d < f v.2 /\
       (forall j c, ds !! j = Some c -> f d <= f c /\ ((j < k)%nat -> f d < f c))).
Proof.
  intros Hb. revert v i. induction ds as [|c ds IH]; intros v i; cbn [pick].
  { exists v.1, v.2. destruct v. split; [done|]. left. by split. }
  rewrite Hb. destruct (Z.ltb_spec (f c) (f v.2)) as [Hlt|Hge].
  - destruct (IH (i, c) (S i)) as (m & d & -> & Hm). exists m, d. split; [done|]. right.
    destruct Hm as [[[= -> ->] Hall]|(k & -> & Hk & Hlt' & Hmin)]; cbn [fst snd] in *.
    + exists 0%nat. split; [lia|]. do 2 (split; [done|]). rewrite Forall_forall in Hall.
      intros [|j] c' Hj; cbn in Hj; [injection Hj as <-; lia|].
      split; [|lia]. apply Hall. by apply list_elem_of_lookup_2 in Hj.
    + exists (S k). split; [lia|]. split; [done|]. split; [lia|].
      intros [|j] c' Hj; cbn in Hj; [injection Hj as <-; split; lia|].
      destruct (Hmin j c' Hj). split; [done|]. intros. apply H0. lia.
  - destruct (IH v (S i)) as (m & d & -> & Hm). exists m, d. split; [done|].
    destruct Hm as [[E Hall]|(k & -> & Hk & Hlt' & Hmin)].
    + left. split; [done|]. by constructor.
    + right. exists (S k). split; [lia|]. split; [done|]. split; [done|].
      intros [|j] c' Hj; cbn in Hj; [injection Hj as <-; split; lia|].
      destruct (Hmin j c' Hj). split; [done|]. intros. apply H0. lia.
Qed.

(** The first of the least candidates. *)
Definition first_least {D} (f : D -> Z) (ds : list D) (v : nat) : Prop :=
  exists d, ds !! v = Some d /\
    forall j c, ds !! j = Some c -> f d <= f c /\ ((j < v)%nat -> f d < f c).

Lemma pick_victim_spec {D} (f : D -> Z) better ds :
  (forall a b, better a b = (f a <? f b)) -> ds <> [] ->
  exists v, pick_victim better ds = Ok (v, ds) /\ first_least f ds v.
Proof.
  intros Hb Hne. destruct ds as [|c ds]; [done|]. unfold pick_victim.
  destruct (pick_spec f better (0%nat, c) 0 (c :: ds) Hb) as (m & d & -> & Hm). exists m. split; [done|].
  destruct Hm as [[[= -> ->] Hall]|(k & -> & Hk & _ & Hmin)].
  - exists c. split; [done|]. intros j c' Hj. rewrite Forall_forall in Hall. split; [|lia].
    apply Hall. by apply list_elem_of_lookup_2 in Hj.
  - exists d. by split.
Qed.

(** It is determined by the measure. *)
Lemma first_least_unique {D} (f : D -> Z) ds v w : first_least f ds v -> first_least f ds w -> v = w.
Proof.
  intros (d & Hd & Hv) (e & He & Hw). destruct (Nat.lt_trichotomy v w) as [H|[H|H]]; [|done|].
  - pose proof (Hw v d Hd) as [_ H1]. pose proof (Hv w e He) as [H2 _]. specialize (H1 H). lia.
  - pose proof (Hv w e He) as [_ H1]. pose proof (Hw v d Hd) as [H2 _]. specialize (H1 H). lia.
Qed.

Lemma first_least_lt {D} (f : D -> Z) ds v : first_least f ds v -> (v < length ds)%nat.
Proof. intros (d & Hd & _). by apply lookup_lt_Some in Hd. Qed.

(** A policy whose victim has the least measure, where invalid entries have
    measure 0 and valid ones a positive measure. *)
Lemma first_least_invalid {D} (f : D -> Z) ds v :
  first_least f ds v -> Forall (fun d => 0 < f d \/ f d = 0) ds -> Exists (fun d => f d = 0) ds ->
  exists d, ds !! v = Some d /\ f d = 0.
Proof.
  intros (d & Hd & Hmin) Hf (e & He & Hz)%Exists_exists. exists d. split; [done|].
  apply list_elem_of_lookup in He as [j Hj]. destruct (Hmin j e Hj) as [H _].
  rewrite Forall_forall in Hf. destruct (Hf d); [by eapply list_elem_of_lookup_2|lia|done].
Qed.

Lemma least_victim {D} (f : D -> Z) better ds :
  (forall a b, better a b = (f a <? f b)) -> ds <> [] -> Forall (fun d => 0 < f d \/ f d = 0) ds ->
  exists v ds', pick_victim better ds = Ok (v, ds') /\ (v < length ds)%nat /\ length ds' = length ds /\
    (forall i d d', ds !! i = Some d -> ds' !! i = Some d' -> (0 < f d -> 0 < f d') /\ (f d = 0 -> f d' = 0)) /\
    (Exists (fun d => f d = 0) ds -> exists d, ds !! v = Some d /\ f d = 0).
Proof.
  intros Hb Hne Hf. destruct (pick_victim_spec f better ds Hb Hne) as (v & -> & Hv). exists v, ds.
  split; [done|]. split; [by eapply first_least_lt|]. split; [done|].
  split; [by intros i d d' -> [= ->]|].
  intros He. by eapply first_least_invalid.
Qed.

Lemma find_index_spec {D} (f : D -> bool) l :
  match find_index f l with
  | Some i => exists d, l !! i = Some d /\ f d = true /\ forall j c, (j < i)%nat -> l !! j = Some c -> f c = false
  | None => Forall (fun d => f d = false) l
  end.
Proof.
  induction l as [|d l IH]; cbn; [constructor|]. destruct (f d) eqn:E.
  - exists d. split_and!; try done. intros; lia.
  - destruct (find_index f l) as [i|]; cbn; [|by constructor].
    destruct IH as (d' & Hi & Hd & Hj). exists d'. split_and!; try done.
    intros [|j] c Hlt Hc; cbn in Hc; [congruence|]. apply (Hj j); [lia|done].
Qed.

(** ** The policies that keep the promise *)

#[export] Program Instance LRURP_laws : ReplacementPolicyLaws LRURP LRUReplData := {
  rp_ok _ := True;
  rp_valid _ d := 0 < lastTouchTick d;
  rp_invalid _ d := lastTouchTick d = 0;
  rp_room _ _ := True }.
Next Obligation. cbn. intros; first [lia|congruence]. Qed.
Next Obligation. done. Qed.
Next Obligation. done. Qed.
Next Obligation. done. Qed.
Next Obligation. done. Qed.
Next Obligation. intros p now random ds _ _ Hne _ Hf. by apply least_victim. Qed.

#[export] Program Instance BIPRP_laws : ReplacementPolicyLaws BIPRP LRUReplData := {
  rp_ok _ := True;
  rp_valid _ d := 0 < lastTouchTick d;
  rp_invalid _ d := lastTouchTick d = 0;
  rp_room _ _ := True }.
Next Obligation. cbn. intros; first [lia|congruence]. Qed.
Next Obligation. done. Qed.
Next Obligation. done. Qed.
Next Obligation. intros p now random d _ Hn. cbn. unfold BIPRP_reset. by case_match. Qed.
Next Obligation. done. Qed.
Next Obligation. intros p now random ds _ _ Hne _ Hf. by apply least_victim. Qed.

#[export] Program Instance FIFORP_laws : ReplacementPolicyLaws FIFORP FIFOReplData := {
  rp_ok _ := True;
  rp_valid _ d := 0 < fifo_tickInserted d;
  rp_invalid _ d := fifo_tickInserted d = 0;
  rp_room _ _ := True }.
Next Obligation. cbn. intros; first [lia|congruence]. Qed.
Next Obligation. done. Qed.
Next Obligation. done. Qed.
Next Obligation. done. Qed.
Next Obligation. done. Qed.
Next Obligation. intros p now random ds _ _ Hne _ Hf. by apply least_victim. Qed.

#[export] Program Instance LFURP_laws : ReplacementPolicyLaws LFURP LFUReplData := {
  rp_ok _ := True;
  rp_valid _ d := 0 < lfu_refCount d;
  rp_invalid _ d := lfu_refCount d = 0;
  rp_room _ d := lfu_refCount d + 1 < 2 ^ 32 }.
Next Obligation. cbn. intros; first [lia|congruence]. Qed.
Next Obligation. done. Qed.
Next Obligation. done. Qed.
Next Obligation. done. Qed.
Next Obligation. intros p now d _ _ Hv Hr. cbn in *. rewrite wrap_u_id; lia. Qed.
Next Obligation. intros p now random ds _ _ Hne _ Hf. by apply least_victim. Qed.

#[export] Program Instance RandomRP_laws : ReplacementPolicyLaws RandomRP RandomReplData := {
  rp_ok _ := True;
  rp_valid _ d := rr_valid d = true;
  rp_invalid _ d := rr_valid d = false;
  rp_room _ _ := True }.
Next Obligation. cbn. intros; first [lia|congruence]. Qed.
Next Obligation. done. Qed.
Next Obligation. done. Qed.
Next Obligation. done. Qed.
Next Obligation. done. Qed.
Next Obligation.
  intros p now random ds _ _ Hne Hr _. cbn. unfold RandomRP_getVictim.
  assert (0 < length ds)%nat by (destruct ds; [done|cbn; lia]).
  rewrite (proj2 (Nat.ltb_lt _ _)) by done. specialize (Hr 0 (Z.of_nat (length ds) - 1) ltac:(lia)).
  destruct (aread_in_bounds ds (random 0 (Z.of_nat (length ds) - 1))) as (d & _ & ->); [lia|].
  cbn [mbind res_bind]. eexists _, ds. split; [done|].
  pose proof (find_index_spec (fun d => negb (rr_valid d)) ds) as Hi.
  destruct (find_index _ ds) as [i|].
  - destruct Hi as (d' & Hd' & Hv & _). apply negb_true_iff in Hv. split_and!; [by eapply lookup_lt_Some|done| |by exists d'].
    by intros j a a' -> [= ->].
  - split_and!; [lia|done|by intros j a a' -> [= ->]|]. intros (e & He & Hv)%Exists_exists.
    rewrite Forall_forall in Hi. specialize (Hi e He). cbn in Hi. by rewrite Hv in Hi.
Qed.

(** *** BRRIP *)

Lemma brrip_scan_spec p v i ds :
  match brrip_scan p v i ds with
  | inl m => exists k d, m = (i + k)%nat /\ ds !! k = Some d /\ rrpv d = maxRRPV p + 1
  | inr (m, r) => Forall (fun d => rrpv d <> maxRRPV p + 1) ds /\
      ((m, r) = v /\ Forall (fun d => rrpv d <= v.2) ds \/
       exists k d, m = (i + k)%nat /\ ds !! k = Some d /\ rrpv d = r /\ v.2 < r /\
         forall j c, ds !! j = Some c -> rrpv c <= r /\ ((j < k)%nat -> rrpv c < r))
  end.
Proof.
  revert v i. induction ds as [|c ds IH]; intros v i; cbn [brrip_scan].
  { destruct v. split; [constructor|]. left. by split. }
  destruct (Z.eqb_spec (rrpv c) (maxRRPV p + 1)) as [E|E]; [exists 0%nat, c; split_and!; [lia|done|done]|].
  specialize (IH (if v.2 <? rrpv c then (i, rrpv c) else v) (S i)). destruct (brrip_scan _ _ _ _) as [m|[m r]].
  { destruct IH as (k & d & -> & Hk & Hd). exists (S k), d. split_and!; [lia|done|done]. }
  destruct IH as [Hn Hm]. split; [by constructor|]. destruct (Z.ltb_spec v.2 (rrpv c)) as [Hlt|Hge].
  - right. destruct Hm as [[[= -> ->] Hall]|(k & d & -> & Hk & Hd & Hlt' & Hmax)]; cbn [snd] in *.
    + exists 0%nat, c. split_and!; try (done || lia). rewrite Forall_forall in Hall.
      intros [|j] c' Hj; cbn in Hj; [injection Hj as <-; lia|]. split; [|lia].
      apply Hall. by apply list_elem_of_lookup_2 in Hj.
    + exists (S k), d. split_and!; try (done || lia).
      intros [|j] c' Hj; cbn in Hj; [injection Hj as <-; lia|].
      destruct (Hmax j c' Hj) as [H1 H2]. split; [done|]. intros. apply H2. lia.
  - destruct Hm as [[E' Hall]|(k & d & -> & Hk & Hd & Hlt' & Hmax)].
    + left. split; [done|]. by constructor.
    + right. exists (S k), d. split_and!; try (done || lia).
      intros [|j] c' Hj; cbn in Hj; [injection Hj as <-; lia|].
      destruct (Hmax j c' Hj) as [H1 H2]. split; [done|]. intros. apply H2. lia.
Qed.

Lemma brrip_getVictim_eq p ds c0 :
  ds !! 0%nat = Some c0 ->
  BRRIPRP_getVictim p ds =
    match brrip_scan p (0%nat, rrpv c0) 0 ds with
    | inl i => Ok (i, ds)
    | inr (victim, victim_RRPV) =>
      let diff := maxRRPV p - victim_RRPV in
      Ok (victim, if 0 <? diff then (fun d => {| rrpv := rrpv d + diff |}) <$> ds else ds)
    end.
Proof. destruct ds; [done|]. by intros [= ->]. Qed.

Lemma nonempty_head {A} (l : list A) : l <> [] -> exists a, l !! 0%nat = Some a.
Proof. destruct l as [|a l]; [done|]. by exists a. Qed.

(** Without an invalid candidate, the victim is the first with the greatest
    value, and all values rise by what it lacks to the maximum. *)
Lemma brrip_victim_valid p ds :
  ds <> [] -> Forall (fun d => 0 <= rrpv d <= maxRRPV p) ds ->
  exists v d, BRRIPRP_getVictim p ds = Ok (v, (fun c => {| rrpv := rrpv c + (maxRRPV p - rrpv d) |}) <$> ds) /\
    ds !! v = Some d /\ (forall j c, ds !! j = Some c -> rrpv c <= rrpv d /\ ((j < v)%nat -> rrpv c < rrpv d)).
Proof.
  intros Hne Hf. destruct (nonempty_head ds Hne) as [c0 Hc0]. rewrite (brrip_getVictim_eq p ds c0 Hc0).
  pose proof (brrip_scan_spec p (0%nat, rrpv c0) 0 ds) as Hs. rewrite Forall_forall in Hf.
  destruct (brrip_scan p (0%nat, rrpv c0) 0 ds) as [m|[m r]].
  { destruct Hs as (k & d & _ & Hk & Hd). apply list_elem_of_lookup_2, Hf in Hk. lia. }
  assert (exists d, ds !! m = Some d /\ rrpv d = r /\
            forall j c, ds !! j = Some c -> rrpv c <= r /\ ((j < m)%nat -> rrpv c < r)) as (d & Hd & Er & Hmax).
  { destruct Hs as [_ [[[= -> ->] Hall]|(k & d & -> & Hk & Hd & _ & Hmax)]].
    - exists c0. split_and!; try done. intros j c Hj. split; [|lia].
      rewrite Forall_forall in Hall. apply Hall. by apply list_elem_of_lookup_2 in Hj.
    - exists d. by split_and!. }
  exists m, d. split; [|by rewrite Er]. rewrite Er. f_equal. f_equal.
  destruct (Z.ltb_spec 0 (maxRRPV p - r)) as [|Hge]; [done|].
  rewrite <- (list_fmap_id ds) at 1. apply list_fmap_ext. intros i [x] Hx. cbn.
  pose proof (Hf d ltac:(by eapply list_elem_of_lookup_2)). f_equal. lia.
Qed.

Lemma brrip_victim_invalid p ds :
  Exists (fun d => rrpv d = maxRRPV p + 1) ds ->
  exists v d, BRRIPRP_getVictim p ds = Ok (v, ds) /\ ds !! v = Some d /\ rrpv d = maxRRPV p + 1.
Proof.
  intros (e & He & Hv)%Exists_exists.
  destruct (nonempty_head ds) as [c0 Hc0]; [by intros ->; apply not_elem_of_nil in He|].
  rewrite (brrip_getVictim_eq p ds c0 Hc0).
  pose proof (brrip_scan_spec p (0%nat, rrpv c0) 0 ds) as Hs.
  destruct (brrip_scan p (0%nat, rrpv c0) 0 ds) as [m|[m r]].
  - destruct Hs as (k & d & -> & Hk & Hd). by exists k, d.
  - destruct Hs as [Hn _]. rewrite Forall_forall in Hn. by destruct (Hn e He).
Qed.

#[export] Program Instance BRRIPRP_laws : ReplacementPolicyLaws BRRIPRP BRRIPReplData := {
  rp_ok p := 0 < maxRRPV p;
  rp_valid p d := 0 <= rrpv d <= maxRRPV p;
  rp_invalid p d := rrpv d = maxRRPV p + 1;
  rp_room _ _ := True }.
Next Obligation. cbn. intros; first [lia|congruence]. Qed.
Next Obligation. done. Qed.
Next Obligation. done. Qed.
Next Obligation. intros p now random d Hp _. cbn. unfold BRRIPRP_reset. destruct (_ <=? _); cbn in *; lia. Qed.
Next Obligation.
  intros p now d Hp _ Hv _. cbn in *. unfold BRRIPRP_touch. destruct (hitPriority p); [cbn; lia|].
  destruct (Z.ltb_spec 0 (rrpv d)); cbn; lia.
Qed.
Next Obligation.
  intros p now random ds Hp _ Hne _ Hf. cbn in *.
  destruct (decide (Exists (fun d => rrpv d = maxRRPV p + 1) ds)) as [He|Hn].
  - destruct (brrip_victim_invalid p ds He) as (v & d & -> & Hd & Hv). exists v, ds.
    split_and!; [done|by eapply lookup_lt_Some|done|by intros i a a' -> [= ->]|by exists d].
  - assert (Forall (fun d => 0 <= rrpv d <= maxRRPV p) ds) as Hf'.
    { rewrite Forall_forall in Hf |- *. intros d Hd. destruct (Hf d Hd) as [|Hi]; [done|].
      exfalso. apply Hn, Exists_exists. by exists d. }
    destruct (brrip_victim_valid p ds Hne Hf') as (v & d & -> & Hd & Hmax). eexists v, _.
    split_and!; [done|by eapply lookup_lt_Some|by rewrite length_fmap| |done].
    intros i a a' Ha Ha'. rewrite list_lookup_fmap, Ha in Ha'. injection Ha' as <-. cbn.
    destruct (Hmax i a Ha) as [Hle _]. rewrite Forall_forall in Hf'.
    pose proof (Hf' a ltac:(by eapply list_elem_of_lookup_2)). pose proof (Hf' d ltac:(by eapply list_elem_of_lookup_2)).
    split; lia.
Qed.

(** *** Second chance *)

Definition sc_tick (d : SecondChanceReplData) : Z := fifo_tickInserted (sc_fifo d).
Definition chances (ds : list SecondChanceReplData) : nat := length (filter (fun d => hasSecondChance d = true) ds).

Lemma chances_le ds : (chances ds <= length ds)%nat.
Proof. apply length_filter. Qed.

Lemma chances_insert ds v d d' :
  ds !! v = Some d -> hasSecondChance d = true -> hasSecondChance d' = false ->
  chances ds = S (chances (<[v := d']> ds)).
Proof.
  intros Hv Hd Hd'. unfold chances. revert v Hv. induction ds as [|e ds IH]; intros [|v] Hv; try done.
  - injection Hv as ->. cbn [insert list_insert]. rewrite filter_cons_True, filter_cons_False by congruence. done.
  - cbn [insert list_insert]. rewrite !filter_cons. specialize (IH v Hv).
    destruct (decide (hasSecondChance e = true)); cbn [length]; unfold insert in *; lia.
Qed.

(** The rounds of the search, by an invariant. *)
Lemma search_victim_ind (I : list SecondChanceReplData -> Prop) fuel now ds :
  (chances ds < fuel)%nat -> ds <> [] -> I ds ->
  (forall ds v d, I ds -> first_least sc_tick ds v -> ds !! v = Some d -> hasSecondChance d = true ->
     I (<[v := useSecondChance now d]> ds)) ->
  exists v ds' d, search_victim fuel now ds = Ok (v, ds') /\ I ds' /\ length ds' = length ds /\
    first_least sc_tick ds' v /\ ds' !! v = Some d /\ hasSecondChance d = false.
Proof.
  intros Hf Hne HI Hstep. revert ds Hf Hne HI. induction fuel as [|fuel IH]; intros ds Hf Hne HI; [lia|].
  cbn [search_victim]. unfold FIFORP_getVictim.
  destruct (pick_victim_spec fifo_tickInserted FIFO_better (sc_fifo <$> ds)) as (v & -> & Hv);
    [done|by destruct ds|]. cbn [mbind res_bind].
  assert (first_least sc_tick ds v) as Hv'.
  { destruct Hv as (d & Hd & Hmin). rewrite list_lookup_fmap in Hd.
    destruct (ds !! v) as [e|] eqn:Ee; [|done]. injection Hd as <-. exists e. split; [done|].
    intros j c Hj. apply (Hmin j (sc_fifo c)). by rewrite list_lookup_fmap, Hj. }
  destruct (lookup_lt_is_Some_2 ds v) as [d Hd]; [by eapply first_least_lt|]. rewrite Hd.
  destruct (hasSecondChance d) eqn:E; [|by exists v, ds, d].
  destruct (IH (<[v:=useSecondChance now d]> ds)) as (w & ds' & d' & -> & HI' & Hl & Hr).
  - rewrite (chances_insert ds v d (useSecondChance now d)) in Hf by done. lia.
  - intros H%(f_equal length). rewrite length_insert in H. by destruct ds.
  - by apply Hstep.
  - exists w, ds', d'. split; [done|]. split; [done|]. split; [by rewrite Hl, length_insert|done].
Qed.

#[export] Program Instance SecondChanceRP_laws : ReplacementPolicyLaws SecondChanceRP SecondChanceReplData := {
  rp_ok _ := True;
  rp_valid _ d := 0 < sc_tick d;
  rp_invalid _ d := sc_invalid d = true;
  rp_room _ _ := True }.
Next Obligation. cbn. intros; unfold sc_invalid, sc_tick in *; first [lia|congruence]. Qed.
Next Obligation. done. Qed.
Next Obligation. done. Qed.
Next Obligation. done. Qed.
Next Obligation. done. Qed.
Next Obligation.
  intros p now random ds _ Hn Hne _ Hf. cbn in *. unfold SecondChanceRP_getVictim.
  assert (0 < length ds)%nat by (destruct ds; [done|cbn; lia]).
  rewrite (proj2 (Nat.ltb_lt _ _)) by done. pose proof (find_index_spec sc_invalid ds) as Hi.
  destruct (find_index sc_invalid ds) as [i|].
  - destruct Hi as (d & Hd & Hv & _). exists i, ds.
    split_and!; [done|by eapply lookup_lt_Some|done|by intros j a a' -> [= ->]|by exists d].
  - assert (Forall (fun d => 0 < sc_tick d) ds) as Hv.
    { rewrite Forall_forall in *. intros d Hd. destruct (Hf d Hd) as [|E]; [done|]. by rewrite Hi in E. }
    destruct (search_victim_ind (fun ds => Forall (fun d => 0 < sc_tick d) ds) (S (length ds)) now ds)
      as (v & ds' & d & -> & Hv' & Hl & Hmin & Hd & _); [pose proof (chances_le ds); lia|done|done| |].
    { intros ds1 v d H1 _ _ _. by apply Forall_insert. }
    exists v, ds'. rewrite Forall_forall in Hi, Hv'. split_and!; [done| |done| |].
    + rewrite <- Hl. by eapply first_least_lt.
    + intros i a a' Ha Ha'. apply list_elem_of_lookup_2 in Ha, Ha'. split; [intros _; by apply Hv'|].
      intros E. by rewrite Hi in E.
    + intros (e & He & E)%Exists_exists. by rewrite Hi in E.
Qed.

(** * Theorems *)

(** The access history of the ways of a set: [(w, t)] is a use (a [touch] or a
    [reset]) of way [w] at tick [t]. *)
Definition use_way (ds : list LRUReplData) (a : nat * Z) : list LRUReplData := alter (LRURP_touch a.2) a.1 ds.
Definition use_ways (ds : list LRUReplData) (l : list (nat * Z)) : list LRUReplData := foldl use_way ds l.

(** The last use of way [w], 0 for none. *)
Definition last_use (l : list (nat * Z)) (w : nat) : Z := foldl (fun t a => if bool_decide (a.1 = w) then a.2 else t) 0 l.

Lemma use_ways_lookup ds l w d :
  ds !! w = Some d ->
  use_ways ds l !! w = Some {| lastTouchTick := foldl (fun t a => if bool_decide (a.1 = w) then a.2 else t) (lastTouchTick d) l |}.
Proof.
  revert ds d. induction l as [|[v t] l IH]; intros ds d Hd; cbn; [by destruct d|].
  destruct (decide (v = w)) as [->|Hne].
  - rewrite bool_decide_eq_true_2 by done. rewrite (IH _ (LRURP_touch t d)); [done|].
    unfold use_way. cbn. by rewrite list_lookup_alter_eq, Hd.
  - rewrite bool_decide_eq_false_2 by done. apply IH. unfold use_way. cbn. by rewrite list_lookup_alter_ne.
Qed.

(** (LRU evicts the least recently used way).  After any sequence of uses
    of the ways of a fresh set, each a hit or an insertion at its tick, the victim
    is the way whose last use is earliest; a way never used counts as used
    at tick 0 and the lower way wins a tie.  Choosing it changes nothing. *)
Theorem lru_least_recent n l :
  (0 < n)%nat ->
  let ds := use_ways (replicate n LRURP_instantiateEntry) l in
  exists v, LRURP_getVictim ds = Ok (v, ds) /\ (v < n)%nat /\
    forall w, (w < n)%nat -> last_use l v <= last_use l w /\ ((w < v)%nat -> last_use l v < last_use l w).
Proof.
  intros Hn ds.
  assert (forall w, (w < n)%nat -> ds !! w = Some {| lastTouchTick := last_use l w |}) as Hl.
  { intros w Hw. apply (use_ways_lookup _ _ _ LRURP_instantiateEntry). by apply lookup_replicate_2. }
  assert (length ds = n) as Hlen.
  { unfold ds, use_ways. clear. induction l as [|a l IH] using rev_ind; cbn; [by rewrite length_replicate|].
    rewrite foldl_app. cbn. unfold use_way at 1. by rewrite length_alter. }
  destruct (pick_victim_spec lastTouchTick LRU_better ds) as (v & Hp & d & Hd & Hmin);
    [done|by intros E; rewrite E in Hlen; cbn in Hlen; lia|].
  assert (v < n)%nat as Hv by (rewrite <- Hlen; by eapply lookup_lt_Some).
  exists v. split; [done|]. split; [done|]. intros w Hw. rewrite Hl in Hd by done. injection Hd as <-.
  apply (Hmin w _ (Hl w Hw)).
Qed.

Example lru_least_recent_witness :
  exists v, LRURP_getVictim (use_ways (replicate 2 LRURP_instantiateEntry) [(0%nat, 5); (1%nat, 7); (0%nat, 9)]) =
    Ok (v, use_ways (replicate 2 LRURP_instantiateEntry) [(0%nat, 5); (1%nat, 7); (0%nat, 9)]) /\ (v < 2)%nat.
Proof.
  destruct (lru_least_recent 2 [(0%nat, 5); (1%nat, 7); (0%nat, 9)]) as (v & H1 & H2 & _); [lia|].
  exists v. split; [exact H1|exact H2].
Defined.

(** (MRU evicts an invalid entry last).  The interface documents
    [invalidate] as making its entry the next probable victim, but [MRURP]
    marks an invalid entry with tick 0 and evicts the greatest tick: as long as a
    candidate is valid, the victim is the most recently touched candidate, never an
    invalid one. *)
Theorem mru_invalid_last ds :
  Forall (fun d => 0 <= mru_lastTouchTick d) ds -> Exists (fun d => 0 < mru_lastTouchTick d) ds ->
  exists v d, MRURP_getVictim ds = Ok (v, ds) /\ ds !! v = Some d /\ 0 < mru_lastTouchTick d /\
    Forall (fun c => mru_lastTouchTick c <= mru_lastTouchTick d) ds.
Proof.
  intros Hf (e & He & Hpos)%Exists_exists.
  destruct (pick_victim_spec (fun d => - mru_lastTouchTick d) MRU_better ds) as (v & Hp & d & Hd & Hmin).
  { intros a b. unfold MRU_better. lia. }
  { intros ->. by apply not_elem_of_nil in He. }
  assert (Forall (fun c => mru_lastTouchTick c <= mru_lastTouchTick d) ds) as Hmax.
  { apply Forall_lookup. intros j c Hj. destruct (Hmin j c Hj). lia. }
  exists v, d. split_and!; try done. rewrite Forall_forall in Hmax. specialize (Hmax e He). lia.
Qed.

Example mru_invalid_last_witness :
  exists v d, MRURP_getVictim [MRURP_invalidate {| mru_lastTouchTick := 9 |}; {| mru_lastTouchTick := 4 |}] = Ok (v, [MRURP_invalidate {| mru_lastTouchTick := 9 |}; {| mru_lastTouchTick := 4 |}]) /\
    0 < mru_lastTouchTick d.
Proof.
  destruct (mru_invalid_last [MRURP_invalidate {| mru_lastTouchTick := 9 |}; {| mru_lastTouchTick := 4 |}])
    as (v & d & H1 & _ & H2 & _).
  - repeat constructor; cbn; lia.
  - apply Exists_cons. right. apply Exists_cons. left. cbn. lia.
  - exists v, d. split; [exact H1|exact H2].
Defined.

(** The candidates a second-chance search leaves: each as it was or with its
    bit used. *)
Definition used_up (now : Z) (ds ds1 : list SecondChanceReplData) : Prop :=
  Forall2 (fun c c1 => c1 = c \/ (hasSecondChance c = true /\ c1 = useSecondChance now c)) ds ds1.

Lemma used_up_step now ds ds1 v d :
  used_up now ds ds1 -> ds1 !! v = Some d -> hasSecondChance d = true ->
  used_up now ds (<[v := useSecondChance now d]> ds1).
Proof.
  intros Hu Hv Hd. apply Forall2_same_length_lookup_2; [rewrite length_insert; by eapply Forall2_length|].
  intros j c c1 Hc Hc1. destruct (decide (j = v)) as [->|Hne].
  - rewrite list_lookup_insert_eq in Hc1 by (by eapply lookup_lt_Some). injection Hc1 as <-.
    destruct (Forall2_lookup_lr _ _ _ _ _ _ Hu Hc Hv) as [->|[_ ->]]; [by right|done].
  - rewrite list_lookup_insert_ne in Hc1 by done. exact (Forall2_lookup_lr _ _ _ _ _ _ Hu Hc Hc1).
Qed.

(** (second chance).  Among valid candidates inserted before the current
    tick the search terminates.  If some candidate has no second chance, the
    victim is the one inserted first among those, and the bits used up are those of
    candidates that stay.  If all have one, every candidate loses it and its
    place in the queue, and the victim is the first way, not the oldest entry. *)
Theorem second_chance_victim now ds :
  ds <> [] -> Forall (fun d => 0 < sc_tick d < now) ds ->
  exists v ds', SecondChanceRP_getVictim now ds = Ok (v, ds') /\ used_up now ds ds' /\
    if forallb hasSecondChance ds then v = 0%nat /\ ds' = useSecondChance now <$> ds
    else exists d, ds !! v = Some d /\ ds' !! v = Some d /\ hasSecondChance d = false /\
      forall j c, ds !! j = Some c -> hasSecondChance c = false ->
        sc_tick d <= sc_tick c /\ ((j < v)%nat -> sc_tick d < sc_tick c).
Proof.
  intros Hne Hf. unfold SecondChanceRP_getVictim.
  rewrite (proj2 (Nat.ltb_lt _ _)) by (destruct ds; [done|cbn; lia]).
  pose proof (find_index_spec sc_invalid ds) as Hi. destruct (find_index sc_invalid ds) as [i|].
  { destruct Hi as (d & Hd & E & _). apply list_elem_of_lookup_2 in Hd. rewrite Forall_forall in Hf.
    specialize (Hf d Hd). unfold sc_invalid, sc_tick in *. lia. }
  destruct (search_victim_ind (used_up now ds) (S (length ds)) now ds) as (v & ds' & d & -> & Hu & Hl & Hmin & Hd & Hc);
    [pose proof (chances_le ds); lia|done| | |].
  { apply Forall2_same_length_lookup_2; [done|]. intros j c c1 -> [= ->]. by left. }
  { intros ds1 w d Hu _ Hw Hd. by apply used_up_step. }
  exists v, ds'. split; [done|]. split; [done|]. destruct Hmin as (d2 & Hd2 & Hmin). rewrite Hd in Hd2. injection Hd2 as <-.
  rewrite Forall_lookup in Hf. destruct (lookup_lt_is_Some_2 ds v) as [c Hcv]; [rewrite <- Hl; by eapply lookup_lt_Some|].
  pose proof (Forall2_lookup_lr _ _ _ _ _ _ Hu Hcv Hd) as Hcd. destruct (forallb hasSecondChance ds) eqn:Eall.
  - rewrite forallb_forall in Eall.
    assert (forall j c, ds !! j = Some c -> ds' !! j = Some (useSecondChance now c)) as Hall.
    { intros j e He. destruct (lookup_lt_is_Some_2 ds' j) as [e' He']; [rewrite Hl; by eapply lookup_lt_Some|].
      destruct (Forall2_lookup_lr _ _ _ _ _ _ Hu He He') as [->|[_ ->]]; [|done]. exfalso.
      assert (sc_tick d = now) as Et.
      { destruct Hcd as [->|[_ ->]]; [|done]. rewrite Eall in Hc; [done|]. by apply list_elem_of_lookup_2, list_elem_of_In in Hcv. }
      destruct (Hmin j e He') as [Hle _]. specialize (Hf j e He). lia. }
    split.
    + destruct v as [|v]; [done|]. destruct (nonempty_head ds Hne) as [e He]. exfalso.
      destruct (Hmin 0%nat _ (Hall 0%nat e He)) as [_ Hlt]. specialize (Hlt ltac:(lia)).
      rewrite (Hall _ _ Hcv) in Hd. injection Hd as <-. cbn in Hlt. lia.
    + apply list_eq_same_length with (n := length ds); [by rewrite length_fmap|done|].
      intros j x y Hj Hx Hy. rewrite list_lookup_fmap in Hy. destruct (ds !! j) as [e|] eqn:Ee; [|done].
      rewrite (Hall j e Ee) in Hx. cbn in Hy. congruence.
  - assert (exists j e, ds !! j = Some e /\ hasSecondChance e = false) as (j & e & He & Hce).
    { apply not_true_iff_false in Eall. rewrite forallb_forall in Eall.
      destruct (decide (Forall (fun e => hasSecondChance e = true) ds)) as [Hall|Hn].
      - exfalso. apply Eall. intros x Hx. rewrite Forall_forall in Hall. by apply Hall, list_elem_of_In.
      - apply not_Forall_Exists in Hn; [|apply _]. apply Exists_exists in Hn as (e & He & Hn).
        apply list_elem_of_lookup in He as [j Hj]. exists j, e. split; [done|]. by apply not_true_is_false. }
    assert (forall j e, ds !! j = Some e -> hasSecondChance e = false -> ds' !! j = Some e) as Hsame.
    { intros j' e' He' Hf'. destruct (lookup_lt_is_Some_2 ds' j') as [x Hx]; [rewrite Hl; by eapply lookup_lt_Some|].
      destruct (Forall2_lookup_lr _ _ _ _ _ _ Hu He' Hx) as [->|[? _]]; [done|congruence]. }
    assert (d = c) as ->.
    { destruct Hcd as [->|[_ ->]]; [done|]. exfalso. destruct (Hmin j e (Hsame j e He Hce)) as [Hle _].
      specialize (Hf j e He). cbn in Hle. lia. }
    exists c. split_and!; try done. intros k x Hx Hcx. apply (Hmin k x (Hsame k x Hx Hcx)).
Qed.

Definition sc_entry (t : Z) (b : bool) : SecondChanceReplData := {| sc_fifo := {| fifo_tickInserted := t |}; hasSecondChance := b |}.
Example second_chance_victim_witness :
  exists v ds', SecondChanceRP_getVictim 9 [sc_entry 5 true; sc_entry 2 true; sc_entry 3 true] = Ok (v, ds') /\ v = 0%nat.
Proof.
  destruct (second_chance_victim 9 [sc_entry 5 true; sc_entry 2 true; sc_entry 3 true]) as (v & ds' & H1 & _ & H2 & _);
    [done|repeat constructor; cbn; lia|].
  exists v, ds'. split; [exact H1|exact H2].
Defined.

(** (BRRIP).  An invalid candidate is evicted first and nothing changes.
    Otherwise the victim is the first candidate with the greatest re-reference
    prediction value, all values rise by the same amount until the victim's is
    the maximum, and no value leaves the range of valid entries. *)
Theorem brrip_victim p ds :
  0 < maxRRPV p -> ds <> [] -> Forall (fun d => 0 <= rrpv d <= maxRRPV p + 1) ds ->
  exists v d ds', BRRIPRP_getVictim p ds = Ok (v, ds') /\ ds !! v = Some d /\
    if existsb (fun c => rrpv c =? maxRRPV p + 1) ds then rrpv d = maxRRPV p + 1 /\ ds' = ds
    else (forall j c, ds !! j = Some c -> rrpv c <= rrpv d /\ ((j < v)%nat -> rrpv c < rrpv d)) /\
      ds' = (fun c => {| rrpv := rrpv c + (maxRRPV p - rrpv d) |}) <$> ds /\
      Forall (fun c => 0 <= rrpv c <= maxRRPV p) ds'.
Proof.
  intros Hp Hne Hf. destruct (existsb _ ds) eqn:E.
  - apply existsb_exists in E as (x & Hx & E). apply list_elem_of_In in Hx.
    destruct (brrip_victim_invalid p ds) as (v & d & -> & Hd & Hv); [apply Exists_exists; exists x; split; [done|lia]|].
    by exists v, d, ds.
  - assert (Forall (fun d => 0 <= rrpv d <= maxRRPV p) ds) as Hf'.
    { rewrite Forall_forall in *. intros d Hd. pose proof (Hf d Hd).
      assert (rrpv d <> maxRRPV p + 1); [|lia]. intros Ed. apply not_true_iff_false in E. apply E.
      apply existsb_exists. exists d. split; [by apply list_elem_of_In|lia]. }
    destruct (brrip_victim_valid p ds Hne Hf') as (v & d & -> & Hd & Hmax). eexists v, d, _.
    do 2 (split; [done|]). split; [done|]. split; [done|]. apply Forall_fmap, Forall_lookup. intros j c Hj. cbn.
    destruct (Hmax j c Hj). rewrite Forall_lookup in Hf'. pose proof (Hf' j c Hj). pose proof (Hf' v d Hd). lia.
Qed.

Example brrip_victim_witness :
  exists v d ds', BRRIPRP_getVictim {| maxRRPV := 3; hitPriority := true; btp := 5 |}
    [{| rrpv := 0 |}; {| rrpv := 1 |}; {| rrpv := 1 |}] = Ok (v, ds') /\
    [{| rrpv := 0 |}; {| rrpv := 1 |}; {| rrpv := 1 |}] !! v = Some d.
Proof.
  destruct (brrip_victim {| maxRRPV := 3; hitPriority := true; btp := 5 |} [{| rrpv := 0 |}; {| rrpv := 1 |}; {| rrpv := 1 |}])
    as (v & d & ds' & H1 & H2 & _); [done|done|repeat constructor; cbn; lia|].
  exists v, d, ds'. split; [exact H1|exact H2].
Defined.
