(* ===== verification/CacheBlk.v ===== *)
(** Cache blocks: the status bits, insertion and invalidation, and the locks of
    load-linked and store-conditional pairs, from src/mem/cache/blk.hh and
    blk.cc. *)
From S2P Require Import Prelude.

(** * Definitions *)

Definition BlkValid : Z := 0x01.
Definition BlkWritable : Z := 0x02.
Definition BlkReadable : Z := 0x04.
Definition BlkDirty : Z := 0x08.
Definition BlkHWPrefetched : Z := 0x20.
Definition BlkSecure : Z := 0x40.

(** [MaxAddr], [MaxTick], [ContextSwitchTaskId::Unknown] and
    [Request::invldMasterId] *)
Definition MaxAddr : Z := 2 ^ 64 - 1.
Definition MaxTick : Z := 2 ^ 64 - 1.
Definition TaskId_Unknown : Z := 1024.
Definition invldMasterId : Z := 2 ^ 16 - 1.

(** What the block uses of a request. *)
Record Request := { req_contextId : Z; getPaddr : Z; getSize : Z }.

Record Lock := { contextId : Z; lowAddr : Z; highAddr : Z }.
Definition Lock_new (req : Request) : Lock :=
  {| contextId := req_contextId req; lowAddr := getPaddr req;
     highAddr := u64 (u64 (getPaddr req + getSize req) - 1) |}.
Definition matches (l : Lock) (req : Request) : bool :=
  let req_low := getPaddr req in
  let req_high := u64 (u64 (req_low + getSize req) - 1) in
  (contextId l =? req_contextId req) && (lowAddr l <=? req_low) && (req_high <=? highAddr l).
Definition intersects (l : Lock) (req : Request) : bool :=
  let req_low := getPaddr req in
  let req_high := u64 (u64 (req_low + getSize req) - 1) in
  (req_low <=? highAddr l) && (lowAddr l <=? req_high).

Section CacheBlk.
Context {D : Type}.

(** [replacementData] is the data of a replacement policy; the [data] pointer,
    which the tags set once, is not modelled. *)
Record CacheBlk := {
  task_id : Z; tag : Z; status : Z; whenReady : Z; set : Z; way : Z; refCount : Z;
  srcMasterId : Z; tickInserted : Z; lockList : list Lock; replacementData : D }.

Definition isWritable (b : CacheBlk) : bool :=
  let needed_bits := Z.lor BlkWritable BlkValid in Z.land (status b) needed_bits =? needed_bits.
Definition isReadable (b : CacheBlk) : bool :=
  let needed_bits := Z.lor BlkReadable BlkValid in Z.land (status b) needed_bits =? needed_bits.
Definition isValid (b : CacheBlk) : bool := negb (Z.land (status b) BlkValid =? 0).
Definition isDirty (b : CacheBlk) : bool := negb (Z.land (status b) BlkDirty =? 0).
Definition wasPrefetched (b : CacheBlk) : bool := negb (Z.land (status b) BlkHWPrefetched =? 0).
Definition isSecure (b : CacheBlk) : bool := negb (Z.land (status b) BlkSecure =? 0).

Definition blk_invalidate (b : CacheBlk) : CacheBlk :=
  {| task_id := TaskId_Unknown; tag := MaxAddr; status := 0; whenReady := MaxTick; set := set b; way := way b;
     refCount := 0; srcMasterId := invldMasterId; tickInserted := MaxTick; lockList := [];
     replacementData := replacementData b |}.

Definition blk_insert (now : Z) (tag : Z) (is_secure : bool) (src_master_ID task_ID : Z) (b : CacheBlk) : CacheBlk :=
  {| task_id := task_ID; tag := tag; status := if is_secure then BlkSecure else 0; whenReady := whenReady b;
     set := set b; way := way b; refCount := 1; srcMasterId := src_master_ID; tickInserted := now;
     lockList := lockList b; replacementData := replacementData b |}.

Definition with_locks (b : CacheBlk) (l : list Lock) : CacheBlk :=
  {| task_id := task_id b; tag := tag b; status := status b; whenReady := whenReady b; set := set b; way := way b;
     refCount := refCount b; srcMasterId := srcMasterId b; tickInserted := tickInserted b; lockList := l;
     replacementData := replacementData b |}.
Definition with_status (b : CacheBlk) (s : Z) : CacheBlk :=
  {| task_id := task_id b; tag := tag b; status := s; whenReady := whenReady b; set := set b; way := way b;
     refCount := refCount b; srcMasterId := srcMasterId b; tickInserted := tickInserted b; lockList := lockList b;
     replacementData := replacementData b |}.
Definition with_repl (b : CacheBlk) (rc : Z) (d : D) : CacheBlk :=
  {| task_id := task_id b; tag := tag b; status := status b; whenReady := whenReady b; set := set b; way := way b;
     refCount := rc; srcMasterId := srcMasterId b; tickInserted := tickInserted b; lockList := lockList b;
     replacementData := d |}.

(** ** Load-linked and store-conditional

    [llsc]: [pkt->isLLSC()]. *)
Definition trackLoadLocked (llsc : bool) (req : Request) (b : CacheBlk) : res CacheBlk :=
  assert! llsc ;;
  Ok (with_locks b (Lock_new req :: filter (fun l => intersects l req = false) (lockList b))).

Definition clearLoadLocks (req : Request) (l : list Lock) : list Lock :=
  filter (fun l => intersects l req && negb (contextId l =? req_contextId req) = false) l.

(** The search of a store-conditional: the first lock that matches is erased. *)
Fixpoint take_lock (req : Request) (ls : list Lock) : bool * list Lock :=
  match ls with
  | [] => (false, [])
  | l :: ls =>
    if matches l req then (true, ls) else let '(s, ls) := take_lock req ls in (s, l :: ls)
  end.

(** [checkWrite(pkt)]: whether the write proceeds; the second result is the
    request's extra data, if it is set. *)
Definition checkWrite (write llsc : bool) (req : Request) (b : CacheBlk) : res (bool * option Z * CacheBlk) :=
  assert! write ;;
  if negb llsc && (match lockList b with [] => true | _ => false end) then Ok (true, None, b)
  else if llsc then
    let '(success, ls) := take_lock req (lockList b) in
    Ok (success, Some (if success then 1 else 0), with_locks b (clearLoadLocks req ls))
  else Ok (true, None, with_locks b (clearLoadLocks req (lockList b))).
End CacheBlk.
Arguments CacheBlk : clear implicits.

(** * Sequences of accesses to a block *)

(** The accesses that concern the locks; the block stays in the cache. *)
Inductive access := LoadLocked (req : Request) | Store (req : Request) | StoreConditional (req : Request).
Definition access_req (a : access) : Request :=
  match a with LoadLocked r | Store r | StoreConditional r => r end.

Definition do_access {D} (a : access) (b : CacheBlk D) : res (bool * CacheBlk D) :=
  match a with
  | LoadLocked r => b ← trackLoadLocked true r b; Ok (true, b)
  | Store r => '(ok, _, b) ← checkWrite true false r b; Ok (ok, b)
  | StoreConditional r => '(ok, _, b) ← checkWrite true true r b; Ok (ok, b)
  end.

Fixpoint do_accesses {D} (l : list access) (b : CacheBlk D) : res (CacheBlk D) :=
  match l with
  | [] => Ok b
  | a :: l => '(_, b) ← do_access a b; do_accesses l b
  end.

(** Requests of a positive size that do not wrap around. *)
Definition req_ok (r : Request) : Prop := 0 <= getPaddr r /\ 0 < getSize r /\ getPaddr r + getSize r <= 2 ^ 64.
Definition overlap (r1 r2 : Request) : Prop :=
  getPaddr r1 < getPaddr r2 + getSize r2 /\ getPaddr r2 < getPaddr r1 + getSize r1.
Definition covers (r1 r2 : Request) : Prop :=
  getPaddr r1 <= getPaddr r2 /\ getPaddr r2 + getSize r2 <= getPaddr r1 + getSize r1.

Lemma high_ok r : req_ok r -> u64 (u64 (getPaddr r + getSize r) - 1) = getPaddr r + getSize r - 1.
Proof.
  intros (H1 & H2 & H3). unfold wrap_u.
  destruct (decide (getPaddr r + getSize r = 2 ^ 64)) as [E|E]; [by rewrite E|].
  rewrite (Z.mod_small (getPaddr r + getSize r)) by lia. rewrite Z.mod_small by lia. lia.
Qed.

Lemma intersects_spec r0 r :
  req_ok r0 -> req_ok r -> intersects (Lock_new r0) r = true <-> overlap r0 r.
Proof.
  intros H0 Hr. unfold intersects, overlap. cbn. rewrite !high_ok by done. unfold req_ok in *. lia.
Qed.

Lemma matches_spec r0 r :
  req_ok r0 -> req_ok r ->
  matches (Lock_new r0) r = true <-> req_contextId r0 = req_contextId r /\ covers r0 r.
Proof.
  intros H0 Hr. unfold matches, covers. cbn. rewrite !high_ok by done. unfold req_ok in *. lia.
Qed.

Lemma take_lock_elem req ls s ls' : take_lock req ls = (s, ls') ->
  (forall l, l ∈ ls' -> l ∈ ls) /\ (s = true -> exists l, l ∈ ls /\ matches l req = true) /\
  (s = false -> ls' = ls /\ Forall (fun l => matches l req = false) ls).
Proof.
  revert s ls'. induction ls as [|l ls IH]; intros s ls'; cbn; [by intros [= <- <-]|].
  destruct (matches l req) eqn:E.
  - intros [= <- <-]. split; [intros l' H; apply elem_of_cons; by right|]. split; [|done].
    intros _. exists l. split; [apply elem_of_cons; by left|done].
  - destruct (take_lock req ls) as [s1 ls1]. intros [= <- <-]. destruct (IH s1 ls1 eq_refl) as (H1 & H2 & H3).
    split; [intros l' [-> |H]%elem_of_cons; apply elem_of_cons; auto|]. split.
    + intros Hs. destruct (H2 Hs) as (l' & H & Hm). exists l'. split; [apply elem_of_cons; by right|done].
    + intros Hs. destruct (H3 Hs) as [-> Hf]. split; [done|by constructor].
Qed.

(** Where a lock comes from: a load-linked after which no other context has
    accessed any of its bytes. *)
Definition held_since (t : list access) (l : Lock) : Prop :=
  exists t1 t2 r0, t = t1 ++ LoadLocked r0 :: t2 /\ l = Lock_new r0 /\
    Forall (fun a => req_contextId (access_req a) = req_contextId r0 \/ ~ overlap r0 (access_req a)) t2.

Lemma held_since_snoc t l a :
  held_since t l -> req_ok (access_req a) -> (forall r0, l = Lock_new r0 -> LoadLocked r0 ∈ t -> req_ok r0) ->
  contextId l = req_contextId (access_req a) \/ intersects l (access_req a) = false ->
  held_since (t ++ [a]) l.
Proof.
  intros (t1 & t2 & r0 & -> & -> & Hf) Ha Hok Hor. exists t1, (t2 ++ [a]), r0.
  split; [by rewrite <- app_assoc|]. split; [done|]. apply Forall_app. split; [done|]. constructor; [|done].
  destruct Hor as [E|E]; [by left|right]. rewrite <- intersects_spec; [by rewrite E| |done].
  apply Hok; [done|]. rewrite elem_of_app, elem_of_cons. auto.
Qed.


Lemma kept_locks req ls l :
  l ∈ clearLoadLocks req ls -> l ∈ ls /\ (contextId l = req_contextId req \/ intersects l req = false).
Proof.
  intros [H1 H2]%list_elem_of_filter. split; [done|].
  destruct (intersects l req); [left|by right]. cbn in H1. lia.
Qed.

Lemma do_access_total {D} a (b : CacheBlk D) : exists ok b', do_access a b = Ok (ok, b').
Proof.
  destruct a as [r|r|r]; cbn.
  - by eexists _, _.
  - unfold checkWrite. destruct (lockList b); cbn; by eexists _, _.
  - unfold checkWrite. cbn. destruct (take_lock r (lockList b)). by eexists _, _.
Qed.

(** The locks an access leaves: its own, or kept ones. *)
Lemma do_access_locks {D} a (b : CacheBlk D) ok b' l :
  do_access a b = Ok (ok, b') -> l ∈ lockList b' ->
  (exists r, a = LoadLocked r /\ l = Lock_new r) \/
  (l ∈ lockList b /\ (contextId l = req_contextId (access_req a) \/ intersects l (access_req a) = false)).
Proof.
  destruct a as [r|r|r]; cbn.
  - intros [= <- <-] [-> |[H1 H2]%list_elem_of_filter]%elem_of_cons; [left; by exists r|right; auto].
  - unfold checkWrite. destruct (lockList b) as [|l0 ls] eqn:E; cbn [negb andb mbind res_bind].
    + intros [= <- <-] Hl. rewrite E in Hl. by apply not_elem_of_nil in Hl.
    + intros [= <- <-] Hl%kept_locks. by right.
  - unfold checkWrite. cbn [negb andb]. destruct (take_lock r (lockList b)) as [s ls] eqn:E. cbn.
    intros [= <- <-] [H1 H2]%kept_locks. right. apply take_lock_elem in E as (Hsub & _). auto.
Qed.

(** Every lock of a block is held since its load-linked. *)
Lemma locks_held {D} t t0 (b b' : CacheBlk D) :
  (forall l, l ∈ lockList b -> held_since t0 l) -> Forall (fun a => req_ok (access_req a)) (t0 ++ t) ->
  do_accesses t b = Ok b' -> forall l, l ∈ lockList b' -> held_since (t0 ++ t) l.
Proof.
  revert t0 b. induction t as [|a t IH]; intros t0 b Hb Hok; cbn [do_accesses].
  - intros [= <-] l Hl. rewrite app_nil_r. by apply Hb.
  - destruct (do_access_total a b) as (ok & b1 & E). rewrite E. cbn [mbind res_bind].
    intros Hrun l Hl. rewrite cons_middle, app_assoc in Hok |- *. apply (IH (t0 ++ [a]) b1); [|done..].
    apply Forall_app in Hok as [Hok _]. intros l' Hl'.
    destruct (do_access_locks a b ok b1 l' E Hl') as [(r & -> & ->)|[Hin Hor]].
    + exists t0, [], r. split; [done|]. by split.
    + apply Forall_app in Hok as [Hok0 Hoka]. apply held_since_snoc; [by apply Hb|by apply Forall_inv in Hoka| |done].
      intros r0 _ Hr0. rewrite Forall_forall in Hok0. exact (Hok0 _ Hr0).
Qed.

(** A lock stays as long as no other context accesses its bytes and its own
    context does not use it up. *)
Definition harmless (r0 : Request) (a : access) : Prop :=
  ~ overlap r0 (access_req a) \/ exists r, a = Store r /\ req_contextId r = req_contextId r0.

Lemma take_lock_keeps req ls s ls' l :
  take_lock req ls = (s, ls') -> l ∈ ls -> matches l req = false -> l ∈ ls'.
Proof.
  revert s ls'. induction ls as [|l0 ls IH]; intros s ls'; cbn; [by intros _ ?%not_elem_of_nil|].
  destruct (matches l0 req) eqn:E.
  - intros [= <- <-] [-> |H]%elem_of_cons; [congruence|done].
  - destruct (take_lock req ls) as [s1 ls1]. intros [= <- <-] [-> |H]%elem_of_cons Hm; apply elem_of_cons; eauto.
Qed.

Lemma harmless_keeps {D} r0 a (b : CacheBlk D) ok b' :
  req_ok r0 -> req_ok (access_req a) -> harmless r0 a ->
  Lock_new r0 ∈ lockList b -> do_access a b = Ok (ok, b') -> Lock_new r0 ∈ lockList b'.
Proof.
  intros H0 Ha Hh Hin Hd.
  assert (intersects (Lock_new r0) (access_req a) && negb (contextId (Lock_new r0) =? req_contextId (access_req a)) = false) as Hkeep.
  { destruct Hh as [Hn|(r & -> & E)].
    - rewrite <- intersects_spec in Hn by done. by apply not_true_is_false in Hn as ->.
    - cbn [access_req]. rewrite E, Z.eqb_refl. apply andb_false_r. }
  assert (forall ls, Lock_new r0 ∈ ls -> Lock_new r0 ∈ clearLoadLocks (access_req a) ls) as Hclear
    by (intros ls Hls; by apply list_elem_of_filter).
  destruct a as [r|r|r]; cbn [do_access access_req] in *.
  - injection Hd as <- <-. cbn. apply elem_of_cons. right. apply list_elem_of_filter. split; [|done].
    destruct Hh as [Hn|(? & ? & _)]; [|done]. apply not_true_is_false. by rewrite intersects_spec.
  - unfold checkWrite in Hd. destruct (lockList b) as [|l ls] eqn:E; cbn [negb andb mbind res_bind] in Hd;
      injection Hd as <- <-; [by rewrite E|].
    by apply (Hclear (l :: ls)).
  - unfold checkWrite in Hd. cbn [negb andb] in Hd. destruct (take_lock r (lockList b)) as [s ls] eqn:E.
    injection Hd as <- <-. apply Hclear, (take_lock_keeps _ _ _ _ _ E); [done|].
    destruct Hh as [Hn|(? & ? & _)]; [|done]. apply not_true_is_false. rewrite matches_spec by done.
    intros [_ Hc]. apply Hn. cbn [access_req]. unfold covers, overlap, req_ok in *. lia.
Qed.

Lemma harmless_run_keeps {D} r0 t (b b' : CacheBlk D) :
  req_ok r0 -> Forall (fun a => req_ok (access_req a) /\ harmless r0 a) t ->
  Lock_new r0 ∈ lockList b -> do_accesses t b = Ok b' -> Lock_new r0 ∈ lockList b'.
Proof.
  intros H0. revert b. induction t as [|a t IH]; intros b Hf Hin; cbn [do_accesses]; [by intros [= <-]|].
  apply Forall_cons in Hf as [[Ha Hh] Hf]. destruct (do_access_total a b) as (ok & b1 & E). rewrite E.
  cbn [mbind res_bind]. apply IH; [done|]. by eapply harmless_keeps.
Qed.

Lemma do_accesses_app {D} t1 t2 (b : CacheBlk D) :
  do_accesses (t1 ++ t2) b = (b' ← do_accesses t1 b; do_accesses t2 b').
Proof.
  revert b. induction t1 as [|a t1 IH]; intros b; cbn; [done|].
  destruct (do_access a b) as [[ok b1]| | |]; cbn; [apply IH|done..].
Qed.

Lemma do_accesses_total {D} t (b : CacheBlk D) : exists b', do_accesses t b = Ok b'.
Proof.
  revert b. induction t as [|a t IH]; intros b; cbn; [by eexists|].
  destruct (do_access_total a b) as (ok & b1 & ->). cbn. apply IH.
Qed.

(** * Theorems *)

(** (load-linked and store-conditional).  On a block fresh in the cache and
    after any sequence of accesses, a store-conditional that succeeds has the
    bytes of a load-linked of its own context since when no other context has
    loaded them linked or written them, or attempted to: the pair is atomic.
    Conversely it succeeds if such a load-linked exists since when its own
    context has only stored to these bytes.  The sequence always returns. *)
Theorem llsc_atomic {D} t r (b : CacheBlk D) :
  lockList b = [] -> Forall (fun a => req_ok (access_req a)) t -> req_ok r ->
  exists b1 ok b2, do_accesses t b = Ok b1 /\ do_access (StoreConditional r) b1 = Ok (ok, b2) /\
    (ok = true -> exists t1 t2 r0, t = t1 ++ LoadLocked r0 :: t2 /\
       req_contextId r0 = req_contextId r /\ covers r0 r /\
       Forall (fun a => req_contextId (access_req a) = req_contextId r \/ ~ overlap r0 (access_req a)) t2) /\
    ((exists t1 t2 r0, t = t1 ++ LoadLocked r0 :: t2 /\ req_contextId r0 = req_contextId r /\
        covers r0 r /\ Forall (harmless r0) t2) -> ok = true).
Proof.
  intros Hb Hok Hr. destruct (do_accesses_total t b) as [b1 H1].
  destruct (do_access_total (StoreConditional r) b1) as (ok & b2 & H2). exists b1, ok, b2.
  split; [done|]. split; [done|].
  pose proof H2 as H2'. cbn in H2'. unfold checkWrite in H2'. cbn [negb andb] in H2'.
  destruct (take_lock r (lockList b1)) as [s ls] eqn:E. injection H2' as <- _.
  apply take_lock_elem in E as (_ & Hs & Hf). split.
  - intros ->. destruct (Hs eq_refl) as (l & Hl & Hm).
    assert (held_since ([] ++ t) l) as (t1 & t2 & r0 & Et & -> & Hall).
    { eapply (locks_held t []); [by rewrite Hb; intros ? ?%not_elem_of_nil|done|exact H1|done]. }
    rewrite app_nil_l in Et. rewrite Et in Hok.
    assert (req_ok r0) as H0 by (apply Forall_app in Hok as [_ Hok]; by apply Forall_inv in Hok).
    apply matches_spec in Hm as [Ec Hcov]; [|done..]. exists t1, t2, r0. by rewrite <- Ec.
  - intros (t1 & t2 & r0 & Et & Ec & Hcov & Hall). destruct s; [done|]. destruct (Hf eq_refl) as [_ Hno].
    rewrite Et in H1, Hok. rewrite do_accesses_app in H1. destruct (do_accesses t1 b) as [b0| | |]; try done.
    cbn [mbind res_bind do_accesses] in H1. destruct (do_access_total (LoadLocked r0) b0) as (ok0 & b0' & E0).
    rewrite E0 in H1. cbn [mbind res_bind] in H1. apply Forall_app in Hok as [_ Hok]. apply Forall_cons in Hok as [H0 Hok].
    cbn in H0. assert (Lock_new r0 ∈ lockList b1) as Hin.
    { eapply (harmless_run_keeps r0 t2 b0'); [done| | |done].
      - by apply Forall_and.
      - cbn in E0. injection E0 as <- <-. cbn. apply elem_of_cons. by left. }
    rewrite Forall_forall in Hno. specialize (Hno _ Hin).
    assert (matches (Lock_new r0) r = true) as Hm by (by apply matches_spec). congruence.
Qed.

Definition example_req (c a : Z) : Request := {| req_contextId := c; getPaddr := a; getSize := 8 |}.
Definition example_blk : CacheBlk unit :=
  {| task_id := 0; tag := 0; status := 0x7; whenReady := 0; set := 0; way := 0; refCount := 1; srcMasterId := 0;
     tickInserted := 0; lockList := []; replacementData := tt |}.
Example llsc_atomic_witness :
  exists b1 ok b2, do_accesses [LoadLocked (example_req 1 64); Store (example_req 2 72)] example_blk = Ok b1 /\
    do_access (StoreConditional (example_req 1 64)) b1 = Ok (ok, b2) /\ ok = true.
Proof.
  destruct (llsc_atomic [LoadLocked (example_req 1 64); Store (example_req 2 72)] (example_req 1 64) example_blk)
    as (b1 & ok & b2 & H1 & H2 & _ & H3); [done|repeat constructor; cbn; lia|split; cbn; lia|].
  exists b1, ok, b2. split; [exact H1|]. split; [exact H2|]. apply H3.
  exists [], [Store (example_req 2 72)], (example_req 1 64). split; [done|]. split; [done|].
  split; [unfold covers; cbn; lia|]. constructor; [|constructor]. left. unfold overlap. cbn. lia.
Defined.

(** (a failed store-conditional still clears locks).  Whether it succeeds or
    not, a store-conditional removes the locks other contexts hold on its
    bytes, so two contexts that retry can keep failing each other; and a context
    that loads linked removes the locks of the others too. *)
Theorem sc_clears_others {D} r (b : CacheBlk D) ok b' a :
  a = StoreConditional r \/ a = LoadLocked r ->
  do_access a b = Ok (ok, b') ->
  Forall (fun l => contextId l = req_contextId r \/ intersects l r = false) (lockList b').
Proof.
  intros Ha Hd. apply Forall_forall. intros l Hl.
  destruct (do_access_locks a b ok b' l Hd Hl) as [(r' & E & ->)|[_ Hor]].
  - left. by destruct Ha as [->| ->]; [|injection E as <-].
  - by destruct Ha as [->| ->].
Qed.
