(* ===== verification/CacheTags.v ===== *)
(** The set-associative tags of src/mem/cache/tags (base.hh, base.cc,
    cacheset.hh, base_set_assoc.hh and base_set_assoc.cc), over any replacement
    policy, and what the cache of src/mem/cache (base.cc and cache.cc) does
    with them to allocate and evict a block.  The packets of this file carry the
    command, address and state of a block; its bytes are in those of [Cache]. *)
From S2P Require Import Prelude Bitfield IntMath CacheBlk ReplPolicy.

(** * Definitions *)

(** [blks]: pointers to blocks, as indices of [BaseSetAssoc::blks]. *)
Record CacheSet := { cs_assoc : Z; cs_blks : list Z }.

Section Tags.
Context {P D : Type} `{!ReplacementPolicy P D}.

(** [dataOf]: the [data] pointer of each block, as an offset into [dataBlks]. *)
Record BaseSetAssoc := {
  blkSize : Z; lookupLatency : Z; accessLatency : Z; sequentialAccess : bool;
  assoc : Z; allocAssoc : Z; numSets : Z; setShift : Z; tagShift : Z; setMask : Z;
  replacementPolicy : P;
  sets : list CacheSet; blks : list (CacheBlk D); dataOf : list (option Z); tagsInUse : Z }.

Definition with_blks (t : BaseSetAssoc) (b : list (CacheBlk D)) (n : Z) : BaseSetAssoc :=
  {| blkSize := blkSize t; lookupLatency := lookupLatency t; accessLatency := accessLatency t;
     sequentialAccess := sequentialAccess t; assoc := assoc t; allocAssoc := allocAssoc t;
     numSets := numSets t; setShift := setShift t; tagShift := tagShift t; setMask := setMask t;
     replacementPolicy := replacementPolicy t; sets := sets t; blks := b; dataOf := dataOf t; tagsInUse := n |}.

(** The block linked as way [j] of set [i]. *)
Definition link_blk (policy : P) (i j : Z) (b : CacheBlk D) : CacheBlk D :=
  {| task_id := task_id b; tag := j; status := status b; whenReady := whenReady b; set := i; way := j;
     refCount := refCount b; srcMasterId := srcMasterId b; tickInserted := tickInserted b; lockList := lockList b;
     replacementData := rp_instantiateEntry policy |}.

(** [raw]: the fields of a block its constructor leaves alone. *)
Definition BaseSetAssoc_new (size block_size p_assoc tag_latency data_latency : Z) (sequential : bool)
    (policy : P) (raw : CacheBlk D) : res BaseSetAssoc :=
  let blkSize := u32 block_size in
  defined! negb (block_size =? 0) ;;
  let n := size / u64 block_size in
  way_size ← int_ok (block_size * p_assoc);
  defined! negb (way_size =? 0) ;;
  let numSets := u32 (size / u64 way_size) in
  assert! negb ((blkSize <? 4) || negb (isPowerOf2 blkSize)) ;;
  assert! isPowerOf2 numSets ;;
  assert! negb (u32 p_assoc <=? 0) ;;
  setShift ← floorLog2_32 blkSize;
  setBits ← floorLog2_32 numSets;
  '(sets, blks, dataOf, _) ← for_range 0 numSets (fun i '(sets, blks, dataOf, blkIndex) =>
      '(ptrs, blks, dataOf, blkIndex) ← for_range 0 (u32 p_assoc) (fun j '(ptrs, blks, dataOf, blkIndex) =>
          b ← aread blks blkIndex;
          blks ← awrite blks blkIndex (link_blk policy i j b);
          dataOf ← awrite dataOf blkIndex (Some (u32 (blkSize * blkIndex)));
          Ok (ptrs ++ [blkIndex], blks, dataOf, u32 (blkIndex + 1))) ([], blks, dataOf, blkIndex);
      Ok (sets ++ [{| cs_assoc := u32 p_assoc; cs_blks := ptrs |}], blks, dataOf, blkIndex))
    ([], replicate (Z.to_nat n) (blk_invalidate raw), replicate (Z.to_nat n) None, 0);
  Ok {| blkSize := blkSize; lookupLatency := tag_latency;
        accessLatency := if sequential then u64 (tag_latency + data_latency) else Z.max tag_latency data_latency;
        sequentialAccess := sequential; assoc := u32 p_assoc; allocAssoc := u32 p_assoc; numSets := numSets;
        setShift := setShift; tagShift := setShift + setBits; setMask := u32 (numSets - 1);
        replacementPolicy := policy; sets := sets; blks := blks; dataOf := dataOf; tagsInUse := 0 |}.

(** ** Addresses *)

Definition blkMask (t : BaseSetAssoc) : Z := u32 (blkSize t - 1).
Definition blkAlign (t : BaseSetAssoc) (addr : Z) : Z := Z.land addr (u64 (Z.lnot (blkMask t))).
Definition extractBlkOffset (t : BaseSetAssoc) (addr : Z) : Z := s32 (Z.land addr (blkMask t)).
Definition extractTag (t : BaseSetAssoc) (addr : Z) : Z := Z.shiftr addr (tagShift t).
Definition extractSet (t : BaseSetAssoc) (addr : Z) : Z := s32 (Z.land (Z.shiftr addr (setShift t)) (setMask t)).
Definition regenerateBlkAddr (t : BaseSetAssoc) (b : CacheBlk D) : Z :=
  Z.lor (u64 (Z.shiftl (tag b) (tagShift t))) (u64 (Z.shiftl (u64 (set b)) (setShift t))).

(** ** Lookup *)

Definition blk_matches (tag0 : Z) (is_secure : bool) (b : CacheBlk D) : bool :=
  (tag b =? tag0) && isValid b && eqb (isSecure b) is_secure.

(** The loop of [CacheSet::findBlk] over the ways from [i]; the result is the
    pointer and [way_id]. *)
Fixpoint findBlk_loop (bs : list (CacheBlk D)) (ptrs : list Z) (tag0 : Z) (is_secure : bool) (i : Z)
  : res (option (Z * Z)) :=
  match ptrs with
  | [] => Ok None
  | p :: ptrs =>
    b ← aread bs p;
    if blk_matches tag0 is_secure b then Ok (Some (p, i)) else findBlk_loop bs ptrs tag0 is_secure (i + 1)
  end.
Definition findBlk (bs : list (CacheBlk D)) (s : CacheSet) (tag0 : Z) (is_secure : bool) : res (option Z) :=
  defined! cs_assoc s <=? Z.of_nat (length (cs_blks s)) ;;
  r ← findBlk_loop bs (take (Z.to_nat (cs_assoc s)) (cs_blks s)) tag0 is_secure 0;
  Ok (match r with Some (p, _) => Some p | None => None end).

Definition findBlock (t : BaseSetAssoc) (addr : Z) (is_secure : bool) : res (option Z) :=
  s ← aread (sets t) (extractSet t addr);
  findBlk (blks t) s (extractTag t addr) is_secure.

Definition findBlockBySetAndWay (t : BaseSetAssoc) (set way : Z) : res Z :=
  s ← aread (sets t) set; aread (cs_blks s) way.

(** [ticksToCycles] of the cache, with its clock period. *)
Definition ticksToCycles (period ticks : Z) : res Z := divCeil ticks period.

(** The statistics but [tagsInUse] are not modelled. *)
Definition accessBlock (period now : Z) (t : BaseSetAssoc) (addr : Z) (is_secure : bool)
  : res (option Z * Z * BaseSetAssoc) :=
  o ← findBlock t addr is_secure;
  match o with
  | None => Ok (None, lookupLatency t, t)
  | Some p =>
    b ← aread (blks t) p;
    lat ← (if now <? whenReady b then
             c ← ticksToCycles period (u64 (whenReady b - now));
             Ok (if accessLatency t <? c then u64 (c + accessLatency t) else accessLatency t)
           else Ok (accessLatency t));
    bs ← awrite (blks t) p (with_repl b (u32 (refCount b + 1)) (rp_touch (replacementPolicy t) now (replacementData b)));
    Ok (Some p, lat, with_blks t bs (tagsInUse t))
  end.

(** ** Replacement *)

Definition getPossibleLocations (t : BaseSetAssoc) (addr : Z) : res (list Z) :=
  s ← aread (sets t) (extractSet t addr); Ok (cs_blks s).

(** The replacement data of the blocks at [ptrs], and storing it back. *)
Fixpoint read_data (bs : list (CacheBlk D)) (ptrs : list Z) : res (list D) :=
  match ptrs with
  | [] => Ok []
  | p :: ptrs => b ← aread bs p; l ← read_data bs ptrs; Ok (replacementData b :: l)
  end.
Fixpoint write_data (bs : list (CacheBlk D)) (ptrs : list Z) (ds : list D) : res (list (CacheBlk D)) :=
  match ptrs, ds with
  | p :: ptrs, d :: ds =>
    b ← aread bs p; bs ← awrite bs p (with_repl b (refCount b) d); write_data bs ptrs ds
  | _, _ => Ok bs
  end.

(** The victim is the only block to evict. *)
Definition findVictim (now : Z) (random : Z -> Z -> Z) (t : BaseSetAssoc) (addr : Z) : res (Z * BaseSetAssoc) :=
  locations ← getPossibleLocations t addr;
  ds ← read_data (blks t) locations;
  '(v, ds) ← rp_getVictim (replacementPolicy t) now random ds;
  bs ← write_data (blks t) locations ds;
  victim ← aread locations (Z.of_nat v);
  Ok (victim, with_blks t bs (tagsInUse t)).

(** What [insertBlock] uses of the packet. *)
Record Packet := { pkt_addr : Z; pkt_secure : bool; pkt_masterId : Z; pkt_taskId : Z }.

(** [maxMasters]: of the system. *)
Definition insertBlock (now : Z) (random : Z -> Z -> Z) (maxMasters : Z) (t : BaseSetAssoc) (pkt : Packet) (p : Z)
  : res BaseSetAssoc :=
  b ← aread (blks t) p;
  assert! negb (isValid b) ;;
  assert! pkt_masterId pkt <? maxMasters ;;
  let b := blk_insert now (extractTag t (pkt_addr pkt)) (pkt_secure pkt) (pkt_masterId pkt) (pkt_taskId pkt) b in
  bs ← awrite (blks t) p (with_repl b (refCount b) (rp_reset (replacementPolicy t) now random (replacementData b)));
  Ok (with_blks t bs (tagsInUse t + 1)).

Definition invalidate (t : BaseSetAssoc) (p : Z) : res BaseSetAssoc :=
  b ← aread (blks t) p;
  assert! isValid b ;;
  let b := blk_invalidate b in
  bs ← awrite (blks t) p (with_repl b (refCount b) (rp_invalidate (replacementPolicy t) (replacementData b)));
  Ok (with_blks t bs (tagsInUse t - 1)).

Definition setWayAllocationMax (t : BaseSetAssoc) (ways : Z) : res BaseSetAssoc :=
  assert! negb (ways <? 1) ;;
  Ok {| blkSize := blkSize t; lookupLatency := lookupLatency t; accessLatency := accessLatency t;
        sequentialAccess := sequentialAccess t; assoc := assoc t; allocAssoc := u32 ways;
        numSets := numSets t; setShift := setShift t; tagShift := tagShift t; setMask := setMask t;
        replacementPolicy := replacementPolicy t; sets := sets t; blks := blks t; dataOf := dataOf t; tagsInUse := tagsInUse t |}.
Definition getWayAllocationMax (t : BaseSetAssoc) : Z := s32 (allocAssoc t).

Definition forEachBlk (t : BaseSetAssoc) (visitor : CacheBlk D -> CacheBlk D) : BaseSetAssoc :=
  with_blks t (visitor <$> blks t) (tagsInUse t).
Definition anyBlk (t : BaseSetAssoc) (visitor : CacheBlk D -> bool) : bool := existsb visitor (blks t).

(** ** Eviction and allocation by the cache *)

Inductive MemCmd := WritebackDirty | WritebackClean | CleanEvict.
Record Writeback := { wb_cmd : MemCmd; wb_addr : Z; wb_secure : bool; wb_taskId : Z; wb_hasSharers : bool }.

Definition writebackBlk (writebackClean : bool) (t : BaseSetAssoc) (p : Z) : res (Writeback * BaseSetAssoc) :=
  b ← aread (blks t) p;
  assert! isValid b && (isDirty b || writebackClean) ;;
  let pkt := {| wb_cmd := if isDirty b then WritebackDirty else WritebackClean; wb_addr := regenerateBlkAddr t b;
                wb_secure := isSecure b; wb_taskId := task_id b; wb_hasSharers := negb (isWritable b) |} in
  let s := if isWritable b then Z.land (status b) (u32 (Z.lnot BlkWritable)) else status b in
  bs ← awrite (blks t) p (with_status b (Z.land s (u32 (Z.lnot BlkDirty))));
  Ok (pkt, with_blks t bs (tagsInUse t)).

Definition cleanEvictBlk (writebackClean : bool) (t : BaseSetAssoc) (p : Z) : res Writeback :=
  b ← aread (blks t) p;
  assert! negb writebackClean ;;
  assert! isValid b && negb (isDirty b) ;;
  Ok {| wb_cmd := CleanEvict; wb_addr := regenerateBlkAddr t b; wb_secure := isSecure b; wb_taskId := task_id b;
        wb_hasSharers := false |}.

(** A block of the tags, not the temporary block. *)
Definition invalidateBlock (t : BaseSetAssoc) (p : Z) : res BaseSetAssoc :=
  t ← invalidate t p;
  b ← aread (blks t) p;
  bs ← awrite (blks t) p (blk_invalidate b);
  Ok (with_blks t bs (tagsInUse t)).

Definition evictBlock (writebackClean : bool) (t : BaseSetAssoc) (p : Z) : res (Writeback * BaseSetAssoc) :=
  b ← aread (blks t) p;
  '(pkt, t) ← (if isDirty b || writebackClean then writebackBlk writebackClean t p
               else pkt ← cleanEvictBlk writebackClean t p; Ok (pkt, t));
  t ← invalidateBlock t p;
  Ok (pkt, t).

(** [mshr]: [mshrQueue.findMatch], whose result is whether the entry needs a
    writable block and whether it cleans.  No block is allocated when the
    victim has an entry. *)
Definition allocateBlock (now : Z) (random : Z -> Z -> Z) (maxMasters : Z) (writebackClean : bool)
    (mshr : Z -> bool -> option (bool * bool)) (t : BaseSetAssoc) (pkt : Packet)
  : res (option Z * list Writeback * BaseSetAssoc) :=
  '(victim, t) ← findVictim now random t (pkt_addr pkt);
  b ← aread (blks t) victim;
  if isValid b then
    match mshr (regenerateBlkAddr t b) (isSecure b) with
    | Some (needsWritable, isCleaning) =>
      assert! (negb (isWritable b) && needsWritable) || isCleaning ;;
      Ok (None, [], t)
    | None =>
      '(wb, t) ← evictBlock writebackClean t victim;
      t ← insertBlock now random maxMasters t pkt victim;
      Ok (Some victim, [wb], t)
    end
  else
    t ← insertBlock now random maxMasters t pkt victim;
    Ok (Some victim, [], t).

(** [blk->status |= BlkValid | BlkReadable], with which [handleFill] makes the
    new block valid. *)
Definition fill (t : BaseSetAssoc) (p : Z) : res BaseSetAssoc :=
  b ← aread (blks t) p;
  bs ← awrite (blks t) p (with_status b (Z.lor (status b) (Z.lor BlkValid BlkReadable)));
  Ok (with_blks t bs (tagsInUse t)).
End Tags.
Arguments BaseSetAssoc : clear implicits.

(** ** Moving blocks in a set *)

(** The loops of [CacheSet::moveToHead] and [moveToTail]: [std::swap] at [i]
    until the block swapped out is the one moved. *)
Fixpoint moveToHead_loop (fuel : nat) (assoc blk : Z) (bs : list Z) (i next : Z) : res (list Z) :=
  match fuel with
  | O => OutOfFuel
  | S fuel =>
    assert! i <? assoc ;;
    b ← aread bs i;
    bs ← awrite bs i next;
    if b =? blk then Ok bs else moveToHead_loop fuel assoc blk bs (i + 1) b
  end.
Definition moveToHead (s : CacheSet) (blk : Z) : res CacheSet :=
  b ← aread (cs_blks s) 0;
  if b =? blk then Ok s
  else
    bs ← moveToHead_loop (S (length (cs_blks s))) (cs_assoc s) blk (cs_blks s) 0 blk;
    Ok {| cs_assoc := cs_assoc s; cs_blks := bs |}.

Fixpoint moveToTail_loop (fuel : nat) (blk : Z) (bs : list Z) (i next : Z) : res (list Z) :=
  match fuel with
  | O => OutOfFuel
  | S fuel =>
    assert! 0 <=? i ;;
    b ← aread bs i;
    bs ← awrite bs i next;
    if b =? blk then Ok bs else moveToTail_loop fuel blk bs (i - 1) b
  end.
Definition moveToTail (s : CacheSet) (blk : Z) : res CacheSet :=
  b ← aread (cs_blks s) (cs_assoc s - 1);
  if b =? blk then Ok s
  else
    bs ← moveToTail_loop (S (length (cs_blks s))) blk (cs_blks s) (cs_assoc s - 1) blk;
    Ok {| cs_assoc := cs_assoc s; cs_blks := bs |}.

(** * Invariant *)

Section Facts.
Context {P D : Type} `{!ReplacementPolicy P D, !ReplacementPolicyLaws P D}.
Implicit Types (t : BaseSetAssoc P D) (b : CacheBlk D).

(** [2 ^ k] bytes in a block and [2 ^ m] sets. *)
Record geometry (k m : Z) t : Prop := {
  g_k : 2 <= k < 32;
  g_m : 0 <= m < 32;
  g_blkSize : blkSize t = 2 ^ k;
  g_numSets : numSets t = 2 ^ m;
  g_setShift : setShift t = k;
  g_tagShift : tagShift t = k + m;
  g_setMask : setMask t = 2 ^ m - 1;
  g_assoc : 0 < assoc t < 2 ^ 32;
  g_sets : forall i, 0 <= i < 2 ^ m ->
    sets t !! Z.to_nat i = Some {| cs_assoc := assoc t; cs_blks := seqZ (i * assoc t) (assoc t) |} }.

(** The block of way [j] of set [i]. *)
Definition blk_at t (i j : Z) : option (CacheBlk D) := blks t !! Z.to_nat (i * assoc t + j).

(** The policy agrees with the status about which blocks are valid. *)
Definition repl_ok (p : P) b : Prop :=
  if isValid b then rp_valid p (replacementData b) else rp_invalid p (replacementData b).

Record tags_inv (k m : Z) t : Prop := {
  ti_geom : geometry k m t;
  ti_policy : rp_ok (replacementPolicy t);
  ti_blk : forall i j, 0 <= i < 2 ^ m -> 0 <= j < assoc t ->
    exists b, blk_at t i j = Some b /\ set b = i /\ way b = j /\ repl_ok (replacementPolicy t) b;
  ti_tag : forall i j b, 0 <= i < 2 ^ m -> 0 <= j < assoc t -> blk_at t i j = Some b -> isValid b = true ->
    0 <= tag b < 2 ^ (64 - (k + m));
  ti_unique : forall i j1 j2 b1 b2, 0 <= i < 2 ^ m -> 0 <= j1 < assoc t -> 0 <= j2 < assoc t ->
    blk_at t i j1 = Some b1 -> blk_at t i j2 = Some b2 -> isValid b1 = true -> isValid b2 = true ->
    tag b1 = tag b2 -> isSecure b1 = isSecure b2 -> j1 = j2 }.

(** ** Addresses *)

Lemma extractSet_eq k m t addr :
  geometry k m t -> 0 <= addr < 2 ^ 64 -> extractSet t addr = (addr / 2 ^ k) mod 2 ^ m.
Proof.
  intros G Ha. pose proof (g_k _ _ _ G). pose proof (g_m _ _ _ G). unfold extractSet.
  rewrite (g_setShift _ _ _ G), (g_setMask _ _ _ G), Z.shiftr_div_pow2 by lia.
  replace (2 ^ m - 1) with (Z.ones m) by (rewrite Z.ones_equiv; lia). rewrite Z.land_ones by lia.
  apply wrap_s_id; [lia|]. pose proof (Z.mod_pos_bound (addr / 2 ^ k) (2 ^ m) (pow2_pos m ltac:(lia))).
  pose proof (Z.pow_le_mono_r 2 m 31 ltac:(lia) ltac:(lia)). change (2 ^ (32 - 1)) with (2 ^ 31). lia.
Qed.

Lemma extractSet_range k m t addr :
  geometry k m t -> 0 <= addr < 2 ^ 64 -> 0 <= extractSet t addr < 2 ^ m.
Proof.
  intros G Ha. rewrite (extractSet_eq k m) by done. apply Z.mod_pos_bound, pow2_pos. pose proof (g_m _ _ _ G). lia.
Qed.

Lemma extractTag_eq k m t addr : geometry k m t -> extractTag t addr = addr / 2 ^ (k + m).
Proof.
  intros G. pose proof (g_k _ _ _ G). pose proof (g_m _ _ _ G). unfold extractTag.
  by rewrite (g_tagShift _ _ _ G), Z.shiftr_div_pow2 by lia.
Qed.

Lemma extractTag_range k m t addr :
  geometry k m t -> 0 <= addr < 2 ^ 64 -> 0 <= extractTag t addr < 2 ^ (64 - (k + m)).
Proof.
  intros G Ha. pose proof (g_k _ _ _ G). pose proof (g_m _ _ _ G). rewrite (extractTag_eq k m) by done.
  split; [apply Z.div_pos; [lia|apply pow2_pos; lia]|]. apply Z.div_lt_upper_bound; [apply pow2_pos; lia|].
  rewrite <- Z.pow_add_r by lia. replace (k + m + (64 - (k + m))) with 64 by lia. lia.
Qed.

Lemma blkAlign_eq k m t addr :
  geometry k m t -> 0 <= addr < 2 ^ 64 -> blkAlign t addr = addr / 2 ^ k * 2 ^ k.
Proof.
  intros G Ha. pose proof (g_k _ _ _ G) as Hk. unfold blkAlign, blkMask. rewrite (g_blkSize _ _ _ G).
  pose proof (Z.pow_le_mono_r 2 k 31 ltac:(lia) ltac:(lia)). pose proof (pow2_pos k ltac:(lia)).
  rewrite (wrap_u_id 32 (2 ^ k - 1)) by lia. replace (2 ^ k - 1) with (Z.ones k) by (rewrite Z.ones_equiv; lia).
  rewrite <- Z.shiftr_div_pow2, <- Z.shiftl_mul_pow2 by lia. apply Z.bits_inj'. intros i Hi.
  unfold wrap_u. rewrite Z.land_spec, Z.shiftl_spec by lia.
  destruct (Z.ltb_spec i 64).
  - rewrite Z.mod_pow2_bits_low, Z.lnot_spec, testbit_ones by lia. destruct (Z.ltb_spec i k); cbn [negb].
    + rewrite andb_false_r, Z.testbit_neg_r by lia. done.
    + rewrite andb_true_r, Z.shiftr_spec by lia. f_equal. lia.
  - rewrite (testbit_above 64 addr), andb_false_l, Z.shiftr_spec by lia.
    replace (i - k + k) with i by lia. by rewrite (testbit_above 64 addr) by lia.
Qed.

(** The address of a block is that of its tag and set. *)
Lemma regenerate_eq k m t b :
  geometry k m t -> 0 <= tag b < 2 ^ (64 - (k + m)) -> 0 <= set b < 2 ^ m ->
  regenerateBlkAddr t b = tag b * 2 ^ (k + m) + set b * 2 ^ k.
Proof.
  intros G Ht Hs. pose proof (g_k _ _ _ G). pose proof (g_m _ _ _ G). unfold regenerateBlkAddr.
  rewrite (g_setShift _ _ _ G), (g_tagShift _ _ _ G), !Z.shiftl_mul_pow2 by lia.
  pose proof (pow2_pos (k + m) ltac:(lia)). pose proof (pow2_pos k ltac:(lia)). pose proof (pow2_pos m ltac:(lia)).
  assert (2 ^ (k + m) = 2 ^ m * 2 ^ k) as Ekm by (rewrite <- Z.pow_add_r by lia; f_equal; lia).
  assert (2 ^ (64 - (k + m)) * 2 ^ (k + m) = 2 ^ 64) as E64
    by (rewrite <- Z.pow_add_r by lia; f_equal; lia).
  pose proof (Z.pow_le_mono_r 2 (k + m) 63 ltac:(lia) ltac:(lia)).
  pose proof (Z.pow_le_mono_r 2 m 31 ltac:(lia) ltac:(lia)).
  rewrite (wrap_u_id 64 (tag b * _)), (wrap_u_id 64 (set b)) by nia. rewrite (wrap_u_id 64 (set b * _)) by nia.
  pose proof (Z.add_lor_land (tag b * 2 ^ (k + m)) (set b * 2 ^ k)) as Hor.
  assert (Z.land (tag b * 2 ^ (k + m)) (set b * 2 ^ k) = 0) as E0; [|lia].
  apply Z.bits_inj'. intros i Hi. rewrite Z.land_spec, Z.bits_0.
  destruct (Z.ltb_spec i (k + m)).
  - by rewrite Z.mul_pow2_bits_low by lia.
  - rewrite (testbit_above (k + m) (set b * 2 ^ k)), andb_false_r by (try nia; lia). done.
Qed.

Lemma regenerate_align k m t b addr :
  geometry k m t -> 0 <= addr < 2 ^ 64 -> tag b = extractTag t addr -> set b = extractSet t addr ->
  regenerateBlkAddr t b = blkAlign t addr.
Proof.
  intros G Ha Ht Hs. pose proof (g_k _ _ _ G). pose proof (g_m _ _ _ G).
  pose proof (extractSet_range k m t addr G Ha). pose proof (extractTag_range k m t addr G Ha).
  rewrite (regenerate_eq k m), (blkAlign_eq k m) by (congruence || done || lia).
  rewrite Ht, Hs, (extractTag_eq k m), (extractSet_eq k m) by done.
  rewrite Z.pow_add_r, <- Z.div_div by (try apply Z.pow_nonzero; try apply pow2_pos; lia).
  pose proof (Z.div_mod (addr / 2 ^ k) (2 ^ m) ltac:(apply Z.pow_nonzero; lia)). nia.
Qed.

(** Two addresses with equal tags and sets are in one block. *)
Lemma same_block k m t a1 a2 :
  geometry k m t -> 0 <= a1 < 2 ^ 64 -> 0 <= a2 < 2 ^ 64 ->
  (extractTag t a1 = extractTag t a2 /\ extractSet t a1 = extractSet t a2) <-> blkAlign t a1 = blkAlign t a2.
Proof.
  intros G H1 H2. pose proof (g_k _ _ _ G). pose proof (g_m _ _ _ G).
  rewrite !(extractTag_eq k m), !(extractSet_eq k m), !(blkAlign_eq k m) by done.
  rewrite Z.pow_add_r, <- !Z.div_div by (try apply Z.pow_nonzero; try apply pow2_pos; lia).
  pose proof (pow2_pos k ltac:(lia)). split.
  - intros [E1 E2]. f_equal.
    pose proof (Z.div_mod (a1 / 2 ^ k) (2 ^ m) ltac:(apply Z.pow_nonzero; lia)).
    pose proof (Z.div_mod (a2 / 2 ^ k) (2 ^ m) ltac:(apply Z.pow_nonzero; lia)). congruence.
  - intros E. assert (a1 / 2 ^ k = a2 / 2 ^ k) as -> by nia. done.
Qed.

(** ** Lookup *)

Lemma elem_of_set i a p : p ∈ seqZ (i * a) a <-> exists j, 0 <= j < a /\ p = i * a + j.
Proof.
  rewrite elem_of_seqZ. split; [|by intros (j & Hj & ->); lia]. intros H. exists (p - i * a). lia.
Qed.

Lemma aread_blk_at t i j b :
  0 <= i -> 0 <= j -> 0 < assoc t -> aread (blks t) (i * assoc t + j) = Ok b <-> blk_at t i j = Some b.
Proof.
  intros Hi Hj Ha. unfold blk_at. split; [by intros [_ H]%aread_inv|]. intros H. apply aread_Ok; [nia|done].
Qed.

(** Pointers of different sets or ways differ. *)
Lemma ptr_inj a i1 j1 i2 j2 : 0 <= j1 < a -> 0 <= j2 < a -> i1 * a + j1 = i2 * a + j2 -> i1 = i2 /\ j1 = j2.
Proof.
  intros H1 H2 E. assert (i1 = i2) as ->; [|lia].
  destruct (Z.lt_trichotomy i1 i2) as [H|[H|H]]; [exfalso; nia|done|exfalso; nia].
Qed.

Lemma findBlk_loop_spec (bs : list (CacheBlk D)) ptrs tg sec i :
  (forall p, p ∈ ptrs -> exists b, aread bs p = Ok b) ->
  exists o, findBlk_loop bs ptrs tg sec i = Ok o /\
    match o with
    | Some (p, _) => p ∈ ptrs /\ exists b, aread bs p = Ok b /\ blk_matches tg sec b = true
    | None => forall p b, p ∈ ptrs -> aread bs p = Ok b -> blk_matches tg sec b = false
    end.
Proof.
  revert i. induction ptrs as [|p ptrs IH]; intros i Hr; cbn [findBlk_loop].
  { exists None. split; [done|]. by intros p b ?%not_elem_of_nil. }
  destruct (Hr p) as [b Hb]; [apply elem_of_cons; by left|]. rewrite Hb. cbn [mbind res_bind].
  destruct (blk_matches tg sec b) eqn:E.
  - exists (Some (p, i)). split; [done|]. split; [apply elem_of_cons; by left|]. by exists b.
  - destruct (IH (i + 1)) as (o & -> & Ho); [intros q Hq; apply Hr, elem_of_cons; by right|].
    exists o. split; [done|]. destruct o as [[q w]|].
    + destruct Ho as [Hin Hx]. split; [apply elem_of_cons; by right|done].
    + intros q c [-> |Hq]%elem_of_cons Hc; [congruence|by eapply Ho].
Qed.

(** The block a lookup finds: way [j] of the address's set. *)
Definition holds t (addr : Z) (sec : bool) (p : Z) : Prop :=
  exists j b, 0 <= j < assoc t /\ p = extractSet t addr * assoc t + j /\
    blk_at t (extractSet t addr) j = Some b /\ blk_matches (extractTag t addr) sec b = true.

Lemma matches_blk tg sec b :
  blk_matches tg sec b = true <-> tag b = tg /\ isValid b = true /\ isSecure b = sec.
Proof. unfold blk_matches. rewrite !andb_true_iff, Z.eqb_eq, eqb_true_iff. tauto. Qed.

Lemma findBlock_spec k m t addr sec :
  tags_inv k m t -> 0 <= addr < 2 ^ 64 ->
  exists o, findBlock t addr sec = Ok o /\ forall p, o = Some p <-> holds t addr sec p.
Proof.
  intros I Ha. pose proof (ti_geom _ _ _ I) as G. pose proof (extractSet_range k m t addr G Ha) as Hs.
  pose proof (g_assoc _ _ _ G) as Has. unfold findBlock.
  rewrite (aread_Ok _ _ _ (proj1 Hs) (g_sets _ _ _ G _ Hs)). cbn [mbind res_bind].
  unfold findBlk. cbn [cs_assoc cs_blks].
  rewrite length_seqZ, (proj2 (Z.leb_le _ _)) by lia.
  rewrite take_ge by (rewrite length_seqZ; lia).
  set (i := extractSet t addr) in *.
  destruct (findBlk_loop_spec (blks t) (seqZ (i * assoc t) (assoc t)) (extractTag t addr) sec 0) as (o & -> & Ho).
  { intros p (j & Hj & ->)%elem_of_set. destruct (ti_blk _ _ _ I i j Hs Hj) as (b & Hb & _).
    exists b. by apply aread_blk_at; try lia. }
  cbn [mbind res_bind]. eexists. split; [done|]. intros p. destruct o as [[q w]|].
  - destruct Ho as [(j & Hj & ->)%elem_of_set (b & Hb & Hm)]. apply aread_blk_at in Hb; [|lia..]. split.
    + intros [= <-]. by exists j, b.
    + intros (j' & b' & Hj' & -> & Hb' & Hm'). fold i in Hb'. f_equal.
      apply matches_blk in Hm as (E1 & E2 & E3), Hm' as (E1' & E2' & E3').
      rewrite (ti_unique _ _ _ I i j j' b b' Hs Hj Hj' Hb Hb' E2 E2'); [done|congruence..].
  - split; [done|]. intros (j & b & Hj & -> & Hb & Hm). fold i in Hb.
    rewrite (Ho (i * assoc t + j) b) in Hm; [done|apply elem_of_set; by exists j|].
    by apply aread_blk_at; try lia.
Qed.

(** ** Replacing one block *)

Definition set_blk t (i j : Z) b (n : Z) : BaseSetAssoc P D :=
  with_blks t (<[Z.to_nat (i * assoc t + j) := b]> (blks t)) n.

Lemma blk_at_set_blk t i j b n i' j' :
  0 <= i -> 0 <= j < assoc t -> 0 <= i' -> 0 <= j' < assoc t -> is_Some (blk_at t i j) ->
  blk_at (set_blk t i j b n) i' j' = if decide (i' = i /\ j' = j) then Some b else blk_at t i' j'.
Proof.
  intros Hi Hj Hi' Hj' [x Hx]. unfold blk_at in *. cbn. case_decide as Hd.
  - destruct Hd as [-> ->]. apply list_lookup_insert_eq. by eapply lookup_lt_Some.
  - apply list_lookup_insert_ne. intros E. apply Hd.
    destruct (ptr_inj (assoc t) i j i' j') as [-> ->]; [lia..|nia|done].
Qed.

Lemma awrite_blk_at t i j b x :
  0 <= i -> 0 <= j -> 0 < assoc t -> blk_at t i j = Some x ->
  awrite (blks t) (i * assoc t + j) b = Ok (<[Z.to_nat (i * assoc t + j) := b]> (blks t)).
Proof. intros Hi Hj Ha Hx. apply awrite_Ok. apply lookup_lt_Some in Hx. nia. Qed.

Lemma geometry_with_blks k m t bs n : geometry k m t -> geometry k m (with_blks t bs n).
Proof. intros []. by split. Qed.

(** A block may be replaced by one of the same place on which the policy agrees
    and whose tag, if it is valid, no other valid block of the set has. *)
Lemma set_blk_inv k m t i j b n :
  tags_inv k m t -> 0 <= i < 2 ^ m -> 0 <= j < assoc t -> set b = i -> way b = j ->
  repl_ok (replacementPolicy t) b ->
  (isValid b = true -> 0 <= tag b < 2 ^ (64 - (k + m)) /\
     forall j' b', 0 <= j' < assoc t -> j' <> j -> blk_at t i j' = Some b' ->
       blk_matches (tag b) (isSecure b) b' = false) ->
  tags_inv k m (set_blk t i j b n).
Proof.
  intros I Hi Hj Hs Hw Hr Hv. pose proof (ti_geom _ _ _ I) as G.
  destruct (ti_blk _ _ _ I i j Hi Hj) as (b0 & Hb0 & _).
  assert (forall i' j', 0 <= i' -> 0 <= j' < assoc t ->
    blk_at (set_blk t i j b n) i' j' = if decide (i' = i /\ j' = j) then Some b else blk_at t i' j') as Hat
    by (intros; apply blk_at_set_blk; [lia..|by eexists]).
  split; cbn [set_blk with_blks assoc replacementPolicy] in *.
  - by apply geometry_with_blks.
  - apply (ti_policy _ _ _ I).
  - intros i' j' Hi' Hj'. rewrite Hat by lia. case_decide as Hd; [|by apply (ti_blk _ _ _ I)].
    destruct Hd as [-> ->]. by exists b.
  - intros i' j' b' Hi' Hj'. rewrite Hat by lia. case_decide as Hd; [|by apply (ti_tag _ _ _ I)].
    intros [= <-] Hvb. by apply Hv.
  - intros i' j1 j2 b1 b2 Hi' Hj1 Hj2. rewrite !Hat by lia.
    case_decide as D1; case_decide as D2; [by destruct D1 as [_ ->], D2 as [_ ->]| | |by apply (ti_unique _ _ _ I)].
    + destruct D1 as [-> ->]. intros [= <-] H2 V1 V2 E1 E2. exfalso.
      destruct (Hv V1) as [_ Hno]. specialize (Hno j2 b2 Hj2 ltac:(intros ->; tauto) H2).
      apply not_true_iff_false in Hno. apply Hno, matches_blk. auto.
    + destruct D2 as [-> ->]. intros H1 [= <-] V1 V2 E1 E2. exfalso.
      destruct (Hv V2) as [_ Hno]. specialize (Hno j1 b1 Hj1 ltac:(intros ->; tauto) H1).
      apply not_true_iff_false in Hno. apply Hno, matches_blk. auto.
Qed.

(** ** The victim *)

Lemma read_data_spec (bs : list (CacheBlk D)) ptrs :
  (forall p, p ∈ ptrs -> exists b, aread bs p = Ok b) ->
  exists ds, read_data bs ptrs = Ok ds /\ length ds = length ptrs /\
    forall n p b, ptrs !! n = Some p -> aread bs p = Ok b -> ds !! n = Some (replacementData b).
Proof.
  induction ptrs as [|p ptrs IH]; intros Hr; cbn [read_data].
  { exists []. by split_and!. }
  destruct (Hr p) as [b Hb]; [apply elem_of_cons; by left|]. rewrite Hb. cbn [mbind res_bind].
  destruct IH as (ds & -> & Hl & Hds); [intros q Hq; apply Hr, elem_of_cons; by right|]. cbn [mbind res_bind].
  exists (replacementData b :: ds). split; [done|]. split; [cbn; lia|].
  intros [|n] q c Hq Hc; cbn in Hq |- *; [congruence|by eapply Hds].
Qed.

Lemma write_data_spec (bs : list (CacheBlk D)) ptrs ds :
  NoDup ptrs -> length ds = length ptrs -> (forall p, p ∈ ptrs -> exists b, aread bs p = Ok b) ->
  exists bs', write_data bs ptrs ds = Ok bs' /\ length bs' = length bs /\
    (forall p, 0 <= p -> p ∉ ptrs -> bs' !! Z.to_nat p = bs !! Z.to_nat p) /\
    (forall n p d b, ptrs !! n = Some p -> ds !! n = Some d -> aread bs p = Ok b ->
       bs' !! Z.to_nat p = Some (with_repl b (refCount b) d)).
Proof.
  revert bs ds. induction ptrs as [|p ptrs IH]; intros bs [|d ds] Hnd Hl Hr; try done; cbn [write_data].
  { exists bs. by split_and!. }
  apply NoDup_cons in Hnd as [Hp Hnd]. destruct (Hr p) as [b Hb]; [apply elem_of_cons; by left|].
  rewrite Hb. cbn [mbind res_bind]. pose proof (aread_inv _ _ _ Hb) as [H0 Hlk].
  rewrite awrite_Ok by (apply lookup_lt_Some in Hlk; lia). cbn [mbind res_bind].
  set (bs1 := <[Z.to_nat p:=with_repl b (refCount b) d]> bs).
  assert (forall q, 0 <= q -> q <> p -> bs1 !! Z.to_nat q = bs !! Z.to_nat q) as Hne
    by (intros q Hq Hqp; apply list_lookup_insert_ne; lia).
  assert (forall q c, q ∈ ptrs -> aread bs1 q = Ok c <-> aread bs q = Ok c) as Hrd.
  { intros q c Hq. assert (q <> p) by (intros ->; done). unfold aread. destruct (0 <=? q) eqn:E; [|done].
    rewrite Hne by lia. done. }
  destruct (IH bs1 ds Hnd) as (bs' & -> & Hl' & Hout & Hin); [by injection Hl| |].
  { intros q Hq. destruct (Hr q) as [c Hc]; [apply elem_of_cons; by right|]. exists c. by apply Hrd. }
  exists bs'. split; [done|]. split; [by rewrite Hl'; apply length_insert|]. split.
  - intros q Hq Hn. rewrite elem_of_cons in Hn. rewrite Hout by tauto. apply Hne; [done|tauto].
  - intros [|n] q d' c Hq Hd Hc; cbn in Hq, Hd.
    + injection Hq as <-. injection Hd as <-. assert (c = b) as -> by congruence.
      rewrite Hout by done. apply list_lookup_insert_eq. by eapply lookup_lt_Some.
    + eapply Hin; [done|done|]. apply Hrd; [by eapply list_elem_of_lookup_2|done].
Qed.

(** Only the replacement data differ. *)
Definition same_blk b b' : Prop := b' = with_repl b (refCount b) (replacementData b').
Definition same_blks (k m : Z) t t' : Prop :=
  (exists bs, t' = with_blks t bs (tagsInUse t)) /\
  forall i j, 0 <= i < 2 ^ m -> 0 <= j < assoc t ->
    exists b b', blk_at t i j = Some b /\ blk_at t' i j = Some b' /\ same_blk b b'.

Lemma same_blk_matches tg sec b b' : same_blk b b' -> blk_matches tg sec b' = blk_matches tg sec b.
Proof. by intros ->. Qed.

Lemma same_blks_holds k m t t' addr sec p :
  same_blks k m t t' -> geometry k m t -> 0 <= addr < 2 ^ 64 -> holds t' addr sec p <-> holds t addr sec p.
Proof.
  intros [[bs ->] Hsame] G Ha. pose proof (extractSet_range k m t addr G Ha) as Hs. unfold holds.
  change (extractSet (with_blks t bs (tagsInUse t)) addr) with (extractSet t addr).
  change (extractTag (with_blks t bs (tagsInUse t)) addr) with (extractTag t addr). cbn [with_blks assoc]. split.
  - intros (j & b' & Hj & -> & Hb' & Hm). destruct (Hsame _ j Hs Hj) as (b & b'' & Hb & Hb'' & Hsb).
    exists j, b. do 3 (split; [done|]). rewrite <- Hm. symmetry. apply same_blk_matches. congruence.
  - intros (j & b & Hj & -> & Hb & Hm). destruct (Hsame _ j Hs Hj) as (b1 & b' & Hb1 & Hb' & Hsb).
    exists j, b'. do 3 (split; [done|]). rewrite <- Hm. apply same_blk_matches. congruence.
Qed.

Lemma same_blks_inv k m t t' :
  tags_inv k m t -> same_blks k m t t' ->
  (forall i j b, 0 <= i < 2 ^ m -> 0 <= j < assoc t -> blk_at t' i j = Some b -> repl_ok (replacementPolicy t) b) ->
  tags_inv k m t'.
Proof.
  intros I [[bs ->] Hsame] Hr.
  assert (forall i j b', 0 <= i < 2 ^ m -> 0 <= j < assoc t -> blk_at (with_blks t bs (tagsInUse t)) i j = Some b' ->
    exists b, blk_at t i j = Some b /\ same_blk b b') as Hback.
  { intros i j b' Hi Hj Hb'. destruct (Hsame i j Hi Hj) as (b & b1 & Hb & Hb1 & Hs). exists b. split; [done|congruence]. }
  split; cbn [with_blks assoc replacementPolicy] in *.
  - apply geometry_with_blks, (ti_geom _ _ _ I).
  - apply (ti_policy _ _ _ I).
  - intros i j Hi Hj. destruct (Hsame i j Hi Hj) as (b & b' & Hb & Hb' & Hs). exists b'.
    destruct (ti_blk _ _ _ I i j Hi Hj) as (b1 & Hb1 & E1 & E2 & _). assert (b1 = b) as -> by congruence.
    split; [done|]. split; [by rewrite Hs|]. split; [by rewrite Hs|by eapply Hr].
  - intros i j b' Hi Hj Hb'. destruct (Hback i j b' Hi Hj Hb') as (b & Hb & ->). by apply (ti_tag _ _ _ I i j b).
  - intros i j1 j2 b1' b2' Hi Hj1 Hj2 H1 H2. destruct (Hback i j1 b1' Hi Hj1 H1) as (b1 & Hb1 & ->).
    destruct (Hback i j2 b2' Hi Hj2 H2) as (b2 & Hb2 & ->). by apply (ti_unique _ _ _ I i j1 j2 b1 b2).
Qed.

Lemma set_ptr_lookup i a j : 0 <= j < a -> seqZ (i * a) a !! Z.to_nat j = Some (i * a + j).
Proof. intros Hj. apply lookup_seqZ. lia. Qed.

Definition random_ok (random : Z -> Z -> Z) : Prop := forall lo hi, lo <= hi -> lo <= random lo hi <= hi.

(** The victim is a way of the address's set, and an empty one if there is one. *)
Lemma findVictim_spec k m now random t addr :
  tags_inv k m t -> 0 <= addr < 2 ^ 64 -> 0 < now -> random_ok random ->
  exists j t', findVictim now random t addr = Ok (extractSet t addr * assoc t + j, t') /\
    0 <= j < assoc t /\ tags_inv k m t' /\ same_blks k m t t' /\
    ((exists j' b', 0 <= j' < assoc t /\ blk_at t (extractSet t addr) j' = Some b' /\ isValid b' = false) ->
     exists b, blk_at t (extractSet t addr) j = Some b /\ isValid b = false).
Proof.
  intros I Ha Hn Hrnd. pose proof (ti_geom _ _ _ I) as G. pose proof (extractSet_range k m t addr G Ha) as Hs.
  pose proof (g_assoc _ _ _ G) as Has. set (i := extractSet t addr) in *.
  unfold findVictim, getPossibleLocations. fold i.
  rewrite (aread_Ok _ _ _ (proj1 Hs) (g_sets _ _ _ G _ Hs)). cbn [mbind res_bind cs_blks].
  assert (forall p, p ∈ seqZ (i * assoc t) (assoc t) -> exists b, aread (blks t) p = Ok b) as Hrd.
  { intros p (j & Hj & ->)%elem_of_set. destruct (ti_blk _ _ _ I i j Hs Hj) as (b & Hb & _).
    exists b. by apply aread_blk_at; try lia. }
  destruct (read_data_spec _ _ Hrd) as (ds & -> & Hlen & Hds). cbn [mbind res_bind]. rewrite length_seqZ in Hlen.
  assert (forall j b, 0 <= j < assoc t -> blk_at t i j = Some b -> ds !! Z.to_nat j = Some (replacementData b)) as Hdj.
  { intros j b Hj Hb. eapply Hds; [by apply set_ptr_lookup|]. by apply aread_blk_at; try lia. }
  assert (forall n d, ds !! n = Some d -> exists b, blk_at t i (Z.of_nat n) = Some b /\ d = replacementData b /\
            repl_ok (replacementPolicy t) b /\ 0 <= Z.of_nat n < assoc t) as Hback.
  { intros n d Hd. assert (0 <= Z.of_nat n < assoc t) as Hr by (apply lookup_lt_Some in Hd; lia).
    destruct (ti_blk _ _ _ I i (Z.of_nat n) Hs Hr) as (b & Hb & _ & _ & Hok). exists b. split; [done|].
    pose proof (Hdj _ _ Hr Hb) as Hd'. rewrite Nat2Z.id in Hd'. split; [congruence|done]. }
  destruct (law_victim (replacementPolicy t) now random ds (ti_policy _ _ _ I) Hn) as (v & ds' & -> & Hv & Hl' & Hpres & Hinv);
    [intros ->; cbn in Hlen; lia|done| |].
  { apply Forall_lookup. intros n d Hd. destruct (Hback n d Hd) as (b & _ & -> & Hok & _).
    unfold repl_ok in Hok. destruct (isValid b); auto. }
  cbn [mbind res_bind].
  destruct (write_data_spec (blks t) (seqZ (i * assoc t) (assoc t)) ds') as (bs' & -> & Hbl & Hout & Hin);
    [apply NoDup_seqZ|rewrite length_seqZ; lia|done|].
  cbn [mbind res_bind]. rewrite (aread_Ok _ _ (i * assoc t + Z.of_nat v)).
  2: { lia. }
  2: { apply set_ptr_lookup. lia. }
  cbn [mbind res_bind]. exists (Z.of_nat v), (with_blks t bs' (tagsInUse t)). split; [done|].
  split; [lia|]. set (t' := with_blks t bs' (tagsInUse t)).
  assert (forall i' j b, 0 <= i' < 2 ^ m -> 0 <= j < assoc t -> blk_at t i' j = Some b ->
    exists d', blk_at t' i' j = Some (with_repl b (refCount b) d') /\
      (i' <> i /\ d' = replacementData b \/ i' = i /\ ds' !! Z.to_nat j = Some d')) as Hat.
  { intros i' j b Hi' Hj Hb. unfold blk_at, t' in *. cbn [with_blks blks assoc] in *.
    destruct (decide (i' = i)) as [->|Hne].
    - destruct (lookup_lt_is_Some_2 ds' (Z.to_nat j)) as [d' Hd']; [lia|]. exists d'. split; [|by right].
      eapply Hin; [by apply set_ptr_lookup|done|]. by apply aread_blk_at; try lia.
    - exists (replacementData b). split; [|by left]. rewrite Hout.
      + rewrite Hb. by destruct b.
      + nia.
      + rewrite elem_of_set. intros (j' & Hj' & E). destruct (ptr_inj (assoc t) i' j i j'); done. }
  assert (same_blks k m t t') as Hsame.
  { split; [by exists bs'|]. intros i' j Hi' Hj. destruct (ti_blk _ _ _ I i' j Hi' Hj) as (b & Hb & _).
    destruct (Hat i' j b Hi' Hj Hb) as (d' & Hb' & _). exists b, (with_repl b (refCount b) d').
    split; [done|]. split; [done|]. by destruct b. }
  split; [|split; [done|]].
  - apply (same_blks_inv k m t t' I Hsame). intros i' j b' Hi' Hj Hb'.
    destruct (ti_blk _ _ _ I i' j Hi' Hj) as (b & Hb & _ & _ & Hok).
    destruct (Hat i' j b Hi' Hj Hb) as (d' & Hb1 & Hd'). assert (b' = with_repl b (refCount b) d') as -> by congruence.
    unfold repl_ok in *. change (isValid (with_repl b (refCount b) d')) with (isValid b).
    cbn [with_repl replacementData]. destruct Hd' as [[_ ->]|[-> Hd']]; [done|].
    destruct (Hpres (Z.to_nat j) (replacementData b) d' (Hdj j b Hj Hb) Hd'). destruct (isValid b); auto.
  - intros (j' & b' & Hj' & Hb' & Hnv). destruct Hinv as (d & Hd & Hdi).
    + apply Exists_exists. exists (replacementData b').
      split; [eapply list_elem_of_lookup_2; by apply Hdj|].
      destruct (ti_blk _ _ _ I i j' Hs Hj') as (b1 & Hb1 & _ & _ & Hok). assert (b1 = b') as -> by congruence.
      unfold repl_ok in Hok. by rewrite Hnv in Hok.
    + destruct (Hback v d Hd) as (b & Hb & -> & Hok & _). exists b. split; [done|]. unfold repl_ok in Hok.
      destruct (isValid b); [|done]. exfalso. by eapply law_exclusive.
Qed.

(** ** Evicting and inserting *)

Lemma set_blk_set_blk t i j b n b' n' : set_blk (set_blk t i j b n) i j b' n' = set_blk t i j b' n'.
Proof. unfold set_blk, with_blks. cbn. by rewrite list_insert_insert_eq. Qed.

Lemma blk_at_set_same t i j b n :
  is_Some (blk_at t i j) -> blk_at (set_blk t i j b n) i j = Some b.
Proof. intros [x Hx]. unfold blk_at in *. cbn. apply list_lookup_insert_eq. by eapply lookup_lt_Some. Qed.

Section One.
Context (t : BaseSetAssoc P D) (i j : Z).
Hypothesis (Hi : 0 <= i) (Hj : 0 <= j) (Ha : 0 < assoc t).

(** Reading and writing the block after other writes to it. *)
Lemma read_one b p : blk_at t i j = Some b -> p = i * assoc t + j -> aread (blks t) p = Ok b.
Proof. intros ? ->. by apply aread_blk_at. Qed.

Lemma write_one b x p : blk_at t i j = Some x -> p = i * assoc t + j ->
  awrite (blks t) p b = Ok (blks (set_blk t i j b 0)).
Proof. intros ? ->. by apply (awrite_blk_at t i j b x). Qed.

Lemma valid_after_writeback b s :
  s = status b \/ s = Z.land (status b) (u32 (Z.lnot BlkWritable)) ->
  isValid (with_status b (Z.land s (u32 (Z.lnot BlkDirty)))) = isValid b.
Proof.
  intros Hs. unfold isValid. cbn [with_status status].
  assert (Z.land (Z.land s (u32 (Z.lnot BlkDirty))) BlkValid = Z.land (status b) BlkValid) as ->; [|done].
  rewrite <- Z.land_assoc. change (Z.land (u32 (Z.lnot BlkDirty)) BlkValid) with 1.
  destruct Hs as [->| ->]; [done|]. rewrite <- Z.land_assoc.
  by change (Z.land (u32 (Z.lnot BlkWritable)) 1) with 1.
Qed.

Lemma invalidateBlock_spec b :
  blk_at t i j = Some b -> isValid b = true ->
  exists b1, invalidateBlock t (i * assoc t + j) = Ok (set_blk t i j b1 (tagsInUse t - 1)) /\
    isValid b1 = false /\ set b1 = set b /\ way b1 = way b /\ lockList b1 = [].
Proof.
  intros Hb Hv. unfold invalidateBlock, invalidate. rewrite (read_one b _ Hb eq_refl). cbn [mbind res_bind]. rewrite Hv.
  rewrite (write_one _ b _ Hb eq_refl). cbn [mbind res_bind with_blks blks set_blk].
  assert (Z.to_nat (i * assoc t + j) < length (blks t))%nat as Hlt by (by eapply lookup_lt_Some).
  assert (0 <= i * assoc t + j) as H0 by nia.
  rewrite (aread_Ok _ _ _ H0 (list_lookup_insert_eq _ _ _ Hlt)). cbn [mbind res_bind].
  rewrite awrite_Ok by (rewrite length_insert; lia). cbn [mbind res_bind]. rewrite list_insert_insert_eq.
  eexists. split; [done|]. by split_and!.
Qed.
End One.

Lemma evictBlock_spec wc t i j b :
  0 <= i -> 0 <= j -> 0 < assoc t -> blk_at t i j = Some b -> isValid b = true ->
  exists wb b1, evictBlock wc t (i * assoc t + j) = Ok (wb, set_blk t i j b1 (tagsInUse t - 1)) /\
    wb_addr wb = regenerateBlkAddr t b /\ wb_secure wb = isSecure b /\
    wb_cmd wb = (if isDirty b then WritebackDirty else if wc then WritebackClean else CleanEvict) /\
    isValid b1 = false /\ set b1 = set b /\ way b1 = way b /\ lockList b1 = [].
Proof.
  intros Hi Hj Ha Hb Hv. unfold evictBlock. rewrite (read_one t i j Hi Hj Ha b _ Hb eq_refl). cbn [mbind res_bind].
  destruct (isDirty b || wc) eqn:Edw.
  - unfold writebackBlk. rewrite (read_one t i j Hi Hj Ha b _ Hb eq_refl). cbn [mbind res_bind]. rewrite Hv, Edw. cbn [andb].
    set (s := if isWritable b then _ else _). rewrite (write_one t i j Hi Hj Ha _ b _ Hb eq_refl). cbn [mbind res_bind].
    set (b0 := with_status b (Z.land s (u32 (Z.lnot BlkDirty)))).
    assert (isValid b0 = true) as Hv0.
    { unfold b0. rewrite (valid_after_writeback b s); [done|]. unfold s. destruct (isWritable b); auto. }
    change (with_blks t (blks (set_blk t i j b0 0)) (tagsInUse t)) with (set_blk t i j b0 (tagsInUse t)).
    destruct (invalidateBlock_spec (set_blk t i j b0 (tagsInUse t)) i j Hi Hj Ha b0) as (b1 & Hb1 & Hr);
      [by apply blk_at_set_same; eexists|done|].
    cbn [set_blk with_blks assoc] in Hb1. cbn [set_blk with_blks]. rewrite Hb1. cbn [mbind res_bind].
    change (set_blk (set_blk t i j b0 (tagsInUse t)) i j b1 (tagsInUse (set_blk t i j b0 (tagsInUse t)) - 1))
      with (set_blk (set_blk t i j b0 (tagsInUse t)) i j b1 (tagsInUse t - 1)). rewrite set_blk_set_blk.
    eexists _, b1. split; [done|]. cbn [wb_addr wb_secure wb_cmd]. split; [done|]. split; [done|].
    split; [|done]. destruct (isDirty b); [done|]. cbn in Edw. by rewrite Edw.
  - apply orb_false_iff in Edw as [Ed ->]. unfold cleanEvictBlk. rewrite (read_one t i j Hi Hj Ha b _ Hb eq_refl).
    cbn [mbind res_bind negb]. rewrite Hv, Ed. cbn [mbind res_bind negb andb].
    destruct (invalidateBlock_spec t i j Hi Hj Ha b Hb Hv) as (b1 & -> & ? & ? & ? & ?). cbn [mbind res_bind].
    eexists _, b1. split; [done|]. by split_and!.
Qed.

Lemma insert_fill_spec k m now random maxMasters t i j b pkt :
  tags_inv k m t -> 0 <= i < 2 ^ m -> 0 <= j < assoc t -> 0 < now ->
  forall t0 n, t0 = set_blk t i j b n -> isValid b = false -> pkt_masterId pkt < maxMasters ->
  exists t1 bf, insertBlock now random maxMasters t0 pkt (i * assoc t + j) = Ok t1 /\
    fill t1 (i * assoc t + j) = Ok (set_blk t i j bf (n + 1)) /\
    tag bf = extractTag t (pkt_addr pkt) /\ isValid bf = true /\ isSecure bf = pkt_secure pkt /\
    set bf = set b /\ way bf = way b /\ rp_valid (replacementPolicy t) (replacementData bf).
Proof.
  intros I Hi Hj Hn t0 n -> Hv Hm. destruct (ti_blk _ _ _ I i j Hi Hj) as (x & Hx & _).
  assert (0 < assoc t) as Ha by lia. pose proof (proj1 Hi) as Hi0. pose proof (proj1 Hj) as Hj0.
  assert (is_Some (blk_at t i j)) as Hsome by (by eexists).
  unfold insertBlock.
  rewrite (read_one (set_blk t i j b n) i j Hi0 Hj0 Ha b (i * assoc t + j) (blk_at_set_same t i j b n Hsome) eq_refl). cbn [mbind res_bind].
  rewrite Hv. cbn [negb]. rewrite (proj2 (Z.ltb_lt _ _)) by done.
  rewrite (write_one (set_blk t i j b n) i j Hi0 Hj0 Ha _ b (i * assoc t + j) (blk_at_set_same t i j b n Hsome) eq_refl). cbn [mbind res_bind].
  rewrite set_blk_set_blk.
  change (extractTag (set_blk t i j b n) (pkt_addr pkt)) with (extractTag t (pkt_addr pkt)).
  match goal with |- context [blks (set_blk t i j ?x 0)] => set (b1 := x) end.
  exists (set_blk t i j b1 (n + 1)). eexists. split; [reflexivity|].
  unfold fill. rewrite (read_one (set_blk t i j b1 (n + 1)) i j Hi0 Hj0 Ha b1 (i * assoc t + j) (blk_at_set_same t i j b1 _ Hsome) eq_refl).
  cbn [mbind res_bind].
  rewrite (write_one (set_blk t i j b1 (n + 1)) i j Hi0 Hj0 Ha _ b1 (i * assoc t + j) (blk_at_set_same t i j b1 _ Hsome) eq_refl).
  cbn [mbind res_bind]. rewrite set_blk_set_blk.
  split; [reflexivity|].
  split; [done|]. split; [|split; [|split; [done|split; [done|]]]].
  - unfold isValid, b1. cbn. by destruct (pkt_secure pkt).
  - unfold isSecure, b1. cbn. by destruct (pkt_secure pkt).
  - cbn. apply law_reset; [apply (ti_policy _ _ _ I)|done].
Qed.

(** What lookups find after a block is replaced. *)
Lemma holds_set_blk k m t i j bf n addr sec q :
  tags_inv k m t -> 0 <= i < 2 ^ m -> 0 <= j < assoc t -> 0 <= addr < 2 ^ 64 ->
  holds (set_blk t i j bf n) addr sec q <->
    (q = i * assoc t + j /\ extractSet t addr = i /\ blk_matches (extractTag t addr) sec bf = true) \/
    (holds t addr sec q /\ q <> i * assoc t + j).
Proof.
  intros I Hi Hj Haddr. pose proof (extractSet_range k m t addr (ti_geom _ _ _ I) Haddr) as Hs.
  destruct (ti_blk _ _ _ I i j Hi Hj) as (x & Hx & _). unfold holds.
  change (extractSet (set_blk t i j bf n) addr) with (extractSet t addr).
  change (extractTag (set_blk t i j bf n) addr) with (extractTag t addr). cbn [set_blk with_blks assoc]. split.
  - intros (j' & b & Hj' & -> & Hb & Hmt). fold (set_blk t i j bf n) in Hb.
    rewrite blk_at_set_blk in Hb by (lia || by eexists). case_decide as Hd.
    + destruct Hd as [-> ->]. injection Hb as <-. by left.
    + right. split; [by exists j', b|]. intros E. apply Hd.
      exact (ptr_inj (assoc t) (extractSet t addr) j' i j Hj' Hj E).
  - intros [(-> & <- & Hmt)|[(j' & b & Hj' & -> & Hb & Hmt) Hne]].
    + exists j, bf. split; [done|]. split; [done|]. split; [|done]. fold (set_blk t (extractSet t addr) j bf n).
      apply blk_at_set_same. by eexists.
    + exists j', b. split; [done|]. split; [done|]. split; [|done]. fold (set_blk t i j bf n).
      rewrite blk_at_set_blk by (lia || by eexists). rewrite decide_False; [done|].
      intros [E1 E2]. apply Hne. by rewrite E1, E2.
Qed.
End Facts.

(** ** Construction *)

Section New.
Context {P D : Type} `{!ReplacementPolicy P D, !ReplacementPolicyLaws P D}.

Lemma seqZ_snoc i n : 0 <= n -> seqZ i (n + 1) = seqZ i n ++ [i + n].
Proof.
  intros Hn. rewrite seqZ_app by lia. f_equal.
Qed.

(** The blocks after the first [n] are linked. *)
Definition linked (policy : P) (a n : Z) (bs : list (CacheBlk D)) : Prop :=
  forall p, 0 <= p < Z.of_nat (length bs) -> exists b, bs !! Z.to_nat p = Some b /\ isValid b = false /\
    (p < n -> set b = p / a /\ way b = p mod a /\ replacementData b = rp_instantiateEntry policy).

Lemma link_step policy a i j (bs : list (CacheBlk D)) :
  0 <= i -> 0 <= j < a -> i * a + j < Z.of_nat (length bs) -> linked policy a (i * a + j) bs ->
  exists b, aread bs (i * a + j) = Ok b /\
    awrite bs (i * a + j) (link_blk policy i j b) = Ok (<[Z.to_nat (i * a + j) := link_blk policy i j b]> bs) /\
    linked policy a (i * a + (j + 1)) (<[Z.to_nat (i * a + j) := link_blk policy i j b]> bs).
Proof.
  intros Hi Hj Hlt Hl. assert (0 <= i * a + j) as H0 by nia.
  destruct (Hl (i * a + j)) as (b & Hb & Hv & _); [lia|]. exists b. split; [by apply aread_Ok|].
  split; [apply awrite_Ok; lia|]. intros p Hp. rewrite length_insert in Hp.
  destruct (decide (p = i * a + j)) as [->|Hne].
  - exists (link_blk policy i j b). split; [apply list_lookup_insert_eq; lia|]. split; [done|]. intros _.
    assert ((i * a + j) / a = i) as -> by (rewrite Z.div_add_l, Z.div_small by lia; lia).
    assert ((i * a + j) mod a = j) as -> by (rewrite Z.add_comm, Z.mod_add, Z.mod_small by lia; done).
    done.
  - rewrite list_lookup_insert_ne by lia. destruct (Hl p Hp) as (c & Hc & Hvc & Hpc). exists c.
    split; [done|]. split; [done|]. intros. apply Hpc. lia.
Qed.

(** The first [n] blocks have their data, each a chunk of its own. *)
Definition chunked (sz n : Z) (ds : list (option Z)) : Prop :=
  forall p, 0 <= p < n -> ds !! Z.to_nat p = Some (Some (sz * p)).

Lemma chunk_step sz n (ds : list (option Z)) :
  0 <= n < Z.of_nat (length ds) -> 0 < sz -> sz * n < 2 ^ 32 -> chunked sz n ds ->
  awrite ds n (Some (u32 (sz * n))) = Ok (<[Z.to_nat n := Some (sz * n)]> ds) /\
  chunked sz (n + 1) (<[Z.to_nat n := Some (sz * n)]> ds).
Proof.
  intros Hn Hsz H32 Hc. rewrite wrap_u_id by nia. split; [apply awrite_Ok; lia|]. intros p Hp.
  destruct (decide (p = n)) as [->|]; [apply list_lookup_insert_eq; lia|]. rewrite list_lookup_insert_ne by lia. apply Hc. lia.
Qed.

(** The state of the linking loops before way [j] of set [i].  The byte offset of
    the last block is within an [unsigned], so neither it nor the index wraps. *)
Lemma link_loops policy sz a n (raw : CacheBlk D) N :
  1 < sz -> 0 < a -> 0 <= n -> n * a <= N -> sz * N <= 2 ^ 32 ->
  exists bs ds idx, for_range 0 n (fun i '(sets, blks, dataOf, blkIndex) =>
      '(ptrs, blks, dataOf, blkIndex) ← for_range 0 a (fun j '(ptrs, blks, dataOf, blkIndex) =>
          b ← aread blks blkIndex;
          blks ← awrite blks blkIndex (link_blk policy i j b);
          dataOf ← awrite dataOf blkIndex (Some (u32 (sz * blkIndex)));
          Ok (ptrs ++ [blkIndex], blks, dataOf, u32 (blkIndex + 1))) ([], blks, dataOf, blkIndex);
      Ok (sets ++ [{| cs_assoc := a; cs_blks := ptrs |}], blks, dataOf, blkIndex))
    ([], replicate (Z.to_nat N) (blk_invalidate raw), replicate (Z.to_nat N) None, 0) =
    Ok ((fun i => {| cs_assoc := a; cs_blks := seqZ (i * a) a |}) <$> seqZ 0 n, bs, ds, idx) /\
    length bs = Z.to_nat N /\ linked policy a (n * a) bs /\ chunked sz (n * a) ds.
Proof.
  intros Hsz Ha Hn HN H32.
  set (body := fun i '(sets, blks, dataOf, blkIndex) => _).
  destruct (for_range_ok (fun i '(sets, bs, ds, idx) =>
      sets = (fun i => {| cs_assoc := a; cs_blks := seqZ (i * a) a |}) <$> seqZ 0 i /\
      idx = i * a /\ (length bs = Z.to_nat N /\ length ds = Z.to_nat N) /\ linked policy a (i * a) bs /\ chunked sz (i * a) ds)
    body 0 n ([], replicate (Z.to_nat N) (blk_invalidate raw), replicate (Z.to_nat N) None, 0))
    as ([[[sets bs] ds] idx] & -> & -> & _ & [Hl _] & Hk & Hc); [done| | |].
  { rewrite !length_replicate. split_and!; try done; [|intros p Hp; lia]. intros p Hp. rewrite length_replicate in Hp.
    exists (blk_invalidate raw). split; [apply lookup_replicate_2; lia|]. split; [done|]. lia. }
  - intros i [[[sets bs] ds] idx] Hi (-> & -> & [Hl Hd] & Hk & Hc). unfold body.
    destruct (for_range_ok (fun j '(ptrs, bs, ds, idx) =>
        ptrs = seqZ (i * a) j /\ idx = i * a + j /\ (length bs = Z.to_nat N /\ length ds = Z.to_nat N) /\
        linked policy a (i * a + j) bs /\ chunked sz (i * a + j) ds)
      (fun j '(ptrs, blks, dataOf, blkIndex) =>
          b ← aread blks blkIndex;
          blks ← awrite blks blkIndex (link_blk policy i j b);
          dataOf ← awrite dataOf blkIndex (Some (u32 (sz * blkIndex)));
          Ok (ptrs ++ [blkIndex], blks, dataOf, u32 (blkIndex + 1))) 0 a ([], bs, ds, i * a))
      as ([[[ptrs bs'] ds'] idx'] & -> & -> & -> & Hl' & Hk' & Hc'); [lia| | |].
    + rewrite Z.add_0_r. by split_and!.
    + intros j [[[ptrs bs'] ds'] idx'] Hj (-> & -> & [Hl' Hd'] & Hk' & Hc').
      assert (0 <= i * a + j < N) as Hp by nia.
      destruct (link_step policy a i j bs') as (b & Hb & Hw & Hk2); [lia|lia|lia|done|].
      destruct (chunk_step sz (i * a + j) ds') as [Hw2 Hc2]; [lia|lia|nia|done|].
      rewrite Hb. cbn [mbind res_bind]. rewrite Hw. cbn [mbind res_bind]. rewrite Hw2. cbn [mbind res_bind].
      eexists. split; [done|]. rewrite wrap_u_id by nia.
      split; [by rewrite seqZ_snoc by lia|]. split; [lia|]. split; [by rewrite !length_insert|].
      split; [done|]. by rewrite Z.add_assoc.
    + cbn [mbind res_bind]. eexists. split; [done|].
      split; [by rewrite seqZ_snoc, fmap_app by lia|]. split; [lia|]. split; [done|].
      by replace ((i + 1) * a) with (i * a + a) by lia.
  - by exists bs, ds, idx.
Qed.
End New.

Section Construct.
Context {P D : Type} `{!ReplacementPolicy P D, !ReplacementPolicyLaws P D}.

Lemma isPowerOf2_pow2 n : 0 <= n < 64 -> isPowerOf2 (2 ^ n) = true.
Proof.
  intros Hn. apply isPowerOf2_spec; [|by exists n].
  split; [apply Z.pow_nonneg; lia|apply Z.pow_lt_mono_r; lia].
Qed.

Lemma floorLog2_pow2 n : 0 <= n < 32 -> floorLog2_32 (2 ^ n) = Ok n.
Proof.
  intros Hn. rewrite floorLog2_32_spec, Z.log2_pow2 by lia || (split; [apply pow2_pos; lia|apply Z.pow_lt_mono_r; lia]).
  done.
Qed.

(** The constructor with power-of-two parameters, down to its loops. *)
Lemma new_unfold k m a tl dl sequential (policy : P) (raw : CacheBlk D) :
  2 <= k < 31 -> 0 <= m < 32 -> 0 < a -> 2 ^ k * a < 2 ^ 31 -> 2 ^ k * a * 2 ^ m <= 2 ^ 32 ->
  exists bs t, linked policy a (2 ^ m * a) bs /\ length bs = Z.to_nat (2 ^ m * a) /\
    BaseSetAssoc_new (2 ^ k * a * 2 ^ m) (2 ^ k) a tl dl sequential policy raw = Ok t /\
    geometry k m t /\ assoc t = a /\ blks t = bs /\ replacementPolicy t = policy /\ chunked (2 ^ k) (2 ^ m * a) (dataOf t).
Proof.
  intros Hk Hm Ha Hway Hsz. pose proof (pow2_pos k ltac:(lia)). pose proof (pow2_pos m ltac:(lia)).
  pose proof (Z.pow_le_mono_r 2 k 30 ltac:(lia) ltac:(lia)). pose proof (Z.pow_le_mono_r 2 m 31 ltac:(lia) ltac:(lia)).
  pose proof (Z.pow_le_mono_r 2 2 k ltac:(lia) ltac:(lia)). assert (a < 2 ^ 31) by nia.
  unfold BaseSetAssoc_new. rewrite (proj2 (Z.eqb_neq (2 ^ k) 0)) by lia. cbn [negb].
  rewrite int_ok_in by lia. cbn [mbind res_bind].
  rewrite (proj2 (Z.eqb_neq (2 ^ k * a) 0)) by lia. cbn [negb].
  rewrite (wrap_u_id 64 (2 ^ k * a)), (wrap_u_id 64 (2 ^ k)), (wrap_u_id 32 (2 ^ k)), (wrap_u_id 32 a) by lia.
  replace (2 ^ k * a * 2 ^ m / (2 ^ k * a)) with (2 ^ m)
    by (rewrite Z.mul_comm, Z.div_mul by lia; done).
  replace (2 ^ k * a * 2 ^ m / 2 ^ k) with (2 ^ m * a)
    by (replace (2 ^ k * a * 2 ^ m) with (2 ^ m * a * 2 ^ k) by lia; rewrite Z.div_mul by lia; done).
  rewrite (wrap_u_id 32 (2 ^ m)) by lia.
  rewrite (proj2 (Z.ltb_ge (2 ^ k) 4)) by (change 4 with (2 ^ 2); lia).
  rewrite !isPowerOf2_pow2 by lia. cbn [negb orb]. rewrite (proj2 (Z.leb_gt a 0)) by lia. cbn [negb].
  rewrite !floorLog2_pow2 by lia. cbn [mbind res_bind].
  destruct (link_loops policy (2 ^ k) a (2 ^ m) raw (2 ^ m * a)) as (bs & ds & idx & E & Hl & Hlk & Hc); [lia..|].
  cbn [mbind res_bind] in E. rewrite E. cbn [mbind res_bind]. exists bs. eexists. split; [done|]. split; [done|].
  split; [done|]. split; [|done].
  split; cbn; try done; try lia.
  - apply wrap_u_id. lia.
  - intros i Hi. rewrite list_lookup_fmap. replace (seqZ 0 (2 ^ m) !! Z.to_nat i) with (Some i); [done|].
    symmetry. apply lookup_seqZ. lia.
Qed.

(** The constructor's result. *)
Lemma new_inv k m a tl dl sequential (policy : P) (raw : CacheBlk D) :
  2 <= k < 31 -> 0 <= m < 32 -> 0 < a -> 2 ^ k * a < 2 ^ 31 -> 2 ^ k * a * 2 ^ m <= 2 ^ 32 -> rp_ok policy ->
  exists t, BaseSetAssoc_new (2 ^ k * a * 2 ^ m) (2 ^ k) a tl dl sequential policy raw = Ok t /\
    tags_inv k m t /\ assoc t = a /\ chunked (2 ^ k) (2 ^ m * a) (dataOf t) /\
    (forall addr sec, 0 <= addr < 2 ^ 64 -> findBlock t addr sec = Ok None).
Proof.
  intros Hk Hm Ha Hway Hsz Hp.
  destruct (new_unfold k m a tl dl sequential policy raw) as (bs & t & Hlk & Hl & E & G & Eas & Eb & Ep & Hc); [done..|].
  pose proof (pow2_pos m ltac:(lia)).
  assert (forall i j, 0 <= i < 2 ^ m -> 0 <= j < a -> exists b, blk_at t i j = Some b /\ isValid b = false /\
    set b = i /\ way b = j /\ replacementData b = rp_instantiateEntry policy) as Hat.
  { intros i j Hi Hj. unfold blk_at. rewrite Eb, Eas.
    assert (0 <= i * a + j < 2 ^ m * a) as Hr by nia.
    destruct (Hlk (i * a + j)) as (b & Hb & Hv & Hrest); [lia|]. exists b. split; [done|]. split; [done|].
    destruct Hrest as (E1 & E2 & E3); [lia|]. rewrite Z.div_add_l, Z.div_small in E1 by lia.
    rewrite Z.add_comm, Z.mod_add, Z.mod_small in E2 by lia. split_and!; [lia|done|done]. }
  exists t. split; [done|].
  assert (tags_inv k m t) as I.
  { split; rewrite ?Eas, ?Ep; [done|done| | |].
    - intros i j Hi Hj. destruct (Hat i j Hi Hj) as (b & Hb & Hv & Hs & Hw & Hr). exists b.
      split_and!; try done. unfold repl_ok. rewrite Hv, Hr. by apply law_instantiate.
    - intros i j b Hi Hj Hb V. destruct (Hat i j Hi Hj) as (b' & Hb' & Hv & _). congruence.
    - intros i j1 j2 b1 b2 Hi Hj1 _ Hb1 _ V. destruct (Hat i j1 Hi Hj1) as (b' & Hb' & Hv & _). congruence. }
  split; [done|]. split; [done|]. split; [done|]. intros addr sec Haddr.
  destruct (findBlock_spec k m t addr sec I Haddr) as ([p|] & -> & Ho); [|done].
  destruct (proj1 (Ho p) eq_refl) as (j & b & Hj & _ & Hb & (_ & V & _)%matches_blk). rewrite Eas in Hj.
  destruct (Hat _ j (extractSet_range k m t addr G Haddr) Hj) as (b' & Hb' & Hv & _). congruence.
Qed.
End Construct.

(** * Theorems *)

(** C38 (constructing the tags).  For a block size of at least 4 and a number
    of sets that are powers of two, any associativity, and a cache of at most
    4 GiB, the constructor returns tags with that geometry in which every way of
    every set is linked to a block of its own and every block to a chunk of
    [dataBlks] of its own, all of them empty, so that every lookup misses.  (The
    index of a block and the offset of its data are [unsigned]; those of a larger
    cache wrap.) *)
Theorem tags_new {P D} `{!ReplacementPolicy P D, !ReplacementPolicyLaws P D} k m a tl dl sequential (policy : P) (raw : CacheBlk D) :
  2 <= k < 31 -> 0 <= m < 32 -> 0 < a -> 2 ^ k * a < 2 ^ 31 -> 2 ^ k * a * 2 ^ m <= 2 ^ 32 -> rp_ok policy ->
  exists t, BaseSetAssoc_new (2 ^ k * a * 2 ^ m) (2 ^ k) a tl dl sequential policy raw = Ok t /\
    tags_inv k m t /\ assoc t = a /\
    (forall p, 0 <= p < 2 ^ m * a -> dataOf t !! Z.to_nat p = Some (Some (2 ^ k * p))) /\
    (forall addr sec, 0 <= addr < 2 ^ 64 -> findBlock t addr sec = Ok None).
Proof. apply new_inv. Qed.

Definition raw_blk : CacheBlk LRUReplData :=
  {| task_id := 0; tag := 0; status := 0; whenReady := 0; set := 0; way := 0; refCount := 0; srcMasterId := 0;
     tickInserted := 0; lockList := []; replacementData := LRURP_instantiateEntry |}.

Example tags_new_witness :
  exists t, BaseSetAssoc_new (2 ^ 6 * 2 * 2 ^ 3) (2 ^ 6) 2 1 2 false LRURP_new raw_blk = Ok t /\ tags_inv 6 3 t /\ assoc t = 2.
Proof.
  destruct (tags_new 6 3 2 1 2 false LRURP_new raw_blk) as (t & H1 & H2 & H3 & _); [lia..|exact I|].
  exists t. split; [exact H1|]. split; [exact H2|exact H3].
Defined.

(** (addresses round-trip through tag and set).  The address regenerated
    from the tag and the set of an address is the address aligned to its
    block; tag and set of the regenerated address are those of the block; and
    two addresses have the same tag and set exactly if they are in one
    block. *)
Theorem tags_roundtrip {P D} k m (t : BaseSetAssoc P D) b a :
  geometry k m t -> 0 <= a < 2 ^ 64 -> tag b = extractTag t a -> set b = extractSet t a ->
  regenerateBlkAddr t b = blkAlign t a /\
  extractTag t (regenerateBlkAddr t b) = tag b /\ extractSet t (regenerateBlkAddr t b) = set b /\
  blkAlign t a + extractBlkOffset t a = a /\
  (forall a', 0 <= a' < 2 ^ 64 ->
     (extractTag t a' = tag b /\ extractSet t a' = set b <-> blkAlign t a' = blkAlign t a)).
Proof.
  intros G Ha Ht Hs. pose proof (g_k _ _ _ G) as Hk. pose proof (regenerate_align k m t b a G Ha Ht Hs) as Er.
  pose proof (pow2_pos k ltac:(lia)). pose proof (Z.pow_le_mono_r 2 k 31 ltac:(lia) ltac:(lia)).
  pose proof (Z.div_mod a (2 ^ k) ltac:(lia)). pose proof (Z.mod_pos_bound a (2 ^ k) ltac:(lia)).
  assert (0 <= blkAlign t a < 2 ^ 64) as Hal by (rewrite (blkAlign_eq k m) by done; pose proof (Z.div_pos a (2 ^ k)); nia).
  assert (blkAlign t (blkAlign t a) = blkAlign t a) as Hidem.
  { rewrite (blkAlign_eq k m t (blkAlign t a) G Hal), (blkAlign_eq k m t a G Ha). by rewrite Z.div_mul by lia. }
  split; [done|]. rewrite Er, Ht, Hs.
  destruct (proj2 (same_block k m t (blkAlign t a) a G Hal Ha) Hidem) as [-> ->].
  split; [done|]. split; [done|]. split; [|intros a' Ha'; by apply same_block with k m].
  rewrite (blkAlign_eq k m) by done. unfold extractBlkOffset, blkMask. rewrite (g_blkSize _ _ _ G).
  rewrite (wrap_u_id 32 (2 ^ k - 1)) by lia. replace (2 ^ k - 1) with (Z.ones k) by (rewrite Z.ones_equiv; lia).
  rewrite Z.land_ones by lia. rewrite wrap_s_id; [lia|lia|]. change (2 ^ (32 - 1)) with (2 ^ 31). lia.
Qed.

(** Two ways, eight sets, 64-byte blocks. *)
Definition example_tags : BaseSetAssoc LRURP LRUReplData :=
  match BaseSetAssoc_new (2 ^ 6 * 2 * 2 ^ 3) (2 ^ 6) 2 1 2 false LRURP_new raw_blk with
  | Ok t => t
  | _ => {| blkSize := 0; lookupLatency := 0; accessLatency := 0; sequentialAccess := false; assoc := 0;
            allocAssoc := 0; numSets := 0; setShift := 0; tagShift := 0; setMask := 0;
            replacementPolicy := LRURP_new; sets := []; blks := []; dataOf := []; tagsInUse := 0 |}
  end.

Lemma example_tags_ok : tags_inv 6 3 example_tags /\ assoc example_tags = 2.
Proof.
  destruct (new_inv 6 3 2 1 2 false LRURP_new raw_blk) as (t & E & I & Ea & _); [lia..|exact I|].
  assert (example_tags = t) as -> by (unfold example_tags; by rewrite E). done.
Qed.

Example tags_roundtrip_witness :
  exists b, tag b = extractTag example_tags 0x12345 /\ regenerateBlkAddr example_tags b = blkAlign example_tags 0x12345.
Proof.
  exists {| task_id := 0; tag := extractTag example_tags 0x12345; status := 1; whenReady := 0;
     set := extractSet example_tags 0x12345; way := 0; refCount := 0; srcMasterId := 0; tickInserted := 0;
     lockList := []; replacementData := LRURP_instantiateEntry |}.
  split; [reflexivity|].
  refine (proj1 (tags_roundtrip 6 3 example_tags _ 0x12345 (ti_geom _ _ _ (proj1 example_tags_ok)) _ _ _));
    [lia|reflexivity|reflexivity].
Defined.

Section Allocate.
Context {P D : Type} `{!ReplacementPolicy P D, !ReplacementPolicyLaws P D}.
Implicit Types t : BaseSetAssoc P D.

Lemma findBlock_Some k m t addr sec p :
  tags_inv k m t -> 0 <= addr < 2 ^ 64 -> findBlock t addr sec = Ok (Some p) <-> holds t addr sec p.
Proof.
  intros I Ha. destruct (findBlock_spec k m t addr sec I Ha) as (o & -> & Ho). rewrite <- Ho.
  split; [by intros [= ->]|by intros ->].
Qed.

(** The state after a block [b] with the address's tag takes the place of an
    empty or evicted one, when the address was not cached. *)
Lemma fill_state k m t i j bf n addr sec :
  tags_inv k m t -> 0 <= addr < 2 ^ 64 -> i = extractSet t addr -> 0 <= j < assoc t ->
  set bf = i -> way bf = j -> tag bf = extractTag t addr -> isValid bf = true -> isSecure bf = sec ->
  rp_valid (replacementPolicy t) (replacementData bf) ->
  (forall q, ~ holds t addr sec q) ->
  let t2 := set_blk t i j bf n in
  tags_inv k m t2 /\ findBlock t2 addr sec = Ok (Some (i * assoc t + j)) /\
  (forall a' s', 0 <= a' < 2 ^ 64 -> blkAlign t a' <> blkAlign t addr \/ s' <> sec ->
     forall q, findBlock t2 a' s' = Ok (Some q) <-> holds t a' s' q /\ q <> i * assoc t + j).
Proof.
  intros I Ha Hi Hj Hs Hw Ht Hv Hsec Hr Hno t2. pose proof (ti_geom _ _ _ I) as G.
  pose proof (extractSet_range k m t addr G Ha) as Hi'. rewrite <- Hi in Hi'.
  assert (tags_inv k m t2) as I2.
  { apply set_blk_inv; try done.
    - unfold repl_ok. by rewrite Hv.
    - intros _. rewrite Ht. split; [by apply extractTag_range|]. intros j' b' Hj' _ Hb'.
      apply not_true_is_false. intros Hm. apply (Hno (i * assoc t + j')). exists j', b'.
      rewrite <- Hi, <- Hsec. by repeat (split; [done|]). }
  split; [done|]. split.
  - apply (findBlock_Some k m); [done..|]. apply (holds_set_blk k m); [done..|]. left.
    split; [done|]. split; [done|]. by apply matches_blk.
  - intros a' s' Ha' Hne q. rewrite (findBlock_Some k m) by done.
    unfold t2. rewrite (holds_set_blk k m) by done. split; [|by right].
    intros [(-> & Es & (Et & _ & Esec)%matches_blk)|H]; [exfalso|done].
    destruct Hne as [Hne|Hne]; [|congruence]. apply Hne, (same_block k m); [done..|]. split; congruence.
Qed.
End Allocate.



(** (the way limit is not enforced).  [setWayAllocationMax] documents a limit on
    the ways available for replacement; the victim is chosen as without it. *)
Theorem way_limit_ignored {P D} `{!ReplacementPolicy P D} (t t' : BaseSetAssoc P D) ways now random addr :
  setWayAllocationMax t ways = Ok t' ->
  (r ← findVictim now random t' addr; Ok r.1) = (r ← findVictim now random t addr; Ok r.1).
Proof.
  unfold setWayAllocationMax. destruct (negb (ways <? 1)); [|done]. intros [= <-].
  unfold findVictim, getPossibleLocations, extractSet. cbn [sets setShift setMask blks replacementPolicy].
  destruct (aread (sets t) _) as [s| | |]; try done. cbn [mbind res_bind].
  destruct (read_data (blks t) (cs_blks s)) as [ds| | |]; try done. cbn [mbind res_bind].
  destruct (rp_getVictim _ now random ds) as [[v ds']| | |]; try done. cbn [mbind res_bind].
  destruct (write_data (blks t) (cs_blks s) ds') as [bs| | |]; try done. cbn [mbind res_bind].
  by destruct (aread (cs_blks s) (Z.of_nat v)).
Qed.

(** ** Moving a block to the head or the tail of its set *)

Lemma aread_app_mid {A} (l1 : list A) x l2 i : i = Z.of_nat (length l1) -> aread (l1 ++ x :: l2) i = Ok x.
Proof. intros ->. apply aread_Ok; [lia|]. by rewrite Nat2Z.id, list_lookup_middle. Qed.

Lemma awrite_app_mid {A} (l1 : list A) x y l2 i :
  i = Z.of_nat (length l1) -> awrite (l1 ++ x :: l2) i y = Ok (l1 ++ y :: l2).
Proof.
  intros ->. rewrite awrite_Ok by (rewrite length_app; cbn; lia).
  by rewrite Nat2Z.id, insert_app_r_alt, Nat.sub_diag by lia.
Qed.

Lemma moveToHead_loop_spec fuel a blk done1 l1 l2 next i :
  blk ∉ l1 -> (length l1 < fuel)%nat -> i = Z.of_nat (length done1) ->
  a = Z.of_nat (length (done1 ++ l1 ++ blk :: l2)) ->
  moveToHead_loop fuel a blk (done1 ++ l1 ++ blk :: l2) i next = Ok (done1 ++ next :: l1 ++ l2).
Proof.
  revert done1 l1 next i. induction fuel as [|fuel IH]; intros done1 l1 next i Hn Hf Hi Ha; [lia|].
  cbn [moveToHead_loop]. rewrite !length_app in Ha. cbn [length] in Ha. rewrite (proj2 (Z.ltb_lt _ _)) by lia.
  destruct l1 as [|x l1]; cbn [app].
  - rewrite aread_app_mid by done. cbn [mbind res_bind]. rewrite awrite_app_mid by done. cbn [mbind res_bind].
    by rewrite Z.eqb_refl.
  - rewrite aread_app_mid by done. cbn [mbind res_bind]. rewrite awrite_app_mid by done. cbn [mbind res_bind].
    rewrite elem_of_cons in Hn. rewrite (proj2 (Z.eqb_neq x blk)) by (intros ->; tauto).
    replace (done1 ++ next :: l1 ++ blk :: l2) with ((done1 ++ [next]) ++ l1 ++ blk :: l2) by (by rewrite <- app_assoc).
    rewrite IH; [by rewrite <- app_assoc|tauto|cbn in Hf; lia|rewrite length_app; cbn; lia|].
    rewrite !length_app. cbn [length] in *. lia.
Qed.

Lemma moveToTail_loop_spec fuel blk done1 l1 l2 next i :
  blk ∉ l2 -> (length l2 < fuel)%nat -> i = Z.of_nat (length l1 + length l2) ->
  moveToTail_loop fuel blk (l1 ++ blk :: l2 ++ done1) i next = Ok (l1 ++ l2 ++ next :: done1).
Proof.
  revert done1 l2 next i. induction fuel as [|fuel IH]; intros done1 l2 next i Hn Hf Hi; [lia|].
  cbn [moveToTail_loop]. rewrite (proj2 (Z.leb_le _ _)) by lia.
  destruct l2 as [|x l2 _] using rev_ind; cbn [app].
  - rewrite aread_app_mid by (cbn in Hi; lia). cbn [mbind res_bind]. rewrite awrite_app_mid by (cbn in Hi; lia).
    cbn [mbind res_bind]. by rewrite Z.eqb_refl.
  - rewrite length_app in Hf, Hi. cbn [length] in Hf, Hi. rewrite elem_of_app, list_elem_of_singleton in Hn.
    replace (l1 ++ blk :: (l2 ++ [x]) ++ done1) with ((l1 ++ blk :: l2) ++ x :: done1) by (by rewrite <- !app_assoc).
    rewrite aread_app_mid by (rewrite length_app; cbn; lia). cbn [mbind res_bind].
    rewrite awrite_app_mid by (rewrite length_app; cbn; lia). cbn [mbind res_bind].
    rewrite (proj2 (Z.eqb_neq x blk)) by (intros ->; tauto).
    replace ((l1 ++ blk :: l2) ++ next :: done1) with (l1 ++ blk :: l2 ++ next :: done1) by (by rewrite <- app_assoc).
    rewrite IH; [by rewrite <- app_assoc|tauto|lia|lia].
Qed.

(** (moving in a set).  [moveToHead] and [moveToTail] of a block of the set
    terminate, put it first or last and keep the order of the others. *)
Theorem set_move l1 blk l2 :
  NoDup (l1 ++ blk :: l2) ->
  let s := {| cs_assoc := Z.of_nat (length (l1 ++ blk :: l2)); cs_blks := l1 ++ blk :: l2 |} in
  moveToHead s blk = Ok {| cs_assoc := cs_assoc s; cs_blks := blk :: l1 ++ l2 |} /\
  moveToTail s blk = Ok {| cs_assoc := cs_assoc s; cs_blks := l1 ++ l2 ++ [blk] |}.
Proof.
  intros Hnd s. apply NoDup_app in Hnd as (_ & H1 & Hnd). apply NoDup_cons in Hnd as [H2 _].
  assert (blk ∉ l1) as Hl1 by (intros H; by apply (H1 blk H), elem_of_cons; left).
  unfold moveToHead, moveToTail, s. cbn [cs_assoc cs_blks]. split.
  - destruct l1 as [|x l1]; cbn [app].
    + rewrite (aread_app_mid [] blk l2) by done. cbn [mbind res_bind]. by rewrite Z.eqb_refl.
    + rewrite (aread_app_mid [] x (l1 ++ blk :: l2)) by done. cbn [mbind res_bind].
      rewrite elem_of_cons in Hl1. rewrite (proj2 (Z.eqb_neq x blk)) by (intros ->; tauto).
      rewrite (moveToHead_loop_spec _ _ blk [] (x :: l1) l2);
        [done|by rewrite elem_of_cons|cbn; rewrite length_app; cbn; lia|done|done].
  - destruct l2 as [|x l2 _] using rev_ind.
    + rewrite aread_app_mid by (rewrite length_app; cbn; lia). cbn [mbind res_bind]. rewrite Z.eqb_refl. done.
    + rewrite elem_of_app, list_elem_of_singleton in H2.
      replace (l1 ++ blk :: l2 ++ [x]) with ((l1 ++ blk :: l2) ++ [x]) by (by rewrite <- app_assoc).
      rewrite aread_app_mid by (rewrite !length_app; cbn; lia). cbn [mbind res_bind].
      rewrite (proj2 (Z.eqb_neq x blk)) by (intros ->; tauto).
      replace ((l1 ++ blk :: l2) ++ [x]) with (l1 ++ blk :: (l2 ++ [x]) ++ []) by (by rewrite app_nil_r, <- app_assoc).
      rewrite moveToTail_loop_spec;
        [by rewrite <- app_assoc|rewrite elem_of_app, list_elem_of_singleton; tauto|rewrite !length_app; cbn; rewrite !length_app; cbn; lia|].
      rewrite !length_app. cbn. rewrite !length_app. cbn. lia.
Qed.
