(* ===== verification/MemPacket.v ===== *)
(** Requests and packets of the memory system, from src/mem/packet.hh,
    packet.cc and request.hh: the commands with their table of attributes, the
    flags of a packet with the protocol of its setters, the responses and the
    transfer of data between a packet and a block.

    A pointer to a packet is modelled by the packet's value, handed from
    function to function and returned by the functions that change it.  The
    data pointer is the list of the bytes it points to, or [None]; the flags
    that say who frees it are not modelled, nor are delays and sender state. *)
From S2P Require Import Prelude CacheBlk.

(** * Commands *)

Inductive MemCmd :=
| InvalidCmd | ReadReq | ReadResp | ReadRespWithInvalidate | WriteReq | WriteResp
| WritebackDirty | WritebackClean | WriteClean | CleanEvict
| SoftPFReq | HardPFReq | SoftPFResp | HardPFResp | WriteLineReq
| UpgradeReq | SCUpgradeReq | UpgradeResp | SCUpgradeFailReq | UpgradeFailResp
| ReadExReq | ReadExResp | ReadCleanReq | ReadSharedReq
| LoadLockedReq | StoreCondReq | StoreCondFailReq | StoreCondResp | SwapReq | SwapResp
| MessageReq | MessageResp | MemFenceReq | MemFenceResp
| CleanSharedReq | CleanSharedResp | CleanInvalidReq | CleanInvalidResp
| InvalidDestError | BadAddressError | FunctionalReadError | FunctionalWriteError
| PrintReq | FlushReq | InvalidateReq | InvalidateResp.

Inductive Attribute :=
| IsRead | IsWrite | IsUpgrade | IsInvalidate | IsClean | NeedsWritable | IsRequest | IsResponse
| NeedsResponse | IsEviction | IsSWPrefetch | IsHWPrefetch | IsLlsc | HasData | IsError
| IsPrint | IsFlush | FromCache.

(** The position of an attribute in the bit set. *)
Definition attr_bit (a : Attribute) : Z :=
  match a with
  | IsRead => 0 | IsWrite => 1 | IsUpgrade => 2 | IsInvalidate => 3 | IsClean => 4 | NeedsWritable => 5
  | IsRequest => 6 | IsResponse => 7 | NeedsResponse => 8 | IsEviction => 9 | IsSWPrefetch => 10
  | IsHWPrefetch => 11 | IsLlsc => 12 | HasData => 13 | IsError => 14 | IsPrint => 15 | IsFlush => 16
  | FromCache => 17
  end.

(** [SET1] to [SET7] *)
Definition SET (l : list Attribute) : Z := foldr (fun a s => Z.lor (Z.shiftl 1 (attr_bit a)) s) 0 l.

(** The attributes and the response of a command. *)
Definition commandInfo (c : MemCmd) : Z * MemCmd :=
  match c with
  | InvalidCmd => (0, InvalidCmd)
  | ReadReq => (SET [IsRead; IsRequest; NeedsResponse], ReadResp)
  | ReadResp => (SET [IsRead; IsResponse; HasData], InvalidCmd)
  | ReadRespWithInvalidate => (SET [IsRead; IsResponse; HasData; IsInvalidate], InvalidCmd)
  | WriteReq => (SET [IsWrite; NeedsWritable; IsRequest; NeedsResponse; HasData], WriteResp)
  | WriteResp => (SET [IsWrite; IsResponse], InvalidCmd)
  | WritebackDirty => (SET [IsWrite; IsRequest; IsEviction; HasData; FromCache], InvalidCmd)
  | WritebackClean => (SET [IsWrite; IsRequest; IsEviction; HasData; FromCache], InvalidCmd)
  | WriteClean => (SET [IsWrite; IsRequest; HasData; FromCache], InvalidCmd)
  | CleanEvict => (SET [IsRequest; IsEviction; FromCache], InvalidCmd)
  | SoftPFReq => (SET [IsRead; IsRequest; IsSWPrefetch; NeedsResponse], SoftPFResp)
  | HardPFReq => (SET [IsRead; IsRequest; IsHWPrefetch; NeedsResponse; FromCache], HardPFResp)
  | SoftPFResp => (SET [IsRead; IsResponse; IsSWPrefetch; HasData], InvalidCmd)
  | HardPFResp => (SET [IsRead; IsResponse; IsHWPrefetch; HasData], InvalidCmd)
  | WriteLineReq => (SET [IsWrite; NeedsWritable; IsRequest; NeedsResponse; HasData], WriteResp)
  | UpgradeReq => (SET [IsInvalidate; NeedsWritable; IsUpgrade; IsRequest; NeedsResponse; FromCache], UpgradeResp)
  | SCUpgradeReq =>
    (SET [IsInvalidate; NeedsWritable; IsUpgrade; IsLlsc; IsRequest; NeedsResponse; FromCache], UpgradeResp)
  | UpgradeResp => (SET [IsUpgrade; IsResponse], InvalidCmd)
  | SCUpgradeFailReq =>
    (SET [IsRead; NeedsWritable; IsInvalidate; IsLlsc; IsRequest; NeedsResponse; FromCache], UpgradeFailResp)
  | UpgradeFailResp => (SET [IsRead; IsResponse; HasData], InvalidCmd)
  | ReadExReq => (SET [IsRead; NeedsWritable; IsInvalidate; IsRequest; NeedsResponse; FromCache], ReadExResp)
  | ReadExResp => (SET [IsRead; IsResponse; HasData], InvalidCmd)
  | ReadCleanReq => (SET [IsRead; IsRequest; NeedsResponse; FromCache], ReadResp)
  | ReadSharedReq => (SET [IsRead; IsRequest; NeedsResponse; FromCache], ReadResp)
  | LoadLockedReq => (SET [IsRead; IsLlsc; IsRequest; NeedsResponse], ReadResp)
  | StoreCondReq => (SET [IsWrite; NeedsWritable; IsLlsc; IsRequest; NeedsResponse; HasData], StoreCondResp)
  | StoreCondFailReq => (SET [IsWrite; NeedsWritable; IsLlsc; IsRequest; NeedsResponse; HasData], StoreCondResp)
  | StoreCondResp => (SET [IsWrite; IsLlsc; IsResponse], InvalidCmd)
  | SwapReq => (SET [IsRead; IsWrite; NeedsWritable; IsRequest; HasData; NeedsResponse], SwapResp)
  | SwapResp => (SET [IsRead; IsWrite; IsResponse; HasData], InvalidCmd)
  | MessageReq => (SET [IsWrite; IsRequest; NeedsResponse; HasData], MessageResp)
  | MessageResp => (SET [IsWrite; IsResponse], InvalidCmd)
  | MemFenceReq => (SET [IsRequest; NeedsResponse], MemFenceResp)
  | MemFenceResp => (SET [IsResponse], InvalidCmd)
  | CleanSharedReq => (SET [IsRequest; IsClean; NeedsResponse; FromCache], CleanSharedResp)
  | CleanSharedResp => (SET [IsResponse; IsClean], InvalidCmd)
  | CleanInvalidReq => (SET [IsRequest; IsInvalidate; IsClean; NeedsResponse; FromCache], CleanInvalidResp)
  | CleanInvalidResp => (SET [IsResponse; IsInvalidate; IsClean], InvalidCmd)
  | InvalidDestError => (SET [IsResponse; IsError], InvalidCmd)
  | BadAddressError => (SET [IsResponse; IsError], InvalidCmd)
  | FunctionalReadError => (SET [IsRead; IsResponse; IsError], InvalidCmd)
  | FunctionalWriteError => (SET [IsWrite; IsResponse; IsError], InvalidCmd)
  | PrintReq => (SET [IsRequest; IsPrint], InvalidCmd)
  | FlushReq => (SET [IsRequest; IsFlush; NeedsWritable], InvalidCmd)
  | InvalidateReq => (SET [IsInvalidate; IsRequest; NeedsWritable; NeedsResponse; FromCache], InvalidateResp)
  | InvalidateResp => (SET [IsInvalidate; IsResponse], InvalidCmd)
  end.

Definition testCmdAttrib (c : MemCmd) (a : Attribute) : bool := Z.testbit (fst (commandInfo c)) (attr_bit a).

Definition cmd_isRead c := testCmdAttrib c IsRead.
Definition cmd_isWrite c := testCmdAttrib c IsWrite.
Definition cmd_isUpgrade c := testCmdAttrib c IsUpgrade.
Definition cmd_isRequest c := testCmdAttrib c IsRequest.
Definition cmd_isResponse c := testCmdAttrib c IsResponse.
Definition cmd_needsWritable c := testCmdAttrib c NeedsWritable.
Definition cmd_needsResponse c := testCmdAttrib c NeedsResponse.
Definition cmd_isInvalidate c := testCmdAttrib c IsInvalidate.
Definition cmd_isEviction c := testCmdAttrib c IsEviction.
Definition cmd_isClean c := testCmdAttrib c IsClean.
Definition cmd_fromCache c := testCmdAttrib c FromCache.
Definition cmd_isWriteback c := testCmdAttrib c IsEviction && testCmdAttrib c HasData.
Definition cmd_hasData c := testCmdAttrib c HasData.
Definition cmd_isLLSC c := testCmdAttrib c IsLlsc.
Definition cmd_isSWPrefetch c := testCmdAttrib c IsSWPrefetch.
Definition cmd_isHWPrefetch c := testCmdAttrib c IsHWPrefetch.
Definition cmd_isPrefetch c := testCmdAttrib c IsSWPrefetch || testCmdAttrib c IsHWPrefetch.
Definition cmd_isError c := testCmdAttrib c IsError.
Definition cmd_isPrint c := testCmdAttrib c IsPrint.
Definition cmd_isFlush c := testCmdAttrib c IsFlush.
Definition responseCommand (c : MemCmd) : MemCmd := snd (commandInfo c).

(** The value of the enumeration. *)
Definition toInt (c : MemCmd) : Z :=
  match c with
  | InvalidCmd => 0 | ReadReq => 1 | ReadResp => 2 | ReadRespWithInvalidate => 3 | WriteReq => 4 | WriteResp => 5
  | WritebackDirty => 6 | WritebackClean => 7 | WriteClean => 8 | CleanEvict => 9 | SoftPFReq => 10 | HardPFReq => 11
  | SoftPFResp => 12 | HardPFResp => 13 | WriteLineReq => 14 | UpgradeReq => 15 | SCUpgradeReq => 16
  | UpgradeResp => 17 | SCUpgradeFailReq => 18 | UpgradeFailResp => 19 | ReadExReq => 20 | ReadExResp => 21
  | ReadCleanReq => 22 | ReadSharedReq => 23 | LoadLockedReq => 24 | StoreCondReq => 25 | StoreCondFailReq => 26
  | StoreCondResp => 27 | SwapReq => 28 | SwapResp => 29 | MessageReq => 30 | MessageResp => 31 | MemFenceReq => 32
  | MemFenceResp => 33 | CleanSharedReq => 34 | CleanSharedResp => 35 | CleanInvalidReq => 36
  | CleanInvalidResp => 37 | InvalidDestError => 38 | BadAddressError => 39 | FunctionalReadError => 40
  | FunctionalWriteError => 41 | PrintReq => 42 | FlushReq => 43 | InvalidateReq => 44 | InvalidateResp => 45
  end.
(** [operator==] *)
Definition cmd_eq (c c2 : MemCmd) : bool := toInt c =? toInt c2.

(** * Requests *)

(** [Flags::isSet], [set] and [clear], on [w] bits. *)
Definition isSet (f mask : Z) : bool := negb (Z.land f mask =? 0).
Definition set_flags (f mask : Z) : Z := Z.lor f mask.
Definition clear_flags (w f mask : Z) : Z := Z.land f (wrap_u w (Z.lnot mask)).

Definition INST_FETCH : Z := 0x100.
Definition UNCACHEABLE : Z := 0x400.
Definition LLSC : Z := 0x200000.
Definition MEM_SWAP : Z := 0x400000.
Definition MEM_SWAP_COND : Z := 0x800000.
Definition PREFETCH : Z := 0x1000000.
Definition SECURE : Z := 0x10000000.
Definition ATOMIC_RETURN_OP : Z := 0x40000000.
Definition ATOMIC_NO_RETURN_OP : Z := 0x80000000.
Definition INVALIDATE : Z := 0x100000000.
Definition CLEAN : Z := 0x200000000.
Definition DST_POU : Z := 0x1000000000.
Definition DST_POC : Z := 0x2000000000.
Definition DST_BITS : Z := 0x3000000000.
Definition wbMasterId : Z := 0.

(** The fields of a request with a physical address that the memory system
    uses; [r_extraData] and [r_contextId] are [None] while they are not valid.
    An atomic operation changes the bytes it is applied to. *)
Record Request := {
  r_paddr : Z; r_size : Z; r_flags : Z; r_masterId : Z; r_taskId : Z;
  r_extraData : option Z; r_contextId : option Z; r_atomicOp : option (list Z -> list Z) }.

(** [Request(paddr, size, flags, mid)] *)
Definition Request_new (paddr size flags mid : Z) : Request :=
  {| r_paddr := paddr; r_size := size; r_flags := flags; r_masterId := mid; r_taskId := TaskId_Unknown;
     r_extraData := None; r_contextId := None; r_atomicOp := None |}.

Definition req_isUncacheable (r : Request) : bool := isSet (r_flags r) UNCACHEABLE.
Definition req_isInstFetch (r : Request) : bool := isSet (r_flags r) INST_FETCH.
Definition req_isPrefetch (r : Request) : bool := isSet (r_flags r) PREFETCH.
Definition req_isLLSC (r : Request) : bool := isSet (r_flags r) LLSC.
Definition req_isSwap (r : Request) : bool := isSet (r_flags r) (Z.lor MEM_SWAP MEM_SWAP_COND).
Definition req_isCondSwap (r : Request) : bool := isSet (r_flags r) MEM_SWAP_COND.
Definition req_isSecure (r : Request) : bool := isSet (r_flags r) SECURE.
Definition req_isAtomic (r : Request) : bool :=
  isSet (r_flags r) ATOMIC_RETURN_OP || isSet (r_flags r) ATOMIC_NO_RETURN_OP.
Definition req_isToPOU (r : Request) : bool := isSet (r_flags r) DST_POU.
Definition req_isToPOC (r : Request) : bool := isSet (r_flags r) DST_POC.
Definition req_getDest (r : Request) : Z := Z.land (r_flags r) DST_BITS.
Definition req_isCacheClean (r : Request) : bool := isSet (r_flags r) CLEAN.
Definition req_isCacheInvalidate (r : Request) : bool := isSet (r_flags r) INVALIDATE.
Definition req_isCacheMaintenance (r : Request) : bool := isSet (r_flags r) (Z.lor CLEAN INVALIDATE).

Definition req_getExtraData (r : Request) : res Z :=
  match r_extraData r with Some v => Ok v | None => Panic end.
Definition req_getContextId (r : Request) : res Z :=
  match r_contextId r with Some v => Ok v | None => Panic end.
Definition req_setExtraData (v : Z) (r : Request) : Request :=
  {| r_paddr := r_paddr r; r_size := r_size r; r_flags := r_flags r; r_masterId := r_masterId r; r_taskId := r_taskId r;
     r_extraData := Some v; r_contextId := r_contextId r; r_atomicOp := r_atomicOp r |}.
Definition req_setFlags (f : Z) (r : Request) : Request :=
  {| r_paddr := r_paddr r; r_size := r_size r; r_flags := set_flags (r_flags r) f; r_masterId := r_masterId r;
     r_taskId := r_taskId r; r_extraData := r_extraData r; r_contextId := r_contextId r; r_atomicOp := r_atomicOp r |}.
Definition req_setTaskId (t : Z) (r : Request) : Request :=
  {| r_paddr := r_paddr r; r_size := r_size r; r_flags := r_flags r; r_masterId := r_masterId r; r_taskId := t;
     r_extraData := r_extraData r; r_contextId := r_contextId r; r_atomicOp := r_atomicOp r |}.

(** * Packets *)

Definition HAS_SHARERS : Z := 0x1.
Definition EXPRESS_SNOOP : Z := 0x2.
Definition RESPONDER_HAD_WRITABLE : Z := 0x4.
Definition CACHE_RESPONDING : Z := 0x8.
Definition WRITE_THROUGH : Z := 0x10.
Definition SATISFIED : Z := 0x20.
Definition BLOCK_CACHED : Z := 0x10000.
Definition COPY_FLAGS : Z := 0x3F.

(** The address and the size are valid, as they are in a packet made from a
    request with a physical address. *)
Record Packet := {
  p_cmd : MemCmd; p_flags : Z; p_id : Z; p_req : Request; p_data : option (list Z);
  p_addr : Z; p_isSecure : bool; p_size : Z }.

Definition with_cmd (c : MemCmd) (p : Packet) : Packet :=
  {| p_cmd := c; p_flags := p_flags p; p_id := p_id p; p_req := p_req p; p_data := p_data p; p_addr := p_addr p;
     p_isSecure := p_isSecure p; p_size := p_size p |}.
Definition with_flags (f : Z) (p : Packet) : Packet :=
  {| p_cmd := p_cmd p; p_flags := f; p_id := p_id p; p_req := p_req p; p_data := p_data p; p_addr := p_addr p;
     p_isSecure := p_isSecure p; p_size := p_size p |}.
Definition with_req (r : Request) (p : Packet) : Packet :=
  {| p_cmd := p_cmd p; p_flags := p_flags p; p_id := p_id p; p_req := r; p_data := p_data p; p_addr := p_addr p;
     p_isSecure := p_isSecure p; p_size := p_size p |}.
Definition with_data (d : option (list Z)) (p : Packet) : Packet :=
  {| p_cmd := p_cmd p; p_flags := p_flags p; p_id := p_id p; p_req := p_req p; p_data := d; p_addr := p_addr p;
     p_isSecure := p_isSecure p; p_size := p_size p |}.

(** [Packet(req, cmd)] and [Packet(req, cmd, blkSize, id)]; the identity is the
    address of the request, here the argument [rid], unless one is given. *)
Definition Packet_new (rid : Z) (req : Request) (c : MemCmd) : Packet :=
  {| p_cmd := c; p_flags := 0; p_id := rid; p_req := req; p_data := None; p_addr := r_paddr req;
     p_isSecure := req_isSecure req; p_size := r_size req |}.
Definition Packet_new_blk (rid : Z) (req : Request) (c : MemCmd) (blkSize id : Z) : Packet :=
  {| p_cmd := c; p_flags := 0; p_id := if id =? 0 then rid else id; p_req := req; p_data := None;
     p_addr := Z.land (r_paddr req) (u64 (Z.lnot (s32 (blkSize - 1)))); p_isSecure := req_isSecure req; p_size := blkSize |}.

Definition isRead p := cmd_isRead (p_cmd p).
Definition isWrite p := cmd_isWrite (p_cmd p).
Definition isUpgrade p := cmd_isUpgrade (p_cmd p).
Definition isRequest p := cmd_isRequest (p_cmd p).
Definition isResponse p := cmd_isResponse (p_cmd p).
Definition needsResponse p := cmd_needsResponse (p_cmd p).
Definition isInvalidate p := cmd_isInvalidate (p_cmd p).
Definition isEviction p := cmd_isEviction (p_cmd p).
Definition isClean p := cmd_isClean (p_cmd p).
Definition fromCache p := cmd_fromCache (p_cmd p).
Definition isWriteback p := cmd_isWriteback (p_cmd p).
Definition hasData p := cmd_hasData (p_cmd p).
Definition hasRespData p := cmd_hasData (responseCommand (p_cmd p)).
Definition isLLSC p := cmd_isLLSC (p_cmd p).
Definition isError p := cmd_isError (p_cmd p).
Definition isAtomicOp p := req_isAtomic (p_req p).
Definition needsWritable (p : Packet) : res bool :=
  assert! isRequest p ;; Ok (cmd_needsWritable (p_cmd p)).
Definition mustCheckAbove p := cmd_eq (p_cmd p) HardPFReq || isEviction p.
Definition isCleanEviction p := cmd_eq (p_cmd p) CleanEvict || cmd_eq (p_cmd p) WritebackClean.

(** ** Flags *)

Definition cacheResponding p := isSet (p_flags p) CACHE_RESPONDING.
Definition hasSharers p := isSet (p_flags p) HAS_SHARERS.
Definition isExpressSnoop p := isSet (p_flags p) EXPRESS_SNOOP.
Definition responderHadWritable p := isSet (p_flags p) RESPONDER_HAD_WRITABLE.
Definition writeThrough p := isSet (p_flags p) WRITE_THROUGH.
Definition satisfied p := isSet (p_flags p) SATISFIED.
Definition isBlockCached p := isSet (p_flags p) BLOCK_CACHED.

Definition add_flags (m : Z) (p : Packet) : Packet := with_flags (set_flags (p_flags p) m) p.
Definition drop_flags (m : Z) (p : Packet) : Packet := with_flags (clear_flags 32 (p_flags p) m) p.

Definition setCacheResponding (p : Packet) : res Packet :=
  assert! isRequest p ;;
  assert! negb (isSet (p_flags p) CACHE_RESPONDING) ;;
  Ok (add_flags CACHE_RESPONDING p).
Definition setHasSharers (p : Packet) : Packet := add_flags HAS_SHARERS p.
Definition setExpressSnoop (p : Packet) : Packet := add_flags EXPRESS_SNOOP p.
Definition setResponderHadWritable (p : Packet) : res Packet :=
  assert! cacheResponding p ;;
  assert! negb (responderHadWritable p) ;;
  Ok (add_flags RESPONDER_HAD_WRITABLE p).
Definition setWriteThrough (p : Packet) : res Packet :=
  assert! cmd_isWrite (p_cmd p) && (cmd_isEviction (p_cmd p) || cmd_eq (p_cmd p) WriteClean) ;;
  Ok (add_flags WRITE_THROUGH p).
Definition clearWriteThrough (p : Packet) : Packet := drop_flags WRITE_THROUGH p.
Definition setSatisfied (p : Packet) : res Packet :=
  assert! cmd_isClean (p_cmd p) ;;
  assert! negb (isSet (p_flags p) SATISFIED) ;;
  Ok (add_flags SATISFIED p).
Definition setBlockCached (p : Packet) : Packet := add_flags BLOCK_CACHED p.
Definition clearBlockCached (p : Packet) : Packet := drop_flags BLOCK_CACHED p.

(** ** Responses *)

Definition makeResponse (p : Packet) : res Packet :=
  assert! needsResponse p ;;
  assert! isRequest p ;;
  Ok (drop_flags EXPRESS_SNOOP (with_cmd (responseCommand (p_cmd p)) p)).
Definition copyError (pkt p : Packet) : res Packet :=
  assert! isError pkt ;; Ok (with_cmd (p_cmd pkt) p).

(** ** Commands of requests *)

Definition makeReadCmd (r : Request) : MemCmd :=
  if req_isLLSC r then LoadLockedReq else if req_isPrefetch r then SoftPFReq else ReadReq.
Definition makeWriteCmd (r : Request) : MemCmd :=
  if req_isLLSC r then StoreCondReq
  else if req_isSwap r || req_isAtomic r then SwapReq
  else if req_isCacheInvalidate r then (if req_isCacheClean r then CleanInvalidReq else InvalidateReq)
  else if req_isCacheClean r then CleanSharedReq
  else WriteReq.
Definition createRead (rid : Z) (r : Request) : Packet := Packet_new rid r (makeReadCmd r).
Definition createWrite (rid : Z) (r : Request) : Packet := Packet_new rid r (makeWriteCmd r).

(** ** Addresses and data *)

Definition getOffset (p : Packet) (blk_size : Z) : Z := Z.land (p_addr p) (u32 (blk_size - 1)).
Definition getBlockAddr (p : Packet) (blk_size : Z) : Z := Z.land (p_addr p) (u64 (Z.lnot (u32 (blk_size - 1)))).

(** [n] bytes at offset [o] of the bytes [l]: to read outside is undefined. *)
Definition bytes_at (l : list Z) (o n : Z) : res (list Z) :=
  defined! (0 <=? o) && (0 <=? n) && (o + n <=? Z.of_nat (length l)) ;;
  Ok (take (Z.to_nat n) (drop (Z.to_nat o) l)).
(** [memcpy] of the bytes [v] to offset [o] of [l]. *)
Definition bytes_set (l : list Z) (o : Z) (v : list Z) : res (list Z) :=
  defined! (0 <=? o) && (o + Z.of_nat (length v) <=? Z.of_nat (length l)) ;;
  Ok (take (Z.to_nat o) l ++ v ++ drop (Z.to_nat o + length v) l).

Definition getPtr (p : Packet) : res (list Z) := match p_data p with Some d => Ok d | None => Panic end.

(** [memcpy(getPtr(), p, getSize())], from offset [o] of a block. *)
Definition setDataFromBlock (p : Packet) (blk_data : list Z) (blk_size : Z) : res Packet :=
  d ← getPtr p;
  v ← bytes_at blk_data (getOffset p blk_size) (p_size p);
  d ← bytes_set d 0 v;
  Ok (with_data (Some d) p).
(** The [getSize()] bytes [writeData] copies. *)
Definition writeData (p : Packet) : res (list Z) := d ← getPtr p; bytes_at d 0 (p_size p).
Definition writeDataToBlock (p : Packet) (blk_data : list Z) (blk_size : Z) : res (list Z) :=
  v ← writeData p; bytes_set blk_data (getOffset p blk_size) v.

(** [fresh n]: the [n] bytes a [new] returns. *)
Definition allocate (fresh : Z -> list Z) (p : Packet) : res Packet :=
  if hasData p || hasRespData p then
    assert! (match p_data p with None => true | Some _ => false end) ;;
    Ok (with_data (Some (fresh (p_size p))) p)
  else Ok p.
(** [dataStatic], with the sender's buffer. *)
Definition dataStatic (d : list Z) (p : Packet) : res Packet :=
  assert! (match p_data p with None => true | Some _ => false end) ;;
  Ok (with_data (Some d) p).

(** * Lemmas *)

Lemma toInt_inj c c2 : toInt c = toInt c2 -> c = c2.
Proof. by destruct c, c2. Qed.

Lemma cmd_eq_spec c c2 : cmd_eq c c2 = true <-> c = c2.
Proof. unfold cmd_eq. rewrite Z.eqb_eq. split; [apply toInt_inj|by intros ->]. Qed.

#[export] Instance MemCmd_eq_dec : EqDecision MemCmd.
Proof. intros c c2. destruct (Z.eq_dec (toInt c) (toInt c2)) as [E|E]; [left; by apply toInt_inj|right; by intros ->]. Defined.

Lemma isSet_set f a m : isSet (set_flags f a) m = isSet f m || isSet a m.
Proof.
  unfold isSet, set_flags. rewrite Z.land_lor_distr_l.
  destruct (Z.eqb_spec (Z.land f m) 0) as [->|H]; [by rewrite Z.lor_0_l|].
  destruct (Z.eqb_spec (Z.lor (Z.land f m) (Z.land a m)) 0) as [E|]; [|done].
  by apply Z.lor_eq_0_iff in E as [? _].
Qed.

Lemma isSet_clear f a m :
  Z.land (wrap_u 32 (Z.lnot a)) m = m -> isSet (clear_flags 32 f a) m = isSet f m.
Proof. intros H. unfold isSet, clear_flags. by rewrite <- Z.land_assoc, H. Qed.

Lemma isSet_clear_none f a m :
  Z.land (wrap_u 32 (Z.lnot a)) m = 0 -> isSet (clear_flags 32 f a) m = false.
Proof. intros H. unfold isSet, clear_flags. by rewrite <- Z.land_assoc, H, Z.land_0_r. Qed.

(** Rewrite the test of a flag after a setter: each setter raises its own flag
    and no other. *)
Ltac flags := repeat first
  [ rewrite isSet_set
  | rewrite isSet_clear by reflexivity
  | rewrite isSet_clear_none by reflexivity ].

Section Setters.
Context (p : Packet).
Lemma cacheResponding_sharers : cacheResponding (setHasSharers p) = cacheResponding p.
Proof. unfold cacheResponding. cbn. flags. apply orb_false_r. Qed.
Lemma hasSharers_sharers : hasSharers (setHasSharers p) = true.
Proof. unfold hasSharers. cbn. flags. apply orb_true_r. Qed.
Lemma satisfied_sharers : satisfied (setHasSharers p) = satisfied p.
Proof. unfold satisfied. cbn. flags. apply orb_false_r. Qed.
Lemma responder_sharers : responderHadWritable (setHasSharers p) = responderHadWritable p.
Proof. unfold responderHadWritable. cbn. flags. apply orb_false_r. Qed.
End Setters.

(** The requests a processor makes and the commands caches send: a command
    that needs a response is a request whose response is a response that needs
    none, carries data if and only if it reads, and is of the kind of its
    request. *)
Definition response_matches (c : MemCmd) : bool :=
  let r := responseCommand c in
  if cmd_needsResponse c then
    cmd_isRequest c && cmd_isResponse r && negb (cmd_isRequest r) && negb (cmd_needsResponse r) &&
    eqb (cmd_hasData r) (cmd_isRead c) &&
    (if cmd_isRead c || cmd_isUpgrade c then true else eqb (cmd_isWrite r) (cmd_isWrite c)) &&
    negb (cmd_isError r) && cmd_eq (responseCommand r) InvalidCmd
  else cmd_eq r InvalidCmd.

Lemma responses_match c : response_matches c = true.
Proof. by destruct c. Qed.

Lemma request_not_response c : cmd_isRequest c = true -> cmd_isResponse c = false.
Proof. by destruct c. Qed.
