(* ===== verification/TagStore.v ===== *)
(** The interface between a cache and its tags: the virtual functions of
    [BaseTags] (src/mem/cache/tags/base.hh) as a class, what a cache relies on
    as a class of laws, and the set-associative tags as an instance, for any
    replacement policy. *)
From S2P Require Import Prelude Bitfield IntMath CacheBlk ReplPolicy CacheTags.

(** * The interface *)

(** A pointer to a block is the index the tags give it; [bt_blk] and [bt_store]
    read and write the block it points to. *)
Class BaseTags (T D : Type) := {
  bt_blk : T -> Z -> res (CacheBlk D);
  bt_store : T -> Z -> CacheBlk D -> res T;
  bt_findBlock : T -> Z -> bool -> res (option Z);
  bt_accessBlock : Z -> Z -> T -> Z -> bool -> res (option Z * Z * T);
  bt_findVictim : Z -> (Z -> Z -> Z) -> T -> Z -> bool -> res (option Z * list Z * T);
  bt_insertBlock : Z -> (Z -> Z -> Z) -> Z -> T -> Packet -> Z -> res T;
  bt_invalidate : T -> Z -> res T;
  bt_regenerateBlkAddr : T -> CacheBlk D -> Z;
  bt_extractBlkOffset : T -> Z -> Z }.

(** ** What the cache relies on *)

Definition addr_ok (a : Z) : Prop := 0 <= a < 2 ^ 64.
(** The first byte of the block of [2 ^ k] bytes. *)
Definition align (k a : Z) : Z := a / 2 ^ k * 2 ^ k.

(** A block stays in its place: only the other fields of a valid block change. *)
Definition keeps {D} (b b' : CacheBlk D) : Prop :=
  tag b' = tag b /\ CacheBlk.set b' = CacheBlk.set b /\ way b' = way b /\ replacementData b' = replacementData b /\
  CacheBlk.isSecure b' = CacheBlk.isSecure b /\ isValid b' = true.
(** Only the data of the replacement policy and the reference count change. *)
Definition touched {D} (b b' : CacheBlk D) : Prop := b' = with_repl b (refCount b') (replacementData b').

Section Views.
Context {T D : Type} `{!BaseTags T D}.

(** [p] points to the block that holds address [a]. *)
Definition holds_at (k : Z) (t : T) (a : Z) (sec : bool) (p : Z) : Prop :=
  exists b, bt_blk t p = Ok b /\ isValid b = true /\ CacheBlk.isSecure b = sec /\
    bt_regenerateBlkAddr t b = align k a.
End Views.

(** [bt_ok k]: the invariant of tags with blocks of [2 ^ k] bytes;
    [bt_place t a p]: [p] is a possible location of [a]. *)
Class BaseTagsLaws (T D : Type) `{!BaseTags T D} := {
  bt_ok : Z -> T -> Prop;
  bt_place : T -> Z -> Z -> Prop;
  bt_shape : T -> T -> Prop := fun t t' =>
    bt_regenerateBlkAddr t' = bt_regenerateBlkAddr t /\ bt_place t' = bt_place t /\
    bt_extractBlkOffset t' = bt_extractBlkOffset t;
  bt_k : forall k t, bt_ok k t -> 2 <= k < 32;
  bt_offset : forall k t a, bt_ok k t -> addr_ok a -> bt_extractBlkOffset t a = a mod 2 ^ k;
  bt_find_ok : forall k t a sec, bt_ok k t -> addr_ok a ->
    exists o, bt_findBlock t a sec = Ok o /\ forall p, o = Some p <-> holds_at k t a sec p;
  bt_regen_ok : forall k t p b, bt_ok k t -> bt_blk t p = Ok b -> isValid b = true ->
    addr_ok (bt_regenerateBlkAddr t b) /\ align k (bt_regenerateBlkAddr t b) = bt_regenerateBlkAddr t b;
  bt_regen_ext : forall t b b', tag b' = tag b -> CacheBlk.set b' = CacheBlk.set b ->
    bt_regenerateBlkAddr t b' = bt_regenerateBlkAddr t b;
  bt_store_ok : forall t p b b', bt_blk t p = Ok b ->
    exists t', bt_store t p b' = Ok t' /\ bt_shape t t' /\
      (forall q, bt_blk t' q = if decide (q = p) then Ok b' else bt_blk t q) /\
      (forall k, bt_ok k t -> isValid b = true -> keeps b b' -> bt_ok k t');
  bt_access_ok : forall k period now t a sec o, bt_ok k t -> addr_ok a -> 0 < period -> 0 < now ->
    bt_findBlock t a sec = Ok o ->
    exists lat t', bt_accessBlock period now t a sec = Ok (o, lat, t') /\ bt_ok k t' /\ bt_shape t t' /\
      (forall p b, bt_blk t p = Ok b -> exists b', bt_blk t' p = Ok b' /\ touched b b') /\
      (forall p b', bt_blk t' p = Ok b' -> exists b, bt_blk t p = Ok b);
  bt_victim_ok : forall k now random t a sec, bt_ok k t -> addr_ok a -> 0 < now -> random_ok random ->
    exists p b t', bt_findVictim now random t a sec = Ok (Some p, [p], t') /\ bt_ok k t' /\ bt_shape t t' /\
      bt_blk t' p = Ok b /\ bt_place t' a p /\
      (forall p b, bt_blk t p = Ok b -> exists b', bt_blk t' p = Ok b' /\ touched b b') /\
      (forall p b', bt_blk t' p = Ok b' -> exists b, bt_blk t p = Ok b);
  bt_invalidate_ok : forall k t p b, bt_ok k t -> bt_blk t p = Ok b -> isValid b = true ->
    exists t1 b1 t2, bt_invalidate t p = Ok t1 /\ bt_blk t1 p = Ok b1 /\
      bt_store t1 p (blk_invalidate b1) = Ok t2 /\ bt_ok k t2 /\ bt_shape t t2 /\
      (forall q, bt_blk t2 q = if decide (q = p) then Ok (blk_invalidate b1) else bt_blk t q);
  bt_insert_ok : forall k now random maxMasters t pkt p b, bt_ok k t -> bt_blk t p = Ok b -> isValid b = false ->
    bt_place t (pkt_addr pkt) p -> addr_ok (pkt_addr pkt) -> 0 < now -> pkt_masterId pkt < maxMasters ->
    (forall q, ~ holds_at k t (pkt_addr pkt) (pkt_secure pkt) q) ->
    exists t1 b1, bt_insertBlock now random maxMasters t pkt p = Ok t1 /\ bt_shape t t1 /\
      status b1 = (if pkt_secure pkt then BlkSecure else 0) /\
      bt_regenerateBlkAddr t1 b1 = align k (pkt_addr pkt) /\
      (forall q, bt_blk t1 q = if decide (q = p) then Ok b1 else bt_blk t q) /\
      (forall b2 t2, keeps b1 b2 -> bt_store t1 p b2 = Ok t2 -> bt_ok k t2) }.

(** * The set-associative tags *)

(** Policies whose reference counts never run out. *)
Class AlwaysRoom (P D : Type) `{!ReplacementPolicy P D, !ReplacementPolicyLaws P D} :=
  always_room : forall p d, rp_room p d.
#[export] Instance LRU_room : AlwaysRoom LRURP LRUReplData.
Proof. done. Qed.

#[export] Instance BaseSetAssoc_BaseTags {P D} `{!ReplacementPolicy P D} : BaseTags (BaseSetAssoc P D) D := {
  bt_blk t p := aread (blks t) p;
  bt_store t p b := bs ← awrite (blks t) p b; Ok (with_blks t bs (tagsInUse t));
  bt_findBlock := findBlock;
  bt_accessBlock := accessBlock;
  bt_findVictim now random t addr _ := '(v, t) ← findVictim now random t addr; Ok (Some v, [v], t);
  bt_insertBlock := insertBlock;
  bt_invalidate := invalidate;
  bt_regenerateBlkAddr := regenerateBlkAddr;
  bt_extractBlkOffset := extractBlkOffset }.

Section SetAssoc.
Context {P D : Type} `{!ReplacementPolicy P D, !ReplacementPolicyLaws P D}.
Implicit Types (t : BaseSetAssoc P D) (b : CacheBlk D).

Definition sa_ok (k : Z) t : Prop := exists m, tags_inv k m t /\ length (blks t) = Z.to_nat (2 ^ m * assoc t).
Definition sa_place t (a p : Z) : Prop := exists j, 0 <= j < assoc t /\ p = extractSet t a * assoc t + j.

(** A pointer into the array of blocks is that of a way of a set. *)
Lemma ptr_split k m t p b :
  tags_inv k m t -> length (blks t) = Z.to_nat (2 ^ m * assoc t) -> aread (blks t) p = Ok b ->
  exists i j, 0 <= i < 2 ^ m /\ 0 <= j < assoc t /\ p = i * assoc t + j /\ blk_at t i j = Some b.
Proof.
  intros I Hl Hb. pose proof (g_assoc _ _ _ (ti_geom _ _ _ I)) as Ha.
  pose proof (g_m _ _ _ (ti_geom _ _ _ I)) as Hm. pose proof (pow2_pos m ltac:(lia)) as H2.
  pose proof (aread_inv _ _ _ Hb) as [H0 Hlk]. apply lookup_lt_Some in Hlk as Hlt.
  pose proof (Z.div_mod p (assoc t) ltac:(lia)) as Hdm. pose proof (Z.mod_pos_bound p (assoc t) ltac:(lia)) as Hmod.
  assert (0 <= p / assoc t < 2 ^ m) as Hi.
  { split; [apply Z.div_pos; lia|]. apply Z.div_lt_upper_bound; [lia|]. nia. }
  exists (p / assoc t), (p mod assoc t). split; [done|]. split; [done|]. split; [lia|].
  apply aread_blk_at; [lia..|]. by replace (p / assoc t * assoc t + p mod assoc t) with p by lia.
Qed.

Lemma holds_at_spec k m t a sec p :
  tags_inv k m t -> length (blks t) = Z.to_nat (2 ^ m * assoc t) -> addr_ok a ->
  holds_at k t a sec p <-> holds t a sec p.
Proof.
  intros I Hl Ha. pose proof (ti_geom _ _ _ I) as G. pose proof (extractSet_range k m t a G Ha) as Hs.
  pose proof (g_assoc _ _ _ G) as Has. split.
  - intros (b & Hb & Hv & Hsec & Hr). cbn in Hb, Hr.
    destruct (ptr_split k m t p b I Hl Hb) as (i & j & Hi & Hj & -> & Hat).
    destruct (ti_blk _ _ _ I i j Hi Hj) as (b0 & Hb0 & Es & Ew & _). assert (b0 = b) as -> by congruence.
    pose proof (ti_tag _ _ _ I i j b Hi Hj Hat Hv) as Ht.
    assert (tag b = extractTag t a /\ i = extractSet t a) as [E1 E2].
    { unfold align in Hr. rewrite (regenerate_eq k m) in Hr by (done || lia). rewrite (extractTag_eq k m), (extractSet_eq k m) by done.
      pose proof (g_k _ _ _ G). pose proof (g_m _ _ _ G). pose proof (pow2_pos k ltac:(lia)). pose proof (pow2_pos m ltac:(lia)).
      rewrite Z.pow_add_r in Hr by lia. assert (a / 2 ^ k = 2 ^ m * tag b + i) as E by nia.
      rewrite Z.pow_add_r, <- Z.div_div by lia. rewrite E. split.
      - apply (Z.div_unique _ _ _ i); lia.
      - apply (Z.mod_unique _ _ (tag b)); lia. }
    exists j, b. rewrite <- E2. split; [done|]. split; [done|]. split; [done|]. by apply matches_blk.
  - intros (j & b & Hj & -> & Hb & (Et & Hv & Hsec)%matches_blk).
    destruct (ti_blk _ _ _ I _ j Hs Hj) as (b0 & Hb0 & Es & _). assert (b0 = b) as -> by congruence.
    exists b. split; [by apply aread_blk_at; try lia|]. split; [done|]. split; [done|].
    change (bt_regenerateBlkAddr t b) with (regenerateBlkAddr t b). rewrite (regenerate_align k m t b a) by done.
    by rewrite (blkAlign_eq k m).
Qed.

Lemma write_data_length (bs : list (CacheBlk D)) ptrs ds bs' : write_data bs ptrs ds = Ok bs' -> length bs' = length bs.
Proof.
  revert bs ds. induction ptrs as [|p ptrs IH]; intros bs [|d ds]; cbn; try by intros [= <-].
  intros H. res_inv. apply IH in H as ->. unfold awrite in H1. case_match; [|done]. injection H1 as <-.
  apply length_insert.
Qed.

Lemma findVictim_length now random t addr v t' :
  findVictim now random t addr = Ok (v, t') -> length (blks t') = length (blks t).
Proof. unfold findVictim. intros H. res_inv. cbn. by eapply write_data_length. Qed.

Lemma same_blks_touched k m t t' : tags_inv k m t -> length (blks t) = Z.to_nat (2 ^ m * assoc t) ->
  same_blks k m t t' -> length (blks t') = length (blks t) -> tags_inv k m t' ->
  (forall p b, aread (blks t) p = Ok b -> exists b', aread (blks t') p = Ok b' /\ touched b b') /\
  (forall p b', aread (blks t') p = Ok b' -> exists b, aread (blks t) p = Ok b).
Proof.
  intros I Hl [[bs Et] Hs] Hl' I'. assert (assoc t' = assoc t) as Ea by (by rewrite Et).
  pose proof (g_assoc _ _ _ (ti_geom _ _ _ I)) as Ha. split.
  - intros p b Hb. destruct (ptr_split k m t p b I Hl Hb) as (i & j & Hi & Hj & -> & Hat).
    destruct (Hs i j Hi Hj) as (b0 & b' & Hb0 & Hb' & Hsame). assert (b0 = b) as -> by congruence.
    exists b'. split.
    + rewrite <- Ea. apply aread_blk_at; [lia..|done].
    + unfold touched. red in Hsame. rewrite Hsame at 1. f_equal. by rewrite Hsame.
  - intros p b' Hb'. rewrite <- Ea, <- Hl' in Hl. destruct (ptr_split k m t' p b' I' Hl Hb') as (i & j & Hi & Hj & -> & _).
    destruct (Hs i j Hi ltac:(lia)) as (b0 & b1 & Hb0 & _). exists b0. rewrite Ea. apply aread_blk_at; [lia..|done].
Qed.
End SetAssoc.

Section SetAssocLaws.
Context {P D : Type} `{!ReplacementPolicy P D, !ReplacementPolicyLaws P D, !AlwaysRoom P D}.
Implicit Types (t : BaseSetAssoc P D) (b : CacheBlk D).

(** The shape of the tags, on which addresses depend, is never changed. *)
Lemma shape_with_blks t bs n :
  regenerateBlkAddr (with_blks t bs n) = regenerateBlkAddr t /\ sa_place (with_blks t bs n) = sa_place t /\
  extractBlkOffset (with_blks t bs n) = extractBlkOffset t.
Proof. done. Qed.

Lemma store_lookup t p b b' : aread (blks t) p = Ok b ->
  awrite (blks t) p b' = Ok (<[Z.to_nat p := b']> (blks t)) /\
  forall q, aread (<[Z.to_nat p := b']> (blks t)) q = if decide (q = p) then Ok b' else aread (blks t) q.
Proof.
  intros [H0 Hlk]%aread_inv. apply lookup_lt_Some in Hlk as Hlt. split; [apply awrite_Ok; lia|].
  intros q. case_decide as Hq.
  - subst. by apply aread_Ok; [|apply list_lookup_insert_eq].
  - unfold aread. destruct (Z.leb_spec 0 q); [|done]. by rewrite list_lookup_insert_ne by lia.
Qed.

(** A block written to the place of [i] and [j], as the blocks of the tags. *)
Lemma store_set_blk t i j b n : with_blks t (<[Z.to_nat (i * assoc t + j) := b]> (blks t)) n = set_blk t i j b n.
Proof. done. Qed.

Lemma sa_length_set k m t i j b n : tags_inv k m (set_blk t i j b n) -> length (blks t) = Z.to_nat (2 ^ m * assoc t) ->
  sa_ok k (set_blk t i j b n).
Proof. intros I Hl. exists m. split; [done|]. cbn. by rewrite length_insert. Qed.

Lemma valid_repl k m t i j b : tags_inv k m t -> 0 <= i < 2 ^ m -> 0 <= j < assoc t -> blk_at t i j = Some b ->
  isValid b = true -> rp_valid (replacementPolicy t) (replacementData b).
Proof.
  intros I Hi Hj Hb Hv. destruct (ti_blk _ _ _ I i j Hi Hj) as (b0 & Hb0 & _ & _ & Hr).
  assert (b0 = b) as -> by congruence. red in Hr. by rewrite Hv in Hr.
Qed.

Lemma keeps_ok k t p b b' n : sa_ok k t -> aread (blks t) p = Ok b -> isValid b = true -> keeps b b' ->
  sa_ok k (with_blks t (<[Z.to_nat p := b']> (blks t)) n).
Proof.
  intros (m & I & Hl) Hb Hv (K1 & K2 & K3 & K4 & K5 & K6).
  destruct (ptr_split k m t p b I Hl Hb) as (i & j & Hi & Hj & -> & Hat). rewrite store_set_blk.
  destruct (ti_blk _ _ _ I i j Hi Hj) as (b0 & Hb0 & Es & Ew & _). assert (b0 = b) as -> by congruence.
  apply (sa_length_set k m); [|done]. apply set_blk_inv; try done; [congruence..| |].
  - red. rewrite K6, K4. by apply (valid_repl k m t i j).
  - intros _. rewrite K1, K5. split; [by eapply (ti_tag _ _ _ I i j)|].
    intros j' b2 Hj' Hne Hb2. apply not_true_is_false. intros (E1 & E2 & E3)%matches_blk.
    apply Hne. by apply (ti_unique _ _ _ I i j' j b2 b).
Qed.

Lemma access_sa k period now t a sec o : sa_ok k t -> addr_ok a -> 0 < period -> 0 < now ->
  findBlock t a sec = Ok o ->
  exists lat t', accessBlock period now t a sec = Ok (o, lat, t') /\ sa_ok k t' /\
    (exists bs, t' = with_blks t bs (tagsInUse t)) /\
    (forall p b, aread (blks t) p = Ok b -> exists b', aread (blks t') p = Ok b' /\ touched b b') /\
    (forall p b', aread (blks t') p = Ok b' -> exists b, aread (blks t) p = Ok b).
Proof.
  intros (m & I & Hl) Ha Hper Hnow Hf. unfold accessBlock. rewrite Hf. cbn [mbind res_bind].
  assert (forall p b, aread (blks t) p = Ok b -> exists b', aread (blks t) p = Ok b' /\ touched b b') as Hrefl
    by (intros p b Hb; exists b; split; [done|by destruct b]).
  destruct o as [p|].
  2:{ exists (CacheTags.lookupLatency t), t. split; [done|]. split; [by exists m|]. split; [exists (blks t); by destruct t|].
      split; [done|]. intros p b' Hb'. by exists b'. }
  pose proof (proj1 (findBlock_Some k m t a sec p I Ha) Hf) as (j & b & Hj & -> & Hat & (Et & Hv & Hsec)%matches_blk).
  pose proof (extractSet_range k m t a (ti_geom _ _ _ I) Ha) as Hi. set (i := extractSet t a) in *.
  assert (aread (blks t) (i * assoc t + j) = Ok b) as Hb by (apply aread_blk_at; [lia..|done]).
  rewrite Hb. cbn [mbind res_bind].
  assert (exists lat, (if now <? whenReady b then
     c ← ticksToCycles period (u64 (whenReady b - now));
     Ok (if accessLatency t <? c then u64 (c + accessLatency t) else accessLatency t)
     else Ok (accessLatency t)) = Ok lat) as [lat ->].
  { case_match; [|by eexists]. unfold ticksToCycles, divCeil. destruct (Z.eqb_spec period 0); [lia|]. by eexists. }
  cbn [mbind res_bind].
  match goal with |- context [awrite _ _ ?x] => set (b' := x) end.
  destruct (store_lookup t _ b b' Hb) as [-> Hq]. cbn [mbind res_bind].
  eexists _, _. split; [reflexivity|]. split; [|split; [by eexists|split]].
  - rewrite store_set_blk. apply (sa_length_set k m); [|done].
    destruct (ti_blk _ _ _ I i j Hi Hj) as (b0 & Hb0 & Es & Ew & _). assert (b0 = b) as -> by congruence.
    apply set_blk_inv; try done.
    + red. change (isValid b') with (isValid b). rewrite Hv. cbn.
      apply law_touch; [apply (ti_policy _ _ _ I)|done|by apply (valid_repl k m t i j)|apply always_room].
    + intros _. split; [by apply (ti_tag _ _ _ I i j b)|]. intros j' b2 Hj' Hne Hb2. apply not_true_is_false.
      intros (E1 & E2 & E3)%matches_blk. apply Hne. by apply (ti_unique _ _ _ I i j' j b2 b).
  - intros q c Hc. cbn [with_blks blks]. rewrite Hq. case_decide; [|by apply Hrefl]. exists b'. split; [done|].
    subst. replace c with b by congruence. done.
  - intros q c. cbn [with_blks blks]. rewrite Hq. case_decide; [|by eexists]. subst. by eexists.
Qed.

Lemma victim_sa k now random t a : sa_ok k t -> addr_ok a -> 0 < now -> random_ok random ->
  exists p b t', findVictim now random t a = Ok (p, t') /\ sa_ok k t' /\ (exists bs, t' = with_blks t bs (tagsInUse t)) /\
    aread (blks t') p = Ok b /\ sa_place t' a p /\
    (forall p b, aread (blks t) p = Ok b -> exists b', aread (blks t') p = Ok b' /\ touched b b') /\
    (forall p b', aread (blks t') p = Ok b' -> exists b, aread (blks t) p = Ok b).
Proof.
  intros (m & I & Hl) Ha Hn Hr. destruct (findVictim_spec k m now random t a I Ha Hn Hr) as (j & t' & Hf & Hj & I' & Hs & _).
  pose proof (findVictim_length _ _ _ _ _ _ Hf) as Hl'.
  destruct (same_blks_touched k m t t' I Hl Hs Hl' I') as [H1 H2].
  pose proof Hs as [[bs Et] Hs']. pose proof (extractSet_range k m t a (ti_geom _ _ _ I) Ha) as Hi.
  destruct (Hs' _ j Hi Hj) as (b & b' & _ & Hb' & _). assert (assoc t' = assoc t) as Ea by (by rewrite Et).
  exists (extractSet t a * assoc t + j), b', t'. split; [done|].
  split; [exists m; split; [done|by rewrite Hl', Ea]|]. split; [by exists bs|]. split.
  { rewrite <- Ea. apply aread_blk_at; [lia..|done]. }
  split; [|done]. exists j. rewrite Et. cbn. done.
Qed.

Lemma invalidate_sa k t p b : sa_ok k t -> aread (blks t) p = Ok b -> isValid b = true ->
  exists t1 b1, invalidate t p = Ok t1 /\ aread (blks t1) p = Ok b1 /\
    t1 = with_blks t (<[Z.to_nat p := b1]> (blks t)) (tagsInUse t - 1) /\
    forall n, sa_ok k (with_blks t (<[Z.to_nat p := blk_invalidate b1]> (blks t)) n).
Proof.
  intros (m & I & Hl) Hb Hv. unfold invalidate. rewrite Hb. cbn [mbind res_bind]. rewrite Hv.
  match goal with |- context [awrite _ _ ?x] => set (b1 := x) end.
  destruct (store_lookup t p b b1 Hb) as [-> Hq]. cbn [mbind res_bind].
  eexists _, b1. split; [reflexivity|]. split; [cbn [with_blks blks]; rewrite Hq; by rewrite decide_True|].
  split; [done|]. intros n. destruct (ptr_split k m t p b I Hl Hb) as (i & j & Hi & Hj & -> & Hat).
  destruct (ti_blk _ _ _ I i j Hi Hj) as (b0 & Hb0 & Es & Ew & _). assert (b0 = b) as -> by congruence.
  rewrite store_set_blk. apply (sa_length_set k m); [|done]. apply set_blk_inv; try done.
  red. change (isValid (blk_invalidate b1)) with false. cbn. apply law_invalidate, (ti_policy _ _ _ I).
Qed.

Lemma insert_sa k now random maxMasters t pkt p b : sa_ok k t -> aread (blks t) p = Ok b -> isValid b = false ->
  sa_place t (pkt_addr pkt) p -> addr_ok (pkt_addr pkt) -> 0 < now -> pkt_masterId pkt < maxMasters ->
  (forall q, ~ holds_at k t (pkt_addr pkt) (pkt_secure pkt) q) ->
  exists b1, insertBlock now random maxMasters t pkt p =
      Ok (with_blks t (<[Z.to_nat p := b1]> (blks t)) (tagsInUse t + 1)) /\
    status b1 = (if pkt_secure pkt then BlkSecure else 0) /\
    regenerateBlkAddr t b1 = align k (pkt_addr pkt) /\
    forall b2 n, keeps b1 b2 -> sa_ok k (with_blks t (<[Z.to_nat p := b2]> (blks t)) n).
Proof.
  intros (m & I & Hl) Hb Hv (j & Hj & ->) Ha Hn Hm Hno. unfold insertBlock. rewrite Hb. cbn [mbind res_bind].
  rewrite Hv. cbn [negb]. rewrite (proj2 (Z.ltb_lt _ _)) by done.
  match goal with |- context [awrite _ _ ?x] => set (b1 := x) end.
  pose proof (extractSet_range k m t _ (ti_geom _ _ _ I) Ha) as Hi. set (i := extractSet t (pkt_addr pkt)) in *.
  apply aread_blk_at in Hb as Hat; [|lia..].
  destruct (ti_blk _ _ _ I i j Hi Hj) as (b0 & Hb0 & Es & Ew & _). assert (b0 = b) as -> by congruence.
  destruct (store_lookup t _ b b1 Hb) as [-> _]. cbn [mbind res_bind].
  exists b1. split; [done|]. split; [done|]. split.
  { rewrite (regenerate_align k m t b1 (pkt_addr pkt)); [exact (blkAlign_eq k m t _ (ti_geom _ _ _ I) Ha)|apply (ti_geom _ _ _ I)|done..]. }
  intros b2 n (K1 & K2 & K3 & K4 & K5 & K6). rewrite store_set_blk. apply (sa_length_set k m); [|done].
  apply set_blk_inv; try done; [by rewrite K2|by rewrite K3| |].
  - red. rewrite K6, K4. cbn. apply law_reset; [apply (ti_policy _ _ _ I)|done].
  - intros _. rewrite K1, K5. split; [apply (extractTag_range k m t); [apply (ti_geom _ _ _ I)|done]|].
    intros j' b3 Hj' Hne Hb3. apply not_true_is_false. intros Hmt.
    apply (Hno (i * assoc t + j')). apply (holds_at_spec k m); [done..|]. exists j', b3. split; [done|]. split; [done|].
    split; [done|]. revert Hmt. cbn [b1 with_repl blk_insert tag]. unfold CacheBlk.isSecure at 1. cbn [status with_repl blk_insert b1].
    by destruct (pkt_secure pkt).
Qed.

#[export] Program Instance BaseSetAssoc_laws : BaseTagsLaws (BaseSetAssoc P D) D := {
  bt_ok := sa_ok; bt_place := sa_place }.
Next Obligation. intros k t (m & I & _). apply (g_k _ _ _ (ti_geom _ _ _ I)). Qed.
Next Obligation.
  intros k t a (m & I & _) Ha. pose proof (ti_geom _ _ _ I) as G. pose proof (g_k _ _ _ G). cbn. unfold extractBlkOffset, blkMask.
  rewrite (g_blkSize _ _ _ G). pose proof (Z.pow_le_mono_r 2 k 31 ltac:(lia) ltac:(lia)). pose proof (pow2_pos k ltac:(lia)).
  rewrite (wrap_u_id 32 (2 ^ k - 1)) by lia. replace (2 ^ k - 1) with (Z.ones k) by (rewrite Z.ones_equiv; lia).
  rewrite Z.land_ones by lia. apply wrap_s_id; [lia|]. pose proof (Z.mod_pos_bound a (2 ^ k) ltac:(lia)). change (2 ^ (32 - 1)) with (2 ^ 31). lia.
Qed.
Next Obligation.
  intros k t a sec (m & I & Hl) Ha. destruct (findBlock_spec k m t a sec I Ha) as (o & Ho & Hp). exists o. split; [done|].
  intros p. by rewrite (holds_at_spec k m).
Qed.
Next Obligation.
  intros k t p b (m & I & Hl) Hb Hv. cbn in *. pose proof (ti_geom _ _ _ I) as G.
  destruct (ptr_split k m t p b I Hl Hb) as (i & j & Hi & Hj & -> & Hat).
  destruct (ti_blk _ _ _ I i j Hi Hj) as (b0 & Hb0 & Es & Ew & _). assert (b0 = b) as -> by congruence.
  pose proof (ti_tag _ _ _ I i j b Hi Hj Hat Hv) as Ht. rewrite (regenerate_eq k m) by (done || lia).
  pose proof (g_k _ _ _ G). pose proof (g_m _ _ _ G). pose proof (pow2_pos k ltac:(lia)). pose proof (pow2_pos m ltac:(lia)).
  assert (2 ^ (64 - (k + m)) * 2 ^ (k + m) = 2 ^ 64) as E64 by (rewrite <- Z.pow_add_r by lia; f_equal; lia).
  rewrite (Z.pow_add_r 2 k m) in E64 by lia. rewrite (Z.pow_add_r 2 k m) by lia. split; [|unfold align].
  { unfold addr_ok. set (X := 2 ^ (64 - (k + m))) in *. assert (tag b * 2 ^ m + CacheBlk.set b < X * 2 ^ m) by nia. nia. }
  replace (tag b * (2 ^ k * 2 ^ m) + CacheBlk.set b * 2 ^ k) with ((tag b * 2 ^ m + CacheBlk.set b) * 2 ^ k) by lia.
  by rewrite Z.div_mul by lia.
Qed.
Next Obligation. intros t b b' E1 E2. cbn. unfold regenerateBlkAddr. by rewrite E1, E2. Qed.
Next Obligation.
  intros t p b b' Hb. cbn in *. destruct (store_lookup t p b b' Hb) as [-> Hq]. cbn [mbind res_bind].
  eexists. split; [reflexivity|]. split; [apply shape_with_blks|]. split; [exact Hq|]. intros k Hok Hv Hk. by eapply keeps_ok.
Qed.
Next Obligation.
  intros k period now t a sec o Hok Ha Hp Hn Hf. destruct (access_sa k period now t a sec o Hok Ha Hp Hn Hf)
    as (lat & t' & H1 & H2 & (bs & ->) & H3 & H4). exists lat, (with_blks t bs (tagsInUse t)). by split_and!.
Qed.
Next Obligation.
  intros k now random t a sec Hok Ha Hn Hr. destruct (victim_sa k now random t a Hok Ha Hn Hr)
    as (p & b & t' & H1 & H2 & (bs & ->) & H3 & H4 & H5 & H6). exists p, b, (with_blks t bs (tagsInUse t)).
  cbn. rewrite H1. by split_and!.
Qed.
Next Obligation.
  intros k t p b Hok Hb Hv. cbn in *. destruct (invalidate_sa k t p b Hok Hb Hv) as (t1 & b1 & H1 & H2 & Et & H3).
  destruct (store_lookup t1 p b1 (blk_invalidate b1) H2) as [Hw Hq].
  assert (<[Z.to_nat p := blk_invalidate b1]> (blks t1) = <[Z.to_nat p := blk_invalidate b1]> (blks t)) as Eb
    by (rewrite Et; cbn; by rewrite list_insert_insert_eq).
  exists t1, b1, (with_blks t (<[Z.to_nat p := blk_invalidate b1]> (blks t)) (tagsInUse t - 1)).
  rewrite Hw. cbn [mbind res_bind]. rewrite Eb. split; [done|]. split; [done|]. split; [by rewrite Et|]. split; [apply H3|].
  split; [apply shape_with_blks|]. by apply (store_lookup t p b).
Qed.
Next Obligation.
  intros k now random maxMasters t pkt p b Hok Hb Hv Hp Ha Hn Hm Hno. cbn in *.
  destruct (insert_sa k now random maxMasters t pkt p b Hok Hb Hv Hp Ha Hn Hm Hno) as (b1 & -> & H2 & H3 & H4).
  eexists _, b1. split; [reflexivity|]. split; [apply shape_with_blks|]. split; [done|]. split; [done|].
  split; [by apply (store_lookup t p b)|]. intros b2 t2 Hk Ht2. cbn [with_blks blks tagsInUse] in Ht2.
  assert (length (blks t) = length (<[Z.to_nat p := b1]> (blks t))) as Hlen by (by rewrite length_insert).
  apply aread_inv in Hb as [H0 Hlk]. apply lookup_lt_Some in Hlk.
  rewrite awrite_Ok in Ht2 by lia. cbn [mbind res_bind] in Ht2. injection Ht2 as <-. rewrite list_insert_insert_eq. by apply H4.
Qed.
(** New tags satisfy the invariant and hold no block. *)
Lemma new_sa_ok k m a tl dl sequential (policy : P) (raw : CacheBlk D) :
  2 <= k < 31 -> 0 <= m < 32 -> 0 < a -> 2 ^ k * a < 2 ^ 31 -> 2 ^ k * a * 2 ^ m <= 2 ^ 32 -> rp_ok policy ->
  exists t, BaseSetAssoc_new (2 ^ k * a * 2 ^ m) (2 ^ k) a tl dl sequential policy raw = Ok t /\ sa_ok k t /\
    length (blks t) = Z.to_nat (2 ^ m * a) /\ forall p b, bt_blk t p = Ok b -> isValid b = false.
Proof.
  intros Hk Hm Ha Hway Hsz Hp.
  destruct (new_inv k m a tl dl sequential policy raw) as (t & E & I & Eas & _); [done..|].
  destruct (new_unfold k m a tl dl sequential policy raw) as (bs & t' & Hlk & Hl & E' & _ & _ & Eb & _); [done..|].
  assert (t' = t) as -> by congruence. exists t. split; [done|]. rewrite Eb. split; [exists m; split; [done|by rewrite Eb, Eas]|].
  split; [done|]. intros p b Hb. cbn in Hb. rewrite Eb in Hb. apply aread_inv in Hb as [H0 Hb].
  apply lookup_lt_Some in Hb as Hlt. rewrite Hl in Hlt. destruct (Hlk p) as (b' & Hb' & Hv & _); [lia|]. congruence.
Qed.

End SetAssocLaws.
