(* ===== verification/Cache.v ===== *)
(** The coherent cache in atomic mode, from src/mem/cache/base.cc and cache.cc:
    how a cache serves a request of its own side and a snoop of the other, over
    any tags ([BaseTags]) and with the ports as arguments.

    In atomic mode there are no outstanding misses and the write buffer is
    empty; the lookups in both find nothing.  The functional access is in
    FuncAccess.  Latencies, prefetching and
    statistics are not modelled. *)
From S2P Require Import Prelude Bitfield IntMath AddrRange CacheBlk ReplPolicy CacheTags TagStore MemPacket.

(** * State *)

Inductive Clusivity := mostly_incl | mostly_excl.

(** The parameters; [forwardSnoops]: whether the port above is snooping. *)
Record CacheParams := {
  cp_blkSize : Z; isReadOnly : bool; cp_writebackClean : bool; clusivity : Clusivity; doFastWrites : bool;
  forwardSnoops : bool; addrRanges : list AddrRange; clockPeriod : Z; maxMasters : Z }.

(** What surrounds the cache: the tick, the random numbers, the bytes of fresh
    memory, and the address of a new request. *)
Record Env := { now : Z; random : Z -> Z -> Z; fresh : Z -> list Z; new_id : Z }.

(** A block of the tags or the temporary block. *)
Inductive blk_ptr := TagBlk (p : Z) | TempBlk.
Definition is_temp (q : blk_ptr) : bool := match q with TempBlk => true | TagBlk _ => false end.

Section Cache.
Context {T D : Type} `{!BaseTags T D}.

(** [c_data]: what the [data] pointers of the blocks of the tags point to;
    [tempAddr]: [_addr] of the temporary block. *)
Record Cache := {
  params : CacheParams; tags : T; c_data : list (list Z);
  tempBlock : CacheBlk D; tempAddr : Z; tempData : list Z; tempBlockWriteback : option Packet }.

Definition with_tags (c : Cache) (t : T) : Cache :=
  {| params := params c; tags := t; c_data := c_data c; tempBlock := tempBlock c; tempAddr := tempAddr c;
     tempData := tempData c; tempBlockWriteback := tempBlockWriteback c |}.
Definition with_c_data (c : Cache) (d : list (list Z)) : Cache :=
  {| params := params c; tags := tags c; c_data := d; tempBlock := tempBlock c; tempAddr := tempAddr c;
     tempData := tempData c; tempBlockWriteback := tempBlockWriteback c |}.
Definition with_temp (c : Cache) (b : CacheBlk D) (a : Z) (d : list Z) : Cache :=
  {| params := params c; tags := tags c; c_data := c_data c; tempBlock := b; tempAddr := a;
     tempData := d; tempBlockWriteback := tempBlockWriteback c |}.
Definition with_tempBlockWriteback (c : Cache) (w : option Packet) : Cache :=
  {| params := params c; tags := tags c; c_data := c_data c; tempBlock := tempBlock c; tempAddr := tempAddr c;
     tempData := tempData c; tempBlockWriteback := w |}.

Definition c_blkSize (c : Cache) : Z := cp_blkSize (params c).

(** The constructor: [raw], the temporary block and its address before it has
    been made; [d], the storage of the blocks and of the temporary block. *)
Definition BaseCache_new (p : CacheParams) (t : T) (d : list (list Z)) (raw : CacheBlk D) (raw_addr : Z) (raw_data : list Z) : Cache :=
  {| params := p; tags := t; c_data := d; tempBlock := blk_invalidate raw; tempAddr := raw_addr; tempData := raw_data;
     tempBlockWriteback := None |}.

(** ** The block a pointer points to *)

Definition get_blk (c : Cache) (q : blk_ptr) : res (CacheBlk D) :=
  match q with TagBlk p => bt_blk (tags c) p | TempBlk => Ok (tempBlock c) end.
Definition put_blk (c : Cache) (q : blk_ptr) (b : CacheBlk D) : res Cache :=
  match q with
  | TagBlk p => t ← bt_store (tags c) p b; Ok (with_tags c t)
  | TempBlk => Ok (with_temp c b (tempAddr c) (tempData c))
  end.
Definition get_data (c : Cache) (q : blk_ptr) : res (list Z) :=
  match q with TagBlk p => aread (c_data c) p | TempBlk => Ok (tempData c) end.
Definition put_data (c : Cache) (q : blk_ptr) (d : list Z) : res Cache :=
  match q with
  | TagBlk p => ds ← awrite (c_data c) p d; Ok (with_c_data c ds)
  | TempBlk => Ok (with_temp c (tempBlock c) (tempAddr c) d)
  end.

(** [blk->status |= m] and [blk->status &= ~m] *)
Definition status_or (c : Cache) (q : blk_ptr) (m : Z) : res Cache :=
  b ← get_blk c q; put_blk c q (with_status b (Z.lor (status b) m)).
Definition status_clear (c : Cache) (q : blk_ptr) (m : Z) : res Cache :=
  b ← get_blk c q; put_blk c q (with_status b (Z.land (status b) (u32 (Z.lnot m)))).

(** [blk && blk->isValid()] *)
Definition ptr_valid (c : Cache) (o : option blk_ptr) : res bool :=
  match o with None => Ok false | Some q => b ← get_blk c q; Ok (isValid b) end.

Definition c_regenerateBlkAddr (c : Cache) (q : blk_ptr) : res Z :=
  match q with TagBlk p => b ← bt_blk (tags c) p; Ok (bt_regenerateBlkAddr (tags c) b) | TempBlk => Ok (tempAddr c) end.

Definition inRange (c : Cache) (addr : Z) : bool := existsb (fun r => contains r addr) (addrRanges (params c)).

Definition allocOnFill (c : Cache) (cmd : MemCmd) : bool :=
  (match clusivity (params c) with mostly_incl => true | mostly_excl => false end) ||
  cmd_eq cmd WriteLineReq || cmd_eq cmd ReadReq || cmd_eq cmd WriteReq || cmd_isPrefetch cmd || cmd_isLLSC cmd.

Definition c_invalidateBlock (c : Cache) (q : blk_ptr) : res Cache :=
  match q with
  | TagBlk p =>
    t ← bt_invalidate (tags c) p;
    b ← bt_blk t p;
    t ← bt_store t p (blk_invalidate b);
    Ok (with_tags c t)
  | TempBlk => Ok (with_temp c (blk_invalidate (tempBlock c)) MaxAddr (tempData c))
  end.

(** * Evicting a block *)

(** The request of a writeback. *)
Definition wb_request (addr blk_size : Z) (b : CacheBlk D) : Request :=
  let req := Request_new addr blk_size 0 wbMasterId in
  let req := if CacheBlk.isSecure b then req_setFlags SECURE req else req in
  req_setTaskId (task_id b) req.

(** Pass on the state of the block: it is no longer writable nor dirty here. *)
Definition hand_over (c : Cache) (q : blk_ptr) (pkt : Packet) : res (Packet * Cache) :=
  b ← get_blk c q;
  '(pkt, c) ← (if isWritable b then c ← status_clear c q BlkWritable; Ok (pkt, c) else Ok (setHasSharers pkt, c));
  c ← status_clear c q BlkDirty;
  Ok (pkt, c).

Definition c_writebackBlk (e : Env) (c : Cache) (q : blk_ptr) : res (Packet * Cache) :=
  b ← get_blk c q;
  assert! negb (isReadOnly (params c)) || cp_writebackClean (params c) ;;
  assert! isValid b && (isDirty b || cp_writebackClean (params c)) ;;
  addr ← c_regenerateBlkAddr c q;
  let req := wb_request addr (c_blkSize c) b in
  let pkt := Packet_new (new_id e) req (if isDirty b then WritebackDirty else WritebackClean) in
  '(pkt, c) ← hand_over c q pkt;
  pkt ← allocate (fresh e) pkt;
  d ← get_data c q;
  pkt ← setDataFromBlock pkt d (c_blkSize c);
  Ok (pkt, c).

Definition c_writecleanBlk (e : Env) (c : Cache) (q : blk_ptr) (dest id : Z) : res (Packet * Cache) :=
  b ← get_blk c q;
  addr ← c_regenerateBlkAddr c q;
  let req := wb_request addr (c_blkSize c) b in
  let pkt := Packet_new_blk (new_id e) req WriteClean (c_blkSize c) id in
  pkt ← (if negb (dest =? 0) then setWriteThrough (with_req (req_setFlags dest req) pkt) else Ok pkt);
  '(pkt, c) ← hand_over c q pkt;
  pkt ← allocate (fresh e) pkt;
  d ← get_data c q;
  pkt ← setDataFromBlock pkt d (c_blkSize c);
  Ok (pkt, c).

Definition c_cleanEvictBlk (e : Env) (c : Cache) (q : blk_ptr) : res Packet :=
  b ← get_blk c q;
  assert! negb (cp_writebackClean (params c)) ;;
  assert! isValid b && negb (isDirty b) ;;
  addr ← c_regenerateBlkAddr c q;
  allocate (fresh e) (Packet_new (new_id e) (wb_request addr (c_blkSize c) b) CleanEvict).

Definition c_evictBlock (e : Env) (c : Cache) (q : blk_ptr) : res (Packet * Cache) :=
  b ← get_blk c q;
  '(pkt, c) ← (if isDirty b || cp_writebackClean (params c) then c_writebackBlk e c q
               else pkt ← c_cleanEvictBlk e c q; Ok (pkt, c));
  c ← c_invalidateBlock c q;
  Ok (pkt, c).

(** * Allocating a block *)

(** What the tags use of a packet. *)
Definition tag_packet (pkt : Packet) : CacheTags.Packet :=
  {| pkt_addr := p_addr pkt; pkt_secure := p_isSecure pkt; pkt_masterId := r_masterId (p_req pkt);
     pkt_taskId := r_taskId (p_req pkt) |}.

(** The loop that evicts the valid blocks of [evict_blks]. *)
Fixpoint evict_all (e : Env) (c : Cache) (l : list Z) : res (list Packet * Cache) :=
  match l with
  | [] => Ok ([], c)
  | p :: l =>
    b ← bt_blk (tags c) p;
    '(w, c) ← (if isValid b then '(pkt, c) ← c_evictBlock e c (TagBlk p); Ok ([pkt], c) else Ok ([], c));
    '(ws, c) ← evict_all e c l;
    Ok (w ++ ws, c)
  end.

(** Returns the packets it appends to [writebacks]. *)
Definition c_allocateBlock (e : Env) (c : Cache) (pkt : Packet) : res (option blk_ptr * list Packet * Cache) :=
  '(victim, evict_blks, t) ← bt_findVictim (now e) (random e) (tags c) (p_addr pkt) (p_isSecure pkt);
  let c := with_tags c t in
  match victim with
  | None => Ok (None, [], c)
  | Some p =>
    '(ws, c) ← evict_all e c evict_blks;
    t ← bt_insertBlock (now e) (random e) (maxMasters (params c)) (tags c) (tag_packet pkt) p;
    Ok (Some (TagBlk p), ws, with_tags c t)
  end.

(** [tempBlock->insert(addr, is_secure)] *)
Definition temp_insert (c : Cache) (addr : Z) (is_secure : bool) : Cache :=
  with_temp c (with_status (tempBlock c) (if is_secure then BlkSecure else 0)) addr (tempData c).

(** * Satisfying a request from a block *)

(** The context whose locks a request is compared with; an assertion fails if
    the request has none and a comparison needs it. *)
Definition lock_request (r : Request) (ctx : Z) : CacheBlk.Request :=
  {| req_contextId := ctx; getPaddr := r_paddr r; CacheBlk.getSize := r_size r |}.
Definition lock_context (r : Request) (llsc : bool) (locks : list Lock) : res Z :=
  match r_contextId r with
  | Some ctx => Ok ctx
  | None =>
    assert! (if llsc then (match locks with [] => true | _ => false end)
             else negb (existsb (fun l => intersects l (lock_request r 0)) locks)) ;;
    Ok 0
  end.

(** [blk->checkWrite(pkt)] *)
Definition blk_checkWrite (pkt : Packet) (b : CacheBlk D) : res (bool * Packet * CacheBlk D) :=
  ctx ← lock_context (p_req pkt) (isLLSC pkt) (lockList b);
  '(ok, extra, b) ← checkWrite (isWrite pkt) (isLLSC pkt) (lock_request (p_req pkt) ctx) b;
  Ok (ok, match extra with Some v => with_req (req_setExtraData v (p_req pkt)) pkt | None => pkt end, b).
(** [blk->trackLoadLocked(pkt)] *)
Definition blk_trackLoadLocked (pkt : Packet) (b : CacheBlk D) : res (CacheBlk D) :=
  ctx ← req_getContextId (p_req pkt);
  trackLoadLocked (isLLSC pkt) (lock_request (p_req pkt) ctx) b.

(** The bytes of a number in memory; the host is little-endian. *)
Definition le_bytes (n : nat) (v : Z) : list Z := (fun i => Z.land (Z.shiftr v (8 * i)) 255) <$> seqZ 0 (Z.of_nat n).

(** [cmpAndSwap]: what it does to the packet and the data of the block; the
    last result is whether it writes. *)
Definition cmpAndSwap (pkt : Packet) (blk_data : list Z) (blk_size : Z) : res (Packet * list Z * bool) :=
  assert! isRequest pkt ;;
  let offset := getOffset pkt blk_size in
  assert! p_size pkt <=? 8 ;;
  overwrite_val ← writeData pkt;
  old ← bytes_at blk_data offset (p_size pkt);
  d ← getPtr pkt;
  d ← bytes_set d 0 old;
  let pkt := with_data (Some d) pkt in
  overwrite_mem ←
    (if req_isCondSwap (p_req pkt) then
       if p_size pkt =? 8 then v ← req_getExtraData (p_req pkt); Ok (bool_decide (le_bytes 8 v = old))
       else if p_size pkt =? 4 then v ← req_getExtraData (p_req pkt); Ok (bool_decide (le_bytes 4 (u32 v) = old))
       else Panic
     else Ok true);
  if overwrite_mem : bool then blk_data ← bytes_set blk_data offset overwrite_val; Ok (pkt, blk_data, true)
  else Ok (pkt, blk_data, false).

(** An atomic operation at its address in the block. *)
Definition atomicOp (pkt : Packet) (blk_data : list Z) (offset : Z) : res (Packet * list Z) :=
  old ← bytes_at blk_data offset (p_size pkt);
  d ← getPtr pkt;
  d ← bytes_set d 0 old;
  f ← (match r_atomicOp (p_req pkt) with Some f => Ok f | None => Panic end);
  blk_data ← bytes_set blk_data offset (f old);
  Ok (with_data (Some d) pkt, blk_data).

Definition BaseCache_satisfyRequest (pkt : Packet) (q : blk_ptr) (c : Cache) : res (Packet * Cache) :=
  assert! isRequest pkt ;;
  b ← get_blk c q;
  assert! isValid b ;;
  assert! u64 (getOffset pkt (c_blkSize c) + p_size pkt) <=? c_blkSize c ;;
  d ← get_data c q;
  if cmd_eq (p_cmd pkt) SwapReq then
    if isAtomicOp pkt then
      '(pkt, d) ← atomicOp pkt d (bt_extractBlkOffset (tags c) (p_addr pkt));
      c ← put_data c q d;
      c ← status_or c q BlkDirty;
      Ok (pkt, c)
    else
      '(pkt, d, written) ← cmpAndSwap pkt d (c_blkSize c);
      c ← put_data c q d;
      c ← (if written : bool then status_or c q BlkDirty else Ok c);
      Ok (pkt, c)
  else if isWrite pkt then
    assert! isWritable b ;;
    '(ok, pkt, b) ← blk_checkWrite pkt b;
    c ← put_blk c q b;
    c ← (if ok : bool then d ← writeDataToBlock pkt d (c_blkSize c); put_data c q d else Ok c);
    c ← status_or c q BlkDirty;
    Ok (pkt, c)
  else if isRead pkt then
    c ← (if isLLSC pkt then b ← blk_trackLoadLocked pkt b; put_blk c q b else Ok c);
    assert! hasRespData pkt ;;
    pkt ← setDataFromBlock pkt d (c_blkSize c);
    Ok (pkt, c)
  else if isUpgrade pkt then
    assert! negb (hasSharers pkt) ;;
    if isDirty b then pkt ← setCacheResponding pkt; c ← status_clear c q BlkDirty; Ok (pkt, c)
    else Ok (pkt, c)
  else if isClean pkt then
    c ← status_clear c q BlkDirty; Ok (pkt, c)
  else
    assert! isInvalidate pkt ;;
    c ← c_invalidateBlock c q; Ok (pkt, c).

(** [Cache::satisfyRequest]; in atomic mode no response is deferred and no
    downgrade pending. *)
Definition satisfyRequest (pkt : Packet) (q : blk_ptr) (c : Cache) : res (Packet * Cache) :=
  '(pkt, c) ← BaseCache_satisfyRequest pkt q c;
  if isRead pkt && fromCache pkt then
    assert! p_size pkt =? c_blkSize c ;;
    nw ← needsWritable pkt;
    b ← get_blk c q;
    if nw : bool then
      assert! cmd_eq (p_cmd pkt) ReadExReq || cmd_eq (p_cmd pkt) SCUpgradeFailReq ;;
      assert! negb (hasSharers pkt) ;;
      if isDirty b then pkt ← setCacheResponding pkt; c ← status_clear c q BlkDirty; Ok (pkt, c)
      else Ok (pkt, c)
    else if isWritable b && negb (hasSharers pkt) && negb (cmd_eq (p_cmd pkt) ReadCleanReq) then
      if isDirty b then pkt ← setCacheResponding pkt; c ← status_clear c q BlkDirty; Ok (pkt, c)
      else Ok (pkt, c)
    else Ok (setHasSharers pkt, c)
  else Ok (pkt, c).

Definition maintainClusivity (from_cache : bool) (q : blk_ptr) (c : Cache) : res Cache :=
  b ← get_blk c q;
  if from_cache && isValid b && negb (isDirty b) &&
     (match clusivity (params c) with mostly_excl => true | mostly_incl => false end)
  then c_invalidateBlock c q else Ok c.

(** * Looking a request up *)

(** Returns whether the request is satisfied, the block found, the writebacks,
    the packet and the cache. *)
Definition access_result : Type := bool * option blk_ptr * list Packet * Packet * Cache.

(** A write of a whole block from above, to the block [q]; the last step of the
    two write branches of [access]. *)
Definition write_block (pkt : Packet) (q : blk_ptr) (c : Cache) : res Cache :=
  assert! negb (needsResponse pkt) ;;
  d ← get_data c q;
  d ← writeDataToBlock pkt d (c_blkSize c);
  put_data c q d.

(** The block a writeback that misses allocates. *)
Definition allocate_for_write (e : Env) (pkt : Packet) (o : option blk_ptr) (c : Cache)
  : res (option blk_ptr * list Packet * Cache) :=
  match o with
  | Some q => Ok (Some q, [], c)
  | None =>
    '(o, ws, c) ← c_allocateBlock e c pkt;
    match o with
    | None => Ok (None, ws, c)
    | Some q => c ← status_or c q (Z.lor BlkValid BlkReadable); Ok (Some q, ws, c)
    end
  end.

Definition BaseCache_access (e : Env) (pkt : Packet) (c : Cache) : res access_result :=
  assert! isRequest pkt ;;
  assert! negb (isReadOnly (params c) && isWrite pkt) ;;
  '(o, _, t) ← bt_accessBlock (clockPeriod (params c)) (now e) (tags c) (p_addr pkt) (p_isSecure pkt);
  let c := with_tags c t in
  let blk := TagBlk <$> o in
  if req_isCacheMaintenance (p_req pkt) then Ok (false, blk, [], pkt, c)
  else if isWriteback pkt then
    assert! c_blkSize c =? p_size pkt ;;
    '(blk, ws, c) ← allocate_for_write e pkt blk c;
    match blk with
    | None => Ok (false, None, ws, pkt, c)
    | Some q =>
      c ← (if cmd_eq (p_cmd pkt) WritebackDirty then status_or c q BlkDirty else Ok c);
      c ← (if negb (hasSharers pkt) then status_or c q BlkWritable else Ok c);
      c ← write_block pkt q c;
      Ok (true, blk, ws, pkt, c)
    end
  else if cmd_eq (p_cmd pkt) CleanEvict then
    Ok (match blk with Some _ => true | None => false end, blk, [], pkt, c)
  else if cmd_eq (p_cmd pkt) WriteClean then
    assert! c_blkSize c =? p_size pkt ;;
    match blk, writeThrough pkt with
    | None, true => Ok (false, None, [], pkt, c)
    | _, _ =>
      '(blk, ws, c) ← allocate_for_write e pkt blk c;
      match blk with
      | None => Ok (false, None, ws, pkt, c)
      | Some q =>
        c ← (if negb (writeThrough pkt) then status_or c q BlkDirty else Ok c);
        c ← write_block pkt q c;
        Ok (negb (writeThrough pkt), blk, ws, pkt, c)
      end
    end
  else
    '(hit, pkt, c) ←
      (match blk with
       | None => Ok (false, pkt, c)
       | Some q =>
         b ← get_blk c q;
         nw ← needsWritable pkt;
         if (if nw : bool then isWritable b else isReadable b) then
           '(pkt, c) ← satisfyRequest pkt q c;
           c ← maintainClusivity (fromCache pkt) q c;
           Ok (true, pkt, c)
         else Ok (false, pkt, c)
       end);
    if hit : bool then Ok (true, blk, [], pkt, c)
    else if (match blk with None => true | Some _ => false end) && isLLSC pkt && isWrite pkt then
      Ok (true, blk, [], with_req (req_setExtraData 0 (p_req pkt)) pkt, c)
    else Ok (false, blk, [], pkt, c).

(** [Cache::access] *)
Definition access (e : Env) (pkt : Packet) (c : Cache) : res access_result :=
  if req_isUncacheable (p_req pkt) then
    assert! isRequest pkt ;;
    assert! negb (isReadOnly (params c) && isWrite pkt) ;;
    old_blk ← bt_findBlock (tags c) (p_addr pkt) (p_isSecure pkt);
    match old_blk with
    | Some p =>
      b ← bt_blk (tags c) p;
      if isValid b then '(w, c) ← c_evictBlock e c (TagBlk p); Ok (false, None, [w], pkt, c)
      else Ok (false, None, [], pkt, c)
    | None => Ok (false, None, [], pkt, c)
    end
  else BaseCache_access e pkt c.

Definition promoteWholeLineWrites (c : Cache) (pkt : Packet) : Packet :=
  if doFastWrites (params c) && cmd_eq (p_cmd pkt) WriteReq && (p_size pkt =? c_blkSize c) &&
     (getOffset pkt (c_blkSize c) =? 0)
  then with_cmd WriteLineReq pkt else pkt.

(** * Misses *)

(** The packet to send below; [None]: the packet goes through as it is.  The
    new packet has the request of the old one and so its identity. *)
Definition createMissPacket (e : Env) (c : Cache) (cpu_pkt : Packet) (o : option blk_ptr) (nw : bool)
  : res (option Packet) :=
  assert! negb (isEviction cpu_pkt) ;;
  blkValid ← ptr_valid c o;
  writable ← (match o with None => Ok false | Some q => b ← get_blk c q; Ok (isWritable b) end);
  if req_isUncacheable (p_req cpu_pkt) || (negb blkValid && isUpgrade cpu_pkt) ||
     cmd_eq (p_cmd cpu_pkt) InvalidateReq || isClean cpu_pkt then Ok None
  else
    assert! needsResponse cpu_pkt ;;
    cmd ←
      (if cmd_eq (p_cmd cpu_pkt) WriteLineReq then
         assert! negb blkValid || negb writable ;; Ok InvalidateReq
       else if blkValid : bool then
         assert! nw ;; assert! negb writable ;;
         Ok (if isLLSC cpu_pkt then SCUpgradeReq else UpgradeReq)
       else if cmd_eq (p_cmd cpu_pkt) SCUpgradeFailReq || cmd_eq (p_cmd cpu_pkt) StoreCondFailReq then Ok SCUpgradeFailReq
       else
         let force_clean_rsp := isReadOnly (params c) ||
           (match clusivity (params c) with mostly_excl => true | mostly_incl => false end) in
         Ok (if nw then ReadExReq else if force_clean_rsp then ReadCleanReq else ReadSharedReq));
    let pkt := Packet_new_blk (p_id cpu_pkt) (p_req cpu_pkt) cmd (c_blkSize c) 0 in
    let pkt := if hasSharers cpu_pkt && negb nw then setHasSharers pkt else pkt in
    assert! p_addr pkt =? getBlockAddr pkt (c_blkSize c) ;;
    pkt ← allocate (fresh e) pkt;
    Ok (Some pkt).

(** Returns the block, the writebacks and the cache. *)
Definition handleFill (e : Env) (pkt : Packet) (o : option blk_ptr) (alloc : bool) (c : Cache)
  : res (blk_ptr * list Packet * Cache) :=
  assert! isResponse pkt || cmd_eq (p_cmd pkt) WriteLineReq ;;
  let addr := p_addr pkt in
  assert! addr =? getBlockAddr pkt (c_blkSize c) ;;
  '(q, ws, c) ←
    (match o with
     | None =>
       assert! hasData pkt ;;
       assert! isRead pkt || cmd_eq (p_cmd pkt) WriteLineReq ;;
       '(o, ws, c) ← (if alloc : bool then c_allocateBlock e c pkt else Ok (None, [], c));
       '(q, c) ← (match o with
                  | Some q => Ok (q, c)
                  | None =>
                    assert! negb (isValid (tempBlock c)) ;;
                    Ok (TempBlk, temp_insert c addr (p_isSecure pkt))
                  end);
       b ← get_blk c q;
       assert! negb (isValid b) ;;
       Ok (q, ws, c)
     | Some q =>
       b ← get_blk c q;
       a ← c_regenerateBlkAddr c q;
       assert! a =? addr ;;
       assert! eqb (CacheBlk.isSecure b) (p_isSecure pkt) ;;
       assert! hasData pkt || isValid b ;;
       Ok (q, [], c)
     end);
  c ← status_or c q (Z.lor BlkValid BlkReadable);
  assert! negb (cmd_eq (p_cmd pkt) WriteLineReq && hasSharers pkt) ;;
  c ← (if negb (hasSharers pkt) then
         c ← status_or c q BlkWritable;
         if cacheResponding pkt then
           c ← status_or c q BlkDirty;
           assert! negb (isReadOnly (params c)) ;; Ok c
         else Ok c
       else Ok c);
  c ← (if isRead pkt then
         assert! hasData pkt ;;
         assert! p_size pkt =? c_blkSize c ;;
         d ← get_data c q;
         d ← writeDataToBlock pkt d (c_blkSize c);
         put_data c q d
       else Ok c);
  Ok (q, ws, c).

(** * Operations that use the ports *)

(** [S]: the state of the system, of which [getc] and [putc] read and write this
    cache; [sendAtomic]: the port of the memory side; [sendAtomicSnoop]: the
    port of the processor side. *)
Section Ports.
Context {S : Type} (getc : S -> res Cache) (putc : Cache -> S -> res S).
Context (sendAtomic sendAtomicSnoop : Packet -> S -> res (Packet * S)).
Context (e : Env).

(** Returns the packet, which the snoop may mark. *)
Definition isCachedAbove (pkt : Packet) (s : S) : res (bool * Packet * S) :=
  c ← getc s;
  if negb (forwardSnoops (params c)) then Ok (false, pkt, s)
  else '(pkt, s) ← sendAtomicSnoop pkt s; Ok (isBlockCached pkt, pkt, s).

Fixpoint doWritebacksAtomic (writebacks : list Packet) (s : S) : res S :=
  match writebacks with
  | [] => Ok s
  | wbPkt :: writebacks =>
    '(cached, wbPkt, s) ← isCachedAbove wbPkt s;
    s ← (if cached : bool then
           if cmd_eq (p_cmd wbPkt) WritebackDirty || cmd_eq (p_cmd wbPkt) WriteClean then
             '(_, s) ← sendAtomic wbPkt s; Ok s
           else Ok s
         else '(_, s) ← sendAtomic wbPkt s; Ok s);
    doWritebacksAtomic writebacks s
  end.

Definition writebackTempBlockAtomic (s : S) : res S :=
  c ← getc s;
  match tempBlockWriteback c with
  | None => Panic
  | Some w =>
    s ← doWritebacksAtomic [w] s;
    c ← getc s;
    putc (with_tempBlockWriteback c None) s
  end.

(** What a miss does with the response [bus_pkt]; returns the packet, the
    block, whether it is still to be invalidated, the writebacks and the cache. *)
Definition handle_response (bus_pkt pkt : Packet) (o : option blk_ptr) (c : Cache)
  : res (Packet * option blk_ptr * bool * list Packet * Cache) :=
  let is_invalidate := isInvalidate bus_pkt in
  if negb (needsResponse pkt) then Ok (pkt, o, is_invalidate, [], c)
  else
    assert! isResponse bus_pkt ;;
    if isError bus_pkt then
      pkt ← makeResponse pkt; pkt ← copyError bus_pkt pkt; Ok (pkt, o, is_invalidate, [], c)
    else if cmd_eq (p_cmd pkt) WriteLineReq then
      '(q, ws, c) ← handleFill e pkt o (allocOnFill c (p_cmd pkt)) c;
      '(pkt, c) ← satisfyRequest pkt q c;
      Ok (pkt, Some q, false, ws, c)
    else if isRead bus_pkt || cmd_eq (p_cmd bus_pkt) UpgradeResp then
      '(q, ws, c) ← handleFill e bus_pkt o (allocOnFill c (p_cmd pkt)) c;
      '(pkt, c) ← satisfyRequest pkt q c;
      c ← maintainClusivity (fromCache pkt) q c;
      Ok (pkt, Some q, is_invalidate, ws, c)
    else pkt ← makeResponse pkt; Ok (pkt, o, is_invalidate, [], c).

(** Returns the packet and the writebacks; the block is passed by value, so
    that the caller does not see the one the fill chooses. *)
Definition handleAtomicReqMiss (pkt : Packet) (o : option blk_ptr) (s : S) : res (Packet * list Packet * S) :=
  if isEviction pkt || cmd_eq (p_cmd pkt) WriteClean || (req_isUncacheable (p_req pkt) && isWrite pkt) then
    '(pkt, s) ← sendAtomic pkt s;
    assert! negb (req_isUncacheable (p_req pkt) && isWrite pkt) || isResponse pkt ;;
    Ok (pkt, [], s)
  else
    c ← getc s;
    nw ← needsWritable pkt;
    miss ← createMissPacket e c pkt o nw;
    '(pkt, o, is_invalidate, ws, s) ←
      (match miss with
       | None =>
         '(pkt, s) ← sendAtomic pkt s;
         Ok (pkt, o, isInvalidate pkt, [], s)
       | Some bus_pkt =>
         '(bus_pkt, s) ← sendAtomic bus_pkt s;
         c ← getc s;
         '(pkt, o, inv, ws, c) ← handle_response bus_pkt pkt o c;
         s ← putc c s;
         Ok (pkt, o, inv, ws, s)
       end);
    c ← getc s;
    valid ← ptr_valid c o;
    match o with
    | Some q =>
      if is_invalidate && valid then c ← c_invalidateBlock c q; s ← putc c s; Ok (pkt, ws, s)
      else Ok (pkt, ws, s)
    | None => Ok (pkt, ws, s)
    end.

(** The end of [recvAtomic] for a block in the temporary block: a writeback
    still to be sent is sent, otherwise an event is scheduled to send the new
    one ([writebackTempBlockAtomic], a step of its own). *)
Definition retire_temp (o : option blk_ptr) (s : S) : res S :=
  c ← getc s;
  match o with
  | Some TempBlk =>
    if isValid (tempBlock c) then
      s ← (match tempBlockWriteback c with Some _ => writebackTempBlockAtomic s | None => Ok s end);
      c ← getc s;
      '(w, c) ← c_evictBlock e c TempBlk;
      putc (with_tempBlockWriteback c (Some w)) s
    else Ok s
  | _ => Ok s
  end.

(** [pkt->isClean() && blk && blk->isDirty()]: clean the block on the way to
    memory. *)
Definition clean_block (pkt : Packet) (o : option blk_ptr) (c : Cache) : res (Packet * list Packet * Cache) :=
  match o with
  | Some q =>
    b ← get_blk c q;
    if isClean pkt && isDirty b then
      '(w, c) ← c_writecleanBlk e c q (req_getDest (p_req pkt)) (p_id pkt);
      pkt ← setSatisfied pkt;
      Ok (pkt, [w], c)
    else Ok (pkt, [], c)
  | None => Ok (pkt, [], c)
  end.

Definition BaseCache_recvAtomic (pkt : Packet) (s : S) : res (Packet * S) :=
  if cacheResponding pkt && negb (isClean pkt) then
    assert! negb (req_isCacheInvalidate (p_req pkt)) ;;
    nw ← needsWritable pkt;
    assert! nw && negb (responderHadWritable pkt) ;;
    sendAtomic pkt s
  else
    c ← getc s;
    '(satisfied, blk, ws, pkt, c) ← access e pkt c;
    '(pkt, ws', c) ← clean_block pkt blk c;
    s ← putc c s;
    s ← doWritebacksAtomic (ws ++ ws') s;
    '(pkt, ws, s) ← (if satisfied : bool then Ok (pkt, [], s) else handleAtomicReqMiss pkt blk s);
    s ← doWritebacksAtomic ws s;
    s ← retire_temp blk s;
    pkt ← (if needsResponse pkt then makeResponse pkt else Ok pkt);
    Ok (pkt, s).

(** [Cache::recvAtomic] *)
Definition recvAtomic (pkt : Packet) (s : S) : res (Packet * S) :=
  c ← getc s;
  BaseCache_recvAtomic (promoteWholeLineWrites c pkt) s.

(** ** Snoops *)

(** [handleSnoop] in atomic mode, after the snoop has been propagated upward. *)
Definition snoop_block (invalidate needs_writable : bool) (pkt : Packet) (o : option blk_ptr) (s : S)
  : res (Packet * S) :=
  c ← getc s;
  blk_valid ← ptr_valid c o;
  '(respond, pkt, s, done) ←
    (if isClean pkt then
       match o with
       | Some q =>
         b ← get_blk c q;
         if blk_valid && isDirty b then
           '(w, c) ← c_writecleanBlk e c q (req_getDest (p_req pkt)) (p_id pkt);
           s ← putc c s;
           s ← doWritebacksAtomic [w] s;
           pkt ← setSatisfied pkt;
           Ok (false, pkt, s, false)
         else Ok (false, pkt, s, false)
       | None => Ok (false, pkt, s, false)
       end
     else if negb blk_valid then Ok (false, pkt, s, true)
     else
       match o with
       | Some q =>
         b ← get_blk c q;
         assert! negb (isReadOnly (params c) && isDirty b) ;;
         Ok (isDirty b && needsResponse pkt, pkt, s, false)
       | None => Ub
       end);
  if done : bool then Ok (pkt, s)
  else if mustCheckAbove pkt then Ok (setBlockCached pkt, s)
  else
    c ← getc s;
    '(pkt, c) ←
      (if isRead pkt && negb invalidate then
         assert! negb needs_writable ;;
         c ← (if negb (req_isUncacheable (p_req pkt)) then
                match o with Some q => status_clear c q BlkWritable | None => Ub end
              else Ok c);
         Ok (setHasSharers pkt, c)
       else Ok (pkt, c));
    pkt ←
      (match respond, o with
       | true, Some q =>
         pkt ← setCacheResponding pkt;
         b ← get_blk c q;
         pkt ← (if negb (isClean pkt) && isWritable b then setResponderHadWritable pkt else Ok pkt);
         assert! negb (negb invalidate && negb (hasSharers pkt)) ;;
         pkt ← makeResponse pkt;
         if hasData pkt then d ← get_data c q; setDataFromBlock pkt d (c_blkSize c) else Ok pkt
       | _, _ => Ok pkt
       end);
    c ← (match o with
         | Some q => if blk_valid && invalidate then c_invalidateBlock c q else Ok c
         | None => Ok c
         end);
    s ← putc c s;
    Ok (pkt, s).

Definition handleSnoop (pkt : Packet) (o : option blk_ptr) (s : S) : res (Packet * S) :=
  assert! isRequest pkt ;;
  let invalidate := isInvalidate pkt in
  needs_writable ← needsWritable pkt;
  assert! negb (invalidate && req_isUncacheable (p_req pkt)) ;;
  c ← getc s;
  '(pkt, s) ←
    (if forwardSnoops (params c) then
       let alreadyResponded := cacheResponding pkt in
       '(pkt, s) ← sendAtomicSnoop pkt s;
       assert! alreadyResponded || negb (cacheResponding pkt) || isResponse pkt ;;
       Ok (pkt, s)
     else Ok (pkt, s));
  snoop_block invalidate needs_writable pkt o s.

Definition recvAtomicSnoop (pkt : Packet) (s : S) : res (Packet * S) :=
  c ← getc s;
  if negb (inRange c (p_addr pkt)) then Ok (pkt, s)
  else
    o ← bt_findBlock (tags c) (p_addr pkt) (p_isSecure pkt);
    handleSnoop pkt (TagBlk <$> o) s.
End Ports.
End Cache.
Arguments Cache : clear implicits.
