(* ===== verification/SnoopFilter.v ===== *)
(** The snoop filter of a coherent crossbar, from src/mem/snoop_filter.hh and
    snoop_filter.cc: which ports above may hold a line.

    Ports are their numbers; [snooping]: [isSnooping()] of a slave port.  An
    iterator into the map is its key; [None] is [end()]. *)
From S2P Require Import Prelude CacheBlk MemPacket.

(** * Definitions *)

Record SnoopItem := { requested : Z; holder : Z }.
Definition SnoopItem_new : SnoopItem := {| requested := 0; holder := 0 |}.

Definition LineSecure : Z := 0x01.

Record SnoopFilter := {
  cachedLocations : gmap Z SnoopItem; reqLookupResult : option Z; retryItem : SnoopItem;
  sf_slavePorts : list Z; localSlavePortIds : list Z; sf_linesize : Z; maxEntryCount : Z }.

Definition with_locations (f : SnoopFilter) (m : gmap Z SnoopItem) : SnoopFilter :=
  {| cachedLocations := m; reqLookupResult := reqLookupResult f; retryItem := retryItem f;
     sf_slavePorts := sf_slavePorts f; localSlavePortIds := localSlavePortIds f; sf_linesize := sf_linesize f;
     maxEntryCount := maxEntryCount f |}.
Definition with_lookup (f : SnoopFilter) (r : option Z) (i : SnoopItem) : SnoopFilter :=
  {| cachedLocations := cachedLocations f; reqLookupResult := r; retryItem := i;
     sf_slavePorts := sf_slavePorts f; localSlavePortIds := localSlavePortIds f; sf_linesize := sf_linesize f;
     maxEntryCount := maxEntryCount f |}.

Definition InvalidPortID : Z := -1.

Section SnoopFilter.
Context (snooping : Z -> bool).

Definition SnoopFilter_new (linesize max_capacity : Z) : res SnoopFilter :=
  defined! negb (linesize =? 0) ;;
  Ok {| cachedLocations := ∅; reqLookupResult := None; retryItem := SnoopItem_new; sf_slavePorts := [];
        localSlavePortIds := []; sf_linesize := linesize; maxEntryCount := u32 (max_capacity / linesize) |}.

(** The loop of [setSlavePorts]; [id]: the next local number. *)
Fixpoint setSlavePorts_loop (ports : list Z) (id : Z) (f : SnoopFilter) : res (Z * SnoopFilter) :=
  match ports with
  | [] => Ok (id, f)
  | p :: ports =>
    if snooping p then
      ids ← awrite (localSlavePortIds f) p id;
      setSlavePorts_loop ports (id + 1)
        {| cachedLocations := cachedLocations f; reqLookupResult := reqLookupResult f; retryItem := retryItem f;
           sf_slavePorts := sf_slavePorts f ++ [p]; localSlavePortIds := ids; sf_linesize := sf_linesize f;
           maxEntryCount := maxEntryCount f |}
    else setSlavePorts_loop ports id f
  end.
Definition setSlavePorts (slave_ports : list Z) (f : SnoopFilter) : res SnoopFilter :=
  let ids := localSlavePortIds f in
  let f := {| cachedLocations := cachedLocations f; reqLookupResult := reqLookupResult f; retryItem := retryItem f;
              sf_slavePorts := sf_slavePorts f;
              localSlavePortIds := take (length slave_ports) ids ++
                replicate (length slave_ports - length ids) InvalidPortID;
              sf_linesize := sf_linesize f; maxEntryCount := maxEntryCount f |} in
  '(id, f) ← setSlavePorts_loop slave_ports 0 f;
  assert! id <=? 64 ;;
  Ok f.

Definition portToMask (f : SnoopFilter) (port : Z) : res Z :=
  assert! negb (port =? InvalidPortID) ;;
  if negb (snooping port) then Ok 0
  else i ← aread (localSlavePortIds f) port; defined! (0 <=? i) && (i <? 64) ;; Ok (Z.shiftl 1 i).

(** [maskToPortList] over the ports [ports]. *)
Fixpoint mask_ports (f : SnoopFilter) (port_mask : Z) (ports : list Z) : res (list Z) :=
  match ports with
  | [] => Ok []
  | p :: ports =>
    m ← portToMask f p;
    l ← mask_ports f port_mask ports;
    Ok (if negb (Z.land port_mask m =? 0) then p :: l else l)
  end.
Definition maskToPortList (f : SnoopFilter) (port_mask : Z) : res (list Z) := mask_ports f port_mask (sf_slavePorts f).

Definition line_of (f : SnoopFilter) (addr : Z) (is_secure : bool) : Z :=
  let line_addr := Z.land addr (u64 (Z.lnot (u32 (sf_linesize f - 1)))) in
  if is_secure then Z.lor line_addr LineSecure else line_addr.

(** [sf_item.holder &= ~m], [sf_item.requested &= ~m] *)
Definition mask_out (v m : Z) : Z := Z.land v (u64 (Z.lnot m)).

Definition eraseIfNullEntry (f : SnoopFilter) (it : Z) : res SnoopFilter :=
  match cachedLocations f !! it with
  | None => Ub
  | Some i =>
    if Z.lor (requested i) (holder i) =? 0 then Ok (with_locations f (delete it (cachedLocations f))) else Ok f
  end.

(** The change of an entry by a request that may allocate. *)
Definition note_request (cpkt : Packet) (req_port : Z) (i : SnoopItem) : res SnoopItem :=
  if needsResponse cpkt then
    if negb (cacheResponding cpkt) then
      assert! Z.land (requested i) req_port =? 0 ;;
      Ok {| requested := Z.lor (requested i) req_port; holder := holder i |}
    else
      assert! negb (Z.land (holder i) req_port =? 0) ;; Ok i
  else
    assert! isEviction cpkt ;;
    assert! negb (Z.land (holder i) req_port =? 0) ;;
    if negb (isBlockCached cpkt) then Ok {| requested := requested i; holder := mask_out (holder i) req_port |}
    else Ok i.

(** Returns the ports to snoop. *)
Definition lookupRequest (cpkt : Packet) (slave_port : Z) (f : SnoopFilter) : res (list Z * SnoopFilter) :=
  let allocate := negb (req_isUncacheable (p_req cpkt)) && snooping slave_port && fromCache cpkt in
  let line_addr := line_of f (p_addr cpkt) (p_isSecure cpkt) in
  req_port ← portToMask f slave_port;
  let is_hit := match cachedLocations f !! line_addr with Some _ => true | None => false end in
  if negb is_hit && negb allocate then Ok ([], with_lookup f None (retryItem f))
  else
    let i := default SnoopItem_new (cachedLocations f !! line_addr) in
    let interested := Z.lor (holder i) (requested i) in
    let f := with_lookup (with_locations f (<[line_addr := i]> (cachedLocations f))) (Some line_addr) i in
    l ← maskToPortList f (mask_out interested req_port);
    if negb allocate then Ok (l, f)
    else
      i ← note_request cpkt req_port i;
      Ok (l, with_locations f (<[line_addr := i]> (cachedLocations f))).

Definition finishRequest (will_retry : bool) (addr : Z) (is_secure : bool) (f : SnoopFilter) : res SnoopFilter :=
  match reqLookupResult f with
  | None => Ok f
  | Some it =>
    assert! it =? line_of f addr is_secure ;;
    let f := if will_retry then with_locations f (<[it := retryItem f]> (cachedLocations f)) else f in
    eraseIfNullEntry f it
  end.

Definition lookupSnoop (cpkt : Packet) (f : SnoopFilter) : res (list Z * SnoopFilter) :=
  assert! isRequest cpkt ;;
  let line_addr := line_of f (p_addr cpkt) (p_isSecure cpkt) in
  match cachedLocations f !! line_addr with
  | None => assert! Z.of_nat (base.size (cachedLocations f)) <? maxEntryCount f ;; Ok ([], f)
  | Some i =>
    let interested := Z.lor (holder i) (requested i) in
    nw ← needsWritable cpkt;
    assert! isWriteback cpkt || req_isUncacheable (p_req cpkt) || eqb (isInvalidate cpkt) nw ||
            req_isCacheMaintenance (p_req cpkt) ;;
    let i := if isInvalidate cpkt && (requested i =? 0) then {| requested := requested i; holder := 0 |} else i in
    f ← eraseIfNullEntry (with_locations f (<[line_addr := i]> (cachedLocations f))) line_addr;
    l ← maskToPortList f interested;
    Ok (l, f)
  end.

Definition updateSnoopResponse (cpkt : Packet) (rsp_port req_port : Z) (f : SnoopFilter) : res SnoopFilter :=
  assert! isResponse cpkt ;;
  assert! cacheResponding cpkt ;;
  if req_isUncacheable (p_req cpkt) || negb (snooping req_port) then Ok f
  else
    let line_addr := line_of f (p_addr cpkt) (p_isSecure cpkt) in
    rsp_mask ← portToMask f rsp_port;
    req_mask ← portToMask f req_port;
    let i := default SnoopItem_new (cachedLocations f !! line_addr) in
    assert! negb (Z.land (holder i) rsp_mask =? 0) ;;
    assert! negb (Z.land (requested i) req_mask =? 0) ;;
    let h := if negb (hasSharers cpkt) then 0 else holder i in
    assert! negb (isWriteback cpkt) ;;
    let i := {| requested := mask_out (requested i) req_mask; holder := Z.lor h req_mask |} in
    assert! negb (Z.lor (requested i) (holder i) =? 0) ;;
    Ok (with_locations f (<[line_addr := i]> (cachedLocations f))).

Definition updateSnoopForward (cpkt : Packet) (f : SnoopFilter) : res SnoopFilter :=
  assert! isResponse cpkt ;;
  assert! cacheResponding cpkt ;;
  let line_addr := line_of f (p_addr cpkt) (p_isSecure cpkt) in
  match cachedLocations f !! line_addr with
  | None => Ok f
  | Some i =>
    let i := if negb (hasSharers cpkt) then {| requested := requested i; holder := 0 |} else i in
    eraseIfNullEntry (with_locations f (<[line_addr := i]> (cachedLocations f))) line_addr
  end.

Definition updateResponse (cpkt : Packet) (slave_port : Z) (f : SnoopFilter) : res SnoopFilter :=
  assert! isResponse cpkt ;;
  if req_isUncacheable (p_req cpkt) || negb (snooping slave_port) then Ok f
  else
    let line_addr := line_of f (p_addr cpkt) (p_isSecure cpkt) in
    match cachedLocations f !! line_addr with
    | None => Ok f
    | Some i =>
      slave_mask ← portToMask f slave_port;
      assert! negb (Z.land (requested i) slave_mask =? 0) ;;
      let r := mask_out (requested i) slave_mask in
      if req_isCacheMaintenance (p_req cpkt) then
        let i := {| requested := r; holder := if isInvalidate cpkt then mask_out (holder i) slave_mask else holder i |} in
        eraseIfNullEntry (with_locations f (<[line_addr := i]> (cachedLocations f))) line_addr
      else
        let i := {| requested := r; holder := Z.lor (holder i) slave_mask |} in
        assert! negb (Z.lor (holder i) (requested i) =? 0) ;;
        Ok (with_locations f (<[line_addr := i]> (cachedLocations f)))
    end.
End SnoopFilter.
