(* ===== verification/AbstractMem.v ===== *)
(** The abstract memory of src/mem/abstract_mem.hh and abstract_mem.cc, with
    the locks it keeps for load-linked requests that reach it, and the atomic
    access of the simple memory (src/mem/simple_mem.cc).  The functional access
    is in FuncAccess. *)
From S2P Require Import Prelude Bitfield AddrRange CacheBlk MemPacket Cache.

(** * Definitions *)

Record LockedAddr := { la_addr : Z; la_contextId : Z }.

(** [pmem]: the bytes of the backing store, or [None] if there is none. *)
Record AbstractMemory := { m_range : AddrRange; pmem : option (list Z); lockedAddrList : list LockedAddr }.

Definition with_pmem (m : AbstractMemory) (d : option (list Z)) : AbstractMemory :=
  {| m_range := m_range m; pmem := d; lockedAddrList := lockedAddrList m |}.
Definition with_locked (m : AbstractMemory) (l : list LockedAddr) : AbstractMemory :=
  {| m_range := m_range m; pmem := pmem m; lockedAddrList := l |}.

Definition LockedAddr_mask (paddr : Z) : Z := Z.land paddr (u64 (Z.lnot 0xf)).
Definition LockedAddr_new (paddr ctx : Z) : LockedAddr := {| la_addr := LockedAddr_mask paddr; la_contextId := ctx |}.

(** The first record of the context gets the new address. *)
Fixpoint update_lock (paddr ctx : Z) (l : list LockedAddr) : option (list LockedAddr) :=
  match l with
  | [] => None
  | i :: l =>
    if la_contextId i =? ctx then Some ({| la_addr := paddr; la_contextId := ctx |} :: l)
    else match update_lock paddr ctx l with Some l => Some (i :: l) | None => None end
  end.
Definition m_trackLoadLocked (pkt : Packet) (m : AbstractMemory) : res AbstractMemory :=
  let paddr := LockedAddr_mask (r_paddr (p_req pkt)) in
  ctx ← req_getContextId (p_req pkt);
  match update_lock paddr ctx (lockedAddrList m) with
  | Some l => Ok (with_locked m l)
  | None => Ok (with_locked m (LockedAddr_new (r_paddr (p_req pkt)) ctx :: lockedAddrList m))
  end.

(** The contexts whose monitor is cleared ([globalClearExclusive]) are the
    owners of the records erased; their state is not modelled. *)
Definition checkLockedAddrList (pkt : Packet) (m : AbstractMemory) : res (bool * Packet * AbstractMemory) :=
  let paddr := LockedAddr_mask (r_paddr (p_req pkt)) in
  let at_addr := existsb (fun i => la_addr i =? paddr) (lockedAddrList m) in
  _ ← (if at_addr then req_getContextId (p_req pkt) else Ok 0);
  let ctx := default 0 (r_contextId (p_req pkt)) in
  let allowStore :=
    negb (isLLSC pkt) || existsb (fun i => (la_addr i =? paddr) && (la_contextId i =? ctx)) (lockedAddrList m) in
  let pkt := if isLLSC pkt then with_req (req_setExtraData (if allowStore then 1 else 0) (p_req pkt)) pkt else pkt in
  let m := if allowStore then with_locked m (filter (fun i => la_addr i <> paddr) (lockedAddrList m)) else m in
  Ok (allowStore, pkt, m).

Definition writeOK (pkt : Packet) (m : AbstractMemory) : res (bool * Packet * AbstractMemory) :=
  match lockedAddrList m with
  | [] =>
    let pkt := if isLLSC pkt then with_req (req_setExtraData 0 (p_req pkt)) pkt else pkt in
    Ok (negb (isLLSC pkt), pkt, m)
  | _ => checkLockedAddrList pkt m
  end.

(** [memcpy(pkt->getPtr(), hostAddr, pkt->getSize())], with the store [d]. *)
Definition copy_from (pkt : Packet) (d : list Z) (off : Z) : res Packet :=
  p ← getPtr pkt;
  v ← bytes_at d off (p_size pkt);
  p ← bytes_set p 0 v;
  Ok (with_data (Some p) pkt).

Definition m_swap (pkt : Packet) (off : Z) (m : AbstractMemory) : res (Packet * AbstractMemory) :=
  if isAtomicOp pkt then
    match pmem m with
    | Some d =>
      old ← bytes_at d off (p_size pkt);
      pkt ← copy_from pkt d off;
      f ← (match r_atomicOp (p_req pkt) with Some f => Ok f | None => Panic end);
      d ← bytes_set d off (f old);
      Ok (pkt, with_pmem m (Some d))
    | None => Ok (pkt, m)
    end
  else
    match pmem m with
    | None => Panic
    | Some d =>
      overwrite_val ← writeData pkt;
      old ← bytes_at d off (p_size pkt);
      pkt ← copy_from pkt d off;
      overwrite_mem ←
        (if req_isCondSwap (p_req pkt) then
           if p_size pkt =? 8 then v ← req_getExtraData (p_req pkt); Ok (bool_decide (le_bytes 8 v = old))
           else if p_size pkt =? 4 then v ← req_getExtraData (p_req pkt); Ok (bool_decide (le_bytes 4 (u32 v) = old))
           else Panic
         else Ok true);
      d ← (if overwrite_mem : bool then bytes_set d off overwrite_val else Ok d);
      assert! negb (req_isInstFetch (p_req pkt)) ;;
      Ok (pkt, with_pmem m (Some d))
    end.

Definition m_access (pkt : Packet) (m : AbstractMemory) : res (Packet * AbstractMemory) :=
  if cacheResponding pkt then Ok (pkt, m)
  else if cmd_eq (p_cmd pkt) CleanEvict || cmd_eq (p_cmd pkt) WritebackClean then Ok (pkt, m)
  else
    sub ← isSubset (AddrRange_plain (p_addr pkt) (u64 (p_addr pkt + u32 (p_size pkt - 1)))) (m_range m);
    assert! (sub : bool) ;;
    let off := p_addr pkt - start (m_range m) in
    '(pkt, m) ←
      (if cmd_eq (p_cmd pkt) SwapReq then m_swap pkt off m
       else if isRead pkt then
         assert! negb (isWrite pkt) ;;
         m ← (if isLLSC pkt then assert! negb (fromCache pkt) ;; m_trackLoadLocked pkt m else Ok m);
         pkt ← (match pmem m with Some d => copy_from pkt d off | None => Ok pkt end);
         Ok (pkt, m)
       else if isInvalidate pkt || isClean pkt then assert! negb (isWrite pkt) ;; Ok (pkt, m)
       else if isWrite pkt then
         '(ok, pkt, m) ← writeOK pkt m;
         if ok : bool then
           m ← (match pmem m with
                | Some d => v ← writeData pkt; d ← bytes_set d off v; Ok (with_pmem m (Some d))
                | None => Ok m
                end);
           assert! negb (req_isInstFetch (p_req pkt)) ;;
           Ok (pkt, m)
         else Ok (pkt, m)
       else Panic);
    pkt ← (if needsResponse pkt then makeResponse pkt else Ok pkt);
    Ok (pkt, m).

(** [SimpleMemory::recvAtomic] *)
Definition SimpleMemory_recvAtomic (pkt : Packet) (m : AbstractMemory) : res (Packet * AbstractMemory) :=
  assert! negb (cacheResponding pkt) ;;
  m_access pkt m.
