(* ===== verification/CoherentXBar.v ===== *)
(** The coherent crossbar in atomic mode, from src/mem/coherent_xbar.hh and
    coherent_xbar.cc: it snoops the caches above it, then sends the request on
    to memory.  Latencies and statistics are not modelled; the port a request
    leaves by is chosen by the argument [sendAtomic] (the map it is found in is
    modelled in AddrRangeMap).  Functional requests are in FuncAccess. *)
From S2P Require Import Prelude CacheBlk MemPacket SnoopFilter.

(** * Definitions *)

(** [snoopPorts]: the slave ports whose masters snoop. *)
Record XBarParams := { pointOfCoherency : bool; pointOfUnification : bool; bypassCaches : bool; snoopPorts : list Z }.

(** [outstandingCMO]: the identities of the packets it maps. *)
Record XBar := { x_params : XBarParams; snoopFilter : option SnoopFilter; outstandingCMO : gset Z }.

Definition with_filter (x : XBar) (f : SnoopFilter) : XBar :=
  {| x_params := x_params x; snoopFilter := Some f; outstandingCMO := outstandingCMO x |}.
Definition with_CMO (x : XBar) (m : gset Z) : XBar :=
  {| x_params := x_params x; snoopFilter := snoopFilter x; outstandingCMO := m |}.

Definition isDestination (x : XBar) (pkt : Packet) : bool :=
  (req_isToPOC (p_req pkt) && pointOfCoherency (x_params x)) ||
  (req_isToPOU (p_req pkt) && pointOfUnification (x_params x)).

Definition sinkPacket (x : XBar) (pkt : Packet) : res bool :=
  if pointOfCoherency (x_params x) && cacheResponding pkt then Ok true
  else if pointOfCoherency (x_params x) && negb (isRead pkt || isWrite pkt) && negb (needsResponse pkt) then Ok true
  else if isCleanEviction pkt && isBlockCached pkt then Ok true
  else if cacheResponding pkt then
    nw ← needsWritable pkt; Ok (negb nw || responderHadWritable pkt)
  else Ok false.

Definition forwardPacket (x : XBar) (pkt : Packet) : bool :=
  if isClean pkt then negb (isDestination x pkt)
  else isRead pkt || isWrite pkt || negb (pointOfCoherency (x_params x)).

Section Ports.
Context (snooping : Z -> bool).
(** [S]: the state of the system, of which [getx] and [putx] read and write the
    crossbar; [sendAtomicSnoop]: the slave ports; [sendAtomic]: the master port. *)
Context {S : Type} (getx : S -> res XBar) (putx : XBar -> S -> res S).
Context (sendAtomicSnoop : Z -> Packet -> S -> res (Packet * S)).
Context (sendAtomic : Packet -> S -> res (Packet * S)).

(** What the filter notes of the response of port [p]. *)
Definition filter_response (pkt : Packet) (exclude source p : Z) (s : S) : res S :=
  x ← getx s;
  match snoopFilter x with
  | None => Ok s
  | Some f =>
    f ← (if negb (source =? InvalidPortID) then
           assert! exclude =? InvalidPortID ;; updateSnoopForward pkt f
         else updateSnoopResponse snooping pkt p exclude f);
    putx (with_filter x f) s
  end.

(** The loop of [forwardAtomic] over the ports; [resp]: [snoop_response_cmd]. *)
Fixpoint forward_loop (orig_cmd : MemCmd) (exclude source : Z) (dests : list Z) (resp : MemCmd) (pkt : Packet) (s : S)
  : res (MemCmd * Packet * S) :=
  match dests with
  | [] => Ok (resp, pkt, s)
  | p :: dests =>
    if negb (exclude =? InvalidPortID) && (p =? exclude) then forward_loop orig_cmd exclude source dests resp pkt s
    else
      '(pkt, s) ← sendAtomicSnoop p pkt s;
      if negb (isResponse pkt) then forward_loop orig_cmd exclude source dests resp pkt s
      else
        assert! negb (cmd_eq (p_cmd pkt) orig_cmd) ;;
        assert! cacheResponding pkt ;;
        assert! cmd_eq resp InvalidCmd ;;
        let resp := p_cmd pkt in
        s ← filter_response pkt exclude source p s;
        forward_loop orig_cmd exclude source dests resp (with_cmd orig_cmd pkt) s
  end.
Definition forwardAtomic (pkt : Packet) (exclude source : Z) (dests : list Z) (s : S) : res (MemCmd * Packet * S) :=
  x ← getx s;
  assert! negb (bypassCaches (x_params x)) ;;
  forward_loop (p_cmd pkt) exclude source dests InvalidCmd pkt s.

(** The snooping half of [recvAtomic]. *)
Definition snoop_caches (pkt : Packet) (slave_port_id : Z) (s : S) : res (MemCmd * Packet * S) :=
  x ← getx s;
  if negb (negb (bypassCaches (x_params x)) && negb (cmd_eq (p_cmd pkt) WriteClean)) then Ok (InvalidCmd, pkt, s)
  else
    match snoopFilter x with
    | Some f =>
      '(l, f) ← lookupRequest snooping pkt slave_port_id f;
      f ← finishRequest false (p_addr pkt) (p_isSecure pkt) f;
      s ← putx (with_filter x f) s;
      if isEviction pkt then
        Ok (InvalidCmd, match l with [] => pkt | _ => setBlockCached pkt end, s)
      else forwardAtomic pkt slave_port_id InvalidPortID l s
    | None => forwardAtomic pkt slave_port_id InvalidPortID (snoopPorts (x_params x)) s
    end.

(** The request at its destination. *)
Definition send_on (pkt : Packet) (is_destination : bool) (s : S) : res (Packet * S) :=
  x ← getx s;
  sink ← sinkPacket x pkt;
  if sink : bool then Ok (pkt, s)
  else if forwardPacket x pkt then
    sendAtomic (if isWrite pkt && is_destination then clearWriteThrough pkt else pkt) s
  else assert! needsResponse pkt ;; pkt ← makeResponse pkt; Ok (pkt, s).

(** The bookkeeping of cache maintenance at the destination. *)
Definition track_CMO (pkt : Packet) (s : S) : res S :=
  x ← getx s;
  if isClean pkt && isDestination x pkt && satisfied pkt then
    assert! bool_decide (p_id pkt ∈ outstandingCMO x) ;;
    putx (with_CMO x (outstandingCMO x ∖ {[p_id pkt]})) s
  else if cmd_eq (p_cmd pkt) WriteClean && isDestination x pkt then
    assert! bool_decide (p_id pkt ∉ outstandingCMO x) ;;
    putx (with_CMO x ({[p_id pkt]} ∪ outstandingCMO x)) s
  else Ok s.

Definition x_recvAtomic (pkt : Packet) (slave_port_id : Z) (s : S) : res (Packet * S) :=
  x ← getx s;
  let is_destination := isDestination x pkt in
  '(snoop_response_cmd, pkt, s) ← snoop_caches pkt slave_port_id s;
  '(pkt, s) ← send_on pkt is_destination s;
  x ← getx s;
  s ← (match snoopFilter x with
       | Some f =>
         if negb (bypassCaches (x_params x)) && isResponse pkt then
           f ← updateResponse snooping pkt slave_port_id f; putx (with_filter x f) s
         else Ok s
       | None => Ok s
       end);
  pkt ← (if negb (cmd_eq snoop_response_cmd InvalidCmd) then
           assert! negb (isResponse pkt) ;; Ok (with_cmd snoop_response_cmd pkt)
         else Ok pkt);
  s ← track_CMO pkt s;
  Ok (pkt, s).

Definition x_recvAtomicSnoop (pkt : Packet) (master_port_id : Z) (s : S) : res (Packet * S) :=
  x ← getx s;
  '(snoop_response_cmd, pkt, s) ←
    (match snoopFilter x with
     | Some f =>
       '(l, f) ← lookupSnoop snooping pkt f;
       s ← putx (with_filter x f) s;
       forwardAtomic pkt InvalidPortID master_port_id l s
     | None => forwardAtomic pkt InvalidPortID InvalidPortID (snoopPorts (x_params x)) s
     end);
  Ok (if negb (cmd_eq snoop_response_cmd InvalidCmd) then with_cmd snoop_response_cmd pkt else pkt, s).
End Ports.
