(* ===== verification/CohSystem.v ===== *)
(** A memory system in atomic mode: the caches of any number of processors, of
    any tags, on one coherent crossbar that is the point of coherency over a
    simple memory, and the requests of the processors to their caches; and that
    no request changes a temporary block that holds a line. *)
From S2P Require Import Prelude AddrRange CacheBlk ReplPolicy CacheTags TagStore MemPacket Cache SnoopFilter.
From S2P Require Import AbstractMem CoherentXBar.

(** * Definitions *)

Section System.
Context {T D : Type} `{!BaseTags T D}.

(** Cache [i] is on slave port [i] of the crossbar. *)
Record Sys := { s_caches : list (Cache T D); s_xbar : XBar; s_mem : AbstractMemory }.

Definition get_cache (i : Z) (s : Sys) : res (Cache T D) := aread (s_caches s) i.
Definition put_cache (i : Z) (c : Cache T D) (s : Sys) : res Sys :=
  l ← awrite (s_caches s) i c; Ok {| s_caches := l; s_xbar := s_xbar s; s_mem := s_mem s |}.
Definition get_xbar (s : Sys) : res XBar := Ok (s_xbar s).
Definition put_xbar (x : XBar) (s : Sys) : res Sys :=
  Ok {| s_caches := s_caches s; s_xbar := x; s_mem := s_mem s |}.
Definition put_mem (m : AbstractMemory) (s : Sys) : Sys :=
  {| s_caches := s_caches s; s_xbar := s_xbar s; s_mem := m |}.

(** Every port has a snooping master. *)
Definition all_snoop (port : Z) : bool := true.
(** A processor does not answer snoops. *)
Definition cpu_snoop (pkt : Packet) (s : Sys) : res (Packet * Sys) := Ok (pkt, s).
Definition mem_send (pkt : Packet) (s : Sys) : res (Packet * Sys) :=
  '(pkt, m) ← SimpleMemory_recvAtomic pkt (s_mem s); Ok (pkt, put_mem m s).

(** The port of the memory side of cache [i].  A snoop may make a cache send a
    packet itself; [fuel] bounds how deeply these calls nest. *)
Fixpoint xbar_send (e : Env) (fuel : nat) (i : Z) (pkt : Packet) (s : Sys) : res (Packet * Sys) :=
  match fuel with
  | O => OutOfFuel
  | S fuel =>
    x_recvAtomic all_snoop get_xbar put_xbar
      (fun j pkt s => recvAtomicSnoop (get_cache j) (put_cache j) (xbar_send e fuel j) cpu_snoop e pkt s)
      mem_send pkt i s
  end.

(** A snoop that cleans a block sends one packet, which is not snooped. *)
Definition send_fuel : nat := 2.

(** The processor of cache [i] sends a packet. *)
Definition cpu_send (e : Env) (i : Z) (pkt : Packet) (s : Sys) : res (Packet * Sys) :=
  recvAtomic (get_cache i) (put_cache i) (xbar_send e send_fuel i) cpu_snoop e pkt s.
End System.
Arguments Sys : clear implicits.

(** * The temporary block

    What an access does with the temporary block of a cache that already holds
    a line: nothing, although [recvAtomic] means to retire it. *)

(** If the code returns, its result is in [P]. *)
Definition if_ok {A} (P : A -> Prop) (r : res A) : Prop := match r with Ok a => P a | _ => True end.

Lemma if_ok_bind {A B} (P : B -> Prop) (m : res A) (f : A -> res B) : if_ok (fun a => if_ok P (f a)) m -> if_ok P (m ≫= f).
Proof. by destruct m. Qed.
Lemma if_ok_mono {A} (P Q : A -> Prop) (r : res A) : if_ok P r -> (forall a, P a -> Q a) -> if_ok Q r.
Proof. destruct r; cbn; auto. Qed.
Lemma if_ok_any {A} (P : A -> Prop) (r : res A) : (forall a, P a) -> if_ok P r.
Proof. destruct r; cbn; auto. Qed.

Create HintDb temp.
(** One step of an [if_ok] goal; what is known of a call is in [temp]. *)
Ltac if_ok_step := lazymatch goal with
  | |- if_ok _ (_ ≫= _) => apply if_ok_bind
  | |- if_ok _ (Ok _) => cbn [if_ok]
  | |- if_ok _ Panic => exact I
  | |- if_ok _ Ub => exact I
  | |- if_ok _ (if ?b then _ else _) => destruct b eqn:?
  | |- if_ok _ (match ?x with _ => _ end) => destruct x eqn:?
  | |- if_ok _ _ =>
    first [eapply if_ok_mono; [solve [eauto 4 with temp] | intros ? ?] | apply if_ok_any; intros ?]
  | |- forall _, _ => intros ?
  end; repeat match goal with
  | x : (_ * _)%type |- _ => destruct x
  | H : _ /\ _ |- _ => destruct H
  end; cbn beta iota in *.

Section Temp.
Context {T D : Type} `{!BaseTags T D}.
Implicit Types c : Cache T D.
Implicit Types s : Sys T D.

(** The block, if any, is one of the tags. *)
Definition of_tags (o : option blk_ptr) : Prop := match o with Some TempBlk => False | _ => True end.

(** The line of the temporary block. *)
Definition temp_of c : CacheBlk D * Z * list Z := (tempBlock c, tempAddr c, tempData c).

Ltac temp_ok := repeat (if_ok_step; try match goal with H : of_tags (Some ?q) |- _ => destruct q; [|contradiction] end);
  unfold temp_of in *; cbn [of_tags tempBlock tempAddr tempData with_tags with_c_data with_temp with_tempBlockWriteback] in *;
  repeat match goal with |- _ /\ _ => split end; try (exact I || congruence).

Lemma put_blk_temp c p b : if_ok (fun c' => temp_of c' = temp_of c) (put_blk c (TagBlk p) b).
Proof. unfold put_blk. temp_ok. Qed.
Lemma put_data_temp c p d : if_ok (fun c' => temp_of c' = temp_of c) (put_data c (TagBlk p) d).
Proof. unfold put_data. temp_ok. Qed.
Hint Resolve put_blk_temp put_data_temp : temp.
Lemma status_or_temp c p m : if_ok (fun c' => temp_of c' = temp_of c) (status_or c (TagBlk p) m).
Proof. unfold status_or. temp_ok. Qed.
Lemma status_clear_temp c p m : if_ok (fun c' => temp_of c' = temp_of c) (status_clear c (TagBlk p) m).
Proof. unfold status_clear. temp_ok. Qed.
Lemma invalidate_temp c p : if_ok (fun c' => temp_of c' = temp_of c) (c_invalidateBlock c (TagBlk p)).
Proof. unfold c_invalidateBlock. temp_ok. Qed.
Hint Resolve status_or_temp status_clear_temp invalidate_temp : temp.

Lemma hand_over_temp c p pkt : if_ok (fun '(_, c') => temp_of c' = temp_of c) (hand_over c (TagBlk p) pkt).
Proof. unfold hand_over. temp_ok. Qed.
Hint Resolve hand_over_temp : temp.
Lemma writebackBlk_temp e c p : if_ok (fun '(_, c') => temp_of c' = temp_of c) (c_writebackBlk e c (TagBlk p)).
Proof. unfold c_writebackBlk. temp_ok. Qed.
Lemma writecleanBlk_temp e c p dest id : if_ok (fun '(_, c') => temp_of c' = temp_of c) (c_writecleanBlk e c (TagBlk p) dest id).
Proof. unfold c_writecleanBlk. temp_ok. Qed.
Hint Resolve writebackBlk_temp writecleanBlk_temp : temp.
Lemma evictBlock_temp e c p : if_ok (fun '(_, c') => temp_of c' = temp_of c) (c_evictBlock e c (TagBlk p)).
Proof. unfold c_evictBlock. temp_ok. Qed.
Hint Resolve evictBlock_temp : temp.
Lemma evict_all_temp e l c : if_ok (fun '(_, c') => temp_of c' = temp_of c) (evict_all e c l).
Proof. induction l as [|p l IH] in c |- *; cbn [evict_all]; temp_ok. Qed.
Hint Resolve evict_all_temp : temp.

Lemma allocateBlock_temp e c pkt : if_ok (fun '(o, _, c') => of_tags o /\ temp_of c' = temp_of c) (c_allocateBlock e c pkt).
Proof. unfold c_allocateBlock. temp_ok. Qed.
Hint Resolve allocateBlock_temp : temp.
Lemma satisfy_base_temp pkt p c : if_ok (fun '(_, c') => temp_of c' = temp_of c) (BaseCache_satisfyRequest pkt (TagBlk p) c).
Proof. unfold BaseCache_satisfyRequest. temp_ok. Qed.
Hint Resolve satisfy_base_temp : temp.
Lemma satisfy_temp pkt p c : if_ok (fun '(_, c') => temp_of c' = temp_of c) (satisfyRequest pkt (TagBlk p) c).
Proof. unfold satisfyRequest. temp_ok. Qed.
Lemma clusivity_temp b p c : if_ok (fun c' => temp_of c' = temp_of c) (maintainClusivity b (TagBlk p) c).
Proof. unfold maintainClusivity. temp_ok. Qed.
Lemma write_block_temp pkt p c : if_ok (fun c' => temp_of c' = temp_of c) (write_block pkt (TagBlk p) c).
Proof. unfold write_block. temp_ok. Qed.
Hint Resolve satisfy_temp clusivity_temp write_block_temp : temp.
Lemma allocate_write_temp e pkt o c : of_tags o ->
  if_ok (fun '(o, _, c') => of_tags o /\ temp_of c' = temp_of c) (allocate_for_write e pkt o c).
Proof. intros Ho. unfold allocate_for_write. temp_ok. Qed.
Hint Resolve allocate_write_temp : temp.

Lemma access_base_temp e pkt c : if_ok (fun '(_, o, _, _, c') => of_tags o /\ temp_of c' = temp_of c) (BaseCache_access e pkt c).
Proof.
  unfold BaseCache_access. do 4 if_ok_step. assert (of_tags (TagBlk <$> o)) as Ho by (by destruct o).
  destruct (TagBlk <$> o) as [q|]; temp_ok.
Qed.
Hint Resolve access_base_temp : temp.
Lemma access_temp e pkt c : if_ok (fun '(_, o, _, _, c') => of_tags o /\ temp_of c' = temp_of c) (access e pkt c).
Proof. unfold access. temp_ok. Qed.
Lemma clean_block_temp e pkt o c : of_tags o -> if_ok (fun '(_, _, c') => temp_of c' = temp_of c) (clean_block e pkt o c).
Proof. intros Ho. unfold clean_block. temp_ok. Qed.

(** A fill of a block of the tags, or one that finds the temporary block taken. *)
Lemma handleFill_temp e pkt o alloc c : of_tags o -> isValid (tempBlock c) = true ->
  if_ok (fun '(q, _, c') => of_tags (Some q) /\ temp_of c' = temp_of c) (handleFill e pkt o alloc c).
Proof.
  intros Ho Hv. unfold handleFill. do 2 (if_ok_step; [|exact I]). apply if_ok_bind.
  apply (if_ok_mono (fun '(q, _, c') => of_tags (Some q) /\ temp_of c' = temp_of c)); temp_ok;
  match goal with H : negb (isValid (tempBlock ?c1)) = true |- _ =>
    exfalso; assert (isValid (tempBlock c1) = true) as E by congruence; by rewrite E in H end.
Qed.
(** A fill that finds it taken and may not allocate. *)
Lemma fill_temp_taken e pkt c : isValid (tempBlock c) = true -> handleFill e pkt None false c = Panic.
Proof.
  intros Hv. unfold handleFill. do 2 (case_match; [|done]). destruct (hasData pkt); [|done].
  destruct (isRead pkt || cmd_eq (p_cmd pkt) WriteLineReq); [|done]. cbn. by rewrite Hv.
Qed.
Hint Resolve access_temp clean_block_temp handleFill_temp : temp.

Lemma handle_response_temp e bus_pkt pkt o c : of_tags o -> isValid (tempBlock c) = true ->
  if_ok (fun '(_, o, _, _, c') => of_tags o /\ temp_of c' = temp_of c) (handle_response e bus_pkt pkt o c).
Proof. intros Ho Hv. unfold handle_response. temp_ok. Qed.

(** ** In the system *)

(** A temporary block that holds a line in [s] holds it in [s']. *)
Definition temps_kept s s' : Prop := forall i c, s_caches s !! i = Some c -> isValid (tempBlock c) = true ->
  exists c', s_caches s' !! i = Some c' /\ temp_of c' = temp_of c.

Lemma kept_refl s : temps_kept s s.
Proof. intros i c Hc _. by exists c. Qed.
Lemma kept_trans s1 s2 s3 : temps_kept s1 s2 -> temps_kept s2 s3 -> temps_kept s1 s3.
Proof.
  intros H1 H2 i c Hc Hv. destruct (H1 i c Hc Hv) as (c2 & Hc2 & E2). destruct (H2 i c2 Hc2) as (c3 & Hc3 & E3).
  - unfold temp_of in E2. congruence.
  - exists c3. split; [done|congruence].
Qed.
Lemma keeps_caches s s' : s_caches s' = s_caches s -> temps_kept s s'.
Proof. intros E i c Hc _. exists c. by rewrite E. Qed.
Lemma keeps_insert s s' i c c' : get_cache i s = Ok c -> s_caches s' = <[Z.to_nat i := c']> (s_caches s) ->
  (isValid (tempBlock c) = true -> temp_of c' = temp_of c) -> temps_kept s s'.
Proof.
  intros [Hi Hc]%aread_inv E Ht j d Hd Hv. rewrite E. destruct (decide (j = Z.to_nat i)) as [->|].
  - exists c'. rewrite list_lookup_insert_eq by (by eapply lookup_lt_Some). split; [done|]. assert (d = c) as -> by congruence. auto.
  - exists d. by rewrite list_lookup_insert_ne.
Qed.
Lemma put_cache_inv i c s : if_ok (fun s' => s_caches s' = <[Z.to_nat i := c]> (s_caches s)) (put_cache i c s).
Proof. unfold put_cache, awrite. destruct (_ && _); [reflexivity|exact I]. Qed.
Lemma get_cache_ok i s : if_ok (fun c => get_cache i s = Ok c) (get_cache i s).
Proof. by destruct (get_cache i s). Qed.
Lemma put_keeps i c c' s : get_cache i s = Ok c -> (isValid (tempBlock c) = true -> temp_of c' = temp_of c) ->
  if_ok (temps_kept s) (put_cache i c' s).
Proof. intros Hc Ht. eapply if_ok_mono; [apply put_cache_inv|]. intros s' E. exact (keeps_insert s s' i c c' Hc E Ht). Qed.
Hint Resolve get_cache_ok kept_refl put_keeps : temp.

Section Send.
Context (e : Env) (i : Z) (send : Packet -> Sys T D -> res (Packet * Sys T D)).
Hypothesis Hsend : forall pkt s, if_ok (fun '(_, s') => temps_kept s s') (send pkt s).
Hint Resolve Hsend : temp.

(** Calls one after the other. *)
Ltac keeps_ok := repeat if_ok_step; eauto 4 using kept_trans, kept_refl with temp.

Lemma doWritebacks_keeps ws s : if_ok (temps_kept s) (doWritebacksAtomic (get_cache i) send cpu_snoop ws s).
Proof.
  induction ws as [|w ws IH] in s |- *; cbn [doWritebacksAtomic]; [apply kept_refl|].
  assert (if_ok (fun '(_, _, s') => temps_kept s s') (isCachedAbove (get_cache i) cpu_snoop w s)) as Hc by (unfold isCachedAbove, cpu_snoop; keeps_ok).
  apply if_ok_bind. eapply if_ok_mono; [exact Hc|]. intros [[b w'] s1] H1. apply if_ok_bind.
  apply (if_ok_mono (temps_kept s1)); [keeps_ok|]. intros s2 H2. eapply if_ok_mono; [apply IH|]. intros s3 H3. eauto using kept_trans.
Qed.
Hint Resolve doWritebacks_keeps : temp.

Lemma retire_temp_tags o s : of_tags o -> if_ok (eq s) (retire_temp (get_cache i) (put_cache i) send cpu_snoop e o s).
Proof. intros Ho. unfold retire_temp. by destruct o as [[p|]|]; repeat if_ok_step. Qed.

(** After the response, the block is one of the tags unless the temporary block
    was free, in which case the cache may still change. *)
Lemma respond_keeps bus_pkt pkt o s : of_tags o ->
  if_ok (fun '(_, o', _, _, s') => temps_kept s s' /\ (of_tags o' \/
      forall s2 c2, s_caches s2 = <[Z.to_nat i := c2]> (s_caches s') -> temps_kept s s2))
    (c ← get_cache i s; '(pkt, o, inv, ws, c) ← handle_response e bus_pkt pkt o c;
     s ← put_cache i c s; Ok (pkt, o, inv, ws, s)).
Proof.
  intros Ho. if_ok_step. if_ok_step. rename a into c, H into Hc. destruct (isValid (tempBlock c)) eqn:Hv.
  - apply if_ok_bind. eapply if_ok_mono; [by apply handle_response_temp|]. intros [[[[p' o'] inv] ws] c'] [Ho' Et]. apply if_ok_bind.
    eapply if_ok_mono; [by apply (put_keeps i c c' s)|]. intros s' Hk. split; [exact Hk|by left].
  - apply if_ok_bind, if_ok_any. intros [[[[p' o'] inv] ws] c']. apply if_ok_bind.
    eapply if_ok_mono; [apply put_cache_inv|]. intros s' E. split; [eapply keeps_insert; [done|exact E|congruence]|right].
    intros s2 c2 E2. rewrite E, list_insert_insert_eq in E2. eapply keeps_insert; [done|exact E2|congruence].
Qed.

Lemma miss_keeps pkt o s : of_tags o ->
  if_ok (fun '(_, _, s') => temps_kept s s') (handleAtomicReqMiss (get_cache i) (put_cache i) send e pkt o s).
Proof.
  intros Ho. unfold handleAtomicReqMiss. if_ok_step; [keeps_ok|]. do 3 if_ok_step. apply if_ok_any. intros nw. do 2 if_ok_step.
  apply if_ok_bind. apply (if_ok_mono (fun '(_, o', _, _, s') => temps_kept s s' /\ (of_tags o' \/
      forall s2 c2, s_caches s2 = <[Z.to_nat i := c2]> (s_caches s') -> temps_kept s s2))).
  { destruct a0 as [bus_pkt|].
    - apply if_ok_bind. eapply if_ok_mono; [apply Hsend|]. intros [bus' s1] H1.
      eapply if_ok_mono; [by apply respond_keeps|]. intros [[[[p' o'] inv] ws] s2] [H2 H3].
      split; [by eapply kept_trans|]. destruct H3 as [H3|H3]; [by left|right]. intros. eapply kept_trans; [exact H1|by eapply H3].
    - apply if_ok_bind. eapply if_ok_mono; [apply Hsend|]. intros [p' s1] H1. by split; [|left]. }
  intros [[[[p' o'] inv] ws] s1] [H1 H2]. do 4 if_ok_step.
  destruct o' as [q|]; [|exact H1]. destruct (inv && a2); [|exact H1]. destruct H2 as [Hq|H2].
  - destruct q as [p|]; [|contradiction]. apply if_ok_bind. eapply if_ok_mono; [apply invalidate_temp|]. intros c' Et. apply if_ok_bind.
    eapply if_ok_mono; [by apply (put_keeps i a1 c' s1)|]. intros s2 Hk. exact (kept_trans s s1 s2 H1 Hk).
  - apply if_ok_bind, if_ok_any. intros c'. apply if_ok_bind. eapply if_ok_mono; [apply put_cache_inv|]. intros s2 E. exact (H2 s2 c' E).
Qed.

Lemma BaseCache_recvAtomic_keeps pkt s :
  if_ok (fun '(_, s') => temps_kept s s') (BaseCache_recvAtomic (get_cache i) (put_cache i) send cpu_snoop e pkt s).
Proof.
  unfold BaseCache_recvAtomic. if_ok_step; [keeps_ok|]. do 2 if_ok_step. rename a into c, H into Hc. do 2 if_ok_step.
  apply if_ok_bind. eapply if_ok_mono; [by apply clean_block_temp|]. intros [[p1 ws'] c1] E1.
  apply if_ok_bind. eapply if_ok_mono; [apply (put_keeps i c c1 s Hc); congruence|]. intros s1 K1.
  apply if_ok_bind. eapply if_ok_mono; [apply doWritebacks_keeps|]. intros s2 K2.
  apply if_ok_bind, (if_ok_mono (fun '(_, _, s') => temps_kept s2 s')).
  { destruct b; [apply kept_refl|by apply miss_keeps]. }
  intros [[p2 ws2] s3] K3. apply if_ok_bind. eapply if_ok_mono; [apply doWritebacks_keeps|]. intros s4 K4.
  apply if_ok_bind. eapply if_ok_mono; [by apply retire_temp_tags|]. intros ? <-.
  repeat if_ok_step; eauto 6 using kept_trans.
Qed.

Lemma snoop_block_keeps invalidate nw pkt o s : of_tags o ->
  if_ok (fun '(_, s') => temps_kept s s') (snoop_block (get_cache i) (put_cache i) send cpu_snoop e invalidate nw pkt o s).
Proof.
  intros Ho. unfold snoop_block. do 2 if_ok_step. rename a into c, H into Hc. apply if_ok_bind, if_ok_any. intros valid.
  apply if_ok_bind, (if_ok_mono (fun '(_, _, s', _) => temps_kept s s')).
  - destruct o as [[p|]|]; [|contradiction|]; keeps_ok.
  - intros [[[b p1] s1] fin] K1. destruct fin; [exact K1|]. destruct (mustCheckAbove p1); [exact K1|].
    do 2 if_ok_step. rename a into c1, H into Hc1.
    apply if_ok_bind, (if_ok_mono (fun '(_, c') => temp_of c' = temp_of c1)).
    { destruct o as [[p|]|]; [|contradiction|]; temp_ok. }
    intros [p2 c2] E2. apply if_ok_bind, if_ok_any. intros p3. apply if_ok_bind, (if_ok_mono (fun c' => temp_of c' = temp_of c1)).
    { destruct o as [[p|]|]; [|contradiction|]; temp_ok. }
    intros c3 E3. apply if_ok_bind. eapply if_ok_mono; [by apply (put_keeps i c1 c3 s1)|]. intros s2 K2. exact (kept_trans s s1 s2 K1 K2).
Qed.

Lemma snoop_keeps pkt s : if_ok (fun '(_, s') => temps_kept s s') (recvAtomicSnoop (get_cache i) (put_cache i) send cpu_snoop e pkt s).
Proof.
  unfold recvAtomicSnoop. do 3 if_ok_step; [apply kept_refl|]. apply if_ok_bind, if_ok_any. intros o0.
  assert (of_tags (TagBlk <$> o0)) as Ho by (by destruct o0). revert Ho. generalize (TagBlk <$> o0). intros o Ho.
  unfold handleSnoop. if_ok_step; [|exact I]. apply if_ok_bind, if_ok_any. intros nw. if_ok_step; [|exact I]. do 2 if_ok_step.
  apply if_ok_bind, (if_ok_mono (fun '(_, s') => s' = s)); [unfold cpu_snoop; repeat if_ok_step; try done|].
  intros [p' ?] ->. by apply snoop_block_keeps.
Qed.
End Send.

(** ** The crossbar *)

Section Bus.
Context (e : Env) (snoop : Z -> Packet -> Sys T D -> res (Packet * Sys T D)).
Hypothesis Hsnoop : forall j pkt s, if_ok (fun '(_, s') => temps_kept s s') (snoop j pkt s).

Lemma put_xbar_keeps x s : if_ok (temps_kept s) (put_xbar x s).
Proof. by apply keeps_caches. Qed.
Lemma mem_send_keeps pkt s : if_ok (fun '(_, s') => temps_kept s s') (mem_send pkt s).
Proof. unfold mem_send. repeat if_ok_step. by apply keeps_caches. Qed.
Hint Resolve put_xbar_keeps mem_send_keeps : temp.
Ltac keeps_ok := repeat if_ok_step; eauto 4 using kept_trans, kept_refl with temp.

Lemma filter_response_keeps pkt ex source p s :
  if_ok (temps_kept s) (filter_response all_snoop get_xbar put_xbar pkt ex source p s).
Proof. unfold filter_response. keeps_ok. Qed.

Lemma forward_loop_keeps cmd ex source l resp pkt s :
  if_ok (fun '(_, _, s') => temps_kept s s') (forward_loop all_snoop get_xbar put_xbar snoop cmd ex source l resp pkt s).
Proof.
  induction l as [|p l IH] in resp, pkt, s |- *; cbn [forward_loop]; [apply kept_refl|]. if_ok_step; [apply IH|].
  apply if_ok_bind. eapply if_ok_mono; [apply Hsnoop|]. intros [p1 s1] K1. if_ok_step.
  - eapply if_ok_mono; [apply IH|]. intros [[r p2] s2] K2. by eapply kept_trans.
  - do 3 (if_ok_step; [|exact I]). apply if_ok_bind. eapply if_ok_mono; [apply filter_response_keeps|]. intros s2 K2.
    eapply if_ok_mono; [apply IH|]. intros [[r p2] s3] K3. eauto using kept_trans.
Qed.

Lemma snoop_caches_keeps pkt i s :
  if_ok (fun '(_, _, s') => temps_kept s s') (snoop_caches all_snoop get_xbar put_xbar snoop pkt i s).
Proof.
  assert (forall ex source l p s, if_ok (fun '(_, _, s') => temps_kept s s')
    (forwardAtomic all_snoop get_xbar put_xbar snoop p ex source l s)) as Hf.
  { intros. unfold forwardAtomic. if_ok_step. apply if_ok_any. intros x. if_ok_step; [apply forward_loop_keeps|exact I]. }
  unfold snoop_caches. if_ok_step. apply if_ok_any. intros x. if_ok_step; [apply kept_refl|]. if_ok_step; [|apply Hf].
  apply if_ok_bind, if_ok_any. intros [l f]. apply if_ok_bind, if_ok_any. intros f'.
  apply if_ok_bind. eapply if_ok_mono; [apply put_xbar_keeps|]. intros s1 K1. if_ok_step; [exact K1|].
  eapply if_ok_mono; [apply Hf|]. intros [[r p2] s2] K2. by eapply kept_trans.
Qed.

Lemma x_recvAtomic_keeps pkt i s :
  if_ok (fun '(_, s') => temps_kept s s') (x_recvAtomic all_snoop get_xbar put_xbar snoop mem_send pkt i s).
Proof.
  unfold x_recvAtomic. if_ok_step. apply if_ok_any. intros x. apply if_ok_bind. eapply if_ok_mono; [apply snoop_caches_keeps|].
  intros [[r p1] s1] K1. apply if_ok_bind, (if_ok_mono (fun '(_, s') => temps_kept s1 s')); [unfold send_on; keeps_ok|].
  intros [p2 s2] K2. apply if_ok_bind, if_ok_any. intros x2. apply if_ok_bind, (if_ok_mono (temps_kept s2)); [keeps_ok|]. intros s3 K3.
  apply if_ok_bind, if_ok_any. intros p4. apply if_ok_bind, (if_ok_mono (temps_kept s3)); [unfold track_CMO; keeps_ok|]. intros s4 K4.
  exact (kept_trans _ _ _ K1 (kept_trans _ _ _ K2 (kept_trans _ _ _ K3 K4))).
Qed.
End Bus.

Lemma xbar_send_keeps e fuel i pkt s : if_ok (fun '(_, s') => temps_kept s s') (xbar_send e fuel i pkt s).
Proof.
  induction fuel as [|fuel IH] in i, pkt, s |- *; cbn [xbar_send]; [exact I|]. apply x_recvAtomic_keeps. intros j p s1.
  apply snoop_keeps. intros. apply IH.
Qed.

(** A request of a processor. *)
Lemma cpu_send_keeps e i pkt s : if_ok (fun '(_, s') => temps_kept s s') (cpu_send e i pkt s).
Proof.
  unfold cpu_send, recvAtomic. if_ok_step. apply if_ok_any. intros c. apply BaseCache_recvAtomic_keeps. intros. apply xbar_send_keeps.
Qed.
End Temp.
