(* ===== verification/FuncAccess.v ===== *)
(** Functional accesses: the debug accesses that read and write memory at once,
    whatever caches hold its lines, from src/mem/packet.cc, cache/base.cc,
    coherent_xbar.cc, abstract_mem.cc and simple_mem.cc.

    In atomic mode no queue of a port, no write buffer and no list of
    outstanding misses holds a packet; the searches in them find nothing.  The
    labels of a print request and what it prints are not modelled. *)
From S2P Require Import Prelude AddrRange CacheBlk ReplPolicy CacheTags TagStore MemPacket Cache SnoopFilter.
From S2P Require Import AbstractMem CoherentXBar CohSystem.

(** * Packets *)

(** A packet with the bytes of its data that have been found. *)
Record FPacket := { f_pkt : Packet; bytesValid : list bool }.
Definition FPacket_new (p : Packet) : FPacket := {| f_pkt := p; bytesValid := [] |}.
Definition isPrint p := cmd_isPrint (p_cmd p).

(** [for (; all && i < i + n; ++i) all &= bytesValid[i]], from [all] set. *)
Fixpoint all_valid (bv : list bool) (i : Z) (n : nat) : res bool :=
  match n with
  | O => Ok true
  | S n => b ← aread bv i; if b : bool then all_valid bv (i + 1) n else Ok false
  end.
(** [for (; i < i + n; ++i) bytesValid[i] = true] *)
Fixpoint mark_valid (bv : list bool) (i : Z) (n : nat) : res (list bool) :=
  match n with
  | O => Ok bv
  | S n => bv ← awrite bv i true; mark_valid bv (i + 1) n
  end.

(** [trySatisfyFunctional(obj, addr, is_secure, size, _data)]; [data]: the bytes
    [_data] points to.  Returns them, as a write changes them. *)
Definition trySatisfyFunctional (addr : Z) (is_secure : bool) (size : Z) (data : option (list Z)) (f : FPacket)
  : res (bool * FPacket * option (list Z)) :=
  let pkt := f_pkt f in
  let func_start := p_addr pkt in
  let func_end := u64 (p_addr pkt + p_size pkt - 1) in
  let val_start := addr in
  let val_end := u64 (val_start + size - 1) in
  if negb (eqb is_secure (p_isSecure pkt)) || (val_end <? func_start) || (func_end <? val_start) then Ok (false, f, data)
  else if isPrint pkt then
    assert! (match data with None => true | Some _ => false end) ;;
    Ok (false, f, data)
  else
    match data with
    | None => Ok (false, f, data)
    | Some d =>
      let val_offset := if val_start <? func_start then func_start - val_start else 0 in
      let func_offset := if func_start <? val_start then val_start - func_start else 0 in
      let overlap_size := u64 (Z.min val_end func_end + 1 - Z.max val_start func_start) in
      if isRead pkt then
        p ← getPtr pkt;
        v ← bytes_at d val_offset overlap_size;
        p ← bytes_set p func_offset v;
        let bv := match bytesValid f with [] => replicate (Z.to_nat (p_size pkt)) false | bv => bv end in
        before ← all_valid bv 0 (Z.to_nat func_offset);
        bv ← mark_valid bv func_offset (Z.to_nat overlap_size);
        let i := func_offset + overlap_size in
        all ← (if before : bool then all_valid bv i (Z.to_nat (p_size pkt - i)) else Ok false);
        Ok (all, {| f_pkt := with_data (Some p) pkt; bytesValid := bv |}, data)
      else if isWrite pkt then
        p ← getPtr pkt;
        v ← bytes_at p func_offset overlap_size;
        d ← bytes_set d val_offset v;
        Ok (false, f, Some d)
      else Panic
    end.

Definition f_makeResponse (f : FPacket) : res FPacket :=
  p ← makeResponse (f_pkt f); Ok {| f_pkt := p; bytesValid := bytesValid f |}.

(** * The cache *)

Section Cache.
Context {T D : Type} `{!BaseTags T D}.
Context {S : Type} (getc : S -> res (Cache T D)) (putc : Cache T D -> S -> res S).
Context (sendFunctional sendFunctionalSnoop : FPacket -> S -> res (FPacket * S)).

(** The block's part in an access: whether the packet is satisfied, and by a
    dirty block. *)
Definition satisfy_from_block (f : FPacket) (c : Cache T D) : res (bool * FPacket * Cache T D) :=
  let pkt := f_pkt f in
  let blk_addr := getBlockAddr pkt (c_blkSize c) in
  let is_secure := p_isSecure pkt in
  blk ← bt_findBlock (tags c) (p_addr pkt) is_secure;
  match blk with
  | None => Ok (false, f, c)
  | Some p =>
    b ← bt_blk (tags c) p;
    if isValid b then
      d ← get_data c (TagBlk p);
      '(have_data, f, d') ← trySatisfyFunctional blk_addr is_secure (c_blkSize c) (Some d) f;
      c ← put_data c (TagBlk p) (default d d');
      Ok (have_data && isDirty b, f, c)
    else Ok (false, f, c)
  end.

(** [BaseCache::functionalAccess] *)
Definition c_functionalAccess (from_cpu_side : bool) (f : FPacket) (s : S) : res (FPacket * S) :=
  c ← getc s;
  '(have_dirty, f, c) ← satisfy_from_block f c;
  s ← putc c s;
  if have_dirty : bool then f ← f_makeResponse f; Ok (f, s)
  else if from_cpu_side then sendFunctional f s
  else if forwardSnoops (params c) then sendFunctionalSnoop f s
  else Ok (f, s).

(** [CpuSidePort::recvFunctional]; [bypass]: [system->bypassCaches()]. *)
Definition c_recvFunctional (bypass : bool) (f : FPacket) (s : S) : res (FPacket * S) :=
  if bypass then sendFunctional f s else c_functionalAccess true f s.
(** [MemSidePort::recvFunctionalSnoop] *)
Definition c_recvFunctionalSnoop (bypass : bool) (f : FPacket) (s : S) : res (FPacket * S) :=
  assert! negb bypass ;; c_functionalAccess false f s.
End Cache.

(** * The crossbar *)

Section Ports.
Context {S : Type} (getx : S -> res XBar).
Context (sendFunctionalSnoop : Z -> FPacket -> S -> res (FPacket * S)) (sendFunctional : FPacket -> S -> res (FPacket * S)).

(** The loop of [forwardFunctional] over the ports. *)
Fixpoint forwardFunctional_loop (exclude : Z) (ports : list Z) (f : FPacket) (s : S) : res (FPacket * S) :=
  match ports with
  | [] => Ok (f, s)
  | p :: ports =>
    '(f, s) ← (if (exclude =? InvalidPortID) || negb (p =? exclude) then sendFunctionalSnoop p f s else Ok (f, s));
    if isResponse (f_pkt f) then Ok (f, s) else forwardFunctional_loop exclude ports f s
  end.
Definition forwardFunctional (f : FPacket) (exclude : Z) (s : S) : res (FPacket * S) :=
  x ← getx s;
  assert! negb (bypassCaches (x_params x)) ;;
  forwardFunctional_loop exclude (snoopPorts (x_params x)) f s.

Definition x_recvFunctional (f : FPacket) (slave_port_id : Z) (s : S) : res (FPacket * S) :=
  x ← getx s;
  '(f, s) ← (if negb (bypassCaches (x_params x)) then forwardFunctional f slave_port_id s else Ok (f, s));
  if negb (isResponse (f_pkt f)) then sendFunctional f s else Ok (f, s).
Definition x_recvFunctionalSnoop (f : FPacket) (s : S) : res (FPacket * S) := forwardFunctional f InvalidPortID s.
End Ports.

(** * Memory *)

(** [AbstractMemory::functionalAccess] *)
Definition m_functionalAccess (f : FPacket) (m : AbstractMemory) : res (FPacket * AbstractMemory) :=
  let pkt := f_pkt f in
  sub ← isSubset (AddrRange_plain (p_addr pkt) (u64 (p_addr pkt + p_size pkt - 1))) (m_range m);
  assert! (sub : bool) ;;
  let off := p_addr pkt - start (m_range m) in
  if isRead pkt then
    pkt ← (match pmem m with Some d => copy_from pkt d off | None => Ok pkt end);
    f ← f_makeResponse {| f_pkt := pkt; bytesValid := bytesValid f |};
    Ok (f, m)
  else if isWrite pkt then
    m ← (match pmem m with
         | Some d => v ← writeData pkt; d ← bytes_set d off v; Ok (with_pmem m (Some d))
         | None => Ok m
         end);
    f ← f_makeResponse f;
    Ok (f, m)
  else if isPrint pkt then
    match pmem m with Some d => _ ← bytes_at d off 1; Ok (f, m) | None => Ub end
  else Panic.

(** [SimpleMemory::recvFunctional] *)
Definition SimpleMemory_recvFunctional (f : FPacket) (m : AbstractMemory) : res (FPacket * AbstractMemory) :=
  m_functionalAccess f m.

(** * The system *)

Section System.
Context {T D : Type} `{!BaseTags T D}.
Local Abbreviation sys := (Sys T D).

Definition mem_functional (f : FPacket) (s : sys) : res (FPacket * sys) :=
  '(f, m) ← SimpleMemory_recvFunctional f (s_mem s); Ok (f, put_mem m s).
(** A processor does not answer functional snoops. *)
Definition cpu_functional_snoop (f : FPacket) (s : sys) : res (FPacket * sys) := Ok (f, s).
(** A snoop is not sent back to the crossbar. *)
Definition no_functional (f : FPacket) (s : sys) : res (FPacket * sys) := Panic.

(** A functional snoop of cache [j]. *)
Definition snoop_functional (j : Z) (f : FPacket) (s : sys) : res (FPacket * sys) :=
  c_recvFunctionalSnoop (get_cache j) (put_cache j) no_functional cpu_functional_snoop (bypassCaches (x_params (s_xbar s))) f s.
(** A functional access that reaches the crossbar at port [i]: that of a cache,
    or one of a master without caches. *)
Definition xbar_functional (i : Z) (f : FPacket) (s : sys) : res (FPacket * sys) :=
  x_recvFunctional get_xbar snoop_functional mem_functional f i s.

(** A functional access of the processor of cache [i]. *)
Definition cpu_functional (i : Z) (f : FPacket) (s : sys) : res (FPacket * sys) :=
  c_recvFunctional (get_cache i) (put_cache i) (xbar_functional i) cpu_functional_snoop
    (bypassCaches (x_params (s_xbar s))) f s.
End System.
