(* ===== verification/CohLine.v ===== *)
(** The lines of a cache: what a cache holds of an address, and how the
    primitive operations on its blocks change it. *)
From S2P Require Import Prelude CacheBlk ReplPolicy CacheTags TagStore MemPacket Cache.

(** * The state of a block *)

(** What a cache holds of a line: whether it may write it, whether its copy
    is newer than memory's, and the bytes. *)
Record Line := { l_w : bool; l_d : bool; l_v : list Z }.

Section Status.
Context {D : Type}.
Implicit Types b : CacheBlk D.

Lemma land_pow2 s i : 0 <= i -> negb (Z.land s (2 ^ i) =? 0) = Z.testbit s i.
Proof.
  intros Hi. assert (Z.land s (2 ^ i) = if Z.testbit s i then 2 ^ i else 0) as ->.
  { apply bits_ext. intros j Hj. rewrite Z.land_spec, Z.pow2_bits_eqb by done.
    destruct (Z.testbit s i) eqn:E; rewrite ?Z.pow2_bits_eqb, ?Z.bits_0 by done;
      destruct (Z.eqb_spec i j); subst; rewrite ?E, ?andb_false_r, ?andb_true_r; done. }
  pose proof (pow2_pos i Hi). destruct (Z.testbit s i), (Z.eqb_spec (2 ^ i) 0); (done || lia).
Qed.

Lemma land_two s i j : 0 <= i -> 0 <= j -> i <> j ->
  (Z.land s (Z.lor (2 ^ i) (2 ^ j)) =? Z.lor (2 ^ i) (2 ^ j)) = Z.testbit s i && Z.testbit s j.
Proof.
  intros Hi Hj Hij. apply eq_true_iff_eq. rewrite Z.eqb_eq, andb_true_iff. split.
  - intros E. split; [apply (f_equal (fun x => Z.testbit x i)) in E|apply (f_equal (fun x => Z.testbit x j)) in E];
      rewrite Z.land_spec, Z.lor_spec, !Z.pow2_bits_eqb, !Z.eqb_refl in E by done; cbn in E; rewrite ?orb_true_r, ?andb_true_r in E; done.
  - intros [E1 E2]. apply bits_ext. intros n Hn. rewrite Z.land_spec, Z.lor_spec, !Z.pow2_bits_eqb by done.
    destruct (Z.eqb_spec i n), (Z.eqb_spec j n); subst; rewrite ?E1, ?E2, ?andb_false_r; done.
Qed.

Lemma isValid_bit b : isValid b = Z.testbit (status b) 0.
Proof. by apply (land_pow2 (status b) 0). Qed.
Lemma isDirty_bit b : isDirty b = Z.testbit (status b) 3.
Proof. by apply (land_pow2 (status b) 3). Qed.
Lemma isSecure_bit b : CacheBlk.isSecure b = Z.testbit (status b) 6.
Proof. by apply (land_pow2 (status b) 6). Qed.
Lemma isWritable_bit b : isWritable b = Z.testbit (status b) 1 && Z.testbit (status b) 0.
Proof. by apply (land_two (status b) 1 0). Qed.
Lemma isReadable_bit b : isReadable b = Z.testbit (status b) 2 && Z.testbit (status b) 0.
Proof. by apply (land_two (status b) 2 0). Qed.
End Status.

(** Reduce the predicates of blocks to the bits of their status, and these to
    the bits of the status before it was changed. *)
Ltac status_bits :=
  rewrite ?isValid_bit, ?isDirty_bit, ?isSecure_bit, ?isWritable_bit, ?isReadable_bit in *;
  cbn [with_status status with_locks with_repl] in *;
  rewrite ?Z.lor_spec, ?Z.land_spec in *;
  repeat match goal with
  | |- context [Z.testbit ?m ?i] => let v := eval vm_compute in (Z.testbit m i) in
      match v with true => change (Z.testbit m i) with true | false => change (Z.testbit m i) with false end
  | H : context [Z.testbit ?m ?i] |- _ => let v := eval vm_compute in (Z.testbit m i) in
      match v with true => change (Z.testbit m i) with true in H | false => change (Z.testbit m i) with false in H end
  end;
  rewrite ?orb_false_r, ?orb_true_r, ?andb_true_r, ?andb_false_r in *.

(** * Bytes *)

Lemma bytes_at_Ok l o n : 0 <= o -> 0 <= n -> o + n <= Z.of_nat (length l) ->
  bytes_at l o n = Ok (take (Z.to_nat n) (drop (Z.to_nat o) l)).
Proof. intros. unfold bytes_at. by rewrite !(proj2 (Z.leb_le _ _)) by lia. Qed.

Lemma bytes_set_Ok l o v : 0 <= o -> o + Z.of_nat (length v) <= Z.of_nat (length l) ->
  bytes_set l o v = Ok (take (Z.to_nat o) l ++ v ++ drop (Z.to_nat o + length v) l).
Proof. intros. unfold bytes_set. by rewrite !(proj2 (Z.leb_le _ _)) by lia. Qed.

Lemma bytes_set_length l o v l' : bytes_set l o v = Ok l' -> length l' = length l.
Proof.
  unfold bytes_set. case_match eqn:E; [|done]. intros [= <-]. apply andb_true_iff in E as [E1 E2].
  rewrite !length_app, length_take, length_drop. lia.
Qed.

Lemma bytes_set_all l v : length v = length l -> bytes_set l 0 v = Ok v.
Proof.
  intros E. rewrite bytes_set_Ok by lia. rewrite drop_ge by lia. cbn. by rewrite app_nil_r.
Qed.

Lemma bytes_at_all l n : n = Z.of_nat (length l) -> bytes_at l 0 n = Ok l.
Proof. intros ->. rewrite bytes_at_Ok by lia. by rewrite Nat2Z.id, drop_0, take_ge by lia. Qed.

(** * Lines *)

Section Lines.
Context {T D : Type} `{!BaseTags T D, !BaseTagsLaws T D}.
(** Blocks of [2 ^ k] bytes; [world]: which security state a line is used in. *)
Context (k : Z) (world : Z -> bool).
Implicit Types (c : Cache T D) (b : CacheBlk D).

(** Block [p] of the tags holds the line of address [a]. *)
Definition blk_in c (p a : Z) b (v : list Z) : Prop :=
  bt_blk (tags c) p = Ok b /\ isValid b = true /\ CacheBlk.isSecure b = world (align k a) /\
  bt_regenerateBlkAddr (tags c) b = align k a /\ aread (c_data c) p = Ok v.

Definition line_state b (v : list Z) : Line := {| l_w := isWritable b; l_d := isDirty b; l_v := v |}.

Definition cline c (a : Z) : option Line :=
  match bt_findBlock (tags c) a (world (align k a)) with
  | Ok (Some p) =>
    match bt_blk (tags c) p, aread (c_data c) p with
    | Ok b, Ok v => Some (line_state b v)
    | _, _ => None
    end
  | _ => None
  end.

(** The invariant of a cache that fills its own misses. *)
Record cache_ok c : Prop := {
  co_tags : bt_ok k (tags c);
  co_blkSize : c_blkSize c = 2 ^ k;
  co_period : 0 < clockPeriod (params c);
  co_incl : clusivity (params c) = mostly_incl;
  co_data : forall p b, bt_blk (tags c) p = Ok b -> exists v, aread (c_data c) p = Ok v /\ Z.of_nat (length v) = 2 ^ k;
  co_blk : forall p b, bt_blk (tags c) p = Ok b -> isValid b = true ->
    isReadable b = true /\ (isReadOnly (params c) = true -> isDirty b = false) /\
    CacheBlk.isSecure b = world (bt_regenerateBlkAddr (tags c) b);
  co_temp : isValid (tempBlock c) = false;
  co_tempwb : tempBlockWriteback c = None }.

(** [c'] differs from [c] at most in the line of [a]. *)
Definition upd c c' (a : Z) : Prop :=
  params c' = params c /\ bt_shape (tags c) (tags c') /\
  forall a', addr_ok a' -> align k a' <> align k a -> cline c' a' = cline c a'.

Lemma upd_refl c a : upd c c a.
Proof. by repeat split. Qed.
Lemma upd_trans c1 c2 c3 a : upd c1 c2 a -> upd c2 c3 a -> upd c1 c3 a.
Proof.
  intros (H1 & (S1 & S2 & S3) & H2) (H3 & (S4 & S5 & S6) & H4). split; [congruence|]. split; [split_and!; congruence|].
  intros a' Ha Hne. rewrite H4 by done. by apply H2.
Qed.

Lemma blk_in_holds c p a b v : blk_in c p a b v -> holds_at k (tags c) a (world (align k a)) p.
Proof. intros (H1 & H2 & H3 & H4 & _). by exists b. Qed.

Lemma blk_in_find c p a b v : cache_ok c -> addr_ok a -> blk_in c p a b v ->
  bt_findBlock (tags c) a (world (align k a)) = Ok (Some p).
Proof.
  intros Hc Ha Hb. destruct (bt_find_ok k (tags c) a (world (align k a)) (co_tags _ Hc) Ha) as (o & -> & Ho).
  f_equal. apply Ho. by eapply blk_in_holds.
Qed.

Lemma blk_in_cline c p a b v : cache_ok c -> addr_ok a -> blk_in c p a b v -> cline c a = Some (line_state b v).
Proof.
  intros Hc Ha Hb. unfold cline. rewrite (blk_in_find c p a b v) by done.
  destruct Hb as (-> & _ & _ & _ & ->). done.
Qed.

Lemma find_blk_in c a o : cache_ok c -> addr_ok a -> bt_findBlock (tags c) a (world (align k a)) = Ok o ->
  match o with
  | Some p => exists b v, blk_in c p a b v /\ Z.of_nat (length v) = 2 ^ k
  | None => cline c a = None /\ forall p b v, ~ blk_in c p a b v
  end.
Proof.
  intros Hc Ha Hf. destruct (bt_find_ok k (tags c) a (world (align k a)) (co_tags _ Hc) Ha) as (o' & Hf' & Ho).
  assert (o' = o) as -> by congruence. destruct o as [p|].
  - destruct (proj1 (Ho p) eq_refl) as (b & H1 & H2 & H3 & H4). destruct (co_data _ Hc p b H1) as (v & Hv & Hl).
    exists b, v. by split.
  - split; [unfold cline; by rewrite Hf|]. intros p b v Hb. apply blk_in_holds in Hb. apply Ho in Hb. done.
Qed.

Lemma cline_cases c a : cache_ok c -> addr_ok a ->
  (exists p b v, bt_findBlock (tags c) a (world (align k a)) = Ok (Some p) /\ blk_in c p a b v /\
     Z.of_nat (length v) = 2 ^ k /\ cline c a = Some (line_state b v)) \/
  (bt_findBlock (tags c) a (world (align k a)) = Ok None /\ cline c a = None /\ forall p b v, ~ blk_in c p a b v).
Proof.
  intros Hc Ha. destruct (bt_find_ok k (tags c) a (world (align k a)) (co_tags _ Hc) Ha) as (o & Hf & _).
  pose proof (find_blk_in c a o Hc Ha Hf) as H. destruct o as [p|]; [left|by right].
  destruct H as (b & v & Hb & Hl). exists p, b, v. split_and!; try done. by eapply blk_in_cline.
Qed.

Lemma align_idem a : 2 <= k -> align k (align k a) = align k a.
Proof. intros Hk. unfold align. by rewrite Z.div_mul by (apply Z.pow_nonzero; lia). Qed.
Lemma align_ok a : 2 <= k -> addr_ok a -> addr_ok (align k a).
Proof.
  intros Hk [H0 H1]. unfold align, addr_ok. pose proof (pow2_pos k ltac:(lia)).
  pose proof (Z.div_mod a (2 ^ k) ltac:(lia)). pose proof (Z.mod_pos_bound a (2 ^ k) ltac:(lia)).
  pose proof (Z.div_pos a (2 ^ k) ltac:(lia) ltac:(lia)). nia.
Qed.

Lemma cline_align c a : cache_ok c -> addr_ok a -> cline c (align k a) = cline c a.
Proof.
  intros Hc Ha. pose proof (bt_k _ _ (co_tags _ Hc)) as Hk. pose proof (align_ok a ltac:(lia) Ha) as Ha'.
  assert (forall p b v, blk_in c p (align k a) b v <-> blk_in c p a b v) as Hiff.
  { intros p b v. unfold blk_in. by rewrite !align_idem by lia. }
  destruct (cline_cases c a Hc Ha) as [(p & b & v & _ & Hb & _ & ->)|(_ & -> & Hno)].
  - apply (blk_in_cline c p (align k a) b v Hc Ha'). by apply Hiff.
  - destruct (cline_cases c _ Hc Ha') as [(p & b & v & _ & Hb & _)|(_ & -> & _)]; [|done].
    apply Hiff in Hb. by apply Hno in Hb.
Qed.

(** Two caches whose blocks away from the line of [a] agree. *)
Lemma upd_intro c c' a : cache_ok c -> cache_ok c' -> params c' = params c -> bt_shape (tags c) (tags c') ->
  (forall p a' b v, addr_ok a' -> align k a' <> align k a -> blk_in c p a' b v ->
     exists b' v', blk_in c' p a' b' v' /\ line_state b' v' = line_state b v) ->
  (forall p a' b v, addr_ok a' -> align k a' <> align k a -> blk_in c' p a' b v -> exists b' v', blk_in c p a' b' v') ->
  upd c c' a.
Proof.
  intros Hc Hc' Hp Hsh H1 H2. split; [done|]. split; [done|]. intros a' Ha' Hne.
  destruct (cline_cases c a' Hc Ha') as [(p & b & v & _ & Hb & _ & ->)|(_ & -> & Hno)].
  - destruct (H1 p a' b v Ha' Hne Hb) as (b' & v' & Hb' & E). by rewrite (blk_in_cline c' p a' b' v' Hc' Ha' Hb'), E.
  - destruct (cline_cases c' a' Hc' Ha') as [(p & b & v & _ & Hb & _)|(_ & -> & _)]; [|done].
    destruct (H2 p a' b v Ha' Hne Hb) as (b' & v' & Hb'). by apply Hno in Hb'.
Qed.
End Lines.

(** * Changing one block *)

Section Change.
Context {T D : Type} `{!BaseTags T D, !BaseTagsLaws T D} (k : Z) (world : Z -> bool).
Implicit Types (c : Cache T D) (b : CacheBlk D).

Lemma keeps_refl b : isValid b = true -> keeps b b.
Proof. done. Qed.
Lemma keeps_status b s : Z.testbit s 0 = true -> Z.testbit s 6 = Z.testbit (status b) 6 -> keeps b (with_status b s).
Proof. intros H0 H6. unfold keeps. rewrite !isSecure_bit, isValid_bit. by split_and!. Qed.

(** The tags may store a new block [b'] for [b] and the invariant holds. *)
Lemma put_blk_ok c p a b b' v : cache_ok k world c -> blk_in k world c p a b v -> keeps b b' ->
  isReadable b' = true -> (isReadOnly (params c) = true -> isDirty b' = false) ->
  exists c', put_blk c (TagBlk p) b' = Ok c' /\ cache_ok k world c' /\ blk_in k world c' p a b' v /\ upd k world c c' a.
Proof.
  intros Hc (H1 & H2 & H3 & H4 & H5) Hk Hr Hro. cbn [put_blk].
  destruct (bt_store_ok (tags c) p b b' H1) as (t' & -> & (Hs1 & Hs2 & Hs3) & Hlk & Hok). cbn [mbind res_bind].
  pose proof Hk as (K1 & K2 & _ & _ & K5 & K6).
  assert (bt_regenerateBlkAddr t' b' = align k a) as Hre by (rewrite Hs1, <- H4; by apply bt_regen_ext).
  assert (cache_ok k world (with_tags c t')) as Hc'.
  { split; try apply Hc; cbn [with_tags tags params c_data].
    - by apply (Hok k), Hk; [apply Hc|].
    - intros q b0. rewrite Hlk. case_decide; [subst|by apply Hc]. intros _. by apply (co_data _ _ _ Hc p b).
    - intros q b0. rewrite Hlk. case_decide; [subst|rewrite Hs1; by apply Hc].
      intros [= <-] _. split; [done|]. split; [done|]. by rewrite K5, Hre, H3. }
  exists (with_tags c t'). split; [done|]. split; [done|]. split.
  { unfold blk_in. cbn [with_tags tags c_data]. rewrite Hlk, decide_True, K5, Hre by done. by split_and!. }
  apply upd_intro; [done..| |]; intros q a' b0 v0 Ha' Hne (G1 & G2 & G3 & G4 & G5).
  - exists b0, v0. split; [|done]. unfold blk_in. cbn [with_tags tags c_data]. rewrite Hlk, Hs1.
    rewrite decide_False; [by split_and!|]. intros ->. congruence.
  - cbn [with_tags tags c_data] in *. rewrite Hlk in G1. case_decide; [|rewrite Hs1 in G4; by exists b0, v0].
    injection G1 as <-. congruence.
Qed.

Lemma put_data_ok c p a b v v' : cache_ok k world c -> blk_in k world c p a b v -> Z.of_nat (length v') = 2 ^ k ->
  exists c', put_data c (TagBlk p) v' = Ok c' /\ cache_ok k world c' /\ blk_in k world c' p a b v' /\ upd k world c c' a /\
    tags c' = tags c.
Proof.
  intros Hc (H1 & H2 & H3 & H4 & H5) Hl. cbn [put_data]. pose proof (aread_inv _ _ _ H5) as [H0 Hlk].
  apply lookup_lt_Some in Hlk as Hlt. rewrite awrite_Ok by lia. cbn [mbind res_bind].
  assert (forall q, aread (<[Z.to_nat p := v']> (c_data c)) q = if decide (q = p) then Ok v' else aread (c_data c) q) as Hq.
  { intros q. case_decide as Hq; [subst; by apply aread_Ok; [|apply list_lookup_insert_eq]|].
    unfold aread. destruct (Z.leb_spec 0 q); [|done]. by rewrite list_lookup_insert_ne by lia. }
  assert (cache_ok k world (with_c_data c (<[Z.to_nat p := v']> (c_data c)))) as Hc'.
  { split; try apply Hc; cbn [with_c_data tags params c_data]. intros q b0 Hb0. rewrite Hq.
    case_decide; [by exists v'|by apply (co_data _ _ _ Hc q b0)]. }
  eexists. split; [done|]. split; [done|]. split; [|split; [|done]].
  { unfold blk_in. cbn [with_c_data tags c_data]. rewrite Hq, decide_True by done. by split_and!. }
  apply upd_intro; [done..| |]; intros q a' b0 v0 Ha' Hne (G1 & G2 & G3 & G4 & G5); cbn [with_c_data tags c_data] in *.
  - exists b0, v0. split; [|done]. unfold blk_in. cbn [with_c_data tags c_data]. rewrite Hq.
    rewrite decide_False; [by split_and!|]. intros ->. congruence.
  - assert (q <> p) by (intros ->; congruence). rewrite Hq, decide_False in G5 by done. by exists b0, v0.
Qed.

Lemma c_invalidateBlock_ok c p a b v : cache_ok k world c -> addr_ok a -> blk_in k world c p a b v ->
  exists c', c_invalidateBlock c (TagBlk p) = Ok c' /\ cache_ok k world c' /\ cline k world c' a = None /\
    upd k world c c' a /\ (exists b', bt_blk (tags c') p = Ok b' /\ isValid b' = false).
Proof.
  intros Hc Ha (H1 & H2 & H3 & H4 & H5). cbn [c_invalidateBlock].
  destruct (bt_invalidate_ok k (tags c) p b (co_tags _ _ _ Hc) H1 H2)
    as (t1 & b1 & t2 & -> & Hb1 & Hst & Hok & Hsh & Hlk). pose proof Hsh as (Hs1 & Hs2 & Hs3). cbn [mbind res_bind].
  rewrite Hb1. cbn [mbind res_bind]. rewrite Hst. cbn [mbind res_bind].
  assert (cache_ok k world (with_tags c t2)) as Hc'.
  { split; try apply Hc; cbn [with_tags tags params c_data]; [done| |].
    - intros q b0. rewrite Hlk. case_decide; [subst|by apply Hc]. intros _. by apply (co_data _ _ _ Hc p b).
    - intros q b0. rewrite Hlk. case_decide; [|rewrite Hs1; by apply Hc]. by intros [= <-] ?. }
  exists (with_tags c t2). split; [done|]. split; [done|]. split; [|split; [|]].
  - destruct (cline_cases k world _ a Hc' Ha) as [(q & b0 & v0 & _ & (G1 & G2 & G3 & G4 & G5) & _)|(_ & -> & _)]; [exfalso|done].
    cbn [with_tags tags c_data] in *. rewrite Hlk in G1. case_decide as Hq; [by injection G1 as <-|].
    assert (blk_in k world c q a b0 v0) as Hb0 by (rewrite Hs1 in G4; by split_and!).
    apply Hq. enough (Some q = Some p) by congruence.
    pose proof (blk_in_find k world c q a b0 v0 Hc Ha Hb0). pose proof (blk_in_find k world c p a b v Hc Ha).
    rewrite H0 in H by by split_and!. congruence.
  - apply upd_intro; [done..| |]; intros q a' b0 v0 Ha' Hne (G1 & G2 & G3 & G4 & G5); cbn [with_tags tags c_data] in *.
    + exists b0, v0. split; [|done]. unfold blk_in. cbn [with_tags tags c_data]. rewrite Hlk, Hs1.
      rewrite decide_False; [by split_and!|]. intros ->. congruence.
    + rewrite Hlk in G1. case_decide; [by injection G1 as <-|rewrite Hs1 in G4; by exists b0, v0].
  - exists (blk_invalidate b1). cbn [with_tags tags]. by rewrite Hlk, decide_True.
Qed.

(** [status |= m] and [status &= ~m] on a valid block. *)
Lemma status_or_ok c p a b v m : cache_ok k world c -> blk_in k world c p a b v ->
  Z.testbit m 6 = false -> (isReadOnly (params c) = true -> Z.testbit m 3 = false) ->
  exists c', status_or c (TagBlk p) m = Ok c' /\ cache_ok k world c' /\
    blk_in k world c' p a (with_status b (Z.lor (status b) m)) v /\ upd k world c c' a.
Proof.
  intros Hc Hb H6 H3. pose proof Hb as (H1 & H2 & _). unfold status_or. cbn [get_blk]. rewrite H1. cbn [mbind res_bind].
  destruct (co_blk _ _ _ Hc p b H1 H2) as (Hr & Hro & _).
  apply put_blk_ok with (b := b); try done.
  - apply keeps_status; rewrite Z.lor_spec; [rewrite <- isValid_bit, H2; done|by rewrite H6, orb_false_r].
  - revert Hr. rewrite !isReadable_bit. cbn [with_status status]. rewrite !Z.lor_spec.
    intros [-> ->]%andb_true_iff. done.
  - intros Hx. specialize (Hro Hx). revert Hro. rewrite !isDirty_bit. cbn [with_status status]. rewrite Z.lor_spec.
    intros ->. by rewrite H3.
Qed.

Lemma status_clear_ok c p a b v m : cache_ok k world c -> blk_in k world c p a b v ->
  Z.testbit (u32 (Z.lnot m)) 0 = true -> Z.testbit (u32 (Z.lnot m)) 2 = true -> Z.testbit (u32 (Z.lnot m)) 6 = true ->
  exists c', status_clear c (TagBlk p) m = Ok c' /\ cache_ok k world c' /\
    blk_in k world c' p a (with_status b (Z.land (status b) (u32 (Z.lnot m)))) v /\ upd k world c c' a.
Proof.
  intros Hc Hb E0 E2 E6. pose proof Hb as (H1 & H2 & _). unfold status_clear. cbn [get_blk]. rewrite H1. cbn [mbind res_bind].
  destruct (co_blk _ _ _ Hc p b H1 H2) as (Hr & Hro & _).
  apply put_blk_ok with (b := b); try done.
  - apply keeps_status; rewrite Z.land_spec; [rewrite <- isValid_bit, H2, E0; done|by rewrite E6, andb_true_r].
  - revert Hr. rewrite !isReadable_bit. cbn [with_status status]. rewrite !Z.land_spec, E0, E2.
    intros [-> ->]%andb_true_iff. done.
  - intros Hx. specialize (Hro Hx). revert Hro. rewrite !isDirty_bit. cbn [with_status status]. rewrite Z.land_spec.
    by intros ->.
Qed.

(** Touching the tags changes no line. *)
Lemma touch_ok c t' : cache_ok k world c -> bt_ok k t' -> bt_shape (tags c) t' ->
  (forall p b, bt_blk (tags c) p = Ok b -> exists b', bt_blk t' p = Ok b' /\ touched b b') ->
  (forall p b', bt_blk t' p = Ok b' -> exists b, bt_blk (tags c) p = Ok b) ->
  cache_ok k world (with_tags c t') /\
  (forall a, addr_ok a -> cline k world (with_tags c t') a = cline k world c a) /\
  (forall p a b v, blk_in k world c p a b v -> exists b', blk_in k world (with_tags c t') p a b' v /\ touched b b').
Proof.
  intros Hc Hok (Hs1 & Hs2 & Hs3) H1 H2.
  assert (forall p b', bt_blk t' p = Ok b' -> exists b, bt_blk (tags c) p = Ok b /\ touched b b') as H2'.
  { intros p b' Hb'. destruct (H2 p b' Hb') as [b Hb]. destruct (H1 p b Hb) as (b1 & Hb1 & Ht).
    exists b. split; [done|congruence]. }
  assert (forall b b', touched b b' -> bt_regenerateBlkAddr t' b' = bt_regenerateBlkAddr (tags c) b) as Hre.
  { intros b b' ->. rewrite Hs1. by apply bt_regen_ext. }
  assert (cache_ok k world (with_tags c t')) as Hc'.
  { split; try apply Hc; cbn [with_tags tags params c_data]; [done| |].
    - intros p b' Hb'. destruct (H2 p b' Hb') as [b Hb]. by apply (co_data _ _ _ Hc p b).
    - intros p b' Hb' Hv. destruct (H2' p b' Hb') as (b & Hb & Ht). rewrite (Hre b b' Ht). rewrite Ht in Hv |- *.
      by apply (co_blk _ _ _ Hc p b Hb). }
  assert (forall p a b v, blk_in k world c p a b v -> exists b', blk_in k world (with_tags c t') p a b' v /\ touched b b') as Hin.
  { intros p a b v (G1 & G2 & G3 & G4 & G5). destruct (H1 p b G1) as (b' & Hb' & Ht). exists b'. split; [|done].
    unfold blk_in. cbn [with_tags tags c_data]. rewrite (Hre b b' Ht).
    split; [done|]. split; [by rewrite Ht|]. split; [by rewrite Ht|]. by split. }
  split; [done|]. split; [|done]. intros a Ha.
  destruct (cline_cases k world c a Hc Ha) as [(p & b & v & _ & Hb & _ & ->)|(_ & -> & Hno)].
  - destruct (Hin p a b v Hb) as (b' & Hb' & Ht). rewrite (blk_in_cline k world _ p a b' v Hc' Ha Hb'). by rewrite Ht.
  - destruct (cline_cases k world _ a Hc' Ha) as [(p & b' & v & _ & (G1 & G2 & G3 & G4 & G5) & _)|(_ & -> & _)]; [exfalso|done].
    cbn [with_tags tags c_data] in *. destruct (H2' p b' G1) as (b & Hb & Ht). apply (Hno p b v).
    rewrite (Hre b b' Ht) in G4. rewrite Ht in G2, G3. by split_and!.
Qed.

Lemma access_touch e c a : cache_ok k world c -> addr_ok a -> 0 < now e ->
  exists o lat t', bt_accessBlock (clockPeriod (params c)) (now e) (tags c) a (world (align k a)) = Ok (o, lat, t') /\
    cache_ok k world (with_tags c t') /\ (forall a', addr_ok a' -> cline k world (with_tags c t') a' = cline k world c a') /\
    upd k world c (with_tags c t') a /\
    match o with
    | Some p => exists b v, blk_in k world (with_tags c t') p a b v /\ Z.of_nat (length v) = 2 ^ k
    | None => cline k world c a = None
    end.
Proof.
  intros Hc Ha Hn.
  assert (exists o, bt_findBlock (tags c) a (world (align k a)) = Ok o) as [o Hf].
  { destruct (bt_find_ok k (tags c) a (world (align k a)) (co_tags _ _ _ Hc) Ha) as (o & ? & _). by exists o. }
  destruct (bt_access_ok k (clockPeriod (params c)) (now e) (tags c) a _ o (co_tags _ _ _ Hc) Ha (co_period _ _ _ Hc) Hn Hf)
    as (lat & t' & -> & Hok & Hsh & H1 & H2). exists o, lat, t'. split; [done|].
  destruct (touch_ok c t' Hc Hok Hsh H1 H2) as (Hc' & Hl & Hin). split; [done|]. split; [done|].
  split; [split; [done|]; split; [done|]; intros; by apply Hl|].
  pose proof (find_blk_in k world c a o Hc Ha Hf) as H. destruct o as [p|]; [|by destruct H].
  destruct H as (b & v & Hb & Hlen). destruct (Hin p a b v Hb) as (b' & Hb' & _). by exists b', v.
Qed.
End Change.
