(* ===== verification/CohFill.v ===== *)
(** Evicting the line of a block and filling a block with another line. *)
From S2P Require Import Prelude CacheBlk ReplPolicy CacheTags TagStore MemPacket Cache CohLine.

(** * Addresses and data of packets *)

Lemma getOffset_eq k p : 2 <= k < 32 -> addr_ok (p_addr p) -> getOffset p (2 ^ k) = p_addr p mod 2 ^ k.
Proof.
  intros Hk Ha. unfold getOffset. pose proof (Z.pow_le_mono_r 2 k 31 ltac:(lia) ltac:(lia)). pose proof (pow2_pos k ltac:(lia)).
  rewrite wrap_u_id by lia. replace (2 ^ k - 1) with (Z.ones k) by (rewrite Z.ones_equiv; lia). apply Z.land_ones. lia.
Qed.

Lemma land_align k a : 2 <= k < 32 -> addr_ok a -> Z.land a (u64 (Z.lnot (2 ^ k - 1))) = align k a.
Proof.
  intros Hk Ha. unfold align. pose proof (pow2_pos k ltac:(lia)).
  replace (2 ^ k - 1) with (Z.ones k) by (rewrite Z.ones_equiv; lia).
  rewrite <- Z.shiftr_div_pow2, <- Z.shiftl_mul_pow2 by lia. apply Z.bits_inj'. intros i Hi.
  unfold wrap_u. rewrite Z.land_spec, Z.shiftl_spec by lia. destruct (Z.ltb_spec i 64).
  - rewrite Z.mod_pow2_bits_low, Z.lnot_spec, testbit_ones by lia. destruct (Z.ltb_spec i k); cbn [negb].
    + rewrite andb_false_r, Z.testbit_neg_r by lia. done.
    + rewrite andb_true_r, Z.shiftr_spec by lia. f_equal. lia.
  - rewrite (testbit_above 64 a), andb_false_l, Z.shiftr_spec by (try apply Ha; lia).
    replace (i - k + k) with i by lia. by rewrite (testbit_above 64 a) by (try apply Ha; lia).
Qed.

Lemma getBlockAddr_eq k p : 2 <= k < 32 -> addr_ok (p_addr p) -> getBlockAddr p (2 ^ k) = align k (p_addr p).
Proof.
  intros Hk Ha. unfold getBlockAddr. pose proof (Z.pow_le_mono_r 2 k 31 ltac:(lia) ltac:(lia)). pose proof (pow2_pos k ltac:(lia)).
  rewrite (wrap_u_id 32) by lia. by apply land_align.
Qed.

Lemma new_blk_addr k r rid req c id : 2 <= k < 32 -> r = r_paddr req -> addr_ok r ->
  p_addr (Packet_new_blk rid req c (2 ^ k) id) = align k r.
Proof.
  intros Hk -> Ha. cbn [p_addr Packet_new_blk]. pose proof (Z.pow_le_mono_r 2 k 31 ltac:(lia) ltac:(lia)).
  pose proof (pow2_pos k ltac:(lia)). rewrite (wrap_s_id 32) by (change (2 ^ (32 - 1)) with (2 ^ 31); lia). by apply land_align.
Qed.

(** The bytes [l] with [v] at offset [o]. *)
Definition put_bytes (l : list Z) (o : Z) (v : list Z) : list Z :=
  take (Z.to_nat o) l ++ v ++ drop (Z.to_nat o + length v) l.
Definition get_bytes (l : list Z) (o n : Z) : list Z := take (Z.to_nat n) (drop (Z.to_nat o) l).

Lemma put_bytes_length l o v : 0 <= o -> o + Z.of_nat (length v) <= Z.of_nat (length l) ->
  length (put_bytes l o v) = length l.
Proof. intros. unfold put_bytes. rewrite !length_app, length_take, length_drop. lia. Qed.

Lemma get_bytes_length l o n : 0 <= o -> 0 <= n -> o + n <= Z.of_nat (length l) ->
  Z.of_nat (length (get_bytes l o n)) = n.
Proof. intros. unfold get_bytes. rewrite length_take, length_drop. lia. Qed.

(** Copying a piece of a block to a packet and back. *)
Lemma setDataFromBlock_Ok p blk k d : 2 <= k < 32 -> addr_ok (p_addr p) -> p_data p = Some d ->
  Z.of_nat (length blk) = 2 ^ k -> 0 <= p_size p -> Z.of_nat (length d) = p_size p ->
  p_addr p mod 2 ^ k + p_size p <= 2 ^ k ->
  setDataFromBlock p blk (2 ^ k) = Ok (with_data (Some (get_bytes blk (p_addr p mod 2 ^ k) (p_size p))) p).
Proof.
  intros Hk Ha Hd Hl Hs Hld Hfit. unfold setDataFromBlock, getPtr. rewrite Hd. cbn [mbind res_bind].
  rewrite (getOffset_eq k) by done. pose proof (Z.mod_pos_bound (p_addr p) (2 ^ k) (pow2_pos k ltac:(lia))).
  rewrite bytes_at_Ok by lia. cbn [mbind res_bind]. rewrite bytes_set_all; [done|].
  apply Nat2Z.inj. rewrite Hld. by apply get_bytes_length; lia.
Qed.

Lemma writeData_Ok p d : p_data p = Some d -> Z.of_nat (length d) = p_size p -> writeData p = Ok d.
Proof. intros Hd Hl. unfold writeData, getPtr. rewrite Hd. cbn [mbind res_bind]. by apply bytes_at_all. Qed.

Lemma writeDataToBlock_Ok p blk k d : 2 <= k < 32 -> addr_ok (p_addr p) -> p_data p = Some d ->
  Z.of_nat (length d) = p_size p -> Z.of_nat (length blk) = 2 ^ k -> p_addr p mod 2 ^ k + p_size p <= 2 ^ k ->
  writeDataToBlock p blk (2 ^ k) = Ok (put_bytes blk (p_addr p mod 2 ^ k) d).
Proof.
  intros Hk Ha Hd Hld Hl Hfit. unfold writeDataToBlock. rewrite (writeData_Ok p d) by done. cbn [mbind res_bind].
  rewrite (getOffset_eq k) by done. pose proof (Z.mod_pos_bound (p_addr p) (2 ^ k) (pow2_pos k ltac:(lia))).
  apply bytes_set_Ok; lia.
Qed.

Lemma get_bytes_all l n : n = Z.of_nat (length l) -> get_bytes l 0 n = l.
Proof. intros ->. unfold get_bytes. by rewrite Nat2Z.id, drop_0, take_ge by lia. Qed.
Lemma put_bytes_all l v : length v = length l -> put_bytes l 0 v = v.
Proof. intros E. unfold put_bytes. rewrite drop_ge by lia. cbn. apply app_nil_r. Qed.

(** * What surrounds a cache *)

Record env_ok (e : Env) : Prop := {
  eo_now : 0 < now e;
  eo_random : random_ok (random e);
  eo_fresh : forall n, 0 <= n -> Z.of_nat (length (fresh e n)) = n }.

(** * Evicting *)

(** The requests of caches carry no flag but the security state. *)
Definition plain_req (r : Request) : Prop := r_flags r = 0 \/ r_flags r = SECURE.

Section Evict.
Context {T D : Type} `{!BaseTags T D, !BaseTagsLaws T D} (k : Z) (world : Z -> bool).
Implicit Types (c : Cache T D) (b : CacheBlk D).

(** The packet with which a cache gives up the line [L] of address [a]. *)
Record wb_packet (w : Packet) (clean : bool) (a : Z) (L : Line) : Prop := {
  wp_addr : p_addr w = a;
  wp_size : p_size w = 2 ^ k;
  wp_secure : p_isSecure w = world a;
  wp_cmd : p_cmd w = if l_d L then WritebackDirty else if clean then WritebackClean else CleanEvict;
  wp_flags : p_flags w = 0 \/ p_flags w = HAS_SHARERS;
  wp_data : l_d L = true -> p_data w = Some (l_v L);
  wp_req : plain_req (p_req w);
  wp_paddr : r_paddr (p_req w) = a }.

Lemma wb_request_flags addr size b : plain_req (wb_request addr size b) /\
  req_isSecure (wb_request addr size b) = CacheBlk.isSecure b /\ r_paddr (wb_request addr size b) = addr /\
  r_size (wb_request addr size b) = size.
Proof. unfold wb_request. destruct (CacheBlk.isSecure b); (split; [|by split_and!]); [by right|by left]. Qed.

Lemma hand_over_ok c p a b v pkt : cache_ok k world c -> blk_in k world c p a b v ->
  exists c' b', hand_over c (TagBlk p) pkt = Ok (if isWritable b then pkt else setHasSharers pkt, c') /\
    cache_ok k world c' /\ blk_in k world c' p a b' v /\ upd k world c c' a /\
    isWritable b' = false /\ isDirty b' = false.
Proof.
  intros Hc Hb. pose proof Hb as (H1 & H2 & _). unfold hand_over. cbn [get_blk]. rewrite H1. cbn [mbind res_bind].
  assert (exists c1 b1, (if isWritable b then c ← status_clear c (TagBlk p) BlkWritable; Ok (pkt, c)
      else Ok (setHasSharers pkt, c)) = Ok (if isWritable b then pkt else setHasSharers pkt, c1) /\
    cache_ok k world c1 /\ blk_in k world c1 p a b1 v /\ upd k world c c1 a /\ isWritable b1 = false) as (c1 & b1 & -> & Hc1 & Hb1 & Hu1 & Hw1).
  { destruct (isWritable b) eqn:Hw; [|exists c, b; split_and!; try done; apply upd_refl].
    destruct (status_clear_ok k world c p a b v BlkWritable Hc Hb) as (c1 & -> & Hc1 & Hb1 & Hu1); [done..|].
    exists c1. eexists. split; [reflexivity|]. split; [done|]. split; [exact Hb1|]. split; [done|].
    rewrite isWritable_bit. cbn [with_status status]. by rewrite !Z.land_spec, (andb_comm _ (Z.testbit _ 1)), andb_false_l. }
  cbn [mbind res_bind]. destruct (status_clear_ok k world c1 p a b1 v BlkDirty Hc1 Hb1) as (c2 & -> & Hc2 & Hb2 & Hu2); [done..|].
  cbn [mbind res_bind]. exists c2. eexists. split; [reflexivity|]. split; [done|]. split; [exact Hb2|].
  split; [by eapply upd_trans|]. revert Hw1. rewrite !isWritable_bit, isDirty_bit. cbn [with_status status]. rewrite !Z.land_spec.
  change (Z.testbit (u32 (Z.lnot BlkDirty)) 0) with true. change (Z.testbit (u32 (Z.lnot BlkDirty)) 1) with true.
  rewrite !andb_true_r. split; [done|apply andb_false_r].
Qed.

(** The end of the two functions that make a packet of a block's data. *)
Lemma packet_of_block e c p a b v pkt : env_ok e -> cache_ok k world c -> addr_ok a -> align k a = a ->
  blk_in k world c p a b v -> Z.of_nat (length v) = 2 ^ k ->
  p_addr pkt = a -> p_size pkt = 2 ^ k -> p_data pkt = None -> hasData pkt || hasRespData pkt = true ->
  exists pkt', (pkt ← allocate (fresh e) pkt; d ← get_data c (TagBlk p); setDataFromBlock pkt d (c_blkSize c)) = Ok pkt' /\
    pkt' = with_data (Some v) pkt.
Proof.
  intros He Hc Ha Hal (_ & _ & _ & _ & Hv) Hl Hpa Hps Hpd Hd. pose proof (bt_k _ _ (co_tags _ _ _ Hc)) as Hk.
  pose proof (pow2_pos k ltac:(lia)) as H2. unfold allocate. rewrite Hd, Hpd. cbn [mbind res_bind get_data]. rewrite Hv. cbn [mbind res_bind].
  rewrite (co_blkSize _ _ _ Hc).
  assert (a mod 2 ^ k = 0) as Hmod by (rewrite <- Hal; unfold align; by apply Z.mod_mul; lia).
  rewrite (setDataFromBlock_Ok _ v k (fresh e (p_size pkt))); cbn [with_data p_addr p_size p_data]; try done; try lia.
  - rewrite Hpa, Hmod, Hps, get_bytes_all by done. eexists. split; [done|]. done.
  - by rewrite Hpa.
  - rewrite eo_fresh by (done || lia). done.
  - rewrite Hpa, Hmod. lia.
Qed.

Lemma c_evictBlock_ok e c p a b v : env_ok e -> cache_ok k world c -> addr_ok a -> align k a = a ->
  blk_in k world c p a b v -> Z.of_nat (length v) = 2 ^ k ->
  exists w c', c_evictBlock e c (TagBlk p) = Ok (w, c') /\ cache_ok k world c' /\ cline k world c' a = None /\
    upd k world c c' a /\ (exists b', bt_blk (tags c') p = Ok b' /\ isValid b' = false) /\
    wb_packet w (cp_writebackClean (params c)) a (line_state b v).
Proof.
  intros He Hc Ha Hal Hb Hl. pose proof Hb as (H1 & H2 & H3 & H4 & H5).
  destruct (co_blk _ _ _ Hc p b H1 H2) as (_ & Hro & _). unfold c_evictBlock. cbn [get_blk]. rewrite H1. cbn [mbind res_bind].
  destruct (wb_request_flags a (c_blkSize c) b) as (Hreq & Hsec & Hpa & Hps).
  assert (exists w c1 b1, (if isDirty b || cp_writebackClean (params c) then c_writebackBlk e c (TagBlk p)
      else pkt ← c_cleanEvictBlk e c (TagBlk p); Ok (pkt, c)) = Ok (w, c1) /\ cache_ok k world c1 /\
    blk_in k world c1 p a b1 v /\ upd k world c c1 a /\
    wb_packet w (cp_writebackClean (params c)) a (line_state b v)) as (w & c1 & b1 & -> & Hc1 & Hb1 & Hu1 & Hw).
  { destruct (isDirty b || cp_writebackClean (params c)) eqn:Edw.
    - unfold c_writebackBlk. cbn [get_blk c_regenerateBlkAddr]. rewrite H1. cbn [mbind res_bind]. rewrite H2, Edw, H4, Hal. cbn [andb].
      assert (negb (isReadOnly (params c)) || cp_writebackClean (params c) = true) as ->.
      { destruct (isReadOnly (params c)); [|done]. by rewrite (Hro eq_refl) in Edw. }
      set (pkt := Packet_new _ _ _). destruct (hand_over_ok c p a b v pkt Hc Hb) as (c1 & b1 & -> & Hc1 & Hb1 & Hu1 & _). cbn [mbind res_bind].
      set (pkt' := if isWritable b then pkt else setHasSharers pkt).
      assert (p_addr pkt' = a /\ p_size pkt' = 2 ^ k /\ p_data pkt' = None /\ p_cmd pkt' = p_cmd pkt /\
        p_isSecure pkt' = world a /\ p_req pkt' = p_req pkt /\ (p_flags pkt' = 0 \/ p_flags pkt' = HAS_SHARERS))
        as (Ea & Es & Ed & Ec & Esec & Er & Ef).
      { rewrite Hal in H3. unfold pkt', pkt.
        destruct (isWritable b); cbn [Packet_new setHasSharers add_flags with_flags p_addr p_size p_data p_cmd p_isSecure p_req p_flags]; rewrite Hpa, Hps, Hsec, (co_blkSize _ _ _ Hc); (split_and!; try done); [by left|by right]. }
      destruct (packet_of_block e c1 p a b1 v pkt' He Hc1 Ha Hal Hb1 Hl Ea Es Ed) as (w & Hw & ->).
      { unfold hasData. rewrite Ec. cbn. by destruct (isDirty b). }
      destruct (allocate (fresh e) pkt') as [pkt1| | |]; cbn [mbind res_bind] in *; try done.
      destruct (get_data c1 (TagBlk p)) as [d| | |]; cbn [mbind res_bind] in *; try done. rewrite Hw. cbn [mbind res_bind].
      eexists _, c1, b1. split; [reflexivity|]. split; [done|]. split; [done|]. split; [done|].
      split; cbn [with_data p_addr p_size p_isSecure p_cmd p_flags p_data p_req line_state l_d l_v]; try done.
      + rewrite Ec. cbn. destruct (isDirty b); [done|]. cbn in Edw. by rewrite Edw.
      + by rewrite Er.
      + by rewrite Er.
    - apply orb_false_iff in Edw as [Ed Ewc]. unfold c_cleanEvictBlk. cbn [get_blk c_regenerateBlkAddr]. rewrite H1. cbn [mbind res_bind].
      rewrite Ewc, H2, Ed, H4, Hal. cbn [negb andb]. unfold allocate. cbn [mbind res_bind hasData hasRespData Packet_new p_cmd].
      change (cmd_hasData CleanEvict || cmd_hasData (responseCommand CleanEvict)) with false. cbn [mbind res_bind].
      eexists _, c, b. split; [reflexivity|]. split; [done|]. split; [done|]. split; [apply upd_refl|].
      rewrite Hal in H3. split; cbn [Packet_new p_addr p_size p_isSecure p_cmd p_flags p_data p_req line_state l_d l_v];
        rewrite ?Ewc, ?Ed, ?Hpa, ?Hps, ?Hsec, ?(co_blkSize _ _ _ Hc); try done; [by left|apply (wb_request_flags a (2 ^ k) b)]. }
  cbn [mbind res_bind]. destruct (c_invalidateBlock_ok k world c1 p a b1 v Hc1 Ha Hb1) as (c2 & -> & Hc2 & Hn & Hu2 & Hinv).
  cbn [mbind res_bind]. exists w, c2. split_and!; try done. by eapply upd_trans.
Qed.
End Evict.

(** * Allocating *)

Section Allocate.
Context {T D : Type} `{!BaseTags T D, !BaseTagsLaws T D} (k : Z) (world : Z -> bool).
Implicit Types (c : Cache T D) (b : CacheBlk D).

(** What an allocation for address [a] leaves of the other lines: all of them,
    or all but one, which is in the writebacks. *)
Definition evicted c c' (a : Z) (ws : list Packet) : Prop :=
  params c' = params c /\
  ((ws = [] /\ forall a', addr_ok a' -> align k a' <> align k a -> cline k world c' a' = cline k world c a') \/
   exists w va L, ws = [w] /\ addr_ok va /\ align k va = va /\ va <> align k a /\ cline k world c va = Some L /\
     cline k world c' va = None /\ wb_packet k world w (cp_writebackClean (params c)) va L /\
     forall a', addr_ok a' -> align k a' <> align k a -> align k a' <> va -> cline k world c' a' = cline k world c a').

Lemma evicted_upd c c1 c2 a ws : evicted c c1 a ws -> upd k world c1 c2 a -> evicted c c2 a ws.
Proof.
  intros [Hp H] (Hp2 & _ & H2). split; [congruence|]. destruct H as [[-> H]|(w & va & L & -> & H)]; [left|right].
  - split; [done|]. intros a' Ha Hne. rewrite H2 by done. by apply H.
  - destruct H as (G1 & G2 & G3 & G4 & G5 & G6 & G7). exists w, va, L. split_and!; try done.
    + rewrite H2; [done|done|congruence].
    + intros a' Ha Hne Hne2. rewrite H2 by done. by apply G7.
Qed.

(** The victim's block, empty before the new line is inserted. *)
Lemma evict_victim e c a p b : env_ok e -> cache_ok k world c -> addr_ok a -> bt_blk (tags c) p = Ok b ->
  cline k world c a = None ->
  exists ws c', evict_all e c [p] = Ok (ws, c') /\ cache_ok k world c' /\ cline k world c' a = None /\
    evicted c c' a ws /\ bt_shape (tags c) (tags c') /\
    (exists b', bt_blk (tags c') p = Ok b' /\ isValid b' = false).
Proof.
  intros He Hc Ha Hb Hmiss. pose proof (bt_k _ _ (co_tags _ _ _ Hc)) as Hk. cbn [evict_all]. rewrite Hb. cbn [mbind res_bind].
  destruct (isValid b) eqn:Hv.
  - destruct (bt_regen_ok k (tags c) p b (co_tags _ _ _ Hc) Hb Hv) as [Hra Hral].
    destruct (co_data _ _ _ Hc p b Hb) as (v & Hd & Hl). destruct (co_blk _ _ _ Hc p b Hb Hv) as (_ & _ & Hsec).
    set (va := bt_regenerateBlkAddr (tags c) b) in *.
    assert (blk_in k world c p va b v) as Hin by (unfold blk_in; rewrite Hral; by split_and!).
    destruct (c_evictBlock_ok k world e c p va b v He Hc Hra Hral Hin Hl) as (w & c1 & -> & Hc1 & Hn & Hu & Hinv & Hw).
    cbn [mbind res_bind]. exists [w], c1. pose proof (blk_in_cline k world c p va b v Hc Hra Hin) as Hcl.
    assert (va <> align k a) as Hne by (intros E; rewrite E, (cline_align k world c a Hc Ha) in Hcl; congruence).
    pose proof Hu as (Hpar & Hsh & Hoth). split_and!; try done.
    + rewrite Hoth; [done|done|congruence].
    + split; [done|]. right. exists w, va, (line_state b v). split_and!; try done. intros a' Ha' Hne1 Hne2. apply Hoth; [done|congruence].
  - cbn [mbind res_bind]. exists [], c. split_and!; try done; [|by exists b]. split; [done|]. by left.
Qed.

Lemma allocate_fill_ok e c pkt a : env_ok e -> cache_ok k world c -> addr_ok a -> p_addr pkt = a ->
  p_isSecure pkt = world (align k a) -> r_masterId (p_req pkt) < maxMasters (params c) ->
  cline k world c a = None ->
  exists p ws c1 c2 b1 b2 v, c_allocateBlock e c pkt = Ok (Some (TagBlk p), ws, c1) /\
    get_blk c1 (TagBlk p) = Ok b1 /\ isValid b1 = false /\
    status_or c1 (TagBlk p) (Z.lor BlkValid BlkReadable) = Ok c2 /\ cache_ok k world c2 /\
    blk_in k world c2 p a b2 v /\ Z.of_nat (length v) = 2 ^ k /\ isWritable b2 = false /\ isDirty b2 = false /\
    evicted c c2 a ws.
Proof.
  intros He Hc Ha <- Hsec Hmm Hmiss. unfold c_allocateBlock.
  destruct (bt_victim_ok k (now e) (random e) (tags c) (p_addr pkt) (p_isSecure pkt) (co_tags _ _ _ Hc) Ha (eo_now _ He) (eo_random _ He))
    as (p & b & t' & -> & Hok & Hsh & Hb & Hpl & H1 & H2). cbn [mbind res_bind].
  destruct (touch_ok k world c t' Hc Hok Hsh H1 H2) as (Hc0 & Hl0 & _).
  assert (cline k world (with_tags c t') (p_addr pkt) = None) as Hmiss0 by (by rewrite Hl0).
  destruct (evict_victim e (with_tags c t') (p_addr pkt) p b He Hc0 Ha Hb Hmiss0)
    as (ws & c1 & -> & Hc1 & Hn1 & Hev & Hsh1 & (b' & Hb' & Hv')). cbn [mbind res_bind].
  assert (bt_place (tags c1) (p_addr pkt) p) as Hpl1 by (destruct Hsh1 as (_ & -> & _); done).
  assert (forall q, ~ holds_at k (tags c1) (p_addr pkt) (p_isSecure pkt) q) as Hno.
  { intros q Hq. destruct (bt_find_ok k (tags c1) (p_addr pkt) (p_isSecure pkt) (co_tags _ _ _ Hc1) Ha) as (o & Hf & Ho).
    apply Ho in Hq. subst o. rewrite Hsec in Hf. pose proof (find_blk_in k world c1 _ _ Hc1 Ha Hf) as (b0 & v0 & Hin & _).
    rewrite (blk_in_cline k world c1 q _ b0 v0 Hc1 Ha Hin) in Hn1. done. }
  assert (params c1 = params c) as Hpar by (destruct Hev as [-> _]; done).
  destruct (bt_insert_ok k (now e) (random e) (maxMasters (params c1)) (tags c1) (tag_packet pkt) p b'
    (co_tags _ _ _ Hc1) Hb' Hv' Hpl1 Ha (eo_now _ He) ltac:(by rewrite Hpar) Hno)
    as (t1 & b1 & -> & Hsh2 & Hst1 & Hre1 & Hlk1 & Hfill). cbn [mbind res_bind].
  cbn [tag_packet pkt_secure pkt_addr] in Hst1, Hre1.
  exists p, ws, (with_tags c1 t1). set (m := Z.lor BlkValid BlkReadable).
  assert (bt_blk t1 p = Ok b1) as Hb1 by (by rewrite Hlk1, decide_True).
  destruct (bt_store_ok t1 p b1 (with_status b1 (Z.lor (status b1) m)) Hb1) as (t2 & Hst2 & Hsh3 & Hlk2 & _).
  set (b2 := with_status b1 (Z.lor (status b1) m)) in *.
  assert (CacheBlk.isSecure b2 = p_isSecure pkt /\ isValid b2 = true /\ isReadable b2 = true /\ isWritable b2 = false /\ isDirty b2 = false)
    as (Es & Ev & Er & Ew & Ed).
  { unfold b2. rewrite isSecure_bit, isValid_bit, isReadable_bit, isWritable_bit, isDirty_bit. cbn [with_status status].
    rewrite Hst1. by destruct (p_isSecure pkt). }
  assert (keeps b1 b2) as Hkeep.
  { unfold keeps, b2. cbn [with_status]. split_and!; try done. rewrite !isSecure_bit. cbn [with_status status]. rewrite Z.lor_spec. apply orb_false_r. }
  assert (forall q, bt_blk t2 q = if decide (q = p) then Ok b2 else bt_blk (tags c1) q) as Hlk.
  { intros q. rewrite Hlk2. case_decide; [done|]. rewrite Hlk1. by rewrite decide_False. }
  assert (bt_regenerateBlkAddr t2 = bt_regenerateBlkAddr (tags c1)) as Hre by (destruct Hsh2 as [E1 _], Hsh3 as [E2 _]; congruence).
  assert (bt_regenerateBlkAddr t2 b2 = align k (p_addr pkt)) as Hre2.
  { destruct Hsh3 as [-> _]. rewrite <- Hre1. by apply bt_regen_ext. }
  exists (with_tags (with_tags c1 t1) t2), b1, b2. destruct (co_data _ _ _ Hc1 p b' Hb') as (v & Hv & Hlen). exists v.
  assert (cache_ok k world (with_tags (with_tags c1 t1) t2)) as Hc2.
  { split; try apply Hc1; cbn [with_tags tags params c_data]; [by apply (Hfill b2)| |].
    - intros q b0. rewrite Hlk. case_decide; [subst; intros _; by exists v|]. by apply Hc1.
    - intros q b0. rewrite Hlk. case_decide; [|rewrite Hre; by apply Hc1]. intros [= <-] _. split; [done|].
      split; [by rewrite Ed|]. by rewrite Hre2, Es. }
  assert (upd k world c1 (with_tags (with_tags c1 t1) t2) (p_addr pkt)) as Hupd.
  { apply upd_intro; [done..| | |].
    - destruct Hsh2 as (E1 & E2 & E3), Hsh3 as (E4 & E5 & E6). cbn. split_and!; congruence.
    - intros q a' b0 v0 Ha' Hne (G1 & G2 & G3 & G4 & G5). exists b0, v0. split; [|done]. unfold blk_in. cbn [with_tags tags c_data].
      rewrite Hlk, Hre. rewrite decide_False; [by split_and!|]. intros ->. congruence.
    - intros q a' b0 v0 Ha' Hne (G1 & G2 & G3 & G4 & G5). cbn [with_tags tags c_data] in *. rewrite Hlk in G1.
      case_decide; [injection G1 as <-; congruence|]. rewrite Hre in G4. by exists b0, v0. }
  split; [done|]. cbn [get_blk with_tags tags]. split; [done|]. split; [rewrite isValid_bit, Hst1; by destruct (p_isSecure pkt)|].
  split. { unfold status_or. cbn [get_blk with_tags tags put_blk]. rewrite Hb1. cbn [mbind res_bind]. fold b2. by rewrite Hst2. }
  split; [done|]. split.
  { unfold blk_in. cbn [with_tags tags c_data]. rewrite Hlk, decide_True, Es, Hre2 by done. by split_and!. }
  split; [done|]. split; [done|]. split; [done|]. eapply evicted_upd; [|exact Hupd].
  destruct Hev as [_ Hev]. split; [done|]. destruct Hev as [[-> H]|(w & va & L & G0 & G1 & G2 & G3 & G4 & G5 & G6 & G7)]; [left|right].
  - split; [done|]. intros a' Ha' Hne. rewrite H by done. by apply Hl0.
  - exists w, va, L. rewrite Hl0 in G4 by done. split_and!; try done. intros a' Ha' Hne Hne2. rewrite G7 by done. by apply Hl0.
Qed.
End Allocate.
