(* ===== verification/CohHit.v ===== *)
(** How a cache serves a request of its processor: from a block it has, and
    after a miss from the block it fills. *)
From S2P Require Import Prelude CacheBlk ReplPolicy CacheTags TagStore MemPacket Cache CohLine CohFill.

(** * Requests of processors *)

(** Whether a swap writes, when the bytes are [old]. *)
Definition swap_writes (pkt : Packet) (old : list Z) : bool :=
  if req_isCondSwap (p_req pkt) then
    match r_extraData (p_req pkt) with
    | Some v => if p_size pkt =? 8 then bool_decide (le_bytes 8 v = old) else bool_decide (le_bytes 4 (u32 v) = old)
    | None => false
    end
  else true.

(** What the request writes to its bytes, which were [old]; [d]: the data it
    came with; [ok]: whether a store-conditional succeeds. *)
Definition new_bytes (pkt : Packet) (ok : bool) (old d : list Z) : option (list Z) :=
  match p_cmd pkt with
  | WriteReq | WriteLineReq => Some d
  | StoreCondReq => if ok then Some d else None
  | SwapReq =>
    if isAtomicOp pkt then match r_atomicOp (p_req pkt) with Some f => Some (f old) | None => None end
    else if swap_writes pkt old then Some d else None
  | _ => None
  end.

(** The commands of cacheable accesses; the last is the promoted write of a
    whole line. *)
Definition access_cmds : list MemCmd :=
  [ReadReq; LoadLockedReq; SoftPFReq; WriteReq; StoreCondReq; SwapReq; WriteLineReq].

(** A request of a processor to bytes of one line, with the buffer [d]. *)
Record cpu_packet (k : Z) (world : Z -> bool) (pkt : Packet) (d : list Z) : Prop := {
  cq_cmd : p_cmd pkt ∈ access_cmds;
  cq_addr : addr_ok (p_addr pkt);
  cq_paddr : r_paddr (p_req pkt) = p_addr pkt;
  cq_size : 0 < p_size pkt /\ p_addr pkt mod 2 ^ k + p_size pkt <= 2 ^ k;
  cq_secure : p_isSecure pkt = world (align k (p_addr pkt)) /\ req_isSecure (p_req pkt) = p_isSecure pkt;
  cq_flags : p_flags pkt = 0;
  cq_data : p_data pkt = Some d /\ Z.of_nat (length d) = p_size pkt;
  cq_context : exists ctx, r_contextId (p_req pkt) = Some ctx;
  cq_req : req_isUncacheable (p_req pkt) = false /\ req_isCacheMaintenance (p_req pkt) = false;
  cq_line : p_cmd pkt = WriteLineReq -> p_addr pkt = align k (p_addr pkt) /\ p_size pkt = 2 ^ k;
  cq_swap : p_cmd pkt = SwapReq ->
    if isAtomicOp pkt then exists f, r_atomicOp (p_req pkt) = Some f /\ forall l, length (f l) = length l
    else p_size pkt <= 8 /\
      (req_isCondSwap (p_req pkt) = true ->
       (p_size pkt = 8 \/ p_size pkt = 4) /\ exists v, r_extraData (p_req pkt) = Some v) }.

(** Evaluate the attributes of a known command. *)
Ltac cmd_eval := repeat match goal with
  | |- context [testCmdAttrib ?c ?a] => let v := eval vm_compute in (testCmdAttrib c a) in
      match v with true => change (testCmdAttrib c a) with true | false => change (testCmdAttrib c a) with false end
  | |- context [cmd_eq ?c ?d] => let v := eval vm_compute in (cmd_eq c d) in
      match v with true => change (cmd_eq c d) with true | false => change (cmd_eq c d) with false end
  end.
Ltac cmd_unfold := unfold mustCheckAbove, isCleanEviction, isRead, isWrite, isUpgrade, isRequest, isResponse, needsResponse, isInvalidate, isEviction,
  isClean, fromCache, isWriteback, hasData, hasRespData, isLLSC, isError, needsWritable,
  cmd_isRead, cmd_isWrite, cmd_isUpgrade, cmd_isRequest, cmd_isResponse, cmd_needsWritable, cmd_needsResponse,
  cmd_isInvalidate, cmd_isEviction, cmd_isClean, cmd_fromCache, cmd_isWriteback, cmd_hasData, cmd_isLLSC, cmd_isError,
  cmd_isPrefetch.
(** With [H : p_cmd pkt = c], evaluate the predicates of the packet [pkt]. *)
Ltac on_cmd H := cmd_unfold; rewrite ?H; cmd_eval; cbn [andb orb negb mbind res_bind].

(** What serving the request [pkt] from a line [v] returns and leaves. *)
Record served (k : Z) (pkt : Packet) (d : list Z) (ok : bool) (v : list Z) (pkt' : Packet) (v' : list Z) : Prop := {
  sv_cmd : p_cmd pkt' = p_cmd pkt;
  sv_flags : p_flags pkt' = p_flags pkt;
  sv_data : p_data pkt' = Some (if isRead pkt then get_bytes v (p_addr pkt mod 2 ^ k) (p_size pkt) else d);
  sv_extra : p_cmd pkt = StoreCondReq -> r_extraData (p_req pkt') = Some (if ok then 1 else 0);
  sv_req : p_cmd pkt <> StoreCondReq -> p_req pkt' = p_req pkt;
  sv_line : v' = match new_bytes pkt ok (get_bytes v (p_addr pkt mod 2 ^ k) (p_size pkt)) d with
                 | Some n => put_bytes v (p_addr pkt mod 2 ^ k) n
                 | None => v
                 end }.

(** How the block's state changes: a line that is not dirty afterwards has not
    changed. *)
Definition written {D} (pkt : Packet) (b b' : CacheBlk D) (v v' : list Z) : Prop :=
  isWritable b' = isWritable b /\ (isDirty b = true -> isDirty b' = true) /\
  (isDirty b' = true -> isDirty b = true \/ isWritable b = true) /\ (isDirty b' = false -> v' = v) /\
  (p_cmd pkt = WriteLineReq -> isDirty b' = true).

Section Hit.
Context {T D : Type} `{!BaseTags T D, !BaseTagsLaws T D} (k : Z) (world : Z -> bool).
Implicit Types (c : Cache T D) (b : CacheBlk D) (pkt : Packet).

(** Common premises: block [p] of cache [c] holds the line of the request. *)
Section Satisfy.
Context (c : Cache T D) (pkt : Packet) (d : list Z) (p : Z) (b : CacheBlk D) (v : list Z).
Hypotheses (Hc : cache_ok k world c) (Hq : cpu_packet k world pkt d) (Hb : blk_in k world c p (p_addr pkt) b v)
  (Hl : Z.of_nat (length v) = 2 ^ k).

Lemma hit_k : 2 <= k < 32.
Proof. apply (bt_k _ _ (co_tags _ _ _ Hc)). Qed.

Lemma hit_offset : 0 <= p_addr pkt mod 2 ^ k < 2 ^ k.
Proof. apply Z.mod_pos_bound, pow2_pos. pose proof hit_k. lia. Qed.

Lemma hit_data : setDataFromBlock pkt v (c_blkSize c) =
  Ok (with_data (Some (get_bytes v (p_addr pkt mod 2 ^ k) (p_size pkt))) pkt).
Proof.
  rewrite (co_blkSize _ _ _ Hc). destruct (cq_data _ _ _ _ Hq), (cq_size _ _ _ _ Hq).
  apply (setDataFromBlock_Ok pkt v k d); try done; [apply hit_k|apply Hq|lia].
Qed.

Lemma hit_write : writeDataToBlock pkt v (c_blkSize c) = Ok (put_bytes v (p_addr pkt mod 2 ^ k) d).
Proof.
  rewrite (co_blkSize _ _ _ Hc). destruct (cq_data _ _ _ _ Hq), (cq_size _ _ _ _ Hq).
  apply writeDataToBlock_Ok; try done; [apply hit_k|apply Hq].
Qed.

Lemma hit_put_length n : Z.of_nat (length n) = p_size pkt ->
  Z.of_nat (length (put_bytes v (p_addr pkt mod 2 ^ k) n)) = 2 ^ k.
Proof.
  intros Hn. destruct (cq_size _ _ _ _ Hq). pose proof hit_offset. rewrite put_bytes_length; lia.
Qed.

(** The assertions at the head of [satisfyRequest]. *)
Lemma hit_fits : (u64 (getOffset pkt (c_blkSize c) + p_size pkt) <=? c_blkSize c) = true.
Proof.
  pose proof hit_k. pose proof hit_offset. destruct (cq_size _ _ _ _ Hq). rewrite (co_blkSize _ _ _ Hc), (getOffset_eq k) by (done || apply Hq).
  pose proof (Z.pow_le_mono_r 2 k 31 ltac:(lia) ltac:(lia)). rewrite wrap_u_id by lia. lia.
Qed.

Lemma satisfy_read : p_cmd pkt ∈ [ReadReq; LoadLockedReq; SoftPFReq] ->
  exists pkt' c' b' v', satisfyRequest pkt (TagBlk p) c = Ok (pkt', c') /\ cache_ok k world c' /\
    blk_in k world c' p (p_addr pkt) b' v' /\ upd k world c c' (p_addr pkt) /\
    served k pkt d true v pkt' v' /\ written pkt b b' v v'.
Proof.
  intros Hcmd. pose proof Hb as (H1 & H2 & _ & _ & H5). unfold satisfyRequest, BaseCache_satisfyRequest. cbn [get_blk get_data]. rewrite H1.
  assert (exists c1 b1, (if isLLSC pkt then b ← blk_trackLoadLocked pkt b; put_blk c (TagBlk p) b else Ok c) = Ok c1 /\
    cache_ok k world c1 /\ blk_in k world c1 p (p_addr pkt) b1 v /\ upd k world c c1 (p_addr pkt) /\
    isWritable b1 = isWritable b /\ isDirty b1 = isDirty b) as (c1 & b1 & Hll & Hc1 & Hb1 & Hu1 & Ew & Ed).
  { destruct (isLLSC pkt) eqn:Hls; [|exists c, b; split_and!; try done; apply upd_refl].
    destruct (cq_context _ _ _ _ Hq) as [ctx Hctx]. unfold blk_trackLoadLocked, req_getContextId. rewrite Hctx, Hls. cbn [mbind res_bind].
    unfold trackLoadLocked. cbn [mbind res_bind].
    destruct (co_blk _ _ _ Hc p b H1 H2) as (Hr & Hro & _).
    match goal with |- context [put_blk c _ ?x] =>
      destruct (put_blk_ok k world c p (p_addr pkt) b x v Hc Hb) as (c1 & -> & Hc1 & Hb1 & Hu1); [done..|] end.
    exists c1. eexists. split; [reflexivity|]. by split_and!. }
  pose proof hit_fits as Hf. pose proof hit_data as Hd.
  exists (with_data (Some (get_bytes v (p_addr pkt mod 2 ^ k) (p_size pkt))) pkt), c1, b1, v.
  assert (isRead pkt = true /\ fromCache pkt = false /\ p_cmd pkt <> StoreCondReq /\ new_bytes pkt true (get_bytes v (p_addr pkt mod 2 ^ k) (p_size pkt)) d = None)
    as (Hrd & Hfc & Hsc & Hnb).
  { unfold new_bytes, isRead, fromCache. rewrite !elem_of_cons, elem_of_nil in Hcmd.
    destruct Hcmd as [E|[E|[E|[]]]]; rewrite E; by split_and!. }
  split; [|split; [done|split; [done|split; [done|split]]]].
  - assert (isRequest pkt = true /\ cmd_eq (p_cmd pkt) SwapReq = false /\ isWrite pkt = false /\ hasRespData pkt = true)
      as (-> & -> & -> & ->).
    { unfold isRequest, isWrite, hasRespData. rewrite !elem_of_cons, elem_of_nil in Hcmd.
      destruct Hcmd as [E|[E|[E|[]]]]; rewrite E; by split_and!. }
    cbn [mbind res_bind]. rewrite H2, Hf, H5. cbn [mbind res_bind]. rewrite Hrd, Hll. cbn [mbind res_bind].
    rewrite (co_blkSize _ _ _ Hc) in Hd. rewrite (co_blkSize _ _ _ Hc1), Hd. cbn [mbind res_bind].
    unfold isRead, fromCache in *. cbn [with_data p_cmd]. by rewrite Hrd, Hfc.
  - split; cbn [with_data p_cmd p_flags p_data p_req]; try done; by rewrite ?Hrd, ?Hnb.
  - unfold written. rewrite Ew, Ed. split_and!; auto. intros E. unfold isRead in Hrd. by rewrite E in Hrd.
Qed.

Lemma checkWrite_ok b0 : p_cmd pkt ∈ [WriteReq; StoreCondReq; WriteLineReq] ->
  exists ok pkt' ls, blk_checkWrite pkt b0 = Ok (ok, pkt', with_locks b0 ls) /\
    (p_cmd pkt <> StoreCondReq -> ok = true /\ pkt' = pkt) /\
    (p_cmd pkt = StoreCondReq -> pkt' = with_req (req_setExtraData (if ok then 1 else 0) (p_req pkt)) pkt).
Proof.
  intros Hcmd. destruct (cq_context _ _ _ _ Hq) as [ctx Hctx]. unfold blk_checkWrite, lock_context. rewrite Hctx. cbn [mbind res_bind].
  assert (with_locks b0 (lockList b0) = b0) as Eid by (by destruct b0).
  rewrite !elem_of_cons, elem_of_nil in Hcmd. destruct Hcmd as [E|[E|[E|[]]]]; unfold checkWrite; on_cmd E.
  1,3: destruct (lockList b0) as [|l ls] eqn:El; cbn [mbind res_bind];
    [exists true, pkt, []; rewrite Eid; by split_and!|eexists true, pkt, _; split; [reflexivity|]; by split_and!].
  destruct (take_lock (lock_request (p_req pkt) ctx) (lockList b0)) as [success ls]. cbn [mbind res_bind].
  eexists success, _, _. split; [reflexivity|]. by split.
Qed.

Lemma satisfy_write : p_cmd pkt ∈ [WriteReq; StoreCondReq; WriteLineReq] -> isWritable b = true ->
  isReadOnly (params c) = false ->
  exists ok pkt' c' b' v', satisfyRequest pkt (TagBlk p) c = Ok (pkt', c') /\ cache_ok k world c' /\
    blk_in k world c' p (p_addr pkt) b' v' /\ upd k world c c' (p_addr pkt) /\
    served k pkt d ok v pkt' v' /\ written pkt b b' v v'.
Proof.
  intros Hcmd Hw Hro. pose proof Hb as (H1 & H2 & _ & _ & H5). destruct (co_blk _ _ _ Hc p b H1 H2) as (Hr & _ & _).
  unfold satisfyRequest, BaseCache_satisfyRequest. cbn [get_blk get_data]. rewrite H1.
  assert (isRequest pkt = true /\ cmd_eq (p_cmd pkt) SwapReq = false /\ isWrite pkt = true /\ isRead pkt = false)
    as (-> & -> & -> & Hrd).
  { unfold isRequest, isWrite, isRead. rewrite !elem_of_cons, elem_of_nil in Hcmd.
    destruct Hcmd as [E|[E|[E|[]]]]; rewrite E; by split_and!. }
  cbn [mbind res_bind]. rewrite H2, hit_fits, H5, Hw. cbn [mbind res_bind].
  destruct (checkWrite_ok b Hcmd) as (ok & pkt1 & ls & -> & Hn & Hs). cbn [mbind res_bind].
  destruct (put_blk_ok k world c p (p_addr pkt) b (with_locks b ls) v Hc Hb) as (c1 & -> & Hc1 & Hb1 & Hu1); [done|done|by rewrite Hro|].
  cbn [mbind res_bind].
  assert (p_cmd pkt1 = p_cmd pkt /\ p_flags pkt1 = p_flags pkt /\ p_data pkt1 = p_data pkt /\
    writeDataToBlock pkt1 v (c_blkSize c1) = writeDataToBlock pkt v (c_blkSize c) /\
    (p_cmd pkt = StoreCondReq -> r_extraData (p_req pkt1) = Some (if ok then 1 else 0)) /\
    (p_cmd pkt <> StoreCondReq -> p_req pkt1 = p_req pkt /\ ok = true)) as (E1 & E2 & E3 & E4 & E5 & E6).
  { assert (c_blkSize c1 = c_blkSize c) as -> by (destruct Hu1 as [E _]; unfold c_blkSize; by rewrite E).
    destruct (decide (p_cmd pkt = StoreCondReq)) as [E|E]; [rewrite (Hs E)|destruct (Hn E) as [-> ->]]; by split_and!. }
  rewrite E4, hit_write. destruct (cq_data _ _ _ _ Hq) as [Hd Hld].
  set (v' := if ok then put_bytes v (p_addr pkt mod 2 ^ k) d else v).
  assert (exists c2, (if ok then d ← Ok (put_bytes v (p_addr pkt mod 2 ^ k) d); put_data c1 (TagBlk p) d else Ok c1) = Ok c2 /\
    cache_ok k world c2 /\ blk_in k world c2 p (p_addr pkt) (with_locks b ls) v' /\ upd k world c1 c2 (p_addr pkt)) as (c2 & -> & Hc2 & Hb2 & Hu2).
  { unfold v'. destruct ok; cbn [mbind res_bind]; [|exists c1; split_and!; try done; apply upd_refl].
    destruct (put_data_ok k world c1 p (p_addr pkt) _ v (put_bytes v (p_addr pkt mod 2 ^ k) d) Hc1 Hb1) as (c2 & -> & ? & ? & ? & _);
      [by apply hit_put_length|]. by exists c2. }
  cbn [mbind res_bind].
  destruct (status_or_ok k world c2 p (p_addr pkt) _ v' BlkDirty Hc2 Hb2) as (c3 & -> & Hc3 & Hb3 & Hu3); [done| |].
  { destruct Hu1 as [Ep1 _], Hu2 as [Ep2 _]. by rewrite Ep2, Ep1, Hro. }
  cbn [mbind res_bind]. unfold isRead in *. rewrite E1, Hrd. cbn [andb].
  eexists ok, pkt1, c3, _, v'. split; [reflexivity|]. split; [done|]. split; [exact Hb3|].
  split; [eapply upd_trans; [|done]; by eapply upd_trans|]. split.
  - split; try done; [by rewrite E3; unfold isRead; rewrite Hrd|intros; by apply E6|].
    unfold v', new_bytes. rewrite !elem_of_cons, elem_of_nil in Hcmd.
    destruct Hcmd as [E|[E|[E|[]]]]; rewrite E in *; [by destruct (E6 ltac:(done)) as [_ ->]|by destruct ok|by destruct (E6 ltac:(done)) as [_ ->]].
  - unfold written. rewrite !isWritable_bit, !isDirty_bit. cbn [with_status with_locks status]. rewrite !Z.lor_spec.
    change (Z.testbit BlkDirty 0) with false. change (Z.testbit BlkDirty 1) with false. change (Z.testbit BlkDirty 3) with true.
    rewrite !orb_false_r, orb_true_r. split_and!; try done. intros _. right. by rewrite <- isWritable_bit.
Qed.

(** The block after a swap has written [n], or left it. *)
Lemma swap_put n (w : bool) : Z.of_nat (length n) = p_size pkt -> isReadOnly (params c) = false ->
  let v' := if w then put_bytes v (p_addr pkt mod 2 ^ k) n else v in
  exists c' b', (c ← put_data c (TagBlk p) v'; if w then status_or c (TagBlk p) BlkDirty else Ok c) = Ok c' /\
    cache_ok k world c' /\ blk_in k world c' p (p_addr pkt) b' v' /\ upd k world c c' (p_addr pkt) /\
    isWritable b' = isWritable b /\ isDirty b' = isDirty b || w.
Proof.
  intros Hn Hro v'. assert (Z.of_nat (length v') = 2 ^ k) as Hl' by (unfold v'; destruct w; [by apply hit_put_length|done]).
  destruct (put_data_ok k world c p (p_addr pkt) b v v' Hc Hb Hl') as (c1 & -> & Hc1 & Hb1 & Hu1 & _). cbn [mbind res_bind].
  destruct w; [|exists c1, b; rewrite orb_false_r; by split_and!].
  destruct (status_or_ok k world c1 p (p_addr pkt) b v' BlkDirty Hc1 Hb1) as (c2 & -> & Hc2 & Hb2 & Hu2); [done| |].
  { destruct Hu1 as [-> _]. by rewrite Hro. }
  eexists c2, _. split; [done|]. split; [done|]. split; [exact Hb2|]. split; [by eapply upd_trans|].
  rewrite !isWritable_bit, !isDirty_bit. cbn [with_status status]. rewrite !Z.lor_spec.
  change (Z.testbit BlkDirty 0) with false. change (Z.testbit BlkDirty 1) with false. change (Z.testbit BlkDirty 3) with true.
  by rewrite !orb_false_r.
Qed.

Lemma satisfy_swap : p_cmd pkt = SwapReq -> isWritable b = true -> isReadOnly (params c) = false ->
  exists pkt' c' b' v', satisfyRequest pkt (TagBlk p) c = Ok (pkt', c') /\ cache_ok k world c' /\
    blk_in k world c' p (p_addr pkt) b' v' /\ upd k world c c' (p_addr pkt) /\
    served k pkt d true v pkt' v' /\ written pkt b b' v v'.
Proof.
  intros Hcmd Hw Hro. pose proof Hb as (H1 & H2 & _ & _ & H5). destruct (cq_data _ _ _ _ Hq) as [Hd Hld].
  destruct (cq_size _ _ _ _ Hq) as [Hs0 Hs1]. pose proof hit_offset as Hoff. pose proof hit_k as Hk.
  pose proof (cq_swap _ _ _ _ Hq Hcmd) as Hswap. set (off := p_addr pkt mod 2 ^ k) in *.
  set (old := get_bytes v off (p_size pkt)).
  assert (Z.of_nat (length old) = p_size pkt) as Hold by (apply get_bytes_length; lia).
  assert (bytes_set d 0 old = Ok old) as Eold by (apply bytes_set_all; lia).
  unfold satisfyRequest, BaseCache_satisfyRequest. cbn [get_blk get_data]. rewrite H1.
  assert (isRequest pkt = true /\ cmd_eq (p_cmd pkt) SwapReq = true /\ isRead pkt = true /\ fromCache pkt = false /\
    p_cmd pkt <> StoreCondReq) as (Hrq & -> & Hrd & Hfc & Hsc) by (rewrite Hcmd; by on_cmd Hcmd).
  rewrite Hrq. cbn [mbind res_bind]. rewrite H2, hit_fits, H5. cbn [mbind res_bind].
  assert (forall (w : bool) n c' b', Z.of_nat (length n) = p_size pkt ->
    new_bytes pkt true old d = (if w then Some n else None) ->
    let v' := if w then put_bytes v off n else v in
    cache_ok k world c' -> blk_in k world c' p (p_addr pkt) b' v' -> upd k world c c' (p_addr pkt) ->
    isWritable b' = isWritable b -> isDirty b' = isDirty b || w ->
    served k pkt d true v (with_data (Some old) pkt) v' /\ written pkt b b' v v') as Hend.
  { intros w n c' b' Hn Hnew v' Hc' Hb' Hu' Ew Ed. split.
    - split; cbn [with_data p_cmd p_flags p_data p_req]; try done; [by rewrite Hrd|]. fold off old. rewrite Hnew. by destruct w.
    - unfold written. rewrite Ew, Ed, Hw. split_and!; try done.
      + intros ->. done.
      + intros _. by right.
      + unfold v'. by destruct w; [rewrite orb_true_r|].
      + by rewrite Hcmd. }
  assert (isRead (with_data (Some old) pkt) && fromCache (with_data (Some old) pkt) = false) as Htail
    by (unfold isRead, fromCache in *; cbn [with_data p_cmd]; by rewrite Hrd, Hfc).
  destruct (isAtomicOp pkt) eqn:Ha.
  - destruct Hswap as (f & Hf & Hfl). unfold atomicOp.
    rewrite (bt_offset k) by (apply Hc || apply Hq). fold off. rewrite bytes_at_Ok by lia. cbn [mbind res_bind]. fold (get_bytes v off (p_size pkt)) old.
    unfold getPtr. rewrite Hd. cbn [mbind res_bind]. rewrite Eold, Hf. cbn [mbind res_bind].
    rewrite bytes_set_Ok by (rewrite ?Hfl; lia). cbn [mbind res_bind]. fold (put_bytes v off (f old)).
    destruct (swap_put (f old) true ltac:(by rewrite Hfl) Hro) as (c1 & b1 & E & Hc1 & Hb1 & Hu1 & Ew1 & Ed1). fold off in E, Hb1.
    destruct (put_data c (TagBlk p) (put_bytes v off (f old))) as [c0| | |]; cbn [mbind res_bind] in *; try done.
    rewrite E. cbn [mbind res_bind]. rewrite Htail. eexists _, c1, b1, _. split; [reflexivity|]. split; [done|]. split; [exact Hb1|].
    split; [done|]. apply (Hend true (f old) c1); try done; [by rewrite Hfl|]. unfold new_bytes. by rewrite Hcmd, Ha, Hf.
  - destruct Hswap as [Hs8 Hcond]. unfold cmpAndSwap. rewrite Hrq, (proj2 (Z.leb_le _ _)) by done.
    rewrite (writeData_Ok pkt d), (co_blkSize _ _ _ Hc), (getOffset_eq k) by (done || apply Hq). cbn [mbind res_bind]. fold off.
    rewrite bytes_at_Ok by lia. cbn [mbind res_bind]. fold (get_bytes v off (p_size pkt)) old.
    unfold getPtr. rewrite Hd. cbn [mbind res_bind]. rewrite Eold. cbn [mbind res_bind].
    change (p_req (with_data (Some old) pkt)) with (p_req pkt). change (p_size (with_data (Some old) pkt)) with (p_size pkt).
    match goal with |- context [mbind _ (if req_isCondSwap (p_req pkt) then ?x else Ok true)] =>
      assert ((if req_isCondSwap (p_req pkt) then x else Ok true) = Ok (swap_writes pkt old)) as Hsw end.
    { unfold swap_writes. destruct (req_isCondSwap (p_req pkt)) eqn:Ec; [|done].
      destruct (Hcond eq_refl) as [[E|E] [x Hx]]; unfold req_getExtraData; rewrite Hx, E; done. }
    rewrite Hsw. cbn [mbind res_bind].
    destruct (swap_put d (swap_writes pkt old) Hld Hro) as (c1 & b1 & E & Hc1 & Hb1 & Hu1 & Ew1 & Ed1). fold off in E, Hb1.
    assert (new_bytes pkt true old d = if swap_writes pkt old then Some d else None) as Hnew by (unfold new_bytes; by rewrite Hcmd, Ha).
    destruct (swap_writes pkt old) eqn:Esw.
    + rewrite bytes_set_Ok by lia. cbn [mbind res_bind]. fold (put_bytes v off d).
      destruct (put_data c (TagBlk p) (put_bytes v off d)) as [c0| | |]; cbn [mbind res_bind] in *; try done.
      rewrite E. cbn [mbind res_bind]. rewrite Htail. eexists _, c1, b1, _. split; [reflexivity|]. split; [done|]. split; [exact Hb1|].
      split; [done|]. by apply (Hend true d c1).
    + cbn [mbind res_bind]. destruct (put_data c (TagBlk p) v) as [c0| | |]; cbn [mbind res_bind] in *; try done.
      injection E as ->. rewrite Htail. eexists _, c1, b1, _. split; [reflexivity|]. split; [done|]. split; [exact Hb1|].
      split; [done|]. by apply (Hend false d c1).
Qed.

(** The block is writable if the request needs it to be: the request is
    served. *)
Lemma satisfyRequest_ok : (cmd_needsWritable (p_cmd pkt) = true -> isWritable b = true /\ isReadOnly (params c) = false) ->
  exists ok pkt' c' b' v', satisfyRequest pkt (TagBlk p) c = Ok (pkt', c') /\ cache_ok k world c' /\
    blk_in k world c' p (p_addr pkt) b' v' /\ upd k world c c' (p_addr pkt) /\
    served k pkt d ok v pkt' v' /\ written pkt b b' v v'.
Proof.
  intros Hnw. pose proof (cq_cmd _ _ _ _ Hq) as Hcmd. unfold access_cmds in Hcmd. rewrite !elem_of_cons, elem_of_nil in Hcmd.
  destruct Hcmd as [E|[E|[E|[E|[E|[E|[E|[]]]]]]]].
  1-3: exists true; apply satisfy_read; rewrite E; set_solver.
  1,2,4: apply satisfy_write; [rewrite E; set_solver|apply Hnw; by rewrite E..].
  exists true. apply satisfy_swap; [done|apply Hnw; by rewrite E..].
Qed.
End Satisfy.
End Hit.
