(* ===== verification/CohMiss.v ===== *)
(** The lookup of a request in a cache, and what a miss does before and after
    it goes to the crossbar. *)
From S2P Require Import Prelude CacheBlk ReplPolicy CacheTags TagStore MemPacket Cache CohLine CohFill CohHit.

(** * Lines before and after *)

(** A line that serves a request keeps its permission; if it is not dirty
    afterwards it has not changed. *)
Definition line_written (L L' : Line) : Prop :=
  l_w L' = l_w L /\ (l_d L = true -> l_d L' = true) /\ (l_d L' = true -> l_d L = true \/ l_w L = true) /\
  (l_d L' = false -> l_v L' = l_v L).

(** The packet a miss on address [a] sends to the crossbar. *)
Record bus_packet (k : Z) (world : Z -> bool) (q : Packet) (a : Z) (cmd : MemCmd) (r : Request) : Prop := {
  bp_cmd : p_cmd q = cmd;
  bp_addr : p_addr q = align k a;
  bp_size : p_size q = 2 ^ k;
  bp_secure : p_isSecure q = world (align k a);
  bp_flags : p_flags q = 0;
  bp_req : p_req q = r;
  bp_data : if cmd_hasData (responseCommand cmd) then exists f, p_data q = Some f /\ Z.of_nat (length f) = 2 ^ k
            else p_data q = None }.

(** Its response: [sh], other caches have the line; [rd], a cache gave it up
    that had changed it; [v], the bytes. *)
Record bus_response (k : Z) (q q' : Packet) (sh rd : bool) (v : list Z) : Prop := {
  br_cmd : p_cmd q' = responseCommand (p_cmd q);
  br_addr : p_addr q' = p_addr q;
  br_size : p_size q' = p_size q;
  br_secure : p_isSecure q' = p_isSecure q;
  br_req : p_req q' = p_req q;
  br_sharers : hasSharers q' = sh;
  br_responding : cacheResponding q' = rd;
  br_length : Z.of_nat (length v) = 2 ^ k;
  br_data : cmd_hasData (responseCommand (p_cmd q)) = true -> p_data q' = Some v;
  br_excl : if cmd_needsWritable (p_cmd q) then sh = false else rd = true -> sh = true }.

Section Miss.
Context {T D : Type} `{!BaseTags T D, !BaseTagsLaws T D} (k : Z) (world : Z -> bool).
Implicit Types (c : Cache T D) (b : CacheBlk D) (pkt : Packet).

(** The requests a cache may get: a read-only cache gets reads. *)
Definition req_for c pkt : Prop :=
  (isReadOnly (params c) = true -> cmd_needsWritable (p_cmd pkt) = false) /\ r_masterId (p_req pkt) < maxMasters (params c).

Lemma needsWritable_req pkt : p_cmd pkt ∈ access_cmds -> needsWritable pkt = Ok (cmd_needsWritable (p_cmd pkt)).
Proof.
  unfold access_cmds. rewrite !elem_of_cons, elem_of_nil. intros H.
  destruct H as [E|[E|[E|[E|[E|[E|[E|[]]]]]]]]; unfold needsWritable; by on_cmd E.
Qed.

Lemma maintain_ok c from q b : cache_ok k world c -> get_blk c q = Ok b -> maintainClusivity from q c = Ok c.
Proof. intros Hc Hb. unfold maintainClusivity. rewrite Hb, (co_incl _ _ _ Hc). cbn. by rewrite andb_false_r. Qed.

(** ** The lookup *)

(** The request misses: nothing has changed, and [o] is the block of the line,
    if the cache has it but may not write it. *)
Definition missed c pkt (o : option blk_ptr) c' : Prop :=
  cache_ok k world c' /\ upd k world c c' (p_addr pkt) /\ cline k world c' (p_addr pkt) = cline k world c (p_addr pkt) /\
  match o with
  | None => cline k world c (p_addr pkt) = None
  | Some q => exists p b v, q = TagBlk p /\ blk_in k world c' p (p_addr pkt) b v /\ Z.of_nat (length v) = 2 ^ k /\
      isWritable b = false /\ cmd_needsWritable (p_cmd pkt) = true
  end.

Lemma access_ok e c pkt d : env_ok e -> cache_ok k world c -> cpu_packet k world pkt d -> req_for c pkt ->
  (exists ok pkt' p c' L L', access e pkt c = Ok (true, Some (TagBlk p), [], pkt', c') /\ cache_ok k world c' /\
     upd k world c c' (p_addr pkt) /\ cline k world c (p_addr pkt) = Some L /\ cline k world c' (p_addr pkt) = Some L' /\
     (cmd_needsWritable (p_cmd pkt) = true -> l_w L = true) /\ (exists b, get_blk c' (TagBlk p) = Ok b) /\
     served k pkt d ok (l_v L) pkt' (l_v L') /\ line_written L L') \/
  (exists c', access e pkt c = Ok (true, None, [], with_req (req_setExtraData 0 (p_req pkt)) pkt, c') /\
     p_cmd pkt = StoreCondReq /\ missed c pkt None c') \/
  (exists o c', access e pkt c = Ok (false, o, [], pkt, c') /\ missed c pkt o c' /\
     (o = None -> p_cmd pkt <> StoreCondReq)).
Proof.
  intros He Hc Hq [Hro Hmm]. destruct (cq_req _ _ _ _ Hq) as [Hun Hcm]. destruct (cq_secure _ _ _ _ Hq) as [Hsec _].
  pose proof (cq_cmd _ _ _ _ Hq) as Hcmd. unfold access. rewrite Hun. unfold BaseCache_access.
  assert (isRequest pkt = true /\ isWriteback pkt = false /\ cmd_eq (p_cmd pkt) CleanEvict = false /\
    cmd_eq (p_cmd pkt) WriteClean = false /\ isWrite pkt = cmd_needsWritable (p_cmd pkt) /\
    isLLSC pkt && isWrite pkt = cmd_eq (p_cmd pkt) StoreCondReq) as (-> & -> & -> & -> & Hwr & Hsc).
  { unfold access_cmds in Hcmd. rewrite !elem_of_cons, elem_of_nil in Hcmd.
    destruct Hcmd as [E|[E|[E|[E|[E|[E|[E|[]]]]]]]]; cmd_unfold; rewrite E; by split_and!. }
  assert (isReadOnly (params c) && isWrite pkt = false) as ->.
  { rewrite Hwr. destruct (isReadOnly (params c)); [by rewrite Hro|done]. }
  cbn [negb]. rewrite Hsec.
  destruct (access_touch k world e c (p_addr pkt) Hc (cq_addr _ _ _ _ Hq) (eo_now _ He)) as (o & lat & t' & -> & Hc0 & Hl0 & Hu0 & Ho).
  cbn [mbind res_bind]. rewrite Hcm. set (c0 := with_tags c t') in *.
  pose proof (Hl0 _ (cq_addr _ _ _ _ Hq)) as Hla. destruct o as [p|]; cbn [fmap option_fmap option_map].
  - destruct Ho as (b & v & Hb & Hl). pose proof Hb as (H1 & H2 & _). cbn [get_blk]. rewrite H1. cbn [mbind res_bind].
    rewrite needsWritable_req by done. cbn [mbind res_bind].
    destruct (co_blk _ _ _ Hc0 p b H1 H2) as (Hr & _ & _). rewrite Hr.
    assert (cline k world c (p_addr pkt) = Some (line_state b v)) as Hcl.
    { rewrite <- Hla. by apply (blk_in_cline k world c0 p); [|apply Hq|]. }
    destruct (if cmd_needsWritable (p_cmd pkt) then isWritable b else true) eqn:Ehit.
    + left. destruct (satisfyRequest_ok k world c0 pkt d p b v Hc0 Hq Hb Hl) as (ok & pkt' & c1 & b' & v' & -> & Hc1 & Hb1 & Hu1 & Hsv & Hw).
      { intros E. rewrite E in Ehit. split; [done|]. destruct (isReadOnly (params c)) eqn:Er; [by rewrite Hro in E|done]. }
      cbn [mbind res_bind]. pose proof Hb1 as (G1 & _). rewrite (maintain_ok c1 _ _ b') by done. cbn [mbind res_bind].
      exists ok, pkt', p, c1, (line_state b v), (line_state b' v'). split; [done|]. split; [done|].
      split; [by eapply upd_trans|]. split; [done|]. split; [by apply (blk_in_cline k world c1 p); [|apply Hq|]|].
      split; [by intros E; rewrite E in Ehit|]. split; [by exists b'|]. split; [done|]. by destruct Hw as (? & ? & ? & ? & _).
    + right. right. assert (cmd_needsWritable (p_cmd pkt) = true /\ isWritable b = false) as [Hnw Hw] by (destruct (cmd_needsWritable (p_cmd pkt)); done).
      cbn [mbind res_bind andb]. exists (Some (TagBlk p)), c0. split; [done|]. split; [|done]. split; [done|]. split; [done|]. split; [done|].
      exists p, b, v. by split_and!.
  - cbn [mbind res_bind]. rewrite <- andb_assoc, Hsc. cbn [andb].
    assert (missed c pkt None c0) as Hmiss by (by split_and!).
    destruct (cmd_eq (p_cmd pkt) StoreCondReq) eqn:Esc.
    + right. left. apply cmd_eq_spec in Esc. by exists c0.
    + right. right. exists None, c0. split; [done|]. split; [done|]. intros _ E. rewrite E in Esc. done.
Qed.

(** ** The packet sent *)

Definition miss_cmd c pkt (o : option blk_ptr) : MemCmd :=
  if cmd_eq (p_cmd pkt) WriteLineReq then InvalidateReq
  else match o with
  | Some _ => if isLLSC pkt then SCUpgradeReq else UpgradeReq
  | None => if cmd_needsWritable (p_cmd pkt) then ReadExReq else if isReadOnly (params c) then ReadCleanReq else ReadSharedReq
  end.

Lemma createMissPacket_ok e c c' pkt d o : env_ok e -> cpu_packet k world pkt d -> missed c pkt o c' ->
  (o = None -> p_cmd pkt <> StoreCondReq) ->
  exists q, createMissPacket e c' pkt o (cmd_needsWritable (p_cmd pkt)) = Ok (Some q) /\
    bus_packet k world q (p_addr pkt) (miss_cmd c' pkt o) (p_req pkt).
Proof.
  intros He Hq (Hc' & Hu & Hcl & Ho) Hnsc. pose proof (cq_cmd _ _ _ _ Hq) as Hcmd. pose proof (bt_k _ _ (co_tags _ _ _ Hc')) as Hk.
  destruct (cq_req _ _ _ _ Hq) as [Hun _]. destruct (cq_secure _ _ _ _ Hq) as [Hs1 Hs2].
  unfold createMissPacket.
  assert (isEviction pkt = false /\ isUpgrade pkt = false /\ cmd_eq (p_cmd pkt) InvalidateReq = false /\ isClean pkt = false /\
    needsResponse pkt = true /\ cmd_eq (p_cmd pkt) SCUpgradeFailReq = false /\ cmd_eq (p_cmd pkt) StoreCondFailReq = false)
    as (-> & -> & -> & -> & -> & -> & ->).
  { unfold access_cmds in Hcmd. rewrite !elem_of_cons, elem_of_nil in Hcmd.
    destruct Hcmd as [E|[E|[E|[E|[E|[E|[E|[]]]]]]]]; cmd_unfold; rewrite E; by split_and!. }
  cbn [negb]. rewrite Hun, (co_incl _ _ _ Hc'), (co_blkSize _ _ _ Hc'). cbn [orb].
  assert (hasSharers pkt = false) as -> by (unfold hasSharers; by rewrite (cq_flags _ _ _ _ Hq)).
  (* the rest, for the command chosen *)
  assert (forall cmd, cmd = miss_cmd c' pkt o -> exists q,
    (assert! p_addr (Packet_new_blk (p_id pkt) (p_req pkt) cmd (2 ^ k) 0) =?
             getBlockAddr (Packet_new_blk (p_id pkt) (p_req pkt) cmd (2 ^ k) 0) (2 ^ k) ;;
     pkt ← allocate (fresh e) (Packet_new_blk (p_id pkt) (p_req pkt) cmd (2 ^ k) 0); Ok (Some pkt)) = Ok (Some q) /\
    bus_packet k world q (p_addr pkt) (miss_cmd c' pkt o) (p_req pkt)) as Hrest.
  { intros cmd ->. set (cmd := miss_cmd c' pkt o). set (q := Packet_new_blk _ _ _ _ _).
    assert (p_addr q = align k (p_addr pkt)) as Ha by (apply new_blk_addr; [done|by rewrite (cq_paddr _ _ _ _ Hq)|apply Hq]).
    assert (addr_ok (align k (p_addr pkt))) as Hak by (apply align_ok; [lia|apply Hq]).
    rewrite getBlockAddr_eq, Ha, align_idem, Z.eqb_refl by (lia || rewrite ?Ha; done).
    unfold allocate. cbn [q Packet_new_blk p_data]. 
    assert (hasData q = false) as ->.
    { unfold hasData. cbn [q Packet_new_blk p_cmd]. unfold cmd, miss_cmd. by repeat case_match. }
    change (hasRespData q) with (cmd_hasData (responseCommand cmd)). cbn [orb].
    assert (p_isSecure q = world (align k (p_addr pkt))) as Hse by (cbn [q Packet_new_blk p_isSecure]; congruence).
    destruct (cmd_hasData (responseCommand cmd)) eqn:Ehd; cbn [mbind res_bind];
      (eexists; split; [reflexivity|]; split; cbn [with_data p_cmd p_addr p_size p_isSecure p_flags p_req p_data]; try done);
      fold cmd; rewrite Ehd; [|done].
    eexists. split; [done|]. apply (eo_fresh _ He). cbn. apply Z.pow_nonneg. lia. }
  assert (exists cmd valid writable, ptr_valid c' o = Ok valid /\
    (match o with Some q => b ← get_blk c' q; Ok (isWritable b) | None => Ok false end) = Ok writable /\
    (if cmd_eq (p_cmd pkt) WriteLineReq then assert! negb valid || negb writable ;; Ok InvalidateReq
     else if valid : bool then assert! cmd_needsWritable (p_cmd pkt) ;; assert! negb writable ;; Ok (if isLLSC pkt then SCUpgradeReq else UpgradeReq)
     else if false || false then Ok SCUpgradeFailReq
     else Ok (if cmd_needsWritable (p_cmd pkt) then ReadExReq else if isReadOnly (params c') || false then ReadCleanReq else ReadSharedReq)) = Ok cmd /\
    cmd = miss_cmd c' pkt o) as (cmd & valid & writable & -> & -> & Hsel & Ecmd).
  { exists (miss_cmd c' pkt o). unfold miss_cmd. destruct o as [q|].
    - destruct Ho as (p & b & v & -> & (H1 & H2 & _) & _ & Hw & Hnw). cbn [ptr_valid get_blk]. rewrite H1. cbn [mbind res_bind].
      exists true, false. rewrite H2, Hw, Hnw. split; [done|]. split; [done|]. cbn [negb orb].
      by destruct (cmd_eq (p_cmd pkt) WriteLineReq).
    - cbn [ptr_valid]. exists false, false. split; [done|]. split; [done|]. rewrite !orb_false_r. cbn [negb orb].
      by destruct (cmd_eq (p_cmd pkt) WriteLineReq). }
  cbn [mbind res_bind]. rewrite andb_false_r. cbn [orb]. cbn zeta.
  match type of Hsel with ?x = _ => match goal with |- context [mbind _ ?y] => replace y with x by done end end.
  rewrite Hsel. cbn [mbind res_bind andb]. by apply Hrest.
Qed.
(** ** The fill *)

(** The end of a fill: the block gets the permission and, with [isRead], the
    bytes of the packet. *)
Lemma fill_rest c p a b v0 fpkt (sh rd hd : bool) v : cache_ok k world c -> blk_in k world c p a b v0 ->
  Z.of_nat (length v0) = 2 ^ k -> addr_ok a -> p_addr fpkt = align k a -> hasSharers fpkt = sh -> cacheResponding fpkt = rd ->
  (p_cmd fpkt = WriteLineReq -> sh = false) -> (negb sh && rd = true -> isReadOnly (params c) = false) ->
  (isRead fpkt = true -> hd = true /\ p_size fpkt = 2 ^ k /\ p_data fpkt = Some v /\ Z.of_nat (length v) = 2 ^ k) ->
  exists c' b', (forall (R : Type) (K : Cache T D -> res R),
    (assert! negb (cmd_eq (p_cmd fpkt) WriteLineReq && hasSharers fpkt) ;;
     c ← (if negb (hasSharers fpkt) then
            c ← status_or c (TagBlk p) BlkWritable;
            if cacheResponding fpkt then
              c ← status_or c (TagBlk p) BlkDirty; assert! negb (isReadOnly (params c)) ;; Ok c
            else Ok c
          else Ok c);
     c ← (if isRead fpkt then
            assert! (hd : bool) ;;
            assert! p_size fpkt =? c_blkSize c ;;
            d ← get_data c (TagBlk p);
            d ← writeDataToBlock fpkt d (c_blkSize c);
            put_data c (TagBlk p) d
          else Ok c);
     K c) = K c') /\ cache_ok k world c' /\
    blk_in k world c' p a b' (if isRead fpkt then v else v0) /\ upd k world c c' a /\
    isWritable b' = isWritable b || negb sh /\ isDirty b' = isDirty b || (negb sh && rd).
Proof.
  intros Hc Hb Hl Ha Hpa -> -> Hwl Hro Hrd.
  pose proof (bt_k _ _ (co_tags _ _ _ Hc)) as Hk.
  assert (negb (cmd_eq (p_cmd fpkt) WriteLineReq && sh) = true) as ->.
  { destruct (cmd_eq (p_cmd fpkt) WriteLineReq) eqn:E; [|done]. apply cmd_eq_spec in E. by rewrite Hwl. }
  assert (exists c1 b1, (if negb sh then
            c ← status_or c (TagBlk p) BlkWritable;
            if rd then c ← status_or c (TagBlk p) BlkDirty; assert! negb (isReadOnly (params c)) ;; Ok c else Ok c
          else Ok c) = Ok c1 /\ cache_ok k world c1 /\ blk_in k world c1 p a b1 v0 /\ upd k world c c1 a /\
    isWritable b1 = isWritable b || negb sh /\ isDirty b1 = isDirty b || (negb sh && rd)) as (c1 & b1 & -> & Hc1 & Hb1 & Hu1 & Ew & Ed).
  { destruct sh; cbn [negb andb]; [exists c, b; rewrite !orb_false_r; split_and!; try done; apply upd_refl|].
    destruct (status_or_ok k world c p a b v0 BlkWritable Hc Hb) as (c1 & -> & Hc1 & Hb1 & Hu1); [done..|]. cbn [mbind res_bind].
    pose proof Hb1 as (_ & G2 & _). pose proof Hu1 as (Ep & _).
    destruct rd; [|eexists c1, _; split; [reflexivity|]; split; [done|]; split; [exact Hb1|]; split; [done|];
      revert G2; rewrite isValid_bit, !isWritable_bit, !isDirty_bit; cbn [with_status status]; rewrite !Z.lor_spec;
      intros ->; change (Z.testbit BlkWritable 1) with true; change (Z.testbit BlkWritable 3) with false; by rewrite !orb_true_r, !orb_false_r].
    destruct (status_or_ok k world c1 p a _ v0 BlkDirty Hc1 Hb1) as (c2 & -> & Hc2 & Hb2 & Hu2); [done|by rewrite Ep, Hro|]. cbn [mbind res_bind].
    pose proof Hu2 as (Ep2 & _). rewrite Ep2, Ep, Hro by done. pose proof Hb2 as (_ & G3 & _).
    eexists c2, _; split; [reflexivity|]; split; [done|]; split; [exact Hb2|]; split; [by eapply upd_trans|].
    revert G3; rewrite isValid_bit, !isWritable_bit, !isDirty_bit; cbn [with_status status]; rewrite !Z.lor_spec. intros ->.
    change (Z.testbit BlkWritable 1) with true; change (Z.testbit BlkDirty 3) with true. by rewrite !orb_true_r. }
  cbn [mbind res_bind]. destruct (isRead fpkt) eqn:Er; [|by exists c1, b1; split_and!].
  destruct Hrd as (-> & Hsz & Hd & Hlv); [done|]. pose proof Hb1 as (_ & _ & _ & _ & Hv0).
  rewrite Hsz, (co_blkSize _ _ _ Hc1), Z.eqb_refl. cbn [get_data]. rewrite Hv0. cbn [mbind res_bind].
  assert (align k a mod 2 ^ k = 0) as Hm by (unfold align; apply Z.mod_mul, Z.pow_nonzero; lia).
  rewrite (writeDataToBlock_Ok fpkt v0 k v) by (rewrite ?Hpa, ?Hm, ?Hsz; try done; try lia; by apply align_ok; [lia|]).
  cbn [mbind res_bind]. rewrite Hpa, Hm, put_bytes_all by lia.
  destruct (put_data_ok k world c1 p a b1 v0 v Hc1 Hb1 Hlv) as (c2 & -> & Hc2 & Hb2 & Hu2 & _).
  exists c2, b1. split_and!; try done. by eapply upd_trans.
Qed.

(** The fill of a line the cache does not have. *)
Lemma handleFill_new e c fpkt a v : env_ok e -> cache_ok k world c -> addr_ok a -> cline k world c a = None ->
  p_addr fpkt = align k a -> p_isSecure fpkt = world (align k a) -> r_masterId (p_req fpkt) < maxMasters (params c) ->
  hasData fpkt = true -> Z.of_nat (length v) = 2 ^ k ->
  (isRead fpkt = true /\ isResponse fpkt = true /\ p_size fpkt = 2 ^ k /\ p_data fpkt = Some v \/
   p_cmd fpkt = WriteLineReq /\ hasSharers fpkt = false) ->
  (negb (hasSharers fpkt) && cacheResponding fpkt = true -> isReadOnly (params c) = false) ->
  exists p ws c' b' v', handleFill e fpkt None true c = Ok (TagBlk p, ws, c') /\ cache_ok k world c' /\
    evicted k world c c' a ws /\ blk_in k world c' p a b' v' /\ Z.of_nat (length v') = 2 ^ k /\
    (isRead fpkt = true -> v' = v) /\ isWritable b' = negb (hasSharers fpkt) /\
    isDirty b' = negb (hasSharers fpkt) && cacheResponding fpkt.
Proof.
  intros He Hc Ha Hmiss Hpa Hsec Hmm Hd Hl Hkind Hro. pose proof (bt_k _ _ (co_tags _ _ _ Hc)) as Hk. unfold handleFill.
  assert (isResponse fpkt || cmd_eq (p_cmd fpkt) WriteLineReq = true) as ->.
  { destruct Hkind as [(_ & -> & _)|[-> _]]; [done|apply orb_true_r]. }
  assert (isRead fpkt || cmd_eq (p_cmd fpkt) WriteLineReq = true) as ->.
  { destruct Hkind as [(-> & _)|[-> _]]; [done|apply orb_true_r]. }
  rewrite (co_blkSize _ _ _ Hc), getBlockAddr_eq, Hpa, align_idem, Z.eqb_refl by (rewrite ?Hpa; try lia; by apply align_ok; [lia|]).
  cbn zeta. rewrite Hd.
  assert (cline k world c (align k a) = None) as Hmiss' by (by rewrite (cline_align k world)).
  destruct (allocate_fill_ok k world e c fpkt (align k a)) as (p & ws & c1 & c2 & b1 & b2 & v0 & -> & Hg & Hi & Hst & Hc2 & Hb2 & Hl0 & Hw & Hdb & Hev);
    try done; [by apply align_ok; [lia|]|by rewrite align_idem by lia|].
  cbn [mbind res_bind]. rewrite Hg. cbn [mbind res_bind]. rewrite Hi. cbn [negb mbind res_bind]. rewrite Hst. cbn [mbind res_bind].
  assert (evicted k world c c2 a ws) as Hev' by (unfold evicted in *; by rewrite align_idem in Hev by lia).
  assert (blk_in k world c2 p a b2 v0) as Hb2' by (unfold blk_in in *; by rewrite align_idem in Hb2 by lia).
  destruct (fill_rest c2 p a b2 v0 fpkt (hasSharers fpkt) (cacheResponding fpkt) true v Hc2 Hb2' Hl0 Ha Hpa)
    as (c3 & b3 & E & Hc3 & Hb3 & Hu3 & Hw3 & Hd3); try done.
  - destruct Hkind as [(Hr & _)|[_ ?]]; [|done]. intros Ew. unfold isRead in Hr. by rewrite Ew in Hr.
  - by destruct Hev' as [-> _].
  - intros Hr. destruct Hkind as [(_ & _ & ? & ?)|[Ew _]]; [done|]. unfold isRead in Hr. by rewrite Ew in Hr.
  - cbn [mbind res_bind] in E. rewrite E. exists p, ws, c3, b3. eexists. split; [reflexivity|]. split; [done|]. split; [by eapply evicted_upd|]. split; [exact Hb3|].
    rewrite Hw3, Hd3, Hw, Hdb. split; [by destruct (isRead fpkt)|]. split; [|done]. by intros ->.
Qed.

(** The fill of a line the cache has and may now write. *)
Lemma handleFill_own e c fpkt a p b v alloc : cache_ok k world c -> addr_ok a -> blk_in k world c p a b v ->
  Z.of_nat (length v) = 2 ^ k -> p_addr fpkt = align k a -> p_isSecure fpkt = world (align k a) ->
  isRead fpkt = false -> isResponse fpkt || cmd_eq (p_cmd fpkt) WriteLineReq = true -> hasSharers fpkt = false ->
  (cacheResponding fpkt = true -> isReadOnly (params c) = false) ->
  exists c' b', handleFill e fpkt (Some (TagBlk p)) alloc c = Ok (TagBlk p, [], c') /\ cache_ok k world c' /\
    upd k world c c' a /\ blk_in k world c' p a b' v /\ isWritable b' = true /\
    isDirty b' = isDirty b || cacheResponding fpkt.
Proof.
  intros Hc Ha Hb Hl Hpa Hsec Hrd Hkind Hsh Hro. pose proof (bt_k _ _ (co_tags _ _ _ Hc)) as Hk. unfold handleFill.
  pose proof Hb as (H1 & H2 & H3 & H4 & _). rewrite Hkind.
  rewrite (co_blkSize _ _ _ Hc), getBlockAddr_eq, Hpa, align_idem, Z.eqb_refl by (rewrite ?Hpa; try lia; by apply align_ok; [lia|]).
  cbn zeta. cbn [get_blk c_regenerateBlkAddr]. rewrite H1. cbn [mbind res_bind]. rewrite H4, Z.eqb_refl, H3, Hsec, H2, orb_true_r, eqb_reflx.
  cbn [mbind res_bind].
  destruct (status_or_ok k world c p a b v (Z.lor BlkValid BlkReadable) Hc Hb) as (c2 & -> & Hc2 & Hb2 & Hu2); [done..|]. cbn [mbind res_bind].
  destruct (fill_rest c2 p a _ v fpkt (hasSharers fpkt) (cacheResponding fpkt) (hasData fpkt) v Hc2 Hb2 Hl Ha Hpa)
    as (c3 & b3 & E & Hc3 & Hb3 & Hu3 & Hw3 & Hd3); try done; [rewrite Hsh; by destruct Hu2 as [-> _]|by rewrite Hrd|].
  rewrite E. exists c3, b3. split; [reflexivity|]. split; [done|]. split; [by eapply upd_trans|]. rewrite Hrd in Hb3.
  split; [done|]. rewrite Hw3, Hd3, Hsh. split; [apply orb_true_r|]. cbn [negb andb]. f_equal.
  rewrite !isDirty_bit. cbn [with_status status]. rewrite Z.lor_spec. apply orb_false_r.
Qed.

(** ** The response *)

(** The line after a fill: it is writable unless it has sharers; if it is not
    dirty it is as memory has it. *)
Definition line_filled c pkt (sh rd : bool) (v : list Z) (L' : Line) : Prop :=
  l_w L' = negb sh /\ (l_d L' = true -> l_w L' = true) /\
  (l_d L' = false -> l_v L' = v /\
     (cmd_needsWritable (p_cmd pkt) = true -> rd = false /\ forall L, cline k world c (p_addr pkt) = Some L -> l_d L = false)).

Lemma miss_needsWritable c0 c pkt d o : cpu_packet k world pkt d -> missed c0 pkt o c ->
  cmd_needsWritable (miss_cmd c pkt o) = cmd_needsWritable (p_cmd pkt).
Proof.
  intros Hq (_ & _ & _ & Ho). pose proof (cq_cmd _ _ _ _ Hq) as Hcmd. unfold miss_cmd.
  destruct (cmd_eq (p_cmd pkt) WriteLineReq) eqn:E; [apply cmd_eq_spec in E; by rewrite E|].
  destruct o; [destruct Ho as (_ & _ & _ & _ & _ & _ & _ & ->); by destruct (isLLSC pkt)|].
  destruct (cmd_needsWritable (p_cmd pkt)); [done|by destruct (isReadOnly (params c))].
Qed.

(** A request of a whole line is served the same from any bytes. *)
Lemma served_whole pkt d ok v v0 pkt' v' : cpu_packet k world pkt d -> p_cmd pkt = WriteLineReq ->
  Z.of_nat (length v) = 2 ^ k -> Z.of_nat (length v0) = 2 ^ k -> 2 <= k ->
  served k pkt d ok v0 pkt' v' -> served k pkt d ok v pkt' v'.
Proof.
  intros Hq E Hv Hv0 Hk [S1 S2 S3 S4 S5 S6]. destruct (cq_line _ _ _ _ Hq E) as [Ha Hs]. destruct (cq_data _ _ _ _ Hq) as [_ Hd].
  assert (isRead pkt = false) as Hr by (unfold isRead; by rewrite E). rewrite Hr in S3.
  split; try done; [by rewrite Hr|]. unfold new_bytes in *. rewrite E in *. rewrite S6.
  assert (p_addr pkt mod 2 ^ k = 0) as -> by (rewrite Ha; unfold align; apply Z.mod_mul, Z.pow_nonzero; lia).
  rewrite !put_bytes_all by lia. done.
Qed.

Lemma upd_evicted c c' a : upd k world c c' a -> evicted k world c c' a [].
Proof. intros (Hp & _ & H). split; [done|]. left. by split. Qed.

(** The block the fill leaves, and the request served from it. *)
Lemma fill_satisfy c c1 pkt d p b v0 sh rd v ws : cache_ok k world c1 -> cpu_packet k world pkt d -> req_for c pkt ->
  evicted k world c c1 (p_addr pkt) ws -> blk_in k world c1 p (p_addr pkt) b v0 -> Z.of_nat (length v0) = 2 ^ k ->
  Z.of_nat (length v) = 2 ^ k -> (p_cmd pkt <> WriteLineReq -> v0 = v) ->
  isWritable b = negb sh -> (cmd_needsWritable (p_cmd pkt) = true -> sh = false) ->
  (isDirty b = true -> sh = false) ->
  (p_cmd pkt <> WriteLineReq -> isDirty b = false -> cmd_needsWritable (p_cmd pkt) = true ->
     rd = false /\ forall L, cline k world c (p_addr pkt) = Some L -> l_d L = false) ->
  exists ok pkt' c' b' L', satisfyRequest pkt (TagBlk p) c1 = Ok (pkt', c') /\ cache_ok k world c' /\
    evicted k world c c' (p_addr pkt) ws /\ get_blk c' (TagBlk p) = Ok b' /\ cline k world c' (p_addr pkt) = Some L' /\
    served k pkt d ok v pkt' (l_v L') /\ line_filled c pkt sh rd v L'.
Proof.
  intros Hc1 Hq [Hro Hmm] Hev Hb Hl Hlv Hv Hw Hnw Hdb Hcl. pose proof (bt_k _ _ (co_tags _ _ _ Hc1)) as Hk.
  destruct (satisfyRequest_ok k world c1 pkt d p b v0 Hc1 Hq Hb Hl) as (ok & pkt' & c2 & b2 & v2 & -> & Hc2 & Hb2 & Hu2 & Hs & (W1 & W2 & W3 & W4 & W5)).
  { intros E. rewrite Hw, Hnw by done. split; [done|]. destruct Hev as [-> _]. destruct (isReadOnly (params c)); [|done]. by rewrite Hro in E. }
  pose proof Hb2 as (G1 & _). exists ok, pkt', c2, b2, (line_state b2 v2). split; [done|]. split; [done|]. split; [by eapply evicted_upd|].
  split; [done|]. split; [by apply (blk_in_cline k world c2 p); [|apply Hq|]|]. cbn [line_state l_v].
  destruct (decide (p_cmd pkt = WriteLineReq)) as [E|E].
  - split; [by eapply served_whole; [..|exact Hs]; try lia|]. unfold line_filled. cbn [line_state l_w l_d l_v].
    rewrite W1, Hw, W5 by done. split; [done|]. split; [|done]. intros _. rewrite Hnw; [done|by rewrite E].
  - rewrite (Hv E) in *. split; [done|]. unfold line_filled. cbn [line_state l_w l_d l_v]. rewrite W1, Hw. split; [done|]. split.
    + intros H. destruct (W3 H) as [H'|H']; [by rewrite Hdb|congruence].
    + intros H. split; [by apply W4|]. intros Hn. apply Hcl; [done| |done].
      destruct (isDirty b) eqn:Ed; [|done]. rewrite W2 in H; done.
Qed.

(** The response of the crossbar is filled into the cache and the request
    served from it. *)
Lemma handle_response_ok e c0 c pkt d o q q' sh rd v : env_ok e -> cpu_packet k world pkt d -> req_for c pkt ->
  missed c0 pkt o c -> (o = None -> p_cmd pkt <> StoreCondReq) ->
  bus_packet k world q (p_addr pkt) (miss_cmd c pkt o) (p_req pkt) -> bus_response k q q' sh rd v ->
  (forall L, cline k world c (p_addr pkt) = Some L -> l_v L = v) ->
  exists ok pkt' p ws c' b' L', handle_response e q' pkt o c = Ok (pkt', Some (TagBlk p), false, ws, c') /\ cache_ok k world c' /\
    evicted k world c c' (p_addr pkt) ws /\ get_blk c' (TagBlk p) = Ok b' /\ cline k world c' (p_addr pkt) = Some L' /\
    served k pkt d ok v pkt' (l_v L') /\ line_filled c pkt sh rd v L'.
Proof.
  intros He Hq Hrf Hmiss Hnsc Hbus Hres Hv. pose proof (miss_needsWritable _ _ _ _ _ Hq Hmiss) as Enw.
  pose proof Hmiss as (Hc & _ & Hcl & Ho). pose proof (cq_cmd _ _ _ _ Hq) as Hcmd. pose proof (bt_k _ _ (co_tags _ _ _ Hc)) as Hk.
  pose proof (cq_addr _ _ _ _ Hq) as Ha. pose proof (cq_flags _ _ _ _ Hq) as Hf. destruct (cq_secure _ _ _ _ Hq) as [Hsec _].
  pose proof Hrf as [Hro Hmm]. pose proof (br_cmd _ _ _ _ _ _ Hres) as Ec. pose proof (br_excl _ _ _ _ _ _ Hres) as Hex.
  rewrite (bp_cmd _ _ _ _ _ _ Hbus) in *. rewrite Enw in Hex.
  pose proof (br_length _ _ _ _ _ _ Hres) as Hlv.
  assert (needsResponse pkt = true /\ isResponse q' = true /\ isError q' = false) as (Hnr & Hir & Hie).
  { split; [|unfold isResponse, isError; rewrite Ec; unfold miss_cmd; by repeat case_match].
    unfold access_cmds in Hcmd. rewrite !elem_of_cons, elem_of_nil in Hcmd.
    destruct Hcmd as [E|[E|[E|[E|[E|[E|[E|[]]]]]]]]; by on_cmd E. }
  assert (cmd_needsWritable (p_cmd pkt) = true -> sh = false) as Hsh by (by intros E; rewrite E in Hex).
  assert (forall cmd, allocOnFill c cmd = true) as Hal by (intros; unfold allocOnFill; by rewrite (co_incl _ _ _ Hc)).
  assert (cacheResponding pkt = false /\ hasSharers pkt = false) as [Hpr Hps].
  { unfold cacheResponding, hasSharers. by rewrite Hf. }
  unfold handle_response. rewrite Hnr, Hir, Hie, Hal. cbn [negb].
  destruct (cmd_eq (p_cmd pkt) WriteLineReq) eqn:Ewl.
  - apply cmd_eq_spec in Ewl. assert (isRead pkt = false) as Hrd by (unfold isRead; by rewrite Ewl).
    destruct (cq_line _ _ _ _ Hq Ewl) as [Hal' Hsz]. rewrite Hsh in * by by rewrite Ewl.
    assert (exists p ws c1 b v0, handleFill e pkt o true c = Ok (TagBlk p, ws, c1) /\ cache_ok k world c1 /\
      evicted k world c c1 (p_addr pkt) ws /\ blk_in k world c1 p (p_addr pkt) b v0 /\ Z.of_nat (length v0) = 2 ^ k /\
      isWritable b = true) as (p & ws & c1 & b & v0 & -> & Hc1 & Hev & Hb & Hl0 & Hw).
    { destruct o as [o|].
      - destruct Ho as (p & b & v0 & -> & Hb & Hl & Hw & _).
        destruct (handleFill_own e c pkt (p_addr pkt) p b v0 true Hc Ha Hb Hl) as (c1 & b1 & E & Hc1 & Hu1 & Hb1 & Hw1 & _); try done;
          [by unfold isResponse; rewrite Ewl|by rewrite Hpr|].
        exists p, [], c1, b1, v0. split_and!; try done. by apply upd_evicted.
      - destruct (handleFill_new e c pkt (p_addr pkt) v He Hc Ha) as (p & ws & c1 & b & v0 & E & Hc1 & Hev & Hb & Hl & _ & Hw & _); try done.
        + by rewrite Hcl.
        + by unfold hasData; rewrite Ewl.
        + by right.
        + by rewrite Hpr, andb_false_r.
        + exists p, ws, c1, b, v0. split_and!; try done. by rewrite Hw, Hps. }
    cbn [mbind res_bind].
    destruct (fill_satisfy c c1 pkt d p b v0 false rd v ws Hc1 Hq Hrf Hev Hb Hl0 Hlv)
      as (ok & pkt' & c2 & b2 & L' & -> & Hres'); try done.
    cbn [mbind res_bind]. by exists ok, pkt', p, ws, c2, b2, L'.
  - assert (p_cmd pkt <> WriteLineReq) as Ewl' by (intros E; by rewrite E in Ewl).
    unfold miss_cmd in Ec, Enw. rewrite Ewl in Ec, Enw.
    assert (isInvalidate q' = false /\ isRead q' || cmd_eq (p_cmd q') UpgradeResp = true) as [-> ->].
    { unfold isInvalidate, isRead. rewrite Ec. by repeat case_match. }
    assert (exists p ws c1 b, handleFill e q' o true c = Ok (TagBlk p, ws, c1) /\ cache_ok k world c1 /\
      evicted k world c c1 (p_addr pkt) ws /\ blk_in k world c1 p (p_addr pkt) b v /\
      isWritable b = negb sh /\ (isDirty b = true -> sh = false) /\
      (isDirty b = false -> cmd_needsWritable (p_cmd pkt) = true -> rd = false /\
         forall L, cline k world c (p_addr pkt) = Some L -> l_d L = false)) as (p & ws & c1 & b & -> & Hc1 & Hev & Hb & Hw & Hd1 & Hd2).
    { pose proof (br_addr _ _ _ _ _ _ Hres) as Ba. rewrite (bp_addr _ _ _ _ _ _ Hbus) in Ba.
      pose proof (br_secure _ _ _ _ _ _ Hres) as Bs. rewrite (bp_secure _ _ _ _ _ _ Hbus) in Bs.
      destruct o as [o|].
      - destruct Ho as (p & b & v0 & -> & Hb & Hl & Hw & Hn).
        assert (v0 = v) as -> by (apply (Hv (line_state b v0)); by apply (blk_in_cline k world c p)).
        destruct (handleFill_own e c q' (p_addr pkt) p b v true Hc Ha Hb Hl Ba Bs) as (c1 & b1 & E & Hc1 & Hu1 & Hb1 & Hw1 & Hd1).
        + unfold isRead. rewrite Ec. by destruct (isLLSC pkt).
        + by rewrite Hir.
        + rewrite (br_sharers _ _ _ _ _ _ Hres). by apply Hsh.
        + intros _. destruct (isReadOnly (params c)); [|done]. by rewrite Hro in Hn.
        + rewrite (br_responding _ _ _ _ _ _ Hres) in Hd1. exists p, [], c1, b1. split_and!; try done.
          * by apply upd_evicted.
          * by rewrite Hw1, Hsh.
          * intros _. by apply Hsh.
          * rewrite Hd1. intros [E1 E2]%orb_false_iff _. split; [done|]. intros L.
            rewrite (blk_in_cline k world c p _ b v Hc Ha Hb). intros [= <-]. done.
      - assert (cline k world c (p_addr pkt) = None) as Hnone by (by rewrite Hcl).
        assert (isRead q' = true /\ hasData q' = true) as [Hrq Hdq] by (unfold isRead, hasData; rewrite Ec; by repeat case_match).
        destruct (handleFill_new e c q' (p_addr pkt) v He Hc Ha Hnone Ba Bs) as (p & ws & c1 & b & v0 & E & Hc1 & Hev & Hb & Hl & Hv0 & Hw & Hd1); try done.
        + rewrite (br_req _ _ _ _ _ _ Hres), (bp_req _ _ _ _ _ _ Hbus). done.
        + left. split; [done|]. split; [done|]. split; [by rewrite (br_size _ _ _ _ _ _ Hres), (bp_size _ _ _ _ _ _ Hbus)|].
          apply (br_data _ _ _ _ _ _ Hres). rewrite (bp_cmd _ _ _ _ _ _ Hbus). unfold miss_cmd. rewrite Ewl. by repeat case_match.
        + rewrite (br_sharers _ _ _ _ _ _ Hres), (br_responding _ _ _ _ _ _ Hres).
          intros [Es Er]%andb_true_iff. destruct (isReadOnly (params c)) eqn:Eo; [|done]. rewrite Hro in Hex by done.
          by rewrite Hex in Es.
        + rewrite (br_sharers _ _ _ _ _ _ Hres), (br_responding _ _ _ _ _ _ Hres) in *. rewrite Hv0 in * by done.
          exists p, ws, c1, b. split_and!; try done.
          * rewrite Hd1. by destruct sh.
          * rewrite Hd1. intros Ed En. rewrite Hsh in Ed by done. split; [by destruct rd|]. intros L. by rewrite Hnone. }
    cbn [mbind res_bind].
    destruct (fill_satisfy c c1 pkt d p b v sh rd v ws Hc1 Hq Hrf Hev Hb Hlv Hlv)
      as (ok & pkt' & c2 & b2 & L' & -> & Hc2 & Hev2 & Hg2 & Hres'); try done.
    cbn [mbind res_bind]. rewrite (maintain_ok c2 _ _ b2 Hc2 Hg2). cbn [mbind res_bind].
    by exists ok, pkt', p, ws, c2, b2, L'.
Qed.

End Miss.
