(* ===== verification/CohSnoop.v ===== *)
(** How a cache answers a snoop of the crossbar for one of the requests caches
    send on a miss. *)
From S2P Require Import Prelude CacheBlk ReplPolicy CacheTags TagStore MemPacket Cache CohLine CohFill CohHit CohMiss.

(** * The packet between two snoops *)

Definition miss_cmds : list MemCmd := [ReadSharedReq; ReadCleanReq; ReadExReq; UpgradeReq; SCUpgradeReq; InvalidateReq].

(** The packet [p] is the request [q] after some caches have seen it: [sh], one
    of them keeps the line; [rd], one of them had changed it and has answered
    with the bytes [v]. *)
Record snoop_packet (q p : Packet) (sh rd : bool) (v : list Z) : Prop := {
  sp_same : p = with_flags (p_flags p) (with_data (p_data p) q);
  sp_sharers : hasSharers p = sh;
  sp_responding : cacheResponding p = rd;
  sp_writable : rd = false -> responderHadWritable p = false;
  sp_data : p_data p = if rd && hasRespData q then Some v else p_data q }.

(** The line a snoop leaves. *)
Definition snooped_line (cmd : MemCmd) (o : option Line) : option Line :=
  match o with
  | Some L => if cmd_isInvalidate cmd then None else Some {| l_w := false; l_d := l_d L; l_v := l_v L |}
  | None => None
  end.
Definition line_dirty (o : option Line) : bool := match o with Some L => l_d L | None => false end.
Definition line_present (o : option Line) : bool := match o with Some _ => true | None => false end.

Section Snoop.
Context {T D : Type} `{!BaseTags T D, !BaseTagsLaws T D} (k : Z) (world : Z -> bool).
Implicit Types (c : Cache T D) (b : CacheBlk D) (q p : Packet).

(** The answer of the block [pb] when its line is dirty. *)
Lemma snoop_answer c pb a b v q p sh : cache_ok k world c -> addr_ok a -> blk_in k world c pb a b v -> Z.of_nat (length v) = 2 ^ k ->
  p_addr q = align k a -> p_size q = 2 ^ k -> p_cmd q ∈ miss_cmds -> snoop_packet q p sh false v ->
  (if cmd_hasData (responseCommand (p_cmd q)) then exists f, p_data q = Some f /\ Z.of_nat (length f) = 2 ^ k else p_data q = None) ->
  isInvalidate q || sh = true ->
  exists p', (pkt ← setCacheResponding p;
     b ← get_blk c (TagBlk pb);
     pkt ← (if negb (isClean pkt) && isWritable b then setResponderHadWritable pkt else Ok pkt);
     assert! negb (negb (isInvalidate q) && negb (hasSharers pkt)) ;;
     pkt ← makeResponse pkt;
     if hasData pkt then d ← get_data c (TagBlk pb); setDataFromBlock pkt d (c_blkSize c) else Ok pkt) = Ok p' /\
     p_cmd p' = responseCommand (p_cmd q) /\ snoop_packet q (with_cmd (p_cmd q) p') sh true v.
Proof.
  intros Hc Ha (H1 & _ & _ & _ & H5) Hl Hpa Hps Hcmd [S1 S2 S3 S4 S5] Hd Hinv. pose proof (bt_k _ _ (co_tags _ _ _ Hc)) as Hk.
  specialize (S4 eq_refl). cbn [andb] in S5. rewrite S5 in S1. generalize dependent (p_flags p). intros f ->.
  unfold hasSharers, cacheResponding, responderHadWritable in S2, S3, S4. cbn [with_flags p_flags] in S2, S3, S4.
  assert (isRequest q = true /\ needsResponse q = true /\ isClean q = false) as (Hrq & Hnr & Hcl).
  { unfold miss_cmds in Hcmd. rewrite !elem_of_cons, elem_of_nil in Hcmd.
    destruct Hcmd as [E|[E|[E|[E|[E|[E|[]]]]]]]; by on_cmd E. }
  unfold isRequest, needsResponse, isClean in *.
  unfold setCacheResponding, isRequest. cbn [with_flags with_data p_cmd p_flags get_blk]. rewrite Hrq, S3, H1. cbn [negb mbind res_bind].
  unfold isClean, add_flags. cbn [with_flags with_data p_cmd p_flags]. rewrite Hcl. cbn [negb andb].
  set (f1 := set_flags f CACHE_RESPONDING).
  assert (exists f2, (if isWritable b then setResponderHadWritable (with_flags f1 (with_flags f (with_data (p_data q) q)))
      else Ok (with_flags f1 (with_flags f (with_data (p_data q) q)))) = Ok (with_flags f2 q) /\
    isSet f2 HAS_SHARERS = sh /\ isSet f2 CACHE_RESPONDING = true) as (f2 & -> & F1 & F2).
  { assert (with_flags f1 (with_flags f (with_data (p_data q) q)) = with_flags f1 q) as -> by (by destruct q).
    assert (isSet f1 HAS_SHARERS = sh /\ isSet f1 CACHE_RESPONDING = true /\ isSet f1 RESPONDER_HAD_WRITABLE = false) as (G1 & G2 & G3).
    { unfold f1. flags. rewrite S2, S3, S4. by rewrite orb_false_r. }
    destruct (isWritable b); [|by exists f1]. unfold setResponderHadWritable, cacheResponding, responderHadWritable, add_flags.
    cbn [with_flags p_flags]. rewrite G2, G3. cbn [negb mbind res_bind]. eexists. split; [by destruct q|]. flags. rewrite G1, G2. by rewrite orb_false_r. }
  cbn [mbind res_bind].
  assert (negb (negb (isInvalidate q) && negb (hasSharers (with_flags f2 q))) = true) as ->.
  { unfold hasSharers. cbn [with_flags p_flags]. rewrite F1. by destruct (isInvalidate q), sh. }
  unfold makeResponse, needsResponse, isRequest. cbn [with_flags p_cmd]. rewrite Hnr, Hrq. cbn [mbind res_bind].
  set (f3 := clear_flags 32 f2 EXPRESS_SNOOP).
  assert (drop_flags EXPRESS_SNOOP (with_cmd (responseCommand (p_cmd q)) (with_flags f2 q)) = with_flags f3 (with_cmd (responseCommand (p_cmd q)) q)) as -> by done.
  assert (isSet f3 HAS_SHARERS = sh /\ isSet f3 CACHE_RESPONDING = true) as [F3 F4] by (unfold f3; flags; done).
  unfold hasData. cbn [with_flags with_cmd p_cmd].
  destruct (cmd_hasData (responseCommand (p_cmd q))) eqn:Ehd.
  - destruct Hd as (g & Hg & Hgl). cbn [get_data]. rewrite H5. cbn [mbind res_bind]. rewrite (co_blkSize _ _ _ Hc).
    assert (align k a mod 2 ^ k = 0) as Hm by (unfold align; apply Z.mod_mul, Z.pow_nonzero; lia).
    rewrite (setDataFromBlock_Ok _ v k g); cbn [with_flags with_cmd p_addr p_data p_size]; rewrite ?Hpa, ?Hps, ?Hm; try done; try lia;
      [|by apply align_ok; [lia|]].
    rewrite get_bytes_all by done. eexists. split; [reflexivity|]. split; [done|].
    split; cbn [with_data with_flags with_cmd p_flags p_data p_cmd]; try done; try (by destruct q);
      unfold hasRespData; by rewrite Ehd.
  - eexists. split; [reflexivity|]. split; [done|]. split; cbn [with_data with_flags with_cmd p_flags p_data p_cmd]; try done; try (by destruct q);
      unfold hasRespData; by rewrite Ehd.
Qed.
(** The ports: the cache's own state is [getc s]; nothing above answers. *)
Section Ports.
Context {S : Type} (getc : S -> res (Cache T D)) (putc : Cache T D -> S -> res S).
Context (sendAtomic sendAtomicSnoop : Packet -> S -> res (Packet * S)) (e : Env).
Context (s : S) (c : Cache T D) (q p : Packet) (a : Z) (cmd : MemCmd) (r : Request) (sh rd : bool) (v : list Z).
Hypotheses (Hget : getc s = Ok c) (Hput : putc c s = Ok s) (Hputs : forall c', exists s', putc c' s = Ok s')
  (Hup : forall pkt, sendAtomicSnoop pkt s = Ok (pkt, s))
  (Hc : cache_ok k world c) (Ha : addr_ok a) (Hrange : inRange c (align k a) = true)
  (Hq : bus_packet k world q a cmd r) (Hcmd : cmd ∈ miss_cmds) (Hun : req_isUncacheable r = false)
  (Hp : snoop_packet q p sh rd v)
  (Hdirty : forall L, cline k world c a = Some L -> l_d L = true -> rd = false /\ l_v L = v).

Let invalidate := cmd_isInvalidate cmd.

(** The block of the line sees the snoop. *)
Lemma snoop_block_ok pb b u : blk_in k world c pb a b u -> Z.of_nat (length u) = 2 ^ k ->
  exists p' c' s', snoop_block getc putc sendAtomic sendAtomicSnoop e invalidate (cmd_needsWritable cmd) p (Some (TagBlk pb)) s = Ok (p', s') /\
    putc c' s = Ok s' /\ cache_ok k world c' /\ upd k world c c' a /\
    cline k world c' a = snooped_line cmd (Some (line_state b u)) /\
    p_cmd p' = (if isDirty b then responseCommand cmd else cmd) /\
    snoop_packet q (with_cmd cmd p') (sh || negb invalidate) (rd || isDirty b) v.
Proof.
  intros Hb Hl. pose proof Hb as (H1 & H2 & _). pose proof (bp_cmd _ _ _ _ _ _ Hq) as Ec.
  pose proof (blk_in_cline k world c pb a b u Hc Ha Hb) as Hcl.
  assert (p_cmd p = cmd /\ p_req p = r) as [Epc Epr] by (rewrite (sp_same _ _ _ _ _ Hp); cbn; rewrite (bp_req _ _ _ _ _ _ Hq); done).
  destruct (co_blk _ _ _ Hc pb b H1 H2) as (_ & Hro & _).
  unfold snoop_block. rewrite Hget. cbn [mbind res_bind ptr_valid get_blk]. rewrite H1. cbn [mbind res_bind]. rewrite H2.
  assert (isClean p = false /\ mustCheckAbove p = false /\ needsResponse p = true /\
    (invalidate = false -> cmd_needsWritable cmd = false /\ isRead p = true)) as (-> & Hmca & Hnr & Hrd).
  { unfold invalidate. unfold miss_cmds in Hcmd. rewrite !elem_of_cons, elem_of_nil in Hcmd.
    destruct Hcmd as [E|[E|[E|[E|[E|[E|[]]]]]]]; rewrite E in *; on_cmd Epc; by split_and!. }
  cbn [negb mbind res_bind]. rewrite Hnr, andb_true_r.
  assert (negb (isReadOnly (params c) && isDirty b) = true) as -> by (destruct (isReadOnly (params c)); [by rewrite Hro|done]).
  cbn [mbind res_bind]. rewrite Hmca, Hget. cbn [mbind res_bind]. rewrite Epr, Hun.
  assert (exists c1 b1 p1, (if isRead p && negb invalidate then
      assert! negb (cmd_needsWritable cmd) ;; c ← (if negb false then status_clear c (TagBlk pb) BlkWritable else Ok c); Ok (setHasSharers p, c)
      else Ok (p, c)) = Ok (p1, c1) /\ cache_ok k world c1 /\ blk_in k world c1 pb a b1 u /\ upd k world c c1 a /\
    isDirty b1 = isDirty b /\ (invalidate = false -> isWritable b1 = false) /\ snoop_packet q p1 (sh || negb invalidate) rd v /\ p_cmd p1 = cmd)
    as (c1 & b1 & p1 & -> & Hc1 & Hb1 & Hu1 & Hd1 & Hw1 & Hp1 & Ep1).
  { destruct invalidate eqn:Ei; cbn [negb].
    - rewrite andb_false_r, orb_false_r. exists c, b, p. by split_and!.
    - destruct (Hrd eq_refl) as [-> ->]. cbn [andb negb mbind res_bind].
      destruct (status_clear_ok k world c pb a b u BlkWritable Hc Hb) as (c1 & -> & Hc1 & Hb1 & Hu1); [done..|]. cbn [mbind res_bind].
      eexists c1, _, (setHasSharers p). split; [reflexivity|]. split; [done|]. split; [exact Hb1|]. split; [done|].
      rewrite isWritable_bit, !isDirty_bit. cbn [with_status status]. rewrite !Z.land_spec.
      change (Z.testbit (u32 (Z.lnot BlkWritable)) 3) with true. change (Z.testbit (u32 (Z.lnot BlkWritable)) 1) with false.
      rewrite andb_true_r, (andb_false_r (Z.testbit _ 1)). split; [done|]. split; [done|]. split; [|done].
      destruct Hp as [S1 S2 S3 S4 S5]. rewrite orb_true_r. split.
      + rewrite S1. by destruct q.
      + apply hasSharers_sharers.
      + by rewrite cacheResponding_sharers.
      + by rewrite responder_sharers.
      + done. }
  cbn [mbind res_bind].
  assert (exists p2, (match isDirty b, Some (TagBlk pb) with
      | true, Some q => pkt ← setCacheResponding p1; b ← get_blk c1 q;
          pkt ← (if negb (isClean pkt) && isWritable b then setResponderHadWritable pkt else Ok pkt);
          assert! negb (negb invalidate && negb (hasSharers pkt)) ;;
          pkt ← makeResponse pkt;
          if hasData pkt then d ← get_data c1 q; setDataFromBlock pkt d (c_blkSize c1) else Ok pkt
      | _, _ => Ok p1 end) = Ok p2 /\ p_cmd p2 = (if isDirty b then responseCommand cmd else cmd) /\
      snoop_packet q (with_cmd cmd p2) (sh || negb invalidate) (rd || isDirty b) v) as (p2 & Hans & Ep2 & Hp2).
  { destruct (isDirty b) eqn:Ed; [|exists p1; rewrite orb_false_r, <- Ep1; split_and!; try done; by destruct p1].
    destruct (Hdirty _ Hcl Ed) as [-> Ev]. cbn [line_state l_v] in Ev. rewrite Ev in *.
    destruct (snoop_answer c1 pb a b1 v q p1 (sh || negb invalidate) Hc1 Ha Hb1 Hl) as (p2 & E & Ep2 & Hp2); rewrite ?Ec; try done; try apply Hq.
    - unfold isInvalidate. rewrite Ec. fold invalidate. by destruct invalidate; rewrite ?orb_true_r.
    - unfold isInvalidate in E. rewrite Ec in *. exists p2. split; [exact E|]. by split. }
  cbn [get_blk] in Hans. rewrite Hans. cbn [mbind res_bind andb].
  assert (exists c3, (if invalidate then c_invalidateBlock c1 (TagBlk pb) else Ok c1) = Ok c3 /\ cache_ok k world c3 /\ upd k world c c3 a /\
    cline k world c3 a = snooped_line cmd (Some (line_state b u))) as (c3 & -> & Hc3 & Hu3 & Hl3).
  { unfold snooped_line. fold invalidate. destruct invalidate eqn:Ei.
    - destruct (c_invalidateBlock_ok k world c1 pb a b1 u Hc1 Ha Hb1) as (c3 & -> & Hc3 & Hn & Hu3 & _).
      exists c3. split_and!; try done. by eapply upd_trans.
    - exists c1. split_and!; try done. rewrite (blk_in_cline k world c1 pb a b1 u Hc1 Ha Hb1). unfold line_state. by rewrite Hd1, Hw1. }
  cbn [mbind res_bind]. destruct (Hputs c3) as [s' Hs']. rewrite Hs'. cbn [mbind res_bind]. by exists p2, c3, s'.
Qed.

Lemma recvAtomicSnoop_ok :
  exists p' c' s', recvAtomicSnoop getc putc sendAtomic sendAtomicSnoop e p s = Ok (p', s') /\
    putc c' s = Ok s' /\ cache_ok k world c' /\ upd k world c c' a /\
    cline k world c' a = snooped_line cmd (cline k world c a) /\
    p_cmd p' = (if line_dirty (cline k world c a) then responseCommand cmd else cmd) /\
    snoop_packet q (with_cmd cmd p') (sh || line_present (cline k world c a) && negb invalidate)
      (rd || line_dirty (cline k world c a)) v.
Proof.
  pose proof (bt_k _ _ (co_tags _ _ _ Hc)) as Hk. pose proof (bp_cmd _ _ _ _ _ _ Hq) as Ec.
  assert (p_cmd p = cmd /\ p_req p = r /\ p_addr p = align k a /\ p_isSecure p = world (align k a)) as (Epc & Epr & Epa & Eps).
  { rewrite (sp_same _ _ _ _ _ Hp). cbn. by destruct Hq. }
  unfold recvAtomicSnoop. rewrite Hget. cbn [mbind res_bind]. rewrite Epa, Eps, Hrange. cbn [negb].
  assert (forall o, handleSnoop getc putc sendAtomic sendAtomicSnoop e p o s =
    snoop_block getc putc sendAtomic sendAtomicSnoop e invalidate (cmd_needsWritable cmd) p o s) as Hhs.
  { intros o. unfold handleSnoop, needsWritable, isInvalidate. rewrite Epr, Hun, andb_false_r.
    assert (isRequest p = true) as ->.
    { unfold miss_cmds in Hcmd. rewrite !elem_of_cons, elem_of_nil in Hcmd.
      destruct Hcmd as [E|[E|[E|[E|[E|[E|[]]]]]]]; rewrite E in *; by on_cmd Epc. }
    cbn [mbind res_bind negb]. rewrite Hget, Epc. cbn [mbind res_bind]. fold invalidate. destruct (forwardSnoops (params c)); [|done].
    rewrite Hup. cbn [mbind res_bind]. by destruct (cacheResponding p). }
  pose proof (align_ok k a ltac:(lia) Ha) as Ha'.
  destruct (bt_find_ok k (tags c) (align k a) (world (align k a)) (co_tags _ _ _ Hc) Ha') as (o & Hf & _).
  rewrite Hf. cbn [mbind res_bind]. rewrite Hhs. rewrite <- (align_idem k a) in Hf at 2 by lia.
  pose proof (find_blk_in k world c _ o Hc Ha' Hf) as Ho. destruct o as [pb|]; cbn [fmap option_fmap option_map].
  - destruct Ho as (b & u & Hb & Hl). assert (blk_in k world c pb a b u) as Hb' by (unfold blk_in in *; by rewrite align_idem in Hb by lia).
    rewrite (blk_in_cline k world c pb a b u Hc Ha Hb'). by apply snoop_block_ok.
  - destruct Ho as [Hn _]. rewrite (cline_align k world c a Hc Ha) in Hn. rewrite Hn. cbn [line_dirty line_present andb snooped_line].
    rewrite !orb_false_r. unfold snoop_block. rewrite Hget. cbn [mbind res_bind ptr_valid].
    assert (isClean p = false) as ->.
    { unfold miss_cmds in Hcmd. rewrite !elem_of_cons, elem_of_nil in Hcmd.
      destruct Hcmd as [E|[E|[E|[E|[E|[E|[]]]]]]]; rewrite E in *; by on_cmd Epc. }
    cbn [negb mbind res_bind]. exists p, c, s. split_and!; try done. rewrite <- Epc. by destruct p.
Qed.
End Ports.

End Snoop.
