(* ===== verification/CohFilter.v ===== *)
(** What the snoop filter knows: the ports it reports for a line are those it
    has noted as holders, and how each operation changes them. *)
From S2P Require Import Prelude CacheBlk TagStore MemPacket SnoopFilter CohLine CohFill CohHit CohMiss CohSnoop CohSystem.

(** * Masks *)

Lemma mask_out_bit v i j : 0 <= v < 2 ^ 64 -> 0 <= i -> 0 <= j ->
  Z.testbit (mask_out v (2 ^ i)) j = Z.testbit v j && negb (i =? j).
Proof.
  intros Hv Hi Hj. unfold mask_out. rewrite Z.land_spec. destruct (Z.ltb_spec j 64).
  - rewrite testbit_wrap_u, Z.lnot_spec, Z.pow2_bits_eqb by lia. by rewrite (proj2 (Z.ltb_lt j 64)).
  - by rewrite (testbit_above 64 v j).
Qed.

Lemma mask_out_range v m : 0 <= v < 2 ^ 64 -> 0 <= mask_out v m < 2 ^ 64.
Proof.
  intros Hv. unfold mask_out. assert (0 <= Z.land v (u64 (Z.lnot m))) by (apply Z.land_nonneg; lia).
  split; [done|]. apply testbit_bound; [done|lia|]. intros i Hi.
  by rewrite Z.land_spec, (testbit_above 64 v i).
Qed.

Lemma lor_pow2_range v i : 0 <= v < 2 ^ 64 -> 0 <= i < 64 -> 0 <= Z.lor v (2 ^ i) < 2 ^ 64.
Proof.
  intros Hv Hi. assert (0 <= Z.lor v (2 ^ i)) by (apply Z.lor_nonneg; lia).
  split; [done|]. apply testbit_bound; [done|lia|]. intros j Hj.
  rewrite Z.lor_spec, (testbit_above 64 v j), Z.pow2_bits_eqb by lia. by destruct (Z.eqb_spec i j); [lia|].
Qed.

(** * The invariant *)

(** Ports [0] to [n - 1] snoop; lines of [2 ^ k] bytes. *)
Record filter_ok (k n : Z) (f : SnoopFilter) : Prop := {
  fo_n : 0 <= n <= 64;
  fo_ports : sf_slavePorts f = seqZ 0 n;
  fo_ids : localSlavePortIds f = seqZ 0 n;
  fo_line : sf_linesize f = 2 ^ k;
  fo_item : forall l i, cachedLocations f !! l = Some i -> 0 <= requested i < 2 ^ 64 /\ 0 <= holder i < 2 ^ 64 }.

Definition item (f : SnoopFilter) (l : Z) : SnoopItem := default SnoopItem_new (cachedLocations f !! l).

(** Port [j] may hold line [l]. *)
Definition held (f : SnoopFilter) (l j : Z) : bool := Z.testbit (holder (item f l)) j.

(** Entries of other lines are unchanged. *)
Definition only_line (f f' : SnoopFilter) (l : Z) : Prop := forall l', l' <> l -> item f' l' = item f l'.

Section Filter.
Context (k n : Z) (Hk : 2 <= k < 32).
Implicit Types (f : SnoopFilter) (q : Packet).

Lemma item_range f l : filter_ok k n f -> 0 <= requested (item f l) < 2 ^ 64 /\ 0 <= holder (item f l) < 2 ^ 64.
Proof. intros Hf. unfold item. destruct (cachedLocations f !! l) eqn:E; [by eapply fo_item|done]. Qed.

Lemma portToMask_ok f j : filter_ok k n f -> 0 <= j < n -> portToMask all_snoop f j = Ok (2 ^ j).
Proof.
  intros Hf Hj. pose proof (fo_n _ _ _ Hf). unfold portToMask, InvalidPortID. rewrite (proj2 (Z.eqb_neq j (-1))) by lia.
  cbn [negb all_snoop]. rewrite (fo_ids _ _ _ Hf), (aread_Ok _ _ j) by (try lia; apply lookup_seqZ; lia).
  cbn [mbind res_bind]. rewrite (proj2 (Z.leb_le 0 j)), (proj2 (Z.ltb_lt j 64)) by lia. cbn [andb]. by rewrite Z.shiftl_1_l.
Qed.

Lemma maskToPortList_ok f m : filter_ok k n f -> 0 <= m ->
  maskToPortList all_snoop f m = Ok (filter (fun j => Z.testbit m j = true) (seqZ 0 n)).
Proof.
  intros Hf Hm. unfold maskToPortList. rewrite (fo_ports _ _ _ Hf).
  assert (forall l, (forall j, j ∈ l -> 0 <= j < n) -> mask_ports all_snoop f m l = Ok (filter (fun j => Z.testbit m j = true) l)) as H.
  { induction l as [|j l IH]; intros Hl; [done|]. cbn [mask_ports].
    rewrite portToMask_ok by (done || apply Hl; set_solver). cbn [mbind res_bind]. rewrite IH by (intros; apply Hl; set_solver).
    cbn [mbind res_bind]. rewrite land_pow2 by (apply Hl; set_solver). rewrite filter_cons.
    destruct (Z.testbit m j); [by rewrite decide_True|by rewrite decide_False]. }
  apply H. intros j Hj. apply elem_of_seqZ in Hj. lia.
Qed.

(** ** The key of a line *)

Definition key (a : Z) (sec : bool) : Z := if sec then Z.lor (align k a) 1 else align k a.

Lemma line_of_eq f a sec : filter_ok k n f -> addr_ok a -> line_of f a sec = key a sec.
Proof.
  intros Hf Ha. unfold line_of, key. rewrite (fo_line _ _ _ Hf). pose proof (Z.pow_le_mono_r 2 k 31 ltac:(lia) ltac:(lia)).
  pose proof (pow2_pos k ltac:(lia)). rewrite (wrap_u_id 32) by lia. by rewrite land_align.
Qed.

Lemma key_inj a a' sec sec' : key a sec = key a' sec' -> align k a = align k a'.
Proof.
  assert (forall a sec, Z.shiftr (key a sec) k = a / 2 ^ k) as H.
  { intros b s. unfold key, align. destruct s; rewrite ?Z.shiftr_lor, !Z.shiftr_div_pow2, Z.div_mul by (try apply Z.pow_nonzero; lia); [|done].
    rewrite (Z.div_small 1) by (split; [lia|]; apply Z.pow_gt_1; lia). apply Z.lor_0_r. }
  intros E. unfold align. by rewrite <- (H a sec), E, H.
Qed.

(** ** Changing an entry *)

Lemma with_locations_ok f l i : filter_ok k n f -> 0 <= requested i < 2 ^ 64 -> 0 <= holder i < 2 ^ 64 ->
  let f' := with_locations f (<[l := i]> (cachedLocations f)) in
  filter_ok k n f' /\ item f' l = i /\ only_line f f' l.
Proof.
  intros Hf Hr Hh f'. unfold f', item, only_line. cbn [with_locations cachedLocations]. split; [|split].
  - split; try apply Hf; cbn [with_locations cachedLocations]. intros l' i'. destruct (decide (l' = l)) as [->|Hne].
    + rewrite lookup_insert_eq. by intros [= <-].
    + rewrite lookup_insert_ne by done. by apply Hf.
  - by rewrite lookup_insert_eq.
  - intros l' Hne. unfold item. cbn [with_locations cachedLocations]. by rewrite lookup_insert_ne.
Qed.

Lemma eraseIfNull_ok f l i : filter_ok k n f -> cachedLocations f !! l = Some i ->
  exists f', eraseIfNullEntry f l = Ok f' /\ filter_ok k n f' /\ item f' l = i /\ only_line f f' l.
Proof.
  intros Hf Hl. unfold eraseIfNullEntry. rewrite Hl. destruct (fo_item _ _ _ Hf l i Hl) as [Hr Hh].
  assert (item f l = i) as Hi by (unfold item; by rewrite Hl).
  destruct (Z.eqb_spec (Z.lor (requested i) (holder i)) 0) as [E|E]; [|by exists f].
  apply Z.lor_eq_0_iff in E as [E1 E2]. eexists. split; [done|]. split; [|split].
  - split; try apply Hf; cbn [with_locations cachedLocations]. intros l' i'. rewrite lookup_delete_Some. intros [_ ?]. by eapply Hf.
  - unfold item. cbn [with_locations cachedLocations]. rewrite lookup_delete_eq. cbn. destruct i. by cbn in *; subst.
  - intros l' Hne. unfold item. cbn [with_locations cachedLocations]. by rewrite lookup_delete_ne.
Qed.
Lemma item_Some f l : item f l <> SnoopItem_new -> cachedLocations f !! l = Some (item f l).
Proof. unfold item. by destruct (cachedLocations f !! l). Qed.

Lemma with_lookup_ok f o i : filter_ok k n f -> filter_ok k n (with_lookup f o i).
Proof. intros Hf. by split; apply Hf. Qed.

Lemma only_line_trans f1 f2 f3 l : only_line f1 f2 l -> only_line f2 f3 l -> only_line f1 f3 l.
Proof. intros H1 H2 l' Hne. by rewrite H2, H1. Qed.

(** ** The operations *)

Section Request.
Context (f : SnoopFilter) (q : Packet) (i a : Z) (sec : bool).
Hypotheses (Hf : filter_ok k n f) (Hi : 0 <= i < n) (Ha : addr_ok a) (Hqa : p_addr q = a) (Hqs : p_isSecure q = sec)
  (Hun : req_isUncacheable (p_req q) = false).
Let l := key a sec.

(** A request that the filter tracks: the ports to snoop and the new entry;
    [it'], the entry after [note_request]. *)
Lemma lookup_note it' : fromCache q = true -> note_request q (2 ^ i) (item f l) = Ok it' ->
  0 <= requested it' < 2 ^ 64 -> 0 <= holder it' < 2 ^ 64 ->
  exists dests f1 f2, lookupRequest all_snoop q i f = Ok (dests, f1) /\
    finishRequest false (p_addr q) (p_isSecure q) f1 = Ok f2 /\ filter_ok k n f2 /\ only_line f f2 l /\ item f2 l = it' /\
    NoDup dests /\ forall j, j ∈ dests <-> 0 <= j < n /\ j <> i /\ Z.testbit (Z.lor (holder (item f l)) (requested (item f l))) j = true.
Proof.
  intros Hfc Hnote Hr Hh. unfold lookupRequest. rewrite Hun, Hfc, Hqa, Hqs, (line_of_eq f a sec Hf Ha). fold l. cbn [negb andb all_snoop].
  rewrite portToMask_ok by done. cbn [mbind res_bind]. rewrite andb_false_r.
  change (default SnoopItem_new (cachedLocations f !! l)) with (item f l). destruct (item_range f l Hf) as [R1 R2].
  set (f0 := with_lookup _ _ _).
  destruct (with_locations_ok f l (item f l) Hf R1 R2) as (Hf0 & Hi0 & Ho0).
  assert (filter_ok k n f0) as Hf0' by (by apply with_lookup_ok).
  assert (0 <= Z.lor (holder (item f l)) (requested (item f l)) < 2 ^ 64) as Hlor.
  { assert (0 <= Z.lor (holder (item f l)) (requested (item f l))) by (apply Z.lor_nonneg; lia). split; [done|].
    apply testbit_bound; [done|lia|]. intros j Hj. by rewrite Z.lor_spec, !(testbit_above 64). }
  rewrite maskToPortList_ok by (try done; apply mask_out_range; done). cbn [mbind res_bind]. rewrite Hnote. cbn [mbind res_bind].
  destruct (with_locations_ok f0 l it' Hf0' Hr Hh) as (Hf1 & Hi1 & Ho1). set (f1 := with_locations f0 _) in *.
  assert (reqLookupResult f1 = Some l) as Hrl by done.
  assert (cachedLocations f1 !! l = Some it') as Hl1 by (unfold f1; cbn; by rewrite lookup_insert_eq).
  destruct (eraseIfNull_ok f1 l it' Hf1 Hl1) as (f2 & He & Hf2 & Hi2 & Ho2).
  eexists _, f1, f2. split; [done|]. split; [unfold finishRequest; rewrite Hrl, (line_of_eq f1 a sec Hf1 Ha); fold l; by rewrite Z.eqb_refl|].
  split; [done|]. split; [eapply only_line_trans; [|exact Ho2]; eapply only_line_trans; [|exact Ho1]; exact Ho0|]. split; [done|].
  split; [apply NoDup_filter, NoDup_seqZ|]. intros j. rewrite list_elem_of_filter, elem_of_seqZ.
  split.
  - intros [Hj Hjn]. rewrite mask_out_bit in Hj by lia. apply andb_true_iff in Hj as [? Hne]. split; [lia|]. split; [|done].
    intros ->. by rewrite Z.eqb_refl in Hne.
  - intros (Hj & Hne & Hb). split; [|lia]. rewrite mask_out_bit, Hb by lia. by destruct (Z.eqb_spec i j).
Qed.

(** The request of a miss. *)
Lemma lookup_miss_ok : p_cmd q ∈ miss_cmds -> p_flags q = 0 -> requested (item f l) = 0 ->
  exists dests f1 f2, lookupRequest all_snoop q i f = Ok (dests, f1) /\
    finishRequest false (p_addr q) (p_isSecure q) f1 = Ok f2 /\ filter_ok k n f2 /\ only_line f f2 l /\
    item f2 l = {| requested := 2 ^ i; holder := holder (item f l) |} /\
    NoDup dests /\ forall j, j ∈ dests <-> 0 <= j < n /\ j <> i /\ held f l j = true.
Proof.
  intros Hcmd Hfl Hreq. pose proof (fo_n _ _ _ Hf).
  assert (fromCache q = true /\ needsResponse q = true) as [Hfc Hnr].
  { unfold miss_cmds in Hcmd. rewrite !elem_of_cons, elem_of_nil in Hcmd.
    destruct Hcmd as [E|[E|[E|[E|[E|[E|[]]]]]]]; by on_cmd E. }
  destruct (lookup_note {| requested := 2 ^ i; holder := holder (item f l) |} Hfc) as (dests & f1 & f2 & H1 & H2 & H3 & H4 & H5 & H6 & H7).
  - unfold note_request, cacheResponding. rewrite Hnr, Hfl, Hreq. cbn [isSet Z.land Z.eqb negb]. done.
  - cbn. split; [lia|]. apply Z.pow_lt_mono_r; lia.
  - apply (item_range f l Hf).
  - exists dests, f1, f2. split_and!; try done. intros j. rewrite H7. unfold held. by rewrite Hreq, Z.lor_0_r.
Qed.

(** A line given up. *)
Lemma lookup_evict_ok : isEviction q = true -> fromCache q = true -> needsResponse q = false -> isBlockCached q = false ->
  held f l i = true ->
  exists dests f1 f2, lookupRequest all_snoop q i f = Ok (dests, f1) /\
    finishRequest false (p_addr q) (p_isSecure q) f1 = Ok f2 /\ filter_ok k n f2 /\ only_line f f2 l /\
    item f2 l = {| requested := requested (item f l); holder := mask_out (holder (item f l)) (2 ^ i) |}.
Proof.
  intros Hev Hfc Hnr Hbc Hheld. destruct (item_range f l Hf) as [R1 R2].
  destruct (lookup_note {| requested := requested (item f l); holder := mask_out (holder (item f l)) (2 ^ i) |} Hfc) as (dests & f1 & f2 & H1 & H2 & H3 & H4 & H5 & _).
  - unfold note_request. rewrite Hnr, Hev, Hbc, land_pow2 by lia. unfold held in Hheld. by rewrite Hheld.
  - done.
  - by apply mask_out_range.
  - by exists dests, f1, f2.
Qed.
End Request.

(** Port [j] answers a request of port [i]. *)
Lemma updateSnoopResponse_ok f p i j a sec h : filter_ok k n f -> 0 <= i < n -> 0 <= j < n -> addr_ok a ->
  p_addr p = a -> p_isSecure p = sec -> req_isUncacheable (p_req p) = false -> isResponse p = true -> cacheResponding p = true ->
  isWriteback p = false -> item f (key a sec) = {| requested := 2 ^ i; holder := h |} -> Z.testbit h j = true ->
  exists f', updateSnoopResponse all_snoop p j i f = Ok f' /\ filter_ok k n f' /\ only_line f f' (key a sec) /\
    item f' (key a sec) = {| requested := 0; holder := Z.lor (if hasSharers p then h else 0) (2 ^ i) |}.
Proof.
  intros Hf Hi Hj Ha <- <- Hun Hrs Hcr Hwb Hit Hbit. pose proof (fo_n _ _ _ Hf). unfold updateSnoopResponse.
  rewrite Hrs, Hcr, Hun, Hwb. cbn [orb all_snoop negb]. rewrite (line_of_eq f) by done. set (l := key (p_addr p) (p_isSecure p)) in *.
  rewrite !portToMask_ok by done. cbn [mbind res_bind]. fold (item f l). rewrite Hit. cbn [requested holder].
  destruct (item_range f l Hf) as [R1 R2]. rewrite Hit in R1, R2. cbn [requested holder] in R1, R2.
  rewrite !land_pow2 by lia. rewrite Hbit, Z.pow2_bits_true by lia.
  assert (mask_out (2 ^ i) (2 ^ i) = 0) as ->.
  { apply bits_ext. intros b Hb. rewrite mask_out_bit, Z.pow2_bits_eqb, Z.bits_0 by lia. by destruct (i =? b). }
  rewrite Z.lor_0_l. set (h' := Z.lor (if negb (hasSharers p) then 0 else h) (2 ^ i)).
  assert (0 <= h' < 2 ^ 64) as Hh' by (apply lor_pow2_range; [by destruct (hasSharers p)|lia]).
  assert (negb (h' =? 0) = true) as ->.
  { apply negb_true_iff, Z.eqb_neq. intros E. apply Z.lor_eq_0_iff in E as [_ E]. by apply Z.pow_nonzero in E; [|lia..]. }
  destruct (with_locations_ok f l {| requested := 0; holder := h' |} Hf) as (Hf' & Hi' & Ho'); [cbn; lia|done|].
  eexists. split; [done|]. split; [done|]. split; [done|]. rewrite Hi'. unfold h'. by destruct (hasSharers p).
Qed.

(** Memory, or the crossbar, answers a request of port [i]. *)
Lemma updateResponse_ok f p i a sec h : filter_ok k n f -> 0 <= i < n -> addr_ok a ->
  p_addr p = a -> p_isSecure p = sec -> req_isUncacheable (p_req p) = false -> req_isCacheMaintenance (p_req p) = false ->
  isResponse p = true -> item f (key a sec) = {| requested := 2 ^ i; holder := h |} ->
  exists f', updateResponse all_snoop p i f = Ok f' /\ filter_ok k n f' /\ only_line f f' (key a sec) /\
    item f' (key a sec) = {| requested := 0; holder := Z.lor h (2 ^ i) |}.
Proof.
  intros Hf Hi Ha <- <- Hun Hcm Hrs Hit. pose proof (fo_n _ _ _ Hf). unfold updateResponse.
  rewrite Hrs, Hun, Hcm. cbn [orb all_snoop negb]. rewrite (line_of_eq f) by done. set (l := key (p_addr p) (p_isSecure p)) in *.
  assert (item f l <> SnoopItem_new) as Hne.
  { rewrite Hit. intros [= E _]. by apply Z.pow_nonzero in E; [|lia..]. }
  rewrite (item_Some f l Hne), portToMask_ok by done. cbn [mbind res_bind]. rewrite Hit. cbn [requested holder].
  rewrite land_pow2, Z.pow2_bits_true by lia.
  destruct (item_range f l Hf) as [R1 R2]. rewrite Hit in R1, R2. cbn [requested holder] in R1, R2.
  assert (mask_out (2 ^ i) (2 ^ i) = 0) as ->.
  { apply bits_ext. intros b Hb. rewrite mask_out_bit, Z.pow2_bits_eqb, Z.bits_0 by lia. by destruct (i =? b). }
  rewrite Z.lor_0_r. pose proof (lor_pow2_range h i R2 ltac:(lia)) as Hh'.
  assert (negb (Z.lor h (2 ^ i) =? 0) = true) as ->.
  { apply negb_true_iff, Z.eqb_neq. intros E. apply Z.lor_eq_0_iff in E as [_ E]. by apply Z.pow_nonzero in E; [|lia..]. }
  destruct (with_locations_ok f l {| requested := 0; holder := Z.lor h (2 ^ i) |} Hf) as (Hf' & Hi' & Ho'); [cbn; lia|done|].
  eexists. split; [done|]. split; [done|]. by split.
Qed.

End Filter.
