(* ===== verification/CohMem.v ===== *)
(** The lines of the memory below the crossbar, and how it serves the packets
    that reach it. *)
From S2P Require Import Prelude AddrRange CacheBlk TagStore MemPacket Cache AbstractMem CohLine CohFill CohHit CohMiss CohSnoop.

(** * Pieces of a byte string *)

Lemma get_put_same l o v : 0 <= o -> o + Z.of_nat (length v) <= Z.of_nat (length l) ->
  get_bytes (put_bytes l o v) o (Z.of_nat (length v)) = v.
Proof.
  intros Ho Hl. unfold get_bytes, put_bytes. rewrite drop_app_length' by (rewrite length_take; lia).
  rewrite Nat2Z.id. by rewrite take_app_length.
Qed.

Lemma put_bytes_lookup l o v (i : nat) : 0 <= o -> o + Z.of_nat (length v) <= Z.of_nat (length l) ->
  put_bytes l o v !! i = if decide (o <= Z.of_nat i < o + Z.of_nat (length v)) then v !! (i - Z.to_nat o)%nat else l !! i.
Proof.
  intros Ho Hl. unfold put_bytes. destruct (decide (Z.of_nat i < o)) as [H|H].
  - rewrite lookup_app_l by (rewrite length_take; lia). rewrite lookup_take_lt by lia. by rewrite decide_False by lia.
  - rewrite lookup_app_r by (rewrite length_take; lia). rewrite length_take, Nat.min_l by lia.
    destruct (decide (Z.of_nat i < o + Z.of_nat (length v))) as [H1|H1].
    + rewrite decide_True by lia. by rewrite lookup_app_l by lia.
    + rewrite decide_False by lia. rewrite lookup_app_r by lia. rewrite lookup_drop. f_equal. lia.
Qed.

Lemma get_bytes_lookup l o n (i : nat) : 0 <= o -> 
  get_bytes l o n !! i = if decide (Z.of_nat i < n) then l !! (Z.to_nat o + i)%nat else None.
Proof.
  intros Ho. unfold get_bytes. destruct (decide (Z.of_nat i < n)).
  - rewrite lookup_take_lt by lia. apply lookup_drop.
  - by rewrite lookup_take_ge by lia.
Qed.

(** A piece of a piece. *)
Lemma get_get l o n o' n' : 0 <= o -> 0 <= o' -> o' + n' <= n ->
  get_bytes (get_bytes l o n) o' n' = get_bytes l (o + o') n'.
Proof.
  intros. apply list_eq. intros i. rewrite !get_bytes_lookup by lia. destruct (decide (Z.of_nat i < n')); [|done].
  rewrite decide_True by lia. f_equal. lia.
Qed.

(** Writing inside a piece. *)
Lemma get_put_in l o n o' v : 0 <= o -> 0 <= o' -> o' + Z.of_nat (length v) <= n -> o + n <= Z.of_nat (length l) ->
  get_bytes (put_bytes l (o + o') v) o n = put_bytes (get_bytes l o n) o' v.
Proof.
  intros. pose proof (get_bytes_length l o n ltac:(lia) ltac:(lia) ltac:(lia)). apply list_eq. intros i.
  rewrite get_bytes_lookup, (put_bytes_lookup (get_bytes l o n)) by lia.
  destruct (decide (Z.of_nat i < n)).
  - rewrite put_bytes_lookup, get_bytes_lookup by lia. repeat case_decide; try lia; [f_equal; lia|done].
  - rewrite get_bytes_lookup, !decide_False by lia. done.
Qed.

(** Writing outside a piece. *)
Lemma get_put_out l o n o' v : 0 <= o -> 0 <= o' -> o' + Z.of_nat (length v) <= Z.of_nat (length l) ->
  o + n <= o' \/ o' + Z.of_nat (length v) <= o -> get_bytes (put_bytes l o' v) o n = get_bytes l o n.
Proof.
  intros. apply list_eq. intros i. rewrite !get_bytes_lookup by lia. case_decide; [|done].
  rewrite put_bytes_lookup by lia. case_decide; [lia|done].
Qed.

(** * Memory *)

Section Memory.
(** Memory holds the whole lines from [lo] to [hi]. *)
Context (k lo hi : Z).

Record mem_bounds : Prop := {
  mb_k : 2 <= k < 32; mb_lo : 0 <= lo <= hi; mb_hi : hi < 2 ^ 64; mb_first : lo mod 2 ^ k = 0; mb_last : (hi + 1) mod 2 ^ k = 0 }.

Definition in_mem (a : Z) : Prop := lo <= a <= hi.

(** The line of [a] in the bytes [D]. *)
Definition line_at (D : list Z) (a : Z) : list Z := get_bytes D (align k a - lo) (2 ^ k).

Record mem_ok (m : AbstractMemory) (D : list Z) : Prop := {
  mo_range : m_range m = AddrRange_plain lo hi;
  mo_bytes : pmem m = Some D;
  mo_length : Z.of_nat (length D) = hi - lo + 1;
  mo_locks : lockedAddrList m = [] }.

Hypothesis B : mem_bounds.

Lemma in_mem_ok a : in_mem a -> addr_ok a.
Proof. destruct B. unfold in_mem, addr_ok. lia. Qed.

(** A line of memory is in memory. *)
Lemma line_in_mem a : in_mem a -> lo <= align k a /\ align k a + 2 ^ k <= hi + 1.
Proof.
  destruct B. unfold in_mem, align. intros Ha. pose proof (pow2_pos k ltac:(lia)) as H2.
  pose proof (Z.div_mod lo (2 ^ k) ltac:(lia)). pose proof (Z.div_mod (hi + 1) (2 ^ k) ltac:(lia)).
  pose proof (Z.div_mod a (2 ^ k) ltac:(lia)). pose proof (Z.mod_pos_bound a (2 ^ k) ltac:(lia)).
  assert (lo / 2 ^ k <= a / 2 ^ k) by (apply Z.div_le_mono; lia).
  assert (a / 2 ^ k < (hi + 1) / 2 ^ k) by (apply Z.div_lt_upper_bound; nia). nia.
Qed.

Lemma in_mem_align a : in_mem a -> in_mem (align k a).
Proof. intros Ha. pose proof (line_in_mem a Ha). pose proof (pow2_pos k ltac:(destruct B; lia)). unfold in_mem. lia. Qed.

Lemma line_at_length m D a : mem_ok m D -> in_mem a -> Z.of_nat (length (line_at D a)) = 2 ^ k.
Proof.
  intros Hm Ha. pose proof (line_in_mem a Ha). pose proof (pow2_pos k ltac:(destruct B; lia)). unfold line_at.
  apply get_bytes_length; rewrite ?(mo_length _ _ Hm); lia.
Qed.

(** Two different lines do not overlap. *)
Lemma lines_apart a a' : align k a' <> align k a -> align k a' + 2 ^ k <= align k a \/ align k a + 2 ^ k <= align k a'.
Proof.
  unfold align. intros Hne. pose proof (pow2_pos k ltac:(destruct B; lia)).
  assert (a' / 2 ^ k <> a / 2 ^ k) by congruence. nia.
Qed.

(** The address check of [access] on a packet of a whole line. *)
Lemma subset_line m D a : mem_ok m D -> in_mem a ->
  isSubset (AddrRange_plain (align k a) (u64 (align k a + u32 (2 ^ k - 1)))) (m_range m) = Ok true.
Proof.
  intros Hm Ha. pose proof (line_in_mem a Ha). pose proof (pow2_pos k ltac:(destruct B; lia)). destruct B.
  pose proof (Z.pow_le_mono_r 2 k 31 ltac:(lia) ltac:(lia)). rewrite (wrap_u_id 32), (wrap_u_id 64) by lia.
  rewrite (mo_range _ _ Hm). unfold isSubset, AddrRange_plain, interleaved. cbn [intlvBits _start _end Z.eqb negb].
  by rewrite !(proj2 (Z.leb_le _ _)) by lia.
Qed.

(** A read of a whole line. *)
Lemma mem_read_ok m D p a f : mem_ok m D -> in_mem a -> p_addr p = align k a -> p_size p = 2 ^ k ->
  p_cmd p ∈ [ReadSharedReq; ReadCleanReq; ReadExReq] -> cacheResponding p = false -> p_data p = Some f -> Z.of_nat (length f) = 2 ^ k ->
  SimpleMemory_recvAtomic p m =
    Ok (with_flags (clear_flags 32 (p_flags p) EXPRESS_SNOOP) (with_cmd (responseCommand (p_cmd p)) (with_data (Some (line_at D a)) p)), m).
Proof.
  intros Hm Ha Hpa Hps Hcmd Hcr Hd Hf. pose proof (line_in_mem a Ha). pose proof (pow2_pos k ltac:(destruct B; lia)).
  unfold SimpleMemory_recvAtomic, m_access. rewrite Hcr. cbn [negb].
  assert (cmd_eq (p_cmd p) CleanEvict || cmd_eq (p_cmd p) WritebackClean = false /\ cmd_eq (p_cmd p) SwapReq = false /\ isRead p = true /\
    isWrite p = false /\ isLLSC p = false /\ cmd_needsResponse (p_cmd p) = true /\ cmd_isRequest (p_cmd p) = true) as (-> & -> & -> & -> & -> & Hnr & Hrq).
  { rewrite !elem_of_cons, elem_of_nil in Hcmd. destruct Hcmd as [E|[E|[E|[]]]]; by on_cmd E. }
  rewrite Hpa, Hps, (subset_line m D a) by done. cbn [mbind res_bind negb]. rewrite (mo_bytes _ _ Hm). cbn [mbind res_bind].
  unfold copy_from, getPtr. rewrite Hd. cbn [mbind res_bind]. rewrite (mo_range _ _ Hm), Hps. unfold start. cbn [AddrRange_plain _start].
  rewrite bytes_at_Ok by (rewrite ?(mo_length _ _ Hm); lia). cbn [mbind res_bind].
  fold (get_bytes D (align k a - lo) (2 ^ k)). fold (line_at D a).
  rewrite bytes_set_all by (pose proof (line_at_length m D a Hm Ha); lia). cbn [mbind res_bind].
  unfold needsResponse. cbn [with_data p_cmd]. rewrite Hnr. unfold makeResponse, needsResponse, isRequest. cbn [with_data p_cmd]. rewrite Hnr, Hrq.
  done.
Qed.

(** A line given back. *)
Lemma mem_writeback_ok m D p a L (clean : bool) : mem_ok m D -> in_mem a -> p_addr p = align k a -> p_size p = 2 ^ k ->
  p_cmd p = (if l_d L then WritebackDirty else if clean then WritebackClean else CleanEvict) ->
  cacheResponding p = false -> (l_d L = true -> p_data p = Some (l_v L)) -> Z.of_nat (length (l_v L)) = 2 ^ k ->
  req_isInstFetch (p_req p) = false ->
  exists m' D', SimpleMemory_recvAtomic p m = Ok (p, m') /\ mem_ok m' D' /\
    (forall a', in_mem a' -> align k a' <> align k a -> line_at D' a' = line_at D a') /\
    (if l_d L then line_at D' a = l_v L else D' = D).
Proof.
  intros Hm Ha Hpa Hps Hcmd Hcr Hd Hl Hif. pose proof (line_in_mem a Ha) as Hla. pose proof (pow2_pos k ltac:(destruct B; lia)).
  unfold SimpleMemory_recvAtomic, m_access. rewrite Hcr. cbn [negb]. destruct (l_d L).
  - specialize (Hd eq_refl).
    assert (cmd_eq (p_cmd p) CleanEvict || cmd_eq (p_cmd p) WritebackClean = false /\ cmd_eq (p_cmd p) SwapReq = false /\ isRead p = false /\
      isInvalidate p || isClean p = false /\ isWrite p = true /\ isLLSC p = false /\ needsResponse p = false) as (-> & -> & -> & -> & -> & Hll & Hnr).
    { by on_cmd Hcmd. }
    rewrite Hpa, Hps, (subset_line m D a) by done. cbn [mbind res_bind]. unfold writeOK. rewrite (mo_locks _ _ Hm), Hll. cbn [negb mbind res_bind].
    rewrite (mo_bytes _ _ Hm), (writeData_Ok p (l_v L)) by (rewrite ?Hps; done). cbn [mbind res_bind].
    rewrite (mo_range _ _ Hm). unfold start. cbn [AddrRange_plain _start]. rewrite bytes_set_Ok by (rewrite ?(mo_length _ _ Hm); lia).
    cbn [mbind res_bind]. rewrite Hif. cbn [negb mbind res_bind]. rewrite ?Hll. cbn [negb mbind res_bind]. rewrite Hnr. cbn [mbind res_bind]. fold (put_bytes D (align k a - lo) (l_v L)).
    assert (align k a - lo + Z.of_nat (length (l_v L)) <= Z.of_nat (length D)) as Hfit by (rewrite (mo_length _ _ Hm); lia).
    eexists _, (put_bytes D (align k a - lo) (l_v L)). split; [done|]. split; [|split].
    + split; cbn [with_pmem m_range pmem lockedAddrList]; try apply Hm; [done|]. rewrite put_bytes_length by lia. apply Hm.
    + intros a' Ha' Hne. unfold line_at. apply get_put_out; try lia; [pose proof (line_in_mem a' Ha'); lia|].
      pose proof (lines_apart a a' Hne). lia.
    + unfold line_at. rewrite <- Hl. by apply get_put_same; lia.
  - assert (cmd_eq (p_cmd p) CleanEvict || cmd_eq (p_cmd p) WritebackClean = true) as -> by (rewrite Hcmd; by destruct clean).
    exists m, D. by split_and!.
Qed.
End Memory.
