(* ===== verification/CohBus.v ===== *)
(** A request of a cache on the crossbar: the snoops of the other caches, the
    answer, and what the snoop filter notes. *)
From S2P Require Import Prelude AddrRange CacheBlk ReplPolicy CacheTags TagStore MemPacket Cache SnoopFilter.
From S2P Require Import AbstractMem CoherentXBar CohSystem CohLine CohFill CohHit CohMiss CohSnoop CohFilter.
From S2P Require Import CohMem.

(** The caches but cache [i]. *)
Definition others (n i : Z) : list Z := filter (fun j => j <> i) (seqZ 0 n).

Lemma elem_others n i j : j ∈ others n i <-> 0 <= j < n /\ j <> i.
Proof. unfold others. rewrite list_elem_of_filter, elem_of_seqZ. lia. Qed.

Section Bus.
Context {T D : Type} `{!BaseTags T D, !BaseTagsLaws T D} (k : Z) (world : Z -> bool) (lo hi n : Z) (e : Env).
Implicit Types (s : Sys T D) (c : Cache T D) (p q : Packet).
Local Abbreviation sys := (Sys T D).

(** * The system *)

Definition set_cache (j : Z) c s : sys :=
  {| s_caches := <[Z.to_nat j := c]> (s_caches s); s_xbar := s_xbar s; s_mem := s_mem s |}.
Definition set_filter (f : SnoopFilter) s : sys :=
  {| s_caches := s_caches s; s_xbar := with_filter (s_xbar s) f; s_mem := s_mem s |}.

(** What cache [j] holds of the line of [a]. *)
Definition cl s (j a : Z) : option Line :=
  match s_caches s !! Z.to_nat j with Some c => cline k world c a | None => None end.

Definition caches_ok s : Prop :=
  length (s_caches s) = Z.to_nat n /\
  forall j c, s_caches s !! j = Some c -> cache_ok k world c /\ forall a, in_mem lo hi a -> inRange c a = true.

(** The crossbar is the point of coherency and has the filter [f]. *)
Definition xbar_ok s f : Prop :=
  snoopFilter (s_xbar s) = Some f /\ pointOfCoherency (x_params (s_xbar s)) = true /\
  bypassCaches (x_params (s_xbar s)) = false /\ filter_ok k n f.

Lemma put_cache_eq s j c : caches_ok s -> 0 <= j < n -> put_cache j c s = Ok (set_cache j c s).
Proof. intros [Hl _] Hj. unfold put_cache. rewrite awrite_Ok by lia. done. Qed.

Lemma cache_at s j : caches_ok s -> 0 <= j < n ->
  exists c, s_caches s !! Z.to_nat j = Some c /\ get_cache j s = Ok c /\ cache_ok k world c /\
    (forall a, in_mem lo hi a -> inRange c a = true) /\ put_cache j c s = Ok s.
Proof.
  intros Hs Hj. pose proof Hs as [Hl Hall]. destruct (lookup_lt_is_Some_2 (s_caches s) (Z.to_nat j)) as [c Hc]; [lia|].
  exists c. destruct (Hall _ _ Hc) as [Hok Hr]. split; [done|]. split; [by apply aread_Ok; [lia|]|]. split; [done|]. split; [done|].
  rewrite put_cache_eq by done. unfold set_cache. rewrite list_insert_id by done. by destruct s.
Qed.

Lemma set_cache_ok s j c c' : caches_ok s -> 0 <= j < n -> s_caches s !! Z.to_nat j = Some c -> cache_ok k world c' ->
  params c' = params c -> caches_ok (set_cache j c' s).
Proof.
  intros [Hl Hall] Hj Hc Hok Hp. split; [cbn; by rewrite length_insert|]. intros j0 c0. cbn [set_cache s_caches].
  rewrite list_lookup_insert. case_decide as E; [|by apply Hall]. intros [= <-]. split; [done|].
  intros a Ha. unfold inRange. rewrite Hp. by apply (proj2 (Hall _ _ Hc)).
Qed.

Lemma cl_set_same s j c a : caches_ok s -> 0 <= j < n -> cl (set_cache j c s) j a = cline k world c a.
Proof. intros [Hl _] Hj. unfold cl. cbn [set_cache s_caches]. by rewrite list_lookup_insert_eq by lia. Qed.
Lemma cl_set_other s j c j' a : 0 <= j -> 0 <= j' -> j' <> j -> cl (set_cache j c s) j' a = cl s j' a.
Proof. intros Hj Hj' Hne. unfold cl. cbn [set_cache s_caches]. by rewrite list_lookup_insert_ne by lia. Qed.
Lemma cl_at s j c a : s_caches s !! Z.to_nat j = Some c -> cl s j a = cline k world c a.
Proof. intros Hc. unfold cl. by rewrite Hc. Qed.

(** [s'] differs from [s] in the line of [a] in the caches [dests], and in
    the filter. *)
Record snooped_sys s s' (a : Z) (cmd : MemCmd) (dests : list Z) : Prop := {
  ss_mem : s_mem s' = s_mem s;
  ss_params : x_params (s_xbar s') = x_params (s_xbar s);
  ss_cmo : outstandingCMO (s_xbar s') = outstandingCMO (s_xbar s);
  ss_caches : params <$> s_caches s' = params <$> s_caches s;
  ss_ok : caches_ok s';
  ss_self : forall j, 0 <= j -> j ∉ dests -> s_caches s' !! Z.to_nat j = s_caches s !! Z.to_nat j;
  ss_other : forall j a', 0 <= j -> addr_ok a' -> align k a' <> align k a -> cl s' j a' = cl s j a';
  ss_line : forall j, 0 <= j -> j ∈ dests -> cl s' j a = snooped_line cmd (cl s j a) }.

(** * The snoops *)

Section Request.
Context (i a : Z) (q : Packet) (cmd : MemCmd) (r : Request) (v : list Z) (h0 : Z).
Hypotheses (Hk : 2 <= k < 32) (Hi : 0 <= i < n) (Hmem : mem_bounds k lo hi) (Ha : in_mem lo hi a) (Hq : bus_packet k world q a cmd r) (Hcmd : cmd ∈ miss_cmds)
  (Hun : req_isUncacheable r = false).

Let invalidate := cmd_isInvalidate cmd.
Let l := key k (align k a) (world (align k a)).

(** The entry of the line while the caches are snooped. *)
Definition entry (rd : bool) : SnoopItem :=
  if rd then {| requested := 0; holder := Z.lor (if invalidate then 0 else h0) (2 ^ i) |}
  else {| requested := 2 ^ i; holder := h0 |}.

(** One cache is snooped. *)
Lemma snoop_step fuel s f p sh rd j : caches_ok s -> xbar_ok s f -> item f l = entry rd ->
  snoop_packet q p sh rd v -> 0 <= j < n -> j <> i -> Z.testbit h0 j = true -> (invalidate = true -> sh = false) ->
  (forall L, cl s j a = Some L -> l_d L = true -> rd = false /\ l_v L = v) ->
  exists p' s1 s' f', 
    recvAtomicSnoop (get_cache j) (put_cache j) (xbar_send e fuel j) cpu_snoop e p s = Ok (p', s1) /\
    (if isResponse p' then cacheResponding p' = true /\ p_cmd p' <> cmd /\ filter_response all_snoop get_xbar put_xbar p' i InvalidPortID j s1 = Ok s' else s' = s1) /\
    p_cmd p' = (if line_dirty (cl s j a) then responseCommand cmd else cmd) /\
    isResponse p' = line_dirty (cl s j a) /\
    snoop_packet q (with_cmd cmd p') (sh || line_present (cl s j a) && negb invalidate) (rd || line_dirty (cl s j a)) v /\
    xbar_ok s' f' /\ item f' l = entry (rd || line_dirty (cl s j a)) /\ only_line f f' l /\
    snooped_sys s s' a cmd [j].
Proof.
  intros Hs (Hf1 & Hf2 & Hf3 & Hf) Hit Hp Hj Hne Hbit Hinv Hdirty.
  pose proof (in_mem_ok k lo hi Hmem a Ha) as Hao.
  destruct (cache_at s j Hs Hj) as (c & Hcl & Hget & Hc & Hr & Hput).
  rewrite (cl_at s j c a Hcl) in *.
  destruct (recvAtomicSnoop_ok k world (get_cache j) (put_cache j) (xbar_send e fuel j) cpu_snoop e s c q p a cmd r sh rd v)
    as (p' & c' & s1 & -> & Hput1 & Hc' & Hu & Hl' & Hcmd' & Hp'); try done.
  { intros c'. exists (set_cache j c' s). by apply put_cache_eq. }
  { by apply Hr, in_mem_align. }
  rewrite put_cache_eq in Hput1 by done. injection Hput1 as <-. pose proof Hu as (Hpar & _ & Hoth).
  assert (caches_ok (set_cache j c' s)) as Hs1 by (by eapply set_cache_ok).
  assert (forall s', s_caches s' = s_caches (set_cache j c' s) -> s_mem s' = s_mem s -> x_params (s_xbar s') = x_params (s_xbar s) ->
    outstandingCMO (s_xbar s') = outstandingCMO (s_xbar s) -> snooped_sys s s' a cmd [j]) as Hfin.
  { intros s' Ec Em Ex Eo.
    assert (forall j0 a0, cl s' j0 a0 = cl (set_cache j c' s) j0 a0) as Ecl by (intros j0 a0; unfold cl; by rewrite Ec).
    split; try done.
    - rewrite Ec. cbn [set_cache s_caches]. rewrite list_fmap_insert, Hpar. apply list_insert_id. by rewrite list_lookup_fmap, Hcl.
    - unfold caches_ok. by rewrite Ec.
    - intros j0 H0 Hn. rewrite Ec. cbn [set_cache s_caches]. rewrite list_lookup_insert_ne; [done|]. rewrite list_elem_of_singleton in Hn. lia.
    - intros j0 a' H0 Ha' Hna. unfold cl. rewrite Ec. cbn [set_cache s_caches]. rewrite list_lookup_insert. case_decide as E; [|done].
      destruct E as [E _]. rewrite <- E, Hcl. by apply Hoth.
    - intros j0 H0 ->%list_elem_of_singleton. unfold cl. rewrite Ec. cbn [set_cache s_caches].
      rewrite list_lookup_insert_eq by (apply lookup_lt_Some in Hcl; lia). by rewrite Hcl. }
  destruct (line_dirty (cline k world c a)) eqn:Ed.
  - assert (exists L, cline k world c a = Some L /\ l_d L = true) as (L & HL & Hd) by (destruct (cline k world c a) as [L|]; [by exists L|done]).
    destruct (Hdirty L HL Hd) as [-> _]. rewrite HL in *. cbn [line_present orb andb] in *.
    assert (isResponse p' = true /\ isWriteback p' = false /\ p_cmd p' <> cmd) as (Hr1 & Hr2 & Hr3).
    { unfold miss_cmds in Hcmd. rewrite !elem_of_cons, elem_of_nil in Hcmd.
      destruct Hcmd as [E|[E|[E|[E|[E|[E|[]]]]]]]; rewrite E in *; cbn in Hcmd'; on_cmd Hcmd'; by split_and!. }
    pose proof (sp_responding _ _ _ _ _ Hp') as Hr4. change (cacheResponding (with_cmd cmd p')) with (cacheResponding p') in Hr4.
    pose proof (sp_sharers _ _ _ _ _ Hp') as Hr5. change (hasSharers (with_cmd cmd p')) with (hasSharers p') in Hr5.
    assert (p_addr p' = align k a /\ p_isSecure p' = world (align k a) /\ p_req p' = r) as (Ea & Es & Er).
    { pose proof (sp_same _ _ _ _ _ Hp') as E. destruct Hq.
      split_and!; [change (p_addr p') with (p_addr (with_cmd cmd p'))|change (p_isSecure p') with (p_isSecure (with_cmd cmd p'))|
        change (p_req p') with (p_req (with_cmd cmd p'))]; by rewrite E. }
    destruct (updateSnoopResponse_ok k n Hk f p' i j (align k a) (world (align k a)) h0 Hf Hi Hj) as (f' & Eu & Hf' & Ho' & Hi'); try done.
    { apply align_ok; [lia|done]. }
    { by rewrite Er. }
    exists p', (set_cache j c' s), (set_filter f' (set_cache j c' s)), f'. split; [done|]. rewrite Hr1. split; [|split; [done|split; [done|]]].
    { split; [done|]. split; [done|]. unfold filter_response. cbn [get_xbar mbind res_bind set_cache s_xbar]. rewrite Hf1. cbn [Z.eqb negb].
      change (InvalidPortID =? InvalidPortID) with true. cbn [negb]. rewrite Eu. done. }
    split; [done|]. split; [by split_and!|]. split; [|split; [done|by apply Hfin]].
    fold l in Hi'. rewrite Hi'. unfold entry. f_equal. f_equal. rewrite Hr5. fold invalidate. destruct invalidate; [by rewrite Hinv|by rewrite orb_true_r].
  - assert (isResponse p' = false) as Hr1.
    { unfold miss_cmds in Hcmd. rewrite !elem_of_cons, elem_of_nil in Hcmd.
      destruct Hcmd as [E|[E|[E|[E|[E|[E|[]]]]]]]; rewrite E in *; by on_cmd Hcmd'. }
    exists p', (set_cache j c' s), (set_cache j c' s), f. split; [done|]. rewrite Hr1. split; [done|]. split; [done|]. split; [done|].
    split; [done|]. split; [by split_and!|]. split; [by rewrite orb_false_r|]. split; [done|by apply Hfin].
Qed.
Lemma snooped_cons s s1 s2 j dests : snooped_sys s s1 a cmd [j] -> snooped_sys s1 s2 a cmd dests -> j ∉ dests ->
  snooped_sys s s2 a cmd (j :: dests).
Proof.
  intros H1 H2 Hj. pose proof (in_mem_ok k lo hi Hmem a Ha) as Hao. split.
  - by rewrite (ss_mem _ _ _ _ _ H2), (ss_mem _ _ _ _ _ H1).
  - by rewrite (ss_params _ _ _ _ _ H2), (ss_params _ _ _ _ _ H1).
  - by rewrite (ss_cmo _ _ _ _ _ H2), (ss_cmo _ _ _ _ _ H1).
  - by rewrite (ss_caches _ _ _ _ _ H2), (ss_caches _ _ _ _ _ H1).
  - apply H2.
  - intros j0 H0 [Hn1 Hn2]%not_elem_of_cons. rewrite (ss_self _ _ _ _ _ H2) by done. apply H1; [done|]. by rewrite list_elem_of_singleton.
  - intros j0 a' H0 Ha' Hne. rewrite (ss_other _ _ _ _ _ H2) by done. by apply H1.
  - intros j0 H0 [->|Hin]%elem_of_cons.
    + unfold cl at 1. rewrite (ss_self _ _ _ _ _ H2) by done. apply (ss_line _ _ _ _ _ H1 j); [done|by apply list_elem_of_singleton].
    + rewrite (ss_line _ _ _ _ _ H2) by done. f_equal. unfold cl. rewrite (ss_self _ _ _ _ _ H1); [done..|].
      rewrite list_elem_of_singleton. by intros ->.
Qed.

Lemma snooped_nil s : caches_ok s -> snooped_sys s s a cmd [].
Proof. intros Hs. split; try done. intros j _ H. by apply elem_of_nil in H. Qed.

(** A cache the snoops have not reached is as before. *)
Lemma snooped_cl s s' dests j a' : snooped_sys s s' a cmd dests -> 0 <= j -> j ∉ dests -> cl s' j a' = cl s j a'.
Proof. intros H Hj Hn. unfold cl. by rewrite (ss_self _ _ _ _ _ H). Qed.

Lemma forward_loop_ok fuel dests : forall s f p sh rd, NoDup dests ->
  (forall j, j ∈ dests -> 0 <= j < n /\ j <> i /\ Z.testbit h0 j = true) ->
  caches_ok s -> xbar_ok s f -> item f l = entry rd -> snoop_packet q p sh rd v -> (invalidate = true -> sh = false) ->
  (forall j L, j ∈ dests -> cl s j a = Some L -> l_d L = true -> rd = false /\ l_v L = v) ->
  (forall j j', j ∈ dests -> j' ∈ dests -> line_dirty (cl s j a) = true -> line_dirty (cl s j' a) = true -> j = j') ->
  exists p' s' f' (sh' rd' : bool),
    forward_loop all_snoop get_xbar put_xbar
      (fun j pkt (s : Sys T D) => recvAtomicSnoop (get_cache j) (put_cache j) (xbar_send e fuel j) cpu_snoop e pkt s)
      cmd i InvalidPortID dests (if rd then responseCommand cmd else InvalidCmd) p s =
      Ok (if rd' then responseCommand cmd else InvalidCmd, p', s') /\
    snoop_packet q p' sh' rd' v /\ xbar_ok s' f' /\ item f' l = entry rd' /\ only_line f f' l /\ snooped_sys s s' a cmd dests /\
    (sh' = true <-> sh = true \/ invalidate = false /\ exists j, j ∈ dests /\ line_present (cl s j a) = true) /\
    (rd' = true <-> rd = true \/ exists j, j ∈ dests /\ line_dirty (cl s j a) = true).
Proof.
  pose proof (in_mem_ok k lo hi Hmem a Ha) as Hao.
  induction dests as [|j dests IH]; intros s f p sh rd Hnd Hd Hs Hx Hit Hp Hinv Hdirty Huniq.
  { exists p, s, f, sh, rd. split; [done|]. split_and!; try done; [by apply snooped_nil| |];
      split; auto; intros [?|H]; try done; [destruct H as (_ & j & Hj & _)|destruct H as (j & Hj & _)]; by apply elem_of_nil in Hj. }
  apply NoDup_cons in Hnd as [Hj Hnd]. destruct (Hd j) as (Hjn & Hji & Hbit); [by left|].
  destruct (snoop_step fuel s f p sh rd j Hs Hx Hit Hp Hjn Hji Hbit Hinv) as (p1 & s1 & s2 & f1 & E & Hresp & Ec & Er & Hp1 & Hx1 & Hi1 & Ho1 & Hss);
    [intros L; apply Hdirty; by left|].
  assert (forall j', j' ∈ dests -> cl s2 j' a = cl s j' a) as Hcl.
  { intros j' Hj'. destruct (Hd j') as (H0 & _); [by right|]. apply (snooped_cl s s2 [j]); [done|lia|].
    rewrite list_elem_of_singleton. by intros ->. }
  edestruct (IH s2 f1 (with_cmd cmd p1) (sh || line_present (cl s j a) && negb invalidate) (rd || line_dirty (cl s j a)))
    as (p' & s' & f' & sh' & rd' & E' & Hp' & Hx' & Hi' & Ho' & Hss' & Hsh & Hrd); try done.
  { intros j' Hj'. apply Hd. by right. }
  { apply Hss. }
  { intros Ei. rewrite Hinv, Ei by done. apply andb_false_r. }
  { intros j' L Hj' HL HdL. rewrite Hcl in HL by done. destruct (Hdirty j' L) as [-> Hv]; [by right|done..|]. split; [|done].
    apply not_true_iff_false. intros Hdj. apply Hj. rewrite (Huniq j j'); [done|by left|by right|done|]. by rewrite HL. }
  { intros j1 j2 H1 H2. rewrite !Hcl by done. apply Huniq; by right. }
  exists p', s', f', sh', rd'. split; [|split; [done|split; [done|split; [done|split; [|split; [by eapply snooped_cons|]]]]]].
  - cbn [forward_loop]. rewrite (proj2 (Z.eqb_neq i InvalidPortID)) by (unfold InvalidPortID; lia). rewrite (proj2 (Z.eqb_neq j i)) by done.
    cbn [negb andb]. rewrite E. cbn [mbind res_bind]. destruct (isResponse p1) eqn:Eresp; cbn [negb].
    + destruct Hresp as (Hcr & Hcne & Hfr). rewrite Hcr.
      assert (negb (cmd_eq (p_cmd p1) cmd) = true) as -> by (destruct (cmd_eq (p_cmd p1) cmd) eqn:Ex; [by apply cmd_eq_spec in Ex|done]).
      rewrite <- Er in *. cbn [mbind res_bind].
      assert (rd = false) as ->.
      { destruct (cl s j a) as [L|] eqn:EL; [|done]. symmetry in Er. by destruct (Hdirty j L) as [-> _]; [by left|..]. }
      change (cmd_eq InvalidCmd InvalidCmd) with true. cbn [mbind res_bind]. rewrite Hfr. cbn [mbind res_bind orb] in *. rewrite Ec. exact E'.
    + subst s2. rewrite <- Er in *. rewrite orb_false_r in *.
      assert (with_cmd cmd p1 = p1) as Ep by (rewrite <- Ec; by destruct p1). rewrite Ep in E'. exact E'.
  - intros l' Hne. rewrite Ho', Ho1; done.
  - rewrite Hsh, Hrd, !orb_true_iff, andb_true_iff, negb_true_iff. split; split.
    + intros [[H|[H1 H2]]|[H1 (j' & Hj' & H2)]]; [by left|right|right]; (split; [done|]); [exists j|exists j']; (split; [set_solver|done || by rewrite <- Hcl]).
    + intros [H|[H1 (j' & [->|Hj']%elem_of_cons & H2)]]; [by left; left|left; right; by split|right]. split; [done|]. exists j'. by rewrite Hcl.
    + intros [[H|H]|(j' & Hj' & H)]; [by left|right|right]; [exists j|exists j']; (split; [set_solver|done || by rewrite <- Hcl]).
    + intros [H|(j' & [->|Hj']%elem_of_cons & H)]; [by left; left|left; by right|right]. exists j'. by rewrite Hcl.
Qed.

(** ** The request at its destination *)

(** The attributes of the command that the crossbar uses. *)
Lemma miss_attrs p : p_cmd p = cmd ->
  isEviction p = false /\ isClean p = false /\ isWrite p = false /\ isRead p = cmd_hasData (responseCommand cmd) /\
  needsResponse p = true /\ isRequest p = true /\ isResponse p = false /\ isCleanEviction p = false /\ cmd_eq (p_cmd p) WriteClean = false /\
  cmd_needsWritable cmd = invalidate.
Proof.
  intros E. unfold miss_cmds in Hcmd. rewrite !elem_of_cons, elem_of_nil in Hcmd. unfold invalidate.
  destruct Hcmd as [Ec|[Ec|[Ec|[Ec|[Ec|[Ec|[]]]]]]]; rewrite Ec in *; on_cmd E; by split_and!.
Qed.
Lemma response_attrs p : p_cmd p = responseCommand cmd -> isResponse p = true /\ isClean p = false /\ cmd_eq (p_cmd p) WriteClean = false /\
  cmd_eq (responseCommand cmd) InvalidCmd = false.
Proof.
  intros E. unfold miss_cmds in Hcmd. rewrite !elem_of_cons, elem_of_nil in Hcmd.
  destruct Hcmd as [Ec|[Ec|[Ec|[Ec|[Ec|[Ec|[]]]]]]]; rewrite Ec in *; cbn in E; on_cmd E; by split_and!.
Qed.

(** The snooping half of the request. *)
Lemma snoop_caches_ok fuel s f : caches_ok s -> xbar_ok s f -> requested (item f l) = 0 -> holder (item f l) = h0 ->
  (forall j, 0 <= j < n -> line_present (cl s j a) = true -> Z.testbit h0 j = true) ->
  (forall j L, j ∈ others n i -> cl s j a = Some L -> l_d L = true -> l_v L = v) ->
  (forall j j', j ∈ others n i -> j' ∈ others n i -> line_dirty (cl s j a) = true -> line_dirty (cl s j' a) = true -> j = j') ->
  exists p' s' f' (sh rd : bool),
    snoop_caches all_snoop get_xbar put_xbar
      (fun j pkt (s : Sys T D) => recvAtomicSnoop (get_cache j) (put_cache j) (xbar_send e fuel j) cpu_snoop e pkt s) q i s =
      Ok (if rd then responseCommand cmd else InvalidCmd, p', s') /\
    snoop_packet q p' sh rd v /\ xbar_ok s' f' /\ item f' l = entry rd /\ only_line f f' l /\ snooped_sys s s' a cmd (others n i) /\
    (sh = true <-> invalidate = false /\ exists j, j ∈ others n i /\ line_present (cl s j a) = true) /\
    (rd = true <-> exists j, j ∈ others n i /\ line_dirty (cl s j a) = true).
Proof.
  intros Hs (X1 & X2 & X3 & Hf) Hr0 Hh0 Hheld Hdirty Huniq. pose proof (in_mem_ok k lo hi Hmem a Ha) as Hao.
  destruct (miss_attrs q (bp_cmd _ _ _ _ _ _ Hq)) as (A1 & A2 & A3 & A4 & A5 & A6 & A7 & A8 & A9 & A10).
  unfold snoop_caches. cbn [get_xbar mbind res_bind]. rewrite X3, A9. cbn [negb andb]. rewrite X1.
  destruct (lookup_miss_ok k n Hk f q i (align k a) (world (align k a)) Hf Hi) as (dests & f1 & f2 & -> & Hfin & Hf2 & Ho2 & Hi2 & Hnd & Hdests);
    try (by apply Hq); [apply align_ok; [lia|done]|by rewrite (bp_req _ _ _ _ _ _ Hq)|by rewrite (bp_cmd _ _ _ _ _ _ Hq)|done|].
  cbn [mbind res_bind]. rewrite Hfin. cbn [mbind res_bind put_xbar]. rewrite A1. fold l in Hi2, Ho2, Hdests. rewrite Hh0 in Hi2.
  unfold forwardAtomic. cbn [get_xbar mbind res_bind s_xbar]. cbn [with_filter x_params]. rewrite X3. cbn [negb].
  rewrite (bp_cmd _ _ _ _ _ _ Hq).
  assert (forall j, j ∈ dests -> j ∈ others n i) as Hsub by (intros j; rewrite Hdests, elem_others; tauto).
  assert (forall j, 0 <= j -> j ∈ others n i -> j ∉ dests -> cl s j a = None) as Hnone.
  { intros j H0 Ho Hn. destruct (cl s j a) eqn:E; [exfalso|done]. apply elem_others in Ho. apply Hn, Hdests. split; [lia|]. split; [lia|].
    unfold held. rewrite Hh0. apply Hheld; [lia|by rewrite E]. }
  destruct (forward_loop_ok fuel dests (set_filter f2 s) f2 q false false Hnd) as (p' & s' & f' & sh & rd & E & Hp' & Hx' & Hi' & Ho' & Hss & Hsh & Hrd); try done.
  { intros j Hj. apply Hdests in Hj as (? & ? & Hh). split_and!; try done; try lia. unfold held in Hh. by rewrite Hh0 in Hh. }
  { split; [|unfold cacheResponding, hasSharers, responderHadWritable; by rewrite (bp_flags _ _ _ _ _ _ Hq)..|done]. by destruct q. }
  { intros j L Hj HL HdL. split; [done|]. apply (Hdirty j L); auto. }
  { intros j j' Hj Hj'. apply Huniq; auto. }
  unfold set_filter in E. rewrite E. exists p', s', f', sh, rd. split; [done|]. split; [done|]. split; [done|]. split; [done|].
  split; [intros l' Hne; rewrite Ho', Ho2; done|]. split; [|split].
  - destruct Hss as [S1 S2 S3 S4 S5 S6 S7 S8]. split; try done.
    + intros j H0 Hn. apply S6; [done|]. intros Hj. by apply Hn, Hsub.
    + intros j H0 Hj. destruct (decide (j ∈ dests)) as [Hin|Hin]; [by apply S8|].
      unfold cl at 1. rewrite S6 by done. change (cl s j a = snooped_line cmd (cl s j a)). by rewrite Hnone.
  - rewrite Hsh. split; [intros [?|[? (j & Hj & H)]]; [done|]; split; [done|]; exists j; auto|].
    intros [? (j & Hj & H)]. right. split; [done|]. exists j. split; [|done]. destruct (decide (j ∈ dests)); [done|].
    rewrite Hnone in H; [done|apply elem_others in Hj; lia|done..].
  - rewrite Hrd. split; [intros [?|(j & Hj & H)]; [done|]; exists j; auto|]. intros (j & Hj & H). right. exists j. split; [|done].
    destruct (decide (j ∈ dests)); [done|]. rewrite Hnone in H; [done|apply elem_others in Hj; lia|done..].
Qed.

(** The answer [p] to the request [q]. *)
Record answered p (sh rd : bool) : Prop := {
  an_same : p = with_flags (p_flags p) (with_data (p_data p) (with_cmd (responseCommand cmd) q));
  an_sharers : hasSharers p = sh;
  an_responding : cacheResponding p = rd;
  an_data : cmd_hasData (responseCommand cmd) = true -> p_data p = Some v }.

(** What [send_on] does if no cache answers. *)
Lemma send_on_ok s p sh b DM : pointOfCoherency (x_params (s_xbar s)) = true -> mem_ok lo hi (s_mem s) DM ->
  snoop_packet q p sh false v -> (cmd_hasData (responseCommand cmd) = true -> line_at k lo DM a = v) ->
  exists p', send_on get_xbar mem_send p b s = Ok (p', s) /\ answered p' sh false.
Proof.
  intros Hpoc Hm [S1 S2 S3 S4 S5] Hv. cbn [andb] in S5.
  assert (p_cmd p = cmd) as Epc by (rewrite S1; cbn; apply Hq).
  destruct (miss_attrs p Epc) as (A1 & A2 & A3 & A4 & A5 & A6 & A7 & A8 & A9 & A10).
  unfold send_on. cbn [get_xbar mbind res_bind]. unfold sinkPacket. rewrite Hpoc, S3, A5, A8, andb_false_r. cbn [andb negb mbind res_bind].
  unfold forwardPacket. rewrite A2, A3, A4, Hpoc. cbn [negb orb andb]. rewrite !orb_false_r.
  assert (forall m : Z, isSet (clear_flags 32 (p_flags p) EXPRESS_SNOOP) HAS_SHARERS = sh /\
    isSet (clear_flags 32 (p_flags p) EXPRESS_SNOOP) CACHE_RESPONDING = false) as Hfl by (intros _; flags; done).
  destruct (cmd_hasData (responseCommand cmd)) eqn:Ehd.
  - rewrite andb_false_r. cbn [mbind res_bind]. unfold mem_send.
    pose proof (bp_data _ _ _ _ _ _ Hq) as Hd. rewrite Ehd in Hd. destruct Hd as (g' & Hg1 & Hg2).
    rewrite (mem_read_ok k lo hi Hmem (s_mem s) DM p a g'); try done.
    + cbn [mbind res_bind]. unfold put_mem. eexists. split; [by destruct s|]. rewrite Hv, Epc by done. destruct (Hfl 0) as [F1 F2]. split; try done.
      rewrite S1. by destruct q.
    + rewrite S1. apply Hq.
    + rewrite S1. apply Hq.
    + rewrite Epc. unfold miss_cmds in Hcmd. rewrite !elem_of_cons, elem_of_nil in *. destruct Hcmd as [E|[E|[E|[E|[E|[E|[]]]]]]]; rewrite E in Ehd |- *; auto; done.
    + by rewrite S5.
  - unfold makeResponse. rewrite A5, A6. cbn [mbind res_bind]. eexists. split; [done|]. rewrite Epc. destruct (Hfl 0) as [F1 F2]. split; try done.
    + rewrite S1. by destruct q.
    + by rewrite Ehd.
Qed.

(** ** The whole request *)

Lemma bus_request_ok fuel s f DM : caches_ok s -> xbar_ok s f -> requested (item f l) = 0 -> holder (item f l) = h0 ->
  mem_ok lo hi (s_mem s) DM -> Z.of_nat (length v) = 2 ^ k ->
  (forall j, 0 <= j < n -> line_present (cl s j a) = true -> Z.testbit h0 j = true) ->
  (forall j L, j ∈ others n i -> cl s j a = Some L -> l_d L = true -> l_v L = v) ->
  (forall j j', j ∈ others n i -> j' ∈ others n i -> line_dirty (cl s j a) = true -> line_dirty (cl s j' a) = true -> j = j') ->
  (cmd_hasData (responseCommand cmd) = true -> (forall j, j ∈ others n i -> line_dirty (cl s j a) = false) -> line_at k lo DM a = v) ->
  req_isCacheMaintenance r = false ->
  exists q' s' f' (sh rd : bool), xbar_send e (S fuel) i q s = Ok (q', s') /\ bus_response k q q' sh rd v /\
    xbar_ok s' f' /\ requested (item f' l) = 0 /\ held f' l i = true /\
    (invalidate = false -> forall j, held f l j = true -> held f' l j = true) /\
    only_line f f' l /\ snooped_sys s s' a cmd (others n i) /\
    (sh = true <-> invalidate = false /\ exists j, j ∈ others n i /\ line_present (cl s j a) = true) /\
    (rd = true <-> exists j, j ∈ others n i /\ line_dirty (cl s j a) = true).
Proof.
  intros Hs Hx Hr0 Hh0 Hm Hlv Hheld Hdirty Huniq Hmv Hcm. pose proof Hx as (X1 & X2 & X3 & Hf).
  pose proof (in_mem_ok k lo hi Hmem a Ha) as Hao. pose proof (fo_n _ _ _ Hf) as Hn.
  destruct (snoop_caches_ok fuel s f Hs Hx Hr0 Hh0 Hheld Hdirty Huniq) as (p & s1 & f1 & sh & rd & E & Hp & Hx1 & Hi1 & Ho1 & Hss & Hsh & Hrd).
  pose proof Hx1 as (Y1 & Y2 & Y3 & Hf1).
  cbn [xbar_send]. unfold x_recvAtomic. cbn [get_xbar mbind res_bind]. rewrite E. cbn [mbind res_bind].
  assert (forall p, answered p sh rd -> bus_response k q p sh rd v) as Hres.
  { intros p' [N1 N2 N3 N4]. destruct (miss_attrs q (bp_cmd _ _ _ _ _ _ Hq)) as (_ & _ & _ & _ & _ & _ & _ & _ & _ & Enw).
    split; rewrite ?(bp_cmd _ _ _ _ _ _ Hq); try done; try (rewrite N1; by destruct q).
    - rewrite Enw. destruct invalidate eqn:Ei.
      + apply not_true_iff_false. rewrite Hsh. by intros [? _].
      + rewrite Hrd, Hsh. intros (j & Hj & Hd). split; [done|]. exists j. split; [done|]. by destruct (cl s j a). }
  assert (forall p s, p_cmd p = responseCommand cmd -> track_CMO get_xbar put_xbar p s = Ok s) as Htrack.
  { intros p0 s0 E0. destruct (response_attrs p0 E0) as (_ & B1 & B2 & _). unfold track_CMO. cbn [get_xbar mbind res_bind]. by rewrite B1, B2. }
  destruct rd.
  - assert (p_cmd p = cmd) as Epc by (rewrite (sp_same _ _ _ _ _ Hp); cbn; apply Hq).
    destruct (miss_attrs p Epc) as (_ & _ & _ & _ & _ & _ & A7 & _ & _).
    unfold send_on. cbn [get_xbar mbind res_bind]. unfold sinkPacket. rewrite Y2, (sp_responding _ _ _ _ _ Hp). cbn [andb mbind res_bind get_xbar].
    rewrite Y1, Y3, A7. cbn [negb andb mbind res_bind].
    destruct (response_attrs (with_cmd (responseCommand cmd) p) eq_refl) as (_ & _ & _ & ->). cbn [negb mbind res_bind].
    rewrite Htrack by done. cbn [mbind res_bind]. eexists _, s1, f1, sh, true. split; [done|]. split.
    { apply Hres. destruct Hp as [S1 S2 S3 S4 S5]. split; try done; cbn [with_cmd p_flags p_data].
      - rewrite S1. by destruct q.
      - intros Eh. rewrite S5. unfold hasRespData. by rewrite (bp_cmd _ _ _ _ _ _ Hq), Eh. }
    split; [done|]. unfold held. rewrite Hi1. unfold entry. cbn [requested holder]. split; [done|].
    split; [by rewrite Z.lor_spec, Z.pow2_bits_true, orb_true_r by lia|]. split; [|by split_and!].
    intros -> j. rewrite Hh0, Z.lor_spec. by intros ->.
  - destruct (send_on_ok s1 p sh (isDestination (s_xbar s) q) DM Y2) as (p' & -> & Hp'); try done.
    { by rewrite (ss_mem _ _ _ _ _ Hss). }
    { intros Eh. apply Hmv; [done|]. intros j Hj. apply not_true_iff_false. intros Hd. enough (false = true) by done. apply Hrd. by exists j. }
    assert (p_cmd p' = responseCommand cmd) as Epc by (by rewrite (an_same _ _ _ Hp')).
    destruct (response_attrs p' Epc) as (A7 & _). cbn [mbind res_bind get_xbar]. rewrite Y1, Y3, A7. cbn [negb andb].
    destruct (updateResponse_ok k n Hk f1 p' i (align k a) (world (align k a)) h0 Hf1 Hi) as (f2 & -> & Hf2 & Ho2 & Hi2); try done.
    { apply align_ok; [lia|done]. }
    { rewrite (an_same _ _ _ Hp'). apply Hq. }
    { rewrite (an_same _ _ _ Hp'). apply Hq. }
    { rewrite (an_same _ _ _ Hp'). cbn. by rewrite (bp_req _ _ _ _ _ _ Hq). }
    { rewrite (an_same _ _ _ Hp'). cbn. by rewrite (bp_req _ _ _ _ _ _ Hq). }
    cbn [mbind res_bind put_xbar]. change (cmd_eq InvalidCmd InvalidCmd) with true. cbn [negb mbind res_bind]. rewrite Htrack by done. cbn [mbind res_bind].
    eexists p', _, f2, sh, false. split; [done|]. split; [by apply Hres|].
    split; [by split_and!|]. fold l in Hi2, Ho2. unfold held. rewrite Hi2. cbn [requested holder]. split; [done|].
    split; [by rewrite Z.lor_spec, Z.pow2_bits_true, orb_true_r by lia|]. split; [|split; [|split; [|by split]]].
    + intros _ j. rewrite Hh0, Z.lor_spec. by intros ->.
    + intros l' Hne. rewrite Ho2, Ho1; done.
    + destruct Hss as [S1 S2 S3 S4 S5 S6 S7 S8]. by split.
Qed.
End Request.
(** * A line given up *)

Section Writeback.
Context (i va : Z) (w : Packet) (clean : bool) (L : Line).
Hypotheses (Hk : 2 <= k < 32) (Hi : 0 <= i < n) (Hmem : mem_bounds k lo hi) (Ha : in_mem lo hi va) (Hal : align k va = va)
  (Hw : wb_packet k world w clean va L) (Hl : Z.of_nat (length (l_v L)) = 2 ^ k).

Let l := key k va (world va).

Lemma wb_attrs p : p_cmd p = p_cmd w ->
  isEviction p = true /\ isClean p = false /\ isRead p = false /\ fromCache p = true /\ needsResponse p = false /\ isResponse p = false /\
  cmd_eq (p_cmd p) WriteClean = false /\ isRequest p = true /\
  (if cmd_eq (p_cmd p) CleanEvict then isWrite p = false /\ l_d L = false else isWrite p = true) /\
  (isCleanEviction p = true -> l_d L = false).
Proof.
  intros E. rewrite (wp_cmd _ _ _ _ _ _ Hw) in E. destruct (l_d L) eqn:Ed; [|destruct clean]; on_cmd E; by split_and!.
Qed.

Lemma wb_plain : req_isUncacheable (p_req w) = false /\ req_isToPOC (p_req w) = false /\ req_isToPOU (p_req w) = false /\
  req_isInstFetch (p_req w) = false.
Proof.
  unfold req_isUncacheable, req_isToPOC, req_isToPOU, req_isInstFetch. by destruct (wp_req _ _ _ _ _ _ Hw) as [E|E]; rewrite E.
Qed.

(** The packet at its destination. *)
Lemma wb_send_on s p DM : pointOfCoherency (x_params (s_xbar s)) = true -> mem_ok lo hi (s_mem s) DM ->
  (p = w \/ p = setBlockCached w) ->
  exists m' DM', send_on get_xbar mem_send p (isDestination (s_xbar s) w) s = Ok (p, put_mem m' s) /\ mem_ok lo hi m' DM' /\
    (forall a, in_mem lo hi a -> align k a <> va -> line_at k lo DM' a = line_at k lo DM a) /\
    (if l_d L then line_at k lo DM' va = l_v L else DM' = DM).
Proof.
  intros Hpoc Hm Hp.
  assert (p_cmd p = p_cmd w /\ p_addr p = va /\ p_size p = 2 ^ k /\ p_data p = p_data w /\ p_req p = p_req w /\ cacheResponding p = false)
    as (Ec & Ea & Es & Ed & Er & Ecr).
  { destruct Hw. destruct Hp as [-> | ->]; split_and!; try done; unfold cacheResponding; cbn [setBlockCached add_flags with_flags p_flags];
      flags; by destruct wp_flags as [E|E]; rewrite E. }
  destruct (wb_attrs p Ec) as (A1 & A2 & A3 & A4 & A5 & A6 & A7 & A8 & A9 & A10). destruct wb_plain as (P1 & P2 & P3 & P4).
  assert (isDestination (s_xbar s) w = false) as -> by (unfold isDestination; by rewrite P2, P3).
  unfold send_on. cbn [get_xbar mbind res_bind]. unfold sinkPacket. rewrite Hpoc, Ecr, A3, A5. cbn [andb negb orb].
  assert (put_mem (s_mem s) s = s) as Eid by (by destruct s).
  destruct (cmd_eq (p_cmd p) CleanEvict) eqn:Ece.
  - destruct A9 as [A9 Hd]. rewrite A9. cbn [negb andb mbind res_bind]. exists (s_mem s), DM. rewrite Eid, Hd. by split_and!.
  - rewrite A9. cbn [negb andb]. destruct (isCleanEviction p && isBlockCached p) eqn:Esk; cbn [mbind res_bind].
    + apply andb_true_iff in Esk as [Esk _]. exists (s_mem s), DM. rewrite Eid, A10 by done. by split_and!.
    + unfold forwardPacket. rewrite A2, A3, A9. cbn [orb andb]. unfold mem_send.
      destruct (mem_writeback_ok k lo hi Hmem (s_mem s) DM p va L clean Hm Ha) as (m' & DM' & -> & Hm' & Ho' & Hl'); rewrite ?Hal, ?Ed, ?Er; try done.
      * rewrite Ec. apply Hw.
      * apply Hw.
      * cbn [mbind res_bind]. exists m', DM'. split; [done|]. split; [done|]. rewrite Hal in Ho'. by split.
Qed.

Lemma writeback_ok fuel s f DM : xbar_ok s f -> mem_ok lo hi (s_mem s) DM -> held f l i = true ->
  exists w' s' f' DM', xbar_send e (S fuel) i w s = Ok (w', s') /\ s_caches s' = s_caches s /\
    x_params (s_xbar s') = x_params (s_xbar s) /\ outstandingCMO (s_xbar s') = outstandingCMO (s_xbar s) /\
    xbar_ok s' f' /\ only_line f f' l /\ requested (item f' l) = requested (item f l) /\
    (forall j, 0 <= j -> j <> i -> held f' l j = held f l j) /\ mem_ok lo hi (s_mem s') DM' /\
    (forall a, in_mem lo hi a -> align k a <> va -> line_at k lo DM' a = line_at k lo DM a) /\
    (if l_d L then line_at k lo DM' va = l_v L else DM' = DM).
Proof.
  intros (X1 & X2 & X3 & Hf) Hm Hheld. pose proof (in_mem_ok k lo hi Hmem va Ha) as Hao. pose proof (fo_n _ _ _ Hf) as Hn.
  destruct (wb_attrs w eq_refl) as (A1 & A2 & A3 & A4 & A5 & A6 & A7 & A8 & A9 & A10). destruct wb_plain as (P1 & P2 & P3 & P4).
  cbn [xbar_send]. unfold x_recvAtomic, snoop_caches. cbn [get_xbar mbind res_bind]. rewrite X3, A7. cbn [negb andb]. rewrite X1.
  destruct (lookup_evict_ok k n Hk f w i va (world va) Hf Hi Hao) as (dests & f1 & f2 & -> & Hfin & Hf2 & Ho2 & Hi2); try done; try apply Hw.
  { unfold isBlockCached. by destruct (wp_flags _ _ _ _ _ _ Hw) as [E|E]; rewrite E. }
  cbn [mbind res_bind]. rewrite Hfin. cbn [mbind res_bind put_xbar]. rewrite A1. cbn [mbind res_bind]. fold l in Hi2, Ho2.
  set (p := match dests with [] => w | _ => setBlockCached w end).
  assert (p = w \/ p = setBlockCached w) as Hp by (unfold p; destruct dests; auto).
  assert (p_cmd p = p_cmd w) as Ep by (by destruct Hp as [-> | ->]).
  destruct (wb_attrs p Ep) as (_ & B2 & _ & _ & _ & B6 & B7 & _).
  destruct (wb_send_on (set_filter f2 s) p DM X2 Hm Hp) as (m' & DM' & E & Hm' & Ho' & Hl').
  change (isDestination (s_xbar (set_filter f2 s)) w) with (isDestination (s_xbar s) w) in E. unfold set_filter in E. rewrite E.
  cbn [mbind res_bind put_mem s_xbar with_filter snoopFilter x_params]. rewrite B6, andb_false_r. cbn [mbind res_bind].
  change (cmd_eq InvalidCmd InvalidCmd) with true. cbn [negb mbind res_bind]. unfold track_CMO. cbn [get_xbar mbind res_bind]. rewrite B2, B7. cbn [andb mbind res_bind].
  eexists p, _, f2, DM'. split; [done|]. cbn [s_caches s_xbar s_mem with_filter x_params outstandingCMO]. do 3 (split; [done|]).
  split; [by split_and!|]. split; [done|]. rewrite Hi2. cbn [requested]. split; [done|]. split; [|by split_and!].
  intros j H0 Hne. unfold held. rewrite Hi2. cbn [holder]. rewrite mask_out_bit by (try apply (item_range k n f l Hf); lia).
  destruct (Z.eqb_spec i j); [lia|]. apply andb_true_r.
Qed.
End Writeback.

End Bus.
