(* ===== verification/CohProto.v ===== *)
(** The coherence protocol on one line: what holds of its copies, of the snoop
    filter's entry and of memory, and that every step of the caches keeps it. *)
From S2P Require Import Prelude MemPacket CohLine CohSnoop.

Section Line.
(** Caches [0] to [n - 1]. *)
Context (n : Z).

(** [P j]: what cache [j] holds; [h j]: the filter has cache [j] noted; [mv]:
    memory's bytes; [v]: the bytes the processors see. *)
Record line_coh (P : Z -> option Line) (h : Z -> bool) (mv v : list Z) : Prop := {
  lc_value : forall j L, 0 <= j < n -> P j = Some L -> l_v L = v;
  lc_excl : forall j j' L, 0 <= j < n -> 0 <= j' < n -> P j = Some L -> l_w L = true -> line_present (P j') = true -> j' = j;
  lc_owner : forall j j', 0 <= j < n -> 0 <= j' < n -> line_dirty (P j) = true -> line_dirty (P j') = true -> j = j';
  lc_mem : (forall j, 0 <= j < n -> line_dirty (P j) = false) -> mv = v;
  lc_held : forall j, 0 <= j < n -> line_present (P j) = true -> h j = true }.

Implicit Types (P : Z -> option Line).

Lemma dirty_present o : line_dirty o = true -> line_present o = true.
Proof. by destruct o. Qed.

(** Cache [i] serves a request from its copy. *)
Lemma line_hit P P' h mv v i L L' : line_coh P h mv v -> 0 <= i < n -> P i = Some L -> P' i = Some L' ->
  (forall j, 0 <= j < n -> j <> i -> P' j = P j) ->
  l_w L' = l_w L -> (l_d L = true -> l_d L' = true) -> (l_d L' = true -> l_d L = true \/ l_w L = true) ->
  (l_d L' = false -> l_v L' = l_v L) -> (l_w L = false -> l_v L' = v) ->
  line_coh P' h mv (l_v L').
Proof.
  intros H Hi HL HL' Hne Hw Hd1 Hd2 Hv1 Hv2. pose proof (lc_value _ _ _ _ H i L Hi HL) as Hv.
  assert (forall j, 0 <= j < n -> j <> i -> line_present (P j) = true -> l_w L = false) as Hex.
  { intros j Hj Hji Hp. apply not_true_iff_false. intros Hwr. apply Hji. by apply (lc_excl _ _ _ _ H i j L). }
  split.
  - intros j Lj Hj HLj. destruct (decide (j = i)) as [->|Hji]; [congruence|]. rewrite Hne in HLj by done.
    rewrite Hv2; [by eapply lc_value|]. apply (Hex j); [done..|by rewrite HLj].
  - intros j j' Lj Hj Hj' HLj Hwj Hp. destruct (decide (j = i)) as [->|Hji], (decide (j' = i)) as [->|Hji']; try done.
    + rewrite Hne in Hp by done. assert (Lj = L') as -> by congruence. rewrite Hw, (Hex j') in Hwj; done.
    + rewrite Hne in HLj by done. symmetry. rewrite (lc_excl _ _ _ _ H j i Lj) in Hji; try done. by rewrite HL.
    + rewrite Hne in HLj, Hp by done. by eapply lc_excl.
  - intros j j' Hj Hj' Dj Dj'. destruct (decide (j = i)) as [->|Hji], (decide (j' = i)) as [->|Hji']; try done.
    + rewrite HL' in Dj. rewrite Hne in Dj' by done. destruct (Hd2 Dj) as [Di|Wi]; [apply (lc_owner _ _ _ _ H); try done; by rewrite HL|].
      by rewrite (Hex j') in Wi; [|done..|apply dirty_present].
    + rewrite HL' in Dj'. rewrite Hne in Dj by done. destruct (Hd2 Dj') as [Di|Wi]; [apply (lc_owner _ _ _ _ H); try done; by rewrite HL|].
      by rewrite (Hex j) in Wi; [|done..|apply dirty_present].
    + rewrite Hne in Dj, Dj' by done. by apply (lc_owner _ _ _ _ H).
  - intros Hno. pose proof (Hno i Hi) as Di. rewrite HL' in Di. rewrite Hv1, Hv by done. apply (lc_mem _ _ _ _ H).
    intros j Hj. destruct (decide (j = i)) as [->|Hji]; [|rewrite <- Hne by done; by apply Hno].
    rewrite HL. apply not_true_iff_false. intros Hd. cbn in Di. rewrite Hd1 in Di; done.
  - intros j Hj Hp. apply (lc_held _ _ _ _ H); [done|]. destruct (decide (j = i)) as [->|Hji]; [by rewrite HL|by rewrite <- Hne].
Qed.

(** Cache [i] misses, the others are snooped for [cmd], and it fills [L']. *)
Lemma line_miss P P' h h' mv v i cmd L' (sh rd nw : bool) : line_coh P h mv v -> 0 <= i < n -> P' i = Some L' ->
  (forall j, 0 <= j < n -> j <> i -> P' j = snooped_line cmd (P j)) -> cmd_isInvalidate cmd = nw ->
  (nw = false -> P i = None) ->
  l_w L' = negb sh -> (l_d L' = true -> l_w L' = true) ->
  (l_d L' = false -> l_v L' = v /\ (nw = true -> rd = false /\ forall L, P i = Some L -> l_d L = false)) ->
  (nw = false -> l_v L' = v) ->
  (sh = true <-> nw = false /\ exists j, (0 <= j < n /\ j <> i) /\ line_present (P j) = true) ->
  (rd = true <-> exists j, (0 <= j < n /\ j <> i) /\ line_dirty (P j) = true) ->
  h' i = true -> (nw = false -> forall j, 0 <= j < n -> h j = true -> h' j = true) ->
  line_coh P' h' mv (l_v L').
Proof.
  intros H Hi HL' Hsn Hinv Hmiss Hw Hd Hnd Hv Hsh Hrd Hhi Hh.
  assert (nw = true -> forall j, 0 <= j < n -> j <> i -> P' j = None) as Hgone.
  { intros Hn j Hj Hji. rewrite Hsn by done. unfold snooped_line. rewrite Hinv, Hn. by destruct (P j). }
  assert (nw = false -> forall j, 0 <= j < n -> j <> i ->
    P' j = match P j with Some L => Some {| l_w := false; l_d := l_d L; l_v := l_v L |} | None => None end) as Hkeep.
  { intros Hn j Hj Hji. rewrite Hsn by done. unfold snooped_line. by rewrite Hinv, Hn. }
  assert (forall j L, 0 <= j < n -> j <> i -> P' j = Some L -> nw = false /\ l_w L = false /\ sh = true /\
    exists L0, P j = Some L0 /\ l_d L = l_d L0 /\ l_v L = l_v L0) as Hoth.
  { intros j L Hj Hji HL. destruct nw eqn:En; [by rewrite Hgone in HL|]. rewrite Hkeep in HL by done. destruct (P j) as [L0|] eqn:E; [|done].
    injection HL as <-. split; [done|]. split; [done|]. split; [|by exists L0]. apply Hsh. split; [done|]. exists j. split; [done|]. by rewrite E. }
  split.
  - intros j L Hj HL. destruct (decide (j = i)) as [->|Hji]; [congruence|].
    destruct (Hoth j L Hj Hji HL) as (En & _ & _ & L0 & H0 & _ & ->). rewrite Hv by done. by eapply lc_value.
  - intros j j' L Hj Hj' HL HwL Hp. destruct (decide (j = i)) as [->|Hji].
    + destruct (decide (j' = i)) as [|Hji']; [done|]. destruct (P' j') as [L2|] eqn:E; [|done].
      destruct (Hoth j' L2 Hj' Hji' E) as (_ & _ & Es & _). assert (L = L') as -> by congruence. by rewrite Hw, Es in HwL.
    + destruct (Hoth j L Hj Hji HL) as (_ & Ew & _). congruence.
  - assert (forall j, 0 <= j < n -> j <> i -> line_dirty (P' j) = true -> l_d L' = true -> False) as Hx.
    { intros j Hj Hji Dj Di. destruct (P' j) as [L|] eqn:E; [|done]. destruct (Hoth j L Hj Hji E) as (_ & _ & Es & _).
      apply Hd in Di. by rewrite Hw, Es in Di. }
    intros j j' Hj Hj' Dj Dj'. destruct (decide (j = i)) as [->|Hji], (decide (j' = i)) as [->|Hji']; try done.
    + rewrite HL' in Dj. by destruct (Hx j').
    + rewrite HL' in Dj'. by destruct (Hx j).
    + destruct (P' j) as [L1|] eqn:E1, (P' j') as [L2|] eqn:E2; try done.
      destruct (Hoth j L1 Hj Hji E1) as (_ & _ & _ & L3 & E3 & Ed3 & _). destruct (Hoth j' L2 Hj' Hji' E2) as (_ & _ & _ & L4 & E4 & Ed4 & _).
      apply (lc_owner _ _ _ _ H); try done; [rewrite E3|rewrite E4]; cbn in *; congruence.
  - intros Hno. pose proof (Hno i Hi) as Di. rewrite HL' in Di. destruct (Hnd Di) as [-> Hn]. apply (lc_mem _ _ _ _ H).
    intros j Hj. apply not_true_iff_false. intros Dj. destruct nw eqn:En.
    + destruct (Hn eq_refl) as [Er Hnd']. destruct (decide (j = i)) as [->|Hji].
      * destruct (P i) as [L|] eqn:E; [|done]. cbn in Dj. by rewrite (Hnd' L) in Dj.
      * enough (rd = true) by congruence. apply Hrd. by exists j.
    + destruct (decide (j = i)) as [->|Hji]; [by rewrite Hmiss in Dj|]. specialize (Hno j Hj). rewrite Hkeep in Hno by done.
      destruct (P j); [cbn in *; congruence|done].
  - intros j Hj Hp. destruct (decide (j = i)) as [->|Hji]; [done|]. destruct (P' j) as [L|] eqn:E; [|done].
    destruct (Hoth j L Hj Hji E) as (En & _ & _ & L0 & H0 & _). apply Hh; [done..|]. apply (lc_held _ _ _ _ H); [done|]. by rewrite H0.
Qed.

(** Cache [i] gives its copy up. *)
Lemma line_writeback P P' h h' mv mv' v i L : line_coh P h mv v -> 0 <= i < n -> P i = Some L -> P' i = None ->
  (forall j, 0 <= j < n -> j <> i -> P' j = P j) -> (forall j, 0 <= j < n -> j <> i -> h' j = h j) ->
  mv' = (if l_d L then l_v L else mv) -> line_coh P' h' mv' v.
Proof.
  intros H Hi HL Hn Hne Hh ->.
  assert (forall j, line_present (P' j) = true -> j <> i) as Hp by (intros j Hp ->; by rewrite Hn in Hp).
  split.
  - intros j Lj Hj HLj. rewrite Hne in HLj; [by eapply lc_value|done|apply Hp; by rewrite HLj].
  - intros j j' Lj Hj Hj' HLj Hwj Hpj. rewrite Hne in HLj by (try done; apply Hp; by rewrite HLj). rewrite Hne in Hpj by (try done; by apply Hp).
    by eapply lc_excl.
  - intros j j' Hj Hj' Dj Dj'. pose proof (Hp j (dirty_present _ Dj)). pose proof (Hp j' (dirty_present _ Dj')).
    rewrite Hne in Dj, Dj' by done. by apply (lc_owner _ _ _ _ H).
  - intros Hno. destruct (l_d L) eqn:Ed; [by eapply lc_value|]. apply (lc_mem _ _ _ _ H). intros j Hj.
    destruct (decide (j = i)) as [->|Hji]; [by rewrite HL|]. rewrite <- Hne by done. by apply Hno.
  - intros j Hj Hpj. pose proof (Hp j Hpj). rewrite Hne in Hpj by done. rewrite Hh by done. by apply (lc_held _ _ _ _ H).
Qed.

(** Only the line matters. *)
Lemma line_coh_ext P P' h h' mv v : line_coh P h mv v -> (forall j, 0 <= j < n -> P' j = P j) ->
  (forall j, 0 <= j < n -> h' j = h j) -> line_coh P' h' mv v.
Proof.
  intros [H1 H2 H3 H4 H5] HP Hh. split.
  - intros j L Hj. rewrite HP by done. by apply H1.
  - intros j j' L Hj Hj'. rewrite !HP by done. by apply H2.
  - intros j j' Hj Hj'. rewrite !HP by done. by apply H3.
  - intros Hno. apply H4. intros j Hj. rewrite <- HP by done. by apply Hno.
  - intros j Hj. rewrite HP, Hh by done. by apply H5.
Qed.
End Line.
