(* ===== verification/CohCorrect.v ===== *)
(** The caches, the crossbar with its snoop filter and the memory together
    behave as one flat memory. *)
From S2P Require Import Prelude AddrRange CacheBlk ReplPolicy CacheTags TagStore MemPacket Cache SnoopFilter.
From S2P Require Import AbstractMem CoherentXBar CohSystem CohLine CohFill CohHit CohMiss CohSnoop CohFilter.
From S2P Require Import CohMem CohBus CohProto.

(** * The flat memory *)

(** What a request does to the bytes of memory, which start at address [lo];
    [d], the data it came with; [ok], whether a store-conditional succeeds. *)
Definition flat_write (lo : Z) (pkt : Packet) (ok : bool) (d M : list Z) : list Z :=
  match new_bytes pkt ok (get_bytes M (p_addr pkt - lo) (p_size pkt)) d with
  | Some v => put_bytes M (p_addr pkt - lo) v
  | None => M
  end.

(** The data it returns. *)
Definition flat_read (lo : Z) (pkt : Packet) (d M : list Z) : list Z :=
  if isRead pkt then get_bytes M (p_addr pkt - lo) (p_size pkt) else d.

Section Flat.
Context (k lo hi : Z) (world : Z -> bool) (B : mem_bounds k lo hi).
Implicit Types (pkt : Packet) (M d : list Z).

Lemma new_bytes_length pkt d ok old v : cpu_packet k world pkt d -> Z.of_nat (length old) = p_size pkt ->
  new_bytes pkt ok old d = Some v -> Z.of_nat (length v) = p_size pkt.
Proof.
  intros Hq Hold. destruct (cq_data _ _ _ _ Hq) as [_ Hd]. pose proof (cq_swap _ _ _ _ Hq) as Hs. unfold new_bytes.
  destruct (p_cmd pkt); try done; try (intros [= <-]; done).
  - destruct ok; [|done]. by intros [= <-].
  - specialize (Hs eq_refl). destruct (isAtomicOp pkt).
    + destruct Hs as (f & -> & Hf). intros [= <-]. by rewrite Hf.
    + destruct (swap_writes pkt old); [|done]. by intros [= <-].
Qed.

Lemma new_bytes_none pkt d ok old : cpu_packet k world pkt d -> cmd_needsWritable (p_cmd pkt) = false -> new_bytes pkt ok old d = None.
Proof.
  intros Hq. pose proof (cq_cmd _ _ _ _ Hq) as Hcmd. unfold access_cmds in Hcmd. rewrite !elem_of_cons, elem_of_nil in Hcmd. unfold new_bytes.
  destruct Hcmd as [E|[E|[E|[E|[E|[E|[E|[]]]]]]]]; by rewrite E.
Qed.

Lemma offset_in_line a : in_mem lo hi a -> align k a - lo + a mod 2 ^ k = a - lo /\ 0 <= a mod 2 ^ k < 2 ^ k /\ 0 <= align k a - lo.
Proof.
  intros Ha. pose proof (pow2_pos k ltac:(destruct B; lia)). pose proof (line_in_mem k lo hi B a Ha). unfold align in *.
  pose proof (Z.div_mod a (2 ^ k) ltac:(lia)). pose proof (Z.mod_pos_bound a (2 ^ k) ltac:(lia)). lia.
Qed.

(** A request served from a line that is as in [M] is served from [M]. *)
Lemma served_flat pkt d ok v pkt' v' M : cpu_packet k world pkt d -> in_mem lo hi (p_addr pkt) -> Z.of_nat (length M) = hi - lo + 1 ->
  v = line_at k lo M (p_addr pkt) -> served k pkt d ok v pkt' v' ->
  Z.of_nat (length (flat_write lo pkt ok d M)) = hi - lo + 1 /\
  p_data pkt' = Some (flat_read lo pkt d M) /\ v' = line_at k lo (flat_write lo pkt ok d M) (p_addr pkt) /\
  forall a, in_mem lo hi a -> align k a <> align k (p_addr pkt) -> line_at k lo (flat_write lo pkt ok d M) a = line_at k lo M a.
Proof.
  intros Hq Ha HM -> [_ _ S3 _ _ S6]. destruct (offset_in_line _ Ha) as (E1 & E2 & E3). destruct (cq_size _ _ _ _ Hq) as [Hs1 Hs2].
  pose proof (line_in_mem k lo hi B _ Ha) as [L1 L2].
  assert (get_bytes (line_at k lo M (p_addr pkt)) (p_addr pkt mod 2 ^ k) (p_size pkt) = get_bytes M (p_addr pkt - lo) (p_size pkt)) as Eg.
  { unfold line_at. rewrite get_get by lia. by rewrite E1. }
  rewrite Eg in *. unfold flat_read, flat_write.
  assert (Z.of_nat (length (get_bytes M (p_addr pkt - lo) (p_size pkt))) = p_size pkt) as Hlo by (apply get_bytes_length; lia).
  destruct (new_bytes pkt ok (get_bytes M (p_addr pkt - lo) (p_size pkt)) d) as [nb|] eqn:En.
  - pose proof (new_bytes_length _ _ _ _ _ Hq Hlo En) as Hnb. split; [rewrite put_bytes_length by lia; done|]. split; [done|]. split.
    + rewrite S6. unfold line_at. rewrite <- E1. symmetry. apply get_put_in; lia.
    + intros a Ha' Hne. unfold line_at. pose proof (line_in_mem k lo hi B _ Ha'). pose proof (lines_apart k lo hi B _ _ Hne).
      apply get_put_out; lia.
  - by split_and!.
Qed.
End Flat.

(** * The system *)

Section System.
Context {T D : Type} `{!BaseTags T D, !BaseTagsLaws T D} (k : Z) (world : Z -> bool) (lo hi n : Z) (B : mem_bounds k lo hi).
Implicit Types (s : Sys T D) (c : Cache T D) (pkt : Packet) (M d : list Z).
Local Abbreviation cl := (cl k world).

(** The filter's name of the line of [a]. *)
Definition lkey (a : Z) : Z := key k a (world (align k a)).

(** Every line is coherent and its copies are what the flat memory [M] has. *)
Definition lines_ok (V : Z -> Z -> option Line) (f : SnoopFilter) (DM M : list Z) : Prop :=
  forall a, in_mem lo hi a -> line_coh n (fun j => V j a) (fun j => held f (lkey a) j) (line_at k lo DM a) (line_at k lo M a).

Record coherent s M : Prop := {
  ch_caches : caches_ok k world lo hi n s;
  ch_length : Z.of_nat (length M) = hi - lo + 1;
  ch_range : forall j a L, 0 <= j < n -> addr_ok a -> cl s j a = Some L -> in_mem lo hi a;
  ch_lines : exists f DM, xbar_ok k n s f /\ (forall l, requested (item f l) = 0) /\ mem_ok lo hi (s_mem s) DM /\ lines_ok (cl s) f DM M }.

Lemma cl_same s j a a' : caches_ok k world lo hi n s -> 0 <= j < n -> addr_ok a -> addr_ok a' -> align k a = align k a' -> cl s j a = cl s j a'.
Proof.
  intros Hs Hj Ha Ha' E. destruct (cache_at k world lo hi n s j Hs Hj) as (c & Hc & _ & Hok & _).
  rewrite !(cl_at k world s j c) by done. by rewrite <- (cline_align k world c a), <- (cline_align k world c a'), E.
Qed.

Lemma lkey_align a : 2 <= k -> key k (align k a) (world (align k a)) = lkey a.
Proof. intros Hk. unfold lkey, key. by rewrite align_idem. Qed.

Lemma lkey_ne a a' : 2 <= k < 32 -> align k a <> align k a' -> lkey a <> lkey a'.
Proof. intros Hk Hne E. by apply (key_inj k Hk) in E. Qed.

(** ** Serving a request *)

(** Cache [i] changes in the line of [a] only, where it has [L'] now. *)
Lemma coherent_hit s M M' i a c c' L L' : coherent s M -> 0 <= i < n -> in_mem lo hi a -> s_caches s !! Z.to_nat i = Some c ->
  cache_ok k world c' -> upd k world c c' a -> cline k world c a = Some L -> cline k world c' a = Some L' ->
  line_written L L' -> (l_w L = false -> l_v L' = l_v L) ->
  Z.of_nat (length M') = hi - lo + 1 -> l_v L' = line_at k lo M' a ->
  (forall a', in_mem lo hi a' -> align k a' <> align k a -> line_at k lo M' a' = line_at k lo M a') ->
  coherent (set_cache i c' s) M'.
Proof.
  intros [Hs HM Hr (f & DM & Hx & Hrq & Hm & Hl)] Hi Ha Hc Hc' (Hp & _ & Hu) HL HL' (W1 & W2 & W3 & W4) Hro HM' Hv Hoth.
  pose proof (in_mem_ok k lo hi B a Ha) as Hao.
  assert (caches_ok k world lo hi n (set_cache i c' s)) as Hs' by (by eapply set_cache_ok).
  assert (forall j a', 0 <= j < n -> addr_ok a' -> j <> i \/ align k a' <> align k a -> cl (set_cache i c' s) j a' = cl s j a') as Hcl.
  { intros j a' Hj Ha' Hne. destruct (decide (j = i)) as [->|]; [|by apply cl_set_other; lia]. destruct Hne as [|Hne]; [done|].
    rewrite (cl_set_same k world lo hi n) by done. rewrite (cl_at k world s i c) by done. by apply Hu. }
  assert (cl s i a = Some L /\ cl (set_cache i c' s) i a = Some L') as [Ei Ei'].
  { split; [by rewrite (cl_at k world s i c)|by rewrite (cl_set_same k world lo hi n)]. }
  split; [done|done| |].
  - intros j a' Lj Hj Ha' HLj. destruct (decide (j = i /\ align k a' = align k a)) as [[-> E]|Hne].
    + apply (Hr i a' L); [done..|]. by rewrite (cl_same s i a' a).
    + apply (Hr j a' Lj); [done..|]. rewrite <- Hcl; [done..|]. destruct (decide (j = i)); [right; naive_solver|by left].
  - exists f, DM. split; [done|]. split; [done|]. split; [done|]. intros a' Ha'. pose proof (in_mem_ok k lo hi B a' Ha') as Hao'.
    destruct (decide (align k a' = align k a)) as [E|Hne].
    + assert (line_at k lo M' a' = l_v L') as -> by (rewrite Hv; unfold line_at; by rewrite E).
      eapply (line_hit n (fun j => cl s j a')); [by apply Hl|done|by rewrite (cl_same s i a' a)|by rewrite (cl_same _ i a' a)|..]; try done.
      * intros j Hj Hne. by rewrite Hcl by auto.
      * intros Hw. rewrite Hro by done. eapply (lc_value n (fun j => cl s j a')); [by apply Hl|done|]. by rewrite (cl_same s i a' a).
    + rewrite Hoth by done. eapply line_coh_ext; [by apply Hl|intros j Hj; cbn; by rewrite Hcl by auto|done].
Qed.

(** A cache whose lines have not changed. *)
Lemma coherent_touch s M i c c' : coherent s M -> 0 <= i < n -> s_caches s !! Z.to_nat i = Some c -> cache_ok k world c' ->
  params c' = params c -> (forall a, addr_ok a -> cline k world c' a = cline k world c a) -> coherent (set_cache i c' s) M.
Proof.
  intros [Hs HM Hr (f & DM & Hx & Hrq & Hm & Hl)] Hi Hc Hc' Hp Hu.
  assert (caches_ok k world lo hi n (set_cache i c' s)) as Hs' by (by eapply set_cache_ok).
  assert (forall j a, 0 <= j < n -> addr_ok a -> cl (set_cache i c' s) j a = cl s j a) as Hcl.
  { intros j a Hj Ha. destruct (decide (j = i)) as [->|]; [|by apply cl_set_other; lia].
    rewrite (cl_set_same k world lo hi n) by done. rewrite (cl_at k world s i c) by done. by apply Hu. }
  split; [done|done|intros j a L Hj Ha; rewrite Hcl by done; by apply Hr|].
  exists f, DM. split; [done|]. split; [done|]. split; [done|]. intros a Ha. pose proof (in_mem_ok k lo hi B a Ha) as Hao.
  eapply line_coh_ext; [by apply Hl|intros j Hj; cbn; by rewrite Hcl|done].
Qed.
Lemma same_line_in_mem a a' : in_mem lo hi a -> align k a' = align k a -> in_mem lo hi a'.
Proof.
  intros Ha E. pose proof (line_in_mem k lo hi B a Ha) as [H1 H2]. rewrite <- E in *. pose proof (pow2_pos k ltac:(destruct B; lia)).
  unfold in_mem, align in *. pose proof (Z.div_mod a' (2 ^ k) ltac:(lia)). pose proof (Z.mod_pos_bound a' (2 ^ k) ltac:(lia)). lia.
Qed.

(** ** Filling a line *)

(** The line [L] of address [va] that cache [i] has given up and not yet
    sent. *)
Definition with_flight (i : Z) (fl : option (Z * Line)) (V : Z -> Z -> option Line) (j a : Z) : option Line :=
  match fl with
  | Some (va, L) => if decide (j = i /\ align k a = va) then Some L else V j a
  | None => V j a
  end.

(** The state of the system between the fill and the writeback [ws]. *)
Record filled s M (i : Z) (ws : list Packet) (fl : option (Z * Line)) : Prop := {
  fi_caches : caches_ok k world lo hi n s;
  fi_length : Z.of_nat (length M) = hi - lo + 1;
  fi_range : forall j a L, 0 <= j < n -> addr_ok a -> cl s j a = Some L -> in_mem lo hi a;
  fi_lines : exists f DM, xbar_ok k n s f /\ (forall l, requested (item f l) = 0) /\ mem_ok lo hi (s_mem s) DM /\
    lines_ok (with_flight i fl (cl s)) f DM M;
  fi_flight : match fl with
    | None => ws = []
    | Some (va, L) => exists w clean, ws = [w] /\ in_mem lo hi va /\ align k va = va /\ wb_packet k world w clean va L /\
        Z.of_nat (length (l_v L)) = 2 ^ k /\ cl s i va = None
    end }.

Section Fill.
Context (s1 s2 : Sys T D) (M M' : list Z) (i a : Z) (c1 c2 : Cache T D) (ws : list Packet) (f f' : SnoopFilter) (DM : list Z)
  (cmd : MemCmd) (L' : Line) (sh rd nw : bool).
Hypotheses (Hi : 0 <= i < n) (Ha : in_mem lo hi a).
(** Before the request. *)
Hypotheses (Hs1 : caches_ok k world lo hi n s1) (HM : Z.of_nat (length M) = hi - lo + 1)
  (Hr1 : forall j a L, 0 <= j < n -> addr_ok a -> cl s1 j a = Some L -> in_mem lo hi a)
  (Hl1 : lines_ok (cl s1) f DM M) (Hm : mem_ok lo hi (s_mem s1) DM) (Hrq : forall l, requested (item f l) = 0)
  (Hc1 : s_caches s1 !! Z.to_nat i = Some c1).
(** The request on the crossbar. *)
Hypotheses (Hx2 : xbar_ok k n s2 f') (Hss : snooped_sys k world lo hi n s1 s2 a cmd (others n i)) (Hinv : cmd_isInvalidate cmd = nw)
  (Hrq' : requested (item f' (lkey a)) = 0) (Hhi : held f' (lkey a) i = true)
  (Hh : nw = false -> forall j, held f (lkey a) j = true -> held f' (lkey a) j = true) (Ho : only_line f f' (lkey a))
  (Hsh : sh = true <-> nw = false /\ exists j, j ∈ others n i /\ line_present (cl s1 j a) = true)
  (Hrd : rd = true <-> exists j, j ∈ others n i /\ line_dirty (cl s1 j a) = true).
(** The fill. *)
Hypotheses (Hc2 : cache_ok k world c2) (Hev : evicted k world c1 c2 a ws) (HL' : cline k world c2 a = Some L')
  (Hmiss : nw = false -> cline k world c1 a = None) (Hw : l_w L' = negb sh) (Hd : l_d L' = true -> l_w L' = true)
  (Hnd : l_d L' = false -> l_v L' = line_at k lo M a /\ (nw = true -> rd = false /\ forall L, cline k world c1 a = Some L -> l_d L = false))
  (Hv : nw = false -> l_v L' = line_at k lo M a).
Hypotheses (HM' : Z.of_nat (length M') = hi - lo + 1) (Hv' : l_v L' = line_at k lo M' a)
  (Hoth : forall a', in_mem lo hi a' -> align k a' <> align k a -> line_at k lo M' a' = line_at k lo M a').

Let s3 := set_cache i c2 s2.

Lemma fill_cache_at : s_caches s2 !! Z.to_nat i = Some c1.
Proof. rewrite (ss_self _ _ _ _ _ _ _ _ _ _ Hss); [done|lia|]. rewrite elem_others. lia. Qed.

Lemma fill_caches_ok : caches_ok k world lo hi n s3.
Proof. eapply set_cache_ok; [apply Hss|done|apply fill_cache_at|done|]. by destruct Hev as [-> _]. Qed.

(** The copies of the line of [a] after the fill, and those of other lines. *)
Lemma fill_same j a' : 0 <= j < n -> addr_ok a' -> align k a' = align k a ->
  cl s3 j a' = if decide (j = i) then Some L' else snooped_line cmd (cl s1 j a').
Proof.
  intros Hj Ha' E. pose proof (in_mem_ok k lo hi B a Ha) as Hao. rewrite (cl_same s3 j a' a), (cl_same s1 j a' a) by (done || apply fill_caches_ok).
  case_decide as Hji; [subst j; unfold s3; by rewrite (cl_set_same k world lo hi n) by (done || apply Hss)|].
  unfold s3. rewrite cl_set_other by lia. apply (ss_line _ _ _ _ _ _ _ _ _ _ Hss); [lia|]. by apply elem_others.
Qed.

Lemma fill_other j a' : 0 <= j < n -> addr_ok a' -> align k a' <> align k a ->
  cl s3 j a' = if decide (j = i) then cline k world c2 a' else cl s1 j a'.
Proof.
  intros Hj Ha' E. unfold s3. case_decide as Hji; [subst j; by rewrite (cl_set_same k world lo hi n) by (done || apply Hss)|].
  rewrite cl_set_other by lia. by apply (ss_other _ _ _ _ _ _ _ _ _ _ Hss); [lia|..].
Qed.

Lemma fill_range j a' L : 0 <= j < n -> addr_ok a' -> cl s3 j a' = Some L -> in_mem lo hi a'.
Proof.
  intros Hj Ha' HL. destruct (decide (align k a' = align k a)) as [E|Hne]; [by eapply same_line_in_mem|].
  rewrite fill_other in HL by done. case_decide as Hji; [subst j|by eapply Hr1].
  assert (cline k world c1 a' = Some L) as HL1.
  { destruct Hev as [_ [[_ Hx]|(w & va & Lw & _ & Hva & Hal & _ & _ & Hn & _ & Hx)]]; [by rewrite <- Hx|].
    destruct (decide (align k a' = va)) as [E|Hne']; [|by rewrite <- Hx].
    rewrite <- (cline_align k world c2 a' Hc2 Ha'), E, Hn in HL. done. }
  apply (Hr1 i a' L); [done..|]. by rewrite (cl_at k world s1 i c1).
Qed.

(** The lines, with the one that was given up. *)
Lemma fill_lines fl :
  (forall a', addr_ok a' -> align k a' <> align k a -> with_flight i fl (cl s3) i a' = cline k world c1 a') ->
  match fl with Some (va, _) => va <> align k a | None => True end ->
  lines_ok (with_flight i fl (cl s3)) f' DM M'.
Proof.
  intros Hfl Hva a' Ha'. pose proof (in_mem_ok k lo hi B a' Ha') as Hao'. pose proof (mb_k _ _ _ B) as Hk.
  assert (forall j, j <> i -> with_flight i fl (cl s3) j a' = cl s3 j a') as Hwf.
  { intros j Hji. unfold with_flight. destruct fl as [[va L]|]; [|done]. rewrite decide_False; [done|naive_solver]. }
  destruct (decide (align k a' = align k a)) as [E|Hne].
  - assert (lkey a' = lkey a) as Ek by (unfold lkey, key; by rewrite E).
    assert (line_at k lo M' a' = l_v L' /\ line_at k lo M a' = line_at k lo M a) as [-> EM] by (rewrite Hv'; unfold line_at; by rewrite E).
    assert (forall j, 0 <= j < n -> cl s1 j a' = cl s1 j a) as Ecl by (intros j Hj; apply cl_same; try done; by apply (in_mem_ok k lo hi B)).
    assert (cl s1 i a' = cline k world c1 a) as Ei by (rewrite Ecl by done; by apply (cl_at k world)).
    rewrite Ek. eapply (line_miss n (fun j => cl s1 j a') _ (fun j => held f (lkey a) j) _ _ (line_at k lo M a') i cmd L' sh rd nw); try done.
    + rewrite <- Ek. by apply Hl1.
    + assert (with_flight i fl (cl s3) i a' = cl s3 i a') as ->.
      { unfold with_flight. destruct fl as [[va L]|]; [|done]. rewrite decide_False; [done|]. intros [_ ?]. congruence. }
      by rewrite fill_same, decide_True.
    + intros j Hj Hji. cbn. by rewrite Hwf, fill_same, decide_False.
    + intros En. rewrite Ei. auto.
    + rewrite EM, Ei. done.
    + by rewrite EM.
    + rewrite Hsh. setoid_rewrite elem_others. split; intros [? (j & [? ?] & Hp)]; (split; [done|]); exists j; (split; [done|]); [by rewrite Ecl|by rewrite <- Ecl].
    + rewrite Hrd. setoid_rewrite elem_others. split; intros (j & [? ?] & Hp); exists j; (split; [done|]); [by rewrite Ecl|by rewrite <- Ecl].
    + intros En j _. by apply Hh.
  - rewrite Hoth by done. eapply line_coh_ext; [by apply Hl1| |].
    + intros j Hj. cbn. destruct (decide (j = i)) as [->|Hji]; [rewrite Hfl by done; symmetry; by apply (cl_at k world)|].
      by rewrite Hwf, fill_other, decide_False.
    + intros j Hj. unfold held. cbn. rewrite Ho; [done|]. by apply lkey_ne.
Qed.

Lemma fill_filled : exists fl, filled s3 M' i ws fl.
Proof.
  assert (forall l, requested (item f' l) = 0) as Hrq2.
  { intros l. destruct (decide (l = lkey a)) as [->|Hne]; [done|]. by rewrite Ho. }
  assert (s_mem s3 = s_mem s1 /\ xbar_ok k n s3 f') as [Em Hx3] by (split; [apply Hss|done]).
  pose proof Hev as [_ [[Ews Hx]|(w & va & L & Ews & Hva & Hal & Hne & HL & Hn & Hwb & Hx)]].
  - exists None. split; [apply fill_caches_ok|done|apply fill_range| |done].
    exists f', DM. rewrite Em. do 3 (split; [done|]). apply fill_lines; [|done]. intros a' Ha' Hne. cbn. rewrite fill_other, decide_True by done. by apply Hx.
  - assert (cl s1 i va = Some L) as HL1 by (by rewrite (cl_at k world s1 i c1)).
    pose proof (Hr1 i va L Hi Hva HL1) as Hvm.
    exists (Some (va, L)). split; [apply fill_caches_ok|done|apply fill_range| |].
    + exists f', DM. rewrite Em. do 3 (split; [done|]). apply fill_lines; [|done]. intros a' Ha' Hne'. cbn.
      case_decide as Hd'; [destruct Hd' as [_ E]|].
      * rewrite <- HL. rewrite <- E. apply (cline_align k world c1); [|done].
        by apply (proj2 Hs1 _ _ Hc1).
      * rewrite fill_other, decide_True by done. apply Hx; [done..|]. naive_solver.
    + exists w, (cp_writebackClean (params c1)). split; [done|]. split; [done|]. split; [done|]. split; [done|]. split.
      * rewrite (lc_value _ _ _ _ _ (Hl1 va Hvm) i L Hi HL1). unfold line_at. pose proof (line_in_mem k lo hi B va Hvm).
        pose proof (pow2_pos k ltac:(destruct B; lia)). apply get_bytes_length; lia.
      * rewrite fill_other, decide_True by (try done; congruence). done.
Qed.
End Fill.

(** ** The writebacks *)

Lemma writebacks_ok e s M i c ws fl : filled s M i ws fl -> 0 <= i < n -> s_caches s !! Z.to_nat i = Some c ->
  exists s', doWritebacksAtomic (get_cache i) (xbar_send e send_fuel i) cpu_snoop ws s = Ok s' /\ coherent s' M /\
    s_caches s' = s_caches s /\ x_params (s_xbar s') = x_params (s_xbar s) /\ outstandingCMO (s_xbar s') = outstandingCMO (s_xbar s).
Proof.
  intros [Hs HM Hr (f & DM & Hx & Hrq & Hm & Hl) Hfl] Hi Hc. pose proof (mb_k _ _ _ B) as Hk.
  destruct fl as [[va L]|].
  - destruct Hfl as (w & clean & -> & Hva & Hal & Hw & HL & Hn). cbn [doWritebacksAtomic].
    assert (held f (lkey va) i = true) as Hheld.
    { apply (lc_held _ _ _ _ _ (Hl va Hva)); [done|]. cbn. by rewrite decide_True by by rewrite Hal. }
    assert (lkey va = key k va (world va)) as Ek by (unfold lkey; by rewrite Hal). rewrite Ek in Hheld.
    destruct (writeback_ok k world lo hi n e i va w clean L Hk Hi B Hva Hal Hw HL 1 s f DM Hx Hm Hheld)
      as (w' & s' & f' & DM' & Es & Ec & Ex & Eo & Hx' & Hol & Hrq' & Hh & Hm' & Hl' & HLv).
    rewrite <- Ek in Hol, Hh, Hrq'.
    assert (isCachedAbove (get_cache i) cpu_snoop w s = Ok (false, w, s)) as ->.
    { unfold isCachedAbove, get_cache. rewrite (aread_Ok _ _ c) by (done || lia). cbn [mbind res_bind].
      destruct (forwardSnoops (params c)); cbn [negb cpu_snoop mbind res_bind]; [|done].
      unfold isBlockCached. by destruct (wp_flags _ _ _ _ _ _ Hw) as [E|E]; rewrite E. }
    cbn [mbind res_bind]. change send_fuel with 2%nat. rewrite Es. cbn [mbind res_bind].
    exists s'. split; [done|]. split; [|by split_and!]. 
    assert (forall j a, cl s' j a = cl s j a) as Ecl by (intros j a; unfold CohBus.cl; by rewrite Ec).
    split; [by unfold caches_ok; rewrite Ec|done|intros j a L0; rewrite Ecl; by apply Hr|].
    exists f', DM'. split; [done|]. split; [intros l; destruct (decide (l = lkey va)) as [->|Hne]; [by rewrite Hrq'|by rewrite Hol]|].
    split; [done|]. intros a Ha. pose proof (in_mem_ok k lo hi B a Ha) as Hao. pose proof (in_mem_ok k lo hi B va Hva) as Hvo.
    destruct (decide (align k a = va)) as [E|Hne].
    + assert (lkey a = lkey va) as Ek' by (unfold lkey, key; by rewrite E, Hal).
      eapply (line_writeback n (fun j => with_flight i (Some (va, L)) (cl s) j a) _ _ _ _ _ _ i L); [by apply Hl|done|by cbn; rewrite decide_True|..].
      * rewrite Ecl, <- Hn. apply cl_same; try done. by rewrite Hal.
      * intros j Hj Hji. cbn. rewrite Ecl, decide_False by naive_solver. done.
      * intros j Hj Hji. cbn. rewrite Ek'. apply Hh; [lia|done].
      * assert (forall X, line_at k lo X a = line_at k lo X va) as EL by (intros X; unfold line_at; by rewrite E, Hal).
        rewrite !EL. destruct (l_d L); [done|by rewrite HLv].
    + rewrite Hl' by done. eapply line_coh_ext; [by apply Hl| |].
      * intros j Hj. cbn. rewrite Ecl, decide_False by naive_solver. done.
      * intros j Hj. unfold held. cbn. rewrite Hol; [done|]. apply lkey_ne; [done|]. by rewrite Hal.
  - subst ws. exists s. split; [done|]. split; [|by split_and!]. split; try done. by exists f, DM.
Qed.

(** ** A request of a processor *)

(** The reply [pkt'] to a request is that of the flat memory. *)
Record replies pkt d (ok : bool) M pkt' : Prop := {
  rp_cmd : p_cmd pkt' = responseCommand (p_cmd pkt);
  rp_data : p_data pkt' = Some (flat_read lo pkt d M);
  rp_extra : p_cmd pkt = StoreCondReq -> r_extraData (p_req pkt') = Some (if ok then 1 else 0) }.

(** The two systems have the same parameters. *)
Definition same_params s s' : Prop :=
  params <$> s_caches s' = params <$> s_caches s /\ x_params (s_xbar s') = x_params (s_xbar s) /\
  outstandingCMO (s_xbar s') = outstandingCMO (s_xbar s).

Lemma set_cache_params s i c c' : s_caches s !! Z.to_nat i = Some c -> params c' = params c -> same_params s (set_cache i c' s).
Proof.
  intros Hc Hp. split; [|done]. cbn [set_cache s_caches]. rewrite list_fmap_insert, Hp. apply list_insert_id.
  by rewrite list_lookup_fmap, Hc.
Qed.
Lemma same_params_trans s1 s2 s3 : same_params s1 s2 -> same_params s2 s3 -> same_params s1 s3.
Proof. unfold same_params. naive_solver congruence. Qed.

Lemma access_needsResponse pkt : p_cmd pkt ∈ access_cmds -> needsResponse pkt = true /\ isRequest pkt = true /\ isClean pkt = false /\
  isEviction pkt || cmd_eq (p_cmd pkt) WriteClean = false.
Proof.
  unfold access_cmds. rewrite !elem_of_cons, elem_of_nil. intros H.
  destruct H as [E|[E|[E|[E|[E|[E|[E|[]]]]]]]]; by on_cmd E.
Qed.

Lemma get_cache_at s i c : 0 <= i -> s_caches s !! Z.to_nat i = Some c -> get_cache i s = Ok c.
Proof. intros. by apply aread_Ok. Qed.

(** The last steps of [recvAtomic]. *)
Lemma respond_ok pkt d ok v pkt' v' M : cpu_packet k world pkt d -> in_mem lo hi (p_addr pkt) -> Z.of_nat (length M) = hi - lo + 1 ->
  v = line_at k lo M (p_addr pkt) -> served k pkt d ok v pkt' v' ->
  exists pkt'', (if needsResponse pkt' then makeResponse pkt' else Ok pkt') = Ok pkt'' /\ replies pkt d ok M pkt''.
Proof.
  intros Hq Ha HM Hv Hs. destruct (served_flat k lo hi world B pkt d ok v pkt' v' M Hq Ha HM Hv Hs) as (_ & Hd & _).
  destruct (access_needsResponse pkt (cq_cmd _ _ _ _ Hq)) as (H1 & H2 & _).
  unfold makeResponse, needsResponse, isRequest in *. rewrite (sv_cmd _ _ _ _ _ _ _ Hs), H1, H2. eexists. split; [done|].
  split; cbn [drop_flags with_flags with_cmd p_cmd p_data p_req]; [done|done|apply Hs].
Qed.

Lemma miss_cmd_ok c pkt o : miss_cmd c pkt o ∈ miss_cmds /\ cmd_isInvalidate (miss_cmd c pkt o) = cmd_needsWritable (miss_cmd c pkt o) /\
  (cmd_hasData (responseCommand (miss_cmd c pkt o)) = true -> o = None).
Proof. unfold miss_cmd, miss_cmds. rewrite !elem_of_cons. repeat case_match; (split; [tauto|]); by split. Qed.

(** A miss. *)
Lemma miss_step e s M i c0 c pkt d o : env_ok e -> coherent s M -> 0 <= i < n -> s_caches s !! Z.to_nat i = Some c ->
  cpu_packet k world pkt d -> in_mem lo hi (p_addr pkt) -> req_for c pkt -> missed k world c0 pkt o c -> (o = None -> p_cmd pkt <> StoreCondReq) ->
  exists ok pkt' ws fl s' L', handleAtomicReqMiss (get_cache i) (put_cache i) (xbar_send e send_fuel i) e pkt o s = Ok (pkt', ws, s') /\
    filled s' (flat_write lo pkt ok d M) i ws fl /\ served k pkt d ok (line_at k lo M (p_addr pkt)) pkt' (l_v L') /\ same_params s s' /\
    exists c', s_caches s' !! Z.to_nat i = Some c'.
Proof.
  intros He [Hs HM Hr (f & DM & Hx & Hrq & Hm & Hl)] Hi Hc Hq Ha Hrf Hmiss Hnsc. pose proof (mb_k _ _ _ B) as Hk.
  pose proof (cq_addr _ _ _ _ Hq) as Hao. destruct (cq_req _ _ _ _ Hq) as [Hun Hcm].
  destruct (access_needsResponse pkt (cq_cmd _ _ _ _ Hq)) as (_ & _ & _ & Hev).
  unfold handleAtomicReqMiss. rewrite Hev, Hun. cbn [orb andb]. rewrite (get_cache_at s i c) by (done || lia). cbn [mbind res_bind].
  rewrite (needsWritable_req pkt) by apply Hq. cbn [mbind res_bind].
  destruct (createMissPacket_ok k world e c0 c pkt d o He Hq Hmiss Hnsc) as (q & -> & Hbus). cbn [mbind res_bind].
  destruct (miss_cmd_ok c pkt o) as (Hmc & Hinv & Hhd). set (cmd := miss_cmd c pkt o) in *. set (a := p_addr pkt) in *.
  pose proof (miss_needsWritable k world c0 c pkt d o Hq Hmiss) as Enw. fold cmd in Enw.
  pose proof (Hl a Ha) as Hla. pose proof (lkey_align a ltac:(lia)) as Ek.
  assert (cl s i a = cline k world c a) as Ecl by (by apply (cl_at k world)).
  assert (Z.of_nat (length (line_at k lo M a)) = 2 ^ k) as Hlv.
  { unfold line_at. pose proof (line_in_mem k lo hi B a Ha). pose proof (pow2_pos k ltac:(lia)). apply get_bytes_length; lia. }
  assert (cmd_needsWritable (p_cmd pkt) = false -> cline k world c a = None) as Hnone.
  { intros En. destruct Hmiss as (_ & _ & E & Ho). unfold a. rewrite E. destruct o; [destruct Ho as (_ & _ & _ & _ & _ & _ & _ & Hn); congruence|done]. }
  destruct (bus_request_ok k world lo hi n e i a q cmd (p_req pkt) (line_at k lo M a) (holder (item f (lkey a))) Hk Hi B Ha Hbus Hmc Hun
    1 s f DM Hs Hx) as (q' & s2 & f' & sh & rd & Eb & Hres & Hx2 & Hrq2 & Hhi & Hh & Ho & Hss & Hsh & Hrd); rewrite ?Ek in *; try done.
  { intros j Hj Hp. by apply (lc_held _ _ _ _ _ Hla). }
  { intros j L Hj HL _. apply elem_others in Hj. eapply (lc_value _ _ _ _ _ Hla j); [lia|done]. }
  { intros j j' Hj Hj'. apply elem_others in Hj, Hj'. apply (lc_owner _ _ _ _ _ Hla); lia. }
  { intros Ed Hno. apply (lc_mem _ _ _ _ _ Hla). intros j Hj. destruct (decide (j = i)) as [->|Hji]; [|by apply Hno, elem_others].
    cbn. rewrite Ecl. destruct Hmiss as (_ & _ & E & Hoo). unfold a. rewrite E. rewrite (Hhd Ed) in Hoo. by rewrite Hoo. }
  change send_fuel with 2%nat. rewrite Eb. cbn [mbind res_bind].
  assert (s_caches s2 !! Z.to_nat i = Some c) as Hc2.
  { rewrite (ss_self _ _ _ _ _ _ _ _ _ _ Hss); [done|lia|]. rewrite elem_others. lia. }
  rewrite (get_cache_at s2 i c) by (done || lia). cbn [mbind res_bind].
  destruct (handle_response_ok k world e c0 c pkt d o q q' sh rd (line_at k lo M a) He Hq Hrf Hmiss Hnsc Hbus Hres)
    as (ok & pkt' & p & ws & c2 & b2 & L' & -> & Hok2 & Hev2 & Hg2 & HL' & Hsv & (F1 & F2 & F3)).
  { intros L HL. eapply (lc_value _ _ _ _ _ Hla i); [done|]. cbn. by rewrite Ecl. }
  cbn [mbind res_bind]. rewrite (put_cache_eq k world lo hi n) by (done || apply Hss). cbn [mbind res_bind].
  rewrite (get_cache_at _ i c2); [|lia|].
  2:{ cbn [set_cache s_caches]. apply list_lookup_insert_eq. apply lookup_lt_Some in Hc2. lia. }
  cbn [mbind res_bind ptr_valid]. rewrite Hg2. cbn [mbind res_bind andb].
  destruct (served_flat k lo hi world B pkt d ok _ pkt' (l_v L') M Hq Ha HM eq_refl Hsv) as (G1 & _ & G3 & G4).
  assert (cmd_needsWritable (p_cmd pkt) = false -> l_v L' = line_at k lo M a) as Hro.
  { intros En. rewrite (sv_line _ _ _ _ _ _ _ Hsv), (new_bytes_none k world) by done. done. }
  destruct (fill_filled s s2 M (flat_write lo pkt ok d M) i a c c2 ws f f' DM cmd L' sh rd (cmd_needsWritable (p_cmd pkt))) as [fl Hfl]; try done.
  { by rewrite Hinv, Enw. }
  { rewrite <- Enw, <- Hinv. exact Hh. }
  { rewrite <- Enw, <- Hinv. exact Hsh. }
  exists ok, pkt', ws, fl, (set_cache i c2 s2), L'. split; [done|]. split; [done|]. split; [done|]. split.
  - eapply same_params_trans; [|apply (set_cache_params s2 i c); [done|by destruct Hev2 as [-> _]]]. split; [|split]; apply Hss.
  - exists c2. cbn [set_cache s_caches]. apply list_lookup_insert_eq. apply lookup_lt_Some in Hc2. lia.
Qed.

Lemma clean_block_none e pkt o c : isClean pkt = false -> (forall q, o = Some q -> exists b, get_blk c q = Ok b) -> clean_block e pkt o c = Ok (pkt, [], c).
Proof. intros Hcl Ho. unfold clean_block. destruct o as [q|]; [|done]. destruct (Ho q eq_refl) as [b ->]. cbn [mbind res_bind]. by rewrite Hcl. Qed.

Lemma retire_temp_none e s i c o : s_caches s !! Z.to_nat i = Some c -> 0 <= i -> o <> Some TempBlk ->
  retire_temp (get_cache i) (put_cache i) (xbar_send e send_fuel i) cpu_snoop e o s = Ok s.
Proof. intros Hc Hi Ho. unfold retire_temp. rewrite (get_cache_at s i c) by done. cbn [mbind res_bind]. by destruct o as [[]|]. Qed.

(** [recvAtomic] of the cache of a processor, before whole-line writes are
    promoted. *)
Lemma base_recv_ok e s M i c pkt d : env_ok e -> coherent s M -> 0 <= i < n -> s_caches s !! Z.to_nat i = Some c ->
  cpu_packet k world pkt d -> in_mem lo hi (p_addr pkt) -> req_for c pkt ->
  exists ok pkt' s', BaseCache_recvAtomic (get_cache i) (put_cache i) (xbar_send e send_fuel i) cpu_snoop e pkt s = Ok (pkt', s') /\
    coherent s' (flat_write lo pkt ok d M) /\ same_params s s' /\ replies pkt d ok M pkt'.
Proof.
  intros He Hch Hi Hc Hq Ha Hrf. pose proof (ch_caches _ _ Hch) as Hs. pose proof (ch_length _ _ Hch) as HM.
  destruct (proj2 Hs _ _ Hc) as [Hok _]. destruct (access_needsResponse pkt (cq_cmd _ _ _ _ Hq)) as (Hnr & Hrq & Hcl & _).
  assert (forall L, cline k world c (p_addr pkt) = Some L -> l_v L = line_at k lo M (p_addr pkt)) as Hval.
  { destruct (ch_lines _ _ Hch) as (f & DM & _ & _ & _ & Hl). intros L HL. eapply (lc_value _ _ _ _ _ (Hl _ Ha) i); [done|].
    cbn. by rewrite (cl_at k world s i c). }
  unfold BaseCache_recvAtomic. assert (cacheResponding pkt = false) as -> by (unfold cacheResponding; by rewrite (cq_flags _ _ _ _ Hq)).
  cbn [andb]. rewrite (get_cache_at s i c) by (done || lia). cbn [mbind res_bind].
  destruct (access_ok k world e c pkt d He Hok Hq Hrf) as
    [(ok & pkt' & p & c' & L & L' & -> & Hok' & Hu & HL & HL' & Hnw & [b Hb] & Hsv & Hwr)|[(c' & -> & Esc & (Hok' & Hu & Hcl' & Hn))|(o & c' & -> & Hmiss & Hnsc)]];
    cbn [mbind res_bind].
  - (* a hit *)
    rewrite clean_block_none by (try (intros q [= <-]; by exists b); unfold isClean in *; by rewrite (sv_cmd _ _ _ _ _ _ _ Hsv)).
    cbn [mbind res_bind]. rewrite (put_cache_eq k world lo hi n) by done. cbn [mbind res_bind doWritebacksAtomic app].
    pose proof Hu as (Hp & _).
    rewrite (retire_temp_none e _ i c') by (try done; try lia; cbn [set_cache s_caches]; apply list_lookup_insert_eq; apply lookup_lt_Some in Hc; lia).
    cbn [mbind res_bind]. pose proof (Hval L HL) as Hv.
    destruct (served_flat k lo hi world B pkt d ok _ pkt' (l_v L') M Hq Ha HM Hv Hsv) as (G1 & _ & G3 & G4).
    destruct (respond_ok pkt d ok _ pkt' (l_v L') M Hq Ha HM Hv Hsv) as (pkt'' & -> & Hrp). cbn [mbind res_bind].
    exists ok, pkt'', (set_cache i c' s). split; [done|]. split; [|split; [by apply (set_cache_params s i c)|done]].
    apply (coherent_hit s M _ i (p_addr pkt) c c' L L'); try done.
    intros Hw. rewrite (sv_line _ _ _ _ _ _ _ Hsv), (new_bytes_none k world); [done|done|].
    apply not_true_iff_false. intros En. apply Hnw in En. congruence.
  - (* a store-conditional that misses *)
    rewrite clean_block_none by (done || by unfold isClean in *).
    cbn [mbind res_bind]. rewrite (put_cache_eq k world lo hi n) by done. cbn [mbind res_bind doWritebacksAtomic app].
    pose proof Hu as (Hp & _ & Huo).
    rewrite (retire_temp_none e _ i c') by (try done; try lia; cbn [set_cache s_caches]; apply list_lookup_insert_eq; apply lookup_lt_Some in Hc; lia).
    cbn [mbind res_bind]. unfold makeResponse, needsResponse, isRequest in *. cbn [with_req p_cmd]. rewrite Hnr, Hrq. cbn [mbind res_bind].
    exists false. eexists _, (set_cache i c' s). split; [done|]. split; [|split; [by apply (set_cache_params s i c)|]].
    + assert (flat_write lo pkt false d M = M) as -> by (unfold flat_write, new_bytes; by rewrite Esc).
      apply (coherent_touch s M i c c'); try done. intros a Hao. destruct (decide (align k a = align k (p_addr pkt))) as [E|E]; [|by apply Huo].
      rewrite <- (cline_align k world c' a), <- (cline_align k world c a), E by done. by rewrite !(cline_align k world) by (done || apply Hq).
    + destruct (cq_data _ _ _ _ Hq) as [Hd _]. split; cbn; [by rewrite Esc|unfold flat_read, isRead; by rewrite Esc|done].
  - (* a miss *)
    pose proof Hmiss as (Hok' & (Hp & _ & Huo) & Hcl' & Ho).
    assert (forall q, o = Some q -> exists b, get_blk c' q = Ok b) as Hblk.
    { intros q ->. destruct Ho as (p & b & v & -> & (Hb & _) & _). by exists b. }
    rewrite clean_block_none by done. cbn [mbind res_bind]. rewrite (put_cache_eq k world lo hi n) by done. cbn [mbind res_bind doWritebacksAtomic app].
    assert (s_caches (set_cache i c' s) !! Z.to_nat i = Some c') as Hc' by (cbn [set_cache s_caches]; apply list_lookup_insert_eq; apply lookup_lt_Some in Hc; lia).
    assert (coherent (set_cache i c' s) M) as Hch'.
    { apply (coherent_touch s M i c c'); try done. intros a Hao. destruct (decide (align k a = align k (p_addr pkt))) as [E|E]; [|by apply Huo].
      rewrite <- (cline_align k world c' a), <- (cline_align k world c a), E by done. by rewrite !(cline_align k world) by (done || apply Hq). }
    destruct (miss_step e (set_cache i c' s) M i c c' pkt d o He Hch' Hi Hc' Hq Ha) as (ok & pkt' & ws & fl & s2 & L' & -> & Hfl & Hsv & Hsp & (c2 & Hc2)); try done.
    { unfold req_for in *. by rewrite Hp. }
    cbn [mbind res_bind]. destruct (writebacks_ok e s2 _ i c2 ws fl Hfl Hi Hc2) as (s3 & -> & Hch3 & E1 & E2 & E3). cbn [mbind res_bind].
    rewrite (retire_temp_none e s3 i c2) by (try lia; (by rewrite E1 || (destruct o as [[]|]; try done; by destruct Ho as (? & ? & ? & ? & _)))).
    cbn [mbind res_bind]. destruct (respond_ok pkt d ok _ pkt' (l_v L') M Hq Ha HM eq_refl Hsv) as (pkt'' & -> & Hrp). cbn [mbind res_bind].
    exists ok, pkt'', s3. split; [done|]. split; [done|]. split; [|done].
    eapply same_params_trans; [by apply (set_cache_params s i c c')|]. eapply same_params_trans; [exact Hsp|]. split; [by rewrite E1|by split].
Qed.

End System.
