(* ===== verification/CohTheorems.v ===== *)
(** What the memory system guarantees its processors: it starts coherent,
    answers every request as a flat memory would, and never lets two caches
    disagree. *)
From S2P Require Import Prelude AddrRange CacheBlk ReplPolicy CacheTags TagStore MemPacket Cache SnoopFilter.
From S2P Require Import AbstractMem CoherentXBar CohSystem CohLine CohFill CohHit CohMiss CohSnoop CohFilter.
From S2P Require Import CohMem CohBus CohProto CohCorrect.

(** * Requests *)

(** A request [x_pkt] of processor [x_cpu], with the buffer [x_data]. *)
Record Access := { x_env : Env; x_cpu : Z; x_pkt : Packet; x_data : list Z }.

Section Run.
Context {T D : Type} `{!BaseTags T D}.

(** The requests one after the other, with the replies. *)
Fixpoint run (s : Sys T D) (l : list Access) : res (list Packet * Sys T D) :=
  match l with
  | [] => Ok ([], s)
  | x :: l =>
    '(p, s) ← cpu_send (x_env x) (x_cpu x) (x_pkt x) s;
    '(ps, s) ← run s l;
    Ok (p :: ps, s)
  end.

Lemma run_keeps l s : if_ok (fun '(_, s') => temps_kept s s') (run s l).
Proof.
  induction l as [|x l IH] in s |- *; cbn [run]; [apply kept_refl|]. apply if_ok_bind.
  eapply if_ok_mono; [apply cpu_send_keeps|]. intros [p s1] K1. apply if_ok_bind. eapply if_ok_mono; [apply IH|].
  intros [ps s2] K2. exact (kept_trans s s1 s2 K1 K2).
Qed.
End Run.

(** The same requests on a flat memory at address [lo]: the replies [ps], and
    the bytes after the last. *)
Inductive flat_run (lo : Z) : list Z -> list Access -> list Packet -> list Z -> Prop :=
| flat_nil M : flat_run lo M [] [] M
| flat_cons M x l p ps ok M' :
  replies lo (x_pkt x) (x_data x) ok M p ->
  flat_run lo (flat_write lo (x_pkt x) ok (x_data x) M) l ps M' ->
  flat_run lo M (x :: l) (p :: ps) M'.

Section Theorems.
Context {T D : Type} `{!BaseTags T D, !BaseTagsLaws T D} (k : Z) (world : Z -> bool) (lo hi n : Z) (B : mem_bounds k lo hi).
Implicit Types (s : Sys T D) (c : Cache T D) (pkt : Packet) (M d : list Z).

(** A request that processor [x_cpu] of the system [s] may make. *)
Record valid_access s (x : Access) : Prop := {
  va_env : env_ok (x_env x);
  va_cpu : 0 <= x_cpu x < n;
  va_packet : cpu_packet k world (x_pkt x) (x_data x);
  va_mem : in_mem lo hi (p_addr (x_pkt x));
  va_params : forall c, s_caches s !! Z.to_nat (x_cpu x) = Some c -> req_for c (x_pkt x) }.

Lemma req_for_params c c' pkt : params c' = params c -> req_for c pkt -> req_for c' pkt.
Proof. unfold req_for. by intros ->. Qed.

Lemma valid_same s s' x : same_params s s' -> valid_access s x -> valid_access s' x.
Proof.
  intros [Hp _] [H1 H2 H3 H4 H5]. split; try done. intros c' Hc'.
  pose proof (f_equal (fun l => l !! Z.to_nat (x_cpu x)) Hp) as E. cbn in E. rewrite !list_lookup_fmap, Hc' in E.
  destruct (s_caches s !! Z.to_nat (x_cpu x)) as [c|] eqn:Ec; [|done]. injection E as E.
  by apply (req_for_params c); [|apply H5].
Qed.

(** ** One request *)

(** A whole-line write is the same request. *)
Lemma promote_ok c pkt d : cache_ok k world c -> cpu_packet k world pkt d -> req_for c pkt ->
  let pkt' := promoteWholeLineWrites c pkt in
  cpu_packet k world pkt' d /\ req_for c pkt' /\ p_addr pkt' = p_addr pkt /\
  (forall ok M, flat_write lo pkt' ok d M = flat_write lo pkt ok d M) /\
  (forall ok M p, replies lo pkt' d ok M p -> replies lo pkt d ok M p).
Proof.
  intros Hc Hq Hr pkt'. unfold pkt', promoteWholeLineWrites. pose proof (bt_k _ _ (co_tags _ _ _ Hc)) as Hk.
  destruct (doFastWrites (params c) && cmd_eq (p_cmd pkt) WriteReq && (p_size pkt =? c_blkSize c) && (getOffset pkt (c_blkSize c) =? 0)) eqn:E; [|by split_and!].
  apply andb_true_iff in E as [[[_ Ec]%andb_true_iff Es]%andb_true_iff Eo]. apply cmd_eq_spec in Ec.
  rewrite (co_blkSize _ _ _ Hc) in *. apply Z.eqb_eq in Es, Eo. rewrite getOffset_eq in Eo by (done || apply Hq).
  split; [|split; [|split; [done|split]]].
  - destruct Hq. split; cbn [with_cmd p_cmd p_addr p_size p_isSecure p_flags p_data p_req]; try done.
    + unfold access_cmds. set_solver.
    + intros _. split; [|done]. unfold align. pose proof (pow2_pos k ltac:(lia)). pose proof (Z.div_mod (p_addr pkt) (2 ^ k) ltac:(lia)). lia.
  - unfold req_for in *. cbn [with_cmd p_cmd p_req]. by rewrite Ec in Hr.
  - intros ok M. unfold flat_write, new_bytes. cbn [with_cmd p_cmd p_addr p_size]. by rewrite Ec.
  - intros ok M p [H1 H2 H3]. cbn [with_cmd p_cmd] in *. split; rewrite ?Ec; try done.
    rewrite H2. unfold flat_read, isRead. cbn [with_cmd p_cmd]. by rewrite Ec.
Qed.

Lemma cpu_send_ok s M x : coherent k world lo hi n s M -> valid_access s x ->
  exists ok p s', cpu_send (x_env x) (x_cpu x) (x_pkt x) s = Ok (p, s') /\
    coherent k world lo hi n s' (flat_write lo (x_pkt x) ok (x_data x) M) /\ same_params s s' /\
    replies lo (x_pkt x) (x_data x) ok M p.
Proof.
  intros Hch [He Hi Hq Ha Hr]. pose proof (ch_caches _ _ _ _ _ _ _ Hch) as Hs.
  destruct (cache_at k world lo hi n s (x_cpu x) Hs Hi) as (c & Hc & Hg & Hok & _).
  destruct (promote_ok c (x_pkt x) (x_data x) Hok Hq (Hr c Hc)) as (Hq' & Hr' & Ea & Ew & Erp).
  unfold cpu_send, recvAtomic. rewrite Hg. cbn [mbind res_bind].
  destruct (base_recv_ok k world lo hi n B (x_env x) s M (x_cpu x) c (promoteWholeLineWrites c (x_pkt x)) (x_data x) He Hch Hi Hc Hq')
    as (ok & p & s' & -> & Hch' & Hsp & Hrp); [by rewrite Ea|done|].
  exists ok, p, s'. split; [done|]. rewrite <- Ew. split; [done|]. split; [done|]. by apply Erp.
Qed.

(** ** Many requests *)

Lemma run_ok l : forall s M, coherent k world lo hi n s M -> Forall (valid_access s) l ->
  exists ps s' M', run s l = Ok (ps, s') /\ flat_run lo M l ps M' /\ coherent k world lo hi n s' M'.
Proof.
  induction l as [|x l IH]; intros s M Hch Hv; cbn [run].
  - exists [], s, M. split_and!; try done. constructor.
  - apply Forall_cons in Hv as [Hx Hv]. destruct (cpu_send_ok s M x Hch Hx) as (ok & p & s1 & -> & Hch1 & Hsp & Hrp).
    destruct (IH s1 _ Hch1) as (ps & s' & M' & E & Hfl & Hch').
    { eapply Forall_impl; [exact Hv|]. intros y. by apply valid_same. }
    cbn [mbind res_bind]. rewrite E. cbn [mbind res_bind]. exists (p :: ps), s', M'. split; [done|]. split; [|done].
    by econstructor.
Qed.
(** ** The first state *)

(** A cache as the constructor makes it, on new tags. *)
Definition fresh_cache c : Prop :=
  exists p t data raw raw_addr raw_data, c = BaseCache_new p t data raw raw_addr raw_data /\ bt_ok k t /\
    (forall q b, bt_blk t q = Ok b -> isValid b = false /\ exists v, aread data q = Ok v /\ Z.of_nat (length v) = 2 ^ k) /\
    cp_blkSize p = 2 ^ k /\ 0 < clockPeriod p /\ clusivity p = mostly_incl /\
    forall a, in_mem lo hi a -> existsb (fun r => contains r a) (addrRanges p) = true.

Lemma fresh_cache_ok c : fresh_cache c -> cache_ok k world c /\ (forall a, in_mem lo hi a -> inRange c a = true) /\
  forall a, addr_ok a -> cline k world c a = None.
Proof.
  intros (p & t & d & raw & ra & rd & -> & Ht & Hb & Hs & Hc & Hi & Hr).
  assert (cache_ok k world (BaseCache_new p t d raw ra rd)) as Hok.
  { split; cbn [BaseCache_new tags params c_data tempBlock tempBlockWriteback]; try done.
    - intros q b Hq. by apply Hb in Hq as [_ ?].
    - intros q b Hq Hv. apply Hb in Hq as [? _]. congruence. }
  split; [done|]. split; [done|]. intros a Ha.
  destruct (cline_cases k world _ a Hok Ha) as [(q & b & v & _ & (H1 & H2 & _) & _)|(_ & -> & _)]; [|done].
  cbn [BaseCache_new tags] in H1. apply Hb in H1 as [? _]. congruence.
Qed.

(** A system before its first request; memory holds [M]. *)
Record fresh_system s M : Prop := {
  fs_caches : length (s_caches s) = Z.to_nat n;
  fs_cache : forall j c, s_caches s !! j = Some c -> fresh_cache c;
  fs_n : 0 <= n <= 64;
  fs_filter : exists capacity f0 f, SnoopFilter_new (2 ^ k) capacity = Ok f0 /\ setSlavePorts all_snoop (seqZ 0 n) f0 = Ok f /\
    snoopFilter (s_xbar s) = Some f;
  fs_xbar : pointOfCoherency (x_params (s_xbar s)) = true /\ bypassCaches (x_params (s_xbar s)) = false;
  fs_mem : mem_ok lo hi (s_mem s) M }.

(** [setSlavePorts] numbers the ports in order. *)
Lemma setSlavePorts_loop_ok m : forall (i : Z) f, 0 <= i -> sf_slavePorts f = seqZ 0 i ->
  localSlavePortIds f = seqZ 0 i ++ replicate m InvalidPortID ->
  exists f', setSlavePorts_loop all_snoop (seqZ i (Z.of_nat m)) i f = Ok (i + Z.of_nat m, f') /\
    sf_slavePorts f' = seqZ 0 (i + Z.of_nat m) /\ localSlavePortIds f' = seqZ 0 (i + Z.of_nat m) /\ sf_linesize f' = sf_linesize f /\ cachedLocations f' = cachedLocations f.
Proof.
  induction m as [|m IH]; intros i f Hi Hp Hl.
  - exists f. cbn [replicate] in Hl. rewrite app_nil_r in Hl. rewrite Z.add_0_r. by split_and!.
  - rewrite seqZ_cons by lia. cbn [setSlavePorts_loop all_snoop]. rewrite Hl.
    rewrite awrite_Ok by (rewrite length_app, length_seqZ, length_replicate; lia). cbn [mbind res_bind].
    replace (Z.pred (Z.of_nat (S m))) with (Z.of_nat m) by lia. replace (Z.succ i) with (i + 1) by lia.
    assert (seqZ 0 (i + 1) = seqZ 0 i ++ [i]) as Eseq by (rewrite seqZ_app by lia; cbn; by rewrite Z.add_0_l).
    destruct (IH (i + 1)) with (f := {| cachedLocations := cachedLocations f; reqLookupResult := reqLookupResult f; retryItem := retryItem f;
      sf_slavePorts := sf_slavePorts f ++ [i]; localSlavePortIds := <[Z.to_nat i := i]> (seqZ 0 i ++ replicate (S m) InvalidPortID);
      sf_linesize := sf_linesize f; maxEntryCount := maxEntryCount f |}) as (f' & E & H1 & H2 & H3 & H4).
    + lia.
    + cbn [sf_slavePorts]. by rewrite Hp, Eseq.
    + cbn [localSlavePortIds]. rewrite insert_app_r_alt by (rewrite length_seqZ; lia). rewrite length_seqZ, Nat.sub_diag.
      cbn [replicate list_insert]. rewrite Eseq, <- app_assoc. done.
    + exists f'. replace (i + Z.of_nat (S m)) with (i + 1 + Z.of_nat m) by lia. by split_and!.
Qed.

Lemma setSlavePorts_ok capacity f0 f : 0 <= n <= 64 -> SnoopFilter_new (2 ^ k) capacity = Ok f0 ->
  setSlavePorts all_snoop (seqZ 0 n) f0 = Ok f -> filter_ok k n f /\ forall l, item f l = SnoopItem_new.
Proof.
  intros Hn H0 H. unfold SnoopFilter_new in H0. destruct (negb (2 ^ k =? 0)); [|done]. injection H0 as <-.
  unfold setSlavePorts in H. cbn [localSlavePortIds] in H. rewrite take_nil, length_seqZ, Nat.sub_0_r in H. cbn [app] in H.
  set (f1 := Build_SnoopFilter _ _ _ _ _ _ _) in H.
  destruct (setSlavePorts_loop_ok (Z.to_nat n) 0 f1) as (f' & E & H1 & H2 & H3 & H4); [lia|done|done|].
  rewrite Z2Nat.id in E, H1, H2 by lia. rewrite Z.add_0_l in *. rewrite E in H. cbn [mbind res_bind] in H.
  rewrite (proj2 (Z.leb_le n 64)) in H by lia. injection H as <-.
  assert (cachedLocations f' = ∅) as E4 by (by rewrite H4). split; [split; try done; intros l i; by rewrite E4|].
  intros l. unfold item. by rewrite E4.
Qed.

Lemma fresh_coherent s M : fresh_system s M -> coherent k world lo hi n s M.
Proof.
  intros [H1 H2 H3 (cap & f0 & f & Hf0 & Hf & Hsf) [H4 H5] Hm]. destruct (setSlavePorts_ok cap f0 f H3 Hf0 Hf) as [Hfo Hit].
  assert (forall j a, addr_ok a -> cl k world s j a = None) as Hcl.
  { intros j a Ha. unfold cl. destruct (s_caches s !! Z.to_nat j) as [c|] eqn:E; [|done]. by apply (fresh_cache_ok c (H2 _ _ E)). }
  split.
  - split; [done|]. intros j c Hc. by destruct (fresh_cache_ok c (H2 _ _ Hc)) as (? & ? & _).
  - apply Hm.
  - intros j a L _ Ha. by rewrite Hcl.
  - exists f, M. split; [by split_and!|]. split; [intros l; by rewrite Hit|]. split; [done|]. intros a Ha.
    pose proof (in_mem_ok k lo hi B a Ha) as Hao. split; cbn.
    + intros j L _. by rewrite Hcl.
    + intros j j' L _ _. by rewrite Hcl.
    + intros j j' _ _. by rewrite Hcl.
    + done.
    + intros j _. by rewrite Hcl.
Qed.

(** ** Reachable states *)

Inductive reachable s0 : Sys T D -> Prop :=
| reach_first : reachable s0 s0
| reach_request s x p s' : reachable s0 s -> valid_access s x ->
    cpu_send (x_env x) (x_cpu x) (x_pkt x) s = Ok (p, s') -> reachable s0 s'.

Lemma reachable_coherent s0 M0 s : fresh_system s0 M0 -> reachable s0 s -> exists M, coherent k world lo hi n s M.
Proof.
  intros H0. induction 1 as [|s x p s' _ [M IH] Hx E]; [exists M0; by apply fresh_coherent|].
  destruct (cpu_send_ok s M x IH Hx) as (ok & p' & s2 & E' & Hch & _). rewrite E in E'. injection E' as <- <-. by eexists.
Qed.

Lemma sys_run_reachable s0 M0 l ps s : fresh_system s0 M0 -> Forall (valid_access s0) l -> run s0 l = Ok (ps, s) -> reachable s0 s.
Proof.
  intros H0. enough (forall l s1 ps s M, coherent k world lo hi n s1 M -> reachable s0 s1 -> Forall (valid_access s1) l ->
    run s1 l = Ok (ps, s) -> reachable s0 s) as IH.
  { intros Hl. apply (IH l s0 ps s M0); [by apply fresh_coherent|constructor|done]. }
  clear l ps s. induction l as [|x l IH]; intros s1 ps s M Hch Hr Hv E; cbn [run] in E; [by injection E as _ <-|].
  apply Forall_cons in Hv as [Hx Hv]. destruct (cpu_send_ok s1 M x Hch Hx) as (ok & p & s2 & E1 & Hch2 & Hsp & _).
  rewrite E1 in E. cbn [mbind res_bind] in E. destruct (run s2 l) as [[ps' s']| | |] eqn:E2; try done. injection E as <- <-.
  eapply (IH s2); [done|by eapply reach_request| |done]. eapply Forall_impl; [exact Hv|]. intros y. by apply valid_same.
Qed.

(** * What the processors see *)

(** C1 (sequential consistency of atomic accesses).  Any sequence of loads,
    stores, swaps, prefetches and load-locked or store-conditional accesses of
    any processors, through caches of any tags with snooping, filling, evicting
    and writing back, is answered, and the answers and final bytes are those of
    one flat memory that serves the same requests in the same order; whether a
    store-conditional succeeds is left open, and the flat memory takes its bytes
    if it does.  The caches are mostly inclusive and the requests lie in one
    line each. *)
Theorem runs_refine s0 M0 l : fresh_system s0 M0 -> Forall (valid_access s0) l ->
  exists ps s' M', run s0 l = Ok (ps, s') /\ flat_run lo M0 l ps M' /\ coherent k world lo hi n s' M'.
Proof. intros H0 Hl. by apply run_ok; [apply fresh_coherent|]. Qed.

(** C10 (a load sees the last store).  In every reachable state, what one
    processor stores another processor, or the same one, loads from there. *)
Theorem read_after_write s0 M0 s w r : fresh_system s0 M0 -> reachable s0 s -> valid_access s w -> valid_access s r ->
  p_cmd (x_pkt w) = WriteReq -> p_cmd (x_pkt r) = ReadReq -> p_addr (x_pkt r) = p_addr (x_pkt w) -> p_size (x_pkt r) = p_size (x_pkt w) ->
  exists p s1 q s2, cpu_send (x_env w) (x_cpu w) (x_pkt w) s = Ok (p, s1) /\
    cpu_send (x_env r) (x_cpu r) (x_pkt r) s1 = Ok (q, s2) /\ p_cmd q = ReadResp /\ p_data q = Some (x_data w).
Proof.
  intros H0 Hr Hw Hv Ew Er Ea Es. destruct (reachable_coherent s0 M0 s H0 Hr) as [M Hch].
  destruct (cpu_send_ok s M w Hch Hw) as (ok & p & s1 & E1 & Hch1 & Hsp & _).
  destruct (cpu_send_ok s1 _ r Hch1 (valid_same s s1 r Hsp Hv)) as (ok' & q & s2 & E2 & _ & _ & [R1 R2 _]).
  exists p, s1, q, s2. split; [done|]. split; [done|]. rewrite R1, R2, Er. split; [done|].
  unfold flat_read, isRead. rewrite Er, Ea, Es. cbn. unfold flat_write, new_bytes. rewrite Ew.
  destruct Hw as [_ _ Hq Hm _]. destruct (cq_data _ _ _ _ Hq) as [_ Hd]. rewrite <- Hd, get_put_same; [done|..];
    destruct (offset_in_line k lo hi B _ Hm) as (E & ? & ?); pose proof (line_in_mem k lo hi B _ Hm); destruct (cq_size _ _ _ _ Hq);
    rewrite ?(ch_length _ _ _ _ _ _ _ Hch); lia.
Qed.

(** C8 (progress).  In every reachable state every valid request of every
    processor is served: no assertion fails, no snoop calls nest deeper than
    two crossbar calls, and the packet becomes the response to its command. *)
Theorem requests_answered s0 M0 s x : fresh_system s0 M0 -> reachable s0 s -> valid_access s x ->
  exists p s', cpu_send (x_env x) (x_cpu x) (x_pkt x) s = Ok (p, s') /\
    p_cmd p = responseCommand (p_cmd (x_pkt x)) /\ isResponse p = true /\ reachable s0 s'.
Proof.
  intros H0 Hr Hx. destruct (reachable_coherent s0 M0 s H0 Hr) as [M Hch].
  destruct (cpu_send_ok s M x Hch Hx) as (ok & p & s' & E & _ & _ & [R1 _ _]). exists p, s'. split; [done|]. split; [done|].
  split; [|by eapply reach_request]. unfold isResponse. rewrite R1. pose proof (cq_cmd _ _ _ _ (va_packet _ _ Hx)) as Hc.
  unfold access_cmds in Hc. rewrite !elem_of_cons, elem_of_nil in Hc. by destruct Hc as [->|[->|[->|[->|[->|[->|[->|[]]]]]]]].
Qed.

(** * What the caches hold *)

(** C6 (one writer or many readers).  In every reachable state two caches that
    hold one line hold the same bytes, neither may write them, and at most one
    of the two copies is dirty. *)
Theorem single_writer s0 M0 s i j a L L' : fresh_system s0 M0 -> reachable s0 s -> in_mem lo hi a ->
  0 <= i < n -> 0 <= j < n -> i <> j -> cl k world s i a = Some L -> cl k world s j a = Some L' ->
  l_w L = false /\ l_w L' = false /\ l_v L = l_v L' /\ (l_d L = false \/ l_d L' = false).
Proof.
  intros H0 Hr Ha Hi Hj Hne HL HL'. destruct (reachable_coherent s0 M0 s H0 Hr) as [M [_ _ _ (f & DM & _ & _ & _ & Hl)]].
  destruct (Hl a Ha) as [Hv Hx Ho _ _]. split_and!.
  - apply not_true_iff_false. intros Hw. apply Hne. symmetry. apply (Hx i j L); (done || by rewrite HL').
  - apply not_true_iff_false. intros Hw. apply Hne. apply (Hx j i L'); (done || by rewrite HL).
  - by rewrite (Hv i L), (Hv j L').
  - destruct (l_d L) eqn:E, (l_d L') eqn:E'; auto. exfalso. apply Hne. apply Ho; try done; cbn; by rewrite ?HL, ?HL'.
Qed.

(** C11 (clean lines are those of memory).  In every reachable state, when no
    cache has a dirty copy of a line, every copy of it is what memory has. *)
Theorem clean_copies_agree s0 M0 s : fresh_system s0 M0 -> reachable s0 s ->
  exists DM, pmem (s_mem s) = Some DM /\
  forall i a L, in_mem lo hi a -> 0 <= i < n -> cl k world s i a = Some L ->
    (forall j L', 0 <= j < n -> cl k world s j a = Some L' -> l_d L' = false) -> l_v L = line_at k lo DM a.
Proof.
  intros H0 Hr. destruct (reachable_coherent s0 M0 s H0 Hr) as [M [_ _ _ (f & DM & _ & _ & Hm & Hl)]].
  exists DM. split; [apply Hm|]. intros i a L Ha Hi HL Hd. destruct (Hl a Ha) as [Hv _ _ Hmem _]. rewrite (Hv i L Hi HL). symmetry.
  apply Hmem. intros j Hj. destruct (cl k world s j a) as [L'|] eqn:E; [|done]. by apply (Hd j L').
Qed.

(** C12 (the snoop filter covers the caches).  In every reachable state the
    filter has noted every cache that holds a line, so that no snoop that could
    matter is left out, and no entry waits for a response. *)
Theorem filter_covers s0 M0 s : fresh_system s0 M0 -> reachable s0 s ->
  exists f, snoopFilter (s_xbar s) = Some f /\
  forall a, in_mem lo hi a -> requested (item f (lkey k world a)) = 0 /\
    forall i, 0 <= i < n -> line_present (cl k world s i a) = true -> held f (lkey k world a) i = true.
Proof.
  intros H0 Hr. destruct (reachable_coherent s0 M0 s H0 Hr) as [M [_ _ _ (f & DM & [Hf _] & Hq & _ & Hl)]].
  exists f. split; [done|]. intros a Ha. split; [apply Hq|]. intros i. by apply (lc_held _ _ _ _ _ (Hl a Ha)).
Qed.

End Theorems.

(** * A concrete system *)

(** Two caches of four blocks of eight bytes, two ways, with LRU, over the memory
    [bytes]; [clu]: their clusivity. *)
Definition ex_params_at (hi : Z) (clu : Clusivity) : CacheParams :=
  {| cp_blkSize := 8; isReadOnly := false; cp_writebackClean := false; clusivity := clu; doFastWrites := true;
     forwardSnoops := false; addrRanges := [AddrRange_plain 0 hi]; clockPeriod := 1; maxMasters := 10 |}.
Definition ex_data : list (list Z) := replicate 4 (replicate 8 0).

Definition ex_cache_at (hi : Z) (clu : Clusivity) : res (Cache (BaseSetAssoc LRURP LRUReplData) LRUReplData) :=
  t ← BaseSetAssoc_new 32 8 2 1 1 false LRURP_new raw_blk;
  Ok (BaseCache_new (ex_params_at hi clu) t ex_data raw_blk MaxAddr (replicate 8 0)).

Definition ex_system_at (bytes : list Z) (clu : Clusivity) : res (Sys (BaseSetAssoc LRURP LRUReplData) LRUReplData) :=
  let hi := Z.of_nat (length bytes) - 1 in
  c ← ex_cache_at hi clu;
  f ← SnoopFilter_new 8 1024;
  f ← setSlavePorts all_snoop [0; 1] f;
  Ok {| s_caches := [c; c];
        s_xbar := {| x_params := {| pointOfCoherency := true; pointOfUnification := true; bypassCaches := false; snoopPorts := [0; 1] |};
                     snoopFilter := Some f; outstandingCMO := ∅ |};
        s_mem := {| m_range := AddrRange_plain 0 hi; pmem := Some bytes; lockedAddrList := [] |} |}.

(** Over a kilobyte. *)
Definition ex_bytes : list Z := map (fun i => i mod 256) (seqZ 0 1024).
Definition ex_system : Clusivity -> res (Sys (BaseSetAssoc LRURP LRUReplData) LRUReplData) := ex_system_at ex_bytes.

Definition ex_env : Env :=
  {| now := 5; random := fun a _ => a; Cache.fresh := fun n => replicate (Z.to_nat n) 0; new_id := 77 |}.

Definition ex_access (cpu : Z) (write : bool) (a flags : Z) (d : list Z) : Access :=
  let r := {| r_paddr := a; r_size := Z.of_nat (length d); r_flags := flags; r_masterId := 1; r_taskId := 0;
              r_extraData := None; r_contextId := Some cpu; r_atomicOp := None |} in
  {| x_env := ex_env; x_cpu := cpu; x_data := d;
     x_pkt := with_data (Some d) (if write then createWrite 1 r else createRead 1 r) |}.

Abbreviation ex_fresh := (fresh_system 3 0 1023 2).
Abbreviation ex_valid := (valid_access 3 (fun _ => false) 0 1023 2).

Lemma ex_bounds : mem_bounds 3 0 1023.
Proof. by split. Qed.

Lemma ex_cache_fresh hi c : ex_cache_at hi mostly_incl = Ok c -> fresh_cache 3 0 hi c /\ params c = ex_params_at hi mostly_incl.
Proof.
  destruct (new_sa_ok 3 1 2 1 1 false LRURP_new raw_blk) as (t & E & Ht & Hl & Hv); [lia..|done|].
  unfold ex_cache_at. change (32) with (2 ^ 3 * 2 * 2 ^ 1). change 8 with (2 ^ 3) at 1. rewrite E. intros [= <-]. split; [|done].
  exists (ex_params_at hi mostly_incl), t, ex_data, raw_blk, MaxAddr, (replicate 8 0). split_and!; try done.
  - intros q b Hb. split; [by apply (Hv q)|]. cbn in Hb. apply aread_inv in Hb as [H0 Hb]. apply lookup_lt_Some in Hb. rewrite Hl in Hb.
    exists (replicate 8 0). split; [|done]. apply aread_Ok; [lia|]. unfold ex_data. by apply lookup_replicate_2.
  - intros a [H1 H2]. cbn. unfold contains. cbn. by rewrite (proj2 (Z.leb_le 0 a)), (proj2 (Z.leb_le a hi)) by lia.
Qed.

(** What [ex_system_at] builds. *)
Lemma ex_system_inv bytes s : ex_system_at bytes mostly_incl = Ok s -> let hi := Z.of_nat (length bytes) - 1 in
  exists c f0 f, fresh_cache 3 0 hi c /\ params c = ex_params_at hi mostly_incl /\ SnoopFilter_new 8 1024 = Ok f0 /\
    setSlavePorts all_snoop [0; 1] f0 = Ok f /\ s_caches s = [c; c] /\ snoopFilter (s_xbar s) = Some f /\
    x_params (s_xbar s) = {| pointOfCoherency := true; pointOfUnification := true; bypassCaches := false; snoopPorts := [0; 1] |} /\
    s_mem s = {| m_range := AddrRange_plain 0 hi; pmem := Some bytes; lockedAddrList := [] |}.
Proof.
  intros E hi. unfold ex_system_at in E. destruct (ex_cache_at _ mostly_incl) as [c| | |] eqn:Ec; try done. apply ex_cache_fresh in Ec as [Hc Hp].
  cbn [mbind res_bind] in E. destruct (SnoopFilter_new 8 1024) as [f0| | |] eqn:E0; try done. cbn [mbind res_bind] in E.
  destruct (setSlavePorts all_snoop [0; 1] f0) as [f| | |] eqn:Ef; try done. cbn [mbind res_bind] in E. injection E as <-.
  by exists c, f0, f.
Qed.

Lemma ex_system_at_fresh bytes s : ex_system_at bytes mostly_incl = Ok s -> fresh_system 3 0 (Z.of_nat (length bytes) - 1) 2 s bytes.
Proof.
  intros E. destruct (ex_system_inv bytes s E) as (c & f0 & f & Hc & _ & H0 & Hf & Ec & Es & Ex & Em).
  split; rewrite ?Ec, ?Ex, ?Em; try done.
  - intros [|[|j]] c' [= <-]; done.
  - exists 1024, f0, f. by rewrite Es.
  - split; try done. cbn. lia.
Qed.
Lemma ex_system_fresh s : ex_system mostly_incl = Ok s -> ex_fresh s ex_bytes.
Proof. apply ex_system_at_fresh. Qed.

Lemma ex_params_fresh s i c : ex_system mostly_incl = Ok s -> s_caches s !! i = Some c -> params c = ex_params_at 1023 mostly_incl.
Proof.
  intros E. destruct (ex_system_inv ex_bytes s E) as (c0 & f0 & f & _ & Hp & _ & _ & -> & _). destruct i as [|[|i]]; by intros [= <-].
Qed.

Lemma ex_env_ok : env_ok ex_env.
Proof.
  split; [done|by intros a b H|]. intros n Hn. cbn. by rewrite length_replicate, Z2Nat.id.
Qed.

(** A load or store without flags is valid. *)
Lemma ex_access_valid s i (write : bool) a d : ex_system mostly_incl = Ok s -> 0 <= i < 2 -> 0 <= a <= 1023 -> 0 < Z.of_nat (length d) ->
  a mod 8 + Z.of_nat (length d) <= 8 -> ex_valid s (ex_access i write a 0 d).
Proof.
  intros E Hi Ha Hd Hl. split; [apply ex_env_ok|done| |by destruct write|].
  - destruct write; split; try done; try (unfold addr_ok; cbn; lia); try by eexists.
    + unfold access_cmds. cbn. set_solver.
    + unfold access_cmds. cbn. set_solver.
  - intros c Hc. unfold req_for. rewrite (ex_params_fresh s _ c E Hc). by destruct write.
Qed.

(** The states the examples go through are those of [ex_system]. *)
Lemma ex_system_exists : exists s, ex_system mostly_incl = Ok s.
Proof. eexists. vm_compute. reflexivity. Qed.

Example runs_refine_witness : exists s0, ex_fresh s0 ex_bytes /\ exists ps s' M',
  run s0 [ex_access 0 true 16 0 [1; 2]; ex_access 1 false 16 0 [0; 0; 0]] = Ok (ps, s') /\
  flat_run 0 ex_bytes [ex_access 0 true 16 0 [1; 2]; ex_access 1 false 16 0 [0; 0; 0]] ps M' /\
  coherent 3 (fun _ => false) 0 1023 2 s' M'.
Proof.
  destruct ex_system_exists as [s E]. exists s. split; [by apply ex_system_fresh|].
  apply (runs_refine 3 (fun _ => false) 0 1023 2 ex_bounds); [by apply ex_system_fresh|].
  repeat (apply Forall_cons; split); [by apply ex_access_valid..|done].
Defined.

Example read_after_write_witness : exists s0, ex_fresh s0 ex_bytes /\ exists p s1 q s2,
  cpu_send ex_env 0 (x_pkt (ex_access 0 true 16 0 [1; 2])) s0 = Ok (p, s1) /\
  cpu_send ex_env 1 (x_pkt (ex_access 1 false 16 0 [0; 0])) s1 = Ok (q, s2) /\ p_cmd q = ReadResp /\ p_data q = Some [1; 2].
Proof.
  destruct ex_system_exists as [s E]. exists s. split; [by apply ex_system_fresh|].
  apply (read_after_write 3 (fun _ => false) 0 1023 2 ex_bounds s ex_bytes s
    (ex_access 0 true 16 0 [1; 2]) (ex_access 1 false 16 0 [0; 0])); try done; try by apply ex_access_valid.
  - by apply ex_system_fresh.
  - constructor.
Defined.

Example requests_answered_witness : exists s0, ex_fresh s0 ex_bytes /\ exists p s',
  cpu_send ex_env 0 (x_pkt (ex_access 0 true 16 0 [1; 2])) s0 = Ok (p, s') /\ p_cmd p = WriteResp /\ isResponse p = true /\
  reachable 3 (fun _ => false) 0 1023 2 s0 s'.
Proof.
  destruct ex_system_exists as [s E]. exists s. split; [by apply ex_system_fresh|].
  apply (requests_answered 3 (fun _ => false) 0 1023 2 ex_bounds s ex_bytes s (ex_access 0 true 16 0 [1; 2])).
  - by apply ex_system_fresh.
  - constructor.
  - by apply ex_access_valid.
Defined.

(** Both processors load a line. *)
Definition ex_loads : list Access := [ex_access 0 false 16 0 [0; 0]; ex_access 1 false 16 0 [0; 0]].

Lemma ex_shared : exists s0 ps s, ex_system mostly_incl = Ok s0 /\ run s0 ex_loads = Ok (ps, s) /\
  cl 3 (fun _ => false) s 0 16 = Some {| l_w := false; l_d := false; l_v := seqZ 16 8 |} /\
  cl 3 (fun _ => false) s 1 16 = Some {| l_w := false; l_d := false; l_v := seqZ 16 8 |}.
Proof.
  eexists _, _, _. split; [vm_compute; reflexivity|]. split; [vm_compute; reflexivity|]. by split; vm_compute.
Qed.

Lemma ex_shared_reachable s0 ps s : ex_system mostly_incl = Ok s0 -> run s0 ex_loads = Ok (ps, s) ->
  reachable 3 (fun _ => false) 0 1023 2 s0 s.
Proof.
  intros E. apply (sys_run_reachable 3 (fun _ => false) 0 1023 2 ex_bounds s0 ex_bytes); [by apply ex_system_fresh|].
  repeat (apply Forall_cons; split); [by apply ex_access_valid..|done].
Qed.

Example single_writer_witness : exists s0 (s : Sys (BaseSetAssoc LRURP LRUReplData) LRUReplData) L L', ex_fresh s0 ex_bytes /\
  cl 3 (fun _ => false) s 0 16 = Some L /\ cl 3 (fun _ => false) s 1 16 = Some L' /\
  l_w L = false /\ l_w L' = false /\ l_v L = l_v L' /\ (l_d L = false \/ l_d L' = false).
Proof.
  destruct ex_shared as (s0 & ps & s & E & Hr & H1 & H2). exists s0, s. eexists _, _. split; [by apply ex_system_fresh|].
  split; [exact H1|]. split; [exact H2|].
  apply (single_writer 3 (fun _ => false) 0 1023 2 ex_bounds s0 ex_bytes s 0 1 16); try done.
  - by apply ex_system_fresh.
  - by eapply ex_shared_reachable.
Defined.

Example clean_copies_agree_witness : exists s0 (s : Sys (BaseSetAssoc LRURP LRUReplData) LRUReplData), ex_fresh s0 ex_bytes /\ exists DM, pmem (s_mem s) = Some DM /\
  forall i a L, in_mem 0 1023 a -> 0 <= i < 2 -> cl 3 (fun _ => false) s i a = Some L ->
    (forall j L', 0 <= j < 2 -> cl 3 (fun _ => false) s j a = Some L' -> l_d L' = false) -> l_v L = line_at 3 0 DM a.
Proof.
  destruct ex_shared as (s0 & ps & s & E & Hr & H1 & H2). exists s0, s. split; [by apply ex_system_fresh|].
  apply (clean_copies_agree 3 (fun _ => false) 0 1023 2 ex_bounds s0 ex_bytes s).
  - by apply ex_system_fresh.
  - by eapply ex_shared_reachable.
Defined.

Example filter_covers_witness : exists s0 (s : Sys (BaseSetAssoc LRURP LRUReplData) LRUReplData), ex_fresh s0 ex_bytes /\ exists f, snoopFilter (s_xbar s) = Some f /\
  forall a, in_mem 0 1023 a -> requested (item f (lkey 3 (fun _ => false) a)) = 0 /\
    forall i, 0 <= i < 2 -> line_present (cl 3 (fun _ => false) s i a) = true -> held f (lkey 3 (fun _ => false) a) i = true.
Proof.
  destruct ex_shared as (s0 & ps & s & E & Hr & H1 & H2). exists s0, s. split; [by apply ex_system_fresh|].
  apply (filter_covers 3 (fun _ => false) 0 1023 2 ex_bounds s0 ex_bytes s).
  - by apply ex_system_fresh.
  - by eapply ex_shared_reachable.
Defined.

(** * Lines the tags have no block for *)

(** The data of the reply. *)
Definition reply_data {A} (r : res (Packet * A)) : res (option (list Z)) := '(p, _) ← r; Ok (p_data p).

(** C40 (the temporary block is never given back).  In a system of caches with
    any tags and clusivity, a temporary block that holds a line keeps that line,
    address, state and data, whatever requests the processors then send, and
    every later fill that is not to be allocated fails the assertion that the
    temporary block is free: [recvAtomic] means to evict it, but
    passes by value the block it tests.  So dirty data of a swap
    filled into it never gets below the cache (the Example after this). *)
Theorem temp_block_stuck {T D} `{!BaseTags T D} (s s' : Sys T D) l ps i c :
  s_caches s !! i = Some c -> isValid (tempBlock c) = true -> run s l = Ok (ps, s') ->
  exists c', s_caches s' !! i = Some c' /\
    tempBlock c' = tempBlock c /\ tempAddr c' = tempAddr c /\ tempData c' = tempData c /\
    forall e pkt, handleFill e pkt None false c' = Panic.
Proof.
  intros Hc Hv Hrun. pose proof (run_keeps l s) as Hk. rewrite Hrun in Hk. destruct (Hk i c Hc Hv) as (c' & Hc' & [= E1 E2 E3]).
  exists c'. split_and!; try done. intros e pkt. rewrite <- E1 in Hv. apply (fill_temp_taken e pkt c' Hv).
Qed.

(** A mostly-exclusive cache fills a swap miss into its temporary block: a load of
    the other processor returns the old bytes, and the next such fill fails. *)
Example temp_block_lost :
  reply_data (s ← ex_system mostly_excl; cpu_send ex_env 0 (x_pkt (ex_access 0 true 16 MEM_SWAP [1; 2])) s) = Ok (Some [16; 17]) /\
  reply_data (s ← ex_system mostly_excl; '(_, s) ← cpu_send ex_env 0 (x_pkt (ex_access 0 true 16 MEM_SWAP [1; 2])) s;
    cpu_send ex_env 1 (x_pkt (ex_access 1 false 16 0 [0; 0])) s) = Ok (Some [16; 17]) /\
  reply_data (s ← ex_system mostly_excl; '(_, s) ← cpu_send ex_env 0 (x_pkt (ex_access 0 true 16 MEM_SWAP [1; 2])) s;
    cpu_send ex_env 0 (x_pkt (ex_access 0 true 24 MEM_SWAP [1; 2])) s) = Panic.
Proof. split_and!; vm_compute; reflexivity. Qed.

Example temp_block_stuck_witness :
  exists (s s' : Sys (BaseSetAssoc LRURP LRUReplData) LRUReplData) c ps, s_caches s !! 0%nat = Some c /\ isValid (tempBlock c) = true /\
    run s [ex_access 1 false 16 0 [0; 0]] = Ok (ps, s') /\
    exists c', s_caches s' !! 0%nat = Some c' /\
      tempBlock c' = tempBlock c /\ tempAddr c' = tempAddr c /\ tempData c' = tempData c /\
      forall e pkt, handleFill e pkt None false c' = Panic.
Proof.
  assert ((s ← ex_system mostly_excl; '(_, s) ← cpu_send ex_env 0 (x_pkt (ex_access 0 true 16 MEM_SWAP [1; 2])) s;
    c ← get_cache 0 s; '(_, _) ← run s [ex_access 1 false 16 0 [0; 0]]; Ok (isValid (tempBlock c))) = Ok true) as H by (vm_compute; reflexivity).
  apply bind_Ok in H as (s0 & _ & H). apply bind_Ok in H as ([p s] & _ & H). apply bind_Ok in H as (c & Hc & H).
  apply bind_Ok in H as ([ps s'] & Hrun & [= Hv]). apply aread_inv in Hc as [_ Hc].
  exists s, s', c, ps. split; [exact Hc|]. split; [exact Hv|]. split; [exact Hrun|].
  exact (temp_block_stuck s s' [ex_access 1 false 16 0 [0; 0]] ps 0%nat c Hc Hv Hrun).
Defined.
