(* ===== verification/FuncLine.v ===== *)
(** Functional accesses within one line: what a block does to the packet, and
    what the caches, the crossbar and memory do to a coherent system. *)
From S2P Require Import Prelude AddrRange CacheBlk ReplPolicy CacheTags TagStore MemPacket Cache SnoopFilter.
From S2P Require Import AbstractMem CoherentXBar CohSystem FuncAccess CohLine CohFill CohHit CohMiss CohSnoop CohFilter.
From S2P Require Import CohMem CohBus CohProto CohCorrect.

(** * Marking bytes *)

Lemma mark_valid_ok n : forall bv i, 0 <= i -> i + Z.of_nat n <= Z.of_nat (length bv) ->
  mark_valid bv i n = Ok (take (Z.to_nat i) bv ++ replicate n true ++ drop (Z.to_nat i + n) bv).
Proof.
  induction n as [|n IH]; intros bv i Hi Hn; cbn [mark_valid].
  - by rewrite Nat.add_0_r, app_nil_l, take_drop.
  - rewrite awrite_Ok by lia. cbn [mbind res_bind]. rewrite IH by (rewrite ?length_insert; lia). f_equal.
    replace (Z.to_nat (i + 1)) with (S (Z.to_nat i)) by lia.
    rewrite (take_S_r _ _ true) by (apply list_lookup_insert_eq; lia). rewrite take_insert_ge by lia.
    rewrite drop_insert_lt by lia. rewrite <- app_assoc. cbn [app replicate]. do 4 f_equal. lia.
Qed.

(** * The packet of an access *)

(** A read or write of the functional kind, of bytes of one line; [d], the
    bytes its pointer points to, of which it uses the first. *)
Record func_packet (k : Z) (world : Z -> bool) (f : FPacket) (d : list Z) : Prop := {
  fq_addr : addr_ok (p_addr (f_pkt f));
  fq_size : 0 < p_size (f_pkt f) /\ p_addr (f_pkt f) mod 2 ^ k + p_size (f_pkt f) <= 2 ^ k;
  fq_secure : p_isSecure (f_pkt f) = world (align k (p_addr (f_pkt f)));
  fq_data : p_data (f_pkt f) = Some d /\ p_size (f_pkt f) <= Z.of_nat (length d);
  fq_valid : bytesValid f = [] \/ Z.of_nat (length (bytesValid f)) = p_size (f_pkt f) }.

(** The bytes of the packet in the line [v]. *)
Definition line_bytes (k : Z) (f : FPacket) (v : list Z) : list Z :=
  get_bytes v (p_addr (f_pkt f) mod 2 ^ k) (p_size (f_pkt f)).
(** The packet with all its bytes found, the first of its buffer. *)
Definition with_found (k : Z) (f : FPacket) (d v : list Z) : FPacket :=
  {| f_pkt := with_data (Some (put_bytes d 0 (line_bytes k f v))) (f_pkt f);
     bytesValid := replicate (Z.to_nat (p_size (f_pkt f))) true |}.
(** The line after the packet's write. *)
Definition line_write (k : Z) (f : FPacket) (d v : list Z) : list Z :=
  put_bytes v (p_addr (f_pkt f) mod 2 ^ k) (get_bytes d 0 (p_size (f_pkt f))).

Section Packet.
Context (k : Z) (world : Z -> bool) (f : FPacket) (d v : list Z).
Hypotheses (Hk : 2 <= k < 32) (Hf : func_packet k world f d) (Hv : Z.of_nat (length v) = 2 ^ k).
Local Abbreviation pkt := (f_pkt f).

Lemma fp_bounds : 0 <= p_addr pkt mod 2 ^ k /\ align k (p_addr pkt) + p_addr pkt mod 2 ^ k = p_addr pkt /\
  0 <= align k (p_addr pkt) /\ align k (p_addr pkt) + 2 ^ k <= 2 ^ 64 /\ 0 < 2 ^ k < 2 ^ 32.
Proof.
  pose proof (fq_addr _ _ _ _ Hf) as [H0 H1]. pose proof (pow2_pos k ltac:(lia)).
  pose proof (Z.mod_pos_bound (p_addr pkt) (2 ^ k) ltac:(lia)). pose proof (Z.div_mod (p_addr pkt) (2 ^ k) ltac:(lia)).
  pose proof (Z.pow_lt_mono_r 2 k 32 ltac:(lia) ltac:(lia)). unfold align.
  pose proof (Z.div_pos (p_addr pkt) (2 ^ k) ltac:(lia) ltac:(lia)).
  assert (p_addr pkt / 2 ^ k + 1 <= 2 ^ (64 - k)).
  { enough (p_addr pkt / 2 ^ k < 2 ^ (64 - k)) by lia. apply Z.div_lt_upper_bound; [lia|]. rewrite <- Z.pow_add_r by lia.
    by replace (k + (64 - k)) with 64 by lia. }
  assert (2 ^ 64 = 2 ^ (64 - k) * 2 ^ k) by (rewrite <- Z.pow_add_r by lia; f_equal; lia). nia.
Qed.

(** The arithmetic of [trySatisfyFunctional] on the packet's block. *)
Lemma fp_overlap : let a := align k (p_addr pkt) in
  (u64 (a + 2 ^ k - 1) <? p_addr pkt) = false /\ (u64 (p_addr pkt + p_size pkt - 1) <? a) = false /\
  (if a <? p_addr pkt then p_addr pkt - a else 0) = p_addr pkt mod 2 ^ k /\ (p_addr pkt <? a) = false /\
  u64 (Z.min (u64 (a + 2 ^ k - 1)) (u64 (p_addr pkt + p_size pkt - 1)) + 1 - Z.max a (p_addr pkt)) = p_size pkt.
Proof.
  cbv zeta. destruct fp_bounds as (B1 & B2 & B3 & B4 & B5). destruct (fq_size _ _ _ _ Hf) as [S1 S2].
  rewrite !(wrap_u_id 64) by (rewrite ?(wrap_u_id 64) by lia; lia). repeat split; try lia. case_match; lia.
Qed.

Lemma line_bytes_length : Z.of_nat (length (line_bytes k f v)) = p_size pkt.
Proof. destruct fp_bounds as (B1 & _). destruct (fq_size _ _ _ _ Hf). apply get_bytes_length; lia. Qed.

Lemma try_read : isRead pkt = true -> isPrint pkt = false ->
  trySatisfyFunctional (align k (p_addr pkt)) (p_isSecure pkt) (2 ^ k) (Some v) f = Ok (true, with_found k f d v, Some v).
Proof.
  intros Hr Hp. unfold trySatisfyFunctional. destruct fp_overlap as (-> & -> & -> & -> & ->). destruct fp_bounds as (B1 & _).
  destruct (fq_size _ _ _ _ Hf) as [S1 S2]. destruct (fq_data _ _ _ _ Hf) as [D1 D2]. pose proof line_bytes_length as Hl.
  rewrite eqb_reflx. cbn [negb orb]. rewrite Hp, Hr. unfold getPtr. rewrite D1. cbn [mbind res_bind].
  rewrite bytes_at_Ok by lia. fold (get_bytes v (p_addr pkt mod 2 ^ k) (p_size pkt)). fold (line_bytes k f v). cbn [mbind res_bind].
  rewrite bytes_set_Ok by lia. cbn [mbind res_bind Z.to_nat all_valid].
  set (bv := match bytesValid f with [] => _ | _ => _ end).
  assert (length bv = Z.to_nat (p_size pkt)) as Hbv.
  { subst bv. destruct (fq_valid _ _ _ _ Hf) as [->|E]; [by rewrite length_replicate|]. destruct (bytesValid f); [cbn in E|]; lia. }
  rewrite mark_valid_ok by lia. cbn [mbind res_bind Z.to_nat take app Nat.add]. rewrite Z.add_0_l, Z.sub_diag. cbn [Z.to_nat all_valid mbind res_bind].
  rewrite (drop_ge bv) by lia. by rewrite app_nil_r.
Qed.

Lemma try_write : isRead pkt = false -> isWrite pkt = true -> isPrint pkt = false ->
  trySatisfyFunctional (align k (p_addr pkt)) (p_isSecure pkt) (2 ^ k) (Some v) f = Ok (false, f, Some (line_write k f d v)).
Proof.
  intros Hr Hw Hp. unfold trySatisfyFunctional. destruct fp_overlap as (-> & -> & -> & -> & ->). destruct fp_bounds as (B1 & _).
  destruct (fq_size _ _ _ _ Hf) as [S1 S2]. destruct (fq_data _ _ _ _ Hf) as [D1 D2].
  rewrite eqb_reflx. cbn [negb orb]. rewrite Hp, Hr, Hw. unfold getPtr. rewrite D1. cbn [mbind res_bind].
  rewrite bytes_at_Ok by lia. fold (get_bytes d 0 (p_size pkt)). cbn [mbind res_bind].
  rewrite bytes_set_Ok by (rewrite ?get_bytes_length; lia). done.
Qed.
End Packet.

(** * One cache *)

Definition found_in (k : Z) (f : FPacket) (d : list Z) (o : option Line) : FPacket :=
  match o with Some L => with_found k f d (l_v L) | None => f end.
Definition written_line (k : Z) (f : FPacket) (d : list Z) (o : option Line) : option Line :=
  match o with Some L => Some {| l_w := l_w L; l_d := l_d L; l_v := line_write k f d (l_v L) |} | None => None end.

Section OneCache.
Context {T D : Type} `{!BaseTags T D, !BaseTagsLaws T D} (k : Z) (world : Z -> bool).
Implicit Types (c : Cache T D) (f : FPacket) (d : list Z).

Lemma put_data_same c p v : aread (c_data c) p = Ok v -> put_data c (TagBlk p) v = Ok c.
Proof.
  intros H. cbn [put_data]. apply aread_inv in H as [H0 H]. rewrite awrite_Ok by (apply lookup_lt_Some in H; lia). cbn [mbind res_bind].
  rewrite list_insert_id by done. by destruct c.
Qed.

Lemma satisfy_read_ok c f d : cache_ok k world c -> func_packet k world f d -> p_cmd (f_pkt f) = ReadReq ->
  satisfy_from_block f c = Ok (line_dirty (cline k world c (p_addr (f_pkt f))), found_in k f d (cline k world c (p_addr (f_pkt f))), c).
Proof.
  intros Hc Hf Hcmd. pose proof (bt_k _ _ (co_tags _ _ _ Hc)) as Hk. pose proof (fq_addr _ _ _ _ Hf) as Ha. unfold satisfy_from_block.
  rewrite (fq_secure _ _ _ _ Hf), (co_blkSize _ _ _ Hc), getBlockAddr_eq by done.
  destruct (cline_cases k world c _ Hc Ha) as [(p & b & v & -> & (H1 & H2 & _ & _ & H5) & Hl & ->)|(-> & -> & _)]; cbn [mbind res_bind]; [|done].
  rewrite H1. cbn [mbind res_bind get_data]. rewrite H2, H5. cbn [mbind res_bind]. rewrite <- (fq_secure _ _ _ _ Hf).
  rewrite (try_read k world f d v) by (done || by (unfold isRead, isPrint; rewrite Hcmd)). cbn [mbind res_bind from_option id]. by rewrite put_data_same.
Qed.

Lemma satisfy_write_ok c f d : cache_ok k world c -> func_packet k world f d -> p_cmd (f_pkt f) = WriteReq ->
  exists c', satisfy_from_block f c = Ok (false, f, c') /\ cache_ok k world c' /\ upd k world c c' (p_addr (f_pkt f)) /\
    cline k world c' (p_addr (f_pkt f)) = written_line k f d (cline k world c (p_addr (f_pkt f))).
Proof.
  intros Hc Hf Hcmd. pose proof (bt_k _ _ (co_tags _ _ _ Hc)) as Hk. pose proof (fq_addr _ _ _ _ Hf) as Ha. unfold satisfy_from_block.
  rewrite (fq_secure _ _ _ _ Hf), (co_blkSize _ _ _ Hc), getBlockAddr_eq by done.
  destruct (cline_cases k world c _ Hc Ha) as [(p & b & v & -> & Hb & Hl & ->)|(-> & E & _)]; cbn [mbind res_bind].
  2:{ exists c. rewrite E. split; [done|]. split; [done|]. by split; [apply upd_refl|]. }
  pose proof Hb as (H1 & H2 & _ & _ & H5). rewrite H1. cbn [mbind res_bind get_data]. rewrite H2, H5. cbn [mbind res_bind].
  rewrite <- (fq_secure _ _ _ _ Hf). rewrite (try_write k world f d v) by (done || by (unfold isRead, isWrite, isPrint; rewrite Hcmd)).
  cbn [mbind res_bind from_option id]. destruct (put_data_ok k world c p _ b v (line_write k f d v) Hc Hb) as (c' & -> & Hc' & Hb' & Hu & _).
  { unfold line_write. rewrite put_bytes_length; [done|by eapply fp_bounds|].
    destruct (fq_size _ _ _ _ Hf), (fq_data _ _ _ _ Hf). rewrite get_bytes_length; lia. }
  cbn [mbind res_bind andb]. exists c'. split; [done|]. split; [done|]. split; [done|]. by rewrite (blk_in_cline k world c' p _ b (line_write k f d v)).
Qed.
End OneCache.

(** * The packet on its way *)

(** The response to the packet. *)
Definition f_resp (f : FPacket) : FPacket :=
  {| f_pkt := drop_flags EXPRESS_SNOOP (with_cmd (responseCommand (p_cmd (f_pkt f))) (f_pkt f)); bytesValid := bytesValid f |}.

Lemma f_makeResponse_ok f : p_cmd (f_pkt f) ∈ [ReadReq; WriteReq] -> f_makeResponse f = Ok (f_resp f).
Proof.
  rewrite !elem_of_cons, elem_of_nil. unfold f_makeResponse, f_resp, makeResponse, needsResponse, isRequest. by intros [->|[->|[]]].
Qed.

Lemma put_bytes_twice d v v' : length v = length v' -> (length v <= length d)%nat -> put_bytes (put_bytes d 0 v) 0 v' = put_bytes d 0 v'.
Proof.
  intros E Hl. unfold put_bytes. change (Z.to_nat 0) with 0%nat. cbn [take app Nat.add]. f_equal.
  by rewrite <- E, take_0, app_nil_l, drop_app_length.
Qed.

Section Way.
Context (k : Z) (world : Z -> bool).
Implicit Types (f : FPacket) (d v : list Z).

(** The packet on its way: as it was sent, or with its bytes found. *)
Definition on_way f d v (g : FPacket) : Prop := g = f \/ g = with_found k f d v.

Lemma with_found_packet f d v : 2 <= k < 32 -> func_packet k world f d -> Z.of_nat (length v) = 2 ^ k ->
  func_packet k world (with_found k f d v) (put_bytes d 0 (line_bytes k f v)).
Proof.
  intros Hk Hf Hv. pose proof (line_bytes_length k world f d v Hk Hf Hv) as Hl. destruct Hf as [F1 F2 F3 [F4 F5] F6]. split; try done.
  - split; [done|]. cbn [with_found f_pkt with_data p_size]. rewrite put_bytes_length; lia.
  - right. cbn [with_found f_pkt with_data p_size bytesValid]. rewrite length_replicate. lia.
Qed.

Lemma with_found_twice f d v : 2 <= k < 32 -> func_packet k world f d -> Z.of_nat (length v) = 2 ^ k ->
  with_found k (with_found k f d v) (put_bytes d 0 (line_bytes k f v)) v = with_found k f d v.
Proof.
  intros Hk Hf Hv. pose proof (line_bytes_length k world f d v Hk Hf Hv) as Hl. destruct (fq_data _ _ _ _ Hf).
  unfold with_found at 1. change (line_bytes k (with_found k f d v) v) with (line_bytes k f v).
  rewrite put_bytes_twice by lia. done.
Qed.

(** The packet on its way is one whose bytes are still those of [v]. *)
Lemma on_way_packet f d v g : 2 <= k < 32 -> func_packet k world f d -> Z.of_nat (length v) = 2 ^ k -> on_way f d v g ->
  exists d', func_packet k world g d' /\ p_addr (f_pkt g) = p_addr (f_pkt f) /\ p_size (f_pkt g) = p_size (f_pkt f) /\
    p_cmd (f_pkt g) = p_cmd (f_pkt f) /\ with_found k g d' v = with_found k f d v.
Proof.
  intros Hk Hf Hv [->| ->]; [by exists d|]. exists (put_bytes d 0 (line_bytes k f v)).
  split; [by apply with_found_packet|]. split_and!; try done. by apply with_found_twice.
Qed.
End Way.

(** Every copy of a line and memory are written. *)
Lemma line_written (n : Z) (P P' : Z -> option Line) h mv v k f d : line_coh n P h mv v ->
  (forall j, 0 <= j < n -> P' j = written_line k f d (P j)) -> line_coh n P' h (line_write k f d mv) (line_write k f d v).
Proof.
  intros [H1 H2 H3 H4 H5] HP.
  assert (forall j, 0 <= j < n -> line_dirty (P' j) = line_dirty (P j) /\ line_present (P' j) = line_present (P j)) as Hs.
  { intros j Hj. rewrite HP by done. by destruct (P j). }
  assert (forall j L, 0 <= j < n -> P' j = Some L -> exists L0, P j = Some L0 /\ l_w L = l_w L0 /\ l_v L = line_write k f d (l_v L0)) as Hl.
  { intros j L Hj. rewrite HP by done. destruct (P j) as [L0|]; [|done]. intros [= <-]. by exists L0. }
  split.
  - intros j L Hj HL. destruct (Hl j L Hj HL) as (L0 & H0 & _ & ->). by rewrite (H1 j L0).
  - intros j j' L Hj Hj' HL Hw Hp. destruct (Hl j L Hj HL) as (L0 & H0 & Ew & _). apply (H2 j j' L0); try done; [congruence|].
    by rewrite <- (proj2 (Hs j' Hj')).
  - intros j j' Hj Hj'. rewrite (proj1 (Hs j Hj)), (proj1 (Hs j' Hj')). by apply H3.
  - intros Hno. f_equal. apply H4. intros j Hj. rewrite <- (proj1 (Hs j Hj)). by apply Hno.
  - intros j Hj. rewrite (proj2 (Hs j Hj)). by apply H5.
Qed.

(** * A coherent system *)

Section System.
Context {T D : Type} `{!BaseTags T D, !BaseTagsLaws T D} (k : Z) (world : Z -> bool) (lo hi n : Z) (B : mem_bounds k lo hi).
Implicit Types (s : Sys T D) (c : Cache T D) (f g : FPacket) (M d : list Z).
Local Abbreviation cl := (cl k world).
Local Abbreviation coherent := (coherent k world lo hi n).

(** The bytes of the packet in the line are those in memory. *)
Lemma line_bytes_flat f d M : func_packet k world f d -> in_mem lo hi (p_addr (f_pkt f)) ->
  line_bytes k f (line_at k lo M (p_addr (f_pkt f))) = get_bytes M (p_addr (f_pkt f) - lo) (p_size (f_pkt f)).
Proof.
  intros Hf Ha. destruct (offset_in_line k lo hi B _ Ha) as (E & ? & ?). destruct (fq_size _ _ _ _ Hf).
  unfold line_bytes, line_at. rewrite get_get by lia. by rewrite E.
Qed.

Lemma flat_line_length s M a : coherent s M -> in_mem lo hi a -> Z.of_nat (length (line_at k lo M a)) = 2 ^ k.
Proof.
  intros Hch Ha. pose proof (line_in_mem k lo hi B a Ha). pose proof (pow2_pos k ltac:(destruct B; lia)). unfold line_at.
  apply get_bytes_length; rewrite ?(ch_length _ _ _ _ _ _ _ Hch); lia.
Qed.

Lemma coherent_value s M j a L : coherent s M -> in_mem lo hi a -> 0 <= j < n -> cl s j a = Some L -> l_v L = line_at k lo M a.
Proof.
  intros Hch Ha Hj HL. destruct (ch_lines _ _ _ _ _ _ _ Hch) as (fl & DM & _ & _ & _ & Hl). by eapply (lc_value _ _ _ _ _ (Hl a Ha) j).
Qed.

Lemma snoop_functional_eq s p g : bypassCaches (x_params (s_xbar s)) = false ->
  snoop_functional p g s = c_functionalAccess (get_cache p) (put_cache p) no_functional cpu_functional_snoop false g s.
Proof. intros Hby. unfold snoop_functional, c_recvFunctionalSnoop. by rewrite Hby. Qed.

(** ** Reads *)

Section Read.
Context (s : Sys T D) (M : list Z) (f : FPacket) (d : list Z).
Hypotheses (Hch : coherent s M) (Hf : func_packet k world f d) (Ha : in_mem lo hi (p_addr (f_pkt f))) (Hcmd : p_cmd (f_pkt f) = ReadReq).
Local Abbreviation a := (p_addr (f_pkt f)).
Local Abbreviation V := (line_at k lo M a).
Local Abbreviation found := (with_found k f d V).

(** What cache [j] hands on. *)
Lemma cache_read_ok send snoop from j g : 0 <= j < n -> on_way k f d V g ->
  exists g', on_way k f d V g' /\
    c_functionalAccess (get_cache j) (put_cache j) send snoop from g s =
      if line_dirty (cl s j a) then Ok (f_resp found, s)
      else if from then send g' s
      else c ← get_cache j s; if forwardSnoops (params c) then snoop g' s else Ok (g', s).
Proof.
  intros Hj Hg. pose proof (mb_k _ _ _ B) as Hk. pose proof (flat_line_length s M a Hch Ha) as HV.
  destruct (cache_at k world lo hi n s j (ch_caches _ _ _ _ _ _ _ Hch) Hj) as (c & Hc & Hget & Hok & _ & Hput).
  destruct (on_way_packet k world f d V g Hk Hf HV Hg) as (d' & Hg' & Ea & Es & Ec & Ew).
  unfold c_functionalAccess. rewrite Hget. cbn [mbind res_bind]. rewrite (satisfy_read_ok k world c g d') by (done || by rewrite Ec).
  rewrite Ea, (cl_at k world s j c a Hc). cbn [mbind res_bind]. rewrite Hput. cbn [mbind res_bind].
  destruct (cline k world c a) as [L|] eqn:EL; cbn [line_dirty found_in].
  - rewrite (coherent_value s M j a L) by (done || by rewrite (cl_at k world s j c)). rewrite Ew.
    exists found. split; [by right|]. destruct (l_d L); [|done]. rewrite f_makeResponse_ok; [done|].
    cbn [with_found f_pkt with_data p_cmd]. rewrite Hcmd. by left.
  - by exists g.
Qed.
Lemma resp_found g : on_way k f d V g -> isResponse (f_pkt g) = false /\ isResponse (f_pkt (f_resp found)) = true.
Proof.
  intros Hg. assert (p_cmd (f_pkt g) = ReadReq) as E by (by destruct Hg as [->| ->]). unfold isResponse, cmd_isResponse.
  rewrite E. cbn [f_resp drop_flags with_flags with_cmd f_pkt p_cmd with_found with_data]. by rewrite Hcmd.
Qed.

(** The snoops stop at the dirty copy. *)
Lemma forward_read_ok exclude ports : (forall p, p ∈ ports -> 0 <= p < n) -> bypassCaches (x_params (s_xbar s)) = false ->
  forall g, on_way k f d V g -> exists g',
    forwardFunctional_loop snoop_functional exclude ports g s = Ok (g', s) /\
    (g' = f_resp found \/
     on_way k f d V g' /\ forall p, p ∈ ports -> p <> exclude -> line_dirty (cl s p a) = false).
Proof.
  intros Hp Hby. induction ports as [|p ports IH]; intros g Hg; cbn [forwardFunctional_loop].
  { exists g. split; [done|]. right. split; [done|]. intros p H. by apply elem_of_nil in H. }
  destruct ((exclude =? InvalidPortID) || negb (p =? exclude)) eqn:Ex.
  - rewrite snoop_functional_eq by done.
    destruct (cache_read_ok no_functional cpu_functional_snoop false p g) as (g1 & Hg1 & ->); [apply Hp; by left|done|].
    destruct (cache_at k world lo hi n s p (ch_caches _ _ _ _ _ _ _ Hch)) as (c & _ & -> & _); [apply Hp; by left|]. cbn [mbind res_bind].
    destruct (line_dirty (cl s p a)) eqn:Ed; cbn [mbind res_bind].
    + exists (f_resp found). rewrite (proj2 (resp_found g Hg)). by split; [|left].
    + assert ((if forwardSnoops (params c) then cpu_functional_snoop g1 s else Ok (g1, s)) = Ok (g1, s)) as -> by (by case_match).
      cbn [mbind res_bind]. rewrite (proj1 (resp_found g1 Hg1)).
      destruct (IH ltac:(intros; apply Hp; by right) g1 Hg1) as (g' & -> & Hg'). exists g'. split; [done|].
      destruct Hg' as [->|[Hg' Hd]]; [by left|]. right. split; [done|]. intros q [->|Hq]%elem_of_cons Hne; [done|by apply Hd].
  - apply orb_false_iff in Ex as [Ex1 Ex2]. apply negb_false_iff, Z.eqb_eq in Ex2. subst p. cbn [mbind res_bind].
    rewrite (proj1 (resp_found g Hg)). destruct (IH ltac:(intros; apply Hp; by right) g Hg) as (g' & -> & Hg'). exists g'. split; [done|].
    destruct Hg' as [->|[Hg' Hd]]; [by left|]. right. split; [done|]. intros q [->|Hq]%elem_of_cons Hne; [done|by apply Hd].
Qed.

(** Memory's bytes, when they are those of the line. *)
Lemma mem_read_found DM g : mem_ok lo hi (s_mem s) DM -> line_at k lo DM a = V -> on_way k f d V g ->
  exists g', mem_functional g s = Ok (g', s) /\ f_pkt g' = f_pkt (f_resp found).
Proof.
  intros Hm HV Hg. pose proof (mb_k _ _ _ B) as Hk. pose proof (flat_line_length s M a Hch Ha) as HlV.
  destruct (on_way_packet k world f d V g Hk Hf HlV Hg) as (d' & Hg' & Ea & Es & Ec & Ew).
  destruct (offset_in_line k lo hi B _ Ha) as (O1 & O2 & O3). destruct (fq_size _ _ _ _ Hf) as [S1 S2].
  pose proof (line_in_mem k lo hi B _ Ha) as [L1 L2]. destruct (fq_data _ _ _ _ Hg') as [D1 D2]. pose proof B as [_ B1 B2 _ _].
  unfold mem_functional, SimpleMemory_recvFunctional, m_functionalAccess. rewrite Ea, Es, (mo_range _ _ _ _ Hm).
  rewrite (wrap_u_id 64) by (unfold in_mem in Ha; lia). unfold isSubset, AddrRange_plain, interleaved. cbn [intlvBits _start _end Z.eqb negb].
  rewrite !(proj2 (Z.leb_le _ _)) by lia. cbn [andb mbind res_bind]. rewrite (mo_bytes _ _ _ _ Hm).
  assert (isRead (f_pkt g) = true) as -> by (unfold isRead; by rewrite Ec, Hcmd).
  unfold copy_from, getPtr. rewrite D1. cbn [mbind res_bind]. unfold start. cbn [_start]. rewrite Es.
  rewrite bytes_at_Ok by (rewrite ?(mo_length _ _ _ _ Hm); lia). cbn [mbind res_bind].
  fold (get_bytes DM (a - lo) (p_size (f_pkt f))). pose proof (line_bytes_flat f d DM Hf Ha) as El. rewrite HV in El. rewrite <- El.
  pose proof (line_bytes_length k world f d V Hk Hf HlV) as Hll.
  rewrite bytes_set_Ok by lia. cbn [mbind res_bind].
  rewrite f_makeResponse_ok by (cbn [f_pkt with_data p_cmd]; rewrite Ec, Hcmd; by left). cbn [mbind res_bind].
  eexists. split; [unfold put_mem; by destruct s|]. fold (put_bytes d' 0 (line_bytes k f V)).
  rewrite <- Ew. unfold f_resp, with_found. cbn [f_pkt]. unfold line_bytes. by rewrite Ea, Es.
Qed.

Hypothesis Hports : snoopPorts (x_params (s_xbar s)) ≡ₚ seqZ 0 n.

(** The crossbar: the master at port [i], if it is a cache, has no dirty copy. *)
Lemma xbar_read_ok i g : (0 <= i < n -> line_dirty (cl s i a) = false) -> on_way k f d V g ->
  exists g', xbar_functional i g s = Ok (g', s) /\ f_pkt g' = f_pkt (f_resp found).
Proof.
  intros Hi Hg. destruct (ch_lines _ _ _ _ _ _ _ Hch) as (fl & DM & (_ & _ & Hby & _) & _ & Hm & Hl).
  unfold xbar_functional, x_recvFunctional, forwardFunctional. cbn [get_xbar mbind res_bind]. rewrite Hby. cbn [negb].
  assert (forall p, p ∈ snoopPorts (x_params (s_xbar s)) <-> 0 <= p < n) as Hp by (intros p; rewrite Hports, elem_of_seqZ; lia).
  destruct (forward_read_ok i (snoopPorts (x_params (s_xbar s)))) with (g := g) as (g1 & -> & Hg1); [by intros p ?%Hp|done..|].
  cbn [mbind res_bind]. destruct Hg1 as [->|[Hg1 Hd]].
  - rewrite (proj2 (resp_found g Hg)). cbn [negb]. by eexists.
  - rewrite (proj1 (resp_found g1 Hg1)). cbn [negb]. apply (mem_read_found DM); try done.
    apply (lc_mem _ _ _ _ _ (Hl a Ha)). intros j Hj. destruct (decide (j = i)) as [->|Hne]; [by apply Hi|]. apply Hd; [by apply Hp|done].
Qed.

Lemma cpu_read_ok i : 0 <= i < n -> exists g', cpu_functional i f s = Ok (g', s) /\ f_pkt g' = f_pkt (f_resp found).
Proof.
  intros Hi. destruct (ch_lines _ _ _ _ _ _ _ Hch) as (fl & DM & (_ & _ & Hby & _) & _).
  unfold cpu_functional, c_recvFunctional. rewrite Hby.
  destruct (cache_read_ok (xbar_functional i) cpu_functional_snoop true i f Hi ltac:(by left)) as (g & Hg & ->).
  destruct (line_dirty (cl s i a)) eqn:Ed; [by eexists|]. by apply xbar_read_ok.
Qed.
End Read.
(** ** Writes *)

(** [s'] is [s] with the packet written to the copies of its line in the caches
    [ports]. *)
Record written_sys f d s s' (ports : list Z) : Prop := {
  ws_xbar : s_xbar s' = s_xbar s;
  ws_mem : s_mem s' = s_mem s;
  ws_params : params <$> s_caches s' = params <$> s_caches s;
  ws_ok : caches_ok k world lo hi n s';
  ws_self : forall j, 0 <= j -> j ∉ ports -> s_caches s' !! Z.to_nat j = s_caches s !! Z.to_nat j;
  ws_other : forall j a', 0 <= j -> addr_ok a' -> align k a' <> align k (p_addr (f_pkt f)) -> cl s' j a' = cl s j a';
  ws_line : forall j, 0 <= j -> j ∈ ports -> cl s' j (p_addr (f_pkt f)) = written_line k f d (cl s j (p_addr (f_pkt f))) }.

Lemma written_nil f d s : caches_ok k world lo hi n s -> written_sys f d s s [].
Proof. intros Hs. split; try done. intros j _ H. by apply elem_of_nil in H. Qed.

Lemma written_cl f d s s' ports j a : written_sys f d s s' ports -> 0 <= j -> j ∉ ports -> cl s' j a = cl s j a.
Proof. intros H Hj Hn. unfold CohBus.cl. by rewrite (ws_self _ _ _ _ _ H). Qed.

Lemma written_cons f d s1 s2 s3 j ports : written_sys f d s1 s2 [j] -> written_sys f d s2 s3 ports -> j ∉ ports ->
  written_sys f d s1 s3 (j :: ports).
Proof.
  intros H1 H2 Hj. split.
  - by rewrite (ws_xbar _ _ _ _ _ H2), (ws_xbar _ _ _ _ _ H1).
  - by rewrite (ws_mem _ _ _ _ _ H2), (ws_mem _ _ _ _ _ H1).
  - by rewrite (ws_params _ _ _ _ _ H2), (ws_params _ _ _ _ _ H1).
  - apply H2.
  - intros j0 H0 [Hn1 Hn2]%not_elem_of_cons. rewrite (ws_self _ _ _ _ _ H2) by done. apply H1; [done|]. by rewrite list_elem_of_singleton.
  - intros j0 a' H0 Ha' Hne. rewrite (ws_other _ _ _ _ _ H2) by done. by apply H1.
  - intros j0 H0 [->|Hin]%elem_of_cons.
    + rewrite (written_cl _ _ _ _ _ _ _ H2) by done. apply H1; [done|]. by apply list_elem_of_singleton.
    + rewrite (ws_line _ _ _ _ _ H2) by done. f_equal. apply (written_cl _ _ _ _ _ _ _ H1); [done|].
      rewrite list_elem_of_singleton. by intros ->.
Qed.

Section Write.
Context (f : FPacket) (d : list Z).
Hypotheses (Hf : func_packet k world f d) (Ha : in_mem lo hi (p_addr (f_pkt f))) (Hcmd : p_cmd (f_pkt f) = WriteReq).
Local Abbreviation a := (p_addr (f_pkt f)).
Local Abbreviation data := (get_bytes d 0 (p_size (f_pkt f))).

Lemma cache_write_ok send snoop from j s : caches_ok k world lo hi n s -> 0 <= j < n ->
  exists s', written_sys f d s s' [j] /\
    c_functionalAccess (get_cache j) (put_cache j) send snoop from f s =
      if from then send f s' else c ← get_cache j s; if forwardSnoops (params c) then snoop f s' else Ok (f, s').
Proof.
  intros Hs Hj. destruct (cache_at k world lo hi n s j Hs Hj) as (c & Hc & Hget & Hok & _).
  unfold c_functionalAccess. rewrite Hget. cbn [mbind res_bind].
  destruct (satisfy_write_ok k world c f d Hok Hf Hcmd) as (c' & -> & Hok' & Hu & Hcl). pose proof Hu as (Hp & _ & Huo). cbn [mbind res_bind].
  rewrite (put_cache_eq k world lo hi n) by done. cbn [mbind res_bind]. rewrite Hp. exists (set_cache j c' s). split; [|done].
  pose proof (lookup_lt_Some _ _ _ Hc) as Hlt. split; try done.
  - by apply (set_cache_params s j c).
  - by eapply set_cache_ok.
  - intros j0 H0 Hn. cbn [set_cache s_caches]. apply list_lookup_insert_ne. rewrite list_elem_of_singleton in Hn. lia.
  - intros j0 a' H0 Ha' Hne. destruct (decide (j0 = j)) as [->|Hji].
    + rewrite (cl_set_same k world lo hi n), (cl_at k world s j c) by done. by apply Huo.
    + apply cl_set_other; lia.
  - intros j0 H0 ->%list_elem_of_singleton. by rewrite (cl_set_same k world lo hi n), (cl_at k world s j c).
Qed.

Lemma forward_write_ok exclude ports : NoDup ports -> (forall p, p ∈ ports -> 0 <= p < n) -> forall s,
  caches_ok k world lo hi n s -> bypassCaches (x_params (s_xbar s)) = false ->
  exists s', forwardFunctional_loop snoop_functional exclude ports f s = Ok (f, s') /\
    written_sys f d s s' (filter (fun p => p <> exclude) ports).
Proof.
  assert (isResponse (f_pkt f) = false) as Hr by (unfold isResponse; by rewrite Hcmd).
  induction ports as [|p ports IH]; intros Hnd Hp s Hs Hby; cbn [forwardFunctional_loop].
  { exists s. split; [done|]. by apply written_nil. }
  apply NoDup_cons in Hnd as [Hnp Hnd]. pose proof (Hp p ltac:(by left)) as Hpn. rewrite filter_cons.
  assert ((exclude =? InvalidPortID) || negb (p =? exclude) = bool_decide (p <> exclude)) as ->.
  { unfold InvalidPortID. case_bool_decide; destruct (Z.eqb_spec exclude (-1)), (Z.eqb_spec p exclude); try done; lia. }
  destruct (decide (p <> exclude)) as [E|E]; [rewrite bool_decide_true by done|rewrite bool_decide_false by done].
  - rewrite snoop_functional_eq by done.
    destruct (cache_write_ok no_functional cpu_functional_snoop false p s Hs Hpn) as (s1 & Hw & ->).
    destruct (cache_at k world lo hi n s p Hs Hpn) as (c & _ & -> & _). cbn [mbind res_bind].
    assert ((if forwardSnoops (params c) then cpu_functional_snoop f s1 else Ok (f, s1)) = Ok (f, s1)) as -> by (by case_match).
    cbn [mbind res_bind]. rewrite Hr.
    destruct (IH Hnd ltac:(intros; apply Hp; by right) s1) as (s' & -> & Hw'); [apply Hw|by rewrite (ws_xbar _ _ _ _ _ Hw)|].
    exists s'. split; [done|]. eapply written_cons; [done..|]. rewrite list_elem_of_filter. naive_solver.
  - cbn [mbind res_bind]. rewrite Hr. apply IH; try done. intros; apply Hp; by right.
Qed.
Lemma data_length : Z.of_nat (length data) = p_size (f_pkt f).
Proof. destruct (fq_size _ _ _ _ Hf), (fq_data _ _ _ _ Hf). apply get_bytes_length; lia. Qed.

Lemma line_put M : Z.of_nat (length M) = hi - lo + 1 -> line_at k lo (put_bytes M (a - lo) data) a = line_write k f d (line_at k lo M a).
Proof.
  intros HM. destruct (offset_in_line k lo hi B _ Ha) as (E & ? & ?). pose proof (line_in_mem k lo hi B _ Ha). pose proof data_length.
  destruct (fq_size _ _ _ _ Hf). unfold line_at, line_write. rewrite <- E. apply get_put_in; lia.
Qed.
Lemma line_put_other M a' : Z.of_nat (length M) = hi - lo + 1 -> in_mem lo hi a' -> align k a' <> align k a ->
  line_at k lo (put_bytes M (a - lo) data) a' = line_at k lo M a'.
Proof.
  intros HM Ha' Hne. destruct (offset_in_line k lo hi B _ Ha) as (E & ? & ?). pose proof (line_in_mem k lo hi B _ Ha). pose proof data_length.
  pose proof (line_in_mem k lo hi B _ Ha'). pose proof (lines_apart k lo hi B a a' Hne). destruct (fq_size _ _ _ _ Hf).
  unfold line_at. apply get_put_out; lia.
Qed.
Lemma put_length M : Z.of_nat (length M) = hi - lo + 1 -> Z.of_nat (length (put_bytes M (a - lo) data)) = hi - lo + 1.
Proof.
  intros HM. destruct (offset_in_line k lo hi B _ Ha) as (E & ? & ?). pose proof (line_in_mem k lo hi B _ Ha). pose proof data_length.
  destruct (fq_size _ _ _ _ Hf). rewrite put_bytes_length; lia.
Qed.

Lemma mem_write_ok s DM : mem_ok lo hi (s_mem s) DM ->
  exists m', mem_functional f s = Ok (f_resp f, put_mem m' s) /\ mem_ok lo hi m' (put_bytes DM (a - lo) data).
Proof.
  intros Hm. destruct (fq_size _ _ _ _ Hf) as [S1 S2]. destruct (fq_data _ _ _ _ Hf) as [D1 D2]. pose proof B as [_ B1 B2 _ _].
  destruct (offset_in_line k lo hi B _ Ha) as (O1 & O2 & O3). pose proof (line_in_mem k lo hi B _ Ha) as [L1 L2]. pose proof data_length as Hl.
  unfold mem_functional, SimpleMemory_recvFunctional, m_functionalAccess. rewrite (mo_range _ _ _ _ Hm).
  rewrite (wrap_u_id 64) by (unfold in_mem in Ha; lia). unfold isSubset, AddrRange_plain, interleaved. cbn [intlvBits _start _end Z.eqb negb].
  rewrite !(proj2 (Z.leb_le _ _)) by lia. cbn [andb mbind res_bind]. rewrite (mo_bytes _ _ _ _ Hm).
  assert (isRead (f_pkt f) = false /\ isWrite (f_pkt f) = true) as [-> ->] by (unfold isRead, isWrite; by rewrite Hcmd).
  unfold writeData, getPtr. rewrite D1. cbn [mbind res_bind]. rewrite bytes_at_Ok by lia. cbn [mbind res_bind].
  fold data. unfold start. cbn [_start]. rewrite bytes_set_Ok by (rewrite ?(mo_length _ _ _ _ Hm); lia). cbn [mbind res_bind].
  rewrite f_makeResponse_ok by (rewrite Hcmd; by right; left). cbn [mbind res_bind]. fold (put_bytes DM (a - lo) data).
  eexists. split; [done|]. split; try apply Hm; [done|]. apply put_length. apply Hm.
Qed.

(** The copies after the write. *)
Lemma written_at s s' ports j a' : caches_ok k world lo hi n s -> written_sys f d s s' ports -> 0 <= j < n -> j ∈ ports -> addr_ok a' ->
  cl s' j a' = if decide (align k a' = align k a) then written_line k f d (cl s j a') else cl s j a'.
Proof.
  intros Hs Hw Hj Hin Ha'. pose proof (fq_addr _ _ _ _ Hf) as Hao. case_decide as E.
  - rewrite (cl_same k world lo hi n s' j a' a), (cl_same k world lo hi n s j a' a) by (done || apply Hw). apply Hw; [lia|done].
  - apply Hw; [lia|done..].
Qed.

Lemma coherent_written s M s' ports m' DM : coherent s M -> written_sys f d s s' ports -> (forall j, 0 <= j < n -> j ∈ ports) ->
  mem_ok lo hi (s_mem s) DM -> mem_ok lo hi m' (put_bytes DM (a - lo) data) -> coherent (put_mem m' s') (put_bytes M (a - lo) data).
Proof.
  intros [Hs HM Hr (fl & DM' & Hx & Hq & Hm' & Hl)] Hw Hp Hm Hm2.
  assert (DM' = DM) as -> by (pose proof (mo_bytes _ _ _ _ Hm'); pose proof (mo_bytes _ _ _ _ Hm); congruence).
  assert (forall j a', 0 <= j < n -> addr_ok a' -> cl (put_mem m' s') j a' =
    if decide (align k a' = align k a) then written_line k f d (cl s j a') else cl s j a') as Hcl.
  { intros j a' Hj Ha'. change (cl (put_mem m' s') j a') with (cl s' j a'). by apply (written_at s s' ports); [..|apply Hp|]. }
  split.
  - apply (ws_ok _ _ _ _ _ Hw).
  - by apply put_length.
  - intros j a' L Hj Ha'. rewrite Hcl by done. case_decide; [|by apply Hr].
    destruct (cl s j a') as [L0|] eqn:E; [|done]. intros _. by apply (Hr j a' L0).
  - exists fl, (put_bytes DM (a - lo) data). split; [by unfold xbar_ok; cbn [put_mem s_xbar]; rewrite (ws_xbar _ _ _ _ _ Hw)|].
    split; [done|]. split; [done|]. intros a' Ha'. pose proof (in_mem_ok k lo hi B a' Ha') as Hao. specialize (Hl a' Ha').
    assert (Z.of_nat (length DM) = hi - lo + 1) as HDM by apply Hm.
    destruct (decide (align k a' = align k a)) as [E|E].
    + assert (forall X, line_at k lo X a' = line_at k lo X a) as EL by (intros X; unfold line_at; by rewrite E).
      rewrite !EL, !line_put by done. rewrite !EL in Hl. apply (line_written n (fun j => cl s j a')); [done|].
      intros j Hj. by rewrite Hcl, decide_True.
    + rewrite !line_put_other by done. eapply line_coh_ext; [done| |done]. intros j Hj. by rewrite Hcl, decide_False.
Qed.

(** From a port of the crossbar, or from a processor. *)
Lemma xbar_write_ok i s s0 M l : coherent s0 M -> written_sys f d s0 s l -> l = (if decide (0 <= i < n) then [i] else []) ->
  snoopPorts (x_params (s_xbar s)) ≡ₚ seqZ 0 n ->
  exists s', xbar_functional i f s = Ok (f_resp f, s') /\ coherent s' (put_bytes M (a - lo) data) /\ same_params s0 s'.
Proof.
  intros Hch Hl -> Hports. destruct (ch_lines _ _ _ _ _ _ _ Hch) as (fl & DM & (_ & _ & Hby & _) & _ & Hm & _).
  rewrite <- (ws_xbar _ _ _ _ _ Hl) in Hby. rewrite <- (ws_mem _ _ _ _ _ Hl) in Hm.
  unfold xbar_functional, x_recvFunctional, forwardFunctional. cbn [get_xbar mbind res_bind]. rewrite Hby. cbn [negb].
  destruct (forward_write_ok i (snoopPorts (x_params (s_xbar s)))) with (s := s) as (s1 & -> & Hw); try done.
  { rewrite Hports. apply NoDup_seqZ. }
  { intros p. rewrite Hports, elem_of_seqZ. lia. }
  { apply (ws_ok _ _ _ _ _ Hl). }
  cbn [mbind res_bind]. assert (isResponse (f_pkt f) = false) as -> by (unfold isResponse; by rewrite Hcmd). cbn [negb].
  rewrite <- (ws_mem _ _ _ _ _ Hw) in Hm. destruct (mem_write_ok s1 DM Hm) as (m' & -> & Hm').
  exists (put_mem m' s1). split; [done|].
  assert (exists ports, written_sys f d s0 s1 ports /\ forall j, 0 <= j < n -> j ∈ ports) as (ports & Hw' & Hall).
  { case_decide as Hi.
    - eexists. split; [eapply written_cons; [exact Hl|exact Hw|]|]; [rewrite list_elem_of_filter; naive_solver|].
      intros j Hj. destruct (decide (j = i)) as [->|Hne]; [by left|]. right. apply list_elem_of_filter. split; [done|].
      rewrite Hports, elem_of_seqZ. lia.
    - destruct Hw as [W1 W2 W3 W4 W5 W6 W7]. destruct Hl as [L1 L2 L3 L4 L5 L6 L7].
      exists (filter (fun p => p <> i) (snoopPorts (x_params (s_xbar s)))). split.
      + assert (forall j a0, 0 <= j -> cl s j a0 = cl s0 j a0) as Ecl.
        { intros j a0 Hj. unfold CohBus.cl. by rewrite L5 by (done || by intros ?%elem_of_nil). }
        split; try congruence; try done.
        * intros j Hj Hn. rewrite W5 by done. apply L5; [done|]. by intros ?%elem_of_nil.
        * intros j a0 Hj Ha0 Hne. rewrite W6 by done. by apply Ecl.
        * intros j Hj Hin. rewrite W7 by done. by rewrite Ecl.
      + intros j Hj. apply list_elem_of_filter. split; [intros ->; lia|]. rewrite Hports, elem_of_seqZ. lia. }
  split.
  - eapply coherent_written; [done|exact Hw'|done| |exact Hm']. by rewrite <- (ws_mem _ _ _ _ _ Hw').
  - split; [apply (ws_params _ _ _ _ _ Hw')|]. cbn [put_mem s_xbar]. by rewrite (ws_xbar _ _ _ _ _ Hw').
Qed.
Lemma cpu_write_ok i s M : coherent s M -> 0 <= i < n -> snoopPorts (x_params (s_xbar s)) ≡ₚ seqZ 0 n ->
  exists s', cpu_functional i f s = Ok (f_resp f, s') /\ coherent s' (put_bytes M (a - lo) data) /\ same_params s s'.
Proof.
  intros Hch Hi Hports. destruct (ch_lines _ _ _ _ _ _ _ Hch) as (fl & DM & (_ & _ & Hby & _) & _).
  unfold cpu_functional, c_recvFunctional. rewrite Hby.
  destruct (cache_write_ok (xbar_functional i) cpu_functional_snoop true i s (ch_caches _ _ _ _ _ _ _ Hch) Hi) as (s1 & Hw & ->).
  apply (xbar_write_ok i s1 s M [i]); [done..|by rewrite decide_True|by rewrite (ws_xbar _ _ _ _ _ Hw)].
Qed.
End Write.
End System.
