(* ===== verification/PortProxy.v ===== *)
(** The generator of aligned chunks (src/base/chunk_generator.hh) and the port
    proxies that read and write memory by functional accesses of one chunk
    each: src/mem/port_proxy.hh and port_proxy.cc, fs_translating_port_proxy.cc,
    with the byte order conversions of src/sim/byteswap.hh. *)
From S2P Require Import Prelude Bitfield IntMath MemPacket Cache FuncAccess.

(** * Chunks *)

Record ChunkGenerator := {
  curAddr : Z; nextAddr : Z; curSize : Z; sizeLeft : Z; startAddr : Z; chunkSize : Z }.

Definition ChunkGenerator_new (start totalSize chunk : Z) : res ChunkGenerator :=
  assert! (chunk =? 0) || isPowerOf2 chunk ;;
  let next :=
    if chunk =? 0 then u64 (start + totalSize)
    else
      let next := roundUp start chunk in
      if start =? next then u64 (next + chunk) else next in
  let left_in_chunk := u32 (next - start) in
  let cur := Z.min totalSize left_in_chunk in
  Ok {| curAddr := start; nextAddr := next; curSize := cur; sizeLeft := totalSize - cur; startAddr := start; chunkSize := chunk |}.

Definition gen_complete (g : ChunkGenerator) : Z := u32 (curAddr g - startAddr g).
Definition gen_done (g : ChunkGenerator) : bool := curSize g =? 0.
Definition gen_last (g : ChunkGenerator) : bool := sizeLeft g =? 0.

Definition gen_next (g : ChunkGenerator) : bool * ChunkGenerator :=
  if sizeLeft g =? 0 then
    (false, {| curAddr := curAddr g; nextAddr := nextAddr g; curSize := 0; sizeLeft := sizeLeft g; startAddr := startAddr g;
               chunkSize := chunkSize g |})
  else
    let cur := Z.min (sizeLeft g) (chunkSize g) in
    (true, {| curAddr := nextAddr g; nextAddr := u64 (nextAddr g + cur); curSize := cur; sizeLeft := sizeLeft g - cur;
              startAddr := startAddr g; chunkSize := chunkSize g |}).

(** [for (ChunkGenerator gen(..); !gen.done(); gen.next()) body]; the body
    returns whether the loop goes on, or its function returns. *)
Fixpoint for_chunks {A} (fuel : nat) (body : Z -> Z -> A -> res (bool * A)) (g : ChunkGenerator) (acc : A) : res (bool * A) :=
  match fuel with
  | O => OutOfFuel
  | S fuel =>
    if gen_done g then Ok (true, acc)
    else
      '(go, acc) ← body (curAddr g) (curSize g) acc;
      if go : bool then for_chunks fuel body (snd (gen_next g)) acc else Ok (false, acc)
  end.
(** The loop from the start: there are no more chunks than bytes. *)
Definition chunk_loop {A} (start totalSize chunk : Z) (body : Z -> Z -> A -> res (bool * A)) (acc : A) : res (bool * A) :=
  g ← ChunkGenerator_new start totalSize chunk;
  for_chunks (S (Z.to_nat totalSize)) body g acc.

(** * The proxies *)

Definition funcMasterId : Z := 1.

(** [sendFunctional]: the port; [cacheLineSize]: the size of the chunks; [rid]:
    the address of the request, which is the identity of its packet. *)
Section Proxy.
Context {S : Type} (sendFunctional : FPacket -> S -> res (FPacket * S)) (cacheLineSize rid : Z).

(** The bytes from [p] on, as the pointer [p] of the packet sees them. *)
Definition proxy_packet (a size flags : Z) (c : MemCmd) (p : list Z) : res FPacket :=
  pkt ← dataStatic p (Packet_new rid (Request_new a size flags funcMasterId) c);
  Ok (FPacket_new pkt).

(** The buffer is [buf], and [p] points to its byte [off]. *)
Definition readBlobPhys (addr flags : Z) (buf : list Z) (size : Z) (s : S) : res (list Z * S) :=
  '(_, (buf, _, s)) ← chunk_loop addr (u32 size) cacheLineSize
    (fun a size '(buf, off, s) =>
       f ← proxy_packet a size flags ReadReq (drop (Z.to_nat off) buf);
       '(f, s) ← sendFunctional f s;
       d ← getPtr (f_pkt f);
       Ok (true, (take (Z.to_nat off) buf ++ d, off + size, s)))
    (buf, 0, s);
  Ok (buf, s).

Definition writeBlobPhys (addr flags : Z) (buf : list Z) (size : Z) (s : S) : res S :=
  '(_, (_, s)) ← chunk_loop addr (u32 size) cacheLineSize
    (fun a size '(off, s) =>
       f ← proxy_packet a size flags WriteReq (drop (Z.to_nat off) buf);
       '(_, s) ← sendFunctional f s;
       Ok (true, (off + size, s)))
    (0, s);
  Ok s.

(** [new uint8_t[size]] of a negative number is refused. *)
Definition memsetBlobPhys (addr flags v size : Z) (s : S) : res S :=
  assert! 0 <=? size ;;
  writeBlobPhys addr flags (replicate (Z.to_nat size) v) size s.

Definition readBlob (addr : Z) (buf : list Z) (size : Z) (s : S) : res (list Z * S) := readBlobPhys addr 0 buf size s.
Definition writeBlob (addr : Z) (buf : list Z) (size : Z) (s : S) : res S := writeBlobPhys addr 0 buf size s.
Definition memsetBlob (addr v size : Z) (s : S) : res S := memsetBlobPhys addr 0 v size s.

(** [MasterPort::printAddr] (src/mem/port.cc), which debuggers call. *)
Definition printAddr (a : Z) (s : S) : res S :=
  '(_, s) ← sendFunctional (FPacket_new (Packet_new rid (Request_new a 1 0 funcMasterId) PrintReq)) s; Ok s.

(** [SecurePortProxy] *)
Definition secure_readBlob (addr : Z) (buf : list Z) (size : Z) (s : S) : res (list Z * S) := readBlobPhys addr SECURE buf size s.
Definition secure_writeBlob (addr : Z) (buf : list Z) (size : Z) (s : S) : res S := writeBlobPhys addr SECURE buf size s.
Definition secure_memsetBlob (addr v size : Z) (s : S) : res S := memsetBlobPhys addr SECURE v size s.
End Proxy.

(** * Proxies of virtual addresses in full-system mode *)

(** [vtophys]: the translation of the thread context, or of the whole system
    where there is none. *)
Section FSTranslating.
Context {S : Type} (sendFunctional : FPacket -> S -> res (FPacket * S)) (cacheLineSize rid : Z).
Context (vtophys : Z -> S -> Z) (PageBytes : Z).

Definition fs_readBlob (addr : Z) (buf : list Z) (size : Z) (s : S) : res (list Z * S) :=
  '(_, (buf, _, s)) ← chunk_loop addr (u32 size) PageBytes
    (fun a size '(buf, off, s) =>
       '(d, s) ← readBlobPhys sendFunctional cacheLineSize rid (vtophys a s) 0 (drop (Z.to_nat off) buf) size s;
       Ok (true, (take (Z.to_nat off) buf ++ d, off + size, s)))
    (buf, 0, s);
  Ok (buf, s).
Definition fs_writeBlob (addr : Z) (buf : list Z) (size : Z) (s : S) : res S :=
  '(_, (_, s)) ← chunk_loop addr (u32 size) PageBytes
    (fun a size '(off, s) =>
       s ← writeBlobPhys sendFunctional cacheLineSize rid (vtophys a s) 0 (drop (Z.to_nat off) buf) size s;
       Ok (true, (off + size, s)))
    (0, s);
  Ok s.
Definition fs_memsetBlob (addr v size : Z) (s : S) : res S :=
  '(_, s) ← chunk_loop addr (u32 size) PageBytes
    (fun a size s => s ← memsetBlobPhys sendFunctional cacheLineSize rid (vtophys a s) 0 v size s; Ok (true, s)) s;
  Ok s.

Definition CopyOut (dest : list Z) (src cplen : Z) (s : S) : res (list Z * S) := fs_readBlob src dest cplen s.
Definition CopyIn (dest : Z) (source : list Z) (cplen : Z) (s : S) : res S := fs_writeBlob dest source cplen s.

(** The loop of [CopyStringOut]: [i] is [dst - start]; the result has whether
    the end of the string was found. *)
Fixpoint copy_string_out (fuel : nat) (i maxlen vaddr : Z) (buf : list Z) (s : S) : res (bool * Z * list Z * S) :=
  match fuel with
  | O => OutOfFuel
  | Datatypes.S fuel =>
    if i + 1 <? maxlen then
      '(d, s) ← fs_readBlob vaddr (drop (Z.to_nat i) buf) 1 s;
      let buf := take (Z.to_nat i) buf ++ d in
      c ← aread buf i;
      if c =? 0 then Ok (true, i + 1, buf, s) else copy_string_out fuel (i + 1) maxlen (u64 (vaddr + 1)) buf s
    else Ok (false, i, buf, s)
  end.
Definition CopyStringOut (buf : list Z) (vaddr maxlen : Z) (s : S) : res (list Z * S) :=
  '(foundNull, i, buf, s) ← copy_string_out (Datatypes.S (Z.to_nat maxlen)) 0 maxlen vaddr buf s;
  if foundNull : bool then Ok (buf, s) else buf ← awrite buf i 0; Ok (buf, s).

(** [src] is the string without its end. *)
Definition CopyStringIn (src : list Z) (vaddr : Z) (s : S) : res S :=
  '(_, (_, s)) ← chunk_loop vaddr (u32 (Z.of_nat (length src))) PageBytes
    (fun a size '(off, s) =>
       s ← fs_writeBlob a (drop (Z.to_nat off) src) size s;
       Ok (true, (off + size, s)))
    (0, s);
  Ok s.
End FSTranslating.

(** * Byte order *)

Inductive ByteOrder := BigEndianByteOrder | LittleEndianByteOrder.

Definition swap_byte64 (x : Z) : Z :=
  foldr Z.lor 0
    [ u64 (Z.shiftl (Z.land x 0xff) 56); u64 (Z.shiftl (Z.land x 0xff00) 40); u64 (Z.shiftl (Z.land x 0xff0000) 24);
      u64 (Z.shiftl (Z.land x 0xff000000) 8); Z.shiftr (Z.land x 0xff00000000) 8; Z.shiftr (Z.land x 0xff0000000000) 24;
      Z.shiftr (Z.land x 0xff000000000000) 40; Z.shiftr (Z.land x 0xff00000000000000) 56 ].
Definition swap_byte32 (x : Z) : Z :=
  foldr Z.lor 0
    [ u32 (Z.shiftl (Z.land x 0xff) 24); u32 (Z.shiftl (Z.land x 0xff00) 8); Z.shiftr (Z.land x 0xff0000) 8;
      Z.shiftr (Z.land x 0xff000000) 24 ].
Definition swap_byte16 (x : Z) : Z :=
  Z.lor (wrap_u 16 (Z.shiftl (Z.land x 0xff) 8)) (Z.shiftr (Z.land x 0xff00) 8).

(** [swap_byte] of a value of [n] bytes. *)
Definition swap_byte (n : Z) (x : Z) : res Z :=
  if n =? 8 then Ok (swap_byte64 x)
  else if n =? 4 then Ok (swap_byte32 x)
  else if n =? 2 then Ok (swap_byte16 x)
  else if n =? 1 then Ok x
  else Panic.

(** [gtoh] and [htog]; the host is little-endian. *)
Definition gtoh (n x : Z) (o : ByteOrder) : res Z :=
  match o with BigEndianByteOrder => swap_byte n x | LittleEndianByteOrder => Ok x end.
Definition htog (n x : Z) (o : ByteOrder) : res Z :=
  match o with BigEndianByteOrder => swap_byte n x | LittleEndianByteOrder => Ok x end.

(** The unsigned number of the bytes [l] in the memory of the host. *)
Fixpoint le_value (l : list Z) : Z := match l with [] => 0 | b :: l => b + 2 ^ 8 * le_value l end.

(** The templates for a type of [n] bytes, over the virtual [readBlob] and
    [writeBlob] of a proxy; [fresh]: the bytes of the uninitialised variable. *)
Section Typed.
Context {S : Type} (read_blob : Z -> list Z -> Z -> S -> res (list Z * S)) (write_blob : Z -> list Z -> Z -> S -> res S).
Context (fresh : Z -> list Z) (n : Z).

Definition proxy_read (address : Z) (s : S) : res (Z * S) :=
  '(b, s) ← read_blob address (fresh n) n s; Ok (le_value b, s).
Definition proxy_write (address data : Z) (s : S) : res S := write_blob address (le_bytes (Z.to_nat n) data) n s.
Definition readGtoH (address : Z) (o : ByteOrder) (s : S) : res (Z * S) :=
  '(b, s) ← read_blob address (fresh n) n s; v ← gtoh n (le_value b) o; Ok (v, s).
Definition writeHtoG (address data : Z) (o : ByteOrder) (s : S) : res S :=
  data ← htog n data o; write_blob address (le_bytes (Z.to_nat n) data) n s.
End Typed.

(** * The chunks of a region *)

(** The [n] bytes from [a], cut at the multiples of [c]. *)
Inductive chunked (c : Z) : Z -> Z -> list (Z * Z) -> Prop :=
| chunked_nil a : chunked c a 0 []
| chunked_cons a n m l : 0 < m -> m = Z.min n (c - a mod c) -> chunked c (u64 (a + m)) (n - m) l -> chunked c a n ((a, m) :: l).

(** The loop over a list of chunks. *)
Fixpoint fold_chunks {A} (body : Z -> Z -> A -> res (bool * A)) (l : list (Z * Z)) (acc : A) : res (bool * A) :=
  match l with
  | [] => Ok (true, acc)
  | (a, m) :: l =>
    '(go, acc) ← body a m acc;
    if go : bool then fold_chunks body l acc else Ok (false, acc)
  end.

(** The state of the generator with [n] bytes from [a] to go. *)
Record gen_at (c a n : Z) (g : ChunkGenerator) : Prop := {
  ga_cur : curAddr g = a;
  ga_size : curSize g = Z.min n (c - a mod c);
  ga_left : sizeLeft g = n - curSize g;
  ga_next : 0 < sizeLeft g -> nextAddr g = u64 (a + curSize g) /\ nextAddr g mod c = 0;
  ga_chunk : chunkSize g = c }.

Section Chunks.
Context (k : Z) (Hk : 0 <= k < 32).
Local Abbreviation c := (2 ^ k).

Lemma chunk_pos : 0 < c < 2 ^ 32.
Proof. split; [apply pow2_pos; lia|apply Z.pow_lt_mono_r; lia]. Qed.

Lemma mod_wrap a : u64 a mod c = a mod c.
Proof.
  unfold wrap_u. pose proof chunk_pos. symmetry. apply Znumtheory.Zmod_div_mod; [lia|done|].
  exists (2 ^ (64 - k)). rewrite <- Z.pow_add_r by lia. f_equal. lia.
Qed.

(** The first multiple of the size after [a]. *)
Lemma next_chunk a : 0 <= a < 2 ^ 64 ->
  (if a =? roundUp a c then u64 (roundUp a c + c) else roundUp a c) = u64 (a + (c - a mod c)).
Proof.
  intros Ha. pose proof chunk_pos as Hc. pose proof (Z.div_mod a c ltac:(lia)) as E. pose proof (Z.mod_pos_bound a c ltac:(lia)) as Hr.
  assert (2 ^ 64 = c * 2 ^ (64 - k)) as E64 by (rewrite <- Z.pow_add_r by lia; f_equal; lia).
  pose proof (pow2_pos (64 - k) ltac:(lia)) as Hp. set (q := a / c) in *. set (r := a mod c) in *.
  assert (q < 2 ^ (64 - k)) as Hq by nia.
  rewrite roundUp_roundDown by lia. destruct (Z.eq_dec r 0) as [Er|Er].
  - rewrite (wrap_u_id 64 (a + (c - 1))) by nia. rewrite roundDown_spec by nia.
    assert ((a + (c - 1)) / c = q) as -> by (symmetry; apply (Z.div_unique _ _ _ (c - 1)); lia).
    rewrite (proj2 (Z.eqb_eq _ _)) by lia. f_equal. lia.
  - destruct (decide (q + 1 = 2 ^ (64 - k))) as [Eq|Nq].
    + assert (u64 (a + (c - 1)) = r - 1) as ->.
      { unfold wrap_u. symmetry. apply (Z.mod_unique _ _ 1); [lia|]. nia. }
      rewrite roundDown_spec, Z.div_small by lia. rewrite Z.mul_0_l. destruct (Z.eqb_spec a 0) as [->|]; [lia|].
      unfold wrap_u. apply (Z.mod_unique _ _ 1); [lia|]. nia.
    + assert (c * (q + 1) < 2 ^ 64) by nia. assert (c * (q + 2) <= 2 ^ 64) by nia.
      rewrite (wrap_u_id 64 (a + (c - 1))) by lia. rewrite roundDown_spec by lia.
      assert ((a + (c - 1)) / c = q + 1) as -> by (symmetry; apply (Z.div_unique _ _ _ (r - 1)); lia).
      destruct (Z.eqb_spec a ((q + 1) * c)); [lia|]. rewrite wrap_u_id; lia.
Qed.

Lemma gen_new_at a n : 0 <= a < 2 ^ 64 -> 0 <= n < 2 ^ 32 -> exists g, ChunkGenerator_new a n c = Ok g /\ gen_at c a n g.
Proof.
  intros Ha Hn. pose proof chunk_pos as Hc. unfold ChunkGenerator_new.
  assert (isPowerOf2 c = true) as -> by (apply isPowerOf2_spec; [lia|]; exists k; by split; [lia|]).
  rewrite orb_true_r. destruct (Z.eqb_spec c 0); [lia|]. rewrite next_chunk by done.
  pose proof (Z.mod_pos_bound a c ltac:(lia)) as Hr.
  assert (u32 (u64 (a + (c - a mod c)) - a) = c - a mod c) as ->.
  { unfold wrap_u. symmetry.
    assert (exists q, (a + (c - a mod c)) mod 2 ^ 64 - a = (c - a mod c) - 2 ^ 64 * q) as [q ->].
    { exists ((a + (c - a mod c)) / 2 ^ 64). pose proof (Z.div_mod (a + (c - a mod c)) (2 ^ 64) ltac:(lia)). lia. }
    apply (Z.mod_unique _ _ (- (2 ^ 32 * q))); lia. }
  eexists. split; [done|]. split; cbn [curAddr nextAddr curSize sizeLeft chunkSize]; try done.
  intros Hl. rewrite (Z.min_r n) by lia. split; [done|]. rewrite mod_wrap. rewrite Z.add_sub_assoc.
  rewrite Zminus_mod, <- Zplus_mod_idemp_r, Z_mod_same_full, Z.add_0_r, Zmod_mod, Z.sub_diag. apply Zmod_0_l.
Qed.

Lemma gen_next_at a n g : 0 <= n -> gen_at c a n g -> gen_done g = false ->
  0 < curSize g <= n /\ (sizeLeft g = 0 -> gen_done (snd (gen_next g)) = true) /\
  (sizeLeft g <> 0 -> gen_at c (u64 (a + curSize g)) (n - curSize g) (snd (gen_next g))).
Proof.
  intros Hn [E1 E2 E3 E4 E5] Hd. pose proof chunk_pos as Hc. pose proof (Z.mod_pos_bound a c ltac:(lia)) as Hr.
  unfold gen_done in *. apply Z.eqb_neq in Hd. unfold gen_next.
  split; [lia|]. destruct (Z.eqb_spec (sizeLeft g) 0) as [El|El]; cbn [snd]; [by split|]. split; [done|]. intros _.
  destruct (E4 ltac:(lia)) as [En Em]. rewrite <- En. rewrite E5.
  split; cbn [curAddr nextAddr curSize sizeLeft chunkSize]; rewrite ?Em; try done; try lia.
  intros Hl. split; [done|]. rewrite mod_wrap. assert (Z.min (sizeLeft g) c = c) as -> by lia.
  by rewrite <- Zplus_mod_idemp_r, Z_mod_same_full, Z.add_0_r.
Qed.

(** The loop runs over the chunks, whatever its body does. *)
Lemma for_chunks_ok {A} (body : Z -> Z -> A -> res (bool * A)) fuel : forall a n g, 0 <= n -> gen_at c a n g -> n < Z.of_nat fuel ->
  exists l, chunked c a n l /\ forall acc, for_chunks fuel body g acc = fold_chunks body l acc.
Proof.
  induction fuel as [|fuel IH]; intros a n g Hn Hg Hf; [lia|]. cbn [for_chunks].
  pose proof chunk_pos as Hc. pose proof (Z.mod_pos_bound a c ltac:(lia)) as Hr. pose proof Hg as [E1 E2 E3 _ _].
  destruct (gen_done g) eqn:Hd.
  { unfold gen_done in Hd. apply Z.eqb_eq in Hd. assert (n = 0) as -> by lia. exists []. split; [constructor|done]. }
  destruct (gen_next_at a n g Hn Hg Hd) as (Hp & Hlast & Hnext). rewrite E1.
  destruct (decide (sizeLeft g = 0)) as [El|El].
  - exists [(a, curSize g)]. split; [constructor; [lia|done|]|].
    { rewrite <- E3, El. constructor. }
    intros acc. cbn [fold_chunks]. destruct (body a (curSize g) acc) as [[[] acc']| | |]; cbn [mbind res_bind]; [|done..].
    destruct fuel; [lia|]. cbn [for_chunks]. by rewrite Hlast.
  - destruct (IH (u64 (a + curSize g)) (n - curSize g) (snd (gen_next g))) as (l & Hl & Hfold); [lia|by apply Hnext|lia|].
    exists ((a, curSize g) :: l). split; [by constructor; [lia|..]|]. intros acc. cbn [fold_chunks].
    destruct (body a (curSize g) acc) as [[[] acc']| | |]; cbn [mbind res_bind]; [|done..]. apply Hfold.
Qed.

Lemma chunk_loop_ok {A} (body : Z -> Z -> A -> res (bool * A)) a n : 0 <= a < 2 ^ 64 -> 0 <= n < 2 ^ 32 ->
  exists l, chunked c a n l /\ forall acc, chunk_loop a n c body acc = fold_chunks body l acc.
Proof.
  intros Ha Hn. destruct (gen_new_at a n Ha Hn) as (g & E & Hg).
  destruct (for_chunks_ok body (S (Z.to_nat n)) a n g) as (l & Hl & Hf); [lia|done|lia|].
  exists l. split; [done|]. intros acc. unfold chunk_loop. rewrite E. apply Hf.
Qed.

(** The chunks are determined by the region. *)
Lemma chunked_fun a n l : chunked c a n l -> forall l', chunked c a n l' -> l = l'.
Proof.
  pose proof chunk_pos as Hc. induction 1 as [a|a n m l Hm -> H IH]; intros l' H'; inversion H' as [|a' n' m' l2 Hm' E' H2]; subst; try done.
  - pose proof (Z.mod_pos_bound a c ltac:(lia)). lia.
  - pose proof (Z.mod_pos_bound a c ltac:(lia)). lia.
  - f_equal. by apply IH.
Qed.
End Chunks.

(** ** What the chunks are *)

(** The addresses of the [n] bytes from [a]. *)
Definition region (a n : Z) : list Z := (fun i => u64 (a + i)) <$> seqZ 0 n.
(** The chunks the generator makes. *)
Definition chunks_of (a n c : Z) : res (bool * list (Z * Z)) := chunk_loop a n c (fun b m acc => Ok (true, acc ++ [(b, m)])) [].

Lemma fold_chunks_collect l : forall acc, fold_chunks (fun b m acc => Ok (true, acc ++ [(b, m)])) l acc = Ok (true, acc ++ l).
Proof.
  induction l as [|[b m] l IH]; intros acc; cbn [fold_chunks mbind res_bind]; [by rewrite app_nil_r|]. by rewrite IH, <- app_assoc.
Qed.

Lemma region_split a n m : 0 <= m <= n -> region a n = region a m ++ region (u64 (a + m)) (n - m).
Proof.
  intros H. unfold region. replace n with (m + (n - m)) at 1 by lia. rewrite seqZ_app, fmap_app by lia. f_equal.
  rewrite Z.add_0_l. replace (seqZ m (n - m)) with (Z.add m <$> seqZ 0 (n - m)) by (rewrite fmap_add_seqZ; f_equal; lia).
  rewrite <- list_fmap_compose. apply list_fmap_ext.
  intros i x _. cbn. unfold wrap_u. rewrite Zplus_mod_idemp_l. f_equal. lia.
Qed.

(** Every chunk is not empty and lies in one block of [2 ^ k] bytes; every chunk
    but the last ends where its block ends. *)
Fixpoint chunks_fit (c : Z) (l : list (Z * Z)) : Prop :=
  match l with
  | [] => True
  | (b, m) :: l => 0 < m /\ b mod c + m <= c /\ (l <> [] -> b mod c + m = c) /\ chunks_fit c l
  end.

Lemma chunked_nil_inv c a l : chunked c a 0 l -> 0 < c -> l = [].
Proof. intros H Hc. inversion H as [|a' n m l' Hm Em H']; [done|]. lia. Qed.

Lemma chunked_fit k a n l : 0 <= k < 32 -> 0 <= n -> chunked (2 ^ k) a n l -> 0 <= a < 2 ^ 64 ->
  flat_map (fun '(b, m) => region b m) l = region a n /\ chunks_fit (2 ^ k) l.
Proof.
  intros Hk Hn Hl. pose proof (chunk_pos k Hk) as Hc. induction Hl as [a|a n m l Hm Em Hl IH]; intros Ha; [done|].
  pose proof (Z.mod_pos_bound a (2 ^ k) ltac:(lia)). destruct IH as [IH1 IH2]; [lia|by apply wrap_u_range|].
  cbn [flat_map chunks_fit]. rewrite (region_split a n m), IH1 by lia. split; [done|]. split; [lia|]. split; [lia|]. split; [|done].
  intros Hne. destruct (decide (n = m)) as [->|Hnm]; [|lia]. rewrite Z.sub_diag in Hl. by apply chunked_nil_inv in Hl; [|lia].
Qed.

(** C35 (chunks partition a region).  For every region and every chunk size that
    is a power of two, also when the region wraps around the end of the address
    space, the loop of the chunk generator ends; its chunks are the bytes of the
    region in order, each within one aligned block, and cut only where a block
    ends. *)
Theorem chunks_partition k a n : 0 <= k < 32 -> 0 <= a < 2 ^ 64 -> 0 <= n < 2 ^ 32 ->
  exists l, chunks_of a n (2 ^ k) = Ok (true, l) /\ flat_map (fun '(b, m) => region b m) l = region a n /\ chunks_fit (2 ^ k) l.
Proof.
  intros Hk Ha Hn. unfold chunks_of.
  destruct (chunk_loop_ok k Hk (fun b m acc => Ok (true, acc ++ [(b, m)])) a n Ha Hn) as (l & Hl & ->).
  exists l. split; [apply fold_chunks_collect|]. apply (chunked_fit k a n); (done || lia).
Qed.

Example chunks_partition_witness : exists l, chunks_of (2 ^ 64 - 5) 20 (2 ^ 3) = Ok (true, l) /\
  flat_map (fun '(b, m) => region b m) l = region (2 ^ 64 - 5) 20 /\ chunks_fit (2 ^ 3) l.
Proof. apply (chunks_partition 3); lia. Defined.

Example chunks_example : chunks_of (2 ^ 64 - 5) 20 (2 ^ 3) = Ok (true, [(2 ^ 64 - 5, 5); (0, 8); (8, 7)]).
Proof. vm_compute. reflexivity. Qed.

(** Without a chunk size the region is one chunk. *)
Lemma chunk_loop_whole {A} (body : Z -> Z -> A -> res (bool * A)) a n acc : 0 <= a < 2 ^ 64 -> 0 < n < 2 ^ 32 ->
  chunk_loop a n 0 body acc = ('(go, acc) ← body a n acc; Ok (go, acc)).
Proof.
  intros Ha Hn. unfold chunk_loop, ChunkGenerator_new. cbn [Z.eqb orb mbind res_bind].
  assert (u32 (u64 (a + n) - a) = n) as ->.
  { unfold wrap_u. symmetry. pose proof (Z.div_mod (a + n) (2 ^ 64) ltac:(lia)).
    apply (Z.mod_unique _ _ (- (2 ^ 32 * ((a + n) / 2 ^ 64)))); lia. }
  rewrite Z.min_id, Z.sub_diag. cbn [for_chunks]. unfold gen_done at 1. cbn [curSize curAddr]. destruct (Z.eqb_spec n 0); [lia|].
  destruct (body a n acc) as [[[] acc']| | |]; cbn [mbind res_bind]; [|done..].
  destruct (Z.to_nat n) eqn:E; [lia|]. done.
Qed.

(** * Byte order *)

Lemma shl_bit w x m s i : 0 <= w -> 0 <= s -> 0 <= i ->
  Z.testbit (wrap_u w (Z.shiftl (Z.land x m) s)) i = if i <? w then (if s <=? i then Z.testbit x (i - s) && Z.testbit m (i - s) else false) else false.
Proof.
  intros Hw Hs Hi. unfold wrap_u. destruct (Z.ltb_spec i w).
  - rewrite Z.mod_pow2_bits_low, Z.shiftl_spec, Z.land_spec by lia. destruct (Z.leb_spec s i); [done|].
    by rewrite Z.testbit_neg_r by lia.
  - by rewrite Z.mod_pow2_bits_high by lia.
Qed.
Lemma shr_bit x m s i : 0 <= s -> 0 <= i -> Z.testbit (Z.shiftr (Z.land x m) s) i = Z.testbit x (i + s) && Z.testbit m (i + s).
Proof. intros. by rewrite Z.shiftr_spec, Z.land_spec by lia. Qed.

(** The place of bit [i] of [n] bytes in the other order. *)
Definition mirror (n i : Z) : Z := 8 * (n - 1 - i / 8) + i mod 8.
Lemma mirror_mirror n i : 0 <= i < 8 * n -> 0 <= mirror n i < 8 * n /\ mirror n (mirror n i) = i.
Proof.
  intros Hi. unfold mirror. pose proof (Z.div_mod i 8 ltac:(lia)). pose proof (Z.mod_pos_bound i 8 ltac:(lia)).
  assert (0 <= i / 8 < n) by (split; [apply Z.div_pos; lia|apply Z.div_lt_upper_bound; lia]). split; [lia|].
  assert ((8 * (n - 1 - i / 8) + i mod 8) / 8 = n - 1 - i / 8) as -> by (symmetry; apply (Z.div_unique _ _ _ (i mod 8)); lia).
  assert ((8 * (n - 1 - i / 8) + i mod 8) mod 8 = i mod 8) as -> by (symmetry; apply (Z.mod_unique _ _ (n - 1 - i / 8)); lia). lia.
Qed.

(** Compute the bits of a swapped value, one place after the other. *)
Ltac swap_bits := repeat constructor; cbn [foldr]; rewrite ?Z.lor_spec, ?shl_bit, ?shr_bit, ?Z.bits_0 by lia;
  repeat match goal with |- context [?a <? ?b] => let v := eval vm_compute in (a <? b) in change (a <? b) with v end;
  repeat match goal with |- context [?a <=? ?b] => let v := eval vm_compute in (a <=? b) in change (a <=? b) with v end;
  cbn iota;
  repeat match goal with
  | |- context [Z.testbit (Zpos ?m) ?j] => let v := eval vm_compute in (Z.testbit (Zpos m) j) in change (Z.testbit (Zpos m) j) with v end;
  rewrite ?andb_false_r, ?andb_true_r, ?orb_false_r, ?orb_false_l; reflexivity.
(** The bits above. *)
Ltac swap_high := cbn [foldr]; rewrite ?Z.lor_spec, ?shl_bit, ?shr_bit, ?Z.bits_0 by lia; rewrite ?(proj2 (Z.ltb_ge _ _)) by lia;
  repeat match goal with
  | |- context [Z.testbit (Zpos ?m) (?i + ?s)] => rewrite (testbit_above 64 (Zpos m) (i + s)) by lia
  end; rewrite ?andb_false_r; reflexivity.

(** [f] reverses the [n] bytes of a value. *)
Definition reverses (n : Z) (f : Z -> Z) : Prop :=
  forall x, Forall (fun i => Z.testbit (f x) i = Z.testbit x (mirror n i)) (seqZ 0 (8 * n)) /\ 
    (0 <= x < 2 ^ (8 * n) -> forall i, 8 * n <= i -> Z.testbit (f x) i = false).

Lemma swap64_reverses : reverses 8 swap_byte64.
Proof. intros x. unfold swap_byte64. split; [swap_bits|]. intros Hx i Hi. swap_high. Qed.
Lemma swap32_reverses : reverses 4 swap_byte32.
Proof.
  intros x. unfold swap_byte32. split; [swap_bits|]. intros Hx i Hi. cbn [foldr].
  rewrite !Z.lor_spec, !shl_bit, !shr_bit, Z.bits_0 by lia. rewrite !(proj2 (Z.ltb_ge _ _)) by lia.
  by rewrite !(testbit_above 32 x) by lia.
Qed.
Lemma swap16_reverses : reverses 2 swap_byte16.
Proof.
  intros x. unfold swap_byte16. split; [swap_bits|]. intros Hx i Hi.
  rewrite !Z.lor_spec, !shl_bit, !shr_bit by lia. rewrite !(proj2 (Z.ltb_ge _ _)) by lia.
  by rewrite !(testbit_above 16 x) by lia.
Qed.

Lemma reverses_range n f x : 0 <= n -> reverses n f -> 0 <= x < 2 ^ (8 * n) -> 0 <= f x -> 0 <= f x < 2 ^ (8 * n).
Proof.
  intros Hn Hf Hx H0. split; [done|]. destruct (decide (f x = 0)) as [->|Hne]; [apply pow2_pos; lia|].
  apply Z.log2_lt_pow2; [lia|]. apply Z.nle_gt. intros Hl. pose proof (Z.bit_log2 (f x) ltac:(lia)) as Hb.
  destruct (Hf x) as [_ Hh]. by rewrite Hh in Hb.
Qed.

Lemma reverses_twice n f x : 0 <= n -> reverses n f -> 0 <= x < 2 ^ (8 * n) -> 0 <= f x -> f (f x) = x.
Proof.
  intros Hn Hf Hx H0. pose proof (reverses_range n f x Hn Hf Hx H0) as Hr.
  apply bits_ext. intros i Hi. destruct (Z.ltb_spec i (8 * n)) as [Hlt|Hge].
  - destruct (mirror_mirror n i ltac:(lia)) as [Hm E]. destruct (Hf (f x)) as [H1 _]. destruct (Hf x) as [H2 _].
    rewrite Forall_forall in H1, H2. rewrite H1, H2 by (apply elem_of_seqZ; lia). by rewrite E.
  - destruct (Hf (f x)) as [_ H1]. rewrite H1 by done. symmetry. apply (testbit_above (8 * n)); lia.
Qed.

(** Swapping twice gives the value back. *)
Lemma swap_byte_twice n x : n ∈ [1; 2; 4; 8] -> 0 <= x < 2 ^ (8 * n) -> exists y, swap_byte n x = Ok y /\ 0 <= y < 2 ^ (8 * n) /\ swap_byte n y = Ok x.
Proof.
  intros Hn Hx. rewrite !elem_of_cons, elem_of_nil in Hn. destruct Hn as [->|[->|[->|[->|[]]]]]; unfold swap_byte; cbn [Z.eqb Pos.eqb].
  - by exists x.
  - assert (0 <= swap_byte16 x) by (unfold swap_byte16; apply Z.lor_nonneg; split; [apply wrap_u_range; lia|apply Z.shiftr_nonneg, Z.land_nonneg; lia]).
    exists (swap_byte16 x). split; [done|]. split; [by apply (reverses_range 2 swap_byte16 x); [lia|apply swap16_reverses|..]|].
    f_equal. by apply (reverses_twice 2); [lia|apply swap16_reverses|..].
  - assert (0 <= swap_byte32 x).
    { unfold swap_byte32. cbn [foldr]. rewrite !Z.lor_nonneg, !Z.shiftr_nonneg, !Z.land_nonneg. repeat split; try lia; apply wrap_u_range; lia. }
    exists (swap_byte32 x). split; [done|]. split; [by apply (reverses_range 4 swap_byte32 x); [lia|apply swap32_reverses|..]|].
    f_equal. by apply (reverses_twice 4); [lia|apply swap32_reverses|..].
  - assert (0 <= swap_byte64 x).
    { unfold swap_byte64. cbn [foldr]. rewrite !Z.lor_nonneg, !Z.shiftr_nonneg, !Z.land_nonneg. repeat split; try lia; apply wrap_u_range; lia. }
    exists (swap_byte64 x). split; [done|]. split; [by apply (reverses_range 8 swap_byte64 x); [lia|apply swap64_reverses|..]|].
    f_equal. by apply (reverses_twice 8); [lia|apply swap64_reverses|..].
Qed.

(** The bytes of a number, and back. *)
Lemma le_bytes_length n v : length (le_bytes n v) = n.
Proof. unfold le_bytes. rewrite length_fmap, length_seqZ. lia. Qed.
Lemma le_value_bytes n : forall v, 0 <= v -> le_value (le_bytes n v) = v mod 2 ^ (8 * Z.of_nat n).
Proof.
  induction n as [|n IH]; intros v Hv; [cbn; by rewrite Z.mod_1_r|].
  assert (le_bytes (S n) v = Z.land v 255 :: le_bytes n (Z.shiftr v 8)) as ->.
  { unfold le_bytes. rewrite seqZ_cons by lia. rewrite fmap_cons. f_equal.
    replace (Z.pred (Z.of_nat (S n))) with (Z.of_nat n) by lia.
    replace (seqZ (Z.succ 0) (Z.of_nat n)) with (Z.add 1 <$> seqZ 0 (Z.of_nat n)) by (rewrite fmap_add_seqZ; done).
    rewrite <- list_fmap_compose. apply list_fmap_ext. intros j i Hi. apply lookup_seqZ in Hi as [-> Hj]. cbn.
    rewrite Z.shiftr_shiftr by lia. do 2 f_equal. lia. }
  cbn [le_value]. rewrite IH by (apply Z.shiftr_nonneg; lia). change 255 with (Z.ones 8). rewrite Z.land_ones, Z.shiftr_div_pow2 by lia.
  replace (8 * Z.of_nat (S n)) with (8 + 8 * Z.of_nat n) by lia. rewrite Z.pow_add_r by lia.
  rewrite Z.rem_mul_r by (try apply pow2_pos; lia). done.
Qed.
