(* ===== verification/FuncTheorems.v ===== *)
(** What functional accesses guarantee: whatever lines the caches hold, a debug
    access sees and changes memory as the processors see it. *)
From S2P Require Import Prelude AddrRange CacheBlk ReplPolicy CacheTags TagStore MemPacket Cache SnoopFilter.
From S2P Require Import AbstractMem CoherentXBar CohSystem FuncAccess CohLine CohFill CohHit CohMiss CohSnoop CohFilter.
From S2P Require Import CohMem CohBus CohProto CohCorrect CohTheorems FuncLine PortProxy.

(** * Pieces *)

Lemma get_bytes_add l o n m : 0 <= o -> 0 <= n -> 0 <= m -> get_bytes l o (n + m) = get_bytes l o n ++ get_bytes l (o + n) m.
Proof.
  intros. unfold get_bytes. rewrite !Z2Nat.inj_add by lia. rewrite <- (take_take_drop _ (Z.to_nat n)). by rewrite drop_drop.
Qed.

Lemma put_bytes_app l o x y : 0 <= o -> o + Z.of_nat (length x) + Z.of_nat (length y) <= Z.of_nat (length l) ->
  put_bytes (put_bytes l o x) (o + Z.of_nat (length x)) y = put_bytes l o (x ++ y).
Proof.
  intros Ho Hl. apply list_eq. intros i. pose proof (length_app x y) as E.
  rewrite !put_bytes_lookup by (rewrite ?put_bytes_length; rewrite ?E; lia). rewrite E.
  repeat case_decide; try lia; try done.
  - rewrite lookup_app_r by lia. f_equal. lia.
  - by rewrite lookup_app_l by lia.
Qed.

Lemma put_bytes_nil l o : put_bytes l o [] = l.
Proof. unfold put_bytes. by rewrite Nat.add_0_r, app_nil_l, take_drop. Qed.

(** The bytes a pointer to byte [o] of [l] writes. *)
Lemma put_bytes_at l o x : 0 <= o <= Z.of_nat (length l) -> take (Z.to_nat o) l ++ put_bytes (drop (Z.to_nat o) l) 0 x = put_bytes l o x.
Proof.
  intros Ho. unfold put_bytes. change (Z.to_nat 0) with 0%nat. rewrite take_0, app_nil_l. cbn [Nat.add]. by rewrite drop_drop.
Qed.
Lemma get_bytes_at l o n : 0 <= o -> get_bytes (drop (Z.to_nat o) l) 0 n = get_bytes l o n.
Proof. intros Ho. unfold get_bytes. change (Z.to_nat 0) with 0%nat. by rewrite drop_0. Qed.

(** * Where functional accesses start *)

(** The processor of cache [i], or a master at port [i] of the crossbar. *)
Inductive FuncPort := CpuPort (i : Z) | BusPort (i : Z).

Section Ports.
Context {T D : Type} `{!BaseTags T D}.
Definition func_send (p : FuncPort) : FPacket -> Sys T D -> res (FPacket * Sys T D) :=
  match p with CpuPort i => cpu_functional i | BusPort i => xbar_functional i end.
End Ports.

Section Blobs.
Context {T D : Type} `{!BaseTags T D, !BaseTagsLaws T D} (k : Z) (world : Z -> bool) (lo hi n : Z) (B : mem_bounds k lo hi).
Implicit Types (s : Sys T D) (f : FPacket) (M d buf : list Z) (p : FuncPort).
Local Abbreviation coherent := (coherent k world lo hi n).

(** A master on the crossbar is not one of its caches. *)
Definition port_ok p : Prop := match p with CpuPort i => 0 <= i < n | BusPort i => ~ 0 <= i < n end.
(** The crossbar snoops the caches, in any order. *)
Definition snoops_caches s : Prop := snoopPorts (x_params (s_xbar s)) ≡ₚ seqZ 0 n.

Lemma func_read_ok s M p f d : coherent s M -> snoops_caches s -> port_ok p -> func_packet k world f d ->
  in_mem lo hi (p_addr (f_pkt f)) -> p_cmd (f_pkt f) = ReadReq ->
  exists f', func_send p f s = Ok (f', s) /\ p_cmd (f_pkt f') = ReadResp /\
    p_data (f_pkt f') = Some (put_bytes d 0 (get_bytes M (p_addr (f_pkt f) - lo) (p_size (f_pkt f)))).
Proof.
  intros Hch Hsn Hp Hf Ha Hc.
  assert (exists f', func_send p f s = Ok (f', s) /\ f_pkt f' = f_pkt (f_resp (with_found k f d (line_at k lo M (p_addr (f_pkt f))))))
    as (f' & E & Ef).
  { destruct p as [i|i]; cbn [func_send port_ok] in *.
    - by apply (cpu_read_ok k world lo hi n B s M f d).
    - apply (xbar_read_ok k world lo hi n B s M f d); try done. by left. }
  exists f'. split; [done|]. rewrite Ef. cbn [f_resp f_pkt drop_flags with_flags with_cmd p_cmd p_data with_found with_data].
  rewrite Hc. split; [done|]. by rewrite (line_bytes_flat k world lo hi B f d).
Qed.

Lemma func_write_ok s M p f d : coherent s M -> snoops_caches s -> port_ok p -> func_packet k world f d ->
  in_mem lo hi (p_addr (f_pkt f)) -> p_cmd (f_pkt f) = WriteReq ->
  exists f' s', func_send p f s = Ok (f', s') /\ p_cmd (f_pkt f') = WriteResp /\ same_params s s' /\
    coherent s' (put_bytes M (p_addr (f_pkt f) - lo) (get_bytes d 0 (p_size (f_pkt f)))).
Proof.
  intros Hch Hsn Hp Hf Ha Hc.
  assert (exists s', func_send p f s = Ok (f_resp f, s') /\ coherent s' (put_bytes M (p_addr (f_pkt f) - lo) (get_bytes d 0 (p_size (f_pkt f)))) /\
    same_params s s') as (s' & E & Hch' & Hsp).
  { destruct p as [i|i]; cbn [func_send port_ok] in *.
    - by apply (cpu_write_ok k world lo hi n B f d).
    - apply (xbar_write_ok k world lo hi n B f d Hf Ha Hc i s s M []); try done; [|by rewrite decide_False].
      apply written_nil. apply (ch_caches _ _ _ _ _ _ _ Hch). }
  exists (f_resp f), s'. split; [done|]. split; [|done]. cbn [f_resp f_pkt drop_flags with_flags with_cmd p_cmd]. by rewrite Hc.
Qed.
(** ** Regions *)

(** The [m] bytes from [a] are memory of the security state of [flags]. *)
Definition region_ok (flags a m : Z) : Prop :=
  0 < m -> (lo <= a /\ a + m <= hi + 1) /\ forall b, a <= b < a + m -> world (align k b) = isSet flags SECURE.

Lemma region_tail flags a m m' : 0 <= m' <= m -> region_ok flags a m -> region_ok flags (u64 (a + m')) (m - m').
Proof.
  intros Hm H Hp. destruct H as [[H1 H2] H3]; [lia|]. destruct B. rewrite wrap_u_id by lia. split; [lia|]. intros b Hb. apply H3. lia.
Qed.

(** The packet of a chunk. *)
Lemma proxy_packet_ok rid flags a m m' (c : MemCmd) d : region_ok flags a m -> 0 < m' <= m -> a mod 2 ^ k + m' <= 2 ^ k -> m' <= Z.of_nat (length d) ->
  exists f, proxy_packet rid a m' flags c d = Ok f /\ func_packet k world f d /\ p_addr (f_pkt f) = a /\ p_size (f_pkt f) = m' /\
    p_cmd (f_pkt f) = c /\ in_mem lo hi a.
Proof.
  intros Hr Hm Hl Hd. destruct Hr as [[H1 H2] H3]; [lia|]. destruct B. eexists. split; [done|]. split; [|split_and!; try done; unfold in_mem; lia].
  split; cbn [FPacket_new f_pkt with_data Packet_new Request_new p_addr p_size p_isSecure p_data r_paddr r_size r_flags bytesValid].
  - unfold addr_ok. lia.
  - lia.
  - unfold req_isSecure. cbn [r_flags]. symmetry. apply H3. lia.
  - done.
  - by left.
Qed.

Lemma chunk_fits a m m' : 0 < m' -> m' = Z.min m (2 ^ k - a mod 2 ^ k) -> m' <= m /\ a mod 2 ^ k + m' <= 2 ^ k.
Proof. lia. Qed.

Section Blob.
Context (rid flags : Z) (p : FuncPort) (Hp : port_ok p).

Lemma read_chunks s M a m l : chunked (2 ^ k) a m l -> coherent s M -> snoops_caches s -> region_ok flags a m -> 0 <= m ->
  forall buf off, 0 <= off -> off + m <= Z.of_nat (length buf) ->
  fold_chunks (fun a size '(buf, off, s) =>
       f ← proxy_packet rid a size flags ReadReq (drop (Z.to_nat off) buf);
       '(f, s) ← func_send p f s;
       d ← getPtr (f_pkt f);
       Ok (true, (take (Z.to_nat off) buf ++ d, off + size, s))) l (buf, off, s) =
    Ok (true, (put_bytes buf off (get_bytes M (a - lo) m), off + m, s)).
Proof.
  intros Hl Hch Hsn. induction Hl as [a|a m m' l Hm0 Em Hl IH]; intros Hr Hm buf off Ho Hlen; cbn [fold_chunks].
  { change (get_bytes M (a - lo) 0) with (@nil Z). by rewrite put_bytes_nil, Z.add_0_r. }
  destruct (chunk_fits a m m' Hm0 Em) as [Hle Hfit].
  destruct (proxy_packet_ok rid flags a m m' ReadReq (drop (Z.to_nat off) buf) Hr ltac:(lia) Hfit) as (f & -> & Hf & Ea & Es & Ec & Ha);
    [rewrite length_drop; lia|]. cbn [mbind res_bind].
  destruct (func_read_ok s M p f _ Hch Hsn Hp Hf) as (f' & -> & _ & Ed); [by rewrite Ea|done|]. cbn [mbind res_bind].
  unfold getPtr. rewrite Ed, Ea, Es. cbn [mbind res_bind]. rewrite put_bytes_at by lia.
  pose proof (ch_length _ _ _ _ _ _ _ Hch) as HM. unfold in_mem in Ha. destruct (Hr ltac:(lia)) as [[R1 R2] _].
  assert (Z.of_nat (length (get_bytes M (a - lo) m')) = m') as Hg by (apply get_bytes_length; lia).
  rewrite IH; [|by apply region_tail; [lia|]|lia|lia|rewrite put_bytes_length; lia].
  destruct (decide (m = m')) as [<-|Hne].
  - rewrite Z.sub_diag. change (get_bytes M (u64 (a + m) - lo) 0) with (@nil Z). by rewrite put_bytes_nil, Z.add_0_r.
  - destruct B. rewrite (wrap_u_id 64) by lia. rewrite <- Hg at 2. rewrite put_bytes_app by (rewrite ?get_bytes_length; lia).
    replace (a + m' - lo) with (a - lo + m') by lia. rewrite <- get_bytes_add by lia. replace (m' + (m - m')) with m by lia. by replace (off + m' + (m - m')) with (off + m) by lia.
Qed.

Lemma write_chunks buf a m l : chunked (2 ^ k) a m l -> region_ok flags a m -> 0 <= m ->
  forall s M off, coherent s M -> snoops_caches s -> 0 <= off -> off + m <= Z.of_nat (length buf) ->
  exists s', fold_chunks (fun a size '(off, s) =>
       f ← proxy_packet rid a size flags WriteReq (drop (Z.to_nat off) buf);
       '(_, s) ← func_send p f s;
       Ok (true, (off + size, s))) l (off, s) = Ok (true, (off + m, s')) /\
    coherent s' (put_bytes M (a - lo) (get_bytes buf off m)) /\ same_params s s'.
Proof.
  intros Hl. induction Hl as [a|a m m' l Hm0 Em Hl IH]; intros Hr Hm s M off Hch Hsn Ho Hlen; cbn [fold_chunks].
  { change (get_bytes buf off 0) with (@nil Z). rewrite put_bytes_nil, Z.add_0_r. by exists s. }
  destruct (chunk_fits a m m' Hm0 Em) as [Hle Hfit].
  destruct (proxy_packet_ok rid flags a m m' WriteReq (drop (Z.to_nat off) buf) Hr ltac:(lia) Hfit) as (f & -> & Hf & Ea & Es & Ec & Ha);
    [rewrite length_drop; lia|]. cbn [mbind res_bind].
  destruct (func_write_ok s M p f _ Hch Hsn Hp Hf) as (f' & s1 & -> & _ & Hsp & Hch1); [by rewrite Ea|done|]. cbn [mbind res_bind].
  rewrite Ea, Es, get_bytes_at in Hch1 by lia.
  pose proof (ch_length _ _ _ _ _ _ _ Hch) as HM. unfold in_mem in Ha. destruct (Hr ltac:(lia)) as [[R1 R2] _].
  assert (Z.of_nat (length (get_bytes buf off m')) = m') as Hg by (apply get_bytes_length; lia).
  destruct (IH ltac:(by apply region_tail; [lia|]) ltac:(lia) s1 _ (off + m') Hch1) as (s' & -> & Hch' & Hsp'); [|lia|lia|].
  { unfold snoops_caches. destruct Hsp as (_ & -> & _). done. }
  exists s'. split; [do 3 f_equal; lia|]. split; [|by eapply same_params_trans].
  destruct (decide (m = m')) as [<-|Hne].
  - rewrite Z.sub_diag in Hch'. change (get_bytes buf (off + m) 0) with (@nil Z) in Hch'. by rewrite put_bytes_nil in Hch'.
  - destruct B. rewrite (wrap_u_id 64) in Hch' by lia. replace (a + m' - lo) with (a - lo + m') in Hch' by lia.
    rewrite <- Hg in Hch' at 2. rewrite put_bytes_app in Hch' by (rewrite ?get_bytes_length; lia).
    rewrite <- get_bytes_add in Hch' by lia. by replace (m' + (m - m')) with m in Hch' by lia.
Qed.

(** A blob is read from and written to the memory the processors see. *)
Lemma readBlobPhys_ok s M addr buf size : coherent s M -> snoops_caches s -> 0 <= addr < 2 ^ 64 -> 0 <= size < 2 ^ 32 ->
  region_ok flags addr size -> size <= Z.of_nat (length buf) ->
  readBlobPhys (func_send p) (2 ^ k) rid addr flags buf size s = Ok (put_bytes buf 0 (get_bytes M (addr - lo) size), s).
Proof.
  intros Hch Hsn Ha Hs Hr Hl. unfold readBlobPhys. rewrite (wrap_u_id 32) by lia. pose proof (mb_k _ _ _ B).
  match goal with |- context [chunk_loop _ _ _ ?b _] => destruct (chunk_loop_ok k ltac:(lia) b addr size Ha Hs) as (l & Hc & ->) end.
  rewrite (read_chunks s M addr size l); [done|done..|lia|done|lia].
Qed.

Lemma writeBlobPhys_ok s M addr buf size : coherent s M -> snoops_caches s -> 0 <= addr < 2 ^ 64 -> 0 <= size < 2 ^ 32 ->
  region_ok flags addr size -> size <= Z.of_nat (length buf) ->
  exists s', writeBlobPhys (func_send p) (2 ^ k) rid addr flags buf size s = Ok s' /\
    coherent s' (put_bytes M (addr - lo) (get_bytes buf 0 size)) /\ same_params s s'.
Proof.
  intros Hch Hsn Ha Hs Hr Hl. unfold writeBlobPhys. rewrite (wrap_u_id 32) by lia. pose proof (mb_k _ _ _ B).
  match goal with |- context [chunk_loop _ _ _ ?b _] => destruct (chunk_loop_ok k ltac:(lia) b addr size Ha Hs) as (l & Hc & ->) end.
  destruct (write_chunks buf addr size l Hc Hr ltac:(lia) s M 0 Hch Hsn ltac:(lia) ltac:(lia)) as (s' & -> & Hch' & Hsp).
  by exists s'.
Qed.
End Blob.
End Blobs.

(** * Runs of requests and debug accesses *)

(** A request of a processor, or a proxy at [p] that reads or writes [size]
    bytes, to or from the buffer [buf]. *)
Inductive DebugOp :=
| OpRequest (x : Access)
| OpRead (p : FuncPort) (rid addr flags : Z) (buf : list Z) (size : Z)
| OpWrite (p : FuncPort) (rid addr flags : Z) (buf : list Z) (size : Z).
Inductive Outcome := Reply (p : Packet) | Blob (buf : list Z) | Written.

Section DebugRun.
Context {T D : Type} `{!BaseTags T D} (line_size : Z).

Definition debug_step (s : Sys T D) (op : DebugOp) : res (Outcome * Sys T D) :=
  match op with
  | OpRequest x => '(p, s) ← cpu_send (x_env x) (x_cpu x) (x_pkt x) s; Ok (Reply p, s)
  | OpRead p rid addr flags buf size => '(b, s) ← readBlobPhys (func_send p) line_size rid addr flags buf size s; Ok (Blob b, s)
  | OpWrite p rid addr flags buf size => s ← writeBlobPhys (func_send p) line_size rid addr flags buf size s; Ok (Written, s)
  end.
Fixpoint debug_run (s : Sys T D) (l : list DebugOp) : res (list Outcome * Sys T D) :=
  match l with
  | [] => Ok ([], s)
  | op :: l => '(o, s) ← debug_step s op; '(os, s) ← debug_run s l; Ok (o :: os, s)
  end.
End DebugRun.

(** The same on a flat memory at address [lo]. *)
Inductive flat_debug (lo : Z) : list Z -> list DebugOp -> list Outcome -> list Z -> Prop :=
| flat_debug_nil M : flat_debug lo M [] [] M
| flat_debug_request M x l p os ok M' : replies lo (x_pkt x) (x_data x) ok M p ->
  flat_debug lo (flat_write lo (x_pkt x) ok (x_data x) M) l os M' -> flat_debug lo M (OpRequest x :: l) (Reply p :: os) M'
| flat_debug_read M p rid addr flags buf size l os M' : flat_debug lo M l os M' ->
  flat_debug lo M (OpRead p rid addr flags buf size :: l) (Blob (put_bytes buf 0 (get_bytes M (addr - lo) size)) :: os) M'
| flat_debug_write M p rid addr flags buf size l os M' : flat_debug lo (put_bytes M (addr - lo) (get_bytes buf 0 size)) l os M' ->
  flat_debug lo M (OpWrite p rid addr flags buf size :: l) (Written :: os) M'.

Section Theorems.
Context {T D : Type} `{!BaseTags T D, !BaseTagsLaws T D} (k : Z) (world : Z -> bool) (lo hi n : Z) (B : mem_bounds k lo hi).
Implicit Types (s : Sys T D) (M d buf : list Z) (p : FuncPort).
Local Abbreviation coherent := (coherent k world lo hi n).

(** The region, buffer and port of a debug access. *)
Record valid_blob p (addr flags : Z) buf (size : Z) : Prop := {
  vb_port : port_ok n p;
  vb_size : 0 <= size < 2 ^ 32 /\ size <= Z.of_nat (length buf);
  vb_addr : 0 <= addr < 2 ^ 64;
  vb_region : region_ok k world lo hi flags addr size }.
Definition valid_op s (op : DebugOp) : Prop :=
  match op with
  | OpRequest x => valid_access k world lo hi n s x
  | OpRead p _ addr flags buf size | OpWrite p _ addr flags buf size => valid_blob p addr flags buf size
  end.

Lemma valid_op_same s s' op : same_params s s' -> valid_op s op -> valid_op s' op.
Proof. intros Hsp. destruct op; cbn [valid_op]; [by apply valid_same|done..]. Qed.
Lemma snoops_same s s' : same_params s s' -> snoops_caches n s -> snoops_caches n s'.
Proof. unfold snoops_caches. by intros (_ & -> & _). Qed.

Lemma debug_run_ok l : forall s M, coherent s M -> snoops_caches n s -> Forall (valid_op s) l ->
  exists os s' M', debug_run (2 ^ k) s l = Ok (os, s') /\ flat_debug lo M l os M' /\ coherent s' M'.
Proof.
  induction l as [|op l IH]; intros s M Hch Hsn Hv; cbn [debug_run].
  { exists [], s, M. split_and!; try done. constructor. }
  apply Forall_cons in Hv as [Hop Hv].
  assert (forall s1 M1, coherent s1 M1 -> same_params s s1 -> exists os s' M', debug_run (2 ^ k) s1 l = Ok (os, s') /\
    flat_debug lo M1 l os M' /\ coherent s' M') as Hgo.
  { intros s1 M1 Hch1 Hsp. apply IH; [done|by eapply snoops_same|]. eapply Forall_impl; [exact Hv|]. intros o. by apply valid_op_same. }
  destruct op as [x|p rid addr flags buf size|p rid addr flags buf size]; cbn [valid_op debug_step] in *.
  - destruct (cpu_send_ok k world lo hi n B s M x Hch Hop) as (ok & q & s1 & -> & Hch1 & Hsp & Hrp). cbn [mbind res_bind].
    destruct (Hgo s1 _ Hch1 Hsp) as (os & s' & M' & -> & Hf & Hc). exists (Reply q :: os), s', M'. split; [done|]. split; [|done].
    by econstructor.
  - destruct Hop as [H1 [H2 H3] H4 H5]. rewrite (readBlobPhys_ok k world lo hi n B rid flags p H1 s M) by done. cbn [mbind res_bind].
    destruct (Hgo s M Hch) as (os & s' & M' & -> & Hf & Hc); [by split_and!|]. eexists (_ :: os), s', M'. split; [done|]. split; [|done].
    by constructor.
  - destruct Hop as [H1 [H2 H3] H4 H5].
    destruct (writeBlobPhys_ok k world lo hi n B rid flags p H1 s M addr buf size) as (s1 & -> & Hch1 & Hsp); try done. cbn [mbind res_bind].
    destruct (Hgo s1 _ Hch1 Hsp) as (os & s' & M' & -> & Hf & Hc). exists (Written :: os), s', M'. split; [done|]. split; [|done].
    by constructor.
Qed.

(** C5 (debug accesses are coherent).  Any sequence of requests of processors
    and of reads and writes of regions through port proxies, of processors or
    of masters on the crossbar, is served as by one flat memory: a proxy reads
    what the processors last stored, in whatever cache it is, and the
    processors load what a proxy wrote. *)
Theorem debug_runs_refine s0 M0 l : fresh_system k lo hi n s0 M0 -> snoops_caches n s0 -> Forall (valid_op s0) l ->
  exists os s' M', debug_run (2 ^ k) s0 l = Ok (os, s') /\ flat_debug lo M0 l os M' /\ coherent s' M'.
Proof. intros H0 Hs Hl. by apply debug_run_ok; [apply (fresh_coherent k world lo hi n B)|..]. Qed.

(** C31 (blobs round trip).  What a proxy writes at an address any other proxy
    reads back from there, and the bytes around it are unchanged. *)
Theorem blob_roundtrip s M p q rid rid' addr flags buf buf' size : coherent s M -> snoops_caches n s ->
  valid_blob p addr flags buf size -> valid_blob q addr flags buf' size ->
  exists s', writeBlobPhys (func_send p) (2 ^ k) rid addr flags buf size s = Ok s' /\
    readBlobPhys (func_send q) (2 ^ k) rid' addr flags buf' size s' = Ok (put_bytes buf' 0 (take (Z.to_nat size) buf), s') /\
    exists M', coherent s' M' /\ forall a m, 0 <= a - lo -> a + m <= addr \/ addr + size <= a -> get_bytes M' (a - lo) m = get_bytes M (a - lo) m.
Proof.
  intros Hch Hsn [P1 [P2 P3] P4 P5] [Q1 [_ Q3] _ _].
  destruct (writeBlobPhys_ok k world lo hi n B rid flags p P1 s M addr buf size) as (s' & -> & Hch' & Hsp); try done.
  exists s'. split; [done|]. rewrite (readBlobPhys_ok k world lo hi n B rid' flags q Q1 s' _ addr buf' size Hch') by (done || by eapply snoops_same).
  assert (Z.of_nat (length (get_bytes buf 0 size)) = size) as Hl by (apply get_bytes_length; lia).
  pose proof (ch_length _ _ _ _ _ _ _ Hch) as HM. destruct (decide (size = 0)) as [->|Hne].
  - change (get_bytes buf 0 0) with (@nil Z) in *. rewrite put_bytes_nil in *. split; [done|]. exists M. by split.
  - destruct (P5 ltac:(lia)) as [[R1 R2] _]. pose proof (get_put_same M (addr - lo) (get_bytes buf 0 size) ltac:(lia) ltac:(lia)) as Eg. rewrite Hl in Eg. rewrite Eg. split; [done|].
    eexists. split; [exact Hch'|]. intros a m Ha Hd. apply get_put_out; lia.
Qed.
(** ** Values *)

(** (typed accesses round trip).  A value of 1, 2, 4 or 8 bytes written in
    either byte order is read back by any proxy in the same order, also across
    lines. *)
Theorem typed_roundtrip s M p q rid rid' addr w v o fresh : coherent s M -> snoops_caches n s -> port_ok n p -> port_ok n q ->
  w ∈ [1; 2; 4; 8] -> 0 <= v < 2 ^ (8 * w) -> 0 <= addr < 2 ^ 64 -> region_ok k world lo hi 0 addr w -> Z.of_nat (length (fresh w)) = w ->
  exists s', writeHtoG (writeBlob (func_send p) (2 ^ k) rid) w addr v o s = Ok s' /\
    readGtoH (readBlob (func_send q) (2 ^ k) rid') fresh w addr o s' = Ok (v, s').
Proof.
  intros Hch Hsn Hp Hq Hw Hv Ha Hr Hf.
  assert (0 < w <= 8) as Hw8 by (rewrite !elem_of_cons, elem_of_nil in Hw; lia).
  assert (exists y, htog w v o = Ok y /\ 0 <= y < 2 ^ (8 * w) /\ gtoh w y o = Ok v) as (y & E & Hy & Ey).
  { destruct o; cbn [htog gtoh]; [by apply swap_byte_twice|by exists v]. }
  unfold writeHtoG, readGtoH, writeBlob, readBlob. rewrite E. cbn [mbind res_bind].
  destruct (writeBlobPhys_ok k world lo hi n B rid 0 p Hp s M addr (le_bytes (Z.to_nat w) y) w) as (s' & -> & Hch' & Hsp); try done;
    [lia|rewrite le_bytes_length; lia|].
  exists s'. split; [done|]. rewrite (readBlobPhys_ok k world lo hi n B rid' 0 q Hq s' _ addr (fresh w) w Hch') by (try done; try lia; by eapply snoops_same).
  cbn [mbind res_bind]. rewrite get_bytes_all by (rewrite le_bytes_length; lia).
  pose proof (ch_length _ _ _ _ _ _ _ Hch) as HM. destruct (Hr ltac:(lia)) as [[R1 R2] _].
  assert (Z.of_nat (length (le_bytes (Z.to_nat w) y)) = w) as Hl by (rewrite le_bytes_length; lia).
  pose proof (get_put_same M (addr - lo) (le_bytes (Z.to_nat w) y) ltac:(lia) ltac:(lia)) as Eg. rewrite Hl in Eg. rewrite Eg.
  rewrite put_bytes_all by lia. rewrite le_value_bytes, Z2Nat.id, Z.mod_small by lia. rewrite Ey. done.
Qed.

(** ** Printing an address *)

(** (printing a cached address fails).  [printAddr] of a byte of a line the
    cache of the processor holds fails the assertion of [trySatisfyFunctional]
    that a print request comes without data, as [functionalAccess] passes the
    data of the block. *)
Theorem print_cached_asserts s M i a L rid : coherent s M -> 0 <= i < n -> in_mem lo hi a -> world (align k a) = false ->
  cl k world s i a = Some L -> printAddr (cpu_functional i) rid a s = Panic.
Proof.
  intros Hch Hi Ha Hw HL. pose proof (mb_k _ _ _ B) as Hk. pose proof (in_mem_ok k lo hi B a Ha) as Hao.
  destruct (ch_lines _ _ _ _ _ _ _ Hch) as (fl & DM & (_ & _ & Hby & _) & _).
  destruct (cache_at k world lo hi n s i (ch_caches _ _ _ _ _ _ _ Hch) Hi) as (c & Hc & Hget & Hok & _).
  rewrite (cl_at k world s i c a Hc) in HL.
  unfold printAddr, cpu_functional, c_recvFunctional, c_functionalAccess. rewrite Hby, Hget. cbn [mbind res_bind].
  assert (func_packet k world (FPacket_new (with_data (Some [0]) (Packet_new rid (Request_new a 1 0 funcMasterId) PrintReq))) [0]) as Hf.
  { pose proof (Z.mod_pos_bound a (2 ^ k) (pow2_pos k ltac:(lia))). split; try done; [cbn; lia|by left]. }
  unfold satisfy_from_block. cbn [FPacket_new f_pkt Packet_new Request_new p_addr p_isSecure r_paddr r_size r_flags].
  change (req_isSecure _) with false. rewrite <- Hw.
  destruct (cline_cases k world c a Hok Hao) as [(p & b & v & -> & (H1 & H2 & _ & _ & H5) & Hl & _)|(_ & E & _)]; [|congruence].
  cbn [mbind res_bind]. rewrite H1. cbn [mbind res_bind get_data]. rewrite H2, H5. cbn [mbind res_bind].
  unfold trySatisfyFunctional. cbn [FPacket_new f_pkt Packet_new Request_new p_addr p_size p_isSecure r_paddr r_size r_flags].
  destruct (fp_overlap k world _ [0] v Hk Hf Hl) as (O1 & O2 & _). cbn [FPacket_new f_pkt with_data Packet_new Request_new p_addr p_size r_paddr r_size] in O1, O2.
  rewrite (co_blkSize _ _ _ Hok), getBlockAddr_eq by done. cbn [p_addr Packet_new Request_new r_paddr]. rewrite O1, O2, Hw. done.
Qed.
End Theorems.

(** * On the concrete system *)

Lemma ex_snoops bytes s : ex_system_at bytes mostly_incl = Ok s -> snoops_caches 2 s.
Proof.
  intros E. destruct (ex_system_inv bytes s E) as (c & f0 & f & _ & _ & _ & _ & _ & _ & Ex & _). unfold snoops_caches. rewrite Ex.
  change ([0; 1] ≡ₚ seqZ 0 2). done.
Qed.

(** Regions of memory that is not secure, from a master on the crossbar. *)
Lemma ex_blob a buf size : 0 <= a -> a + size <= 1024 -> 0 <= size <= Z.of_nat (length buf) ->
  valid_blob 3 (fun _ => false) 0 1023 2 (BusPort 2) a 0 buf size.
Proof. intros. split; [cbn; lia|lia|lia|]. intros _. split; [lia|done]. Qed.

Definition ex_ops : list DebugOp :=
  [ OpRequest (ex_access 0 true 16 0 [1; 2]); OpRead (BusPort 2) 9 12 0 (replicate 12 0) 12;
    OpWrite (BusPort 2) 9 14 0 [7; 8; 9; 10] 4; OpRequest (ex_access 1 false 16 0 [0; 0]) ].

Example debug_runs_refine_witness : exists s0, ex_fresh s0 ex_bytes /\ exists os s' M', debug_run 8 s0 ex_ops = Ok (os, s') /\
  flat_debug 0 ex_bytes ex_ops os M' /\ coherent 3 (fun _ => false) 0 1023 2 s' M'.
Proof.
  destruct ex_system_exists as [s E]. exists s. split; [by apply ex_system_fresh|].
  apply (debug_runs_refine 3 (fun _ => false) 0 1023 2 ex_bounds); [by apply ex_system_fresh|by apply (ex_snoops ex_bytes)|].
  repeat (apply Forall_cons; split); [by apply ex_access_valid|by apply ex_blob; cbn; lia|by apply ex_blob; cbn; lia|by apply ex_access_valid|done].
Defined.

Definition outcome_data (o : Outcome) : option (list Z) := match o with Reply p => p_data p | Blob b => Some b | Written => None end.
(** What these accesses return: the proxy reads the store that is dirty in cache
    0, and processor 1 loads what the proxy wrote. *)
Example ex_ops_results : (s ← ex_system mostly_incl; '(os, _) ← debug_run 8 s ex_ops;
    Ok (map outcome_data os)) =
  Ok [Some [1; 2]; Some [12; 13; 14; 15; 1; 2; 18; 19; 20; 21; 22; 23]; None; Some [9; 10]].
Proof. vm_compute. reflexivity. Qed.

Example blob_roundtrip_witness : exists s0, ex_fresh s0 ex_bytes /\
  exists s', writeBlobPhys (func_send (BusPort 2)) 8 9 14 0 [7; 8; 9; 10] 4 s0 = Ok s' /\
    readBlobPhys (func_send (CpuPort 1)) 8 9 14 0 [0; 0; 0; 0] 4 s' = Ok ([7; 8; 9; 10], s').
Proof.
  destruct ex_system_exists as [s E]. pose proof (ex_system_fresh s E) as Hf. exists s. split; [done|].
  assert (valid_blob 3 (fun _ => false) 0 1023 2 (CpuPort 1) 14 0 [0; 0; 0; 0] 4) as Hq by (split; [done|done|done|by split]).
  destruct (blob_roundtrip 3 (fun _ => false) 0 1023 2 ex_bounds s ex_bytes (BusPort 2) (CpuPort 1) 9 9 14 0 [7; 8; 9; 10] [0; 0; 0; 0] 4)
    as (s' & H1 & H2 & _); [by apply (fresh_coherent 3 (fun _ => false) 0 1023 2 ex_bounds)|by apply (ex_snoops ex_bytes)|by apply ex_blob|done|].
  by exists s'.
Defined.

Example print_cached_asserts_witness : exists s : Sys (BaseSetAssoc LRURP LRUReplData) LRUReplData,
  printAddr (cpu_functional 0) 9 16 s = Panic.
Proof.
  destruct ex_shared as (s0 & ps & s & E & Hr & H1 & _). exists s.
  destruct (reachable_coherent 3 (fun _ => false) 0 1023 2 ex_bounds s0 ex_bytes s) as [M Hch];
    [by apply ex_system_fresh|by eapply ex_shared_reachable|].
  by eapply (print_cached_asserts 3 (fun _ => false) 0 1023 2 ex_bounds s M 0 16).
Defined.

Example typed_roundtrip_witness : exists s0 s', ex_fresh s0 ex_bytes /\
  writeHtoG (writeBlob (func_send (BusPort 2)) 8 9) 4 14 0x01020304 BigEndianByteOrder s0 = Ok s' /\
  readGtoH (readBlob (func_send (CpuPort 1)) 8 9) (fun w => replicate (Z.to_nat w) 0) 4 14 BigEndianByteOrder s' = Ok (0x01020304, s').
Proof.
  destruct ex_system_exists as [s E]. pose proof (ex_system_fresh s E) as Hf. exists s.
  destruct (typed_roundtrip 3 (fun _ => false) 0 1023 2 ex_bounds s ex_bytes (BusPort 2) (CpuPort 1) 9 9 14 4 0x01020304 BigEndianByteOrder
    (fun w => replicate (Z.to_nat w) 0)) as (s' & H1 & H2).
  - by apply (fresh_coherent 3 (fun _ => false) 0 1023 2 ex_bounds).
  - by apply (ex_snoops ex_bytes).
  - cbn. lia.
  - cbn. lia.
  - rewrite !elem_of_cons. auto.
  - lia.
  - lia.
  - intros _. split; [lia|reflexivity].
  - reflexivity.
  - exists s'. split; [exact Hf|]. split; [exact H1|exact H2].
Defined.
