(* ===== verification/PageTable.v ===== *)
(** The page table of a process in system-call emulation, from
    src/mem/page_table.hh and page_table.cc: mapping, moving and unmapping
    regions, and translating addresses.

    The hash table is a finite map with a number of buckets, since inserting an
    entry may rehash the table and invalidate iterators; the order in which it
    lists its entries is an argument of the functions that depend on it.  A
    checkpoint is the list of its sections; how they are printed is not modelled. *)
From S2P Require Import Prelude Bitfield IntMath.

(** * Definitions *)

Record Entry := { e_paddr : Z; e_flags : Z }.
(** [buckets]: the number of buckets of the hash table; it is rehashed, to
    [rehash n] buckets, when it is to hold [n] entries and [n] is larger than the
    number of buckets times the maximal load factor, which is 1. *)
Record EmulationPageTable := { pTable : gmap Z Entry; pageSize : Z; offsetMask : Z; buckets : Z; rehash : Z -> Z }.

Definition Clobber : Z := 1.
Definition Uncacheable : Z := 4.
Definition ReadOnly : Z := 8.

(** [policy]: the number of buckets the library chooses for a number of entries. *)
Definition EmulationPageTable_new (policy : Z -> Z) (page_size : Z) : res EmulationPageTable :=
  l ← floorLog2_64 page_size;
  assert! isPowerOf2 page_size ;;
  Ok {| pTable := ∅; pageSize := page_size; offsetMask := mask l; buckets := policy 0; rehash := policy |}.

Definition with_pTable (t : EmulationPageTable) (m : gmap Z Entry) : EmulationPageTable :=
  {| pTable := m; pageSize := pageSize t; offsetMask := offsetMask t; buckets := buckets t; rehash := rehash t |}.

(** One entry more rehashes the table. *)
Definition full (t : EmulationPageTable) : bool := buckets t <? Z.of_nat (size (pTable t)) + 1.
(** [pTable.emplace(v, e)] does not replace an entry that is there. *)
Definition emplace (v : Z) (e : Entry) (t : EmulationPageTable) : EmulationPageTable :=
  match pTable t !! v with
  | Some _ => t
  | None =>
    {| pTable := <[v := e]> (pTable t); pageSize := pageSize t; offsetMask := offsetMask t;
       buckets := if full t then rehash t (Z.of_nat (size (pTable t)) + 1) else buckets t; rehash := rehash t |}
  end.

Definition pageAlign (t : EmulationPageTable) (a : Z) : Z := Z.land a (u64 (Z.lnot (offsetMask t))).
Definition pageOffset (t : EmulationPageTable) (a : Z) : Z := Z.land a (offsetMask t).

(** The loops run once for each page; [size -= pageSize] is computed as
    unsigned and stored as signed. *)
Fixpoint pt_map_loop (fuel : nat) (clobber : bool) (vaddr paddr size flags : Z) (t : EmulationPageTable) : res EmulationPageTable :=
  match fuel with
  | O => OutOfFuel
  | S fuel =>
    if 0 <? size then
      t ← (match pTable t !! vaddr with
           | Some _ => assert! clobber ;; Ok (with_pTable t (<[vaddr := {| e_paddr := paddr; e_flags := flags |}]> (pTable t)))
           | None => Ok (emplace vaddr {| e_paddr := paddr; e_flags := flags |} t)
           end);
      pt_map_loop fuel clobber (u64 (vaddr + pageSize t)) (u64 (paddr + pageSize t)) (wrap_s 64 (size - pageSize t)) flags t
    else Ok t
  end.
Definition pt_map (vaddr paddr size flags : Z) (t : EmulationPageTable) : res EmulationPageTable :=
  let clobber := negb (Z.land flags Clobber =? 0) in
  assert! pageOffset t vaddr =? 0 ;;
  pt_map_loop (S (Z.to_nat size)) clobber vaddr paddr size flags t.

(** The iterator to the old entry is kept while the new one is inserted, and the
    old entry erased through it: if the insertion rehashes the table, the
    iterator is no longer valid. *)
Fixpoint pt_remap_loop (fuel : nat) (vaddr size new_vaddr : Z) (t : EmulationPageTable) : res EmulationPageTable :=
  match fuel with
  | O => OutOfFuel
  | S fuel =>
    if 0 <? size then
      match pTable t !! vaddr, pTable t !! new_vaddr with
      | Some e, None =>
        defined! negb (full t) ;;
        let t := emplace new_vaddr e t in
        pt_remap_loop fuel (u64 (vaddr + pageSize t)) (wrap_s 64 (size - pageSize t)) (u64 (new_vaddr + pageSize t))
          (with_pTable t (delete vaddr (pTable t)))
      | _, _ => Panic
      end
    else Ok t
  end.
Definition pt_remap (vaddr size new_vaddr : Z) (t : EmulationPageTable) : res EmulationPageTable :=
  assert! pageOffset t vaddr =? 0 ;;
  assert! pageOffset t new_vaddr =? 0 ;;
  pt_remap_loop (S (Z.to_nat size)) vaddr size new_vaddr t.

Fixpoint pt_unmap_loop (fuel : nat) (vaddr size : Z) (t : EmulationPageTable) : res EmulationPageTable :=
  match fuel with
  | O => OutOfFuel
  | S fuel =>
    if 0 <? size then
      match pTable t !! vaddr with
      | Some _ =>
        pt_unmap_loop fuel (u64 (vaddr + pageSize t)) (wrap_s 64 (size - pageSize t)) (with_pTable t (delete vaddr (pTable t)))
      | None => Panic
      end
    else Ok t
  end.
Definition pt_unmap (vaddr size : Z) (t : EmulationPageTable) : res EmulationPageTable :=
  assert! pageOffset t vaddr =? 0 ;;
  pt_unmap_loop (S (Z.to_nat size)) vaddr size t.

Fixpoint isUnmapped_loop (fuel : nat) (vaddr offset size : Z) (t : EmulationPageTable) : res bool :=
  match fuel with
  | O => OutOfFuel
  | S fuel =>
    if offset <? size then
      match pTable t !! u64 (vaddr + offset) with
      | Some _ => Ok false
      | None => isUnmapped_loop fuel vaddr (wrap_s 64 (offset + pageSize t)) size t
      end
    else Ok true
  end.
Definition isUnmapped (vaddr size : Z) (t : EmulationPageTable) : res bool :=
  assert! pageOffset t vaddr =? 0 ;;
  isUnmapped_loop (S (Z.to_nat size)) vaddr 0 size t.

Definition pt_lookup (vaddr : Z) (t : EmulationPageTable) : option Entry := pTable t !! pageAlign t vaddr.

(** [translate(vaddr, paddr)]: the physical address, if there is one. *)
Definition translate (vaddr : Z) (t : EmulationPageTable) : option Z :=
  match pt_lookup vaddr t with
  | Some e => Some (u64 (pageOffset t vaddr + e_paddr e))
  | None => None
  end.

(** [translate(req)] of a request for [size] bytes at [vaddr]: [None] is a page
    fault. *)
Definition translate_request (vaddr size : Z) (t : EmulationPageTable) : res (option Z) :=
  assert! pageAlign t (u64 (vaddr + size - 1)) =? pageAlign t vaddr ;;
  match translate vaddr t with
  | None => Ok None
  | Some paddr =>
    if pageSize t <? u64 (Z.land paddr (u64 (pageSize t - 1)) + size) then Panic else Ok (Some paddr)
  end.

(** [order]: the order of the entries. *)
Definition getMappings (order : gmap Z Entry -> list (Z * Entry)) (t : EmulationPageTable) : list (Z * Z) :=
  (fun '(v, e) => (v, e_paddr e)) <$> order (pTable t).

(** A checkpoint: the sections [Entry0], [Entry1], ... with their fields. *)
Definition pt_serialize (order : gmap Z Entry -> list (Z * Entry)) (t : EmulationPageTable) : list (Z * Z * Z) :=
  (fun '(v, e) => (v, e_paddr e, e_flags e)) <$> order (pTable t).
Definition pt_unserialize (cp : list (Z * Z * Z)) (t : EmulationPageTable) : EmulationPageTable :=
  foldl (fun t '(v, p, f) => emplace v {| e_paddr := p; e_flags := f |} t) t cp.

(** * Lemmas *)

(** A table with pages of [2 ^ k] bytes. *)
Record pt_ok (k : Z) (t : EmulationPageTable) : Prop := {
  po_size : pageSize t = 2 ^ k;
  po_mask : offsetMask t = Z.ones k }.

(** [v] is the address of one of the [n] pages from [base]. *)
Definition in_pages (k base : Z) (n : nat) (v : Z) : Prop := base <= v < base + Z.of_nat n * 2 ^ k /\ (v - base) mod 2 ^ k = 0.
#[export] Instance in_pages_dec k base n v : Decision (in_pages k base n v).
Proof. unfold in_pages. apply _. Defined.

Section Pages.
Context (k : Z) (Hk : 0 <= k < 64).
Local Abbreviation P := (2 ^ k).
Implicit Types t : EmulationPageTable.

Lemma page_pos : 0 < P <= 2 ^ 63.
Proof. split; [apply pow2_pos; lia|apply Z.pow_le_mono_r; lia]. Qed.

Lemma new_pt_ok policy : exists t, EmulationPageTable_new policy P = Ok t /\ pt_ok k t /\ pTable t = ∅.
Proof.
  pose proof page_pos. unfold EmulationPageTable_new. rewrite floorLog2_64_spec, Z.log2_pow2 by lia. cbn [mbind res_bind].
  assert (isPowerOf2 P = true) as -> by (apply isPowerOf2_spec; [lia|]; by exists k).
  eexists. split; [done|]. split; [|done]. by split; [|apply mask_ones; lia].
Qed.

Lemma pageOffset_eq t a : pt_ok k t -> pageOffset t a = a mod P.
Proof. intros [_ E]. unfold pageOffset. rewrite E. apply Z.land_ones. lia. Qed.

Lemma pageAlign_eq t a : pt_ok k t -> 0 <= a < 2 ^ 64 -> pageAlign t a = a / P * P.
Proof.
  intros [_ E] Ha. unfold pageAlign. rewrite E, <- roundDown_spec by lia. unfold roundDown. by rewrite align_mask by lia.
Qed.

Lemma in_pages_0 base v : ~ in_pages k base 0 v.
Proof. unfold in_pages. lia. Qed.

(** The first page and the others. *)
Lemma in_pages_S base n v : in_pages k base (S n) v <-> v = base \/ in_pages k (base + P) n v.
Proof.
  pose proof page_pos. unfold in_pages. replace (v - (base + P)) with (v - base + (-1) * P) by lia. rewrite Z_mod_plus_full.
  split.
  - intros [Hv Hm]. destruct (decide (v - base = 0)); [left; lia|right]. split; [|done].
    pose proof (Z.div_mod (v - base) P ltac:(lia)). rewrite Hm in *. assert (1 <= (v - base) / P) by nia. nia.
  - intros [->|[Hv Hm]]; [rewrite Z.sub_diag; split; [nia|apply Zmod_0_l]|]. split; [nia|done].
Qed.
Lemma in_pages_next base n v : in_pages k (base + P) n v -> v <> base.
Proof. pose proof page_pos. unfold in_pages. lia. Qed.

(** The page of an address is one of the pages of an aligned region. *)
Lemma in_pages_align base n a : base mod P = 0 -> in_pages k base n (a / P * P) <-> base <= a < base + Z.of_nat n * P.
Proof.
  pose proof page_pos as HP. intros Hb. unfold in_pages. pose proof (Z.div_mod base P ltac:(lia)). pose proof (Z.div_mod a P ltac:(lia)).
  pose proof (Z.mod_pos_bound a P ltac:(lia)). replace base with (base / P * P) by lia. rewrite <- Z.mul_sub_distr_r, Z_mod_mult.
  set (q := base / P) in *. set (r := a / P) in *. split.
  - intros [[H2 H3] _]. assert (q <= r) by nia. assert (r + 1 <= q + Z.of_nat n) by nia. nia.
  - intros [H2 H3]. assert (q <= r) by nia. assert (r + 1 <= q + Z.of_nat n) by nia. split; [nia|done].
Qed.

(** The pages of [size] bytes. *)
Definition pages (size : Z) : nat := Z.to_nat ((size + (P - 1)) / P).
Lemma pages_spec size : 0 < size -> (Z.of_nat (pages size) - 1) * P < size <= Z.of_nat (pages size) * P.
Proof.
  intros Hs. pose proof page_pos. unfold pages. pose proof (Z.div_mod (size + (P - 1)) P ltac:(lia)).
  pose proof (Z.mod_pos_bound (size + (P - 1)) P ltac:(lia)).
  pose proof (Z.div_pos (size + (P - 1)) P ltac:(lia) ltac:(lia)). rewrite Z2Nat.id by lia. nia.
Qed.
Lemma pages_0 : pages 0 = 0%nat.
Proof. unfold pages. pose proof page_pos. by rewrite Z.add_0_l, Z.div_small by lia. Qed.

(** A loop over the pages: what its condition says of [size]. *)
Definition size_ok (n : nat) (size : Z) : Prop :=
  - 2 ^ 63 < size < 2 ^ 63 /\ match n with O => size <= 0 | S n => Z.of_nat n * P < size <= Z.of_nat (S n) * P end.
Lemma size_ok_next n size : size_ok (S n) size -> (0 <? size) = true /\ size_ok n (wrap_s 64 (size - P)).
Proof.
  pose proof page_pos. intros [H1 H2]. assert (0 < size) by nia. split; [lia|].
  rewrite (wrap_s_id 64) by (change (2 ^ (64 - 1)) with (2 ^ 63); lia). split; [lia|]. destruct n; nia.
Qed.
Lemma size_ok_pages size : 0 <= size < 2 ^ 63 -> size_ok (pages size) size.
Proof.
  intros Hs. destruct (decide (size = 0)) as [->|Hne]; [rewrite pages_0; split; lia|].
  pose proof (pages_spec size ltac:(lia)). split; [lia|]. destruct (pages size); [lia|]. nia.
Qed.
Lemma size_ok_fuel n size : size_ok n size -> 0 <= size -> (n <= Z.to_nat size)%nat.
Proof. pose proof page_pos. intros [_ Hs] H0. destruct n; [lia|]. nia. Qed.

Lemma pt_ok_with t m : pt_ok k t -> pt_ok k (with_pTable t m).
Proof. by intros [H1 H2]. Qed.
Lemma emplace_new v e t : pTable t !! v = None -> pTable (emplace v e t) = <[v := e]> (pTable t).
Proof. intros E. unfold emplace. by rewrite E. Qed.
Lemma emplace_frame v e t : pageSize (emplace v e t) = pageSize t /\ offsetMask (emplace v e t) = offsetMask t.
Proof. unfold emplace. by case_match. Qed.
Lemma pt_ok_emplace v e t : pt_ok k t -> pt_ok k (emplace v e t).
Proof. intros [H1 H2]. destruct (emplace_frame v e t) as [E1 E2]. split; congruence. Qed.
(** One page of [map]. *)
Lemma map_one (clobber : bool) v e t : pt_ok k t -> clobber = true \/ pTable t !! v = None ->
  exists t1, match pTable t !! v with Some _ => assert! clobber ;; Ok (with_pTable t (<[v := e]> (pTable t))) | None => Ok (emplace v e t) end = Ok t1 /\
    pt_ok k t1 /\ pTable t1 = <[v := e]> (pTable t).
Proof.
  intros Ht Hc. destruct (pTable t !! v) as [e0|] eqn:E.
  - destruct Hc as [->|?]; [|done]. eexists. split; [done|]. split; [by apply pt_ok_with|done].
  - eexists. split; [done|]. split; [by apply pt_ok_emplace|by apply emplace_new].
Qed.

(** ** Mapping *)

Lemma map_loop_ok clobber flags fuel : forall n vaddr paddr size t, (n < fuel)%nat -> pt_ok k t -> size_ok n size ->
  0 <= vaddr -> vaddr + Z.of_nat n * P <= 2 ^ 64 -> 0 <= paddr -> paddr + Z.of_nat n * P <= 2 ^ 64 ->
  (forall v, in_pages k vaddr n v -> clobber = true \/ pTable t !! v = None) ->
  exists t', pt_map_loop fuel clobber vaddr paddr size flags t = Ok t' /\ pt_ok k t' /\
    forall v, pTable t' !! v = if decide (in_pages k vaddr n v) then Some {| e_paddr := paddr + (v - vaddr); e_flags := flags |} else pTable t !! v.
Proof.
  pose proof page_pos as HP. induction fuel as [|fuel IH]; intros n vaddr paddr size t Hn Ht Hs Hv0 Hv Hp0 Hp Hfree; [lia|]. cbn [pt_map_loop].
  destruct n as [|n].
  { destruct Hs as [_ Hs]. destruct (Z.ltb_spec 0 size); [lia|]. exists t. split; [done|]. split; [done|]. intros v. by rewrite decide_False by apply in_pages_0. }
  destruct (size_ok_next n size Hs) as [-> Hs'].
  destruct (map_one clobber vaddr {| e_paddr := paddr; e_flags := flags |} t Ht) as (t1 & -> & Ht1 & E1); [apply Hfree, in_pages_S; by left|].
  cbn [mbind res_bind]. rewrite (po_size _ _ Ht1).
  destruct (decide (n = 0%nat)) as [->|Hn0].
  { destruct fuel; [lia|]. cbn [pt_map_loop]. destruct Hs' as [_ Hs']. destruct (Z.ltb_spec 0 (wrap_s 64 (size - P))); [lia|].
    exists t1. split; [done|]. split; [done|]. intros v. rewrite E1, lookup_insert. case_decide as E.
    - subst v. rewrite decide_True by (apply in_pages_S; by left). do 2 f_equal. lia.
    - rewrite decide_False; [done|]. rewrite in_pages_S. intros [->|Hin]; [done|]. by apply in_pages_0 in Hin. }
  assert (P <= Z.of_nat n * P) by nia. rewrite !(wrap_u_id 64) by lia.
  destruct (IH n (vaddr + P) (paddr + P) (wrap_s 64 (size - P)) t1) as (t' & -> & Ht' & Hl); try lia; try done.
  { intros v Hin. destruct (Hfree v) as [?|E]; [apply in_pages_S; by right|by left|]. right. rewrite E1.
    apply in_pages_next in Hin. by rewrite lookup_insert_ne. }
  exists t'. split; [done|]. split; [done|]. intros v. rewrite Hl, E1.
  destruct (decide (in_pages k (vaddr + P) n v)) as [Hin|Hin].
  - rewrite decide_True by (apply in_pages_S; by right). do 2 f_equal. lia.
  - rewrite lookup_insert. case_decide as E.
    + subst v. rewrite decide_True by (apply in_pages_S; by left). do 2 f_equal. lia.
    + rewrite decide_False; [done|]. rewrite in_pages_S. naive_solver.
Qed.
(** A page that is already mapped, without the permission to replace it. *)
Lemma map_loop_clash flags fuel : forall n vaddr paddr size t v, (n < fuel)%nat -> pt_ok k t -> size_ok n size ->
  0 <= vaddr -> vaddr + Z.of_nat n * P <= 2 ^ 64 -> in_pages k vaddr n v -> pTable t !! v <> None ->
  pt_map_loop fuel false vaddr paddr size flags t = Panic.
Proof.
  pose proof page_pos as HP. induction fuel as [|fuel IH]; intros n vaddr paddr size t v Hn Ht Hs Hv0 Hv Hin Hm; [lia|]. cbn [pt_map_loop].
  destruct n as [|n]; [by apply in_pages_0 in Hin|]. destruct (size_ok_next n size Hs) as [-> Hs'].
  destruct (pTable t !! vaddr) as [e|] eqn:E; [done|]. cbn [mbind res_bind]. set (t1 := emplace vaddr _ t).
  assert (pt_ok k t1) as Ht1 by (by apply pt_ok_emplace). rewrite (po_size _ _ Ht1).
  apply in_pages_S in Hin as [->|Hin]; [congruence|]. destruct n as [|n]; [by apply in_pages_0 in Hin|].
  rewrite (wrap_u_id 64 (vaddr + P)) by nia. eapply (IH (S n)); [lia|done|done|lia|lia|done|].
  unfold t1. rewrite emplace_new by done. apply in_pages_next in Hin. by rewrite lookup_insert_ne.
Qed.

(** ** Unmapping *)

Lemma unmap_loop_ok fuel : forall n vaddr size t, (n < fuel)%nat -> pt_ok k t -> size_ok n size ->
  0 <= vaddr -> vaddr + Z.of_nat n * P <= 2 ^ 64 -> (forall v, in_pages k vaddr n v -> pTable t !! v <> None) ->
  exists t', pt_unmap_loop fuel vaddr size t = Ok t' /\ pt_ok k t' /\
    forall v, pTable t' !! v = if decide (in_pages k vaddr n v) then None else pTable t !! v.
Proof.
  pose proof page_pos as HP. induction fuel as [|fuel IH]; intros n vaddr size t Hn Ht Hs Hv0 Hv Hm; [lia|]. cbn [pt_unmap_loop].
  destruct n as [|n].
  { destruct Hs as [_ Hs]. destruct (Z.ltb_spec 0 size); [lia|]. exists t. split; [done|]. split; [done|]. intros v. by rewrite decide_False by apply in_pages_0. }
  destruct (size_ok_next n size Hs) as [-> Hs'].
  destruct (pTable t !! vaddr) as [e|] eqn:E; [|by destruct (Hm vaddr); [apply in_pages_S; left|]].
  set (t1 := with_pTable t _). assert (pt_ok k t1) as Ht1 by (by apply pt_ok_with). rewrite (po_size _ _ Ht).
  assert (exists t', pt_unmap_loop fuel (u64 (vaddr + P)) (wrap_s 64 (size - P)) t1 = Ok t' /\ pt_ok k t' /\
    forall v, pTable t' !! v = if decide (in_pages k (vaddr + P) n v) then None else pTable t1 !! v) as (t' & -> & Ht' & Hl).
  { destruct n as [|n].
    - destruct fuel; [lia|]. cbn [pt_unmap_loop]. destruct Hs' as [_ Hs']. destruct (Z.ltb_spec 0 (wrap_s 64 (size - P))); [lia|].
      exists t1. split; [done|]. split; [done|]. intros v. by rewrite decide_False by apply in_pages_0.
    - rewrite (wrap_u_id 64) by nia. apply IH; try done; try lia.
      intros v Hin. cbn [t1 with_pTable pTable]. rewrite lookup_delete_ne; [apply Hm, in_pages_S; by right|]. apply in_pages_next in Hin. done. }
  exists t'. split; [done|]. split; [done|]. intros v. rewrite Hl. cbn [t1 with_pTable pTable].
  destruct (decide (in_pages k (vaddr + P) n v)) as [Hin|Hin]; [by rewrite decide_True by (apply in_pages_S; by right)|].
  rewrite lookup_delete. case_decide as Ev; [subst v; by rewrite decide_True by (apply in_pages_S; by left)|].
  rewrite decide_False; [done|]. rewrite in_pages_S. naive_solver.
Qed.

Lemma unmap_loop_missing fuel : forall n vaddr size t v, (n < fuel)%nat -> pt_ok k t -> size_ok n size ->
  0 <= vaddr -> vaddr + Z.of_nat n * P <= 2 ^ 64 -> in_pages k vaddr n v -> pTable t !! v = None -> pt_unmap_loop fuel vaddr size t = Panic.
Proof.
  pose proof page_pos as HP. induction fuel as [|fuel IH]; intros n vaddr size t v Hn Ht Hs Hv0 Hv Hin Hm; [lia|]. cbn [pt_unmap_loop].
  destruct n as [|n]; [by apply in_pages_0 in Hin|]. destruct (size_ok_next n size Hs) as [-> Hs'].
  destruct (pTable t !! vaddr) as [e|] eqn:E; [|done]. rewrite (po_size _ _ Ht).
  apply in_pages_S in Hin as [->|Hin]; [congruence|]. destruct n as [|n]; [by apply in_pages_0 in Hin|].
  rewrite (wrap_u_id 64 (vaddr + P)) by nia. eapply (IH (S n)); [lia|by apply pt_ok_with|done|lia|lia|done|].
  cbn [with_pTable pTable]. apply in_pages_next in Hin. by rewrite lookup_delete_ne.
Qed.

(** ** Moving *)

(** The pages from [vaddr] can be moved to [new]: they are mapped, and the new
    ones are free or, below them, among the old ones. *)
Record movable (n : nat) (vaddr new : Z) (m : gmap Z Entry) : Prop := {
  mv_old : forall v, in_pages k vaddr n v -> m !! v <> None;
  mv_new : forall v, in_pages k new n v -> in_pages k vaddr n v \/ m !! v = None;
  mv_dir : new < vaddr \/ vaddr + Z.of_nat n * P <= new }.

(** One page of [remap]: the table holds as many entries as before. *)
Lemma move_one t v new e : pt_ok k t -> pTable t !! v = Some e -> pTable t !! new = None -> full t = false ->
  let t1 := with_pTable (emplace new e t) (delete v (pTable (emplace new e t))) in
  pt_ok k t1 /\ (forall u, pTable t1 !! u = if decide (u = v) then None else if decide (u = new) then Some e else pTable t !! u) /\
  full t1 = false.
Proof.
  intros Ht E En Hfull t1. unfold t1. split; [by apply pt_ok_with, pt_ok_emplace|]. cbn [with_pTable pTable]. rewrite emplace_new by done. split.
  - intros u. rewrite lookup_delete. repeat case_decide; subst; try done; try by rewrite lookup_insert_eq. by rewrite lookup_insert_ne.
  - rewrite <- Hfull. unfold full. cbn [with_pTable pTable buckets]. unfold emplace at 1. rewrite En, Hfull. cbn [buckets].
    assert (size (delete v (<[new := e]> (pTable t))) = size (pTable t)) as ->; [|done].
    rewrite map_size_delete_Some by (rewrite lookup_insert_ne; [by exists e|congruence]).
    rewrite map_size_insert_None by done. done.
Qed.

Lemma remap_loop_ok fuel : forall n vaddr new size t, (n < fuel)%nat -> pt_ok k t -> size_ok n size ->
  0 <= vaddr -> vaddr + Z.of_nat n * P <= 2 ^ 64 -> 0 <= new -> new + Z.of_nat n * P <= 2 ^ 64 -> vaddr mod P = 0 -> new mod P = 0 ->
  movable n vaddr new (pTable t) -> n = 0%nat \/ full t = false ->
  exists t', pt_remap_loop fuel vaddr size new t = Ok t' /\ pt_ok k t' /\
    forall v, pTable t' !! v =
      if decide (in_pages k new n v) then pTable t !! (v - new + vaddr)
      else if decide (in_pages k vaddr n v) then None else pTable t !! v.
Proof.
  pose proof page_pos as HP. induction fuel as [|fuel IH]; intros n vaddr new size t Hn Ht Hs Hv0 Hv Hn0 Hnw Hva Hna [Mo Mn Md] Hfull; [lia|].
  cbn [pt_remap_loop]. destruct n as [|n].
  { destruct Hs as [_ Hs]. destruct (Z.ltb_spec 0 size); [lia|]. exists t. split; [done|]. split; [done|]. intros v.
    by rewrite !decide_False by apply in_pages_0. }
  destruct (size_ok_next n size Hs) as [-> Hs'].
  destruct (pTable t !! vaddr) as [e|] eqn:E; [|by destruct (Mo vaddr); [apply in_pages_S; left|]].
  assert (~ in_pages k vaddr (S n) new) as Hnn by (unfold in_pages; lia).
  assert (pTable t !! new = None) as En.
  { destruct (Mn new) as [?|]; [apply in_pages_S; by left|done..]. }
  destruct Hfull as [?|Hfull]; [done|]. rewrite En, Hfull. cbn [negb].
  destruct (move_one t vaddr new e Ht E En Hfull) as (Ht1 & H1 & Hf1). set (t1 := with_pTable _ _) in *.
  rewrite (po_size _ _ (pt_ok_emplace new e t Ht)).
  assert (movable n (vaddr + P) (new + P) (pTable t1)) as Hmv.
  { split; [| |destruct Md; [left|right]; lia].
    - intros v Hin. pose proof (in_pages_next _ _ _ Hin). rewrite H1, decide_False by done.
      case_decide; [done|]. apply Mo, in_pages_S. by right.
    - intros v Hin. rewrite H1. case_decide; [by right|]. case_decide as Ev; [subst v; by apply in_pages_next in Hin|].
      destruct (Mn v) as [[?|?]%in_pages_S|?]; [apply in_pages_S; by right|done|by left|by right]. }
  assert (exists t', pt_remap_loop fuel (u64 (vaddr + P)) (wrap_s 64 (size - P)) (u64 (new + P)) t1 = Ok t' /\ pt_ok k t' /\
    forall v, pTable t' !! v =
      if decide (in_pages k (new + P) n v) then pTable t1 !! (v - new + vaddr)
      else if decide (in_pages k (vaddr + P) n v) then None else pTable t1 !! v) as (t' & -> & Ht' & Hl).
  { destruct n as [|n].
    - destruct fuel; [lia|]. cbn [pt_remap_loop]. destruct Hs' as [_ Hs']. destruct (Z.ltb_spec 0 (wrap_s 64 (size - P))); [lia|].
      exists t1. split; [done|]. split; [done|]. intros v. by rewrite !decide_False by apply in_pages_0.
    - rewrite !(wrap_u_id 64) by nia. destruct (IH (S n) (vaddr + P) (new + P) (wrap_s 64 (size - P)) t1) as (t' & -> & Ht' & Hl); try done; try lia; try by right.
      + by rewrite <- Zplus_mod_idemp_r, Z_mod_same_full, Z.add_0_r.
      + by rewrite <- Zplus_mod_idemp_r, Z_mod_same_full, Z.add_0_r.
      + exists t'. split; [done|]. split; [done|]. intros v. rewrite Hl. by replace (v - (new + P) + (vaddr + P)) with (v - new + vaddr) by lia. }
  exists t'. split; [done|]. split; [done|]. intros v. rewrite Hl.
  destruct (decide (in_pages k (new + P) n v)) as [Hin|Hin].
  - rewrite decide_True by (apply in_pages_S; by right). rewrite H1.
    pose proof (in_pages_next _ _ _ Hin). rewrite decide_False by lia.
    case_decide as Ev; [|done]. exfalso. apply Hnn. rewrite <- Ev. apply in_pages_S. right.
    destruct Hin as [I1 I2]. split; [lia|]. rewrite <- I2. f_equal. lia.
  - destruct (decide (v = new)) as [->|Hvn].
    + rewrite (decide_True (P := in_pages k new (S n) new)) by (apply in_pages_S; by left). rewrite Z.sub_diag, Z.add_0_l, E.
      rewrite decide_False; [|intros ?; apply Hnn, in_pages_S; by right]. rewrite H1, decide_False, decide_True; [done..|].
      intros ->. apply Hnn, in_pages_S. by left.
    + rewrite (decide_False (P := in_pages k new (S n) v)) by (rewrite in_pages_S; naive_solver).
      destruct (decide (in_pages k (vaddr + P) n v)) as [Hin2|Hin2]; [by rewrite decide_True by (apply in_pages_S; by right)|].
      rewrite H1. case_decide as Ev; [subst v; by rewrite decide_True by (apply in_pages_S; by left)|].
      rewrite decide_False by done. rewrite decide_False by (rewrite in_pages_S; naive_solver). done.
Qed.
(** The first new page is mapped, or the first old one is not. *)
Lemma remap_loop_stuck fuel vaddr new size t : 0 < size -> pTable t !! vaddr = None \/ pTable t !! new <> None ->
  pt_remap_loop (S fuel) vaddr size new t = Panic.
Proof.
  intros Hs H. cbn [pt_remap_loop]. rewrite (proj2 (Z.ltb_lt _ _)) by done.
  destruct H as [->|H]; [done|]. destruct (pTable t !! vaddr), (pTable t !! new); done.
Qed.
(** The first insertion rehashes the table. *)
Lemma remap_loop_rehash fuel vaddr new size t e : 0 < size -> pTable t !! vaddr = Some e -> pTable t !! new = None -> full t = true ->
  pt_remap_loop (S fuel) vaddr size new t = Ub.
Proof. intros Hs E En Hf. cbn [pt_remap_loop]. by rewrite (proj2 (Z.ltb_lt _ _)), E, En, Hf by done. Qed.

(** ** Looking for free pages *)

Lemma isUnmapped_loop_ok vaddr size t : pt_ok k t -> size + P < 2 ^ 63 -> 0 <= vaddr -> vaddr + size + P <= 2 ^ 64 ->
  forall fuel n offset, (n < fuel)%nat -> 0 <= offset -> size_ok n (size - offset) ->
  exists b, isUnmapped_loop fuel vaddr offset size t = Ok b /\
    (b = true <-> forall v, in_pages k (vaddr + offset) n v -> pTable t !! v = None).
Proof.
  pose proof page_pos as HP. intros Ht Hs Hv0 Hv. induction fuel as [|fuel IH]; intros n offset Hn Ho Hsz; [lia|]. cbn [isUnmapped_loop].
  destruct n as [|n].
  { destruct Hsz as [_ Hsz]. destruct (Z.ltb_spec offset size); [lia|]. exists true. split; [done|]. split; [|done].
    intros _ v Hin. by apply in_pages_0 in Hin. }
  destruct (size_ok_next n _ Hsz) as [H0 Hs']. assert (offset < size) by lia. rewrite (proj2 (Z.ltb_lt _ _)) by done.
  rewrite (wrap_u_id 64) by lia. rewrite (po_size _ _ Ht).
  destruct (pTable t !! (vaddr + offset)) as [e|] eqn:E.
  { exists false. split; [done|]. split; [done|]. intros Hno. rewrite Hno in E; [done|]. apply in_pages_S. by left. }
  rewrite (wrap_s_id 64) by (change (2 ^ (64 - 1)) with (2 ^ 63); lia).
  rewrite (wrap_s_id 64) in Hs' by (change (2 ^ (64 - 1)) with (2 ^ 63); lia).
  destruct (IH n (offset + P)) as (b & -> & Hb); [lia|lia|by replace (size - (offset + P)) with (size - offset - P) by lia|].
  exists b. split; [done|]. rewrite Hb. replace (vaddr + (offset + P)) with (vaddr + offset + P) by lia. split.
  - intros Hno v [->|Hin]%in_pages_S; [done|by apply Hno].
  - intros Hno v Hin. apply Hno, in_pages_S. by right.
Qed.

(** ** Translating *)

Lemma translate_at t a : pt_ok k t -> 0 <= a < 2 ^ 64 ->
  translate a t = match pTable t !! (a / P * P) with Some e => Some (u64 (a mod P + e_paddr e)) | None => None end.
Proof. intros Ht Ha. unfold translate, pt_lookup. by rewrite pageAlign_eq, pageOffset_eq. Qed.

Lemma page_in base n a : base mod P = 0 -> 0 <= base -> base <= a < base + Z.of_nat n * P -> in_pages k base n (a / P * P).
Proof. intros Hb H0 Ha. by apply in_pages_align. Qed.

(** The translations of the addresses of some pages are those of the pages. *)
Lemma pages_translated t base n : pt_ok k t -> base mod P = 0 -> 0 <= base -> base + Z.of_nat n * P <= 2 ^ 64 ->
  ((forall a, base <= a < base + Z.of_nat n * P -> translate a t = None) <-> forall v, in_pages k base n v -> pTable t !! v = None) /\
  ((forall a, base <= a < base + Z.of_nat n * P -> translate a t <> None) <-> forall v, in_pages k base n v -> pTable t !! v <> None).
Proof.
  pose proof page_pos as HP. intros Ht Hb H0 Hn.
  assert (forall a, base <= a < base + Z.of_nat n * P -> (translate a t = None <-> pTable t !! (a / P * P) = None)) as Hiff.
  { intros a Ha. rewrite translate_at by (done || lia). by destruct (pTable t !! _). }
  assert (forall v, in_pages k base n v -> v / P * P = v /\ base <= v < base + Z.of_nat n * P) as Hpg.
  { intros v [Hv Hm]. split; [|done]. pose proof (Z.div_mod base P ltac:(lia)). pose proof (Z.div_mod (v - base) P ltac:(lia)).
    assert (v = (base / P + (v - base) / P) * P) as E by lia. rewrite E at 1. rewrite Z.div_mul by lia. lia. }
  split; split; intros H.
  - intros v Hin. destruct (Hpg v Hin) as [E Hr]. rewrite <- E. by apply Hiff, H.
  - intros a Ha. apply Hiff; [done|]. by apply H, page_in.
  - intros v Hin. destruct (Hpg v Hin) as [E Hr]. rewrite <- E. rewrite <- Hiff by done. by apply H.
  - intros a Ha. rewrite Hiff by done. by apply H, page_in.
Qed.
End Pages.

(** * The table as a map of addresses *)

(** The operations, as a map of addresses sees them. *)
Inductive PtOp := OpMap (vaddr paddr size flags : Z) | OpUnmap (vaddr size : Z) | OpRemap (vaddr size new_vaddr : Z).
Definition pt_step (op : PtOp) (t : EmulationPageTable) : res EmulationPageTable :=
  match op with
  | OpMap v p size flags => pt_map v p size flags t
  | OpUnmap v size => pt_unmap v size t
  | OpRemap v size new => pt_remap v size new t
  end.
Fixpoint pt_run (ops : list PtOp) (t : EmulationPageTable) : res EmulationPageTable :=
  match ops with [] => Ok t | op :: ops => t ← pt_step op t; pt_run ops t end.

Section Refinement.
Context (k : Z) (Hk : 0 <= k < 64).
Local Abbreviation P := (2 ^ k).
Implicit Types (t : EmulationPageTable) (A : Z -> option Z).

(** The bytes of the pages of [size] bytes. *)
Definition span (size : Z) : Z := Z.of_nat (pages k size) * P.
Definition in_span (v size a : Z) : Prop := v <= a < v + span size.
#[export] Instance in_span_dec v size a : Decision (in_span v size a).
Proof. unfold in_span. apply _. Defined.

(** What an operation does to the translation of every address. *)
Definition pt_spec (op : PtOp) A : Z -> option Z := fun a =>
  match op with
  | OpMap v p size _ => if decide (in_span v size a) then Some (p + (a - v)) else A a
  | OpUnmap v size => if decide (in_span v size a) then None else A a
  | OpRemap v size new =>
    if decide (in_span new size a) then A (a - new + v) else if decide (in_span v size a) then None else A a
  end.

(** The arguments are page-aligned regions of the address space. *)
Definition args_ok (op : PtOp) : Prop :=
  let region v size := 0 <= v /\ v mod P = 0 /\ v + span size <= 2 ^ 64 in
  match op with
  | OpMap v p size flags => 0 <= size < 2 ^ 63 /\ region v size /\ 0 <= p /\ p + span size <= 2 ^ 64
  | OpUnmap v size => 0 <= size < 2 ^ 63 /\ region v size
  | OpRemap v size new => 0 <= size < 2 ^ 63 /\ region v size /\ region new size
  end.
(** What the operation requires of the translations. *)
Definition op_pre A (op : PtOp) : Prop :=
  match op with
  | OpMap v _ size flags => Z.land flags Clobber <> 0 \/ forall a, in_span v size a -> A a = None
  | OpUnmap v size => forall a, in_span v size a -> A a <> None
  | OpRemap v size new =>
    (forall a, in_span v size a -> A a <> None) /\ (forall a, in_span new size a -> in_span v size a \/ A a = None) /\
    (new < v \/ v + span size <= new)
  end.

Definition translates t A : Prop := pt_ok k t /\ forall a, 0 <= a < 2 ^ 64 -> translate a t = A a.

Lemma pt_map_ok t A v p size flags : translates t A -> args_ok (OpMap v p size flags) -> op_pre A (OpMap v p size flags) ->
  exists t', pt_map v p size flags t = Ok t' /\ translates t' (pt_spec (OpMap v p size flags) A).
Proof.
  intros [Ht HA] (Hs & (H0 & Hm & Hv) & Hp0 & Hp) Hpre. unfold pt_map. rewrite (pageOffset_eq k Hk) by done. rewrite Hm. cbn [Z.eqb].
  destruct (map_loop_ok k Hk (negb (Z.land flags Clobber =? 0)) flags (S (Z.to_nat size)) (pages k size) v p size t) as (t' & -> & Ht' & Hl); try done.
  - pose proof (size_ok_fuel k Hk (pages k size) size (size_ok_pages k Hk size Hs)). lia.
  - by apply size_ok_pages.
  - intros u Hin. destruct Hpre as [Hc|Hf]; [left; by rewrite (proj2 (Z.eqb_neq _ _))|right].
    eapply (proj1 (pages_translated k Hk t v (pages k size) Ht Hm H0 Hv)); [|done]. intros a Ha. unfold span in *. rewrite HA by lia. by apply Hf.
  - exists t'. split; [done|]. split; [done|]. intros a Ha. rewrite (translate_at k Hk), Hl by done. cbn [pt_spec].
    destruct (decide (in_pages k v (pages k size) (a / P * P))) as [Hin|Hin]; rewrite in_pages_align in Hin by done.
    + rewrite decide_True by done. cbn [e_paddr]. pose proof (Z.div_mod a P ltac:(pose proof (page_pos k Hk); lia)).
      f_equal. rewrite wrap_u_id; unfold span in *; lia.
    + rewrite decide_False by done. rewrite <- HA, (translate_at k Hk) by done. done.
Qed.
Lemma pt_unmap_ok t A v size : translates t A -> args_ok (OpUnmap v size) -> op_pre A (OpUnmap v size) ->
  exists t', pt_unmap v size t = Ok t' /\ translates t' (pt_spec (OpUnmap v size) A).
Proof.
  intros [Ht HA] (Hs & H0 & Hm & Hv) Hpre. unfold pt_unmap. rewrite (pageOffset_eq k Hk) by done. rewrite Hm. cbn [Z.eqb].
  destruct (unmap_loop_ok k Hk (S (Z.to_nat size)) (pages k size) v size t) as (t' & -> & Ht' & Hl); try done.
  - pose proof (size_ok_fuel k Hk (pages k size) size (size_ok_pages k Hk size Hs)). lia.
  - by apply size_ok_pages.
  - eapply (proj2 (pages_translated k Hk t v (pages k size) Ht Hm H0 Hv)). intros a Ha. unfold span in *. rewrite HA by lia. by apply Hpre.
  - exists t'. split; [done|]. split; [done|]. intros a Ha. rewrite (translate_at k Hk), Hl by done. cbn [pt_spec].
    destruct (decide (in_pages k v (pages k size) (a / P * P))) as [Hin|Hin]; rewrite in_pages_align in Hin by done.
    + by rewrite decide_True.
    + rewrite decide_False by done. rewrite <- HA, (translate_at k Hk) by done. done.
Qed.

(** The page of an address moved by a number of pages. *)
Lemma page_shift a x y : x mod P = 0 -> y mod P = 0 -> (a - x + y) / P * P = a / P * P - x + y /\ (a - x + y) mod P = a mod P.
Proof.
  pose proof (page_pos k Hk). intros Hx Hy. pose proof (Z.div_mod x P ltac:(lia)). pose proof (Z.div_mod y P ltac:(lia)).
  assert (a - x + y = a + (y / P - x / P) * P) as -> by lia. rewrite Z_div_plus_full, Z_mod_plus_full by lia. split; [lia|done].
Qed.

Lemma remap_movable t A v size new : translates t A -> args_ok (OpRemap v size new) -> op_pre A (OpRemap v size new) ->
  movable k (pages k size) v new (pTable t).
Proof.
  intros [Ht HA] (Hs & (H0 & Hm & Hv) & (N0 & Nm & Nv)) (Hold & Hnew & Hdir).
  pose proof (pages_translated k Hk t v (pages k size) Ht Hm H0 Hv) as [_ To].
  split; [apply To; intros a Ha; unfold span in *; rewrite HA by lia; by apply Hold| |done].
    intros u Hin. destruct (decide (in_pages k v (pages k size) u)) as [|Hn]; [by left|right]. destruct Hin as [Hu Hum].
    assert (u / P * P = u) as Eu.
    { destruct (page_shift (u - new) 0 new) as [E _]; [apply Zmod_0_l|done|]. replace (u - new - 0 + new) with u in E by lia.
      pose proof (page_pos k Hk). pose proof (Z.div_mod (u - new) P ltac:(lia)). lia. }
    unfold span in *. destruct (Hnew u Hu) as [Hin2|E].
    - exfalso. apply Hn. rewrite <- Eu. by apply in_pages_align.
    - rewrite <- HA, (translate_at k Hk) in E by (done || lia). rewrite Eu in E. by destruct (pTable t !! u).
Qed.
Lemma pt_remap_ok t A v size new : translates t A -> args_ok (OpRemap v size new) -> op_pre A (OpRemap v size new) ->
  (0 <? size) && full t = false ->
  exists t', pt_remap v size new t = Ok t' /\ translates t' (pt_spec (OpRemap v size new) A).
Proof.
  intros HtA Harg Hpre Hfull. pose proof (remap_movable t A v size new HtA Harg Hpre) as Hmv.
  destruct HtA as [Ht HA], Harg as (Hs & (H0 & Hm & Hv) & (N0 & Nm & Nv)).
  unfold pt_remap. rewrite !(pageOffset_eq k Hk), Hm, Nm by done. cbn [Z.eqb].
  destruct (remap_loop_ok k Hk (S (Z.to_nat size)) (pages k size) v new size t) as (t' & -> & Ht' & Hl); try done.
  { pose proof (size_ok_fuel k Hk (pages k size) size (size_ok_pages k Hk size Hs)). lia. }
  { by apply size_ok_pages. }
  { destruct (Z.ltb_spec 0 size); [by right|left]. replace size with 0 by lia. apply (pages_0 k Hk). }
  exists t'. split; [done|]. split; [done|]. intros a Ha. rewrite (translate_at k Hk), Hl by done. cbn [pt_spec].
  destruct (decide (in_pages k new (pages k size) (a / P * P))) as [Hin|Hin]; rewrite in_pages_align in Hin by done.
  - rewrite decide_True by done. destruct (page_shift a new v Nm Hm) as [E1 E2]. unfold span in *.
    rewrite <- HA, (translate_at k Hk), E1, E2 by (done || lia). done.
  - rewrite (decide_False (P := in_span new size a)) by done.
    destruct (decide (in_pages k v (pages k size) (a / P * P))) as [Hin2|Hin2]; rewrite in_pages_align in Hin2 by done.
    + by rewrite decide_True.
    + rewrite decide_False by done. rewrite <- HA, (translate_at k Hk) by done. done.
Qed.

(** The operation moves a page while the table is full. *)
Definition rehashes (op : PtOp) t : bool := match op with OpRemap _ size _ => (0 <? size) && full t | _ => false end.

Lemma pt_step_ok op t A : translates t A -> args_ok op -> op_pre A op -> rehashes op t = false ->
  exists t', pt_step op t = Ok t' /\ translates t' (pt_spec op A).
Proof.
  intros Ht Ha Hp Hr. destruct op; [by apply pt_map_ok|by apply pt_unmap_ok|by apply pt_remap_ok].
Qed.
Lemma pt_step_rehash op t A : translates t A -> args_ok op -> op_pre A op -> rehashes op t = true -> pt_step op t = Ub.
Proof.
  intros Ht Ha Hp Hr. destruct op as [| |v size new]; [done..|]. destruct (remap_movable t A v size new Ht Ha Hp) as [Mo Mn Md].
  destruct Ht as [Ht _], Ha as (Hs & (H0 & Hm & Hv) & (N0 & Nm & Nv)). apply andb_prop in Hr as [Hz Hf]. apply Z.ltb_lt in Hz.
  pose proof (pages_spec k Hk size Hz) as Hpg. pose proof (page_pos k Hk) as HP.
  destruct (pages k size) as [|n] eqn:En; [lia|].
  cbn [pt_step]. unfold pt_remap. rewrite !(pageOffset_eq k Hk), Hm, Nm by done. cbn [Z.eqb].
  assert (in_pages k v (S n) v /\ in_pages k new (S n) new) as [Iv In] by (split; apply (in_pages_S k Hk); by left).
  destruct (pTable t !! v) as [e|] eqn:E; [|by destruct (Mo v)].
  apply (remap_loop_rehash _ _ _ _ _ e); try done. destruct (Mn new) as [[? ?]|]; [done|unfold span in *; lia|done].
Qed.

(** Every operation of a sequence finds what it requires. *)
Fixpoint ops_ok (ops : list PtOp) A : Prop :=
  match ops with [] => True | op :: ops => args_ok op /\ op_pre A op /\ ops_ok ops (pt_spec op A) end.

(** C14 (the page table is a map of addresses).  From a new table, whatever its
    hash table does, any sequence of map, unmap and remap operations on
    page-aligned regions that find what they require (free pages or permission
    to replace them, mapped pages to remove or move, free pages to move to)
    translates every address as the map of addresses the operations describe:
    byte by byte, and nothing outside the regions changes.  The only exception
    is a remap while the hash table has as many entries as buckets, whose
    behaviour is undefined: the insertion of the new entry rehashes the table
    and invalidates the iterator to the old one. *)
Theorem page_table_refines policy ops t0 : EmulationPageTable_new policy P = Ok t0 -> ops_ok ops (fun _ => None) ->
  (exists t, pt_run ops t0 = Ok t /\
    forall a, 0 <= a < 2 ^ 64 -> translate a t = foldl (fun A op => pt_spec op A) (fun _ => None) ops a) \/
  (pt_run ops t0 = Ub /\
    exists ops1 v size new ops2 t1, ops = ops1 ++ OpRemap v size new :: ops2 /\ pt_run ops1 t0 = Ok t1 /\ 0 < size /\ full t1 = true).
Proof.
  intros E. destruct (new_pt_ok k Hk policy) as (t & E' & Ht & Hempty). rewrite E in E'. injection E' as <-.
  assert (translates t0 (fun _ => None)) as H0 by (split; [done|]; intros a Ha; by rewrite (translate_at k Hk), Hempty, lookup_empty).
  clear E Ht Hempty. revert t0 H0. generalize (fun _ : Z => @None Z) as A.
  induction ops as [|op ops IH]; intros A t Ht Hops; cbn [pt_run foldl].
  { left. exists t. split; [done|]. apply Ht. }
  destruct Hops as (Ha & Hp & Hops). destruct (rehashes op t) eqn:Hr.
  - right. rewrite (pt_step_rehash op t A) by done. split; [done|]. destruct op as [| |v size new]; [done..|]. apply andb_prop in Hr as [Hz Hf].
    exists [], v, size, new, ops, t. split_and!; try done. by apply Z.ltb_lt.
  - destruct (pt_step_ok op t A Ht Ha Hp Hr) as (t1 & E1 & Ht1). rewrite E1. cbn [mbind res_bind].
    destruct (IH _ t1 Ht1 Hops) as [?|[Hub (ops1 & v & size & new & ops2 & t2 & -> & E2 & Hs)]]; [by left|right].
    split; [done|]. exists (op :: ops1), v, size, new, ops2, t2. cbn [pt_run]. by rewrite E1.
Qed.

Lemma pt_step_unaligned op t : pt_ok k t ->
  match op with OpMap v _ _ _ | OpUnmap v _ => v mod P <> 0 | OpRemap v _ new => v mod P <> 0 \/ new mod P <> 0 end -> pt_step op t = Panic.
Proof.
  intros Ht Hun. destruct op as [v p size flags|v size|v size new]; cbn [pt_step]; unfold pt_map, pt_unmap, pt_remap;
    rewrite !(pageOffset_eq k Hk) by done; destruct (Z.eqb_spec (v mod P) 0) as [E|]; try done.
  destruct (Z.eqb_spec (new mod P) 0); [|done]. by destruct Hun.
Qed.

(** C36 (the page table refuses what it cannot do).  Mapping a page that is
    mapped without permission to replace it, unmapping a page that is not
    mapped, moving from a first page that is not mapped or to one that is, and
    any operation on a region that does not start at a page (for a remap: either
    region) end the program. *)
Theorem page_table_refuses op t A : translates t A ->
  match op with
  | OpMap v _ _ _ | OpUnmap v _ => v mod P <> 0
  | OpRemap v _ new => v mod P <> 0 \/ new mod P <> 0
  end \/
  args_ok op /\ match op with
  | OpMap v _ size flags => Z.land flags Clobber = 0 /\ exists a, in_span v size a /\ A a <> None
  | OpUnmap v size => exists a, in_span v size a /\ A a = None
  | OpRemap v size new => 0 < size /\ (A v = None \/ A new <> None)
  end -> pt_step op t = Panic.
Proof.
  intros [Ht HA] [Hun|[Hargs Hop]]; [by apply pt_step_unaligned|].
  pose proof (page_pos k Hk) as HP. revert Hargs Hop. destruct op as [v p size flags|v size|v size new]; cbn [pt_step args_ok].
  - intros (Hs & (H0 & Hm & Hv) & _) [Hc (a & Ha & Hn)]. unfold in_span, span in *. unfold pt_map. rewrite (pageOffset_eq k Hk), Hm, Hc by done. cbn [Z.eqb negb].
    rewrite <- HA, (translate_at k Hk) in Hn by (done || lia).
    apply (map_loop_clash k Hk _ _ (pages k size) _ _ _ _ (a / P * P)); try done; [|by apply size_ok_pages|by apply in_pages_align|by destruct (pTable t !! _)].
    pose proof (size_ok_fuel k Hk (pages k size) size (size_ok_pages k Hk size Hs)). lia.
  - intros (Hs & H0 & Hm & Hv) (a & Ha & Hn). unfold in_span, span in *. unfold pt_unmap. rewrite (pageOffset_eq k Hk), Hm by done. cbn [Z.eqb].
    rewrite <- HA, (translate_at k Hk) in Hn by (done || lia).
    apply (unmap_loop_missing k Hk _ (pages k size) _ _ _ (a / P * P)); try done; [|by apply size_ok_pages|by apply in_pages_align|by destruct (pTable t !! _)].
    pose proof (size_ok_fuel k Hk (pages k size) size (size_ok_pages k Hk size Hs)). lia.
  - intros (Hs & (H0 & Hm & Hv) & (N0 & Nm & Nv)) [Hp Hn]. unfold pt_remap. rewrite !(pageOffset_eq k Hk), Hm, Nm by done. cbn [Z.eqb].
    pose proof (pages_spec k Hk size Hp) as Hpg. unfold span in *. apply remap_loop_stuck; [done|].
    assert (forall b, 0 <= b -> b + Z.of_nat (pages k size) * P <= 2 ^ 64 -> b mod P = 0 -> (A b = None <-> pTable t !! b = None)) as Hb.
    { intros b B1 B2 B3. rewrite <- HA, (translate_at k Hk) by (done || nia). pose proof (Z.div_mod b P ltac:(lia)).
      replace (b / P * P) with b by lia. by destruct (pTable t !! b). }
    rewrite !Hb in Hn by done. done.
Qed.

(** ** Free regions *)

Lemma isUnmapped_ok t A v size : translates t A -> args_ok (OpUnmap v size) -> size + P < 2 ^ 63 -> v + size + P <= 2 ^ 64 ->
  exists b, isUnmapped v size t = Ok b /\ (b = true <-> forall a, in_span v size a -> A a = None).
Proof.
  intros [Ht HA] (Hs & H0 & Hm & Hv) Hb Hb2. unfold isUnmapped. rewrite (pageOffset_eq k Hk), Hm by done. cbn [Z.eqb].
  destruct (isUnmapped_loop_ok k Hk v size t Ht Hb H0 Hb2 (S (Z.to_nat size)) (pages k size) 0) as (b & -> & Hiff); [|lia|by rewrite Z.sub_0_r; apply size_ok_pages|].
  { pose proof (size_ok_fuel k Hk (pages k size) size (size_ok_pages k Hk size Hs)). lia. }
  exists b. split; [done|]. rewrite Hiff, Z.add_0_r. rewrite <- (proj1 (pages_translated k Hk t v (pages k size) Ht Hm H0 Hv)).
  unfold in_span, span in *. split; intros H a Ha; specialize (H a Ha); by rewrite HA in * by lia.
Qed.
End Refinement.

(** * Checkpoints *)

Definition pt_entry (s : Z * Z * Z) : Z * Entry := (s.1.1, {| e_paddr := s.1.2; e_flags := s.2 |}).

Lemma emplace_fresh cp : forall t, NoDup (pt_entry <$> cp).*1 -> (forall s, s ∈ cp -> pTable t !! s.1.1 = None) ->
  pTable (pt_unserialize cp t) = list_to_map (pt_entry <$> cp) ∪ pTable t /\
  pageSize (pt_unserialize cp t) = pageSize t /\ offsetMask (pt_unserialize cp t) = offsetMask t.
Proof.
  unfold pt_unserialize. induction cp as [|s cp IH]; intros t Hnd Hf.
  { split; [|done]. symmetry. apply (left_id ∅ (∪)). }
  rewrite !fmap_cons in *. apply NoDup_cons in Hnd as [Hv Hnd]. pose proof (Hf s ltac:(by left)) as Em.
  destruct s as [[v p] f]. cbn [foldl pt_entry fst snd] in *. set (e := {| e_paddr := p; e_flags := f |}).
  destruct (emplace_frame v e t) as [F1 F2]. destruct (IH (emplace v e t)) as (-> & -> & ->); [done| |].
  - intros s Hs. rewrite emplace_new by done. rewrite lookup_insert_ne; [apply Hf; by right|]. intros ->. apply Hv. rewrite <- list_fmap_compose.
    by apply (list_elem_of_fmap_2 (fst ∘ pt_entry) cp s).
  - split; [|done]. rewrite emplace_new by done. change (pt_entry (v, p, f)) with (v, e).
    rewrite list_to_map_cons, <- insert_union_r, insert_union_l; [done|]. by apply not_elem_of_list_to_map_1.
Qed.

(** (checkpoints).  A new table that reads the checkpoint of a table has its
    entries, in whatever order the hash table lists them. *)
Theorem pt_checkpoint order t t0 : order (pTable t) ≡ₚ map_to_list (pTable t) -> pTable t0 = ∅ ->
  pTable (pt_unserialize (pt_serialize order t) t0) = pTable t.
Proof.
  intros Ho E3.
  assert (pt_entry <$> pt_serialize order t = order (pTable t)) as Ee.
  { unfold pt_serialize. rewrite <- list_fmap_compose. rewrite <- (list_fmap_id (order (pTable t))) at 2. apply list_fmap_ext. by intros i [v [p f]] _. }
  destruct (emplace_fresh (pt_serialize order t) t0) as (-> & _).
  - rewrite Ee, Ho. apply NoDup_fst_map_to_list.
  - intros s _. rewrite E3. apply lookup_empty.
  - rewrite Ee, E3, (right_id ∅ (∪)). rewrite <- (list_to_map_to_list (pTable t)) at 2.
    apply list_to_map_proper; [|done]. rewrite Ho. apply NoDup_fst_map_to_list.
Qed.

(** * On a small table *)

(** A library that starts with one bucket and then takes twice as many as asked. *)
Definition ex_policy (n : Z) : Z := if n =? 0 then 1 else 2 * n.

Lemma ex_pt : exists t, EmulationPageTable_new ex_policy (2 ^ 12) = Ok t /\ translates 12 t (fun _ => None).
Proof.
  destruct (new_pt_ok 12 ltac:(lia) ex_policy) as (t & E & Ht & Hm). exists t. split; [done|]. split; [done|]. intros a Ha.
  by rewrite (translate_at 12 ltac:(lia)), Hm, lookup_empty.
Qed.

(** Two pages are mapped, the first is moved and the second is unmapped. *)
Definition ex_pt_ops : list PtOp := [OpMap 0x1000 0x5000 0x1800 0; OpRemap 0x1000 0x1000 0x9000; OpUnmap 0x2000 0x1000].

Lemma ex_pt_ops_ok : ops_ok 12 ex_pt_ops (fun _ => None).
Proof.
  assert (span 12 0x1800 = 0x2000 /\ span 12 0x1000 = 0x1000) as [E1 E2] by by vm_compute.
  assert (forall v a, in_span 12 v 0x1800 a <-> v <= a < v + 0x2000) as Hb by (intros; unfold in_span; by rewrite E1).
  assert (forall v a, in_span 12 v 0x1000 a <-> v <= a < v + 0x1000) as Hs by (intros; unfold in_span; by rewrite E2).
  cbn [ex_pt_ops ops_ok args_ok op_pre pt_spec]. rewrite E1, E2. split_and!; try done.
  - by right.
  - intros a Ha. rewrite Hs in Ha. rewrite decide_True by (rewrite Hb; lia). done.
  - intros a Ha. rewrite Hs in Ha. right. rewrite decide_False by (rewrite Hb; lia). done.
  - by right.
  - intros a Ha. rewrite Hs in Ha. rewrite decide_False by (rewrite Hs; lia). rewrite decide_False by (rewrite Hs; lia).
    rewrite decide_True by (rewrite Hb; lia). done.
Qed.

Definition is_ub {A} (r : res A) : bool := match r with Ub => true | _ => false end.

Example page_table_refines_witness : exists t0 t, EmulationPageTable_new ex_policy (2 ^ 12) = Ok t0 /\ pt_run ex_pt_ops t0 = Ok t /\
  translate 0x9234 t = Some 0x5234 /\ translate 0x1234 t = None /\ translate 0x2234 t = None.
Proof.
  destruct ex_pt as (t0 & E & _). exists t0.
  destruct (page_table_refines 12 ltac:(lia) ex_policy ex_pt_ops t0 E ex_pt_ops_ok) as [(t & Hr & Ht)|[Hub _]].
  - exists t. split; [done|]. split; [done|]. rewrite !Ht by lia. by vm_compute.
  - exfalso. assert (is_ub (t0 ← EmulationPageTable_new ex_policy (2 ^ 12); pt_run ex_pt_ops t0) = false) as Hn by by vm_compute.
    rewrite E in Hn. cbn [mbind res_bind] in Hn. by rewrite Hub in Hn.
Defined.

(** With as many buckets as entries the same operations are undefined. *)
Example remap_of_full_table : (t0 ← EmulationPageTable_new (fun n => n) (2 ^ 12); pt_run ex_pt_ops t0) = Ub.
Proof. by vm_compute. Qed.

Example page_table_refuses_witness : exists t0, EmulationPageTable_new ex_policy (2 ^ 12) = Ok t0 /\ pt_step (OpUnmap 0x1000 0x1000) t0 = Panic.
Proof.
  destruct ex_pt as (t0 & E & Ht). exists t0. split; [done|].
  apply (page_table_refuses 12 ltac:(lia) (OpUnmap 0x1000 0x1000) t0 (fun _ => None) Ht). right. split; [by vm_compute|].
  exists 0x1000. by vm_compute.
Defined.

Example pt_checkpoint_witness :
  let t := {| pTable := {[ 0x1000 := {| e_paddr := 0x5000; e_flags := 0 |}; 0x9000 := {| e_paddr := 0x7000; e_flags := 8 |} ]};
              pageSize := 0x1000; offsetMask := 0xfff; buckets := 3; rehash := ex_policy |} in
  pTable (pt_unserialize (pt_serialize map_to_list t) (with_pTable t ∅)) = pTable t.
Proof. intros t. by apply pt_checkpoint. Defined.
