(* ===== verification/ProcMem.v ===== *)
(** The memory of a process in system-call emulation: the physical pages the
    system hands out (src/sim/system.cc), the process that maps them and grows
    its stack (src/sim/process.cc, mem_state.hh), and the port proxy that reads
    and writes virtual addresses through the page table
    (src/mem/se_translating_port_proxy.cc).  The page size is that of ARM
    (src/arch/arm/isa_traits.hh). *)
From S2P Require Import Prelude IntMath AddrRange FuncAccess PortProxy PageTable.

(** * Definitions *)

Definition PageShift : Z := 12.
Definition PageBytes : Z := Z.shiftl 1 PageShift.

(** The fields of [MemState], [Process] and [System] that concern memory;
    [totalSize]: [physmem.totalSize()]. *)
Record Process := {
  pr_pTable : EmulationPageTable; stackBase : Z; stackMin : Z; maxStackSize : Z; pagePtr : Z; totalSize : Z }.

Definition with_pages (pr : Process) (t : EmulationPageTable) : Process :=
  {| pr_pTable := t; stackBase := stackBase pr; stackMin := stackMin pr; maxStackSize := maxStackSize pr; pagePtr := pagePtr pr;
     totalSize := totalSize pr |}.
Definition with_pagePtr (pr : Process) (n : Z) : Process :=
  {| pr_pTable := pr_pTable pr; stackBase := stackBase pr; stackMin := stackMin pr; maxStackSize := maxStackSize pr; pagePtr := n;
     totalSize := totalSize pr |}.
Definition setStackMin (pr : Process) (a : Z) : Process :=
  {| pr_pTable := pr_pTable pr; stackBase := stackBase pr; stackMin := a; maxStackSize := maxStackSize pr; pagePtr := pagePtr pr;
     totalSize := totalSize pr |}.

(** The region of the m5 operations. *)
Definition m5opRange : AddrRange := AddrRange_plain 0xffff0000 0xffffffff.

Definition allocPhysPages (npages : Z) (pr : Process) : res (Z * Process) :=
  let return_addr := u64 (Z.shiftl (pagePtr pr) PageShift) in
  let ptr := u64 (pagePtr pr + npages) in
  let next_return_addr := u64 (Z.shiftl ptr PageShift) in
  let '(return_addr, ptr) :=
    if contains m5opRange next_return_addr then (0xffffffff, Z.shiftr 0xffffffff PageShift) else (return_addr, ptr) in
  assert! negb (totalSize pr <? u64 (Z.shiftl ptr PageShift)) ;;
  Ok (return_addr, with_pagePtr pr ptr).

Definition freeMemSize (pr : Process) : Z := u64 (totalSize pr - u64 (Z.shiftl (pagePtr pr) PageShift)).

(** [divCeil(size, (int64_t)PageBytes)], as an [int]. *)
Definition page_count (size : Z) : Z := wrap_s 32 (Z.quot (wrap_s 64 (size + PageBytes - 1)) PageBytes).

Definition allocateMem (vaddr size : Z) (clobber : bool) (pr : Process) : res Process :=
  '(paddr, pr) ← allocPhysPages (page_count size) pr;
  t ← pt_map vaddr paddr size (if clobber then Clobber else 0) (pr_pTable pr);
  Ok (with_pages pr t).

(** [while (vaddr < stack_min)] *)
Fixpoint grow_stack (fuel : nat) (vaddr stack_min : Z) (pr : Process) : res (Z * Process) :=
  match fuel with
  | O => OutOfFuel
  | S fuel =>
    if vaddr <? stack_min then
      let stack_min := u64 (stack_min - PageBytes) in
      assert! negb (maxStackSize pr <? u64 (stackBase pr - stack_min)) ;;
      pr ← allocateMem stack_min PageBytes false pr;
      grow_stack fuel vaddr stack_min pr
    else Ok (stack_min, pr)
  end.
Definition fixupStackFault (vaddr : Z) (pr : Process) : res (bool * Process) :=
  let stack_min := stackMin pr in
  let stack_base := stackBase pr in
  if (stack_min <=? vaddr) && (vaddr <? stack_base) then
    pr ← allocateMem (roundDown vaddr PageBytes) PageBytes false pr; Ok (true, pr)
  else if (vaddr <? stack_min) && (u64 (stack_base - maxStackSize pr) <=? vaddr) then
    '(stack_min, pr) ← grow_stack (S (Z.to_nat ((stack_min - vaddr) / PageBytes + 1))) vaddr stack_min pr;
    Ok (true, setStackMin pr stack_min)
  else Ok (false, pr).

Inductive AllocType := Always | Never | NextPage.

(** The state is that of the process and that of the memory system. *)
Section SETranslating.
Context {S : Type} (sendFunctional : FPacket -> S -> res (FPacket * S)) (cacheLineSize rid : Z).

Definition tryReadBlob (addr : Z) (buf : list Z) (size : Z) (pr : Process) (s : S) : res (bool * list Z * S) :=
  '(ok, (buf, _, s)) ← chunk_loop addr (u32 size) PageBytes
    (fun a size '(buf, off, s) =>
       match translate a (pr_pTable pr) with
       | None => Ok (false, (buf, off, s))
       | Some paddr =>
         '(d, s) ← readBlobPhys sendFunctional cacheLineSize rid paddr 0 (drop (Z.to_nat off) buf) size s;
         Ok (true, (take (Z.to_nat off) buf ++ d, off + size, s))
       end)
    (buf, 0, s);
  Ok (ok, buf, s).
Definition se_readBlob (addr : Z) (buf : list Z) (size : Z) (pr : Process) (s : S) : res (list Z * S) :=
  '(ok, buf, s) ← tryReadBlob addr buf size pr s; assert! (ok : bool) ;; Ok (buf, s).

(** The physical address of [a], of a page allocated for it where there is none:
    [None] if it may not be allocated. *)
Definition translate_alloc (alloc : AllocType) (a : Z) (pr : Process) : res (option Z * Process) :=
  match translate a (pr_pTable pr) with
  | Some paddr => Ok (Some paddr, pr)
  | None =>
    '(go, pr) ←
      (match alloc with
       | Always => pr ← allocateMem (roundDown a PageBytes) PageBytes false pr; Ok (true, pr)
       | NextPage => '(fixed, pr) ← fixupStackFault a pr; assert! (fixed : bool) ;; Ok (true, pr)
       | Never => Ok (false, pr)
       end);
    if go : bool then
      match translate a (pr_pTable pr) with Some paddr => Ok (Some paddr, pr) | None => Ub end
    else Ok (None, pr)
  end.

Definition tryWriteBlob (alloc : AllocType) (addr : Z) (buf : list Z) (size : Z) (pr : Process) (s : S) : res (bool * Process * S) :=
  '(ok, (_, pr, s)) ← chunk_loop addr (u32 size) PageBytes
    (fun a size '(off, pr, s) =>
       '(paddr, pr) ← translate_alloc alloc a pr;
       match paddr with
       | None => Ok (false, (off, pr, s))
       | Some paddr =>
         s ← writeBlobPhys sendFunctional cacheLineSize rid paddr 0 (drop (Z.to_nat off) buf) size s;
         Ok (true, (off + size, pr, s))
       end)
    (0, pr, s);
  Ok (ok, pr, s).
Definition se_writeBlob (alloc : AllocType) (addr : Z) (buf : list Z) (size : Z) (pr : Process) (s : S) : res (Process * S) :=
  '(ok, pr, s) ← tryWriteBlob alloc addr buf size pr s; assert! (ok : bool) ;; Ok (pr, s).

(** The stack is not extended here. *)
Definition tryMemsetBlob (alloc : AllocType) (addr v size : Z) (pr : Process) (s : S) : res (bool * Process * S) :=
  '(ok, (pr, s)) ← chunk_loop addr (u32 size) PageBytes
    (fun a size '(pr, s) =>
       '(paddr, pr) ← translate_alloc (match alloc with Always => Always | _ => Never end) a pr;
       match paddr with
       | None => Ok (false, (pr, s))
       | Some paddr => s ← memsetBlobPhys sendFunctional cacheLineSize rid paddr 0 v size s; Ok (true, (pr, s))
       end)
    (pr, s);
  Ok (ok, pr, s).
Definition se_memsetBlob (alloc : AllocType) (addr v size : Z) (pr : Process) (s : S) : res (Process * S) :=
  '(ok, pr, s) ← tryMemsetBlob alloc addr v size pr s; assert! (ok : bool) ;; Ok (pr, s).

(** [str]: the characters of the string and the 0 that ends it. *)
Fixpoint tryWriteString (vaddr : Z) (str : list Z) (pr : Process) (s : S) : res (bool * S) :=
  match str with
  | [] => Ub
  | c :: str =>
    match translate vaddr (pr_pTable pr) with
    | None => Ok (false, s)
    | Some paddr =>
      s ← writeBlob sendFunctional cacheLineSize rid paddr [c] 1 s;
      if c =? 0 then Ok (true, s) else tryWriteString (u64 (vaddr + 1)) str pr s
    end
  end.
Definition writeString (addr : Z) (str : list Z) (pr : Process) (s : S) : res S :=
  '(ok, s) ← tryWriteString addr str pr s; assert! (ok : bool) ;; Ok s.

(** [str]: the characters read so far; [c]: the variable they are read into.
    The loop ends at a 0 or at a page that is not mapped; [fuel] bounds it. *)
Fixpoint tryReadString (fuel : nat) (c : Z) (str : list Z) (vaddr : Z) (pr : Process) (s : S) : res (bool * list Z * S) :=
  match fuel with
  | O => OutOfFuel
  | Datatypes.S fuel =>
    match translate vaddr (pr_pTable pr) with
    | None => Ok (false, str, s)
    | Some paddr =>
      '(b, s) ← readBlob sendFunctional cacheLineSize rid paddr [c] 1 s;
      c ← aread b 0;
      if c =? 0 then Ok (true, str, s) else tryReadString fuel c (str ++ [c]) (u64 (vaddr + 1)) pr s
    end
  end.
Definition readString (fuel : nat) (c : Z) (str : list Z) (addr : Z) (pr : Process) (s : S) : res (list Z * S) :=
  '(ok, str, s) ← tryReadString fuel c str addr pr s; assert! (ok : bool) ;; Ok (str, s).
End SETranslating.
