(* ===== verification/ProcTheorems.v ===== *)
(** The memory of a process: its pages have frames of their own, growing and
    allocating keeps that, and what is written to virtual addresses is read
    back from them, through the page table, the chunks and the caches. *)
From S2P Require Import Prelude AddrRange CacheBlk ReplPolicy CacheTags TagStore MemPacket Cache SnoopFilter IntMath.
From S2P Require Import AbstractMem CoherentXBar CohSystem FuncAccess CohLine CohFill CohHit CohMiss CohSnoop CohFilter.
From S2P Require Import CohMem CohBus CohProto CohCorrect CohTheorems FuncLine PortProxy FuncTheorems PageTable ProcMem.

(** * The pages of a process *)

(** Each mapped page has a frame of its own below those still to be handed out,
    which are not yet those of the m5 operations. *)
Record proc_ok (pr : Process) : Prop := {
  pk_table : pt_ok 12 (pr_pTable pr);
  pk_frame : forall v e, pTable (pr_pTable pr) !! v = Some e ->
    (0 <= v < 2 ^ 64 /\ v mod 4096 = 0) /\ 0 <= e_paddr e /\ e_paddr e + 4096 <= pagePtr pr * 4096 /\ e_paddr e mod 4096 = 0;
  pk_own : forall v v' e e', pTable (pr_pTable pr) !! v = Some e -> pTable (pr_pTable pr) !! v' = Some e' ->
    e_paddr e = e_paddr e' -> v = v';
  pk_ptr : 0 <= pagePtr pr /\ pagePtr pr * 4096 <= totalSize pr < 2 ^ 64 /\ pagePtr pr * 4096 < 0xffff0000 }.

(** There are [c] frames left. *)
Definition room (pr : Process) (c : Z) : Prop := (pagePtr pr + c) * 4096 <= totalSize pr /\ (pagePtr pr + c) * 4096 < 0xffff0000.

(** [pr'] has the pages of [pr] and used [c] more frames. *)
Record grows (pr pr' : Process) (c : Z) : Prop := {
  gr_pages : forall v e, pTable (pr_pTable pr) !! v = Some e -> pTable (pr_pTable pr') !! v = Some e;
  gr_ptr : pagePtr pr <= pagePtr pr' <= pagePtr pr + c;
  gr_total : totalSize pr' = totalSize pr;
  gr_stack : stackBase pr' = stackBase pr /\ maxStackSize pr' = maxStackSize pr }.

Lemma grows_refl pr : grows pr pr 0.
Proof. split; (done || lia). Qed.
Lemma grows_trans pr1 pr2 pr3 c c' : grows pr1 pr2 c -> grows pr2 pr3 c' -> grows pr1 pr3 (c + c').
Proof. intros [A1 A2 A3 [A4 A5]] [B1 B2 B3 [B4 B5]]. split; [auto|lia|congruence|split; congruence]. Qed.
Lemma grows_le pr pr' c c' : grows pr pr' c -> c <= c' -> grows pr pr' c'.
Proof. intros [A1 A2 A3 A4] H. split; (done || lia). Qed.
Lemma room_grows pr pr' c c' : grows pr pr' c -> room pr (c + c') -> 0 <= c' -> room pr' c'.
Proof. intros [_ H E _] [H1 H2] Hc. unfold room. rewrite E. lia. Qed.

Lemma page_bytes : PageBytes = 2 ^ 12.
Proof. done. Qed.

(** ** Handing out frames *)

Lemma shift_page x : Z.shiftl x PageShift = x * 4096.
Proof. unfold PageShift. rewrite Z.shiftl_mul_pow2 by lia. done. Qed.

Lemma allocPhysPages_ok pr c : proc_ok pr -> 0 <= c -> room pr c -> allocPhysPages c pr = Ok (pagePtr pr * 4096, with_pagePtr pr (pagePtr pr + c)).
Proof.
  intros Hp Hc [R1 R2]. destruct (pk_ptr _ Hp) as (P1 & P2 & P3). unfold allocPhysPages. rewrite (wrap_u_id 64 (pagePtr pr + c)) by lia.
  rewrite !shift_page, !(wrap_u_id 64) by lia.
  assert (contains m5opRange ((pagePtr pr + c) * 4096) = false) as ->.
  { unfold contains, m5opRange, AddrRange_plain. cbn [intlvBits _start _end interleaved Z.eqb negb].
    destruct (Z.leb_spec 0xffff0000 ((pagePtr pr + c) * 4096)); [lia|]. done. }
  rewrite shift_page, wrap_u_id by lia. rewrite (proj2 (Z.ltb_ge _ _)) by lia. done.
Qed.

(** A page is mapped to a frame of its own. *)
Lemma allocateMem_ok pr v : proc_ok pr -> room pr 1 -> 0 <= v -> v mod 4096 = 0 -> v + 4096 <= 2 ^ 64 -> pTable (pr_pTable pr) !! v = None ->
  exists pr', allocateMem v PageBytes false pr = Ok pr' /\ proc_ok pr' /\ grows pr pr' 1 /\ stackMin pr' = stackMin pr /\
    pTable (pr_pTable pr') !! v <> None /\ forall u, u <> v -> pTable (pr_pTable pr') !! u = pTable (pr_pTable pr) !! u.
Proof.
  intros Hp Hr H0 Hm Hv Hf. pose proof (pk_ptr _ Hp) as (P1 & P2 & P3). pose proof (pk_table _ Hp) as Ht. destruct Hr as [R1 R2].
  unfold allocateMem. change (page_count PageBytes) with 1. rewrite allocPhysPages_ok by (done || lia). cbn [mbind res_bind with_pagePtr pr_pTable].
  unfold pt_map. rewrite (pageOffset_eq 12 ltac:(lia)) by done. change (2 ^ 12) with 4096. rewrite Hm. change (negb (Z.land 0 Clobber =? 0)) with false. cbn [Z.eqb].
  assert (forall u, in_pages 12 v 1 u <-> u = v) as Hin.
  { intros u. rewrite (in_pages_S 12 ltac:(lia)). split; [intros [?|Hu]; [done|by apply in_pages_0 in Hu]|by left]. }
  destruct (map_loop_ok 12 ltac:(lia) false 0 (S (Z.to_nat PageBytes)) 1 v (pagePtr pr * 4096) PageBytes (pr_pTable pr)) as (t' & -> & Ht' & Hl).
  { rewrite page_bytes. lia. }
  { done. }
  { by split. }
  { done. }
  { change (2 ^ 12) with 4096. lia. }
  { lia. }
  { change (2 ^ 12) with 4096. lia. }
  { intros u ->%Hin. by right. }
  cbn [mbind res_bind]. eexists. split; [done|].
  assert (forall u, pTable t' !! u = if decide (u = v) then Some {| e_paddr := pagePtr pr * 4096; e_flags := 0 |} else pTable (pr_pTable pr) !! u) as Hl'.
  { intros u. rewrite Hl. destruct (decide (u = v)) as [->|Hne]; [rewrite decide_True by (by apply Hin); do 2 f_equal; lia|].
    rewrite decide_False; [done|]. by rewrite Hin. }
  split; [|split; [|split; [done|split]]].
  - split; cbn [with_pages with_pagePtr pr_pTable pagePtr totalSize]; [done| | |lia].
    + intros u e. rewrite Hl'. case_decide as E; [subst u; intros [= <-]; cbn [e_paddr]; split_and!; try done; try lia; apply Z_mod_mult|].
      intros He. destruct (pk_frame _ Hp u e He) as (? & ? & ? & ?). split_and!; (done || lia).
    + intros u u' e e'. rewrite !Hl'. repeat case_decide; subst; try done.
      * intros [= <-] He' E. destruct (pk_frame _ Hp u' e' He'). cbn [e_paddr] in E. lia.
      * intros He [= <-] E. destruct (pk_frame _ Hp u e He). cbn [e_paddr] in E. lia.
      * by apply (pk_own _ Hp).
  - split; cbn [with_pages with_pagePtr pr_pTable pagePtr totalSize stackBase maxStackSize]; [|lia|done|done].
    intros u e He. rewrite Hl'. rewrite decide_False; [done|]. intros ->. congruence.
  - cbn [with_pages pr_pTable]. by rewrite Hl', decide_True.
  - intros u Hu. cbn [with_pages pr_pTable]. by rewrite Hl', decide_False.
Qed.

(** ** Translations *)

Section Translate.
Context (pr : Process) (Hp : proc_ok pr).
Local Abbreviation tr a := (translate a (pr_pTable pr)).

Lemma tr_at a : 0 <= a < 2 ^ 64 -> forall x, tr a = Some x <->
  exists e, pTable (pr_pTable pr) !! (a / 4096 * 4096) = Some e /\ x = e_paddr e + a mod 4096.
Proof.
  intros Ha x. rewrite (translate_at 12 ltac:(lia)) by (done || apply Hp). change (2 ^ 12) with 4096.
  pose proof (Z.mod_pos_bound a 4096 ltac:(lia)). pose proof (pk_ptr _ Hp).
  destruct (pTable (pr_pTable pr) !! (a / 4096 * 4096)) as [e|] eqn:E; [|split; [done|naive_solver]].
  destruct (pk_frame _ Hp _ e E) as (_ & F1 & F2 & F3). rewrite wrap_u_id by lia. split.
  - intros [= <-]. exists e. split; [done|lia].
  - intros (e' & [= <-] & ->). f_equal. lia.
Qed.

Lemma tr_range a x : 0 <= a < 2 ^ 64 -> tr a = Some x -> 0 <= x < pagePtr pr * 4096 /\ x mod 4096 = a mod 4096 /\ 0 <= x - a mod 4096.
Proof.
  intros Ha H. apply (tr_at a Ha) in H as (e & He & ->). destruct (pk_frame _ Hp _ e He) as (_ & F1 & F2 & F3).
  pose proof (Z.mod_pos_bound a 4096 ltac:(lia)). split; [lia|]. split; [|lia].
  rewrite <- Zplus_mod_idemp_l, F3, Z.add_0_l. by apply Zmod_mod.
Qed.

(** Different addresses have different bytes. *)
Lemma tr_inj a b x : 0 <= a < 2 ^ 64 -> 0 <= b < 2 ^ 64 -> tr a = Some x -> tr b = Some x -> a = b.
Proof.
  intros Ha Hb H1 H2. pose proof (tr_range a x Ha H1) as (_ & E1 & _). pose proof (tr_range b x Hb H2) as (_ & E2 & _).
  apply (tr_at a Ha) in H1 as (e & He & E3). apply (tr_at b Hb) in H2 as (e' & He' & E4).
  assert (a / 4096 * 4096 = b / 4096 * 4096) by (apply (pk_own _ Hp _ _ e e'); [done..|lia]).
  pose proof (Z.div_mod a 4096 ltac:(lia)). pose proof (Z.div_mod b 4096 ltac:(lia)). lia.
Qed.

(** The bytes after [a] in its page. *)
Lemma tr_next a x i : 0 <= a < 2 ^ 64 -> tr a = Some x -> 0 <= i -> a mod 4096 + i < 4096 -> a + i < 2 ^ 64 -> tr (a + i) = Some (x + i).
Proof.
  intros Ha H Hi Hl Hb. apply (tr_at a Ha) in H as (e & He & ->). apply tr_at; [lia|]. exists e.
  pose proof (Z.div_mod a 4096 ltac:(lia)). pose proof (Z.mod_pos_bound a 4096 ltac:(lia)).
  assert ((a + i) / 4096 = a / 4096) as -> by (symmetry; apply (Z.div_unique _ _ _ (a mod 4096 + i)); lia).
  assert ((a + i) mod 4096 = a mod 4096 + i) as -> by (symmetry; apply (Z.mod_unique _ _ (a / 4096)); lia). split; [done|lia].
Qed.
End Translate.

Lemma tr_grows pr pr' c a x : proc_ok pr -> proc_ok pr' -> grows pr pr' c -> 0 <= a < 2 ^ 64 ->
  translate a (pr_pTable pr) = Some x -> translate a (pr_pTable pr') = Some x.
Proof.
  intros Hp Hp' Hg Ha H. apply (tr_at pr Hp a Ha) in H as (e & He & ->). apply (tr_at pr' Hp' a Ha). exists e. split; [|done].
  by apply (gr_pages _ _ _ Hg).
Qed.

(** The proxy allocates the page it needs. *)
Lemma translate_alloc_ok pr a : proc_ok pr -> room pr 1 -> 0 <= a < 2 ^ 64 ->
  exists x pr', translate_alloc Always a pr = Ok (Some x, pr') /\ proc_ok pr' /\ grows pr pr' 1 /\ translate a (pr_pTable pr') = Some x.
Proof.
  intros Hp Hr Ha. unfold translate_alloc. destruct (translate a (pr_pTable pr)) as [x|] eqn:E.
  { exists x, pr. split; [done|]. split; [done|]. split; [|done]. eapply grows_le; [apply grows_refl|lia]. }
  rewrite page_bytes, roundDown_spec by lia. change (2 ^ 12) with 4096. change 4096 with PageBytes at 3.
  pose proof (Z.div_mod a 4096 ltac:(lia)). pose proof (Z.mod_pos_bound a 4096 ltac:(lia)).
  assert (a / 4096 < 2 ^ 52) by (apply Z.div_lt_upper_bound; lia).
  assert (pTable (pr_pTable pr) !! (a / 4096 * 4096) = None) as Ef.
  { destruct (pTable (pr_pTable pr) !! (a / 4096 * 4096)) as [e|] eqn:E2; [|done].
    rewrite (proj2 (tr_at pr Hp a Ha (e_paddr e + a mod 4096))) in E; [done|]. by exists e. }
  destruct (allocateMem_ok pr (a / 4096 * 4096)) as (pr' & -> & Hp' & Hg & _ & Hn & _); try done; [lia|apply Z_mod_mult|lia|].
  cbn [mbind res_bind]. destruct (pTable (pr_pTable pr') !! (a / 4096 * 4096)) as [e|] eqn:E2; [|done].
  assert (translate a (pr_pTable pr') = Some (e_paddr e + a mod 4096)) as Et by (apply (tr_at pr' Hp' a Ha); by exists e).
  rewrite Et. eexists _, pr'. by split_and!.
Qed.

(** * Virtual regions *)

(** [size] bytes are cut into at most this many pages. *)
Lemma chunked_count k a n l : 0 <= k < 32 -> 0 <= n -> chunked (2 ^ k) a n l -> Z.of_nat (length l) * 2 ^ k <= n + a mod 2 ^ k + 2 ^ k - 1.
Proof.
  intros Hk Hn H. pose proof (chunk_pos k Hk). induction H as [a|a n m l Hm Em Hl IH]; cbn [length].
  - pose proof (Z.mod_pos_bound a (2 ^ k) ltac:(lia)). lia.
  - pose proof (Z.mod_pos_bound a (2 ^ k) ltac:(lia)). destruct (decide (n = m)) as [->|Hne].
    + rewrite Z.sub_diag in Hl. apply chunked_nil_inv in Hl; [|lia]. subst l. cbn [length]. lia.
    + assert (m = 2 ^ k - a mod 2 ^ k) as Em' by lia. specialize (IH ltac:(lia)). rewrite (mod_wrap k) in IH by lia.
      assert ((a + m) mod 2 ^ k = 0) as E0.
      { rewrite Em', Z.add_sub_assoc, Zminus_mod, <- Zplus_mod_idemp_r, Z_mod_same_full, Z.add_0_r, Zmod_mod, Z.sub_diag. apply Zmod_0_l. }
      rewrite E0 in IH. lia.
Qed.

Section Blobs.
Context {T D : Type} `{!BaseTags T D, !BaseTagsLaws T D} (k : Z) (world : Z -> bool) (hi n : Z) (B : mem_bounds k 0 hi).
Implicit Types (s : Sys T D) (M buf : list Z).
Local Abbreviation coherent := (coherent k world 0 hi n).
(** Memory starts at 0 and is not secure. *)
Context (Hw : forall b, in_mem 0 hi b -> world (align k b) = false).
Context (rid : Z) (p : FuncPort) (Hport : port_ok n p).

(** The frames are in memory. *)
Lemma frame_region pr a x m : proc_ok pr -> totalSize pr <= hi + 1 -> 0 <= a < 2 ^ 64 -> translate a (pr_pTable pr) = Some x ->
  a mod 4096 + m <= 4096 -> region_ok k world 0 hi 0 x m.
Proof.
  intros Hp Ht Ha Hx Hm H0. destruct (tr_range pr Hp a x Ha Hx) as ([X1 X2] & X3 & X4).
  pose proof (pk_ptr _ Hp) as (P1 & P2 & _). apply (tr_at pr Hp a Ha) in Hx as (e & He & ->). destruct (pk_frame _ Hp _ e He) as (_ & F1 & F2 & F3).
  split; [lia|]. intros b Hb. rewrite Hw; [done|]. unfold in_mem. lia.
Qed.

(** The bytes of the virtual addresses from [a]. *)
Definition vbytes (pr : Process) M (a m : Z) (v : list Z) : Prop :=
  forall i, 0 <= i < m -> exists x, translate (a + i) (pr_pTable pr) = Some x /\ M !! Z.to_nat x = v !! Z.to_nat i.

(** The physical bytes of a chunk in one page. *)
Lemma page_bytes_at pr M a x m : proc_ok pr -> 0 <= a -> a + m <= 2 ^ 64 -> translate a (pr_pTable pr) = Some x -> a mod 4096 + m <= 4096 ->
  vbytes pr M a m (get_bytes M x m).
Proof.
  intros Hp Ha Hl Hx Hm i Hi. pose proof (tr_range pr Hp a x ltac:(lia) Hx) as (X1 & _). exists (x + i).
  split; [by apply tr_next; [|lia|..|lia|lia|lia]|]. rewrite get_bytes_lookup by lia. rewrite decide_True by lia. f_equal. lia.
Qed.
Lemma chunk_in_page a m m' : 0 < m' -> m' = Z.min m (4096 - a mod 4096) -> m' <= m /\ a mod 4096 + m' <= 4096.
Proof. lia. Qed.

(** Only one list of bytes is at the addresses. *)
Lemma vbytes_fun pr M a m v v' : vbytes pr M a m v -> vbytes pr M a m v' -> Z.of_nat (length v) = m -> Z.of_nat (length v') = m -> v = v'.
Proof.
  intros H H' Hl Hl'. apply list_eq. intros i. destruct (decide (Z.of_nat i < m)) as [Hi|Hi].
  - destruct (H (Z.of_nat i)) as (x & E & Ex); [lia|]. destruct (H' (Z.of_nat i)) as (x' & E' & Ex'); [lia|].
    rewrite Nat2Z.id in Ex, Ex'. assert (x' = x) as -> by congruence. by rewrite <- Ex, <- Ex'.
  - by rewrite !lookup_ge_None_2 by lia.
Qed.
Lemma vbytes_split pr M a m m' v : 0 <= m' <= m -> Z.of_nat (length v) = m -> vbytes pr M a m v ->
  vbytes pr M a m' (take (Z.to_nat m') v) /\ vbytes pr M (a + m') (m - m') (drop (Z.to_nat m') v).
Proof.
  intros Hm Hl H. split; intros i Hi.
  - destruct (H i) as (x & E & Ex); [lia|]. exists x. split; [done|]. by rewrite lookup_take_lt by lia.
  - destruct (H (m' + i)) as (x & E & Ex); [lia|]. exists x. split; [rewrite <- E; f_equal; lia|]. rewrite lookup_drop, Ex. f_equal. lia.
Qed.

Lemma read_pages pr s M a m l : chunked 4096 a m l -> proc_ok pr -> totalSize pr <= hi + 1 -> coherent s M -> snoops_caches n s ->
  0 <= m < 2 ^ 32 -> 0 <= a -> (0 < m -> a + m <= 2 ^ 64) -> forall v buf off, Z.of_nat (length v) = m -> vbytes pr M a m v ->
  0 <= off -> off + m <= Z.of_nat (length buf) ->
  fold_chunks (fun a size '(buf, off, s) =>
       match translate a (pr_pTable pr) with
       | None => Ok (false, (buf, off, s))
       | Some paddr =>
         '(d, s) ← readBlobPhys (func_send p) (2 ^ k) rid paddr 0 (drop (Z.to_nat off) buf) size s;
         Ok (true, (take (Z.to_nat off) buf ++ d, off + size, s))
       end) l (buf, off, s) = Ok (true, (put_bytes buf off v, off + m, s)).
Proof.
  intros Hl Hp Ht Hch Hsn. pose proof (pk_ptr _ Hp) as (_ & P2 & _). induction Hl as [a|a m m' l Hm0 Em Hl IH]; intros Hm Ha Hb v buf off Hv Hvb Ho Hlen; cbn [fold_chunks].
  { destruct v; [|cbn in Hv; lia]. by rewrite put_bytes_nil, Z.add_0_r. }
  destruct (chunk_in_page a m m' Hm0 Em) as [Hle Hfit]. specialize (Hb ltac:(lia)).
  destruct (Hvb 0 ltac:(lia)) as (x & Hx & _). rewrite Z.add_0_r in Hx. rewrite Hx.
  pose proof (tr_range pr Hp a x ltac:(lia) Hx) as (X1 & _).
  rewrite (readBlobPhys_ok k world 0 hi n B rid 0 p Hport s M);
    [|done|done|lia|lia|by apply (frame_region pr a); [..|lia| |]|rewrite length_drop; lia].
  cbn [mbind res_bind]. rewrite put_bytes_at by lia. rewrite Z.sub_0_r.
  destruct (vbytes_split pr M a m m' v ltac:(lia) Hv Hvb) as [Hv1 Hv2].
  assert (get_bytes M x m' = take (Z.to_nat m') v) as ->.
  { pose proof (ch_length _ _ _ _ _ _ _ Hch) as HM. destruct (frame_region pr a x m' Hp Ht ltac:(lia) Hx Hfit Hm0) as [[R1 R2] _].
    apply (vbytes_fun pr M a m'); [by apply page_bytes_at; [..|lia| |]|done|apply get_bytes_length; lia|rewrite length_take; lia]. }
  assert (length (take (Z.to_nat m') v) = Z.to_nat m') as Hl1 by (rewrite length_take; lia).
  destruct (decide (m = m')) as [<-|Hne].
  - rewrite Z.sub_diag in Hl. apply chunked_nil_inv in Hl as ->; [|done]. cbn [fold_chunks]. by rewrite take_ge by lia.
  - rewrite (wrap_u_id 64) in * by lia. rewrite (IH ltac:(lia) ltac:(lia) ltac:(lia) (drop (Z.to_nat m') v));
      [|rewrite length_drop; lia|done|lia|rewrite put_bytes_length; lia].
    replace (put_bytes buf off v) with (put_bytes buf off (take (Z.to_nat m') v ++ drop (Z.to_nat m') v)) by by rewrite take_drop.
    rewrite <- put_bytes_app by (rewrite ?length_drop; lia). rewrite Hl1, Z2Nat.id by lia. by replace (off + m' + (m - m')) with (off + m) by lia.
Qed.

(** [M'] has the bytes of [M] at the translated addresses outside [[a, a + m)]. *)
Definition others_kept (pr' : Process) M M' (a m : Z) : Prop :=
  forall b x, 0 <= b < 2 ^ 64 -> ~ a <= b < a + m -> translate b (pr_pTable pr') = Some x -> M' !! Z.to_nat x = M !! Z.to_nat x.

Lemma write_pages buf a m l : chunked 4096 a m l -> 0 <= m < 2 ^ 32 -> 0 <= a -> (0 < m -> a + m <= 2 ^ 64) -> forall pr s M off,
  proc_ok pr -> totalSize pr <= hi + 1 -> coherent s M -> snoops_caches n s -> room pr (Z.of_nat (length l)) ->
  0 <= off -> off + m <= Z.of_nat (length buf) ->
  exists pr' s' M', fold_chunks (fun a size '(off, pr, s) =>
       '(paddr, pr) ← translate_alloc Always a pr;
       match paddr with
       | None => Ok (false, (off, pr, s))
       | Some paddr =>
         s ← writeBlobPhys (func_send p) (2 ^ k) rid paddr 0 (drop (Z.to_nat off) buf) size s;
         Ok (true, (off + size, pr, s))
       end) l (off, pr, s) = Ok (true, (off + m, pr', s')) /\
    proc_ok pr' /\ grows pr pr' (Z.of_nat (length l)) /\ coherent s' M' /\ same_params s s' /\
    vbytes pr' M' a m (get_bytes buf off m) /\ others_kept pr' M M' a m.
Proof.
  intros Hl. induction Hl as [a|a m m' l Hm0 Em Hl IH]; intros Hm Ha Hb pr s M off Hp Ht Hch Hsn Hr Ho Hlen; cbn [fold_chunks length].
  { exists pr, s, M. rewrite Z.add_0_r. split_and!; try done; [apply grows_refl|intros i Hi; lia]. }
  destruct (chunk_in_page a m m' Hm0 Em) as [Hle Hfit]. specialize (Hb ltac:(lia)). cbn [length] in Hr.
  destruct (translate_alloc_ok pr a Hp) as (x & pr1 & -> & Hp1 & Hg1 & Hx); [unfold room in *; lia|lia|]. cbn [mbind res_bind].
  pose proof (gr_total _ _ _ Hg1) as Et1. pose proof (pk_ptr _ Hp1) as (_ & P2 & _).
  pose proof (tr_range pr1 Hp1 a x ltac:(lia) Hx) as (X1 & _).
  pose proof (frame_region pr1 a x m' Hp1 ltac:(lia) ltac:(lia) Hx Hfit) as Hreg.
  destruct (writeBlobPhys_ok k world 0 hi n B rid 0 p Hport s M x (drop (Z.to_nat off) buf) m') as (s1 & -> & Hch1 & Hsp1); try done;
    [lia|lia|rewrite length_drop; lia|]. cbn [mbind res_bind].
  rewrite get_bytes_at, Z.sub_0_r in Hch1 by lia. destruct (Hreg Hm0) as [[R1 R2] _].
  assert (Z.of_nat (length (get_bytes buf off m')) = m') as Hgl by (apply get_bytes_length; lia).
  pose proof (ch_length _ _ _ _ _ _ _ Hch) as HM. set (M1 := put_bytes M x (get_bytes buf off m')) in *.
  assert (exists pr' s' M', fold_chunks (fun a size '(off, pr, s) =>
       '(paddr, pr) ← translate_alloc Always a pr;
       match paddr with
       | None => Ok (false, (off, pr, s))
       | Some paddr =>
         s ← writeBlobPhys (func_send p) (2 ^ k) rid paddr 0 (drop (Z.to_nat off) buf) size s;
         Ok (true, (off + size, pr, s))
       end) l (off + m', pr1, s1) = Ok (true, (off + m, pr', s')) /\
    proc_ok pr' /\ grows pr1 pr' (Z.of_nat (length l)) /\ coherent s' M' /\ same_params s1 s' /\
    vbytes pr' M' (a + m') (m - m') (get_bytes buf (off + m') (m - m')) /\ others_kept pr' M1 M' (a + m') (m - m'))
    as (pr' & s' & M' & -> & Hp' & Hg' & Hch' & Hsp' & Hvb & Hk).
  { destruct (decide (m = m')) as [<-|Hne].
    - rewrite Z.sub_diag in Hl. apply chunked_nil_inv in Hl as ->; [|done]. exists pr1, s1, M1. cbn [fold_chunks length].
      split_and!; try done; [apply grows_refl|]. intros i Hi. lia.
    - rewrite (wrap_u_id 64) in * by lia.
      destruct (IH ltac:(lia) ltac:(lia) ltac:(lia) pr1 s1 M1 (off + m')) as (pr' & s' & M' & E & H); try done; try lia.
      + by eapply snoops_same.
      + eapply room_grows; [exact Hg1| |lia]. by replace (1 + Z.of_nat (length l)) with (Z.of_nat (S (length l))) by lia.
      + exists pr', s', M'. split; [|done]. rewrite E. by replace (off + m' + (m - m')) with (off + m) by lia. }
  assert (forall j, 0 <= j < m' -> translate (a + j) (pr_pTable pr') = Some (x + j)) as Htr.
  { intros j Hj. eapply tr_grows; [exact Hp1|exact Hp'|exact Hg'|lia|]. apply tr_next; (done || lia). }
  exists pr', s', M'. split; [done|]. split; [done|]. split.
  { eapply grows_le; [by eapply grows_trans|lia]. }
  split; [done|]. split; [by eapply same_params_trans|]. split.
  - intros i Hi. destruct (decide (i < m')) as [Hlt|Hge].
    + exists (x + i). split; [apply Htr; lia|]. rewrite (Hk (a + i) (x + i)) by (lia || (apply Htr; lia)). unfold M1.
      rewrite put_bytes_lookup by lia. rewrite decide_True by lia. rewrite !get_bytes_lookup, !decide_True by lia. f_equal. lia.
    + destruct (Hvb (i - m')) as (y & Ey & Hy); [lia|]. exists y. replace (a + m' + (i - m')) with (a + i) in Ey by lia. split; [done|].
      rewrite Hy, !get_bytes_lookup, !decide_True by lia. f_equal. lia.
  - intros b y Hb64 Hnb Hy. rewrite (Hk b y) by (done || lia). unfold M1. rewrite put_bytes_lookup by lia. rewrite decide_False; [done|].
    intros Hin. pose proof (tr_range pr' Hp' b y Hb64 Hy) as (Y1 & _).
    assert (b = a + (y - x)) as ->; [|lia]. apply (tr_inj pr' Hp' _ _ y); [done|lia|done|]. rewrite Htr by lia. f_equal. lia.
Qed.
End Blobs.

(** ** Writing and reading back *)

Section RoundTrip.
Context {T D : Type} `{!BaseTags T D, !BaseTagsLaws T D} (k : Z) (world : Z -> bool) (hi n : Z) (B : mem_bounds k 0 hi).
Context (Hw : forall b, in_mem 0 hi b -> world (align k b) = false).
Implicit Types (s : Sys T D) (M buf : list Z) (p q : FuncPort).
Local Abbreviation coherent := (coherent k world 0 hi n).

(** C13 (virtual blobs round trip).  A proxy that allocates pages writes any
    region of virtual addresses, mapped or not, and another reads the bytes back
    through the page table, the chunks of pages and of lines, and the caches;
    the pages keep frames of their own and no other mapped byte changes. *)
Theorem se_blob_roundtrip s M pr p q rid rid' addr buf buf' size :
  coherent s M -> snoops_caches n s -> port_ok n p -> port_ok n q -> proc_ok pr -> totalSize pr <= hi + 1 -> room pr (size / 4096 + 2) ->
  0 <= addr < 2 ^ 64 -> 0 <= size < 2 ^ 31 -> addr + size <= 2 ^ 64 -> size <= Z.of_nat (length buf) -> size <= Z.of_nat (length buf') ->
  exists pr' s', tryWriteBlob (func_send p) (2 ^ k) rid Always addr buf size pr s = Ok (true, pr', s') /\
    tryReadBlob (func_send q) (2 ^ k) rid' addr buf' size pr' s' = Ok (true, put_bytes buf' 0 (take (Z.to_nat size) buf), s') /\
    proc_ok pr' /\ exists M', coherent s' M' /\ others_kept pr' M M' addr size.
Proof.
  intros Hch Hsn Hp Hq Hpr Ht Hroom Ha Hs Hend Hl Hl'. unfold tryWriteBlob, tryReadBlob. rewrite (wrap_u_id 32) by lia.
  match goal with |- context [chunk_loop _ _ _ ?b (0, pr, s)] => destruct (chunk_loop_ok 12 ltac:(lia) b addr size Ha ltac:(lia)) as (l & Hc & E) end.
  change PageBytes with (2 ^ 12). rewrite E. clear E.
  pose proof (chunked_count 12 addr size l ltac:(lia) ltac:(lia) Hc) as Hcount. change (2 ^ 12) with 4096 in Hcount, Hc.
  pose proof (Z.mod_pos_bound addr 4096 ltac:(lia)). pose proof (Z.div_mod size 4096 ltac:(lia)). pose proof (Z.mod_pos_bound size 4096 ltac:(lia)).
  destruct (write_pages k world hi n B Hw rid p Hp buf addr size l Hc ltac:(lia) ltac:(lia) ltac:(lia) pr s M 0) as
    (pr' & s' & M' & -> & Hpr' & Hg & Hch' & Hsp & Hvb & Hk); try done; [unfold room in *; lia|].
  cbn [mbind res_bind]. exists pr', s'. split; [done|]. split; [|by split; [|exists M']].
  match goal with |- context [chunk_loop _ _ _ ?b (buf', 0, s')] => destruct (chunk_loop_ok 12 ltac:(lia) b addr size Ha ltac:(lia)) as (l' & Hc' & ->) end.
  change (2 ^ 12) with 4096 in Hc'. rewrite (read_pages k world hi n B Hw rid' q Hq pr' s' M' addr size l' Hc' Hpr') with (v := get_bytes buf 0 size);
    try done; try lia; [by rewrite (gr_total _ _ _ Hg)|by eapply snoops_same|by apply get_bytes_length; lia].
Qed.

(** A proxy that may not allocate refuses a region that is not mapped, after
    the bytes before it. *)
Lemma never_allocates s pr p rid addr buf size : 0 <= addr < 2 ^ 64 -> 0 < size < 2 ^ 31 -> translate addr (pr_pTable pr) = None ->
  tryWriteBlob (func_send p) (2 ^ k) rid Never addr buf size pr s = Ok (false, pr, s) /\
  tryReadBlob (func_send p) (2 ^ k) rid addr buf size pr s = Ok (false, buf, s).
Proof.
  intros Ha Hs Hn. unfold tryWriteBlob, tryReadBlob. rewrite (wrap_u_id 32) by lia. change PageBytes with (2 ^ 12).
  assert (forall A (body : Z -> Z -> A -> res (bool * A)) acc, (forall m, body addr m acc = Ok (false, acc)) ->
    chunk_loop addr size (2 ^ 12) body acc = Ok (false, acc)) as Hgo.
  { intros A body acc Hb. destruct (chunk_loop_ok 12 ltac:(lia) body addr size Ha ltac:(lia)) as (l & Hc & ->).
    inversion Hc as [|a' n' m l2 Hm Em Hc']; subst; [lia|]. cbn [fold_chunks]. by rewrite Hb. }
  split; rewrite Hgo; try done; intros m; unfold translate_alloc; rewrite Hn; done.
Qed.
End RoundTrip.

(** * The stack *)

(** [grow_stack] maps the pages from that of [vaddr] to the stack. *)
Lemma grow_stack_ok c : forall pr vaddr smin fuel, proc_ok pr -> room pr (Z.of_nat c) -> 0 <= vaddr -> smin mod 4096 = 0 -> smin <= 2 ^ 64 - 4096 ->
  vaddr / 4096 * 4096 + Z.of_nat c * 4096 = smin -> (c < fuel)%nat ->
  0 <= stackBase pr - smin -> stackBase pr - vaddr / 4096 * 4096 <= maxStackSize pr -> stackBase pr < 2 ^ 64 ->
  (forall v, vaddr / 4096 * 4096 <= v < smin -> pTable (pr_pTable pr) !! v = None) ->
  exists pr', grow_stack fuel vaddr smin pr = Ok (vaddr / 4096 * 4096, pr') /\ proc_ok pr' /\ grows pr pr' (Z.of_nat c) /\
    (forall v, vaddr / 4096 * 4096 <= v < smin -> v mod 4096 = 0 -> pTable (pr_pTable pr') !! v <> None) /\
    forall v, ~ vaddr / 4096 * 4096 <= v < smin -> pTable (pr_pTable pr') !! v = pTable (pr_pTable pr) !! v.
Proof.
  induction c as [|c IH]; intros pr vaddr smin fuel Hp Hr H0 Hm Hs Ec Hf Hb1 Hb2 Hb3 Hfree; (destruct fuel; [lia|]); cbn [grow_stack].
  - pose proof (Z.div_mod vaddr 4096 ltac:(lia)). pose proof (Z.mod_pos_bound vaddr 4096 ltac:(lia)).
    destruct (Z.ltb_spec vaddr smin); [lia|]. exists pr. replace smin with (vaddr / 4096 * 4096) by lia.
    split; [done|]. split; [done|]. split; [apply grows_refl|]. split; [intros v Hv; lia|done].
  - pose proof (Z.div_mod vaddr 4096 ltac:(lia)). pose proof (Z.mod_pos_bound vaddr 4096 ltac:(lia)).
    destruct (Z.ltb_spec vaddr smin); [|lia]. change PageBytes with 4096 at 1 2 3.
    pose proof (Z.div_pos vaddr 4096 ltac:(lia) ltac:(lia)). rewrite (wrap_u_id 64 (smin - 4096)) by lia. rewrite (wrap_u_id 64) by lia.
    destruct (Z.ltb_spec (maxStackSize pr) (stackBase pr - (smin - 4096))); [lia|]. cbn [negb].
    assert ((smin - 4096) mod 4096 = 0) as Hm' by (rewrite Zminus_mod, Hm, Z_mod_same_full; done).
    destruct (allocateMem_ok pr (smin - 4096)) as (pr1 & -> & Hp1 & Hg1 & _ & Hn1 & Ho1); try done; try lia; [unfold room in *; lia|apply Hfree; lia|].
    cbn [mbind res_bind]. pose proof (gr_stack _ _ _ Hg1) as [Eb Em].
    destruct (IH pr1 vaddr (smin - 4096) fuel) as (pr' & -> & Hp' & Hg' & Hall & Hout); try done; try lia.
    + eapply room_grows; [exact Hg1| |lia]. by replace (1 + Z.of_nat c) with (Z.of_nat (S c)) by lia.
    + intros v Hv. rewrite Ho1 by lia. apply Hfree. lia.
    + exists pr'. split; [done|]. split; [done|]. split; [eapply grows_le; [by eapply grows_trans|lia]|].
      split; [|intros v Hv; rewrite Hout, Ho1 by lia; done].
      intros v Hv Hvm. destruct (decide (v < smin - 4096)) as [Hlt|Hge]; [apply Hall; (done || lia)|].
      pose proof (Z.div_mod v 4096 ltac:(lia)). pose proof (Z.div_mod smin 4096 ltac:(lia)). assert (v = smin - 4096) as -> by lia.
      destruct (pTable (pr_pTable pr1) !! (smin - 4096)) as [e|] eqn:E; [|done]. by rewrite (gr_pages _ _ _ Hg' _ _ E).
Qed.

(** C30 (the stack grows).  A fault below the stack, within its maximum size,
    maps exactly the pages from that of the address to the old end of the stack,
    each with a frame of its own, and moves the end of the stack there; any
    other fault outside the stack changes nothing and is reported. *)
Theorem stack_grows pr vaddr : proc_ok pr -> 0 <= vaddr < stackMin pr -> stackMin pr <= stackBase pr < 2 ^ 64 - 4096 ->
  stackMin pr mod 4096 = 0 -> 0 <= maxStackSize pr <= stackBase pr -> (stackBase pr - maxStackSize pr) mod 4096 = 0 ->
  (forall v, stackBase pr - maxStackSize pr <= v < stackMin pr -> pTable (pr_pTable pr) !! v = None) ->
  room pr ((stackMin pr - vaddr / 4096 * 4096) / 4096) ->
  if decide (stackBase pr - maxStackSize pr <= vaddr) then
    exists pr', fixupStackFault vaddr pr = Ok (true, pr') /\ proc_ok pr' /\ stackMin pr' = vaddr / 4096 * 4096 /\
      forall a, 0 <= a < 2 ^ 64 -> translate a (pr_pTable pr') <> None <->
        translate a (pr_pTable pr) <> None \/ stackMin pr' <= a < stackMin pr
  else fixupStackFault vaddr pr = Ok (false, pr).
Proof.
  intros Hp Hv Hs Hsm Hmx Hmm Hfree Hroom. pose proof (pk_ptr _ Hp) as (P1 & _). unfold fixupStackFault.
  destruct (Z.leb_spec (stackMin pr) vaddr); [lia|]. cbn [andb]. destruct (Z.ltb_spec vaddr (stackMin pr)); [|lia]. cbn [andb].
  pose proof (Z.div_mod vaddr 4096 ltac:(lia)). pose proof (Z.mod_pos_bound vaddr 4096 ltac:(lia)). pose proof (Z.div_mod (stackMin pr) 4096 ltac:(lia)).
  pose proof (Z.div_pos vaddr 4096 ltac:(lia) ltac:(lia)).
  destruct (decide (stackBase pr - maxStackSize pr <= vaddr)) as [Hin|Hout].
  - assert (stackBase pr - maxStackSize pr <= vaddr / 4096 * 4096) as Hpg.
    { pose proof (Z.div_mod (stackBase pr - maxStackSize pr) 4096 ltac:(lia)). lia. }
    assert ((stackMin pr - vaddr / 4096 * 4096) / 4096 = stackMin pr / 4096 - vaddr / 4096) as Ec.
    { replace (stackMin pr - vaddr / 4096 * 4096) with ((stackMin pr / 4096 - vaddr / 4096) * 4096) by lia. by apply Z.div_mul. }
    rewrite Ec in Hroom.
    rewrite wrap_u_id by lia. rewrite (proj2 (Z.leb_le _ _)) by done.
    destruct (grow_stack_ok (Z.to_nat (stackMin pr / 4096 - vaddr / 4096)) pr vaddr (stackMin pr)
      (S (Z.to_nat ((stackMin pr - vaddr) / PageBytes + 1)))) as (pr' & -> & Hp' & Hg & Hall & Hrest); try done; try lia.
    + by rewrite Z2Nat.id by lia.
    + change PageBytes with 4096. assert (stackMin pr / 4096 - vaddr / 4096 - 1 <= (stackMin pr - vaddr) / 4096) by (apply Z.div_le_lower_bound; lia).
      pose proof (Z.div_pos (stackMin pr - vaddr) 4096 ltac:(lia) ltac:(lia)). lia.
    + intros v Hv'. apply Hfree. lia.
    + cbn [mbind res_bind]. exists (setStackMin pr' (vaddr / 4096 * 4096)). split; [done|]. split; [by destruct Hp'|]. split; [done|].
      intros a Ha. cbn [setStackMin pr_pTable stackMin].
      assert (forall q, proc_ok q -> translate a (pr_pTable q) <> None <-> pTable (pr_pTable q) !! (a / 4096 * 4096) <> None) as Htr.
      { intros q Hq. rewrite (translate_at 12 ltac:(lia)) by (done || apply Hq). change (2 ^ 12) with 4096. by destruct (pTable (pr_pTable q) !! _). }
      rewrite !Htr by done. pose proof (Z.div_mod a 4096 ltac:(lia)). pose proof (Z.mod_pos_bound a 4096 ltac:(lia)).
      destruct (decide (vaddr / 4096 * 4096 <= a / 4096 * 4096 < stackMin pr)) as [Hr|Hr].
      * split; [intros _; right; lia|intros _]. apply Hall; [done|apply Z_mod_mult].
      * rewrite Hrest by done. split; [by left|]. intros [?|Hr2]; [done|]. exfalso. apply Hr. lia.
  - rewrite wrap_u_id by lia. rewrite (proj2 (Z.leb_gt _ _)) by lia. done.
Qed.

(** * Frames near the m5 operations *)

(** C37 (frames that overlap).  When the next frame would be the first of the m5
    operations, [allocPhysPages] returns 0xffffffff, which is not the start of
    a page, and then hands out the last page below 4 GiB, which belongs to the
    m5 operations, and the first page above: both overlap the frame returned. *)
Theorem m5op_frames_overlap pr : pagePtr pr = 0xfffef -> 0x100001000 <= totalSize pr < 2 ^ 64 ->
  exists a pr1 b pr2 c pr3, allocPhysPages 1 pr = Ok (a, pr1) /\ allocPhysPages 1 pr1 = Ok (b, pr2) /\ allocPhysPages 1 pr2 = Ok (c, pr3) /\
    a mod PageBytes <> 0 /\ contains m5opRange b = true /\
    b < a < b + PageBytes /\ a < c < a + PageBytes.
Proof.
  intros Hp Ht. exists 0xffffffff. eexists. exists 0xfffff000. eexists. exists 0x100000000. eexists.
  unfold allocPhysPages at 1. rewrite Hp. change (contains m5opRange _) with true. cbn iota beta.
  change (u64 _) with 0xfffff000 at 1. destruct (Z.ltb_spec (totalSize pr) 0xfffff000); [lia|]. cbn [negb].
  split; [done|]. unfold allocPhysPages at 1. cbn [with_pagePtr pagePtr totalSize]. change (contains m5opRange _) with false. cbn iota beta.
  change (totalSize pr <? _) with (totalSize pr <? 0x100000000). destruct (Z.ltb_spec (totalSize pr) 0x100000000); [lia|]. cbn [negb].
  split; [done|]. unfold allocPhysPages at 1. cbn [with_pagePtr pagePtr totalSize]. change (contains m5opRange _) with false. cbn iota beta.
  change (totalSize pr <? _) with (totalSize pr <? 0x100001000). destruct (Z.ltb_spec (totalSize pr) 0x100001000); [lia|]. cbn [negb].
  split; [done|]. by split_and!.
Qed.

(** * A process *)

(** With [size] bytes of physical memory and no page yet. *)
Definition ex_process (t : EmulationPageTable) (size : Z) : Process :=
  {| pr_pTable := t; stackBase := 0x10000; stackMin := 0x10000; maxStackSize := 0x8000; pagePtr := 0; totalSize := size |}.

Lemma ex_process_ok size : 0 <= size < 2 ^ 64 -> exists t, EmulationPageTable_new ex_policy PageBytes = Ok t /\ proc_ok (ex_process t size) /\ pTable t = ∅.
Proof.
  intros Hs. destruct (new_pt_ok 12 ltac:(lia) ex_policy) as (t & E & Ht & Hm). exists t. split; [done|]. split; [|done].
  split; cbn [ex_process pr_pTable pagePtr totalSize]; rewrite ?Hm; [done|by intros v e|by intros v v' e e'|lia].
Qed.

Example se_blob_roundtrip_witness : exists s pr pr' s', ex_system_at (replicate 8192 0) mostly_incl = Ok s /\
  tryWriteBlob (func_send (BusPort 2)) 8 9 Always 0x3ffe [1; 2; 3; 4] 4 pr s = Ok (true, pr', s') /\
  tryReadBlob (func_send (CpuPort 0)) 8 9 0x3ffe [0; 0; 0; 0] 4 pr' s' = Ok (true, [1; 2; 3; 4], s').
Proof.
  destruct (ex_process_ok 8192 ltac:(lia)) as (t & _ & Hp & _).
  assert (exists s, ex_system_at (replicate 8192 0) mostly_incl = Ok s) as [s E] by (eexists; vm_compute; reflexivity).
  assert (Z.of_nat (length (replicate 8192 0)) - 1 = 8191) as Eh by (by rewrite length_replicate).
  pose proof (ex_system_at_fresh _ s E) as Hf. rewrite Eh in Hf.
  assert (mem_bounds 3 0 8191) as B by by split.
  destruct (se_blob_roundtrip 3 (fun _ => false) 8191 2 B (fun _ _ => eq_refl) s (replicate 8192 0) (ex_process t 8192) (BusPort 2) (CpuPort 0) 9 9
    0x3ffe [1; 2; 3; 4] [0; 0; 0; 0] 4) as (pr' & s' & H1 & H2 & _).
  - by apply (fresh_coherent 3 (fun _ => false) 0 8191 2 B).
  - by apply (ex_snoops (replicate 8192 0)).
  - cbn. lia.
  - cbn. lia.
  - exact Hp.
  - cbn. lia.
  - split; reflexivity || (cbn; lia).
  - lia.
  - lia.
  - lia.
  - cbn. lia.
  - cbn. lia.
  - exists s, (ex_process t 8192), pr', s'. split; [exact E|]. split; [exact H1|exact H2].
Defined.

Example stack_grows_witness : exists pr pr', fixupStackFault 0xdf00 pr = Ok (true, pr') /\ stackMin pr = 0x10000 /\ stackMin pr' = 0xd000.
Proof.
  destruct (ex_process_ok 0x100000 ltac:(lia)) as (t & _ & Hp & Hm). exists (ex_process t 0x100000).
  pose proof (stack_grows (ex_process t 0x100000) 0xdf00 Hp) as H. rewrite decide_True in H by by vm_compute.
  destruct H as (pr' & H1 & _ & H3 & _); try done; [|by exists pr'].
  intros v _. cbn [ex_process pr_pTable]. by rewrite Hm.
Defined.

Example m5op_frames_overlap_witness : exists pr a pr1 b pr2, pagePtr pr = 0xfffef /\ allocPhysPages 1 pr = Ok (a, pr1) /\
  allocPhysPages 1 pr1 = Ok (b, pr2) /\ b < a < b + PageBytes.
Proof.
  destruct (ex_process_ok (2 ^ 33) ltac:(lia)) as (t & _). set (pr := with_pagePtr (ex_process t (2 ^ 33)) 0xfffef).
  destruct (m5op_frames_overlap pr) as (a & pr1 & b & pr2 & c & pr3 & H1 & H2 & _ & _ & _ & H4 & _); [done|done|].
  by exists pr, a, pr1, b, pr2.
Defined.
