(* ===== verification/Fplib.v ===== *)
(** The floating-point library of the ARM instructions,
    src/arch/arm/insts/fplib.hh and fplib.cc: binary16, binary32 and binary64 in
    integer arithmetic.

    The functions of different widths that differ in their constants only are
    one function of a [Format]; their instances have the names of the code.  Bit
    patterns and significands are [Z] in the range of their unsigned type, with
    the conversions written out; exponents are [Z], since none leaves the range of
    [int].  A function with a pointer to the flags returns the new flags last. *)
From S2P Require Import Prelude.

(** * Constants *)

Definition FPLIB_RN : Z := 0.
Definition FPLIB_RP : Z := 1.
Definition FPLIB_RM : Z := 2.
Definition FPLIB_RZ : Z := 3.
Definition FPLIB_FZ : Z := 4.
Definition FPLIB_DN : Z := 8.
Definition FPLIB_AHP : Z := 16.
Definition FPLIB_IDC : Z := 128.
Definition FPLIB_IXC : Z := 16.
Definition FPLIB_UFC : Z := 8.
Definition FPLIB_OFC : Z := 4.
Definition FPLIB_DZC : Z := 2.
Definition FPLIB_IOC : Z := 1.

(** [enum FPRounding] *)
Definition FPRounding_TIEEVEN : Z := 0.
Definition FPRounding_POSINF : Z := 1.
Definition FPRounding_NEGINF : Z := 2.
Definition FPRounding_ZERO : Z := 3.
Definition FPRounding_TIEAWAY : Z := 4.
Definition FPRounding_ODD : Z := 5.

(** [f_W] bits, [f_P] of them mantissa, [f_E] exponent; [f_low]: the mask of the
    bits that rounding collapses. *)
Record Format := { f_W : Z; f_P : Z; f_E : Z; f_low : Z; f_half : bool }.
Definition F16 : Format := {| f_W := 16; f_P := 10; f_E := 5; f_low := 31; f_half := true |}.
Definition F32 : Format := {| f_W := 32; f_P := 23; f_E := 8; f_low := 255; f_half := false |}.
Definition F64 : Format := {| f_W := 64; f_P := 52; f_E := 11; f_low := 1023; f_half := false |}.

(** [!!z] and [mode & m] as truth values. *)
Definition nz (z : Z) : bool := negb (z =? 0).
Definition test (mode m : Z) : bool := nz (Z.land mode m).

(** * Shifts *)

Definition lsl (W x shift : Z) : Z := if u32 shift <? W then wrap_u W (Z.shiftl x (u32 shift)) else 0.
Definition lsr (W x shift : Z) : Z := if u32 shift <? W then Z.shiftr x (u32 shift) else 0.
Definition lsl16 := lsl 16.
Definition lsr16 := lsr 16.
Definition lsl32 := lsl 32.
Definition lsr32 := lsr 32.
Definition lsl64 := lsl 64.
Definition lsr64 := lsr 64.

(** Pairs of words, the lower first. *)
Definition lsl128 (x0 x1 shift : Z) : Z * Z :=
  let shift := u32 shift in
  if shift =? 0 then (x0, x1)
  else if shift <? 64 then (u64 (Z.shiftl x0 shift), Z.lor (u64 (Z.shiftl x1 shift)) (Z.shiftr x0 (64 - shift)))
  else if shift <? 128 then (0, u64 (Z.shiftl x0 (shift - 64)))
  else (0, 0).
Definition lsr128 (x0 x1 shift : Z) : Z * Z :=
  let shift := u32 shift in
  if shift =? 0 then (x0, x1)
  else if shift <? 64 then (Z.lor (Z.shiftr x0 shift) (u64 (Z.shiftl x1 (64 - shift))), Z.shiftr x1 shift)
  else if shift <? 128 then (Z.shiftr x1 (shift - 64), 0)
  else (0, 0).

Definition mul62x62 (a b : Z) : Z * Z :=
  let mask := u32 (u32 (Z.shiftl 1 31) - 1) in
  let a0 := Z.land a mask in
  let a1 := Z.land (Z.shiftr a 31) mask in
  let b0 := Z.land b mask in
  let b1 := Z.land (Z.shiftr b 31) mask in
  let p0 := u64 (a0 * b0) in
  let p2 := u64 (a1 * b1) in
  let p1 := u64 (u64 ((a0 + a1) * (b0 + b1)) - p0 - p2) in
  let s0 := p0 in
  let s1 := u64 (Z.shiftr s0 31 + p1) in
  let s2 := u64 (Z.shiftr s1 31 + p2) in
  (Z.lor (Z.lor (Z.land s0 mask) (u64 (Z.shiftl (Z.land s1 mask) 31))) (u64 (Z.shiftl s2 62)), Z.shiftr s2 2).

Definition mul64x32 (a b : Z) : Z * Z :=
  let t0 := u64 (u32 a * b) in
  let t1 := u64 (Z.shiftr t0 32 + u64 (Z.shiftr a 32 * b)) in
  (Z.lor (u64 (Z.shiftl t1 32)) (u32 t0), Z.shiftr t1 32).

Definition add128 (a0 a1 b0 b1 : Z) : Z * Z :=
  let x0 := u64 (a0 + b0) in (x0, u64 (a1 + b1 + Z.b2z (x0 <? a0))).
Definition sub128 (a0 a1 b0 b1 : Z) : Z * Z :=
  let x0 := u64 (a0 - b0) in (x0, u64 (a1 - b1 - Z.b2z (a0 <? x0))).
Definition cmp128 (a0 a1 b0 b1 : Z) : Z :=
  if a1 <? b1 then -1 else if b1 <? a1 then 1 else if a0 <? b0 then -1 else if b0 <? a0 then 1 else 0.

(** * Packing and unpacking *)

(** The loop for the shifts [2 ^ (k - 1)], ..., [2], [1]. *)
Fixpoint normalise_loop (W : Z) (k : nat) (mnt exp : Z) : Z * Z :=
  match k with
  | O => (mnt, exp)
  | S k =>
    let shift := 2 ^ Z.of_nat k in
    if Z.shiftr mnt (W - shift) =? 0 then normalise_loop W k (wrap_u W (Z.shiftl mnt shift)) (exp - shift)
    else normalise_loop W k mnt exp
  end.
Definition fp16_normalise (mnt exp : Z) : Z * Z := if mnt =? 0 then (0, exp) else normalise_loop 16 4 mnt exp.
Definition fp32_normalise (mnt exp : Z) : Z * Z := if mnt =? 0 then (0, exp) else normalise_loop 32 5 mnt exp.
Definition fp64_normalise (mnt exp : Z) : Z * Z := if mnt =? 0 then (0, exp) else normalise_loop 64 6 mnt exp.
Definition normalise (F : Format) : Z -> Z -> Z * Z :=
  if f_W F =? 16 then fp16_normalise else if f_W F =? 32 then fp32_normalise else fp64_normalise.

Fixpoint normalise128_loop (k : nat) (x0 x1 exp : Z) : Z * Z * Z :=
  match k with
  | O => (x0, x1, exp)
  | S k =>
    let shift := 2 ^ Z.of_nat k in
    if Z.shiftr x1 (64 - shift) =? 0 then
      normalise128_loop k (u64 (Z.shiftl x0 shift)) (Z.lor (u64 (Z.shiftl x1 shift)) (Z.shiftr x0 (64 - shift))) (exp - shift)
    else normalise128_loop k x0 x1 exp
  end.
Definition fp128_normalise (mnt0 mnt1 exp : Z) : Z * Z * Z :=
  if (mnt0 =? 0) && (mnt1 =? 0) then (mnt0, mnt1, exp)
  else
    let '(x0, x1, exp) := if mnt1 =? 0 then (0, mnt0, exp - 64) else (mnt0, mnt1, exp) in
    normalise128_loop 6 x0 x1 exp.

Section Packing.
Context (F : Format).
Local Abbreviation W := (f_W F).
Local Abbreviation P := (f_P F).

(** The largest exponent, of infinities and NaNs. *)
Definition top_exp : Z := 2 ^ f_E F - 1.

Definition pack (sgn exp mnt : Z) : Z :=
  wrap_u W (Z.lor (Z.lor (Z.shiftl (wrap_u W sgn) (W - 1)) (Z.shiftl (wrap_u W exp) P)) (Z.land (wrap_u W mnt) (2 ^ P - 1))).
Definition zero (sgn : Z) : Z := pack sgn 0 0.
Definition max_normal (sgn : Z) : Z := pack sgn (top_exp - 1) (-1).
Definition infinity (sgn : Z) : Z := pack sgn top_exp 0.
Definition defaultNaN : Z := pack 0 top_exp (Z.shiftl 1 (P - 1)).

(** Returns the sign, the exponent, the mantissa and the flags. *)
Definition unpack (x mode flags : Z) : Z * Z * Z * Z :=
  let sgn := Z.shiftr x (W - 1) in
  let exp := Z.land (Z.shiftr x P) top_exp in
  let mnt := Z.land x (2 ^ P - 1) in
  if nz exp then (sgn, exp, Z.lor mnt (2 ^ P), flags)
  else
    let exp := exp + 1 in
    if negb (f_half F) && test mode FPLIB_FZ && nz mnt then (sgn, exp, 0, Z.lor flags FPLIB_IDC)
    else (sgn, exp, mnt, flags).

(** Exponent and mantissa of an unpacked NaN: [(uint32_t)(mnt << 9)]. *)
Definition nan_parts (exp mnt : Z) : bool := (exp =? top_exp) && nz (wrap_u W (Z.shiftl mnt (W - P))).

Definition process_NaN (a mode flags : Z) : Z * Z :=
  let '(a, flags) :=
    if negb (nz (Z.land (Z.shiftr a (P - 1)) 1)) then (Z.lor a (Z.shiftl 1 (P - 1)), Z.lor flags FPLIB_IOC) else (a, flags) in
  (if test mode FPLIB_DN then defaultNaN else a, flags).

(** [exp == 255 && mnt] and whether it is signalling, of a bit pattern. *)
Definition is_nan (a : Z) : bool := (Z.land (Z.shiftr a P) top_exp =? top_exp) && nz (Z.land a (2 ^ P - 1)).
Definition is_snan (a : Z) : bool :=
  is_nan a && negb (nz (Z.land (Z.shiftr (Z.land a (2 ^ P - 1)) (P - 1)) 1)).

Definition process_NaNs (a b mode flags : Z) : Z * Z :=
  if is_snan a then process_NaN a mode flags
  else if is_snan b then process_NaN b mode flags
  else if is_nan a then process_NaN a mode flags
  else if is_nan b then process_NaN b mode flags
  else (0, flags).

Definition process_NaNs3 (a b c mode flags : Z) : Z * Z :=
  if is_snan a then process_NaN a mode flags
  else if is_snan b then process_NaN b mode flags
  else if is_snan c then process_NaN c mode flags
  else if is_nan a then process_NaN a mode flags
  else if is_nan b then process_NaN b mode flags
  else if is_nan c then process_NaN c mode flags
  else (0, flags).
End Packing.

(** Instances, with the names of the code. *)
Definition fp16_pack := pack F16.
Definition fp32_pack := pack F32.
Definition fp64_pack := pack F64.
Definition fp16_zero := zero F16.
Definition fp32_zero := zero F32.
Definition fp64_zero := zero F64.
Definition fp16_max_normal := max_normal F16.
Definition fp32_max_normal := max_normal F32.
Definition fp64_max_normal := max_normal F64.
Definition fp16_infinity := infinity F16.
Definition fp32_infinity := infinity F32.
Definition fp64_infinity := infinity F64.
Definition fp16_defaultNaN := defaultNaN F16.
Definition fp32_defaultNaN := defaultNaN F32.
Definition fp64_defaultNaN := defaultNaN F64.
Definition fp16_unpack := unpack F16.
Definition fp32_unpack := unpack F32.
Definition fp64_unpack := unpack F64.
Definition fp32_process_NaN := process_NaN F32.
Definition fp64_process_NaN := process_NaN F64.
Definition fp32_process_NaNs := process_NaNs F32.
Definition fp64_process_NaNs := process_NaNs F64.
Definition fp32_process_NaNs3 := process_NaNs3 F32.
Definition fp64_process_NaNs3 := process_NaNs3 F64.

(** * Rounding *)

(** An infinity, or the largest finite number, when a number overflows. *)
Definition overflows_to_inf (rm sgn : Z) : bool :=
  (rm =? FPLIB_RN) || ((rm =? FPLIB_RP) && (sgn =? 0)) || ((rm =? FPLIB_RM) && nz sgn).

Section Rounding.
Context (F : Format).
Local Abbreviation W := (f_W F).
Local Abbreviation P := (f_P F).

(** Whether to round up: [error] is 0, 1, 2 or 3, where 2 means that
    [int_mant] is wrong by exactly a half. *)
Definition rounds_up (rm sgn int_mant error : Z) : bool :=
  ((rm =? FPLIB_RN) && ((error =? 3) || ((error =? 2) && nz (Z.land int_mant 1)))) ||
  ((((rm =? FPLIB_RP) && (sgn =? 0)) || ((rm =? FPLIB_RM) && nz sgn)) && nz error).

(** The exponent, the mantissa and the error before rounding. *)
Definition split_mant (exp mnt : Z) : Z * Z * Z :=
  let mnt := Z.lor (Z.lor (2 ^ (P + 2)) (Z.shiftr mnt (W - P - 2))) (Z.b2z (nz (Z.land mnt (f_low F)))) in
  if 0 <? exp then (exp, Z.shiftr mnt 2, Z.land mnt 3)
  else (0, lsr W mnt (3 - exp),
        Z.lor (Z.land (lsr W mnt (1 - exp)) 3) (Z.b2z (nz (Z.land mnt (wrap_u W (lsl W 1 (1 - exp) - 1)))))).

Definition round_ (sgn exp mnt rm mode flags : Z) : res (Z * Z) :=
  assert! negb (rm =? FPRounding_TIEAWAY) ;;
  if negb (f_half F) && test mode FPLIB_FZ && (exp <? 1) then Ok (zero F sgn, Z.lor flags FPLIB_UFC)
  else
    let '(biased_exp, int_mant, error) := split_mant exp mnt in
    let flags := if (biased_exp =? 0) && nz error then Z.lor flags FPLIB_UFC else flags in
    let '(biased_exp, int_mant) :=
      if rounds_up rm sgn int_mant error then
        let int_mant := wrap_u W (int_mant + 1) in
        let biased_exp := if int_mant =? 2 ^ P then 1 else biased_exp in
        if int_mant =? 2 ^ (P + 1) then (biased_exp + 1, Z.shiftr int_mant 1) else (biased_exp, int_mant)
      else (biased_exp, int_mant) in
    let int_mant := if nz error && (rm =? FPRounding_ODD) then Z.lor int_mant 1 else int_mant in
    if negb (f_half F && test mode FPLIB_AHP) && (top_exp F <=? biased_exp) then
      Ok (if overflows_to_inf rm sgn then infinity F sgn else max_normal F sgn, Z.lor flags (Z.lor FPLIB_OFC FPLIB_IXC))
    else if f_half F && test mode FPLIB_AHP && (top_exp F + 1 <=? biased_exp) then
      Ok (pack F sgn (top_exp F) (-1), Z.lor flags FPLIB_IOC)
    else
      let flags := if nz error then Z.lor flags FPLIB_IXC else flags in
      Ok (pack F sgn biased_exp int_mant, flags).

Definition round (sgn exp mnt mode flags : Z) : res (Z * Z) := round_ sgn exp mnt (Z.land mode 3) mode flags.
End Rounding.

Definition fp16_round_ := round_ F16.
Definition fp32_round_ := round_ F32.
Definition fp64_round_ := round_ F64.
Definition fp32_round := round F32.
Definition fp64_round := round F64.

(** * Comparisons *)

Section Compare.
Context (F : Format).

Definition compare_eq (a b mode flags : Z) : Z * Z :=
  let '(a_sgn, a_exp, a_mnt, flags) := unpack F a mode flags in
  let '(b_sgn, b_exp, b_mnt, flags) := unpack F b mode flags in
  if nan_parts F a_exp a_mnt || nan_parts F b_exp b_mnt then
    (0, if (nan_parts F a_exp a_mnt && negb (nz (Z.land (Z.shiftr a (f_P F - 1)) 1))) ||
           (nan_parts F b_exp b_mnt && negb (nz (Z.land (Z.shiftr b (f_P F - 1)) 1)))
        then Z.lor flags FPLIB_IOC else flags)
  else (Z.b2z ((a =? b) || ((a_mnt =? 0) && (b_mnt =? 0))), flags).

(** [compare_ge] and [compare_gt] differ in the result for equal numbers. *)
Definition compare_order (if_equal a b mode flags : Z) : Z * Z :=
  let '(a_sgn, a_exp, a_mnt, flags) := unpack F a mode flags in
  let '(b_sgn, b_exp, b_mnt, flags) := unpack F b mode flags in
  if nan_parts F a_exp a_mnt || nan_parts F b_exp b_mnt then (0, Z.lor flags FPLIB_IOC)
  else if (a_mnt =? 0) && (b_mnt =? 0) then (if_equal, flags)
  else if negb (a_sgn =? b_sgn) then (b_sgn, flags)
  else if negb (a_exp =? b_exp) then (Z.lxor a_sgn (Z.b2z (b_exp <? a_exp)), flags)
  else if negb (a_mnt =? b_mnt) then (Z.lxor a_sgn (Z.b2z (b_mnt <? a_mnt)), flags)
  else (if_equal, flags).
Definition compare_ge := compare_order 1.
Definition compare_gt := compare_order 0.
End Compare.

Definition fp32_compare_eq := compare_eq F32.
Definition fp32_compare_ge := compare_ge F32.
Definition fp32_compare_gt := compare_gt F32.
Definition fp64_compare_eq := compare_eq F64.
Definition fp64_compare_ge := compare_ge F64.
Definition fp64_compare_gt := compare_gt F64.

(** * Addition *)

(** Shift right by [n], the bits shifted out collapsed into the last: the
    [lsr32(m, n) | !!(m & (lsl32(1, n) - 1))] of the code. *)
Definition align (W m n : Z) : Z := Z.lor (lsr W m n) (Z.b2z (nz (Z.land m (wrap_u W (lsl W 1 n - 1))))).

Definition add (F : Format) (a b neg mode flags : Z) : res (Z * Z) :=
  let W := f_W F in
  let '(a_sgn, a_exp, a_mnt, flags) := unpack F a mode flags in
  let '(b_sgn, b_exp, b_mnt, flags) := unpack F b mode flags in
  let '(x, flags) := process_NaNs F a b mode flags in
  if nz x then Ok (x, flags)
  else
    let b_sgn := Z.lxor b_sgn neg in
    let top := top_exp F in
    if (a_exp =? top) && (b_exp =? top) && negb (a_sgn =? b_sgn) then Ok (defaultNaN F, Z.lor flags FPLIB_IOC)
    else if a_exp =? top then Ok (infinity F a_sgn, flags)
    else if b_exp =? top then Ok (infinity F b_sgn, flags)
    else if (a_mnt =? 0) && (b_mnt =? 0) && (a_sgn =? b_sgn) then Ok (zero F a_sgn, flags)
    else
      let a_mnt := wrap_u W (Z.shiftl a_mnt 3) in
      let b_mnt := wrap_u W (Z.shiftl b_mnt 3) in
      let '(a_mnt, b_mnt, x_exp) :=
        if b_exp <=? a_exp then (a_mnt, align W b_mnt (a_exp - b_exp), a_exp)
        else (align W a_mnt (b_exp - a_exp), b_mnt, b_exp) in
      let '(x_sgn, x_mnt) :=
        if a_sgn =? b_sgn then (a_sgn, wrap_u W (a_mnt + b_mnt))
        else if b_mnt <=? a_mnt then (a_sgn, wrap_u W (a_mnt - b_mnt))
        else (Z.lxor a_sgn 1, wrap_u W (b_mnt - a_mnt)) in
      if x_mnt =? 0 then Ok (zero F (Z.b2z (Z.land mode 3 =? 2)), flags)
      else
        let '(x_mnt, x_exp) := normalise F x_mnt x_exp in
        round F x_sgn (x_exp + (W - f_P F - 4)) (wrap_u W (Z.shiftl x_mnt 1)) mode flags.

Definition fp32_add := add F32.
Definition fp64_add := add F64.

(** * Multiplication *)

Definition fp32_mul (a b mode flags : Z) : res (Z * Z) :=
  let '(a_sgn, a_exp, a_mnt, flags) := fp32_unpack a mode flags in
  let '(b_sgn, b_exp, b_mnt, flags) := fp32_unpack b mode flags in
  let '(x, flags) := fp32_process_NaNs a b mode flags in
  if nz x then Ok (x, flags)
  else if ((a_exp =? 255) && (b_mnt =? 0)) || ((b_exp =? 255) && (a_mnt =? 0)) then Ok (fp32_defaultNaN, Z.lor flags FPLIB_IOC)
  else if (a_exp =? 255) || (b_exp =? 255) then Ok (fp32_infinity (Z.lxor a_sgn b_sgn), flags)
  else if (a_mnt =? 0) || (b_mnt =? 0) then Ok (fp32_zero (Z.lxor a_sgn b_sgn), flags)
  else
    let x_sgn := Z.lxor a_sgn b_sgn in
    let x_exp := a_exp + b_exp - 110 in
    let x_mnt := u64 (a_mnt * b_mnt) in
    let '(x_mnt, x_exp) := fp64_normalise x_mnt x_exp in
    let x_mnt := Z.lor (lsr64 x_mnt 31) (Z.b2z (nz (lsl64 x_mnt 33))) in
    fp32_round x_sgn x_exp (u32 x_mnt) mode flags.

Definition fp64_mul (a b mode flags : Z) : res (Z * Z) :=
  let '(a_sgn, a_exp, a_mnt, flags) := fp64_unpack a mode flags in
  let '(b_sgn, b_exp, b_mnt, flags) := fp64_unpack b mode flags in
  let '(x, flags) := fp64_process_NaNs a b mode flags in
  if nz x then Ok (x, flags)
  else if ((a_exp =? 2047) && (b_mnt =? 0)) || ((b_exp =? 2047) && (a_mnt =? 0)) then Ok (fp64_defaultNaN, Z.lor flags FPLIB_IOC)
  else if (a_exp =? 2047) || (b_exp =? 2047) then Ok (fp64_infinity (Z.lxor a_sgn b_sgn), flags)
  else if (a_mnt =? 0) || (b_mnt =? 0) then Ok (fp64_zero (Z.lxor a_sgn b_sgn), flags)
  else
    let x_sgn := Z.lxor a_sgn b_sgn in
    let x_exp := a_exp + b_exp - 1000 in
    let '(x0_mnt, x1_mnt) := mul62x62 a_mnt b_mnt in
    let '(x0_mnt, x1_mnt, x_exp) := fp128_normalise x0_mnt x1_mnt x_exp in
    let x0_mnt := Z.lor (u64 (Z.shiftl x1_mnt 1)) (Z.b2z (nz x0_mnt)) in
    fp64_round x_sgn x_exp x0_mnt mode flags.

(** * Multiplication and addition *)

Definition fp32_muladd (a b c scale mode flags : Z) : res (Z * Z) :=
  let '(a_sgn, a_exp, a_mnt, flags) := fp32_unpack a mode flags in
  let '(b_sgn, b_exp, b_mnt, flags) := fp32_unpack b mode flags in
  let '(c_sgn, c_exp, c_mnt, flags) := fp32_unpack c mode flags in
  let '(x, flags) := fp32_process_NaNs3 a b c mode flags in
  let '(x, flags) :=
    if (a_exp =? 255) && nz (Z.land (Z.shiftr a_mnt 22) 1) &&
       (((b_mnt =? 0) && (c_exp =? 255) && negb (nz (u32 (Z.shiftl c_mnt 9)))) ||
        ((c_mnt =? 0) && (b_exp =? 255) && negb (nz (u32 (Z.shiftl b_mnt 9)))))
    then (fp32_defaultNaN, Z.lor flags FPLIB_IOC) else (x, flags) in
  if nz x then Ok (x, flags)
  else if ((b_exp =? 255) && (c_mnt =? 0)) || ((c_exp =? 255) && (b_mnt =? 0)) ||
       ((a_exp =? 255) && ((b_exp =? 255) || (c_exp =? 255)) && negb (a_sgn =? Z.lxor b_sgn c_sgn))
  then Ok (fp32_defaultNaN, Z.lor flags FPLIB_IOC)
  else if a_exp =? 255 then Ok (fp32_infinity a_sgn, flags)
  else if (b_exp =? 255) || (c_exp =? 255) then Ok (fp32_infinity (Z.lxor b_sgn c_sgn), flags)
  else if (a_mnt =? 0) && ((b_mnt =? 0) || (c_mnt =? 0)) && (a_sgn =? Z.lxor b_sgn c_sgn) then Ok (fp32_zero a_sgn, flags)
  else
    let x_exp := a_exp + 13 in
    let x_mnt := u64 (Z.shiftl a_mnt 27) in
    let y_sgn := Z.lxor b_sgn c_sgn in
    let y_mnt := u64 (Z.shiftl (u64 (b_mnt * c_mnt)) 3) in
    let y_exp := if y_mnt =? 0 then x_exp else b_exp + c_exp - 113 in
    let '(x_mnt, y_mnt, x_exp) :=
      if y_exp <=? x_exp then (x_mnt, align 64 y_mnt (x_exp - y_exp), x_exp)
      else (align 64 x_mnt (y_exp - x_exp), y_mnt, y_exp) in
    let '(x_sgn, x_mnt) :=
      if a_sgn =? y_sgn then (a_sgn, u64 (x_mnt + y_mnt))
      else if y_mnt <=? x_mnt then (a_sgn, u64 (x_mnt - y_mnt))
      else (Z.lxor a_sgn 1, u64 (y_mnt - x_mnt)) in
    if x_mnt =? 0 then Ok (fp32_zero (Z.b2z (Z.land mode 3 =? 2)), flags)
    else
      let '(x_mnt, x_exp) := fp64_normalise x_mnt x_exp in
      let x_mnt := Z.lor (Z.shiftr x_mnt 31) (Z.b2z (nz (u32 (Z.shiftl x_mnt 1)))) in
      fp32_round x_sgn (x_exp + scale) (u32 x_mnt) mode flags.

(** [align] on 128 bits. *)
Definition align128 (m0 m1 n : Z) : Z * Z :=
  let '(t0, t1) := lsl128 m0 m1 (if n <? 128 then 128 - n else 0) in
  let '(m0, m1) := lsr128 m0 m1 n in
  (Z.lor m0 (Z.b2z (nz (Z.lor t0 t1))), m1).

Definition fp64_muladd (a b c scale mode flags : Z) : res (Z * Z) :=
  let '(a_sgn, a_exp, a_mnt, flags) := fp64_unpack a mode flags in
  let '(b_sgn, b_exp, b_mnt, flags) := fp64_unpack b mode flags in
  let '(c_sgn, c_exp, c_mnt, flags) := fp64_unpack c mode flags in
  let '(x, flags) := fp64_process_NaNs3 a b c mode flags in
  let '(x, flags) :=
    if (a_exp =? 2047) && nz (Z.land (Z.shiftr a_mnt 51) 1) &&
       (((b_mnt =? 0) && (c_exp =? 2047) && negb (nz (u64 (Z.shiftl c_mnt 12)))) ||
        ((c_mnt =? 0) && (b_exp =? 2047) && negb (nz (u64 (Z.shiftl b_mnt 12)))))
    then (fp64_defaultNaN, Z.lor flags FPLIB_IOC) else (x, flags) in
  if nz x then Ok (x, flags)
  else if ((b_exp =? 2047) && (c_mnt =? 0)) || ((c_exp =? 2047) && (b_mnt =? 0)) ||
       ((a_exp =? 2047) && ((b_exp =? 2047) || (c_exp =? 2047)) && negb (a_sgn =? Z.lxor b_sgn c_sgn))
  then Ok (fp64_defaultNaN, Z.lor flags FPLIB_IOC)
  else if a_exp =? 2047 then Ok (fp64_infinity a_sgn, flags)
  else if (b_exp =? 2047) || (c_exp =? 2047) then Ok (fp64_infinity (Z.lxor b_sgn c_sgn), flags)
  else if (a_mnt =? 0) && ((b_mnt =? 0) || (c_mnt =? 0)) && (a_sgn =? Z.lxor b_sgn c_sgn) then Ok (fp64_zero a_sgn, flags)
  else
    let x_exp := a_exp + 11 in
    let x0_mnt := 0 in
    let x1_mnt := a_mnt in
    let y_sgn := Z.lxor b_sgn c_sgn in
    let '(y0_mnt, y1_mnt) := mul62x62 b_mnt (u64 (Z.shiftl c_mnt 3)) in
    let y_exp := if (y0_mnt =? 0) && (y1_mnt =? 0) then x_exp else b_exp + c_exp - 1003 in
    let '(x0_mnt, x1_mnt, y0_mnt, y1_mnt, x_exp) :=
      if y_exp <=? x_exp then
        let '(y0_mnt, y1_mnt) := align128 y0_mnt y1_mnt (x_exp - y_exp) in (x0_mnt, x1_mnt, y0_mnt, y1_mnt, x_exp)
      else
        let '(x0_mnt, x1_mnt) := align128 x0_mnt x1_mnt (y_exp - x_exp) in (x0_mnt, x1_mnt, y0_mnt, y1_mnt, y_exp) in
    let '(x_sgn, (x0_mnt, x1_mnt)) :=
      if a_sgn =? y_sgn then (a_sgn, add128 x0_mnt x1_mnt y0_mnt y1_mnt)
      else if 0 <=? cmp128 x0_mnt x1_mnt y0_mnt y1_mnt then (a_sgn, sub128 x0_mnt x1_mnt y0_mnt y1_mnt)
      else (Z.lxor a_sgn 1, sub128 y0_mnt y1_mnt x0_mnt x1_mnt) in
    if (x0_mnt =? 0) && (x1_mnt =? 0) then Ok (fp64_zero (Z.b2z (Z.land mode 3 =? 2)), flags)
    else
      let '(x0_mnt, x1_mnt, x_exp) := fp128_normalise x0_mnt x1_mnt x_exp in
      let x0_mnt := Z.lor (u64 (Z.shiftl x1_mnt 1)) (Z.b2z (nz x0_mnt)) in
      fp64_round x_sgn (x_exp + scale) x0_mnt mode flags.

(** * Division *)

(** Unsigned division. *)
Definition udiv (a b : Z) : res Z := defined! nz b ;; Ok (a / b).

Definition fp32_div (a b mode flags : Z) : res (Z * Z) :=
  let '(a_sgn, a_exp, a_mnt, flags) := fp32_unpack a mode flags in
  let '(b_sgn, b_exp, b_mnt, flags) := fp32_unpack b mode flags in
  let '(x, flags) := fp32_process_NaNs a b mode flags in
  if nz x then Ok (x, flags)
  else if ((a_exp =? 255) && (b_exp =? 255)) || ((a_mnt =? 0) && (b_mnt =? 0)) then Ok (fp32_defaultNaN, Z.lor flags FPLIB_IOC)
  else if (a_exp =? 255) || (b_mnt =? 0) then
    Ok (fp32_infinity (Z.lxor a_sgn b_sgn), if negb (a_exp =? 255) then Z.lor flags FPLIB_DZC else flags)
  else if (a_mnt =? 0) || (b_exp =? 255) then Ok (fp32_zero (Z.lxor a_sgn b_sgn), flags)
  else
    let '(a_mnt, a_exp) := fp32_normalise a_mnt a_exp in
    let x_sgn := Z.lxor a_sgn b_sgn in
    let x_exp := a_exp - b_exp + 172 in
    x_mnt ← udiv (u64 (Z.shiftl a_mnt 18)) b_mnt;
    let x_mnt := Z.lor x_mnt (Z.b2z (negb (u64 (x_mnt * b_mnt) =? u64 (Z.shiftl a_mnt 18)))) in
    let '(x_mnt, x_exp) := fp64_normalise x_mnt x_exp in
    let x_mnt := Z.lor (Z.shiftr x_mnt 31) (Z.b2z (nz (u32 (Z.shiftl x_mnt 1)))) in
    fp32_round x_sgn x_exp (u32 x_mnt) mode flags.

(** The quotient of normalised significands by Newton's method: the quotient
    and the comparison of its square root bound with the dividend. *)
Definition newton_quotient (a_mnt b_mnt : Z) : res (Z * Z) :=
  x_mnt ← udiv (u64 (Z.lnot 0)) (Z.shiftr b_mnt 31);
  let '(x0_mnt, x1_mnt) := mul64x32 b_mnt (u32 x_mnt) in
  let '(x0_mnt, x1_mnt) := sub128 0 (Z.shiftl 1 32) x0_mnt x1_mnt in
  let '(x0_mnt, x1_mnt) := lsr128 x0_mnt x1_mnt 32 in
  let '(x0_mnt, x1_mnt) := mul64x32 x0_mnt (u32 x_mnt) in
  let '(x0_mnt, x1_mnt) := lsr128 x0_mnt x1_mnt 33 in
  let '(x0_mnt, x1_mnt) := mul62x62 x0_mnt (Z.shiftr a_mnt 2) in
  let '(x0_mnt, x1_mnt) := lsr128 x0_mnt x1_mnt 4 in
  let x_mnt := x1_mnt in
  let '(x0_mnt, x1_mnt) := mul62x62 (Z.shiftr b_mnt 2) (u64 (x_mnt + 1)) in
  let c := cmp128 x0_mnt x1_mnt 0 (Z.shiftr a_mnt 11) in
  Ok (if c <=? 0 then u64 (x_mnt + 1) else x_mnt, c).

Definition fp64_div (a b mode flags : Z) : res (Z * Z) :=
  let '(a_sgn, a_exp, a_mnt, flags) := fp64_unpack a mode flags in
  let '(b_sgn, b_exp, b_mnt, flags) := fp64_unpack b mode flags in
  let '(x, flags) := fp64_process_NaNs a b mode flags in
  if nz x then Ok (x, flags)
  else if ((a_exp =? 2047) && (b_exp =? 2047)) || ((a_mnt =? 0) && (b_mnt =? 0)) then Ok (fp64_defaultNaN, Z.lor flags FPLIB_IOC)
  else if (a_exp =? 2047) || (b_mnt =? 0) then
    Ok (fp64_infinity (Z.lxor a_sgn b_sgn), if negb (a_exp =? 2047) then Z.lor flags FPLIB_DZC else flags)
  else if (a_mnt =? 0) || (b_exp =? 2047) then Ok (fp64_zero (Z.lxor a_sgn b_sgn), flags)
  else
    let '(a_mnt, a_exp) := fp64_normalise a_mnt a_exp in
    let '(b_mnt, b_exp) := fp64_normalise b_mnt b_exp in
    let x_sgn := Z.lxor a_sgn b_sgn in
    let x_exp := a_exp - b_exp + 1031 in
    '(x_mnt, c) ← newton_quotient a_mnt b_mnt;
    let '(x_mnt, x_exp) := fp64_normalise x_mnt x_exp in
    fp64_round x_sgn x_exp (Z.lor (u64 (Z.shiftl x_mnt 1)) (Z.b2z (nz c))) mode flags.

(** * Square root *)

(** The root of a normalised significand, and whether it is inexact. *)
Definition newton_sqrt32 (a_mnt : Z) : res (Z * bool) :=
  let x := u32 (Z.shiftr a_mnt 2 + Z.shiftr a_mnt 3 + Z.shiftl 5 28) in
  d ← udiv a_mnt (Z.shiftr x 15);
  let x := u32 (Z.shiftl (u32 (d + Z.shiftr x 16)) 15) in
  d ← udiv a_mnt (Z.shiftr x 15);
  let x := u32 (Z.shiftl (u32 (d + Z.shiftr x 16)) 15) in
  d ← udiv (u64 (Z.shiftl a_mnt 32)) x;
  let x := u32 (Z.shiftr d 2 + Z.shiftr x 1) in
  let x_mnt := u32 (Z.shiftr (u32 (x - 32)) 6 + 1) in
  let t1 := u64 (x_mnt * x_mnt) in
  let t0 := u64 (Z.shiftl a_mnt 19) in
  Ok (if t0 <? t1 then u32 (x_mnt - 1) else x_mnt, negb (t1 =? t0)).

Definition fp32_sqrt (a mode flags : Z) : res (Z * Z) :=
  let '(a_sgn, a_exp, a_mnt, flags) := fp32_unpack a mode flags in
  if nan_parts F32 a_exp a_mnt then Ok (fp32_process_NaN a mode flags)
  else if a_mnt =? 0 then Ok (fp32_zero a_sgn, flags)
  else if (a_exp =? 255) && (a_sgn =? 0) then Ok (fp32_infinity a_sgn, flags)
  else if nz a_sgn then Ok (fp32_defaultNaN, Z.lor flags FPLIB_IOC)
  else
    let '(a_mnt, a_exp) := fp32_normalise a_mnt a_exp in
    let '(a_mnt, a_exp) := if Z.land a_exp 1 =? 0 then (Z.shiftr a_mnt 1, a_exp + 1) else (a_mnt, a_exp) in
    '(x_mnt, inexact) ← newton_sqrt32 a_mnt;
    let x_exp := Z.shiftr (a_exp + 147) 1 in
    let '(x_mnt, x_exp) := fp32_normalise x_mnt x_exp in
    fp32_round 0 x_exp (Z.lor (u32 (Z.shiftl x_mnt 1)) (Z.b2z inexact)) mode flags.

(** The root and its comparison with the operand. *)
Definition newton_sqrt64 (a_mnt : Z) : res (Z * Z) :=
  let x := u32 (Z.shiftr a_mnt 34 + Z.shiftr a_mnt 35 + Z.shiftl 5 28) in
  d ← udiv (Z.shiftr a_mnt 32) (Z.shiftr x 15);
  let x := u32 (Z.shiftl (d + Z.shiftr x 16) 15) in
  d ← udiv (Z.shiftr a_mnt 32) (Z.shiftr x 15);
  let x := u32 (Z.shiftl (d + Z.shiftr x 16) 15) in
  d ← udiv a_mnt x;
  let x := u32 (Z.shiftr d 2 + Z.shiftr x 1) in
  r ← udiv (Z.shiftl 1 62) x;
  let '(x0, x1) := mul64x32 (u64 (Z.shiftl (u64 (u64 (- x) * r)) 1)) (u32 r) in
  let '(x0, x1) := lsr128 x0 x1 31 in
  let '(x0, x1) := mul62x62 (Z.shiftr a_mnt 10) (Z.shiftr x0 2) in
  let '(x0, x1) := lsl128 x0 x1 5 in
  let '(x0, x1) := lsr128 x0 x1 56 in
  let x0 := u64 (u64 (Z.shiftl x 31) + Z.shiftr x0 1) in
  let x_mnt := u64 (Z.shiftr (u64 (x0 - 256)) 9 + 1) in
  let '(x0, x1) := mul62x62 x_mnt x_mnt in
  let '(x0, x1) := lsl128 x0 x1 19 in
  let c := cmp128 x0 x1 0 a_mnt in
  Ok (if 0 <? c then u64 (x_mnt - 1) else x_mnt, c).

Definition fp64_sqrt (a mode flags : Z) : res (Z * Z) :=
  let '(a_sgn, a_exp, a_mnt, flags) := fp64_unpack a mode flags in
  if nan_parts F64 a_exp a_mnt then Ok (fp64_process_NaN a mode flags)
  else if a_mnt =? 0 then Ok (fp64_zero a_sgn, flags)
  else if (a_exp =? 2047) && (a_sgn =? 0) then Ok (fp64_infinity a_sgn, flags)
  else if nz a_sgn then Ok (fp64_defaultNaN, Z.lor flags FPLIB_IOC)
  else
    let '(a_mnt, a_exp) := fp64_normalise a_mnt a_exp in
    let '(a_mnt, a_exp) := if nz (Z.land a_exp 1) then (Z.shiftr a_mnt 1, a_exp + 1) else (a_mnt, a_exp) in
    '(x_mnt, c) ← newton_sqrt64 a_mnt;
    let x_exp := Z.shiftr (a_exp + 1053) 1 in
    let '(x_mnt, x_exp) := fp64_normalise x_mnt x_exp in
    fp64_round 0 x_exp (Z.lor (u64 (Z.shiftl x_mnt 1)) (Z.b2z (nz c))) mode flags.

(** * The status register *)

(** [FPSCR] (src/arch/arm/miscregs.hh): the fields the library uses. *)
Definition fz (fpscr : Z) : bool := Z.testbit fpscr 24.
Definition dn (fpscr : Z) : bool := Z.testbit fpscr 25.
Definition ahp (fpscr : Z) : bool := Z.testbit fpscr 26.

Definition modeConv (fpscr : Z) : Z := Z.land (Z.shiftr fpscr 22) 15.
Definition FPCRRounding (fpscr : Z) : Z := Z.land (Z.shiftr fpscr 22) 3.

(** [if (flags & m) fpscr.<bit> = 1] *)
Definition set_if (flags m bit fpscr : Z) : Z := if test flags m then Z.setbit fpscr bit else fpscr.

Definition set_fpscr0 (fpscr flags : Z) : Z :=
  let fpscr := set_if flags FPLIB_IDC 7 fpscr in
  let fpscr := set_if flags FPLIB_IOC 0 fpscr in
  let fpscr := set_if flags FPLIB_DZC 1 fpscr in
  let fpscr := set_if flags FPLIB_OFC 2 fpscr in
  let fpscr := set_if flags FPLIB_UFC 3 fpscr in
  set_if flags FPLIB_IXC 4 fpscr.

Definition set_fpscr (fpscr flags : Z) : Z :=
  let fpscr := set_if flags FPLIB_IDC 7 fpscr in
  let fpscr := set_if flags FPLIB_IOC 0 fpscr in
  let fpscr := set_if flags FPLIB_DZC 1 fpscr in
  let fpscr := set_if flags FPLIB_OFC 2 fpscr in
  let underflow := test flags FPLIB_UFC in
  let fpscr := set_if flags FPLIB_UFC 3 fpscr in
  if test flags FPLIB_IXC && negb (underflow && fz fpscr) then Z.setbit fpscr 4 else fpscr.

(** * The functions of the instructions *)

(** [f] with the mode of [fpscr] and no flags, which are then set. *)
Definition with_fpscr (f : Z -> Z -> res (Z * Z)) (fpscr : Z) : res (Z * Z) :=
  '(x, flags) ← f (modeConv fpscr) 0; Ok (x, set_fpscr0 fpscr flags).

Section Compare.
Context (F : Format).

Definition fplibCompareEQ (a b fpscr : Z) : Z * Z :=
  let '(x, flags) := compare_eq F a b (modeConv fpscr) 0 in (x, set_fpscr fpscr flags).
Definition fplibCompareGE (a b fpscr : Z) : Z * Z :=
  let '(x, flags) := compare_ge F a b (modeConv fpscr) 0 in (x, set_fpscr fpscr flags).
Definition fplibCompareGT (a b fpscr : Z) : Z * Z :=
  let '(x, flags) := compare_gt F a b (modeConv fpscr) 0 in (x, set_fpscr fpscr flags).

Definition fplibAbs (op : Z) : Z := Z.land op (wrap_u (f_W F) (Z.lnot (Z.shiftl 1 (f_W F - 1)))).
Definition fplibNeg (op : Z) : Z := Z.lxor op (Z.shiftl 1 (f_W F - 1)).

(** The flags N, Z, C, V of a comparison. *)
Definition fplibCompare (op1 op2 : Z) (signal_nans : bool) (fpscr : Z) : Z * Z :=
  let mode := modeConv fpscr in
  let '(sgn1, exp1, mnt1, flags) := unpack F op1 mode 0 in
  let '(sgn2, exp2, mnt2, flags) := unpack F op2 mode flags in
  let '(result, flags) :=
    if nan_parts F exp1 mnt1 || nan_parts F exp2 mnt2 then
      (3, if (nan_parts F exp1 mnt1 && negb (nz (Z.land (Z.shiftr mnt1 (f_P F - 1)) 1))) ||
             (nan_parts F exp2 mnt2 && negb (nz (Z.land (Z.shiftr mnt2 (f_P F - 1)) 1))) || signal_nans
          then Z.lor flags FPLIB_IOC else flags)
    else
      (if (op1 =? op2) || ((mnt1 =? 0) && (mnt2 =? 0)) then 6
       else if negb (sgn1 =? sgn2) then (if nz sgn1 then 8 else 2)
       else if negb (exp1 =? exp2) then (if nz (Z.lxor sgn1 (Z.b2z (exp1 <? exp2))) then 8 else 2)
       else (if nz (Z.lxor sgn1 (Z.b2z (mnt1 <? mnt2))) then 8 else 2), flags) in
  (result, set_fpscr0 fpscr flags).

(** ** Maximum and minimum *)

Definition repack (sgn exp mnt : Z) : Z := pack F sgn (if nz (Z.shiftr mnt (f_P F)) then exp else 0) mnt.

(** [(uint32_t)~(op << 1) >> 23] *)
Definition not_qnan (op : Z) : bool := nz (Z.shiftr (wrap_u (f_W F) (Z.lnot (wrap_u (f_W F) (Z.shiftl op 1)))) (f_P F)).

Definition minmaxnum (op1 op2 sgn : Z) : Z * Z :=
  let op1 := if negb (not_qnan op1) && not_qnan op2 then infinity F sgn else op1 in
  let op2 := if negb (not_qnan op2) && not_qnan op1 then infinity F sgn else op2 in
  (op1, op2).

(** The body of [fplibMax] and [fplibMin]; [first]: the choice of an operand. *)
Definition minmax (first : Z -> Z -> bool) (op1 op2 fpscr : Z) : Z * Z :=
  let mode := modeConv fpscr in
  let '(sgn1, exp1, mnt1, flags) := unpack F op1 mode 0 in
  let '(sgn2, exp2, mnt2, flags) := unpack F op2 mode flags in
  let '(x, flags) := process_NaNs F op1 op2 mode flags in
  let result := if nz x then x else if first sgn1 sgn2 then repack sgn1 exp1 mnt1 else repack sgn2 exp2 mnt2 in
  (result, set_fpscr0 fpscr flags).
End Compare.

Section MinMax.
Context (F : Format).

Definition fplibMax (op1 op2 fpscr : Z) : Z * Z :=
  minmax F (fun sgn1 sgn2 => if negb (sgn1 =? sgn2) then nz sgn2 else nz (Z.lxor sgn1 (Z.b2z (op2 <? op1)))) op1 op2 fpscr.
Definition fplibMin (op1 op2 fpscr : Z) : Z * Z :=
  minmax F (fun sgn1 sgn2 => if negb (sgn1 =? sgn2) then nz sgn1 else nz (Z.lxor sgn1 (Z.b2z (op1 <? op2)))) op1 op2 fpscr.
Definition fplibMaxNum (op1 op2 fpscr : Z) : Z * Z :=
  let '(op1, op2) := minmaxnum F op1 op2 1 in fplibMax op1 op2 fpscr.
Definition fplibMinNum (op1 op2 fpscr : Z) : Z * Z :=
  let '(op1, op2) := minmaxnum F op1 op2 0 in fplibMin op1 op2 fpscr.
End MinMax.

Definition fplibCompare_32 := fplibCompare F32.
Definition fplibCompare_64 := fplibCompare F64.
Definition fplibMax_64 := fplibMax F64.
Definition fplibMin_64 := fplibMin F64.

(** ** Arithmetic *)

Definition fplibAdd (F : Format) (op1 op2 fpscr : Z) : res (Z * Z) := with_fpscr (add F op1 op2 0) fpscr.
Definition fplibSub (F : Format) (op1 op2 fpscr : Z) : res (Z * Z) := with_fpscr (add F op1 op2 1) fpscr.
Definition fplibMul32 (op1 op2 fpscr : Z) : res (Z * Z) := with_fpscr (fp32_mul op1 op2) fpscr.
Definition fplibMul64 (op1 op2 fpscr : Z) : res (Z * Z) := with_fpscr (fp64_mul op1 op2) fpscr.
Definition fplibMulAdd32 (addend op1 op2 fpscr : Z) : res (Z * Z) := with_fpscr (fp32_muladd addend op1 op2 0) fpscr.
Definition fplibMulAdd64 (addend op1 op2 fpscr : Z) : res (Z * Z) := with_fpscr (fp64_muladd addend op1 op2 0) fpscr.
Definition fplibDiv32 (op1 op2 fpscr : Z) : res (Z * Z) := with_fpscr (fp32_div op1 op2) fpscr.
Definition fplibDiv64 (op1 op2 fpscr : Z) : res (Z * Z) := with_fpscr (fp64_div op1 op2) fpscr.
Definition fplibSqrt32 (op fpscr : Z) : res (Z * Z) := with_fpscr (fp32_sqrt op) fpscr.
Definition fplibSqrt64 (op fpscr : Z) : res (Z * Z) := with_fpscr (fp64_sqrt op) fpscr.

(** ** Multiplication and steps of Newton's method with special infinities *)

Section Fused.
Context (F : Format) (mul : Z -> Z -> Z -> Z -> res (Z * Z)) (muladd : Z -> Z -> Z -> Z -> Z -> Z -> res (Z * Z)).

(** [1.5], [3.0] and [2.0] *)
Definition FPOnePointFive (sgn : Z) : Z := pack F sgn (2 ^ (f_E F - 1) - 1) (Z.shiftl 1 (f_P F - 1)).
Definition FPThree (sgn : Z) : Z := pack F sgn (2 ^ (f_E F - 1)) (Z.shiftl 1 (f_P F - 1)).
Definition FPTwo (sgn : Z) : Z := pack F sgn (2 ^ (f_E F - 1)) 0.

Definition fplibMulX (op1 op2 fpscr : Z) : res (Z * Z) :=
  let mode := modeConv fpscr in
  let '(sgn1, exp1, mnt1, flags) := unpack F op1 mode 0 in
  let '(sgn2, exp2, mnt2, flags) := unpack F op2 mode flags in
  let '(result, flags) := process_NaNs F op1 op2 mode flags in
  '(result, flags) ←
    (if nz result then Ok (result, flags)
     else if ((exp1 =? top_exp F) && (mnt2 =? 0)) || ((exp2 =? top_exp F) && (mnt1 =? 0)) then Ok (FPTwo (Z.lxor sgn1 sgn2), flags)
     else if (exp1 =? top_exp F) || (exp2 =? top_exp F) then Ok (infinity F (Z.lxor sgn1 sgn2), flags)
     else if (mnt1 =? 0) || (mnt2 =? 0) then Ok (zero F (Z.lxor sgn1 sgn2), flags)
     else mul op1 op2 mode flags);
  Ok (result, set_fpscr0 fpscr flags).

(** [special]: the result for an infinity times zero; [c], [scale]: of the fused
    operation. *)
Definition step_fused (special c scale op1 op2 fpscr : Z) : res (Z * Z) :=
  let mode := modeConv fpscr in
  let op1 := fplibNeg F op1 in
  let '(sgn1, exp1, mnt1, flags) := unpack F op1 mode 0 in
  let '(sgn2, exp2, mnt2, flags) := unpack F op2 mode flags in
  let '(result, flags) := process_NaNs F op1 op2 mode flags in
  '(result, flags) ←
    (if nz result then Ok (result, flags)
     else if ((exp1 =? top_exp F) && (mnt2 =? 0)) || ((exp2 =? top_exp F) && (mnt1 =? 0)) then Ok (special, flags)
     else if (exp1 =? top_exp F) || (exp2 =? top_exp F) then Ok (infinity F (Z.lxor sgn1 sgn2), flags)
     else muladd c op1 op2 scale mode flags);
  Ok (result, set_fpscr0 fpscr flags).

Definition fplibRSqrtStepFused := step_fused (FPOnePointFive 0) (FPThree 0) (-1).
Definition fplibRecipStepFused := step_fused (FPTwo 0) (FPTwo 0) 0.
End Fused.

Definition fplibMulX32 := fplibMulX F32 fp32_mul.
Definition fplibMulX64 := fplibMulX F64 fp64_mul.
Definition fplibRSqrtStepFused32 := fplibRSqrtStepFused F32 fp32_muladd.
Definition fplibRSqrtStepFused64 := fplibRSqrtStepFused F64 fp64_muladd.
Definition fplibRecipStepFused32 := fplibRecipStepFused F32 fp32_muladd.
Definition fplibRecipStepFused64 := fplibRecipStepFused F64 fp64_muladd.

(** ** Estimates *)

Definition recip_sqrt_estimate : list Z :=
  [
   255; 253; 251; 249; 247; 245; 243; 242; 240; 238; 236; 234; 233; 231; 229; 228;
   226; 224; 223; 221; 219; 218; 216; 215; 213; 212; 210; 209; 207; 206; 204; 203;
   201; 200; 198; 197; 196; 194; 193; 192; 190; 189; 188; 186; 185; 184; 183; 181;
   180; 179; 178; 176; 175; 174; 173; 172; 170; 169; 168; 167; 166; 165; 164; 163;
   162; 160; 159; 158; 157; 156; 155; 154; 153; 152; 151; 150; 149; 148; 147; 146;
   145; 144; 143; 142; 141; 140; 140; 139; 138; 137; 136; 135; 134; 133; 132; 131;
   131; 130; 129; 128; 127; 126; 126; 125; 124; 123; 122; 121; 121; 120; 119; 118;
   118; 117; 116; 115; 114; 114; 113; 112; 111; 111; 110; 109; 109; 108; 107; 106;
   105; 104; 103; 101; 100; 99; 97; 96; 95; 93; 92; 91; 90; 88; 87; 86;
   85; 84; 82; 81; 80; 79; 78; 77; 76; 75; 74; 72; 71; 70; 69; 68;
   67; 66; 65; 64; 63; 62; 61; 60; 60; 59; 58; 57; 56; 55; 54; 53;
   52; 51; 51; 50; 49; 48; 47; 46; 46; 45; 44; 43; 42; 42; 41; 40;
   39; 38; 38; 37; 36; 35; 35; 34; 33; 33; 32; 31; 30; 30; 29; 28;
   28; 27; 26; 26; 25; 24; 24; 23; 22; 22; 21; 20; 20; 19; 19; 18;
   17; 17; 16; 16; 15; 14; 14; 13; 13; 12; 11; 11; 10; 10; 9; 9;
   8; 8; 7; 6; 6; 5; 5; 4; 4; 3; 3; 2; 2; 1; 1; 0
  ].

Section Estimates.
Context (F : Format).
Local Abbreviation W := (f_W F).
Local Abbreviation P := (f_P F).
(** [127] of binary32. *)
Local Abbreviation bias := (2 ^ (f_E F - 1) - 1).

Definition fplibRSqrtEstimate (op fpscr : Z) : res (Z * Z) :=
  let mode := modeConv fpscr in
  let '(sgn, exp, mnt, flags) := unpack F op mode 0 in
  '(result, flags) ←
    (if nan_parts F exp mnt then Ok (process_NaN F op mode flags)
     else if mnt =? 0 then Ok (infinity F sgn, Z.lor flags FPLIB_DZC)
     else if nz sgn then Ok (defaultNaN F, Z.lor flags FPLIB_IOC)
     else if exp =? top_exp F then Ok (zero F 0, flags)
     else
       let exp := exp + (W - 1 - P) in
       let '(mnt, exp) := normalise F mnt exp in
       mnt ← aread recip_sqrt_estimate
         (Z.lor (Z.shiftl (Z.land (Z.lnot exp) 1) 7) (Z.land (Z.shiftr mnt (W - 8)) 127));
       Ok (pack F 0 (Z.shiftr (3 * bias - 1 - exp) 1) (wrap_u W (Z.shiftl mnt (P - 8))), flags));
  Ok (result, set_fpscr0 fpscr flags).

Definition fplibRecipEstimate (op fpscr : Z) : res (Z * Z) :=
  let mode := modeConv fpscr in
  let '(sgn, exp, mnt, flags) := unpack F op mode 0 in
  '(result, flags) ←
    (if nan_parts F exp mnt then Ok (process_NaN F op mode flags)
     else if exp =? top_exp F then Ok (zero F sgn, flags)
     else if mnt =? 0 then Ok (infinity F sgn, Z.lor flags FPLIB_DZC)
     else if Z.shiftr (wrap_u W (Z.shiftl op 1)) (P - 1) =? 0 then
       let r := FPCRRounding fpscr in
       let overflow_to_inf :=
         if r =? FPRounding_TIEEVEN then true else if r =? FPRounding_POSINF then (sgn =? 0)
         else if r =? FPRounding_NEGINF then nz sgn else false in
       Ok (if overflow_to_inf then infinity F sgn else max_normal F sgn, Z.lor flags (Z.lor FPLIB_OFC FPLIB_IXC))
     else if fz fpscr && (2 * bias - 1 <=? exp) then Ok (zero F sgn, Z.lor flags FPLIB_UFC)
     else
       let exp := exp + (W - 1 - P) in
       let '(mnt, exp) := normalise F mnt exp in
       let result_exp := 2 * bias - 1 - exp in
       fraction ← udiv (Z.shiftl 1 19) (Z.lor (Z.shiftr mnt (W - 10)) 1);
       let fraction := Z.shiftr (fraction + 1) 1 in
       let fraction := wrap_u W (Z.shiftl fraction (P - 8)) in
       let '(fraction, result_exp) :=
         if result_exp =? 0 then (Z.shiftr fraction 1, result_exp)
         else if result_exp =? -1 then (Z.shiftr fraction 2, 0)
         else (fraction, result_exp) in
       Ok (pack F sgn result_exp fraction, flags));
  Ok (result, set_fpscr0 fpscr flags).

Definition fplibRecpX (op fpscr : Z) : Z * Z :=
  let mode := modeConv fpscr in
  let '(sgn, exp, mnt, flags) := unpack F op mode 0 in
  let '(result, flags) :=
    if nan_parts F exp mnt then process_NaN F op mode flags
    else if mnt =? 0 then (pack F sgn (top_exp F - 1) 0, flags)
    else (pack F sgn (Z.lxor exp (top_exp F)) 0, flags) in
  (result, set_fpscr0 fpscr flags).
End Estimates.
Definition fplibRSqrtEstimate_64 := fplibRSqrtEstimate F64.
Definition fplibRecipEstimate_64 := fplibRecipEstimate F64.
Definition fplibRecpX_64 := fplibRecpX F64.

(** ** Rounding to an integer *)

(** The [switch] on the rounding mode: what is added to the truncated value. *)
Definition round_switch (rounding sgn x err : Z) : res Z :=
  if rounding =? FPRounding_TIEEVEN then Ok (Z.b2z ((err =? 3) || ((err =? 2) && nz (Z.land x 1))))
  else if rounding =? FPRounding_POSINF then Ok (Z.b2z (nz err && (sgn =? 0)))
  else if rounding =? FPRounding_NEGINF then Ok (Z.b2z (nz err && nz sgn))
  else if rounding =? FPRounding_ZERO then Ok 0
  else if rounding =? FPRounding_TIEAWAY then Ok (Z.shiftr err 1)
  else Panic.

Definition fplibRoundInt (F : Format) (op rounding : Z) (exact : bool) (fpscr : Z) : res (Z * Z) :=
  let W := f_W F in
  (* 150 of binary32 *)
  let int_exp := 2 ^ (f_E F - 1) - 1 + f_P F in
  let mode := modeConv fpscr in
  let '(sgn, exp, mnt, flags) := unpack F op mode 0 in
  '(result, flags) ←
    (if nan_parts F exp mnt then Ok (process_NaN F op mode flags)
     else if exp =? top_exp F then Ok (infinity F sgn, flags)
     else if mnt =? 0 then Ok (zero F sgn, flags)
     else if int_exp <=? exp then Ok (op, flags)
     else
       let x := if W <=? int_exp - exp then 0 else Z.shiftr mnt (int_exp - exp) in
       let err := if exp <? int_exp - W then 1
                  else Z.lor (Z.land (Z.shiftr (wrap_u W (Z.shiftl mnt 1)) (int_exp - 1 - exp)) 3)
                         (Z.b2z (nz (wrap_u W (Z.shiftl (wrap_u W (Z.shiftl mnt 2)) (exp - (int_exp - W)))))) in
       inc ← round_switch rounding sgn x err;
       let x := wrap_u W (x + inc) in
       let result :=
         if x =? 0 then zero F sgn
         else let '(mnt, exp) := normalise F x int_exp in
              pack F sgn (exp + (W - 1 - f_P F)) (Z.shiftr mnt (W - 1 - f_P F)) in
       Ok (result, if nz err && exact then Z.lor flags FPLIB_IXC else flags));
  Ok (result, set_fpscr0 fpscr flags).
Definition fplibRoundInt_64 := fplibRoundInt F64.

(** ** Conversion to and from fixed point *)

(** The flags are overwritten when the conversion sets one. *)
Definition FPToFixed_64 (sgn exp mnt : Z) (u : bool) (rounding flags : Z) : res (Z * Z) :=
  let saturated := u64 (u64 (Z.shiftl (Z.b2z (negb u)) 63) - Z.b2z (sgn =? 0)) in
  if 1023 + 63 <? exp then Ok (saturated, FPLIB_IOC)
  else
    let m := u64 (Z.shiftl mnt 11) in
    let x := lsr64 m (1023 + 63 - exp) in
    let err := if 1023 + 63 - 2 <? exp then 0
               else Z.lor (Z.land (lsr64 m (1023 + 63 - 2 - exp)) 3)
                      (Z.b2z (nz (Z.land m (u64 (lsl64 1 (1023 + 63 - 2 - exp) - 1))))) in
    inc ← round_switch rounding sgn x err;
    let x := u64 (x + inc) in
    if (if u then nz sgn && nz x else u64 (Z.shiftl 1 63 - Z.b2z (sgn =? 0)) <? x) then Ok (saturated, FPLIB_IOC)
    else Ok (if nz sgn then u64 (- x) else x, if nz err then FPLIB_IXC else flags).

Definition FPToFixed_32 (sgn exp mnt : Z) (u : bool) (rounding flags : Z) : res (Z * Z) :=
  '(x, flags) ← FPToFixed_64 sgn exp mnt u rounding flags;
  if (if u then 2 ^ 32 <=? x else negb ((x <? 2 ^ 31) || (u64 (- x) <=? 2 ^ 31))) then
    Ok (u32 (u32 (Z.shiftl (Z.b2z (negb u)) 31) - Z.b2z (sgn =? 0)), FPLIB_IOC)
  else Ok (u32 x, flags).

(** [fplibFPToFixed] of a number of format [F]; [to]: one of the two above. *)
Definition fplibFPToFixed (F : Format) (to : Z -> Z -> Z -> bool -> Z -> Z -> res (Z * Z))
    (op fbits : Z) (u : bool) (rounding fpscr : Z) : res (Z * Z) :=
  let '(sgn, exp, mnt, flags) := unpack F op (modeConv fpscr) 0 in
  '(result, flags) ←
    (if nan_parts F exp mnt then Ok (0, FPLIB_IOC)
     else to sgn (exp + 1023 - (2 ^ (f_E F - 1) - 1) + fbits) (u64 (Z.shiftl mnt (52 - f_P F))) u rounding flags);
  Ok (result, set_fpscr0 fpscr flags).
Definition fplibFPToFixed_32_32 := fplibFPToFixed F32 FPToFixed_32.
Definition fplibFPToFixed_64_32 := fplibFPToFixed F64 FPToFixed_32.
Definition fplibFPToFixed_32_64 := fplibFPToFixed F32 FPToFixed_64.
Definition fplibFPToFixed_64_64 := fplibFPToFixed F64 FPToFixed_64.

Definition fp32_cvtf (a fbits u mode flags : Z) : res (Z * Z) :=
  let x_sgn := Z.b2z ((u =? 0) && nz (Z.shiftr a 63)) in
  let x_exp := 190 - fbits in
  let x_mnt := if nz x_sgn then u64 (- a) else a in
  if x_mnt =? 0 then Ok (fp32_zero 0, flags)
  else
    let '(x_mnt, x_exp) := fp64_normalise x_mnt x_exp in
    let x_mnt := Z.lor (Z.shiftr x_mnt 31) (Z.b2z (nz (u32 (Z.shiftl x_mnt 1)))) in
    fp32_round x_sgn x_exp (u32 x_mnt) mode flags.

Definition fp64_cvtf (a fbits u mode flags : Z) : res (Z * Z) :=
  let x_sgn := Z.b2z ((u =? 0) && nz (Z.shiftr a 63)) in
  let x_exp := 1024 + 62 - fbits in
  let x_mnt := if nz x_sgn then u64 (- a) else a in
  if x_mnt =? 0 then Ok (fp64_zero 0, flags)
  else
    let '(x_mnt, x_exp) := fp64_normalise x_mnt x_exp in
    fp64_round x_sgn x_exp (u64 (Z.shiftl x_mnt 1)) mode flags.

Definition fplibFixedToFP_32 (op fbits : Z) (u : bool) (rounding fpscr : Z) : res (Z * Z) :=
  '(x, flags) ← fp32_cvtf op fbits (Z.b2z u) (Z.lor rounding (Z.land (Z.shiftr fpscr 22) 12)) 0;
  Ok (x, set_fpscr0 fpscr flags).
Definition fplibFixedToFP_64 (op fbits : Z) (u : bool) (rounding fpscr : Z) : res (Z * Z) :=
  '(x, flags) ← fp64_cvtf op fbits (Z.b2z u) (Z.lor rounding (Z.land (Z.shiftr fpscr 22) 12)) 0;
  Ok (x, set_fpscr0 fpscr flags).

(** ** Conversion between formats *)

Section Convert.
Context (F G : Format).
Local Abbreviation bias H := (2 ^ (f_E H - 1) - 1).

(** A NaN of format [F] in format [G]. *)
Definition FPConvertNaN (op : Z) : Z :=
  pack G (Z.shiftr op (f_W F - 1)) (top_exp G)
    (Z.lor (Z.shiftl 1 (f_P G - 1))
       (if f_P G <? f_P F then Z.shiftr op (f_P F - f_P G)
        else wrap_u (f_W G) (Z.shiftl op (f_P G - f_P F)))).

(** [mnt >> n | !!(uint32_t)(mnt << (32 - n))]: the significand of a wider format. *)
Definition narrow_mant (mnt : Z) : Z :=
  let n := f_P F - f_W G in
  wrap_u (f_W G) (Z.lor (Z.shiftr mnt n) (Z.b2z (nz (wrap_u (f_W F) (Z.shiftl mnt (f_W F - n)))))).

(** To binary16, from [F]. *)
Definition convert_to_half (op rounding fpscr : Z) : res (Z * Z) :=
  let mode := modeConv fpscr in
  let '(sgn, exp, mnt, flags) := unpack F op mode 0 in
  let alt_hp := ahp fpscr in
  '(result, flags) ←
    (if nan_parts F exp mnt then
       Ok (if alt_hp then zero G sgn else if dn fpscr then defaultNaN G else FPConvertNaN op,
           if negb (nz (Z.land (Z.shiftr mnt (f_P F - 1)) 1)) || alt_hp then Z.lor flags FPLIB_IOC else flags)
     else if exp =? top_exp F then
       if alt_hp then Ok (wrap_u 16 (Z.lor (Z.shiftl sgn 15) 32767), Z.lor flags FPLIB_IOC) else Ok (infinity G sgn, flags)
     else if mnt =? 0 then Ok (zero G sgn, flags)
     else round_ G sgn (exp - bias F + bias G) (narrow_mant mnt) rounding
            (Z.lor mode (Z.shiftl (Z.b2z alt_hp) 4)) flags);
  Ok (result, set_fpscr0 fpscr flags).

(** From binary64 to binary32. *)
Definition convert_to_single (op rounding fpscr : Z) : res (Z * Z) :=
  let mode := modeConv fpscr in
  let '(sgn, exp, mnt, flags) := unpack F op mode 0 in
  '(result, flags) ←
    (if nan_parts F exp mnt then
       Ok (if dn fpscr then defaultNaN G else FPConvertNaN op,
           if negb (nz (Z.land (Z.shiftr mnt (f_P F - 1)) 1)) then Z.lor flags FPLIB_IOC else flags)
     else if exp =? top_exp F then Ok (infinity G sgn, flags)
     else if mnt =? 0 then Ok (zero G sgn, flags)
     else round_ G sgn (exp - bias F + bias G) (narrow_mant mnt) rounding mode flags);
  Ok (result, set_fpscr0 fpscr flags).

(** To a wider format; binary16 may be the alternative format. *)
Definition convert_wider (op rounding fpscr : Z) : Z * Z :=
  let mode := modeConv fpscr in
  let '(sgn, exp, mnt, flags) := unpack F op mode 0 in
  let alt_hp := f_half F && ahp fpscr in
  let '(result, flags) :=
    if nan_parts F exp mnt && negb alt_hp then
      (if dn fpscr then defaultNaN G else FPConvertNaN op,
       if negb (nz (Z.land (Z.shiftr mnt (f_P F - 1)) 1)) then Z.lor flags FPLIB_IOC else flags)
    else if (exp =? top_exp F) && negb alt_hp then (infinity G sgn, flags)
    else if mnt =? 0 then (zero G sgn, flags)
    else
      let '(mnt, exp) := normalise F mnt exp in
      (pack G sgn (exp - bias F + bias G + (f_W F - 1 - f_P F)) (wrap_u (f_W G) (Z.shiftl mnt (f_P G + 1 - f_W F))), flags) in
  (result, set_fpscr0 fpscr flags).
End Convert.

Definition fp16_FPConvertNaN_32 := FPConvertNaN F32 F16.
Definition fp16_FPConvertNaN_64 := FPConvertNaN F64 F16.
Definition fp32_FPConvertNaN_16 := FPConvertNaN F16 F32.
Definition fp32_FPConvertNaN_64 := FPConvertNaN F64 F32.
Definition fp64_FPConvertNaN_16 := FPConvertNaN F16 F64.
Definition fp64_FPConvertNaN_32 := FPConvertNaN F32 F64.
Definition fplibConvert_32_16 := convert_to_half F32 F16.
Definition fplibConvert_64_16 := convert_to_half F64 F16.
Definition fplibConvert_64_32 := convert_to_single F64 F32.
Definition fplibConvert_16_32 := convert_wider F16 F32.
Definition fplibConvert_16_64 := convert_wider F16 F64.
Definition fplibConvert_32_64 := convert_wider F32 F64.
