(* ===== verification/FpSpec.v ===== *)
(** What a floating-point operation of [Fplib] is to compute: a rational number
    rounded to a format, in the direction of the rounding mode, with the
    exception flags of the rounding. *)
From Stdlib Require Import QArith Qround Qabs Lqa.
From S2P Require Import Prelude Fplib.
#[local] Open Scope Z_scope.

(** * Rounding to integers *)

Definition pow2 (e : Z) : Q := Qpower 2 e.

(** The magnitude [x] of a number, which is negative if [neg], to an integer. *)
Definition round_int (rm : Z) (neg : bool) (x : Q) : Z :=
  let q := Qfloor x in
  let r := (x - inject_Z q)%Q in
  let up :=
    if rm =? FPRounding_TIEEVEN then negb (Qle_bool r (1 # 2)) || (Qeq_bool r (1 # 2) && Z.odd q)
    else if rm =? FPRounding_POSINF then negb neg && negb (Qeq_bool r 0)
    else if rm =? FPRounding_NEGINF then neg && negb (Qeq_bool r 0)
    else if rm =? FPRounding_TIEAWAY then Qle_bool (1 # 2) r
    else if rm =? FPRounding_ODD then Z.even q && negb (Qeq_bool r 0)
    else false in
  q + Z.b2z up.

Definition is_integer (x : Q) : bool := Qeq_bool x (inject_Z (Qfloor x)).

(** * Rounding to a format *)

Section Format.
Context (F : Format).
Local Abbreviation W := (f_W F).
Local Abbreviation P := (f_P F).

(** The smallest positive number. *)
Definition ulp : Q := pow2 (2 - 2 ^ (f_E F - 1) - P).

(** How many times the spacing of the numbers around [x * ulp] is twice [ulp]. *)
Definition spec_shift (x : Q) : Z := Z.max 0 (Z.log2 (Qfloor x) - P).

(** The bit pattern, without sign, of [x * ulp] rounded. *)
Definition spec_mag (rm : Z) (neg : bool) (x : Q) : Z :=
  round_int rm neg (x * pow2 (- spec_shift x)) + spec_shift x * 2 ^ P.
Definition exact (x : Q) : bool := is_integer (x * pow2 (- spec_shift x)).
Definition tiny (x : Q) : bool := negb (Qle_bool (inject_Z (2 ^ P)) x).

(** Infinity. *)
Definition inf_mag : Z := top_exp F * 2 ^ P.
Definition with_sign (sgn m : Z) : Z := sgn * 2 ^ (W - 1) + m.

(** [x * ulp > 0] with the sign [sgn]: the result and the flags. *)
Definition spec_round (rm mode sgn : Z) (x : Q) (flags : Z) : Z * Z :=
  if negb (f_half F) && test mode FPLIB_FZ && tiny x then (with_sign sgn 0, Z.lor flags FPLIB_UFC)
  else
    let m := spec_mag rm (nz sgn) x in
    let flags := if tiny x && negb (exact x) then Z.lor flags FPLIB_UFC else flags in
    if negb (f_half F && test mode FPLIB_AHP) && (inf_mag <=? m) then
      (with_sign sgn (if overflows_to_inf rm sgn then inf_mag else inf_mag - 1), Z.lor flags (Z.lor FPLIB_OFC FPLIB_IXC))
    else if f_half F && test mode FPLIB_AHP && (inf_mag + 2 ^ P <=? m) then
      (with_sign sgn (inf_mag + 2 ^ P - 1), Z.lor flags FPLIB_IOC)
    else (with_sign sgn m, if negb (exact x) then Z.lor flags FPLIB_IXC else flags).

(** * The numbers of a format *)

(** In units of [ulp], of a bit pattern without sign. *)
Definition mag_value (m : Z) : Z := if m <? 2 ^ P then m else (2 ^ P + m mod 2 ^ P) * 2 ^ (m / 2 ^ P - 1).

Definition sign_of (x : Z) : Z := x / 2 ^ (W - 1).
Definition mag_of (x : Z) : Z := x mod 2 ^ (W - 1).
Definition pattern (x : Z) : Prop := 0 <= x < 2 ^ W.
Definition finite (x : Z) : Prop := pattern x /\ mag_of x < inf_mag.

Definition signed (sgn : Z) (x : Q) : Q := if nz sgn then (- x)%Q else x.
(** The number of a finite pattern. *)
Definition val (x : Z) : Q := signed (sign_of x) (inject_Z (mag_value (mag_of x)) * ulp).

(** A number that is not zero, rounded. *)
Definition rounded (mode : Z) (v : Q) (flags : Z) : Z * Z :=
  spec_round (Z.land mode 3) mode (Z.b2z (negb (Qle_bool 0 v))) (Qabs v / ulp) flags.
End Format.
