(* ===== verification/FpRound.v ===== *)
(** Collapsing the low bits of a significand into one, and the rounding of
    [Fplib] that works on what is left of it. *)
From Stdlib Require Import QArith Qpower Qround Qabs Lqa.
From S2P Require Import Prelude Fplib FpSpec.
#[local] Open Scope Z_scope.

(** * Powers of two *)

Lemma pow2_plus a b : (pow2 (a + b) == pow2 a * pow2 b)%Q.
Proof. apply Qpower_plus. discriminate. Qed.
Lemma pow2_inject e : 0 <= e -> (pow2 e == inject_Z (2 ^ e))%Q.
Proof. intros He. unfold pow2. rewrite Zpower_Qpower by done. reflexivity. Qed.
Lemma pow2_pos_Q e : (0 < pow2 e)%Q.
Proof. apply Qpower_0_lt. reflexivity. Qed.
Lemma pow2_inv e : (pow2 e * pow2 (- e) == 1)%Q.
Proof. rewrite <- pow2_plus, Z.add_opp_diag_r. reflexivity. Qed.

Lemma inject_div q j r : 0 <= j -> (inject_Z (q * 2 ^ j + r) == inject_Z q * pow2 j + inject_Z r)%Q.
Proof. intros Hj. rewrite inject_Z_plus, inject_Z_mult, pow2_inject by done. reflexivity. Qed.

(** [y] between multiples of a power of two. *)
Lemma pow2_shift_lt (a y : Q) j : (a * pow2 j < y)%Q <-> (a < y * pow2 (- j))%Q.
Proof.
  rewrite <- (Qmult_lt_r a _ (pow2 j)) by apply pow2_pos_Q.
  assert (y * pow2 (- j) * pow2 j == y)%Q as ->; [|done].
  rewrite <- Qmult_assoc, (Qmult_comm (pow2 (- j))), pow2_inv. ring.
Qed.
Lemma pow2_shift_gt (a y : Q) j : (y < a * pow2 j)%Q <-> (y * pow2 (- j) < a)%Q.
Proof.
  rewrite <- (Qmult_lt_r _ a (pow2 j)) by apply pow2_pos_Q.
  assert (y * pow2 (- j) * pow2 j == y)%Q as ->; [|done].
  rewrite <- Qmult_assoc, (Qmult_comm (pow2 (- j))), pow2_inv. ring.
Qed.
Lemma pow2_shift_eq (a y : Q) j : (y == a * pow2 j)%Q -> (y * pow2 (- j) == a)%Q.
Proof. intros ->. rewrite <- Qmult_assoc, pow2_inv. ring. Qed.

(** * Sticky bits *)

(** [n] is [x], or is odd and [x] lies strictly between its neighbours. *)
Definition sticky (n : Z) (x : Q) : Prop :=
  (x == inject_Z n)%Q \/ (Z.odd n = true /\ (inject_Z (n - 1) < x)%Q /\ (x < inject_Z (n + 1))%Q).

(** Shift right by [j], the bits shifted out collapsed into the last. *)
Definition jam (n j : Z) : Z := Z.lor (Z.shiftr n j) (Z.b2z (nz (n mod 2 ^ j))).

#[export] Instance sticky_proper n : Proper (Qeq ==> iff) (sticky n).
Proof. intros x y E. unfold sticky. by rewrite E. Qed.

Lemma jam_0 n : jam n 0 = n.
Proof. unfold jam. rewrite Z.shiftr_0_r, Z.pow_0_r, Z.mod_1_r. apply Z.lor_0_r. Qed.

Lemma odd_mod2 n : Z.odd n = (n mod 2 =? 1).
Proof. rewrite Zmod_odd. by destruct (Z.odd n). Qed.

Lemma lor_1 n : Z.lor n 1 = n + Z.b2z (Z.even n).
Proof.
  rewrite (Z.div_mod n 2) at 1 2 by lia. rewrite Zmod_odd, <- Z.negb_odd. apply bits_ext. intros i Hi.
  destruct (Z.odd n) eqn:E; cbn [negb Z.b2z].
  - rewrite Z.add_0_r, Z.lor_spec. destruct (Z.eq_dec i 0) as [->|].
    + rewrite Z.testbit_odd_0. done.
    + rewrite (Z.bits_above_log2 1) by (cbn; lia). apply orb_false_r.
  - rewrite Z.add_0_r, Z.lor_spec. destruct (Z.eq_dec i 0) as [->|].
    + by rewrite Z.testbit_odd_0, Z.testbit_even_0.
    + rewrite (Z.bits_above_log2 1) by (cbn; lia). rewrite orb_false_r. replace i with (Z.succ (i - 1)) by lia.
      by rewrite Z.testbit_odd_succ, Z.testbit_even_succ by lia.
Qed.

(** What was shifted out: nothing, or something between two integers. *)
Lemma jam_cases n x j : 1 <= j -> sticky n x ->
  (n mod 2 ^ j = 0 /\ (x * pow2 (- j) == inject_Z (n / 2 ^ j))%Q /\ jam n j = n / 2 ^ j) \/
  (n mod 2 ^ j <> 0 /\ (inject_Z (n / 2 ^ j) < x * pow2 (- j))%Q /\ (x * pow2 (- j) < inject_Z (n / 2 ^ j + 1))%Q /\
   jam n j = n / 2 ^ j + Z.b2z (Z.even (n / 2 ^ j))).
Proof.
  intros Hj Hs. pose proof (pow2_pos j ltac:(lia)) as Hp. pose proof (Z.div_mod n (2 ^ j) ltac:(lia)) as E.
  pose proof (Z.mod_pos_bound n (2 ^ j) Hp) as Hr. unfold jam. rewrite Z.shiftr_div_pow2 by lia.
  set (q := n / 2 ^ j) in *. set (r := n mod 2 ^ j) in *. rewrite Z.mul_comm in E.
  destruct (Z.eq_dec r 0) as [E0|Hne].
  - left. rewrite E0 in *. cbn. rewrite Z.lor_0_r. split; [done|]. split; [|done]. apply pow2_shift_eq.
    destruct Hs as [->|(Hodd & _)]; [rewrite E, inject_div by lia; change (inject_Z 0) with 0%Q; ring|].
    exfalso. rewrite Z.add_0_r in E. rewrite E, Z.odd_mul, (pow2_double j), Z.odd_mul in Hodd by lia. by rewrite andb_false_r in Hodd.
  - right. assert (nz r = true) as -> by (unfold nz; by apply negb_true_iff, Z.eqb_neq). rewrite lor_1. split; [done|].
    assert (inject_Z (q * 2 ^ j) < x /\ x < inject_Z ((q + 1) * 2 ^ j))%Q as [H1 H2].
    { destruct Hs as [->|(Hodd & H1 & H2)]; [rewrite E; split; rewrite <- Zlt_Qlt; lia|].
      assert (r <> 2 ^ j - 1 \/ r = 2 ^ j - 1) as Hor by lia.
      split; [eapply Qle_lt_trans; [|exact H1]|eapply Qlt_le_trans; [exact H2|]]; rewrite <- Zle_Qle; lia. }
    rewrite inject_Z_mult, <- pow2_inject in H1, H2 by lia. split; [by apply pow2_shift_lt|]. split; [by apply pow2_shift_gt|done].
Qed.

Lemma sticky_jam n x j : 0 <= j -> sticky n x -> sticky (jam n j) (x * pow2 (- j)).
Proof.
  intros Hj Hs. destruct (Z.eq_dec j 0) as [->|]; [rewrite jam_0; change (pow2 (- 0)) with 1%Q; by rewrite Qmult_1_r|].
  destruct (jam_cases n x j ltac:(lia) Hs) as [(_ & E & ->)|(_ & H1 & H2 & ->)]; [by left|]. right.
  set (q := n / 2 ^ j) in *. rewrite <- Z.negb_odd. split.
  - destruct (Z.odd q) eqn:Eo; cbn; [by rewrite Z.add_0_r|]. by rewrite Z.odd_add, Eo.
  - split; [eapply Qle_lt_trans; [|exact H1]|eapply Qlt_le_trans; [exact H2|]]; rewrite <- Zle_Qle; destruct (Z.odd q); cbn; lia.
Qed.

Lemma shiftr_small m w n : 0 <= m < 2 ^ w -> w <= n -> Z.shiftr m n = 0.
Proof.
  intros Hm Hn. assert (0 <= w) by (destruct (Z.le_gt_cases 0 w); [done|rewrite Z.pow_neg_r in Hm by lia; lia]).
  rewrite Z.shiftr_div_pow2 by lia. apply Z.div_small. pose proof (Z.pow_le_mono_r 2 w n). lia.
Qed.

Lemma jam_nonneg n j : 0 <= n -> 0 <= jam n j.
Proof. intros Hn. apply Z.lor_nonneg. split; [by apply Z.shiftr_nonneg|by destruct (nz _)]. Qed.

Lemma jam_jam n i j : 0 <= i -> 0 <= j -> jam (jam n i) j = jam n (i + j).
Proof.
  intros Hi Hj. destruct (Z.eq_dec j 0) as [->|]; [by rewrite jam_0, Z.add_0_r|]. pose proof (pow2_pos i Hi) as Pi. pose proof (pow2_pos j Hj) as Pj.
  assert (nz (jam n i mod 2 ^ j) = nz (n mod 2 ^ (i + j))) as En.
  { rewrite Z.pow_add_r, Z.rem_mul_r by lia. unfold jam at 1. rewrite Z.shiftr_div_pow2 by lia. pose proof (Z.mod_pos_bound n (2 ^ i) Pi).
    pose proof (Z.mod_pos_bound (n / 2 ^ i) (2 ^ j) Pj). unfold nz at 2. destruct (Z.eqb_spec (n mod 2 ^ i) 0) as [->|Hne]; cbn [negb Z.b2z].
    - rewrite Z.lor_0_r, Z.add_0_l. unfold nz. destruct (Z.eqb_spec ((n / 2 ^ i) mod 2 ^ j) 0) as [->|]; [by rewrite Z.mul_0_r|].
      by rewrite (proj2 (Z.eqb_neq (2 ^ i * _) 0)) by nia.
    - rewrite lor_1. set (q := n / 2 ^ i) in *. unfold nz. rewrite (proj2 (Z.eqb_neq (n mod 2 ^ i + _) 0)) by nia. cbn [negb].
      apply negb_true_iff, Z.eqb_neq. intros E. assert (Z.odd (q + Z.b2z (Z.even q)) = true) as Ho by (rewrite <- Z.negb_odd, Z.odd_add; by destruct (Z.odd q)).
      apply Z.div_exact in E; [|lia]. rewrite E, Z.odd_mul, Z.odd_pow in Ho by lia. done. }
  unfold jam at 1 3. rewrite En. f_equal. unfold jam. rewrite Z.shiftr_lor, Z.shiftr_shiftr by lia.
  assert (Z.shiftr (Z.b2z (nz (n mod 2 ^ i))) j = 0) as ->; [|apply Z.lor_0_r]. apply (shiftr_small _ 1); [destruct (nz (n mod 2 ^ i)); done|lia].
Qed.

(** * Two bits beyond the integer *)

Lemma sticky_quarter m y : sticky m (y * 4) ->
  match m mod 4 with
  | 0 => (y == inject_Z (m / 4))%Q
  | 1 => (inject_Z (m / 4) < y /\ y < inject_Z (m / 4) + (1 # 2))%Q
  | 2 => (y == inject_Z (m / 4) + (1 # 2))%Q
  | _ => (inject_Z (m / 4) + (1 # 2) < y /\ y < inject_Z (m / 4) + 1)%Q
  end.
Proof.
  intros Hs. pose proof (Z.div_mod m 4 ltac:(lia)) as E. pose proof (Z.mod_pos_bound m 4 ltac:(lia)) as Hr.
  set (q := m / 4) in *. assert (m mod 4 = 0 \/ m mod 4 = 1 \/ m mod 4 = 2 \/ m mod 4 = 3) as Hc by lia.
  destruct Hs as [Hs|(Ho & H1 & H2)].
  - rewrite E, inject_Z_plus, inject_Z_mult in Hs. change (inject_Z 4) with 4%Q in Hs.
    destruct Hc as [Ec|[Ec|[Ec|Ec]]]; rewrite Ec in *; unfold inject_Z in Hs |- *; try split; lra.
  - assert (inject_Z m == 4 * inject_Z q + inject_Z (m mod 4))%Q as Em.
    { rewrite E at 1. rewrite inject_Z_plus, inject_Z_mult. reflexivity. }
    unfold Z.sub in H1. rewrite inject_Z_plus in H1, H2. rewrite Em in H1, H2.
    assert (m mod 4 <> 0 /\ m mod 4 <> 2) as [N0 N2].
    { rewrite odd_mod2 in Ho. apply Z.eqb_eq in Ho. rewrite E in Ho.
      split; intros Ec; rewrite Ec in Ho; [replace (4 * q + 0) with (0 + 2 * q * 2) in Ho by lia|replace (4 * q + 2) with (0 + (2 * q + 1) * 2) in Ho by lia];
        by rewrite Z.mod_add in Ho. }
    destruct Hc as [Ec|[Ec|[Ec|Ec]]]; rewrite Ec in *; try done; change (inject_Z (- (1))) with (-1)%Q in H1;
      unfold inject_Z in *; try split; lra.
Qed.

Lemma Qfloor_between (y : Q) q : (inject_Z q <= y)%Q -> (y < inject_Z (q + 1))%Q -> Qfloor y = q.
Proof.
  intros H1 H2. pose proof (Qfloor_le y) as F1. pose proof (Qlt_floor y) as F2.
  assert (inject_Z (Qfloor y) < inject_Z (q + 1))%Q as A by lra. assert (inject_Z q < inject_Z (Qfloor y + 1))%Q as C by lra.
  rewrite <- Zlt_Qlt in A, C. lia.
Qed.

Lemma Qle_bool_false (a b : Q) : (b < a)%Q -> Qle_bool a b = false.
Proof. intros H. apply not_true_iff_false. rewrite Qle_bool_iff. intros H'. lra. Qed.
Lemma Qeq_bool_false (a b : Q) : (a < b)%Q \/ (b < a)%Q -> Qeq_bool a b = false.
Proof. intros H. apply not_true_iff_false. rewrite Qeq_bool_iff. intros H'. destruct H; lra. Qed.

(** The comparisons of a fraction, from its first two bits and the sticky bit. *)
Lemma quarter_bools m y : 0 <= m -> sticky m (y * 4) -> let e := m mod 4 in
  Qfloor y = m / 4 /\ Qeq_bool y (inject_Z (m / 4)) = (e =? 0) /\ Qeq_bool (y - inject_Z (m / 4)) 0 = (e =? 0) /\
  Qle_bool (y - inject_Z (m / 4)) (1 # 2) = (e <=? 2) /\ Qeq_bool (y - inject_Z (m / 4)) (1 # 2) = (e =? 2).
Proof.
  intros Hm Hs e. apply sticky_quarter in Hs. pose proof (Z.mod_pos_bound m 4 ltac:(lia)) as Hr. fold e in Hs, Hr.
  set (q := m / 4) in *. assert (e = 0 \/ e = 1 \/ e = 2 \/ e = 3) as Hc by lia.
  destruct Hc as [E|[E|[E|E]]]; rewrite E in Hs |- *; (split; [apply Qfloor_between; rewrite ?inject_Z_plus; change (inject_Z 1) with 1%Q; lra|]);
    split_and!; first [apply Qeq_bool_iff; lra | apply Qle_bool_iff; lra | apply Qeq_bool_false; lra | apply Qle_bool_false; lra].
Qed.

Lemma land_1 n : nz (Z.land n 1) = Z.odd n.
Proof. unfold nz. change 1 with (Z.ones 1) at 1. rewrite Z.land_ones by lia. change (2 ^ 1) with 2. rewrite Zmod_odd. by destruct (Z.odd n). Qed.

Lemma round_int_quarter m y rm sgn : 0 <= m -> sticky m (y * 4) -> rm <> FPRounding_TIEAWAY ->
  round_int rm (nz sgn) y =
    (let up := Z.shiftr m 2 + Z.b2z (rounds_up rm sgn (Z.shiftr m 2) (Z.land m 3)) in
     if nz (Z.land m 3) && (rm =? FPRounding_ODD) then Z.lor up 1 else up) /\
  is_integer y = negb (nz (Z.land m 3)) /\ Qfloor y = Z.shiftr m 2.
Proof.
  intros Hm Hs Hrm. destruct (quarter_bools m y Hm Hs) as (Hq & B1 & B2 & B3 & B4). pose proof (Z.mod_pos_bound m 4 ltac:(lia)) as Hr.
  change 3 with (Z.ones 2). rewrite Z.land_ones, Z.shiftr_div_pow2 by lia. change (2 ^ 2) with 4.
  unfold round_int, is_integer, rounds_up. rewrite Hq, B1, B2, B3, B4, land_1.
  change FPLIB_RN with FPRounding_TIEEVEN. change FPLIB_RP with FPRounding_POSINF. change FPLIB_RM with FPRounding_NEGINF.
  rewrite (proj2 (Z.eqb_neq rm FPRounding_TIEAWAY) Hrm).
  split; [|split; [unfold nz; by rewrite negb_involutive|done]].
  set (q := m / 4). rewrite lor_1, <- !Z.negb_odd, Z.odd_add.
  destruct (Z.eqb_spec rm FPRounding_TIEEVEN) as [->|]; [|destruct (Z.eqb_spec rm FPRounding_POSINF) as [->|]; [|destruct (Z.eqb_spec rm FPRounding_NEGINF) as [->|];
    [|destruct (Z.eqb_spec rm FPRounding_ODD) as [->|]]]];
    assert (m mod 4 = 0 \/ m mod 4 = 1 \/ m mod 4 = 2 \/ m mod 4 = 3) as [E|[E|[E|E]]] by lia; rewrite E; cbn;
    rewrite ?orb_false_r, ?andb_false_r, ?orb_false_l, ?andb_true_r; unfold nz; rewrite ?negb_involutive; repeat case_match; cbn in *; try done; try lia;
    destruct (Z.odd q); cbn; lia.
Qed.

(** * The formats *)

(** What the three formats have in common. *)
Record fmt_ok (F : Format) : Prop := {
  fm_P : 10 <= f_P F; fm_E : 5 <= f_E F <= 11; fm_W : f_W F = 1 + f_E F + f_P F; fm_64 : f_W F <= 64;
  fm_low : f_low F = 2 ^ (f_W F - f_P F - 2) - 1 \/ f_low F = 2 ^ (f_W F - f_P F - 1) - 1 }.

Lemma F16_ok : fmt_ok F16.
Proof. split; cbn; lia. Qed.
Lemma F32_ok : fmt_ok F32.
Proof. split; cbn; lia. Qed.
Lemma F64_ok : fmt_ok F64.
Proof. split; cbn; lia. Qed.
#[export] Hint Resolve F16_ok F32_ok F64_ok : core.

(** * Bits *)

Lemma land_mask m n : 0 <= n -> Z.land m (2 ^ n - 1) = m mod 2 ^ n.
Proof. intros Hn. rewrite <- Z.land_ones by done. f_equal. rewrite Z.ones_equiv. lia. Qed.

(** An or of parts that do not overlap is their sum. *)
Lemma lor_add a b n : 0 <= n -> a mod 2 ^ n = 0 -> 0 <= b < 2 ^ n -> Z.lor a b = a + b.
Proof.
  intros Hn Ha Hb. rewrite <- Z.lxor_lor, <- Z.add_nocarry_lxor; try done; apply bits_ext; intros i Hi; rewrite Z.land_spec, Z.bits_0;
    (destruct (Z.lt_ge_cases i n); [|by rewrite (testbit_above n b), andb_false_r];
     rewrite <- (Z.mod_pow2_bits_low a n i) by lia; by rewrite Ha, Z.bits_0).
Qed.

Lemma lsr_shiftr W m n : 0 <= m < 2 ^ W -> 0 <= W -> 0 <= n < 2 ^ 32 -> lsr W m n = Z.shiftr m n.
Proof.
  intros Hm HW Hn. unfold lsr. rewrite wrap_u_id by done. destruct (Z.ltb_spec n W); [done|]. by rewrite (shiftr_small m W n).
Qed.

(** The bits a shift by [n] loses. *)
Lemma lost_bits W m n : 0 <= m < 2 ^ W -> 0 <= W -> 0 <= n < 2 ^ 32 -> Z.land m (wrap_u W (lsl W 1 n - 1)) = m mod 2 ^ n.
Proof.
  intros Hm HW Hn. unfold lsl. rewrite (wrap_u_id 32 n) by done. destruct (Z.ltb_spec n W) as [H|H].
  - rewrite Z.shiftl_1_l. pose proof (Z.pow_lt_mono_r 2 n W ltac:(lia) HW H). pose proof (pow2_pos n ltac:(lia)).
    rewrite (wrap_u_id W (2 ^ n)), wrap_u_id by lia. apply land_mask; lia.
  - unfold wrap_u. replace ((0 - 1) mod 2 ^ W) with (2 ^ W - 1) by (apply (Z.mod_unique_pos _ _ (-1)); lia).
    rewrite land_mask by done. pose proof (Z.pow_le_mono_r 2 W n ltac:(lia) H). rewrite !Z.mod_small by lia. done.
Qed.

Lemma align_jam W m n : 0 <= m < 2 ^ W -> 0 <= W -> 0 <= n < 2 ^ 32 -> align W m n = jam m n.
Proof. intros. unfold align, jam. by rewrite lsr_shiftr, lost_bits. Qed.

Lemma jam_add a n j : 0 <= j -> a mod 2 ^ j = 0 -> jam (a + n) j = Z.lor (a / 2 ^ j + n / 2 ^ j) (Z.b2z (nz (n mod 2 ^ j))).
Proof.
  intros Hj Ha. pose proof (pow2_pos j Hj). pose proof (Z.div_mod a (2 ^ j) ltac:(lia)) as E. rewrite Ha, Z.add_0_r in E. unfold jam.
  rewrite Z.shiftr_div_pow2 by done. replace (a + n) with (n + a / 2 ^ j * 2 ^ j) by lia.
  rewrite Z.div_add, Z.mod_add by lia. by rewrite Z.add_comm.
Qed.

(** [mnt] with its leading bit, collapsed. *)
Lemma collapse F mnt : fmt_ok F -> 0 <= mnt < 2 ^ f_W F ->
  Z.lor (Z.lor (2 ^ (f_P F + 2)) (Z.shiftr mnt (f_W F - f_P F - 2))) (Z.b2z (nz (Z.land mnt (f_low F)))) =
  jam (2 ^ f_W F + mnt) (f_W F - f_P F - 2).
Proof.
  intros [HP HE HW H64 Hlow] Hm. set (k := f_W F - f_P F - 2) in *. assert (f_W F = f_P F + 2 + k) as Ew by lia.
  pose proof (pow2_pos k ltac:(lia)) as Hk. pose proof (pow2_pos (f_P F + 2) ltac:(lia)) as HP2.
  assert (2 ^ f_W F = 2 ^ (f_P F + 2) * 2 ^ k) as E2 by (rewrite <- Z.pow_add_r by lia; f_equal; lia). rewrite E2 in Hm |- *.
  rewrite jam_add by (try lia; by rewrite Z.mod_mul by lia). rewrite Z.div_mul by lia.
  rewrite Z.shiftr_div_pow2 by lia. assert (0 <= mnt / 2 ^ k < 2 ^ (f_P F + 2)) as Hq.
  { split; [apply Z.div_pos; lia|]. apply Z.div_lt_upper_bound; lia. }
  rewrite (lor_add (2 ^ (f_P F + 2)) (mnt / 2 ^ k) (f_P F + 2)); [|lia|apply Z.mod_same; lia|done].
  destruct Hlow as [->| ->]; rewrite land_mask by lia; [done|]. replace (f_W F - f_P F - 1) with (k + 1) by lia.
  assert (mnt mod 2 ^ (k + 1) = mnt mod 2 ^ k + 2 ^ k * ((mnt / 2 ^ k) mod 2)) as Emod.
  { rewrite Z.pow_add_r by lia. change (2 ^ 1) with 2. by rewrite Z.rem_mul_r by lia. }
  pose proof (Z.mod_pos_bound mnt (2 ^ k) Hk). rewrite Zmod_odd in Emod. destruct (Z.odd (mnt / 2 ^ k)) eqn:Eo.
  - unfold nz. rewrite (proj2 (Z.eqb_neq (mnt mod 2 ^ (k + 1)) 0)) by lia. cbn [negb Z.b2z].
    destruct (mnt mod 2 ^ k =? 0); [|done]. cbn [negb Z.b2z]. rewrite Z.lor_0_r, lor_1, <- Z.negb_odd, Z.odd_add, Eo.
    rewrite Z.odd_pow by lia. cbn. lia.
  - by rewrite Emod, Z.mul_0_r, Z.add_0_r.
Qed.

(** The bits [split_mant] rounds on. *)
Definition quarters (F : Format) (exp mnt : Z) : Z := jam (jam (2 ^ f_W F + mnt) (f_W F - f_P F - 2)) (Z.max 0 (1 - exp)).

Lemma jam_bound n w j : 0 <= j <= w -> 0 <= n < 2 ^ w -> 0 <= jam n j < 2 ^ (w - j) \/ j = w /\ 0 <= jam n j <= 1.
Proof.
  intros Hj Hn. pose proof (pow2_pos j ltac:(lia)). pose proof (pow2_pos (w - j) ltac:(lia)). unfold jam. rewrite Z.shiftr_div_pow2 by lia.
  assert (0 <= n / 2 ^ j < 2 ^ (w - j)) as Hq.
  { split; [apply Z.div_pos; lia|]. apply Z.div_lt_upper_bound; [lia|]. rewrite <- Z.pow_add_r by lia. replace (j + (w - j)) with w by lia; lia. }
  destruct (nz (n mod 2 ^ j)); cbn [Z.b2z]; [|left; by rewrite Z.lor_0_r]. destruct (Z.eq_dec j w) as [->|].
  - right. rewrite Z.sub_diag in Hq. change (2 ^ 0) with 1 in Hq. replace (n / 2 ^ w) with 0 by lia. done.
  - left. rewrite lor_1. destruct (Z.even (n / 2 ^ j)) eqn:Ee; cbn [Z.b2z]; [|lia].
    assert (n / 2 ^ j <> 2 ^ (w - j) - 1); [|lia]. intros E. rewrite E, (pow2_double (w - j)) in Ee by lia.
    rewrite Z.even_sub, Z.even_mul in Ee. by cbn in Ee.
Qed.

Lemma split_mant_quarters F exp mnt : fmt_ok F -> 0 <= mnt < 2 ^ f_W F -> - 2 ^ 31 < exp ->
  split_mant F exp mnt = (Z.max 0 exp, Z.shiftr (quarters F exp mnt) 2, Z.land (quarters F exp mnt) 3).
Proof.
  intros HF Hm He. unfold split_mant, quarters. rewrite collapse by done. pose proof HF as [HP HE HW H64 _].
  set (M := jam _ (f_W F - f_P F - 2)). destruct (Z.ltb_spec 0 exp) as [H|H].
  - rewrite Z.max_r, Z.max_l, jam_0 by lia. done.
  - rewrite Z.max_l, Z.max_r by lia.
    assert (0 <= M < 2 ^ f_W F) as HM.
    { destruct (jam_bound (2 ^ f_W F + mnt) (f_W F + 1) (f_W F - f_P F - 2)) as [Hj|[? _]]; [lia| |fold M in Hj|lia].
      - rewrite Z.pow_add_r by lia. lia.
      - pose proof (Z.pow_le_mono_r 2 (f_W F + 1 - (f_W F - f_P F - 2)) (f_W F)). lia. }
    rewrite !lsr_shiftr, lost_bits by lia. unfold jam. set (b := Z.b2z _).
    assert (Z.shiftr b 2 = 0 /\ Z.land b 3 = b) as [E1 E2] by (unfold b; by destruct (nz _)).
    rewrite Z.shiftr_lor, E1, Z.lor_0_r, Z.land_lor_distr_l, E2, Z.shiftr_shiftr by lia.
    by replace (1 - exp + 2) with (3 - exp) by lia.
Qed.

(** * Packing *)

Section Pack.
Context (F : Format) (HF : fmt_ok F).
Local Abbreviation W := (f_W F).
Local Abbreviation P := (f_P F).

Lemma top_exp_bounds : 31 <= top_exp F /\ top_exp F + 1 = 2 ^ f_E F.
Proof. destruct HF as [_ HE _ _ _]. unfold top_exp. pose proof (Z.pow_le_mono_r 2 5 (f_E F)). lia. Qed.

Lemma W_split : 2 ^ (W - 1) = 2 ^ f_E F * 2 ^ P /\ 0 < 2 ^ P /\ 2 ^ W = 2 * 2 ^ (W - 1).
Proof.
  destruct HF as [HP HE HW _ _]. split; [rewrite <- Z.pow_add_r by lia; f_equal; lia|]. split; [apply pow2_pos; lia|]. apply pow2_double. lia.
Qed.

Lemma pack_sum sgn exp mnt : 0 <= sgn <= 1 -> 0 <= exp <= top_exp F ->
  pack F sgn exp mnt = sgn * 2 ^ (W - 1) + exp * 2 ^ P + mnt mod 2 ^ P.
Proof.
  intros Hs He. destruct top_exp_bounds as [T1 T2], W_split as (E1 & H1 & E2). pose proof HF as [HP HE HW H64 _]. unfold pack.
  pose proof (Z.pow_le_mono_r 2 (f_E F) (W - 1) ltac:(lia) ltac:(lia)) as H2. pose proof (Z.mod_pos_bound mnt (2 ^ P) H1) as Hm.
  rewrite (wrap_u_id W sgn), (wrap_u_id W exp) by lia. rewrite land_mask by lia.
  assert (wrap_u W mnt mod 2 ^ P = mnt mod 2 ^ P) as ->.
  { unfold wrap_u. rewrite E2, E1, (Z.mul_comm (2 ^ f_E F)), Z.mul_assoc, (Z.mul_comm 2), <- Z.mul_assoc.
    rewrite Z.rem_mul_r by nia. rewrite (Z.mul_comm (2 ^ P)), Z.mod_add by lia. by rewrite Z.mod_mod by lia. }
  rewrite !Z.shiftl_mul_pow2 by lia. assert (0 <= exp * 2 ^ P < 2 ^ (W - 1)) as Hx by nia.
  rewrite (lor_add _ (exp * 2 ^ P) (W - 1)); [|lia|apply Z.mod_mul; lia|done].
  rewrite (lor_add _ (mnt mod 2 ^ P) P); [|lia| |done].
  - apply wrap_u_id. nia.
  - rewrite E1, Z.mul_assoc, <- Z.mul_add_distr_r. apply Z.mod_mul. lia.
Qed.

Lemma pack_zero sgn : 0 <= sgn <= 1 -> zero F sgn = with_sign F sgn 0.
Proof. intros Hs. unfold zero, with_sign. rewrite pack_sum, Z.mod_0_l by (destruct top_exp_bounds, W_split; lia). lia. Qed.
Lemma pack_infinity sgn : 0 <= sgn <= 1 -> infinity F sgn = with_sign F sgn (inf_mag F).
Proof. intros Hs. unfold infinity, with_sign, inf_mag. rewrite pack_sum, Z.mod_0_l by (destruct top_exp_bounds, W_split; lia). lia. Qed.
Lemma minus_one_mod b : 0 < b -> (-1) mod b = b - 1.
Proof. intros. symmetry. apply (Z.mod_unique_pos _ _ (-1)); lia. Qed.
Lemma pack_max_normal sgn : 0 <= sgn <= 1 -> max_normal F sgn = with_sign F sgn (inf_mag F - 1).
Proof.
  intros Hs. destruct top_exp_bounds, W_split as (_ & ? & _). unfold max_normal, with_sign, inf_mag. rewrite pack_sum, minus_one_mod by lia. lia.
Qed.
Lemma pack_ahp_max sgn : 0 <= sgn <= 1 -> pack F sgn (top_exp F) (-1) = with_sign F sgn (inf_mag F + 2 ^ P - 1).
Proof.
  intros Hs. destruct top_exp_bounds, W_split as (_ & ? & _). unfold with_sign, inf_mag. rewrite pack_sum, minus_one_mod by lia. lia.
Qed.
End Pack.

(** * Rounding *)

Section Rounding.
Context (F : Format) (HF : fmt_ok F).
Local Abbreviation W := (f_W F).
Local Abbreviation P := (f_P F).

(** [2 ^ (exp - 1 - W) * (2 ^ W + mnt)] is [x] up to bits that rounding collapses
    anyway, or loses. *)
Definition represents (exp mnt : Z) (x : Q) : Prop :=
  0 <= mnt < 2 ^ W /\ sticky (quarters F exp mnt) (x * pow2 (- Z.max 0 (exp - 1)) * 4).

(** The even bounds of a number are bounds of what it stands for. *)
Lemma sticky_bounds n x lo hi : sticky n x -> Z.even lo = true -> Z.even hi = true -> lo <= n < hi ->
  (inject_Z lo <= x /\ x < inject_Z hi)%Q.
Proof.
  intros [->|(Ho & H1 & H2)] El Eh Hn; [rewrite <- Zle_Qle, <- Zlt_Qlt; lia|]. rewrite <- Z.negb_even in Ho. apply negb_true_iff in Ho.
  assert (n <> lo /\ n + 1 <= hi) as [? ?] by (split; [intros ->; congruence|lia]).
  split; [apply Qlt_le_weak; eapply Qle_lt_trans; [|exact H1]|eapply Qlt_le_trans; [exact H2|]]; rewrite <- Zle_Qle; lia.
Qed.

Lemma even_pow2 n : 1 <= n -> Z.even (2 ^ n) = true.
Proof. intros. by rewrite Z.even_pow by lia. Qed.

(** The binade of a number, or that it is below all of them. *)
Definition in_binade (exp : Z) (x : Q) : Prop :=
  (x < pow2 (P + Z.max 0 exp))%Q /\ (1 <= exp -> (pow2 (P + exp - 1) <= x)%Q).

Lemma collapsed_bounds mnt : 0 <= mnt < 2 ^ W -> 2 ^ (P + 2) <= jam (2 ^ W + mnt) (W - P - 2) < 2 ^ (P + 3).
Proof.
  intros Hm. pose proof HF as [HP HE HW _ _]. split.
  - unfold jam. rewrite Z.shiftr_div_pow2 by lia. assert (2 ^ (P + 2) <= (2 ^ W + mnt) / 2 ^ (W - P - 2)) as Hle.
    { apply Z.div_le_lower_bound; [apply pow2_pos; lia|]. rewrite <- Z.pow_add_r by lia. replace (W - P - 2 + (P + 2)) with W by lia. lia. }
    destruct (nz _); cbn [Z.b2z]; [rewrite lor_1; destruct (Z.even _); cbn; lia|by rewrite Z.lor_0_r].
  - destruct (jam_bound (2 ^ W + mnt) (W + 1) (W - P - 2)) as [Hj|[? _]]; [lia| |replace (W + 1 - (W - P - 2)) with (P + 3) in Hj by lia; lia|lia].
    rewrite Z.pow_add_r by lia. lia.
Qed.

Lemma four_pow2 (x : Q) e : (x * pow2 (- e) * 4 == x * pow2 (- (e - 2)))%Q.
Proof. change 4%Q with (pow2 2). rewrite <- Qmult_assoc, <- pow2_plus. replace (- e + 2) with (- (e - 2)) by lia. reflexivity. Qed.

Lemma represents_bounds exp mnt x : represents exp mnt x -> in_binade exp x.
Proof.
  intros [Hm Hs]. pose proof HF as [HP HE HW _ _]. pose proof (collapsed_bounds mnt Hm) as Hc. unfold quarters in Hs. rewrite four_pow2 in Hs.
  destruct (Z.le_gt_cases 1 exp) as [He|He]; unfold in_binade.
  - rewrite (Z.max_r 0 exp) by lia. rewrite (Z.max_l 0 (1 - exp)), jam_0, (Z.max_r 0 (exp - 1)) in Hs by lia.
    destruct (sticky_bounds _ _ _ _ Hs (even_pow2 (P + 2) ltac:(lia)) (even_pow2 (P + 3) ltac:(lia)) Hc) as [H1 H2].
    rewrite <- pow2_inject in H1, H2 by lia. apply pow2_shift_gt in H2. rewrite <- pow2_plus in H2. replace (P + 3 + (exp - 1 - 2)) with (P + exp) in H2 by lia.
    split; [done|]. intros _. apply Qnot_lt_le. apply Qle_not_lt in H1. rewrite <- pow2_shift_gt, <- pow2_plus in H1.
    by replace (P + 2 + (exp - 1 - 2)) with (P + exp - 1) in H1 by lia.
  - rewrite (Z.max_l 0 exp) by lia. rewrite (Z.max_r 0 (1 - exp)), (Z.max_l 0 (exp - 1)) in Hs by lia. split; [|lia].
    set (m := jam (2 ^ W + mnt) _) in *. assert (0 <= jam m (1 - exp) < 2 ^ (P + 2)) as Hj.
    { split; [apply jam_nonneg; pose proof (pow2_pos (P + 2) ltac:(lia)); lia|]. replace (1 - exp) with (1 + - exp) by lia. rewrite <- jam_jam by lia.
      destruct (jam_bound m (P + 3) 1) as [Hb|[? _]]; [lia|pose proof (pow2_pos (P + 2) ltac:(lia)); lia| |lia].
      replace (P + 3 - 1) with (P + 2) in Hb by lia. destruct (Z.le_gt_cases (- exp) (P + 2)).
      - destruct (jam_bound (jam m 1) (P + 2) (- exp)) as [Hb2|[-> Hb2]]; [lia|lia| |].
        + pose proof (Z.pow_le_mono_r 2 (P + 2 - - exp) (P + 2)). lia.
        + pose proof (Z.pow_le_mono_r 2 2 (P + 2)). lia.
      - unfold jam at 1. rewrite (shiftr_small (jam m 1) (P + 2)) by lia. pose proof (Z.pow_le_mono_r 2 2 (P + 2)). change (2 ^ 2) with 4 in *. rewrite Z.lor_0_l. destruct (nz _); cbn [Z.b2z]; lia. }
    destruct (sticky_bounds _ _ 0 _ Hs eq_refl (even_pow2 (P + 2) ltac:(lia)) Hj) as [_ H2].
    rewrite <- pow2_inject in H2 by lia. apply pow2_shift_gt in H2. rewrite <- pow2_plus in H2. by replace (P + 2 + (0 - 2)) with (P + 0) in H2 by lia.
Qed.

Lemma pow2_le a b : a <= b -> (pow2 a <= pow2 b)%Q.
Proof.
  intros H. replace b with (a + (b - a)) by lia. rewrite pow2_plus, (pow2_inject (b - a)) by lia.
  pose proof (pow2_pos (b - a) ltac:(lia)). pose proof (pow2_pos_Q a). assert (inject_Z 1 <= inject_Z (2 ^ (b - a)))%Q as H2 by (rewrite <- Zle_Qle; lia).
  change (inject_Z 1) with 1%Q in H2. nra.
Qed.

Lemma spec_shift_exp exp x : in_binade exp x -> spec_shift F x = Z.max 0 (exp - 1).
Proof.
  intros [H2 H1]. pose proof HF as [HP _ _ _ _]. unfold spec_shift. pose proof (Qfloor_le x) as F1. pose proof (Qlt_floor x) as F2.
  destruct (Z.le_gt_cases 1 exp) as [He|He].
  - specialize (H1 He). rewrite Z.max_r in H2 by lia. rewrite pow2_inject in H1, H2 by lia. assert (Z.log2 (Qfloor x) = P + exp - 1) as ->; [|lia].
    apply Z.log2_unique; [lia|]. replace (Z.succ (P + exp - 1)) with (P + exp) by lia. split.
    + assert (inject_Z (2 ^ (P + exp - 1)) < inject_Z (Qfloor x + 1))%Q as H by lra. rewrite <- Zlt_Qlt in H. lia.
    + assert (inject_Z (Qfloor x) < inject_Z (2 ^ (P + exp)))%Q as H by lra. by rewrite <- Zlt_Qlt in H.
  - rewrite Z.max_l, Z.add_0_r in H2 by lia. assert (Qfloor x < 2 ^ P) as H by (rewrite Zlt_Qlt, <- pow2_inject by lia; lra).
    assert (Z.log2 (Qfloor x) < P); [|lia]. destruct (Z.le_gt_cases (Qfloor x) 0); [rewrite Z.log2_nonpos by done; lia|]. by apply Z.log2_lt_pow2.
Qed.

Lemma tiny_exp exp x : in_binade exp x -> tiny F x = (exp <? 1).
Proof.
  intros [H2 H1]. pose proof HF as [HP _ _ _ _]. unfold tiny. destruct (Z.ltb_spec exp 1) as [H|H].
  - rewrite Z.max_l, Z.add_0_r in H2 by lia. apply negb_true_iff, Qle_bool_false. by rewrite <- pow2_inject by lia.
  - specialize (H1 H). apply negb_false_iff, Qle_bool_iff. rewrite <- pow2_inject by lia. pose proof (pow2_le P (P + exp - 1) ltac:(lia)). lra.
Qed.

(** The exponent and the mantissa after rounding are those of the rounded
    number; [be], [im]: before rounding. *)
Lemma round_carry (up odd : bool) exp im : (odd = true -> up = false) ->
  (if 0 <? exp then 2 ^ P <= im < 2 ^ (P + 1) else 0 <= im < 2 ^ P) ->
  let R := if odd then Z.lor (im + Z.b2z up) 1 else im + Z.b2z up in
  let T := R + Z.max 0 (exp - 1) * 2 ^ P in
  let '(be, im') :=
    if up then
      let im := wrap_u W (im + 1) in
      let be := if im =? 2 ^ P then 1 else Z.max 0 exp in
      if im =? 2 ^ (P + 1) then (be + 1, Z.shiftr im 1) else (be, im)
    else (Z.max 0 exp, im) in
  be = T / 2 ^ P /\ (if odd then Z.lor im' 1 else im') mod 2 ^ P = T mod 2 ^ P.
Proof.
  intros Hodd Him. pose proof HF as [HP HE HW H64 _]. pose proof (pow2_pos P ltac:(lia)) as HpP.
  assert (2 ^ (P + 1) = 2 * 2 ^ P) as E2 by (rewrite Z.pow_add_r by lia; lia).
  assert (forall b q r : Z, b = q * 2 ^ P + r -> 0 <= r < 2 ^ P -> b / 2 ^ P = q /\ b mod 2 ^ P = r) as Hdm.
  { intros b q r -> Hr. split; [symmetry; apply (Z.div_unique_pos _ _ _ r); lia|symmetry; apply (Z.mod_unique_pos _ _ q); lia]. }
  destruct up; cbn zeta.
  - destruct odd; [by specialize (Hodd eq_refl)|]. cbn [Z.b2z]. pose proof (Z.pow_le_mono_r 2 (P + 2) W ltac:(lia) ltac:(lia)) as Hw.
    rewrite Z.pow_add_r in Hw by lia. change (2 ^ 2) with 4 in Hw.
    rewrite wrap_u_id by (destruct (0 <? exp); lia). rewrite E2 in *.
    destruct (Z.ltb_spec 0 exp), (Z.eqb_spec (im + 1) (2 * 2 ^ P)) as [Ec|Hne]; try lia.
    + rewrite (proj2 (Z.eqb_neq (im + 1) (2 ^ P))) by lia. rewrite !Z.max_r, Ec by lia. rewrite Z.shiftr_div_pow2 by lia.
      replace (2 * 2 ^ P / 2 ^ 1) with (2 ^ P) by (change (2 ^ 1) with 2; rewrite Z.mul_comm, Z.div_mul by lia; done).
      rewrite Z.mod_same by lia. destruct (Hdm (2 * 2 ^ P + (exp - 1) * 2 ^ P) (exp + 1) 0) as [-> ->]; [lia..|done].
    + rewrite (proj2 (Z.eqb_neq (im + 1) (2 ^ P))) by lia. rewrite !Z.max_r by lia.
      destruct (Hdm (im + 1) 1 (im + 1 - 2 ^ P)) as [_ ->]; [lia..|].
      destruct (Hdm (im + 1 + (exp - 1) * 2 ^ P) exp (im + 1 - 2 ^ P)) as [-> ->]; [lia..|done].
    + rewrite !Z.max_l by lia. rewrite Z.mul_0_l, Z.add_0_r. destruct (Z.eqb_spec (im + 1) (2 ^ P)) as [Ec|Hne2].
      * destruct (Hdm (im + 1) 1 0) as [-> ->]; [lia..|done].
      * destruct (Hdm (im + 1) 0 (im + 1)) as [-> ->]; [lia..|done].
  - cbn [Z.b2z]. rewrite !Z.add_0_r. set (im' := if odd then Z.lor im 1 else im).
    assert (if 0 <? exp then 2 ^ P <= im' < 2 ^ (P + 1) else 0 <= im' < 2 ^ P) as Him'.
    { unfold im'. destruct odd; [|done]. rewrite lor_1. destruct (Z.even im) eqn:Ee; cbn [Z.b2z]; [|by rewrite Z.add_0_r].
      assert (Z.even (2 ^ (P + 1) - 1) = false /\ Z.even (2 ^ P - 1) = false) as [O1 O2] by (rewrite !Z.even_sub, !even_pow2 by lia; done).
      destruct (0 <? exp); split; try lia.
      - assert (im <> 2 ^ (P + 1) - 1) by congruence. lia.
      - assert (im <> 2 ^ P - 1) by congruence. lia. }
    clearbody im'. destruct (Z.ltb_spec 0 exp).
    + rewrite !Z.max_r by lia. destruct (Hdm im' 1 (im' - 2 ^ P)) as [_ ->]; [lia..|].
      destruct (Hdm (im' + (exp - 1) * 2 ^ P) exp (im' - 2 ^ P)) as [-> ->]; [lia..|done].
    + rewrite !Z.max_l by lia. rewrite Z.mul_0_l, Z.add_0_r. destruct (Hdm im' 0 im') as [-> ->]; [lia..|done].
Qed.

Lemma quarters_nonneg exp mnt : 0 <= mnt < 2 ^ W -> 0 <= quarters F exp mnt.
Proof. intros Hm. apply jam_nonneg, jam_nonneg. pose proof HF as [HP HE HW _ _]. pose proof (pow2_pos W ltac:(lia)). lia. Qed.

(** Rounding is correct. *)
Lemma round_correct sgn exp mnt rm mode flags x : 0 <= sgn <= 1 -> - 2 ^ 31 < exp -> rm <> FPRounding_TIEAWAY -> represents exp mnt x ->
  round_ F sgn exp mnt rm mode flags = Ok (spec_round F rm mode sgn x flags).
Proof.
  intros Hsgn Hexp Hrm Hrep. pose proof (represents_bounds _ _ _ Hrep) as Hbin. pose proof HF as [HP HE HW H64 _].
  pose proof Hrep as [Hm Hq]. pose proof (quarters_nonneg exp mnt Hm) as Hq0. pose proof (spec_shift_exp _ _ Hbin) as Hs. pose proof (tiny_exp _ _ Hbin) as Ht.
  destruct Hbin as [B2 B1].
  destruct (round_int_quarter _ _ rm sgn Hq0 Hq Hrm) as (HR & HI & HFl).
  unfold round_, spec_round. rewrite (proj2 (Z.eqb_neq _ _) Hrm), Ht. cbn [negb].
  rewrite split_mant_quarters by (done || apply Hrep). rewrite (pack_zero F HF) by done.
  destruct (negb (f_half F) && test mode FPLIB_FZ && (exp <? 1)); [done|].
  unfold spec_mag, exact. rewrite Hs, HR, HI. set (im := Z.shiftr (quarters F exp mnt) 2) in *. set (e := Z.land (quarters F exp mnt) 3) in *.
  cbn zeta. rewrite negb_involutive.
  assert ((Z.max 0 exp =? 0) && nz e = (exp <? 1) && nz e) as ->.
  { destruct (Z.eqb_spec (Z.max 0 exp) 0), (Z.ltb_spec exp 1); try done; lia. }
  assert (if 0 <? exp then 2 ^ P <= im < 2 ^ (P + 1) else 0 <= im < 2 ^ P) as Him.
  { rewrite <- HFl. pose proof (Qfloor_le (x * pow2 (- Z.max 0 (exp - 1)))) as F1. pose proof (Qlt_floor (x * pow2 (- Z.max 0 (exp - 1)))) as F2.
    assert (0 <= Qfloor (x * pow2 (- Z.max 0 (exp - 1)))) as F0 by (rewrite HFl; unfold im; by apply Z.shiftr_nonneg).
    set (f := Qfloor _) in *. destruct (Z.ltb_spec 0 exp).
    - specialize (B1 ltac:(lia)). rewrite Z.max_r in * by lia. replace (P + exp - 1) with (P + (exp - 1)) in B1 by lia. replace (P + exp) with (P + 1 + (exp - 1)) in B2 by lia.
      rewrite (pow2_plus P) in B1. rewrite (pow2_plus (P + 1)) in B2. apply Qle_not_lt in B1. rewrite pow2_shift_gt in B1. apply Qnot_lt_le in B1.
      rewrite pow2_shift_gt in B2. rewrite (pow2_inject P) in B1 by lia. rewrite (pow2_inject (P + 1)) in B2 by lia. split.
      + assert (inject_Z (2 ^ P) < inject_Z (f + 1))%Q as Hl by lra. rewrite <- Zlt_Qlt in Hl. lia.
      + rewrite Zlt_Qlt. lra.
    - rewrite Z.max_l in * by lia. split; [done|]. rewrite Zlt_Qlt, <- pow2_inject by lia. change (pow2 (- 0)) with 1%Q in F1.
      rewrite Z.add_0_r in B2. lra. }
  pose proof (round_carry (rounds_up rm sgn im e) (nz e && (rm =? FPRounding_ODD)) exp im) as Hc.
  assert (nz e && (rm =? FPRounding_ODD) = true -> rounds_up rm sgn im e = false) as Hodd.
  { intros [_ Hr]%andb_true_iff. apply Z.eqb_eq in Hr. by rewrite Hr. }
  specialize (Hc Hodd Him). cbn zeta in Hc. set (R := if nz e && (rm =? FPRounding_ODD) then Z.lor _ 1 else _) in *.
  set (T := R + Z.max 0 (exp - 1) * 2 ^ P) in *.
  destruct (if rounds_up rm sgn im e then _ else (Z.max 0 exp, im)) as [be im'] in Hc |- *. destruct Hc as [-> Him'].
  destruct (W_split F HF) as (_ & HpP & _). destruct (top_exp_bounds F HF) as [Ht1 _].
  assert (0 <= T) as HT.
  { unfold T. assert (0 <= R); [|nia]. unfold R. assert (0 <= im + Z.b2z (rounds_up rm sgn im e)) by (destruct (0 <? exp), (rounds_up rm sgn im e); cbn; lia).
    destruct (nz e && (rm =? FPRounding_ODD)); [apply Z.lor_nonneg|]; done. }
  pose proof (Z.div_mod T (2 ^ P) ltac:(lia)) as ET. pose proof (Z.mod_pos_bound T (2 ^ P) HpP) as HTm. pose proof (Z.div_pos T (2 ^ P) HT HpP).
  assert ((top_exp F <=? T / 2 ^ P) = (inf_mag F <=? T)) as -> by (unfold inf_mag; destruct (Z.leb_spec (top_exp F) (T / 2 ^ P)), (Z.leb_spec (top_exp F * 2 ^ P) T); (done || nia)).
  assert ((top_exp F + 1 <=? T / 2 ^ P) = (inf_mag F + 2 ^ P <=? T)) as -> by (unfold inf_mag; destruct (Z.leb_spec (top_exp F + 1) (T / 2 ^ P)), (Z.leb_spec (top_exp F * 2 ^ P + 2 ^ P) T); (done || nia)).
  destruct (f_half F && test mode FPLIB_AHP) eqn:Eahp; cbn [negb andb].
  - destruct (Z.leb_spec (inf_mag F + 2 ^ P) T); [by rewrite (pack_ahp_max F HF)|].
    f_equal. f_equal. rewrite (pack_sum F HF), Him' by (unfold inf_mag in *; nia). unfold with_sign. lia.
  - destruct (Z.leb_spec (inf_mag F) T).
    + f_equal. f_equal. destruct (overflows_to_inf rm sgn); [by apply pack_infinity|by apply pack_max_normal].
    + f_equal. f_equal. rewrite (pack_sum F HF), Him' by (unfold inf_mag in *; nia). unfold with_sign. lia.
Qed.
End Rounding.
