(* ===== verification/FpArith.v ===== *)
(** Addition, multiplication and fused multiplication and addition of [Fplib]
    round the exact result. *)
From Stdlib Require Import QArith Qpower Qround Qabs Lqa.
From S2P Require Import Prelude Fplib FpSpec FpRound.
#[local] Open Scope Z_scope.

(** * Normalising *)

Lemma normalise_loop_ok W k : forall mnt exp, 0 <= W - 2 ^ Z.of_nat k -> 2 ^ (W - 2 ^ Z.of_nat k) <= mnt < 2 ^ W ->
  exists sh, 0 <= sh < 2 ^ Z.of_nat k /\ normalise_loop W k mnt exp = (mnt * 2 ^ sh, exp - sh) /\ 2 ^ (W - 1) <= mnt * 2 ^ sh < 2 ^ W.
Proof.
  induction k as [|k IH]; intros mnt exp HW Hm.
  - exists 0. change (2 ^ Z.of_nat 0) with 1 in *. cbn [normalise_loop]. rewrite Z.pow_0_r, Z.mul_1_r, Z.sub_0_r. split; [lia|]. by split.
  - rewrite Nat2Z.inj_succ, Z.pow_succ_r in * by lia. pose proof (pow2_pos (Z.of_nat k) ltac:(lia)) as Hk. set (s := 2 ^ Z.of_nat k) in *.
    cbn [normalise_loop]. fold s. rewrite Z.shiftr_div_pow2, Z.shiftl_mul_pow2 by lia. pose proof (pow2_pos (W - s) ltac:(lia)) as Hp.
    assert (2 ^ W = 2 ^ (W - s) * 2 ^ s) as E by (rewrite <- Z.pow_add_r by lia; f_equal; lia). pose proof (pow2_pos s ltac:(lia)) as Hs.
    destruct (Z.eqb_spec (mnt / 2 ^ (W - s)) 0) as [E0|Hne].
    + apply Z.div_small_iff in E0; [|lia]. rewrite wrap_u_id by nia.
      destruct (IH (mnt * 2 ^ s) (exp - s)) as (sh & Hsh & -> & Hn); [lia| |].
      { replace (W - s) with (W - 2 * s + s) by lia. rewrite Z.pow_add_r by lia. nia. }
      exists (s + sh). rewrite Z.pow_add_r, Z.mul_assoc, Z.sub_add_distr by lia. split; [lia|]. by split.
    + assert (2 ^ (W - s) <= mnt).
      { destruct (Z.le_gt_cases (2 ^ (W - s)) mnt); [done|]. exfalso. apply Hne, Z.div_small. lia. }
      destruct (IH mnt exp) as (sh & Hsh & -> & Hn); [lia..|]. exists sh. split; [lia|]. by split.
Qed.

(** [N] is [n] shifted to the top of [W] bits, by [sh]. *)
Definition normal (W n sh : Z) : Prop := 0 <= sh < W /\ 2 ^ (W - 1) <= n * 2 ^ sh < 2 ^ W.

Lemma fp16_normalise_ok n exp : 0 < n < 2 ^ 16 -> exists sh, fp16_normalise n exp = (n * 2 ^ sh, exp - sh) /\ normal 16 n sh.
Proof.
  intros Hn. unfold fp16_normalise. rewrite (proj2 (Z.eqb_neq n 0)) by lia.
  destruct (normalise_loop_ok 16 4 n exp) as (sh & H1 & H2 & H3); [done|cbn; lia|]. by exists sh.
Qed.
Lemma fp32_normalise_ok n exp : 0 < n < 2 ^ 32 -> exists sh, fp32_normalise n exp = (n * 2 ^ sh, exp - sh) /\ normal 32 n sh.
Proof.
  intros Hn. unfold fp32_normalise. rewrite (proj2 (Z.eqb_neq n 0)) by lia.
  destruct (normalise_loop_ok 32 5 n exp) as (sh & H1 & H2 & H3); [done|cbn; lia|]. by exists sh.
Qed.
Lemma fp64_normalise_ok n exp : 0 < n < 2 ^ 64 -> exists sh, fp64_normalise n exp = (n * 2 ^ sh, exp - sh) /\ normal 64 n sh.
Proof.
  intros Hn. unfold fp64_normalise. rewrite (proj2 (Z.eqb_neq n 0)) by lia.
  destruct (normalise_loop_ok 64 6 n exp) as (sh & H1 & H2 & H3); [done|cbn; lia|]. by exists sh.
Qed.

(** The formats of arithmetic. *)
Definition arith (F : Format) : Prop := F = F32 \/ F = F64.
Lemma arith_ok F : arith F -> fmt_ok F.
Proof. intros [->| ->]; auto. Qed.
Lemma normalise_ok F n exp : arith F -> 0 < n < 2 ^ f_W F ->
  exists sh, normalise F n exp = (n * 2 ^ sh, exp - sh) /\ normal (f_W F) n sh.
Proof. intros [->| ->] Hn; [by apply fp32_normalise_ok|by apply fp64_normalise_ok]. Qed.

(** * From a significand to a number *)

Lemma jam_shl n j k : 0 <= j <= k -> jam (n * 2 ^ j) k = jam n (k - j).
Proof.
  intros Hj. unfold jam. pose proof (pow2_pos j ltac:(lia)). pose proof (pow2_pos (k - j) ltac:(lia)).
  assert (2 ^ k = 2 ^ (k - j) * 2 ^ j) as E by (rewrite <- Z.pow_add_r by lia; f_equal; lia).
  rewrite !Z.shiftr_div_pow2 by lia. rewrite E, Z.div_mul_cancel_r, Z.mul_mod_distr_r by lia. f_equal. f_equal. unfold nz.
  destruct (Z.eqb_spec (n mod 2 ^ (k - j)) 0) as [->|]; [done|]. rewrite (proj2 (Z.eqb_neq _ _)); [done|nia].
Qed.

Lemma jam_shl_more n j k : 0 <= k <= j -> jam (n * 2 ^ j) k = n * 2 ^ (j - k).
Proof.
  intros Hk. pose proof (pow2_pos k ltac:(lia)). assert (n * 2 ^ j = n * 2 ^ (j - k) * 2 ^ k) as E.
  { rewrite <- Z.mul_assoc, <- Z.pow_add_r by lia. f_equal. f_equal. lia. }
  unfold jam. rewrite Z.shiftr_div_pow2, E, Z.div_mul, Z.mod_mul by lia. cbn. apply Z.lor_0_r.
Qed.

Section Represents.
Context (F : Format) (HF : fmt_ok F).
Local Abbreviation W := (f_W F).
Local Abbreviation P := (f_P F).

(** The significand of [W + 1] bits is [n * 2 ^ sh] with [c] bits collapsed,
    where [n] stands for [y], exactly or with a sticky bit that is not shifted
    too far left. *)
Lemma represents_intro exp mnt n sh c (x y : Q) : 0 <= mnt < 2 ^ W -> 0 <= sh -> 0 <= c -> 2 ^ W + mnt = jam (n * 2 ^ sh) c ->
  (y == inject_Z n)%Q \/ (sticky n y /\ sh - c <= W - P - 2 + Z.max 0 (1 - exp)) -> (x == y * pow2 (sh - c + exp - 1 - (W - P)))%Q ->
  represents F exp mnt x.
Proof.
  intros Hm Hsh Hc EM Hy Ex. pose proof HF as [HP HE HW _ _]. split; [done|]. unfold quarters. rewrite EM, !jam_jam by lia.
  set (t := c + (W - P - 2 + Z.max 0 (1 - exp))).
  assert (x * pow2 (- Z.max 0 (exp - 1)) * 4 == y * pow2 (sh - t))%Q as ->.
  { rewrite four_pow2, Ex, <- Qmult_assoc, <- pow2_plus. unfold t.
    by replace (sh - c + exp - 1 - (W - P) + - (Z.max 0 (exp - 1) - 2)) with (sh - (c + (W - P - 2 + Z.max 0 (1 - exp)))) by lia. }
  destruct Hy as [Hy|[Hy Hsk]].
  - replace (sh - t) with (sh + - t) by lia. rewrite pow2_plus, Qmult_assoc. apply sticky_jam; [lia|]. left. by rewrite Hy, inject_Z_mult, <- pow2_inject.
  - rewrite jam_shl by lia. replace (sh - t) with (- (t - sh)) by lia. apply sticky_jam; [lia|done].
Qed.
End Represents.

(** * Operands *)

Section Operands.
Context (F : Format) (HF : fmt_ok F).
Local Abbreviation W := (f_W F).
Local Abbreviation P := (f_P F).

(** An operand whose denormals are flushed to zero, and the flag it raises. *)
Definition flushed (mode a : Z) : bool := negb (f_half F) && test mode FPLIB_FZ && (mag_of F a <? 2 ^ P).
Definition in_val (mode a : Z) : Q := if flushed mode a then 0 else val F a.
Definition in_flags (mode a flags : Z) : Z := if flushed mode a && nz (mag_of F a) then Z.lor flags FPLIB_IDC else flags.

Lemma fields a : pattern F a ->
  (sign_of F a = 0 \/ sign_of F a = 1) /\ 0 <= mag_of F a < 2 ^ (W - 1) /\ a = with_sign F (sign_of F a) (mag_of F a) /\
  Z.shiftr a (W - 1) = sign_of F a /\ Z.land (Z.shiftr a P) (top_exp F) = mag_of F a / 2 ^ P /\ Z.land a (2 ^ P - 1) = mag_of F a mod 2 ^ P.
Proof.
  intros Ha. unfold pattern in Ha. destruct (W_split F HF) as (E1 & HP & E2). pose proof HF as [HP10 HE HW _ _].
  pose proof (pow2_pos (f_E F) ltac:(lia)) as HpE. assert (0 < 2 ^ (W - 1)) as HW1 by nia.
  unfold sign_of, mag_of, with_sign. pose proof (Z.mod_pos_bound a (2 ^ (W - 1)) HW1) as Hm. pose proof (Z.div_mod a (2 ^ (W - 1)) ltac:(lia)) as Ed.
  assert (0 <= a / 2 ^ (W - 1) < 2) as Hs by (split; [apply Z.div_pos; lia|apply Z.div_lt_upper_bound; lia]).
  split; [lia|]. split; [done|]. split; [lia|]. split; [apply Z.shiftr_div_pow2; lia|]. split.
  - unfold top_exp. rewrite land_mask, Z.shiftr_div_pow2 by lia. rewrite E1, (Z.mul_comm (2 ^ f_E F)), Z.rem_mul_r by lia.
    rewrite (Z.add_comm (a mod _)), (Z.mul_comm (2 ^ P)), Z.div_add_l by lia. rewrite (Z.div_small (a mod 2 ^ P)) by (apply Z.mod_pos_bound; lia). lia.
  - rewrite land_mask by lia. rewrite E1, (Z.mul_comm (2 ^ f_E F)), Z.rem_mul_r by lia.
    rewrite (Z.mul_comm (2 ^ P)), Z.mod_add, Z.mod_mod by lia. done.
Qed.

Record operand (mode a flags s e m flags' : Z) : Prop := {
  op_unpack : unpack F a mode flags = (s, e, m, flags');
  op_sgn : s = sign_of F a /\ (s = 0 \/ s = 1);
  op_exp : 1 <= e < top_exp F;
  op_mnt : 0 <= m < 2 ^ (P + 1) /\ (e = 1 \/ 2 ^ P <= m);
  op_val : (in_val mode a == signed s (inject_Z m * pow2 (e - 1) * ulp F))%Q;
  op_flags : flags' = in_flags mode a flags }.

#[export] Instance signed_proper s : Proper (Qeq ==> Qeq) (signed s).
Proof. intros x y E. unfold signed. destruct (nz s); by rewrite E. Qed.

Lemma signed_0 s x : (x == 0)%Q -> (signed s x == 0)%Q.
Proof. intros E. unfold signed. destruct (nz s); rewrite E; reflexivity. Qed.

Lemma unpack_finite mode a flags : finite F a -> exists s e m flags', operand mode a flags s e m flags'.
Proof.
  intros [Ha Hf]. destruct (fields a Ha) as (Hs & Hm & _ & F1 & F2 & F3). destruct (W_split F HF) as (E1 & HP & _). pose proof HF as [HP10 _ _ _ _].
  unfold inf_mag in Hf. pose proof (Z.div_mod (mag_of F a) (2 ^ P) ltac:(lia)) as Ed. pose proof (Z.mod_pos_bound (mag_of F a) (2 ^ P) HP) as Hmod.
  pose proof (Z.div_pos (mag_of F a) (2 ^ P) ltac:(lia) HP) as Hdiv. destruct (top_exp_bounds F HF) as [T1 T2].
  assert (mag_of F a / 2 ^ P < top_exp F) as Hlt by (apply Z.div_lt_upper_bound; lia).
  assert (2 ^ (P + 1) = 2 * 2 ^ P) as E2 by (rewrite Z.pow_add_r by lia; lia).
  pose proof (conj eq_refl Hs : sign_of F a = sign_of F a /\ _) as Hsgn.
  unfold in_val, in_flags, val, mag_value. destruct (Z.ltb_spec (mag_of F a) (2 ^ P)) as [Hsmall|Hbig].
  - rewrite (Z.div_small (mag_of F a)) in * by lia. rewrite (Z.mod_small (mag_of F a)) in * by lia.
    assert (forall z : Z, (inject_Z z * pow2 (1 - 1) * ulp F == inject_Z z * ulp F)%Q) as Ep by (intros; change (pow2 (1 - 1)) with 1%Q; ring).
    destruct (negb (f_half F) && test mode FPLIB_FZ) eqn:Efz; [destruct (nz (mag_of F a)) eqn:En|].
    + exists (sign_of F a), 1, 0, (Z.lor flags FPLIB_IDC).
      split; unfold unpack, in_val, in_flags, flushed; rewrite ?F1, ?F2, ?F3, ?Efz, ?En, ?(proj2 (Z.ltb_lt _ _) Hsmall); cbn; try done; try lia.
      symmetry. apply signed_0. rewrite Ep. ring.
    + exists (sign_of F a), 1, (mag_of F a), flags.
      split; unfold unpack, in_val, in_flags, flushed; rewrite ?F1, ?F2, ?F3, ?Efz, ?En, ?(proj2 (Z.ltb_lt _ _) Hsmall); cbn; try done; try lia.
      symmetry. apply signed_0. rewrite Ep. unfold nz in En. apply negb_false_iff, Z.eqb_eq in En. rewrite En. ring.
    + exists (sign_of F a), 1, (mag_of F a), flags.
      split; unfold unpack, in_val, in_flags, flushed; rewrite ?F1, ?F2, ?F3, ?Efz; cbn; try done; try lia.
      unfold val, mag_value. rewrite (proj2 (Z.ltb_lt _ _) Hsmall). unfold signed. destruct (nz _); rewrite Ep; reflexivity.
  - assert (1 <= mag_of F a / 2 ^ P) as Hd1 by (apply Z.div_le_lower_bound; lia).
    exists (sign_of F a), (mag_of F a / 2 ^ P), (2 ^ P + mag_of F a mod 2 ^ P), flags.
    assert (nz (mag_of F a / 2 ^ P) = true) as En by (unfold nz; apply negb_true_iff, Z.eqb_neq; lia).
    split; unfold unpack, in_val, in_flags, flushed; rewrite ?F1, ?F2, ?F3, ?En, ?(proj2 (Z.ltb_ge _ _) Hbig), ?andb_false_r; cbn; try done; try lia.
    + do 2 f_equal. rewrite Z.lor_comm, (lor_add _ _ P) by (try apply Z.mod_same; lia). done.
    + unfold val, mag_value. rewrite (proj2 (Z.ltb_ge _ _) Hbig). rewrite (pow2_inject (mag_of F a / 2 ^ P - 1)), <- inject_Z_mult by lia. reflexivity.
Qed.

Lemma not_nan a : finite F a -> is_nan F a = false.
Proof.
  intros [Ha Hf]. destruct (fields a Ha) as (_ & Hm & _ & _ & F2 & F3). destruct (W_split F HF) as (E1 & HP & _). unfold is_nan. rewrite F2.
  unfold inf_mag in Hf. assert (mag_of F a / 2 ^ P < top_exp F) as Hlt by (apply Z.div_lt_upper_bound; lia).
  by rewrite (proj2 (Z.eqb_neq _ _)) by lia.
Qed.

Lemma process_NaNs_finite a b mode flags : finite F a -> finite F b -> process_NaNs F a b mode flags = (0, flags).
Proof. intros Ha Hb. unfold process_NaNs, is_snan. by rewrite !not_nan. Qed.
Lemma process_NaNs3_finite a b c mode flags : finite F a -> finite F b -> finite F c -> process_NaNs3 F a b c mode flags = (0, flags).
Proof. intros Ha Hb Hc. unfold process_NaNs3, is_snan. by rewrite !not_nan. Qed.
End Operands.

(** * Sums *)

Lemma sticky_add c n y : Z.even c = true -> sticky n y -> sticky (c + n) (inject_Z c + y).
Proof.
  intros Hc [->|(Ho & H1 & H2)]; [left; by rewrite inject_Z_plus|right]. rewrite Z.odd_add, Ho, <- Z.negb_even, Hc. split; [done|].
  replace (c + n - 1) with (c + (n - 1)) by lia. replace (c + n + 1) with (c + (n + 1)) by lia. rewrite !inject_Z_plus in *. lra.
Qed.
Lemma sticky_opp n y : sticky n y -> sticky (- n) (- y).
Proof.
  intros [->|(Ho & H1 & H2)]; [left; by rewrite inject_Z_opp|right]. rewrite Z.odd_opp. split; [done|].
  replace (- n - 1) with (- (n + 1)) by lia. replace (- n + 1) with (- (n - 1)) by lia. rewrite !inject_Z_opp. lra.
Qed.
Lemma sticky_sign n y : sticky n y -> ((0 < n)%Z -> (0 < y)%Q) /\ (n = 0 -> (y == 0)%Q).
Proof.
  intros [->|(Ho & H1 & H2)]; [split; [intros H; change 0%Q with (inject_Z 0); by rewrite <- Zlt_Qlt|by intros ->]|].
  split; [|by intros ->]. intros H. eapply Qle_lt_trans; [|exact H1]. change 0%Q with (inject_Z 0). rewrite <- Zle_Qle. lia.
Qed.

(** The magnitude and the sign of a sum. *)
Lemma signed_abs s (v X : Q) : s = 0 \/ s = 1 -> (0 < X)%Q -> (v == signed s X)%Q ->
  (Qabs v == X)%Q /\ Z.b2z (negb (Qle_bool 0 v)) = s /\ Qeq_bool v 0 = false.
Proof.
  intros [->| ->] HX E; cbn in E.
  - split_and!.
    + rewrite E. apply Qabs_pos. lra.
    + rewrite (proj2 (Qle_bool_iff 0 v)) by lra. done.
    + apply Qeq_bool_false. right. lra.
  - split_and!.
    + rewrite E, Qabs_opp. apply Qabs_pos. lra.
    + rewrite Qle_bool_false by lra. done.
    + apply Qeq_bool_false. left. lra.
Qed.

Lemma ulp_pos F : (0 < ulp F)%Q.
Proof. apply pow2_pos_Q. Qed.

Section Sum.
Context (F : Format) (HF : fmt_ok F).
Local Abbreviation W := (f_W F).
Local Abbreviation P := (f_P F).

(** The smaller operand, aligned, with [g] bits to spare: nothing is lost, or
    the other is much larger. *)
Lemma aligned m g d : 0 <= m < 2 ^ (P + 1) -> 0 <= g -> 0 <= d -> let n := jam (m * 2 ^ g) d in
  0 <= n /\ sticky n (inject_Z m * pow2 (g - d)) /\ ((inject_Z m * pow2 (g - d) == inject_Z n)%Q \/ (g < d /\ n <= 2 ^ P)).
Proof.
  intros Hm Hg Hd n. pose proof HF as [HP _ _ _ _]. pose proof (pow2_pos g Hg).
  assert (sticky (m * 2 ^ g) (inject_Z m * pow2 g)) as H0 by (left; by rewrite inject_Z_mult, <- pow2_inject).
  apply (sticky_jam _ _ d) in H0; [|done]. rewrite <- Qmult_assoc, <- pow2_plus in H0. replace (g + - d) with (g - d) in H0 by lia.
  assert (0 <= n) as Hn by (apply Z.lor_nonneg; split; [apply Z.shiftr_nonneg; lia|by destruct (nz _)]).
  split; [done|]. split; [done|]. destruct (Z.le_gt_cases d g) as [Hle|Hgt].
  - left. unfold n. rewrite jam_shl_more by lia. by rewrite inject_Z_mult, <- pow2_inject by lia.
  - right. split; [lia|]. unfold n. rewrite jam_shl by lia. unfold jam. rewrite Z.shiftr_div_pow2 by lia.
    assert (0 <= m / 2 ^ (d - g) < 2 ^ P) as Hq.
    { pose proof (pow2_pos (d - g) ltac:(lia)). split; [apply Z.div_pos; lia|]. apply Z.div_lt_upper_bound; [lia|].
      rewrite <- Z.pow_add_r by lia. pose proof (Z.pow_le_mono_r 2 (P + 1) (d - g + P)). lia. }
    destruct (nz _); cbn [Z.b2z]; [rewrite lor_1; destruct (Z.even _); cbn; lia|rewrite Z.lor_0_r; lia].
Qed.

(** What an addition does with aligned significands. *)
Definition sum_mant (s1 s2 A B : Z) : Z * Z :=
  if s1 =? s2 then (s1, A + B) else if B <=? A then (s1, A - B) else (Z.lxor s1 1, B - A).

(** [A] and [B] stand for [y1] and [y2]; one of them is exact and even. *)
Definition summands (A B : Z) (y1 y2 : Q) : Prop :=
  (Z.even A = true /\ (y1 == inject_Z A)%Q /\ sticky B y2) \/ (Z.even B = true /\ (y2 == inject_Z B)%Q /\ sticky A y1).

Lemma sticky_sum A B y1 y2 : summands A B y1 y2 ->
  sticky (A + B) (y1 + y2) /\ sticky (A - B) (y1 - y2) /\ sticky (B - A) (y2 - y1).
Proof.
  intros [(He & E & Hs)|(He & E & Hs)].
  - rewrite E. split; [by apply sticky_add|]. split; [apply (sticky_add A (- B)); [done|by apply sticky_opp]|].
    replace (B - A) with (- A + B) by lia. assert (y2 - inject_Z A == inject_Z (- A) + y2)%Q as -> by (rewrite inject_Z_opp; ring).
    apply sticky_add; [by rewrite Z.even_opp|done].
  - rewrite E. rewrite Z.add_comm, Qplus_comm. split; [by apply sticky_add|].
    split; [|apply (sticky_add B (- A)); [done|by apply sticky_opp]].
    replace (A - B) with (- B + A) by lia. assert (y1 - inject_Z B == inject_Z (- B) + y1)%Q as -> by (rewrite inject_Z_opp; ring).
    apply sticky_add; [by rewrite Z.even_opp|done].
Qed.

Lemma sum_mant_ok s1 s2 A B (y1 y2 : Q) : s1 = 0 \/ s1 = 1 -> s2 = 0 \/ s2 = 1 -> 0 <= A -> 0 <= B -> summands A B y1 y2 ->
  let '(s, z) := sum_mant s1 s2 A B in
  (s = 0 \/ s = 1) /\ Z.abs (A - B) <= z <= A + B /\ exists Y : Q, sticky z Y /\ (signed s1 y1 + signed s2 y2 == signed s Y)%Q /\
    ((y1 == inject_Z A)%Q -> (y2 == inject_Z B)%Q -> (Y == inject_Z z)%Q).
Proof.
  intros Hs1 Hs2 HA HB Hy. apply sticky_sum in Hy as (H1 & H2 & H3). unfold sum_mant. destruct (Z.eqb_spec s1 s2) as [<-|Hne].
  - split; [done|]. split; [lia|]. exists (y1 + y2)%Q. split; [done|]. split.
    + destruct Hs1 as [-> | ->]; cbn; ring.
    + intros -> ->. by rewrite inject_Z_plus.
  - destruct (Z.leb_spec B A).
    + split; [done|]. split; [lia|]. exists (y1 - y2)%Q. split; [done|]. split.
      * destruct Hs1 as [-> | ->], Hs2 as [-> | ->]; try done; cbn; ring.
      * intros -> ->. unfold Z.sub. by rewrite inject_Z_plus, inject_Z_opp.
    + split; [destruct Hs1 as [-> | ->]; auto|]. split; [lia|]. exists (y2 - y1)%Q. split; [done|]. split.
      * destruct Hs1 as [-> | ->], Hs2 as [-> | ->]; try done; [change (Z.lxor 0 1) with 1|change (Z.lxor 1 1) with 0]; cbn; ring.
      * intros -> ->. unfold Z.sub. by rewrite inject_Z_plus, inject_Z_opp.
Qed.

(** The sign of a sum that is zero. *)
Definition zero_sign (rm s1 s2 : Z) : Z := if s1 =? s2 then s1 else Z.b2z (rm =? FPLIB_RM).

(** A sum, rounded. *)
Definition rounded_sum (mode s1 s2 : Z) (v : Q) (flags : Z) : Z * Z :=
  if Qeq_bool v 0 then (with_sign F (zero_sign (Z.land mode 3) s1 s2) 0, flags) else rounded F mode v flags.

Lemma Qeq_bool_true (a b : Q) : (a == b)%Q -> Qeq_bool a b = true.
Proof. apply Qeq_bool_iff. Qed.

(** A sum of aligned significands that is zero. *)
Lemma sum_zero s1 s2 A B (y1 y2 : Q) s : s1 = 0 \/ s1 = 1 -> s2 = 0 \/ s2 = 1 -> 0 <= A -> 0 <= B -> summands A B y1 y2 -> sum_mant s1 s2 A B = (s, 0) ->
  (signed s1 y1 + signed s2 y2 == 0)%Q /\ (s1 = s2 -> (y1 == 0)%Q /\ (y2 == 0)%Q).
Proof.
  intros Hs1 Hs2 HA HB Hy E. pose proof (sum_mant_ok s1 s2 A B y1 y2 Hs1 Hs2 HA HB Hy) as Hsm. rewrite E in Hsm.
  destruct Hsm as (_ & _ & Y & HY & EY & _). apply (sticky_sign 0) in HY as [_ HY]. specialize (HY eq_refl).
  split; [by rewrite EY, (signed_0 s Y HY)|]. intros <-. unfold sum_mant in E. rewrite Z.eqb_refl in E. injection E as _ E.
  assert (A = 0 /\ B = 0) as [-> ->] by lia.
  destruct Hy as [(_ & Hy1 & Hy2)|(_ & Hy2 & Hy1)]; (split; [|]); (by rewrite Hy1 || by rewrite Hy2 || by apply (sticky_sign 0)).
Qed.
Lemma zero_factor (m e : Z) (y q : Q) : (inject_Z m * pow2 e == y * q)%Q -> (y == 0)%Q -> m = 0.
Proof.
  intros E Ey. rewrite Ey, Qmult_0_l in E. pose proof (pow2_pos_Q e) as Hp. apply Qmult_integral in E as [E|E]; [by apply inject_Z_injective, E|lra].
Qed.
End Sum.

Lemma finite_exp_top F (e : Z) : 1 <= e < top_exp F -> (e =? top_exp F) = false.
Proof. intros. apply Z.eqb_neq. lia. Qed.

Lemma rm_not_tieaway mode : Z.land mode 3 <> FPRounding_TIEAWAY.
Proof.
  change 3 with (Z.ones 2). rewrite Z.land_ones by lia. pose proof (Z.mod_pos_bound mode (2 ^ 2)). unfold FPRounding_TIEAWAY. lia.
Qed.

(** [round] of a significand that stands for [|v|]. *)
Lemma round_rounded F s exp mnt mode flags (v X : Q) : fmt_ok F -> s = 0 \/ s = 1 -> - 2 ^ 31 < exp -> (0 < X)%Q -> (v == signed s X)%Q ->
  represents F exp mnt (X / ulp F) -> round F s exp mnt mode flags = Ok (rounded F mode v flags).
Proof.
  intros HF Hs He HX Ev Hr. destruct (signed_abs s v X Hs HX Ev) as (Ea & Es & _). unfold round, rounded. rewrite Es.
  apply round_correct; [done|lia|done|apply rm_not_tieaway|]. destruct Hr as [Hm Hr]. split; [done|]. by rewrite Ea.
Qed.

(** The end of an addition in [W] bits, of significands [2 ^ g] times too large. *)
Lemma finish_sum F g s z e mode flags (v Y : Q) : arith F -> s = 0 \/ s = 1 -> 0 < z < 2 ^ f_W F -> 0 <= g -> - 2 ^ 30 < e < 2 ^ 30 -> sticky z Y ->
  (Y == inject_Z z)%Q \/ 2 ^ (f_P F + 2) <= z -> (v == signed s (Y * pow2 (e - 1 - g) * ulp F))%Q -> g <= 64 ->
  (let '(x_mnt, x_exp) := normalise F z e in
   round F s (x_exp + (f_W F - f_P F - 1 - g)) (wrap_u (f_W F) (Z.shiftl x_mnt 1)) mode flags) = Ok (rounded F mode v flags).
Proof.
  intros Har Hs Hz Hg He HY Hex Ev Hg64. pose proof (arith_ok F Har) as HF. pose proof HF as [HP HE HW H64 _].
  destruct (normalise_ok F z e Har Hz) as (sh & -> & Hsh & Hn). assert (2 ^ f_W F = 2 * 2 ^ (f_W F - 1)) as E2 by (apply pow2_double; lia).
  assert (wrap_u (f_W F) (Z.shiftl (z * 2 ^ sh) 1) = z * 2 ^ sh * 2 - 2 ^ f_W F) as ->.
  { rewrite Z.shiftl_mul_pow2 by lia. change (2 ^ 1) with 2. symmetry. apply (Z.mod_unique_pos _ _ 1); lia. }
  assert (0 < Y)%Q as HYp by (by apply (sticky_sign z Y); [|lia]). pose proof (ulp_pos F) as Hu. pose proof (pow2_pos_Q (e - 1 - g)) as Hp.
  apply (round_rounded F s _ _ mode flags v (Y * pow2 (e - 1 - g) * ulp F)%Q HF Hs); [lia| |done|].
  { apply Qmult_lt_0_compat; [by apply Qmult_lt_0_compat|done]. }
  assert (2 ^ f_W F + (z * 2 ^ sh * 2 - 2 ^ f_W F) = z * 2 ^ (sh + 1)) as EM by (rewrite Z.pow_add_r by lia; lia).
  apply (represents_intro F HF _ _ z (sh + 1) 0 _ Y); [lia|lia|lia|by rewrite jam_0| |].
  - destruct Hex as [|Hbig]; [by left|]. right. split; [done|]. assert (f_P F + 2 + sh < f_W F) as H; [|lia].
    apply (Z.pow_lt_mono_r_iff 2); [lia|lia|]. rewrite Z.pow_add_r by lia. pose proof (pow2_pos sh ltac:(lia)). nia.
  - unfold Qdiv. rewrite <- (Qmult_assoc (Y * _)), Qmult_inv_r, Qmult_1_r by lra.
    replace (sh + 1 - 0 + (e - sh + (f_W F - f_P F - 1 - g)) - 1 - (f_W F - f_P F)) with (e - 1 - g) by lia. reflexivity.
Qed.

Lemma arith_E F : arith F -> 8 <= f_E F.
Proof. intros [->| ->]; cbn; lia. Qed.

(** The operands of [add], aligned to the larger exponent. *)
Lemma add_align_ok F (HF : fmt_ok F) e1 e2 m1 m2 : 3 + f_P F + 2 <= f_W F -> 1 <= e1 < top_exp F -> 1 <= e2 < top_exp F ->
  0 <= m1 < 2 ^ (f_P F + 1) /\ (e1 = 1 \/ 2 ^ f_P F <= m1) -> 0 <= m2 < 2 ^ (f_P F + 1) /\ (e2 = 1 \/ 2 ^ f_P F <= m2) ->
  let '(A, B, e) :=
    if e2 <=? e1 then (wrap_u (f_W F) (Z.shiftl m1 3), align (f_W F) (wrap_u (f_W F) (Z.shiftl m2 3)) (e1 - e2), e1)
    else (align (f_W F) (wrap_u (f_W F) (Z.shiftl m1 3)) (e2 - e1), wrap_u (f_W F) (Z.shiftl m2 3), e2) in
  1 <= e < top_exp F /\ 0 <= A /\ 0 <= B /\ A + B < 2 ^ f_W F /\ exists y1 y2, summands A B y1 y2 /\
    (inject_Z m1 * pow2 (e1 - 1) == y1 * pow2 (e - 1 - 3))%Q /\ (inject_Z m2 * pow2 (e2 - 1) == y2 * pow2 (e - 1 - 3))%Q /\
    ((y1 == inject_Z A /\ y2 == inject_Z B)%Q \/ 2 ^ (f_P F + 2) <= Z.abs (A - B)).
Proof.
  intros HW5 He1 He2 [Hm1 Hn1] [Hm2 Hn2]. pose proof HF as [HP HE HW H64 _]. pose proof (top_exp_bounds F HF) as [_ Ht].
  pose proof (Z.pow_le_mono_r 2 (f_E F) 11 ltac:(lia) ltac:(lia)) as H11. change (2 ^ 11) with 2048 in H11.
  pose proof (Z.pow_le_mono_r 2 (f_P F + 5) (f_W F) ltac:(lia) ltac:(lia)) as HWb. pose proof (pow2_pos (f_P F) ltac:(lia)) as HpP.
  rewrite !Z.pow_add_r in * by lia. change (2 ^ 1) with 2 in *. change (2 ^ 5) with 32 in *. change (2 ^ 2) with 4. rewrite !Z.shiftl_mul_pow2 by lia.
  change (2 ^ 3) with 8. rewrite !wrap_u_id by lia.
  assert (forall m e d, (inject_Z m * pow2 (e - 1) == inject_Z m * pow2 (3 - d) * pow2 (e + d - 1 - 3))%Q) as Epow.
  { intros m e d. rewrite <- Qmult_assoc, <- pow2_plus. replace (3 - d + (e + d - 1 - 3)) with (e - 1) by lia. reflexivity. }
  assert (forall m, (inject_Z m * pow2 3 == inject_Z (m * 8))%Q) as E8 by (intros; rewrite inject_Z_mult; reflexivity).
  assert (forall m, Z.even (m * 8) = true) as Ev8 by (intros; by rewrite Z.even_mul, orb_true_r).
  assert (forall m d, 0 <= m < 2 ^ f_P F * 2 -> 0 <= d -> jam (m * 8) d <= m * 8) as Hjle.
  { intros m d Hm Hd. unfold jam. rewrite Z.shiftr_div_pow2 by lia. pose proof (pow2_pos d Hd).
    pose proof (Z.div_mod (m * 8) (2 ^ d) ltac:(lia)) as Ed. pose proof (Z.mod_pos_bound (m * 8) (2 ^ d) ltac:(lia)). pose proof (Z.div_pos (m * 8) (2 ^ d) ltac:(lia) ltac:(lia)).
    unfold nz. destruct (Z.eqb_spec (m * 8 mod 2 ^ d) 0); cbn [negb Z.b2z]; [rewrite Z.lor_0_r; nia|].
    rewrite lor_1. destruct (Z.even _); cbn [Z.b2z]; nia. }
  destruct (Z.leb_spec e2 e1) as [Hle|Hgt].
  - rewrite align_jam by lia. destruct (aligned F HF m2 3 (e1 - e2)) as (N1 & N2 & N3); [rewrite Z.pow_add_r by lia; lia|lia|lia|].
    change (2 ^ 3) with 8 in *. pose proof (Hjle m2 (e1 - e2) ltac:(lia) ltac:(lia)). split; [done|]. split; [lia|]. split; [done|]. split; [lia|].
    exists (inject_Z m1 * pow2 3)%Q, (inject_Z m2 * pow2 (3 - (e1 - e2)))%Q. split; [left; by rewrite E8|].
    split; [rewrite (Epow m1 e1 0); rewrite Z.sub_0_r; by replace (e1 + 0) with e1 by lia|].
    split; [rewrite (Epow m2 e2 (e1 - e2)); by replace (e2 + (e1 - e2)) with e1 by lia|].
    destruct N3 as [N3|[Hd N3]]; [left; by rewrite E8, N3|right]. destruct Hn1 as [->|Hn1]; lia.
  - rewrite align_jam by lia. destruct (aligned F HF m1 3 (e2 - e1)) as (N1 & N2 & N3); [rewrite Z.pow_add_r by lia; lia|lia|lia|].
    change (2 ^ 3) with 8 in *. pose proof (Hjle m1 (e2 - e1) ltac:(lia) ltac:(lia)). split; [done|]. split; [done|]. split; [lia|]. split; [lia|].
    exists (inject_Z m1 * pow2 (3 - (e2 - e1)))%Q, (inject_Z m2 * pow2 3)%Q. split; [right; by rewrite E8|].
    split; [rewrite (Epow m1 e1 (e2 - e1)); by replace (e1 + (e2 - e1)) with e2 by lia|].
    split; [rewrite (Epow m2 e2 0); rewrite Z.sub_0_r; by replace (e2 + 0) with e2 by lia|].
    destruct N3 as [N3|[Hd N3]]; [left; by rewrite E8, N3|right]. destruct Hn2 as [->|Hn2]; lia.
Qed.

Lemma signed_add_factor s1 s2 y1 y2 (p : Q) :
  (signed s1 (y1 * p) + signed s2 (y2 * p) == (signed s1 y1 + signed s2 y2) * p)%Q.
Proof. unfold signed. destruct (nz s1), (nz s2); ring. Qed.
Lemma signed_mul s y (p : Q) : (signed s (y * p) == signed s y * p)%Q.
Proof. unfold signed. destruct (nz s); ring. Qed.
Lemma signed_xor s neg x : s = 0 \/ s = 1 -> neg = 0 \/ neg = 1 -> (signed neg (signed s x) == signed (Z.lxor s neg) x)%Q.
Proof.
  intros [-> | ->] [-> | ->]; [change (Z.lxor 0 0) with 0|change (Z.lxor 0 1) with 1|change (Z.lxor 1 0) with 1|change (Z.lxor 1 1) with 0];
    unfold signed; cbn; ring.
Qed.

Lemma add_correct F a b neg mode flags : arith F -> finite F a -> finite F b -> neg = 0 \/ neg = 1 ->
  add F a b neg mode flags =
  Ok (rounded_sum F mode (sign_of F a) (Z.lxor (sign_of F b) neg) (in_val F mode a + signed neg (in_val F mode b))
        (in_flags F mode b (in_flags F mode a flags))).
Proof.
  intros Har Ha Hb Hneg. pose proof (arith_ok F Har) as HF. pose proof HF as [HP HE HW H64 _]. pose proof (arith_E F Har) as HE8.
  destruct (unpack_finite F HF mode a flags Ha) as (s1 & e1 & m1 & fl1 & [U1 [S1 Hs1] E1 M1 V1 G1]).
  destruct (unpack_finite F HF mode b fl1 Hb) as (s2 & e2 & m2 & fl2 & [U2 [S2 Hs2] E2 M2 V2 G2]).
  unfold add. rewrite U1, U2, (process_NaNs_finite F HF) by done. cbn [nz Z.eqb negb]. rewrite !finite_exp_top by done. cbn [andb].
  rewrite <- S1, <- S2, <- G1, <- G2. set (s2' := Z.lxor s2 neg).
  assert (s2' = 0 \/ s2' = 1) as Hs2' by (unfold s2'; destruct Hs2 as [-> | ->], Hneg as [-> | ->]; auto).
  set (v := (in_val F mode a + signed neg (in_val F mode b))%Q).
  assert (v == (signed s1 (inject_Z m1 * pow2 (e1 - 1)) + signed s2' (inject_Z m2 * pow2 (e2 - 1))) * ulp F)%Q as Ev.
  { unfold v. rewrite V1, V2, signed_xor by done. apply signed_add_factor. }
  pose proof (add_align_ok F HF e1 e2 m1 m2 ltac:(lia) E1 E2 M1 M2) as Hal. destruct M1 as [M1 _], M2 as [M2 _]. unfold rounded_sum.
  destruct ((m1 =? 0) && (m2 =? 0) && (s1 =? s2')) eqn:E0.
  { apply andb_true_iff in E0 as [[->%Z.eqb_eq ->%Z.eqb_eq]%andb_true_iff Es]. rewrite Qeq_bool_true.
    - unfold zero_sign. rewrite Es, (pack_zero F HF) by lia. done.
    - rewrite Ev. unfold signed. destruct (nz s1), (nz s2'); change (inject_Z 0) with 0%Q; ring. }
  destruct (if e2 <=? e1 then _ else _) as [[A B] e]. destruct Hal as (He & HA & HB & HAB & y1 & y2 & Hy & Y1 & Y2 & Hbig).
  assert (v == (signed s1 y1 + signed s2' y2) * pow2 (e - 1 - 3) * ulp F)%Q as Ev2.
  { rewrite Ev, <- signed_add_factor. unfold signed. destruct (nz s1), (nz s2'); rewrite Y1, Y2; ring. }
  pose proof (sum_mant_ok s1 s2' A B y1 y2 Hs1 Hs2' HA HB Hy) as Hsm.
  assert ((if s1 =? s2' then (s1, wrap_u (f_W F) (A + B)) else if B <=? A then (s1, wrap_u (f_W F) (A - B))
    else (Z.lxor s1 1, wrap_u (f_W F) (B - A))) = sum_mant s1 s2' A B) as ->.
  { unfold sum_mant. destruct (s1 =? s2'); [by rewrite wrap_u_id by lia|]. destruct (Z.leb_spec B A); by rewrite wrap_u_id by lia. }
  destruct (sum_mant s1 s2' A B) as [s z] eqn:Esm. destruct Hsm as (Hs & Hz & Y & HY & EY & Hex).
  destruct (Z.eqb_spec z 0) as [->|Hz0].
  - apply (sum_zero s1 s2' A B y1 y2 s Hs1 Hs2' HA HB Hy) in Esm as [Ez Heq]. rewrite Qeq_bool_true by (rewrite Ev2, Ez; ring).
    unfold zero_sign. destruct (Z.eqb_spec s1 s2') as [Es|Hne]; [exfalso|change FPLIB_RM with 2; by rewrite (pack_zero F HF) by (destruct (Z.land mode 3 =? 2); cbn; lia)].
    destruct (Heq Es) as [Z1 Z2]. by rewrite (zero_factor _ _ _ _ Y1 Z1), (zero_factor _ _ _ _ Y2 Z2) in E0.
  - assert (v == signed s (Y * pow2 (e - 1 - 3) * ulp F))%Q as Ev3 by (rewrite Ev2, EY, !signed_mul; reflexivity).
    rewrite (proj2 (proj2 (signed_abs s v _ Hs (Qmult_lt_0_compat _ _ (Qmult_lt_0_compat _ _ (proj1 (sticky_sign z Y HY) ltac:(lia)) (pow2_pos_Q _)) (ulp_pos F)) Ev3))).
    replace (f_W F - f_P F - 4) with (f_W F - f_P F - 1 - 3) by lia. pose proof (top_exp_bounds F HF) as [_ Ht].
    pose proof (Z.pow_le_mono_r 2 (f_E F) 11 ltac:(lia) ltac:(lia)) as H11. change (2 ^ 11) with 2048 in H11.
    apply (finish_sum F 3 s z e mode _ v Y); try done; try lia.
    destruct Hbig as [[H1 H2]|Hbig]; [left; by apply Hex|right; lia].
Qed.
