(* ===== verification/FpMul.v ===== *)
(** Multiplication, and multiplication with addition, of [Fplib] round the
    exact result once. *)
From Stdlib Require Import QArith Qpower Qround Qabs Lqa.
From S2P Require Import Prelude Fplib FpSpec FpRound FpArith.
#[local] Open Scope Z_scope.

(** * Narrowing 64 bits to 32 *)

Lemma nz_ext a b : (a = 0 <-> b = 0) -> nz a = nz b.
Proof. intros H. unfold nz. f_equal. destruct (Z.eqb_spec a 0), (Z.eqb_spec b 0); tauto. Qed.

Lemma low_bits W n c : 0 <= c <= W -> wrap_u W (Z.shiftl n (W - c)) = 0 <-> n mod 2 ^ c = 0.
Proof.
  intros Hc. unfold wrap_u. rewrite Z.shiftl_mul_pow2 by lia. pose proof (pow2_pos (W - c) ltac:(lia)). pose proof (pow2_pos c ltac:(lia)).
  assert (2 ^ W = 2 ^ c * 2 ^ (W - c)) as -> by (rewrite <- Z.pow_add_r by lia; f_equal; lia). rewrite Z.mul_mod_distr_r by lia. nia.
Qed.

Lemma collapse_shl n : Z.lor (Z.shiftr n 31) (Z.b2z (nz (u32 (Z.shiftl n 1)))) = jam n 31.
Proof. unfold jam. f_equal. f_equal. apply nz_ext. apply (low_bits 32 n 31). lia. Qed.
Lemma collapse_lsl64 n : Z.lor (lsr64 n 31) (Z.b2z (nz (lsl64 n 33))) = jam n 31.
Proof. unfold jam. f_equal. f_equal. apply nz_ext. apply (low_bits 64 n 31). lia. Qed.

(** The end of an operation on binary32 with a significand of 64 bits. *)
Lemma finish_64 s z e scale mode flags (v Y : Q) : s = 0 \/ s = 1 -> 0 < z < 2 ^ 64 -> - 2 ^ 30 < e < 2 ^ 30 -> - 2 ^ 20 < scale <= 0 -> sticky z Y ->
  (Y == inject_Z z)%Q \/ 2 ^ 25 <= z \/ e <= 37 -> (v == signed s (Y * pow2 (e + scale - 41) * ulp F32))%Q ->
  (let '(x_mnt, x_exp) := fp64_normalise z e in
   fp32_round s (x_exp + scale) (u32 (jam x_mnt 31)) mode flags) = Ok (rounded F32 mode v flags).
Proof.
  intros Hs Hz He Hsc HY Hex Ev. destruct (fp64_normalise_ok z e Hz) as (sh & -> & Hsh & Hn).
  assert (2 ^ 32 <= jam (z * 2 ^ sh) 31 < 2 ^ 33) as Hj.
  { destruct (jam_bound (z * 2 ^ sh) 64 31) as [Hb|[? _]]; [lia|lia| |lia]. change (64 - 31) with 33 in Hb. split; [|lia].
    unfold jam. rewrite Z.shiftr_div_pow2 by lia. assert (2 ^ 32 <= z * 2 ^ sh / 2 ^ 31) by (apply Z.div_le_lower_bound; lia).
    destruct (nz _); cbn [Z.b2z]; [rewrite lor_1; destruct (Z.even _); cbn [Z.b2z]; lia|by rewrite Z.lor_0_r]. }
  assert (u32 (jam (z * 2 ^ sh) 31) = jam (z * 2 ^ sh) 31 - 2 ^ 32) as -> by (symmetry; apply (Z.mod_unique_pos _ _ 1); lia).
  assert (0 < Y)%Q as HYp by (by apply (sticky_sign z Y); [|lia]). pose proof (ulp_pos F32) as Hu. pose proof (pow2_pos_Q (e + scale - 41)) as Hp.
  apply (round_rounded F32 s _ _ mode flags v (Y * pow2 (e + scale - 41) * ulp F32)%Q F32_ok Hs); [lia| |done|].
  { apply Qmult_lt_0_compat; [by apply Qmult_lt_0_compat|done]. }
  apply (represents_intro F32 F32_ok _ _ z sh 31 _ Y); change (f_W F32) with 32; change (f_P F32) with 23; [lia..| |].
  - destruct Hex as [|[Hbig|Hsm]]; [by left|right; split; [done|]..]; [|lia].
    assert (25 + sh < 64) as H; [|lia]. apply (Z.pow_lt_mono_r_iff 2); [lia|lia|]. rewrite Z.pow_add_r by lia. pose proof (pow2_pos sh ltac:(lia)). nia.
  - unfold Qdiv. rewrite <- (Qmult_assoc (Y * _)), Qmult_inv_r, Qmult_1_r by lra.
    replace (sh - 31 + (e - sh + scale) - 1 - (32 - 23)) with (e + scale - 41) by lia. reflexivity.
Qed.

(** * Products *)

(** A number that is not zero, or zero with its sign. *)
Definition rounded_product (F : Format) (mode s : Z) (v : Q) (flags : Z) : Z * Z :=
  if Qeq_bool v 0 then (with_sign F s 0, flags) else rounded F mode v flags.

Lemma signed_product s1 s2 (x y : Q) : s1 = 0 \/ s1 = 1 -> s2 = 0 \/ s2 = 1 ->
  (signed s1 x * signed s2 y == signed (Z.lxor s1 s2) (x * y))%Q.
Proof.
  intros [-> | ->] [-> | ->]; [change (Z.lxor 0 0) with 0|change (Z.lxor 0 1) with 1|change (Z.lxor 1 0) with 1|change (Z.lxor 1 1) with 0];
    unfold signed; cbn; ring.
Qed.
Lemma xor_sign s1 s2 : s1 = 0 \/ s1 = 1 -> s2 = 0 \/ s2 = 1 -> Z.lxor s1 s2 = 0 \/ Z.lxor s1 s2 = 1.
Proof. intros [-> | ->] [-> | ->]; auto. Qed.

Lemma ulp_F32 : ulp F32 = pow2 (- 149).
Proof. done. Qed.
Lemma ulp_F64 : ulp F64 = pow2 (- 1074).
Proof. done. Qed.

(** The product of two operands. *)
Lemma product_val F (p s1 s2 m1 m2 e1 e2 : Z) (x1 x2 : Q) : s1 = 0 \/ s1 = 1 -> s2 = 0 \/ s2 = 1 -> ulp F = pow2 (- p) ->
  (x1 == signed s1 (inject_Z m1 * pow2 (e1 - 1) * ulp F))%Q -> (x2 == signed s2 (inject_Z m2 * pow2 (e2 - 1) * ulp F))%Q ->
  (x1 * x2 == signed (Z.lxor s1 s2) (inject_Z (m1 * m2) * pow2 (e1 + e2 - 2 - p) * ulp F))%Q.
Proof.
  intros H1 H2 Eu E1 E2. rewrite E1, E2, signed_product by done. rewrite inject_Z_mult, Eu.
  replace (e1 + e2 - 2 - p) with ((e1 - 1) + (e2 - 1) + - p) by lia. rewrite !pow2_plus. unfold signed. destruct (nz _); ring.
Qed.

Lemma mul32_correct a b mode flags : finite F32 a -> finite F32 b ->
  fp32_mul a b mode flags =
  Ok (rounded_product F32 mode (Z.lxor (sign_of F32 a) (sign_of F32 b)) (in_val F32 mode a * in_val F32 mode b)
        (in_flags F32 mode b (in_flags F32 mode a flags))).
Proof.
  intros Ha Hb.
  destruct (unpack_finite F32 F32_ok mode a flags Ha) as (s1 & e1 & m1 & fl1 & [U1 [S1 Hs1] E1 [M1 _] V1 G1]).
  destruct (unpack_finite F32 F32_ok mode b fl1 Hb) as (s2 & e2 & m2 & fl2 & [U2 [S2 Hs2] E2 [M2 _] V2 G2]).
  unfold fp32_mul, fp32_unpack, fp32_process_NaNs. rewrite U1, U2, (process_NaNs_finite F32 F32_ok) by done. cbn [nz Z.eqb negb].
  change (top_exp F32) with 255 in *. change (f_P F32 + 1) with 24 in *. rewrite (proj2 (Z.eqb_neq e1 255)), (proj2 (Z.eqb_neq e2 255)) by lia. cbn [andb orb].
  rewrite <- S1, <- S2, <- G1, <- G2. pose proof (xor_sign s1 s2 Hs1 Hs2) as Hs.
  pose proof (product_val F32 149 s1 s2 m1 m2 e1 e2 _ _ Hs1 Hs2 ulp_F32 V1 V2) as Ev. set (s := Z.lxor s1 s2) in *. set (v := (in_val F32 mode a * in_val F32 mode b)%Q) in *.
  unfold rounded_product. destruct ((m1 =? 0) || (m2 =? 0)) eqn:E0.
  - assert (m1 * m2 = 0) as E by (apply orb_true_iff in E0 as [->%Z.eqb_eq| ->%Z.eqb_eq]; lia). rewrite Qeq_bool_true.
    + unfold fp32_zero. by rewrite (pack_zero F32 F32_ok) by lia.
    + rewrite Ev. apply signed_0. rewrite E. change (inject_Z 0) with 0%Q. ring.
  - apply orb_false_iff in E0 as [N1%Z.eqb_neq N2%Z.eqb_neq]. assert (0 < m1 * m2 < 2 ^ 48) as Hp by nia.
    rewrite wrap_u_id by lia. rewrite (proj2 (proj2 (signed_abs s v _ Hs (Qmult_lt_0_compat _ _ (Qmult_lt_0_compat (inject_Z (m1 * m2)) _ ltac:(change 0%Q with (inject_Z 0); rewrite <- Zlt_Qlt; lia) (pow2_pos_Q _)) (ulp_pos F32)) Ev))).
    pose proof (finish_64 s (m1 * m2) (e1 + e2 - 110) 0 mode fl2 v (inject_Z (m1 * m2)) Hs ltac:(lia) ltac:(lia) ltac:(lia) (or_introl (Qeq_refl _)) (or_introl (Qeq_refl _))) as Hf.
    destruct (fp64_normalise (m1 * m2) (e1 + e2 - 110)) as [x_mnt x_exp]. rewrite collapse_lsl64. rewrite (Z.add_0_r x_exp) in Hf. apply Hf.
    rewrite Ev. replace (e1 + e2 - 110 + 0 - 41) with (e1 + e2 - 2 - 149) by lia. reflexivity.
Qed.

(** * 128 bits *)

Definition pair128 (x0 x1 : Z) : Z := x0 + 2 ^ 64 * x1.
Definition words (x0 x1 : Z) : Prop := 0 <= x0 < 2 ^ 64 /\ 0 <= x1 < 2 ^ 64.

Lemma mul62x62_ok a b : 0 <= a < 2 ^ 62 -> 0 <= b < 2 ^ 62 -> let '(x0, x1) := mul62x62 a b in words x0 x1 /\ pair128 x0 x1 = a * b.
Proof.
  intros Ha Hb. unfold mul62x62. change (u32 (u32 (Z.shiftl 1 31) - 1)) with (2 ^ 31 - 1). rewrite !land_mask, !Z.shiftr_div_pow2 by lia.
  pose proof (Z.div_mod a (2 ^ 31) ltac:(lia)) as Ea. pose proof (Z.mod_pos_bound a (2 ^ 31) ltac:(lia)).
  pose proof (Z.div_mod b (2 ^ 31) ltac:(lia)) as Eb. pose proof (Z.mod_pos_bound b (2 ^ 31) ltac:(lia)).
  assert (0 <= a / 2 ^ 31 < 2 ^ 31) by (split; [apply Z.div_pos; lia|apply Z.div_lt_upper_bound; lia]).
  assert (0 <= b / 2 ^ 31 < 2 ^ 31) by (split; [apply Z.div_pos; lia|apply Z.div_lt_upper_bound; lia]).
  rewrite (Z.mod_small (a / 2 ^ 31)), (Z.mod_small (b / 2 ^ 31)) by lia.
  set (a0 := a mod 2 ^ 31) in *. set (a1 := a / 2 ^ 31) in *. set (b0 := b mod 2 ^ 31) in *. set (b1 := b / 2 ^ 31) in *.
  assert (0 <= a0 * b0 < 2 ^ 62 /\ 0 <= a1 * b1 < 2 ^ 62 /\ 0 <= a0 * b1 + a1 * b0 < 2 ^ 63) as (P0 & P2 & P1) by nia.
  rewrite (wrap_u_id 64 (a0 * b0)), (wrap_u_id 64 (a1 * b1)) by lia. rewrite (wrap_u_id 64 ((a0 + a1) * (b0 + b1))) by nia.
  replace ((a0 + a1) * (b0 + b1) - a0 * b0 - a1 * b1) with (a0 * b1 + a1 * b0) by ring. rewrite (wrap_u_id 64 (a0 * b1 + a1 * b0)) by lia.
  set (p0 := a0 * b0) in *. set (p1 := a0 * b1 + a1 * b0) in *. set (p2 := a1 * b1) in *.
  assert (a * b = p0 + 2 ^ 31 * p1 + 2 ^ 62 * p2) as -> by (rewrite Ea, Eb; unfold p0, p1, p2; ring). clearbody p0 p1 p2. clear - P0 P1 P2.
  pose proof (Z.div_mod p0 (2 ^ 31) ltac:(lia)). pose proof (Z.mod_pos_bound p0 (2 ^ 31) ltac:(lia)). pose proof (Z.div_pos p0 (2 ^ 31) ltac:(lia) ltac:(lia)).
  rewrite (wrap_u_id 64 (p0 / 2 ^ 31 + p1)) by nia. set (s1 := p0 / 2 ^ 31 + p1) in *.
  pose proof (Z.div_mod s1 (2 ^ 31) ltac:(lia)). pose proof (Z.mod_pos_bound s1 (2 ^ 31) ltac:(lia)). pose proof (Z.div_pos s1 (2 ^ 31) ltac:(lia) ltac:(lia)).
  rewrite (wrap_u_id 64 (s1 / 2 ^ 31 + p2)) by nia. set (s2 := s1 / 2 ^ 31 + p2) in *.
  pose proof (Z.div_mod s2 4 ltac:(lia)). pose proof (Z.mod_pos_bound s2 4 ltac:(lia)). change (2 ^ 2) with 4.
  rewrite !Z.shiftl_mul_pow2 by lia. rewrite (wrap_u_id 64 (s1 mod 2 ^ 31 * 2 ^ 31)) by lia.
  assert (u64 (s2 * 2 ^ 62) = s2 mod 4 * 2 ^ 62) as ->.
  { unfold wrap_u. change (2 ^ 64) with (4 * 2 ^ 62). apply Z.mul_mod_distr_r; lia. }
  rewrite (Z.lor_comm (p0 mod 2 ^ 31)), (lor_add _ (p0 mod 2 ^ 31) 31); [|lia|apply Z.mod_mul; lia|lia].
  rewrite Z.lor_comm, (lor_add _ _ 62); [|lia|apply Z.mod_mul; lia|lia]. unfold words, pair128. nia.
Qed.

Lemma normalise128_loop_ok k : forall x0 x1 exp, (k <= 6)%nat -> words x0 x1 -> 2 ^ (128 - 2 ^ Z.of_nat k) <= pair128 x0 x1 ->
  exists sh y0 y1, 0 <= sh < 2 ^ Z.of_nat k /\ normalise128_loop k x0 x1 exp = (y0, y1, exp - sh) /\ words y0 y1 /\
    pair128 y0 y1 = pair128 x0 x1 * 2 ^ sh /\ 2 ^ 127 <= pair128 y0 y1.
Proof.
  unfold pair128, words. induction k as [|k IH]; intros x0 x1 exp Hk [H0 H1] Hn.
  - exists 0, x0, x1. change (2 ^ Z.of_nat 0) with 1 in *. cbn [normalise128_loop]. rewrite Z.pow_0_r, Z.mul_1_r, Z.sub_0_r. split_and!; (done || lia).
  - rewrite Nat2Z.inj_succ, Z.pow_succ_r in * by lia. pose proof (pow2_pos (Z.of_nat k) ltac:(lia)) as Hkp.
    pose proof (Z.pow_le_mono_r 2 (Z.of_nat k) 5 ltac:(lia) ltac:(lia)) as Hk5. change (2 ^ 5) with 32 in Hk5. set (s := 2 ^ Z.of_nat k) in *.
    cbn [normalise128_loop]. fold s. rewrite Z.shiftr_div_pow2, !Z.shiftl_mul_pow2 by lia. pose proof (pow2_pos (64 - s) ltac:(lia)) as Hp. pose proof (pow2_pos s ltac:(lia)) as Hs.
    assert (2 ^ 64 = 2 ^ (64 - s) * 2 ^ s) as E by (rewrite <- Z.pow_add_r by lia; f_equal; lia).
    assert (2 ^ (128 - s) = 2 ^ (64 - s) * 2 ^ 64) as E128 by (rewrite <- Z.pow_add_r by lia; f_equal; lia).
    destruct (Z.eqb_spec (x1 / 2 ^ (64 - s)) 0) as [Ez|Hne].
    + apply Z.div_small_iff in Ez; [|lia].
      pose proof (Z.div_mod x0 (2 ^ (64 - s)) ltac:(lia)) as Ed. pose proof (Z.mod_pos_bound x0 (2 ^ (64 - s)) Hp).
      assert (0 <= x0 / 2 ^ (64 - s) < 2 ^ s) as Hd by (split; [apply Z.div_pos; lia|apply Z.div_lt_upper_bound; nia]).
      rewrite (wrap_u_id 64 (x1 * 2 ^ s)) by nia. rewrite Z.shiftr_div_pow2 by lia. rewrite (lor_add _ _ s); [|lia|apply Z.mod_mul; lia|done].
      assert (u64 (x0 * 2 ^ s) = x0 mod 2 ^ (64 - s) * 2 ^ s) as -> by (unfold wrap_u; rewrite E; apply Z.mul_mod_distr_r; lia).
      destruct (IH (x0 mod 2 ^ (64 - s) * 2 ^ s) (x1 * 2 ^ s + x0 / 2 ^ (64 - s)) (exp - s)) as (sh & y0 & y1 & Hsh & -> & Hw & Ey & Hy); [lia|nia| |].
      { replace (128 - s) with (128 - 2 * s + s) by lia. rewrite Z.pow_add_r by lia. nia. }
      exists (s + sh), y0, y1. rewrite Z.sub_add_distr. split; [lia|]. split; [done|]. split; [done|]. split; [|done].
      rewrite Ey, Z.pow_add_r by lia. rewrite Ed at 3. rewrite E. ring.
    + assert (2 ^ (64 - s) <= x1).
      { destruct (Z.le_gt_cases (2 ^ (64 - s)) x1); [done|]. exfalso. apply Hne, Z.div_small. lia. }
      destruct (IH x0 x1 exp) as (sh & y0 & y1 & Hsh & Hr & Hw & Ey & Hy); [lia|done|nia|]. exists sh, y0, y1. split; [lia|]. by split.
Qed.

Lemma fp128_normalise_ok x0 x1 exp : words x0 x1 -> 0 < pair128 x0 x1 ->
  exists sh y0 y1, 0 <= sh < 128 /\ fp128_normalise x0 x1 exp = (y0, y1, exp - sh) /\ words y0 y1 /\
    pair128 y0 y1 = pair128 x0 x1 * 2 ^ sh /\ 2 ^ 127 <= pair128 y0 y1.
Proof.
  intros [H0 H1] Hp. unfold fp128_normalise, pair128 in *.
  destruct (Z.eqb_spec x1 0) as [->|Hne].
  - rewrite (proj2 (Z.eqb_neq x0 0)) by lia. cbn [andb].
    destruct (normalise128_loop_ok 6 0 x0 (exp - 64)) as (sh & y0 & y1 & Hsh & -> & Hw & Ey & Hy); [lia|unfold words; lia|unfold pair128; change (2 ^ (128 - 2 ^ Z.of_nat 6)) with (2 ^ 64); lia|].
    exists (64 + sh), y0, y1. rewrite Z.sub_add_distr. change (2 ^ Z.of_nat 6) with 64 in Hsh. split; [lia|]. split; [done|]. split; [done|]. split; [|done].
    unfold pair128 in Ey. rewrite Ey, Z.pow_add_r by lia. ring.
  - rewrite andb_false_r. destruct (normalise128_loop_ok 6 x0 x1 exp) as (sh & y0 & y1 & Hsh & Hr & Hw & Ey & Hy); [lia|done|unfold pair128; change (2 ^ (128 - 2 ^ Z.of_nat 6)) with (2 ^ 64); lia|].
    exists sh, y0, y1. change (2 ^ Z.of_nat 6) with 64 in Hsh. split; [lia|]. by split.
Qed.

(** What is left of a normalised pair of words. *)
Lemma collapse_128 y0 y1 : words y0 y1 -> 2 ^ 127 <= pair128 y0 y1 ->
  2 ^ 64 + Z.lor (u64 (Z.shiftl y1 1)) (Z.b2z (nz y0)) = jam (pair128 y0 y1) 63 /\ 0 <= Z.lor (u64 (Z.shiftl y1 1)) (Z.b2z (nz y0)) < 2 ^ 64.
Proof.
  intros [H0 H1] Hn. unfold pair128 in *. rewrite Z.shiftl_mul_pow2 by lia. change (2 ^ 1) with 2.
  assert (u64 (y1 * 2) = 2 * (y1 - 2 ^ 63)) as -> by (symmetry; apply (Z.mod_unique_pos _ _ 1); lia).
  assert (Z.lor (2 * (y1 - 2 ^ 63)) (Z.b2z (nz y0)) = 2 * (y1 - 2 ^ 63) + Z.b2z (nz y0)) as ->.
  { apply (lor_add _ _ 1); [lia|rewrite Z.mul_comm; by apply Z.mod_mul|destruct (nz y0); cbn; lia]. }
  unfold jam. rewrite Z.shiftr_div_pow2 by lia. replace (y0 + 2 ^ 64 * y1) with (y0 + (2 * y1) * 2 ^ 63) by lia. rewrite Z.div_add, Z.mod_add by lia.
  pose proof (Z.div_mod y0 (2 ^ 63) ltac:(lia)) as Ed. pose proof (Z.mod_pos_bound y0 (2 ^ 63) ltac:(lia)).
  assert (0 <= y0 / 2 ^ 63 < 2) as Hq by (split; [apply Z.div_pos; lia|apply Z.div_lt_upper_bound; lia]). split; [|destruct (nz y0); cbn; lia].
  assert (y0 / 2 ^ 63 = 0 \/ y0 / 2 ^ 63 = 1) as [E|E] by lia; rewrite E in *.
  - rewrite Z.add_0_l. assert (nz y0 = nz (y0 mod 2 ^ 63)) as -> by (apply nz_ext; lia).
    destruct (nz _); cbn [Z.b2z]; [rewrite lor_1, Z.even_mul; cbn; lia|rewrite Z.lor_0_r; lia].
  - assert (nz y0 = true) as -> by (unfold nz; apply negb_true_iff, Z.eqb_neq; lia). cbn [Z.b2z].
    destruct (nz _); cbn [Z.b2z]; [rewrite lor_1, Z.even_add, Z.even_mul; cbn; lia|rewrite Z.lor_0_r; lia].
Qed.

(** The end of an operation on binary64 with a significand of 128 bits. *)
Lemma finish_128 s x0 x1 e scale mode flags (v Y : Q) : s = 0 \/ s = 1 -> words x0 x1 -> 0 < pair128 x0 x1 -> - 2 ^ 30 < e < 2 ^ 30 -> - 2 ^ 20 < scale <= 0 ->
  sticky (pair128 x0 x1) Y -> (Y == inject_Z (pair128 x0 x1))%Q \/ 2 ^ 54 <= pair128 x0 x1 \/ e <= 74 ->
  (v == signed s (Y * pow2 (e + scale - 76) * ulp F64))%Q ->
  (let '(x0_mnt, x1_mnt, x_exp) := fp128_normalise x0 x1 e in
   fp64_round s (x_exp + scale) (Z.lor (u64 (Z.shiftl x1_mnt 1)) (Z.b2z (nz x0_mnt))) mode flags) = Ok (rounded F64 mode v flags).
Proof.
  intros Hs Hw Hz He Hsc HY Hex Ev. destruct (fp128_normalise_ok x0 x1 e Hw Hz) as (sh & y0 & y1 & Hsh & -> & Hyw & Ey & Hn).
  destruct (collapse_128 y0 y1 Hyw Hn) as [Ej Hj]. set (mnt := Z.lor _ _) in *.
  assert (pair128 y0 y1 < 2 ^ 128) as Hlt by (unfold pair128, words in *; lia). rewrite Ey in Ej, Hlt. clear Hyw Hn Ey. set (z := pair128 x0 x1) in *.
  assert (0 < Y)%Q as HYp by (by apply (sticky_sign z Y); [|lia]). pose proof (ulp_pos F64) as Hu. pose proof (pow2_pos_Q (e + scale - 76)) as Hp.
  apply (round_rounded F64 s _ _ mode flags v (Y * pow2 (e + scale - 76) * ulp F64)%Q F64_ok Hs); [lia| |done|].
  { apply Qmult_lt_0_compat; [by apply Qmult_lt_0_compat|done]. }
  apply (represents_intro F64 F64_ok _ _ z sh 63 _ Y); change (f_W F64) with 64; change (f_P F64) with 52; [lia..|done| |].
  - destruct Hex as [|[Hbig|Hsm]]; [by left|right; split; [done|]..]; [|lia].
    assert (54 + sh < 128) as H; [|lia]. apply (Z.pow_lt_mono_r_iff 2); [lia|lia|]. rewrite Z.pow_add_r by lia. pose proof (pow2_pos sh ltac:(lia)). nia.
  - unfold Qdiv. rewrite <- (Qmult_assoc (Y * _)), Qmult_inv_r, Qmult_1_r by lra.
    replace (sh - 63 + (e - sh + scale) - 1 - (64 - 52)) with (e + scale - 76) by lia. reflexivity.
Qed.

Lemma mul64_correct a b mode flags : finite F64 a -> finite F64 b ->
  fp64_mul a b mode flags =
  Ok (rounded_product F64 mode (Z.lxor (sign_of F64 a) (sign_of F64 b)) (in_val F64 mode a * in_val F64 mode b)
        (in_flags F64 mode b (in_flags F64 mode a flags))).
Proof.
  intros Ha Hb.
  destruct (unpack_finite F64 F64_ok mode a flags Ha) as (s1 & e1 & m1 & fl1 & [U1 [S1 Hs1] E1 [M1 _] V1 G1]).
  destruct (unpack_finite F64 F64_ok mode b fl1 Hb) as (s2 & e2 & m2 & fl2 & [U2 [S2 Hs2] E2 [M2 _] V2 G2]).
  unfold fp64_mul, fp64_unpack, fp64_process_NaNs. rewrite U1, U2, (process_NaNs_finite F64 F64_ok) by done. cbn [nz Z.eqb negb].
  change (top_exp F64) with 2047 in *. change (f_P F64 + 1) with 53 in *. rewrite (proj2 (Z.eqb_neq e1 2047)), (proj2 (Z.eqb_neq e2 2047)) by lia. cbn [andb orb].
  rewrite <- S1, <- S2, <- G1, <- G2. pose proof (xor_sign s1 s2 Hs1 Hs2) as Hs.
  pose proof (product_val F64 1074 s1 s2 m1 m2 e1 e2 _ _ Hs1 Hs2 ulp_F64 V1 V2) as Ev. set (s := Z.lxor s1 s2) in *. set (v := (in_val F64 mode a * in_val F64 mode b)%Q) in *.
  unfold rounded_product. destruct ((m1 =? 0) || (m2 =? 0)) eqn:E0.
  - assert (m1 * m2 = 0) as E by (apply orb_true_iff in E0 as [->%Z.eqb_eq| ->%Z.eqb_eq]; lia). rewrite Qeq_bool_true.
    + unfold fp64_zero. by rewrite (pack_zero F64 F64_ok) by lia.
    + rewrite Ev. apply signed_0. rewrite E. change (inject_Z 0) with 0%Q. ring.
  - apply orb_false_iff in E0 as [N1%Z.eqb_neq N2%Z.eqb_neq]. assert (0 < m1 * m2) as Hp by nia.
    rewrite (proj2 (proj2 (signed_abs s v _ Hs (Qmult_lt_0_compat _ _ (Qmult_lt_0_compat (inject_Z (m1 * m2)) _ ltac:(change 0%Q with (inject_Z 0); rewrite <- Zlt_Qlt; lia) (pow2_pos_Q _)) (ulp_pos F64)) Ev))).
    pose proof (mul62x62_ok m1 m2 ltac:(lia) ltac:(lia)) as Hm. destruct (mul62x62 m1 m2) as [x0 x1]. destruct Hm as [Hw Hm].
    pose proof (finish_128 s x0 x1 (e1 + e2 - 1000) 0 mode fl2 v (inject_Z (m1 * m2)) Hs Hw ltac:(lia) ltac:(lia) ltac:(lia)) as Hf.
    rewrite Hm in Hf. specialize (Hf (or_introl (Qeq_refl _)) (or_introl (Qeq_refl _))).
    destruct (fp128_normalise x0 x1 (e1 + e2 - 1000)) as [[y0 y1] x_exp]. rewrite (Z.add_0_r x_exp) in Hf. apply Hf.
    rewrite Ev. replace (e1 + e2 - 1000 + 0 - 76) with (e1 + e2 - 2 - 1074) by lia. reflexivity.
Qed.
