(* ===== verification/FpWords.v ===== *)
(** The operations of [Fplib] on pairs of words are those of numbers of 128
    bits. *)
From S2P Require Import Prelude Fplib FpSpec FpRound FpArith FpMul.
#[local] Open Scope Z_scope.

(** The words of a number. *)
Definition split128 (z : Z) : Z * Z := (z mod 2 ^ 64, z / 2 ^ 64).

Lemma split_pair x0 x1 : words x0 x1 -> split128 (pair128 x0 x1) = (x0, x1).
Proof.
  intros [H0 H1]. unfold split128, pair128. rewrite (Z.mul_comm (2 ^ 64)), Z.mod_add, Z.div_add by lia.
  by rewrite (Z.mod_small x0), (Z.div_small x0) by lia.
Qed.
Lemma pair_split z : 0 <= z < 2 ^ 128 -> pair128 (z mod 2 ^ 64) (z / 2 ^ 64) = z /\ words (z mod 2 ^ 64) (z / 2 ^ 64).
Proof.
  intros Hz. unfold pair128, words. pose proof (Z.div_mod z (2 ^ 64) ltac:(lia)). pose proof (Z.mod_pos_bound z (2 ^ 64) ltac:(lia)).
  assert (0 <= z / 2 ^ 64 < 2 ^ 64) by (split; [apply Z.div_pos; lia|apply Z.div_lt_upper_bound; lia]). lia.
Qed.

Lemma split_small z : 0 <= z < 2 ^ 64 -> split128 z = (z, 0).
Proof. intros Hz. unfold split128. by rewrite Z.mod_small, Z.div_small. Qed.
Lemma split_high z : split128 (z * 2 ^ 64) = (0, z).
Proof. unfold split128. by rewrite Z.mod_mul, Z.div_mul. Qed.

Lemma mul62x62_split a b : 0 <= a < 2 ^ 62 -> 0 <= b < 2 ^ 62 -> mul62x62 a b = split128 (a * b).
Proof. intros Ha Hb. pose proof (mul62x62_ok a b Ha Hb) as H. destruct (mul62x62 a b) as [x0 x1]. destruct H as [Hw <-]. by rewrite split_pair. Qed.

Lemma mul64x32_split a b : 0 <= a < 2 ^ 64 -> 0 <= b < 2 ^ 32 -> mul64x32 a b = split128 (a * b).
Proof.
  intros Ha Hb. unfold mul64x32, split128. rewrite !Z.shiftr_div_pow2 by lia.
  pose proof (Z.div_mod a (2 ^ 32) ltac:(lia)) as Ea. pose proof (Z.mod_pos_bound a (2 ^ 32) ltac:(lia)) as Hl.
  assert (0 <= a / 2 ^ 32 < 2 ^ 32) as Hh by (split; [apply Z.div_pos; lia|apply Z.div_lt_upper_bound; lia]).
  change (u32 a) with (a mod 2 ^ 32). set (l := a mod 2 ^ 32) in *. set (h := a / 2 ^ 32) in *. assert (0 <= l * b < 2 ^ 64 /\ 0 <= h * b <= (2 ^ 32 - 1) * (2 ^ 32 - 1)) as [Hlb Hhb] by nia.
  rewrite (wrap_u_id 64 (l * b)), (wrap_u_id 64 (h * b)) by lia.
  assert (0 <= l * b / 2 ^ 32 < 2 ^ 32) as Hq by (split; [apply Z.div_pos; lia|apply Z.div_lt_upper_bound; lia]).
  rewrite (wrap_u_id 64 (_ + h * b)) by lia.
  pose proof (Z.div_mod (l * b) (2 ^ 32) ltac:(lia)) as El. set (p := l * b) in *. change (u32 p) with (p mod 2 ^ 32). pose proof (Z.mod_pos_bound p (2 ^ 32) ltac:(lia)).
  set (t := p / 2 ^ 32 + h * b) in *. assert (a * b = p mod 2 ^ 32 + 2 ^ 32 * t) as ->.
  { rewrite Ea. replace ((2 ^ 32 * h + l) * b) with (2 ^ 32 * (h * b) + p) by (unfold p; ring). unfold t. lia. }
  rewrite Z.shiftl_mul_pow2 by lia. change (2 ^ 64) with (2 ^ 32 * 2 ^ 32).
  assert (u64 (t * 2 ^ 32) = t mod 2 ^ 32 * 2 ^ 32) as -> by (unfold wrap_u; change (2 ^ 64) with (2 ^ 32 * 2 ^ 32); apply Z.mul_mod_distr_r; lia).
  rewrite (lor_add _ _ 32) by (try apply Z.mod_mul; lia). rewrite Z.rem_mul_r, <- Z.div_div by lia.
  rewrite (Z.mul_comm (2 ^ 32) t), Z.mod_add, Z.div_add by lia. rewrite (Z.mod_mod p), (Z.div_small (p mod _)), Z.add_0_l by lia. f_equal. lia.
Qed.

Section Pair.
Context (z : Z) (Hz : 0 <= z < 2 ^ 128).
Local Abbreviation z0 := (z mod 2 ^ 64).
Local Abbreviation z1 := (z / 2 ^ 64).

Lemma word_bits i : 0 <= i -> Z.testbit z0 i = (i <? 64) && Z.testbit z i /\ Z.testbit z1 i = Z.testbit z (i + 64).
Proof.
  intros Hi. split; [|by rewrite Z.div_pow2_bits by lia].
  destruct (Z.ltb_spec i 64); [by rewrite Z.mod_pow2_bits_low|by rewrite Z.mod_pow2_bits_high by lia].
Qed.

Lemma lsr128_split n : 0 <= n < 2 ^ 32 -> lsr128 z0 z1 n = split128 (Z.shiftr z n).
Proof.
  intros Hn. unfold lsr128, split128. rewrite wrap_u_id by done. pose proof (pair_split z Hz) as [_ [W0 W1]].
  destruct (Z.eqb_spec n 0) as [->|Hn0]; [by rewrite Z.shiftr_0_r|]. destruct (Z.ltb_spec n 64); [|destruct (Z.ltb_spec n 128)].
  - f_equal; apply bits_ext; intros i Hi.
    + rewrite Z.lor_spec, Z.shiftr_spec by lia. rewrite (proj1 (word_bits (i + n) ltac:(lia))). unfold wrap_u. destruct (Z.lt_ge_cases i 64).
      * rewrite !Z.mod_pow2_bits_low, Z.shiftl_spec, Z.shiftr_spec by lia. destruct (Z.ltb_spec (i + n) 64); cbn [andb].
        -- by rewrite (Z.testbit_neg_r z1), orb_false_r by lia.
        -- rewrite (proj2 (word_bits (i - (64 - n)) ltac:(lia))). cbn [orb]. f_equal. lia.
      * rewrite !Z.mod_pow2_bits_high by lia. destruct (Z.ltb_spec (i + n) 64); [lia|done].
    + rewrite Z.div_pow2_bits, (Z.shiftr_spec z1), (Z.shiftr_spec z), (proj2 (word_bits (i + n) ltac:(lia))) by lia. f_equal. lia.
  - pose proof (pow2_pos (n - 64) ltac:(lia)). rewrite !Z.shiftr_div_pow2 by lia. change (_ mod _, _ / 2 ^ 64) with (split128 (z / 2 ^ n)).
    assert (z / 2 ^ n = z1 / 2 ^ (n - 64)) as ->.
    { rewrite Z.div_div by lia. rewrite <- Z.pow_add_r by lia. do 2 f_equal. lia. }
    rewrite split_small; [done|]. split; [apply Z.div_pos; lia|apply Z.div_lt_upper_bound; nia].
  - by rewrite (shiftr_small z 128 n) by lia.
Qed.

Lemma lsl128_split n : 0 <= n < 2 ^ 32 -> lsl128 z0 z1 n = split128 (wrap_u 128 (Z.shiftl z n)).
Proof.
  intros Hn. unfold lsl128, split128. rewrite (wrap_u_id 32) by done. pose proof (pair_split z Hz) as [_ [W0 W1]].
  destruct (Z.eqb_spec n 0) as [->|Hn0]; [by rewrite Z.shiftl_0_r, wrap_u_id by done|]. destruct (Z.ltb_spec n 64); [|destruct (Z.ltb_spec n 128)].
  - unfold wrap_u. f_equal; apply bits_ext; intros i Hi; (destruct (Z.lt_ge_cases i 64) as [Hi64|Hi64]; [|try by rewrite !Z.mod_pow2_bits_high by lia]).
    + rewrite !Z.mod_pow2_bits_low, !Z.shiftl_spec by lia. destruct (Z.lt_ge_cases i n); [by rewrite !(Z.testbit_neg_r _ (i - n)) by lia|].
      rewrite (proj1 (word_bits (i - n) ltac:(lia))). by destruct (Z.ltb_spec (i - n) 64); [|lia].
    + rewrite Z.lor_spec, Z.div_pow2_bits, !Z.mod_pow2_bits_low, !Z.shiftl_spec, Z.shiftr_spec by lia. rewrite (proj1 (word_bits (i + (64 - n)) ltac:(lia))).
      destruct (Z.ltb_spec (i + (64 - n)) 64) as [Hlt|Hge]; cbn [andb].
      * rewrite (Z.testbit_neg_r z1 (i - n)) by lia. cbn [orb]. f_equal. lia.
      * rewrite orb_false_r. rewrite (proj2 (word_bits (i - n) ltac:(lia))). f_equal. lia.
    + rewrite Z.lor_spec, Z.div_pow2_bits, !Z.mod_pow2_bits_high by lia. rewrite Z.shiftr_spec by lia. rewrite (proj1 (word_bits (i + (64 - n)) ltac:(lia))).
      by destruct (Z.ltb_spec (i + (64 - n)) 64); [lia|].
  - assert (wrap_u 128 (Z.shiftl z n) = u64 (Z.shiftl z0 (n - 64)) * 2 ^ 64) as ->; [|by rewrite Z.mod_mul, Z.div_mul by lia].
    unfold wrap_u. apply bits_ext. intros i Hi. destruct (Z.lt_ge_cases i 64); [rewrite Z.mul_pow2_bits_low by lia|rewrite Z.mul_pow2_bits by lia].
    + rewrite Z.mod_pow2_bits_low, Z.shiftl_spec by lia. apply Z.testbit_neg_r. lia.
    + destruct (Z.lt_ge_cases i 128); [|by rewrite !Z.mod_pow2_bits_high by lia]. rewrite !Z.mod_pow2_bits_low, !Z.shiftl_spec by lia.
      replace (i - 64 - (n - 64)) with (i - n) by lia. destruct (Z.lt_ge_cases i n); [by rewrite !Z.testbit_neg_r by lia|].
      rewrite (proj1 (word_bits (i - n) ltac:(lia))). by destruct (Z.ltb_spec (i - n) 64); [|lia].
  - assert (wrap_u 128 (Z.shiftl z n) = 0) as ->; [|done]. unfold wrap_u. rewrite Z.shiftl_mul_pow2 by lia. replace n with (n - 128 + 128) by lia.
    rewrite Z.pow_add_r, Z.mul_assoc by lia. apply Z.mod_mul. lia.
Qed.
End Pair.

Lemma split_lor_b n b : split128 (Z.lor n (Z.b2z b)) = (Z.lor (n mod 2 ^ 64) (Z.b2z b), n / 2 ^ 64).
Proof.
  unfold split128. rewrite <- !Z.land_ones, <- !Z.shiftr_div_pow2 by lia. rewrite Z.land_lor_distr_l, Z.shiftr_lor.
  destruct b; cbn [Z.b2z]; [change (Z.land 1 (Z.ones 64)) with 1; change (Z.shiftr 1 64) with 0|change (Z.land 0 (Z.ones 64)) with 0; change (Z.shiftr 0 64) with 0]; by rewrite ?Z.lor_0_r.
Qed.

Lemma nz_pair z : 0 <= z < 2 ^ 128 -> nz (Z.lor (z mod 2 ^ 64) (z / 2 ^ 64)) = nz z.
Proof.
  intros Hz. apply nz_ext. rewrite Z.lor_eq_0_iff. pose proof (Z.div_mod z (2 ^ 64) ltac:(lia)). split; [lia|by intros ->].
Qed.

Lemma align128_split z n : 0 <= z < 2 ^ 128 -> 0 <= n < 2 ^ 32 -> align128 (z mod 2 ^ 64) (z / 2 ^ 64) n = split128 (jam z n).
Proof.
  intros Hz Hn. unfold align128. rewrite (lsr128_split z Hz n Hn), (lsl128_split z Hz) by (destruct (Z.ltb_spec n 128); lia).
  unfold split128 at 1 2. unfold jam. rewrite split_lor_b. do 3 f_equal. assert (0 < 2 ^ 128) as H128 by lia.
  rewrite nz_pair by (by apply Z.mod_pos_bound). apply nz_ext. destruct (Z.ltb_spec n 128).
  - apply (low_bits 128). lia.
  - rewrite Z.shiftl_0_r, wrap_u_id by done. rewrite Z.mod_small; [done|]. pose proof (Z.pow_le_mono_r 2 128 n). lia.
Qed.

Section Two.
Context (a b : Z) (Ha : 0 <= a < 2 ^ 128) (Hb : 0 <= b < 2 ^ 128).
Local Abbreviation a0 := (a mod 2 ^ 64).
Local Abbreviation a1 := (a / 2 ^ 64).
Local Abbreviation b0 := (b mod 2 ^ 64).
Local Abbreviation b1 := (b / 2 ^ 64).

Lemma add128_split : a + b < 2 ^ 128 -> add128 a0 a1 b0 b1 = split128 (a + b).
Proof.
  intros Hs. destruct (pair_split a Ha) as [Ea [A0 A1]], (pair_split b Hb) as [Eb [B0 B1]]. unfold pair128 in *.
  set (x0 := a0) in *. set (x1 := a1) in *. set (y0 := b0) in *. set (y1 := b1) in *. unfold add128. rewrite <- Ea, <- Eb.
  destruct (Z.lt_ge_cases (x0 + y0) (2 ^ 64)).
  - rewrite wrap_u_id by lia. rewrite (proj2 (Z.ltb_ge _ _)) by lia. cbn [Z.b2z]. rewrite wrap_u_id by lia.
    replace (x0 + 2 ^ 64 * x1 + (y0 + 2 ^ 64 * y1)) with (pair128 (x0 + y0) (x1 + y1 + 0)) by (unfold pair128; lia). rewrite split_pair; [done|unfold words; lia].
  - assert (u64 (x0 + y0) = x0 + y0 - 2 ^ 64) as -> by (symmetry; apply (Z.mod_unique_pos _ _ 1); lia). rewrite (proj2 (Z.ltb_lt _ _)) by lia. cbn [Z.b2z]. rewrite wrap_u_id by lia.
    replace (x0 + 2 ^ 64 * x1 + (y0 + 2 ^ 64 * y1)) with (pair128 (x0 + y0 - 2 ^ 64) (x1 + y1 + 1)) by (unfold pair128; lia). rewrite split_pair; [done|unfold words; lia].
Qed.

Lemma sub128_split : b <= a -> sub128 a0 a1 b0 b1 = split128 (a - b).
Proof.
  intros Hs. destruct (pair_split a Ha) as [Ea [A0 A1]], (pair_split b Hb) as [Eb [B0 B1]]. unfold pair128 in *.
  set (x0 := a0) in *. set (x1 := a1) in *. set (y0 := b0) in *. set (y1 := b1) in *. unfold sub128. rewrite <- Ea, <- Eb.
  destruct (Z.le_gt_cases y0 x0).
  - rewrite wrap_u_id by lia. rewrite (proj2 (Z.ltb_ge _ _)) by lia. cbn [Z.b2z]. rewrite wrap_u_id by lia.
    replace (x0 + 2 ^ 64 * x1 - (y0 + 2 ^ 64 * y1)) with (pair128 (x0 - y0) (x1 - y1 - 0)) by (unfold pair128; lia). rewrite split_pair; [done|unfold words; lia].
  - assert (u64 (x0 - y0) = x0 - y0 + 2 ^ 64) as -> by (symmetry; apply (Z.mod_unique_pos _ _ (-1)); lia). destruct (Z.ltb_spec x0 (x0 - y0 + 2 ^ 64)); [|lia]. cbn [Z.b2z]. rewrite wrap_u_id by lia.
    replace (x0 + 2 ^ 64 * x1 - (y0 + 2 ^ 64 * y1)) with (pair128 (x0 - y0 + 2 ^ 64) (x1 - y1 - 1)) by (unfold pair128; lia). rewrite split_pair; [done|unfold words; lia].
Qed.

Lemma cmp128_split : cmp128 a0 a1 b0 b1 = if a <? b then -1 else if b <? a then 1 else 0.
Proof.
  destruct (pair_split a Ha) as [Ea [A0 A1]], (pair_split b Hb) as [Eb [B0 B1]]. unfold pair128 in *.
  set (x0 := a0) in *. set (x1 := a1) in *. set (y0 := b0) in *. set (y1 := b1) in *. unfold cmp128. rewrite <- Ea, <- Eb.
  repeat case Z.ltb_spec; lia.
Qed.
End Two.

Lemma split_zero z : 0 <= z < 2 ^ 128 -> (z mod 2 ^ 64 =? 0) && (z / 2 ^ 64 =? 0) = (z =? 0).
Proof.
  intros Hz. destruct (pair_split z Hz) as [Ez _]. unfold pair128 in Ez.
  destruct (Z.eqb_spec z 0) as [->|Hne]; [done|]. apply andb_false_iff. rewrite !Z.eqb_neq. lia.
Qed.
