(* ===== verification/FpFused.v ===== *)
(** Multiplication with addition of [Fplib] rounds the exact result once. *)
From Stdlib Require Import QArith Qpower Qround Qabs Lqa.
From S2P Require Import Prelude Fplib FpSpec FpRound FpArith FpMul FpWords.
#[local] Open Scope Z_scope.

(** * Sums of a number and a product *)

Lemma jam_le n d : 0 <= n -> 0 <= d -> jam n d <= n.
Proof.
  intros Hn Hd. unfold jam. rewrite Z.shiftr_div_pow2 by lia. pose proof (pow2_pos d Hd). pose proof (Z.div_mod n (2 ^ d) ltac:(lia)) as Ed.
  pose proof (Z.mod_pos_bound n (2 ^ d) ltac:(lia)). pose proof (Z.div_pos n (2 ^ d) ltac:(lia) ltac:(lia)).
  unfold nz. destruct (Z.eqb_spec (n mod 2 ^ d) 0); cbn [negb Z.b2z]; [rewrite Z.lor_0_r; nia|].
  rewrite lor_1. destruct (Z.even _); cbn [Z.b2z]; nia.
Qed.
Lemma jam_div n d : 0 <= n -> 0 <= d -> jam n d <= n / 2 ^ d + 1.
Proof.
  intros Hn Hd. unfold jam. rewrite Z.shiftr_div_pow2 by lia. destruct (nz _); cbn [Z.b2z]; [rewrite lor_1; destruct (Z.even _); cbn; lia|rewrite Z.lor_0_r; lia].
Qed.

(** The significands with the larger exponent. *)
Definition align_pair (A0 B0 ex ey : Z) : Z * Z * Z :=
  if ey <=? ex then (A0, jam B0 (ex - ey), ex) else (jam A0 (ey - ex), B0, ey).

Lemma sticky_shift n a b : b <= a -> sticky (jam n (a - b)) (inject_Z n * pow2 (b - a)).
Proof. intros Hd. replace (b - a) with (- (a - b)) by lia. apply sticky_jam; [lia|]. by left. Qed.

(** A number of [2 ^ g] units and a product of eight, in the formats of the code. *)
Lemma fused_align F (HF : fmt_ok F) g k h p ea ma eb mb ec mc :
  let ex := ea + k in let B0 := mb * mc * 8 in let ey := if B0 =? 0 then ex else eb + ec - h in let c := k + 1 + g in
  f_P F + 3 <= g -> c = p + 5 - h -> 0 <= k -> 1 <= h -> 1 <= ea -> 1 <= eb -> 1 <= ec ->
  0 <= ma < 2 ^ (f_P F + 1) /\ (ea = 1 \/ 2 ^ f_P F <= ma) -> 0 <= mb < 2 ^ (f_P F + 1) /\ (eb = 1 \/ 2 ^ f_P F <= mb) ->
  0 <= mc < 2 ^ (f_P F + 1) /\ (ec = 1 \/ 2 ^ f_P F <= mc) ->
  let '(A, B, e) := align_pair (ma * 2 ^ g) B0 ex ey in
  (e = ex \/ e = ey) /\ 0 <= A <= ma * 2 ^ g /\ 0 <= B <= B0 /\ exists y1 y2, summands A B y1 y2 /\
    (inject_Z ma * pow2 (ea - 1) == y1 * pow2 (e - c))%Q /\ (inject_Z (mb * mc) * pow2 (eb + ec - 2 - p) == y2 * pow2 (e - c))%Q /\
    ((y1 == inject_Z A /\ y2 == inject_Z B)%Q \/ 2 ^ (f_P F + 2) <= Z.abs (A - B) \/ e <= 1 + k).
Proof.
  intros ex B0 ey c Hg Hc Hk Hh Hea Heb Hec [Ha Hna] [Hb Hnb] [Hcm Hnc]. pose proof HF as [HP _ _ _ _]. unfold align_pair.
  assert (0 <= B0) as HB0 by (unfold B0; nia). assert (0 <= ma * 2 ^ g) as HA0 by (pose proof (pow2_pos g); nia).
  assert (forall e, (inject_Z ma * pow2 (ea - 1) == inject_Z (ma * 2 ^ g) * pow2 (ex - e) * pow2 (e - c))%Q) as Y1.
  { intros e. rewrite inject_Z_mult, <- pow2_inject, <- !Qmult_assoc, <- !pow2_plus by lia. unfold ex, c. by replace (g + (ea + k - e + (e - (k + 1 + g)))) with (ea - 1) by lia. }
  assert (forall e, (inject_Z (mb * mc) * pow2 (eb + ec - 2 - p) == inject_Z B0 * pow2 (ey - e) * pow2 (e - c))%Q) as Y2.
  { intros e. unfold ey. destruct (Z.eqb_spec B0 0) as [E|_].
    - rewrite E. assert (mb * mc = 0) as -> by (unfold B0 in E; lia). change (inject_Z 0) with 0%Q. ring.
    - unfold B0. rewrite (inject_Z_mult (mb * mc) 8). change (inject_Z 8) with (pow2 3). rewrite <- !Qmult_assoc, <- !pow2_plus. rewrite Hc.
      by replace (3 + (eb + ec - h - e + (e - (p + 5 - h)))) with (eb + ec - 2 - p) by lia. }
  assert (Z.even (ma * 2 ^ g) = true) as EA by (rewrite Z.even_mul, even_pow2, orb_true_r by lia; done).
  assert (Z.even B0 = true) as EB by (unfold B0; by rewrite Z.even_mul, orb_true_r).
  assert (forall z : Z, (inject_Z z * pow2 0 == inject_Z z)%Q) as E0 by (intros; change (pow2 0) with 1%Q; ring).
  destruct (Z.leb_spec ey ex) as [Hle|Hgt].
  - split; [by left|]. split; [lia|]. split; [split; [by apply jam_nonneg|apply jam_le; lia]|].
    exists (inject_Z (ma * 2 ^ g) * pow2 (ex - ex))%Q, (inject_Z B0 * pow2 (ey - ex))%Q. rewrite Z.sub_diag.
    split; [left; rewrite E0; split; [done|]; split; [done|]; apply sticky_shift; lia|].
    split; [rewrite (Y1 ex), Z.sub_diag; reflexivity|]. split; [apply Y2|]. destruct (Z.le_gt_cases (ex - ey) 3) as [Hd|Hd].
    + left. rewrite E0. split; [reflexivity|]. pose proof (jam_shl_more (mb * mc) 3 (ex - ey) ltac:(lia)) as Ej. change (2 ^ 3) with 8 in Ej. fold B0 in Ej. rewrite Ej. unfold B0.
      rewrite !inject_Z_mult, <- (pow2_inject (3 - (ex - ey))) by lia. change (inject_Z 8) with (pow2 3). rewrite <- !Qmult_assoc, <- pow2_plus.
      by replace (3 + (ey - ex)) with (3 - (ex - ey)) by lia.
    + right. destruct Hna as [->|Hna]; [right; unfold ex; lia|left].
      pose proof (jam_div B0 (ex - ey) ltac:(lia) ltac:(lia)) as Hj. pose proof (jam_nonneg B0 (ex - ey) HB0). pose proof (Z.pow_le_mono_r 2 4 (ex - ey) ltac:(lia) ltac:(lia)) as Hp4. change (2 ^ 4) with 16 in Hp4.
      assert (B0 / 2 ^ (ex - ey) <= B0 / 16) as Hq by (apply Z.div_le_compat_l; lia).
      pose proof (pow2_pos (f_P F) ltac:(lia)) as HpP. rewrite Z.pow_add_r in * by lia. change (2 ^ 1) with 2 in *. change (2 ^ 2) with 4.
      assert (B0 < 32 * (2 ^ f_P F * 2 ^ f_P F)) as HBlt by (unfold B0; nia). assert (B0 / 16 < 2 * (2 ^ f_P F * 2 ^ f_P F)) as HBd by (apply Z.div_lt_upper_bound; lia).
      pose proof (Z.pow_le_mono_r 2 (f_P F + 3) g ltac:(lia) Hg) as Hgp. rewrite Z.pow_add_r in Hgp by lia. change (2 ^ 3) with 8 in Hgp.
      assert (8 * (2 ^ f_P F * 2 ^ f_P F) <= ma * 2 ^ g) as HAg by nia. pose proof (Z.pow_le_mono_r 2 10 (f_P F) ltac:(lia) HP) as H10. change (2 ^ 10) with 1024 in H10. nia.
  - split; [by right|]. split; [split; [by apply jam_nonneg|apply jam_le; lia]|]. split; [lia|].
    exists (inject_Z (ma * 2 ^ g) * pow2 (ex - ey))%Q, (inject_Z B0 * pow2 (ey - ey))%Q. rewrite Z.sub_diag.
    split; [right; rewrite E0; split; [done|]; split; [done|]; apply sticky_shift; lia|].
    split; [apply Y1|]. split; [rewrite (Y2 ey), Z.sub_diag; reflexivity|]. destruct (aligned F HF ma g (ey - ex)) as (_ & _ & N); [done|lia..|].
    destruct N as [N|[Hd N]].
    + left. rewrite E0. split; [|reflexivity]. rewrite <- N, inject_Z_mult, <- pow2_inject, <- Qmult_assoc, <- pow2_plus by lia. by replace (g + (ex - ey)) with (g - (ey - ex)) by lia.
    + right. left. unfold ey in Hgt, Hd. destruct (Z.eqb_spec B0 0) as [|HB]; [lia|].
      assert (8 * 2 ^ f_P F <= B0) as H8.
      { unfold B0 in *. pose proof (pow2_pos (f_P F) ltac:(lia)). assert (1 <= mb /\ 1 <= mc) as [? ?] by nia. destruct Hnb as [->|Hnb]; [|nia]. destruct Hnc as [->|Hnc]; [unfold ex in Hgt; lia|nia]. }
      rewrite Z.pow_add_r by lia. change (2 ^ 2) with 4. pose proof (pow2_pos (f_P F) ltac:(lia)). lia.
Qed.

Section Sum.
Context (F : Format) (HF : fmt_ok F) (fin : Z -> Z -> Z -> res (Z * Z)) (mode flags scale c limit bound : Z).

(** The end of the operation rounds what its significand stands for. *)
Hypothesis fin_ok : forall s z e (v Y : Q), s = 0 \/ s = 1 -> 0 < z < bound -> - 10000 < e < 10000 -> sticky z Y ->
  (Y == inject_Z z)%Q \/ 2 ^ (f_P F + 2) <= z \/ e <= limit -> (v == signed s (Y * pow2 (e + scale - c) * ulp F))%Q ->
  fin s z e = Ok (rounded F mode v flags).

Lemma fused_sum s1 s2 m1 m2 p1 p2 A B e (y1 y2 v : Q) : s1 = 0 \/ s1 = 1 -> s2 = 0 \/ s2 = 1 -> 0 <= A -> 0 <= B -> A + B < bound -> - 10000 < e < 10000 ->
  summands A B y1 y2 -> (inject_Z m1 * pow2 p1 == y1 * pow2 (e - c))%Q -> (inject_Z m2 * pow2 p2 == y2 * pow2 (e - c))%Q ->
  (y1 == inject_Z A /\ y2 == inject_Z B)%Q \/ 2 ^ (f_P F + 2) <= Z.abs (A - B) \/ e <= limit -> (m1 =? 0) && (m2 =? 0) && (s1 =? s2) = false ->
  (v == (signed s1 (inject_Z m1 * pow2 p1) + signed s2 (inject_Z m2 * pow2 p2)) * ulp F * pow2 scale)%Q ->
  (let '(s, z) := sum_mant s1 s2 A B in if z =? 0 then Ok (zero F (Z.b2z (Z.land mode 3 =? 2)), flags) else fin s z e) =
  Ok (rounded_sum F mode s1 s2 v flags).
Proof.
  intros Hs1 Hs2 HA HB HAB He Hy Y1 Y2 Hbig E0 Ev.
  assert (v == (signed s1 y1 + signed s2 y2) * pow2 (e - c) * ulp F * pow2 scale)%Q as Ev2.
  { rewrite Ev, <- signed_add_factor. unfold signed. destruct (nz s1), (nz s2); rewrite Y1, Y2; ring. }
  pose proof (sum_mant_ok s1 s2 A B y1 y2 Hs1 Hs2 HA HB Hy) as Hsm. destruct (sum_mant s1 s2 A B) as [s z] eqn:Esm. destruct Hsm as (Hs & Hz & Y & HY & EY & Hex).
  unfold rounded_sum. destruct (Z.eqb_spec z 0) as [->|Hz0].
  - apply (sum_zero s1 s2 A B y1 y2 s Hs1 Hs2 HA HB Hy) in Esm as [Ez Heq]. rewrite Qeq_bool_true by (rewrite Ev2, Ez; ring).
    unfold zero_sign. destruct (Z.eqb_spec s1 s2) as [Es|Hne]; [exfalso|change FPLIB_RM with 2; by rewrite (pack_zero F HF) by (destruct (Z.land mode 3 =? 2); cbn; lia)].
    destruct (Heq Es) as [Z1 Z2]. by rewrite (zero_factor _ _ _ _ Y1 Z1), (zero_factor _ _ _ _ Y2 Z2) in E0.
  - assert (v == signed s (Y * pow2 (e + scale - c) * ulp F))%Q as Ev3.
    { rewrite Ev2, EY, !signed_mul. replace (e + scale - c) with ((e - c) + scale) by lia. rewrite (pow2_plus (e - c)). ring. }
    rewrite (proj2 (proj2 (signed_abs s v _ Hs (Qmult_lt_0_compat _ _ (Qmult_lt_0_compat _ _ (proj1 (sticky_sign z Y HY) ltac:(lia)) (pow2_pos_Q _)) (ulp_pos F)) Ev3))).
    apply (fin_ok s z e v Y); try done; try lia. destruct Hbig as [[H1 H2]|[Hbig|Hl]]; [left; by apply Hex|right; left; lia|right; right; done].
Qed.
End Sum.

(** The sum that an operation rounds: a number and a product, scaled. *)
Definition fused_val (F : Format) (mode a b c scale : Z) : Q :=
  (in_val F mode a + in_val F mode b * in_val F mode c) * pow2 scale.
Definition fused_flags (F : Format) (mode a b c flags : Z) : Z := in_flags F mode c (in_flags F mode b (in_flags F mode a flags)).

Lemma fused_zero F mode a b c scale s1 s2 m1 m2 p1 p2 (q : Q) :
  (in_val F mode a == signed s1 (inject_Z m1 * pow2 p1 * q))%Q -> (in_val F mode b * in_val F mode c == signed s2 (inject_Z m2 * pow2 p2 * q))%Q ->
  m1 = 0 -> m2 = 0 -> (fused_val F mode a b c scale == 0)%Q.
Proof. intros V1 V2 -> ->. unfold fused_val. rewrite V1, V2. unfold signed. destruct (nz s1), (nz s2); change (inject_Z 0) with 0%Q; ring. Qed.

Lemma muladd32_correct a b c scale mode flags : finite F32 a -> finite F32 b -> finite F32 c -> - 2 ^ 20 < scale <= 0 ->
  fp32_muladd a b c scale mode flags =
  Ok (rounded_sum F32 mode (sign_of F32 a) (Z.lxor (sign_of F32 b) (sign_of F32 c)) (fused_val F32 mode a b c scale) (fused_flags F32 mode a b c flags)).
Proof.
  intros Ha Hb Hc Hsc.
  destruct (unpack_finite F32 F32_ok mode a flags Ha) as (s1 & e1 & m1 & fl1 & [U1 [S1 Hs1] E1 M1 V1 G1]).
  destruct (unpack_finite F32 F32_ok mode b fl1 Hb) as (s2 & e2 & m2 & fl2 & [U2 [S2 Hs2] E2 M2 V2 G2]).
  destruct (unpack_finite F32 F32_ok mode c fl2 Hc) as (s3 & e3 & m3 & fl3 & [U3 [S3 Hs3] E3 M3 V3 G3]).
  unfold fp32_muladd, fused_flags, fp32_unpack, fp32_process_NaNs3. rewrite U1, U2, U3, (process_NaNs3_finite F32 F32_ok) by done.
  change (top_exp F32) with 255 in *. rewrite (proj2 (Z.eqb_neq e1 255)), (proj2 (Z.eqb_neq e2 255)), (proj2 (Z.eqb_neq e3 255)) by lia. cbn [andb orb nz Z.eqb negb].
  rewrite <- S1, <- S2, <- S3, <- G1, <- G2, <- G3. pose proof (xor_sign s2 s3 Hs2 Hs3) as Hs. set (sy := Z.lxor s2 s3) in *.
  pose proof (product_val F32 149 s2 s3 m2 m3 e2 e3 _ _ Hs2 Hs3 ulp_F32 V2 V3) as Vp. fold sy in Vp.
  pose proof (fused_align F32 F32_ok 27 13 113 149 e1 m1 e2 m2 e3 m3 ltac:(cbn; lia) ltac:(lia) ltac:(lia) ltac:(lia) ltac:(lia) ltac:(lia) ltac:(lia) M1 M2 M3) as Hal.
  cbv zeta in Hal. change (f_P F32 + 1) with 24 in *. change (13 + 1 + 27) with 41 in Hal. destruct M1 as [M1 _], M2 as [M2 _], M3 as [M3 _].
  assert (0 <= m2 * m3 < 2 ^ 48) as HB by nia. rewrite !Z.shiftl_mul_pow2 by lia. change (2 ^ 3) with 8. rewrite (wrap_u_id 64 (m2 * m3)) by lia. rewrite (wrap_u_id 64 (m1 * 2 ^ 27)), (wrap_u_id 64 (m2 * m3 * 8)) by lia.
  destruct ((m1 =? 0) && ((m2 =? 0) || (m3 =? 0)) && (s1 =? sy)) eqn:E0.
  { apply andb_true_iff in E0 as [[Hm1%Z.eqb_eq H23]%andb_true_iff Es]. assert (m2 * m3 = 0) as Ep by (apply orb_true_iff in H23 as [->%Z.eqb_eq| ->%Z.eqb_eq]; lia).
    unfold rounded_sum, zero_sign, fp32_zero. rewrite Es, (pack_zero F32 F32_ok), Qeq_bool_true by (lia || by eapply fused_zero). done. }
  set (ey := if m2 * m3 * 8 =? 0 then e1 + 13 else e2 + e3 - 113) in *.
  assert ((if ey <=? e1 + 13 then (m1 * 2 ^ 27, align 64 (m2 * m3 * 8) (e1 + 13 - ey), e1 + 13)
    else (align 64 (m1 * 2 ^ 27) (ey - (e1 + 13)), m2 * m3 * 8, ey)) = align_pair (m1 * 2 ^ 27) (m2 * m3 * 8) (e1 + 13) ey) as ->.
  { unfold align_pair. assert (- 113 <= ey <= 500) by (unfold ey; destruct (_ =? 0); lia). destruct (Z.leb_spec ey (e1 + 13)); by rewrite align_jam by lia. }
  destruct (align_pair _ _ _ _) as [[A B] e]. destruct Hal as (He & HA & HBb & y1 & y2 & Hy & Y1 & Y2 & Hbig).
  assert ((if s1 =? sy then (s1, u64 (A + B)) else if B <=? A then (s1, u64 (A - B)) else (Z.lxor s1 1, u64 (B - A))) = sum_mant s1 sy A B) as ->.
  { unfold sum_mant. destruct (s1 =? sy); [by rewrite wrap_u_id by lia|]. destruct (Z.leb_spec B A); by rewrite wrap_u_id by lia. }
  apply (fused_sum F32 F32_ok (fun s z e => let '(x_mnt, x_exp) := fp64_normalise z e in
      fp32_round s (x_exp + scale) (u32 (Z.lor (Z.shiftr x_mnt 31) (Z.b2z (nz (u32 (Z.shiftl x_mnt 1)))))) mode fl3) mode fl3 scale 41 14 (2 ^ 64)
      ) with (m1 := m1) (m2 := m2 * m3) (p1 := e1 - 1) (p2 := e2 + e3 - 2 - 149) (y1 := y1) (y2 := y2); try done; try lia.
  - intros s z e' v Y H1 H2 H3 H4 H5 H6. pose proof (finish_64 s z e' scale mode fl3 v Y H1 ltac:(lia) ltac:(lia) Hsc H4 ltac:(tauto || (destruct H5 as [?|[?|?]]; [tauto|tauto|lia])) H6) as Hf.
    destruct (fp64_normalise z e') as [x_mnt x_exp]. by rewrite collapse_shl.
  - destruct He as [->| ->]; [lia|]. unfold ey. destruct (_ =? 0); lia.
  - unfold fused_val. rewrite V1, Vp. unfold signed. destruct (nz s1), (nz sy); ring.
Qed.

(** The steps of [fp64_muladd] on pairs of words. *)
Lemma align_pair_split A0 B0 ex ey : 0 <= A0 < 2 ^ 128 -> 0 <= B0 < 2 ^ 128 -> - 10000 < ex < 10000 -> - 10000 < ey < 10000 ->
  (if ey <=? ex then let '(y0, y1) := align128 (B0 mod 2 ^ 64) (B0 / 2 ^ 64) (ex - ey) in (A0 mod 2 ^ 64, A0 / 2 ^ 64, y0, y1, ex)
   else let '(x0, x1) := align128 (A0 mod 2 ^ 64) (A0 / 2 ^ 64) (ey - ex) in (x0, x1, B0 mod 2 ^ 64, B0 / 2 ^ 64, ey)) =
  let '(A, B, e) := align_pair A0 B0 ex ey in (A mod 2 ^ 64, A / 2 ^ 64, B mod 2 ^ 64, B / 2 ^ 64, e).
Proof. intros HA HB Hx Hy. unfold align_pair. destruct (Z.leb_spec ey ex); by rewrite align128_split by lia. Qed.

Lemma sum_pair_split s1 s2 A B : 0 <= A -> 0 <= B -> A + B < 2 ^ 128 ->
  (if s1 =? s2 then (s1, add128 (A mod 2 ^ 64) (A / 2 ^ 64) (B mod 2 ^ 64) (B / 2 ^ 64))
   else if 0 <=? cmp128 (A mod 2 ^ 64) (A / 2 ^ 64) (B mod 2 ^ 64) (B / 2 ^ 64) then (s1, sub128 (A mod 2 ^ 64) (A / 2 ^ 64) (B mod 2 ^ 64) (B / 2 ^ 64))
   else (Z.lxor s1 1, sub128 (B mod 2 ^ 64) (B / 2 ^ 64) (A mod 2 ^ 64) (A / 2 ^ 64))) =
  let '(s, z) := sum_mant s1 s2 A B in (s, split128 z).
Proof.
  intros HA HB Hs. unfold sum_mant. rewrite add128_split, cmp128_split by lia. destruct (s1 =? s2); [done|].
  destruct (Z.leb_spec B A).
  - rewrite (proj2 (Z.ltb_ge A B)) by lia. assert ((0 <=? (if B <? A then 1 else 0)) = true) as -> by (by destruct (B <? A)). by rewrite sub128_split by lia.
  - rewrite (proj2 (Z.ltb_lt A B)) by lia. change (0 <=? -1) with false. cbn [andb]. by rewrite sub128_split by lia.
Qed.

Lemma muladd64_correct a b c scale mode flags : finite F64 a -> finite F64 b -> finite F64 c -> - 2 ^ 20 < scale <= 0 ->
  fp64_muladd a b c scale mode flags =
  Ok (rounded_sum F64 mode (sign_of F64 a) (Z.lxor (sign_of F64 b) (sign_of F64 c)) (fused_val F64 mode a b c scale) (fused_flags F64 mode a b c flags)).
Proof.
  intros Ha Hb Hc Hsc.
  destruct (unpack_finite F64 F64_ok mode a flags Ha) as (s1 & e1 & m1 & fl1 & [U1 [S1 Hs1] E1 M1 V1 G1]).
  destruct (unpack_finite F64 F64_ok mode b fl1 Hb) as (s2 & e2 & m2 & fl2 & [U2 [S2 Hs2] E2 M2 V2 G2]).
  destruct (unpack_finite F64 F64_ok mode c fl2 Hc) as (s3 & e3 & m3 & fl3 & [U3 [S3 Hs3] E3 M3 V3 G3]).
  unfold fp64_muladd, fused_flags, fp64_unpack, fp64_process_NaNs3. rewrite U1, U2, U3, (process_NaNs3_finite F64 F64_ok) by done.
  change (top_exp F64) with 2047 in *. rewrite (proj2 (Z.eqb_neq e1 2047)), (proj2 (Z.eqb_neq e2 2047)), (proj2 (Z.eqb_neq e3 2047)) by lia. cbn [andb orb nz Z.eqb negb].
  rewrite <- S1, <- S2, <- S3, <- G1, <- G2, <- G3. pose proof (xor_sign s2 s3 Hs2 Hs3) as Hs. set (sy := Z.lxor s2 s3) in *.
  pose proof (product_val F64 1074 s2 s3 m2 m3 e2 e3 _ _ Hs2 Hs3 ulp_F64 V2 V3) as Vp. fold sy in Vp.
  pose proof (fused_align F64 F64_ok 64 11 1003 1074 e1 m1 e2 m2 e3 m3 ltac:(cbn; lia) ltac:(lia) ltac:(lia) ltac:(lia) ltac:(lia) ltac:(lia) ltac:(lia) M1 M2 M3) as Hal.
  cbv zeta in Hal. change (f_P F64 + 1) with 53 in *. change (11 + 1 + 64) with 76 in Hal. destruct M1 as [M1 _], M2 as [M2 _], M3 as [M3 _].
  assert (0 <= m2 * m3 < 2 ^ 106) as HB by nia.
  destruct ((m1 =? 0) && ((m2 =? 0) || (m3 =? 0)) && (s1 =? sy)) eqn:E0.
  { apply andb_true_iff in E0 as [[Hm1%Z.eqb_eq H23]%andb_true_iff Es]. assert (m2 * m3 = 0) as Ep by (apply orb_true_iff in H23 as [->%Z.eqb_eq| ->%Z.eqb_eq]; lia).
    unfold rounded_sum, zero_sign, fp64_zero. rewrite Es, (pack_zero F64 F64_ok), Qeq_bool_true by (lia || by eapply fused_zero). done. }
  rewrite Z.shiftl_mul_pow2 by lia. change (2 ^ 3) with 8. rewrite (wrap_u_id 64 (m3 * 8)) by lia. rewrite mul62x62_split by lia. replace (m2 * (m3 * 8)) with (m2 * m3 * 8) by lia.
  set (B0 := m2 * m3 * 8) in *. unfold split128 at 1. rewrite split_zero by lia. set (ey := if B0 =? 0 then e1 + 11 else e2 + e3 - 1003) in *.
  assert (- 10000 < ey < 10000) as Hey by (unfold ey; destruct (_ =? 0); lia). pose proof (split_high m1) as Em1. unfold split128 in Em1. injection Em1 as Em1a Em1b.
  pose proof (align_pair_split (m1 * 2 ^ 64) B0 (e1 + 11) ey ltac:(lia) ltac:(lia) ltac:(lia) ltac:(lia)) as Hap. rewrite Em1a, Em1b in Hap. rewrite Hap. clear Hap.
  destruct (align_pair _ _ _ _) as [[A B] e]. destruct Hal as (He & HA & HBb & y1 & y2 & Hy & Y1 & Y2 & Hbig).
  rewrite sum_pair_split by lia. pose proof (sum_mant_ok s1 sy A B y1 y2 Hs1 Hs (proj1 HA) (proj1 HBb) Hy) as Hz.
  transitivity (let '(s, z) := sum_mant s1 sy A B in if z =? 0 then Ok (zero F64 (Z.b2z (Z.land mode 3 =? 2)), fl3) else
      let '(x0, x1) := split128 z in let '(x0_mnt, x1_mnt, x_exp) := fp128_normalise x0 x1 e in
      fp64_round s (x_exp + scale) (Z.lor (u64 (Z.shiftl x1_mnt 1)) (Z.b2z (nz x0_mnt))) mode fl3).
  { destruct (sum_mant s1 sy A B) as [s z]. unfold split128. by rewrite split_zero by lia. }
  clear Hz. apply (fused_sum F64 F64_ok (fun s z e => let '(x0, x1) := split128 z in let '(x0_mnt, x1_mnt, x_exp) := fp128_normalise x0 x1 e in
      fp64_round s (x_exp + scale) (Z.lor (u64 (Z.shiftl x1_mnt 1)) (Z.b2z (nz x0_mnt))) mode fl3) mode fl3 scale 76 12 (2 ^ 128)
      ) with (m1 := m1) (m2 := m2 * m3) (p1 := e1 - 1) (p2 := e2 + e3 - 2 - 1074) (y1 := y1) (y2 := y2); try done; try lia.
  - intros s z e' v Y H1 H2 H3 H4 H5 H6. unfold split128. destruct (pair_split z ltac:(lia)) as [Ez Hw].
    apply (finish_128 s _ _ e' scale mode fl3 v Y); rewrite ?Ez; try done; try lia. destruct H5 as [?|[?|?]]; [tauto|tauto|lia].
  - unfold fused_val. rewrite V1, Vp. unfold signed. destruct (nz s1), (nz sy); ring.
Qed.
