(* ===== verification/FpDiv.v ===== *)
(** Division of [Fplib] rounds the exact quotient once; the reciprocal that
    binary64 finds by Newton's method is good enough. *)
From Stdlib Require Import QArith Qpower Qround Qabs Lqa Zpow_facts Znumtheory.
From S2P Require Import Prelude Fplib FpSpec FpRound FpArith FpMul FpWords.
#[local] Open Scope Z_scope.

(** * Quotients *)

(** The integer part of a quotient, with the remainder as sticky bit. *)
Lemma sticky_div n b : 0 <= n -> 0 < b -> sticky (Z.lor (n / b) (Z.b2z (nz (n mod b)))) (inject_Z n / inject_Z b).
Proof.
  intros Hn Hb. pose proof (Z.div_mod n b ltac:(lia)) as E. pose proof (Z.mod_pos_bound n b Hb) as Hr.
  assert (0 < inject_Z b)%Q as Hbq by (change 0%Q with (inject_Z 0); by rewrite <- Zlt_Qlt).
  assert (inject_Z n / inject_Z b == inject_Z (n / b) + inject_Z (n mod b) / inject_Z b)%Q as ->.
  { rewrite E at 1. rewrite inject_Z_plus, inject_Z_mult. field. intros H. rewrite H in Hbq. by apply Qlt_irrefl in Hbq. }
  unfold nz. destruct (Z.eqb_spec (n mod b) 0) as [->|Hne]; cbn [negb Z.b2z].
  - left. rewrite Z.lor_0_r. change (inject_Z 0) with 0%Q. field. intros H. rewrite H in Hbq. by apply Qlt_irrefl in Hbq.
  - right. assert (0 < inject_Z (n mod b) / inject_Z b)%Q by (apply Qlt_shift_div_l; [done|]; rewrite Qmult_0_l; change 0%Q with (inject_Z 0); rewrite <- Zlt_Qlt; lia).
    assert (inject_Z (n mod b) / inject_Z b < 1)%Q by (apply Qlt_shift_div_r; [done|]; rewrite Qmult_1_l, <- Zlt_Qlt; lia).
    rewrite lor_1. rewrite <- Z.negb_odd. destruct (Z.odd (n / b)) eqn:Eo; cbn [negb Z.b2z].
    + rewrite Z.add_0_r, Eo. split; [done|]. unfold Z.sub. rewrite !inject_Z_plus. change (inject_Z 1) with 1%Q. change (inject_Z (- (1))) with (- (1))%Q. lra.
    + rewrite Z.odd_add, Eo. split; [done|]. replace (n / b + 1 - 1) with (n / b) by lia. replace (n / b + 1 + 1) with (n / b + 2) by lia. rewrite !inject_Z_plus. change (inject_Z 1) with 1%Q. change (inject_Z 2) with 2%Q. lra.
Qed.

(** The result of a division of finite numbers. *)
Definition quotient (F : Format) (mode a b flags : Z) : Z * Z :=
  let s := Z.lxor (sign_of F a) (sign_of F b) in
  if Qeq_bool (in_val F mode b) 0 then
    if Qeq_bool (in_val F mode a) 0 then (defaultNaN F, Z.lor flags FPLIB_IOC) else (with_sign F s (inf_mag F), Z.lor flags FPLIB_DZC)
  else rounded_product F mode s (in_val F mode a / in_val F mode b) flags.

Lemma quotient_val F s1 s2 m1 m2 e1 e2 (x1 x2 : Q) : s1 = 0 \/ s1 = 1 -> s2 = 0 \/ s2 = 1 -> m2 <> 0 ->
  (x1 == signed s1 (inject_Z m1 * pow2 e1 * ulp F))%Q -> (x2 == signed s2 (inject_Z m2 * pow2 e2 * ulp F))%Q ->
  (x1 / x2 == signed (Z.lxor s1 s2) (inject_Z m1 / inject_Z m2 * pow2 (e1 - e2)))%Q.
Proof.
  intros H1 H2 Hm E1 E2. rewrite E1, E2. replace e1 with (e1 - e2 + e2) at 1 by lia. rewrite (pow2_plus (e1 - e2)).
  pose proof (pow2_pos_Q e2) as Hp. pose proof (ulp_pos F) as Hu.
  assert (~ inject_Z m2 == 0)%Q as Hm2 by (intros H; apply Hm, inject_Z_injective, H).
  destruct H1 as [-> | ->], H2 as [-> | ->]; [change (Z.lxor 0 0) with 0|change (Z.lxor 0 1) with 1|change (Z.lxor 1 0) with 1|change (Z.lxor 1 1) with 0];
    unfold signed; cbn; field; split_and!; (done || lra).
Qed.

(** Whether an operand is zero. *)
Lemma operand_zero F s m e (x : Q) : (x == signed s (inject_Z m * pow2 e * ulp F))%Q -> Qeq_bool x 0 = (m =? 0).
Proof.
  intros E. destruct (Z.eqb_spec m 0) as [->|Hm].
  - apply Qeq_bool_true. rewrite E. apply signed_0. change (inject_Z 0) with 0%Q. ring.
  - apply not_true_iff_false. rewrite Qeq_bool_iff, E. intros H. apply Hm, inject_Z_injective. pose proof (pow2_pos_Q e). pose proof (ulp_pos F).
    assert (inject_Z m * pow2 e * ulp F == 0)%Q as H2 by (unfold signed in H; destruct (nz s); lra).
    apply Qmult_integral in H2 as [H2|H2]; [|lra]. apply Qmult_integral in H2 as [H2|H2]; [done|lra].
Qed.

Lemma nz_remainder n b : 0 < b -> negb (n / b * b =? n) = nz (n mod b).
Proof. intros Hb. unfold nz. f_equal. pose proof (Z.div_mod n b ltac:(lia)). destruct (Z.eqb_spec (n mod b) 0), (Z.eqb_spec (n / b * b) n); lia. Qed.

Lemma udiv_ok a b : b <> 0 -> udiv a b = Ok (a / b).
Proof. intros H. unfold udiv, nz. by rewrite (proj2 (Z.eqb_neq b 0) H). Qed.

Lemma div32_correct a b mode flags : finite F32 a -> finite F32 b ->
  fp32_div a b mode flags = Ok (quotient F32 mode a b (in_flags F32 mode b (in_flags F32 mode a flags))).
Proof.
  intros Ha Hb.
  destruct (unpack_finite F32 F32_ok mode a flags Ha) as (s1 & e1 & m1 & fl1 & [U1 [S1 Hs1] E1 [M1 _] V1 G1]).
  destruct (unpack_finite F32 F32_ok mode b fl1 Hb) as (s2 & e2 & m2 & fl2 & [U2 [S2 Hs2] E2 [M2 _] V2 G2]).
  unfold fp32_div, fp32_unpack, fp32_process_NaNs, quotient. rewrite U1, U2, (process_NaNs_finite F32 F32_ok) by done. cbn [nz Z.eqb negb].
  change (top_exp F32) with 255 in *. change (f_P F32 + 1) with 24 in *. rewrite (proj2 (Z.eqb_neq e1 255)), (proj2 (Z.eqb_neq e2 255)) by lia. cbn [andb orb negb].
  rewrite (operand_zero _ _ _ _ _ V1), (operand_zero _ _ _ _ _ V2), orb_false_r.
  rewrite <- S1, <- S2, <- G1, <- G2. pose proof (xor_sign s1 s2 Hs1 Hs2) as Hs.
  destruct (Z.eqb_spec m2 0) as [|N2]; [rewrite andb_true_r; destruct (m1 =? 0); [done|unfold fp32_infinity; by rewrite (pack_infinity F32 F32_ok) by lia]|]. rewrite andb_false_r.
  pose proof (quotient_val F32 s1 s2 m1 m2 (e1 - 1) (e2 - 1) _ _ Hs1 Hs2 N2 V1 V2) as Ev. set (s := Z.lxor s1 s2) in *. set (v := (in_val F32 mode a / in_val F32 mode b)%Q) in *.
  unfold rounded_product. destruct (Z.eqb_spec m1 0) as [Z1|N1].
  { unfold fp32_zero. rewrite (pack_zero F32 F32_ok), Qeq_bool_true; [done| |lia]. rewrite Ev. apply signed_0. rewrite Z1. change (inject_Z 0) with 0%Q. unfold Qdiv. ring. }
  destruct (fp32_normalise_ok m1 e1 ltac:(lia)) as (sh & -> & Hsh & Hn). set (A := m1 * 2 ^ sh) in *. rewrite Z.shiftl_mul_pow2 by lia. rewrite (wrap_u_id 64 (A * 2 ^ 18)) by lia.
  set (n := A * 2 ^ 18) in *. rewrite udiv_ok by done. cbn [mbind res_bind].
  assert (2 ^ 25 <= n / m2) as Hq1 by (apply Z.div_le_lower_bound; unfold n in *; nia).
  pose proof (Z.mul_div_le n m2 ltac:(lia)) as Hq2. assert (n / m2 <= n) by (pose proof (Z.div_pos n m2 ltac:(lia) ltac:(lia)); nia).
  rewrite wrap_u_id by nia. rewrite nz_remainder by lia. pose proof (sticky_div n m2 ltac:(lia) ltac:(lia)) as Hst. set (z := Z.lor _ _) in *.
  assert (2 ^ 25 <= z < 2 ^ 64) as Hz by (unfold z; destruct (nz _); cbn [Z.b2z]; [rewrite lor_1; destruct (Z.even _); cbn [Z.b2z]; lia|rewrite Z.lor_0_r; lia]).
  assert (v == signed s (inject_Z n / inject_Z m2 * pow2 (e1 - sh - e2 + 172 + 0 - 41) * ulp F32))%Q as Ev2.
  { rewrite Ev. replace (e1 - 1 - (e2 - 1)) with (sh + 18 + (e1 - sh - e2 + 172 + 0 - 41) + - 149) by lia. rewrite !pow2_plus, ulp_F32. unfold n, A.
    rewrite !inject_Z_mult, <- !pow2_inject by lia. unfold signed. destruct (nz s); field; intros H0; apply N2, inject_Z_injective, H0. }
  assert (0 < inject_Z n / inject_Z m2)%Q as Hpos by (by apply (sticky_sign z _ Hst); lia).
  rewrite (proj2 (proj2 (signed_abs s v _ Hs (Qmult_lt_0_compat _ _ (Qmult_lt_0_compat _ _ Hpos (pow2_pos_Q _)) (ulp_pos F32)) Ev2))).
  pose proof (finish_64 s z (e1 - sh - e2 + 172) 0 mode fl2 v _ Hs ltac:(lia) ltac:(lia) ltac:(lia) Hst (or_intror (or_introl (proj1 Hz))) Ev2) as Hf.
  destruct (fp64_normalise z _) as [x_mnt x_exp]. rewrite collapse_shl. rewrite (Z.add_0_r x_exp) in Hf. apply Hf.
Qed.

(** * A significand and the sticky bit of what is left *)

Lemma jam_low x j k (t : bool) : 1 <= j <= k + 1 -> jam (x * 2 ^ j + Z.b2z t) k = jam (2 * x + Z.b2z t) (k - j + 1).
Proof.
  intros Hj. replace k with (j - 1 + (k - j + 1)) at 1 by lia. rewrite <- jam_jam by lia. f_equal.
  destruct (Z.eq_dec j 1) as [->|]; [rewrite jam_0; lia|]. replace j with (1 + (j - 1)) at 1 by lia. rewrite Z.pow_add_r by lia.
  pose proof (Z.pow_le_mono_r 2 1 (j - 1) ltac:(lia) ltac:(lia)). unfold jam. rewrite Z.shiftr_div_pow2 by lia.
  replace (x * (2 ^ 1 * 2 ^ (j - 1)) + Z.b2z t) with (Z.b2z t + (2 * x) * 2 ^ (j - 1)) by lia. rewrite Z.div_add, Z.mod_add by lia.
  assert (0 <= Z.b2z t < 2 ^ (j - 1)) by (destruct t; cbn; lia). rewrite Z.div_small, Z.mod_small by done. rewrite Z.add_0_l.
  destruct t; cbn [Z.b2z nz Z.eqb negb]; [rewrite lor_1, Z.even_mul; cbn; lia|rewrite Z.lor_0_r; lia].
Qed.

(** [x], and whether [Y] is larger, by less than one. *)
Definition part_of (x : Z) (t : bool) (Y : Q) : Prop :=
  if t then (inject_Z x < Y)%Q /\ (Y < inject_Z (x + 1))%Q else (Y == inject_Z x)%Q.

Lemma part_sticky x t Y : part_of x t Y -> sticky (2 * x + Z.b2z t) (Y * 2).
Proof.
  unfold part_of, sticky. destruct t; cbn [Z.b2z]; [intros [H1 H2]; right|intros ->; left; rewrite Z.add_0_r, inject_Z_mult; ring].
  rewrite Z.odd_add, Z.odd_mul. split; [done|]. replace (2 * x + 1 - 1) with (2 * x) by lia. replace (2 * x + 1 + 1) with (2 * (x + 1)) by lia.
  rewrite !inject_Z_mult. change (inject_Z 2) with 2%Q. lra.
Qed.

Lemma part_pos x t Y : 0 < x -> part_of x t Y -> (0 < Y)%Q.
Proof.
  intros Hx. assert (0 < inject_Z x)%Q by (change 0%Q with (inject_Z 0); by rewrite <- Zlt_Qlt).
  unfold part_of. destruct t; [intros [H1 _]; lra|by intros ->].
Qed.

(** The end of an operation by Newton's method. *)
Lemma finish_part F s x t e mode flags (v Y : Q) : arith F -> s = 0 \/ s = 1 -> 2 ^ (f_P F + 1) <= x < 2 ^ f_W F -> - 2 ^ 30 < e < 2 ^ 30 -> part_of x t Y ->
  (v == signed s (Y * pow2 (e - (f_W F - f_P F)) * ulp F))%Q ->
  (let '(x_mnt, x_exp) := normalise F x e in
   round F s x_exp (Z.lor (wrap_u (f_W F) (Z.shiftl x_mnt 1)) (Z.b2z t)) mode flags) = Ok (rounded F mode v flags).
Proof.
  intros Har Hs Hx He HY Ev. pose proof (arith_ok F Har) as HF. pose proof HF as [HP HE HW H64 _].
  pose proof (pow2_pos (f_P F + 1) ltac:(lia)) as HpP. destruct (normalise_ok F x e Har ltac:(lia)) as (sh & -> & Hsh & Hn).
  assert (2 ^ f_W F = 2 * 2 ^ (f_W F - 1)) as E2 by (apply pow2_double; lia). rewrite Z.shiftl_mul_pow2 by lia. change (2 ^ 1) with 2.
  assert (wrap_u (f_W F) (x * 2 ^ sh * 2) = (x * 2 ^ sh - 2 ^ (f_W F - 1)) * 2) as -> by (symmetry; apply (Z.mod_unique_pos _ _ 1); lia).
  assert (forall n, Z.lor (n * 2) (Z.b2z t) = n * 2 + Z.b2z t) as Elor by (intros n; apply (lor_add _ _ 1); [lia|by apply Z.mod_mul|destruct t; cbn; lia]).
  rewrite Elor. set (mnt := _ + Z.b2z t). assert (0 <= mnt < 2 ^ f_W F) as Hm by (unfold mnt; destruct t; cbn; lia).
  assert (2 ^ f_W F + mnt = x * 2 ^ (sh + 1) + Z.b2z t) as EM by (unfold mnt; rewrite Z.pow_add_r by lia; lia).
  pose proof (part_pos x t Y ltac:(lia) HY) as HYp. pose proof (ulp_pos F) as Hu. pose proof (pow2_pos_Q (e - (f_W F - f_P F))) as Hp.
  apply (round_rounded F s _ _ mode flags v (Y * pow2 (e - (f_W F - f_P F)) * ulp F)%Q HF Hs); [lia| |done|].
  { apply Qmult_lt_0_compat; [by apply Qmult_lt_0_compat|done]. }
  assert (f_P F + 1 + sh < f_W F) as Hsh2.
  { apply (Z.pow_lt_mono_r_iff 2); [lia|lia|]. rewrite Z.pow_add_r by lia. pose proof (pow2_pos sh ltac:(lia)). nia. }
  split; [done|]. unfold quarters. rewrite EM, jam_low, jam_jam by lia. apply part_sticky in HY.
  unfold Qdiv. rewrite <- (Qmult_assoc (Y * _)), Qmult_inv_r, Qmult_1_r by lra. rewrite four_pow2.
  set (k := f_W F - f_P F - 2 - (sh + 1) + 1 + Z.max 0 (1 - (e - sh))).
  assert (Y * pow2 (e - (f_W F - f_P F)) * pow2 (- (Z.max 0 (e - sh - 1) - 2)) == Y * 2 * pow2 (- k))%Q as ->.
  { rewrite <- !Qmult_assoc, <- pow2_plus. change 2%Q with (pow2 1). rewrite <- pow2_plus. unfold k.
    by replace (e - (f_W F - f_P F) + - (Z.max 0 (e - sh - 1) - 2)) with (1 + - (f_W F - f_P F - 2 - (sh + 1) + 1 + Z.max 0 (1 - (e - sh)))) by lia. }
  apply sticky_jam; [unfold k; lia|done].
Qed.

(** * Newton's method for a reciprocal *)

(** The first approximation: the reciprocal of the upper half. *)
Lemma newton_start b : 2 ^ 63 <= b < 2 ^ 64 -> let x := (2 ^ 64 - 1) / (b / 2 ^ 31) in
  2 ^ 31 <= x < 2 ^ 32 /\ - 2 ^ 63 <= 2 ^ 95 - b * x <= 2 ^ 64 /\ b * x <> 2 ^ 95.
Proof.
  intros Hb x. set (h := b / 2 ^ 31) in *. pose proof (Z.div_mod b (2 ^ 31) ltac:(lia)) as Eb. pose proof (Z.mod_pos_bound b (2 ^ 31) ltac:(lia)) as Hl. fold h in Eb.
  assert (2 ^ 32 <= h < 2 ^ 33) as Hh by lia.
  pose proof (Z.div_mod (2 ^ 64 - 1) h ltac:(lia)) as Ex. pose proof (Z.mod_pos_bound (2 ^ 64 - 1) h ltac:(lia)) as Hr. fold x in Ex.
  assert (2 ^ 31 <= x) by (apply Z.div_le_lower_bound; lia). assert (x < 2 ^ 32) by (apply Z.div_lt_upper_bound; lia).
  set (l := b mod 2 ^ 31) in *. set (r := (2 ^ 64 - 1) mod h) in *. clearbody l r h x.
  assert (b * x = 2 ^ 31 * (2 ^ 64 - 1 - r) + l * x) as Ebx by (rewrite Eb; replace (2 ^ 64 - 1 - r) with (h * x) by lia; ring).
  split; [lia|]. split; [rewrite Ebx; nia|]. intros E. assert (b | 2 ^ 95) as Hd by (exists x; lia).
  destruct (Zdivide_power_2 b 2 95 ltac:(lia) ltac:(lia) prime_2 Hd) as [q ->]. assert (0 <= q) by (destruct (Z.le_gt_cases 0 q); [done|rewrite (Z.pow_neg_r 2 q) in Hb by lia; lia]).
  assert (q = 63) as ->; [|lia]. destruct Hb as [Hb1 Hb2]. apply Z.pow_lt_mono_r_iff in Hb2; [|lia..]. apply Z.pow_le_mono_r_iff in Hb1; [|lia..]. lia.
Qed.

(** One step: [x (2 - b x)], with the fractions cut off. *)
Lemma newton_step b x : 2 ^ 63 <= b < 2 ^ 64 -> 2 ^ 31 <= x < 2 ^ 32 -> - 2 ^ 63 <= 2 ^ 95 - b * x <= 2 ^ 64 -> b * x <> 2 ^ 95 ->
  let n := (2 ^ 96 - b * x) / 2 ^ 32 in let r := n * x / 2 ^ 33 in
  0 <= n < 2 ^ 64 /\ 0 <= r < 2 ^ 62 /\ 0 < 2 ^ 125 - r * b <= 3 * b.
Proof.
  intros Hb Hx Hd Hne n r. pose proof (Z.div_mod (2 ^ 96 - b * x) (2 ^ 32) ltac:(lia)) as En. pose proof (Z.mod_pos_bound (2 ^ 96 - b * x) (2 ^ 32) ltac:(lia)) as Hf. fold n in En.
  pose proof (Z.div_mod (n * x) (2 ^ 33) ltac:(lia)) as Er. pose proof (Z.mod_pos_bound (n * x) (2 ^ 33) ltac:(lia)) as Hg. fold r in Er.
  set (f := (2 ^ 96 - b * x) mod 2 ^ 32) in *. set (g := (n * x) mod 2 ^ 33) in *. clearbody n f r g.
  set (d := 2 ^ 95 - b * x) in *. assert (d <> 0) as Hd0 by (unfold d; lia). assert (2 ^ 32 * n = 2 ^ 95 + d - f) as En2 by (unfold d; lia). clear En.
  assert (2 ^ 65 * r = (2 ^ 95 + d) * x - f * x - 2 ^ 32 * g) as Eq.
  { replace ((2 ^ 95 + d) * x - f * x) with ((2 ^ 95 + d - f) * x) by ring. rewrite <- En2. lia. }
  assert (2 ^ 65 * (r * b) = 2 ^ 190 - d * d - b * (f * x + 2 ^ 32 * g)) as Eqb.
  { replace (2 ^ 65 * (r * b)) with (2 ^ 65 * r * b) by ring. rewrite Eq. replace (2 ^ 190 - d * d) with ((2 ^ 95 + d) * (b * x)) by (unfold d; ring). ring. }
  assert (0 < d * d <= 2 ^ 128) as Hdd by (clear - Hd Hd0; nia). assert (0 <= f * x < 2 ^ 64) as Hfx by (clear - Hf Hx; nia).
  assert (0 <= b * (f * x + 2 ^ 32 * g) <= b * 2 ^ 66) as Hbf by (clear - Hfx Hg Hb; nia).
  split; [lia|]. assert (0 < 2 ^ 125 - r * b <= 3 * b) as Hfin by (clear - Eqb Hdd Hbf Hb; lia). split; [|done]. clear - Hfin Hb. nia.
Qed.

(** The quotient is one too small, or right. *)
Lemma newton_last a b r : 2 ^ 63 <= a < 2 ^ 64 -> 2 ^ 63 <= b < 2 ^ 64 -> a mod 2 ^ 2 = 0 -> 0 <= r < 2 ^ 62 -> 0 < 2 ^ 125 - r * b <= 3 * b ->
  let x := r * (a / 2 ^ 2) / 2 ^ 4 / 2 ^ 64 in
  0 <= x < 2 ^ 57 /\ x * b < a * 2 ^ 55 < (x + 2) * b.
Proof.
  intros Ha Hb Ha4 Hr Hrb x. pose proof (Z.div_mod a (2 ^ 2) ltac:(lia)) as Ea. rewrite Ha4, Z.add_0_r in Ea. unfold x. rewrite Z.div_div by lia. change (2 ^ 4 * 2 ^ 64) with (2 ^ 68).
  set (a4 := a / 2 ^ 2) in *. clearbody a4. subst a. pose proof (Z.div_mod (r * a4) (2 ^ 68) ltac:(lia)) as Ex. pose proof (Z.mod_pos_bound (r * a4) (2 ^ 68) ltac:(lia)) as Hf.
  set (q := r * a4 / 2 ^ 68) in *. set (f := (r * a4) mod 2 ^ 68) in *. clearbody q f. clear x. change (2 ^ 2) with 4 in *.
  assert (2 ^ 68 * (q * b) = r * b * a4 - f * b) as E by (replace (2 ^ 68 * (q * b)) with (2 ^ 68 * q * b) by ring; replace (2 ^ 68 * q) with (r * a4 - f) by lia; ring).
  set (e := 2 ^ 125 - r * b) in *. assert (r * b * a4 = 2 ^ 125 * a4 - e * a4) as E2 by (unfold e; ring). rewrite E2 in E.
  assert (0 <= f * b < 2 ^ 68 * b) as Hfb by (clear - Hf Hb; nia). assert (0 < e * a4 <= 3 * b * a4) as Hea by (clear - Hrb Ha; nia).
  assert (3 * b * a4 < 2 ^ 68 * b) as H3 by (clear - Ha Hb; nia). split; [|split; clear - E Hfb Hea H3; lia].
  assert (0 <= r * a4 < 2 ^ 62 * 2 ^ 62) as Hra by (clear - Hr Ha; nia). clear - Ex Hf Hra. lia.
Qed.

Lemma newton_quotient_ok a b : 2 ^ 63 <= a < 2 ^ 64 -> 2 ^ 63 <= b < 2 ^ 64 -> a mod 2 ^ 11 = 0 -> b mod 2 ^ 2 = 0 ->
  exists c, newton_quotient a b = Ok (a * 2 ^ 55 / b, c) /\ nz c = nz ((a * 2 ^ 55) mod b).
Proof.
  intros Ha Hb Ha11 Hb4. destruct (newton_start b Hb) as (Hx & Hd & Hne). unfold newton_quotient. change (u64 (Z.lnot 0)) with (2 ^ 64 - 1). rewrite !Z.shiftr_div_pow2 by lia.
  assert (2 ^ 32 <= b / 2 ^ 31) as Hh by (apply Z.div_le_lower_bound; lia). rewrite udiv_ok by lia. cbn [mbind res_bind]. set (x := (2 ^ 64 - 1) / (b / 2 ^ 31)) in *.
  destruct (newton_step b x Hb Hx Hd Hne) as (Hn & Hr & Hrb). rewrite (wrap_u_id 32 x) by lia. rewrite mul64x32_split by lia. unfold split128 at 1.
  pose proof (sub128_split (2 ^ 96) (b * x) ltac:(lia) ltac:(nia) ltac:(lia)) as Esub. change (2 ^ 96 mod 2 ^ 64) with 0 in Esub. change (2 ^ 96 / 2 ^ 64) with (Z.shiftl 1 32) in Esub. rewrite Esub. clear Esub.
  unfold split128 at 1. rewrite lsr128_split by lia. rewrite Z.shiftr_div_pow2 by lia. set (n := (2 ^ 96 - b * x) / 2 ^ 32) in *. rewrite split_small by lia.
  rewrite mul64x32_split by lia. unfold split128 at 1. rewrite lsr128_split by (lia || nia). rewrite Z.shiftr_div_pow2 by lia. set (r := n * x / 2 ^ 33) in *. rewrite split_small by lia.
  assert (a mod 2 ^ 2 = 0) as Ha4 by (apply Z.mod_divide; [lia|]; apply (Z.divide_trans _ (2 ^ 11)); [by exists (2 ^ 9)|by apply Z.mod_divide]).
  destruct (newton_last a b r Ha Hb Ha4 Hr Hrb) as (Hq & Hlo & Hhi). assert (0 <= a / 2 ^ 2 < 2 ^ 62) as Ha2 by (split; [apply Z.div_pos; lia|apply Z.div_lt_upper_bound; lia]).
  rewrite mul62x62_split by lia. unfold split128 at 1. rewrite lsr128_split by (lia || nia). rewrite Z.shiftr_div_pow2 by lia. unfold split128 at 1. set (q := r * (a / 2 ^ 2) / 2 ^ 4 / 2 ^ 64) in *.
  rewrite (wrap_u_id 64 (q + 1)) by lia. assert (0 <= b / 2 ^ 2 < 2 ^ 62) as Hb2 by (split; [apply Z.div_pos; lia|apply Z.div_lt_upper_bound; lia]).
  rewrite mul62x62_split by lia. unfold split128.
  pose proof (Z.div_mod a (2 ^ 11) ltac:(lia)) as Ea. rewrite Ha11, Z.add_0_r in Ea. pose proof (Z.div_mod b (2 ^ 2) ltac:(lia)) as Eb. rewrite Hb4, Z.add_0_r in Eb.
  set (a11 := a / 2 ^ 11) in *. set (b2 := b / 2 ^ 2) in *.
  pose proof (cmp128_split (b2 * (q + 1)) (a11 * 2 ^ 64) ltac:(nia) ltac:(lia)) as Ec. rewrite Z.mod_mul, Z.div_mul in Ec by lia. rewrite Ec. clear Ec.
  pose proof (Z.div_mod (a * 2 ^ 55) b ltac:(lia)) as EQ. pose proof (Z.mod_pos_bound (a * 2 ^ 55) b ltac:(lia)) as HR.
  set (Q := a * 2 ^ 55 / b) in *. set (R := (a * 2 ^ 55) mod b) in *. clearbody Q R q a11 b2. change (2 ^ 2) with 4 in *.
  assert (q <= Q <= q + 1) as HQ by (clear - EQ HR Hlo Hhi Hb; nia).
  destruct (Z.ltb_spec (b2 * (q + 1)) (a11 * 2 ^ 64)) as [H1|H1]; [|destruct (Z.ltb_spec (a11 * 2 ^ 64) (b2 * (q + 1))) as [H2|H2]].
  - exists (-1). change (-1 <=? 0) with true. cbn match. assert (Q = q + 1) as -> by (clear - EQ HR Ea Eb H1 HQ Hb; nia). split; [done|]. symmetry. apply nz_ext. clear - EQ Ea Eb H1. nia.
  - exists 1. change (1 <=? 0) with false. cbn match. assert (Q = q) as -> by (clear - EQ HR Ea Eb H2 HQ Hb; nia). split; [done|]. apply nz_ext. clear - EQ Hlo HR. nia.
  - exists 0. change (0 <=? 0) with true. cbn match. assert (Q = q + 1) as -> by (clear - EQ HR Ea Eb H1 H2 HQ Hb; nia). split; [done|]. apply nz_ext. clear - EQ Ea Eb H1 H2. nia.
Qed.

Lemma part_div n b : 0 <= n -> 0 < b -> part_of (n / b) (nz (n mod b)) (inject_Z n / inject_Z b).
Proof.
  intros Hn Hb. pose proof (Z.div_mod n b ltac:(lia)) as E. pose proof (Z.mod_pos_bound n b Hb) as Hr.
  assert (0 < inject_Z b)%Q as Hbq by (change 0%Q with (inject_Z 0); by rewrite <- Zlt_Qlt). unfold part_of, nz.
  destruct (Z.eqb_spec (n mod b) 0) as [E0|Hne]; cbn [negb].
  - rewrite E, E0, Z.add_0_r at 1. rewrite inject_Z_mult. field. intros H. rewrite H in Hbq. by apply Qlt_irrefl in Hbq.
  - split; [apply Qlt_shift_div_l; [done|]|apply Qlt_shift_div_r; [done|]]; rewrite <- inject_Z_mult, <- Zlt_Qlt; nia.
Qed.

Lemma div64_correct a b mode flags : finite F64 a -> finite F64 b ->
  fp64_div a b mode flags = Ok (quotient F64 mode a b (in_flags F64 mode b (in_flags F64 mode a flags))).
Proof.
  intros Ha Hb.
  destruct (unpack_finite F64 F64_ok mode a flags Ha) as (s1 & e1 & m1 & fl1 & [U1 [S1 Hs1] E1 [M1 _] V1 G1]).
  destruct (unpack_finite F64 F64_ok mode b fl1 Hb) as (s2 & e2 & m2 & fl2 & [U2 [S2 Hs2] E2 [M2 _] V2 G2]).
  unfold fp64_div, fp64_unpack, fp64_process_NaNs, quotient. rewrite U1, U2, (process_NaNs_finite F64 F64_ok) by done. cbn [nz Z.eqb negb].
  change (top_exp F64) with 2047 in *. change (f_P F64 + 1) with 53 in *. rewrite (proj2 (Z.eqb_neq e1 2047)), (proj2 (Z.eqb_neq e2 2047)) by lia. cbn [andb orb negb].
  rewrite (operand_zero _ _ _ _ _ V1), (operand_zero _ _ _ _ _ V2), orb_false_r.
  rewrite <- S1, <- S2, <- G1, <- G2. pose proof (xor_sign s1 s2 Hs1 Hs2) as Hs.
  destruct (Z.eqb_spec m2 0) as [|N2]; [rewrite andb_true_r; destruct (m1 =? 0); [done|unfold fp64_infinity; by rewrite (pack_infinity F64 F64_ok) by lia]|]. rewrite andb_false_r.
  pose proof (quotient_val F64 s1 s2 m1 m2 (e1 - 1) (e2 - 1) _ _ Hs1 Hs2 N2 V1 V2) as Ev. set (s := Z.lxor s1 s2) in *. set (v := (in_val F64 mode a / in_val F64 mode b)%Q) in *.
  unfold rounded_product. destruct (Z.eqb_spec m1 0) as [Z1|N1].
  { unfold fp64_zero. rewrite (pack_zero F64 F64_ok), Qeq_bool_true; [done| |lia]. rewrite Ev. apply signed_0. rewrite Z1. change (inject_Z 0) with 0%Q. unfold Qdiv. ring. }
  destruct (fp64_normalise_ok m1 e1 ltac:(lia)) as (sh1 & -> & Hsh1 & Hn1). destruct (fp64_normalise_ok m2 e2 ltac:(lia)) as (sh2 & -> & Hsh2 & Hn2).
  assert (forall m sh, 0 < m < 2 ^ 53 -> 0 <= sh -> 2 ^ (64 - 1) <= m * 2 ^ sh -> (m * 2 ^ sh) mod 2 ^ 11 = 0) as Hmod.
  { intros m sh Hm Hsh Hn. assert (63 < 53 + sh) as H11 by (apply (Z.pow_lt_mono_r_iff 2); [lia|lia|]; rewrite Z.pow_add_r by lia; pose proof (pow2_pos sh ltac:(lia)); nia).
    replace sh with (sh - 11 + 11) by lia. rewrite Z.pow_add_r, Z.mul_assoc by lia. apply Z.mod_mul. lia. }
  assert ((m2 * 2 ^ sh2) mod 2 ^ 2 = 0) as Hm2.
  { apply Z.mod_divide; [lia|]. apply (Z.divide_trans _ (2 ^ 11)); [by exists (2 ^ 9)|]. apply Z.mod_divide; [lia|]. apply Hmod; lia. }
  set (A := m1 * 2 ^ sh1) in *. set (B := m2 * 2 ^ sh2) in *.
  destruct (newton_quotient_ok A B Hn1 Hn2 (Hmod m1 sh1 ltac:(lia) ltac:(lia) ltac:(lia)) Hm2) as (c & -> & Ec). cbn [mbind res_bind]. rewrite Ec.
  pose proof (part_div (A * 2 ^ 55) B ltac:(lia) ltac:(lia)) as HY.
  assert (2 ^ 54 <= A * 2 ^ 55 / B < 2 ^ 64) as HQ by (split; [apply Z.div_le_lower_bound; lia|apply Z.div_lt_upper_bound; lia]).
  assert (v == signed s (inject_Z (A * 2 ^ 55) / inject_Z B * pow2 (e1 - sh1 - (e2 - sh2) + 1031 - 12) * ulp F64))%Q as Ev2.
  { rewrite Ev. replace (e1 - 1 - (e2 - 1)) with (sh1 + 55 + (e1 - sh1 - (e2 - sh2) + 1031 - 12) + - 1074 + - sh2) by lia. rewrite !pow2_plus, ulp_F64. unfold A, B.
    rewrite !inject_Z_mult, <- !pow2_inject by lia. pose proof (pow2_inv sh2) as Hi. pose proof (pow2_pos_Q sh2) as Hp2.
    assert (pow2 (- sh2) == / pow2 sh2)%Q as -> by (apply (Qmult_inj_r _ _ (pow2 sh2)); [lra|]; rewrite Qmult_comm, Hi; field; lra).
    unfold signed. destruct (nz s); field; (split; intros H0; [rewrite H0 in Hp2; by apply Qlt_irrefl in Hp2|apply N2, inject_Z_injective, H0]). }
  pose proof (part_pos (A * 2 ^ 55 / B) _ _ ltac:(lia) HY) as Hpos.
  rewrite (proj2 (proj2 (signed_abs s v _ Hs (Qmult_lt_0_compat _ _ (Qmult_lt_0_compat _ _ Hpos (pow2_pos_Q _)) (ulp_pos F64)) Ev2))).
  exact (finish_part F64 s (A * 2 ^ 55 / B) _ (e1 - sh1 - (e2 - sh2) + 1031) mode fl2 v _ (or_intror eq_refl) Hs ltac:(cbn; lia) ltac:(lia) HY Ev2).
Qed.
