(* ===== verification/FpSqrt.v ===== *)
(** Square roots of [Fplib] are the exact roots rounded once.  A root need not be
    rational, so what it is to be rounded is said by rational numbers around it. *)
From Stdlib Require Import QArith Qpower Qround Qabs Lqa.
From S2P Require Import Prelude Fplib FpSpec FpRound FpArith FpMul FpWords FpDiv.
#[local] Open Scope Z_scope.

(** * What a root is *)

(** [r] is the root of [x], rounded: the root is rational, or a whole interval
    around it is rounded to [r]. *)
Definition root_rounded (F : Format) (mode : Z) (x : Q) (flags : Z) (r : Z * Z) : Prop :=
  (exists v : Q, (0 < v)%Q /\ (v * v == x)%Q /\ r = rounded F mode v flags) \/
  (exists lo hi : Q, (0 < lo)%Q /\ (lo < hi)%Q /\ (lo * lo < x)%Q /\ (x < hi * hi)%Q /\ forall v : Q, (lo < v)%Q -> (v < hi)%Q -> r = rounded F mode v flags).

(** The result of the root of a finite number. *)
Definition root (F : Format) (mode a flags : Z) (r : Z * Z) : Prop :=
  if Qeq_bool (in_val F mode a) 0 then r = (with_sign F (sign_of F a) 0, flags)
  else if nz (sign_of F a) then r = (defaultNaN F, Z.lor flags FPLIB_IOC)
  else root_rounded F mode (in_val F mode a) flags r.

(** * Newton's method in 17 bits *)

(** The integer [y] approximates the root of [2 * a]. *)
Definition root_start (a : Z) : Z := (a / 4 + a / 8 + 5 * 2 ^ 28) / 2 ^ 15.
Definition root_step (a y : Z) : Z := a / y + y / 2.

Section Root17.
Context (a : Z) (Ha : 2 ^ 30 <= a < 2 ^ 32).

Lemma root_start_ok : let y := root_start a in 0 < y /\ - 14 * a <= 100 * (y * y - 2 * a) <= 66 * a.
Proof.
  intros y. unfold y, root_start. pose proof (Z.div_mod a 4 ltac:(lia)). pose proof (Z.mod_pos_bound a 4 ltac:(lia)).
  pose proof (Z.div_mod a 8 ltac:(lia)). pose proof (Z.mod_pos_bound a 8 ltac:(lia)). set (x := a / 4 + a / 8 + 5 * 2 ^ 28).
  pose proof (Z.div_mod x (2 ^ 15) ltac:(lia)). pose proof (Z.mod_pos_bound x (2 ^ 15) ltac:(lia)). set (q := x / 2 ^ 15) in *.
  assert (3 * a + 10 * 2 ^ 30 - 13 - 2 ^ 18 <= 2 ^ 18 * q <= 3 * a + 10 * 2 ^ 30) as Hq by (unfold x in *; lia). clear - Ha Hq.
  assert (0 < q) by lia. split; [done|].
  set (L := 3 * a + 10 * 2 ^ 30) in *. assert (2 ^ 36 * (q * q) <= L * L) as H1 by (replace (2 ^ 36 * (q * q)) with (2 ^ 18 * q * (2 ^ 18 * q)) by ring; apply Z.mul_le_mono_nonneg; lia).
  assert ((L - 262157) * (L - 262157) <= 2 ^ 36 * (q * q)) as H2 by (replace (2 ^ 36 * (q * q)) with (2 ^ 18 * q * (2 ^ 18 * q)) by ring; apply Z.mul_le_mono_nonneg; lia).
  assert (0 <= (a - 2 ^ 30) * (4 * 2 ^ 30 - a)) as H3 by (apply Z.mul_nonneg_nonneg; lia). pose proof (Z.square_nonneg (3 * a - 10 * 2 ^ 30)) as H4.
  assert (L * L = 9 * (a * a) + 60 * 2 ^ 30 * a + 100 * 2 ^ 60) as EL by (unfold L; ring).
  replace ((a - 2 ^ 30) * (4 * 2 ^ 30 - a)) with (5 * 2 ^ 30 * a - a * a - 4 * 2 ^ 60) in H3 by ring.
  replace ((3 * a - 10 * 2 ^ 30) * (3 * a - 10 * 2 ^ 30)) with (9 * (a * a) - 60 * 2 ^ 30 * a + 100 * 2 ^ 60) in H4 by ring.
  replace ((L - 262157) * (L - 262157)) with (L * L - 524314 * L + 262157 * 262157) in H2 by ring. unfold L in *. set (aa := a * a) in *. set (qq := q * q) in *. clearbody aa qq. lia.
Qed.

(** What a step does to [y * y - 2 * a]. *)
Lemma root_step_ok y : 0 < y -> let y' := root_step a y in
  4 * (y * y) * (y' * y' - 2 * a) <= (y * y - 2 * a) * (y * y - 2 * a) /\ - (3 * y' + 2) <= y' * y' - 2 * a /\ 0 <= y'.
Proof.
  intros Hy y'. unfold y', root_step. pose proof (Z.div_mod a y ltac:(lia)). pose proof (Z.mod_pos_bound a y ltac:(lia)). pose proof (Z.div_pos a y ltac:(lia) ltac:(lia)).
  pose proof (Z.div_mod y 2 ltac:(lia)). pose proof (Z.mod_pos_bound y 2 ltac:(lia)). pose proof (Z.div_pos y 2 ltac:(lia) ltac:(lia)).
  set (s := a / y + y / 2). assert (0 <= s) as Hs by (unfold s; lia).
  assert (2 * a + y * y - 3 * y < 2 * y * s <= 2 * a + y * y) as Hb by (unfold s; nia). clearbody s. clear - Ha Hy Hs Hb.
  assert ((2 * y * s) * (2 * y * s) <= (2 * a + y * y) * (2 * a + y * y)) as H1 by nia.
  split; [nia|]. split; [|done].
  assert (2 * a + y * y < y * (2 * s + 3)) as H2 by lia. assert ((2 * a + y * y) * (2 * a + y * y) < y * (2 * s + 3) * (y * (2 * s + 3))) as H3 by nia.
  assert (8 * a * (y * y) <= (2 * a + y * y) * (2 * a + y * y)) as H4 by (pose proof (Z.square_nonneg (2 * a - y * y)); nia).
  assert (8 * a < (2 * s + 3) * (2 * s + 3)) as H5 by nia. lia.
Qed.

(** The error is at most [2 * a / n] above and [2 * a / 15000] below. *)
Lemma root_step_below y' : - (3 * y' + 2) <= y' * y' - 2 * a -> 0 <= y' -> 15000 * (2 * a - y' * y') <= 2 * a.
Proof.
  intros H1 H2. destruct (Z.le_gt_cases (2 * a) (y' * y')); [lia|]. destruct (Z.le_gt_cases y' 46340); [lia|]. nia.
Qed.

Lemma root17_ok : let y1 := root_step a (root_start a) in let y2 := root_step a y1 in
  0 < y1 < 2 ^ 17 /\ 0 < y2 < 2 ^ 17 /\ 9000 * (y2 * y2 - 2 * a) <= 2 * a /\ 15000 * (2 * a - y2 * y2) <= 2 * a.
Proof.
  intros y1 y2. destruct root_start_ok as [P0 B0]. destruct (root_step_ok _ P0) as (U1 & L1 & N1). fold y1 in U1, L1, N1. set (y0 := root_start a) in *. clearbody y0.
  pose proof (root_step_below y1 L1 N1) as L1'. assert (1000 * (y1 * y1 - 2 * a) <= 42 * a) as U1'.
  { set (D := y0 * y0 - 2 * a) in *. assert (1000 * (D * D) <= 42 * a * (4 * (y0 * y0))) as H by (replace (y0 * y0) with (2 * a + D) by (unfold D; lia); clearbody D; nia). nia. }
  assert (0 < y1 < 2 ^ 17) as P1 by nia. destruct (root_step_ok y1 (proj1 P1)) as (U2 & L2 & N2). fold y2 in U2, L2, N2. clearbody y1 y2.
  pose proof (root_step_below y2 L2 N2) as L2'. assert (9000 * (y2 * y2 - 2 * a) <= 2 * a) as U2'.
  { set (D := y1 * y1 - 2 * a) in *. assert (9000 * (D * D) <= 2 * a * (4 * (y1 * y1))) as H.
    { assert (y1 * y1 = 2 * a + D) as -> by (unfold D; lia). assert (0 <= (15000 * D + 2 * a) * (42 * a - 1000 * D)) as H1 by (apply Z.mul_nonneg_nonneg; lia).
      assert (0 <= a * (42 * a - 1000 * D)) as H2 by (apply Z.mul_nonneg_nonneg; lia). clear - H1 H2 Ha. clearbody D. lia. }
    apply (Z.mul_le_mono_pos_l _ _ (4 * (y1 * y1))); [lia|]. clear - H U2. clearbody D. lia. }
  split; [done|]. split; [nia|]. done.
Qed.
End Root17.

(** * The step to 32 bits *)

Definition root32 (a : Z) : Z := let x := root_step (a / 2 ^ 32) (root_step (a / 2 ^ 32) (root_start (a / 2 ^ 32))) * 2 ^ 15 in a / x / 4 + x / 2.

(** [x] approximates the root of [a / 2]. *)
Definition near_root (a x : Z) : Prop := 2 ^ 30 <= x < 2 ^ 32 /\ a < 2 * ((x + 1) * (x + 1)) /\ 300000000 * (2 * (x * x) - a) <= a.

Lemma root32_ok a : 2 ^ 62 <= a < 2 ^ 64 -> near_root a (root32 a).
Proof.
  intros Ha. unfold root32. pose proof (Z.div_mod a (2 ^ 32) ltac:(lia)) as Ea. pose proof (Z.mod_pos_bound a (2 ^ 32) ltac:(lia)) as Hl.
  assert (2 ^ 30 <= a / 2 ^ 32 < 2 ^ 32) as Hh by lia. destruct (root17_ok _ Hh) as (_ & Hy & Hu & Hd). set (y := root_step _ (root_step _ _)) in *. set (h := a / 2 ^ 32) in *. set (l := a mod 2 ^ 32) in *. clearbody y h l.
  set (w := y * 2 ^ 15) in *. rewrite Z.div_div by lia. assert (w / 2 = y * 2 ^ 14) as -> by (unfold w; replace (y * 2 ^ 15) with (y * 2 ^ 14 * 2) by lia; apply Z.div_mul; lia).
  pose proof (Z.div_mod a (w * 4) ltac:(lia)) as Eq. pose proof (Z.mod_pos_bound a (w * 4) ltac:(lia)) as Hr. set (q := a / (w * 4)) in *. set (r := a mod (w * 4)) in *. clearbody q r.
  set (x := q + y * 2 ^ 14) in *. assert (4 * w * x = a - r + 2 * (w * w)) as Ex by (unfold x, w in *; lia).
  set (B := 2 * (w * w) - a) in *. assert (B = 2 ^ 31 * (y * y - 2 * h) - l) as EB by (unfold B, w; lia).
  assert (9000 * B <= a) as HB1 by lia. assert (14000 * (- B) <= a) as HB2 by lia.
  assert (0 <= x) as Hx0 by (unfold x; pose proof (Z.div_pos a (w * 4)); nia). clearbody x. clear Eq Hu Hd EB Hh q.
  assert (0 < w < 2 ^ 32) as Hw by (unfold w; lia). assert (2 * (w * w) = a + B) as EW by (unfold B; lia). clearbody B w. clear y Hy h l Ea Hl.
  assert (4 * w * x * (4 * w * x) <= (2 * a + B) * (2 * a + B)) as H1 by (apply Z.mul_le_mono_nonneg; nia).
  assert (2 * a + B < 4 * w * (x + 1)) as H2 by lia.
  assert ((2 * a + B) * (2 * a + B) < 4 * w * (x + 1) * (4 * w * (x + 1))) as H3 by (apply Z.mul_lt_mono_nonneg; lia).
  replace ((2 * a + B) * (2 * a + B)) with (4 * a * (a + B) + B * B) in * by ring. pose proof (Z.square_nonneg B) as HBB.
  replace (4 * w * x * (4 * w * x)) with (8 * (2 * (w * w)) * (x * x)) in H1 by ring. replace (4 * w * (x + 1) * (4 * w * (x + 1))) with (8 * (2 * (w * w)) * ((x + 1) * (x + 1))) in H3 by ring.
  rewrite EW in H1, H3. assert (0 < a + B) as HaB by lia.
  assert (a < 2 * ((x + 1) * (x + 1))) as H4 by (apply (Z.mul_lt_mono_pos_l (4 * (a + B))); lia).
  assert (300000000 * (2 * (x * x) - a) <= a) as H5.
  { apply (Z.mul_le_mono_pos_l _ _ (4 * (a + B))); [lia|]. assert (9000 * 9000 * (B * B) <= a * a) as HBa.
    { replace (9000 * 9000 * (B * B)) with (Z.abs (9000 * B) * Z.abs (9000 * B)) by (rewrite <- Z.abs_mul, Z.abs_eq by (pose proof (Z.square_nonneg (9000 * B)); lia); ring). apply Z.mul_le_mono_nonneg; lia. }
    assert (0 <= a * (a + 14000 * B)) as HaB2 by (apply Z.mul_nonneg_nonneg; lia).
    replace (a * (a + 14000 * B)) with (14000 * (a * (a + B)) - 13999 * (a * a)) in HaB2 by ring. replace (4 * (a + B) * (300000000 * (2 * (x * x) - a))) with (300000000 * (8 * (a + B) * (x * x) - 4 * a * (a + B))) by ring.
    set (aB := a * (a + B)) in *. set (aa := a * a) in *. set (xx := 8 * (a + B) * (x * x)) in *. replace (4 * (a + B) * a) with (4 * aB) by (unfold aB; ring). replace (4 * a * (a + B)) with (4 * aB) in * by (unfold aB; ring). clearbody aa aB xx. lia. }
  split; [|done]. split.
  - destruct (Z.le_gt_cases (2 ^ 30) x); [done|]. assert ((x + 1) * (x + 1) <= 2 ^ 30 * 2 ^ 30) by (apply Z.mul_le_mono_nonneg; lia). lia.
  - destruct (Z.lt_ge_cases x (2 ^ 32)); [done|]. assert (2 ^ 32 * 2 ^ 32 <= x * x) by (apply Z.mul_le_mono_nonneg; lia). lia.
Qed.

(** The root of [a / 2], in 64ths: the result is one too small, or right. *)
Lemma root32_last a x : 2 ^ 62 <= a < 2 ^ 64 -> near_root a x -> let q := (x - 32) / 64 in
  2 ^ 23 <= q < 2 ^ 26 /\ 2 ^ 13 * (q * q) < a < 2 ^ 13 * ((q + 2) * (q + 2)).
Proof.
  intros Ha (Hx & H1 & H2) q. pose proof (Z.div_mod (x - 32) 64 ltac:(lia)) as Eq. pose proof (Z.mod_pos_bound (x - 32) 64 ltac:(lia)) as Hr. fold q in Eq. clearbody q.
  split; [lia|]. assert (2 * ((x - 32) * (x - 32)) < a) as H3 by nia. split; nia.
Qed.

(** The first three approximations, in the code's words of 32 bits. *)
Lemma start_code a x0 d : 2 ^ 30 <= a < 2 ^ 32 -> x0 = u32 (Z.shiftr a 2 + Z.shiftr a 3 + Z.shiftl 5 28) ->
  Z.shiftr x0 15 = root_start a /\ Z.shiftr x0 16 = root_start a / 2 /\ (d = a / root_start a -> 0 <= d < 2 ^ 32).
Proof.
  intros Ha ->. rewrite !Z.shiftr_div_pow2 by lia. change (2 ^ 2) with 4. change (2 ^ 3) with 8. change (Z.shiftl 5 28) with (5 * 2 ^ 28).
  destruct (root_start_ok a Ha) as [Hp _]. unfold root_start in *. set (x := a / 4 + a / 8 + 5 * 2 ^ 28) in *.
  assert (0 <= x < 2 ^ 32) as Hx by (unfold x; pose proof (Z.div_mod a 4 ltac:(lia)); pose proof (Z.mod_pos_bound a 4 ltac:(lia)); pose proof (Z.div_mod a 8 ltac:(lia)); pose proof (Z.mod_pos_bound a 8 ltac:(lia)); lia).
  rewrite wrap_u_id by lia. split; [done|]. split; [rewrite Z.div_div by lia; done|]. intros ->. split; [apply Z.div_pos; lia|]. apply Z.div_lt_upper_bound; nia.
Qed.

Lemma step_code y : 0 <= y < 2 ^ 17 -> u32 (Z.shiftl y 15) = y * 2 ^ 15 /\ Z.shiftr (y * 2 ^ 15) 15 = y /\ Z.shiftr (y * 2 ^ 15) 16 = y / 2.
Proof.
  intros Hy. rewrite Z.shiftl_mul_pow2, !Z.shiftr_div_pow2, wrap_u_id by lia. split; [done|]. split; [by apply Z.div_mul|].
  change (2 ^ 16) with (2 ^ 15 * 2). rewrite <- Z.div_div by lia. by rewrite Z.div_mul.
Qed.

(** The bracket of a root and its sign. *)
Lemma root_bracket q n : 0 <= q -> q * q < n < (q + 2) * (q + 2) ->
  let r := if n <? (q + 1) * (q + 1) then q else q + 1 in
  r * r <= n < (r + 1) * (r + 1) /\ negb ((q + 1) * (q + 1) =? n) = negb (r * r =? n).
Proof.
  intros Hq Hn r. unfold r. destruct (Z.ltb_spec n ((q + 1) * (q + 1))).
  - split; [lia|]. rewrite (proj2 (Z.eqb_neq _ n)), (proj2 (Z.eqb_neq (q * q) n)) by lia. done.
  - replace (q + 1 + 1) with (q + 2) by lia. split; [lia|done].
Qed.

Lemma newton_sqrt32_ok a : 2 ^ 30 <= a < 2 ^ 32 ->
  exists q t, newton_sqrt32 a = Ok (q, t) /\ 2 ^ 24 <= q < 2 ^ 32 /\ q * q <= a * 2 ^ 19 < (q + 1) * (q + 1) /\ t = negb (q * q =? a * 2 ^ 19).
Proof.
  intros Ha. unfold newton_sqrt32. destruct (start_code a _ (a / root_start a) Ha eq_refl) as (Ex & Ex2 & Hd). rewrite Ex, Ex2. clear Ex Ex2.
  destruct (root_start_ok a Ha) as [P0 _]. destruct (root17_ok a Ha) as (P1 & P2 & _).
  pose proof (root32_ok (a * 2 ^ 32) ltac:(lia)) as Hr. unfold root32 in Hr. rewrite Z.div_mul in Hr by lia.
  rewrite udiv_ok by lia. cbn [mbind res_bind]. change (a / root_start a + root_start a / 2) with (root_step a (root_start a)). set (y1 := root_step a (root_start a)) in *.
  rewrite (wrap_u_id 32 y1) by lia. destruct (step_code y1 ltac:(lia)) as (-> & -> & ->). rewrite udiv_ok by lia. cbn [mbind res_bind].
  change (a / y1 + y1 / 2) with (root_step a y1). set (y2 := root_step a y1) in *. rewrite (wrap_u_id 32 y2) by lia. destruct (step_code y2 ltac:(lia)) as (-> & _ & _).
  set (w := y2 * 2 ^ 15) in *. rewrite (Z.shiftl_mul_pow2 a 32), (Z.shiftl_mul_pow2 a 19), (wrap_u_id 64 (a * 2 ^ 32)), (wrap_u_id 64 (a * 2 ^ 19)) by lia. rewrite udiv_ok by (unfold w; lia). cbn [mbind res_bind]. rewrite !(Z.shiftr_div_pow2 _ 2), !(Z.shiftr_div_pow2 _ 1), !(Z.shiftr_div_pow2 _ 6) by lia.
  change (2 ^ 2) with 4. change (2 ^ 1) with 2. set (x := a * 2 ^ 32 / w / 4 + w / 2) in *. destruct (root32_last (a * 2 ^ 32) x ltac:(lia) Hr) as [Hq Hn]. change (2 ^ 6) with 64.
  destruct Hr as [Hx _]. rewrite (wrap_u_id 32 x) by lia. rewrite (wrap_u_id 32 (x - 32)) by lia. set (q := (x - 32) / 64) in *. clearbody q. clear x w y2 y1 P0 P1 P2 Hd Hx.
  rewrite (wrap_u_id 32 (q + 1)) by lia. rewrite (wrap_u_id 64 ((q + 1) * (q + 1))) by nia.
  destruct (root_bracket q (a * 2 ^ 19) ltac:(lia) ltac:(lia)) as [Hb ->]. exists (if a * 2 ^ 19 <? (q + 1) * (q + 1) then q else q + 1). eexists. split; [|split; [|split; [exact Hb|done]]].
  - destruct (_ <? _); [|done]. rewrite wrap_u_id by lia. do 3 f_equal. lia.
  - set (r := if _ : bool then q else q + 1) in *. assert (q <= r <= q + 1) as Hqr by (unfold r; destruct (_ <? _); lia). split; [|lia]. clearbody r.
    destruct (Z.le_gt_cases (2 ^ 24) r); [done|]. assert ((r + 1) * (r + 1) <= 2 ^ 24 * 2 ^ 24) by (apply Z.mul_le_mono_nonneg; lia). lia.
Qed.

(** * The root of a number *)

Lemma pow2_double_Q k : (pow2 (2 * k) == pow2 k * pow2 k)%Q.
Proof. rewrite <- pow2_plus. by replace (k + k) with (2 * k) by lia. Qed.

Lemma square_lt (a b : Z) k : (a * a < b)%Z -> (inject_Z a * pow2 k * (inject_Z a * pow2 k) < inject_Z b * pow2 (2 * k))%Q.
Proof.
  intros H. rewrite pow2_double_Q. assert (inject_Z a * pow2 k * (inject_Z a * pow2 k) == inject_Z (a * a) * (pow2 k * pow2 k))%Q as -> by (rewrite inject_Z_mult; ring).
  pose proof (pow2_pos_Q k). apply Qmult_lt_r; [by apply Qmult_lt_0_compat|]. by rewrite <- Zlt_Qlt.
Qed.

Lemma part_ex q t : exists Y, part_of q t Y.
Proof.
  destruct t; [exists (inject_Z q + (1 # 2))%Q|by exists (inject_Z q)]. cbn. rewrite inject_Z_plus. change (inject_Z 1) with 1%Q. split; lra.
Qed.

(** A result that is the rounding of all that [q] and [t] stand for. *)
Lemma root_part F mode x flags res q n k t : 0 < q -> q * q <= n < (q + 1) * (q + 1) -> t = negb (q * q =? n) -> (x == inject_Z n * pow2 (2 * k))%Q ->
  (forall (v Y : Q), part_of q t Y -> (v == Y * pow2 k)%Q -> res = Ok (rounded F mode v flags)) -> exists r, res = Ok r /\ root_rounded F mode x flags r.
Proof.
  intros Hq Hn Et Ex Hr. destruct (part_ex q t) as [Y0 HY0]. pose proof (Hr _ Y0 HY0 (Qeq_refl _)) as E0. rewrite E0 in *. eexists. split; [done|].
  set (r := rounded F mode (Y0 * pow2 k) flags) in *. assert (forall (v Y : Q), part_of q t Y -> (v == Y * pow2 k)%Q -> r = rounded F mode v flags) as Hr' by (intros v Y H1 H2; pose proof (Hr v Y H1 H2) as Hv; by injection Hv).
  clearbody r. clear Hr Y0 HY0 E0. subst t. pose proof (pow2_pos_Q k) as Hk. assert (0 < inject_Z q)%Q as Hqp by (change 0%Q with (inject_Z 0); by rewrite <- Zlt_Qlt).
  destruct (Z.eqb_spec (q * q) n) as [<-|Hne]; cbn [negb] in Hr'.
  - left. exists (inject_Z q * pow2 k)%Q. split; [by apply Qmult_lt_0_compat|]. split; [rewrite Ex, pow2_double_Q, inject_Z_mult; ring|]. by apply (Hr' _ (inject_Z q)).
  - right. exists (inject_Z q * pow2 k)%Q, (inject_Z (q + 1) * pow2 k)%Q. split; [by apply Qmult_lt_0_compat|].
    split; [apply Qmult_lt_r; [done|]; rewrite <- Zlt_Qlt; lia|]. rewrite Ex. split; [apply square_lt; lia|]. split.
    + rewrite pow2_double_Q. assert (inject_Z (q + 1) * pow2 k * (inject_Z (q + 1) * pow2 k) == inject_Z ((q + 1) * (q + 1)) * (pow2 k * pow2 k))%Q as -> by (rewrite (inject_Z_mult (q + 1)); ring).
      apply Qmult_lt_r; [by apply Qmult_lt_0_compat|]. rewrite <- Zlt_Qlt. lia.
    + intros v H1 H2. apply (Hr' v (v * pow2 (- k))%Q).
      * assert (v == v * pow2 (- k) * pow2 k)%Q as Ev by (rewrite <- Qmult_assoc, (Qmult_comm (pow2 (- k))), pow2_inv; ring). rewrite Ev in H1, H2. split; by apply Qmult_lt_r in H1, H2.
      * rewrite <- Qmult_assoc, (Qmult_comm (pow2 (- k))), pow2_inv. ring.
Qed.

(** The exponent is made odd (binary32) or even (binary64): the significand has
    a bit to spare. *)
Lemma halve W p m e sh (c : bool) : 0 <= m < 2 ^ p -> 1 <= p < W - 1 -> normal W m sh ->
  let A := m * 2 ^ sh in let '(B, e') := if c then (Z.shiftr A 1, e - sh + 1) else (A, e - sh) in
  2 ^ (W - 2) <= B < 2 ^ W /\ e' = e - sh + Z.b2z c /\ B mod 2 ^ (W - p - 1) = 0 /\ B <= 2 ^ W - 2 ^ (W - p) /\ (inject_Z m * pow2 (e - 1) == inject_Z B * pow2 (e' - 1))%Q.
Proof.
  intros Hm Hp [Hsh Hn] A. fold A in Hn. assert (W - 1 < p + sh) as Hps by (apply (Z.pow_lt_mono_r_iff 2); [lia|lia|]; rewrite Z.pow_add_r by lia; unfold A in Hn; pose proof (pow2_pos sh ltac:(lia)); nia).
  assert (inject_Z m * pow2 (e - 1) == inject_Z A * pow2 (e - sh - 1))%Q as EA.
  { unfold A. rewrite inject_Z_mult, <- pow2_inject, <- Qmult_assoc, <- pow2_plus by lia. by replace (sh + (e - sh - 1)) with (e - 1) by lia. }
  pose proof (pow2_double (W - 1) ltac:(lia)) as E1. replace (W - 1 - 1) with (W - 2) in E1 by lia.
  assert (A = m * 2 ^ (sh - 1) * 2) as EA2 by (unfold A; rewrite <- Z.mul_assoc; f_equal; replace sh with (sh - 1 + 1) at 1 by lia; rewrite Z.pow_add_r by lia; done).
  assert (2 ^ W = 2 * 2 ^ (W - 1)) as E2 by (apply pow2_double; lia). pose proof (pow2_pos (W - p - 1) ltac:(lia)) as Hq.
  destruct c; cbn [Z.b2z].
  - rewrite Z.shiftr_div_pow2 by lia. change (2 ^ 1) with 2. rewrite EA2, Z.div_mul by lia. split; [lia|]. split; [done|]. split; [|split].
    + replace (sh - 1) with (sh - 1 - (W - p - 1) + (W - p - 1)) by lia. rewrite Z.pow_add_r, Z.mul_assoc by lia. apply Z.mod_mul. lia.
    + pose proof (Z.pow_le_mono_r 2 (W - p) (W - 1)). lia.
    + rewrite EA, EA2 at 1. rewrite (inject_Z_mult (m * 2 ^ (sh - 1)) 2). change (inject_Z 2) with (pow2 1). rewrite <- Qmult_assoc, <- pow2_plus. by replace (1 + (e - sh - 1)) with (e - sh + 1 - 1) by lia.
  - rewrite Z.add_0_r. split; [lia|]. split; [done|]. split; [|split; [|done]]; unfold A in *.
    + replace sh with (sh - (W - p - 1) + (W - p - 1)) by lia. rewrite Z.pow_add_r, Z.mul_assoc by lia. apply Z.mod_mul. lia.
    + assert (m * 2 ^ sh = m * 2 ^ (sh - (W - p)) * 2 ^ (W - p)) as EA3 by (rewrite <- Z.mul_assoc, <- Z.pow_add_r by lia; do 2 f_equal; lia).
      assert (2 ^ W = 2 ^ p * 2 ^ (W - p)) as EW by (rewrite <- Z.pow_add_r by lia; f_equal; lia). destruct Hn as [_ Hn]. rewrite EA3, EW in Hn |- *. pose proof (pow2_pos (W - p) ltac:(lia)) as Hpp.
      apply (Z.mul_lt_mono_pos_r (2 ^ (W - p))) in Hn; [|done]. assert ((m * 2 ^ (sh - (W - p)) + 1) * 2 ^ (W - p) <= 2 ^ p * 2 ^ (W - p)) by (apply Z.mul_le_mono_nonneg_r; lia). lia.
Qed.

Lemma sqrt32_correct a mode flags : finite F32 a -> exists r, fp32_sqrt a mode flags = Ok r /\ root F32 mode a (in_flags F32 mode a flags) r.
Proof.
  intros Ha. destruct (unpack_finite F32 F32_ok mode a flags Ha) as (s & e & m & fl & [U [S Hs] E [M _] V G]).
  unfold fp32_sqrt, fp32_unpack, root. rewrite U. unfold nan_parts. change (top_exp F32) with 255 in *. change (f_P F32 + 1) with 24 in *. rewrite (proj2 (Z.eqb_neq e 255)) by lia. cbn [andb].
  rewrite (operand_zero _ _ _ _ _ V), <- S, <- G. destruct (Z.eqb_spec m 0) as [|N].
  { eexists. split; [done|]. unfold fp32_zero. by rewrite (pack_zero F32 F32_ok) by lia. }
  destruct Hs as [-> | ->]; [|eexists; by split]. cbn [nz Z.eqb negb].
  destruct (fp32_normalise_ok m e ltac:(lia)) as (sh & -> & Hn). pose proof (halve 32 24 m e sh (Z.land (e - sh) 1 =? 0) M ltac:(lia) Hn) as Hh. cbv zeta in Hh.
  pose proof (land_1 (e - sh)) as Hl. unfold nz in Hl. destruct Hn as [Hsh _]. destruct (if Z.land (e - sh) 1 =? 0 then _ else _) as [B e']. destruct Hh as (HB & Ee & _ & _ & EB).
  assert (Z.odd e' = true) as Ho by (rewrite Ee, Z.odd_add, <- Hl; by destruct (_ =? 0)).
  destruct (newton_sqrt32_ok B HB) as (q & t & -> & Hq & Hb & Et). cbn [mbind res_bind]. rewrite Z.shiftr_div_pow2 by lia. change (2 ^ 1) with 2.
  set (k := (e' + 147) / 2 - 158). assert (2 * k = e' - 169) as Ek by (unfold k; apply Z.odd_spec in Ho as [i ->]; replace (2 * i + 1 + 147) with ((i + 74) * 2) by lia; rewrite Z.div_mul; lia).
  apply (root_part F32 mode _ fl _ q (B * 2 ^ 19) k t ltac:(lia) Hb Et).
  - rewrite V. unfold signed. cbn [nz Z.eqb negb]. rewrite EB, ulp_F32, inject_Z_mult, <- pow2_inject, <- !Qmult_assoc, <- !pow2_plus by lia. by replace (e' - 1 + - 149) with (19 + 2 * k) by lia.
  - intros v Y HY Ev. apply (finish_part F32 0 q t ((e' + 147) / 2) mode fl v Y (or_introl eq_refl) (or_introl eq_refl)); [cbn; lia|destruct (Z.land (e - sh) 1 =? 0); cbn in Ee; lia|done|].
    unfold signed. cbn [nz Z.eqb negb]. rewrite Ev, ulp_F32, <- Qmult_assoc, <- pow2_plus. change (f_W F32 - f_P F32) with 9. by replace ((e' + 147) / 2 - 9 + - 149) with k by (unfold k; lia).
Qed.

(** * The step to 64 bits *)

Definition recip32 (x : Z) : Z := 2 ^ 62 / x.
(** The reciprocal in 64 bits. *)
Definition recip64 (x : Z) : Z := (2 ^ 63 - x * recip32 x) * recip32 x / 2 ^ 30.
Definition root64 (a x : Z) : Z := x * 2 ^ 31 + (a / 2 ^ 10) * (recip64 x / 2 ^ 2) / 2 ^ 51 / 2.

Lemma recip64_ok x : 2 ^ 30 <= x < 2 ^ 32 -> let r := recip32 x in
  0 < r <= 2 ^ 32 /\ 0 <= 2 ^ 62 - x * r < x /\ 0 <= recip64 x /\ x * recip64 x <= 2 ^ 94 < x * recip64 x + x * 8.
Proof.
  intros Hx r. unfold recip64. fold r. pose proof (Z.div_mod (2 ^ 62) x ltac:(lia)) as Er. pose proof (Z.mod_pos_bound (2 ^ 62) x ltac:(lia)) as Hr. fold (recip32 x) in Er. fold r in Er.
  set (d := 2 ^ 62 mod x) in *. clearbody d. assert (0 < r <= 2 ^ 32) as Hrb by (clear - Er Hr Hx; clearbody r; nia). clearbody r. split; [done|]. split; [lia|].
  pose proof (Z.div_mod ((2 ^ 63 - x * r) * r) (2 ^ 30) ltac:(lia)) as ER. pose proof (Z.mod_pos_bound ((2 ^ 63 - x * r) * r) (2 ^ 30) ltac:(lia)) as HR.
  set (R := (2 ^ 63 - x * r) * r / 2 ^ 30) in *. set (f := ((2 ^ 63 - x * r) * r) mod 2 ^ 30) in *. clearbody R f.
  assert (2 ^ 30 * (x * R) = 2 ^ 124 - d * d - x * f) as E.
  { replace (2 ^ 30 * (x * R)) with (x * (2 ^ 30 * R)) by ring. replace (2 ^ 30 * R) with ((2 ^ 63 - x * r) * r - f) by lia. replace (x * ((2 ^ 63 - x * r) * r - f)) with ((2 ^ 63 - x * r) * (x * r) - x * f) by ring.
    replace (x * r) with (2 ^ 62 - d) by lia. ring. }
  assert (0 <= d * d <= x * x) as Hd by (split; [apply Z.square_nonneg|apply Z.mul_le_mono_nonneg; lia]). assert (x * x <= x * 2 ^ 32) as Hxx by (apply Z.mul_le_mono_nonneg_l; lia).
  assert (0 <= x * f <= x * 2 ^ 30) as Hxf by (split; [apply Z.mul_nonneg_nonneg; lia|apply Z.mul_le_mono_nonneg_l; lia]).
  split; [|lia]. assert (0 <= (2 ^ 63 - x * r) * r) by (apply Z.mul_nonneg_nonneg; lia). lia.
Qed.

(** [x * z] is the exact value of the step, less a few units. *)
Lemma root64_bounds a x : 2 ^ 62 <= a < 2 ^ 64 -> a mod 2 ^ 10 = 0 -> 2 ^ 30 <= x < 2 ^ 32 -> let z := root64 a x in
  0 <= (a / 2 ^ 10) * (recip64 x / 2 ^ 2) /\ x * z <= 2 ^ 30 * (2 * (x * x) + a) < x * (z + 20).
Proof.
  intros Ha Ha10 Hx z. destruct (recip64_ok x Hx) as (_ & _ & HR0 & HR). pose proof (Z.div_mod a (2 ^ 10) ltac:(lia)) as Ea. rewrite Ha10, Z.add_0_r in Ea. unfold z, root64.
  set (R := recip64 x) in *. clearbody R. clear z. set (a10 := a / 2 ^ 10) in *. clearbody a10.
  pose proof (Z.div_mod R (2 ^ 2) ltac:(lia)) as E4. pose proof (Z.mod_pos_bound R (2 ^ 2) ltac:(lia)) as H4. set (R4 := R / 2 ^ 2) in *. set (f4 := R mod 2 ^ 2) in *. clearbody R4 f4.
  assert (0 <= a10 * R4) as Hp by (apply Z.mul_nonneg_nonneg; lia). split; [done|]. rewrite Z.div_div by lia. change (2 ^ 51 * 2) with (2 ^ 52).
  pose proof (Z.div_mod (a10 * R4) (2 ^ 52) ltac:(lia)) as EU. pose proof (Z.mod_pos_bound (a10 * R4) (2 ^ 52) ltac:(lia)) as HU. set (U := a10 * R4 / 2 ^ 52) in *. set (g := (a10 * R4) mod 2 ^ 52) in *. clearbody U g.
  assert (2 ^ 64 * U = a * R - a * f4 - 2 ^ 12 * g) as E by (rewrite Ea; replace (2 ^ 64 * U) with (2 ^ 12 * (2 ^ 52 * U)) by ring; replace (2 ^ 52 * U) with (a10 * R4 - g) by lia; rewrite E4; ring).
  assert (2 ^ 64 * (x * U) = a * (x * R) - x * (a * f4 + 2 ^ 12 * g)) as Ex by (replace (2 ^ 64 * (x * U)) with (x * (2 ^ 64 * U)) by ring; rewrite E; ring).
  assert (0 <= a * f4 <= 2 ^ 64 * 3) as Haf by (split; [apply Z.mul_nonneg_nonneg; lia|apply Z.mul_le_mono_nonneg; lia]).
  assert (0 <= x * (a * f4 + 2 ^ 12 * g) <= x * (2 ^ 64 * 4)) as Hxf by (split; [apply Z.mul_nonneg_nonneg; lia|apply Z.mul_le_mono_nonneg_l; lia]).
  assert (a * (x * R) <= a * 2 ^ 94) as H1 by (apply Z.mul_le_mono_nonneg_l; lia). assert (a * 2 ^ 94 <= a * (x * R + x * 8)) as H2 by (apply Z.mul_le_mono_nonneg_l; lia).
  assert (a * (x * 8) <= 2 ^ 64 * (x * 8)) as H3 by (apply Z.mul_le_mono_nonneg_r; lia). replace (a * (x * R + x * 8)) with (a * (x * R) + a * (x * 8)) in H2 by ring.
  replace (x * (x * 2 ^ 31 + U)) with (2 ^ 31 * (x * x) + x * U) by ring. replace (x * (x * 2 ^ 31 + U + 20)) with (2 ^ 31 * (x * x) + x * U + 20 * x) by ring. 
  set (xx := x * x) in *. set (xU := x * U) in *. set (axR := a * (x * R)) in *. set (y := x * (a * f4 + 2 ^ 12 * g)) in *. set (ax8 := a * (x * 8)) in *. clearbody xx xU axR y ax8. lia.
Qed.

Lemma root64_ok a x : 2 ^ 62 <= a < 2 ^ 64 -> a mod 2 ^ 10 = 0 -> near_root a x -> let z := root64 a x in
  0 <= z /\ (z - 256) * (z - 256) < a * 2 ^ 63 < (z + 257) * (z + 257).
Proof.
  intros Ha Ha10 (Hx & Hlo & Hhi) z. destruct (root64_bounds a x Ha Ha10 Hx) as (Hp & Hz1 & Hz2). fold z in Hz1, Hz2.
  assert (2 ^ 61 <= z) as Hz0 by (unfold z, root64; pose proof (Z.div_pos _ (2 ^ 51) Hp ltac:(lia)) as H1; pose proof (Z.div_pos _ 2 H1 ltac:(lia)); lia). split; [lia|]. clearbody z. clear Hp Ha10.
  set (K := 2 ^ 30 * (2 * (x * x) + a)) in *. set (C := 2 * (x * x) - a) in *.
  assert (K * K = 2 ^ 63 * a * (x * x) + 2 ^ 60 * (C * C)) as EK by (unfold K, C; ring).
  assert (0 < x * x) as Hxx by lia. split.
  - apply (Z.mul_lt_mono_pos_l (x * x)); [done|].
    assert (x * (z - 256) * (x * (z - 256)) <= (K - 256 * x) * (K - 256 * x)) as H1 by (apply Z.mul_le_mono_nonneg; lia || (apply Z.mul_nonneg_nonneg; lia)).
    assert (C * C <= 500 * (x * x)) as HC.
    { destruct (Z.le_gt_cases 0 C) as [HC0|HC0].
      - assert (300000000 * C * (300000000 * C) <= a * a) as H2 by (apply Z.mul_le_mono_nonneg; lia). assert (a * a <= 2 ^ 64 * (2 * (x * x))) as H3 by (apply Z.mul_le_mono_nonneg; lia). lia.
      - assert (- C <= 6 * x) as H2 by lia. assert (- C * - C <= 6 * x * (6 * x)) as H3 by (apply Z.mul_le_mono_nonneg; lia). lia. }
    assert (2 ^ 30 * x <= x * x) as Hx2 by (apply Z.mul_le_mono_nonneg_r; lia). assert (2 ^ 61 * x * x <= K * x) as HKx by (apply Z.mul_le_mono_nonneg_r; lia).
    replace (x * (z - 256) * (x * (z - 256))) with (x * x * ((z - 256) * (z - 256))) in H1 by ring. replace ((K - 256 * x) * (K - 256 * x)) with (K * K - 512 * (K * x) + 65536 * (x * x)) in H1 by ring.
    rewrite EK in H1. replace (x * x * (a * 2 ^ 63)) with (2 ^ 63 * a * (x * x)) by ring. set (w := x * x * ((z - 256) * (z - 256))) in *. set (axx := 2 ^ 63 * a * (x * x)) in *. clearbody w axx K C. lia.
  - apply (Z.mul_lt_mono_pos_l (x * x)); [done|].
    assert (K * K < x * (z + 20) * (x * (z + 20))) as H1 by (apply Z.mul_lt_mono_nonneg; lia).
    assert (x * (z + 20) * (x * (z + 20)) <= x * (z + 257) * (x * (z + 257))) as H2 by (apply Z.mul_le_mono_nonneg; (apply Z.mul_nonneg_nonneg; lia) || (apply Z.mul_le_mono_nonneg_l; lia)).
    replace (x * (z + 257) * (x * (z + 257))) with (x * x * ((z + 257) * (z + 257))) in H2 by ring. pose proof (Z.square_nonneg C). replace (x * x * (a * 2 ^ 63)) with (2 ^ 63 * a * (x * x)) by ring. lia.
Qed.

Lemma root64_last a x : 2 ^ 62 <= a <= 2 ^ 64 - 2 ^ 11 -> a mod 2 ^ 10 = 0 -> near_root a x -> let q := (root64 a x - 256) / 512 in
  0 <= root64 a x - 256 /\ root64 a x < 2 ^ 64 /\ 2 ^ 52 <= q < 2 ^ 55 /\ q * q < a * 2 ^ 45 < (q + 2) * (q + 2) /\ (q + 1) * (q + 1) < 2 ^ 109.
Proof.
  intros Ha Ha10 Hx q. destruct (root64_ok a x ltac:(lia) Ha10 Hx) as (Hz0 & H1 & H2). set (z := root64 a x) in *. clearbody z.
  assert (256 <= z) as Hz by (destruct (Z.le_gt_cases 256 z); [done|]; assert ((z + 257) * (z + 257) <= 1024 * 1024) by (apply Z.mul_le_mono_nonneg; lia); lia).
  assert (z < 2 ^ 64) as Hz64 by (destruct (Z.lt_ge_cases z (2 ^ 64)); [done|]; assert ((2 ^ 64 - 256) * (2 ^ 64 - 256) <= (z - 256) * (z - 256)) by (apply Z.mul_le_mono_nonneg; lia); lia).
  pose proof (Z.div_mod (z - 256) 512 ltac:(lia)) as Eq. pose proof (Z.mod_pos_bound (z - 256) 512 ltac:(lia)) as Hr. fold q in Eq. clearbody q. split; [lia|]. split; [done|].
  assert (512 * q * (512 * q) <= (z - 256) * (z - 256)) as H3 by (apply Z.mul_le_mono_nonneg; lia). assert ((z + 257) * (z + 257) <= 512 * (q + 2) * (512 * (q + 2))) as H4 by (apply Z.mul_le_mono_nonneg; lia).
  assert (q * q < a * 2 ^ 45 < (q + 2) * (q + 2)) as Hq by lia.
  assert (q < 2 ^ 55) as Hq1 by (destruct (Z.lt_ge_cases q (2 ^ 55)); [done|]; assert (2 ^ 55 * 2 ^ 55 <= q * q) by (apply Z.mul_le_mono_nonneg; lia); lia).
  assert (2 ^ 52 <= q) as Hq0 by (destruct (Z.le_gt_cases (2 ^ 52) q); [done|]; assert ((q + 2) * (q + 2) <= 2 ^ 53 * 2 ^ 53) by (apply Z.mul_le_mono_nonneg; lia); lia).
  split; [lia|]. split; [done|]. lia.
Qed.

Lemma newton_sqrt64_ok a : 2 ^ 62 <= a <= 2 ^ 64 - 2 ^ 11 -> a mod 2 ^ 10 = 0 ->
  exists q c, newton_sqrt64 a = Ok (q, c) /\ 2 ^ 53 <= q < 2 ^ 64 /\ q * q <= a * 2 ^ 45 < (q + 1) * (q + 1) /\ nz c = negb (q * q =? a * 2 ^ 45).
Proof.
  intros Ha Ha10. pose proof (root32_ok a ltac:(lia)) as Hr. destruct (root64_last a (root32 a) Ha Ha10 Hr) as (Hz0 & Hz & Hq & Hn & Hov). unfold newton_sqrt64.
  replace (Z.shiftr a 34) with (Z.shiftr (Z.shiftr a 32) 2) by (by rewrite Z.shiftr_shiftr). replace (Z.shiftr a 35) with (Z.shiftr (Z.shiftr a 32) 3) by (by rewrite Z.shiftr_shiftr).
  unfold root32 in *. rewrite (Z.shiftr_div_pow2 a 32) in * by lia. set (h := a / 2 ^ 32) in *.
  assert (2 ^ 30 <= h < 2 ^ 32) as Hh by (unfold h; split; [apply Z.div_le_lower_bound; lia|apply Z.div_lt_upper_bound; lia]).
  destruct (start_code h _ (h / root_start h) Hh eq_refl) as (Ex & Ex2 & Hd). rewrite Ex, Ex2. clear Ex Ex2.
  destruct (root_start_ok h Hh) as [P0 _]. destruct (root17_ok h Hh) as (P1 & P2 & _).
  rewrite udiv_ok by lia. cbn [mbind res_bind]. change (h / root_start h + root_start h / 2) with (root_step h (root_start h)). set (y1 := root_step h (root_start h)) in *.
  destruct (step_code y1 ltac:(lia)) as (-> & -> & ->). rewrite udiv_ok by lia. cbn [mbind res_bind]. change (h / y1 + y1 / 2) with (root_step h y1). set (y2 := root_step h y1) in *.
  destruct (step_code y2 ltac:(lia)) as (-> & _ & _). set (w := y2 * 2 ^ 15) in *. rewrite udiv_ok by (unfold w; lia). cbn [mbind res_bind]. rewrite (Z.shiftr_div_pow2 _ 2), (Z.shiftr_div_pow2 _ 1) by lia.
  change (2 ^ 2) with 4. change (2 ^ 1) with 2. set (x := a / w / 4 + w / 2) in *. clearbody x. clear h Hh P0 P1 P2 Hd y1 y2 w.
  destruct Hr as (Hx & Hlo & Hhi). rewrite (wrap_u_id 32 x) by lia.
  assert (x < 2 ^ 32 - 2 ^ 20) as Hx2 by (destruct (Z.lt_ge_cases x (2 ^ 32 - 2 ^ 20)); [done|]; assert ((2 ^ 32 - 2 ^ 20) * (2 ^ 32 - 2 ^ 20) <= x * x) by (apply Z.mul_le_mono_nonneg; lia); lia).
  assert (2 ^ 30 < x) as Hx3 by (destruct (Z.lt_ge_cases (2 ^ 30) x); [done|]; assert ((x + 1) * (x + 1) <= (2 ^ 30 + 1) * (2 ^ 30 + 1)) by (apply Z.mul_le_mono_nonneg; lia); lia).
  destruct (recip64_ok x Hx) as (Hr1 & Hr2 & HR0 & HR1). rewrite udiv_ok by lia. cbn [mbind res_bind]. change (Z.shiftl 1 62 / x) with (recip32 x).
  unfold root64, recip64 in *. set (r := recip32 x) in *.
  assert (r < 2 ^ 32) as Hr3 by (apply Z.div_lt_upper_bound; lia). clearbody r.
  assert (u64 (- x) = 2 ^ 64 - x) as -> by (symmetry; apply (Z.mod_unique_pos _ _ (-1)); lia).
  assert (u64 ((2 ^ 64 - x) * r) = 2 ^ 64 - x * r) as -> by (symmetry; apply (Z.mod_unique_pos _ _ (r - 1)); [lia|ring]).
  rewrite !(Z.shiftl_mul_pow2 _ 1) by lia. change (2 ^ 1) with 2. assert (u64 ((2 ^ 64 - x * r) * 2) = (2 ^ 63 - x * r) * 2) as -> by (symmetry; apply (Z.mod_unique_pos _ _ 1); lia).
  rewrite (wrap_u_id 32 r) by lia. rewrite mul64x32_split by lia. unfold split128 at 1. rewrite lsr128_split by nia. rewrite Z.shiftr_div_pow2 by lia.
  assert ((2 ^ 63 - x * r) * 2 * r / 2 ^ 31 = (2 ^ 63 - x * r) * r / 2 ^ 30) as ->.
  { change (2 ^ 31) with (2 * 2 ^ 30). replace ((2 ^ 63 - x * r) * 2 * r) with (2 * ((2 ^ 63 - x * r) * r)) by ring. apply Z.div_mul_cancel_l; lia. }
  set (R := (2 ^ 63 - x * r) * r / 2 ^ 30) in *. clearbody R. assert (R < 2 ^ 64) as HR by (clear - HR1 Hx3 HR0; nia). rewrite split_small by lia.
  rewrite (Z.shiftr_div_pow2 a 10), (Z.shiftr_div_pow2 R 2) by lia. pose proof (Z.div_mod a (2 ^ 10) ltac:(lia)) as Ea. rewrite Ha10, Z.add_0_r in Ea. set (a10 := a / 2 ^ 10) in *.
  assert (0 <= R / 2 ^ 2 < 2 ^ 62) as HR4 by (split; [apply Z.div_pos; lia|apply Z.div_lt_upper_bound; lia]). rewrite mul62x62_split by lia.
  assert (a10 * (R / 2 ^ 2) * 2 ^ 12 < 2 ^ 127) as HP.
  { assert (4 * (R / 2 ^ 2) <= R) as H4 by (apply Z.mul_div_le; lia). assert (a10 * (R / 2 ^ 2) * 2 ^ 12 <= a * R) as H5 by (rewrite Ea; clear - H4 HR4 Ea Ha; nia).
    assert (a <= 2 ^ 33 * x) as H6 by (assert (x * (x + 2) <= x * 2 ^ 32) by (apply Z.mul_le_mono_nonneg_l; lia); lia).
    assert (a * (x * R) <= a * 2 ^ 94) as H7 by (apply Z.mul_le_mono_nonneg_l; lia). apply (Z.mul_lt_mono_pos_l x); [lia|].
    assert (x * (a10 * (R / 2 ^ 2) * 2 ^ 12) <= x * (a * R)) as H8 by (apply Z.mul_le_mono_nonneg_l; lia). assert (a < 2 ^ 33 * x \/ a = 2 ^ 33 * x) as [H9|H9] by lia; [lia|].
    assert (x * (x + 3) <= x * 2 ^ 32) by (apply Z.mul_le_mono_nonneg_l; lia). lia. }
  set (P := a10 * (R / 2 ^ 2)) in *. assert (0 <= P) as HP0 by (apply Z.mul_nonneg_nonneg; lia). clearbody P. unfold split128 at 1. rewrite lsl128_split by lia.
  rewrite Z.shiftl_mul_pow2, (wrap_u_id 128) by lia. unfold split128 at 1. rewrite lsr128_split by lia. rewrite Z.shiftr_div_pow2 by lia.
  assert (P * 2 ^ 5 / 2 ^ 56 = P / 2 ^ 51) as -> by (change (2 ^ 56) with (2 ^ 51 * 2 ^ 5); apply Z.div_mul_cancel_r; lia).
  assert (0 <= P / 2 ^ 51 < 2 ^ 64) as HU by (split; [apply Z.div_pos; lia|apply Z.div_lt_upper_bound; lia]). rewrite split_small by lia. set (U := P / 2 ^ 51) in *. clearbody U.
  rewrite (Z.shiftl_mul_pow2 x), (Z.shiftr_div_pow2 U), (Z.shiftr_div_pow2 _ 9) by lia. change (2 ^ 1) with 2. change (2 ^ 9) with 512. rewrite (wrap_u_id 64 (x * 2 ^ 31)) by lia.
  set (z := x * 2 ^ 31 + U / 2) in *. rewrite (wrap_u_id 64 z) by (unfold z in *; lia). rewrite (wrap_u_id 64 (z - 256)) by lia. set (q := (z - 256) / 512) in *. clearbody q. rewrite (wrap_u_id 64 (q + 1)) by lia.
  rewrite mul62x62_split by lia. unfold split128 at 1. rewrite lsl128_split by lia. rewrite Z.shiftl_mul_pow2, (wrap_u_id 128) by lia. unfold split128 at 1.
  pose proof (cmp128_split ((q + 1) * (q + 1) * 2 ^ 19) (a * 2 ^ 64) ltac:(lia) ltac:(lia)) as Ec. rewrite (Z.mod_mul a), (Z.div_mul a) in Ec by lia. rewrite Ec. clear Ec.
  destruct (root_bracket q (a * 2 ^ 45) ltac:(lia) ltac:(lia)) as [Hb Et].
  exists (if a * 2 ^ 45 <? (q + 1) * (q + 1) then q else q + 1), (if (q + 1) * (q + 1) * 2 ^ 19 <? a * 2 ^ 64 then -1 else if a * 2 ^ 64 <? (q + 1) * (q + 1) * 2 ^ 19 then 1 else 0).
  rewrite <- Et. clear Et. split; [|split; [|split; [exact Hb|]]].
  - f_equal. f_equal. destruct (Z.ltb_spec ((q + 1) * (q + 1) * 2 ^ 19) (a * 2 ^ 64)), (Z.ltb_spec (a * 2 ^ 64) ((q + 1) * (q + 1) * 2 ^ 19)), (Z.ltb_spec (a * 2 ^ 45) ((q + 1) * (q + 1)));
      try lia; cbn match; (change (0 <? -1) with false || change (0 <? 1) with true || change (0 <? 0) with false); cbn match; try lia; rewrite wrap_u_id by lia; lia.
  - set (s := if _ : bool then q else q + 1) in *. assert (q <= s <= q + 1) as Hqs by (unfold s; destruct (_ <? _); lia). split; [|lia]. clearbody s.
    destruct (Z.le_gt_cases (2 ^ 53) s); [done|]. assert ((s + 1) * (s + 1) <= 2 ^ 53 * 2 ^ 53) by (apply Z.mul_le_mono_nonneg; lia). lia.
  - destruct (Z.ltb_spec ((q + 1) * (q + 1) * 2 ^ 19) (a * 2 ^ 64)), (Z.ltb_spec (a * 2 ^ 64) ((q + 1) * (q + 1) * 2 ^ 19)), (Z.eqb_spec ((q + 1) * (q + 1)) (a * 2 ^ 45)); try lia; done.
Qed.

Lemma sqrt64_correct a mode flags : finite F64 a -> exists r, fp64_sqrt a mode flags = Ok r /\ root F64 mode a (in_flags F64 mode a flags) r.
Proof.
  intros Ha. destruct (unpack_finite F64 F64_ok mode a flags Ha) as (s & e & m & fl & [U [S Hs] E [M _] V G]).
  unfold fp64_sqrt, fp64_unpack, root. rewrite U. unfold nan_parts. change (top_exp F64) with 2047 in *. change (f_P F64 + 1) with 53 in *. rewrite (proj2 (Z.eqb_neq e 2047)) by lia. cbn [andb].
  rewrite (operand_zero _ _ _ _ _ V), <- S, <- G. destruct (Z.eqb_spec m 0) as [|N].
  { eexists. split; [done|]. unfold fp64_zero. by rewrite (pack_zero F64 F64_ok) by lia. }
  destruct Hs as [-> | ->]; [|eexists; by split]. cbn [nz Z.eqb negb].
  destruct (fp64_normalise_ok m e ltac:(lia)) as (sh & -> & Hn). rewrite land_1. pose proof (halve 64 53 m e sh (Z.odd (e - sh)) M ltac:(lia) Hn) as Hh. cbv zeta in Hh.
  destruct Hn as [Hsh _]. destruct (if Z.odd (e - sh) then _ else _) as [B e']. destruct Hh as (HB & Ee & HB10 & HBmax & EB).
  assert (Z.even e' = true) as Ho by (rewrite Ee, Z.even_add, <- Z.negb_odd; by destruct (Z.odd _)).
  destruct (newton_sqrt64_ok B ltac:(lia) HB10) as (q & c & -> & Hq & Hb & Et). cbn [mbind res_bind]. rewrite Z.shiftr_div_pow2 by lia. change (2 ^ 1) with 2.
  set (k := (e' + 1053) / 2 - 1086). assert (2 * k = e' - 1120) as Ek by (unfold k; apply Z.even_spec in Ho as [i ->]; replace (2 * i + 1053) with (1 + (i + 526) * 2) by lia; rewrite Z.div_add by lia; change (1 / 2) with 0; lia).
  apply (root_part F64 mode _ fl _ q (B * 2 ^ 45) k (nz c) ltac:(lia) Hb Et).
  - rewrite V. unfold signed. cbn [nz Z.eqb negb]. rewrite EB, ulp_F64, inject_Z_mult, <- pow2_inject, <- !Qmult_assoc, <- !pow2_plus by lia. by replace (e' - 1 + - 1074) with (45 + 2 * k) by lia.
  - intros v Y HY Ev. apply (finish_part F64 0 q (nz c) ((e' + 1053) / 2) mode fl v Y (or_intror eq_refl) (or_introl eq_refl)); [cbn; lia|destruct (Z.odd (e - sh)); cbn in Ee; lia|done|].
    unfold signed. cbn [nz Z.eqb negb]. rewrite Ev, ulp_F64, <- Qmult_assoc, <- pow2_plus. change (f_W F64 - f_P F64) with 12. by replace ((e' + 1053) / 2 - 12 + - 1074) with k by (unfold k; lia).
Qed.
