(* ===== verification/FpNearest.v ===== *)
(** Rounding to nearest is what its name says: no number of the format is closer
    to the exact result. *)
From Stdlib Require Import QArith Qpower Qround Qabs Lqa.
From S2P Require Import Prelude Fplib FpSpec FpRound FpArith.
#[local] Open Scope Z_scope.

(** An integer is rounded to itself. *)
Lemma round_int_whole rm neg (y : Q) : (y == inject_Z (Qfloor y))%Q -> round_int rm neg y = Qfloor y.
Proof.
  intros Ee. unfold round_int. set (q := Qfloor y) in *. assert (y - inject_Z q == 0)%Q as E0 by (rewrite Ee; ring).
  rewrite (Qeq_bool_true (y - inject_Z q) 0 E0), (proj2 (Qle_bool_iff (y - inject_Z q) (1 # 2))) by (rewrite E0; done).
  assert (Qeq_bool (y - inject_Z q) (1 # 2) = false) as -> by (apply Qeq_bool_false; left; rewrite E0; done). assert (Qle_bool (1 # 2) (y - inject_Z q) = false) as -> by (apply Qle_bool_false; rewrite E0; done).
  rewrite !andb_false_r. cbn [negb orb andb]. repeat (destruct (rm =? _)); cbn; lia.
Qed.

Section Nearest.
Context (F : Format) (HF : fmt_ok F).
Local Abbreviation P := (f_P F).

(** * The numbers of a format in order *)

(** The number [q] in a binade of spacing [2 ^ s]. *)
Lemma mag_value_binade q s : 0 <= s -> 0 <= q <= 2 ^ (P + 1) -> s = 0 \/ 2 ^ P <= q -> mag_value F (q + s * 2 ^ P) = q * 2 ^ s.
Proof.
  intros Hs Hq Hb. pose proof HF as [HP _ _ _ _]. pose proof (pow2_pos P ltac:(lia)) as HpP. rewrite Z.pow_add_r in Hq by lia. change (2 ^ 1) with 2 in Hq. unfold mag_value.
  destruct (Z.ltb_spec (q + s * 2 ^ P) (2 ^ P)) as [Hlt|Hge].
  - assert (s = 0) as -> by nia. rewrite Z.mul_0_l, Z.add_0_r, Z.pow_0_r. lia.
  - destruct (Z.eq_dec q (2 * 2 ^ P)) as [->|Hne].
    + replace (2 * 2 ^ P + s * 2 ^ P) with ((2 + s) * 2 ^ P) by ring. rewrite Z.mod_mul, Z.div_mul by lia. replace (2 + s - 1) with (1 + s) by lia. rewrite Z.pow_add_r by lia. change (2 ^ 1) with 2. ring.
    + assert (2 ^ P <= q) as Hq2 by (destruct Hb as [->|]; lia). replace (q + s * 2 ^ P) with (q - 2 ^ P + (1 + s) * 2 ^ P) by ring. rewrite Z.mod_add, Z.div_add by lia.
      rewrite Z.mod_small, Z.div_small by lia. replace (0 + (1 + s) - 1) with s by lia. ring.
Qed.

Lemma mag_value_succ m : 0 <= m -> mag_value F m < mag_value F (m + 1).
Proof.
  intros Hm. pose proof HF as [HP _ _ _ _]. pose proof (pow2_pos P ltac:(lia)) as HpP. set (s := Z.max 0 (m / 2 ^ P - 1)).
  pose proof (Z.div_mod m (2 ^ P) ltac:(lia)) as Ed. pose proof (Z.mod_pos_bound m (2 ^ P) HpP). pose proof (Z.div_pos m (2 ^ P) Hm HpP).
  assert (2 ^ (P + 1) = 2 * 2 ^ P) as E2 by (rewrite Z.pow_add_r by lia; lia).
  assert (0 <= m - s * 2 ^ P < 2 * 2 ^ P /\ (s = 0 \/ 2 ^ P <= m - s * 2 ^ P)) as [Hq Hb] by (unfold s; destruct (Z.max_spec 0 (m / 2 ^ P - 1)) as [[? ->]|[? ->]]; nia).
  replace m with (m - s * 2 ^ P + s * 2 ^ P) at 1 by ring. replace (m + 1) with (m - s * 2 ^ P + 1 + s * 2 ^ P) by ring.
  rewrite !mag_value_binade by lia. pose proof (pow2_pos s ltac:(lia)). lia.
Qed.

Lemma mag_value_mono m m' : 0 <= m -> m <= m' -> mag_value F m <= mag_value F m'.
Proof.
  intros Hm Hle. replace m' with (m + (m' - m)) by lia. assert (0 <= m' - m) as Hd by lia. revert Hd. generalize (m' - m). clear Hle m'.
  apply natlike_ind; [by rewrite Z.add_0_r|]. intros d Hd IH. pose proof (mag_value_succ (m + d) ltac:(lia)). replace (m + Z.succ d) with (m + d + 1) by lia. lia.
Qed.

(** * Where rounding ends up *)

(** The numbers of the format are rounded to themselves. *)
Lemma spec_mag_value rm neg m (x : Q) : 0 < m -> (x == inject_Z (mag_value F m))%Q -> spec_mag F rm neg x = m /\ exact F x = true.
Proof.
  intros Hm Ex. pose proof HF as [HP _ _ _ _]. pose proof (pow2_pos P ltac:(lia)) as HpP. set (s := Z.max 0 (m / 2 ^ P - 1)).
  pose proof (Z.div_mod m (2 ^ P) ltac:(lia)) as Ed. pose proof (Z.mod_pos_bound m (2 ^ P) HpP). pose proof (Z.div_pos m (2 ^ P) ltac:(lia) HpP).
  assert (2 ^ (P + 1) = 2 * 2 ^ P) as E2 by (rewrite Z.pow_add_r by lia; lia). set (q := m - s * 2 ^ P).
  assert (0 < q < 2 * 2 ^ P /\ (s = 0 \/ 2 ^ P <= q)) as [Hq Hb] by (unfold q, s; destruct (Z.max_spec 0 (m / 2 ^ P - 1)) as [[? ->]|[? ->]]; nia).
  assert (m = q + s * 2 ^ P) as Em by (unfold q; ring). assert (0 <= s) as Hs by (unfold s; lia). clearbody q s.
  assert (mag_value F m = q * 2 ^ s) as Ev by (rewrite Em, mag_value_binade by lia; done). rewrite Ev in Ex. pose proof (pow2_pos s Hs).
  assert (spec_shift F x = s) as Ess.
  { unfold spec_shift. rewrite (Qfloor_comp _ _ Ex), Qfloor_Z, Z.log2_mul_pow2 by lia. destruct (Z.eq_dec s 0) as [->|].
    - assert (Z.log2 q < P + 1) by (apply Z.log2_lt_pow2; lia). lia.
    - rewrite (Z.log2_unique q P) by (change (Z.succ P) with (P + 1); lia). lia. }
  assert (x * pow2 (- s) == inject_Z q)%Q as Ey by (rewrite Ex, inject_Z_mult, <- pow2_inject, <- Qmult_assoc, pow2_inv by lia; ring).
  assert (Qfloor (x * pow2 (- s)) = q) as Ef by (by rewrite (Qfloor_comp _ _ Ey), Qfloor_Z). unfold spec_mag, exact, is_integer. rewrite Ess, Ef. split.
  - rewrite round_int_whole by (by rewrite Ef). lia.
  - by apply Qeq_bool_true.
Qed.

(** The number below [x] (in units of [ulp]), and the fraction left of [x]. *)
Lemma spec_binade (x : Q) : (0 < x)%Q -> let s := spec_shift F x in let q := Qfloor (x * pow2 (- s)) in
  0 <= s /\ 0 <= q < 2 ^ (P + 1) /\ (s = 0 \/ 2 ^ P <= q).
Proof.
  intros Hx s q. pose proof HF as [HP _ _ _ _]. pose proof (pow2_pos P ltac:(lia)) as HpP. split; [unfold s, spec_shift; lia|].
  assert (0 <= Qfloor x) as Hfl by (rewrite <- (Qfloor_Z 0); apply Qfloor_resp_le; apply Qlt_le_weak, Hx).
  assert (q = Qfloor x / 2 ^ s) as Eq.
  { unfold q. set (n := Qfloor x) in *. assert (0 <= s) as Hs by (unfold s, spec_shift; lia). pose proof (pow2_pos s Hs) as Hps.
    pose proof (Z.div_mod n (2 ^ s) ltac:(lia)) as Ed. pose proof (Z.mod_pos_bound n (2 ^ s) Hps) as Hr. pose proof (pow2_pos_Q (- s)) as Hp. pose proof (pow2_pos_Q s) as Hp2.
    pose proof (Qfloor_le x) as F1. pose proof (Qlt_floor x) as F2. fold n in F1, F2. pose proof (pow2_inv s) as Hi.
    assert (forall z : Z, (inject_Z z == inject_Z (z * 2 ^ s) * pow2 (- s))%Q) as Ez by (intros z; rewrite inject_Z_mult, <- pow2_inject, <- Qmult_assoc, Hi by done; ring).
    apply Qfloor_between.
    - rewrite Ez. apply Qmult_le_r; [done|]. eapply Qle_trans; [|exact F1]. rewrite <- Zle_Qle. lia.
    - rewrite Ez. apply Qmult_lt_r; [done|]. eapply Qlt_le_trans; [exact F2|]. rewrite <- Zle_Qle. lia. }
  rewrite Eq. unfold s, spec_shift in *. set (n := Qfloor x) in *. destruct (Z.le_gt_cases n 0) as [Hn|Hn].
  { assert (n = 0) as -> by lia. change (Z.log2 0) with 0. rewrite Z.max_l by lia. rewrite Z.pow_0_r, Z.div_1_r. split; [|by left]. pose proof (pow2_pos (P + 1)). lia. }
  pose proof (Z.log2_spec n Hn) as [L1 L2]. destruct (Z.le_gt_cases (Z.log2 n) P) as [Hl|Hl].
  - rewrite Z.max_l by lia. rewrite Z.pow_0_r, Z.div_1_r. split; [|by left]. pose proof (Z.pow_le_mono_r 2 (Z.succ (Z.log2 n)) (P + 1)). lia.
  - rewrite Z.max_r by lia. pose proof (pow2_pos (Z.log2 n - P) ltac:(lia)). split; [split; [apply Z.div_pos; lia|]|right].
    + apply Z.div_lt_upper_bound; [done|]. rewrite <- Z.pow_add_r by lia. replace (Z.log2 n - P + (P + 1)) with (Z.succ (Z.log2 n)) by lia. done.
    + apply Z.div_le_lower_bound; [done|]. rewrite <- Z.pow_add_r by lia. by replace (Z.log2 n - P + P) with (Z.log2 n) by lia.
Qed.

Lemma round_int_range rm neg y : Qfloor y <= round_int rm neg y <= Qfloor y + 1.
Proof. unfold round_int. match goal with |- context [Z.b2z ?b] => destruct b end; cbn [Z.b2z]; lia. Qed.

Lemma round_int_near neg (y : Q) : let q := Qfloor y in exists up : bool, round_int FPRounding_TIEEVEN neg y = q + Z.b2z up /\
  (if up then (1 # 2) <= y - inject_Z q else y - inject_Z q <= 1 # 2)%Q.
Proof.
  intros q. unfold round_int. change (FPRounding_TIEEVEN =? FPRounding_TIEEVEN) with true. cbn match. fold q. set (r := (y - inject_Z q)%Q).
  exists (negb (Qle_bool r (1 # 2)) || Qeq_bool r (1 # 2) && Z.odd q). split; [done|].
  destruct (Qle_bool r (1 # 2)) eqn:E1; cbn [negb orb].
  - apply Qle_bool_iff in E1. destruct (Qeq_bool r (1 # 2)) eqn:E2; cbn [andb]; [|done]. apply Qeq_bool_iff in E2. destruct (Z.odd q); rewrite E2; apply Qle_refl.
  - apply not_true_iff_false in E1. rewrite Qle_bool_iff in E1. apply Qnot_le_lt in E1. by apply Qlt_le_weak.
Qed.

(** No number is closer to [x] than what [x] is rounded to. *)
Lemma spec_mag_nearest neg (x : Q) m' : (0 < x)%Q -> 0 <= m' ->
  (Qabs (x - inject_Z (mag_value F (spec_mag F FPRounding_TIEEVEN neg x))) <= Qabs (x - inject_Z (mag_value F m')))%Q.
Proof.
  intros Hx Hm'. destruct (spec_binade x Hx) as (Hs & Hq & Hb). unfold spec_mag. set (s := spec_shift F x) in *. set (y := (x * pow2 (- s))%Q) in *.
  destruct (round_int_near neg y) as (up & -> & Hup). set (q := Qfloor y) in *. pose proof (pow2_pos_Q s) as Hp.
  assert (x == y * pow2 s)%Q as Ex by (unfold y; rewrite <- Qmult_assoc, (Qmult_comm (pow2 (- s))), pow2_inv; ring).
  pose proof (Qfloor_le y) as F1. pose proof (Qlt_floor y) as F2. fold q in F1, F2. rewrite inject_Z_plus in F2. change (inject_Z 1) with 1%Q in F2.
  assert (forall z, 0 <= z <= 2 ^ (P + 1) -> s = 0 \/ 2 ^ P <= z -> (inject_Z (mag_value F (z + s * 2 ^ P)) == inject_Z z * pow2 s)%Q) as Em.
  { intros z Hz Hzb. rewrite mag_value_binade by done. rewrite inject_Z_mult, <- pow2_inject by done. reflexivity. }
  assert (inject_Z (q + Z.b2z up) == inject_Z q + (if up then 1 else 0))%Q as Eup by (rewrite inject_Z_plus; by destruct up).
  rewrite Em by (destruct up; cbn [Z.b2z]; lia). rewrite Eup. clear Eup.
  assert (Qabs (x - (inject_Z q + (if up then 1 else 0)) * pow2 s) == (if up then 1 - (y - inject_Z q) else y - inject_Z q) * pow2 s)%Q as ->.
  { rewrite Ex. destruct up.
    - rewrite Qabs_neg by nra. ring.
    - rewrite Qabs_pos by nra. ring. }
  destruct (Z.le_gt_cases m' (q + s * 2 ^ P)) as [Hle|Hgt].
  - pose proof (mag_value_mono _ _ Hm' Hle) as Hmv. assert (inject_Z (mag_value F m') <= inject_Z q * pow2 s)%Q as H1 by (rewrite <- Em by lia; by rewrite <- Zle_Qle).
    rewrite Qabs_pos by nra. destruct up; nra.
  - pose proof HF as [HP _ _ _ _]. pose proof (pow2_pos P ltac:(lia)). pose proof (mag_value_mono (q + 1 + s * 2 ^ P) m' ltac:(nia) ltac:(lia)) as Hmv.
    assert (inject_Z (q + 1) * pow2 s <= inject_Z (mag_value F m'))%Q as H1 by (rewrite <- Em by lia; by rewrite <- Zle_Qle).
    rewrite inject_Z_plus in H1. change (inject_Z 1) with 1%Q in H1. rewrite Qabs_neg by nra. destruct up; nra.
Qed.
End Nearest.

(** * Bit patterns *)

Section Patterns.
Context (F : Format) (HF : fmt_ok F) (Hh : f_half F = false).
Local Abbreviation P := (f_P F).
Local Abbreviation W := (f_W F).

Lemma with_sign_fields s m : s = 0 \/ s = 1 -> 0 <= m < 2 ^ (W - 1) -> sign_of F (with_sign F s m) = s /\ mag_of F (with_sign F s m) = m.
Proof.
  intros Hs Hm. unfold sign_of, mag_of, with_sign. split.
  - rewrite Z.div_add_l, Z.div_small by lia. lia.
  - rewrite Z.add_comm, Z.mod_add by lia. by apply Z.mod_small.
Qed.

Lemma val_with_sign s m : s = 0 \/ s = 1 -> 0 <= m < 2 ^ (W - 1) -> val F (with_sign F s m) = signed s (inject_Z (mag_value F m) * ulp F).
Proof. intros Hs Hm. destruct (with_sign_fields s m Hs Hm) as [E1 E2]. unfold val. by rewrite E1, E2. Qed.

Lemma inf_mag_bound : 0 <= inf_mag F /\ inf_mag F + 2 ^ P = 2 ^ (W - 1).
Proof. destruct (W_split F HF) as (E1 & H1 & _), (top_exp_bounds F HF) as [T1 T2]. unfold inf_mag. split; [lia|]. rewrite E1, <- T2. ring. Qed.

(** The numbers with a given magnitude, and with a given significand. *)
Lemma with_sign_number s n : s = 0 \/ s = 1 -> 0 <= n < inf_mag F ->
  finite F (with_sign F s n) /\ (val F (with_sign F s n) == signed s (inject_Z (mag_value F n) * ulp F))%Q /\ sign_of F (with_sign F s n) = s.
Proof.
  intros Hs Hn. destruct inf_mag_bound as [B0 B]. destruct (W_split F HF) as (_ & HP & HW2). assert (0 <= n < 2 ^ (W - 1)) as Hn2 by lia. destruct (with_sign_fields s n Hs Hn2) as [F1 F2]. rewrite val_with_sign by done.
  split; [split; [|lia]|by split]. unfold pattern, with_sign. destruct Hs as [-> | ->]; lia.
Qed.

Lemma pack_number s E M : s = 0 \/ s = 1 -> 1 <= E < top_exp F -> 2 ^ P <= M < 2 ^ (P + 1) ->
  finite F (pack F s E M) /\ (val F (pack F s E M) == signed s (inject_Z M * pow2 (E - 1) * ulp F))%Q /\ sign_of F (pack F s E M) = s.
Proof.
  intros Hs HE HM. pose proof HF as [HP10 _ _ _ _]. pose proof (pow2_pos P ltac:(lia)) as HP. pose proof HM as HM2. rewrite Z.pow_add_r in HM2 by lia. change (2 ^ 1) with 2 in HM2.
  set (n := M + (E - 1) * 2 ^ P). assert (0 <= n < inf_mag F) as Hn.
  { unfold n, inf_mag. pose proof (Z.mul_le_mono_nonneg_r (E + 1) (top_exp F) (2 ^ P) ltac:(lia) ltac:(lia)). pose proof (Z.mul_nonneg_nonneg (E - 1) (2 ^ P) ltac:(lia) ltac:(lia)). lia. }
  assert (pack F s E M = with_sign F s n) as ->.
  { rewrite (pack_sum F HF) by (destruct Hs; lia). assert (M mod 2 ^ P = M - 2 ^ P) as -> by (symmetry; apply (Z.mod_unique_pos _ _ 1); lia). unfold with_sign, n. ring. }
  destruct (with_sign_number s n Hs Hn) as (H1 & H2 & H3). split; [done|]. split; [|done]. rewrite H2. apply signed_proper. unfold n. rewrite (mag_value_binade F HF M (E - 1)) by lia. rewrite inject_Z_mult, <- pow2_inject by lia. reflexivity.
Qed.

(** The magnitude and the sign of a number that is not zero. *)
Lemma magnitude (v : Q) : Qeq_bool v 0 = false -> let s := Z.b2z (negb (Qle_bool 0 v)) in let x := (Qabs v / ulp F)%Q in
  (s = 0 \/ s = 1) /\ (0 < x)%Q /\ (v == signed s (x * ulp F))%Q.
Proof.
  intros Hv s x. pose proof (ulp_pos F) as Hu. assert (~ v == 0)%Q as Hne by (intros H; by rewrite Qeq_bool_true in Hv).
  assert (Qabs v == x * ulp F)%Q as Ex by (unfold x; field; lra). unfold s. destruct (Qle_bool 0 v) eqn:E; cbn [negb Z.b2z].
  - apply Qle_bool_iff in E. split; [by left|]. rewrite Qabs_pos in Ex by done. unfold signed. cbn [nz Z.eqb negb]. split; [|done].
    unfold x. rewrite Qabs_pos by done. apply Qlt_shift_div_l; [done|]. rewrite Qmult_0_l. destruct (Qle_lt_or_eq _ _ E) as [|E0]; [done|]. by rewrite <- E0 in Hne.
  - apply not_true_iff_false in E. rewrite Qle_bool_iff in E. apply Qnot_le_lt in E. split; [by right|]. rewrite Qabs_neg in Ex by lra. unfold signed. cbn [nz Z.eqb negb]. split; [|rewrite <- Ex; ring].
    unfold x. rewrite Qabs_neg by lra. apply Qlt_shift_div_l; [done|]. lra.
Qed.

(** What a rounding without flush-to-zero and without overflow returns. *)
Lemma rounded_finite mode (v : Q) flags : Qeq_bool v 0 = false -> test mode FPLIB_FZ = false -> let s := Z.b2z (negb (Qle_bool 0 v)) in let x := (Qabs v / ulp F)%Q in
  let m := spec_mag F (Z.land mode 3) (nz s) x in
  0 <= m /\ (m < inf_mag F /\ rounded F mode v flags = (with_sign F s m, let fl := if tiny F x && negb (exact F x) then Z.lor flags FPLIB_UFC else flags in if negb (exact F x) then Z.lor fl FPLIB_IXC else fl) \/
   inf_mag F <= m /\ exists fl, rounded F mode v flags = (with_sign F s (if overflows_to_inf (Z.land mode 3) s then inf_mag F else inf_mag F - 1), Z.lor fl (Z.lor FPLIB_OFC FPLIB_IXC))).
Proof.
  intros Hv Hfz s x m. destruct (magnitude v Hv) as (_ & Hx & _). fold x in Hx. destruct (spec_binade F HF x Hx) as (Hs & Hq & _).
  assert (0 <= m) as Hm.
  { unfold m, spec_mag. pose proof (round_int_range (Z.land mode 3) (nz s) (x * pow2 (- spec_shift F x))). pose proof HF as [HP _ _ _ _]. pose proof (pow2_pos P ltac:(lia)). nia. }
  split; [done|]. unfold rounded, spec_round. rewrite Hh, Hfz. cbn [andb negb]. fold s x m. destruct (Z.leb_spec (inf_mag F) m); [right|left]; (split; [done|]); [by eexists|done].
Qed.

Lemma signed_dist s (x y : Q) : (Qabs (signed s (x * ulp F) - signed s (y * ulp F)) == Qabs (x - y) * ulp F)%Q.
Proof.
  pose proof (ulp_pos F) as Hu. assert (Qabs (x - y) * ulp F == Qabs ((x - y) * ulp F))%Q as -> by (rewrite Qabs_Qmult, (Qabs_pos (ulp F)) by lra; reflexivity).
  unfold signed. destruct (nz s); [|apply Qabs_wd; ring]. rewrite <- Qabs_opp. apply Qabs_wd. ring.
Qed.

Lemma rounded_nearest mode (v : Q) flags c : Qeq_bool v 0 = false -> Z.land mode 3 = FPLIB_RN -> test mode FPLIB_FZ = false ->
  finite F (fst (rounded F mode v flags)) -> finite F c -> (Qabs (v - val F (fst (rounded F mode v flags))) <= Qabs (v - val F c))%Q.
Proof.
  intros Hv Hrn Hfz Hfin Hc. destruct (magnitude v Hv) as (Hs & Hx & Ev). destruct (rounded_finite mode v flags Hv Hfz) as [Hm [[Hlt E]|[Hge (fl & E)]]]; rewrite E in *; cbn [fst] in *; rewrite Hrn in *.
  - set (s := Z.b2z _) in *. set (x := (Qabs v / ulp F)%Q) in *. destruct inf_mag_bound as [HB0 HB]. pose proof HF as [HP _ _ _ _]. pose proof (pow2_pos P ltac:(lia)).
    rewrite val_with_sign by (done || lia). destruct (fields F HF c (proj1 Hc)) as (Hsc & Hmc & _). unfold val. set (mc := mag_of F c) in *. set (sc := sign_of F c) in *. pose proof (ulp_pos F) as Hu.
    assert (forall m', 0 <= m' -> (Qabs (x - inject_Z (mag_value F (spec_mag F FPLIB_RN (nz s) x))) * ulp F <= Qabs (x - inject_Z (mag_value F m')) * ulp F)%Q) as Hnear.
    { intros m' Hm'. apply Qmult_le_compat_r; [|lra]. by apply spec_mag_nearest. }
    rewrite Ev at 1. rewrite signed_dist. destruct (Z.eq_dec sc s) as [->|Hne]; [rewrite Ev at 1; rewrite signed_dist; apply Hnear; lia|].
    eapply Qle_trans; [apply (Hnear 0); lia|]. rewrite Ev. assert (mag_value F 0 = 0) as -> by (unfold mag_value; by rewrite (proj2 (Z.ltb_lt _ _)) by done).
    pose proof (mag_value_mono F HF 0 mc ltac:(lia) ltac:(lia)) as Hmv. assert (mag_value F 0 = 0) as E0 by (unfold mag_value; by rewrite (proj2 (Z.ltb_lt _ _)) by done). rewrite E0 in Hmv.
    assert (0 <= inject_Z (mag_value F mc))%Q as Hmq by (change 0%Q with (inject_Z 0); by rewrite <- Zle_Qle). change (inject_Z 0) with 0%Q.
    rewrite (Qabs_pos (x - 0)) by lra. destruct Hs as [Es|Es], Hsc as [Esc|Esc]; rewrite Es, Esc in *; try done; unfold signed; cbn [nz Z.eqb negb]; [rewrite Qabs_pos by nra|rewrite Qabs_neg by nra]; nra.
  - exfalso. destruct Hfin as [_ Hfin]. change (overflows_to_inf FPLIB_RN _) with true in Hfin. cbn match in Hfin. destruct inf_mag_bound as [HB0 HB]. pose proof HF as [HP _ _ _ _]. pose proof (pow2_pos P ltac:(lia)).
    rewrite (proj2 (with_sign_fields _ (inf_mag F) Hs ltac:(lia))) in Hfin. lia.
Qed.

(** A result that is not inexact is exact. *)
Lemma rounded_exact mode (v : Q) flags : Qeq_bool v 0 = false -> test mode FPLIB_FZ = false -> Z.testbit (snd (rounded F mode v flags)) 4 = false ->
  (val F (fst (rounded F mode v flags)) == v)%Q.
Proof.
  intros Hv Hfz Hix. destruct (magnitude v Hv) as (Hs & Hx & Ev). destruct (rounded_finite mode v flags Hv Hfz) as [Hm [[Hlt E]|[_ (fl & E)]]]; rewrite E in *; cbn [fst snd] in *.
  - set (s := Z.b2z _) in *. set (x := (Qabs v / ulp F)%Q) in *. destruct inf_mag_bound as [HB0 HB]. pose proof HF as [HP _ _ _ _]. pose proof (pow2_pos P ltac:(lia)) as HpP. rewrite val_with_sign by (done || lia).
    destruct (exact F x) eqn:Ee; cbn [negb] in Hix; [|by rewrite Z.lor_spec, orb_true_r in Hix]. unfold exact, is_integer in Ee. apply Qeq_bool_iff in Ee.
    destruct (spec_binade F HF x Hx) as (Hs0 & Hq & Hb). unfold spec_mag in *. set (t := spec_shift F x) in *. set (y := (x * pow2 (- t))%Q) in *. set (q := Qfloor y) in *.
    assert (round_int (Z.land mode 3) (nz s) y = q) as Er by (by apply round_int_whole).
    rewrite Er, mag_value_binade by (done || lia). rewrite Ev. unfold signed.
    assert (inject_Z (q * 2 ^ t) == x)%Q as Eqx; [|destruct (nz s); rewrite Eqx; reflexivity]. rewrite inject_Z_mult, <- pow2_inject, <- Ee by done. unfold y. rewrite <- Qmult_assoc, (Qmult_comm (pow2 (- t))), pow2_inv. ring.
  - by rewrite Z.lor_spec, orb_true_r in Hix.
Qed.
End Patterns.
