(* ===== verification/FpOps.v ===== *)
(** The operations of [Fplib] with the status register, on finite operands, and
    the exact values they round. *)
From Stdlib Require Import QArith Qabs Lqa.
From S2P Require Import Prelude Fplib FpSpec FpRound FpArith FpMul FpFused FpDiv FpSqrt FpNearest.
#[local] Open Scope Z_scope.

(** * The status register *)

(** The flags of an operation, accumulated. *)
Definition raised (fpscr : Z) (r : Z * Z) : Z * Z := (fst r, Z.lor fpscr (snd r)).

(** The exception flags of the register. *)
Definition all_flags : Z := 159.
Definition flags_ok (flags : Z) : Prop := Z.land flags all_flags = flags.

Lemma set_if_lor flags bit fpscr : 0 <= bit -> set_if flags (2 ^ bit) bit fpscr = Z.lor fpscr (Z.land flags (2 ^ bit)).
Proof.
  intros Hb. unfold set_if, test. rewrite <- (Z.shiftl_1_l bit). apply bits_ext. intros i Hi. rewrite Z.lor_spec, Z.land_spec, Z.shiftl_1_l, Z.pow2_bits_eqb by done.
  assert (nz (Z.land flags (2 ^ bit)) = Z.testbit flags bit) as ->.
  { unfold nz. destruct (Z.testbit flags bit) eqn:E.
    - apply negb_true_iff, Z.eqb_neq. intros H. assert (Z.testbit (Z.land flags (2 ^ bit)) bit = false) as H2 by (by rewrite H, Z.bits_0).
      rewrite Z.land_spec, E, Z.pow2_bits_true in H2 by done. done.
    - apply negb_false_iff, Z.eqb_eq. apply bits_ext. intros j Hj. rewrite Z.land_spec, Z.pow2_bits_eqb, Z.bits_0 by done.
      destruct (Z.eqb_spec bit j) as [<-|]; [by rewrite E|by rewrite andb_false_r]. }
  destruct (Z.testbit flags bit) eqn:E.
  - rewrite Z.setbit_eqb by done. rewrite Z.eqb_sym. destruct (Z.eqb_spec i bit) as [->|]; [by rewrite E, orb_true_r|by rewrite andb_false_r, orb_false_r].
  - destruct (Z.eqb_spec bit i) as [<-|]; [by rewrite E, andb_false_l, orb_false_r|by rewrite andb_false_r, orb_false_r].
Qed.

(** The flags are accumulated in the register. *)
Lemma set_fpscr0_raised fpscr flags : flags_ok flags -> set_fpscr0 fpscr flags = Z.lor fpscr flags.
Proof.
  intros Hf. unfold set_fpscr0. change FPLIB_IDC with (2 ^ 7). change FPLIB_IOC with (2 ^ 0). change FPLIB_DZC with (2 ^ 1).
  change FPLIB_OFC with (2 ^ 2). change FPLIB_UFC with (2 ^ 3). change FPLIB_IXC with (2 ^ 4). rewrite !set_if_lor by lia.
  rewrite <- !Z.lor_assoc, <- !Z.land_lor_distr_r. change (Z.lor (2 ^ 7) _) with all_flags. by rewrite Hf.
Qed.

Lemma flags_lor a b : flags_ok a -> flags_ok b -> flags_ok (Z.lor a b).
Proof. unfold flags_ok. intros Ha Hb. by rewrite Z.land_lor_distr_l, Ha, Hb. Qed.

Ltac flags_tac := repeat (first [assumption | apply flags_lor | reflexivity]).

Lemma in_flags_ok F mode a flags : flags_ok flags -> flags_ok (in_flags F mode a flags).
Proof. intros H. unfold in_flags. destruct (_ && _); flags_tac. Qed.
Lemma spec_round_ok F rm mode s x flags : flags_ok flags -> flags_ok (snd (spec_round F rm mode s x flags)).
Proof.
  intros H. unfold spec_round. cbv zeta. repeat match goal with |- context [if ?b then _ else _] => destruct b end; cbn; flags_tac.
Qed.
Lemma rounded_sum_ok F mode s1 s2 v flags : flags_ok flags -> flags_ok (snd (rounded_sum F mode s1 s2 v flags)).
Proof. intros H. unfold rounded_sum. destruct (Qeq_bool v 0); [done|by apply spec_round_ok]. Qed.
Lemma rounded_product_ok F mode s v flags : flags_ok flags -> flags_ok (snd (rounded_product F mode s v flags)).
Proof. intros H. unfold rounded_product. destruct (Qeq_bool v 0); [done|by apply spec_round_ok]. Qed.

Lemma quotient_ok F mode a b flags : flags_ok flags -> flags_ok (snd (quotient F mode a b flags)).
Proof. intros H. unfold quotient. destruct (Qeq_bool _ 0); [destruct (Qeq_bool _ 0); cbn; flags_tac|by apply rounded_product_ok]. Qed.

Lemma root_ok F mode a flags r : root F mode a flags r -> flags_ok flags -> flags_ok (snd r).
Proof.
  intros Hr H. unfold root in Hr. destruct (Qeq_bool _ 0); [by subst r|]. destruct (nz _); [subst r; cbn; flags_tac|].
  destruct Hr as [(v & _ & _ & ->)|(lo & hi & _ & Hlh & _ & _ & Hv)]; [by apply spec_round_ok|].
  rewrite (Hv ((lo + hi) / 2)%Q); [by apply spec_round_ok|apply Qlt_shift_div_l; lra|apply Qlt_shift_div_r; lra].
Qed.

Lemma with_fpscr_raised f fpscr r : f (modeConv fpscr) 0 = Ok r -> flags_ok (snd r) -> with_fpscr f fpscr = Ok (raised fpscr r).
Proof. intros E H. unfold with_fpscr, raised. rewrite E. destruct r as [x flags]. cbn in *. by rewrite set_fpscr0_raised. Qed.

(** * The operations on finite operands *)

Section Ops.
Context (fpscr : Z).
Local Abbreviation mode := (modeConv fpscr).

Lemma fplib_add_eq F a b : arith F -> finite F a -> finite F b -> let flags := in_flags F mode b (in_flags F mode a 0) in
  fplibAdd F a b fpscr = Ok (raised fpscr (rounded_sum F mode (sign_of F a) (sign_of F b) (in_val F mode a + in_val F mode b) flags)) /\
  fplibSub F a b fpscr = Ok (raised fpscr (rounded_sum F mode (sign_of F a) (1 - sign_of F b) (in_val F mode a - in_val F mode b) flags)).
Proof.
  intros HF Ha Hb flags. assert (flags_ok flags) as Hfl by (by apply in_flags_ok, in_flags_ok).
  split; apply with_fpscr_raised; try by apply rounded_sum_ok.
  - rewrite add_correct by auto. rewrite Z.lxor_0_r. done.
  - rewrite add_correct by auto. destruct (fields F (arith_ok F HF) b (proj1 Hb)) as [[-> | ->] _]; done.
Qed.

Lemma mul32_eq a b : finite F32 a -> finite F32 b ->
  fplibMul32 a b fpscr = Ok (raised fpscr (rounded_product F32 mode (Z.lxor (sign_of F32 a) (sign_of F32 b)) (in_val F32 mode a * in_val F32 mode b) (in_flags F32 mode b (in_flags F32 mode a 0)))).
Proof. intros Ha Hb. apply with_fpscr_raised; [by apply mul32_correct|by apply rounded_product_ok, in_flags_ok, in_flags_ok]. Qed.
Lemma mul64_eq a b : finite F64 a -> finite F64 b ->
  fplibMul64 a b fpscr = Ok (raised fpscr (rounded_product F64 mode (Z.lxor (sign_of F64 a) (sign_of F64 b)) (in_val F64 mode a * in_val F64 mode b) (in_flags F64 mode b (in_flags F64 mode a 0)))).
Proof. intros Ha Hb. apply with_fpscr_raised; [by apply mul64_correct|by apply rounded_product_ok, in_flags_ok, in_flags_ok]. Qed.

Lemma muladd32_eq a b c : finite F32 a -> finite F32 b -> finite F32 c ->
  fplibMulAdd32 a b c fpscr = Ok (raised fpscr (rounded_sum F32 mode (sign_of F32 a) (Z.lxor (sign_of F32 b) (sign_of F32 c)) (fused_val F32 mode a b c 0) (fused_flags F32 mode a b c 0))).
Proof. intros Ha Hb Hc. apply with_fpscr_raised; [by apply muladd32_correct|by apply rounded_sum_ok, in_flags_ok, in_flags_ok, in_flags_ok]. Qed.
Lemma muladd64_eq a b c : finite F64 a -> finite F64 b -> finite F64 c ->
  fplibMulAdd64 a b c fpscr = Ok (raised fpscr (rounded_sum F64 mode (sign_of F64 a) (Z.lxor (sign_of F64 b) (sign_of F64 c)) (fused_val F64 mode a b c 0) (fused_flags F64 mode a b c 0))).
Proof. intros Ha Hb Hc. apply with_fpscr_raised; [by apply muladd64_correct|by apply rounded_sum_ok, in_flags_ok, in_flags_ok, in_flags_ok]. Qed.

Lemma div32_eq a b : finite F32 a -> finite F32 b -> fplibDiv32 a b fpscr = Ok (raised fpscr (quotient F32 mode a b (in_flags F32 mode b (in_flags F32 mode a 0)))).
Proof. intros Ha Hb. apply with_fpscr_raised; [by apply div32_correct|by apply quotient_ok, in_flags_ok, in_flags_ok]. Qed.
Lemma div64_eq a b : finite F64 a -> finite F64 b -> fplibDiv64 a b fpscr = Ok (raised fpscr (quotient F64 mode a b (in_flags F64 mode b (in_flags F64 mode a 0)))).
Proof. intros Ha Hb. apply with_fpscr_raised; [by apply div64_correct|by apply quotient_ok, in_flags_ok, in_flags_ok]. Qed.

Lemma sqrt32_eq a : finite F32 a -> exists r, fplibSqrt32 a fpscr = Ok (raised fpscr r) /\ root F32 mode a (in_flags F32 mode a 0) r.
Proof.
  intros Ha. destruct (sqrt32_correct a mode 0 Ha) as (r & Er & Hr). exists r. split; [|done]. apply with_fpscr_raised; [done|]. eapply root_ok; [done|by apply in_flags_ok].
Qed.
Lemma sqrt64_eq a : finite F64 a -> exists r, fplibSqrt64 a fpscr = Ok (raised fpscr r) /\ root F64 mode a (in_flags F64 mode a 0) r.
Proof.
  intros Ha. destruct (sqrt64_correct a mode 0 Ha) as (r & Er & Hr). exists r. split; [|done]. apply with_fpscr_raised; [done|]. eapply root_ok; [done|by apply in_flags_ok].
Qed.
End Ops.

(** * Exact values *)

(** The operations with the exact values of their results. *)
Inductive exact_op : Format -> (Z -> res (Z * Z)) -> Q -> Prop :=
  | exact_add F a b : arith F -> finite F a -> finite F b -> exact_op F (fplibAdd F a b) (val F a + val F b)
  | exact_sub F a b : arith F -> finite F a -> finite F b -> exact_op F (fplibSub F a b) (val F a - val F b)
  | exact_mul32 a b : finite F32 a -> finite F32 b -> exact_op F32 (fplibMul32 a b) (val F32 a * val F32 b)
  | exact_mul64 a b : finite F64 a -> finite F64 b -> exact_op F64 (fplibMul64 a b) (val F64 a * val F64 b)
  | exact_muladd32 a b c : finite F32 a -> finite F32 b -> finite F32 c -> exact_op F32 (fplibMulAdd32 a b c) (val F32 a + val F32 b * val F32 c)
  | exact_muladd64 a b c : finite F64 a -> finite F64 b -> finite F64 c -> exact_op F64 (fplibMulAdd64 a b c) (val F64 a + val F64 b * val F64 c)
  | exact_div32 a b : finite F32 a -> finite F32 b -> ~ (val F32 b == 0)%Q -> exact_op F32 (fplibDiv32 a b) (val F32 a / val F32 b)
  | exact_div64 a b : finite F64 a -> finite F64 b -> ~ (val F64 b == 0)%Q -> exact_op F64 (fplibDiv64 a b) (val F64 a / val F64 b).

Section Unflushed.
Context (mode : Z) (Hfz : test mode FPLIB_FZ = false).

Lemma in_val_unflushed F a : in_val F mode a = val F a.
Proof. unfold in_val, flushed. by rewrite Hfz, andb_false_r. Qed.
Lemma in_flags_unflushed F a flags : in_flags F mode a flags = flags.
Proof. unfold in_flags, flushed. by rewrite Hfz, andb_false_r. Qed.
End Unflushed.

Lemma sign_bit F a : arith F -> finite F a -> sign_of F a = 0 \/ sign_of F a = 1.
Proof. intros HF [Ha _]. by apply (fields F (arith_ok F HF) a). Qed.
Lemma zero_sign_bit rm s1 s2 : s1 = 0 \/ s1 = 1 -> zero_sign rm s1 s2 = 0 \/ zero_sign rm s1 s2 = 1.
Proof. intros H. unfold zero_sign. destruct (s1 =? s2); [done|]. destruct (rm =? _); auto. Qed.

(** Every operation rounds its exact value once. *)
Lemma exact_op_rounds F f v fpscr : exact_op F f v -> let mode := modeConv fpscr in test mode FPLIB_FZ = false ->
  arith F /\ exists s v', (s = 0 \/ s = 1) /\ (v' == v)%Q /\
    f fpscr = Ok (raised fpscr (if Qeq_bool v' 0 then (with_sign F s 0, 0) else rounded F mode v' 0)).
Proof.
  intros H mode Hfz.
  destruct H as [F a b HF Ha Hb|F a b HF Ha Hb|a b Ha Hb|a b Ha Hb|a b c Ha Hb Hc|a b c Ha Hb Hc|a b Ha Hb Hn|a b Ha Hb Hn]; (split; [first [done|by left|by right]|]).
  - eexists _, _. rewrite (proj1 (fplib_add_eq fpscr F a b HF Ha Hb)). fold mode. rewrite !in_flags_unflushed, !in_val_unflushed by done. split; [|by split]. by apply zero_sign_bit, sign_bit.
  - eexists _, _. rewrite (proj2 (fplib_add_eq fpscr F a b HF Ha Hb)). fold mode. rewrite !in_flags_unflushed, !in_val_unflushed by done. split; [|by split]. by apply zero_sign_bit, sign_bit.
  - eexists _, _. rewrite (mul32_eq fpscr a b Ha Hb). fold mode. rewrite !in_flags_unflushed, !in_val_unflushed by done. split; [|by split]. apply xor_sign; apply sign_bit; (done || by left).
  - eexists _, _. rewrite (mul64_eq fpscr a b Ha Hb). fold mode. rewrite !in_flags_unflushed, !in_val_unflushed by done. split; [|by split]. apply xor_sign; apply sign_bit; (done || by right).
  - eexists _, _. rewrite (muladd32_eq fpscr a b c Ha Hb Hc). fold mode. unfold fused_flags, fused_val. rewrite !in_flags_unflushed, !in_val_unflushed by done. split; [|split; [|by unfold rounded_sum]]; [apply zero_sign_bit, sign_bit; (done || by left)|]. change (pow2 0) with 1%Q. ring.
  - eexists _, _. rewrite (muladd64_eq fpscr a b c Ha Hb Hc). fold mode. unfold fused_flags, fused_val. rewrite !in_flags_unflushed, !in_val_unflushed by done. split; [|split; [|by unfold rounded_sum]]; [apply zero_sign_bit, sign_bit; (done || by right)|]. change (pow2 0) with 1%Q. ring.
  - eexists _, _. rewrite (div32_eq fpscr a b Ha Hb). fold mode. unfold quotient. rewrite !in_flags_unflushed, !in_val_unflushed by done.
    assert (Qeq_bool (val F32 b) 0 = false) as -> by (apply not_true_iff_false; by rewrite Qeq_bool_iff). split; [|by split]. apply xor_sign; apply sign_bit; (done || by left).
  - eexists _, _. rewrite (div64_eq fpscr a b Ha Hb). fold mode. unfold quotient. rewrite !in_flags_unflushed, !in_val_unflushed by done.
    assert (Qeq_bool (val F64 b) 0 = false) as -> by (apply not_true_iff_false; by rewrite Qeq_bool_iff). split; [|by split]. apply xor_sign; apply sign_bit; (done || by right).
Qed.
