(* ===== verification/FpConvert.v ===== *)
(** The conversions of [Fplib] between numbers, integers and formats. *)
From Stdlib Require Import QArith Qpower Qround Qabs Lqa.
From S2P Require Import Prelude Fplib FpSpec FpRound FpArith FpMul FpNearest FpOps.
#[local] Open Scope Z_scope.

(** * From an integer *)

(** The integer of a word of 64 bits. *)
Definition word_value (u : bool) (a : Z) : Z := if u then a else wrap_s 64 a.

(** The magnitude and the sign of a word. *)
Lemma word_parts (u : bool) a : 0 <= a < 2 ^ 64 -> let s := Z.b2z ((Z.b2z u =? 0) && nz (Z.shiftr a 63)) in let n := if nz s then u64 (- a) else a in
  (s = 0 \/ s = 1) /\ 0 <= n < 2 ^ 64 /\ (inject_Z (word_value u a) == signed s (inject_Z n))%Q.
Proof.
  intros Ha s n. assert (s = 0 \/ s = 1) as Hs by (unfold s; destruct (_ && _); auto). split; [done|].
  unfold n, s, word_value, wrap_s. rewrite Z.shiftr_div_pow2 by lia. change (64 - 1) with 63.
  assert (0 <= a / 2 ^ 63 < 2) as Hq by (split; [apply Z.div_pos; lia|apply Z.div_lt_upper_bound; lia]).
  pose proof (Z.div_mod a (2 ^ 63) ltac:(lia)) as Ed. pose proof (Z.mod_pos_bound a (2 ^ 63) ltac:(lia)).
  destruct u; [cbn; split; [done|reflexivity]|]. assert (a / 2 ^ 63 = 0 \/ a / 2 ^ 63 = 1) as [E|E] by lia; rewrite E; cbn [Z.b2z Z.eqb nz negb andb signed].
  - split; [done|]. rewrite Z.mod_small by lia. unfold signed. cbn [nz Z.eqb negb]. f_equiv. lia.
  - assert (u64 (- a) = 2 ^ 64 - a) as -> by (symmetry; apply (Z.mod_unique_pos _ _ (-1)); lia). split; [lia|]. unfold signed. cbn [nz Z.eqb negb].
    assert ((a + 2 ^ 63) mod 2 ^ 64 = a + 2 ^ 63 - 2 ^ 64) as -> by (symmetry; apply (Z.mod_unique_pos _ _ 1); lia). rewrite <- inject_Z_opp. f_equiv. lia.
Qed.

Lemma scaled_zero s (n k : Z) (v : Q) : (v == signed s (inject_Z n * pow2 k))%Q -> Qeq_bool v 0 = (n =? 0).
Proof.
  intros E. destruct (Z.eqb_spec n 0) as [->|Hn].
  - apply Qeq_bool_true. rewrite E. apply signed_0. change (inject_Z 0) with 0%Q. ring.
  - apply not_true_iff_false. rewrite Qeq_bool_iff, E. intros H. apply Hn, inject_Z_injective. pose proof (pow2_pos_Q k).
    assert (inject_Z n * pow2 k == 0)%Q as H2 by (unfold signed in H; destruct (nz s); lra). apply Qmult_integral in H2 as [H2|H2]; [done|lra].
Qed.

Lemma cvtf32_ok a fbits u mode flags : 0 <= a < 2 ^ 64 -> 0 <= fbits < 2 ^ 20 ->
  fp32_cvtf a fbits (Z.b2z u) mode flags = Ok (rounded_product F32 mode 0 (inject_Z (word_value u a) * pow2 (- fbits)) flags).
Proof.
  intros Ha Hf. destruct (word_parts u a Ha) as (Hs & Hn & Ev). unfold fp32_cvtf. set (s := Z.b2z _) in *. set (n := if nz s then _ else _) in *. clearbody s n.
  assert (inject_Z (word_value u a) * pow2 (- fbits) == signed s (inject_Z n * pow2 (- fbits)))%Q as Ev2 by (rewrite Ev; unfold signed; destruct (nz s); ring).
  unfold rounded_product. rewrite (scaled_zero _ _ _ _ Ev2). destruct (Z.eqb_spec n 0) as [|Hn0].
  - unfold fp32_zero. by rewrite (pack_zero F32 F32_ok) by lia.
  - pose proof (finish_64 s n (190 - fbits) 0 mode flags (inject_Z (word_value u a) * pow2 (- fbits)) (inject_Z n) Hs ltac:(lia) ltac:(lia) ltac:(lia) (or_introl (Qeq_refl _)) (or_introl (Qeq_refl _))) as Hf64.
    destruct (fp64_normalise n (190 - fbits)) as [x_mnt x_exp]. rewrite collapse_shl. rewrite (Z.add_0_r x_exp) in Hf64. apply Hf64.
    rewrite Ev2, ulp_F32, <- Qmult_assoc, <- pow2_plus. by replace (190 - fbits + 0 - 41 + - 149) with (- fbits) by lia.
Qed.

Lemma cvtf64_ok a fbits u mode flags : 0 <= a < 2 ^ 64 -> 0 <= fbits < 2 ^ 20 ->
  fp64_cvtf a fbits (Z.b2z u) mode flags = Ok (rounded_product F64 mode 0 (inject_Z (word_value u a) * pow2 (- fbits)) flags).
Proof.
  intros Ha Hf. destruct (word_parts u a Ha) as (Hs & Hn & Ev). unfold fp64_cvtf. set (s := Z.b2z _) in *. set (n := if nz s then _ else _) in *. clearbody s n.
  assert (inject_Z (word_value u a) * pow2 (- fbits) == signed s (inject_Z n * pow2 (- fbits)))%Q as Ev2 by (rewrite Ev; unfold signed; destruct (nz s); ring).
  unfold rounded_product. rewrite (scaled_zero _ _ _ _ Ev2). destruct (Z.eqb_spec n 0) as [|Hn0].
  - unfold fp64_zero. by rewrite (pack_zero F64 F64_ok) by lia.
  - pose proof (finish_sum F64 11 s n (1024 + 62 - fbits) mode flags (inject_Z (word_value u a) * pow2 (- fbits)) (inject_Z n) (or_intror eq_refl) Hs ltac:(cbn; lia) ltac:(lia) ltac:(lia) (or_introl (Qeq_refl _)) (or_introl (Qeq_refl _))) as Hfs.
    change (normalise F64) with fp64_normalise in Hfs. destruct (fp64_normalise n (1024 + 62 - fbits)) as [x_mnt x_exp]. change (f_W F64 - f_P F64 - 1 - 11) with 0 in Hfs. rewrite (Z.add_0_r x_exp) in Hfs. apply Hfs; [|lia].
    rewrite Ev2, ulp_F64, <- Qmult_assoc, <- pow2_plus. by replace (1024 + 62 - fbits - 1 - 11 + - 1074) with (- fbits) by lia.
Qed.

(** * To an integer *)

(** The integer that a number [x] with the sign [sgn] is rounded to, saturated
    to [W] bits; the flags are those of the conversion. *)
Definition to_fixed (W : Z) (u : bool) (rm sgn : Z) (x : Q) (flags : Z) : Z * Z :=
  let n := (if nz sgn then - round_int rm true x else round_int rm false x)%Z in
  let lo := if u then 0 else - 2 ^ (W - 1) in
  let hi := if u then 2 ^ W - 1 else 2 ^ (W - 1) - 1 in
  if n <? lo then (wrap_u W lo, FPLIB_IOC) else if hi <? n then (wrap_u W hi, FPLIB_IOC)
  else (wrap_u W n, if is_integer x then flags else FPLIB_IXC).

Lemma round_switch_ok m (y : Q) rm sgn : 0 <= m -> sticky m (y * 4) -> 0 <= rm <= 4 ->
  exists inc, round_switch rm sgn (Z.shiftr m 2) (Z.land m 3) = Ok inc /\ 0 <= inc <= 1 /\ (Z.land m 3 = 0 -> inc = 0) /\
    round_int rm (nz sgn) y = Z.shiftr m 2 + inc /\ is_integer y = negb (nz (Z.land m 3)) /\ Qfloor y = Z.shiftr m 2.
Proof.
  intros Hm Hs Hrm. destruct (quarter_bools m y Hm Hs) as (Hq & B1 & B2 & B3 & B4). pose proof (Z.mod_pos_bound m 4 ltac:(lia)) as Hr.
  assert (Qle_bool (1 # 2) (y - inject_Z (m / 4)) = (2 <=? m mod 4)) as B5.
  { apply sticky_quarter in Hs. assert (m mod 4 = 0 \/ m mod 4 = 1 \/ m mod 4 = 2 \/ m mod 4 = 3) as [E|[E|[E|E]]] by lia; rewrite E in *; cbn [Z.leb Z.compare Pos.compare Pos.compare_cont];
      first [apply Qle_bool_iff; lra|apply Qle_bool_false; lra]. }
  change 3 with (Z.ones 2). rewrite Z.land_ones, Z.shiftr_div_pow2 by lia. change (2 ^ 2) with 4.
  unfold round_int, is_integer, round_switch. rewrite Hq, B1, B2, B3, B4, B5, land_1. set (q := m / 4).
  assert (rm = 0 \/ rm = 1 \/ rm = 2 \/ rm = 3 \/ rm = 4) as [->|[->|[->|[->| ->]]]] by lia;
    assert (m mod 4 = 0 \/ m mod 4 = 1 \/ m mod 4 = 2 \/ m mod 4 = 3) as [E|[E|[E|E]]] by lia; rewrite E;
    try change (Z.shiftr 0 1) with 0; try change (Z.shiftr 1 1) with 0; try change (Z.shiftr 2 1) with 1; try change (Z.shiftr 3 1) with 1; eexists; (split; [reflexivity|]); unfold nz; cbn;
    rewrite ?orb_false_r, ?andb_false_r, ?orb_false_l, ?andb_true_r, ?negb_involutive; (split; [try (destruct (sgn =? 0)); try (destruct (Z.odd q)); cbn; lia|]); (split; [done|]); (split; [|done]); try done; try lia.
    all: try (destruct (sgn =? 0)); try (destruct (Z.odd q)); cbn; try lia.
Qed.

(** The quarters of a significand shifted right by [k]. *)
Lemma jam_quarters m j : Z.shiftr (jam m j) 2 = Z.shiftr (Z.shiftr m j) 2 /\ Z.land (jam m j) 3 = Z.lor (Z.land (Z.shiftr m j) 3) (Z.b2z (nz (m mod 2 ^ j))).
Proof.
  unfold jam. rewrite Z.shiftr_lor, Z.land_lor_distr_l. destruct (nz _); cbn [Z.b2z]; [change (Z.shiftr 1 2) with 0; change (Z.land 1 3) with 1|change (Z.shiftr 0 2) with 0; change (Z.land 0 3) with 0]; by rewrite !Z.lor_0_r.
Qed.

(** What is left of a shift right by [k], for rounding. *)
Lemma fixed_parts m k : 0 <= m < 2 ^ 64 -> m mod 2 = 0 -> 0 <= k < 2 ^ 31 ->
  let err := if k <? 2 then 0 else Z.lor (Z.land (lsr64 m (k - 2)) 3) (Z.b2z (nz (Z.land m (u64 (lsl64 1 (k - 2) - 1))))) in
  exists Q, 0 <= Q /\ sticky Q (inject_Z m * pow2 (- k) * 4) /\ Z.shiftr Q 2 = lsr64 m k /\ Z.land Q 3 = err.
Proof.
  intros Hm Hm2 Hk err. unfold err, lsr64, lsl64. rewrite (lsr_shiftr 64 m k) by lia. destruct (Z.ltb_spec k 2) as [H|H].
  - exists (4 * Z.shiftr m k). assert (0 <= Z.shiftr m k) as Hp by (apply Z.shiftr_nonneg; lia). split; [lia|]. split; [|split].
    + left. rewrite inject_Z_mult. change (inject_Z 4) with 4%Q. assert (m = Z.shiftr m k * 2 ^ k) as Em.
      { rewrite Z.shiftr_div_pow2 by lia. assert (k = 0 \/ k = 1) as [->| ->] by lia; [rewrite Z.pow_0_r, Z.div_1_r; lia|]. change (2 ^ 1) with 2. pose proof (Z.div_mod m 2). lia. }
      rewrite Em at 1. rewrite inject_Z_mult, <- pow2_inject, <- (Qmult_assoc _ (pow2 k)), pow2_inv by lia. ring.
    + rewrite Z.shiftr_div_pow2 by lia. change (2 ^ 2) with 4. rewrite Z.mul_comm. by apply Z.div_mul.
    + change 3 with (Z.ones 2). rewrite Z.land_ones by lia. change (2 ^ 2) with 4. rewrite Z.mul_comm. by apply Z.mod_mul.
  - exists (jam m (k - 2)). split; [apply jam_nonneg; lia|]. rewrite (lsr_shiftr 64), (lost_bits 64) by lia. destruct (jam_quarters m (k - 2)) as [-> ->]. split; [|split; [|done]].
    + rewrite four_pow2. apply sticky_jam; [lia|by left].
    + rewrite Z.shiftr_shiftr by lia. f_equal. lia.
Qed.

Lemma FPToFixed_64_ok sgn exp mnt (u : bool) rm flags : sgn = 0 \/ sgn = 1 -> 0 <= mnt < 2 ^ 53 -> - 2 ^ 30 < exp < 2 ^ 30 -> exp <= 1086 \/ 2 ^ 52 <= mnt -> 0 <= rm <= 4 ->
  FPToFixed_64 sgn exp mnt u rm flags = Ok (to_fixed 64 u rm sgn (inject_Z mnt * pow2 (exp - 1075)) flags).
Proof.
  intros Hs Hm He Hbig Hrm. unfold FPToFixed_64, to_fixed. change (1023 + 63) with 1086. change (1086 - 2) with 1084. set (y := (inject_Z mnt * pow2 (exp - 1075))%Q).
  assert (forall b, round_int rm b y <= Qfloor y + 1 /\ Qfloor y <= round_int rm b y) as Hr by (intros; unfold round_int; match goal with |- context [Z.b2z ?c] => destruct c end; cbn; lia).
  destruct (Z.ltb_spec 1086 exp) as [Hx|Hx].
  - assert (2 ^ 64 <= Qfloor y) as Hfl.
    { destruct Hbig as [|Hbig]; [lia|]. rewrite <- (Qfloor_Z (2 ^ 64)). apply Qfloor_resp_le. unfold y. replace (exp - 1075) with (12 + (exp - 1087)) by lia. rewrite pow2_plus, Qmult_assoc, (pow2_inject 12), <- inject_Z_mult, (pow2_inject (exp - 1087)), <- inject_Z_mult by lia.
      rewrite <- Zle_Qle. pose proof (pow2_pos (exp - 1087) ltac:(lia)). nia. }
    pose proof (Hr true). pose proof (Hr false). change (2 ^ (64 - 1)) with (2 ^ 63).
    destruct Hs as [-> | ->], u; cbn [nz Z.eqb negb Z.b2z];
      [rewrite (proj2 (Z.ltb_ge _ 0)), (proj2 (Z.ltb_lt (2 ^ 64 - 1) _)) by lia|rewrite (proj2 (Z.ltb_ge _ (- 2 ^ 63))), (proj2 (Z.ltb_lt (2 ^ 63 - 1) _)) by lia|rewrite (proj2 (Z.ltb_lt _ 0)) by lia|rewrite (proj2 (Z.ltb_lt _ (- 2 ^ 63))) by lia]; done.
  - rewrite Z.shiftl_mul_pow2 by lia. rewrite (wrap_u_id 64 (mnt * 2 ^ 11)) by lia. set (m := mnt * 2 ^ 11).
    assert (m mod 2 = 0) as Hm2 by (unfold m; replace (mnt * 2 ^ 11) with (mnt * 2 ^ 10 * 2) by lia; by apply Z.mod_mul).
    destruct (fixed_parts m (1086 - exp) ltac:(lia) Hm2 ltac:(lia)) as (Q & HQ & HQs & HQ2 & HQ3). replace (1086 - exp - 2) with (1084 - exp) in HQ3 by lia.
    assert ((1086 - exp <? 2) = (1084 <? exp)) as Elt by (destruct (Z.ltb_spec (1086 - exp) 2), (Z.ltb_spec 1084 exp); lia). rewrite Elt in HQ3. rewrite <- HQ2, <- HQ3.
    assert (y == inject_Z m * pow2 (- (1086 - exp)))%Q as Ey.
    { unfold y, m. rewrite inject_Z_mult, <- (pow2_inject 11), <- Qmult_assoc, <- pow2_plus by lia. by replace (11 + - (1086 - exp)) with (exp - 1075) by lia. }
    rewrite <- Ey in HQs. destruct (round_switch_ok Q y rm sgn HQ HQs Hrm) as (inc & -> & Hinc & Hinc0 & Eri & Eint & Efl). cbn [mbind res_bind]. rewrite Eint, negb_if.
    set (x := Z.shiftr Q 2) in *. set (err := Z.land Q 3) in *.
    assert (0 <= x + inc < 2 ^ 64) as Hxi.
    { rewrite HQ2. unfold lsr64. rewrite lsr_shiftr by lia. destruct (Z.eq_dec exp 1086) as [->|Hne].
      - rewrite Hinc0; [change (1086 - 1086) with 0; rewrite Z.shiftr_0_r; lia|]. rewrite HQ3. by destruct (Z.ltb_spec 1084 1086).
      - rewrite Z.shiftr_div_pow2 by lia. pose proof (Z.pow_le_mono_r 2 1 (1086 - exp) ltac:(lia) ltac:(lia)). change (2 ^ 1) with 2 in *. pose proof (Z.div_le_compat_l m 2 (2 ^ (1086 - exp)) ltac:(lia) ltac:(lia)).
        pose proof (Z.div_pos m (2 ^ (1086 - exp)) ltac:(lia) ltac:(lia)). pose proof (Z.div_mod m 2 ltac:(lia)). unfold m in *. lia. }
    rewrite (wrap_u_id 64 (x + inc)) by lia. rewrite <- Eri in *. clear Eri Hinc Hinc0. clear HQ2 HQ3 Efl. clearbody x err. change (2 ^ (64 - 1)) with (2 ^ 63).
    destruct Hs as [-> | ->]; cbn [nz Z.eqb negb andb Z.b2z] in *.
    + set (n := round_int rm false y) in *. clearbody n. destruct u; cbn [negb Z.b2z].
      * rewrite (proj2 (Z.ltb_ge n 0)), (proj2 (Z.ltb_ge (2 ^ 64 - 1) n)), (wrap_u_id 64 n) by lia. done.
      * change (u64 (Z.shiftl 1 63 - 1)) with (2 ^ 63 - 1). rewrite (proj2 (Z.ltb_ge n (- 2 ^ 63))), (wrap_u_id 64 n) by lia. by destruct (Z.ltb_spec (2 ^ 63 - 1) n).
    + set (n := round_int rm true y) in *. clearbody n. destruct u; cbn [negb Z.b2z].
      * rewrite (proj2 (Z.ltb_ge (2 ^ 64 - 1) (- n))) by lia. unfold nz at 1. destruct (Z.eqb_spec n 0) as [->|]; [done|]. by rewrite (proj2 (Z.ltb_lt (- n) 0)) by lia.
      * change (u64 (Z.shiftl 1 63 - 0)) with (2 ^ 63). rewrite (proj2 (Z.ltb_ge (2 ^ 63 - 1) (- n))) by lia. destruct (Z.ltb_spec (2 ^ 63) n), (Z.ltb_spec (- n) (- 2 ^ 63)); try lia; done.
Qed.

(** 32 bits are the 64 bits saturated again. *)
Lemma FPToFixed_32_ok sgn exp mnt (u : bool) rm flags : sgn = 0 \/ sgn = 1 -> 0 <= mnt < 2 ^ 53 -> - 2 ^ 30 < exp < 2 ^ 30 -> exp <= 1086 \/ 2 ^ 52 <= mnt -> 0 <= rm <= 4 ->
  FPToFixed_32 sgn exp mnt u rm flags = Ok (to_fixed 32 u rm sgn (inject_Z mnt * pow2 (exp - 1075)) flags).
Proof.
  intros Hs Hm He Hbig Hrm. unfold FPToFixed_32. rewrite FPToFixed_64_ok by done. cbn [mbind res_bind]. set (y := (inject_Z mnt * pow2 (exp - 1075))%Q). unfold to_fixed.
  assert (0 <= Qfloor y) as Hfl.
  { rewrite <- (Qfloor_Z 0). apply Qfloor_resp_le. unfold y. apply Qmult_le_0_compat; [change 0%Q with (inject_Z 0); rewrite <- Zle_Qle; lia|apply Qlt_le_weak, pow2_pos_Q]. }
  pose proof (round_int_range rm true y). pose proof (round_int_range rm false y). change (2 ^ (64 - 1)) with (2 ^ 63). change (2 ^ (32 - 1)) with (2 ^ 31).
  set (fl := if is_integer y then flags else FPLIB_IXC). clearbody fl.
  destruct Hs as [-> | ->]; cbn [nz Z.eqb negb Z.b2z].
  - set (n := round_int rm false y) in *. clearbody n. destruct u; cbn [negb Z.b2z].
    + rewrite !(proj2 (Z.ltb_ge n 0)) by lia. destruct (Z.ltb_spec (2 ^ 64 - 1) n).
      * rewrite (proj2 (Z.ltb_lt (2 ^ 32 - 1) n)) by lia. done.
      * rewrite (wrap_u_id 64 n) by lia. destruct (Z.leb_spec (2 ^ 32) n), (Z.ltb_spec (2 ^ 32 - 1) n); try lia; done.
    + rewrite (proj2 (Z.ltb_ge n (- 2 ^ 63))), (proj2 (Z.ltb_ge n (- 2 ^ 31))) by lia. destruct (Z.ltb_spec (2 ^ 63 - 1) n).
      * rewrite (proj2 (Z.ltb_lt (2 ^ 31 - 1) n)) by lia. done.
      * rewrite (wrap_u_id 64 n) by lia. destruct (Z.ltb_spec (2 ^ 31 - 1) n).
        -- rewrite (proj2 (Z.ltb_ge n (2 ^ 31))) by lia. assert (u64 (- n) = 2 ^ 64 - n) as -> by (symmetry; apply (Z.mod_unique_pos _ _ (-1)); lia). rewrite (proj2 (Z.leb_gt (2 ^ 64 - n) (2 ^ 31))) by lia. done.
        -- rewrite (proj2 (Z.ltb_lt n (2 ^ 31))) by lia. done.
  - set (n := round_int rm true y) in *. clearbody n. destruct u; cbn [negb Z.b2z].
    + rewrite (proj2 (Z.ltb_ge (2 ^ 64 - 1) (- n))), (proj2 (Z.ltb_ge (2 ^ 32 - 1) (- n))) by lia. destruct (Z.ltb_spec (- n) 0); [done|]. assert (n = 0) as -> by lia. done.
    + rewrite (proj2 (Z.ltb_ge (2 ^ 63 - 1) (- n))), (proj2 (Z.ltb_ge (2 ^ 31 - 1) (- n))) by lia. destruct (Z.ltb_spec (- n) (- 2 ^ 63)).
      * rewrite (proj2 (Z.ltb_lt (- n) (- 2 ^ 31))) by lia. done.
      * destruct (Z.eq_dec n 0) as [->|Hn]; [done|]. assert (u64 (- n) = 2 ^ 64 - n) as E by (symmetry; apply (Z.mod_unique_pos _ _ (-1)); lia). rewrite E.
        assert (u64 (- (2 ^ 64 - n)) = n) as -> by (symmetry; apply (Z.mod_unique_pos _ _ (-1)); lia). rewrite (proj2 (Z.ltb_ge (2 ^ 64 - n) (2 ^ 31))) by lia.
        destruct (Z.leb_spec n (2 ^ 31)), (Z.ltb_spec (- n) (- 2 ^ 31)); try lia; [|done].
        cbn [orb negb]. do 2 f_equal. unfold wrap_u. replace (2 ^ 64 - n) with (- n + 2 ^ 32 * 2 ^ 32) by lia. by rewrite Z.mod_add.
Qed.

(** * The functions of the instructions *)

Lemma round_int_proper rm neg (x y : Q) : (x == y)%Q -> round_int rm neg x = round_int rm neg y.
Proof.
  intros E. unfold round_int. rewrite (Qfloor_comp x y E). assert (x - inject_Z (Qfloor y) == y - inject_Z (Qfloor y))%Q as E2 by (by rewrite E).
  by rewrite !(Qeqb_comp _ _ E2 _ _ (Qeq_refl _)), !(Qleb_comp _ _ E2 _ _ (Qeq_refl _)), !(Qleb_comp _ _ (Qeq_refl _) _ _ E2).
Qed.
Lemma is_integer_proper (x y : Q) : (x == y)%Q -> is_integer x = is_integer y.
Proof. intros E. unfold is_integer. rewrite (Qfloor_comp x y E). apply (Qeqb_comp _ _ E _ _ (Qeq_refl _)). Qed.
Lemma to_fixed_proper Wd u rm sgn (x y : Q) flags : (x == y)%Q -> to_fixed Wd u rm sgn x flags = to_fixed Wd u rm sgn y flags.
Proof. intros E. unfold to_fixed. by rewrite !(round_int_proper _ _ x y E), (is_integer_proper x y E). Qed.
Lemma to_fixed_ok Wd u rm sgn x flags : flags_ok flags -> flags_ok (snd (to_fixed Wd u rm sgn x flags)).
Proof. intros H. unfold to_fixed. cbv zeta. repeat case_match; done. Qed.

(** The mode of a conversion of an integer: the rounding of the instruction. *)
Definition cvt_mode (rounding fpscr : Z) : Z := Z.lor rounding (Z.land (Z.shiftr fpscr 22) 12).

Lemma cvt_mode_rounding rounding fpscr : 0 <= rounding <= 3 -> Z.land (cvt_mode rounding fpscr) 3 = rounding.
Proof.
  intros H. unfold cvt_mode. rewrite Z.land_lor_distr_l, <- Z.land_assoc. change (Z.land 12 3) with 0. rewrite Z.land_0_r, Z.lor_0_r.
  change 3 with (Z.ones 2). rewrite Z.land_ones by lia. apply Z.mod_small. lia.
Qed.

Lemma fixed_to_fp_eq op fbits u rounding fpscr : 0 <= op < 2 ^ 64 -> 0 <= fbits < 2 ^ 20 ->
  let v := (inject_Z (word_value u op) * pow2 (- fbits))%Q in
  fplibFixedToFP_32 op fbits u rounding fpscr = Ok (raised fpscr (rounded_product F32 (cvt_mode rounding fpscr) 0 v 0)) /\
  fplibFixedToFP_64 op fbits u rounding fpscr = Ok (raised fpscr (rounded_product F64 (cvt_mode rounding fpscr) 0 v 0)).
Proof.
  intros Ha Hf v. unfold fplibFixedToFP_32, fplibFixedToFP_64. fold (cvt_mode rounding fpscr). rewrite cvtf32_ok, cvtf64_ok by done. fold v. cbn [mbind res_bind].
  split; unfold raised; match goal with |- context [rounded_product ?F ?m ?s ?x ?f] => pose proof (rounded_product_ok F m s x f eq_refl) as Hok; destruct (rounded_product F m s x f) as [r fl] end; cbn [fst snd] in *; by rewrite set_fpscr0_raised.
Qed.

Section ToFixed.
Context (F : Format) (HF : arith F) (fpscr : Z).
Local Abbreviation mode := (modeConv fpscr).

Definition nan (a : Z) : Prop := pattern F a /\ inf_mag F < mag_of F a.
Definition infinite (a : Z) : Prop := pattern F a /\ mag_of F a = inf_mag F.

(** The fixed-point number that a number is converted to, with the flags. *)
Definition fixed_of (Wd : Z) (u : bool) (rm fbits a : Z) : Z * Z :=
  if inf_mag F <? mag_of F a then (0, FPLIB_IOC)
  else if mag_of F a =? inf_mag F then
    (wrap_u Wd (if nz (sign_of F a) then (if u then 0 else - 2 ^ (Wd - 1)) else (if u then 2 ^ Wd - 1 else 2 ^ (Wd - 1) - 1)), FPLIB_IOC)
  else to_fixed Wd u rm (sign_of F a) (Qabs (in_val F mode a) * pow2 fbits) (in_flags F mode a 0).

Lemma fixed_of_ok Wd u rm fbits a : flags_ok (snd (fixed_of Wd u rm fbits a)).
Proof. unfold fixed_of. repeat case_match; try done. by apply to_fixed_ok, in_flags_ok. Qed.

Lemma arith_fields : f_P F = 23 /\ f_E F = 8 /\ top_exp F = 255 \/ f_P F = 52 /\ f_E F = 11 /\ top_exp F = 2047.
Proof. destruct HF as [-> | ->]; [by left|by right]. Qed.

(** The fields of infinities and NaNs. *)
Lemma unpack_special a flags : pattern F a -> inf_mag F <= mag_of F a ->
  exists m, unpack F a mode flags = (sign_of F a, top_exp F, m, flags) /\ nan_parts F (top_exp F) m = (inf_mag F <? mag_of F a) /\ 2 ^ f_P F <= m < 2 ^ (f_P F + 1) /\
    m = 2 ^ f_P F + mag_of F a mod 2 ^ f_P F.
Proof.
  intros Ha Hm. pose proof (arith_ok F HF) as Hok. destruct (fields F Hok a Ha) as (Hs & Hmag & _ & F1 & F2 & F3). destruct (W_split F Hok) as (E1 & HP & _). destruct (top_exp_bounds F Hok) as [T1 T2]. pose proof Hok as [HP10 HE HW H64 _].
  unfold inf_mag in *. pose proof (Z.div_mod (mag_of F a) (2 ^ f_P F) ltac:(lia)) as Ed. pose proof (Z.mod_pos_bound (mag_of F a) (2 ^ f_P F) HP) as Hmod.
  assert (mag_of F a / 2 ^ f_P F = top_exp F) as Ee.
  { apply Z.le_antisymm; [|apply Z.div_le_lower_bound; lia]. assert (mag_of F a / 2 ^ f_P F < 2 ^ f_E F); [apply Z.div_lt_upper_bound|]; lia. }
  rewrite Ee in *. exists (2 ^ f_P F + mag_of F a mod 2 ^ f_P F). split; [|split; [|split; [rewrite Z.pow_add_r by lia; lia|done]]].
  - unfold unpack. rewrite F1, F2, F3. unfold nz at 1. rewrite (proj2 (Z.eqb_neq _ _)) by lia. cbn [negb]. rewrite Z.lor_comm, (lor_add _ _ (f_P F)) by (try apply Z.mod_same; lia). done.
  - unfold nan_parts. rewrite Z.eqb_refl. cbn [andb]. pose proof (low_bits (f_W F) (2 ^ f_P F + mag_of F a mod 2 ^ f_P F) (f_P F) ltac:(lia)) as Hl.
    rewrite (Z.add_mod (2 ^ _)), Z.mod_same, Z.add_0_l, !Z.mod_mod in Hl by lia. unfold nz. apply eq_true_iff_eq. rewrite negb_true_iff, Z.eqb_neq, Hl, Z.ltb_lt. lia.
Qed.

(** Beyond 64 bits. *)
Lemma FPToFixed_sat (b64 : bool) sgn exp mnt (u : bool) rm flags : sgn = 0 \/ sgn = 1 -> 1086 < exp ->
  let Wd := if b64 then 64 else 32 in
  (if b64 then FPToFixed_64 else FPToFixed_32) sgn exp mnt u rm flags =
  Ok (wrap_u Wd (if nz sgn then (if u then 0 else - 2 ^ (Wd - 1)) else (if u then 2 ^ Wd - 1 else 2 ^ (Wd - 1) - 1)), FPLIB_IOC).
Proof.
  intros Hs He Wd. unfold Wd, FPToFixed_32. destruct b64; unfold FPToFixed_64; change (1023 + 63) with 1086; rewrite (proj2 (Z.ltb_lt 1086 exp)) by done;
    destruct Hs as [-> | ->], u; reflexivity.
Qed.

Lemma to_fixed_eq (b64 : bool) a fbits (u : bool) rm : pattern F a -> 0 <= fbits <= 64 -> 0 <= rm <= 4 ->
  fplibFPToFixed F (if b64 then FPToFixed_64 else FPToFixed_32) a fbits u rm fpscr = Ok (raised fpscr (fixed_of (if b64 then 64 else 32) u rm fbits a)).
Proof.
  intros Ha Hf Hrm. set (Wd := if b64 then 64 else 32). pose proof (arith_ok F HF) as Hok. pose proof Hok as [HP10 HE HW H64 _]. destruct (top_exp_bounds F Hok) as [T1 T2].
  pose proof (fixed_of_ok Wd u rm fbits a) as Hfl. set (r := fixed_of Wd u rm fbits a) in *. unfold fplibFPToFixed.
  cut (forall s e m fl, unpack F a mode 0 = (s, e, m, fl) -> (if nan_parts F e m then Ok (0, FPLIB_IOC) else
    (if b64 then FPToFixed_64 else FPToFixed_32) s (e + 1023 - (2 ^ (f_E F - 1) - 1) + fbits) (u64 (Z.shiftl m (52 - f_P F))) u rm fl) = Ok r).
  { intros H. destruct (unpack F a mode 0) as [[[s e] m] fl]. rewrite (H s e m fl eq_refl). cbn [mbind res_bind]. clearbody r. destruct r as [x f]. unfold raised. cbn [fst snd] in *. by rewrite set_fpscr0_raised. }
  intros s e m fl Eu. destruct (Z.le_gt_cases (inf_mag F) (mag_of F a)) as [Hsp|Hfin].
  - destruct (unpack_special a 0 Ha Hsp) as (m' & Eu' & En & Hm' & _). rewrite Eu' in Eu. injection Eu as <- <- <- <-. rewrite En. unfold r, fixed_of.
    destruct (Z.ltb_spec (inf_mag F) (mag_of F a)); [done|]. rewrite (proj2 (Z.eqb_eq (mag_of F a) _)) by lia.
    apply (FPToFixed_sat b64); [by apply (fields F Hok a)|]. destruct arith_fields as [(_ & -> & ->)|(_ & -> & ->)]; [change (2 ^ (8 - 1)) with 128|change (2 ^ (11 - 1)) with 1024]; lia.
  - unfold r, fixed_of. rewrite (proj2 (Z.ltb_ge _ _)), (proj2 (Z.eqb_neq (mag_of F a) _)) by lia.
    destruct (unpack_finite F Hok mode a 0 (conj Ha Hfin)) as (s' & e' & m' & fl' & [Eu' [Es Hs] He [Hm Hm2] Hv Hflg]). rewrite Eu' in Eu. injection Eu as <- <- <- <-.
    unfold nan_parts. rewrite finite_exp_top by done. cbn [andb]. rewrite <- Es, <- Hflg.
    assert (f_P F <= 52) as HP52 by (destruct arith_fields as [(-> & _)|(-> & _)]; lia). rewrite Z.shiftl_mul_pow2 by lia.
    pose proof (pow2_pos (52 - f_P F) ltac:(lia)) as Hp52. assert (2 ^ (f_P F + 1) * 2 ^ (52 - f_P F) = 2 ^ 53) as E53 by (rewrite <- Z.pow_add_r by lia; f_equal; lia).
    assert (2 ^ f_P F * 2 ^ (52 - f_P F) = 2 ^ 52) as E52 by (rewrite <- Z.pow_add_r by lia; f_equal; lia).
    assert (0 <= m' * 2 ^ (52 - f_P F) < 2 ^ 53) as Hmb by nia. rewrite (wrap_u_id 64 (m' * 2 ^ (52 - f_P F))) by lia.
    set (exp := e' + 1023 - (2 ^ (f_E F - 1) - 1) + fbits). assert (- 2 ^ 30 < exp < 2 ^ 30 /\ (exp <= 1086 \/ e' <> 1)) as [Hexp Hbig].
    { unfold exp. destruct arith_fields as [(_ & -> & ET)|(_ & -> & ET)]; rewrite ET in He; [change (2 ^ (8 - 1)) with 128|change (2 ^ (11 - 1)) with 1024]; lia. }
    assert (Qabs (in_val F mode a) * pow2 fbits == inject_Z (m' * 2 ^ (52 - f_P F)) * pow2 (exp - 1075))%Q as Ex.
    { assert (0 <= inject_Z m' * pow2 (e' - 1) * ulp F)%Q as Hpos.
      { pose proof (pow2_pos_Q (e' - 1)). pose proof (ulp_pos F). apply Qmult_le_0_compat; [apply Qmult_le_0_compat|]; try lra. change 0%Q with (inject_Z 0). rewrite <- Zle_Qle. lia. }
      assert (Qabs (in_val F mode a) == inject_Z m' * pow2 (e' - 1) * ulp F)%Q as ->.
      { rewrite Hv. unfold signed. destruct (nz s'); [rewrite Qabs_opp|]; by apply Qabs_pos. }
      unfold ulp. rewrite inject_Z_mult, <- (pow2_inject (52 - f_P F)), <- !Qmult_assoc, <- !pow2_plus by lia. do 2 f_equiv. unfold exp. lia. }
    assert (exp <= 1086 \/ 2 ^ 52 <= m' * 2 ^ (52 - f_P F)) as Hbig2 by (destruct Hbig; [by left|]; destruct Hm2; [done|right; nia]).
    unfold Wd. destruct b64; [rewrite FPToFixed_64_ok by done|rewrite FPToFixed_32_ok by done]; f_equal; symmetry; by apply to_fixed_proper.
Qed.
End ToFixed.
