(* ===== verification/FpRoundInt.v ===== *)
(** The rounding of [Fplib] to an integer in floating point. *)
From Stdlib Require Import QArith Qpower Qround Qabs Lqa.
From S2P Require Import Prelude Fplib FpSpec FpRound FpArith FpMul FpNearest FpOps FpConvert.
#[local] Open Scope Z_scope.

Section RoundInt.
Context (F : Format) (HF : arith F).
Local Abbreviation W := (f_W F).
Local Abbreviation P := (f_P F).

(** The integer part and the lost bits of a significand shifted right by [k]. *)
Lemma int_parts m k : 0 < m < 2 ^ (P + 1) -> 1 <= k ->
  let x := if W <=? k then 0 else Z.shiftr m k in
  let err := if W <? k then 1 else Z.lor (Z.land (Z.shiftr (wrap_u W (Z.shiftl m 1)) (k - 1)) 3) (Z.b2z (nz (wrap_u W (Z.shiftl (wrap_u W (Z.shiftl m 2)) (W - k))))) in
  x = Z.shiftr (jam (m * 4) k) 2 /\ err = Z.land (jam (m * 4) k) 3.
Proof.
  intros Hm Hk x err. pose proof (arith_ok F HF) as Hok. pose proof Hok as [HP10 HE HW H64 _]. assert (2 ^ (P + 3) <= 2 ^ W) as HPW by (apply Z.pow_le_mono_r; lia).
  rewrite Z.pow_add_r in HPW, Hm by lia. change (2 ^ 3) with 8 in HPW. change (2 ^ 1) with 2 in Hm. pose proof (pow2_pos P ltac:(lia)) as HpP.
  destruct (jam_quarters (m * 4) k) as [-> ->]. change 4 with (2 ^ 2) at 1 2. rewrite <- (Z.shiftl_mul_pow2 m 2) by lia.
  unfold x, err. split.
  - destruct (Z.leb_spec W k) as [H|H].
    + rewrite !Z.shiftr_div_pow2, Z.shiftl_mul_pow2 by lia. change (2 ^ 2) with 4. pose proof (Z.pow_le_mono_r 2 W k ltac:(lia) ltac:(lia)). rewrite (Z.div_small (m * 4)) by lia. done.
    + rewrite Z.shiftr_shiftr, Z.add_comm, <- Z.shiftr_shiftr by lia. by rewrite Z.shiftr_shiftl_l, Z.sub_diag, Z.shiftl_0_r by lia.
  - destruct (Z.ltb_spec W k) as [H|H].
    + rewrite Z.shiftr_div_pow2, Z.shiftl_mul_pow2 by lia. change (2 ^ 2) with 4. pose proof (Z.pow_lt_mono_r 2 W k ltac:(lia) ltac:(lia)). rewrite Z.div_small, Z.mod_small by lia. unfold nz. by rewrite (proj2 (Z.eqb_neq _ 0)) by lia.
    + rewrite !Z.shiftl_mul_pow2 by lia. change (2 ^ 2) with 4. change (2 ^ 1) with 2. rewrite (wrap_u_id W (m * 2)), (wrap_u_id W (m * 4)) by lia. f_equal.
      * f_equal. replace (m * 4) with (m * 2 * 2) by ring. rewrite !Z.shiftr_div_pow2 by lia. replace k with (k - 1 + 1) at 2 by lia. rewrite Z.pow_add_r by lia. change (2 ^ 1) with 2. rewrite Z.div_mul_cancel_r by (try apply Z.pow_nonzero; lia). done.
      * f_equal. apply nz_ext. rewrite <- (Z.shiftl_mul_pow2 _ (W - k)) by lia. apply low_bits. lia.
Qed.

(** A rounded integer part as a number. *)
Lemma int_number s n : s = 0 \/ s = 1 -> 0 <= n <= 2 ^ P -> let int_exp := 2 ^ (f_E F - 1) - 1 + P in
  let r := if n =? 0 then zero F s else let '(mnt, exp) := normalise F n int_exp in pack F s (exp + (W - 1 - P)) (Z.shiftr mnt (W - 1 - P)) in
  finite F r /\ (val F r == signed s (inject_Z n))%Q /\ sign_of F r = s.
Proof.
  intros Hs Hn int_exp r. unfold r. pose proof (arith_ok F HF) as Hok. pose proof Hok as [HP10 HE HW H64 _]. pose proof (pow2_pos P ltac:(lia)) as HpP. destruct (top_exp_bounds F Hok) as [T1 T2].
  destruct (Z.eqb_spec n 0) as [->|Hn0].
  - rewrite (pack_zero F Hok) by lia. assert (0 < inf_mag F) as Hinf by (unfold inf_mag; apply Z.mul_pos_pos; lia). destruct (with_sign_number F Hok s 0 Hs ltac:(lia)) as (H1 & H2 & H3). split; [done|]. split; [|done]. rewrite H2.
    apply signed_proper. unfold mag_value. rewrite (proj2 (Z.ltb_lt _ _)) by done. change (inject_Z 0) with 0%Q. ring.
  - assert (2 ^ (P + 3) <= 2 ^ W) as HPW by (apply Z.pow_le_mono_r; lia). rewrite Z.pow_add_r in HPW by lia. change (2 ^ 3) with 8 in HPW.
    destruct (normalise_ok F n int_exp HF ltac:(lia)) as (sh & -> & Hsh & Hnorm). set (c := W - 1 - P).
    assert (c <= sh) as Hc.
    { unfold c. assert (W - 1 < P + 1 + sh) as H; [|lia]. apply (Z.pow_lt_mono_r_iff 2); [lia|lia|]. rewrite (Z.pow_add_r 2 (P + 1) sh), (Z.pow_add_r 2 P 1) by lia. change (2 ^ 1) with 2. pose proof (pow2_pos sh ltac:(lia)) as Hps.
      pose proof (proj1 (Z.mul_lt_mono_pos_r (2 ^ sh) n (2 ^ P * 2) Hps) ltac:(lia)). lia. }
    assert (Z.shiftr (n * 2 ^ sh) c = n * 2 ^ (sh - c)) as ->.
    { rewrite Z.shiftr_div_pow2 by (unfold c; lia). replace sh with (sh - c + c) at 1 by lia. rewrite Z.pow_add_r, Z.mul_assoc by (unfold c; lia). apply Z.div_mul. apply Z.pow_nonzero; unfold c; lia. }
    set (M := n * 2 ^ (sh - c)). assert (2 ^ P <= M < 2 ^ (P + 1)) as HM.
    { assert (n * 2 ^ sh = M * 2 ^ c) as EM by (unfold M; rewrite <- Z.mul_assoc, <- Z.pow_add_r by (unfold c; lia); do 2 f_equal; lia). rewrite EM in Hnorm.
      pose proof (pow2_pos c ltac:(unfold c; lia)) as Hpc. split.
      - apply (Z.mul_le_mono_pos_r _ _ (2 ^ c) Hpc). rewrite <- Z.pow_add_r by (unfold c; lia). replace (P + c) with (W - 1) by (unfold c; lia). lia.
      - apply (Z.mul_lt_mono_pos_r (2 ^ c) _ _ Hpc). rewrite <- Z.pow_add_r by (unfold c; lia). replace (P + 1 + c) with W by (unfold c; lia). lia. }
    assert (1 <= int_exp - sh + c < top_exp F) as HEx.
    { assert (sh <= W - 1) by lia. unfold int_exp, c. destruct (arith_fields F HF) as [(EP & EE & ->)|(EP & EE & ->)]; rewrite EE, EP in *; [change (2 ^ (8 - 1)) with 128|change (2 ^ (11 - 1)) with 1024]; lia. }
    destruct (pack_number F Hok s (int_exp - sh + c) M Hs HEx HM) as (H1 & H2 & H3). split; [done|]. split; [|done]. rewrite H2. apply signed_proper.
    unfold M, ulp. rewrite inject_Z_mult, <- (pow2_inject (sh - c)), <- !Qmult_assoc, <- !pow2_plus by lia. replace (sh - c + (int_exp - sh + c - 1 + (2 - 2 ^ (f_E F - 1) - P))) with 0 by (unfold int_exp; lia). change (pow2 0) with 1%Q. ring.
Qed.

(** The number, its rounding and its flags. *)
Definition rounded_int (mode rm : Z) (ex : bool) (a r flags : Z) : Prop :=
  let x := Qabs (in_val F mode a) in let fl := in_flags F mode a 0 in
  finite F r /\ (val F r == signed (sign_of F a) (inject_Z (round_int rm (nz (sign_of F a)) x)))%Q /\ sign_of F r = sign_of F a /\
    flags = if negb (is_integer x) && ex then Z.lor fl FPLIB_IXC else fl.

Lemma whole_int mode rm ex a (z : Z) : finite F a -> (Qabs (in_val F mode a) == inject_Z z)%Q -> forall r, finite F r -> sign_of F r = sign_of F a -> (val F r == in_val F mode a)%Q ->
  rounded_int mode rm ex a r (in_flags F mode a 0).
Proof.
  intros Ha Ez r Hr Hs Hv. assert (Qfloor (Qabs (in_val F mode a)) = z) as Ef by (by rewrite (Qfloor_comp _ _ Ez), Qfloor_Z).
  unfold rounded_int. split; [done|]. split; [|split; [done|]].
  - rewrite Hv, round_int_whole, Ef, <- Ez by (by rewrite Ef). destruct (unpack_finite F (arith_ok F HF) mode a 0 Ha) as (s & e & m & fl & [_ [Es Hsg] _ [Hm _] Hval _]). rewrite <- Es, Hval.
    assert (0 <= inject_Z m * pow2 (e - 1) * ulp F)%Q as Hp.
    { pose proof (ulp_pos F). pose proof (pow2_pos_Q (e - 1)). repeat apply Qmult_le_0_compat; try lra. change 0%Q with (inject_Z 0). rewrite <- Zle_Qle. lia. }
    unfold signed. destruct (nz s); [rewrite Qabs_opp|]; rewrite Qabs_pos by done; reflexivity.
  - unfold is_integer. rewrite Ef, (Qeq_bool_true _ _ Ez). done.
Qed.

Lemma round_int_ok a rm ex fpscr : finite F a -> 0 <= rm <= 4 -> let mode := modeConv fpscr in
  exists r flags, fplibRoundInt F a rm ex fpscr = Ok (r, Z.lor fpscr flags) /\ rounded_int mode rm ex a r flags.
Proof.
  intros Ha Hrm mode. pose proof (arith_ok F HF) as Hok. pose proof Hok as [HP10 HE HW H64 _]. pose proof (pow2_pos P ltac:(lia)) as HpP. destruct (top_exp_bounds F Hok) as [T1 T2].
  destruct (unpack_finite F Hok mode a 0 Ha) as (s & e & m & fl & [Eu [Es Hs] He [Hm Hm2] Hv Hfl]). set (int_exp := 2 ^ (f_E F - 1) - 1 + P).
  cut (exists r flags, (if m =? 0 then Ok (zero F s, fl) else if int_exp <=? e then Ok (a, fl) else
     let x := if W <=? int_exp - e then 0 else Z.shiftr m (int_exp - e) in
     let err := if e <? int_exp - W then 1 else Z.lor (Z.land (Z.shiftr (wrap_u W (Z.shiftl m 1)) (int_exp - 1 - e)) 3) (Z.b2z (nz (wrap_u W (Z.shiftl (wrap_u W (Z.shiftl m 2)) (e - (int_exp - W)))))) in
     inc ← round_switch rm s x err; let x := wrap_u W (x + inc) in
     Ok (if x =? 0 then zero F s else let '(mnt, exp) := normalise F x int_exp in pack F s (exp + (W - 1 - P)) (Z.shiftr mnt (W - 1 - P)), if nz err && ex then Z.lor fl FPLIB_IXC else fl)) = Ok (r, flags)
    /\ rounded_int mode rm ex a r flags).
  { intros (r & flags & E & Hr). exists r, flags. split; [|done]. unfold fplibRoundInt. cbv zeta in *. fold mode. rewrite Eu. unfold nan_parts. rewrite finite_exp_top by done. cbn [andb]. fold int_exp. rewrite E. cbn [mbind res_bind].
    rewrite set_fpscr0_raised; [done|]. destruct Hr as (_ & _ & _ & ->). pose proof (in_flags_ok F mode a 0 eq_refl). clear E. destruct (_ && ex); [by apply flags_lor|done]. }
  assert (Qabs (in_val F mode a) == inject_Z m * pow2 (e - 1) * ulp F)%Q as Ex.
  { assert (0 <= inject_Z m * pow2 (e - 1) * ulp F)%Q as Hp.
    { pose proof (ulp_pos F). pose proof (pow2_pos_Q (e - 1)). repeat apply Qmult_le_0_compat; try lra. change 0%Q with (inject_Z 0). rewrite <- Zle_Qle. lia. }
    rewrite Hv. unfold signed. destruct (nz s); [rewrite Qabs_opp|]; by rewrite Qabs_pos. }
  assert (Qabs (in_val F mode a) == inject_Z m * pow2 (- (int_exp - e)))%Q as Ey by (rewrite Ex; unfold ulp; rewrite <- Qmult_assoc, <- pow2_plus; do 2 f_equiv; unfold int_exp; lia).
  destruct (Z.eqb_spec m 0) as [->|Hm0].
  { exists (zero F s), fl. split; [done|]. rewrite Hfl. destruct (int_number s 0 Hs ltac:(lia)) as (H1 & H2 & H3). change (0 =? 0) with true in H1, H2, H3. cbn match in H1, H2, H3. apply (whole_int mode rm ex a 0 Ha); [rewrite Ey; change (inject_Z 0) with 0%Q; ring|done|by rewrite H3|].
    rewrite H2, Hv. apply signed_proper. change (inject_Z 0) with 0%Q. ring. }
  destruct (Z.leb_spec int_exp e) as [Hbig|Hsmall].
  { exists a, fl. split; [done|]. rewrite Hfl. apply (whole_int mode rm ex a (m * 2 ^ (e - int_exp)) Ha); [|done|done|].
    - rewrite Ey, inject_Z_mult, <- pow2_inject by lia. by replace (- (int_exp - e)) with (e - int_exp) by lia.
    - unfold in_val in Ey |- *. destruct (flushed F mode a); [|reflexivity]. exfalso. change (Qabs 0) with 0%Q in Ey. assert (0 < inject_Z m * pow2 (- (int_exp - e)))%Q as Hp; [|lra].
      apply Qmult_lt_0_compat; [|apply pow2_pos_Q]. change 0%Q with (inject_Z 0). rewrite <- Zlt_Qlt. lia. }
  cbv zeta. set (k := int_exp - e) in *. replace (int_exp - 1 - e) with (k - 1) by (unfold k; lia). replace (e - (int_exp - W)) with (W - k) by (unfold k; lia).
  assert ((e <? int_exp - W) = (W <? k)) as -> by (unfold k; destruct (Z.ltb_spec e (int_exp - W)), (Z.ltb_spec W (int_exp - e)); (done || lia)).
  destruct (int_parts m k ltac:(lia) ltac:(unfold k; lia)) as [Ix ->]. rewrite Ix.
  assert (0 <= Z.shiftr (jam (m * 4) k) 2 <= 2 ^ P - 1) as Hx.
  { rewrite <- Ix. destruct (W <=? k); [lia|]. rewrite Z.shiftr_div_pow2 by (unfold k; lia). rewrite Z.pow_add_r in Hm by lia. change (2 ^ 1) with 2 in Hm. pose proof (pow2_pos k ltac:(unfold k; lia)).
    split; [apply Z.div_pos; lia|]. assert (m / 2 ^ k < 2 ^ P); [|lia]. apply Z.div_lt_upper_bound; [done|]. pose proof (Z.pow_le_mono_r 2 1 k ltac:(lia) ltac:(unfold k; lia)). change (2 ^ 1) with 2 in *.
    pose proof (Z.mul_le_mono_nonneg_r 2 (2 ^ k) (2 ^ P) ltac:(lia) ltac:(lia)). lia. }
  clear Ix. set (Q := jam (m * 4) k). assert (0 <= Q) as HQ by (apply jam_nonneg; lia).
  assert (sticky Q (Qabs (in_val F mode a) * 4)) as HQs.
  { assert (Qabs (in_val F mode a) * 4 == inject_Z (m * 4) * pow2 (- k))%Q as -> by (rewrite Ey, inject_Z_mult; change (inject_Z 4) with 4%Q; ring). apply sticky_jam; [unfold k; lia|by left]. }
  destruct (round_switch_ok Q _ rm s HQ HQs Hrm) as (inc & -> & Hinc & Hinc0 & Eri & Eint & Efl). cbn [mbind res_bind].
  fold Q in Hx. set (n := Z.shiftr Q 2 + inc) in *. assert (2 ^ P < 2 ^ W) as HPW by (apply Z.pow_lt_mono_r; lia). assert (0 <= n <= 2 ^ P) as Hn by (unfold n; lia).
  rewrite (wrap_u_id W n) by lia. destruct (int_number s n Hs Hn) as (H1 & H2 & H3). fold int_exp in H1, H2, H3. eexists _, _. split; [reflexivity|]. unfold rounded_int. rewrite <- Es.
  split; [exact H1|]. split; [|split; [exact H3|]].
  - rewrite H2. apply signed_proper. by rewrite Eri.
  - by rewrite Eint, negb_involutive, <- Hfl.
Qed.
End RoundInt.
