(* ===== verification/FpFormats.v ===== *)
(** The conversions of [Fplib] between formats: to a narrower format a number
    is rounded, to a wider one it is kept. *)
From Stdlib Require Import QArith Qpower Qround Qabs Lqa.
From S2P Require Import Prelude Fplib FpSpec FpRound FpArith FpMul FpNearest FpOps FpConvert.
#[local] Open Scope Z_scope.

(** The pairs of a format and a wider one. *)
Definition wider (F G : Format) : Prop := F = F32 /\ G = F64 \/ F = F16 /\ G = F32 \/ F = F16 /\ G = F64.

Lemma wider_ok F G : wider F G -> fmt_ok F /\ fmt_ok G.
Proof. intros [[-> ->]|[[-> ->]|[-> ->]]]; auto. Qed.

Lemma normalise_any F n exp : F = F16 \/ arith F -> 0 < n < 2 ^ f_W F -> exists sh, normalise F n exp = (n * 2 ^ sh, exp - sh) /\ normal (f_W F) n sh.
Proof. intros [-> |HF] Hn; [by apply fp16_normalise_ok|by apply normalise_ok]. Qed.

Lemma finite_not_nan F e m : 1 <= e < top_exp F -> nan_parts F e m = false.
Proof. intros He. unfold nan_parts. by rewrite finite_exp_top. Qed.

(** The sizes of a pair of formats. *)
Lemma wider_sizes F G : wider F G -> f_W F <= f_P G + 1 /\ 2 + f_W F <= f_W G /\ 0 <= f_P G - f_W F /\ f_half G = false /\ f_E F < f_E G /\
  (let bF := 2 ^ (f_E F - 1) - 1 in let bG := 2 ^ (f_E G - 1) - 1 in f_P F + 3 < bG - bF /\ top_exp F + bG - bF < top_exp G /\ 0 < bG /\ 0 <= bF).
Proof. intros [[-> ->]|[[-> ->]|[-> ->]]]; cbv zeta; split_and!; first [reflexivity|vm_compute; discriminate]. Qed.

(** * To a wider format *)

Section Wider.
Context (F G : Format) (HFG : wider F G).
Local Abbreviation bias H := (2 ^ (f_E H - 1) - 1).

Lemma convert_wider_finite a rounding fpscr : finite F a ->
  exists c, convert_wider F G a rounding fpscr = (c, Z.lor fpscr (in_flags F (modeConv fpscr) a 0)) /\ finite G c /\ (val G c == in_val F (modeConv fpscr) a)%Q /\ sign_of G c = sign_of F a.
Proof.
  intros Ha. destruct (wider_ok F G HFG) as [HF HG]. destruct (wider_sizes F G HFG) as (Z1 & Z2 & Z3 & _ & ZE & Z4 & Z5 & Z6 & Z7).
  destruct (unpack_finite F HF (modeConv fpscr) a 0 Ha) as (s & e & m & fl & [Eu [Es Hs] He [Hm Hm2] Hv Hfl]). unfold convert_wider. rewrite Eu.
  rewrite finite_not_nan, finite_exp_top by done. cbn [andb]. rewrite <- Es.
  cut (exists c, (if m =? 0 then (zero G s, fl) else let '(mnt, exp) := normalise F m e in (pack G s (exp - bias F + bias G + (f_W F - 1 - f_P F)) (wrap_u (f_W G) (Z.shiftl mnt (f_P G + 1 - f_W F))), fl)) = (c, fl)
    /\ finite G c /\ (val G c == in_val F (modeConv fpscr) a)%Q /\ sign_of G c = s).
  { intros (c & -> & Hc). exists c. rewrite <- Hfl, set_fpscr0_raised; [done|]. rewrite Hfl. by apply in_flags_ok. }
  destruct (W_split G HG) as (GW & GP & GW2). destruct (top_exp_bounds G HG) as [GT GT2]. pose proof HF as [HP10 HE5 HW _ _]. pose proof HG as [GP10 GE5 GWW _ _].
  destruct (Z.eqb_spec m 0) as [->|Hm0].
  { assert (0 < inf_mag G) as Hinf by (unfold inf_mag; apply Z.mul_pos_pos; lia). exists (with_sign G s 0). rewrite (pack_zero G HG) by lia. destruct (with_sign_number G HG s 0 Hs ltac:(lia)) as (Hfin & Hval & Hsg). split; [done|]. split; [done|]. split; [|done]. rewrite Hval, Hv.
    assert (mag_value G 0 = 0) as -> by (unfold mag_value; by rewrite (proj2 (Z.ltb_lt _ _)) by done). assert (inject_Z 0 * ulp G == 0)%Q as E1 by ring. assert (inject_Z 0 * pow2 (e - 1) * ulp F == 0)%Q as E2 by ring.
    by rewrite E1, E2. }
  assert (2 ^ (f_P F + 1) <= 2 ^ f_W F) as HPW by (apply Z.pow_le_mono_r; lia).
  destruct (normalise_any F m e) as (sh & -> & Hsh & Hn); [destruct HFG as [[-> _]|[[-> _]|[-> _]]]; [by right; left|by left|by left]|lia|].
  set (k := f_P G + 1 - f_W F). set (E := e - sh - bias F + bias G + (f_W F - 1 - f_P F)).
  assert (1 <= E < top_exp G) as HE.
  { assert (sh <= f_W F - 1 - (if e =? 1 then 0 else f_P F)) as Hsh2.
    { destruct (Z.eqb_spec e 1); [lia|]. destruct Hm2 as [|Hm2]; [done|]. assert (f_P F + sh < f_W F) as H; [|lia]. apply (Z.pow_lt_mono_r_iff 2); [lia|lia|]. rewrite Z.pow_add_r by lia. pose proof (pow2_pos sh ltac:(lia)). pose proof (Z.mul_le_mono_nonneg_r (2 ^ f_P F) m (2 ^ sh) ltac:(lia) Hm2). lia. }
    assert (f_W F - 1 - f_P F <= sh) as Hsh3.
    { assert (f_W F - 1 < f_P F + 1 + sh) as H; [|lia]. apply (Z.pow_lt_mono_r_iff 2); [lia|lia|]. rewrite (Z.pow_add_r 2 (f_P F + 1) sh) by lia. pose proof (pow2_pos sh ltac:(lia)) as Hps. pose proof (proj1 (Z.mul_lt_mono_pos_r (2 ^ sh) m (2 ^ (f_P F + 1)) Hps) (proj2 Hm)). lia. }
    unfold E. destruct (Z.eqb_spec e 1); lia. }
  assert (0 <= k) as Hk by (unfold k; lia). pose proof (pow2_pos k Hk) as Hpk. set (M := m * 2 ^ sh * 2 ^ k).
  assert (2 ^ f_P G <= M < 2 * 2 ^ f_P G) as HM.
  { assert (2 ^ (f_W F - 1) * 2 ^ k = 2 ^ f_P G) as E1 by (rewrite <- Z.pow_add_r by lia; f_equal; unfold k; lia). assert (2 ^ f_W F = 2 * 2 ^ (f_W F - 1)) as E2 by (apply pow2_double; lia). unfold M. rewrite <- E1. destruct Hn as [Hn1 Hn2]. rewrite E2 in Hn2. rewrite Z.mul_assoc. split; [apply Z.mul_le_mono_nonneg_r; lia|apply Z.mul_lt_mono_pos_r; lia]. }
  rewrite Z.shiftl_mul_pow2 by lia. fold M. assert (2 ^ f_E G >= 4) as HE4 by (pose proof (Z.pow_le_mono_r 2 5 (f_E G)); lia). assert (2 ^ f_W G >= 8 * 2 ^ f_P G) as HWG by (rewrite GW2, GW; pose proof (Z.mul_le_mono_nonneg_r 4 (2 ^ f_E G) (2 ^ f_P G) ltac:(lia) ltac:(lia)); lia).
  rewrite (wrap_u_id (f_W G) M) by lia.
  destruct (pack_number G HG s E M Hs HE) as (Hfin & Hval & Hsg); [rewrite Z.pow_add_r by lia; lia|]. eexists. split; [reflexivity|]. split; [done|]. split; [|done]. rewrite Hval, Hv.
  apply signed_proper. unfold M, ulp. rewrite !inject_Z_mult, <- !pow2_inject, <- !Qmult_assoc, <- !pow2_plus by lia. do 2 f_equiv. unfold E, k. lia.
Qed.
End Wider.

(** * To a narrower format *)

(** A number in a format, with its sign if it is zero. *)
Definition narrowed (G : Format) (rm mode s : Z) (v : Q) (flags : Z) : Z * Z :=
  if Qeq_bool v 0 then (with_sign G s 0, flags) else spec_round G rm mode (Z.b2z (negb (Qle_bool 0 v))) (Qabs v / ulp G) flags.

Lemma narrowed_ok G rm mode s v flags : flags_ok flags -> flags_ok (snd (narrowed G rm mode s v flags)).
Proof. intros H. unfold narrowed. destruct (Qeq_bool v 0); [done|by apply spec_round_ok]. Qed.

Lemma jam_ge n j : 0 <= j -> n / 2 ^ j <= jam n j.
Proof. intros Hj. unfold jam. rewrite Z.shiftr_div_pow2 by lia. destruct (nz _); cbn [Z.b2z]; [rewrite lor_1; destruct (Z.even _); cbn [Z.b2z]; lia|by rewrite Z.lor_0_r]. Qed.
Lemma jam_one n j : 0 <= j -> 0 < n < 2 ^ j -> jam n j = 1.
Proof. intros Hj Hn. unfold jam. rewrite Z.shiftr_div_pow2, Z.div_small, Z.mod_small by lia. unfold nz. by rewrite (proj2 (Z.eqb_neq n 0)) by lia. Qed.

Section Narrower.
Context (F G : Format) (HFG : wider G F).
Local Abbreviation bias H := (2 ^ (f_E H - 1) - 1).

(** The bits that are dropped are collapsed into the last one. *)
Lemma narrow_mant_jam m : 0 <= m < 2 ^ (f_P F + 1) -> narrow_mant F G m = wrap_u (f_W G) (jam m (f_P F - f_W G)).
Proof.
  intros Hm. destruct (wider_sizes G F HFG) as (_ & Z2 & Z3 & _). destruct (wider_ok G F HFG) as [HG HF]. pose proof HF as [HP10 HE5 HW _ _]. pose proof HG as [GP10 GE5 GWW _ _]. unfold narrow_mant, jam. cbv zeta. do 3 f_equal. apply nz_ext, low_bits. lia.
Qed.

(** Rounding to [G] of an operand of format [F]. *)
Lemma round_narrow s e m rm mode flags (v : Q) : s = 0 \/ s = 1 -> 0 < m < 2 ^ (f_P F + 1) -> 1 <= e < top_exp F -> e = 1 \/ 2 ^ f_P F <= m -> rm <> FPRounding_TIEAWAY ->
  (v == signed s (inject_Z m * pow2 (e - 1) * ulp F))%Q -> round_ G s (e - bias F + bias G) (narrow_mant F G m) rm mode flags = Ok (narrowed G rm mode s v flags).
Proof.
  intros Hs Hm He Hm2 Hrm Hv. destruct (wider_sizes G F HFG) as (Z1 & Z2 & Z3 & _ & _ & Z4 & Z5 & Z6 & Z7). destruct (wider_ok G F HFG) as [HG HF]. pose proof HF as [HP10 HE5 HW H64 _]. pose proof HG as [GP10 GE5 GWW _ _].
  pose proof (ulp_pos F) as Hu. pose proof (ulp_pos G) as HuG. pose proof (pow2_pos_Q (e - 1)) as Hpe. set (X := (inject_Z m * pow2 (e - 1) * ulp F)%Q) in *.
  assert (0 < X)%Q as HX by (unfold X; repeat apply Qmult_lt_0_compat; try done; change 0%Q with (inject_Z 0); rewrite <- Zlt_Qlt; lia).
  destruct (signed_abs s v X Hs HX Hv) as (Ea & Esg & E0). unfold narrowed. rewrite E0, Esg. pose proof (pow2_pos (f_W G) ltac:(lia)) as HpW.
  rewrite narrow_mant_jam by lia. set (c := f_P F - f_W G) in *. set (mnt := wrap_u (f_W G) (jam m c)). assert (0 <= mnt < 2 ^ f_W G) as Hmnt by (by apply Z.mod_pos_bound).
  apply round_correct; [done|lia| |done|]. { assert (top_exp F < 2 ^ 30) by (destruct (top_exp_bounds F HF) as [_ T]; pose proof (Z.pow_le_mono_r 2 (f_E F) 11); lia). destruct (top_exp_bounds G HG). lia. }
  assert (Qabs v / ulp G == inject_Z m * pow2 (e - bias F + bias G - 1 - f_P F + f_P G))%Q as EX.
  { rewrite Ea. unfold X, ulp, Qdiv. rewrite <- (Qmult_assoc (inject_Z m)), <- pow2_plus, <- Qmult_assoc. f_equiv. unfold pow2 at 2. rewrite <- Qpower_opp. fold (pow2 (- (2 - 2 ^ (f_E G - 1) - f_P G))).
    rewrite <- pow2_plus. f_equiv. lia. }
  destruct Hm2 as [->|Hbig].
  - (* far below the numbers of the narrower format *)
    split; [done|]. set (x := (Qabs v / ulp G)%Q) in *. rewrite Z.max_l by lia. change (pow2 (- 0)) with 1%Q.
    assert (quarters G (1 - bias F + bias G) mnt = 1) as ->.
    { unfold quarters. pose proof (collapsed_bounds G HG mnt Hmnt) as Hc. pose proof (pow2_pos (f_P G + 2) ltac:(lia)). apply jam_one; [lia|].
      pose proof (Z.pow_le_mono_r 2 (f_P G + 3) (Z.max 0 (1 - (1 - bias F + bias G))) ltac:(lia) ltac:(lia)). lia. }
    right. split; [done|]. assert (0 < x)%Q as Hx0 by (unfold x; apply Qlt_shift_div_l; [done|]; rewrite Qmult_0_l, Ea; done). split; [change (inject_Z (1 - 1)) with 0%Q; lra|].
    assert (x < pow2 (-1))%Q as Hx1; [|change (pow2 (-1)) with (1 # 2)%Q in Hx1; change (inject_Z (1 + 1)) with 2%Q; lra].
    rewrite EX. set (t := 1 - bias F + bias G - 1 - f_P F + f_P G). pose proof (pow2_pos_Q t) as Hpt. apply (Qlt_le_trans _ (pow2 (f_P F + 1) * pow2 t)).
    + apply Qmult_lt_r; [done|]. rewrite pow2_inject, <- Zlt_Qlt by lia. lia.
    + rewrite <- pow2_plus. apply pow2_le. unfold t. lia.
  - apply (represents_intro G HG _ _ m 0 c _ (inject_Z m)); [done|lia|unfold c; lia| |left; reflexivity|].
    + rewrite Z.pow_0_r, Z.mul_1_r. unfold mnt. assert (2 ^ f_W G <= jam m c < 2 ^ (f_W G + 1)) as Hj.
      { split.
        - pose proof (jam_ge m c ltac:(unfold c; lia)). assert (2 ^ f_W G <= m / 2 ^ c); [|lia]. apply Z.div_le_lower_bound; [apply pow2_pos; unfold c; lia|]. rewrite <- Z.pow_add_r by (unfold c; lia). by replace (c + f_W G) with (f_P F) by (unfold c; lia).
        - destruct (jam_bound m (f_P F + 1) c) as [Hb|[? _]]; [unfold c; lia|lia| |unfold c in *; lia]. replace (f_P F + 1 - c) with (f_W G + 1) in Hb by (unfold c; lia). lia. }
      rewrite Z.pow_add_r in Hj by lia. assert (wrap_u (f_W G) (jam m c) = jam m c - 2 ^ f_W G) as ->; [|lia]. symmetry. apply (Z.mod_unique_pos _ _ 1); lia.
    + rewrite EX. do 2 f_equiv. unfold c. lia.
Qed.

(** The common part of the conversions. *)
Lemma narrow_finite a rm mode mode' : finite F a -> rm <> FPRounding_TIEAWAY -> let '(s, e, m, fl) := unpack F a mode 0 in
  nan_parts F e m = false /\ (e =? top_exp F) = false /\
  (if m =? 0 then Ok (zero G s, fl) else round_ G s (e - bias F + bias G) (narrow_mant F G m) rm mode' fl) =
  Ok (narrowed G rm mode' (sign_of F a) (in_val F mode a) (in_flags F mode a 0)).
Proof.
  intros Ha Hrm. destruct (wider_ok G F HFG) as [HG HF]. destruct (unpack_finite F HF mode a 0 Ha) as (s & e & m & fl & [-> [Es Hs] He [Hm Hm2] Hv Hfl]).
  split; [by apply finite_not_nan|]. split; [by apply finite_exp_top|]. rewrite <- Es, <- Hfl. destruct (Z.eqb_spec m 0) as [->|Hm0]; [|apply round_narrow; (done || lia)].
  rewrite (pack_zero G HG) by lia. unfold narrowed. rewrite Qeq_bool_true; [done|]. rewrite Hv. apply signed_0. change (inject_Z 0) with 0%Q. ring.
Qed.

Lemma convert_to_single_finite a rm fpscr : finite F a -> rm <> FPRounding_TIEAWAY ->
  convert_to_single F G a rm fpscr = Ok (raised fpscr (narrowed G rm (modeConv fpscr) (sign_of F a) (in_val F (modeConv fpscr) a) (in_flags F (modeConv fpscr) a 0))).
Proof.
  intros Ha Hrm. pose proof (narrow_finite a rm (modeConv fpscr) (modeConv fpscr) Ha Hrm) as H. unfold convert_to_single. destruct (unpack F a (modeConv fpscr) 0) as [[[s e] m] fl]. destruct H as (-> & -> & ->).
  cbn [mbind res_bind]. match goal with |- context [narrowed ?a ?b ?c ?d ?e ?f] => pose proof (narrowed_ok a b c d e f ltac:(by apply in_flags_ok)) as Hok; destruct (narrowed a b c d e f) as [x flags] end. unfold raised. cbn [fst snd] in *. by rewrite set_fpscr0_raised.
Qed.

(** The mode of a conversion to binary16: the alternative format of [AHP]. *)
Definition half_mode (fpscr : Z) : Z := Z.lor (modeConv fpscr) (Z.shiftl (Z.b2z (ahp fpscr)) 4).

Lemma convert_to_half_finite a rm fpscr : finite F a -> rm <> FPRounding_TIEAWAY ->
  convert_to_half F G a rm fpscr = Ok (raised fpscr (narrowed G rm (half_mode fpscr) (sign_of F a) (in_val F (modeConv fpscr) a) (in_flags F (modeConv fpscr) a 0))).
Proof.
  intros Ha Hrm. pose proof (narrow_finite a rm (modeConv fpscr) (half_mode fpscr) Ha Hrm) as H. unfold convert_to_half. destruct (unpack F a (modeConv fpscr) 0) as [[[s e] m] fl]. fold (half_mode fpscr). destruct H as (-> & -> & ->).
  cbn [mbind res_bind]. match goal with |- context [narrowed ?a ?b ?c ?d ?e ?f] => pose proof (narrowed_ok a b c d e f ltac:(by apply in_flags_ok)) as Hok; destruct (narrowed a b c d e f) as [x flags] end. unfold raised. cbn [fst snd] in *. by rewrite set_fpscr0_raised.
Qed.
End Narrower.

(** * There and back *)

(** A number of the format is rounded to itself. *)
Lemma narrowed_number G rm mode a (v : Q) flags : fmt_ok G -> finite G a -> (v == val G a)%Q -> negb (f_half G) && test mode FPLIB_FZ = false -> narrowed G rm mode (sign_of G a) v flags = (a, flags).
Proof.
  intros HG Ha Ev Hfz. destruct (fields G HG a (proj1 Ha)) as (Hs & Hm & Eas & _). set (s := sign_of G a) in *. set (m := mag_of G a) in *. pose proof (ulp_pos G) as Hu.
  unfold val in Ev. fold s m in Ev. destruct (Z.eq_dec m 0) as [E0|Hm0].
  - unfold narrowed. rewrite Qeq_bool_true; [by rewrite Eas, E0|]. rewrite Ev. apply signed_0. rewrite E0. assert (mag_value G 0 = 0) as -> by (unfold mag_value; rewrite (proj2 (Z.ltb_lt _ _)); [done|]; destruct HG; apply pow2_pos; lia). change (inject_Z 0) with 0%Q. ring.
  - assert (0 < mag_value G m) as Hv.
    { pose proof (mag_value_succ G HG 0 ltac:(lia)) as H0. pose proof (mag_value_mono G HG (0 + 1) m ltac:(lia) ltac:(lia)). assert (mag_value G 0 = 0) as E1 by (unfold mag_value; rewrite (proj2 (Z.ltb_lt _ _)); [done|]; destruct HG; apply pow2_pos; lia). lia. }
    assert (0 < inject_Z (mag_value G m) * ulp G)%Q as HX by (apply Qmult_lt_0_compat; [change 0%Q with (inject_Z 0); by rewrite <- Zlt_Qlt|done]).
    destruct (signed_abs s v _ Hs HX Ev) as (Ea & Esg & E0). unfold narrowed. rewrite E0, Esg. unfold spec_round.
    destruct (spec_mag_value G HG rm (nz s) m (Qabs v / ulp G) ltac:(lia)) as [-> ->]; [rewrite Ea; field; lra|]. rewrite Hfz. cbn [andb negb]. rewrite andb_false_r.
    destruct Ha as [_ Hlt]. fold m in Hlt. rewrite (proj2 (Z.leb_gt (inf_mag G) m)), (proj2 (Z.leb_gt (inf_mag G + 2 ^ f_P G) m)) by (pose proof (pow2_pos (f_P G) ltac:(destruct HG; lia)); lia).
    rewrite !andb_false_r. by rewrite <- Eas.
Qed.

(** A wider format keeps a number, and gives it back. *)
Lemma there_and_back F G a r rm fpscr : wider F G -> finite F a -> rm <> FPRounding_TIEAWAY -> test (modeConv fpscr) FPLIB_FZ = false ->
  exists c, convert_wider F G a r fpscr = (c, fpscr) /\ finite G c /\ (val G c == val F a)%Q /\
    (if f_half F then convert_to_half G F c rm fpscr else convert_to_single G F c rm fpscr) = Ok (a, fpscr).
Proof.
  intros HFG Ha Hrm Hfz. destruct (wider_ok F G HFG) as [HF HG]. destruct (convert_wider_finite F G HFG a r fpscr Ha) as (c & E & Hc & Hv & Hs). rewrite in_val_unflushed in Hv by done. rewrite in_flags_unflushed, Z.lor_0_r in E by done.
  exists c. split; [done|]. split; [done|]. split; [done|]. destruct (f_half F) eqn:Eh; [rewrite (convert_to_half_finite G F HFG) by done|rewrite (convert_to_single_finite G F HFG) by done];
    rewrite in_flags_unflushed, in_val_unflushed, Hs, (narrowed_number F rm _ a) by (done || by rewrite Eh, ?Hfz); unfold raised; cbn [fst snd]; by rewrite Z.lor_0_r.
Qed.
