(* ===== verification/FpCompare.v ===== *)
(** The comparisons of [Fplib] are the order of the numbers, infinities
    included; with a NaN they are false, or unordered. *)
From Stdlib Require Import QArith Qpower Qabs Lqa.
From S2P Require Import Prelude Fplib FpSpec FpRound FpArith FpMul FpNearest FpOps.
#[local] Open Scope Z_scope.

Section Order.
Context (F : Format) (HF : fmt_ok F).
Local Abbreviation W := (f_W F).
Local Abbreviation P := (f_P F).

(** * Keys *)

(** An operand that is a number orders as its magnitude with its sign. *)
Definition in_mag (mode a : Z) : Z := if flushed F mode a then 0 else mag_of F a.
Definition key (mode a : Z) : Z := if nz (sign_of F a) then - in_mag mode a else in_mag mode a.
Definition is_NaN (a : Z) : bool := inf_mag F <? mag_of F a.
(** A NaN whose first bit is clear. *)
Definition signalling (a : Z) : bool := is_NaN a && negb (Z.testbit a (P - 1)).

Lemma is_NaN_fields a : pattern F a -> is_NaN a = (mag_of F a / 2 ^ P =? top_exp F) && nz (mag_of F a mod 2 ^ P).
Proof.
  intros Ha. destruct (fields F HF a Ha) as (_ & Hm & _). destruct (W_split F HF) as (E1 & HP & _). destruct (top_exp_bounds F HF) as [T1 T2].
  pose proof (Z.div_mod (mag_of F a) (2 ^ P) ltac:(lia)) as Ed. pose proof (Z.mod_pos_bound (mag_of F a) (2 ^ P) HP) as Hmod. set (d := mag_of F a / 2 ^ P) in *. set (r := mag_of F a mod 2 ^ P) in *.
  assert (d < 2 ^ f_E F) as Hd by (apply Z.div_lt_upper_bound; lia). unfold is_NaN, inf_mag, nz. destruct (Z.ltb_spec (top_exp F * 2 ^ P) (mag_of F a)), (Z.eqb_spec d (top_exp F)), (Z.eqb_spec r 0); cbn; try done; nia.
Qed.
Lemma is_nan_NaN a : pattern F a -> is_nan F a = is_NaN a.
Proof. intros Ha. destruct (fields F HF a Ha) as (_ & _ & _ & _ & F2 & F3). rewrite is_NaN_fields by done. unfold is_nan. by rewrite F2, F3. Qed.

(** What [unpack] makes of any pattern. *)
Lemma unpack_any mode a flags : pattern F a -> exists e m, unpack F a mode flags = (sign_of F a, e, m, in_flags F mode a flags) /\
  0 <= m < 2 ^ (P + 1) /\ 1 <= e /\ (e = 1 \/ 2 ^ P <= m) /\ (e - 1) * 2 ^ P + m = in_mag mode a /\ nan_parts F e m = is_NaN a /\ (is_NaN a = true -> Z.testbit m (P - 1) = Z.testbit a (P - 1)).
Proof.
  intros Ha. destruct (fields F HF a Ha) as (Hs & Hm & _ & F1 & F2 & F3). destruct (W_split F HF) as (E1 & HP & _). pose proof HF as [HP10 HE HW _ _]. destruct (top_exp_bounds F HF) as [T1 T2].
  pose proof (Z.div_mod (mag_of F a) (2 ^ P) ltac:(lia)) as Ed. pose proof (Z.mod_pos_bound (mag_of F a) (2 ^ P) HP) as Hmod. pose proof (Z.div_pos (mag_of F a) (2 ^ P) ltac:(lia) HP) as Hdiv.
  assert (2 ^ (P + 1) = 2 * 2 ^ P) as E2 by (rewrite Z.pow_add_r by lia; lia). set (d := mag_of F a / 2 ^ P) in *. set (r := mag_of F a mod 2 ^ P) in *.
  assert (flushed F mode a = negb (f_half F) && test mode FPLIB_FZ && (d =? 0)) as Efl.
  { unfold flushed. f_equal. destruct (Z.ltb_spec (mag_of F a) (2 ^ P)), (Z.eqb_spec d 0); try done; nia. }
  pose proof (is_NaN_fields a Ha) as EN. fold d r in EN.
  unfold unpack. rewrite F1, F2, F3. fold d r. unfold in_flags, in_mag. rewrite Efl, EN. unfold nz at 1. destruct (Z.eqb_spec d 0) as [Ed0|Ed0]; cbn [negb].
  - rewrite Ed0 in *. assert (mag_of F a = r) as -> by lia. rewrite (proj2 (Z.eqb_neq 0 (top_exp F))) by lia. rewrite andb_true_r. cbn [andb].
    assert (nan_parts F (0 + 1) = fun _ => false) as Hn by (unfold nan_parts; rewrite (proj2 (Z.eqb_neq (0 + 1) (top_exp F))) by lia; done).
    destruct (negb (f_half F) && test mode FPLIB_FZ); cbn [andb]; [destruct (nz r) eqn:Er|]; eexists _, _; (split; [reflexivity|]); rewrite Hn; split_and!; try done; try lia; try (by left).
    unfold nz in Er. apply negb_false_iff, Z.eqb_eq in Er. lia.
  - rewrite !andb_false_r. cbn [andb]. eexists _, _. split; [reflexivity|]. rewrite Z.lor_comm, (lor_add _ r P) by (try apply Z.mod_same; lia). split_and!; [lia..|right; lia|lia| |].
    + unfold nan_parts. f_equal. apply nz_ext. pose proof (low_bits W (2 ^ P + r) P ltac:(lia)) as Hl. rewrite Hl, Z.add_mod, Z.mod_same, Z.add_0_l, Z.mod_mod by lia. unfold r. rewrite Z.mod_mod by lia. done.
    + intros _. rewrite <- (lor_add (2 ^ P) r P), Z.lor_spec, Z.pow2_bits_false by (try apply Z.mod_same; lia). cbn [orb]. rewrite <- F3, Z.land_spec. replace (2 ^ P - 1) with (Z.ones P) by (rewrite Z.ones_equiv; lia). by rewrite Z.ones_spec_low, andb_true_r by lia.
Qed.

(** The fields order as the key. *)
Lemma fields_order e1 m1 e2 m2 : 0 <= m1 < 2 ^ (P + 1) -> 0 <= m2 < 2 ^ (P + 1) -> e1 = 1 \/ 2 ^ P <= m1 -> e2 = 1 \/ 2 ^ P <= m2 -> 1 <= e1 -> 1 <= e2 ->
  let k1 := (e1 - 1) * 2 ^ P + m1 in let k2 := (e2 - 1) * 2 ^ P + m2 in
  (if e1 =? e2 then m1 <? m2 else e1 <? e2) = (k1 <? k2) /\ ((e1 =? e2) && (m1 =? m2)) = (k1 =? k2).
Proof.
  intros H1 H2 N1 N2 E1 E2 k1 k2. destruct HF as [HP _ _ _ _]. pose proof (pow2_pos P ltac:(lia)) as HpP. rewrite Z.pow_add_r in H1, H2 by lia. change (2 ^ 1) with 2 in *.
  assert (forall e m e' m', 0 <= m < 2 ^ P * 2 -> e' = 1 \/ 2 ^ P <= m' -> 1 <= e -> e < e' -> (e - 1) * 2 ^ P + m < (e' - 1) * 2 ^ P + m') as Hlt.
  { intros e m e' m' Hm Hn He Hee. destruct Hn as [|Hn]; [lia|]. pose proof (Z.mul_le_mono_nonneg_r (e + 1) e' (2 ^ P) ltac:(lia) ltac:(lia)). lia. }
  unfold k1, k2. destruct (Z.eqb_spec e1 e2) as [->|Hne]; cbn [andb].
  - split; [destruct (Z.ltb_spec m1 m2); symmetry; [apply Z.ltb_lt|apply Z.ltb_ge]; lia|destruct (Z.eqb_spec m1 m2); symmetry; [apply Z.eqb_eq|apply Z.eqb_neq]; lia].
  - assert (e1 < e2 \/ e2 < e1) as [H|H] by lia.
    + pose proof (Hlt e1 m1 e2 m2 ltac:(lia) ltac:(lia) ltac:(lia) H). split; [rewrite (proj2 (Z.ltb_lt e1 e2)) by lia; symmetry; by apply Z.ltb_lt|symmetry; apply Z.eqb_neq; lia].
    + pose proof (Hlt e2 m2 e1 m1 ltac:(lia) ltac:(lia) ltac:(lia) H). split; [rewrite (proj2 (Z.ltb_ge e1 e2)) by lia; symmetry; apply Z.ltb_ge; lia|symmetry; apply Z.eqb_neq; lia].
Qed.

Lemma in_mag_nonneg mode a : pattern F a -> 0 <= in_mag mode a.
Proof. intros Ha. destruct (fields F HF a Ha) as (_ & Hm & _). unfold in_mag. destruct (flushed F mode a); lia. Qed.

(** Only zeros, and what is flushed to them, have a key in common. *)
Lemma key_eq mode a b : pattern F a -> pattern F b -> (key mode a =? key mode b) = ((a =? b) || ((in_mag mode a =? 0) && (in_mag mode b =? 0))).
Proof.
  intros Ha Hb. pose proof (in_mag_nonneg mode a Ha) as Ga. pose proof (in_mag_nonneg mode b Hb) as Gb. destruct (fields F HF a Ha) as (Hsa & _ & Ea & _). destruct (fields F HF b Hb) as (Hsb & _ & Eb & _).
  unfold key. destruct (Z.eqb_spec a b) as [<-|Hab]; cbn [orb]; [apply Z.eqb_refl|].
  assert (sign_of F a = sign_of F b -> in_mag mode a = in_mag mode b -> in_mag mode a = 0) as Hsame.
  { unfold in_mag. destruct (flushed F mode a), (flushed F mode b); try done. intros Es Em. destruct Hab. by rewrite Ea, Eb, Es, Em. }
  destruct Hsa as [Esa|Esa], Hsb as [Esb|Esb]; rewrite Esa, Esb in *; cbn [nz Z.eqb negb]; destruct (Z.eqb_spec (in_mag mode a) 0), (Z.eqb_spec (in_mag mode b) 0); cbn [andb]; first [apply Z.eqb_eq; lia|apply Z.eqb_neq; intros ?; (lia || (pose proof (Hsame eq_refl); lia))].
Qed.

(** A significand is zero if the key is. *)
Lemma zero_mant e m : 0 <= m -> 1 <= e -> e = 1 \/ 2 ^ P <= m -> (m =? 0) = ((e - 1) * 2 ^ P + m =? 0).
Proof.
  pose proof HF as [HP _ _ _ _]. pose proof (pow2_pos P ltac:(lia)). intros Hm He [->|Hr]; [f_equal; lia|]. rewrite !(proj2 (Z.eqb_neq _ 0)); [done|nia|lia].
Qed.

Lemma quiet_bit a n : nz (Z.land (Z.shiftr a n) 1) = Z.testbit a n.
Proof. by rewrite land_1, Z.testbit_odd. Qed.

(** * The comparisons *)

Section Comparisons.
Context (a b mode flags : Z) (Ha : pattern F a) (Hb : pattern F b).
Local Abbreviation fl := (in_flags F mode b (in_flags F mode a flags)).

Definition ordered : bool := negb (is_NaN a || is_NaN b).

Lemma compare_eq_ok : compare_eq F a b mode flags =
  if ordered then (Z.b2z (key mode a =? key mode b), fl) else (0, if signalling a || signalling b then Z.lor fl FPLIB_IOC else fl).
Proof.
  unfold compare_eq. destruct (unpack_any mode a flags Ha) as (ea & ma & -> & Bma & Hea & Ra & Ka & Na & _). destruct (unpack_any mode b (in_flags F mode a flags) Hb) as (eb & mb & -> & Bmb & Heb & Rb & Kb & Nb & _).
  rewrite Na, Nb, !quiet_bit. unfold ordered, signalling. destruct (is_NaN a || is_NaN b); cbn [negb]; [done|]. rewrite key_eq by done. rewrite <- Ka, <- Kb.
  by rewrite <- !zero_mant by lia.
Qed.

(** The order of the fields, signs included. *)
Lemma key_order ea ma eb mb : 0 <= ma < 2 ^ (P + 1) -> 0 <= mb < 2 ^ (P + 1) -> ea = 1 \/ 2 ^ P <= ma -> eb = 1 \/ 2 ^ P <= mb -> 1 <= ea -> 1 <= eb ->
  (ea - 1) * 2 ^ P + ma = in_mag mode a -> (eb - 1) * 2 ^ P + mb = in_mag mode b ->
  let s1 := sign_of F a in let s2 := sign_of F b in let lt := if ea =? eb then ma <? mb else ea <? eb in let gt := if eb =? ea then mb <? ma else eb <? ea in
  (key mode a =? key mode b) = (((ma =? 0) && (mb =? 0)) || ((s1 =? s2) && (ea =? eb) && (ma =? mb))) /\
  (s1 = s2 -> ((ma =? 0) && (mb =? 0)) || ((ea =? eb) && (ma =? mb)) = false -> (key mode a <? key mode b) = (if nz s1 then gt else lt) /\ (key mode b <? key mode a) = (if nz s1 then lt else gt)) /\
  (s1 <> s2 -> (ma =? 0) && (mb =? 0) = false -> (key mode a <? key mode b) = nz s1 /\ (key mode b <? key mode a) = nz s2).
Proof.
  intros Bma Bmb Ra Rb Hea Heb Ka Kb s1 s2 lt gt. destruct (fields_order ea ma eb mb Bma Bmb Ra Rb Hea Heb) as [L1 L2]. destruct (fields_order eb mb ea ma Bmb Bma Rb Ra Heb Hea) as [G1 _].
  fold lt in L1. fold gt in G1. rewrite L1, G1, Ka, Kb. rewrite <- andb_assoc, L2.
  rewrite (zero_mant ea ma ltac:(lia) Hea Ra), (zero_mant eb mb ltac:(lia) Heb Rb), !Ka, !Kb. clear L1 L2 G1 lt gt Ka Kb.
  pose proof (in_mag_nonneg mode a Ha) as GA. pose proof (in_mag_nonneg mode b Hb) as GB. destruct (fields F HF a Ha) as (Hsa & _). destruct (fields F HF b Hb) as (Hsb & _).
  unfold key. fold s1 s2. fold s1 in Hsa. fold s2 in Hsb. set (A := in_mag mode a) in *. set (B := in_mag mode b) in *. clearbody s1 s2 A B.
  destruct Hsa as [-> | ->], Hsb as [-> | ->]; cbn [nz Z.eqb negb]; (split; [|split; intros ? ?; try lia; split]); try done;
    repeat match goal with |- context [?x =? ?y] => destruct (Z.eqb_spec x y) | |- context [?x <? ?y] => destruct (Z.ltb_spec x y) end; cbn [andb orb] in *; try done; try lia.
Qed.

(** The fields of the operands, with the order of their keys. *)
Lemma operands : exists ea ma eb mb, unpack F a mode flags = (sign_of F a, ea, ma, in_flags F mode a flags) /\
  unpack F b mode (in_flags F mode a flags) = (sign_of F b, eb, mb, fl) /\
  nan_parts F ea ma = is_NaN a /\ nan_parts F eb mb = is_NaN b /\
  (is_NaN a = true -> Z.testbit ma (P - 1) = Z.testbit a (P - 1)) /\ (is_NaN b = true -> Z.testbit mb (P - 1) = Z.testbit b (P - 1)) /\
  forall eqv : Z, (if (ma =? 0) && (mb =? 0) then eqv else if negb (sign_of F a =? sign_of F b) then sign_of F b else if negb (ea =? eb) then Z.lxor (sign_of F a) (Z.b2z (eb <? ea)) else if negb (ma =? mb) then Z.lxor (sign_of F a) (Z.b2z (mb <? ma)) else eqv) =
  if key mode a =? key mode b then eqv else Z.b2z (key mode b <? key mode a).
Proof.
  destruct (unpack_any mode a flags Ha) as (ea & ma & Ua & Bma & Hea & Ra & Ka & Na & Ta). destruct (unpack_any mode b (in_flags F mode a flags) Hb) as (eb & mb & Ub & Bmb & Heb & Rb & Kb & Nb & Tb).
  exists ea, ma, eb, mb. split_and!; try done. intros eqv. destruct (key_order ea ma eb mb Bma Bmb Ra Rb Hea Heb Ka Kb) as (K1 & K2 & K3). rewrite K1.
  destruct (fields F HF a Ha) as (Hsa & _). destruct (fields F HF b Hb) as (Hsb & _). set (s1 := sign_of F a) in *. set (s2 := sign_of F b) in *. clearbody s1 s2.
  destruct ((ma =? 0) && (mb =? 0)); [done|]. cbn [orb] in *. destruct (Z.eqb_spec s1 s2) as [E|E]; cbn [negb andb].
  - destruct (Z.eqb_spec ea eb) as [->|Hne]; cbn [negb andb] in *; [destruct (Z.eqb_spec ma mb) as [->|Hnm]; cbn [negb andb] in *; [done|]|];
      (destruct (K2 E eq_refl) as [_ ->]); destruct Hsa as [-> | ->]; cbn [nz Z.eqb negb];
      repeat match goal with |- context [?x =? ?y] => destruct (Z.eqb_spec x y) | |- context [?x <? ?y] => destruct (Z.ltb_spec x y) end; try done; lia.
  - destruct (K3 E eq_refl) as [_ ->]. by destruct Hsb as [-> | ->].
Qed.

Lemma compare_order_ok if_equal : compare_order F if_equal a b mode flags =
  if ordered then (if key mode a =? key mode b then if_equal else Z.b2z (key mode b <? key mode a), fl) else (0, Z.lor fl FPLIB_IOC).
Proof.
  destruct operands as (ea & ma & eb & mb & Ua & Ub & Na & Nb & _ & _ & K). unfold compare_order. rewrite Ua, Ub, Na, Nb. unfold ordered. destruct (is_NaN a || is_NaN b); cbn [negb]; [done|].
  rewrite <- (K if_equal). destruct ((ma =? 0) && (mb =? 0)); [done|]. destruct (negb (sign_of F a =? _)); [done|]. destruct (negb (ea =? eb)); [done|]. by destruct (negb (ma =? mb)).
Qed.
End Comparisons.

(** * Keys and numbers *)

Lemma mag_value_0 : mag_value F 0 = 0.
Proof. unfold mag_value. rewrite (proj2 (Z.ltb_lt _ _)); [done|]. destruct HF. apply pow2_pos. lia. Qed.
Lemma mag_value_lt m m' : 0 <= m < m' -> mag_value F m < mag_value F m'.
Proof. intros H. pose proof (mag_value_succ F HF m ltac:(lia)). pose proof (mag_value_mono F HF (m + 1) m' ltac:(lia) ltac:(lia)). lia. Qed.

(** The number of a key, in units of [ulp]. *)
Definition key_value (k : Z) : Z := Z.sgn k * mag_value F (Z.abs k).

Lemma key_value_mono k k' : k < k' -> key_value k < key_value k'.
Proof.
  intros H. unfold key_value. pose proof mag_value_0 as E0. assert (forall m, 0 < m -> 0 < mag_value F m) as Hpos by (intros m Hm; pose proof (mag_value_lt 0 m ltac:(lia)); lia).
  destruct (Z.lt_trichotomy k 0) as [Hk|[->|Hk]], (Z.lt_trichotomy k' 0) as [Hk'|[->|Hk']]; try lia;
    rewrite ?(Z.sgn_neg k), ?(Z.sgn_pos k), ?(Z.sgn_neg k'), ?(Z.sgn_pos k') by done; cbn [Z.sgn Z.abs].
  - pose proof (mag_value_lt (Z.abs k') (Z.abs k) ltac:(lia)). lia.
  - pose proof (Hpos (Z.abs k) ltac:(lia)). lia.
  - pose proof (Hpos (Z.abs k) ltac:(lia)). pose proof (Hpos (Z.abs k') ltac:(lia)). lia.
  - pose proof (Hpos (Z.abs k') ltac:(lia)). lia.
  - pose proof (mag_value_lt (Z.abs k) (Z.abs k') ltac:(lia)). lia.
Qed.

Lemma in_val_key mode a : pattern F a -> (in_val F mode a == inject_Z (key_value (key mode a)) * ulp F)%Q.
Proof.
  intros Ha. destruct (fields F HF a Ha) as (Hs & Hm & _). unfold in_val, key, in_mag, key_value. destruct (flushed F mode a).
  - change (- 0) with 0. replace (if nz (sign_of F a) then 0 else 0) with 0 by (by destruct (nz _)). change (Z.sgn 0) with 0. rewrite Z.mul_0_l. change (inject_Z 0) with 0%Q. ring.
  - assert (0 <= mag_value F (mag_of F a)) as Hv by (rewrite <- mag_value_0; apply mag_value_mono; (done || lia)). assert (forall m, 0 <= m -> Z.sgn m * mag_value F m = mag_value F m) as Hsg.
    { intros m Hm0. destruct (Z.eq_dec m 0) as [->|]; [by rewrite mag_value_0|]. rewrite Z.sgn_pos by lia. lia. }
    unfold val, signed. destruct (nz (sign_of F a)).
    + rewrite Z.sgn_opp, Z.abs_opp, Z.mul_opp_l, Z.abs_eq, Hsg by lia. rewrite inject_Z_opp. ring.
    + rewrite Z.abs_eq, Hsg by lia. reflexivity.
Qed.

(** The key is the order of the numbers. *)
Lemma key_lt_val mode a b : pattern F a -> pattern F b -> (key mode a < key mode b <-> (in_val F mode a < in_val F mode b)%Q) /\ (key mode a = key mode b <-> (in_val F mode a == in_val F mode b)%Q).
Proof.
  intros Ha Hb. rewrite !in_val_key by done. pose proof (ulp_pos F) as Hu. rewrite Qmult_lt_r, <- Zlt_Qlt by done.
  assert (forall x y : Z, (inject_Z x * ulp F == inject_Z y * ulp F)%Q <-> x = y) as ->.
  { intros x y. split; [|by intros ->]. intros E. apply Qmult_inj_r in E; [by apply inject_Z_injective|lra]. }
  destruct (Z.lt_trichotomy (key mode a) (key mode b)) as [H|[->|H]]; [|split; [lia|done]|]; pose proof (key_value_mono _ _ H); lia.
Qed.

(** * The functions of the instructions *)

Lemma set_fpscr_raised fpscr flags : flags_ok flags -> test flags FPLIB_UFC = false -> set_fpscr fpscr flags = Z.lor fpscr flags.
Proof. intros Hf Hu. rewrite <- set_fpscr0_raised by done. unfold set_fpscr, set_fpscr0. rewrite Hu. cbn [andb negb]. by rewrite andb_true_r. Qed.

Section Instructions.
Context (a b fpscr : Z) (Ha : pattern F a) (Hb : pattern F b).
Local Abbreviation mode := (modeConv fpscr).
Local Abbreviation fl := (in_flags F mode b (in_flags F mode a 0)).

Lemma input_flags : flags_ok fl /\ test fl FPLIB_UFC = false /\ flags_ok (Z.lor fl FPLIB_IOC) /\ test (Z.lor fl FPLIB_IOC) FPLIB_UFC = false.
Proof. unfold in_flags. by destruct (flushed F mode a && _), (flushed F mode b && _). Qed.

Lemma fplib_compare_eqs : let invalid := Z.lor fl FPLIB_IOC in
  fplibCompareEQ F a b fpscr = raised fpscr (if ordered a b then (Z.b2z (key mode a =? key mode b), fl) else (0, if signalling a || signalling b then invalid else fl)) /\
  fplibCompareGE F a b fpscr = raised fpscr (if ordered a b then (Z.b2z (key mode b <=? key mode a), fl) else (0, invalid)) /\
  fplibCompareGT F a b fpscr = raised fpscr (if ordered a b then (Z.b2z (key mode b <? key mode a), fl) else (0, invalid)).
Proof.
  destruct input_flags as (F1 & F2 & F3 & F4). unfold fplibCompareEQ, fplibCompareGE, fplibCompareGT, compare_ge, compare_gt, raised. rewrite compare_eq_ok, !compare_order_ok by done. split_and!.
  - destruct (ordered a b); [by rewrite set_fpscr_raised|]. destruct (signalling a || signalling b); by rewrite set_fpscr_raised.
  - destruct (ordered a b); [|by rewrite set_fpscr_raised]. rewrite set_fpscr_raised by done. cbn [fst snd]. f_equal.
    destruct (Z.eqb_spec (key mode a) (key mode b)), (Z.leb_spec (key mode b) (key mode a)), (Z.ltb_spec (key mode b) (key mode a)); try done; lia.
  - destruct (ordered a b); [|by rewrite set_fpscr_raised]. rewrite set_fpscr_raised by done. cbn [fst snd]. f_equal.
    destruct (Z.eqb_spec (key mode a) (key mode b)), (Z.ltb_spec (key mode b) (key mode a)); try done; lia.
Qed.

(** The flags N, Z, C, V. *)
Lemma fplib_compare_nzcv signal_nans : fplibCompare F a b signal_nans fpscr =
  raised fpscr (if ordered a b then (if key mode a =? key mode b then 6 else if key mode a <? key mode b then 8 else 2, fl)
                else (3, if signalling a || signalling b || signal_nans then Z.lor fl FPLIB_IOC else fl)).
Proof.
  destruct input_flags as (F1 & _ & F3 & _). destruct (operands a b mode 0 Ha Hb) as (ea & ma & eb & mb & Ua & Ub & Na & Nb & Ta & Tb & _).
  destruct (unpack_any mode a 0 Ha) as (ea' & ma' & Ua' & Bma & Hea & Ra & Ka & _). rewrite Ua in Ua'. injection Ua' as <- <-.
  destruct (unpack_any mode b (in_flags F mode a 0) Hb) as (eb' & mb' & Ub' & Bmb & Heb & Rb & Kb & _). rewrite Ub in Ub'. injection Ub' as <- <-.
  unfold fplibCompare. rewrite Ua, Ub, Na, Nb, !quiet_bit. unfold raised, ordered, signalling. destruct (is_NaN a || is_NaN b) eqn:EN; cbn [negb fst snd].
  - assert (is_NaN a && negb (Z.testbit ma (P - 1)) = is_NaN a && negb (Z.testbit a (P - 1))) as -> by (destruct (is_NaN a); [by rewrite Ta|done]).
    assert (is_NaN b && negb (Z.testbit mb (P - 1)) = is_NaN b && negb (Z.testbit b (P - 1))) as -> by (destruct (is_NaN b); [by rewrite Tb|done]).
    rewrite set_fpscr0_raised; [done|]. by destruct (_ || signal_nans).
  - rewrite set_fpscr0_raised by done. cbn [fst snd]. f_equal. destruct (key_order a b mode Ha Hb ea ma eb mb Bma Bmb Ra Rb Hea Heb Ka Kb) as (K1 & K2 & K3).
    rewrite K1. destruct (fields F HF a Ha) as (Hsa & _ & Ea & _). destruct (fields F HF b Hb) as (Hsb & _ & Eb & _). set (s1 := sign_of F a) in *. set (s2 := sign_of F b) in *.
    assert ((a =? b) || ((ma =? 0) && (mb =? 0)) = ((ma =? 0) && (mb =? 0)) || ((s1 =? s2) && (ea =? eb) && (ma =? mb))) as ->.
    { rewrite <- K1, key_eq, <- Ka, <- Kb by done. f_equal. by rewrite <- !zero_mant by lia. }
    destruct ((ma =? 0) && (mb =? 0)); [done|]. cbn [orb] in *. clear Ea Eb K1. clearbody s1 s2. destruct (Z.eqb_spec s1 s2) as [E|E]; cbn [negb andb].
    + destruct (Z.eqb_spec ea eb) as [->|Hne]; cbn [negb andb] in *; [destruct (Z.eqb_spec ma mb) as [->|Hnm]; cbn [negb andb] in *; [done|]|];
        (destruct (K2 E eq_refl) as [-> _]); destruct Hsa as [-> | ->]; cbn [nz Z.eqb negb];
        repeat match goal with |- context [?x =? ?y] => destruct (Z.eqb_spec x y) | |- context [?x <? ?y] => destruct (Z.ltb_spec x y) end; try done; lia.
    + destruct (K3 E eq_refl) as [-> _]. by destruct Hsa as [-> | ->].
Qed.

(** What is left of an operand when denormals are flushed to zero. *)
Definition in_op (c : Z) : Z := with_sign F (sign_of F c) (in_mag mode c).

Lemma repack_ok c flags : pattern F c -> let '(s, e, m, _) := unpack F c mode flags in repack F s e m = in_op c.
Proof.
  intros Hc. destruct (unpack_any mode c flags Hc) as (e & m & -> & Hm & He & Hr & Hk & _). destruct (fields F HF c Hc) as (Hs & Hmag & _). destruct (W_split F HF) as (E1 & HP & _). pose proof HF as [HP10 _ _ _ _]. destruct (top_exp_bounds F HF) as [T1 T2].
  assert (in_mag mode c < 2 ^ (W - 1)) as Hb2 by (unfold in_mag; destruct (flushed F mode c); lia). rewrite Z.pow_add_r in Hm by lia. change (2 ^ 1) with 2 in Hm. unfold repack, in_op, with_sign. rewrite <- Hk in *. rewrite Z.shiftr_div_pow2 by lia.
  destruct (Z.le_gt_cases (2 ^ P) m) as [Hbig|Hsmall].
  - assert (m / 2 ^ P = 1) as -> by (symmetry; apply (Z.div_unique _ _ _ (m - 2 ^ P)); lia). cbn [nz Z.eqb negb]. assert (e < 2 ^ f_E F) as Hem by (apply (Z.mul_lt_mono_pos_r (2 ^ P)); lia).
    rewrite (pack_sum F HF) by lia. assert (m mod 2 ^ P = m - 2 ^ P) as -> by (symmetry; apply (Z.mod_unique_pos _ _ 1); lia). ring.
  - rewrite Z.div_small by lia. cbn [nz Z.eqb negb]. rewrite (pack_sum F HF), Z.mod_small by lia. destruct Hr as [->|]; lia.
Qed.

(** The order of the patterns of numbers of the same sign. *)
Lemma same_sign_key : sign_of F a = sign_of F b -> a <= b -> if nz (sign_of F a) then key mode b <= key mode a else key mode a <= key mode b.
Proof.
  intros Es Hab. destruct (fields F HF a Ha) as (Hsa & Hma & Ea & _). destruct (fields F HF b Hb) as (_ & Hmb & Eb & _). unfold with_sign in *. rewrite <- Es in Eb.
  assert (in_mag mode a <= in_mag mode b) as H.
  { unfold in_mag, flushed. destruct (negb (f_half F) && test mode FPLIB_FZ); cbn [andb]; [|lia]. destruct (Z.ltb_spec (mag_of F a) (2 ^ P)), (Z.ltb_spec (mag_of F b) (2 ^ P)); lia. }
  unfold key. rewrite <- Es. destruct (nz (sign_of F a)); lia.
Qed.

Lemma minmax_ordered first : ordered a b = true -> minmax F first a b fpscr = raised fpscr (in_op (if first (sign_of F a) (sign_of F b) then a else b), fl).
Proof.
  intros Ho. destruct input_flags as (F1 & _). pose proof (repack_ok a 0 Ha) as Ra. pose proof (repack_ok b (in_flags F mode a 0) Hb) as Rb.
  destruct (unpack_any mode a 0 Ha) as (ea & ma & Ua & _). destruct (unpack_any mode b (in_flags F mode a 0) Hb) as (eb & mb & Ub & _). unfold minmax. rewrite Ua, Ub in *.
  unfold ordered in Ho. apply negb_true_iff, orb_false_iff in Ho as [Na Nb]. unfold process_NaNs, is_snan. rewrite !is_nan_NaN, Na, Nb by done. cbn [andb nz Z.eqb negb].
  rewrite set_fpscr0_raised, Ra, Rb by done. unfold raised. cbn [fst snd]. by destruct (first (sign_of F a) (sign_of F b)).
Qed.
End Instructions.

(** The sign and the key of the larger or smaller of two operands. *)
Lemma extremum a b fpscr (upper : bool) : pattern F a -> pattern F b -> let mode := modeConv fpscr in
  let first sgn1 sgn2 := if negb (sgn1 =? sgn2) then nz (if upper then sgn2 else sgn1) else nz (Z.lxor sgn1 (Z.b2z (if upper then b <? a else a <? b))) in
  let c := if first (sign_of F a) (sign_of F b) then a else b in
  key mode c = (if upper then Z.max else Z.min) (key mode a) (key mode b) /\ sign_of F c = (if upper then Z.min else Z.max) (sign_of F a) (sign_of F b).
Proof.
  intros Ha Hb mode first c. unfold c, first. destruct (fields F HF a Ha) as (Hsa & _). destruct (fields F HF b Hb) as (Hsb & _). pose proof (in_mag_nonneg mode a Ha) as Ga. pose proof (in_mag_nonneg mode b Hb) as Gb.
  pose proof (same_sign_key a b fpscr Ha Hb) as S1. pose proof (same_sign_key b a fpscr Hb Ha) as S2. fold mode in S1, S2. destruct (Z.eqb_spec (sign_of F a) (sign_of F b)) as [E|E]; cbn [negb].
  - specialize (S1 E). specialize (S2 (eq_sym E)).
    split; [|assert (forall t : bool, sign_of F (if t then a else b) = sign_of F a) as -> by (by intros []); rewrite <- E; destruct upper; symmetry; [apply Z.min_id|apply Z.max_id]].
    rewrite <- E in S2. clear E. assert (forall s t, s = 0 \/ s = 1 -> nz (Z.lxor s (Z.b2z t)) = xorb (nz s) t) as -> by (by intros s [] [-> | ->]); [|done].
    clear c first. destruct (nz (sign_of F a)), upper; cbn [xorb]; match goal with |- context [?x <? ?y] => destruct (Z.ltb_spec x y) end; cbn match; cbn [negb]; lia.
  - clear S1 S2. unfold key in *. destruct Hsa as [Es|Es], Hsb as [Es'|Es']; rewrite Es, Es' in *; try done; cbn [nz Z.eqb negb] in *; destruct upper; cbn [nz Z.eqb negb]; rewrite ?Es, ?Es'; cbn [nz Z.eqb negb]; lia.
Qed.
End Order.
