(* ===== verification/FpSpecial.v ===== *)
(** The operations of [Fplib] on NaNs and infinities, and the invalid ones. *)
From Stdlib Require Import QArith Lqa.
From S2P Require Import Prelude Fplib FpSpec FpRound FpArith FpMul FpNearest FpOps FpConvert FpCompare.
#[local] Open Scope Z_scope.

Section Special.
Context (F : Format) (HF : arith F).
Local Abbreviation W := (f_W F).
Local Abbreviation P := (f_P F).

(** * What is special *)

Definition is_inf (a : Z) : bool := mag_of F a =? inf_mag F.
Definition is_zero (mode a : Z) : bool := in_mag F mode a =? 0.

(** A NaN made quiet, or the default NaN. *)
Definition quiet (mode a : Z) : Z := if test mode FPLIB_DN then defaultNaN F else Z.setbit a (P - 1).
(** The NaN of two operands that is returned: the first signalling one, or the
    first one. *)
Definition nan_choice (a b : Z) : Z := if signalling F a then a else if signalling F b then b else if is_NaN F a then a else b.
Definition nan_result (mode a b fl : Z) : Z * Z := (quiet mode (nan_choice a b), if signalling F a || signalling F b then Z.lor fl FPLIB_IOC else fl).

Definition invalid (fl : Z) : Z * Z := (defaultNaN F, Z.lor fl FPLIB_IOC).
Definition signed_inf (s : Z) : Z := with_sign F s (inf_mag F).

(** The results that are no rounded numbers; [sb]: the sign of the second summand. *)
Definition special_sum (mode sb a b fl : Z) : option (Z * Z) :=
  if is_NaN F a || is_NaN F b then Some (nan_result mode a b fl)
  else if is_inf a && is_inf b && negb (sign_of F a =? sb) then Some (invalid fl)
  else if is_inf a then Some (signed_inf (sign_of F a), fl)
  else if is_inf b then Some (signed_inf sb, fl)
  else None.
Definition special_product (mode a b fl : Z) : option (Z * Z) :=
  if is_NaN F a || is_NaN F b then Some (nan_result mode a b fl)
  else if (is_inf a && is_zero mode b) || (is_inf b && is_zero mode a) then Some (invalid fl)
  else if is_inf a || is_inf b then Some (signed_inf (Z.lxor (sign_of F a) (sign_of F b)), fl)
  else None.
Definition special_quotient (mode a b fl : Z) : option (Z * Z) :=
  let s := Z.lxor (sign_of F a) (sign_of F b) in
  if is_NaN F a || is_NaN F b then Some (nan_result mode a b fl)
  else if (is_inf a && is_inf b) || (is_zero mode a && is_zero mode b) then Some (invalid fl)
  else if is_inf a then Some (signed_inf s, fl)
  else if is_zero mode b then Some (signed_inf s, Z.lor fl FPLIB_DZC)
  else if is_inf b then Some (with_sign F s 0, fl)
  else None.
Definition special_root (mode a fl : Z) : option (Z * Z) :=
  if is_NaN F a then Some (quiet mode a, if signalling F a then Z.lor fl FPLIB_IOC else fl)
  else if is_zero mode a then Some (with_sign F (sign_of F a) 0, fl)
  else if nz (sign_of F a) then Some (invalid fl)
  else if is_inf a then Some (signed_inf 0, fl)
  else None.

(** [a + b * c]: a product of infinity and zero is invalid even if added to a
    quiet NaN. *)
Definition inf_zero (mode b c : Z) : bool := (is_zero mode b && is_inf c) || (is_zero mode c && is_inf b).
Definition nan_choice3 (a b c : Z) : Z :=
  if signalling F a then a else if signalling F b then b else if signalling F c then c else if is_NaN F a then a else if is_NaN F b then b else c.
Definition special_fused (mode a b c fl : Z) : option (Z * Z) :=
  let s := Z.lxor (sign_of F b) (sign_of F c) in
  if is_NaN F a && negb (signalling F a) && inf_zero mode b c then Some (invalid fl)
  else if is_NaN F a || is_NaN F b || is_NaN F c then
    Some (quiet mode (nan_choice3 a b c), if signalling F a || signalling F b || signalling F c then Z.lor fl FPLIB_IOC else fl)
  else if inf_zero mode b c || (is_inf a && (is_inf b || is_inf c) && negb (sign_of F a =? s)) then Some (invalid fl)
  else if is_inf a then Some (signed_inf (sign_of F a), fl)
  else if is_inf b || is_inf c then Some (signed_inf s, fl)
  else None.

(** * The fields of any operand *)

Lemma special_fields mode a flags : pattern F a -> exists e m, unpack F a mode flags = (sign_of F a, e, m, in_flags F mode a flags) /\
  (sign_of F a = 0 \/ sign_of F a = 1) /\ nan_parts F e m = is_NaN F a /\ (m =? 0) = is_zero mode a /\ (is_NaN F a = false -> (e =? top_exp F) = is_inf a).
Proof.
  intros Ha. pose proof (arith_ok F HF) as Hok. destruct (unpack_any F Hok mode a flags Ha) as (e & m & -> & Hm & He & Hr & Hk & Hn & _). destruct (fields F Hok a Ha) as (Hs & Hmag & _).
  exists e, m. split; [done|]. split; [done|]. split; [done|]. split; [unfold is_zero; rewrite <- Hk; apply (zero_mant F Hok); (done || lia)|].
  destruct (W_split F Hok) as (E1 & HP & _). destruct (top_exp_bounds F Hok) as [T1 T2]. pose proof Hok as [HP10 _ _ _ _]. rewrite Z.pow_add_r in Hm by lia. change (2 ^ 1) with 2 in Hm.
  unfold is_NaN, is_inf. intros HN%Z.ltb_ge. assert ((e =? top_exp F) = (inf_mag F <=? in_mag F mode a)) as ->.
  { rewrite <- Hk. unfold inf_mag. destruct (Z.eqb_spec e (top_exp F)) as [->|Hne]; symmetry; [apply Z.leb_le|apply Z.leb_gt].
    - destruct Hr; lia.
    - assert (e < top_exp F + 1) as H1.
      { assert (in_mag F mode a < 2 ^ (W - 1)) as Hb by (unfold in_mag; destruct (flushed F mode a); lia). rewrite <- Hk in Hb. destruct Hr as [->|Hr]; [lia|]. apply (Z.mul_lt_mono_pos_r (2 ^ P)); [done|]. rewrite T2. lia. }
      pose proof (Z.mul_le_mono_nonneg_r (e + 1) (top_exp F) (2 ^ P) ltac:(lia) ltac:(lia)). lia. }
  unfold in_mag, flushed. destruct (Z.ltb_spec (mag_of F a) (2 ^ P)) as [Hsm|Hsm].
  - assert (2 ^ P < inf_mag F) as Hi by (unfold inf_mag; pose proof (Z.mul_le_mono_nonneg_r 2 (top_exp F) (2 ^ P) ltac:(lia) ltac:(lia)); lia). rewrite (proj2 (Z.eqb_neq (mag_of F a) _)) by lia. apply Z.leb_gt. destruct (_ && true); lia.
  - rewrite andb_false_r. destruct (Z.leb_spec (inf_mag F) (mag_of F a)), (Z.eqb_spec (mag_of F a) (inf_mag F)); try done; lia.
Qed.

(** The tests of the fused operations: infinity, and a quiet NaN. *)
Lemma fused_fields mode a flags e m fl : pattern F a -> unpack F a mode flags = (sign_of F a, e, m, fl) ->
  (e =? top_exp F) && negb (nz (wrap_u W (Z.shiftl m (W - P)))) = is_inf a /\ (e =? top_exp F) && nz (Z.land (Z.shiftr m (P - 1)) 1) = is_NaN F a && negb (signalling F a) /\
  (e =? top_exp F) = is_NaN F a || is_inf a.
Proof.
  intros Ha E. pose proof (arith_ok F HF) as Hok. pose proof Hok as [HP10 _ _ _ _]. destruct (unpack_any F Hok mode a flags Ha) as (e' & m' & E' & Hm & He & Hr & Hk & Hn & Hb). rewrite E in E'. injection E' as <- <- ->.
  destruct (special_fields mode a flags Ha) as (e' & m' & E' & _ & _ & _ & Hi). rewrite E in E'. injection E' as <- <-. rewrite quiet_bit. unfold nan_parts in Hn. unfold signalling. destruct (is_NaN F a) eqn:EN; cbn [andb orb negb].
  - apply andb_true_iff in Hn as [-> ->]. specialize (Hb eq_refl). rewrite Hb. cbn [andb]. split; [|split; [by rewrite negb_involutive|done]]. unfold is_inf, is_NaN in *. apply Z.ltb_lt in EN. symmetry. apply Z.eqb_neq. lia.
  - specialize (Hi eq_refl). rewrite Hi in *. split; [|split; [|done]]; destruct (is_inf a) eqn:EI; cbn [andb] in *; [by rewrite Hn|done| |done].
    apply Z.eqb_eq in Hi. unfold is_inf in EI. apply Z.eqb_eq in EI. destruct (top_exp_bounds F Hok) as [T1 T2]. pose proof (pow2_pos P ltac:(lia)) as HpP.
    assert (in_mag F mode a = inf_mag F) as Em.
    { unfold in_mag, flushed. rewrite EI, (proj2 (Z.ltb_ge (inf_mag F) _)), andb_false_r; [done|]. unfold inf_mag. pose proof (Z.mul_le_mono_nonneg_r 1 (top_exp F) (2 ^ P) ltac:(lia) ltac:(lia)). lia. }
    rewrite Em, Hi in Hk. assert (m = 2 ^ P) as -> by (unfold inf_mag in Hk; lia). apply Z.pow2_bits_false. lia.
Qed.

Lemma not_special a : pattern F a -> is_NaN F a = false -> is_inf a = false -> finite F a.
Proof. unfold is_NaN, is_inf. intros Ha H1%Z.ltb_ge H2%Z.eqb_neq. split; [done|lia]. Qed.

Lemma not_zero mode a : pattern F a -> is_zero mode a = false -> ~ (val F a == 0)%Q.
Proof.
  intros Ha H. pose proof (arith_ok F HF) as Hok. destruct (fields F Hok a Ha) as (_ & Hm & _). assert (0 < mag_of F a) as Hm0.
  { unfold is_zero, in_mag in H. apply Z.eqb_neq in H. destruct (flushed F mode a); lia. }
  pose proof (mag_value_lt F Hok 0 (mag_of F a) ltac:(lia)) as Hv. rewrite (mag_value_0 F Hok), Zlt_Qlt in Hv. change (inject_Z 0) with 0%Q in Hv.
  pose proof (Qmult_lt_0_compat _ _ Hv (ulp_pos F)). unfold val, signed. destruct (nz _); lra.
Qed.

(** * NaNs *)

Lemma process_NaN_quiet a mode flags : process_NaN F a mode flags = (quiet mode a, if negb (Z.testbit a (P - 1)) then Z.lor flags FPLIB_IOC else flags).
Proof.
  unfold process_NaN, quiet. rewrite quiet_bit. destruct (Z.testbit a (P - 1)) eqn:E; cbn [negb]; [|done]. f_equal.
  assert (Z.setbit a (P - 1) = a) as ->; [|done]. pose proof (arith_ok F HF) as [HP _ _ _ _]. apply bits_ext. intros i Hi. rewrite Z.setbit_eqb by lia. destruct (Z.eqb_spec (P - 1) i) as [<-|]; [by rewrite E|done].
Qed.

Lemma quiet_nonzero mode a : pattern F a -> nz (quiet mode a) = true.
Proof.
  intros Ha. unfold quiet, nz. apply negb_true_iff, Z.eqb_neq. destruct (test mode FPLIB_DN).
  - destruct HF as [-> | ->]; done.
  - pose proof (arith_ok F HF) as [HP _ _ _ _]. intros E. pose proof (Z.setbit_eq a (P - 1) ltac:(lia)) as H. rewrite E, Z.bits_0 in H. done.
Qed.

Lemma is_snan_signalling a : pattern F a -> is_snan F a = signalling F a.
Proof.
  intros Ha. pose proof (arith_ok F HF) as Hok. pose proof Hok as [HP _ _ _ _]. unfold is_snan, signalling. rewrite (is_nan_NaN F Hok a Ha), quiet_bit. do 2 f_equal. replace (2 ^ P - 1) with (Z.ones P) by (rewrite Z.ones_equiv; lia).
  rewrite Z.land_spec, Z.ones_spec_low, andb_true_r by lia. done.
Qed.

Lemma process_NaNs_result a b mode flags : pattern F a -> pattern F b -> process_NaNs F a b mode flags = if is_NaN F a || is_NaN F b then nan_result mode a b flags else (0, flags).
Proof.
  intros Ha Hb. pose proof (arith_ok F HF) as Hok. unfold process_NaNs, nan_result, nan_choice. rewrite !is_snan_signalling, !(is_nan_NaN F Hok) by done. rewrite !process_NaN_quiet. unfold signalling.
  destruct (is_NaN F a), (is_NaN F b), (Z.testbit a (P - 1)) eqn:E1, (Z.testbit b (P - 1)) eqn:E2; cbn [andb orb negb]; rewrite ?E1, ?E2; done.
Qed.

Lemma process_NaNs3_result a b c mode flags : pattern F a -> pattern F b -> pattern F c -> process_NaNs3 F a b c mode flags =
  if is_NaN F a || is_NaN F b || is_NaN F c then (quiet mode (nan_choice3 a b c), if signalling F a || signalling F b || signalling F c then Z.lor flags FPLIB_IOC else flags) else (0, flags).
Proof.
  intros Ha Hb Hc. pose proof (arith_ok F HF) as Hok. unfold process_NaNs3, nan_choice3. rewrite !is_snan_signalling, !(is_nan_NaN F Hok) by done. rewrite !process_NaN_quiet. unfold signalling.
  destruct (is_NaN F a), (is_NaN F b), (is_NaN F c), (Z.testbit a (P - 1)) eqn:E1, (Z.testbit b (P - 1)) eqn:E2, (Z.testbit c (P - 1)) eqn:E3; cbn [andb orb negb]; rewrite ?E1, ?E2, ?E3; done.
Qed.

(** * The operations *)

Section Ops.
Context (a b mode flags : Z) (Ha : pattern F a) (Hb : pattern F b).
Local Abbreviation fl := (in_flags F mode b (in_flags F mode a flags)).

Lemma sign_range : 0 <= sign_of F a <= 1 /\ 0 <= sign_of F b <= 1 /\ 0 <= Z.lxor (sign_of F a) (sign_of F b) <= 1.
Proof. pose proof (arith_ok F HF) as Hok. destruct (fields F Hok a Ha) as ([-> | ->] & _), (fields F Hok b Hb) as ([-> | ->] & _); split_and!; vm_compute; discriminate. Qed.

Lemma add_special neg r : neg = 0 \/ neg = 1 -> special_sum mode (Z.lxor (sign_of F b) neg) a b fl = Some r -> add F a b neg mode flags = Ok r.
Proof.
  intros Hneg. pose proof (arith_ok F HF) as Hok. destruct (special_fields mode a flags Ha) as (ea & ma & Ua & Hsa & Na & Za & Ia). destruct (special_fields mode b (in_flags F mode a flags) Hb) as (eb & mb & Ub & Hsb & Nb & Zb & Ib).
  unfold special_sum, add. rewrite Ua, Ub, process_NaNs_result by done. destruct (is_NaN F a || is_NaN F b) eqn:EN.
  - intros [= <-]. unfold nan_result. rewrite quiet_nonzero; [done|]. unfold nan_choice. repeat case_match; done.
  - apply orb_false_iff in EN as [EN1 EN2]. cbn [nz Z.eqb negb]. rewrite Ia, Ib by done. assert (0 <= Z.lxor (sign_of F b) neg <= 1) as Hx by (destruct Hsb as [-> | ->], Hneg as [-> | ->]; split; vm_compute; discriminate). unfold signed_inf. pose proof sign_range as (S1 & _); rewrite !(pack_infinity F Hok) by lia.
    repeat case_match; try done; by intros [= <-].
Qed.

End Ops.
End Special.

(** * Products and quotients *)

(** The special cases of a function that follows the fields of its operands. *)
Ltac special_cases F HF mode a b flags Ha Hb :=
  let Hok := fresh in pose proof (arith_ok F HF) as Hok;
  let ea := fresh in let ma := fresh in let Ua := fresh in let Hsa := fresh in let Na := fresh in let Za := fresh in let Ia := fresh in
  let eb := fresh in let mb := fresh in let Ub := fresh in let Hsb := fresh in let Nb := fresh in let Zb := fresh in let Ib := fresh in
  destruct (special_fields F HF mode a flags Ha) as (ea & ma & Ua & Hsa & Na & Za & Ia); destruct (special_fields F HF mode b (in_flags F mode a flags) Hb) as (eb & mb & Ub & Hsb & Nb & Zb & Ib);
  pose proof (sign_range F HF a b Ha Hb); rewrite Ua, Ub, (process_NaNs_result F HF) by done; destruct (is_NaN F a || is_NaN F b) eqn:EN;
  [ intros [= <-]; unfold nan_result; rewrite (quiet_nonzero F HF); [done|unfold nan_choice; repeat case_match; done]
  | apply orb_false_iff in EN as [EN1 EN2]; cbn [nz Z.eqb negb]; rewrite ?Za, ?Zb; specialize (Ia EN1); specialize (Ib EN2); let t := eval vm_compute in (top_exp F) in change (top_exp F) with t in Ia, Ib; rewrite ?Ia, ?Ib;
    unfold signed_inf, fp32_infinity, fp64_infinity, fp32_zero, fp64_zero; rewrite ?(pack_infinity F Hok), ?(pack_zero F Hok) by lia; destruct (is_inf F a), (is_inf F b), (is_zero F mode a), (is_zero F mode b); cbn [andb orb negb]; (discriminate || by intros [= <-]) ].

Lemma mul32_special a b mode flags r : pattern F32 a -> pattern F32 b -> special_product F32 mode a b (in_flags F32 mode b (in_flags F32 mode a flags)) = Some r -> fp32_mul a b mode flags = Ok r.
Proof. intros Ha Hb. unfold special_product, fp32_mul, fp32_unpack, fp32_process_NaNs. special_cases F32 (or_introl eq_refl : arith F32) mode a b flags Ha Hb. Qed.
Lemma mul64_special a b mode flags r : pattern F64 a -> pattern F64 b -> special_product F64 mode a b (in_flags F64 mode b (in_flags F64 mode a flags)) = Some r -> fp64_mul a b mode flags = Ok r.
Proof. intros Ha Hb. unfold special_product, fp64_mul, fp64_unpack, fp64_process_NaNs. special_cases F64 (or_intror eq_refl : arith F64) mode a b flags Ha Hb. Qed.
Lemma div32_special a b mode flags r : pattern F32 a -> pattern F32 b -> special_quotient F32 mode a b (in_flags F32 mode b (in_flags F32 mode a flags)) = Some r -> fp32_div a b mode flags = Ok r.
Proof. intros Ha Hb. unfold special_quotient, fp32_div, fp32_unpack, fp32_process_NaNs. special_cases F32 (or_introl eq_refl : arith F32) mode a b flags Ha Hb. Qed.
Lemma div64_special a b mode flags r : pattern F64 a -> pattern F64 b -> special_quotient F64 mode a b (in_flags F64 mode b (in_flags F64 mode a flags)) = Some r -> fp64_div a b mode flags = Ok r.
Proof. intros Ha Hb. unfold special_quotient, fp64_div, fp64_unpack, fp64_process_NaNs. special_cases F64 (or_intror eq_refl : arith F64) mode a b flags Ha Hb. Qed.

(** * Roots and fused operations *)

Lemma sqrt32_special a mode flags r : pattern F32 a -> special_root F32 mode a (in_flags F32 mode a flags) = Some r -> fp32_sqrt a mode flags = Ok r.
Proof.
  intros Ha. unfold special_root, fp32_sqrt, fp32_unpack, fp32_process_NaN. pose proof (special_fields F32 (or_introl eq_refl) mode a flags Ha) as (e & m & U & Hs & N & Zr & I). rewrite U, N.
  destruct (is_NaN F32 a) eqn:EN.
  - intros [= <-]. rewrite (process_NaN_quiet F32 (or_introl eq_refl)). unfold signalling. by rewrite EN.
  - specialize (I eq_refl). change (top_exp F32) with 255 in I. rewrite Zr, I. unfold fp32_zero, fp32_infinity, signed_inf. destruct (is_zero F32 mode a); [rewrite (pack_zero F32 F32_ok) by lia; by intros [= <-]|].
    destruct Hs as [-> | ->]; cbn [nz Z.eqb negb]; destruct (is_inf F32 a); cbn [andb]; (discriminate || by intros [= <-]).
Qed.
Lemma sqrt64_special a mode flags r : pattern F64 a -> special_root F64 mode a (in_flags F64 mode a flags) = Some r -> fp64_sqrt a mode flags = Ok r.
Proof.
  intros Ha. unfold special_root, fp64_sqrt, fp64_unpack, fp64_process_NaN. pose proof (special_fields F64 (or_intror eq_refl) mode a flags Ha) as (e & m & U & Hs & N & Zr & I). rewrite U, N.
  destruct (is_NaN F64 a) eqn:EN.
  - intros [= <-]. rewrite (process_NaN_quiet F64 (or_intror eq_refl)). unfold signalling. by rewrite EN.
  - specialize (I eq_refl). change (top_exp F64) with 2047 in I. rewrite Zr, I. unfold fp64_zero, fp64_infinity, signed_inf. destruct (is_zero F64 mode a); [rewrite (pack_zero F64 F64_ok) by lia; by intros [= <-]|].
    destruct Hs as [-> | ->]; cbn [nz Z.eqb negb]; destruct (is_inf F64 a); cbn [andb]; (discriminate || by intros [= <-]).
Qed.

(** What the code of a fused operation tests of its operands. *)
Section Fused.
Context (F : Format) (HF : arith F) (a b c mode flags : Z) (Ha : pattern F a) (Hb : pattern F b) (Hc : pattern F c).
Local Abbreviation fl := (in_flags F mode c (in_flags F mode b (in_flags F mode a flags))).

Lemma fused_operands : exists ea ma eb mb ec mc, unpack F a mode flags = (sign_of F a, ea, ma, in_flags F mode a flags) /\
  unpack F b mode (in_flags F mode a flags) = (sign_of F b, eb, mb, in_flags F mode b (in_flags F mode a flags)) /\
  unpack F c mode (in_flags F mode b (in_flags F mode a flags)) = (sign_of F c, ec, mc, fl) /\
  forall (T : Type) (nan : Z -> Z -> T) (rest : Z -> T),
  (let '(x, flags) := process_NaNs3 F a b c mode fl in
   let '(x, flags) := if (ea =? top_exp F) && nz (Z.land (Z.shiftr ma (f_P F - 1)) 1) &&
       (((mb =? 0) && (ec =? top_exp F) && negb (nz (wrap_u (f_W F) (Z.shiftl mc (f_W F - f_P F))))) || ((mc =? 0) && (eb =? top_exp F) && negb (nz (wrap_u (f_W F) (Z.shiftl mb (f_W F - f_P F))))))
     then (defaultNaN F, Z.lor flags FPLIB_IOC) else (x, flags) in
   if nz x then nan x flags
   else if ((eb =? top_exp F) && (mc =? 0)) || ((ec =? top_exp F) && (mb =? 0)) || ((ea =? top_exp F) && ((eb =? top_exp F) || (ec =? top_exp F)) && negb (sign_of F a =? Z.lxor (sign_of F b) (sign_of F c))) then nan (defaultNaN F) (Z.lor flags FPLIB_IOC)
   else if ea =? top_exp F then nan (infinity F (sign_of F a)) flags
   else if (eb =? top_exp F) || (ec =? top_exp F) then nan (infinity F (Z.lxor (sign_of F b) (sign_of F c))) flags
   else rest flags) =
  match special_fused F mode a b c fl with Some (x, flags) => nan x flags | None => rest fl end.
Proof.
  destruct (special_fields F HF mode a flags Ha) as (ea & ma & Ua & _ & _ & _ & _). destruct (special_fields F HF mode b (in_flags F mode a flags) Hb) as (eb & mb & Ub & _ & _ & Zb & _).
  destruct (special_fields F HF mode c (in_flags F mode b (in_flags F mode a flags)) Hc) as (ec & mc & Uc & _ & _ & Zc & _). exists ea, ma, eb, mb, ec, mc. split; [done|]. split; [done|]. split; [done|]. intros T nan rest.
  destruct (fused_fields F HF mode a _ _ _ _ Ha Ua) as (_ & Qa & Ta). destruct (fused_fields F HF mode b _ _ _ _ Hb Ub) as (Ib & _ & Tb). destruct (fused_fields F HF mode c _ _ _ _ Hc Uc) as (Ic & _ & Tc).
  rewrite (process_NaNs3_result F HF) by done. rewrite <- !andb_assoc, Ib, Ic, !andb_assoc, Qa, Ta, Tb, Tc, Zb, Zc. pose proof (arith_ok F HF) as Hok. pose proof (sign_range F HF a a Ha Ha) as (S1 & _). pose proof (sign_range F HF b c Hb Hc) as (_ & _ & S2).
  rewrite !(pack_infinity F Hok) by lia. unfold special_fused, inf_zero, invalid, signed_inf. assert (nz (defaultNaN F) = true) as Hd by (by destruct HF as [-> | ->]).
  destruct (is_NaN F a && negb (signalling F a) && (is_zero F mode b && is_inf F c || is_zero F mode c && is_inf F b)) eqn:EQ.
  - assert (forall t : bool, Z.lor (if t then Z.lor fl FPLIB_IOC else fl) FPLIB_IOC = Z.lor fl FPLIB_IOC) as Hi by (intros []; [by rewrite <- Z.lor_assoc|done]).
    destruct (is_NaN F a || is_NaN F b || is_NaN F c); rewrite Hd; [by rewrite Hi|done].
  - destruct (is_NaN F a || is_NaN F b || is_NaN F c) eqn:EN.
    + rewrite (quiet_nonzero F HF); [done|]. unfold nan_choice3. repeat case_match; done.
    + apply orb_false_iff in EN as [[-> ->]%orb_false_iff ->]. cbn [nz Z.eqb negb orb]. destruct (is_inf F a), (is_inf F b), (is_inf F c), (is_zero F mode b), (is_zero F mode c); cbn [andb orb]; try done; by destruct (negb (_ =? _)).
Qed.
End Fused.

Lemma muladd32_special a b c scale mode flags r : pattern F32 a -> pattern F32 b -> pattern F32 c ->
  special_fused F32 mode a b c (in_flags F32 mode c (in_flags F32 mode b (in_flags F32 mode a flags))) = Some r -> fp32_muladd a b c scale mode flags = Ok r.
Proof.
  intros Ha Hb Hc Hr. destruct (fused_operands F32 (or_introl eq_refl) a b c mode flags Ha Hb Hc) as (ea & ma & eb & mb & ec & mc & Ua & Ub & Uc & H). unfold fp32_muladd, fp32_unpack, fp32_process_NaNs3. rewrite Ua, Ub, Uc.
  etransitivity; [apply (H (res (Z * Z)) (fun x flags => Ok (x, flags)))|]. rewrite Hr. by destruct r.
Qed.
Lemma muladd64_special a b c scale mode flags r : pattern F64 a -> pattern F64 b -> pattern F64 c ->
  special_fused F64 mode a b c (in_flags F64 mode c (in_flags F64 mode b (in_flags F64 mode a flags))) = Some r -> fp64_muladd a b c scale mode flags = Ok r.
Proof.
  intros Ha Hb Hc Hr. destruct (fused_operands F64 (or_intror eq_refl) a b c mode flags Ha Hb Hc) as (ea & ma & eb & mb & ec & mc & Ua & Ub & Uc & H). unfold fp64_muladd, fp64_unpack, fp64_process_NaNs3. rewrite Ua, Ub, Uc.
  etransitivity; [apply (H (res (Z * Z)) (fun x flags => Ok (x, flags)))|]. rewrite Hr. by destruct r.
Qed.

(** * With the status register *)

(** The operations with their special results, on any operands. *)
Inductive operation : Format -> (Z -> res (Z * Z)) -> (Z -> option (Z * Z)) -> Prop :=
  | op_add F a b : arith F -> pattern F a -> pattern F b ->
      operation F (fplibAdd F a b) (fun fpscr => let mode := modeConv fpscr in special_sum F mode (sign_of F b) a b (in_flags F mode b (in_flags F mode a 0)))
  | op_sub F a b : arith F -> pattern F a -> pattern F b ->
      operation F (fplibSub F a b) (fun fpscr => let mode := modeConv fpscr in special_sum F mode (1 - sign_of F b) a b (in_flags F mode b (in_flags F mode a 0)))
  | op_mul32 a b : pattern F32 a -> pattern F32 b ->
      operation F32 (fplibMul32 a b) (fun fpscr => let mode := modeConv fpscr in special_product F32 mode a b (in_flags F32 mode b (in_flags F32 mode a 0)))
  | op_mul64 a b : pattern F64 a -> pattern F64 b ->
      operation F64 (fplibMul64 a b) (fun fpscr => let mode := modeConv fpscr in special_product F64 mode a b (in_flags F64 mode b (in_flags F64 mode a 0)))
  | op_muladd32 a b c : pattern F32 a -> pattern F32 b -> pattern F32 c ->
      operation F32 (fplibMulAdd32 a b c) (fun fpscr => let mode := modeConv fpscr in special_fused F32 mode a b c (in_flags F32 mode c (in_flags F32 mode b (in_flags F32 mode a 0))))
  | op_muladd64 a b c : pattern F64 a -> pattern F64 b -> pattern F64 c ->
      operation F64 (fplibMulAdd64 a b c) (fun fpscr => let mode := modeConv fpscr in special_fused F64 mode a b c (in_flags F64 mode c (in_flags F64 mode b (in_flags F64 mode a 0))))
  | op_div32 a b : pattern F32 a -> pattern F32 b ->
      operation F32 (fplibDiv32 a b) (fun fpscr => let mode := modeConv fpscr in special_quotient F32 mode a b (in_flags F32 mode b (in_flags F32 mode a 0)))
  | op_div64 a b : pattern F64 a -> pattern F64 b ->
      operation F64 (fplibDiv64 a b) (fun fpscr => let mode := modeConv fpscr in special_quotient F64 mode a b (in_flags F64 mode b (in_flags F64 mode a 0)))
  | op_sqrt32 a : pattern F32 a -> operation F32 (fplibSqrt32 a) (fun fpscr => let mode := modeConv fpscr in special_root F32 mode a (in_flags F32 mode a 0))
  | op_sqrt64 a : pattern F64 a -> operation F64 (fplibSqrt64 a) (fun fpscr => let mode := modeConv fpscr in special_root F64 mode a (in_flags F64 mode a 0)).

(** The roots of finite operands. *)
Inductive root_op : Format -> (Z -> res (Z * Z)) -> Z -> Prop :=
  | root_sqrt32 a : finite F32 a -> root_op F32 (fplibSqrt32 a) a
  | root_sqrt64 a : finite F64 a -> root_op F64 (fplibSqrt64 a) a.

Section Flags.
Context (F : Format) (mode fl : Z) (r : Z * Z) (Hfl : flags_ok fl).

Ltac special_flags := cbv zeta; repeat case_match; try done; intros [= <-]; cbn [snd invalid nan_result]; unfold nan_result, invalid; cbn [snd]; repeat case_match; flags_tac.
Lemma special_sum_ok s a b : special_sum F mode s a b fl = Some r -> flags_ok (snd r).
Proof using Hfl. unfold special_sum. special_flags. Qed.
Lemma special_product_ok a b : special_product F mode a b fl = Some r -> flags_ok (snd r).
Proof using Hfl. unfold special_product. special_flags. Qed.
Lemma special_quotient_ok a b : special_quotient F mode a b fl = Some r -> flags_ok (snd r).
Proof using Hfl. unfold special_quotient. special_flags. Qed.
Lemma special_root_ok a : special_root F mode a fl = Some r -> flags_ok (snd r).
Proof using Hfl. unfold special_root. special_flags. Qed.
Lemma special_fused_ok a b c : special_fused F mode a b c fl = Some r -> flags_ok (snd r).
Proof using Hfl. unfold special_fused. special_flags. Qed.
End Flags.

Lemma operation_special F f sp fpscr r : operation F f sp -> sp fpscr = Some r -> f fpscr = Ok (raised fpscr r).
Proof.
  assert (forall F a b c, flags_ok (in_flags F (modeConv fpscr) b (in_flags F (modeConv fpscr) a 0)) /\ flags_ok (in_flags F (modeConv fpscr) a 0) /\ flags_ok (in_flags F (modeConv fpscr) c (in_flags F (modeConv fpscr) b (in_flags F (modeConv fpscr) a 0)))) as Hfl.
  { intros G a b c. split_and!; repeat apply in_flags_ok; done. }
  intros [G a b HG Ha Hb|G a b HG Ha Hb|a b Ha Hb|a b Ha Hb|a b c Ha Hb Hc|a b c Ha Hb Hc|a b Ha Hb|a b Ha Hb|a Ha|a Ha] Hr; cbv zeta in Hr; apply with_fpscr_raised.
  - apply add_special; auto. by rewrite Z.lxor_0_r.
  - eapply special_sum_ok; [|exact Hr]. apply (Hfl _ a b a).
  - apply add_special; auto. destruct (fields G (arith_ok G HG) b Hb) as ([E|E] & _); rewrite E in *; done.
  - eapply special_sum_ok; [|exact Hr]. apply (Hfl _ a b a).
  - by apply mul32_special.
  - eapply special_product_ok; [|exact Hr]. apply (Hfl _ a b a).
  - by apply mul64_special.
  - eapply special_product_ok; [|exact Hr]. apply (Hfl _ a b a).
  - by apply muladd32_special.
  - eapply special_fused_ok; [|exact Hr]. apply (Hfl _ a b c).
  - by apply muladd64_special.
  - eapply special_fused_ok; [|exact Hr]. apply (Hfl _ a b c).
  - by apply div32_special.
  - eapply special_quotient_ok; [|exact Hr]. apply (Hfl _ a b a).
  - by apply div64_special.
  - eapply special_quotient_ok; [|exact Hr]. apply (Hfl _ a b a).
  - by apply sqrt32_special.
  - eapply special_root_ok; [|exact Hr]. apply (Hfl _ a a a).
  - by apply sqrt64_special.
  - eapply special_root_ok; [|exact Hr]. apply (Hfl _ a a a).
Qed.

(** Without a special result the operands are finite. *)
Section Finite.
Context (F : Format) (HF : arith F) (mode s a b c fl : Z) (Ha : pattern F a) (Hb : pattern F b) (Hc : pattern F c).

Ltac finite_tac H := destruct (is_NaN F a) eqn:?, (is_inf F a) eqn:?; cbn [andb orb] in H; try done; try (case_match; done); try (destruct (is_NaN F b) eqn:?, (is_inf F b) eqn:?; cbn [andb orb] in H; try done; try (repeat case_match; done)).
Lemma special_sum_none : special_sum F mode s a b fl = None -> finite F a /\ finite F b.
Proof using Ha Hb. unfold special_sum. intros H. finite_tac H. split; by apply not_special. Qed.
Lemma special_product_none : special_product F mode a b fl = None -> finite F a /\ finite F b.
Proof using Ha Hb. unfold special_product. intros H. finite_tac H. split; by apply not_special. Qed.
Lemma special_quotient_none : special_quotient F mode a b fl = None -> finite F a /\ finite F b /\ ~ (val F b == 0)%Q.
Proof using HF Ha Hb.
  unfold special_quotient. intros H. finite_tac H. split; [by apply not_special|]. split; [by apply not_special|]. apply (not_zero F HF mode); [done|]. destruct (is_zero F mode b); [|done]. by repeat case_match.
Qed.
Lemma special_root_none : special_root F mode a fl = None -> finite F a.
Proof using Ha. unfold special_root. intros H. destruct (is_NaN F a) eqn:?, (is_inf F a) eqn:?; try done; [by repeat case_match|by apply not_special]. Qed.
Lemma special_fused_none : special_fused F mode a b c fl = None -> finite F a /\ finite F b /\ finite F c.
Proof using Ha Hb Hc.
  unfold special_fused. intros H. finite_tac H; destruct (is_NaN F c) eqn:?, (is_inf F c) eqn:?; cbn [andb orb] in H; try done; try (repeat case_match; done); split_and!; by apply not_special.
Qed.
End Finite.

Lemma operation_rounds F f sp fpscr : operation F f sp -> sp fpscr = None -> (exists v, exact_op F f v) \/ exists a, root_op F f a.
Proof.
  intros [G a b HG Ha Hb|G a b HG Ha Hb|a b Ha Hb|a b Ha Hb|a b c Ha Hb Hc|a b c Ha Hb Hc|a b Ha Hb|a b Ha Hb|a Ha|a Ha] H; cbv zeta in H.
  - left. apply special_sum_none in H as [??]; [|done..]. eexists. by apply exact_add.
  - left. apply special_sum_none in H as [??]; [|done..]. eexists. by apply exact_sub.
  - left. apply special_product_none in H as [??]; [|done..]. eexists. by apply exact_mul32.
  - left. apply special_product_none in H as [??]; [|done..]. eexists. by apply exact_mul64.
  - left. apply special_fused_none in H as (? & ? & ?); [|done..]. eexists. by apply exact_muladd32.
  - left. apply special_fused_none in H as (? & ? & ?); [|done..]. eexists. by apply exact_muladd64.
  - left. apply special_quotient_none in H as (? & ? & ?); [|by left|done..]. eexists. by apply exact_div32.
  - left. apply special_quotient_none in H as (? & ? & ?); [|by right|done..]. eexists. by apply exact_div64.
  - right. apply special_root_none in H; [|done]. eexists. by apply root_sqrt32.
  - right. apply special_root_none in H; [|done]. eexists. by apply root_sqrt64.
Qed.
