(* ===== verification/FpTheorems.v ===== *)
(** What the floating-point functions of the ARM instructions compute, on
    finite operands: the exact result of the operation on the operands, with
    denormals flushed to zero in the flush-to-zero mode, rounded once in the
    direction of the status register, whose cumulative flags are those of the
    rounding. *)
From Stdlib Require Import QArith Qabs Lqa.
From S2P Require Import Prelude Fplib FpSpec FpRound FpArith FpMul FpFused FpDiv FpSqrt FpNearest FpOps FpConvert FpRoundInt FpFormats FpCompare FpSpecial.
From S2P Require Import FpNearest FpOps.
#[local] Open Scope Z_scope.

(** * Addition, multiplication *)

(** C16 (Addition and subtraction).  On finite operands of binary32 and binary64,
    [fplibAdd] and [fplibSub] return the exact sum or difference rounded once,
    in every rounding mode and with flush-to-zero, the sign of an exact zero
    that of the rounding mode, and accumulate the flags of the rounding. *)
Theorem fplib_add_rounds F a b fpscr : arith F -> finite F a -> finite F b ->
  let mode := modeConv fpscr in let flags := in_flags F mode b (in_flags F mode a 0) in
  fplibAdd F a b fpscr = Ok (raised fpscr (rounded_sum F mode (sign_of F a) (sign_of F b) (in_val F mode a + in_val F mode b) flags)) /\
  fplibSub F a b fpscr = Ok (raised fpscr (rounded_sum F mode (sign_of F a) (1 - sign_of F b) (in_val F mode a - in_val F mode b) flags)).
Proof.
  apply fplib_add_eq.
Qed.
Lemma fplib_add_rounds_witness :
  fplibAdd F32 1069547520 1075838976 0 = Ok (raised 0 (rounded_sum F32 0 0 0 (in_val F32 0 1069547520 + in_val F32 0 1075838976) 0)) /\
  fplibAdd F32 1069547520 1075838976 0 = Ok (1082130432, 0).
Proof.
  split; [|reflexivity]. apply (fplib_add_rounds F32 1069547520 1075838976 0); [left; reflexivity|split; [unfold pattern; cbn; lia|reflexivity]..].
Defined.

(** C21 (Multiplication).  On finite operands [fplibMul] of binary32 and of
    binary64 returns the exact product rounded once, a zero with the sign of
    the product, and accumulates the flags of the rounding. *)
Theorem fplib_mul_rounds fpscr : let mode := modeConv fpscr in
  (forall a b, finite F32 a -> finite F32 b ->
    fplibMul32 a b fpscr = Ok (raised fpscr (rounded_product F32 mode (Z.lxor (sign_of F32 a) (sign_of F32 b)) (in_val F32 mode a * in_val F32 mode b)
      (in_flags F32 mode b (in_flags F32 mode a 0))))) /\
  (forall a b, finite F64 a -> finite F64 b ->
    fplibMul64 a b fpscr = Ok (raised fpscr (rounded_product F64 mode (Z.lxor (sign_of F64 a) (sign_of F64 b)) (in_val F64 mode a * in_val F64 mode b)
      (in_flags F64 mode b (in_flags F64 mode a 0))))).
Proof.
  split; intros; [by apply mul32_eq|by apply mul64_eq].
Qed.

Lemma fplib_mul_rounds_witness :
  fplibMul64 1 4602678819172646912 0 = Ok (raised 0 (rounded_product F64 0 0 (in_val F64 0 1 * in_val F64 0 4602678819172646912) 0)) /\
  fplibMul64 1 4602678819172646912 0 = Ok (0, 24).
Proof. split; [|reflexivity]. apply (proj2 (fplib_mul_rounds 0)); (split; [unfold pattern; cbn; lia|reflexivity]). Defined.

(** C17 (Fused multiplication and addition).  On finite operands [fplibMulAdd] of
    binary32 and of binary64 returns the product of the last two operands plus
    the first, rounded only once. *)
Theorem fplib_muladd_rounds fpscr : let mode := modeConv fpscr in
  (forall a b c, finite F32 a -> finite F32 b -> finite F32 c ->
    fplibMulAdd32 a b c fpscr = Ok (raised fpscr (rounded_sum F32 mode (sign_of F32 a) (Z.lxor (sign_of F32 b) (sign_of F32 c))
      (fused_val F32 mode a b c 0) (fused_flags F32 mode a b c 0)))) /\
  (forall a b c, finite F64 a -> finite F64 b -> finite F64 c ->
    fplibMulAdd64 a b c fpscr = Ok (raised fpscr (rounded_sum F64 mode (sign_of F64 a) (Z.lxor (sign_of F64 b) (sign_of F64 c))
      (fused_val F64 mode a b c 0) (fused_flags F64 mode a b c 0)))).
Proof.
  split; intros; [by apply muladd32_eq|by apply muladd64_eq].
Qed.
Lemma fplib_muladd_rounds_witness : let a := 1065353216 in let b := 1065353217 in let c := 3212836863 in
  fplibMulAdd32 a b c 0 = Ok (raised 0 (rounded_sum F32 (modeConv 0) (sign_of F32 a) (Z.lxor (sign_of F32 b) (sign_of F32 c))
    (fused_val F32 (modeConv 0) a b c 0) (fused_flags F32 (modeConv 0) a b c 0))) /\
  fplibMulAdd32 a b c 0 = Ok (3011510270, 0).
Proof. split; [|vm_compute; reflexivity]. apply (proj1 (fplib_muladd_rounds 0)); (split; [unfold pattern; cbn; lia|reflexivity]). Defined.

(** C18 (Division).  On finite operands [fplibDiv] of binary32 and of binary64
    (whose quotient comes from two steps of Newton's method) returns the exact
    quotient rounded once; a number divided by zero is an infinity and raises
    division by zero, zero divided by zero the default NaN and an invalid
    operation. *)
Theorem fplib_div_rounds fpscr : let mode := modeConv fpscr in
  (forall a b, finite F32 a -> finite F32 b ->
    fplibDiv32 a b fpscr = Ok (raised fpscr (quotient F32 mode a b (in_flags F32 mode b (in_flags F32 mode a 0))))) /\
  (forall a b, finite F64 a -> finite F64 b ->
    fplibDiv64 a b fpscr = Ok (raised fpscr (quotient F64 mode a b (in_flags F64 mode b (in_flags F64 mode a 0))))).
Proof.
  split; intros; [by apply div32_eq|by apply div64_eq].
Qed.
Lemma fplib_div_rounds_witness : let a := 4607182418800017408 in let b := 4613937818241073152 in
  fplibDiv64 a b 0 = Ok (raised 0 (quotient F64 (modeConv 0) a b (in_flags F64 (modeConv 0) b (in_flags F64 (modeConv 0) a 0)))) /\
  fplibDiv64 a b 0 = Ok (4599676419421066581, 16).
Proof. split; [|vm_compute; reflexivity]. apply (proj2 (fplib_div_rounds 0)); (split; [unfold pattern; cbn; lia|reflexivity]). Defined.

(** C19 (Square root).  On a finite operand [fplibSqrt] of binary32 and of
    binary64 (by Newton's method) returns the exact root
    rounded once: what the root rounds to if it is rational, and otherwise what
    every rational number close to it rounds to; a zero is its own root, and the
    root of a negative number the default NaN and an invalid operation. *)
Theorem fplib_sqrt_rounds fpscr : let mode := modeConv fpscr in
  (forall a, finite F32 a -> exists r, fplibSqrt32 a fpscr = Ok (raised fpscr r) /\ root F32 mode a (in_flags F32 mode a 0) r) /\
  (forall a, finite F64 a -> exists r, fplibSqrt64 a fpscr = Ok (raised fpscr r) /\ root F64 mode a (in_flags F64 mode a 0) r).
Proof.
  split; intros; [by apply sqrt32_eq|by apply sqrt64_eq].
Qed.
Lemma fplib_sqrt_rounds_witness : let a := 4611686018427387904 in
  (exists r, fplibSqrt64 a 0 = Ok (raised 0 r) /\ root F64 (modeConv 0) a (in_flags F64 (modeConv 0) a 0) r) /\ fplibSqrt64 a 0 = Ok (4609047870845172685, 16).
Proof. split; [|vm_compute; reflexivity]. apply (proj2 (fplib_sqrt_rounds 0)). split; [unfold pattern; cbn; lia|reflexivity]. Defined.

(** C15 (Rounding to nearest).  In the mode that rounds to nearest, without
    flush-to-zero, the result of an addition, subtraction, multiplication, fused
    multiplication and addition or division, if finite, is a number of the
    format closest to the exact result; and it is the exact result if the
    operation does not raise the inexact flag. *)
Theorem fplib_nearest F f v fpscr : exact_op F f v -> Z.land (modeConv fpscr) 3 = FPLIB_RN -> test (modeConv fpscr) FPLIB_FZ = false ->
  exists x flags, f fpscr = Ok (x, Z.lor fpscr flags) /\
    (finite F x -> (forall c, finite F c -> Qabs (v - val F x) <= Qabs (v - val F c))%Q /\ (Z.testbit flags 4 = false -> (val F x == v)%Q)).
Proof.
  intros H Hrn Hfz. destruct (exact_op_rounds F f v fpscr H Hfz) as (HF & s & v' & Hs & Ev & ->). pose proof (arith_ok F HF) as Hok.
  eexists _, _. split; [reflexivity|]. intros Hfin. assert (f_half F = false) as Hh by (by destruct HF as [-> | ->]).
  destruct (Qeq_bool v' 0) eqn:E0; cbn [fst snd] in *.
  - destruct (inf_mag_bound F Hok) as [HB0 HB]. pose proof Hok as [HP _ _ _ _]. pose proof (pow2_pos (f_P F) ltac:(lia)) as HpP.
    apply Qeq_bool_iff in E0. assert (val F (with_sign F s 0) == v)%Q as Ez.
    { rewrite (val_with_sign F s 0 Hs) by lia. rewrite <- Ev, E0. apply signed_0. unfold mag_value. rewrite (proj2 (Z.ltb_lt _ _)) by done. change (inject_Z 0) with 0%Q. ring. }
    split; [|done]. intros c _. rewrite Ez. assert (v - v == 0)%Q as -> by ring. apply Qabs_nonneg.
  - split; [intros c Hc; rewrite <- Ev; by apply rounded_nearest|]. intros Hix. rewrite <- Ev. by apply rounded_exact.
Qed.
Lemma fplib_nearest_witness : exists x flags, fplibDiv64 4607182418800017408 4613937818241073152 0 = Ok (x, Z.lor 0 flags) /\
    (finite F64 x -> (forall c, finite F64 c -> Qabs (val F64 4607182418800017408 / val F64 4613937818241073152 - val F64 x) <= Qabs (val F64 4607182418800017408 / val F64 4613937818241073152 - val F64 c))%Q /\
      (Z.testbit flags 4 = false -> (val F64 x == val F64 4607182418800017408 / val F64 4613937818241073152)%Q)).
Proof.
  apply (fplib_nearest F64); [|reflexivity|reflexivity]. apply exact_div64; [split; [unfold pattern; cbn; lia|reflexivity]..|]. vm_compute. discriminate.
Defined.

(** (Integers as floating-point numbers).  The conversion of a signed or
    unsigned fixed-point number of 64 bits rounds its value once, in the mode of
    the instruction, and raises the flags of that rounding. *)
Theorem fixed_to_fp_rounds op fbits u rounding fpscr : 0 <= op < 2 ^ 64 -> 0 <= fbits <= 64 -> 0 <= rounding <= 3 ->
  let v := (inject_Z (word_value u op) * pow2 (- fbits))%Q in let mode := cvt_mode rounding fpscr in
  Z.land mode 3 = rounding /\
  fplibFixedToFP_32 op fbits u rounding fpscr = Ok (raised fpscr (rounded_product F32 mode 0 v 0)) /\
  fplibFixedToFP_64 op fbits u rounding fpscr = Ok (raised fpscr (rounded_product F64 mode 0 v 0)).
Proof. intros Ho Hf Hr v mode. split; [by apply cvt_mode_rounding|]. apply fixed_to_fp_eq; lia. Qed.
Lemma fixed_to_fp_rounds_witness : let op := 2 ^ 64 - 3 in word_value false op = -3 /\
  fplibFixedToFP_32 op 1 false 0 0 = Ok (raised 0 (rounded_product F32 (cvt_mode 0 0) 0 (inject_Z (word_value false op) * pow2 (- 1)) 0)) /\
  fplibFixedToFP_32 op 1 false 0 0 = Ok (3217031168, 0).
Proof. split; [reflexivity|]. split; [|vm_compute; reflexivity]. apply (proj1 (proj2 (fixed_to_fp_rounds (2 ^ 64 - 3) 1 false 0 0 ltac:(lia) ltac:(lia) ltac:(lia)))). Defined.

(** C33 (Floating-point numbers as integers).  The conversion to a fixed-point
    number of 32 or 64 bits, signed or unsigned, rounds the scaled number to an
    integer in the direction asked for and saturates it to the bounds of the
    result; infinities saturate, and a NaN gives zero, as invalid operations. *)
Theorem fp_to_fixed_saturates a fbits u rm fpscr : 0 <= fbits <= 64 -> 0 <= rm <= 4 ->
  (pattern F32 a -> fplibFPToFixed_32_32 a fbits u rm fpscr = Ok (raised fpscr (fixed_of F32 fpscr 32 u rm fbits a)) /\
    fplibFPToFixed_32_64 a fbits u rm fpscr = Ok (raised fpscr (fixed_of F32 fpscr 64 u rm fbits a))) /\
  (pattern F64 a -> fplibFPToFixed_64_32 a fbits u rm fpscr = Ok (raised fpscr (fixed_of F64 fpscr 32 u rm fbits a)) /\
    fplibFPToFixed_64_64 a fbits u rm fpscr = Ok (raised fpscr (fixed_of F64 fpscr 64 u rm fbits a))).
Proof.
  intros Hf Hrm. split; intros Ha; split; [apply (to_fixed_eq F32 (or_introl eq_refl) fpscr false)|apply (to_fixed_eq F32 (or_introl eq_refl) fpscr true)|apply (to_fixed_eq F64 (or_intror eq_refl) fpscr false)|apply (to_fixed_eq F64 (or_intror eq_refl) fpscr true)]; done.
Qed.
Lemma fp_to_fixed_saturates_witness : let a := 3223322624 in
  fplibFPToFixed_32_32 a 0 false FPRounding_TIEAWAY 0 = Ok (raised 0 (fixed_of F32 0 32 false FPRounding_TIEAWAY 0 a)) /\ fplibFPToFixed_32_32 a 0 false FPRounding_TIEAWAY 0 = Ok (2 ^ 32 - 3, 16).
Proof.
  split; [|vm_compute; reflexivity]. apply (proj1 (proj1 (fp_to_fixed_saturates 3223322624 0 false FPRounding_TIEAWAY 0 ltac:(lia) ltac:(vm_compute; split; discriminate)) ltac:(unfold pattern; cbn; lia))).
Defined.

(** (Conversion to a narrower format).  A finite number is rounded once to
    the narrower format, in the direction asked for, with the flags of the
    rounding. *)
Theorem convert_narrow_rounds a rm fpscr : rm <> FPRounding_TIEAWAY -> let mode := modeConv fpscr in
  (finite F64 a -> fplibConvert_64_32 a rm fpscr = Ok (raised fpscr (narrowed F32 rm mode (sign_of F64 a) (in_val F64 mode a) (in_flags F64 mode a 0))) /\
    fplibConvert_64_16 a rm fpscr = Ok (raised fpscr (narrowed F16 rm (half_mode fpscr) (sign_of F64 a) (in_val F64 mode a) (in_flags F64 mode a 0)))) /\
  (finite F32 a -> fplibConvert_32_16 a rm fpscr = Ok (raised fpscr (narrowed F16 rm (half_mode fpscr) (sign_of F32 a) (in_val F32 mode a) (in_flags F32 mode a 0)))).
Proof.
  intros Hrm mode. assert (wider F32 F64 /\ wider F16 F32 /\ wider F16 F64) as (W1 & W2 & W3) by (unfold wider; auto 6).
  split; intros Ha; [split; [by apply (convert_to_single_finite F64 F32 W1)|by apply (convert_to_half_finite F64 F16 W3)]|by apply (convert_to_half_finite F32 F16 W2)].
Qed.
Lemma convert_narrow_rounds_witness : let a := 4591870180066957722 in
  fplibConvert_64_32 a 0 0 = Ok (raised 0 (narrowed F32 0 (modeConv 0) (sign_of F64 a) (in_val F64 (modeConv 0) a) (in_flags F64 (modeConv 0) a 0))) /\ fplibConvert_64_32 a 0 0 = Ok (1036831949, 16).
Proof.
  split; [|vm_compute; reflexivity]. apply (proj1 (proj1 (convert_narrow_rounds 4591870180066957722 0 0 ltac:(discriminate)) ltac:(split; [unfold pattern; cbn; lia|reflexivity]))).
Defined.

(** C32 (Conversion to a wider format and back).  While FPSCR.FZ is 0 (otherwise a
    denormal is flushed to zero and raises a flag), a finite number is kept by the
    conversion to a wider format, without a flag, and converting the result back
    returns the operand without a flag, in every rounding mode but TIEAWAY (which
    the narrowing conversions assert against). *)
Theorem convert_roundtrip a r rm fpscr : rm <> FPRounding_TIEAWAY -> test (modeConv fpscr) FPLIB_FZ = false ->
  (finite F32 a -> exists c, fplibConvert_32_64 a r fpscr = (c, fpscr) /\ finite F64 c /\ (val F64 c == val F32 a)%Q /\ fplibConvert_64_32 c rm fpscr = Ok (a, fpscr)) /\
  (finite F16 a -> (exists c, fplibConvert_16_32 a r fpscr = (c, fpscr) /\ finite F32 c /\ (val F32 c == val F16 a)%Q /\ fplibConvert_32_16 c rm fpscr = Ok (a, fpscr)) /\
    exists c, fplibConvert_16_64 a r fpscr = (c, fpscr) /\ finite F64 c /\ (val F64 c == val F16 a)%Q /\ fplibConvert_64_16 c rm fpscr = Ok (a, fpscr)).
Proof.
  intros Hrm Hfz. assert (wider F32 F64 /\ wider F16 F32 /\ wider F16 F64) as (W1 & W2 & W3) by (unfold wider; auto 6).
  split; intros Ha; [by apply (there_and_back F32 F64)|split; [by apply (there_and_back F16 F32)|by apply (there_and_back F16 F64)]].
Qed.
Lemma convert_roundtrip_witness : exists c, fplibConvert_16_32 1 0 0 = (c, 0) /\ finite F32 c /\ (val F32 c == val F16 1)%Q /\ fplibConvert_32_16 c 0 0 = Ok (1, 0).
Proof. apply (proj1 (proj2 (convert_roundtrip 1 0 0 0 ltac:(discriminate) eq_refl) ltac:(split; [unfold pattern; cbn; lia|reflexivity]))). Defined.

(** C34 (Comparisons).  The comparisons are the order of the operands' keys,
    which for finite operands is the order of the numbers; an operand that is a
    NaN makes them false, or unordered, and raises the invalid flag, for
    equality only if it is signalling. *)
Theorem fplib_compares F a b sn fpscr : fmt_ok F -> pattern F a -> pattern F b -> let mode := modeConv fpscr in
  let fl := in_flags F mode b (in_flags F mode a 0) in let invalid := Z.lor fl FPLIB_IOC in let ka := key F mode a in let kb := key F mode b in
  fplibCompareEQ F a b fpscr = raised fpscr (if ordered F a b then (Z.b2z (ka =? kb), fl) else (0, if signalling F a || signalling F b then invalid else fl)) /\
  fplibCompareGE F a b fpscr = raised fpscr (if ordered F a b then (Z.b2z (kb <=? ka), fl) else (0, invalid)) /\
  fplibCompareGT F a b fpscr = raised fpscr (if ordered F a b then (Z.b2z (kb <? ka), fl) else (0, invalid)) /\
  fplibCompare F a b sn fpscr = raised fpscr (if ordered F a b then (if ka =? kb then 6 else if ka <? kb then 8 else 2, fl) else (3, if signalling F a || signalling F b || sn then invalid else fl)) /\
  (ka < kb <-> (in_val F mode a < in_val F mode b)%Q) /\ (ka = kb <-> (in_val F mode a == in_val F mode b)%Q).
Proof.
  intros HF Ha Hb mode fl invalid ka kb. destruct (fplib_compare_eqs F HF a b fpscr Ha Hb) as (E1 & E2 & E3). split_and!; [exact E1|exact E2|exact E3|by apply fplib_compare_nzcv|by apply key_lt_val..].
Qed.
Lemma fplib_compares_witness : let a := 3212836864 in fplibCompareGE F32 1065353216 a 0 = raised 0 (if ordered F32 1065353216 a then (Z.b2z (key F32 (modeConv 0) a <=? key F32 (modeConv 0) 1065353216), 0) else (0, 1)) /\
  fplibCompareGE F32 1065353216 a 0 = (1, 0).
Proof. split; [|reflexivity]. apply (proj1 (proj2 (fplib_compares F32 1065353216 3212836864 false 0 F32_ok ltac:(unfold pattern; cbn; lia) ltac:(unfold pattern; cbn; lia)))). Defined.

(** (Maximum and minimum).  Of two operands that are not NaNs the larger and
    the smaller one is returned; of zeros, the maximum is positive if one of
    them is, the minimum negative if one of them is. *)
Theorem fplib_max_min F a b fpscr : fmt_ok F -> pattern F a -> pattern F b -> ordered F a b = true -> let mode := modeConv fpscr in
  let fl := in_flags F mode b (in_flags F mode a 0) in
  (exists c, (c = a \/ c = b) /\ key F mode c = Z.max (key F mode a) (key F mode b) /\ sign_of F c = Z.min (sign_of F a) (sign_of F b) /\ fplibMax F a b fpscr = raised fpscr (in_op F fpscr c, fl)) /\
  (exists c, (c = a \/ c = b) /\ key F mode c = Z.min (key F mode a) (key F mode b) /\ sign_of F c = Z.max (sign_of F a) (sign_of F b) /\ fplibMin F a b fpscr = raised fpscr (in_op F fpscr c, fl)).
Proof.
  intros HF Ha Hb Ho mode fl. pose proof (extremum F HF a b fpscr true Ha Hb) as [K1 S1]. pose proof (extremum F HF a b fpscr false Ha Hb) as [K2 S2]. cbn match in K1, S1, K2, S2.
  assert (forall t : bool, (if t then a else b) = a \/ (if t then a else b) = b) as Hc by (intros []; auto).
  split; (eexists; split; [|split; [|split]]); [|exact K1|exact S1|by apply minmax_ordered| |exact K2|exact S2|by apply minmax_ordered]; apply Hc.
Qed.
Lemma fplib_max_min_witness : exists c, (c = 0 \/ c = 2147483648) /\ key F32 (modeConv 0) c = 0 /\ sign_of F32 c = 0 /\ fplibMax F32 0 2147483648 0 = raised 0 (in_op F32 0 c, 0).
Proof. apply (proj1 (fplib_max_min F32 0 2147483648 0 F32_ok ltac:(unfold pattern; cbn; lia) ltac:(unfold pattern; cbn; lia) eq_refl)). Defined.

(** (Rounding to an integer).  A finite number is rounded to an integer in
    the direction asked for; the result is that integer with the sign of the
    operand, and the inexact flag is raised only if asked for and due. *)
Theorem fplib_round_int F a rm ex fpscr : arith F -> finite F a -> 0 <= rm <= 4 ->
  exists r flags, fplibRoundInt F a rm ex fpscr = Ok (r, Z.lor fpscr flags) /\ rounded_int F (modeConv fpscr) rm ex a r flags.
Proof. intros HF Ha Hrm. by apply round_int_ok. Qed.
Lemma fplib_round_int_witness : (exists r flags, fplibRoundInt F64 4612811918334230528 FPRounding_TIEEVEN true 0 = Ok (r, Z.lor 0 flags) /\
    rounded_int F64 (modeConv 0) FPRounding_TIEEVEN true 4612811918334230528 r flags) /\ fplibRoundInt F64 4612811918334230528 FPRounding_TIEEVEN true 0 = Ok (4611686018427387904, 16).
Proof.
  split; [|vm_compute; reflexivity]. apply (fplib_round_int F64); [by right|split; [unfold pattern; cbn; lia|reflexivity]|vm_compute; split; discriminate].
Defined.

(** C20 (NaNs, infinities and invalid operations).  Whatever the operands, the
    result of an addition, subtraction, multiplication, fused operation,
    division or root is the quieted NaN, the infinity, the zero or the default
    NaN of the tables with the flags that are due, or the operands are finite and
    the exact result is rounded. *)
Theorem fplib_special F f sp fpscr : operation F f sp ->
  match sp fpscr with Some r => f fpscr = Ok (raised fpscr r) | None => (exists v, exact_op F f v) \/ exists a, root_op F f a end.
Proof. intros H. destruct (sp fpscr) as [r|] eqn:E; [by apply (operation_special F f sp)|by apply (operation_rounds F f sp fpscr)]. Qed.
Lemma fplib_special_witness : fplibDiv32 1065353216 2147483648 0 = Ok (raised 0 (4286578688, 2)).
Proof. apply (fplib_special F32 _ _ 0 (op_div32 1065353216 2147483648 ltac:(unfold pattern; cbn; lia) ltac:(unfold pattern; cbn; lia))). Defined.
